(* ===== verification/_CoqProject ===== *)
-Q . S2P
Prelude.v
Error.v
Path.v
Numbers.v
Text.v
Utf8.v
NameCodec.v
Symlink.v
Model.v
Inode.v
Handle.v
Router.v
Provider.v
Executor.v
Namespace.v
Adapter.v
TarIndex.v
TarReader.v
Spool.v
Sha256.v
FsProtocol.v
FsHelper.v
Domain.v
Compose.v
CreateContainer.v
Protocol.v
Frame.v
Transport.v
DockerError.v
Export.v
Services.v
Facade.v
Session.v
Subscription.v
Terminal.v
Client.v
Archive.v
Container.v
FsClient.v
HelperProvider.v
HelperSession.v
VolumePool.v
Coordinator.v
Persistent.v
Caches.v
Events.v
DaemonState.v
ContainerModel.v
ContainersPage.v
ContainersListing.v
PageFormat.v
ContainerLogs.v
NetworksPage.v
VolumesPage.v
ImagesPage.v
LocalFiles.v
LiveStats.v
TerminalPage.v
