(* ===== verification/Prelude.v ===== *)
(** * TuxStack: a verification of its Docker file system, daemon, client and pages

    TuxStack shows the file systems of Docker containers, images and volumes as
    a read-only FUSE mount, and manages Docker through a daemon that command
    line and graphical clients reach over a local socket.  This library models
    the parts of the program that decide what the mount shows and what a client
    is answered and shown, and proves that they do it correctly.

    ** The program and its parts

    - crates/tuxstack-vfs is the file system itself: names and paths, link
      resolution, inode numbers, open handles, the provider interface, the
      namespace that mounts providers below one root, the router that maps a
      container path to the mount that serves it, and the FUSE adapter that
      answers the kernel by calling a provider through a bounded executor.
    - crates/docker-core talks to Docker.  Under src/vfs_providers, tar_index.rs
      parses an archive stream chunk by chunk into an index, spool.rs keeps the
      content of archives within a byte budget, archive.rs and container.rs are
      the providers of a container's files, and support.rs, volume.rs and
      helper_bind.rs those of volumes and bind mounts, which run the helper
      through src/services/filesystem; error.rs classifies the
      errors of the Engine; src/cache keeps answers of the Engine in memory and
      in a database, joins equal requests and follows the Engine's events.
    - crates/tuxstack-fs-protocol and crates/tuxstack-fs-helper are a small
      program that runs inside a preview container and answers listing, stat,
      preview, hash and link requests under a browse root.
    - crates/tuxstack-domain holds the records every part exchanges, with the
      grouping of Compose projects and the validation of requests to create a
      container.
    - crates/tuxstack-protocol is the protocol between daemon and client,
      crates/tuxstack-daemon serves connections with requests, subscriptions and
      terminals, and crates/tuxstack-client correlates answers and events and
      offers the services of docker-core as typed calls.
    - crates/gui is the graphical client.  Its models and controllers are state
      machines without Qt: a bridge feeds them the user's actions and the
      answers of the client, and shows their rows and views.

    ** The files

    Shared:
    - [Prelude] (this file): results with the three outcomes of Rust code
      ([Ok], [Err], [Panic]), bytes and machine integers, splitting and joining,
      total comparators with the sort the code uses, and a generic follower of
      chains (symbolic links and hardlinks are two instances).
    - [Numbers], [Utf8], [Text]: what the sources use of the standard library's
      integer parsing, UTF-8 decoding and string functions.

    The file system (crates/tuxstack-vfs):
    - [Error], [Model]: error.rs and model.rs.
    - [Path], [NameCodec]: path.rs.  A name, a path (components and the cached
      length) and a link target are records of bytes; every constructor that
      validates is a function to a result.
    - [Symlink]: symlink.rs.  The callback of the chain resolution is a function
      with its own state.
    - [Inode]: inode.rs.  The table is a record of finite maps; the operations
      are functions to a result and the next table, and a step relation collects
      them for invariants by induction.
    - [Handle]: handle.rs, over an interface [Slab] for the slab crate with its
      documented laws and a list instance that satisfies them.
    - [Router]: router.rs.
    - [Provider]: provider.rs.  An effectful operation is a program over a world,
      [prog W A]; the provider trait is the class [ReadOnlyFilesystemProvider]
      with its laws [ProviderLaws], and the in-memory provider an instance.
    - [Executor]: executor.rs, as the outcome of one call and as a step relation
      of concurrent callers that exchange tokens.
    - [Namespace]: namespace.rs, again an instance of the provider class, for any
      order in which a hash map is iterated ([HashIter]).
    - [Adapter]: adapter.rs.  Each handler of the FUSE trait is a function from
      the adapter and the world to a reply and their next state; the theorems
      hold for every provider that meets the interface.

    Archives and the helper:
    - [TarIndex], [TarReader]: tar_index.rs.  The reader's state is the record
      of the source; its stream is the list of items it will deliver.
    - [Spool]: spool.rs.  The counter, directory and leases are one state, the
      failures and short reads of the file system a class [SpoolEnv].
    - [Archive]: archive.rs, the provider that serves one path of a container
      from Docker's archive of it, over [TarReader] and [Spool].
    - [Container]: container.rs, the snapshot of an exported root filesystem with
      its mount overlays, and the provider that joins it with the mounts through
      [Router].
    - [Sha256], [FsProtocol], [FsHelper]: the helper.  The calls of [std::fs] are
      a class [HelperFs], a parameter of the commands.
    - [FsClient]: services/filesystem, the client of the helper.  The exec calls
      of the Engine are the class [DockerExec], the JSON of a message the class
      [HelperJson] with its laws; [serves] says that an exec runs [FsHelper].
    - [HelperProvider]: support.rs, the provider over a helper session, an
      instance of the provider class over any [SessionFactory].
    - [HelperSession]: volume_provider.rs, image_provider.rs and the session of
      helper_bind.rs, which create the helper containers ([DockerHelpers]).
    - [VolumePool]: volume.rs and the rest of helper_bind.rs; a shared reference
      to a provider is an index into the store of all providers.

    Records and protocol:
    - [Domain], [Compose], [CreateContainer]: crates/tuxstack-domain.
    - [Protocol], [Frame]: crates/tuxstack-protocol.  The CBOR library is the
      class [Cbor] with its laws [CborLaws].
    - [DockerError]: error.rs of docker-core and the translations of errors by
      daemon and client.

    Daemon and client:
    - [Transport], [Session], [Subscription], [Terminal], [Export], [Services]:
      ipc.rs of the daemon.  [Transport] is the socket, [Session] the connection
      with its request and subscription slots, [Subscription] and [Terminal] the
      tasks behind them, [Export] the image export, [Services] the dispatch of
      requests to the services, which are the classes [DockerServices] and
      [DaemonOps].
    - [DaemonState]: state.rs of the daemon, the plan of providers that is
      attached to [Namespace], the mount and the queries of [Services] about it,
      over classes [DaemonProviders] and [DaemonHost].
    - [Client]: lib.rs of the client.  [Facade]: its services.rs, composed with
      [Services] and [DockerError].

    Caches (crates/docker-core/src/cache):
    - [Coordinator]: coordinator.rs, the tasks that share a request as a step
      function.
    - [Persistent]: persistent.rs.  Tables are lists of rows, the statements
      functions on them, the write-behind queue a list of labels.
    - [Caches]: the in-memory caches.  [Events]: events.rs, the event monitor.

    Pages (crates/gui/src):
    - [ContainerModel], [ContainersPage], [ContainersListing]: container_model.rs
      and controllers/containers.rs.
    - [PageFormat]: the text and row helpers the other pages share.
    - [ContainerLogs]: controllers/container_logs.rs.
    - [NetworksPage], [VolumesPage], [ImagesPage]: the models and controllers of
      networks, volumes and images; [ImagesPage] also holds error.rs.
    - [LiveStats], [TerminalPage]: controllers/container_stats.rs and
      container_terminal.rs, over a class [Vt100] for the terminal parser.
    - [LocalFiles]: controllers/local_fuse_files.rs and
      local_fuse_file_model.rs, with the local files as a class [LocalFs].

    A page's state is the record of its controller, each method a function of
    it, and an inductive type of events collects the methods the bridge calls,
    so that a theorem about every list of events is one about every order in
    which actions and answers, current or late, can reach the page.

    Asynchronous functions are awaited where they are called and become
    sequential programs, except where tasks share state: the executor, the
    connection, the terminals, the shared requests and the client are step functions whose labels say
    which task moves, so a theorem about every list of labels is one about every
    interleaving.  A call that would panic is the outcome [Panic], so the
    absence of panics is part of the theorems.

    ** What the theorems show

    - The mount is read-only and its tables stay consistent under every sequence
      of requests, with providers that fail, time out or are cancelled; handles
      read what the provider returns and stay dead once released; directories
      can be read page by page; links never lead out of the mount.
    - Listings agree with lookups (in-memory provider and namespace), paths are
      routed to the deepest mount, handles survive changes of the namespace.
    - Inode numbers are never reused and name one file; handles with a stale
      generation are refused; the executor keeps its bound in every interleaving.
    - Paths are canonical and their operations obey the algebra of trees; the
      name codec is reversible and yields one valid component.
    - An archive is read back as it was written, independently of how the
      transport cuts it into chunks; reading terminates on every stream, and the
      index is always valid; archive paths cannot escape, and hardlinks resolve
      exactly when their chain ends.
    - The spool refines a store of immutable byte strings for any number of
      interleaved writers and leases, counts its bytes exactly, and gives
      everything back when a call fails.  A file opened in an archive reads as
      the bytes of the archive's entry, and every open handle is accounted for.
    - A snapshot is the export with exactly the mounts laid over it, its handles
      expire with it, and the listing of a container agrees with its lookups
      across mount boundaries.
    - The helper's tokens and canonical paths stay below the browse root, its
      listings can be paged completely, its previews are exact, and its
      hand-written SHA-256 is the standard's function for every way of reading.
    - Through client, exec and helper, a read of a volume's file returns exactly
      the requested range, and a listing the visible names with what the helper
      saw of them.  A provider holds at most one helper container and loses none;
      files opened in a lost session stay closed; a bind helper that cannot be
      used is removed; there is one live provider per volume; the archives built
      for the helper are read back by the tar reader.
    - Grouping and sorting of containers and volumes are the declared orders;
      validation accepts exactly the valid requests.
    - Frames round-trip, do not depend on how the bytes arrive and never make a
      reader take more than its limit.  A connection answers each message exactly
      once, announces a subscription before its events and is silent after it,
      stays within its limits and gives every slot back; terminal sessions never
      leak.  The client gives an answer to the call that asked for it and leaves
      nobody waiting when a connection ends.
    - The daemon reports its mount as it is, attaches every listed volume, and
      answers the path of a resource with the provider that serves it.
    - A call through client, protocol and daemon gives what the service itself
      gives, with its errors translated; an export replaces its destination
      completely or not at all.
    - Equal requests are sent once and their callers get one answer; what is in
      the database after all writes is the newest value of each key, and its
      tables keep their columns and keys; the event monitor reports every change
      it saw, with a refresh wherever it may have missed some.
    - Each page shows exactly the rows that match its search in its order,
      selects only what is listed, shows a detail only for what is selected and
      in the state ready, and ends its operations; the log view is the last lines
      of the stream within its bounds, whatever is paused and resumed.
    - The file browser never leaves its resource, its tokens name one path each,
      and saving is atomic; statistics are exact sums of the selection; a terminal
      session is never lost and its output never shown in another's screen.

    Some theorems state behaviour that contradicts what the code means to do:
    [Inode.double_delete_splits_hardlink],
    [TarReader.long_name_leaks_to_next_entry], [Archive.archive_root_shadowed],
    [FsHelper.readlink_accepts_sibling],
    [FsHelper.list_limit_zero_panics], [FsClient.cut_listing_accepted],
    [HelperProvider.late_session_survives],
    [HelperSession.volume_start_failure_leaks],
    [HelperSession.volume_label_collision],
    [VolumePool.volume_root_hides_names],
    [DaemonState.failed_mount_stays_mounting],
    [DaemonState.resource_errors_not_told_apart],
    [DaemonState.long_name_container_lost],
    [DaemonState.failed_listing_empties_namespace], [Transport.completion_desynchronises_reads],
    [DockerError.connect_exhaustion_misreported],
    [Export.export_deletes_existing_part], [Terminal.terminal_limit_exceeded],
    [Client.stale_ends_block_early_events], [Client.early_events_overtaken],
    [Client.old_connection_event_delivered],
    [Coordinator.finished_request_served_forever], [Persistent.get_never_hits],
    [Persistent.storage_keys_collide], [Persistent.removed_key_comes_back],
    [Persistent.usage_writes_reorder], [Caches.expired_usage_returned],
    [ContainersListing.group_operation_stuck],
    [ContainersListing.removed_member_still_in_detail],
    [ContainerLogs.since_duration_panics],
    [ImagesPage.patch_leaves_search_stale], [LocalFiles.files_never_ready] and
    [LocalFiles.left_folder_listed].

    ** Bounds and fuel

    Machine integers are [Z] with their width written out where the code checks
    or wraps (64-bit inode numbers, identifiers and generations, 32-bit handle
    generations, u64 sizes, 32-bit words).  Recursion that is not structural
    takes fuel, and running out of it is a [Panic] that the theorems exclude: the
    tar reader's loops get one more than the number of bytes still available,
    since each turn consumes a byte; PAX records and flags get the length of
    their input; the codec's loops the length of the name; canonicalisation the
    40 link hops the code allows; padding of a hash 64 turns; a positioned read
    of the spool the number of bytes it asks for; the search for an unused
    subscription number one more than the numbers in use.

    ** What is not modelled

    Poisoned locks and the interleaving of handlers inside one request of the
    mount; mount options, sessions and kernel notifications; the text of error
    messages where it includes platform strings; socket binding and the accept
    loop; the client's socket discovery and stream adapters; the providers of
    images and of directly readable bind mounts, the mapping of Engine answers
    (types of a third-party client), the daemon's start and configuration, the
    command line, and of the graphical interface the Qt bridges.  Lower-casing, dates and floating-point
    text of the standard library appear as classes where the pages use them. *)

From stdpp Require Export relations.
From Stdlib Require Export ZArith Lia Sorted.
From Stdlib.Strings Require Export Byte.
From stdpp Require Export base gmap strings list countable.
From stdpp Require sorting.

#[export] Set Default Goal Selector "!".

(** ** Results

    Rust code that returns [Result<A, E>] becomes a value of [result E A].
    A call that would panic ([expect], [unwrap], an index out of range) is the
    third outcome, so that the absence of panics is a statement and not a
    convention. *)
Inductive result (E A : Type) : Type :=
  | Ok (a : A)
  | Err (e : E)
  | Panic (site : string).
Arguments Ok {E A} _.
Arguments Err {E A} _.
Arguments Panic {E A} _.

#[export] Instance result_ret {E} : MRet (result E) := fun A => @Ok E A.
#[export] Instance result_bind {E} : MBind (result E) := fun A B f m =>
  match m with
  | Ok a => f a
  | Err e => Err e
  | Panic s => Panic s
  end.
#[export] Instance result_fmap {E} : FMap (result E) := fun A B f m =>
  match m with
  | Ok a => Ok (f a)
  | Err e => Err e
  | Panic s => Panic s
  end.
#[export] Instance result_eq_dec {E A} `{EqDecision E, EqDecision A} : EqDecision (result E A).
Proof. solve_decision. Defined.

(** [Option::ok_or] *)
Definition ok_or {E A} (e : E) (o : option A) : result E A :=
  match o with Some a => Ok a | None => Err e end.

(** [Result::expect] and [Option::expect] *)
Definition expect {E E' A} (site : string) (m : result E' A) : result E A :=
  match m with Ok a => Ok a | Err _ => Panic site | Panic s => Panic s end.

(** The early return [if c { return Err(e); }]. *)
Definition guard_err {E} (c : bool) (e : E) : result E () := if c then Err e else Ok tt.

Definition is_ok {E A} (m : result E A) : bool :=
  match m with Ok _ => true | _ => false end.

Definition is_panic {E A} (m : result E A) : bool :=
  match m with Panic _ => true | _ => false end.

(** [iter.map(f).collect::<Result<Vec<_>, _>>()] *)
Fixpoint mapM_result {E A B} (f : A → result E B) (l : list A) : result E (list B) :=
  match l with
  | [] => Ok []
  | a :: l => b ← f a; bs ← mapM_result f l; Ok (b :: bs)
  end.

Lemma bind_Ok {E A B} (m : result E A) (f : A → result E B) b :
  m ≫= f = Ok b ↔ ∃ a, m = Ok a ∧ f a = Ok b.
Proof. destruct m; cbn; naive_solver. Qed.

Lemma ok_or_Ok {E A} (e : E) (o : option A) a : ok_or e o = Ok a ↔ o = Some a.
Proof. destruct o; cbn; naive_solver. Qed.

Lemma guard_err_Ok {E} (c : bool) (e : E) u : guard_err c e = Ok u ↔ c = false.
Proof. destruct c, u; cbn; naive_solver. Qed.

Lemma mapM_result_Ok {E A B} (f : A → result E B) l k :
  mapM_result f l = Ok k ↔ Forall2 (fun a b => f a = Ok b) l k.
Proof.
  revert k; induction l as [|a l IH]; intros k; cbn.
  - split; [intros [= <-]; constructor | by inversion 1].
  - rewrite bind_Ok. setoid_rewrite bind_Ok. split.
    + intros (b & Hb & bs & Hbs & [= <-]). constructor; [done | by apply IH].
    + inversion 1; subst. eexists; split; [done |].
      eexists; split; [by apply IH | done].
Qed.

Lemma mapM_result_total {E A B} (f : A → result E B) l :
  (∀ a, a ∈ l → ∃ b, f a = Ok b) → ∃ k, mapM_result f l = Ok k.
Proof.
  induction l as [|a l IH]; intros H; cbn; [eauto |].
  destruct (H a) as [b ->]; [set_solver |]. destruct IH as [k ->]; [set_solver |]. cbn. eauto.
Qed.

(** ** Bytes and machine integers

    A [u8] is [Byte.byte]; its value is [u8 b : Z].  A wider machine integer
    is a [Z] with its width written where it matters. *)
#[export] Instance byte_eq_dec : EqDecision byte := Byte.byte_eq_dec.
#[export] Program Instance byte_countable : Countable byte :=
  inj_countable Byte.to_N Byte.of_N _.
Next Obligation. intros b. apply Byte.of_to_N. Qed.

Definition u8 (b : byte) : Z := Z.of_N (Byte.to_N b).

Definition of_u8 (z : Z) : byte := default x00 (Byte.of_N (Z.to_N (z mod 256))).

Definition bytes (s : string) : list byte := String.list_byte_of_string s.

Definition usize_max : Z := 2 ^ 64 - 1.
Definition u64_max : Z := 2 ^ 64 - 1.
Definition u32_max : Z := 2 ^ 32 - 1.
Definition i64_max : Z := 2 ^ 63 - 1.

Definition checked_add (max a b : Z) : option Z :=
  if bool_decide (a + b ≤ max)%Z then Some (a + b)%Z else None.
Definition checked_mul (max a b : Z) : option Z :=
  if bool_decide (a * b ≤ max)%Z then Some (a * b)%Z else None.
Definition saturating_add (max a b : Z) : Z := Z.min max (a + b).
Definition saturating_sub (a b : Z) : Z := Z.max 0 (a - b).
Definition wrapping_add (bits a b : Z) : Z := (a + b) mod 2 ^ bits.

(** [slice.len()] as a machine integer. *)
Definition len {A} (l : list A) : Z := Z.of_nat (length l).

Lemma u8_range b : (0 ≤ u8 b < 256)%Z.
Proof. unfold u8. pose proof (Byte.to_N_bounded b). lia. Qed.

Lemma u8_inj a b : u8 a = u8 b → a = b.
Proof.
  unfold u8. intros H%N2Z.inj. pose proof (Byte.of_to_N a) as Ha.
  rewrite H, Byte.of_to_N in Ha. congruence.
Qed.

Lemma of_u8_value z : (0 ≤ z < 256)%Z → u8 (of_u8 z) = z.
Proof.
  intros Hz. unfold u8, of_u8. rewrite Z.mod_small by lia.
  destruct (Byte.of_N (Z.to_N z)) as [b|] eqn:E; cbn.
  - apply Byte.to_of_N in E. lia.
  - apply Byte.of_N_None_iff in E. lia.
Qed.

Lemma u8_of_u8 b : of_u8 (u8 b) = b.
Proof. apply u8_inj, of_u8_value, u8_range. Qed.

Lemma u8_of_u8_mod z : u8 (of_u8 z) = (z mod 256)%Z.
Proof.
  replace (of_u8 z) with (of_u8 (z mod 256)) by (unfold of_u8; by rewrite Zmod_mod).
  apply of_u8_value. apply Z.mod_pos_bound. lia.
Qed.

(** [to_be_bytes] of an unsigned integer of [n] bytes, and its inverse. *)
Fixpoint be_bytes (n : nat) (v : Z) : list byte :=
  match n with
  | O => []
  | S n => be_bytes n (v / 256) ++ [of_u8 v]
  end.
Definition from_be_bytes (bs : list byte) : Z := foldl (fun acc b => (acc * 256 + u8 b)%Z) 0%Z bs.

Lemma be_bytes_length n v : length (be_bytes n v) = n.
Proof. revert v. induction n as [|n IH]; intros v; cbn; [done |]. rewrite length_app, IH. cbn. lia. Qed.

Lemma from_be_bytes_snoc bs b : from_be_bytes (bs ++ [b]) = (from_be_bytes bs * 256 + u8 b)%Z.
Proof. unfold from_be_bytes. by rewrite foldl_app. Qed.

Lemma from_be_be n v : from_be_bytes (be_bytes n v) = (v mod 256 ^ Z.of_nat n)%Z.
Proof.
  revert v. induction n as [|n IH]; intros v; [by rewrite Z.mod_1_r |]. cbn [be_bytes].
  rewrite from_be_bytes_snoc, IH, u8_of_u8_mod, Nat2Z.inj_succ, Z.pow_succ_r, (Z.rem_mul_r v 256) by lia. lia.
Qed.

Lemma Z_lor_disjoint a b : Z.land a b = 0%Z → Z.lor a b = (a + b)%Z.
Proof. intros H. pose proof (Z.add_lor_land a b). lia. Qed.

Lemma Z_testbit_small a n : (0 ≤ n)%Z → (0 ≤ a < 2 ^ n)%Z → Z.testbit a n = false.
Proof. intros Hn Ha. rewrite Z.testbit_false, Z.div_small by lia. done. Qed.

Lemma len_nonneg {A} (l : list A) : (0 ≤ len l)%Z.
Proof. unfold len. lia. Qed.

Lemma len_app {A} (l k : list A) : len (l ++ k) = (len l + len k)%Z.
Proof. unfold len. rewrite length_app. lia. Qed.

Lemma len_cons {A} (a : A) l : len (a :: l) = (1 + len l)%Z.
Proof. unfold len. cbn. lia. Qed.

Lemma len_nil {A} : len (@nil A) = 0%Z.
Proof. done. Qed.

Lemma len_zero_iff {A} (l : list A) : len l = 0%Z ↔ l = [].
Proof. destruct l; unfold len; cbn; split; intros; (done || lia). Qed.

(** ** Splitting and joining byte strings

    [split_on] is [slice.split(|b| *b == sep)]: it never returns an empty
    list, and adjacent separators give empty pieces. *)
Fixpoint split_on (sep : byte) (l : list byte) : list (list byte) :=
  match l with
  | [] => [[]]
  | b :: l =>
      if decide (b = sep) then [] :: split_on sep l
      else match split_on sep l with
           | [] => [[b]]
           | p :: ps => (b :: p) :: ps
           end
  end.

Fixpoint join_with (sep : byte) (ps : list (list byte)) : list byte :=
  match ps with
  | [] => []
  | [p] => p
  | p :: ps => p ++ sep :: join_with sep ps
  end.

Lemma split_on_ne sep l : split_on sep l ≠ [].
Proof. destruct l as [|b l]; cbn; [done | case_decide; [done |]]. by destruct (split_on sep l). Qed.

Lemma split_on_cons_ne sep b l :
  b ≠ sep → ∃ p ps, split_on sep l = p :: ps ∧ split_on sep (b :: l) = (b :: p) :: ps.
Proof.
  intros Hb. pose proof (split_on_ne sep l) as Hne. cbn. rewrite decide_False by done.
  destruct (split_on sep l) as [|p ps]; [done | by eauto].
Qed.

Lemma split_on_app sep a l :
  sep ∉ a → split_on sep (a ++ sep :: l) = a :: split_on sep l.
Proof.
  induction a as [|b a IH]; intros Ha; cbn.
  - by rewrite decide_True.
  - apply not_elem_of_cons in Ha as [? ?]. rewrite decide_False by done. by rewrite IH.
Qed.

Lemma split_on_no_sep sep a : sep ∉ a → split_on sep a = [a].
Proof.
  induction a as [|b a IH]; intros Ha; cbn; [done |].
  apply not_elem_of_cons in Ha as [? ?]. rewrite decide_False by done. by rewrite IH.
Qed.

Lemma split_on_Forall sep (P : byte → Prop) l :
  Forall P l → Forall (Forall P) (split_on sep l).
Proof.
  induction 1 as [|b l Hb Hl IH]; cbn; [repeat constructor |].
  case_decide; [by constructor |].
  inversion IH as [|p ps Hp Hps]; subst; repeat constructor; done.
Qed.

Lemma split_on_pieces sep l : Forall (fun p => sep ∉ p) (split_on sep l).
Proof.
  induction l as [|b l IH]; cbn; [constructor; [set_solver | done] |].
  case_decide; [constructor; [set_solver | done] |].
  inversion IH as [|p ps Hp Hps]; subst; constructor; try done; set_solver.
Qed.

Lemma join_split sep l : join_with sep (split_on sep l) = l.
Proof.
  induction l as [|b l IH]; [done |]. pose proof (split_on_ne sep l) as Hne. cbn.
  case_decide as Hb.
  - subst. cbn. destruct (split_on sep l); [done | by rewrite IH].
  - destruct (split_on sep l) as [|p [|q ps]]; [done | |]; cbn in *; by rewrite <- IH.
Qed.

Lemma split_join sep ps :
  ps ≠ [] → Forall (fun p => sep ∉ p) ps → split_on sep (join_with sep ps) = ps.
Proof.
  intros Hne Hps. induction Hps as [|p ps Hp Hps IH]; [done |].
  destruct ps as [|q ps]; cbn [join_with].
  - by apply split_on_no_sep.
  - rewrite split_on_app by done. f_equal. by apply IH.
Qed.

(** ** Comparators and stable sorting

    [Ord::cmp] is a function to [comparison]; [cmp_then] is [then_with].
    [sort_by] is the slice's stable sort. *)
Class TotalCmp {A} (cmp : A → A → comparison) : Prop := {
  cmp_flip a b : cmp b a = CompOpp (cmp a b);
  cmp_trans a b c : cmp a b ≠ Gt → cmp b c ≠ Gt → cmp a c ≠ Gt;
}.

Definition cmp_then {A} (c1 c2 : A → A → comparison) (a b : A) : comparison :=
  match c1 a b with Eq => c2 a b | o => o end.

Definition cmp_by {A B} (f : A → B) (cmp : B → B → comparison) (a b : A) : comparison :=
  cmp (f a) (f b).

Definition cmp_rev {A} (cmp : A → A → comparison) (a b : A) : comparison := cmp b a.

Fixpoint cmp_lex {A} (cmp : A → A → comparison) (l k : list A) : comparison :=
  match l, k with
  | [], [] => Eq
  | [], _ => Lt
  | _, [] => Gt
  | a :: l, b :: k => match cmp a b with Eq => cmp_lex cmp l k | o => o end
  end.

(** [u8::cmp] and the lexicographic order of [[u8]]. *)
Definition byte_cmp (a b : byte) : comparison := (u8 a ?= u8 b)%Z.
Definition bytes_cmp : list byte → list byte → comparison := cmp_lex byte_cmp.

Fixpoint insert_by {A} (cmp : A → A → comparison) (a : A) (l : list A) : list A :=
  match l with
  | [] => [a]
  | b :: l' => match cmp a b with Gt => b :: insert_by cmp a l' | _ => a :: l end
  end.

Definition sort_by {A} (cmp : A → A → comparison) (l : list A) : list A :=
  foldr (insert_by cmp) [] l.

Section total_cmp.
Context {A : Type} (cmp : A → A → comparison) `{!TotalCmp cmp}.

Lemma cmp_refl a : cmp a a = Eq.
Proof. pose proof (cmp_flip a a) as H. destruct (cmp a a); done. Qed.

Lemma cmp_gt_lt a b : cmp a b = Gt → cmp b a = Lt.
Proof. intros H. by rewrite cmp_flip, H. Qed.

Lemma cmp_eq_trans a b c : cmp a b = Eq → cmp b c = Eq → cmp a c = Eq.
Proof.
  intros H1 H2.
  assert (cmp a c ≠ Gt) by (apply (cmp_trans a b c); congruence).
  assert (cmp c a ≠ Gt).
  { apply (cmp_trans c b a); rewrite cmp_flip; [rewrite H2 | rewrite H1]; done. }
  pose proof (cmp_flip a c) as Hf. destruct (cmp a c); cbn in *; congruence.
Qed.

Lemma cmp_lt_trans a b c :
  cmp a b ≠ Gt → cmp b c ≠ Gt → cmp a c = Eq → cmp a b = Eq ∧ cmp b c = Eq.
Proof.
  intros H1 H2 H3.
  assert (cmp c a ≠ Gt) as H4 by (rewrite cmp_flip, H3; done).
  pose proof (cmp_trans b c a H2 H4) as H5. pose proof (cmp_trans c a b H4 H1) as H6.
  rewrite cmp_flip in H5, H6.
  destruct (cmp a b), (cmp b c); cbn in *; done.
Qed.

Lemma sort_by_perm l : sort_by cmp l ≡ₚ l.
Proof.
  assert (∀ a l, insert_by cmp a l ≡ₚ a :: l) as Hins.
  { clear l. intros a l. induction l as [|b l IH]; cbn; [done |].
    destruct (cmp a b); [done | done |]. rewrite IH. constructor. }
  induction l as [|a l IH]; [done |]. cbn. rewrite Hins. by f_equiv.
Qed.

Lemma insert_by_sorted a l :
  StronglySorted (fun x y => cmp x y ≠ Gt) l →
  StronglySorted (fun x y => cmp x y ≠ Gt) (insert_by cmp a l) ∧
  (∀ x, cmp x a ≠ Gt → Forall (fun y => cmp x y ≠ Gt) l →
        Forall (fun y => cmp x y ≠ Gt) (insert_by cmp a l)).
Proof.
  induction 1 as [|b l Hl [IH1 IH2] Hb]; cbn.
  - split; [repeat constructor |]. intros x Hx _. by repeat constructor.
  - destruct (cmp a b) eqn:E.
    1, 2: split; [| intros; by constructor].
    1, 2: constructor; [by constructor |]; constructor; [congruence |].
    1, 2: eapply Forall_impl; [| exact Hb]; intros y Hy; cbn in Hy;
      apply (cmp_trans a b y); [congruence | done].
    apply cmp_gt_lt in E. split.
    + constructor; [done |]. apply IH2; [congruence | done].
    + intros x Hx Hall. inversion Hall; subst. constructor; [done |]. by apply IH2.
Qed.

Lemma sort_by_sorted l : StronglySorted (fun x y => cmp x y ≠ Gt) (sort_by cmp l).
Proof. induction l as [|a l IH]; [constructor |]. by apply insert_by_sorted. Qed.
End total_cmp.

(** A sorted list whose keys are distinct is strictly sorted. *)
Lemma sorted_strict {A B} (cmp : A → A → comparison) (f : A → B) l :
  (∀ a b, cmp a b = Eq → f a = f b) → NoDup (f <$> l) →
  StronglySorted (fun x y => cmp x y ≠ Gt) l → StronglySorted (fun x y => cmp x y = Lt) l.
Proof.
  intros Hf Hnd Hs. induction Hs as [|a l Hs IH Ha]; [constructor |].
  cbn in Hnd. apply list.NoDup_cons in Hnd as [Hni Hnd]. constructor; [by apply IH |].
  apply list.Forall_forall. intros b Hb. pose proof (proj1 (list.Forall_forall _ _) Ha b Hb) as Hab.
  destruct (cmp a b) eqn:E; [| done | done]. exfalso. apply Hni. rewrite (Hf a b E).
  by apply list_elem_of_fmap_2.
Qed.

(** Elements of a list are determined by keys that are distinct in it. *)
Lemma NoDup_fmap_inj {A B} (f : A → B) (l : list A) a b :
  NoDup (f <$> l) → a ∈ l → b ∈ l → f a = f b → a = b.
Proof.
  induction l as [|c l IH]; cbn; [by intros _ ?%not_elem_of_nil |].
  intros [Hc Hnd]%list.NoDup_cons [->|Ha]%elem_of_cons [->|Hb]%elem_of_cons Hf; [done | | | by apply IH].
  - destruct Hc. rewrite Hf. by apply list_elem_of_fmap_2.
  - destruct Hc. rewrite <- Hf. by apply list_elem_of_fmap_2.
Qed.

(** An order whose equality determines a key that is distinct in the list has
    one sorted arrangement of it, whatever the order of the input. *)
Lemma sort_by_unique {A K} (cmp : A → A → comparison) `{!TotalCmp cmp} (key : A → K) (l k : list A) :
  (∀ a b, cmp a b = Eq → key a = key b) → NoDup (key <$> l) → l ≡ₚ k → sort_by cmp l = sort_by cmp k.
Proof.
  intros Hkey Hnd Hp. apply (sorting.StronglySorted_unique_strong (fun x y => cmp x y ≠ Gt)).
  - intros x y Hx Hy H1 H2. rewrite cmp_flip in H2.
    apply (NoDup_fmap_inj key l); [done | by rewrite <- (sort_by_perm cmp l) | |].
    + by rewrite Hp, <- (sort_by_perm cmp k).
    + apply Hkey. by destruct (cmp x y).
  - apply sort_by_sorted, _.
  - apply sort_by_sorted, _.
  - by rewrite !sort_by_perm.
Qed.

#[export] Instance Z_compare_total : TotalCmp Z.compare.
Proof.
  split; [intros; apply Z.compare_antisym |].
  intros a b c. change (a ≤ b → b ≤ c → a ≤ c)%Z. lia.
Qed.

#[export] Instance nat_compare_total : TotalCmp Nat.compare.
Proof.
  split; [intros; apply Nat.compare_antisym |].
  intros a b c. rewrite !Nat.compare_le_iff. lia.
Qed.

#[export] Instance cmp_by_total {A B} (f : A → B) cmp `{!TotalCmp cmp} : TotalCmp (cmp_by f cmp).
Proof. split; unfold cmp_by; [intros; apply cmp_flip |]. intros a b c. apply cmp_trans. Qed.

#[export] Instance cmp_rev_total {A} (cmp : A → A → comparison) `{!TotalCmp cmp} :
  TotalCmp (cmp_rev cmp).
Proof. split; unfold cmp_rev; [intros; apply cmp_flip |]. intros a b c ? ?. by eapply cmp_trans. Qed.

#[export] Instance cmp_then_total {A} (c1 c2 : A → A → comparison) `{!TotalCmp c1, !TotalCmp c2} :
  TotalCmp (cmp_then c1 c2).
Proof.
  split; unfold cmp_then.
  - intros a b. rewrite (cmp_flip (cmp := c1) a b). destruct (c1 a b); cbn; [apply cmp_flip | done..].
  - intros a b c H1 H2.
    assert (c1 a b ≠ Gt) as G1 by (by destruct (c1 a b)).
    assert (c1 b c ≠ Gt) as G2 by (by destruct (c1 b c)).
    pose proof (cmp_trans _ _ _ G1 G2) as G3.
    destruct (c1 a c) eqn:E; [| done | done].
    destruct (cmp_lt_trans c1 _ _ _ G1 G2 E) as [E1 E2]. rewrite E1 in H1. rewrite E2 in H2.
    by eapply cmp_trans.
Qed.

#[export] Instance cmp_lex_total {A} (cmp : A → A → comparison) `{!TotalCmp cmp} :
  TotalCmp (cmp_lex cmp).
Proof.
  split.
  - intros l. induction l as [|a l IH]; intros [|b k]; cbn; [done..|].
    rewrite (cmp_flip a b). destruct (cmp a b); cbn; [apply IH | done..].
  - intros l. induction l as [|a l IH]; intros [|b k] [|c m]; cbn; try done.
    intros H1 H2.
    assert (cmp a b ≠ Gt) as G1 by (by destruct (cmp a b)).
    assert (cmp b c ≠ Gt) as G2 by (by destruct (cmp b c)).
    pose proof (cmp_trans _ _ _ G1 G2) as G3.
    destruct (cmp a c) eqn:E; [| done | done].
    destruct (cmp_lt_trans cmp _ _ _ G1 G2 E) as [E1 E2]. rewrite E1 in H1. rewrite E2 in H2.
    by eapply IH.
Qed.

#[export] Typeclasses Opaque cmp_by cmp_rev cmp_then cmp_lex byte_cmp bytes_cmp.

#[export] Instance byte_cmp_total : TotalCmp byte_cmp.
Proof. unfold byte_cmp. apply (cmp_by_total u8 Z.compare). Qed.

#[export] Instance bytes_cmp_total : TotalCmp bytes_cmp.
Proof. apply (cmp_lex_total byte_cmp). Qed.

Lemma cmp_lex_eq {A} (cmp : A → A → comparison) l k :
  (∀ a b, cmp a b = Eq → a = b) → cmp_lex cmp l k = Eq → l = k.
Proof.
  intros Hinj. revert k. induction l as [|a l IH]; intros [|b k]; cbn; [done..|].
  destruct (cmp a b) eqn:E; [| done | done]. intros H. f_equal; [by apply Hinj | by apply IH].
Qed.

Lemma bytes_cmp_eq l k : bytes_cmp l k = Eq → l = k.
Proof.
  apply cmp_lex_eq. intros a b H%Z.compare_eq. by apply u8_inj.
Qed.

(** ** Following a chain

    A loop that follows a chain of nodes for at most [n] turns and remembers
    the nodes it has seen: [next] either leads to another node ([inl]), ends
    the chain ([inr]) or fails. *)
Section follow.
Context {E A B : Type} `{Countable A} (next : A → result E (A + B)) (loop : E).

Fixpoint follow (n : nat) (a : A) (visited : gset A) : result E B :=
  match n with
  | O => Err loop
  | S n =>
      if bool_decide (a ∈ visited) then Err loop
      else match next a with
           | Ok (inr b) => Ok b
           | Ok (inl a') => follow n a' ({[a]} ∪ visited)
           | Err e => Err e
           | Panic s => Panic s
           end
  end.

Definition chain_step (a a' : A) : Prop := next a = Ok (inl a').

Lemma follow_sound n a visited b :
  follow n a visited = Ok b → ∃ k q, (k < n)%nat ∧ nsteps chain_step k a q ∧ next q = Ok (inr b).
Proof.
  revert a visited. induction n as [|n IH]; intros a visited; cbn; [done |].
  case_bool_decide; [done |]. destruct (next a) as [[a'|b']| |] eqn:En; [| | done | done].
  - intros (k & q & ? & ? & ?)%IH. exists (S k), q. split_and!; [lia | by econstructor | done].
  - intros [= ->]. exists O, a. split_and!; [lia | constructor | done].
Qed.

(** The number of steps to the end of a chain is determined by its start. *)
Lemma chain_length_unique j k a q q' b b' :
  nsteps chain_step j a q → next q = Ok (inr b) →
  nsteps chain_step k a q' → next q' = Ok (inr b') → j = k.
Proof.
  unfold chain_step. intros Hj Hq. revert k. induction Hj as [a|j a a1 q Hs Hj IH]; intros k Hk Hq'.
  - destruct Hk as [|k a a2 q' Hs _]; [done | congruence].
  - destruct Hk as [|k a a2 q' Hs' Hk]; [congruence |]. f_equal. apply IH; [done | congruence | done].
Qed.

(** A chain that ends visits no node twice, so the visited set never cuts it. *)
Lemma follow_complete k n a q b visited :
  nsteps chain_step k a q → next q = Ok (inr b) → (k < n)%nat →
  (∀ v, v ∈ visited → ∃ j, (0 < j)%nat ∧ nsteps chain_step j v a) →
  follow n a visited = Ok b.
Proof.
  intros Hs Hq. revert n visited. induction Hs as [a|k a a' q Hh Hs IH]; intros n visited Hn Hv;
    (destruct n as [|n]; [lia |]); cbn [follow].
  - rewrite bool_decide_eq_false_2; [by rewrite Hq |]. intros (j & Hj & Hjs)%Hv.
    pose proof (chain_length_unique j 0 a a a b b Hjs Hq (nsteps_O _ _) Hq). lia.
  - rewrite bool_decide_eq_false_2.
    + unfold chain_step in Hh. rewrite Hh. apply IH; [done | lia |].
      intros v [->%elem_of_singleton | Hin]%elem_of_union.
      * exists 1%nat. split; [lia |]. by apply nsteps_once.
      * destruct (Hv v Hin) as (j & Hj & Hjs). exists (j + 1)%nat. split; [lia |].
        eapply nsteps_trans; [exact Hjs |]. by apply nsteps_once.
    + intros (j & Hj & Hjs)%Hv. assert (nsteps chain_step (S k) a q) as Hsk by (by econstructor).
      assert (j + S k = S k)%nat; [| lia].
      eapply (chain_length_unique _ _ a q q b b); [by eapply nsteps_trans | done | done | done].
Qed.

Lemma follow_spec n a b :
  follow n a ∅ = Ok b ↔ ∃ k q, (k < n)%nat ∧ nsteps chain_step k a q ∧ next q = Ok (inr b).
Proof.
  split; [apply follow_sound |]. intros (k & q & Hk & Hs & Hq).
  by eapply follow_complete; [done.. | set_solver].
Qed.
End follow.

(** ** Sums over a finite map *)
Definition map_sum {K A} `{Countable K} (f : A → Z) (m : gmap K A) : Z :=
  map_fold (fun _ a acc => (f a + acc)%Z) 0%Z m.

Section map_sum.
Context {K A : Type} `{Countable K} (f : A → Z).

Lemma map_sum_empty : map_sum f (∅ : gmap K A) = 0%Z.
Proof. unfold map_sum. by rewrite map_fold_empty. Qed.

Lemma map_sum_insert_new (m : gmap K A) k a :
  m !! k = None → map_sum f (<[k := a]> m) = (f a + map_sum f m)%Z.
Proof. intros Hk. unfold map_sum.
  apply (map_fold_insert_L (fun _ a acc => (f a + acc)%Z)); [intros; lia | done]. Qed.

Lemma map_sum_delete (m : gmap K A) k a :
  m !! k = Some a → map_sum f m = (f a + map_sum f (delete k m))%Z.
Proof. intros Hk. unfold map_sum.
  apply (map_fold_delete_L (fun _ a acc => (f a + acc)%Z)); [intros; lia | done]. Qed.

Lemma map_sum_insert (m : gmap K A) k a a' :
  m !! k = Some a → map_sum f (<[k := a']> m) = (map_sum f m - f a + f a')%Z.
Proof.
  intros Hk. rewrite (map_sum_delete m k a) by done. rewrite <- insert_delete_eq.
  rewrite map_sum_insert_new by apply lookup_delete_eq. lia.
Qed.

Lemma map_sum_nonneg (m : gmap K A) : map_Forall (fun _ a => 0 ≤ f a)%Z m → (0 ≤ map_sum f m)%Z.
Proof.
  induction m as [|k a m Hk IH] using map_ind; intros Hm; [by rewrite map_sum_empty |].
  apply map_Forall_insert in Hm as [Ha Hm]; [| done]. rewrite map_sum_insert_new by done.
  specialize (IH Hm). lia.
Qed.

(** A positive sum has a positive part. *)
Lemma map_sum_pos (m : gmap K A) : (0 < map_sum f m)%Z → ∃ k a, m !! k = Some a ∧ (0 < f a)%Z.
Proof.
  induction m as [|k a m Hk IH] using map_ind; [rewrite map_sum_empty; lia |].
  rewrite map_sum_insert_new by done. intros Hpos. destruct (decide (0 < f a)%Z) as [Ha|Ha].
  - exists k, a. by rewrite lookup_insert_eq.
  - destruct IH as (j & b & Hj & Hb); [lia |]. exists j, b. rewrite lookup_insert_ne; [done |].
    intros ->. by rewrite Hk in Hj.
Qed.

Lemma map_sum_ge (m : gmap K A) k a :
  map_Forall (fun _ a => 0 ≤ f a)%Z m → m !! k = Some a → (f a ≤ map_sum f m)%Z.
Proof.
  intros Hm Hk. rewrite (map_sum_delete m k a) by done.
  pose proof (map_sum_nonneg (delete k m)) as H0. enough (0 ≤ map_sum f (delete k m))%Z by lia.
  apply H0. by apply map_Forall_delete.
Qed.
End map_sum.

Lemma size_delete_le {K A} `{Countable K} (m : gmap K A) k : (size (delete k m) ≤ size m)%nat.
Proof. rewrite map_size_delete. case_match; [apply Nat.le_pred_l | done]. Qed.
