(* ===== verification/Error.v ===== *)
(** The error type of the virtual filesystem and its mapping to the errno
    values a FUSE reply carries (crates/tuxstack-vfs/src/error.rs). *)

From S2P Require Import Prelude.

Inductive VfsError : Type :=
  | NotFound
  | NotDirectory
  | IsDirectory
  | ReadOnly
  | PermissionDenied
  | InvalidInput (message : string)
  | NameTooLong
  | PathTooLong
  | InvalidEncoding
  | TooManyHandles
  | BadHandle
  | Stale
  | SymlinkLoop
  | SymlinkEscape
  | SpecialFile
  | TimedOut
  | Unsupported (message : string)
  | Unavailable (message : string)
  | Io (message : string).

#[export] Instance VfsError_eq_dec : EqDecision VfsError.
Proof. solve_decision. Defined.

(** The libc constants the code returns, kept symbolic. *)
Inductive Errno : Type :=
  | ENOENT | ENOTDIR | EISDIR | EROFS | EACCES | EINVAL | ENAMETOOLONG | EMFILE
  | EBADF | ESTALE | ELOOP | ENXIO | ETIMEDOUT | EOPNOTSUPP | ENOTCONN | EIO | ERANGE.

#[export] Instance Errno_eq_dec : EqDecision Errno.
Proof. solve_decision. Defined.

Definition VfsError_errno (self : VfsError) : Errno :=
  match self with
  | NotFound => ENOENT
  | NotDirectory => ENOTDIR
  | IsDirectory => EISDIR
  | ReadOnly => EROFS
  | PermissionDenied => EACCES
  | InvalidInput _ | InvalidEncoding => EINVAL
  | NameTooLong | PathTooLong => ENAMETOOLONG
  | TooManyHandles => EMFILE
  | BadHandle => EBADF
  | Stale => ESTALE
  | SymlinkLoop => ELOOP
  | SymlinkEscape | SpecialFile => ENXIO
  | TimedOut => ETIMEDOUT
  | Unsupported _ => EOPNOTSUPP
  | Unavailable _ => ENOTCONN
  | Io _ => EIO
  end.

(** The result type of every fallible operation of the virtual filesystem. *)
Abbreviation vres := (result VfsError).
