(* ===== verification/Path.v ===== *)
(** Byte-oriented file names, absolute virtual paths and link targets
    (crates/tuxstack-vfs/src/path.rs): construction with its checks, the
    normalisation of absolute paths, prefixes, and the rendering to bytes. *)

From S2P Require Import Prelude Error.

Local Open Scope Z_scope.

Definition MAX_NAME_BYTES : Z := 255.
Definition DEFAULT_MAX_PATH_BYTES : Z := 16 * 1024.

(** [bytes.contains(&b)] *)
Definition contains (b : byte) (l : list byte) : bool := bool_decide (b ∈ l).

Definition is_empty {A} (l : list A) : bool := match l with [] => true | _ => false end.

(** ** [VirtualFileName] *)
Record VirtualFileName := mkVirtualFileName { VirtualFileName_as_bytes : list byte }.

#[export] Instance VirtualFileName_eq_dec : EqDecision VirtualFileName.
Proof. solve_decision. Defined.
#[export] Program Instance VirtualFileName_countable : Countable VirtualFileName :=
  inj_countable VirtualFileName_as_bytes (fun bs => Some (mkVirtualFileName bs)) _.
Next Obligation. by intros []. Qed.

Definition VirtualFileName_new (bs : list byte) : vres VirtualFileName :=
  if is_empty bs then Err (InvalidInput "an empty name is not a component")
  else if contains "000"%byte bs then Err (InvalidInput "NUL is not allowed in file names")
  else if bool_decide (bs = bytes ".") || bool_decide (bs = bytes "..")
  then Err (InvalidInput "dot components are not file names")
  else if contains "/"%byte bs then Err (InvalidInput "slash is not allowed in a component")
  else if bool_decide (len bs > MAX_NAME_BYTES) then Err NameTooLong
  else Ok (mkVirtualFileName bs).

(** ** [VirtualPath] *)
Record VirtualPath := mkVirtualPath {
  components : list VirtualFileName;
  byte_len : Z;
}.

#[export] Instance VirtualPath_eq_dec : EqDecision VirtualPath.
Proof. solve_decision. Defined.
#[export] Program Instance VirtualPath_countable : Countable VirtualPath :=
  inj_countable (fun p => (components p, byte_len p))
    (fun cb => Some (mkVirtualPath cb.1 cb.2)) _.
Next Obligation. by intros []. Qed.

Definition VirtualPath_root : VirtualPath := {| components := []; byte_len := 1 |}.

(** [components.iter().map(|item| item.as_bytes().len() + 1).sum()] *)
Definition components_len (cs : list VirtualFileName) : Z :=
  foldr (fun c acc => len (VirtualFileName_as_bytes c) + 1 + acc) 0 cs.

Definition VirtualPath_from_components (cs : list VirtualFileName) : vres VirtualPath :=
  let n := 1 + components_len cs in
  let n := saturating_sub n (if is_empty cs then 0 else 1) in
  if bool_decide (n > DEFAULT_MAX_PATH_BYTES) then Err PathTooLong
  else Ok {| components := cs; byte_len := n |}.

Definition VirtualPath_is_root (self : VirtualPath) : bool := is_empty (components self).

Definition VirtualPath_depth (self : VirtualPath) : nat := length (components self).

Definition VirtualPath_byte_len (self : VirtualPath) : Z := Z.max (byte_len self) 1.

Definition VirtualPath_file_name (self : VirtualPath) : option VirtualFileName :=
  list.last (components self).

Definition VirtualPath_parent (self : VirtualPath) : vres (option VirtualPath) :=
  if VirtualPath_is_root self then Ok None
  else
    p ← expect "existing path is valid"
          (VirtualPath_from_components (take (VirtualPath_depth self - 1) (components self)));
    Ok (Some p).

Definition VirtualPath_join (self : VirtualPath) (name : VirtualFileName) : vres VirtualPath :=
  VirtualPath_from_components (components self ++ [name]).

Definition VirtualPath_starts_with (self pre : VirtualPath) : bool :=
  bool_decide (components pre `prefix_of` components self).

Definition VirtualPath_strip_prefix (self pre : VirtualPath) : vres (option VirtualPath) :=
  if VirtualPath_starts_with self pre then
    p ← expect "subpath is valid"
          (VirtualPath_from_components (drop (VirtualPath_depth pre) (components self)));
    Ok (Some p)
  else Ok None.

Definition VirtualPath_as_bytes (self : VirtualPath) : list byte :=
  if VirtualPath_is_root self then ["/"%byte]
  else foldl (fun result c => result ++ "/"%byte :: VirtualFileName_as_bytes c) []
         (components self).

(** The loop of [from_absolute_with_limit] over the pieces between slashes. *)
Fixpoint from_absolute_loop (pieces : list (list byte)) (path : VirtualPath) : vres VirtualPath :=
  match pieces with
  | [] => Ok path
  | raw :: rest =>
      if is_empty raw || bool_decide (raw = bytes ".") then from_absolute_loop rest path
      else if bool_decide (raw = bytes "..") then
        parent ← VirtualPath_parent path;
        path ← ok_or SymlinkEscape parent;
        from_absolute_loop rest path
      else
        name ← VirtualFileName_new raw;
        path ← VirtualPath_join path name;
        from_absolute_loop rest path
  end.

Definition VirtualPath_from_absolute_with_limit (bs : list byte) (max_bytes : Z) : vres VirtualPath :=
  if contains "000"%byte bs then Err (InvalidInput "NUL is not allowed in paths")
  else if negb (bool_decide (head bs = Some "/"%byte))
  then Err (InvalidInput "VirtualPath must be absolute")
  else if bool_decide (len bs > max_bytes) then Err PathTooLong
  else from_absolute_loop (drop 1 (split_on "/"%byte bs)) VirtualPath_root.

Definition VirtualPath_from_absolute (bs : list byte) : vres VirtualPath :=
  VirtualPath_from_absolute_with_limit bs DEFAULT_MAX_PATH_BYTES.

(** ** [VirtualPathBytes], the raw target of a link *)
Record VirtualPathBytes := mkVirtualPathBytes { VirtualPathBytes_as_bytes : list byte }.

#[export] Instance VirtualPathBytes_eq_dec : EqDecision VirtualPathBytes.
Proof. solve_decision. Defined.

Definition VirtualPathBytes_new (bs : list byte) : vres VirtualPathBytes :=
  if contains "000"%byte bs then Err (InvalidInput "NUL is not allowed in link targets")
  else if bool_decide (len bs > DEFAULT_MAX_PATH_BYTES) then Err PathTooLong
  else Ok (mkVirtualPathBytes bs).

Definition VirtualPathBytes_is_absolute (self : VirtualPathBytes) : bool :=
  bool_decide (head (VirtualPathBytes_as_bytes self) = Some "/"%byte).

(** ** Well-formedness

    The fields of [VirtualFileName] and [VirtualPath] are private: a value
    exists only if a constructor accepted it. *)
Definition name_ok (bs : list byte) : Prop :=
  bs ≠ [] ∧ "000"%byte ∉ bs ∧ bs ≠ bytes "." ∧ bs ≠ bytes ".." ∧ "/"%byte ∉ bs ∧
  len bs ≤ MAX_NAME_BYTES.

Definition name_wf (n : VirtualFileName) : Prop := name_ok (VirtualFileName_as_bytes n).

(** The length of the rendered path. *)
Definition path_len (cs : list VirtualFileName) : Z :=
  if is_empty cs then 1 else components_len cs.

Definition path_wf (p : VirtualPath) : Prop :=
  Forall name_wf (components p) ∧ byte_len p = path_len (components p) ∧
  byte_len p ≤ DEFAULT_MAX_PATH_BYTES.

Definition target_wf (t : VirtualPathBytes) : Prop :=
  "000"%byte ∉ VirtualPathBytes_as_bytes t ∧
  len (VirtualPathBytes_as_bytes t) ≤ DEFAULT_MAX_PATH_BYTES.

Create HintDb vfs.

Lemma is_empty_true {A} (l : list A) : is_empty l = true ↔ l = [].
Proof. by destruct l. Qed.

Lemma is_empty_false {A} (l : list A) : is_empty l = false ↔ l ≠ [].
Proof. by destruct l. Qed.

Lemma contains_false b l : contains b l = false ↔ b ∉ l.
Proof. unfold contains. by rewrite bool_decide_eq_false. Qed.

Lemma VirtualFileName_new_Ok bs n :
  VirtualFileName_new bs = Ok n ↔ n = mkVirtualFileName bs ∧ name_ok bs.
Proof.
  unfold VirtualFileName_new, name_ok, contains.
  destruct (is_empty bs) eqn:E1; [apply is_empty_true in E1 | apply is_empty_false in E1].
  { naive_solver. }
  repeat case_bool_decide; cbn; naive_solver lia.
Qed.

Lemma VirtualFileName_new_wf n : name_wf n → VirtualFileName_new (VirtualFileName_as_bytes n) = Ok n.
Proof. intros H. apply VirtualFileName_new_Ok. by destruct n. Qed.

Lemma VirtualFileName_new_no_panic bs s : VirtualFileName_new bs ≠ Panic s.
Proof. unfold VirtualFileName_new. by repeat case_match. Qed.

Lemma components_len_app cs ds : components_len (cs ++ ds) = components_len cs + components_len ds.
Proof. unfold components_len. induction cs as [|c cs IH]; cbn; [done |]. rewrite IH. lia. Qed.

Lemma components_len_nonneg cs : 0 ≤ components_len cs.
Proof.
  unfold components_len. induction cs as [|c cs IH]; cbn; [done |].
  pose proof (len_nonneg (VirtualFileName_as_bytes c)). lia.
Qed.

Lemma path_len_pos cs : 1 ≤ path_len cs.
Proof.
  destruct cs as [|c cs]; [done |]. unfold path_len; cbn. fold (components_len cs).
  pose proof (len_nonneg (VirtualFileName_as_bytes c)). pose proof (components_len_nonneg cs). lia.
Qed.

(** Any sublist of the components cut at either end renders no longer. *)
Lemma path_len_app_l cs ds : path_len cs ≤ path_len (cs ++ ds).
Proof.
  destruct cs as [|c cs]; [apply path_len_pos |]. unfold path_len.
  change (components_len (c :: cs) ≤ components_len ((c :: cs) ++ ds)).
  rewrite components_len_app. pose proof (components_len_nonneg ds). lia.
Qed.

Lemma path_len_app_r cs ds : path_len ds ≤ path_len (cs ++ ds).
Proof.
  destruct ds as [|d ds]; [apply path_len_pos |].
  unfold path_len. destruct (cs ++ d :: ds) as [|e es] eqn:E.
  { by destruct cs. }
  cbn [is_empty]. rewrite <- E, components_len_app. pose proof (components_len_nonneg cs). lia.
Qed.

Lemma from_components_Ok cs p :
  VirtualPath_from_components cs = Ok p ↔
  p = mkVirtualPath cs (path_len cs) ∧ path_len cs ≤ DEFAULT_MAX_PATH_BYTES.
Proof.
  unfold VirtualPath_from_components, path_len, saturating_sub.
  destruct cs as [|c cs]; cbn -[components_len].
  - split; [intros [= <-]; done | naive_solver].
  - pose proof (components_len_nonneg (c :: cs)).
    replace (1 + _ - 1) with (components_len (c :: cs)) by lia.
    rewrite Z.max_r by lia. case_bool_decide; naive_solver lia.
Qed.

Lemma from_components_err cs :
  DEFAULT_MAX_PATH_BYTES < path_len cs → VirtualPath_from_components cs = Err PathTooLong.
Proof.
  intros H. destruct (VirtualPath_from_components cs) as [p|e|s] eqn:E.
  - apply from_components_Ok in E as [_ ?]. lia.
  - unfold VirtualPath_from_components in E. case_bool_decide; congruence.
  - unfold VirtualPath_from_components in E. case_bool_decide; congruence.
Qed.

Lemma from_components_wf cs p :
  Forall name_wf cs → VirtualPath_from_components cs = Ok p → path_wf p.
Proof. intros Hcs [-> Hlen]%from_components_Ok. done. Qed.

Lemma path_wf_from_components p :
  path_wf p → VirtualPath_from_components (components p) = Ok p.
Proof.
  intros (_ & Hl & Hm). apply from_components_Ok. split; [| lia].
  destruct p; cbn in *. by f_equal.
Qed.

Lemma path_wf_eq p q : path_wf p → path_wf q → components p = components q → p = q.
Proof.
  intros (_ & H1 & _) (_ & H2 & _) E. destruct p, q; cbn in *. subst. done.
Qed.

Lemma VirtualPath_root_wf : path_wf VirtualPath_root.
Proof. split_and!; [constructor | done | done]. Qed.

Lemma VirtualPath_is_root_spec p : VirtualPath_is_root p = true ↔ components p = [].
Proof. apply is_empty_true. Qed.

Lemma VirtualPath_parent_root p : components p = [] → VirtualPath_parent p = Ok None.
Proof. unfold VirtualPath_parent, VirtualPath_is_root. by intros ->. Qed.

Lemma VirtualPath_parent_snoc p cs c :
  path_wf p → components p = cs ++ [c] →
  VirtualPath_parent p = Ok (Some (mkVirtualPath cs (path_len cs))) ∧
  path_wf (mkVirtualPath cs (path_len cs)).
Proof.
  intros (Hn & Hl & Hm) Hc. rewrite Hl, Hc in Hm. rewrite Hc in Hn.
  apply Forall_app in Hn as [Hn _].
  assert (path_len cs ≤ DEFAULT_MAX_PATH_BYTES) as Hle
    by (pose proof (path_len_app_l cs [c]); lia).
  split; [| done].
  unfold VirtualPath_parent, VirtualPath_is_root, VirtualPath_depth. rewrite Hc.
  destruct (is_empty (cs ++ [c])) eqn:E; [apply is_empty_true in E; by destruct cs |].
  rewrite length_app; cbn. rewrite Nat.add_sub, take_app_length.
  by rewrite (proj2 (from_components_Ok cs (mkVirtualPath cs (path_len cs))) (conj eq_refl Hle)).
Qed.

Lemma VirtualPath_parent_wf p q : path_wf p → VirtualPath_parent p = Ok (Some q) → path_wf q.
Proof.
  intros Hp. destruct (components p) as [|c cs _] eqn:E using rev_ind.
  - by rewrite VirtualPath_parent_root.
  - destruct (VirtualPath_parent_snoc p cs c Hp E) as [-> ?]. by intros [= <-].
Qed.

Lemma VirtualPath_join_wf p n q :
  path_wf p → name_wf n → VirtualPath_join p n = Ok q →
  path_wf q ∧ components q = components p ++ [n].
Proof.
  intros (Hp & _) Hn Hj. unfold VirtualPath_join in Hj.
  split; [eapply from_components_wf; [| exact Hj]; by apply Forall_app; auto |].
  by apply from_components_Ok in Hj as [-> _].
Qed.

#[export] Hint Resolve VirtualPath_root_wf VirtualPath_parent_wf : vfs.

(** ** Rendering and parsing *)
Definition slash_concat (cs : list VirtualFileName) : list byte :=
  cs ≫= (fun c => "/"%byte :: VirtualFileName_as_bytes c).

Lemma VirtualPath_as_bytes_concat p :
  components p ≠ [] → VirtualPath_as_bytes p = slash_concat (components p).
Proof.
  intros Hne. unfold VirtualPath_as_bytes, VirtualPath_is_root.
  apply is_empty_false in Hne as ->.
  assert (∀ cs acc, foldl (fun result c => result ++ "/"%byte :: VirtualFileName_as_bytes c) acc cs
                    = acc ++ slash_concat cs) as H; [| apply (H _ [])].
  unfold slash_concat.
  induction cs as [|c cs IH]; intros acc; cbn; [by rewrite app_nil_r |].
  rewrite IH, <- !app_assoc. done.
Qed.

Lemma slash_concat_len cs : len (slash_concat cs) = components_len cs.
Proof.
  unfold slash_concat, components_len. induction cs as [|c cs IH]; [done |].
  cbn. fold (components_len cs) in *. rewrite len_cons, len_app. cbn in IH. lia.
Qed.

Lemma VirtualPath_as_bytes_len p :
  path_wf p → len (VirtualPath_as_bytes p) = byte_len p.
Proof.
  intros (_ & -> & _). unfold path_len. destruct (is_empty (components p)) eqn:E.
  - unfold VirtualPath_as_bytes, VirtualPath_is_root. by rewrite E.
  - rewrite VirtualPath_as_bytes_concat by (by apply is_empty_false).
    apply slash_concat_len.
Qed.

Lemma slash_concat_join cs :
  cs ≠ [] → slash_concat cs = join_with "/"%byte ([] :: map VirtualFileName_as_bytes cs).
Proof.
  intros Hne. destruct cs as [|c cs]; [done |]. clear Hne.
  unfold slash_concat. revert c. induction cs as [|d cs IH]; intros c.
  - cbn. by rewrite app_nil_r.
  - cbn in IH |- *. by rewrite (IH d).
Qed.

Lemma split_as_bytes p :
  path_wf p →
  drop 1 (split_on "/"%byte (VirtualPath_as_bytes p)) =
  (if VirtualPath_is_root p then [[]] else map VirtualFileName_as_bytes (components p)).
Proof.
  intros (Hn & _). destruct (VirtualPath_is_root p) eqn:E.
  - unfold VirtualPath_as_bytes. rewrite E. done.
  - apply is_empty_false in E. rewrite VirtualPath_as_bytes_concat, slash_concat_join by done.
    rewrite split_join; [done | done |]. constructor; [set_solver |].
    rewrite Forall_map. eapply Forall_impl; [| exact Hn]. intros c (_ & _ & _ & _ & ? & _). done.
Qed.

Lemma as_bytes_no_nul p : path_wf p → "000"%byte ∉ VirtualPath_as_bytes p.
Proof.
  intros (Hn & _). destruct (VirtualPath_is_root p) eqn:E.
  - unfold VirtualPath_as_bytes. rewrite E. set_solver.
  - apply is_empty_false in E. rewrite VirtualPath_as_bytes_concat by done.
    unfold slash_concat. rewrite list_elem_of_bind. intros (c & Hc & Hin).
    rewrite Forall_forall in Hn. apply list_elem_of_In, Hn in Hin as (_ & ? & _).
    apply elem_of_cons in Hc as [? | ?]; done.
Qed.

Lemma as_bytes_head p : head (VirtualPath_as_bytes p) = Some "/"%byte.
Proof.
  destruct (VirtualPath_is_root p) eqn:E.
  - unfold VirtualPath_as_bytes. by rewrite E.
  - apply is_empty_false in E. rewrite VirtualPath_as_bytes_concat by done.
    by destruct (components p).
Qed.

(** The loop pushes valid names one after the other. *)
Lemma from_absolute_loop_names cs p rest :
  path_wf p → Forall name_wf cs → path_len (components p ++ cs) ≤ DEFAULT_MAX_PATH_BYTES →
  from_absolute_loop (map VirtualFileName_as_bytes cs ++ rest) p =
  from_absolute_loop rest
    (mkVirtualPath (components p ++ cs) (path_len (components p ++ cs))).
Proof.
  intros Hp Hcs. revert p Hp. induction Hcs as [|c cs Hc Hcs IH]; intros p Hp Hlen.
  - cbn. rewrite app_nil_r in *. f_equal. destruct Hp as (_ & Hl & _). destruct p; cbn in *. by f_equal.
  - cbn [map app from_absolute_loop].
    pose proof Hc as (Hne & _ & Hd & Hdd & _).
    apply is_empty_false in Hne as ->. rewrite !bool_decide_eq_false_2 by done. cbn [orb].
    rewrite VirtualFileName_new_wf by done. cbn [mbind result_bind].
    assert (path_len (components p ++ [c]) ≤ DEFAULT_MAX_PATH_BYTES) as Hlen1.
    { pose proof (path_len_app_l (components p ++ [c]) cs) as H.
      rewrite <- app_assoc in H. cbn in H. lia. }
    set (q := mkVirtualPath (components p ++ [c]) (path_len (components p ++ [c]))).
    assert (VirtualPath_join p c = Ok q) as Hj by (by apply from_components_Ok).
    rewrite Hj. cbn [mbind result_bind].
    destruct (VirtualPath_join_wf p c q Hp Hc Hj) as [Hq _].
    rewrite (IH q Hq); subst q; cbn; rewrite <- ?app_assoc; done.
Qed.

Lemma from_absolute_loop_wf pieces p q :
  path_wf p → from_absolute_loop pieces p = Ok q → path_wf q.
Proof.
  revert p. induction pieces as [|raw rest IH]; intros p Hp; cbn; [by intros [= <-] |].
  case_match; [by apply IH |]. case_match.
  - rewrite bind_Ok. setoid_rewrite bind_Ok. setoid_rewrite ok_or_Ok.
    intros (o & Hpar & p' & -> & Hl). eapply IH; [| exact Hl]. by eapply VirtualPath_parent_wf.
  - rewrite bind_Ok. setoid_rewrite bind_Ok. intros (n & Hn & p' & Hj & Hl).
    eapply IH; [| exact Hl]. apply VirtualFileName_new_Ok in Hn as [-> Hn].
    by eapply (VirtualPath_join_wf p (mkVirtualFileName raw)).
Qed.

Lemma from_absolute_wf bs max p : VirtualPath_from_absolute_with_limit bs max = Ok p → path_wf p.
Proof.
  unfold VirtualPath_from_absolute_with_limit. repeat (case_match; [done |]).
  apply from_absolute_loop_wf, VirtualPath_root_wf.
Qed.

(** Parsing a rendered path gives the path back. *)
Lemma from_absolute_as_bytes p :
  path_wf p → VirtualPath_from_absolute (VirtualPath_as_bytes p) = Ok p.
Proof.
  intros Hp. unfold VirtualPath_from_absolute, VirtualPath_from_absolute_with_limit.
  rewrite (proj2 (contains_false _ _)) by (by apply as_bytes_no_nul).
  rewrite (bool_decide_eq_true_2 _ (as_bytes_head p)). cbn [negb].
  pose proof Hp as (Hn & Hl & Hm).
  rewrite bool_decide_eq_false_2 by (rewrite VirtualPath_as_bytes_len by done; lia).
  rewrite split_as_bytes by done. destruct (VirtualPath_is_root p) eqn:E.
  - cbn. apply is_empty_true in E. f_equal.
    apply path_wf_eq; [apply VirtualPath_root_wf | done |]. by rewrite E.
  - pose proof (from_absolute_loop_names (components p) VirtualPath_root []
                  VirtualPath_root_wf Hn) as H.
    rewrite app_nil_r in H. cbn [components VirtualPath_root app] in H. rewrite H by lia.
    cbn. f_equal. destruct p; cbn in *. by rewrite Hl.
Qed.

Lemma VirtualPath_strip_prefix_app p q cs :
  path_wf p → components p = components q ++ cs →
  VirtualPath_strip_prefix p q = Ok (Some (mkVirtualPath cs (path_len cs))) ∧
  path_wf (mkVirtualPath cs (path_len cs)).
Proof.
  intros (Hn & Hl & Hm) Hc. rewrite Hl, Hc in Hm. rewrite Hc in Hn.
  apply Forall_app in Hn as [_ Hn].
  assert (path_len cs ≤ DEFAULT_MAX_PATH_BYTES) as Hle
    by (pose proof (path_len_app_r (components q) cs); lia).
  split; [| done].
  unfold VirtualPath_strip_prefix, VirtualPath_starts_with, VirtualPath_depth. rewrite Hc.
  rewrite bool_decide_eq_true_2 by (by apply prefix_app_r).
  rewrite drop_app_length.
  by rewrite (proj2 (from_components_Ok cs (mkVirtualPath cs (path_len cs))) (conj eq_refl Hle)).
Qed.

Lemma VirtualPath_starts_with_spec p q :
  VirtualPath_starts_with p q = true ↔ ∃ cs, components p = components q ++ cs.
Proof. unfold VirtualPath_starts_with. by rewrite bool_decide_eq_true. Qed.

(** None of the operations on well-formed paths reaches an [expect] that fails. *)
Lemma VirtualPath_parent_no_panic p s : path_wf p → VirtualPath_parent p ≠ Panic s.
Proof.
  intros Hp. destruct (components p) as [|c cs _] eqn:E using rev_ind.
  - by rewrite VirtualPath_parent_root.
  - by destruct (VirtualPath_parent_snoc p cs c Hp E) as [-> _].
Qed.

Lemma VirtualPath_strip_prefix_no_panic p q s :
  path_wf p → VirtualPath_strip_prefix p q ≠ Panic s.
Proof.
  intros Hp. destruct (VirtualPath_starts_with p q) eqn:E.
  - apply VirtualPath_starts_with_spec in E as [cs E].
    by destruct (VirtualPath_strip_prefix_app p q cs Hp E) as [-> _].
  - unfold VirtualPath_strip_prefix. by rewrite E.
Qed.

Lemma from_components_no_panic cs s : VirtualPath_from_components cs ≠ Panic s.
Proof. unfold VirtualPath_from_components. by case_bool_decide. Qed.

Lemma VirtualPath_join_no_panic p n s : VirtualPath_join p n ≠ Panic s.
Proof. apply from_components_no_panic. Qed.

Lemma from_absolute_loop_no_panic pieces p s :
  path_wf p → from_absolute_loop pieces p ≠ Panic s.
Proof.
  revert p. induction pieces as [|raw rest IH]; intros p Hp; cbn; [done |].
  case_match; [by apply IH |]. case_match.
  - destruct (VirtualPath_parent p) as [[q|]| |s'] eqn:E; cbn; [| done | done |].
    + apply IH. by eapply VirtualPath_parent_wf.
    + by apply VirtualPath_parent_no_panic in E.
  - destruct (VirtualFileName_new raw) as [n| |s'] eqn:E; cbn; [| done |].
    + apply VirtualFileName_new_Ok in E as [-> Hn].
      destruct (VirtualPath_join _ _) as [q| |s'] eqn:Ej; cbn; [| done |].
      * apply IH. by eapply (VirtualPath_join_wf p (mkVirtualFileName raw)).
      * by apply VirtualPath_join_no_panic in Ej.
    + by apply VirtualFileName_new_no_panic in E.
Qed.

(** ** Properties *)

(** Every path the parser accepts is canonical.  Its components are valid
    names (non-empty, no dot entries, no slash or NUL, at most 255 bytes), the
    cached length is the length of the rendering and within the limit, and
    rendering it and parsing the result gives the same path back. *)
Theorem path_parse_render (bs : list byte) (max : Z) (p : VirtualPath) :
  VirtualPath_from_absolute_with_limit bs max = Ok p →
  path_wf p ∧ len (VirtualPath_as_bytes p) = VirtualPath_byte_len p ∧
  VirtualPath_from_absolute (VirtualPath_as_bytes p) = Ok p.
Proof.
  intros Hp%from_absolute_wf. split_and!; [done | |].
  { rewrite VirtualPath_as_bytes_len by done. destruct Hp as (_ & Hl & _).
    unfold VirtualPath_byte_len. pose proof (path_len_pos (components p)). lia. }
  by apply from_absolute_as_bytes.
Qed.

(** Witness: a path with empty pieces, dot entries and a parent step. *)
Lemma path_parse_render_witness :
  ∃ p, VirtualPath_from_absolute_with_limit (bytes "/usr//lib/./x/../a b") 100 = Ok p ∧
       path_wf p ∧ len (VirtualPath_as_bytes p) = VirtualPath_byte_len p ∧
       VirtualPath_from_absolute (VirtualPath_as_bytes p) = Ok p.
Proof.
  eexists. split; [vm_compute; reflexivity |].
  apply (path_parse_render (bytes "/usr//lib/./x/../a b") 100). vm_compute. reflexivity.
Defined.

(** On well-formed paths the tree operations obey their algebra and no
    [expect] of theirs can fail: the parent of a joined path is the path it was
    joined to, its file name is the joined name, and stripping a joined prefix
    leaves the rest; none of [parent], [join], [strip_prefix] and
    [from_absolute] panics. *)
Theorem path_tree_laws (p : VirtualPath) (n : VirtualFileName) (q : VirtualPath) (s : string)
  (other : VirtualPath) (bs : list byte) (max : Z) :
  path_wf p → name_wf n → VirtualPath_join p n = Ok q →
  path_wf q ∧ VirtualPath_parent q = Ok (Some p) ∧ VirtualPath_file_name q = Some n ∧
  VirtualPath_starts_with q p = true ∧
  VirtualPath_strip_prefix q p = Ok (Some (mkVirtualPath [n] (path_len [n]))) ∧
  VirtualPath_parent p ≠ Panic s ∧ VirtualPath_strip_prefix p other ≠ Panic s ∧
  VirtualPath_from_absolute_with_limit bs max ≠ Panic s.
Proof.
  intros Hp Hn Hj. destruct (VirtualPath_join_wf p n q Hp Hn Hj) as [Hq Hc].
  destruct (VirtualPath_parent_snoc q _ _ Hq Hc) as [Hpar Hpw].
  split_and!; [done | | | | | by apply VirtualPath_parent_no_panic
              | by apply VirtualPath_strip_prefix_no_panic |].
  - rewrite Hpar. do 2 f_equal. by apply path_wf_eq.
  - unfold VirtualPath_file_name. rewrite Hc. by rewrite last_snoc.
  - apply VirtualPath_starts_with_spec. eauto.
  - by apply VirtualPath_strip_prefix_app.
  - unfold VirtualPath_from_absolute_with_limit. repeat (case_match; [done |]).
    apply from_absolute_loop_no_panic, VirtualPath_root_wf.
Qed.

(** Witness: a name joined to the root. *)
Lemma path_tree_laws_witness :
  ∃ q, VirtualPath_join VirtualPath_root (mkVirtualFileName (bytes "etc")) = Ok q ∧
       VirtualPath_parent q = Ok (Some VirtualPath_root).
Proof.
  eexists. split; [vm_compute; reflexivity |].
  apply (path_tree_laws VirtualPath_root (mkVirtualFileName (bytes "etc")) _ EmptyString
           VirtualPath_root [] 0).
  - apply VirtualPath_root_wf.
  - apply (bool_decide_unpack _). vm_compute. exact I.
  - vm_compute. reflexivity.
Defined.
