(* ===== verification/Numbers.v ===== *)
(** The standard library's decimal parsing, [str::parse] of integers, as the
    sources use it. *)

From S2P Require Import Prelude Path.

Local Open Scope Z_scope.

Definition digit (b : byte) : Z := u8 b - 48.
Definition is_ascii_digit (b : byte) : bool := (48 <=? u8 b) && (u8 b <=? 57).

(** The value of a string of digits, [from_str_radix] before its overflow check. *)
Definition radix_value (base : Z) (ds : list byte) : Z :=
  foldl (fun acc b => acc * base + digit b) 0 ds.

(** [str::parse] of an unsigned integer: an optional plus sign, then digits. *)
Definition parse_unsigned (max : Z) (value : list byte) : option Z :=
  let ds := match value with b :: ds => if bool_decide (b = "+"%byte) then ds else value | [] => [] end in
  if is_empty ds || negb (forallb is_ascii_digit ds) then None
  else
    let v := radix_value 10 ds in
    if v <=? max then Some v else None.

(** [str::parse::<i64>]. *)
Definition parse_i64 (value : list byte) : option Z :=
  match value with
  | b :: ds =>
      if bool_decide (b = "-"%byte) then
        if is_empty ds || negb (forallb is_ascii_digit ds) then None
        else
          let v := - radix_value 10 ds in
          if - 2 ^ 63 <=? v then Some v else None
      else parse_unsigned i64_max value
  | [] => None
  end.

Lemma is_ascii_digit_range b : is_ascii_digit b = true → 0 ≤ digit b < 10.
Proof. unfold is_ascii_digit, digit. rewrite andb_true_iff, !Z.leb_le. lia. Qed.

Lemma radix_value_nonneg base ds :
  0 ≤ base → Forall (fun b => 0 ≤ digit b) ds → 0 ≤ radix_value base ds.
Proof.
  intros Hb Hds. unfold radix_value. assert (0 ≤ 0) as H0 by lia. revert H0. generalize 0 at 2 4.
  induction Hds as [|d ds Hd Hds IH]; intros acc Hacc; cbn; [done |]. apply IH. nia.
Qed.

Lemma forallb_digits (f : byte → bool) ds :
  (∀ b, f b = true → 0 ≤ digit b) → forallb f ds = true → Forall (fun b => 0 ≤ digit b) ds.
Proof. intros Hf H. apply list.Forall_forall. intros b Hb. apply Hf. rewrite forallb_forall in H. apply H. by apply list_elem_of_In. Qed.

Lemma parse_unsigned_range max value v : parse_unsigned max value = Some v → 0 ≤ v ≤ max.
Proof.
  unfold parse_unsigned. generalize (match value with b :: ds => if bool_decide (b = "+"%byte) then ds else value | [] => [] end).
  intros ds. cbv zeta.
  destruct (is_empty ds || _) eqn:E; [done |]. destruct (Z.leb _ _) eqn:El; [| done]. intros [= <-].
  apply orb_false_iff in E as [_ E%negb_false_iff]. split; [| by apply Z.leb_le].
  apply radix_value_nonneg; [lia |]. eapply forallb_digits; [| exact E]. intros b Hb%is_ascii_digit_range. lia.
Qed.
