(* ===== verification/Text.v ===== *)
(** What the sources use of the standard library's text functions: [trim],
    case folding, searching, splitting off prefixes, and the parsers of IP
    addresses.  A [str] is its UTF-8 bytes. *)

From S2P Require Import Prelude Path Numbers.

Local Open Scope Z_scope.

Abbreviation text := (list byte).

(** [str::to_ascii_lowercase] *)
Definition ascii_lower (b : byte) : byte :=
  if (65 <=? u8 b) && (u8 b <=? 90) then of_u8 (u8 b + 32) else b.
Definition to_ascii_lowercase (s : text) : text := ascii_lower <$> s.

Definition is_ascii_alphanumeric (b : byte) : bool :=
  is_ascii_digit b || ((65 <=? u8 b) && (u8 b <=? 90)) || ((97 <=? u8 b) && (u8 b <=? 122)).
Definition is_ascii_hexdigit (b : byte) : bool :=
  is_ascii_digit b || ((65 <=? u8 b) && (u8 b <=? 70)) || ((97 <=? u8 b) && (u8 b <=? 102)).

(** ** White space

    The encodings of the characters with the Unicode property White_Space. *)
Definition whitespace : list (list Z) :=
  ((fun b => [b]) <$> [9; 10; 11; 12; 13; 32])
  ++ [[0xC2; 0x85]; [0xC2; 0xA0]; [0xE1; 0x9A; 0x80]]
  ++ ((fun b => [0xE2; 0x80; b]) <$> (seqZ 0x80 11 ++ [0xA8; 0xA9; 0xAF]))
  ++ [[0xE2; 0x81; 0x9F]; [0xE3; 0x80; 0x80]].

(** The rest of [s] behind the first of the given strings that starts it. *)
Fixpoint strip_prefix (p s : text) : option text :=
  match p, s with
  | [], s => Some s
  | b :: p, c :: s => if decide (b = c) then strip_prefix p s else None
  | _ :: _, [] => None
  end.
Fixpoint strip_any (ps : list text) (s : text) : option text :=
  match ps with
  | [] => None
  | p :: ps => match strip_prefix p s with Some rest => Some rest | None => strip_any ps s end
  end.

(** Strip while one of the strings is a prefix; every turn removes a byte. *)
Fixpoint strip_all (fuel : nat) (ps : list text) (s : text) : text :=
  match fuel with
  | O => s
  | S fuel => match strip_any ps s with Some rest => strip_all fuel ps rest | None => s end
  end.

Definition whitespace_bytes : list text := map (map of_u8) whitespace.

Definition trim_start (s : text) : text := strip_all (length s) whitespace_bytes s.
(** At the end the same bytes are read backwards; UTF-8 is self-synchronizing. *)
Definition trim_end (s : text) : text := reverse (strip_all (length s) (map reverse whitespace_bytes) (reverse s)).
Definition trim (s : text) : text := trim_end (trim_start s).

(** ** Searching *)
Definition starts_with (s p : text) : bool := match strip_prefix p s with Some _ => true | None => false end.
Fixpoint str_contains (s p : text) : bool :=
  starts_with s p || match s with [] => false | _ :: s => str_contains s p end.

(** [str::rfind] of a byte *)
Definition rfind (b : byte) (s : text) : option nat :=
  (fun '(i, _) => length s - 1 - i)%nat <$> list_find (fun c => c = b) (reverse s).

(** [to_string] of an unsigned integer: decimal digits without leading zeros; twenty
    are enough for 64 bits. *)
Fixpoint decimal (fuel : nat) (n : Z) (acc : text) : text :=
  match fuel with
  | O => acc
  | S fuel =>
      let acc := of_u8 (48 + n mod 10) :: acc in
      if n / 10 =? 0 then acc else decimal fuel (n / 10) acc
  end.
Definition u64_to_string (n : Z) : text := decimal 20 n [].

Lemma strip_prefix_Some p s r : strip_prefix p s = Some r ↔ s = p ++ r.
Proof.
  revert s. induction p as [|b p IH]; intros s; cbn; [naive_solver |].
  destruct s as [|c s]; [split; [done | by intros] |]. case_decide as Hb.
  - subst c. rewrite IH. naive_solver.
  - split; [done | intros [= -> _]; done].
Qed.

Lemma starts_with_spec s p : starts_with s p = true ↔ ∃ r, s = p ++ r.
Proof.
  unfold starts_with. destruct (strip_prefix p s) as [r|] eqn:E.
  - apply strip_prefix_Some in E. naive_solver.
  - split; [done |]. intros [r Hr]. apply strip_prefix_Some in Hr. congruence.
Qed.

Lemma str_contains_spec s p : str_contains s p = true ↔ ∃ l r, s = l ++ p ++ r.
Proof.
  induction s as [|b s IH]; cbn; rewrite orb_true_iff, starts_with_spec.
  - split; [intros [[r Hr]|?]; [by exists [], r | done] |].
    intros (l & r & H). destruct l; [left; by exists r | done].
  - rewrite IH. split.
    + intros [[r Hr] | (l & r & ->)]; [by exists [], r | by exists (b :: l), r].
    + intros (l & r & H). destruct l as [|c l]; [left; by exists r | right].
      injection H as -> ->. by exists l, r.
Qed.

Lemma rfind_Some b s i :
  rfind b s = Some i ↔ ∃ l r, s = l ++ b :: r ∧ length l = i ∧ b ∉ r.
Proof.
  unfold rfind. split.
  - intros (p & Hf & ->)%fmap_Some. destruct p as [j c]. apply list_find_Some in Hf as (Hl & -> & Hn).
    exists (take (length s - 1 - j) s), (drop (S (length s - 1 - j)) s).
    pose proof (lookup_lt_Some _ _ _ Hl) as Hj. rewrite length_reverse in Hj.
    assert (s !! (length s - 1 - j)%nat = Some b) as Hs.
    { rewrite <- Hl, reverse_lookup by lia. f_equal. lia. }
    split_and!.
    + symmetry. by apply take_drop_middle.
    + rewrite length_take. lia.
    + intros (k & Hk)%list_elem_of_lookup. rewrite lookup_drop in Hk.
      pose proof (lookup_lt_Some _ _ _ Hk) as Hlt.
      apply (Hn (length s - 1 - (S (length s - 1 - j) + k))%nat b).
      * rewrite reverse_lookup by lia. rewrite <- Hk. f_equal. lia.
      * lia.
      * done.
  - intros (l & r & -> & <- & Hr). apply fmap_Some. exists (length r, b). split.
    + apply list_find_Some. rewrite reverse_app, reverse_cons, <- app_assoc. cbn. split_and!; [| done |].
      * rewrite lookup_app_r by (rewrite length_reverse; lia). by rewrite length_reverse, Nat.sub_diag.
      * intros k c Hk Hlt ->. rewrite lookup_app_l in Hk by (rewrite length_reverse; lia).
        apply list_elem_of_lookup_2 in Hk. apply Hr. by apply elem_of_reverse.
    + rewrite length_app. cbn. lia.
Qed.

Lemma rfind_None b s : rfind b s = None ↔ b ∉ s.
Proof.
  unfold rfind. rewrite fmap_None, list_find_None, list.Forall_forall. split.
  - intros H Hb. apply (H b); [| done]. by apply elem_of_reverse.
  - intros H c Hc ->. apply H. by apply elem_of_reverse.
Qed.

(** ** IP addresses

    The parser of [core::net]: each reader either consumes or leaves the input. *)
Definition reader (A : Type) : Type := text → option (A * text).

Definition to_digit (radix : Z) (b : byte) : option Z :=
  let v := if is_ascii_digit b then u8 b - 48
           else if (97 <=? u8 b) && (u8 b <=? 122) then u8 b - 87
           else if (65 <=? u8 b) && (u8 b <=? 90) then u8 b - 55
           else radix in
  if v <? radix then Some v else None.

(** The digits at the start, at most one more than [max_digits] of them. *)
Fixpoint read_digits (n : nat) (radix acc : Z) (count : nat) (s : text) : Z * nat * text :=
  match n, s with
  | S n, b :: rest =>
      match to_digit radix b with
      | Some d => read_digits n radix (acc * radix + d) (S count) rest
      | None => (acc, count, s)
      end
  | _, _ => (acc, count, s)
  end.

Definition read_number (radix : Z) (max_digits : nat) (allow_zero_prefix : bool) (max : Z) : reader Z := fun s =>
  let '(value, count, rest) := read_digits (S max_digits) radix 0 0 s in
  if (max_digits <? count)%nat then None
  else if (count =? 0)%nat then None
  else if negb allow_zero_prefix && bool_decide (head s = Some "0"%byte) && (1 <? count)%nat then None
  else if value <=? max then Some (value, rest) else None.

Definition read_given_char (c : byte) : reader () := fun s =>
  match s with b :: rest => if decide (b = c) then Some (tt, rest) else None | [] => None end.

Definition read_separator {A} (sep : byte) (index : nat) (inner : reader A) : reader A := fun s =>
  if (index =? 0)%nat then inner s
  else match read_given_char sep s with Some (_, rest) => inner rest | None => None end.

(** [n] numbers from index [i] on. *)
Fixpoint read_octets (n i : nat) : reader (list Z) := fun s =>
  match n with
  | O => Some ([], s)
  | S n =>
      match read_separator "."%byte i (read_number 10 3 false 255) s with
      | Some (v, rest) =>
          match read_octets n (S i) rest with Some (vs, rest) => Some (v :: vs, rest) | None => None end
      | None => None
      end
  end.
Definition read_ipv4_addr : reader (list Z) := read_octets 4 0.

(** Two octets as one group. *)
Definition octet (l : list Z) (i : nat) : Z := nth i l 0.

(** [read_groups] from index [i] on, with [n] of [limit] slots left: the groups,
    and whether they end with an embedded IPv4 address. *)
Fixpoint read_groups (n i limit : nat) (s : text) : list Z * bool * text :=
  match n with
  | O => ([], false, s)
  | S n =>
      match (if (i <? limit - 1)%nat then read_separator ":"%byte i read_ipv4_addr s else None) with
      | Some (v4, rest) =>
          ([octet v4 0 * 256 + octet v4 1; octet v4 2 * 256 + octet v4 3], true, rest)
      | None =>
          match read_separator ":"%byte i (read_number 16 4 true 65535) s with
          | Some (g, rest) =>
              let '(gs, v4, rest) := read_groups n (S i) limit rest in (g :: gs, v4, rest)
          | None => ([], false, s)
          end
      end
  end.

Definition read_ipv6_addr : reader (list Z) := fun s =>
  let '(head, head_ipv4, rest) := read_groups 8 0 8 s in
  let head_size := length head in
  if (head_size =? 8)%nat then Some (head, rest)
  else if head_ipv4 then None
  else
    match read_given_char ":"%byte rest with
    | None => None
    | Some (_, rest) =>
        match read_given_char ":"%byte rest with
        | None => None
        | Some (_, rest) =>
            let limit := (8 - (head_size + 1))%nat in
            let '(tail, _, rest) := read_groups limit 0 limit rest in
            Some (head ++ replicate (8 - head_size - length tail) 0 ++ tail, rest)
        end
    end.

Inductive IpAddr : Type :=
  | V4 (octets : list Z)
  | V6 (groups : list Z).
#[export] Instance IpAddr_eq_dec : EqDecision IpAddr.
Proof. solve_decision. Defined.
#[export] Program Instance IpAddr_countable : Countable IpAddr :=
  inj_countable (fun a => match a with V4 o => inl o | V6 g => inr g end)
    (fun x => match x with inl o => Some (V4 o) | inr g => Some (V6 g) end) _.
Next Obligation. by intros []. Qed.

(** [parse_with]: the whole input must be consumed. *)
Definition parse_with {A} (r : reader A) (s : text) : option A :=
  match r s with Some (a, []) => Some a | _ => None end.

Definition parse_ipv4 (s : text) : option (list Z) :=
  if (15 <? length s)%nat then None else parse_with read_ipv4_addr s.
Definition parse_ipv6 (s : text) : option (list Z) := parse_with read_ipv6_addr s.
Definition parse_ip (s : text) : option IpAddr :=
  parse_with (fun s =>
    match read_ipv4_addr s with
    | Some (o, rest) => Some (V4 o, rest)
    | None => match read_ipv6_addr s with Some (g, rest) => Some (V6 g, rest) | None => None end
    end) s.

Lemma parse_ip_examples :
  parse_ip (bytes "127.0.0.1") = Some (V4 [127; 0; 0; 1])
  ∧ parse_ip (bytes "::1") = Some (V6 [0; 0; 0; 0; 0; 0; 0; 1])
  ∧ parse_ip (bytes "2001:db8::ff00:42:8329") = Some (V6 [8193; 3512; 0; 0; 0; 65280; 66; 33577])
  ∧ parse_ip (bytes "::ffff:10.0.0.1") = Some (V6 [0; 0; 0; 0; 0; 65535; 2560; 1])
  ∧ parse_ip (bytes "1:2:3:4:5:6:7:8") = Some (V6 [1; 2; 3; 4; 5; 6; 7; 8])
  ∧ parse_ip (bytes "256.0.0.1") = None ∧ parse_ip (bytes "01.0.0.1") = None
  ∧ parse_ip (bytes "1.2.3") = None ∧ parse_ip (bytes "1:2:3:4:5:6:7:8::") = None
  ∧ parse_ip (bytes ":::1") = None ∧ parse_ip (bytes "") = None.
Proof. vm_compute. done. Qed.

(** ** Facts about case folding and trimming *)
Lemma ascii_lower_idem b : ascii_lower (ascii_lower b) = ascii_lower b.
Proof. by destruct b. Qed.

Lemma to_ascii_lowercase_idem s : to_ascii_lowercase (to_ascii_lowercase s) = to_ascii_lowercase s.
Proof. unfold to_ascii_lowercase. rewrite <- list_fmap_compose. apply list_fmap_ext. intros. apply ascii_lower_idem. Qed.

Lemma to_ascii_lowercase_app s t : to_ascii_lowercase (s ++ t) = to_ascii_lowercase s ++ to_ascii_lowercase t.
Proof. apply fmap_app. Qed.

Lemma trim_examples :
  trim (bytes "  a b	") = bytes "a b" ∧ trim (bytes "   ") = [] ∧ trim [] = []
  ∧ trim (map of_u8 [0xE3; 0x80; 0x80; 97; 0xC2; 0xA0]) = bytes "a".
Proof. vm_compute. done. Qed.
