(* ===== verification/Utf8.v ===== *)
(** The part of Rust's [str] the name codec uses: UTF-8 validation with the
    error positions of [std::str::from_utf8], and the encoding of a [char].
    A [char] is its scalar value; a [&str] is its bytes. *)

From S2P Require Import Prelude.

Local Open Scope Z_scope.
Local Ltac Zify.zify_post_hook ::= Z.div_mod_to_equations.

(** What validation finds at the head of a byte string: a scalar value and its
    width, an invalid sequence of [n] bytes ([error_len = Some(n)]), or a
    sequence cut short by the end of input ([error_len = None]). *)
Inductive utf8_head : Type :=
  | Utf8Char (cp : Z) (width : nat)
  | Utf8Invalid (n : nat)
  | Utf8Incomplete.

Definition in_range (lo hi x : Z) : bool := (lo <=? x) && (x <=? hi).

Definition is_cont (b : byte) : bool := in_range 128 191 (u8 b).

Definition second_of_3 (x y : Z) : bool :=
  if x =? 224 then in_range 160 191 y
  else if x =? 237 then in_range 128 159 y
  else in_range 128 191 y.

Definition second_of_4 (x y : Z) : bool :=
  if x =? 240 then in_range 144 191 y
  else if x =? 244 then in_range 128 143 y
  else in_range 128 191 y.

Definition utf8_next (l : list byte) : option utf8_head :=
  match l with
  | [] => None
  | b0 :: r =>
      let x := u8 b0 in
      Some
        (if x <? 128 then Utf8Char x 1
         else if in_range 194 223 x then
           match r with
           | [] => Utf8Incomplete
           | b1 :: _ =>
               if is_cont b1 then Utf8Char ((x mod 32) * 64 + u8 b1 mod 64) 2 else Utf8Invalid 1
           end
         else if in_range 224 239 x then
           match r with
           | [] => Utf8Incomplete
           | b1 :: r =>
               if second_of_3 x (u8 b1) then
                 match r with
                 | [] => Utf8Incomplete
                 | b2 :: _ =>
                     if is_cont b2
                     then Utf8Char ((x mod 16) * 4096 + (u8 b1 mod 64) * 64 + u8 b2 mod 64) 3
                     else Utf8Invalid 2
                 end
               else Utf8Invalid 1
           end
         else if in_range 240 244 x then
           match r with
           | [] => Utf8Incomplete
           | b1 :: r =>
               if second_of_4 x (u8 b1) then
                 match r with
                 | [] => Utf8Incomplete
                 | b2 :: r =>
                     if is_cont b2 then
                       match r with
                       | [] => Utf8Incomplete
                       | b3 :: _ =>
                           if is_cont b3
                           then Utf8Char ((x mod 8) * 262144 + (u8 b1 mod 64) * 4096
                                          + (u8 b2 mod 64) * 64 + u8 b3 mod 64) 4
                           else Utf8Invalid 3
                       end
                     else Utf8Invalid 2
                 end
               else Utf8Invalid 1
           end
         else Utf8Invalid 1)
  end.

(** [char::encode_utf8] *)
Definition encode_utf8 (cp : Z) : list byte :=
  if cp <? 128 then [of_u8 cp]
  else if cp <? 2048 then [of_u8 (192 + cp / 64); of_u8 (128 + cp mod 64)]
  else if cp <? 65536 then
    [of_u8 (224 + cp / 4096); of_u8 (128 + (cp / 64) mod 64); of_u8 (128 + cp mod 64)]
  else
    [of_u8 (240 + cp / 262144); of_u8 (128 + (cp / 4096) mod 64);
     of_u8 (128 + (cp / 64) mod 64); of_u8 (128 + cp mod 64)].

(** A Unicode scalar value: what a Rust [char] can be. *)
Definition is_char (cp : Z) : bool := in_range 0 55295 cp || in_range 57344 1114111 cp.

(** [char::is_control], the general category Cc. *)
Definition is_control (cp : Z) : bool := in_range 0 31 cp || in_range 127 159 cp.

Record Utf8Error := mkUtf8Error { valid_up_to : nat; error_len : option nat }.

(** The validation loop: the characters of the longest valid prefix, its length
    in bytes, and what stopped it. *)
Fixpoint utf8_scan (fuel : nat) (l : list byte) : list Z * nat * option (option nat) :=
  match fuel with
  | O => ([], O, None)
  | S fuel =>
      match utf8_next l with
      | None => ([], O, None)
      | Some (Utf8Char cp w) =>
          let '(cs, n, e) := utf8_scan fuel (drop w l) in (cp :: cs, (w + n)%nat, e)
      | Some (Utf8Invalid n) => ([], O, Some (Some n))
      | Some Utf8Incomplete => ([], O, Some None)
      end
  end.

(** [std::str::from_utf8]; a valid string is given by its characters. *)
Definition from_utf8 (l : list byte) : result Utf8Error (list Z) :=
  let '(cs, n, e) := utf8_scan (length l) l in
  match e with None => Ok cs | Some el => Err (mkUtf8Error n el) end.

(** [String::from_utf8_lossy]: every maximal invalid sequence becomes U+FFFD. *)
Fixpoint lossy_loop (fuel : nat) (l : list byte) : list byte :=
  match fuel with
  | O => []
  | S fuel =>
      match utf8_next l with
      | None => []
      | Some (Utf8Char cp w) => encode_utf8 cp ++ lossy_loop fuel (drop w l)
      | Some (Utf8Invalid n) => encode_utf8 0xFFFD ++ lossy_loop fuel (drop n l)
      | Some Utf8Incomplete => encode_utf8 0xFFFD
      end
  end.
Definition from_utf8_lossy (l : list byte) : list byte := lossy_loop (length l) l.

(** ** Facts *)
Ltac bool_lia :=
  unfold in_range, is_cont, is_char, second_of_3, second_of_4 in *;
  repeat match goal with
  | H : context [Z.leb ?a ?b] |- _ => destruct (Z.leb_spec a b); cbn in H
  | H : context [Z.ltb ?a ?b] |- _ => destruct (Z.ltb_spec a b); cbn in H
  | H : context [Z.eqb ?a ?b] |- _ => destruct (Z.eqb_spec a b); cbn in H
  end; try discriminate.

Lemma of_u8_eq z b : 0 ≤ z < 256 → z = u8 b → of_u8 z = b.
Proof. intros _ ->. apply u8_of_u8. Qed.

Lemma in_range_true lo hi x : in_range lo hi x = true ↔ lo ≤ x ≤ hi.
Proof. unfold in_range. lia. Qed.

Lemma second_of_3_range x y : second_of_3 x y = true →
  128 ≤ y ≤ 191 ∧ (x = 224 → 160 ≤ y) ∧ (x = 237 → y ≤ 159).
Proof. unfold second_of_3, in_range. repeat case_match; lia. Qed.

Lemma second_of_4_range x y : second_of_4 x y = true →
  128 ≤ y ≤ 191 ∧ (x = 240 → 144 ≤ y) ∧ (x = 244 → y ≤ 143).
Proof. unfold second_of_4, in_range. repeat case_match; lia. Qed.

Lemma second_of_3_true x y :
  128 ≤ y ≤ 191 → (x = 224 → 160 ≤ y) → (x = 237 → y ≤ 159) → second_of_3 x y = true.
Proof. unfold second_of_3, in_range. repeat case_match; lia. Qed.

Lemma second_of_4_true x y :
  128 ≤ y ≤ 191 → (x = 240 → 144 ≤ y) → (x = 244 → y ≤ 143) → second_of_4 x y = true.
Proof. unfold second_of_4, in_range. repeat case_match; lia. Qed.

Lemma is_char_spec cp : is_char cp = true ↔ 0 ≤ cp ≤ 55295 ∨ 57344 ≤ cp ≤ 1114111.
Proof. unfold is_char, in_range. lia. Qed.

Ltac solve_ltb :=
  repeat match goal with
  | |- context [?a <? ?b] =>
      first [rewrite (proj2 (Z.ltb_lt a b)) by lia | rewrite (proj2 (Z.ltb_ge a b)) by lia]
  end.

Lemma utf8_next_char l cp w :
  utf8_next l = Some (Utf8Char cp w) →
  is_char cp = true ∧ encode_utf8 cp = take w l ∧ (1 ≤ w ≤ 4)%nat ∧ (w ≤ length l)%nat.
Proof.
  rewrite is_char_spec.
  destruct l as [|b0 l]; [done |]. cbn [utf8_next]. pose proof (u8_range b0) as R0.
  destruct (Z.ltb_spec (u8 b0) 128) as [H0|H0].
  { intros [= <- <-]. unfold encode_utf8. solve_ltb. cbn [length take].
    rewrite u8_of_u8. split_and!; try done; lia. }
  destruct (in_range 194 223 (u8 b0)) eqn:H2.
  { apply in_range_true in H2. destruct l as [|b1 l]; [done |].
    unfold is_cont. destruct (in_range 128 191 (u8 b1)) eqn:C1; [apply in_range_true in C1 | done].
    intros [= <- <-]. unfold encode_utf8. solve_ltb. cbn [length take].
    split_and!; try lia. repeat f_equal; apply of_u8_eq; lia. }
  destruct (in_range 224 239 (u8 b0)) eqn:H3.
  { apply in_range_true in H3. destruct l as [|b1 l]; [done |].
    destruct (second_of_3 _ _) eqn:C1; [apply second_of_3_range in C1 | done].
    destruct l as [|b2 l]; [done |].
    unfold is_cont. destruct (in_range 128 191 (u8 b2)) eqn:C2; [apply in_range_true in C2 | done].
    intros [= <- <-]. unfold encode_utf8. solve_ltb. cbn [length take].
    split_and!; try lia. repeat f_equal; apply of_u8_eq; lia. }
  destruct (in_range 240 244 (u8 b0)) eqn:H4; [| done].
  apply in_range_true in H4. destruct l as [|b1 l]; [done |].
  destruct (second_of_4 _ _) eqn:C1; [apply second_of_4_range in C1 | done].
  destruct l as [|b2 l]; [done |].
  unfold is_cont. destruct (in_range 128 191 (u8 b2)) eqn:C2; [apply in_range_true in C2 | done].
  destruct l as [|b3 l]; [done |].
  destruct (in_range 128 191 (u8 b3)) eqn:C3; [apply in_range_true in C3 | done].
  intros [= <- <-]. unfold encode_utf8. solve_ltb. cbn [length take].
  split_and!; try lia. repeat f_equal; apply of_u8_eq; lia.
Qed.

Ltac solve_range :=
  repeat match goal with
  | |- context [in_range ?a ?b ?c] =>
      first [rewrite (proj2 (in_range_true a b c)) by lia
            | rewrite (proj1 (not_true_iff_false (in_range a b c)))
                by (rewrite in_range_true; lia)]
  end.

Lemma utf8_next_encode cp r :
  is_char cp = true →
  utf8_next (encode_utf8 cp ++ r) = Some (Utf8Char cp (length (encode_utf8 cp))).
Proof.
  rewrite is_char_spec. intros Hc. unfold encode_utf8.
  destruct (Z.ltb_spec cp 128).
  { cbn. rewrite of_u8_value by lia. solve_ltb. done. }
  destruct (Z.ltb_spec cp 2048).
  { cbn -[in_range]. unfold is_cont. rewrite !of_u8_value by lia. solve_ltb. solve_range.
    repeat f_equal; lia. }
  destruct (Z.ltb_spec cp 65536).
  { cbn -[in_range]. unfold is_cont. rewrite !of_u8_value by lia. solve_ltb. solve_range.
    rewrite second_of_3_true by lia. repeat f_equal; lia. }
  cbn -[in_range]. unfold is_cont. rewrite !of_u8_value by lia. solve_ltb. solve_range.
  rewrite second_of_4_true by lia. repeat f_equal; lia.
Qed.

Lemma encode_utf8_length cp : (1 ≤ length (encode_utf8 cp) ≤ 4)%nat.
Proof. unfold encode_utf8. repeat case_match; cbn; lia. Qed.

(** A byte below 128 occurs in an encoded character only as that character. *)
Lemma encode_utf8_ascii cp b :
  is_char cp = true → u8 b < 128 → b ∈ encode_utf8 cp → cp = u8 b.
Proof.
  rewrite is_char_spec. intros Hc Hb. unfold encode_utf8.
  repeat case_match; rewrite ?elem_of_cons, ?elem_of_nil;
    intros; destruct_or?; subst; try done.
  all: try (rewrite of_u8_value in Hb by lia); try rewrite of_u8_value by lia; lia.
Qed.

Lemma utf8_next_error l h :
  utf8_next l = Some h → match h with
                         | Utf8Char _ w => (1 ≤ w)%nat
                         | Utf8Invalid n => (1 ≤ n ≤ length l)%nat
                         | Utf8Incomplete => l ≠ []
                         end.
Proof.
  destruct h as [cp w|n|].
  - intros (_ & _ & ? & _)%utf8_next_char. lia.
  - destruct l as [|b0 l]; [done |]. cbn. repeat (case_match; try done); intros [= <-]; cbn; lia.
  - by destruct l.
Qed.

(** The characters found are those of the consumed prefix. *)
Lemma utf8_scan_spec fuel l cs n e :
  utf8_scan fuel l = (cs, n, e) → (length l ≤ fuel)%nat →
  Forall (fun cp => is_char cp = true) cs ∧ cs ≫= encode_utf8 = take n l ∧ (n ≤ length l)%nat ∧
  match e with
  | None => n = length l
  | Some (Some k) => (1 ≤ k ≤ length l - n)%nat
  | Some None => (n < length l)%nat
  end.
Proof.
  revert l cs n e. induction fuel as [|fuel IH]; intros l cs n e; cbn.
  - intros [= <- <- <-] Hl. destruct l; cbn in *; [| lia]. split_and!; [constructor | done | lia | done].
  - destruct (utf8_next l) as [[cp w|k|]|] eqn:E.
    + destruct (utf8_scan fuel (drop w l)) as [[cs' n'] e'] eqn:Es. intros [= <- <- <-] Hl.
      apply utf8_next_char in E as (Hc & Henc & Hw & Hwl).
      apply IH in Es as (Hcs & Hbind & Hn & He); [| rewrite length_drop; lia].
      rewrite length_drop in Hn, He. split_and!.
      * by constructor.
      * cbn. rewrite Henc. cbn in Hbind. rewrite Hbind, take_take_drop. done.
      * lia.
      * destruct e' as [[k|]|]; lia.
    + intros [= <- <- <-] _. apply utf8_next_error in E. split_and!; [constructor | done | lia..].
    + intros [= <- <- <-] _. apply utf8_next_error in E.
      split_and!; [constructor | done | lia |]. destruct l; cbn; [done | lia].
    + intros [= <- <- <-] _. destruct l; [| done]. split_and!; [constructor | done | lia | done].
Qed.

Lemma from_utf8_Ok l cs :
  from_utf8 l = Ok cs → Forall (fun cp => is_char cp = true) cs ∧ cs ≫= encode_utf8 = l.
Proof.
  unfold from_utf8. destruct (utf8_scan (length l) l) as [[cs' n] e] eqn:E.
  destruct e; [done |]. intros [= <-].
  apply utf8_scan_spec in E as (? & Hb & ? & ->); [| done]. by rewrite take_ge in Hb by lia.
Qed.

Lemma from_utf8_Err l n el :
  from_utf8 l = Err (mkUtf8Error n el) →
  (n ≤ length l)%nat ∧
  (1 ≤ default (length l - n) el)%nat ∧ (n + default (length l - n) el ≤ length l)%nat.
Proof.
  unfold from_utf8. destruct (utf8_scan (length l) l) as [[cs' n'] e] eqn:E.
  destruct e as [el'|]; [| done]. intros [= <- <-].
  apply utf8_scan_spec in E as (_ & _ & ? & He); [| done]. destruct el'; cbn; lia.
Qed.

Lemma from_utf8_no_panic l s : from_utf8 l ≠ Panic s.
Proof. unfold from_utf8. destruct (utf8_scan _ _) as [[? ?] []]; done. Qed.

(** Encoding scalar values gives a string that validates to those values. *)
Lemma utf8_scan_encode cs fuel :
  Forall (fun cp => is_char cp = true) cs → (length (cs ≫= encode_utf8) ≤ fuel)%nat →
  utf8_scan fuel (cs ≫= encode_utf8) = (cs, length (cs ≫= encode_utf8), None).
Proof.
  intros Hcs. revert fuel. induction Hcs as [|cp cs Hc Hcs IH]; intros fuel Hf.
  - by destruct fuel.
  - cbn [mbind list_bind] in *. rewrite length_app in *. pose proof (encode_utf8_length cp).
    destruct fuel as [|fuel]; [lia |]. cbn [utf8_scan].
    rewrite utf8_next_encode by done. rewrite drop_app_length. cbn [mbind list_bind] in IH.
    rewrite IH by lia. done.
Qed.

Lemma from_utf8_encode cs :
  Forall (fun cp => is_char cp = true) cs → from_utf8 (cs ≫= encode_utf8) = Ok cs.
Proof. intros Hcs. unfold from_utf8. by rewrite utf8_scan_encode. Qed.

(** The prefix before an error is itself a valid string. *)
Lemma from_utf8_valid_prefix l n el :
  from_utf8 l = Err (mkUtf8Error n el) →
  ∃ cs, from_utf8 (take n l) = Ok cs ∧ Forall (fun cp => is_char cp = true) cs ∧
        cs ≫= encode_utf8 = take n l.
Proof.
  unfold from_utf8 at 1. destruct (utf8_scan (length l) l) as [[cs n'] e] eqn:E.
  destruct e as [el'|]; [| done]. intros [= <- <-].
  apply utf8_scan_spec in E as (Hcs & Hb & _ & _); [| done].
  exists cs. by rewrite <- Hb, from_utf8_encode.
Qed.

(** A valid string is its own lossy reading. *)
Lemma lossy_loop_valid cs fuel :
  Forall (fun cp => is_char cp = true) cs → (length (cs ≫= encode_utf8) ≤ fuel)%nat →
  lossy_loop fuel (cs ≫= encode_utf8) = cs ≫= encode_utf8.
Proof.
  intros Hcs. revert fuel. induction Hcs as [|cp cs Hc Hcs IH]; intros fuel Hf.
  - by destruct fuel.
  - cbn [mbind list_bind] in *. rewrite length_app in *. pose proof (encode_utf8_length cp).
    destruct fuel as [|fuel]; [lia |]. cbn [lossy_loop].
    rewrite utf8_next_encode by done. rewrite drop_app_length. cbn [mbind list_bind] in IH.
    by rewrite IH by lia.
Qed.

Lemma from_utf8_lossy_valid l : is_ok (from_utf8 l) = true → from_utf8_lossy l = l.
Proof.
  destruct (from_utf8 l) as [cs| |] eqn:E; [| done | done]. intros _.
  apply from_utf8_Ok in E as [Hcs <-]. by apply lossy_loop_valid.
Qed.

Lemma from_utf8_app l k :
  is_ok (from_utf8 l) = true → is_ok (from_utf8 k) = true → is_ok (from_utf8 (l ++ k)) = true.
Proof.
  destruct (from_utf8 l) as [cs| |] eqn:E; [| done | done]. destruct (from_utf8 k) as [ds| |] eqn:F; [| done | done].
  intros _ _. apply from_utf8_Ok in E as [Hcs <-]. apply from_utf8_Ok in F as [Hds <-].
  rewrite <- bind_app, from_utf8_encode; [done |]. apply Forall_app; by split.
Qed.
