(* ===== verification/NameCodec.v ===== *)
(** [FuseNameCodec] (crates/tuxstack-vfs/src/path.rs): the reversible encoding
    of arbitrary byte names as single path components, and the collision
    suffix derived from a stable identity. *)

From S2P Require Import Prelude Error Path Utf8.

Local Open Scope Z_scope.

(** [fn hex] *)
Definition hex (b : byte) : option Z :=
  let x := u8 b in
  if in_range (u8 "0") (u8 "9") x then Some (x - u8 "0")
  else if in_range (u8 "a") (u8 "f") x then Some (x - u8 "a" + 10)
  else if in_range (u8 "A") (u8 "F") x then Some (x - u8 "A" + 10)
  else None.

Definition HEX : list byte := bytes "0123456789ABCDEF".

(** [fn push_percent]: what it appends to the output. *)
Definition push_percent (b : byte) (output : list byte) : list byte :=
  output ++ ["%"%byte;
             nth (Z.to_nat (Z.shiftr (u8 b) 4)) HEX x00;
             nth (Z.to_nat (Z.land (u8 b) 15)) HEX x00].

(** [fn is_safe] *)
Definition is_safe (character : Z) : bool :=
  negb (is_control character) &&
  negb (bool_decide (character ∈ map u8 (bytes "/:@%\"))).

(** [fn encode_unicode], over the characters of the text. *)
Fixpoint encode_unicode (text : list Z) (output : list byte) : list byte :=
  match text with
  | [] => output
  | character :: text =>
      encode_unicode text
        (if is_safe character then output ++ encode_utf8 character
         else foldl (fun output b => push_percent b output) output (encode_utf8 character))
  end.

(** The [while cursor < name.len()] loop of [encode]; [rest] is [name[cursor..]].
    Each round consumes at least one byte, so [length name] rounds suffice. *)
Fixpoint encode_loop (fuel : nat) (rest : list byte) (encoded : list byte) : vres (list byte) :=
  if is_empty rest then Ok encoded
  else match fuel with
  | O => Panic "out of fuel"
  | S fuel =>
      match from_utf8 rest with
      | Panic s => Panic s
      | Ok text => Ok (encode_unicode text encoded)
      | Err error =>
          let valid_end := valid_up_to error in
          encoded ←
            (if (0 <? valid_end)%nat then
               valid ← expect "validated UTF-8" (from_utf8 (take valid_end rest));
               Ok (encode_unicode valid encoded)
             else Ok encoded);
          let invalid_len := default (length rest - valid_end)%nat (error_len error) in
          encode_loop fuel (drop (valid_end + invalid_len) rest)
            (foldl (fun output b => push_percent b output) encoded
               (take invalid_len (drop valid_end rest)))
      end
  end.

Definition FuseNameCodec_encode (name : list byte) : vres (list byte) :=
  if contains "000"%byte name then Err (InvalidInput "NUL is not encodable")
  else if bool_decide (name = bytes ".") then Ok (bytes "%2E")
  else if bool_decide (name = bytes "..") then Ok (bytes "%2E%2E")
  else encode_loop (length name) name [].

(** The loop of [decode]; [rest] is [encoded[index..]].  Slicing a [&str] off a
    character boundary panics. *)
Fixpoint decode_loop (fuel : nat) (rest : list byte) (result : list byte) : vres (list byte) :=
  match rest with
  | [] => Ok result
  | b0 :: tail =>
      match fuel with
      | O => Panic "out of fuel"
      | S fuel =>
          if bool_decide (b0 = "%"%byte) then
            match tail with
            | b1 :: b2 :: rest' =>
                high ← ok_or InvalidEncoding (hex b1);
                low ← ok_or InvalidEncoding (hex b2);
                let b := Z.lor (Z.shiftl high 4) low in
                if b =? 0 then Err (InvalidInput "decoded NUL is not allowed")
                else decode_loop fuel rest' (result ++ [of_u8 b])
            | _ => Err InvalidEncoding
            end
          else
            match utf8_next rest with
            | None => Err InvalidEncoding
            | Some (Utf8Char character w) =>
                decode_loop fuel (drop w rest) (result ++ encode_utf8 character)
            | Some _ => Panic "byte index is not a char boundary"
            end
      end
  end.

Definition FuseNameCodec_decode (encoded : list byte) : vres (list byte) :=
  decode_loop (length encoded) encoded [].

(** [fn fnv1a64]: multiplication wraps at 64 bits. *)
Definition fnv1a64 (bs : list byte) : Z :=
  foldl (fun hash b => (Z.lxor hash (u8 b) * 0x100000001b3) mod 2 ^ 64) 0xcbf29ce484222325 bs.

Definition hex_digit_lower (d : Z) : byte := nth (Z.to_nat d) (bytes "0123456789abcdef") x00.

(** [format!("{hash:016x}")] of a 64-bit value. *)
Fixpoint hex_fixed (digits : nat) (v : Z) : list byte :=
  match digits with
  | O => []
  | S n => hex_fixed n (Z.shiftr v 4) ++ [hex_digit_lower (Z.land v 15)]
  end.

Definition FuseNameCodec_with_collision_suffix (encoded stable_id : list byte) : list byte :=
  encoded ++ "~"%byte :: hex_fixed 16 (fnv1a64 stable_id).

(** [str::rsplit_once]: around the last separator. *)
Fixpoint rsplit_once (sep : byte) (l : list byte) : option (list byte * list byte) :=
  match l with
  | [] => None
  | b :: l =>
      match rsplit_once sep l with
      | Some (base, suffix) => Some (b :: base, suffix)
      | None => if bool_decide (b = sep) then Some ([], l) else None
      end
  end.

(** [u8::is_ascii_hexdigit] *)
Definition is_ascii_hexdigit (b : byte) : bool :=
  in_range (u8 "0") (u8 "9") (u8 b) || in_range (u8 "a") (u8 "f") (u8 b)
  || in_range (u8 "A") (u8 "F") (u8 b).

Definition FuseNameCodec_split_collision_suffix (name : list byte) : list byte :=
  match rsplit_once "~" name with
  | Some (base, suffix) =>
      if (length suffix =? 16)%nat && forallb is_ascii_hexdigit suffix then base else name
  | None => name
  end.

(** The examples of the crate's own tests. *)
Example encode_examples :
  map FuseNameCodec_encode
    [bytes "postgres:17"; bytes "ghcr.io/org/app:latest"; bytes "."; bytes "100%";
     bytes "raw-" ++ ["255"%byte]; bytes "control-" ++ ["010"%byte]]
  = map Ok
    [bytes "postgres%3A17"; bytes "ghcr.io%2Forg%2Fapp%3Alatest"; bytes "%2E"; bytes "100%25";
     bytes "raw-%FF"; bytes "control-%0A"].
Proof. vm_compute. reflexivity. Qed.

Example decode_malformed :
  map (fun s => is_ok (FuseNameCodec_decode (bytes s))) ["%"; "%0"; "%GG"; "%00"]
  = [false; false; false; false].
Proof. vm_compute. reflexivity. Qed.

(** ** What an encoded name is

    [encodes raw enc]: [enc] is a concatenation of safe characters, copied, and
    of percent escapes of single non-zero bytes. *)
Inductive encodes : list byte → list byte → Prop :=
  | encodes_nil : encodes [] []
  | encodes_char cp raw enc :
      is_char cp = true → is_safe cp = true → encodes raw enc →
      encodes (encode_utf8 cp ++ raw) (encode_utf8 cp ++ enc)
  | encodes_percent b raw enc :
      b ≠ "000"%byte → encodes raw enc →
      encodes (b :: raw) (push_percent b [] ++ enc).

Lemma encodes_app raw1 enc1 raw2 enc2 :
  encodes raw1 enc1 → encodes raw2 enc2 → encodes (raw1 ++ raw2) (enc1 ++ enc2).
Proof.
  induction 1; intros; cbn [app]; [done | |].
  - rewrite <- !app_assoc. by constructor; auto.
  - rewrite <- app_assoc. by constructor; auto.
Qed.

Lemma push_percent_app b out : push_percent b out = out ++ push_percent b [].
Proof. done. Qed.

Lemma foldl_push_percent bs out :
  "000"%byte ∉ bs →
  ∃ enc, foldl (fun output b => push_percent b output) out bs = out ++ enc ∧ encodes bs enc.
Proof.
  revert out. induction bs as [|b bs IH]; intros out Hn; cbn [foldl].
  - exists []. rewrite app_nil_r. split; [done | constructor].
  - apply not_elem_of_cons in Hn as [Hb Hn].
    destruct (IH (push_percent b out) Hn) as (enc & -> & Henc).
    exists (push_percent b [] ++ enc). rewrite push_percent_app, <- app_assoc.
    split; [done |]. by constructor.
Qed.

Lemma encode_unicode_spec cs out :
  Forall (fun cp => is_char cp = true) cs → "000"%byte ∉ (cs ≫= encode_utf8) →
  ∃ enc, encode_unicode cs out = out ++ enc ∧ encodes (cs ≫= encode_utf8) enc.
Proof.
  intros Hcs. revert out. induction Hcs as [|cp cs Hc Hcs IH]; intros out Hn.
  - exists []. cbn. rewrite app_nil_r. split; [done | constructor].
  - cbn [mbind list_bind encode_unicode] in *. rewrite elem_of_app in Hn.
    destruct (is_safe cp) eqn:E.
    + destruct (IH (out ++ encode_utf8 cp)) as (enc & -> & Henc); [tauto |].
      exists (encode_utf8 cp ++ enc). rewrite <- app_assoc. split; [done |]. by constructor.
    + destruct (foldl_push_percent (encode_utf8 cp) out) as (enc1 & -> & Henc1); [tauto |].
      destruct (IH (out ++ enc1)) as (enc2 & -> & Henc2); [tauto |].
      exists (enc1 ++ enc2). rewrite <- app_assoc. split; [done |]. by apply encodes_app.
Qed.

(** The loop ends within [length rest] rounds, without a panic, and encodes
    every byte of [rest]. *)
Lemma encode_loop_spec fuel rest out :
  "000"%byte ∉ rest → (length rest ≤ fuel)%nat →
  ∃ enc, encode_loop fuel rest out = Ok (out ++ enc) ∧ encodes rest enc.
Proof.
  revert rest out. induction fuel as [|fuel IH]; intros rest out Hn Hf; cbn [encode_loop];
    (destruct (is_empty rest) eqn:Ee;
      [apply is_empty_true in Ee as ->; exists []; rewrite app_nil_r; split; [done | constructor] |
       apply is_empty_false in Ee]).
  { destruct rest; cbn in *; [done | lia]. }
  destruct (from_utf8 rest) as [cs|[n el]|s] eqn:E; [| | by apply from_utf8_no_panic in E].
  { apply from_utf8_Ok in E as [Hcs Hb]. rewrite <- Hb in Hn |- *.
    destruct (encode_unicode_spec cs out Hcs Hn) as (enc & -> & ?). by eauto. }
  pose proof (from_utf8_Err _ _ _ E) as (H1 & H2 & H3).
  pose proof (from_utf8_valid_prefix _ _ _ E) as (cs & Hok & Hcs & Hb).
  cbn [valid_up_to error_len]. set (k := default (length rest - n)%nat el) in *.
  assert (rest = take n rest ++ take k (drop n rest) ++ drop (n + k) rest) as Hsplit.
  { rewrite <- drop_drop, take_drop, take_drop. done. }
  assert ("000"%byte ∉ take n rest ∧ "000"%byte ∉ take k (drop n rest)
          ∧ "000"%byte ∉ drop (n + k) rest) as (Hn1 & Hn2 & Hn3).
  { rewrite Hsplit in Hn. rewrite !elem_of_app in Hn. tauto. }
  assert (∃ enc1, (if (0 <? n)%nat then
               valid ← expect "validated UTF-8" (from_utf8 (take n rest));
               Ok (encode_unicode valid out)
             else Ok out) = (Ok (out ++ enc1) : vres _) ∧ encodes (take n rest) enc1)
    as (enc1 & -> & Henc1).
  { destruct (Nat.ltb_spec 0 n).
    - rewrite Hok. cbn. rewrite <- Hb in Hn1 |- *.
      destruct (encode_unicode_spec cs out Hcs Hn1) as (enc1 & -> & ?). by eauto.
    - exists []. rewrite app_nil_r. replace n with O by lia. split; [done | constructor]. }
  cbn [mbind result_bind].
  destruct (foldl_push_percent _ (out ++ enc1) Hn2) as (enc2 & -> & Henc2).
  destruct (IH (drop (n + k) rest) ((out ++ enc1) ++ enc2)) as (enc3 & -> & Henc3).
  { done. } { rewrite length_drop. lia. }
  exists (enc1 ++ enc2 ++ enc3). rewrite <- !app_assoc. split; [done |].
  rewrite Hsplit. by repeat apply encodes_app.
Qed.

Lemma hex_percent b :
  ∃ h l, push_percent b [] = ["%"%byte; h; l] ∧
         ∃ hv lv, hex h = Some hv ∧ hex l = Some lv ∧ Z.lor (Z.shiftl hv 4) lv = u8 b ∧
                  Forall (fun c => c ∈ HEX) [h; l].
Proof.
  destruct b; do 2 eexists; (split; [reflexivity |]); do 2 eexists;
    (split_and!; [reflexivity.. |]); apply (bool_decide_unpack _); vm_compute; exact I.
Qed.

Lemma safe_not cp c : is_safe cp = true → c ∈ bytes "/:@%\" → cp ≠ u8 c.
Proof.
  unfold is_safe. intros [_ Hs%negb_true_iff]%andb_true_iff Hin ->.
  apply bool_decide_eq_false in Hs. apply Hs. by apply list_elem_of_fmap_2.
Qed.

Lemma safe_not_nul cp : is_safe cp = true → cp ≠ 0.
Proof. unfold is_safe, is_control, in_range. lia. Qed.

Lemma encode_utf8_head cp r :
  is_char cp = true → is_safe cp = true →
  ∃ b tail, encode_utf8 cp ++ r = b :: tail ∧ b ≠ "%"%byte.
Proof.
  intros Hc Hs. pose proof (encode_utf8_length cp).
  destruct (encode_utf8 cp) as [|b l] eqn:E; [cbn in *; lia |].
  exists b, (l ++ r). split; [done |]. intros ->.
  apply (safe_not cp "%"%byte Hs); [vm_compute; repeat constructor |].
  apply encode_utf8_ascii; [done | done |]. rewrite E. constructor.
Qed.

(** Decoding undoes any encoding. *)
Lemma decode_encodes raw enc fuel out :
  encodes raw enc → (length enc ≤ fuel)%nat → decode_loop fuel enc out = Ok (out ++ raw).
Proof.
  intros Henc. revert fuel out.
  induction Henc as [|cp raw enc Hc Hs Henc IH|b raw enc Hb Henc IH]; intros fuel out Hf.
  - rewrite app_nil_r. by destruct fuel.
  - pose proof (encode_utf8_length cp) as Hlen. rewrite length_app in Hf.
    destruct fuel as [|fuel]; [lia |].
    destruct (encode_utf8_head cp enc Hc Hs) as (b & tail & E & Hne).
    rewrite E. cbn [decode_loop]. rewrite bool_decide_eq_false_2 by done.
    rewrite <- E, utf8_next_encode by done. rewrite drop_app_length.
    rewrite IH by lia. by rewrite <- app_assoc.
  - destruct (hex_percent b) as (h & l & Hp & hv & lv & Hh & Hl & Hv & _).
    rewrite Hp in *. rewrite length_app in Hf. cbn [length] in Hf.
    destruct fuel as [|fuel]; [lia |]. cbn [app decode_loop].
    rewrite bool_decide_eq_true_2 by done. rewrite Hh, Hl. cbn [ok_or mbind result_bind].
    rewrite Hv. destruct (Z.eqb_spec (u8 b) 0) as [E0|_].
    { exfalso. apply Hb, u8_inj. done. }
    rewrite u8_of_u8, IH by lia. by rewrite <- app_assoc.
Qed.

(** The bytes an encoded name can contain. *)
Lemma encodes_chars raw enc b :
  encodes raw enc → b ∈ enc → u8 b < 128 →
  b ≠ "/"%byte ∧ b ≠ "000"%byte ∧ b ≠ ":"%byte ∧ b ≠ "@"%byte ∧ b ≠ "\"%byte.
Proof.
  intros Henc Hin Hlt. induction Henc as [|cp raw enc Hc Hs Henc IH|b' raw enc Hb Henc IH].
  - by apply elem_of_nil in Hin.
  - apply elem_of_app in Hin as [Hin|Hin]; [| by apply IH].
    apply encode_utf8_ascii in Hin; [| done | done].
    split_and!; intros ->; (try by apply (safe_not cp _ Hs) in Hin; [| vm_compute; repeat constructor]).
    by apply (safe_not_nul cp Hs).
  - apply elem_of_app in Hin as [Hin|Hin]; [| by apply IH].
    destruct (hex_percent b') as (h & l & Hp & hv & lv & _ & _ & _ & Hhex).
    rewrite Hp in Hin.
    assert (b ∈ "%"%byte :: HEX) as Hin'.
    { apply Forall_cons_iff in Hhex as [Hh [Hl _]%Forall_cons_iff].
      rewrite !elem_of_cons, elem_of_nil in Hin. rewrite elem_of_cons. naive_solver. }
    clear -Hin'. revert b Hin'. apply list.Forall_forall.
    apply (bool_decide_unpack _). vm_compute. exact I.
Qed.

(** An encoded name is valid UTF-8: the [String] the code builds. *)
Lemma encodes_utf8 raw enc :
  encodes raw enc →
  ∃ cs, Forall (fun cp => is_char cp = true) cs ∧ enc = cs ≫= encode_utf8.
Proof.
  assert (∀ c : byte, u8 c < 128 → is_char (u8 c) = true ∧ encode_utf8 (u8 c) = [c]) as Hascii.
  { intros c Hc. pose proof (u8_range c). unfold is_char, in_range, encode_utf8.
    rewrite (proj2 (Z.ltb_lt _ _)) by done. rewrite u8_of_u8. split; [lia | done]. }
  induction 1 as [|cp raw enc Hc Hs Henc (cs & Hcs & ->)|b raw enc Hb Henc (cs & Hcs & ->)].
  - by exists [].
  - exists (cp :: cs). split; [by constructor | done].
  - destruct (hex_percent b) as (h & l & -> & hv & lv & _ & _ & _ & Hhex).
    apply Forall_cons_iff in Hhex as [Hh [Hl _]%Forall_cons_iff].
    assert (∀ c, c ∈ HEX → u8 c < 128) as Hlt.
    { apply list.Forall_forall. apply (bool_decide_unpack _). vm_compute. exact I. }
    exists (u8 "%" :: u8 h :: u8 l :: cs). split.
    + repeat constructor; try done; by apply Hascii, Hlt.
    + cbn [mbind list_bind].
      rewrite (proj2 (Hascii "%"%byte eq_refl)), (proj2 (Hascii h (Hlt h Hh))),
        (proj2 (Hascii l (Hlt l Hl))). done.
Qed.

Lemma encode_encodes name enc :
  FuseNameCodec_encode name = Ok enc → encodes name enc ∧ "000"%byte ∉ name.
Proof.
  unfold FuseNameCodec_encode. destruct (contains _ _) eqn:E; [done |].
  apply contains_false in E. repeat case_bool_decide; subst.
  - intros [= <-]. split; [| done].
    apply (encodes_percent "." [] []); [done | constructor].
  - intros [= <-]. split; [| done].
    apply (encodes_percent "." ["."%byte] (push_percent "." [])); [done |].
    apply (encodes_percent "." [] []); [done | constructor].
  - destruct (encode_loop_spec (length name) name [] E) as (enc' & -> & Henc); [done |].
    intros [= <-]. done.
Qed.

Lemma decode_encode_raw name enc :
  FuseNameCodec_encode name = Ok enc → FuseNameCodec_decode enc = Ok name.
Proof.
  intros [H _]%encode_encodes. unfold FuseNameCodec_decode. by rewrite (decode_encodes name).
Qed.

Lemma rsplit_once_app sep a b :
  sep ∉ b → rsplit_once sep (a ++ sep :: b) = Some (a, b).
Proof.
  intros Hb. induction a as [|c a IH]; cbn [app rsplit_once].
  - assert (rsplit_once sep b = None) as ->.
    { induction b as [|c b IH]; cbn; [done |]. apply not_elem_of_cons in Hb as [? ?].
      rewrite IH by done. by rewrite bool_decide_eq_false_2. }
    by rewrite bool_decide_eq_true_2.
  - by rewrite IH.
Qed.

Lemma hex_fixed_digits n v :
  length (hex_fixed n v) = n ∧ Forall (fun b => is_ascii_hexdigit b = true ∧ b ≠ "~"%byte) (hex_fixed n v).
Proof.
  revert v. induction n as [|n IH]; intros v; cbn; [done |].
  destruct (IH (Z.shiftr v 4)) as [Hl Hf]. rewrite length_app, Hl. split; [cbn; lia |].
  apply Forall_app. split; [done |]. constructor; [| constructor].
  assert (0 ≤ Z.land v 15 < 16) as Hd.
  { change 15 with (Z.ones 4). rewrite Z.land_ones by lia. apply Z.mod_pos_bound. lia. }
  assert (∀ d : nat, (d < 16)%nat →
    is_ascii_hexdigit (nth d (bytes "0123456789abcdef") x00) = true
    ∧ nth d (bytes "0123456789abcdef") x00 ≠ "~"%byte) as Hall.
  { intros d Hlt. do 16 (destruct d as [|d]; [split; [vm_compute; reflexivity | discriminate] |]). lia. }
  apply Hall. lia.
Qed.

(** ** Theorems *)

(** C: [FuseNameCodec::encode] is defined on every name without a NUL byte,
    never panics, and [decode] recovers the exact raw bytes, valid UTF-8 or not. *)
Theorem name_codec_roundtrip (name : list byte) :
  "000"%byte ∉ name →
  ∃ enc, FuseNameCodec_encode name = Ok enc ∧ FuseNameCodec_decode enc = Ok name.
Proof.
  intros Hn. assert (∃ enc, FuseNameCodec_encode name = Ok enc) as [enc E].
  { unfold FuseNameCodec_encode. rewrite (proj2 (contains_false _ _)) by done.
    repeat case_bool_decide; [by eexists.. |].
    destruct (encode_loop_spec (length name) name [] Hn) as (enc & -> & _); [done | by eexists]. }
  exists enc. split; [done |]. by apply decode_encode_raw.
Qed.

(** Witness: a name that is not UTF-8 and needs escapes. *)
Lemma name_codec_roundtrip_witness :
  ∃ enc, FuseNameCodec_encode (bytes "a/b:" ++ ["255"%byte]) = Ok enc ∧
         FuseNameCodec_decode enc = Ok (bytes "a/b:" ++ ["255"%byte]).
Proof. apply name_codec_roundtrip. apply (bool_decide_unpack _). vm_compute. exact I. Defined.

(** Whatever bytes a Docker name has, its encoding is one path component of
    the namespace: it is valid UTF-8, has no slash, NUL, colon, at sign or
    backslash, is not a dot entry, and [VirtualFileName::new] accepts it
    whenever it fits the 255-byte limit. *)
Theorem name_codec_component (name enc : list byte) :
  FuseNameCodec_encode name = Ok enc → name ≠ [] →
  is_ok (from_utf8 enc) = true ∧
  Forall (fun b => b ∉ bytes "/:@\" ++ ["000"%byte]) enc ∧
  enc ≠ bytes "." ∧ enc ≠ bytes ".." ∧
  (len enc ≤ MAX_NAME_BYTES → VirtualFileName_new enc = Ok (mkVirtualFileName enc)).
Proof.
  intros Henc Hne. pose proof (decode_encode_raw _ _ Henc) as Hdec.
  pose proof (encode_encodes _ _ Henc) as [Hes _].
  assert (Forall (fun b => b ∉ bytes "/:@\" ++ ["000"%byte]) enc) as Hch.
  { apply list.Forall_forall. intros b Hb Hin.
    assert (u8 b < 128) as Hlt.
    { clear Hb. revert b Hin. apply list.Forall_forall. apply (bool_decide_unpack _). vm_compute. exact I. }
    pose proof (encodes_chars _ _ b Hes Hb Hlt) as H.
    change (bytes "/:@\" ++ ["000"%byte]) with ["/"; ":"; "@"; "\"; "000"]%byte in Hin.
    rewrite !elem_of_cons, elem_of_nil in Hin. naive_solver. }
  assert (enc ≠ [] ∧ enc ≠ bytes "." ∧ enc ≠ bytes "..") as (H0 & H1 & H2).
  { split_and!; intros ->; vm_compute in Hdec; injection Hdec as <-; [done | |];
      vm_compute in Henc; discriminate. }
  split_and!; [| done.. |].
  - destruct (encodes_utf8 _ _ Hes) as (cs & Hcs & ->). by rewrite from_utf8_encode.
  - intros Hlen. apply VirtualFileName_new_Ok. split; [done |].
    rewrite list.Forall_forall in Hch.
    split_and!; try done; intros Hin; apply (Hch _ Hin); apply (bool_decide_unpack _);
      vm_compute; exact I.
Qed.

(** Witness: an image reference with a registry, a path and a tag. *)
Lemma name_codec_component_witness :
  VirtualFileName_new (bytes "ghcr.io%2Forg%2Fapp%3Alatest")
  = Ok (mkVirtualFileName (bytes "ghcr.io%2Forg%2Fapp%3Alatest")).
Proof.
  apply (name_codec_component (bytes "ghcr.io/org/app:latest")); [vm_compute; reflexivity | done |].
  vm_compute. discriminate.
Defined.

(** Stripping the collision suffix that [with_collision_suffix] added gives
    back the encoded name, for every name and every identity. *)
Theorem collision_suffix_roundtrip (encoded stable_id : list byte) :
  FuseNameCodec_split_collision_suffix (FuseNameCodec_with_collision_suffix encoded stable_id)
  = encoded.
Proof.
  unfold FuseNameCodec_split_collision_suffix, FuseNameCodec_with_collision_suffix.
  destruct (hex_fixed_digits 16 (fnv1a64 stable_id)) as [Hl Hf].
  rewrite rsplit_once_app.
  - rewrite Hl. cbn [Nat.eqb andb]. rewrite (proj2 (forallb_forall _ _)); [done |].
    intros b Hb. rewrite Stdlib.Lists.List.Forall_forall in Hf. by apply Hf.
  - intros Hin. rewrite list.Forall_forall in Hf. by apply Hf in Hin as [_ []].
Qed.
