(* ===== verification/Symlink.v ===== *)
(** Symbolic links of a Docker resource (crates/tuxstack-vfs/src/symlink.rs):
    confinement of targets to the resource root, the rewriting of absolute
    targets to relative ones, and the bounded resolution of link chains. *)

From stdpp Require Import relations.
From S2P Require Import Prelude Error Path.

Local Open Scope Z_scope.

Definition DEFAULT_MAX_SYMLINK_DEPTH : nat := 40.

(** The loop of [resolve_target]: [components] is the stack of names. *)
Fixpoint resolve_loop (pieces : list (list byte)) (cs : list VirtualFileName)
  : vres (list VirtualFileName) :=
  match pieces with
  | [] => Ok cs
  | raw :: rest =>
      if is_empty raw || bool_decide (raw = bytes ".") then resolve_loop rest cs
      else if bool_decide (raw = bytes "..") then
        if is_empty cs then Err SymlinkEscape
        else resolve_loop rest (take (length cs - 1) cs)
      else
        name ← VirtualFileName_new raw;
        resolve_loop rest (cs ++ [name])
  end.

Definition resolve_target (link_parent : VirtualPath) (target : VirtualPathBytes)
  : vres VirtualPath :=
  let absolute := VirtualPathBytes_is_absolute target in
  let cs := if absolute then [] else components link_parent in
  let pieces := split_on "/"%byte (VirtualPathBytes_as_bytes target) in
  cs ← resolve_loop (drop (if absolute then 1 else 0) pieces) cs;
  VirtualPath_from_components cs.

(** [if !rewritten.is_empty() { push('/') }; extend(piece)] *)
Definition push_piece (rewritten piece : list byte) : list byte :=
  (if is_empty rewritten then rewritten else rewritten ++ ["/"%byte]) ++ piece.

Definition rewrite_symlink (link_path : VirtualPath) (target : VirtualPathBytes)
  : vres VirtualPathBytes :=
  parent ← VirtualPath_parent link_path;
  parent ← ok_or (InvalidInput "resource root cannot be a symlink") parent;
  _ ← resolve_target parent target;
  if negb (VirtualPathBytes_is_absolute target) then Ok target
  else
    normalized_target ← VirtualPath_from_absolute (VirtualPathBytes_as_bytes target);
    let rewritten :=
      Nat.iter (VirtualPath_depth parent) (fun r => push_piece r (bytes "..")) [] in
    let rewritten :=
      foldl (fun r c => push_piece r (VirtualFileName_as_bytes c)) rewritten
        (components normalized_target) in
    let rewritten := if is_empty rewritten then ["."%byte] else rewritten in
    VirtualPathBytes_new rewritten.

Section chain.
Context {S : Type} (read_link : S → VirtualPath → vres (option VirtualPathBytes) * S).

(** The [for _ in 0..max_depth] loop; the closure [read_link] may change its
    captured state [S]. *)
Fixpoint chain_loop (n : nat) (current : VirtualPath) (visited : gset VirtualPath) (s : S)
  : vres VirtualPath * S :=
  match n with
  | O => (Err SymlinkLoop, s)
  | Datatypes.S n =>
      if bool_decide (current ∈ visited) then (Err SymlinkLoop, s)
      else
        let visited := {[current]} ∪ visited in
        match read_link s current with
        | (Err e, s) => (Err e, s)
        | (Panic p, s) => (Panic p, s)
        | (Ok None, s) => (Ok current, s)
        | (Ok (Some target), s) =>
            match
              (parent ← VirtualPath_parent current;
               parent ← ok_or (InvalidInput "resource root cannot be a symlink") parent;
               resolve_target parent target)
            with
            | Ok current => chain_loop n current visited s
            | Err e => (Err e, s)
            | Panic p => (Panic p, s)
            end
        end
  end.

Definition resolve_symlink_chain (start : VirtualPath) (max_depth : nat) (s : S)
  : vres VirtualPath * S :=
  if (max_depth =? 0)%nat then (Err SymlinkLoop, s)
  else chain_loop max_depth start ∅ s.
End chain.

Example rewrite_example :
  (link ← VirtualPath_from_absolute (bytes "/usr/lib/libc.so");
   target ← VirtualPathBytes_new (bytes "/lib/./x/../libc-2.so");
   rewrite_symlink link target)
  = Ok (mkVirtualPathBytes (bytes "../../lib/libc-2.so")).
Proof. vm_compute. reflexivity. Qed.

(** ** Lexical resolution *)
Definition pieces_len (ps : list (list byte)) : Z := foldr (fun p acc => len p + 1 + acc) 0 ps.

Lemma pieces_len_split sep l : pieces_len (split_on sep l) = len l + 1.
Proof.
  induction l as [|b l IH]; [done |]. pose proof (split_on_ne sep l) as Hne.
  cbn [split_on]. case_decide.
  - cbn. fold (pieces_len (split_on sep l)). rewrite IH, len_cons, len_nil. lia.
  - destruct (split_on sep l) as [|p ps]; [done |]. cbn in *. rewrite !len_cons. lia.
Qed.

Lemma pieces_len_nonneg ps : 0 ≤ pieces_len ps.
Proof.
  unfold pieces_len. induction ps as [|p ps IH]; cbn; [done |]. pose proof (len_nonneg p). lia.
Qed.

Lemma path_len_max cs : path_len cs = Z.max 1 (components_len cs).
Proof.
  pose proof (path_len_pos cs). unfold path_len in *. destruct cs; cbn -[components_len] in *; [done |].
  lia.
Qed.

Lemma resolve_loop_wf pieces cs ds :
  Forall name_wf cs → resolve_loop pieces cs = Ok ds → Forall name_wf ds.
Proof.
  revert cs. induction pieces as [|raw rest IH]; intros cs Hcs; cbn; [by intros [= <-] |].
  case_match; [by apply IH |]. case_match.
  - case_match; [done |]. apply IH. by apply Forall_take.
  - rewrite bind_Ok. intros (n & [-> Hn]%VirtualFileName_new_Ok & Hl).
    eapply IH; [| exact Hl]. apply Forall_app. split; [done | by constructor].
Qed.

Lemma resolve_target_wf parent target p :
  path_wf parent → resolve_target parent target = Ok p → path_wf p.
Proof.
  intros (Hn & _). unfold resolve_target. rewrite bind_Ok. intros (cs & Hl & Hf).
  eapply from_components_wf; [| exact Hf]. eapply resolve_loop_wf; [| exact Hl].
  by destruct (VirtualPathBytes_is_absolute target).
Qed.

Lemma resolve_loop_no_panic pieces cs s : resolve_loop pieces cs ≠ Panic s.
Proof.
  revert cs. induction pieces as [|raw rest IH]; intros cs; cbn; [done |].
  case_match; [by apply IH |]. case_match; [case_match; [done | by apply IH] |].
  destruct (VirtualFileName_new raw) eqn:E; cbn; [by apply IH | done |].
  by apply VirtualFileName_new_no_panic in E.
Qed.

Lemma resolve_target_no_panic parent target s : resolve_target parent target ≠ Panic s.
Proof.
  unfold resolve_target. destruct (resolve_loop _ _) eqn:E; cbn [mbind result_bind]; [| done |].
  - apply from_components_no_panic.
  - by apply resolve_loop_no_panic in E.
Qed.

(** Within the byte budget the incremental parser of absolute paths computes
    the stack resolution, errors included. *)
Lemma from_absolute_loop_resolve pieces p :
  path_wf p → components_len (components p) + pieces_len pieces ≤ DEFAULT_MAX_PATH_BYTES →
  from_absolute_loop pieces p =
  (cs ← resolve_loop pieces (components p); VirtualPath_from_components cs).
Proof.
  revert p. induction pieces as [|raw rest IH]; intros p Hp Hb.
  { cbn. by rewrite path_wf_from_components. }
  cbn [pieces_len foldr] in Hb. fold (pieces_len rest) in Hb. pose proof (len_nonneg raw).
  cbn [from_absolute_loop resolve_loop]. case_match.
  { apply IH; [done | lia]. }
  case_match.
  { destruct (components p) as [|c cs _] eqn:E using rev_ind.
    { by rewrite VirtualPath_parent_root. }
    destruct (VirtualPath_parent_snoc p cs c Hp E) as [-> Hq]. cbn [mbind result_bind ok_or].
    rewrite IH; [| done |]; cbn [components].
    - destruct (is_empty (cs ++ [c])) eqn:Ee; [apply is_empty_true in Ee; by destruct cs |].
      by rewrite length_app, Nat.add_sub, take_app_length.
    - rewrite components_len_app in Hb. pose proof (components_len_nonneg [c]). lia. }
  destruct (VirtualFileName_new raw) as [n|e|s] eqn:En; cbn [mbind result_bind]; [| done | done].
  apply VirtualFileName_new_Ok in En as [-> Hn].
  assert (components_len (components p ++ [mkVirtualFileName raw])
          = components_len (components p) + len raw + 1) as Hlen.
  { rewrite components_len_app. cbn. lia. }
  set (q := mkVirtualPath (components p ++ [mkVirtualFileName raw])
              (path_len (components p ++ [mkVirtualFileName raw]))).
  assert (VirtualPath_join p (mkVirtualFileName raw) = Ok q) as Hj.
  { apply from_components_Ok. split; [done |]. rewrite path_len_max, Hlen.
    pose proof (pieces_len_nonneg rest). pose proof (components_len_nonneg (components p)). lia. }
  rewrite Hj. cbn [mbind result_bind].
  destruct (VirtualPath_join_wf p (mkVirtualFileName raw) q Hp Hn Hj) as [Hq Hc].
  rewrite IH; [by rewrite Hc | done |]. rewrite Hc, Hlen. lia.
Qed.

Lemma from_absolute_resolve parent target :
  target_wf target → VirtualPathBytes_is_absolute target = true →
  VirtualPath_from_absolute (VirtualPathBytes_as_bytes target) = resolve_target parent target.
Proof.
  intros (Hn & Hl) Ha. unfold VirtualPath_from_absolute, VirtualPath_from_absolute_with_limit.
  unfold resolve_target. rewrite Ha. unfold VirtualPathBytes_is_absolute in Ha. rewrite Ha. cbn [negb].
  rewrite (proj2 (contains_false _ _)) by done. rewrite bool_decide_eq_false_2 by lia.
  rewrite from_absolute_loop_resolve; [done | apply VirtualPath_root_wf |].
  apply bool_decide_eq_true in Ha. destruct target as [[|b bs]]; [done |]. cbn in *.
  injection Ha as ->. change (0 + pieces_len (split_on "/"%byte bs) ≤ DEFAULT_MAX_PATH_BYTES).
  rewrite pieces_len_split. rewrite len_cons in Hl. lia.
Qed.

(** ** The rewritten link *)
Lemma push_piece_join ps p :
  Forall (fun p => p ≠ []) ps →
  push_piece (join_with "/"%byte ps) p = join_with "/"%byte (ps ++ [p]).
Proof.
  unfold push_piece. induction 1 as [|q ps Hq Hps IH]; [done |]. cbn [app].
  destruct ps as [|r ps].
  - destruct q as [|b q]; [done |].
    change (((b :: q) ++ ["/"%byte]) ++ p = (b :: q) ++ "/"%byte :: p). by rewrite <- app_assoc.
  - cbn [app]. change (join_with "/"%byte (q :: r :: ps)) with (q ++ "/"%byte :: join_with "/"%byte (r :: ps)).
    change (join_with "/"%byte (q :: r :: ps ++ [p]))
      with (q ++ "/"%byte :: join_with "/"%byte ((r :: ps) ++ [p])).
    rewrite <- IH. destruct q as [|b q]; [done |]. cbn [app is_empty].
    destruct (is_empty (join_with "/"%byte (r :: ps))) eqn:E.
    { apply is_empty_true in E. apply Forall_cons_iff in Hps as [Hr _].
      destruct r; [done |]. by destruct ps. }
    rewrite <- !app_assoc. done.
Qed.

Lemma rewritten_join n cs :
  Forall name_wf cs →
  foldl (fun r c => push_piece r (VirtualFileName_as_bytes c))
    (Nat.iter n (fun r => push_piece r (bytes "..")) []) cs
  = join_with "/"%byte (replicate n (bytes "..") ++ map VirtualFileName_as_bytes cs).
Proof.
  intros Hcs.
  assert (∀ k, Forall (fun p => p ≠ []) (replicate k (bytes ".."))) as Hrep.
  { intros k. by apply list.Forall_replicate. }
  assert (Nat.iter n (fun r => push_piece r (bytes "..")) []
          = join_with "/"%byte (replicate n (bytes ".."))) as ->.
  { induction n as [|n IH]; [done |]. cbn [Nat.iter nat_rect].
    unfold Nat.iter in IH. rewrite IH, push_piece_join by done.
    by rewrite <- replicate_cons_app. }
  assert (∀ ps, Forall (fun p => p ≠ []) ps →
    foldl (fun r c => push_piece r (VirtualFileName_as_bytes c)) (join_with "/"%byte ps) cs
    = join_with "/"%byte (ps ++ map VirtualFileName_as_bytes cs)) as H; [| by apply H].
  induction Hcs as [|c cs Hc Hcs IH]; intros ps Hps; cbn [foldl map].
  { by rewrite app_nil_r. }
  rewrite push_piece_join by done. rewrite IH, <- app_assoc; [done |].
  apply Forall_app. split; [done |]. constructor; [by destruct Hc | constructor].
Qed.

Lemma resolve_loop_parents n pieces cs :
  length cs = n → resolve_loop (replicate n (bytes "..") ++ pieces) cs = resolve_loop pieces [].
Proof.
  revert cs. induction n as [|n IH]; intros cs Hl.
  { by destruct cs. }
  destruct cs as [|c cs _] using rev_ind; [done |]. rewrite length_app in Hl. cbn in Hl.
  cbn [replicate app resolve_loop].
  change (is_empty (bytes "..") || bool_decide (bytes ".." = bytes ".")) with false.
  rewrite bool_decide_eq_true_2 by done.
  destruct (is_empty (cs ++ [c])) eqn:Ee; [apply is_empty_true in Ee; by destruct cs |].
  rewrite length_app, Nat.add_sub, take_app_length. apply IH. lia.
Qed.

Lemma resolve_loop_names cs ds :
  Forall name_wf cs → resolve_loop (map VirtualFileName_as_bytes cs) ds = Ok (ds ++ cs).
Proof.
  intros Hcs. revert ds. induction Hcs as [|c cs Hc Hcs IH]; intros ds; cbn [map resolve_loop].
  { by rewrite app_nil_r. }
  pose proof Hc as (Hne & _ & Hd & Hdd & _).
  apply is_empty_false in Hne as ->. rewrite !bool_decide_eq_false_2 by done. cbn [orb].
  rewrite VirtualFileName_new_wf by done. cbn [mbind result_bind].
  rewrite IH. by rewrite <- app_assoc.
Qed.

(** A chain of names and parent steps as bytes: never absolute, and splitting
    it gives the pieces back. *)
Lemma relative_bytes n cs bs :
  Forall name_wf cs →
  bs = join_with "/"%byte (replicate n (bytes "..") ++ map VirtualFileName_as_bytes cs) →
  bs ≠ [] →
  split_on "/"%byte bs = replicate n (bytes "..") ++ map VirtualFileName_as_bytes cs ∧
  head bs ≠ Some "/"%byte.
Proof.
  intros Hcs -> Hne. set (ps := replicate n (bytes "..") ++ map VirtualFileName_as_bytes cs) in *.
  assert (Forall (fun p => p ≠ [] ∧ "/"%byte ∉ p) ps) as Hps.
  { apply Forall_app. split.
    - apply list.Forall_replicate. split; [done |]. apply (bool_decide_unpack _). by vm_compute.
    - apply Forall_map. eapply Forall_impl; [| exact Hcs]. intros c (? & _ & _ & _ & ? & _). done. }
  split.
  - apply split_join; [by destruct ps |]. eapply Forall_impl; [| exact Hps]. naive_solver.
  - destruct Hps as [|p ps' [Hp Hs] _]; [done |]. destruct p as [|b p]; [done |].
    destruct ps'; cbn; intros [= ->]; apply Hs; constructor.
Qed.

Lemma rewrite_relative link target r parent :
  VirtualPath_parent link = Ok (Some parent) → rewrite_symlink link target = Ok r →
  VirtualPathBytes_is_absolute target = false →
  r = target ∧ ∃ q, resolve_target parent target = Ok q.
Proof.
  intros Hp. unfold rewrite_symlink. rewrite Hp. cbn [mbind result_bind ok_or].
  intros Hr Ha. apply bind_Ok in Hr as (q & Hq & Hr). rewrite Ha in Hr. cbn in Hr.
  injection Hr as <-. by eauto.
Qed.

Lemma rewrite_absolute link target r parent :
  path_wf link → target_wf target →
  VirtualPath_parent link = Ok (Some parent) → rewrite_symlink link target = Ok r →
  VirtualPathBytes_is_absolute target = true →
  VirtualPathBytes_is_absolute r = false ∧
  ∃ q, resolve_target parent target = Ok q ∧ resolve_target parent r = Ok q.
Proof.
  intros Hl Ht Hp Hr Ha. pose proof (VirtualPath_parent_wf _ _ Hl Hp) as Hpw.
  unfold rewrite_symlink in Hr. rewrite Hp in Hr. cbn [mbind result_bind ok_or] in Hr.
  apply bind_Ok in Hr as (q & Hq & Hr). rewrite Ha in Hr. cbn [negb] in Hr.
  rewrite (from_absolute_resolve parent) in Hr by done. rewrite Hq in Hr. cbn [mbind result_bind] in Hr.
  pose proof (resolve_target_wf _ _ _ Hpw Hq) as Hqw. pose proof Hqw as (Hn & _).
  rewrite rewritten_join in Hr by done.
  set (bs := join_with _ _) in Hr. unfold VirtualPathBytes_new in Hr.
  destruct (contains _ _); [done |]. destruct (bool_decide _); [done |].
  injection Hr as <-. unfold VirtualPathBytes_is_absolute, resolve_target at 2.
  destruct (is_empty bs) eqn:Ee.
  - split; [done |]. exists q. split; [done |].
    cbn -[VirtualPath_from_components]. apply is_empty_true in Ee.
    destruct (VirtualPath_depth parent) as [|d] eqn:Ed.
    2: { subst bs. cbn [replicate app join_with] in Ee. by destruct (_ ++ _). }
    assert (components parent = []) as -> by (unfold VirtualPath_depth in Ed; by destruct (components parent)).
    cbn [replicate app] in *.
    assert (components q = []) as Hqe.
    { destruct (components q) as [|c cs]; [done |].
      apply Forall_cons_iff in Hn as [(Hne & _) _]. subst bs. cbn in Ee.
      by destruct (VirtualFileName_as_bytes c), cs. }
    rewrite <- Hqe. by apply path_wf_from_components.
  - apply is_empty_false in Ee.
    destruct (relative_bytes (VirtualPath_depth parent) (components q) bs Hn eq_refl Ee) as [Hs Hh].
    cbn [VirtualPathBytes_as_bytes]. rewrite bool_decide_eq_false_2 by done.
    split; [done |]. exists q. split; [done |].
    unfold VirtualPathBytes_is_absolute. cbn [VirtualPathBytes_as_bytes].
    rewrite bool_decide_eq_false_2 by done. rewrite drop_0, Hs.
    rewrite resolve_loop_parents by done. rewrite resolve_loop_names by done.
    cbn [mbind result_bind app]. by apply path_wf_from_components.
Qed.

(** ** Chains *)
Section pure_chain.
Context (rl : VirtualPath → vres (option VirtualPathBytes)).

(** One step: the current node is a link and its target resolves. *)
Definition hop (p q : VirtualPath) : Prop :=
  ∃ target parent, rl p = Ok (Some target) ∧ VirtualPath_parent p = Ok (Some parent) ∧
                   resolve_target parent target = Ok q.

Definition pure_read_link (s : ()) (p : VirtualPath) : vres (option VirtualPathBytes) * () := (rl p, s).

(** One turn of the loop: the next node, or the end of the chain. *)
Definition chain_next (p : VirtualPath) : vres (VirtualPath + VirtualPath) :=
  target ← rl p;
  match target with
  | None => Ok (inr p)
  | Some target =>
      parent ← VirtualPath_parent p;
      parent ← ok_or (InvalidInput "resource root cannot be a symlink") parent;
      inl <$> resolve_target parent target
  end.

Lemma chain_loop_follow n p visited :
  chain_loop pure_read_link n p visited tt = (follow chain_next SymlinkLoop n p visited, tt).
Proof.
  revert p visited. induction n as [|n IH]; intros p visited; cbn; [done |].
  case_bool_decide; [done |]. unfold chain_next at 1.
  destruct (rl p) as [[target|]| |]; cbn; [| done | done | done].
  destruct (VirtualPath_parent p) as [[parent|]| |]; cbn; [| done | done | done].
  destruct (resolve_target parent target) as [q| |]; cbn; [apply IH | done | done].
Qed.

Lemma chain_next_hop p q : chain_next p = Ok (inl q) ↔ hop p q.
Proof.
  unfold chain_next. rewrite bind_Ok. split.
  - intros ([target|] & Hr & Hn); [| done]. apply bind_Ok in Hn as (o & Hp & Hn).
    apply bind_Ok in Hn as (parent & ->%ok_or_Ok & Hn). exists target, parent. split_and!; [done | done |].
    destruct (resolve_target parent target); cbn in Hn; [| done | done]. by injection Hn as ->.
  - intros (target & parent & Hr & Hp & Hq). exists (Some target). split; [done |].
    rewrite Hp. cbn. by rewrite Hq.
Qed.

Lemma chain_next_end p q : chain_next p = Ok (inr q) ↔ q = p ∧ rl p = Ok None.
Proof.
  unfold chain_next. rewrite bind_Ok. split.
  - intros ([target|] & Hr & Hn); [| by injection Hn as ->].
    apply bind_Ok in Hn as (o & _ & Hn). apply bind_Ok in Hn as (parent & _ & Hn).
    by destruct (resolve_target parent target).
  - intros [-> Hr]. by exists None.
Qed.
End pure_chain.

(** What an accepted rewriting guarantees. *)
Lemma rewrite_symlink_confined (link : VirtualPath) (target r : VirtualPathBytes) :
  path_wf link → target_wf target → rewrite_symlink link target = Ok r →
  ∃ parent q,
    VirtualPath_parent link = Ok (Some parent) ∧
    VirtualPathBytes_is_absolute r = false ∧
    resolve_target parent target = Ok q ∧ resolve_target parent r = Ok q ∧ path_wf q.
Proof.
  intros Hl Ht Hr. pose proof Hr as Hr'. unfold rewrite_symlink in Hr'.
  apply bind_Ok in Hr' as (o & Hp & Hr'). apply bind_Ok in Hr' as (parent & Ho & _).
  apply ok_or_Ok in Ho as ->. exists parent. pose proof (VirtualPath_parent_wf _ _ Hl Hp) as Hpw.
  destruct (VirtualPathBytes_is_absolute target) eqn:Ha.
  - destruct (rewrite_absolute link target r parent) as (? & q & Hq & ?); try done.
    exists q. split_and!; try done. by eapply resolve_target_wf.
  - destruct (rewrite_relative link target r parent) as (-> & q & Hq); try done.
    exists q. split_and!; try done. by eapply resolve_target_wf.
Qed.

(** ** Properties *)

(** A rewritten link stays inside the resource.  When [rewrite_symlink]
    accepts a target, what it returns is relative, and read from the link's
    directory it names the same node as the original target: a well-formed
    path below the resource root, with an absolute target taken from that
    root. *)
Theorem symlink_rewrite_confined (link : VirtualPath) (target r : VirtualPathBytes) :
  path_wf link → target_wf target → rewrite_symlink link target = Ok r →
  ∃ parent q,
    VirtualPath_parent link = Ok (Some parent) ∧
    VirtualPathBytes_is_absolute r = false ∧
    resolve_target parent target = Ok q ∧ resolve_target parent r = Ok q ∧ path_wf q.
Proof. apply rewrite_symlink_confined. Qed.

(** Witness: an absolute library link two directories deep. *)
Lemma symlink_rewrite_confined_witness :
  ∃ link target r,
    VirtualPath_from_absolute (bytes "/usr/lib/libc.so") = Ok link ∧
    VirtualPathBytes_new (bytes "/lib/./x/../libc-2.so") = Ok target ∧
    rewrite_symlink link target = Ok r ∧
    ∃ parent q,
      VirtualPath_parent link = Ok (Some parent) ∧
      VirtualPathBytes_is_absolute r = false ∧
      resolve_target parent target = Ok q ∧ resolve_target parent r = Ok q ∧ path_wf q.
Proof.
  set (name := fun s => mkVirtualFileName (bytes s)).
  set (link := mkVirtualPath [name "usr"%string; name "lib"%string; name "libc.so"%string] 16).
  set (target := mkVirtualPathBytes (bytes "/lib/./x/../libc-2.so")).
  assert (VirtualPath_from_absolute (bytes "/usr/lib/libc.so") = Ok link) as Hl
    by (vm_compute; reflexivity).
  exists link, target, (mkVirtualPathBytes (bytes "../../lib/libc-2.so")).
  split_and!; [exact Hl | vm_compute; reflexivity.. |].
  apply symlink_rewrite_confined; [| | vm_compute; reflexivity].
  - by eapply from_absolute_wf.
  - split; apply (bool_decide_unpack _); vm_compute; exact I.
Defined.

(** For an absolute target the two normalisers of the code agree: lexical
    resolution from any directory of the resource, which collects the names
    and checks the path limit once at the end, returns exactly what
    [VirtualPath::from_absolute] returns, which checks the limit at every
    component, errors included. *)
Theorem absolute_target_normalisers_agree (parent : VirtualPath) (target : VirtualPathBytes) :
  target_wf target → VirtualPathBytes_is_absolute target = true →
  resolve_target parent target = VirtualPath_from_absolute (VirtualPathBytes_as_bytes target).
Proof. intros Ht Ha. symmetry. by apply from_absolute_resolve. Qed.

(** Witness: an absolute target that climbs above the root, an error in both. *)
Lemma absolute_target_normalisers_agree_witness :
  resolve_target VirtualPath_root (mkVirtualPathBytes (bytes "/a/../../b"))
  = VirtualPath_from_absolute (bytes "/a/../../b").
Proof.
  apply (absolute_target_normalisers_agree VirtualPath_root (mkVirtualPathBytes (bytes "/a/../../b")));
    [| vm_compute; reflexivity].
  split; apply (bool_decide_unpack _); vm_compute; exact I.
Defined.

(** Link chains are followed exactly.  With a provider whose links do not
    change during the resolution, [resolve_symlink_chain] succeeds with a path
    if and only if that path is reached from the start by fewer than
    [max_depth] link steps and is not itself a link; neither the visited set
    nor the depth bound rejects such a chain, and a cycle never succeeds. *)
Theorem symlink_chain_correct (rl : VirtualPath → vres (option VirtualPathBytes))
  (start q : VirtualPath) (max_depth : nat) :
  (resolve_symlink_chain (pure_read_link rl) start max_depth tt).1 = Ok q ↔
  ∃ k, (k < max_depth)%nat ∧ nsteps (hop rl) k start q ∧ rl q = Ok None.
Proof.
  unfold resolve_symlink_chain. destruct (Nat.eqb_spec max_depth 0) as [->|Hm].
  { split; [done |]. intros (k & ? & _). lia. }
  rewrite chain_loop_follow. cbn [fst]. rewrite follow_spec.
  assert (∀ k a b, nsteps (chain_step (chain_next rl)) k a b ↔ nsteps (hop rl) k a b) as Hs.
  { intros k a b. split; induction 1; econstructor; try done; by apply chain_next_hop. }
  setoid_rewrite Hs. setoid_rewrite chain_next_end. naive_solver.
Qed.
