(* ===== verification/Model.v ===== *)
(** The data of the virtual filesystem (crates/tuxstack-vfs/src/model.rs):
    resources, capabilities, metadata, directory entries and provider file
    handles.  Strings are [string]; [SystemTime] is a [Z] (nanoseconds since
    the Unix epoch). *)

From S2P Require Import Prelude Path.

Local Open Scope Z_scope.

Record ImagePlatform := mkImagePlatform {
  architecture : string;
  operating_system : string;
  variant : option string;
}.

Inductive DockerFilesystemResource :=
  | Container (container_id : string)
  | Image (image_id : string) (platform : ImagePlatform)
  | Volume (volume_name : string).

Definition canonical_id (self : DockerFilesystemResource) : string :=
  match self with
  | Container container_id => container_id
  | Image image_id _ => image_id
  | Volume volume_name => volume_name
  end.

Definition kind_name (self : DockerFilesystemResource) : string :=
  match self with
  | Container _ => "container"
  | Image _ _ => "image"
  | Volume _ => "volume"
  end.

Inductive ProviderKind :=
  | ContainerRootfsSnapshot
  | ContainerArchiveLive
  | NamedVolumeLive
  | LocalBindLive
  | HelperBindLive
  | TmpfsLive
  | RuntimeMount
  | ImageRootfsImmutable
  | InMemory.

Inductive ConsistencyMode :=
  | Immutable
  | Live
  | Snapshot (captured_at : Z) (generation : Z)
  | OperationTimeRead
  | ConsistencyUnavailable.

(** [ProviderCapabilities] is a [u32] of flags. *)
Definition ProviderCapabilities := Z.

Module Capabilities.
Definition LOOKUP : ProviderCapabilities := Z.shiftl 1 0.
Definition READDIR : ProviderCapabilities := Z.shiftl 1 1.
Definition GETATTR : ProviderCapabilities := Z.shiftl 1 2.
Definition READLINK : ProviderCapabilities := Z.shiftl 1 3.
Definition OPEN : ProviderCapabilities := Z.shiftl 1 4.
Definition READ : ProviderCapabilities := Z.shiftl 1 5.
Definition DOWNLOAD : ProviderCapabilities := Z.shiftl 1 6.
Definition REFRESH : ProviderCapabilities := Z.shiftl 1 7.

Definition bitor (self rhs : ProviderCapabilities) : ProviderCapabilities := Z.lor self rhs.

Definition READ_ONLY : ProviderCapabilities :=
  bitor (bitor (bitor (bitor (bitor (bitor LOOKUP READDIR) GETATTR) READLINK) OPEN) READ) REFRESH.

Definition empty : ProviderCapabilities := 0.

Definition contains (self other : ProviderCapabilities) : bool :=
  Z.land self other =? other.
End Capabilities.

Record ProviderDescriptor := mkProviderDescriptor {
  kind : ProviderKind;
  consistency : ConsistencyMode;
  source : option string;
  capabilities : ProviderCapabilities;
}.

Record RequestContext := mkRequestContext {
  ctx_uid : Z;
  ctx_gid : Z;
  ctx_pid : Z;
  request_id : Z;
}.

Inductive VirtualFileType :=
  | RegularFile
  | Directory
  | Symlink
  | CharacterDevice
  | BlockDevice
  | NamedPipe
  | Socket.

#[export] Instance VirtualFileType_eq_dec : EqDecision VirtualFileType.
Proof. solve_decision. Defined.

Definition is_special (self : VirtualFileType) : bool :=
  match self with
  | CharacterDevice | BlockDevice | NamedPipe | Socket => true
  | _ => false
  end.

Record OriginalMetadata := mkOriginalMetadata {
  orig_mode : Z;
  orig_uid : Z;
  orig_gid : Z;
}.

#[export] Instance OriginalMetadata_eq_dec : EqDecision OriginalMetadata.
Proof. solve_decision. Defined.

Record VirtualMetadata := mkVirtualMetadata {
  node_id : list byte;
  file_type : VirtualFileType;
  size : Z;
  nlink : Z;
  mtime : Z;
  original : OriginalMetadata;
  device_id : option Z;
  generation : Z;
}.

#[export] Instance VirtualMetadata_eq_dec : EqDecision VirtualMetadata.
Proof. solve_decision. Defined.

Definition UNIX_EPOCH : Z := 0.

(** Octal mode bits: 0o755, 0o777, 0o644. *)
Definition VirtualMetadata_new (node_id : list byte) (file_type : VirtualFileType) (size : Z)
  : VirtualMetadata :=
  {| node_id := node_id;
     file_type := file_type;
     size := size;
     nlink := 1;
     mtime := UNIX_EPOCH;
     original :=
       {| orig_mode := match file_type with Directory => 493 | Symlink => 511 | _ => 420 end;
          orig_uid := 0;
          orig_gid := 0 |};
     device_id := None;
     generation := 0 |}.

Definition VirtualMetadata_directory (node_id : list byte) : VirtualMetadata :=
  VirtualMetadata_new node_id Directory 0.

Definition VirtualMetadata_file (node_id : list byte) (size : Z) : VirtualMetadata :=
  VirtualMetadata_new node_id RegularFile size.

Definition VirtualMetadata_symlink (node_id : list byte) (size : Z) : VirtualMetadata :=
  VirtualMetadata_new node_id Symlink size.

Definition VirtualMetadata_special (node_id : list byte) (file_type : VirtualFileType)
  (device_id : Z) : VirtualMetadata :=
  let metadata := VirtualMetadata_new node_id file_type 0 in
  {| node_id := Model.node_id metadata;
     file_type := Model.file_type metadata;
     size := size metadata;
     nlink := nlink metadata;
     mtime := mtime metadata;
     original := original metadata;
     device_id := Some device_id;
     generation := generation metadata |}.

Record VirtualDirectoryEntry := mkVirtualDirectoryEntry {
  entry_name : VirtualFileName;
  entry_metadata : VirtualMetadata;
}.

#[export] Instance VirtualDirectoryEntry_eq_dec : EqDecision VirtualDirectoryEntry.
Proof. solve_decision. Defined.

Record ProviderFileHandle := mkProviderFileHandle {
  handle_id : Z;
  handle_path : VirtualPath;
  content_generation : Z;
}.

#[export] Instance ProviderFileHandle_eq_dec : EqDecision ProviderFileHandle.
Proof. solve_decision. Defined.
