(* ===== verification/Inode.v ===== *)
(** The inode table (crates/tuxstack-vfs/src/inode.rs): node keys, hardlink
    identities and the records behind the inode numbers given to the kernel.
    Every operation is a function from the table to its result and the table
    afterwards, so that a mutation before an error is visible. *)

From stdpp Require Import relations.
From S2P Require Import Prelude Error Path.

Local Open Scope Z_scope.

Definition ROOT_INODE : Z := 1.

Record VirtualNodeKey := mkVirtualNodeKey {
  daemon_identity : string;
  resource_kind : string;
  resource_id : string;
  provider_key : string;
  logical_path : VirtualPath;
  key_generation : Z;
}.

#[export] Instance VirtualNodeKey_eq_dec : EqDecision VirtualNodeKey.
Proof. solve_decision. Defined.
#[export] Program Instance VirtualNodeKey_countable : Countable VirtualNodeKey :=
  inj_countable'
    (fun k => (daemon_identity k, resource_kind k, resource_id k, provider_key k, logical_path k,
               key_generation k))
    (fun '(a, b, c, d, e, f) => mkVirtualNodeKey a b c d e f) _.
Next Obligation. by intros []. Qed.

Definition VirtualNodeKey_root : VirtualNodeKey :=
  {| daemon_identity := "";
     resource_kind := "root";
     resource_id := "";
     provider_key := "namespace";
     logical_path := VirtualPath_root;
     key_generation := 0 |}.

Record HardlinkKey := mkHardlinkKey {
  hl_daemon_identity : string;
  hl_resource_kind : string;
  hl_resource_id : string;
  hl_provider_key : string;
  provider_node_id : list byte;
  hl_generation : Z;
}.

#[export] Instance HardlinkKey_eq_dec : EqDecision HardlinkKey.
Proof. solve_decision. Defined.
#[export] Program Instance HardlinkKey_countable : Countable HardlinkKey :=
  inj_countable'
    (fun k => (hl_daemon_identity k, hl_resource_kind k, hl_resource_id k, hl_provider_key k,
               provider_node_id k, hl_generation k))
    (fun '(a, b, c, d, e, f) => mkHardlinkKey a b c d e f) _.
Next Obligation. by intros []. Qed.

Record InodeRecord := mkInodeRecord {
  inode : Z;
  canonical_key : VirtualNodeKey;
  hardlink_key : option HardlinkKey;
  aliases : gset VirtualNodeKey;
  deleted : bool;
  lookup_count : Z;
}.

Record InodeTable := mkInodeTable {
  by_key : gmap VirtualNodeKey Z;
  by_hardlink : gmap HardlinkKey Z;
  by_inode : gmap Z InodeRecord;
  next_inode : Z;
}.

(** Field updates of a record, [record.field = value]. *)
Definition set_lookup_count (r : InodeRecord) (n : Z) : InodeRecord :=
  mkInodeRecord (inode r) (canonical_key r) (hardlink_key r) (aliases r) (deleted r) n.
Definition set_aliases (r : InodeRecord) (a : gset VirtualNodeKey) : InodeRecord :=
  mkInodeRecord (inode r) (canonical_key r) (hardlink_key r) a (deleted r) (lookup_count r).
Definition set_canonical_key (r : InodeRecord) (k : VirtualNodeKey) : InodeRecord :=
  mkInodeRecord (inode r) k (hardlink_key r) (aliases r) (deleted r) (lookup_count r).
Definition set_deleted (r : InodeRecord) : InodeRecord :=
  mkInodeRecord (inode r) (canonical_key r) (hardlink_key r) (aliases r) true (lookup_count r).

Definition InodeTable_new : InodeTable :=
  let root_key := VirtualNodeKey_root in
  let root_record :=
    {| inode := ROOT_INODE;
       canonical_key := root_key;
       hardlink_key := None;
       aliases := {[root_key]};
       deleted := false;
       lookup_count := 1 |} in
  {| by_key := {[root_key := ROOT_INODE]};
     by_hardlink := ∅;
     by_inode := {[ROOT_INODE := root_record]};
     next_inode := ROOT_INODE + 1 |}.

(** The tail of [inode_for], lines 107-124: a new inode. *)
Definition fresh_inode (self : InodeTable) (key : VirtualNodeKey) (hardlink : option HardlinkKey)
  : vres Z * InodeTable :=
  let inode := next_inode self in
  match checked_add u64_max (next_inode self) 1 with
  | None => (Err (Unavailable "inode number space exhausted"), self)
  | Some next =>
      let record :=
        {| inode := inode;
           canonical_key := key;
           hardlink_key := hardlink;
           aliases := {[key]};
           deleted := false;
           lookup_count := 1 |} in
      (Ok inode,
       {| by_key := <[key := inode]> (by_key self);
          by_hardlink :=
            match hardlink with
            | Some h => <[h := inode]> (by_hardlink self)
            | None => by_hardlink self
            end;
          by_inode := <[inode := record]> (by_inode self);
          next_inode := next |})
  end.

Definition with_record (self : InodeTable) (i : Z) (r : InodeRecord) : InodeTable :=
  mkInodeTable (by_key self) (by_hardlink self) (<[i := r]> (by_inode self)) (next_inode self).

Definition with_key (self : InodeTable) (k : VirtualNodeKey) (i : Z) : InodeTable :=
  mkInodeTable (<[k := i]> (by_key self)) (by_hardlink self) (by_inode self) (next_inode self).

Definition inode_for (self : InodeTable) (key : VirtualNodeKey) (hardlink : option HardlinkKey)
  : vres Z * InodeTable :=
  match by_key self !! key with
  | Some inode =>
      match by_inode self !! inode with
      | Some record =>
          if deleted record then (Err NotFound, self)
          else
            (Ok inode,
             with_record self inode
               (set_lookup_count record (saturating_add u64_max (lookup_count record) 1)))
      | None => (Ok inode, self)
      end
  | None =>
      match hardlink ≫= (fun h => by_hardlink self !! h) with
      | Some inode =>
          match by_inode self !! inode with
          | None => (Err Stale, self)
          | Some record =>
              if deleted record then fresh_inode self key hardlink
              else
                let record := set_aliases record ({[key]} ∪ aliases record) in
                let record :=
                  set_lookup_count record (saturating_add u64_max (lookup_count record) 1) in
                (Ok inode, with_key (with_record self inode record) key inode)
          end
      | None => fresh_inode self key hardlink
      end
  end.

Definition add_alias (self : InodeTable) (i : Z) (alias : VirtualNodeKey)
  : vres () * InodeTable :=
  match by_inode self !! i with
  | None => (Err NotFound, self)
  | Some record =>
      if deleted record then (Err NotFound, self)
      else
        match by_key self !! alias with
        | Some existing =>
            ((if bool_decide (existing = i) then Ok tt
              else Err (InvalidInput "alias already identifies another inode")), self)
        | None =>
            (Ok tt,
             with_key (with_record self i (set_aliases record ({[alias]} ∪ aliases record))) alias i)
        end
  end.

Definition rename_alias (self : InodeTable) (old new : VirtualNodeKey) : vres Z * InodeTable :=
  if bool_decide (is_Some (by_key self !! new))
  then (Err (InvalidInput "rename destination already exists"), self)
  else
    match by_key self !! old with
    | None => (Err NotFound, self)
    | Some i =>
        let self :=
          mkInodeTable (delete old (by_key self)) (by_hardlink self) (by_inode self)
            (next_inode self) in
        match by_inode self !! i with
        | None => (Err Stale, self)
        | Some record =>
            let record := set_aliases record ({[new]} ∪ (aliases record ∖ {[old]})) in
            let record :=
              if bool_decide (canonical_key record = old) then set_canonical_key record new
              else record in
            (Ok i, with_key (with_record self i record) new i)
        end
    end.

Definition delete_inode (self : InodeTable) (i : Z) : vres () * InodeTable :=
  if bool_decide (i = ROOT_INODE) then (Err (InvalidInput "root cannot be deleted"), self)
  else
    match by_inode self !! i with
    | None => (Err NotFound, self)
    | Some record =>
        let drained := aliases record in
        let record := set_aliases (set_deleted record) ∅ in
        (Ok tt,
         {| by_key := set_fold delete (by_key self) drained;
            by_hardlink :=
              match hardlink_key record with
              | Some h => delete h (by_hardlink self)
              | None => by_hardlink self
              end;
            by_inode := <[i := record]> (by_inode self);
            next_inode := next_inode self |})
    end.

Definition forget (self : InodeTable) (i : Z) (count : Z) : InodeTable :=
  match by_inode self !! i with
  | Some record =>
      with_record self i (set_lookup_count record (saturating_sub (lookup_count record) count))
  | None => self
  end.

Definition InodeTable_get (self : InodeTable) (i : Z) : option InodeRecord := by_inode self !! i.

Definition InodeTable_lookup (self : InodeTable) (key : VirtualNodeKey) : option Z :=
  by_key self !! key.

(** ** The invariant of the table *)
Record inode_wf (t : InodeTable) : Prop := {
  wf_record i r :
    by_inode t !! i = Some r →
    inode r = i ∧ ROOT_INODE ≤ i < next_inode t ∧ 0 ≤ lookup_count r ≤ u64_max ∧
    (deleted r = true → aliases r = ∅) ∧ (deleted r = false → canonical_key r ∈ aliases r);
  wf_key k i : by_key t !! k = Some i ↔ ∃ r, by_inode t !! i = Some r ∧ k ∈ aliases r;
  wf_hardlink h i :
    by_hardlink t !! h = Some i →
    ∃ r, by_inode t !! i = Some r ∧ hardlink_key r = Some h ∧ deleted r = false;
  wf_root : ∃ r, by_inode t !! ROOT_INODE = Some r ∧ deleted r = false;
  wf_next : ROOT_INODE < next_inode t ≤ u64_max;
}.

Lemma InodeTable_new_wf : inode_wf InodeTable_new.
Proof.
  unfold InodeTable_new. split; cbn [by_key by_hardlink by_inode next_inode].
  - intros i r [<- <-]%lookup_singleton_Some. cbn. unfold ROOT_INODE, u64_max.
    split_and!; [done | lia | lia | lia | lia | done | set_solver].
  - intros k i. rewrite lookup_singleton_Some. setoid_rewrite lookup_singleton_Some. split.
    + intros [<- <-]. eexists. split; [done |]. cbn. set_solver.
    + intros (r & [<- <-] & Hk). cbn in Hk. split; [set_solver | done].
  - intros h i. by rewrite lookup_empty.
  - eexists. by rewrite lookup_singleton_eq.
  - unfold ROOT_INODE, u64_max. lia.
Qed.

(** A live key belongs to exactly one record. *)
Lemma wf_key_unique t k i j r s :
  inode_wf t → by_inode t !! i = Some r → k ∈ aliases r →
  by_inode t !! j = Some s → k ∈ aliases s → i = j.
Proof.
  intros Hwf Hi Hk Hj Hk'.
  assert (by_key t !! k = Some i) by (apply (wf_key t Hwf); eauto).
  assert (by_key t !! k = Some j) by (apply (wf_key t Hwf); eauto). congruence.
Qed.

(** Replacing one record: what every mutation of an existing record does. *)
Lemma inode_wf_update t i r r' keys hl :
  inode_wf t → by_inode t !! i = Some r →
  inode r' = inode r → hardlink_key r' = hardlink_key r →
  0 ≤ lookup_count r' ≤ u64_max →
  (deleted r' = true → aliases r' = ∅) →
  (deleted r' = false → deleted r = false ∧ canonical_key r' ∈ aliases r') →
  (i = ROOT_INODE → deleted r' = false) →
  (∀ k j, keys !! k = Some j ↔
          (j = i ∧ k ∈ aliases r') ∨ (j ≠ i ∧ by_key t !! k = Some j)) →
  (∀ h j, hl !! h = Some j → by_hardlink t !! h = Some j) →
  (deleted r' = true → ∀ h, hl !! h ≠ Some i) →
  inode_wf (mkInodeTable keys hl (<[i := r']> (by_inode t)) (next_inode t)).
Proof.
  intros Hwf Hi Hin Hh Hc Hd Hl Hr Hk Hhl Hdh.
  split; cbn [by_key by_hardlink by_inode next_inode].
  - intros j s [[<- <-] | [Hj Hs]]%lookup_insert_Some.
    + destruct (wf_record t Hwf i r Hi) as (? & ? & _). rewrite Hin. naive_solver.
    + by apply wf_record.
  - intros k j. rewrite Hk. split.
    + intros [[-> Ha] | [Hj Ha]].
      * exists r'. by rewrite lookup_insert_eq.
      * apply (wf_key t Hwf) in Ha as (s & Hs & Ha). exists s.
        by rewrite lookup_insert_ne by done.
    + intros (s & [[<- <-] | [Hj Hs]]%lookup_insert_Some & Ha); [by left |].
      right. split; [done |]. apply (wf_key t Hwf). eauto.
  - intros h j Hj. pose proof (Hhl h j Hj) as Hj'.
    apply (wf_hardlink t Hwf) in Hj' as (s & Hs & Hsh & Hsd).
    destruct (decide (j = i)) as [->|Hne].
    + exists r'. rewrite lookup_insert_eq. split_and!; [done | congruence |].
      destruct (deleted r') eqn:E; [by destruct (Hdh eq_refl h) | done].
    + exists s. by rewrite lookup_insert_ne.
  - destruct (decide (i = ROOT_INODE)) as [->|Hne].
    + exists r'. rewrite lookup_insert_eq. auto.
    + destruct (wf_root t Hwf) as (s & Hs & ?). exists s. by rewrite lookup_insert_ne.
  - apply wf_next, Hwf.
Qed.

(** The keys do not change when the aliases of the record do not. *)
Lemma wf_keys_same t i r a k j :
  inode_wf t → by_inode t !! i = Some r → a = aliases r →
  by_key t !! k = Some j ↔ (j = i ∧ k ∈ a) ∨ (j ≠ i ∧ by_key t !! k = Some j).
Proof.
  intros Hwf Hi ->. destruct (decide (j = i)) as [->|]; [| naive_solver].
  rewrite (wf_key t Hwf). naive_solver.
Qed.

(** A key that belongs to nobody becomes an alias of [i]. *)
Lemma wf_keys_insert t i r key a k j :
  inode_wf t → by_inode t !! i = Some r → by_key t !! key = None → a = {[key]} ∪ aliases r →
  <[key := i]> (by_key t) !! k = Some j ↔ (j = i ∧ k ∈ a) ∨ (j ≠ i ∧ by_key t !! k = Some j).
Proof.
  intros Hwf Hi Hkey ->. rewrite lookup_insert_Some, elem_of_union, elem_of_singleton.
  pose proof (wf_keys_same t i r _ k j Hwf Hi eq_refl).
  destruct (decide (key = k)) as [->|]; [rewrite Hkey in *|]; naive_solver.
Qed.

Lemma lookup_count_bump n : 0 ≤ n ≤ u64_max → 0 ≤ saturating_add u64_max n 1 ≤ u64_max.
Proof. unfold saturating_add. lia. Qed.

Lemma fresh_inode_wf t key h :
  inode_wf t → by_key t !! key = None → inode_wf (fresh_inode t key h).2.
Proof.
  intros Hwf Hkey. unfold fresh_inode, checked_add.
  case_bool_decide as Hn; [| done]. pose proof (wf_next t Hwf).
  assert (by_inode t !! next_inode t = None) as Hnew.
  { destruct (by_inode t !! next_inode t) as [r|] eqn:E; [| done].
    apply (wf_record t Hwf) in E as (_ & ? & _). lia. }
  split; cbn.
  - intros j s [[<- <-] | [Hj Hs]]%lookup_insert_Some; cbn.
    + unfold u64_max, ROOT_INODE in *. split_and!; try done; try lia. set_solver.
    + destruct (wf_record t Hwf j s Hs) as (? & ? & ? & ? & ?). split_and!; (done || lia).
  - intros k j. rewrite lookup_insert_Some. split.
    + intros [[<- <-] | [Hk Hj]].
      * eexists. rewrite lookup_insert_eq. split; [done |]. cbn. set_solver.
      * apply (wf_key t Hwf) in Hj as (s & Hs & Ha). exists s.
        rewrite lookup_insert_ne by congruence. done.
    + intros (s & [[<- <-] | [Hj Hs]]%lookup_insert_Some & Ha).
      * cbn in Ha. apply elem_of_singleton in Ha as ->. by left.
      * assert (by_key t !! k = Some j) as Hkj by (apply (wf_key t Hwf); eauto).
        right. split; [congruence | done].
  - intros h' j Hj.
    assert ((h = Some h' ∧ j = next_inode t) ∨ by_hardlink t !! h' = Some j) as [[-> ->]|Ho].
    { destruct h as [h|]; [| by right]. apply lookup_insert_Some in Hj. naive_solver. }
    + eexists. by rewrite lookup_insert_eq.
    + apply (wf_hardlink t Hwf) in Ho as (s & Hs & ?). exists s.
      rewrite lookup_insert_ne by congruence. done.
  - destruct (wf_root t Hwf) as (s & Hs & ?). exists s.
    rewrite lookup_insert_ne by congruence. done.
  - lia.
Qed.

Lemma inode_for_wf t key h : inode_wf t → inode_wf (inode_for t key h).2.
Proof.
  intros Hwf. unfold inode_for. destruct (by_key t !! key) as [i|] eqn:Ek.
  - destruct (by_inode t !! i) as [r|] eqn:Ei; [| done].
    destruct (deleted r) eqn:Ed; [done |].
    destruct (wf_record t Hwf i r Ei) as (? & ? & ? & ? & ?). cbn.
    apply (inode_wf_update t i r); cbn; try done; try congruence.
    + by apply lookup_count_bump.
    + naive_solver.
    + intros k j. by eapply wf_keys_same.
  - destruct (h ≫= _) as [i|] eqn:Eh; [| by apply fresh_inode_wf].
    destruct (by_inode t !! i) as [r|] eqn:Ei; [| done].
    destruct (deleted r) eqn:Ed; [by apply fresh_inode_wf |].
    destruct (wf_record t Hwf i r Ei) as (? & ? & ? & ? & ?). cbn.
    apply (inode_wf_update t i r); cbn; try done; try congruence.
    + by apply lookup_count_bump.
    + intros _. split; [done | set_solver].
    + intros k j. by eapply wf_keys_insert.
Qed.

Lemma add_alias_wf t i alias : inode_wf t → inode_wf (add_alias t i alias).2.
Proof.
  intros Hwf. unfold add_alias. destruct (by_inode t !! i) as [r|] eqn:Ei; [| done].
  destruct (deleted r) eqn:Ed; [done |].
  destruct (by_key t !! alias) as [j|] eqn:Ek; [done |].
  destruct (wf_record t Hwf i r Ei) as (? & ? & ? & ? & ?). cbn.
  apply (inode_wf_update t i r); cbn; try done; try congruence.
  - intros _. split; [done | set_solver].
  - intros k j. by eapply wf_keys_insert.
Qed.

Lemma rename_alias_wf t old new : inode_wf t → inode_wf (rename_alias t old new).2.
Proof.
  intros Hwf. unfold rename_alias. case_bool_decide as Hnew; [done |].
  apply eq_None_not_Some in Hnew.
  destruct (by_key t !! old) as [i|] eqn:Ek; [| done]. cbn.
  pose proof (proj1 (wf_key t Hwf old i) Ek) as (r & Ei & Ho). rewrite Ei.
  destruct (wf_record t Hwf i r Ei) as (? & ? & ? & Hd & Hl).
  assert (deleted r = false) as Ed by (destruct (deleted r); [set_solver | done]).
  assert (∀ k j, <[new := i]> (delete old (by_key t)) !! k = Some j ↔
    (j = i ∧ k ∈ {[new]} ∪ aliases r ∖ {[old]}) ∨ (j ≠ i ∧ by_key t !! k = Some j)) as Hkeys.
  { intros k j. rewrite lookup_insert_Some, lookup_delete_Some.
    pose proof (wf_keys_same t i r _ k j Hwf Ei eq_refl).
    rewrite elem_of_union, elem_of_difference, !elem_of_singleton.
    destruct (decide (new = k)) as [->|]; [rewrite Hnew in *; naive_solver |].
    destruct (decide (old = k)) as [->|]; [rewrite Ek in *|]; naive_solver. }
  case_bool_decide as Hc; cbn in Hc |- *.
  - apply (inode_wf_update t i r); cbn; try done; (congruence || set_solver).
  - apply (inode_wf_update t i r); cbn; try done; (congruence || set_solver).
Qed.

(** Draining the aliases removes exactly them from the keys. *)
Lemma drain_keys_lookup (m : gmap VirtualNodeKey Z) (s : gset VirtualNodeKey) k :
  set_fold delete m s !! k = if decide (k ∈ s) then None else m !! k.
Proof.
  cut (∀ k, (k ∈ s → set_fold delete m s !! k = None) ∧
            (k ∉ s → set_fold delete m s !! k = m !! k)).
  { intros H. destruct (H k) as [H1 H2]. case_decide; auto. }
  clear k. revert s. apply (set_fold_ind_L (fun m' s => ∀ k,
    (k ∈ s → m' !! k = None) ∧ (k ∉ s → m' !! k = m !! k))).
  - set_solver.
  - intros x X m' Hx IH k. destruct (decide (x = k)) as [->|Hne].
    + rewrite lookup_delete_eq. set_solver.
    + rewrite lookup_delete_ne by done. destruct (IH k). set_solver.
Qed.

Lemma delete_inode_wf t i : inode_wf t → inode_wf (delete_inode t i).2.
Proof.
  intros Hwf. unfold delete_inode. case_bool_decide as Hr; [done |].
  destruct (by_inode t !! i) as [r|] eqn:Ei; [| done]. cbn.
  destruct (wf_record t Hwf i r Ei) as (? & ? & ? & ? & ?).
  apply (inode_wf_update t i r); cbn; try done.
  - intros k j. rewrite drain_keys_lookup. pose proof (wf_keys_same t i r _ k j Hwf Ei eq_refl) as Hs.
    case_decide as Hk; [| set_solver].
    split; [done |]. intros [[-> ?] | [? Hj]]; [set_solver |].
    rewrite (proj2 (wf_key t Hwf k i)) in Hj by eauto. congruence.
  - intros h j. destruct (hardlink_key r); [| done]. by intros [_ ?]%lookup_delete_Some.
  - intros _ h Hh.
    assert (by_hardlink t !! h = Some i ∧ hardlink_key r ≠ Some h) as [Hb Hne].
    { destruct (hardlink_key r) as [h'|]; [| done].
      apply lookup_delete_Some in Hh as [? ?]. split; congruence. }
    apply (wf_hardlink t Hwf) in Hb as (s & Hs & ? & _). congruence.
Qed.

Lemma forget_wf t i n : inode_wf t → 0 ≤ n → inode_wf (forget t i n).
Proof.
  intros Hwf Hn. unfold forget. destruct (by_inode t !! i) as [r|] eqn:Ei; [| done].
  destruct (wf_record t Hwf i r Ei) as (? & ? & ? & ? & ?).
  apply (inode_wf_update t i r); cbn; try done.
  - unfold saturating_sub. lia.
  - naive_solver.
  - intros ->. destruct (wf_root t Hwf) as (s & Hs & ?). congruence.
  - intros k j. by eapply wf_keys_same.
  - intros Hd h Hh. apply (wf_hardlink t Hwf) in Hh as (s & Hs & _ & ?). congruence.
Qed.

(** ** Sequences of operations

    [inode_step may_delete t t']: one operation takes the table [t] to [t'].
    [may_delete] restricts the inodes that [delete] is called on. *)
Inductive inode_step (may_delete : InodeTable → Z → Prop) (t : InodeTable) : InodeTable → Prop :=
  | step_inode_for key h : inode_step may_delete t (inode_for t key h).2
  | step_add_alias i alias : inode_step may_delete t (add_alias t i alias).2
  | step_rename_alias old new : inode_step may_delete t (rename_alias t old new).2
  | step_delete i : may_delete t i → inode_step may_delete t (delete_inode t i).2
  | step_forget i n : 0 ≤ n → inode_step may_delete t (forget t i n).

Definition any_delete (t : InodeTable) (i : Z) : Prop := True.
Definition live_delete (t : InodeTable) (i : Z) : Prop :=
  ∃ r, by_inode t !! i = Some r ∧ deleted r = false.

Lemma inode_step_wf D t t' : inode_wf t → inode_step D t t' → inode_wf t'.
Proof.
  intros Hwf [| | | |]; [by apply inode_for_wf | by apply add_alias_wf | by apply rename_alias_wf
                        | by apply delete_inode_wf | by apply forget_wf].
Qed.

Lemma inode_steps_wf D t t' : inode_wf t → rtc (inode_step D) t t' → inode_wf t'.
Proof. intros Hwf. induction 1; [done |]. eauto using inode_step_wf. Qed.

(** What no operation undoes: a record stays, keeps its hardlink identity and
    stays deleted once deleted; numbers below [next_inode] are never new. *)
Definition inode_extends (t t' : InodeTable) : Prop :=
  next_inode t ≤ next_inode t' ∧
  (∀ i r, by_inode t !! i = Some r →
    ∃ r', by_inode t' !! i = Some r' ∧ hardlink_key r' = hardlink_key r ∧
          (deleted r = true → deleted r' = true)) ∧
  (∀ i, by_inode t !! i = None → is_Some (by_inode t' !! i) → next_inode t ≤ i).

#[export] Instance inode_extends_preorder : PreOrder inode_extends.
Proof.
  split.
  - intros t. split_and!; [done | naive_solver | intros i ->; by intros [? ?]].
  - intros t1 t2 t3 (H1 & H2 & H3) (G1 & G2 & G3). split_and!; [lia | |].
    + intros i r (r' & Hr' & ? & ?)%H2. apply G2 in Hr' as (r'' & ? & ? & ?).
      exists r''. split_and!; [done | congruence | auto].
    + intros i Hn Hs. destruct (by_inode t2 !! i) as [r|] eqn:E.
      * apply H3; [done | by rewrite E].
      * specialize (G3 i E Hs). lia.
Qed.

(** An update of one record that keeps identity and deletion extends. *)
Lemma inode_extends_update t i r r' keys hl :
  by_inode t !! i = Some r → hardlink_key r' = hardlink_key r →
  (deleted r = true → deleted r' = true) →
  inode_extends t (mkInodeTable keys hl (<[i := r']> (by_inode t)) (next_inode t)).
Proof.
  intros Hi Hh Hd. split_and!; cbn [by_inode next_inode]; [done | |].
  - intros j s Hj. destruct (decide (j = i)) as [->|Hne].
    + exists r'. rewrite lookup_insert_eq. naive_solver.
    + exists s. by rewrite lookup_insert_ne.
  - intros j Hn Hs. rewrite lookup_insert_ne in Hs by congruence. rewrite Hn in Hs. by destruct Hs.
Qed.

Lemma fresh_inode_extends t key h : inode_wf t → inode_extends t (fresh_inode t key h).2.
Proof.
  intros Hwf. unfold fresh_inode, checked_add. case_bool_decide; [| done].
  split_and!; cbn [by_inode next_inode snd]; [lia | |].
  - intros i r Hi. exists r. rewrite lookup_insert_ne; [naive_solver |].
    apply (wf_record t Hwf) in Hi as (_ & ? & _). lia.
  - intros i Hn Hs. destruct (decide (i = next_inode t)) as [->|]; [lia |].
    rewrite lookup_insert_ne in Hs by done. rewrite Hn in Hs. by destruct Hs.
Qed.

Lemma inode_for_extends t key h : inode_wf t → inode_extends t (inode_for t key h).2.
Proof.
  intros Hwf. unfold inode_for. destruct (by_key t !! key) as [i|].
  - destruct (by_inode t !! i) as [r|] eqn:Ei; [| done].
    destruct (deleted r) eqn:Ed; [done |]. by eapply inode_extends_update.
  - destruct (h ≫= _) as [i|]; [| by apply fresh_inode_extends].
    destruct (by_inode t !! i) as [r|] eqn:Ei; [| done].
    destruct (deleted r) eqn:Ed; [by apply fresh_inode_extends |].
    by eapply (inode_extends_update t i r _).
Qed.

Lemma rename_alias_extends t old new : inode_wf t → inode_extends t (rename_alias t old new).2.
Proof.
  intros Hwf. unfold rename_alias. case_bool_decide; [done |].
  destruct (by_key t !! old) as [i|] eqn:Ek; [| done]. cbn.
  apply (wf_key t Hwf) in Ek as (r & Ei & _). rewrite Ei.
  case_bool_decide; by eapply (inode_extends_update t i r _).
Qed.

Lemma inode_step_extends D t t' : inode_wf t → inode_step D t t' → inode_extends t t'.
Proof.
  intros Hwf [key h | i alias | old new | i _ | i n _].
  - by apply inode_for_extends.
  - unfold add_alias. destruct (by_inode t !! i) as [r|] eqn:Ei; [| done].
    destruct (deleted r) eqn:Ed; [done |]. destruct (by_key t !! alias); [done |].
    by eapply (inode_extends_update t i r _).
  - by apply rename_alias_extends.
  - unfold delete_inode. case_bool_decide; [done |].
    destruct (by_inode t !! i) as [r|] eqn:Ei; [| done]. by eapply (inode_extends_update t i r _).
  - unfold forget. destruct (by_inode t !! i) as [r|] eqn:Ei; [| done].
    by eapply (inode_extends_update t i r _).
Qed.

Lemma inode_steps_extends D t t' : inode_wf t → rtc (inode_step D) t t' → inode_extends t t'.
Proof.
  intros Hwf. induction 1 as [|t t1 t2 Hs Hss IH]; [done |].
  transitivity t1; [by eapply inode_step_extends |]. apply IH. by eapply inode_step_wf.
Qed.

(** ** Hardlink identities *)
Definition hardlink_complete (t : InodeTable) : Prop :=
  ∀ i r h, by_inode t !! i = Some r → deleted r = false → hardlink_key r = Some h →
           by_hardlink t !! h = Some i.

(** Updating a record that keeps its identity and does not come back to life. *)
Lemma hardlink_complete_update t i r r' keys :
  hardlink_complete t → by_inode t !! i = Some r →
  hardlink_key r' = hardlink_key r → (deleted r' = false → deleted r = false) →
  hardlink_complete
    (mkInodeTable keys (by_hardlink t) (<[i := r']> (by_inode t)) (next_inode t)).
Proof.
  intros Hc Hi Hh Hd j s h. cbn [by_inode by_hardlink].
  intros [[<- <-] | [Hj Hs]]%lookup_insert_Some Hsd Hsh; [| by eapply Hc].
  eapply Hc; [exact Hi | auto | congruence].
Qed.

Lemma hardlink_unique t i j r s h :
  hardlink_complete t → by_inode t !! i = Some r → by_inode t !! j = Some s →
  deleted r = false → deleted s = false →
  hardlink_key r = Some h → hardlink_key s = Some h → i = j.
Proof.
  intros Hc Hi Hj Hr Hs Hrh Hsh.
  pose proof (Hc i r h Hi Hr Hrh). pose proof (Hc j s h Hj Hs Hsh). congruence.
Qed.

Lemma fresh_inode_complete t key h :
  inode_wf t → hardlink_complete t → (∀ h', h = Some h' → by_hardlink t !! h' = None) →
  hardlink_complete (fresh_inode t key h).2.
Proof.
  intros Hwf Hc Hnew. unfold fresh_inode, checked_add. case_bool_decide; [| done].
  intros j s h'. cbn [by_inode by_hardlink snd].
  intros [[<- <-] | [Hj Hs]]%lookup_insert_Some Hsd Hsh; cbn in Hsh.
  - subst h. by rewrite lookup_insert_eq.
  - pose proof (Hc j s h' Hs Hsd Hsh) as Hb. destruct h as [h|]; [| done].
    rewrite lookup_insert_ne; [done |]. intros ->. by rewrite Hnew in Hb.
Qed.

Lemma inode_for_complete t key h :
  inode_wf t → hardlink_complete t → hardlink_complete (inode_for t key h).2.
Proof.
  intros Hwf Hc. unfold inode_for. destruct (by_key t !! key) as [i|].
  - destruct (by_inode t !! i) as [r|] eqn:Ei; [| done].
    destruct (deleted r) eqn:Ed; [done |]. by apply (hardlink_complete_update t i r).
  - destruct (h ≫= _) as [i|] eqn:Eh.
    + destruct (by_inode t !! i) as [r|] eqn:Ei; [| done].
      assert (deleted r = false) as ->.
      { destruct h as [h|]; [| done]. cbn in Eh.
        apply (wf_hardlink t Hwf) in Eh as (s & Hs & _ & ?). congruence. }
      by apply (hardlink_complete_update t i r).
    + apply fresh_inode_complete; [done | done |]. intros h' ->. done.
Qed.

Lemma delete_inode_complete t i :
  hardlink_complete t → live_delete t i → hardlink_complete (delete_inode t i).2.
Proof.
  intros Hc (r & Hi & Hlive). unfold delete_inode. case_bool_decide; [done |]. rewrite Hi.
  intros j s h. cbn [by_inode by_hardlink snd].
  intros [[<- <-] | [Hj Hs]]%lookup_insert_Some Hsd Hsh; [done |].
  pose proof (Hc j s h Hs Hsd Hsh) as Hb. cbn.
  destruct (hardlink_key r) as [h'|] eqn:Er; [| done].
  rewrite lookup_delete_ne; [done |]. intros ->. pose proof (Hc i r h Hi Hlive Er). congruence.
Qed.

Lemma inode_step_complete t t' :
  inode_wf t → hardlink_complete t → inode_step live_delete t t' → hardlink_complete t'.
Proof.
  intros Hwf Hc [key h | i alias | old new | i Hl | i n _].
  - by apply inode_for_complete.
  - unfold add_alias. destruct (by_inode t !! i) as [r|] eqn:Ei; [| done].
    destruct (deleted r) eqn:Ed; [done |]. destruct (by_key t !! alias); [done |].
    by apply (hardlink_complete_update t i r).
  - unfold rename_alias. case_bool_decide; [done |].
    destruct (by_key t !! old) as [i|] eqn:Ek; [| done]. cbn.
    apply (wf_key t Hwf) in Ek as (r & Ei & _). rewrite Ei.
    case_bool_decide; by apply (hardlink_complete_update t i r).
  - by apply delete_inode_complete.
  - unfold forget. destruct (by_inode t !! i) as [r|] eqn:Ei; [| done].
    by apply (hardlink_complete_update t i r).
Qed.

Lemma inode_steps_complete t t' :
  inode_wf t → hardlink_complete t → rtc (inode_step live_delete) t t' → hardlink_complete t'.
Proof.
  intros Hwf Hc. induction 1 as [|t t1 t2 Hs Hss IH]; [done |].
  apply IH; [by eapply inode_step_wf | by eapply inode_step_complete].
Qed.

Lemma InodeTable_new_complete : hardlink_complete InodeTable_new.
Proof.
  intros i r h. unfold InodeTable_new. cbn [by_inode]. by intros [<- <-]%lookup_singleton_Some.
Qed.

(** What [inode_for] returns on a well-formed table. *)
Lemma inode_for_result t key h :
  inode_wf t →
  (next_inode t = u64_max ∧ inode_for t key h = (Err (Unavailable "inode number space exhausted"), t))
  ∨ ∃ i t', inode_for t key h = (Ok i, t') ∧ by_key t' !! key = Some i ∧
      (by_key t !! key = Some i ∨
       (by_key t !! key = None ∧ (h ≫= fun h' => by_hardlink t !! h') = Some i) ∨
       (by_key t !! key = None ∧ (h ≫= fun h' => by_hardlink t !! h') = None ∧ i = next_inode t)).
Proof.
  intros Hwf. pose proof (wf_next t Hwf) as Hn. unfold inode_for.
  destruct (by_key t !! key) as [i|] eqn:Ek.
  - pose proof (proj1 (wf_key t Hwf key i) Ek) as (r & Hi & Ha). rewrite Hi.
    destruct (wf_record t Hwf i r Hi) as (_ & _ & _ & Hd & _).
    destruct (deleted r); [rewrite Hd in Ha by done; set_solver |].
    right. eexists _, _. split_and!; [done | done | by left].
  - assert ((h ≫= fun h' => by_hardlink t !! h') = None → inode_for t key h = fresh_inode t key h) as Hf.
    { intros E. unfold inode_for. by rewrite Ek, E. }
    destruct (h ≫= _) as [i|] eqn:Eh.
    + destruct h as [h|]; [| done]. cbn in Eh.
      apply (wf_hardlink t Hwf) in Eh as (s & -> & _ & ->).
      right. eexists _, _. split_and!; [done | apply lookup_insert_eq | naive_solver].
    + unfold fresh_inode, checked_add. case_bool_decide.
      * right. eexists _, _. split_and!; [done | apply lookup_insert_eq | naive_solver].
      * left. split; [lia | done].
Qed.

(** ** Properties *)

(** The invariant of the inode table holds after every sequence of
    operations, failed ones included: records sit at their own number below
    [next_inode]; the key index and the alias sets are inverse to each other,
    so a key names one inode; a deleted record has no alias left; the hardlink
    index only points at live records of that identity; the root is live. *)
Theorem inode_table_invariant (t : InodeTable) :
  rtc (inode_step any_delete) InodeTable_new t → inode_wf t.
Proof. apply inode_steps_wf, InodeTable_new_wf. Qed.

(** A table reached by a lookup, a delete and another lookup of the same key. *)
Definition sample_key (name : string) : VirtualNodeKey :=
  mkVirtualNodeKey "d" "volume" "v" "p" (mkVirtualPath [mkVirtualFileName (bytes name)] 2) 0.
Definition sample_hardlink : HardlinkKey :=
  mkHardlinkKey "d" "volume" "v" "p" (bytes "id") 0.
Definition sample_table : InodeTable :=
  let t := (inode_for InodeTable_new (sample_key "a") (Some sample_hardlink)).2 in
  let t := (delete_inode t 2).2 in
  (inode_for t (sample_key "a") (Some sample_hardlink)).2.

Lemma sample_table_reachable : rtc (inode_step any_delete) InodeTable_new sample_table.
Proof.
  eapply rtc_l; [apply (step_inode_for _ _ (sample_key "a") (Some sample_hardlink)) |].
  eapply rtc_l; [by apply (step_delete _ _ 2) |].
  eapply rtc_l; [apply (step_inode_for _ _ (sample_key "a") (Some sample_hardlink)) |].
  apply rtc_refl.
Defined.

(** Witness: a lookup, a delete and another lookup of the same key. *)
Lemma inode_table_invariant_witness : inode_wf sample_table.
Proof. apply inode_table_invariant. apply sample_table_reachable. Defined.

(** Inode numbers are never recycled.  Once an inode of a reachable table is
    deleted, it stays deleted through every later sequence of operations, its
    record stays, and no later lookup of any key with any identity returns its
    number again. *)
Theorem inode_never_recycled (t t' t'' : InodeTable) (i j : Z) (r : InodeRecord)
  (key : VirtualNodeKey) (h : option HardlinkKey) :
  rtc (inode_step any_delete) InodeTable_new t → by_inode t !! i = Some r → deleted r = true →
  rtc (inode_step any_delete) t t' → inode_for t' key h = (Ok j, t'') →
  j ≠ i ∧ ∃ r', by_inode t' !! i = Some r' ∧ deleted r' = true.
Proof.
  intros Hr Hi Hd Hs Hf.
  pose proof (inode_steps_wf _ _ _ InodeTable_new_wf Hr) as Hwf.
  pose proof (inode_steps_wf _ _ _ Hwf Hs) as Hwf'.
  destruct (inode_steps_extends _ _ _ Hwf Hs) as (_ & Hext & _).
  apply Hext in Hi as (r' & Hi & _ & Hd'). split; [| eauto]. intros ->.
  pose proof (inode_for_extends t' key h Hwf') as (_ & Hext' & _).
  pose proof (inode_for_wf t' key h Hwf') as Hwf''. rewrite Hf in Hext', Hwf''. cbn in *.
  destruct (inode_for_result t' key h Hwf') as [[_ E] | (k & t3 & E & Hk & _)];
    rewrite Hf in E; [done |]. injection E as <- <-.
  apply Hext' in Hi as (r'' & Hi & _ & Hd'').
  apply (wf_key _ Hwf'') in Hk as (s & Hs' & Ha).
  destruct (wf_record _ Hwf'' i s Hs') as (_ & _ & _ & Hal & _). set_solver.
Qed.

(** Witness: inode 2 is deleted and the same key and identity are looked up. *)
Lemma inode_never_recycled_witness :
  (inode_for sample_table (sample_key "b") (Some sample_hardlink)).1 = Ok 3 ∧ 3 ≠ 2.
Proof.
  split; [vm_compute; reflexivity |].
  destruct (by_inode sample_table !! 2) as [r|] eqn:E; [| vm_compute in E; discriminate].
  destruct (inode_for sample_table (sample_key "b") (Some sample_hardlink)) as [o t2] eqn:Ef.
  eapply (inode_never_recycled sample_table sample_table t2 2 3 r (sample_key "b")
            (Some sample_hardlink)).
  - apply sample_table_reachable.
  - exact E.
  - assert (fmap deleted (by_inode sample_table !! 2) = Some true) as H by (vm_compute; reflexivity).
    rewrite E in H. by injection H.
  - apply rtc_refl.
  - rewrite Ef. f_equal. assert (o = (inode_for sample_table (sample_key "b") (Some sample_hardlink)).1) as ->
      by (by rewrite Ef). vm_compute. reflexivity.
Defined.

(** C: [inode_for] on a reachable table has three outcomes and no others: the
    inode the key already names, the live inode that already carries the
    hardlink identity, or the next unused number; the only error is the
    exhaustion of the 64-bit number space, which leaves the table as it was.
    Afterwards the key resolves to the returned inode, whose record is live, and
    asking again returns the same number. *)
Theorem inode_for_functional (t : InodeTable) (key : VirtualNodeKey) (h : option HardlinkKey) :
  rtc (inode_step any_delete) InodeTable_new t →
  (next_inode t = u64_max ∧ inode_for t key h = (Err (Unavailable "inode number space exhausted"), t))
  ∨ ∃ i t' r,
      inode_for t key h = (Ok i, t') ∧
      InodeTable_lookup t' key = Some i ∧
      InodeTable_get t' i = Some r ∧ deleted r = false ∧ key ∈ aliases r ∧
      (∀ h', (inode_for t' key h').1 = Ok i) ∧
      (InodeTable_lookup t key = Some i ∨
       (InodeTable_lookup t key = None ∧ (h ≫= fun h' => by_hardlink t !! h') = Some i) ∨
       (InodeTable_lookup t key = None ∧ (h ≫= fun h' => by_hardlink t !! h') = None ∧
        i = next_inode t)).
Proof.
  intros Hr. pose proof (inode_steps_wf _ _ _ InodeTable_new_wf Hr) as Hwf.
  destruct (inode_for_result t key h Hwf) as [? | (i & t' & E & Hk & Hcase)]; [by left | right].
  pose proof (inode_for_wf t key h Hwf) as Hwf'. rewrite E in Hwf'. cbn in Hwf'.
  pose proof (proj1 (wf_key t' Hwf' key i) Hk) as (r & Hi & Ha).
  destruct (wf_record t' Hwf' i r Hi) as (_ & _ & _ & Hd & _).
  assert (deleted r = false) as Hl by (destruct (deleted r); [set_solver | done]).
  exists i, t', r. split_and!; try done. intros h'. unfold inode_for. by rewrite Hk, Hi, Hl.
Qed.

(** Witness: a second name of the same file. *)
Lemma inode_for_functional_witness :
  (next_inode sample_table = u64_max ∧
   inode_for sample_table (sample_key "b") (Some sample_hardlink)
   = (Err (Unavailable "inode number space exhausted"), sample_table))
  ∨ ∃ i t', inode_for sample_table (sample_key "b") (Some sample_hardlink) = (Ok i, t') ∧
            InodeTable_lookup t' (sample_key "b") = Some i.
Proof.
  destruct (inode_for_functional sample_table (sample_key "b") (Some sample_hardlink)
              sample_table_reachable) as [? | (i & t' & r & H1 & H2 & _)]; [by left | right; eauto].
Defined.

(** As long as [delete] is called on live inodes only, a hardlink identity
    has one live inode: two live records with the same identity are the same
    inode, and a new key with that identity becomes an alias of it. *)
Theorem hardlink_identity_unique (t : InodeTable) (i j : Z) (r s : InodeRecord) (h : HardlinkKey)
  (key : VirtualNodeKey) :
  rtc (inode_step live_delete) InodeTable_new t →
  by_inode t !! i = Some r → deleted r = false → hardlink_key r = Some h →
  (by_inode t !! j = Some s → deleted s = false → hardlink_key s = Some h → j = i) ∧
  (InodeTable_lookup t key = None → (inode_for t key (Some h)).1 = Ok i).
Proof.
  intros Hr Hi Hd Hh.
  pose proof (inode_steps_wf _ _ _ InodeTable_new_wf Hr) as Hwf.
  pose proof (inode_steps_complete _ _ InodeTable_new_wf InodeTable_new_complete Hr) as Hc.
  split; [intros; symmetry; by eapply hardlink_unique |].
  intros Hk. unfold InodeTable_lookup, inode_for in *. rewrite Hk. cbn.
  rewrite (Hc i r h Hi Hd Hh), Hi, Hd. done.
Qed.

Definition sample_record : InodeRecord :=
  mkInodeRecord 2 (sample_key "a") (Some sample_hardlink) {[sample_key "a"]} false 1.
Definition sample_table1 : InodeTable :=
  (inode_for InodeTable_new (sample_key "a") (Some sample_hardlink)).2.

Lemma sample_table1_reachable : rtc (inode_step live_delete) InodeTable_new sample_table1.
Proof. apply rtc_once, step_inode_for. Qed.

Lemma sample_table1_record : by_inode sample_table1 !! 2 = Some sample_record.
Proof.
  unfold sample_table1, inode_for. cbn [by_key InodeTable_new].
  rewrite lookup_singleton_ne by done. cbn [mbind option_bind by_hardlink InodeTable_new].
  rewrite lookup_empty. apply lookup_insert_eq.
Qed.

Lemma sample_table1_fresh : InodeTable_lookup sample_table1 (sample_key "b") = None.
Proof. vm_compute. reflexivity. Qed.

(** Witness: two names of one file get one inode. *)
Lemma hardlink_identity_unique_witness :
  (inode_for sample_table1 (sample_key "b") (Some sample_hardlink)).1 = Ok 2.
Proof.
  exact (proj2 (hardlink_identity_unique sample_table1 2 2 sample_record sample_record
    sample_hardlink (sample_key "b") sample_table1_reachable sample_table1_record eq_refl eq_refl)
    sample_table1_fresh).
Defined.

(** A second [delete] of an inode that is already deleted breaks the hardlink
    identity of a newer inode.  After a file was deleted and looked up again
    under a new inode, deleting the old inode once more succeeds and drops the
    hardlink index entry of the new, live one: the next name of the same file
    gets a third inode, and two live inodes carry one identity. *)
Theorem double_delete_splits_hardlink :
  let t := (delete_inode sample_table 2).2 in
  (delete_inode sample_table 2).1 = Ok tt ∧
  (inode_for sample_table (sample_key "b") (Some sample_hardlink)).1 = Ok 3 ∧
  (inode_for t (sample_key "b") (Some sample_hardlink)).1 = Ok 4 ∧
  (fun r => (deleted r, hardlink_key r)) <$> by_inode t !! 3 = Some (false, Some sample_hardlink).
Proof. split_and!; vm_compute; reflexivity. Qed.
