(* ===== verification/Handle.v ===== *)
(** The table of open file handles (crates/tuxstack-vfs/src/handle.rs).  The
    [slab] crate is not part of the sources: its operations and the documented
    laws the table relies on are the classes [Slab] and [SlabLaws]; time
    ([Instant::now()]) is an argument. *)

From S2P Require Import Prelude Error Path Model.

Local Open Scope Z_scope.

(** ** The slab *)
Class Slab (A S : Type) := {
  slab_with_capacity : Z → S;
  slab_len : S → Z;
  slab_insert : S → A → nat * S;
  slab_get : S → nat → option A;
  (** Assignment through [get_mut]; the entry is occupied. *)
  slab_set : S → nat → A → S;
  (** [remove] panics on a vacant entry. *)
  slab_remove : S → nat → option (A * S);
  slab_iter : S → list (nat * A);
  (** The number of entries, occupied or vacant, the slab has storage for. *)
  slab_slots : S → Z;
}.

Class SlabLaws (A S : Type) `{!Slab A S} := {
  slab_new_get c k : slab_get (slab_with_capacity c) k = None;
  slab_new_len c : slab_len (slab_with_capacity c) = 0;
  slab_new_slots c : slab_slots (slab_with_capacity c) = 0;
  (** A key returned by [insert] was vacant and now holds the value. *)
  slab_insert_vacant s a : slab_get s (slab_insert s a).1 = None;
  slab_insert_get s a k :
    slab_get (slab_insert s a).2 k = if decide (k = (slab_insert s a).1) then Some a else slab_get s k;
  slab_insert_len s a : slab_len (slab_insert s a).2 = slab_len s + 1;
  (** Keys index the entries, and a vacant entry is reused before a new one is added. *)
  slab_insert_key s a : Z.of_nat (slab_insert s a).1 < slab_slots (slab_insert s a).2;
  slab_insert_slots s a :
    slab_slots (slab_insert s a).2 = Z.max (slab_slots s) (slab_len s + 1);
  slab_set_get s j a k :
    is_Some (slab_get s j) → slab_get (slab_set s j a) k = if decide (k = j) then Some a else slab_get s k;
  slab_set_len s j a : is_Some (slab_get s j) → slab_len (slab_set s j a) = slab_len s;
  slab_set_slots s j a : is_Some (slab_get s j) → slab_slots (slab_set s j a) = slab_slots s;
  slab_remove_None s j : slab_remove s j = None ↔ slab_get s j = None;
  slab_remove_Some s j a s' : slab_remove s j = Some (a, s') → slab_get s j = Some a;
  slab_remove_get s j a s' k :
    slab_remove s j = Some (a, s') → slab_get s' k = if decide (k = j) then None else slab_get s k;
  slab_remove_len s j a s' : slab_remove s j = Some (a, s') → slab_len s' = slab_len s - 1;
  slab_remove_slots s j a s' : slab_remove s j = Some (a, s') → slab_slots s' = slab_slots s;
  slab_iter_spec s k a : (k, a) ∈ slab_iter s ↔ slab_get s k = Some a;
}.

(** ** Handles *)
Record OpenHandle (P : Type) := mkOpenHandle {
  provider : P;
  provider_handle : ProviderFileHandle;
  resource : DockerFilesystemResource;
  path : VirtualPath;
  oh_content_generation : Z;
  backing_strategy : string;
  opened_at : Z;
  last_accessed_at : Z;
}.
Arguments mkOpenHandle {P}.
Arguments provider {P}.
Arguments provider_handle {P}.
Arguments resource {P}.
Arguments path {P}.
Arguments oh_content_generation {P}.
Arguments backing_strategy {P}.
Arguments opened_at {P}.
Arguments last_accessed_at {P}.

Definition set_last_accessed_at {P} (h : OpenHandle P) (now : Z) : OpenHandle P :=
  mkOpenHandle (provider h) (provider_handle h) (resource h) (path h) (oh_content_generation h)
    (backing_strategy h) (opened_at h) now.
Definition set_opened_at {P} (h : OpenHandle P) (now : Z) : OpenHandle P :=
  mkOpenHandle (provider h) (provider_handle h) (resource h) (path h) (oh_content_generation h)
    (backing_strategy h) now (last_accessed_at h).

Definition OpenHandleId := Z.

Definition pack (index : nat) (generation : Z) : Z :=
  Z.lor (Z.shiftl generation 32 mod 2 ^ 64) (Z.of_nat index).

Definition unpack (id : Z) : nat * Z :=
  (Z.to_nat (id mod 2 ^ 32), Z.shiftr id 32 mod 2 ^ 32).

Record OpenHandleTable (S : Type) := mkOpenHandleTable {
  handles : S;
  generations : list Z;
  max_handles : Z;
  idle_timeout : Z;
}.
Arguments mkOpenHandleTable {S}.
Arguments handles {S}.
Arguments generations {S}.
Arguments max_handles {S}.
Arguments idle_timeout {S}.

Section table.
Context {P S : Type} `{!Slab (OpenHandle P) S}.
Implicit Types (self t : OpenHandleTable S) (h : OpenHandle P).

Definition OpenHandleTable_new (max_handles idle_timeout : Z) : vres (OpenHandleTable S) :=
  if (max_handles =? 0) || (u32_max <? max_handles)
  then Err (InvalidInput "handle limit must be in 1..=u32::MAX")
  else
    Ok {| handles := slab_with_capacity (Z.min max_handles 1024);
          generations := [];
          max_handles := max_handles;
          idle_timeout := idle_timeout |}.

(** [Vec::resize] when the new length is larger, [generations[index]] otherwise. *)
Definition resize (l : list Z) (n : nat) : list Z := l ++ replicate (n - length l) 0.

Definition handle_insert self h (now : Z) : vres OpenHandleId * OpenHandleTable S :=
  if bool_decide (max_handles self ≤ slab_len (handles self)) then (Err TooManyHandles, self)
  else
    let h := set_opened_at h now in
    let h := set_last_accessed_at h now in
    let '(index, hs) := slab_insert (handles self) h in
    let gens :=
      if bool_decide (length (generations self) ≤ index)%nat
      then resize (generations self) (index + 1) else generations self in
    let self := mkOpenHandleTable hs gens (max_handles self) (idle_timeout self) in
    match gens !! index with
    | Some generation => (Ok (pack index generation), self)
    | None => (Panic "index out of bounds", self)
    end.

Definition handle_get_mut self (id : OpenHandleId) (now : Z) : vres (OpenHandle P) * OpenHandleTable S :=
  let '(index, generation) := unpack id in
  if bool_decide (generations self !! index = Some generation) then
    match slab_get (handles self) index with
    | None => (Err BadHandle, self)
    | Some h =>
        let h := set_last_accessed_at h now in
        (Ok h, mkOpenHandleTable (slab_set (handles self) index h) (generations self)
                 (max_handles self) (idle_timeout self))
    end
  else (Err BadHandle, self).

Definition handle_remove self (id : OpenHandleId) : vres (OpenHandle P) * OpenHandleTable S :=
  let '(index, generation) := unpack id in
  if negb (bool_decide (generations self !! index = Some generation)) ||
     negb (bool_decide (is_Some (slab_get (handles self) index)))
  then (Err BadHandle, self)
  else
    match slab_remove (handles self) index, generations self !! index with
    | Some (h, hs), Some g =>
        (Ok h, mkOpenHandleTable hs (<[index := wrapping_add 32 g 1]> (generations self))
                 (max_handles self) (idle_timeout self))
    | None, _ => (Panic "invalid key", self)
    | _, None => (Panic "index out of bounds", self)
    end.

Definition saturating_duration_since (now earlier : Z) : Z := Z.max 0 (now - earlier).

Definition expired_ids self (now : Z) : vres (list OpenHandleId) :=
  mapM_result
    (fun e => generation ← match generations self !! e.1 with
                           | Some g => Ok g
                           | None => Panic "index out of bounds"
                           end;
              Ok (pack e.1 generation))
    (filter (fun e => idle_timeout self ≤ saturating_duration_since now (last_accessed_at e.2))
       (slab_iter (handles self))).

(** ** The invariant *)
Record handle_wf t : Prop := {
  hwf_max : 1 ≤ max_handles t ≤ u32_max;
  hwf_len : slab_len (handles t) ≤ max_handles t;
  hwf_slots : slab_slots (handles t) ≤ max_handles t;
  hwf_get k h : slab_get (handles t) k = Some h →
                (k < length (generations t))%nat ∧ Z.of_nat k < slab_slots (handles t);
  hwf_gens : Forall (fun g => 0 ≤ g ≤ u32_max) (generations t);
}.

Lemma pack_value index g :
  0 ≤ g ≤ u32_max → Z.of_nat index ≤ u32_max → pack index g = g * 2 ^ 32 + Z.of_nat index.
Proof.
  unfold u32_max, pack. intros Hg Hi. rewrite Z.shiftl_mul_pow2 by lia.
  rewrite Z.mod_small by lia. apply Z_lor_disjoint. apply Z.bits_inj'. intros n Hn.
  rewrite Z.land_spec, Z.bits_0. destruct (Z.lt_ge_cases n 32).
  - by rewrite Z.mul_pow2_bits_low by lia.
  - rewrite (Z_testbit_small (Z.of_nat index) n); [apply andb_false_r | lia |].
    split; [lia |]. apply Z.lt_le_trans with (2 ^ 32); [lia | apply Z.pow_le_mono_r; lia].
Qed.

Lemma unpack_pack index g :
  0 ≤ g ≤ u32_max → Z.of_nat index ≤ u32_max → unpack (pack index g) = (index, g).
Proof.
  intros Hg Hi. rewrite pack_value by done. unfold unpack, u32_max in *.
  rewrite Z.shiftr_div_pow2 by lia. f_equal.
  - rewrite Z.add_comm, Z_mod_plus_full, Z.mod_small by lia. lia.
  - rewrite Z.div_add_l by lia. rewrite (Z.div_small (Z.of_nat index)) by lia.
    rewrite Z.add_0_r. apply Z.mod_small. lia.
Qed.

Lemma pack_unpack id : 0 ≤ id < 2 ^ 64 → pack (unpack id).1 (unpack id).2 = id.
Proof.
  intros Hid. pose proof (Z.mod_pos_bound id (2 ^ 32)) as Hm.
  unfold unpack. cbn [fst snd]. rewrite Z.shiftr_div_pow2 by lia.
  assert (id / 2 ^ 32 < 2 ^ 32) by (apply Z.div_lt_upper_bound; lia).
  pose proof (Z.div_pos id (2 ^ 32)).
  rewrite (Z.mod_small (id / 2 ^ 32)) by lia.
  rewrite pack_value by (unfold u32_max; lia). rewrite Z2Nat.id by lia.
  pose proof (Z_div_mod_eq_full id (2 ^ 32)). lia.
Qed.

(** ** Lemmas under the laws of the slab *)
Context `{!SlabLaws (OpenHandle P) S}.

Lemma OpenHandleTable_new_wf m d t : OpenHandleTable_new m d = Ok t → 0 ≤ m → handle_wf t.
Proof.
  unfold OpenHandleTable_new. destruct (Z.eqb_spec m 0); [done |].
  destruct (Z.ltb_spec u32_max m); [done |]. cbn. intros [= <-] Hm. split; cbn.
  - lia.
  - rewrite slab_new_len. lia.
  - rewrite slab_new_slots. lia.
  - intros k h. by rewrite slab_new_get.
  - constructor.
Qed.

Lemma resize_lookup l n k :
  (k < n)%nat → resize l n !! k = Some (default 0 (l !! k)).
Proof.
  intros Hk. unfold resize. destruct (l !! k) as [g|] eqn:E.
  - rewrite lookup_app_l by (by eapply lookup_lt_Some). done.
  - apply lookup_ge_None in E. rewrite lookup_app_r by lia.
    rewrite lookup_replicate_2 by lia. done.
Qed.

(** The generations after an insertion at [index]. *)
Definition grow (gens : list Z) (index : nat) : list Z :=
  if bool_decide (length gens ≤ index)%nat then resize gens (index + 1) else gens.

Lemma grow_lookup gens index : grow gens index !! index = Some (default 0 (gens !! index)).
Proof.
  unfold grow. case_bool_decide as Hl.
  - apply resize_lookup. lia.
  - destruct (lookup_lt_is_Some_2 gens index) as [g ->]; [lia | done].
Qed.

Lemma grow_extends gens index k g : gens !! k = Some g → grow gens index !! k = Some g.
Proof.
  intros Hk. unfold grow, resize. case_bool_decide; [| done].
  rewrite lookup_app_l; [done |]. by eapply lookup_lt_Some.
Qed.

Lemma grow_length gens index : (index < length (grow gens index))%nat ∧
                               (length gens ≤ length (grow gens index))%nat.
Proof.
  unfold grow, resize. case_bool_decide; rewrite ?length_app, ?length_replicate; lia.
Qed.

Lemma grow_range gens index :
  Forall (fun g => 0 ≤ g ≤ u32_max) gens → Forall (fun g => 0 ≤ g ≤ u32_max) (grow gens index).
Proof.
  intros H. unfold grow, resize. case_bool_decide; [| done].
  apply Forall_app. split; [done |]. apply list.Forall_replicate. unfold u32_max. lia.
Qed.

(** [insert] either refuses at the limit or stores the handle at a vacant key. *)
Lemma handle_insert_result t h now :
  handle_insert t h now =
  if bool_decide (max_handles t ≤ slab_len (handles t)) then (Err TooManyHandles, t)
  else
    let h := set_last_accessed_at (set_opened_at h now) now in
    let index := (slab_insert (handles t) h).1 in
    (Ok (pack index (default 0 (generations t !! index))),
     mkOpenHandleTable (slab_insert (handles t) h).2 (grow (generations t) index)
       (max_handles t) (idle_timeout t)).
Proof.
  unfold handle_insert. case_bool_decide; [done |]. cbn zeta.
  destruct (slab_insert _ _) as [index hs]. cbn [fst snd]. fold (grow (generations t) index).
  by rewrite grow_lookup.
Qed.

Lemma handle_insert_wf t h now : handle_wf t → handle_wf (handle_insert t h now).2.
Proof.
  intros [Hm Hl Hs Hg Hr]. rewrite handle_insert_result. case_bool_decide as Hle; [done |].
  cbn zeta. set (h' := set_last_accessed_at _ _). cbn [snd].
  split; cbn [handles generations max_handles].
  - done.
  - rewrite slab_insert_len. lia.
  - rewrite slab_insert_slots. lia.
  - intros k g. rewrite slab_insert_get.
    destruct (grow_length (generations t) (slab_insert (handles t) h').1) as [Hi Hgl].
    case_decide as Hk.
    + intros _. subst k. split; [done | apply slab_insert_key].
    + intros Hget. apply Hg in Hget as [? ?]. rewrite slab_insert_slots. lia.
  - by apply grow_range.
Qed.

Lemma handle_get_mut_wf t id now : handle_wf t → handle_wf (handle_get_mut t id now).2.
Proof.
  intros [Hm Hl Hs Hg Hr]. unfold handle_get_mut. destruct (unpack id) as [index g].
  case_bool_decide; [| done]. destruct (slab_get (handles t) index) as [h|] eqn:E; [| done].
  assert (is_Some (slab_get (handles t) index)) as Ho by (by rewrite E).
  cbn [snd]. split; cbn [handles generations max_handles];
    rewrite ?slab_set_len, ?slab_set_slots by done; try done.
  intros k h'. rewrite slab_set_get by done. case_decide as Hk; [| apply Hg].
  intros _. subst k. by eapply Hg.
Qed.

Lemma handle_remove_wf t id : handle_wf t → handle_wf (handle_remove t id).2.
Proof.
  intros [Hm Hl Hs Hg Hr]. unfold handle_remove. destruct (unpack id) as [index g].
  case_match; [done |]. destruct (slab_remove (handles t) index) as [[h hs]|] eqn:E; [| done].
  destruct (generations t !! index) as [g'|] eqn:Eg; [| done].
  cbn [snd]. split; cbn [handles generations max_handles]; [done | | | |].
  - rewrite (slab_remove_len _ _ _ _ E). lia.
  - by rewrite (slab_remove_slots _ _ _ _ E).
  - intros k h'. rewrite (slab_remove_get _ _ _ _ k E), (slab_remove_slots _ _ _ _ E).
    rewrite length_insert. destruct (decide (k = index)); [intros [=] | apply Hg].
  - apply Forall_insert; [done |]. unfold wrapping_add, u32_max.
    pose proof (Z.mod_pos_bound (g' + 1) (2 ^ 32)). lia.
Qed.

(** ** Live handles *)

(** [id] names the open handle [h]. *)
Definition live_id t (id : OpenHandleId) h : Prop :=
  generations t !! (unpack id).1 = Some (unpack id).2 ∧ slab_get (handles t) (unpack id).1 = Some h.

Lemma handle_get_mut_live t id now :
  (∃ h, live_id t id h ∧ (handle_get_mut t id now).1 = Ok (set_last_accessed_at h now)) ∨
  ((∀ h, ¬ live_id t id h) ∧ handle_get_mut t id now = (Err BadHandle, t)).
Proof.
  unfold handle_get_mut, live_id. destruct (unpack id) as [index g]. cbn [fst snd].
  case_bool_decide; [| right; naive_solver].
  destruct (slab_get (handles t) index) as [h|]; [left; eauto | right; naive_solver].
Qed.

Lemma handle_remove_live t id :
  (∃ h, live_id t id h ∧ (handle_remove t id).1 = Ok h ∧
        generations (handle_remove t id).2 =
          <[(unpack id).1 := wrapping_add 32 (unpack id).2 1]> (generations t)) ∨
  ((∀ h, ¬ live_id t id h) ∧ handle_remove t id = (Err BadHandle, t)).
Proof.
  unfold handle_remove, live_id. destruct (unpack id) as [index g]. cbn [fst snd].
  case_bool_decide as Hg; cbn [negb orb]; [| right; naive_solver].
  case_bool_decide as Ho; cbn [negb]; [| right; split; [| done]; intros h [_ E]; apply Ho; by rewrite E].
  left. destruct (slab_remove (handles t) index) as [[h hs]|] eqn:E.
  - exists h. rewrite Hg. split_and!; [done | by eapply slab_remove_Some | done | done].
  - apply slab_remove_None in E. rewrite E in Ho. by destruct Ho.
Qed.

Lemma handle_index_bound t k h :
  handle_wf t → slab_get (handles t) k = Some h → Z.of_nat k ≤ u32_max.
Proof. intros [Hm _ Hs Hg _] Hk. apply Hg in Hk as [_ Hk]. lia. Qed.

(** [insert] refuses at the limit; below it the new identifier was dead, is
    live now, and no live identifier changes its meaning. *)
Lemma handle_insert_cases t h now :
  handle_wf t →
  (slab_len (handles t) = max_handles t ∧ handle_insert t h now = (Err TooManyHandles, t)) ∨
  ∃ id, (handle_insert t h now).1 = Ok id ∧ (∀ h', ¬ live_id t id h') ∧
        live_id (handle_insert t h now).2 id (set_last_accessed_at (set_opened_at h now) now) ∧
        (∀ id' h', live_id t id' h' → live_id (handle_insert t h now).2 id' h').
Proof.
  intros Hwf. pose proof (handle_insert_wf t h now Hwf) as Hwf'. rewrite handle_insert_result in *.
  case_bool_decide as Hl; [left; split; [pose proof (hwf_len t Hwf); lia | done] | right].
  cbn zeta in *. set (h' := set_last_accessed_at _ _) in *. cbn [fst snd] in *.
  set (index := (slab_insert (handles t) h').1) in *.
  assert (slab_get (slab_insert (handles t) h').2 index = Some h') as Hget.
  { rewrite slab_insert_get. by rewrite decide_True. }
  assert (unpack (pack index (default 0 (generations t !! index)))
          = (index, default 0 (generations t !! index))) as Hun.
  { apply unpack_pack; [| by eapply (handle_index_bound _ _ _ Hwf')].
    destruct (generations t !! index) as [g|] eqn:E; cbn; [| unfold u32_max; lia].
    by eapply Forall_lookup_1 in E; [| apply (hwf_gens t Hwf)]. }
  eexists. split; [done |]. unfold live_id. rewrite Hun. cbn [fst snd handles generations].
  split_and!.
  - intros h2 [_ H]. unfold index in H. by rewrite slab_insert_vacant in H.
  - apply grow_lookup.
  - done.
  - intros id' h2 [H1 H2]. split; [by apply grow_extends |]. rewrite slab_insert_get.
    rewrite decide_False; [done |]. intros Heq. rewrite Heq in H2.
    by rewrite slab_insert_vacant in H2.
Qed.

(** ** Sequences of operations *)
Inductive HandleOp :=
  | OpInsert (h : OpenHandle P) (now : Z)
  | OpGet (id : OpenHandleId) (now : Z)
  | OpRemove (id : OpenHandleId).

Definition run_op t (op : HandleOp) : OpenHandleTable S :=
  match op with
  | OpInsert h now => (handle_insert t h now).2
  | OpGet id now => (handle_get_mut t id now).2
  | OpRemove id => (handle_remove t id).2
  end.

Definition is_remove (op : HandleOp) : bool := match op with OpRemove _ => true | _ => false end.
Definition removals (ops : list HandleOp) : Z :=
  foldr (fun op n => (if is_remove op then 1 else 0) + n) 0 ops.

Lemma removals_cons op ops : removals (op :: ops) = removals [op] + removals ops.
Proof. unfold removals. cbn [foldr]. lia. Qed.

Lemma run_op_wf t op : handle_wf t → handle_wf (run_op t op).
Proof. destruct op; [apply handle_insert_wf | apply handle_get_mut_wf | apply handle_remove_wf]. Qed.

Lemma run_ops_wf ops t : handle_wf t → handle_wf (foldl run_op t ops).
Proof. revert t. induction ops as [|op ops IH]; intros t Hwf; cbn; [done |]. by apply IH, run_op_wf. Qed.

(** The generation of an entry advances by at most one per removal. *)
Lemma run_op_generation t op index g :
  generations t !! index = Some g → 0 ≤ g ≤ u32_max →
  ∃ d, 0 ≤ d ≤ removals [op] ∧ generations (run_op t op) !! index = Some ((g + d) mod 2 ^ 32).
Proof.
  intros Hi Hg. assert (g = (g + 0) mod 2 ^ 32) as Hg0
    by (rewrite Z.add_0_r, Z.mod_small; unfold u32_max in *; lia).
  destruct op as [h now|id now|id]; cbn [run_op].
  - exists 0. split; [done |]. rewrite handle_insert_result, <- Hg0. case_bool_decide; [done |].
    by apply grow_extends.
  - exists 0. split; [done |]. rewrite <- Hg0. unfold handle_get_mut.
    destruct (unpack id). case_bool_decide; [| done]. by destruct (slab_get _ _).
  - destruct (handle_remove_live t id) as [(h & [Hl _] & _ & ->) | [_ ->]].
    + destruct (decide (index = (unpack id).1)) as [->|Hne].
      * exists 1. split; [done |]. rewrite list_lookup_insert_eq by (by eapply lookup_lt_Some).
        rewrite Hi in Hl. injection Hl as ->. done.
      * exists 0. split; [done |]. rewrite list_lookup_insert_ne by done. congruence.
    + exists 0. split; [done |]. cbn. congruence.
Qed.

Lemma run_ops_generation ops t index g :
  handle_wf t → generations t !! index = Some g → 0 ≤ g ≤ u32_max →
  ∃ d, 0 ≤ d ≤ removals ops ∧
       generations (foldl run_op t ops) !! index = Some ((g + d) mod 2 ^ 32).
Proof.
  revert t g. induction ops as [|op ops IH]; intros t g Hwf Hi Hg; cbn [foldl].
  - exists 0. split; [done |]. rewrite Z.add_0_r, Z.mod_small; [done | unfold u32_max in *; lia].
  - destruct (run_op_generation t op index g Hi Hg) as (d & Hd & Hi').
    pose proof (Z.mod_pos_bound (g + d) (2 ^ 32)).
    destruct (IH _ _ (run_op_wf t op Hwf) Hi') as (e & He & Hi''); [unfold u32_max; lia |].
    exists (d + e). split.
    + rewrite removals_cons. lia.
    + rewrite Hi''. f_equal. rewrite Zplus_mod_idemp_l. f_equal. lia.
Qed.

(** A removed identifier names no handle until the generation of its slot wraps. *)
Lemma removed_stays_dead t (id : OpenHandleId) h (after : list HandleOp) :
  handle_wf t → (handle_remove t id).1 = Ok h → removals after < 2 ^ 32 - 1 →
  ∀ h', ¬ live_id (foldl run_op (handle_remove t id).2 after) id h'.
Proof.
  intros Hwf Hrem Hcount. pose proof (handle_remove_wf t id Hwf) as Hwf1.
  destruct (handle_remove_live t id) as [(h' & [Hg Hs] & _ & Hgens) | [_ E]];
    [| by rewrite E in Hrem].
  assert (0 ≤ (unpack id).2 < 2 ^ 32) as Hr.
  { unfold unpack. cbn. apply Z.mod_pos_bound. lia. }
  assert (generations (handle_remove t id).2 !! (unpack id).1
          = Some (((unpack id).2 + 1) mod 2 ^ 32)) as Hg1.
  { rewrite Hgens. rewrite list_lookup_insert_eq by (by eapply lookup_lt_Some). done. }
  destruct (run_ops_generation after _ _ _ Hwf1 Hg1) as (e & He & Hg2).
  { pose proof (Z.mod_pos_bound ((unpack id).2 + 1) (2 ^ 32)). unfold u32_max. lia. }
  rewrite Zplus_mod_idemp_l in Hg2.
  intros h2 [H1 _]. rewrite Hg2 in H1. apply (inj Some) in H1.
  pose proof (Z_div_mod_eq_full ((unpack id).2 + 1 + e) (2 ^ 32)) as Hdm. rewrite H1 in Hdm. nia.
Qed.

Lemma removals_app ops ops' : removals (ops ++ ops') = removals ops + removals ops'.
Proof.
  induction ops as [|op ops IH]; [done |]. cbn [app]. rewrite removals_cons, (removals_cons op ops). lia.
Qed.
End table.

(** ** A slab for the concrete runs: the list of its entries. *)
Section list_slab.
Context {A : Type}.
Implicit Types (s : list (option A)).

Fixpoint entries_len s : Z :=
  match s with
  | [] => 0
  | None :: s => entries_len s
  | Some _ :: s => 1 + entries_len s
  end.

(** Store at the first vacant entry, or at a new one. *)
Fixpoint entries_insert s (a : A) : nat * list (option A) :=
  match s with
  | [] => (0%nat, [Some a])
  | None :: s => (0%nat, Some a :: s)
  | Some b :: s => let '(k, s) := entries_insert s a in (S k, Some b :: s)
  end.

Definition entries_get s (k : nat) : option A := s !! k ≫= id.

#[export] Instance list_Slab : Slab A (list (option A)) := {
  slab_with_capacity _ := [];
  slab_len := entries_len;
  slab_insert := entries_insert;
  slab_get := entries_get;
  slab_set s k a := <[k := Some a]> s;
  slab_remove s k := a ← entries_get s k; Some (a, <[k := None]> s);
  slab_iter s := omap (fun e => pair e.1 <$> e.2) (imap pair s);
  slab_slots := len;
}.

Lemma entries_len_bound s : 0 ≤ entries_len s ≤ len s.
Proof. induction s as [|[a|] s IH]; cbn; rewrite ?len_cons; [done | lia | lia]. Qed.

Lemma entries_insert_spec s a :
  entries_get s (entries_insert s a).1 = None ∧
  (∀ k, entries_get (entries_insert s a).2 k =
        if decide (k = (entries_insert s a).1) then Some a else entries_get s k) ∧
  entries_len (entries_insert s a).2 = entries_len s + 1 ∧
  Z.of_nat (entries_insert s a).1 < len (entries_insert s a).2 ∧
  len (entries_insert s a).2 = Z.max (len s) (entries_len s + 1).
Proof.
  induction s as [|[b|] s IH]; cbn [entries_insert].
  - split_and!; try done. intros [|k]; done.
  - destruct (entries_insert s a) as [k s'] eqn:E. cbn [fst snd] in *.
    destruct IH as (H1 & H2 & H3 & H4 & H5). rewrite !len_cons. cbn [entries_len].
    split_and!; [done | | lia | lia | lia].
    intros [|j]; [done |].
    change (entries_get s' j = if decide (S j = S k) then Some a else entries_get s j). rewrite H2.
    destruct (decide (j = k)), (decide (S j = S k)); done || lia.
  - pose proof (entries_len_bound s). cbn [fst snd entries_len]. rewrite !len_cons.
    split_and!; [done | by intros [|k] | lia | lia | lia].
Qed.

Lemma entries_set_spec s j o k :
  (j < length s)%nat →
  entries_get (<[j := o]> s) k = if decide (k = j) then o else entries_get s k.
Proof.
  intros Hj. unfold entries_get. case_decide as Hk.
  - subst. rewrite list_lookup_insert_eq by done. by destruct o.
  - by rewrite list_lookup_insert_ne.
Qed.

Lemma entries_get_lt s j : is_Some (entries_get s j) → (j < length s)%nat.
Proof.
  unfold entries_get. destruct (s !! j) eqn:E; [| by intros [? ?]].
  intros _. by eapply lookup_lt_Some.
Qed.

Lemma entries_set_len s j a o :
  entries_get s j = Some a →
  entries_len (<[j := o]> s) = entries_len s - (if decide (o = None) then 1 else 0).
Proof.
  revert j. induction s as [|e s IH]; intros [|j]; try done.
  - cbn. intros ->. destruct o; case_decide; (done || lia).
  - intros Hj. change (entries_get s j = Some a) in Hj. apply IH in Hj.
    change (<[S j := o]> (e :: s)) with (e :: <[j := o]> s). destruct e; cbn [entries_len]; lia.
Qed.

#[export] Instance list_SlabLaws : SlabLaws A (list (option A)).
Proof.
  split; cbn; try (intros; apply entries_insert_spec); try done.
  - intros s j a k Hj. apply entries_set_spec. by apply entries_get_lt.
  - intros s j a [b Hb]. rewrite (entries_set_len s j b) by done.
    rewrite decide_False by done. lia.
  - intros s j a _. unfold len. by rewrite length_insert.
  - intros s j. unfold entries_get. destruct (s !! j) as [[a|]|]; cbn; split; done.
  - intros s j a s'. destruct (entries_get s j); cbn; [| done]. by intros [= -> _].
  - intros s j a s' k. destruct (entries_get s j) eqn:E; cbn; [| done]. intros [= _ <-].
    apply entries_set_spec. apply entries_get_lt. by rewrite E.
  - intros s j a s'. destruct (entries_get s j) eqn:E; cbn; [| done]. intros [= _ <-].
    rewrite (entries_set_len s j a0) by done. done.
  - intros s j a s'. destruct (entries_get s j) eqn:E; cbn; [| done]. intros [= _ <-].
    unfold len. by rewrite length_insert.
  - intros s k a. rewrite list_elem_of_omap. unfold entries_get. split.
    + intros ([i o] & Hin & Ho). cbn in Ho. destruct o as [b|]; [| done]. injection Ho as -> ->.
      apply elem_of_lookup_imap in Hin as (i & x & [= -> <-] & Hx). by rewrite Hx.
    + destruct (s !! k) as [o|] eqn:E; [| done]. cbn. intros ->. exists (k, Some a). split; [| done].
      apply elem_of_lookup_imap. eauto.
Qed.
End list_slab.

(** ** Properties *)
Section properties.
Context {P S : Type} `{!Slab (OpenHandle P) S, !SlabLaws (OpenHandle P) S}.
Implicit Types (t : OpenHandleTable S) (h : OpenHandle P).

(** Opening a handle.  In every table reached from a new one, [insert]
    refuses exactly when the limit is reached and then changes nothing; below
    the limit it never panics, returns an identifier that named no open handle
    before, that names the new one afterwards (stamped with the current time),
    and every handle already open keeps its identifier; the number of open
    handles never exceeds the limit. *)
Theorem handle_insert_fresh (m d : Z) t0 (ops : list HandleOp) h (now : Z) :
  0 ≤ m → OpenHandleTable_new m d = Ok t0 →
  let t := foldl run_op t0 ops in
  let t' := (handle_insert t h now).2 in
  slab_len (handles t') ≤ max_handles t' ∧
  ((slab_len (handles t) = max_handles t ∧ handle_insert t h now = (Err TooManyHandles, t)) ∨
   ∃ id, (handle_insert t h now).1 = Ok id ∧ (∀ h', ¬ live_id t id h') ∧
         live_id t' id (set_last_accessed_at (set_opened_at h now) now) ∧
         (∀ id' h', live_id t id' h' → live_id t' id' h')).
Proof.
  intros Hm Hnew t t'. pose proof (OpenHandleTable_new_wf m d t0 Hnew Hm) as Hwf0.
  pose proof (run_ops_wf ops t0 Hwf0) as Hwf. fold t in Hwf.
  split; [apply (handle_insert_wf t h now Hwf) | by apply handle_insert_cases].
Qed.

(** A released handle stays released.  After [remove] of an identifier, every
    later [get_mut] or [remove] of the same identifier is refused with
    [BadHandle] and changes nothing, whatever was opened in between and even
    when the slot was reused, as long as fewer than 2^32 - 1 further handles
    were removed (the generation counter of a slot has 32 bits and wraps). *)
Theorem stale_handle_rejected (m d : Z) t0 (before after : list HandleOp)
  (id : OpenHandleId) h (now : Z) :
  0 ≤ m → OpenHandleTable_new m d = Ok t0 →
  let t := foldl run_op t0 before in
  (handle_remove t id).1 = Ok h → removals after < 2 ^ 32 - 1 →
  let t' := foldl run_op (handle_remove t id).2 after in
  handle_get_mut t' id now = (Err BadHandle, t') ∧ handle_remove t' id = (Err BadHandle, t').
Proof.
  intros Hm Hnew t Hrem Hcount t'. pose proof (OpenHandleTable_new_wf m d t0 Hnew Hm) as Hwf0.
  pose proof (run_ops_wf before t0 Hwf0) as Hwf. fold t in Hwf.
  pose proof (removed_stays_dead t id h after Hwf Hrem Hcount) as Hdead. fold t' in Hdead.
  split.
  - destruct (handle_get_mut_live t' id now) as [(h2 & Hl & _) | [_ E]]; [by apply Hdead in Hl | done].
  - destruct (handle_remove_live t' id) as [(h2 & Hl & _) | [_ E]]; [by apply Hdead in Hl | done].
Qed.

(** The idle scan is exact.  In every table reached from a new one
    [expired_ids] does not panic and returns precisely the identifiers of the
    open handles whose last access is at least the idle timeout ago; each
    of them is accepted by [remove]. *)
Theorem expired_ids_exact (m d : Z) t0 (ops : list HandleOp) (now : Z) :
  0 ≤ m → OpenHandleTable_new m d = Ok t0 →
  let t := foldl run_op t0 ops in
  ∃ ids, expired_ids t now = Ok ids ∧
    ∀ id, (id ∈ ids → ∃ h, live_id t id h ∧ (handle_remove t id).1 = Ok h) ∧
          (∀ h, 0 ≤ id < 2 ^ 64 → live_id t id h →
                id ∈ ids ↔ idle_timeout t ≤ Z.max 0 (now - last_accessed_at h)).
Proof.
  intros Hm Hnew t. pose proof (OpenHandleTable_new_wf m d t0 Hnew Hm) as Hwf0.
  pose proof (run_ops_wf ops t0 Hwf0) as Hwf. fold t in Hwf.
  set (old := filter (fun e => idle_timeout t ≤ saturating_duration_since now (last_accessed_at e.2))
                (slab_iter (handles t))).
  set (gen k := default 0 (generations t !! k)).
  assert (∀ e, e ∈ old → generations t !! e.1 = Some (gen e.1)) as Hgen.
  { intros [k h]. unfold old, gen. rewrite list_elem_of_filter, slab_iter_spec. intros [_ Hk].
    apply (hwf_get t Hwf) in Hk as [Hk _]. apply lookup_lt_is_Some_2 in Hk as [g Hg]. cbn. by rewrite Hg. }
  exists (map (fun e => pack e.1 (gen e.1)) old). split.
  { unfold expired_ids. fold old. apply mapM_result_Ok.
    clear -Hgen. induction old as [|e old IH]; cbn [map]; constructor.
    - rewrite Hgen by set_solver. done.
    - apply IH. intros e' He'. apply Hgen. set_solver. }
  assert (∀ k h, slab_get (handles t) k = Some h → unpack (pack k (gen k)) = (k, gen k)) as Hun.
  { intros k h Hk. apply unpack_pack; [| by eapply handle_index_bound].
    unfold gen. destruct (generations t !! k) as [g|] eqn:E; cbn; [| unfold u32_max; lia].
    by eapply Forall_lookup_1 in E; [| apply (hwf_gens t Hwf)]. }
  intros id. rewrite list_elem_of_fmap. split.
  - intros ([k h] & -> & He). cbn [fst]. pose proof (Hgen _ He) as Hg.
    unfold old in He. rewrite list_elem_of_filter, slab_iter_spec in He. destruct He as [_ Hk].
    assert (live_id t (pack k (gen k)) h) as Hl by (split; rewrite (Hun k h Hk); done).
    exists h. split; [done |].
    destruct (handle_remove_live t (pack k (gen k))) as [(h2 & [_ H2] & H3 & _) | [Hn _]];
      [| by apply Hn in Hl]. destruct Hl as [_ Hl]. congruence.
  - intros h Hid [Hg Hk]. rewrite list_elem_of_fmap.
    change (Z.max 0 (now - last_accessed_at h)) with (saturating_duration_since now (last_accessed_at h)).
    split.
    + intros ([k h2] & -> & He). unfold old in He. rewrite list_elem_of_filter, slab_iter_spec in He.
      destruct He as [He Hk2]. cbn [fst snd] in He, Hk. rewrite (Hun k h2 Hk2) in Hk. cbn in Hk. congruence.
    + intros Hi. exists ((unpack id).1, h). unfold old.
      rewrite list_elem_of_filter, slab_iter_spec. split; [| done]. cbn [fst].
      unfold gen. rewrite Hg. cbn [default from_option]. by rewrite pack_unpack.
Qed.
End properties.

(** A table with room for one handle, and a handle to put in it. *)
Definition sample_handle : OpenHandle () :=
  mkOpenHandle tt (mkProviderFileHandle 7 VirtualPath_root 0) (Volume "v") VirtualPath_root 0
    "provider" 0 0.
Definition sample_handles : OpenHandleTable (list (option (OpenHandle ()))) :=
  mkOpenHandleTable [] [] 1 30.

(** Witness: the table is full, so the handle is refused. *)
Lemma handle_insert_fresh_witness :
  let t := foldl run_op sample_handles [OpInsert sample_handle 5] in
  slab_len (handles t) ≤ 1 ∧ handle_insert t sample_handle 6 = (Err TooManyHandles, t).
Proof.
  intros t.
  destruct (handle_insert_fresh 1 30 sample_handles [OpInsert sample_handle 5] sample_handle 6)
    as [_ [[_ H] | (id & H & _)]]; [lia | vm_compute; reflexivity | | ].
  - split; [vm_compute; discriminate | exact H].
  - vm_compute in H. discriminate.
Defined.

(** Witness: identifier 0 is released and its slot reused. *)
Lemma stale_handle_rejected_witness :
  let t := foldl run_op sample_handles [OpInsert sample_handle 5] in
  let t' := foldl run_op (handle_remove t 0).2 [OpInsert sample_handle 6] in
  handle_get_mut t' 0 9 = (Err BadHandle, t') ∧ handle_remove t' 0 = (Err BadHandle, t').
Proof.
  apply (stale_handle_rejected 1 30 sample_handles [OpInsert sample_handle 5]
           [OpInsert sample_handle 6] 0 (set_last_accessed_at (set_opened_at sample_handle 5) 5) 9).
  - lia.
  - vm_compute. reflexivity.
  - vm_compute. reflexivity.
  - vm_compute. reflexivity.
Defined.

(** Witness: one handle, idle for 35 time units. *)
Lemma expired_ids_exact_witness :
  expired_ids (foldl run_op sample_handles [OpInsert sample_handle 5]) 40 = Ok [0] ∧
  ∃ ids, expired_ids (foldl run_op sample_handles [OpInsert sample_handle 5]) 40 = Ok ids.
Proof.
  split; [vm_compute; reflexivity |].
  destruct (expired_ids_exact 1 30 sample_handles [OpInsert sample_handle 5] 40) as (ids & H & _);
    [lia | vm_compute; reflexivity | eauto].
Defined.
