(* ===== verification/Router.v ===== *)
(** Routing of container paths to the mounts of a container
    (crates/tuxstack-vfs/src/router.rs).  [P] is the type of provider
    references, [Arc<dyn ReadOnlyFilesystemProvider>]: the router stores and
    returns them and never calls them. *)

From S2P Require Import Prelude Error Path.

Local Open Scope Z_scope.

Definition ProviderKey := string.
Definition ContainerPath := VirtualPath.

Record ResolvedContainerMount (P : Type) := mkResolvedContainerMount {
  destination : VirtualPath;
  mount_key : ProviderKey;
  provider_root : VirtualPath;
  mount_provider : P;
}.
Arguments mkResolvedContainerMount {P}.
Arguments destination {P}.
Arguments mount_key {P}.
Arguments provider_root {P}.
Arguments mount_provider {P}.

Record ResolvedRoute (P : Type) := mkResolvedRoute {
  container_path : ContainerPath;
  route_key : ProviderKey;
  provider_path : VirtualPath;
  route_provider : P;
  mount : option (ResolvedContainerMount P);
}.
Arguments mkResolvedRoute {P}.
Arguments container_path {P}.
Arguments route_key {P}.
Arguments provider_path {P}.
Arguments route_provider {P}.
Arguments mount {P}.

Record ContainerPathRouter (P : Type) := mkContainerPathRouter {
  container_id : string;
  mounts : list (ResolvedContainerMount P);
  rootfs_key : ProviderKey;
  rootfs : P;
}.
Arguments mkContainerPathRouter {P}.
Arguments container_id {P}.
Arguments mounts {P}.
Arguments rootfs_key {P}.
Arguments rootfs {P}.

Section router.
Context {P : Type}.
Implicit Types (m : ResolvedContainerMount P) (self : ContainerPathRouter P).

(** Deepest destination first, then by the bytes of the destination. *)
Definition mount_cmp : ResolvedContainerMount P → ResolvedContainerMount P → comparison :=
  cmp_then (cmp_rev (cmp_by (fun m => VirtualPath_depth (destination m)) Nat.compare))
           (cmp_by (fun m => VirtualPath_as_bytes (destination m)) bytes_cmp).

Definition ContainerPathRouter_new (container_id : string) (rootfs_key : ProviderKey) (rootfs : P)
  (mounts : list (ResolvedContainerMount P)) : vres (ContainerPathRouter P) :=
  if existsb (fun m => VirtualPath_is_root (destination m)) mounts
  then Err (InvalidInput "a mount cannot replace the container root")
  else
    Ok {| container_id := container_id;
          mounts := sort_by mount_cmp mounts;
          rootfs_key := rootfs_key;
          rootfs := rootfs |}.

Definition route self (path : ContainerPath) : vres (ResolvedRoute P) :=
  match find (fun m => VirtualPath_starts_with path (destination m)) (mounts self) with
  | Some m =>
      remainder ← VirtualPath_strip_prefix path (destination m);
      remainder ← match remainder with
                  | Some r => Ok r
                  | None => Panic "component prefix already checked"
                  end;
      provider_path ← VirtualPath_from_components
                        (components (provider_root m) ++ components remainder);
      Ok {| container_path := path;
            route_key := mount_key m;
            provider_path := provider_path;
            route_provider := mount_provider m;
            mount := Some m |}
  | None =>
      Ok {| container_path := path;
            route_key := rootfs_key self;
            provider_path := path;
            route_provider := rootfs self;
            mount := None |}
  end.

#[export] Instance mount_cmp_total : TotalCmp mount_cmp.
Proof. unfold mount_cmp. apply _. Qed.

(** [m] is the mount a path belongs to: it covers the path, and no mount of the
    list that covers the path is deeper. *)
Definition deepest (ms : list (ResolvedContainerMount P)) (path : VirtualPath) m : Prop :=
  m ∈ ms ∧ VirtualPath_starts_with path (destination m) = true ∧
  ∀ m', m' ∈ ms → VirtualPath_starts_with path (destination m') = true →
        (VirtualPath_depth (destination m') ≤ VirtualPath_depth (destination m))%nat.

Lemma mount_cmp_depth m1 m2 :
  mount_cmp m1 m2 ≠ Gt →
  (VirtualPath_depth (destination m2) ≤ VirtualPath_depth (destination m1))%nat.
Proof.
  unfold mount_cmp, cmp_then, cmp_rev, cmp_by. intros H. apply Nat.compare_le_iff.
  by destruct (_ ?= _)%nat.
Qed.

(** In a list sorted that way the first mount that covers the path is the deepest. *)
Lemma find_deepest ms path m :
  StronglySorted (fun x y => mount_cmp x y ≠ Gt) ms →
  find (fun m => VirtualPath_starts_with path (destination m)) ms = Some m → deepest ms path m.
Proof.
  intros Hs. induction Hs as [|a ms Hs IH Ha]; cbn; [done |].
  destruct (VirtualPath_starts_with path (destination a)) eqn:E.
  - intros [= <-]. split_and!; [constructor | done |]. intros m' Hin Hm'.
    apply elem_of_cons in Hin as [->|Hin]; [done |]. apply mount_cmp_depth.
    by apply (proj1 (list.Forall_forall _ _) Ha m').
  - intros (Hin & Hc & Hmax)%IH. split_and!; [by constructor | done |].
    intros m' [->|Hm']%elem_of_cons Hc'; [congruence | by apply Hmax].
Qed.

Lemma find_uncovered ms path :
  find (fun m => VirtualPath_starts_with path (destination m)) ms = None →
  ∀ m, m ∈ ms → VirtualPath_starts_with path (destination m) = false.
Proof.
  intros Hf m Hin. eapply (find_none _ _ Hf). by apply list_elem_of_In.
Qed.

(** Two covering destinations of the same depth are the same path. *)
Lemma covering_same_depth path p q :
  path_wf p → path_wf q →
  VirtualPath_starts_with path p = true → VirtualPath_starts_with path q = true →
  VirtualPath_depth p = VirtualPath_depth q → p = q.
Proof.
  intros Hp Hq [cs H1]%VirtualPath_starts_with_spec [ds H2]%VirtualPath_starts_with_spec Hd.
  apply path_wf_eq; [done | done |]. rewrite H1 in H2. by apply app_inj_1 in H2 as [? _].
Qed.

Lemma router_new_mounts cid k r ms router :
  ContainerPathRouter_new cid k r ms = Ok router →
  mounts router = sort_by mount_cmp ms ∧ rootfs_key router = k ∧ rootfs router = r ∧
  ∀ m, m ∈ ms → VirtualPath_is_root (destination m) = false.
Proof.
  unfold ContainerPathRouter_new. destruct (existsb _ _) eqn:E; [done |]. intros [= <-].
  split_and!; try done. intros m Hin. apply not_true_iff_false. intros Hr.
  apply not_true_iff_false in E. apply E. apply existsb_exists. exists m.
  split; [by apply list_elem_of_In | done].
Qed.
End router.

(** ** Properties *)

(** A container path is routed to the deepest mount whose destination covers
    it component by component, with the rest of the path appended to that
    mount's root inside the provider; without such a mount it goes to the root
    filesystem unchanged.  Routing a well-formed path never panics and fails
    only with [PathTooLong], when the translated path exceeds the limit. *)
Theorem route_deepest_mount {P : Type} (cid : string) (k : ProviderKey) (r : P)
  (ms : list (ResolvedContainerMount P)) (router : ContainerPathRouter P) (path : VirtualPath) :
  ContainerPathRouter_new cid k r ms = Ok router → path_wf path →
  (∃ m rest,
     deepest ms path m ∧ components path = components (destination m) ++ rest ∧
     ((path_len (components (provider_root m) ++ rest) ≤ DEFAULT_MAX_PATH_BYTES ∧
       route router path =
         Ok (mkResolvedRoute path (mount_key m)
               (mkVirtualPath (components (provider_root m) ++ rest)
                  (path_len (components (provider_root m) ++ rest)))
               (mount_provider m) (Some m)))
      ∨ (DEFAULT_MAX_PATH_BYTES < path_len (components (provider_root m) ++ rest) ∧
         route router path = Err PathTooLong)))
  ∨ ((∀ m, m ∈ ms → VirtualPath_starts_with path (destination m) = false) ∧
     route router path = Ok (mkResolvedRoute path k path r None)).
Proof.
  intros Hnew Hp. apply router_new_mounts in Hnew as (Hm & Hk & Hr & _).
  pose proof (sort_by_sorted mount_cmp ms) as Hs. pose proof (sort_by_perm mount_cmp ms) as Hperm.
  unfold route. rewrite Hm, Hk, Hr. destruct (find _ _) as [m|] eqn:Ef.
  - left. apply find_deepest in Ef as (Hin & Hc & Hmax); [| done].
    destruct (proj1 (VirtualPath_starts_with_spec _ _) Hc) as [rest Hrest].
    exists m, rest. split_and!; [| done |].
    { split_and!; [by rewrite <- Hperm | done |]. intros m' Hin'. apply Hmax. by rewrite Hperm. }
    destruct (VirtualPath_strip_prefix_app path (destination m) rest Hp Hrest) as [-> _].
    cbn [mbind result_bind components].
    destruct (Z.le_gt_cases (path_len (components (provider_root m) ++ rest)) DEFAULT_MAX_PATH_BYTES)
      as [Hle|Hgt].
    + left. split; [done |].
      by rewrite (proj2 (from_components_Ok _ _) (conj eq_refl Hle)).
    + right. split; [done |]. by rewrite from_components_err.
  - right. split; [| done]. intros m Hin. eapply find_uncovered; [exact Ef |]. by rewrite Hperm.
Qed.

(** The mounts of the concrete run: a volume inside a volume. *)
Definition sample_mount (dest : string) (provider : nat) : ResolvedContainerMount nat :=
  mkResolvedContainerMount
    (default VirtualPath_root
       (match VirtualPath_from_absolute (bytes dest) with Ok p => Some p | _ => None end))
    dest VirtualPath_root provider.
Definition sample_mounts : list (ResolvedContainerMount nat) :=
  [sample_mount "/app" 1; sample_mount "/app/data" 2].

(** Witness: [/app/data2/x] belongs to [/app], not to [/app/data]. *)
Lemma route_deepest_mount_witness :
  ∃ router path,
    ContainerPathRouter_new "c" "rootfs" 0%nat sample_mounts = Ok router ∧
    VirtualPath_from_absolute (bytes "/app/data2/x") = Ok path ∧
    (route_provider <$> route router path) = Ok 1%nat ∧
    ∃ m, deepest sample_mounts path m.
Proof.
  set (router := mkContainerPathRouter "c" (sort_by mount_cmp sample_mounts) "rootfs" 0%nat).
  destruct (VirtualPath_from_absolute (bytes "/app/data2/x")) as [path| |] eqn:Ep;
    [| vm_compute in Ep; discriminate..].
  exists router, path. split_and!; [vm_compute; reflexivity | done | |].
  { vm_compute in Ep. injection Ep as <-. vm_compute. reflexivity. }
  destruct (route_deepest_mount "c" "rootfs" 0%nat sample_mounts router path)
    as [(m & rest & H & _) | [H _]].
  - vm_compute. reflexivity.
  - by eapply from_absolute_wf.
  - eauto.
  - exfalso. assert (sample_mount "/app" 1 ∈ sample_mounts) as Hin by left.
    apply H in Hin. vm_compute in Ep. injection Ep as <-. vm_compute in Hin. discriminate.
Defined.

(** Routing does not depend on the order in which the mounts were listed.
    When the destinations are well formed and pairwise different, two routers
    built from permutations of the same mounts route every path alike. *)
Theorem route_order_independent {P : Type} (cid : string) (k : ProviderKey) (r : P)
  (ms ms' : list (ResolvedContainerMount P)) (router router' : ContainerPathRouter P)
  (path : VirtualPath) :
  ms ≡ₚ ms' → NoDup (destination <$> ms) → Forall (fun m => path_wf (destination m)) ms →
  ContainerPathRouter_new cid k r ms = Ok router →
  ContainerPathRouter_new cid k r ms' = Ok router' →
  route router path = route router' path.
Proof.
  intros Hperm Hnd Hwf (Hm & Hk & Hr & _)%router_new_mounts (Hm' & Hk' & Hr' & _)%router_new_mounts.
  enough (find (fun m => VirtualPath_starts_with path (destination m)) (mounts router)
          = find (fun m => VirtualPath_starts_with path (destination m)) (mounts router')) as Hf.
  { unfold route. rewrite Hf, Hk, Hk', Hr, Hr'. done. }
  rewrite Hm, Hm'.
  pose proof (sort_by_perm mount_cmp ms) as Hp. pose proof (sort_by_perm mount_cmp ms') as Hp'.
  destruct (find _ (sort_by mount_cmp ms)) as [m|] eqn:Ef, (find _ (sort_by mount_cmp ms')) as [m'|] eqn:Ef'.
  - apply find_deepest in Ef as (Hin & Hc & Hmax); [| apply sort_by_sorted, _].
    apply find_deepest in Ef' as (Hin' & Hc' & Hmax'); [| apply sort_by_sorted, _].
    rewrite Hp in Hin. rewrite Hp', <- Hperm in Hin'. f_equal.
    assert (destination m = destination m') as Hd.
    { eapply covering_same_depth; [| | exact Hc | exact Hc' |].
      - by apply (proj1 (list.Forall_forall _ _) Hwf m).
      - by apply (proj1 (list.Forall_forall _ _) Hwf m').
      - apply Nat.le_antisymm; [apply Hmax' | apply Hmax]; try done.
        + by rewrite Hp', <- Hperm.
        + by rewrite Hp. }
    apply list_elem_of_lookup in Hin as [i Hi]. apply list_elem_of_lookup in Hin' as [j Hj].
    assert (i = j) as ->; [| congruence].
    eapply NoDup_lookup; [exact Hnd | by rewrite list_lookup_fmap, Hi |].
    rewrite list_lookup_fmap, Hj, Hd. done.
  - apply find_some in Ef as [Hin Hc]. rewrite (find_uncovered _ _ Ef' m) in Hc; [done |].
    rewrite Hp', <- Hperm, <- Hp. by apply list_elem_of_In.
  - apply find_some in Ef' as [Hin Hc]. rewrite (find_uncovered _ _ Ef m') in Hc; [done |].
    rewrite Hp, Hperm, <- Hp'. by apply list_elem_of_In.
  - done.
Qed.

(** Witness: the two mounts in both orders. *)
Lemma route_order_independent_witness :
  let router := mkContainerPathRouter "c" (sort_by mount_cmp sample_mounts) "rootfs" 0%nat in
  let router' :=
    mkContainerPathRouter "c" (sort_by mount_cmp (reverse sample_mounts)) "rootfs" 0%nat in
  route router (destination (sample_mount "/app/data/x" 0)) = route router' (destination (sample_mount "/app/data/x" 0)).
Proof.
  intros router router'.
  apply (route_order_independent "c" "rootfs" 0%nat sample_mounts (reverse sample_mounts)).
  - symmetry. apply reverse_Permutation.
  - apply (bool_decide_unpack _). vm_compute. exact I.
  - apply Forall_cons; [eapply (from_absolute_wf (bytes "/app") 100); vm_compute; reflexivity |].
    apply Forall_cons; [| constructor].
    eapply (from_absolute_wf (bytes "/app/data") 100). vm_compute. reflexivity.
  - vm_compute. reflexivity.
  - vm_compute. reflexivity.
Defined.
