(* ===== verification/Provider.v ===== *)
(** The provider interface and the in-memory provider
    (crates/tuxstack-vfs/src/provider.rs), with the open-flag check of
    crates/tuxstack-vfs/src/adapter.rs.

    A provider operation is an effectful program over a world [W] that holds the
    state of every provider; a value of [P] is a provider reference,
    [Arc<dyn ReadOnlyFilesystemProvider>].  [async] functions are awaited where
    they are called, so they are sequential programs here. *)

From S2P Require Import Prelude Error Path Model.

Local Open Scope Z_scope.

(** ** Programs over a world *)
Definition prog (W A : Type) : Type := W → vres A * W.

#[export] Instance prog_ret {W} : MRet (prog W) := fun A a w => (Ok a, w).
#[export] Instance prog_bind {W} : MBind (prog W) := fun A B f m w =>
  match m w with
  | (Ok a, w) => f a w
  | (Err e, w) => (Err e, w)
  | (Panic s, w) => (Panic s, w)
  end.

(** A result without effects, [expr?]. *)
Definition lift {W A} (r : vres A) : prog W A := fun w => (r, w).
Definition throw {W A} (e : VfsError) : prog W A := lift (Err e).

(** Read a part of the state, and change the state. *)
Definition gets {W A} (f : W → A) : prog W A := fun w => (Ok (f w), w).
Definition update {W} (f : W → W) : prog W () := fun w => (Ok tt, f w).

(** A component with its own state [St] above the world of the providers. *)
Section stateful.
Context {St W : Type}.

(** Call a provider. *)
Definition call {A} (m : prog W A) : prog (St * W) A :=
  fun s => let '(r, w) := m s.2 in (r, (s.1, w)).

(** Read the state of the component. *)
Definition asks {A} (f : St → vres A) : prog (St * W) A := fun s => (f s.1, s).

(** Read and change the state of the component. *)
Definition modify {A} (f : St → vres A * St) : prog (St * W) A :=
  fun s => let '(r, self) := f s.1 in (r, (self, s.2)).

Lemma bind_lift_Ok {A B} (a : A) (f : A → prog (St * W) B) s : (lift (Ok a) ≫= f) s = f a s.
Proof. done. Qed.
Lemma bind_call_Ok {A B} (m : prog W A) a (f : A → prog (St * W) B) self w w' :
  m w = (Ok a, w') → (call m ≫= f) (self, w) = f a (self, w').
Proof. intros H. unfold mbind, prog_bind, call. cbn. by rewrite H. Qed.
Lemma bind_asks {A B} (g : St → vres A) a (f : A → prog (St * W) B) self w :
  g self = Ok a → (asks g ≫= f) (self, w) = f a (self, w).
Proof. intros H. unfold mbind, prog_bind, asks. cbn. by rewrite H. Qed.
Lemma bind_modify {A B} (g : St → vres A * St) a self' (f : A → prog (St * W) B) self w :
  g self = (Ok a, self') → (modify g ≫= f) (self, w) = f a (self', w).
Proof. intros H. unfold mbind, prog_bind, modify. cbn. by rewrite H. Qed.
End stateful.

(** ** Programs that keep an invariant

    [keeps I m Q]: [m] keeps [I], and what it returns satisfies [Q]. *)
Definition keeps {St A} (I : St → Prop) (m : prog St A) (Q : A → Prop) : Prop :=
  ∀ s, I s → I (m s).2 ∧ ∀ a, (m s).1 = Ok a → Q a.

Section keeps_rules.
Context {St : Type} (I : St → Prop).

Lemma keeps_bind {A B} (m : prog St A) (f : A → prog St B) Q R :
  keeps I m Q → (∀ a, Q a → keeps I (f a) R) → keeps I (m ≫= f) R.
Proof.
  intros Hm Hf s Hs. destruct (Hm s Hs) as [H1 H2]. unfold mbind, prog_bind.
  destruct (m s) as [[a|e|p] s'] eqn:E; cbn in *; [| done | done]. by apply Hf, H1; apply H2.
Qed.

Lemma keeps_weaken {A} (m : prog St A) (Q R : A → Prop) :
  keeps I m Q → (∀ a, Q a → R a) → keeps I m R.
Proof. intros Hm HQ s Hs. destruct (Hm s Hs). naive_solver. Qed.

Lemma keeps_lift {A} (r : vres A) : keeps I (lift r) (fun a => r = Ok a).
Proof. intros s Hs. done. Qed.

Lemma keeps_ret {A} (a : A) : keeps I (mret a) (fun _ => True).
Proof. intros s Hs. done. Qed.

Lemma keeps_throw {A} e (Q : A → Prop) : keeps I (throw e) Q.
Proof. intros s Hs. done. Qed.
End keeps_rules.

Lemma keeps_asks {St W A} (I : St * W → Prop) (g : St → vres A) :
  keeps I (asks g) (fun a => ∃ s, I s ∧ g s.1 = Ok a).
Proof. intros s Hs. split; [done |]. intros a Ha. by exists s. Qed.

Lemma keeps_gets {St A} (I : St → Prop) (f : St → A) : keeps I (gets f) (fun a => ∃ s, I s ∧ f s = a).
Proof. intros s Hs. split; [done |]. intros a [= <-]. eauto. Qed.

Lemma keeps_update {St} (I : St → Prop) (f : St → St) :
  (∀ s, I s → I (f s)) → keeps I (update f) (fun _ => True).
Proof. intros Hf s Hs. split; [by apply Hf | done]. Qed.

(** ** Open flags *)
Inductive OpenAccMode := O_RDONLY | O_WRONLY | O_RDWR.

#[export] Instance OpenAccMode_eq_dec : EqDecision OpenAccMode.
Proof. solve_decision. Defined.

(** [fuser::OpenFlags::acc_mode], outside the sources: it decodes the low two
    bits of the flags, and read-only is their value zero. *)
Class FuserFlags := { acc_mode : Z → OpenAccMode }.
Class FuserFlagsLaws `{!FuserFlags} : Prop := {
  acc_mode_read_only flags : acc_mode flags = O_RDONLY ↔ Z.land flags 3 = 0;
}.

(** The values of the [libc] crate on Linux. *)
Definition O_CREAT : Z := 64.
Definition O_EXCL : Z := 128.
Definition O_TRUNC : Z := 512.
Definition O_APPEND : Z := 1024.

Definition is_read_only_open `{!FuserFlags} (flags : Z) : bool :=
  let access_is_read_only := bool_decide (acc_mode flags = O_RDONLY) in
  let mutation_flags := Z.lor (Z.lor (Z.lor O_CREAT O_EXCL) O_TRUNC) O_APPEND in
  access_is_read_only && (Z.land flags mutation_flags =? 0).

#[export] Instance linux_FuserFlags : FuserFlags := {
  acc_mode flags :=
    match Z.land flags 3 with 0 => O_RDONLY | 1 => O_WRONLY | _ => O_RDWR end;
}.

#[export] Instance linux_FuserFlagsLaws : FuserFlagsLaws.
Proof. split. intros flags. cbn. destruct (Z.land flags 3) as [|[]|]; cbn; done. Qed.

(** ** The interface *)
Class ReadOnlyFilesystemProvider (W P : Type) := {
  p_descriptor : P → W → ProviderDescriptor;
  p_lookup : P → VirtualPath → VirtualFileName → RequestContext → prog W VirtualMetadata;
  p_getattr : P → VirtualPath → RequestContext → prog W VirtualMetadata;
  p_read_dir : P → VirtualPath → RequestContext → prog W (list VirtualDirectoryEntry);
  p_read_link : P → VirtualPath → RequestContext → prog W VirtualPathBytes;
  p_open : P → VirtualPath → Z → RequestContext → prog W ProviderFileHandle;
  p_read_at : P → ProviderFileHandle → Z → Z → RequestContext → prog W (list byte);
  p_close : P → ProviderFileHandle → prog W ();
  p_refresh : P → option VirtualPath → prog W ();
}.

(** What a provider promises its clients: no open with a write flag succeeds,
    and [lookup] of a name is [getattr] of the joined path. *)
Class ProviderLaws (W P : Type) `{!FuserFlags, !ReadOnlyFilesystemProvider W P} : Prop := {
  provider_refuses_writes p path flags ctx w :
    is_read_only_open flags = false → is_ok (p_open p path flags ctx w).1 = false;
  provider_lookup_getattr p parent name ctx w :
    p_lookup p parent name ctx w =
    (path ← lift (VirtualPath_join parent name); p_getattr p path ctx) w;
}.

(** ** The in-memory provider *)
Inductive MemoryContent :=
  | MemDirectory
  | MemFile (content : list byte)
  | MemSymlink (target : VirtualPathBytes)
  | MemSpecial.

Record MemoryNode := mkMemoryNode {
  mem_metadata : VirtualMetadata;
  mem_content : MemoryContent;
}.

Record InMemoryProvider := mkInMemoryProvider {
  mem_descriptor : ProviderDescriptor;
  nodes : gmap VirtualPath MemoryNode;
  next_handle : Z;
}.

Definition InMemoryProvider_new : InMemoryProvider :=
  {| mem_descriptor :=
       {| kind := InMemory;
          consistency := Immutable;
          source := None;
          capabilities := Capabilities.READ_ONLY |};
     nodes := {[VirtualPath_root := mkMemoryNode (VirtualMetadata_directory (bytes "root")) MemDirectory]};
     next_handle := 1 |}.

Definition memory_insert (path : VirtualPath) (node : MemoryNode) : prog InMemoryProvider () :=
  fun self =>
  if VirtualPath_is_root path then (Err (InvalidInput "root cannot be replaced"), self)
  else
    match (parent ← VirtualPath_parent path; ok_or (InvalidInput "node has no parent") parent) with
    | Err e => (Err e, self)
    | Panic s => (Panic s, self)
    | Ok parent =>
        match nodes self !! parent with
        | Some pnode =>
            if bool_decide (file_type (mem_metadata pnode) = Directory) then
              (Ok tt, mkInMemoryProvider (mem_descriptor self) (<[path := node]> (nodes self))
                        (next_handle self))
            else (Err NotDirectory, self)
        | None => (Err NotFound, self)
        end
    end.

Definition add_directory (path : VirtualPath) (node_id : list byte) : prog InMemoryProvider () :=
  memory_insert path (mkMemoryNode (VirtualMetadata_directory node_id) MemDirectory).

Definition add_file (path : VirtualPath) (node_id content : list byte) : prog InMemoryProvider () :=
  memory_insert path (mkMemoryNode (VirtualMetadata_file node_id (len content)) (MemFile content)).

Definition add_symlink (path : VirtualPath) (node_id : list byte) (target : VirtualPathBytes)
  : prog InMemoryProvider () :=
  let length := len (VirtualPathBytes_as_bytes target) in
  memory_insert path (mkMemoryNode (VirtualMetadata_symlink node_id length) (MemSymlink target)).

Definition add_special (path : VirtualPath) (node_id : list byte) (file_type : VirtualFileType)
  (device_id : Z) : prog InMemoryProvider () :=
  if negb (is_special file_type) then throw (InvalidInput "node is not a special file")
  else
    memory_insert path
      (mkMemoryNode (VirtualMetadata_special node_id file_type device_id) MemSpecial).

Definition memory_node (self : InMemoryProvider) (path : VirtualPath) : vres MemoryNode :=
  ok_or NotFound (nodes self !! path).

Definition memory_getattr (self : InMemoryProvider) (path : VirtualPath) : vres VirtualMetadata :=
  mem_metadata <$> memory_node self path.

Definition memory_lookup (self : InMemoryProvider) (parent : VirtualPath) (name : VirtualFileName)
  : vres VirtualMetadata :=
  path ← VirtualPath_join parent name;
  mem_metadata <$> memory_node self path.

(** The entry of one node of the map, if it is a child of [path]. *)
Definition child_entry (path : VirtualPath) (e : VirtualPath * MemoryNode)
  : vres (option VirtualDirectoryEntry) :=
  parent ← VirtualPath_parent e.1;
  if bool_decide (parent = Some path) then
    match VirtualPath_file_name e.1 with
    | Some name => Ok (Some (mkVirtualDirectoryEntry name (mem_metadata e.2)))
    | None => Panic "non-root child"
    end
  else Ok None.

Definition entry_cmp : VirtualDirectoryEntry → VirtualDirectoryEntry → comparison :=
  cmp_by (fun e => VirtualFileName_as_bytes (entry_name e)) bytes_cmp.

Definition memory_read_dir (self : InMemoryProvider) (path : VirtualPath)
  : vres (list VirtualDirectoryEntry) :=
  node ← memory_node self path;
  _ ← guard_err (negb (bool_decide (file_type (mem_metadata node) = Directory))) NotDirectory;
  entries ← mapM_result (child_entry path) (map_to_list (nodes self));
  Ok (sort_by entry_cmp (omap id entries)).

Definition memory_read_link (self : InMemoryProvider) (path : VirtualPath) : vres VirtualPathBytes :=
  node ← memory_node self path;
  match mem_content node with
  | MemSymlink target => Ok target
  | _ => Err (InvalidInput "node is not a symlink")
  end.

Definition memory_open `{!FuserFlags} (path : VirtualPath) (flags : Z)
  : prog InMemoryProvider ProviderFileHandle := fun self =>
  if negb (is_read_only_open flags) then (Err ReadOnly, self)
  else
    match memory_node self path with
    | Err e => (Err e, self)
    | Panic s => (Panic s, self)
    | Ok node =>
        match file_type (mem_metadata node) with
        | RegularFile =>
            (Ok {| handle_id := next_handle self;
                   handle_path := path;
                   content_generation := generation (mem_metadata node) |},
             mkInMemoryProvider (mem_descriptor self) (nodes self)
               (wrapping_add 64 (next_handle self) 1))
        | Directory => (Err IsDirectory, self)
        | Symlink => (Err (InvalidInput "cannot open a symlink"), self)
        | _ => (Err SpecialFile, self)
        end
    end.

(** [content.slice(start..end)] panics when [start > end]. *)
Definition bytes_slice (content : list byte) (start end_ : Z) : vres (list byte) :=
  if bool_decide (start ≤ end_ ∧ end_ ≤ len content)
  then Ok (take (Z.to_nat (end_ - start)) (drop (Z.to_nat start) content))
  else Panic "range out of bounds".

Definition memory_read_at (self : InMemoryProvider) (handle : ProviderFileHandle) (offset size : Z)
  : vres (list byte) :=
  node ← memory_node self (handle_path handle);
  _ ← guard_err (negb (generation (mem_metadata node) =? content_generation handle)) Stale;
  match mem_content node with
  | MemFile content =>
      let start := Z.min offset (len content) in
      let end_ := Z.min (saturating_add usize_max start size) (len content) in
      bytes_slice content start end_
  | _ => Err BadHandle
  end.

(** Reads do not change the provider. *)
Definition pure {W A} (f : W → vres A) : prog W A := fun w => (f w, w).

#[export] Instance memory_provider `{!FuserFlags} :
  ReadOnlyFilesystemProvider InMemoryProvider () := {
  p_descriptor _ := mem_descriptor;
  p_lookup _ parent name _ := pure (fun self => memory_lookup self parent name);
  p_getattr _ path _ := pure (fun self => memory_getattr self path);
  p_read_dir _ path _ := pure (fun self => memory_read_dir self path);
  p_read_link _ path _ := pure (fun self => memory_read_link self path);
  p_open _ path flags _ := memory_open path flags;
  p_read_at _ handle offset size _ := pure (fun self => memory_read_at self handle offset size);
  p_close _ _ := mret tt;
  p_refresh _ _ := mret tt;
}.

(** ** The open-flag check *)
Lemma is_read_only_open_spec `{!FuserFlags, !FuserFlagsLaws} flags :
  is_read_only_open flags = true ↔
  Z.land flags 3 = 0 ∧ Z.land flags (Z.lor (Z.lor (Z.lor O_CREAT O_EXCL) O_TRUNC) O_APPEND) = 0.
Proof.
  unfold is_read_only_open. rewrite andb_true_iff, bool_decide_eq_true, Z.eqb_eq.
  by rewrite acc_mode_read_only.
Qed.

#[export] Instance memory_ProviderLaws `{!FuserFlags} : ProviderLaws InMemoryProvider ().
Proof.
  split; cbn.
  - intros _ path flags _ w Hf. unfold memory_open. by rewrite Hf.
  - intros _ parent name _ w. unfold pure, memory_lookup, memory_getattr, mbind, prog_bind, lift.
    by destruct (VirtualPath_join parent name).
Qed.

(** ** The invariant of the in-memory provider *)
Definition node_ok (n : MemoryNode) : Prop :=
  match mem_content n with
  | MemDirectory => file_type (mem_metadata n) = Directory
  | MemFile content =>
      file_type (mem_metadata n) = RegularFile ∧ size (mem_metadata n) = len content
  | MemSymlink target =>
      file_type (mem_metadata n) = Symlink ∧
      size (mem_metadata n) = len (VirtualPathBytes_as_bytes target)
  | MemSpecial => is_special (file_type (mem_metadata n)) = true
  end.

Record mem_wf (self : InMemoryProvider) : Prop := {
  mem_root : ∃ n, nodes self !! VirtualPath_root = Some n ∧ file_type (mem_metadata n) = Directory;
  mem_node p n : nodes self !! p = Some n →
    path_wf p ∧ node_ok n ∧
    (VirtualPath_is_root p = false →
     ∃ parent, VirtualPath_parent p = Ok (Some parent) ∧ is_Some (nodes self !! parent));
}.

Lemma InMemoryProvider_new_wf : mem_wf InMemoryProvider_new.
Proof.
  unfold InMemoryProvider_new. split; cbn [nodes].
  - eexists. by rewrite lookup_singleton_eq.
  - intros p n [<- <-]%lookup_singleton_Some. split_and!; [apply VirtualPath_root_wf | done | done].
Qed.

Lemma memory_insert_wf self path node :
  mem_wf self → path_wf path → node_ok node → mem_wf (memory_insert path node self).2.
Proof.
  intros [Hr Hn] Hp Hok. unfold memory_insert. destruct (VirtualPath_is_root path) eqn:Er; [done |].
  destruct (_ ≫= _) as [parent| |] eqn:Epar; [| done | done].
  apply bind_Ok in Epar as (o & Hpar & ->%ok_or_Ok).
  destruct (nodes self !! parent) as [pnode|] eqn:Ep; [| done].
  case_bool_decide as Hd; [| done]. cbn [snd]. split; cbn [nodes].
  - rewrite lookup_insert_ne; [done |]. intros ->. done.
  - intros p n [[<- <-] | [Hne Hl]]%lookup_insert_Some.
    + split_and!; [done | done |]. intros _. exists parent. split; [done |].
      apply lookup_insert_is_Some'. right. by rewrite Ep.
    + apply Hn in Hl as (? & ? & Hparent). split_and!; [done | done |].
      intros (q & ? & ?)%Hparent. exists q. split; [done |]. apply lookup_insert_is_Some'. by right.
Qed.

(** The operations that build a provider. *)
Inductive MemoryOp :=
  | AddDirectory (path : VirtualPath) (node_id : list byte)
  | AddFile (path : VirtualPath) (node_id content : list byte)
  | AddSymlink (path : VirtualPath) (node_id : list byte) (target : VirtualPathBytes)
  | AddSpecial (path : VirtualPath) (node_id : list byte) (ft : VirtualFileType) (device : Z).

Definition op_path (op : MemoryOp) : VirtualPath :=
  match op with
  | AddDirectory p _ | AddFile p _ _ | AddSymlink p _ _ | AddSpecial p _ _ _ => p
  end.

Definition run_memory_op (self : InMemoryProvider) (op : MemoryOp) : InMemoryProvider :=
  (match op with
   | AddDirectory p i => add_directory p i self
   | AddFile p i c => add_file p i c self
   | AddSymlink p i t => add_symlink p i t self
   | AddSpecial p i ft d => add_special p i ft d self
   end).2.

Lemma run_memory_op_wf self op : mem_wf self → path_wf (op_path op) → mem_wf (run_memory_op self op).
Proof.
  intros Hwf Hp. destruct op as [p i|p i c|p i t|p i ft d]; cbn in Hp |- *;
    [by apply memory_insert_wf.. |].
  unfold run_memory_op, add_special. destruct (is_special ft) eqn:E; cbn [negb]; [| exact Hwf]. by apply memory_insert_wf.
Qed.

Lemma run_memory_ops_wf ops self :
  mem_wf self → Forall (fun op => path_wf (op_path op)) ops → mem_wf (foldl run_memory_op self ops).
Proof.
  intros Hwf Hops. revert self Hwf. induction Hops as [|op ops Hop Hops IH]; intros self Hwf; cbn; [done |].
  by apply IH, run_memory_op_wf.
Qed.

(** ** Listings *)
Lemma parent_of_join path q name :
  path_wf path → path_wf q →
  VirtualPath_parent q = Ok (Some path) ∧ VirtualPath_file_name q = Some name ↔
  VirtualPath_join path name = Ok q.
Proof.
  intros Hp Hq. unfold VirtualPath_join. rewrite from_components_Ok. split.
  - intros [Hpar Hname]. unfold VirtualPath_file_name in Hname.
    apply last_Some in Hname as [cs Hc].
    destruct (VirtualPath_parent_snoc q cs name Hq Hc) as [Hpar' _]. rewrite Hpar in Hpar'.
    injection Hpar' as ->. cbn. destruct Hq as (_ & Hl & Hm). rewrite Hc in Hl.
    split; [| lia]. destruct q; cbn in *. by subst.
  - intros [-> Hle]. destruct (VirtualPath_parent_snoc _ (components path) name Hq eq_refl) as [-> _].
    split; [| apply last_snoc]. do 2 f_equal. destruct Hp as (_ & Hl & _).
    destruct path; cbn in *. by f_equal.
Qed.

Lemma child_entry_Ok path p n :
  path_wf path → path_wf p →
  ∃ o, child_entry path (p, n) = Ok o ∧
       ∀ e, o = Some e ↔ VirtualPath_join path (entry_name e) = Ok p ∧ entry_metadata e = mem_metadata n.
Proof.
  intros Hp Hq. unfold child_entry. cbn [fst snd].
  destruct (VirtualPath_parent p) as [o| |s] eqn:E; cbn [mbind result_bind].
  - case_bool_decide as Ho.
    + subst o. destruct (VirtualPath_file_name p) as [name|] eqn:En.
      * eexists. split; [done |]. intros [name' md]. cbn.
        rewrite <- parent_of_join by done. rewrite E, En. naive_solver.
      * exfalso. unfold VirtualPath_file_name in En. apply last_None in En.
        by rewrite VirtualPath_parent_root in E.
    + eexists. split; [done |]. intros e. split; [done |].
      intros [[Hj _]%parent_of_join _]; [congruence | done | done].
  - exfalso. destruct (components p) as [|c cs _] eqn:Ec using rev_ind.
    + by rewrite VirtualPath_parent_root in E.
    + destruct (VirtualPath_parent_snoc p cs c Hq Ec) as [E' _]. congruence.
  - by apply VirtualPath_parent_no_panic in E.
Qed.

Lemma child_entries_spec path (l : list (VirtualPath * MemoryNode)) os :
  path_wf path → Forall (fun e => path_wf e.1) l →
  Forall2 (fun e o => child_entry path e = Ok o) l os → NoDup (l.*1) →
  (∀ e, e ∈ omap id os ↔
        ∃ p n, (p, n) ∈ l ∧ VirtualPath_join path (entry_name e) = Ok p ∧
               entry_metadata e = mem_metadata n) ∧
  NoDup (entry_name <$> omap id os).
Proof.
  intros Hpath Hwf Hall. induction Hall as [|[p n] o l os Hc Hall IH]; intros Hnd.
  { split; [set_solver | constructor]. }
  apply Forall_cons_iff in Hwf as [Hp Hwf]. cbn in Hnd. apply list.NoDup_cons in Hnd as [Hni Hnd].
  destruct (IH Hwf Hnd) as [IHe IHn]. clear IH.
  destruct (child_entry_Ok path p n Hpath Hp) as (o' & Ho & Hspec).
  rewrite Hc in Ho. injection Ho as <-.
  assert (∀ e, e ∈ omap id (o :: os) ↔ o = Some e ∨ e ∈ omap id os) as Hom.
  { intros e. destruct o as [e'|]; cbn; rewrite ?elem_of_cons; naive_solver. }
  split.
  - intros e. rewrite Hom, Hspec, IHe. split.
    + intros [[? ?]|(p' & n' & ? & ?)]; [exists p, n | exists p', n']; set_solver.
    + intros (p' & n' & [[= -> ->]|Hin]%elem_of_cons & ?); [by left | right; eauto].
  - destruct o as [e|]; [| done]. cbn. constructor; [| done].
    intros (e' & Hname & Hin)%list_elem_of_fmap. apply IHe in Hin as (p' & n' & Hin & Hj & _).
    destruct (proj1 (Hspec e) eq_refl) as [Hj' _]. rewrite <- Hname, Hj' in Hj. injection Hj as <-.
    apply Hni. apply list_elem_of_fmap. by exists (p, n').
Qed.

Lemma memory_read_dir_spec self path n :
  mem_wf self → nodes self !! path = Some n → file_type (mem_metadata n) = Directory →
  ∃ entries, memory_read_dir self path = Ok entries ∧
    StronglySorted (fun x y => entry_cmp x y = Lt) entries ∧
    ∀ e, e ∈ entries ↔ memory_lookup self path (entry_name e) = Ok (entry_metadata e).
Proof.
  intros Hwf Hn Hd. destruct (mem_node self Hwf path n Hn) as (Hp & _).
  assert (Forall (fun e => path_wf e.1) (map_to_list (nodes self))) as Hall.
  { apply list.Forall_forall. intros [q m] Hq%elem_of_map_to_list. by apply (mem_node self Hwf) in Hq as []. }
  destruct (mapM_result_total (child_entry path) (map_to_list (nodes self))) as [os Hos].
  { intros [q m] Hq. destruct (child_entry_Ok path q m Hp) as (o & Ho & _); [| eauto].
    by apply (proj1 (list.Forall_forall _ _) Hall (q, m)). }
  destruct (child_entries_spec path _ os Hp Hall) as [Hspec Hnd];
    [by apply mapM_result_Ok | apply NoDup_fst_map_to_list |].
  exists (sort_by entry_cmp (omap id os)).
  unfold memory_read_dir, memory_node. rewrite Hn. cbn [ok_or mbind result_bind].
  rewrite bool_decide_eq_true_2 by done. cbn [negb guard_err]. rewrite Hos. split_and!; [done | |].
  - apply (sorted_strict _ entry_name).
    + intros a b H%bytes_cmp_eq. destruct a as [[] ?], b as [[] ?]; cbn in *. by subst.
    + rewrite (sort_by_perm entry_cmp). done.
    + apply sort_by_sorted. unfold entry_cmp. apply _.
  - intros e. rewrite (sort_by_perm entry_cmp), Hspec. unfold memory_lookup.
    setoid_rewrite elem_of_map_to_list. split.
    + intros (p & m & Hm & Hj & Hmd). rewrite Hj. cbn. unfold memory_node. rewrite Hm. cbn. by rewrite Hmd.
    + intros (q & Hj & Hq)%bind_Ok. exists q. unfold memory_node in Hq.
      destruct (nodes self !! q) as [m|] eqn:E; [| done]. cbn in Hq. injection Hq as Hq. eauto.
Qed.

(** ** Properties *)

(** The directory listing of the in-memory provider is exactly what lookups
    find.  In every provider built by the [add_*] operations, the listing of a
    directory succeeds, is strictly sorted by name (so it has no name twice) and
    contains a name with some metadata if and only if [lookup] of that name in
    the directory returns that metadata. *)
Theorem memory_listing_is_lookup (ops : list MemoryOp) (path : VirtualPath) (md : VirtualMetadata) :
  Forall (fun op => path_wf (op_path op)) ops →
  let self := foldl run_memory_op InMemoryProvider_new ops in
  memory_getattr self path = Ok md → file_type md = Directory →
  ∃ entries, memory_read_dir self path = Ok entries ∧
    StronglySorted (fun x y => entry_cmp x y = Lt) entries ∧
    ∀ e, e ∈ entries ↔ memory_lookup self path (entry_name e) = Ok (entry_metadata e).
Proof.
  intros Hops self Hattr Hd. unfold memory_getattr, memory_node in Hattr.
  destruct (nodes self !! path) as [n|] eqn:E; [| done]. injection Hattr as <-.
  eapply memory_read_dir_spec; [| done..]. apply run_memory_ops_wf; [apply InMemoryProvider_new_wf | done].
Qed.

(** A provider with one directory that has one file. *)
Definition sample_path (s : string) : VirtualPath :=
  match VirtualPath_from_absolute (bytes s) with Ok p => p | _ => VirtualPath_root end.
Definition sample_ops : list MemoryOp :=
  [AddDirectory (sample_path "/etc") (bytes "d1");
   AddFile (sample_path "/etc/hosts") (bytes "f1") (bytes "127.0.0.1 localhost")].

Lemma sample_ops_wf : Forall (fun op => path_wf (op_path op)) sample_ops.
Proof.
  apply Forall_cons; [eapply (from_absolute_wf (bytes "/etc") 100); vm_compute; reflexivity |].
  apply Forall_cons; [| constructor].
  eapply (from_absolute_wf (bytes "/etc/hosts") 100). vm_compute. reflexivity.
Qed.

(** Witness: the listing of [/etc]. *)
Lemma memory_listing_is_lookup_witness :
  ∃ entries,
    memory_read_dir (foldl run_memory_op InMemoryProvider_new sample_ops) (sample_path "/etc")
    = Ok entries.
Proof.
  destruct (memory_listing_is_lookup sample_ops (sample_path "/etc")
              (VirtualMetadata_directory (bytes "d1")) sample_ops_wf) as (entries & H & _).
  - vm_compute. reflexivity.
  - reflexivity.
  - eauto.
Defined.

(** Reading through a handle returns exactly the bytes of the file.  A
    read-only open of a regular file succeeds; every later [read_at] through the
    handle returns the [size] bytes from [offset], cut at the end of the file,
    and never panics; an open with any write flag is refused with [ReadOnly]
    and leaves the provider unchanged. *)
Theorem memory_open_read (ops : list MemoryOp) (path : VirtualPath) (content : list byte)
  (md : VirtualMetadata) (flags offset count : Z) `{!FuserFlags} :
  let self := foldl run_memory_op InMemoryProvider_new ops in
  nodes self !! path = Some (mkMemoryNode md (MemFile content)) → file_type md = RegularFile →
  len content ≤ i64_max → 0 ≤ offset ≤ u64_max → 0 ≤ count ≤ u32_max →
  (is_read_only_open flags = false → memory_open path flags self = (Err ReadOnly, self)) ∧
  (is_read_only_open flags = true →
   ∃ handle self', memory_open path flags self = (Ok handle, self') ∧
     memory_read_at self' handle offset count
     = Ok (take (Z.to_nat count) (drop (Z.to_nat offset) content))).
Proof.
  intros self Hn Hft Hlen Hoff Hcnt. unfold memory_open. split; intros Hf; rewrite Hf; cbn [negb].
  { done. }
  unfold memory_node. rewrite Hn. cbn [ok_or mem_metadata]. rewrite Hft.
  eexists _, _. split; [done |]. unfold memory_read_at, memory_node. cbn [nodes handle_path].
  rewrite Hn. cbn [ok_or mbind result_bind mem_metadata content_generation mem_content].
  rewrite Z.eqb_refl. cbn [negb guard_err].
  unfold bytes_slice, saturating_add. pose proof (len_nonneg content).
  unfold i64_max, usize_max, u32_max in *.
  rewrite bool_decide_eq_true_2 by lia. f_equal.
  destruct (Z.le_gt_cases (len content) offset).
  - rewrite !drop_ge by (unfold len in *; lia). by rewrite !take_nil.
  - rewrite (Z.min_l offset) by lia. rewrite (Z.min_r (2 ^ 64 - 1)) by lia.
    destruct (Z.le_gt_cases (offset + count) (len content)).
    + rewrite Z.min_l by lia. by replace (offset + count - offset) with count by lia.
    + rewrite Z.min_r by lia. rewrite !take_ge; [done | |];
        rewrite length_drop; unfold len in *; lia.
Qed.

(** Witness: nine bytes of the hosts file. *)
Lemma memory_open_read_witness :
  ∃ handle self',
    memory_open (sample_path "/etc/hosts") 0
      (foldl run_memory_op InMemoryProvider_new sample_ops) = (Ok handle, self') ∧
    memory_read_at self' handle 10 100 = Ok (bytes "localhost").
Proof.
  destruct (memory_open_read sample_ops (sample_path "/etc/hosts") (bytes "127.0.0.1 localhost")
              (VirtualMetadata_file (bytes "f1") 19) 0 10 100) as [_ H].
  - vm_compute. reflexivity.
  - reflexivity.
  - vm_compute. discriminate.
  - vm_compute. split; discriminate.
  - vm_compute. split; discriminate.
  - destruct H as (handle & self' & H1 & H2); [vm_compute; reflexivity |].
    exists handle, self'. split; [exact H1 |]. rewrite H2. vm_compute. reflexivity.
Defined.

(** A provider with a directory, a file and an absolute link, for concrete runs. *)
Definition sample_ctx : RequestContext := mkRequestContext 0 0 0 0.

Definition sample_world : InMemoryProvider :=
  run_memory_op (foldl run_memory_op InMemoryProvider_new sample_ops)
    (AddSymlink (sample_path "/etc/link") (bytes "l1") (mkVirtualPathBytes (bytes "/etc/hosts"))).

Lemma sample_path_wf s : path_wf (sample_path s).
Proof.
  unfold sample_path. destruct (VirtualPath_from_absolute (bytes s)) eqn:E;
    [by eapply from_absolute_wf | apply VirtualPath_root_wf..].
Qed.

Lemma sample_world_wf : mem_wf sample_world.
Proof.
  apply run_memory_op_wf; [| apply sample_path_wf].
  apply run_memory_ops_wf; [apply InMemoryProvider_new_wf | apply sample_ops_wf].
Qed.
