(* ===== verification/Executor.v ===== *)
(** The bounded provider executor (crates/tuxstack-vfs/src/executor.rs).

    Each FUSE thread that calls [execute] takes a token from a channel of
    capacity [max_in_flight], runs the provider future on another runtime, waits
    for its result and sends the token back.  The callers run concurrently: the
    executor is a step relation over the tokens in the channel and the phase of
    every caller.  What the future does is the argument [outcome]. *)

From stdpp Require Import relations.
From S2P Require Import Prelude Error Provider.

Local Open Scope Z_scope.

(** How a spawned future ends: it completes, the timeout elapses and drops it
    part-way, or its task is cancelled (or panics) part-way. *)
Inductive Outcome (W : Type) :=
  | Completed
  | Elapsed (partial : W → W)
  | Cancelled (partial : W → W).
Arguments Completed {W}.
Arguments Elapsed {W}.
Arguments Cancelled {W}.

(** The result [execute] returns for the future [m]. *)
Definition execute {W A} (outcome : Outcome W) (m : prog W A) : prog W A := fun w =>
  match outcome with
  | Completed => m w
  | Elapsed partial => (Err TimedOut, partial w)
  | Cancelled partial => (Err (Unavailable "provider task was cancelled"), partial w)
  end.

(** ** The token pool *)

(** A caller of [execute]: before the token, with the token while the future
    runs, with the token after the result was received, and done. *)
Inductive Phase := Waiting | Running | Received | Done.

#[export] Instance Phase_eq_dec : EqDecision Phase.
Proof. solve_decision. Defined.

Record ProviderExecutor := mkProviderExecutor {
  max_in_flight : Z;
  available : Z;
  timeout : Z;
  callers : gmap nat Phase;
}.

(** [sync_channel(max_in_flight)] filled with [max_in_flight] tokens. *)
Definition ProviderExecutor_new (max_in_flight timeout : Z) : vres ProviderExecutor :=
  if max_in_flight =? 0 then Err (InvalidInput "executor limit must be non-zero")
  else if timeout =? 0 then Err (InvalidInput "operation timeout must be non-zero")
  else
    Ok {| max_in_flight := max_in_flight;
          available := max_in_flight;
          timeout := timeout;
          callers := ∅ |}.

Definition set_caller (e : ProviderExecutor) (c : nat) (p : Phase) : ProviderExecutor :=
  mkProviderExecutor (max_in_flight e) (available e) (timeout e) (<[c := p]> (callers e)).
Definition set_available (e : ProviderExecutor) (n : Z) : ProviderExecutor :=
  mkProviderExecutor (max_in_flight e) n (timeout e) (callers e).

(** [exec_step e e']: one caller makes one step of [execute]. *)
Inductive exec_step (e : ProviderExecutor) : ProviderExecutor → Prop :=
  | exec_call c : callers e !! c = None → exec_step e (set_caller e c Waiting)
  | exec_acquire c :
      (* [self.available.lock()?.recv()?] blocks until the channel has a token *)
      callers e !! c = Some Waiting → 0 < available e →
      exec_step e (set_available (set_caller e c Running) (available e - 1))
  | exec_receive c :
      (* [receiver.recv()], whatever the outcome of the future *)
      callers e !! c = Some Running → exec_step e (set_caller e c Received)
  | exec_return c :
      (* [self.return_token.send(())] blocks while the channel is full *)
      callers e !! c = Some Received → available e < max_in_flight e →
      exec_step e (set_available (set_caller e c Done) (available e + 1)).

(** Callers that hold a token. *)
Definition holds (p : Phase) : bool := match p with Running | Received => true | _ => false end.
Definition in_flight (e : ProviderExecutor) : Z :=
  map_fold (fun _ p n => (if holds p then 1 else 0) + n) 0 (callers e).

Definition exec_wf (e : ProviderExecutor) : Prop :=
  0 < max_in_flight e ∧ 0 ≤ available e ∧ available e + in_flight e = max_in_flight e.

Lemma in_flight_insert_new e c p :
  callers e !! c = None →
  in_flight (set_caller e c p) = (if holds p then 1 else 0) + in_flight e.
Proof.
  intros Hc. unfold in_flight. cbn [set_caller callers].
  rewrite (map_fold_insert_L _ _ c p); [done | | done].
  intros. lia.
Qed.

Lemma in_flight_update e c p q :
  callers e !! c = Some p →
  in_flight (set_caller e c q) = in_flight e - (if holds p then 1 else 0) + (if holds q then 1 else 0).
Proof.
  intros Hc. unfold in_flight. cbn [set_caller callers].
  assert (∃ m, m !! c = None ∧ callers e = <[c := p]> m) as (m & Hm & ->).
  { exists (delete c (callers e)). split; [apply lookup_delete_eq | by rewrite insert_delete_id]. }
  rewrite insert_insert_eq.
  rewrite (map_fold_insert_L _ _ c q), (map_fold_insert_L _ _ c p);
    [lia | intros; lia | done | intros; lia | done].
Qed.

Lemma in_flight_nonneg e : 0 ≤ in_flight e.
Proof.
  unfold in_flight. apply (map_fold_weak_ind (fun n _ => 0 ≤ n)); [done |].
  intros c p m n _ Hn. destruct (holds p); lia.
Qed.

Lemma in_flight_holder e c p : callers e !! c = Some p → holds p = true → 1 ≤ in_flight e.
Proof.
  intros Hc Hp. pose proof (in_flight_update e c p Done Hc) as H. rewrite Hp in H. cbn in H.
  pose proof (in_flight_nonneg (set_caller e c Done)). lia.
Qed.

Lemma ProviderExecutor_new_wf m d e : 0 ≤ m → ProviderExecutor_new m d = Ok e → exec_wf e.
Proof.
  intros Hm. unfold ProviderExecutor_new. destruct (Z.eqb_spec m 0); [done |].
  destruct (d =? 0); [done |]. intros [= <-]. unfold exec_wf, in_flight. cbn.
  rewrite map_fold_empty. lia.
Qed.

Lemma exec_step_wf e e' : exec_wf e → exec_step e e' → exec_wf e' ∧ max_in_flight e' = max_in_flight e.
Proof.
  intros (Hm & Ha & He) [c Hc | c Hc Hpos | c Hc | c Hc Hlt]; split; try done; unfold exec_wf.
  - rewrite in_flight_insert_new by done. cbn. lia.
  - change (in_flight (set_available _ _)) with (in_flight (set_caller e c Running)).
    rewrite (in_flight_update e c Waiting) by done. cbn. lia.
  - rewrite (in_flight_update e c Running) by done. cbn. lia.
  - change (in_flight (set_available _ _)) with (in_flight (set_caller e c Done)).
    rewrite (in_flight_update e c Received) by done. cbn. lia.
Qed.

Lemma exec_steps_wf e e' :
  exec_wf e → rtc exec_step e e' → exec_wf e' ∧ max_in_flight e' = max_in_flight e.
Proof.
  intros Hwf. induction 1 as [|e e1 e2 Hs Hss IH]; [done |].
  destruct (exec_step_wf e e1 Hwf Hs) as [Hwf1 Hm1]. destruct (IH Hwf1). split; [done | congruence].
Qed.

(** ** Properties *)

(** The executor bounds concurrency without losing tokens.  In every
    interleaving of any number of callers, the number of provider operations in
    flight never exceeds the configured limit; the tokens in the channel and
    the callers that hold one add up to the limit; a caller that has received
    its result can always return its token at once (the channel is never full
    then), whatever became of the future; and a caller that waits can proceed
    unless the limit is in use. *)
Theorem executor_bounded (max d : Z) (e0 e : ProviderExecutor) (c : nat) :
  0 ≤ max → ProviderExecutor_new max d = Ok e0 → rtc exec_step e0 e →
  in_flight e ≤ max ∧ available e + in_flight e = max ∧
  (callers e !! c = Some Running → ∃ e', exec_step e e' ∧ callers e' !! c = Some Received) ∧
  (callers e !! c = Some Received → ∃ e', exec_step e e' ∧ callers e' !! c = Some Done) ∧
  (callers e !! c = Some Waiting → in_flight e < max →
   ∃ e', exec_step e e' ∧ callers e' !! c = Some Running).
Proof.
  intros Hm Hnew Hs. pose proof (ProviderExecutor_new_wf max d e0 Hm Hnew) as Hwf0.
  destruct (exec_steps_wf e0 e Hwf0 Hs) as [(Hpos & Ha & He) Hmax].
  assert (max_in_flight e0 = max) as Hmax0.
  { unfold ProviderExecutor_new in Hnew. repeat (case_match; [done |]). by injection Hnew as <-. }
  split_and!; [lia | lia | | |].
  - intros Hc. eexists. split; [by apply exec_receive | apply lookup_insert_eq].
  - intros Hc. pose proof (in_flight_holder e c Received Hc eq_refl).
    eexists. split; [apply exec_return; [done | lia] | apply lookup_insert_eq].
  - intros Hc Hlt. eexists. split; [apply exec_acquire; [done | lia] | apply lookup_insert_eq].
Qed.

(** Witness: a limit of one, in use by caller 0 while caller 1 waits. *)
Lemma executor_bounded_witness :
  ∃ e, rtc exec_step (mkProviderExecutor 1 1 5 ∅) e ∧ callers e !! 1%nat = Some Waiting ∧
       in_flight e ≤ 1 ∧ available e + in_flight e = 1.
Proof.
  set (e0 := mkProviderExecutor 1 1 5 ∅).
  set (e1 := set_caller e0 0 Waiting).
  set (e2 := set_available (set_caller e1 0 Running) (available e1 - 1)).
  set (e3 := set_caller e2 1 Waiting).
  assert (rtc exec_step e0 e3) as Hs.
  { eapply rtc_l; [by apply (exec_call e0 0) |].
    eapply rtc_l; [by apply (exec_acquire e1 0) |].
    eapply rtc_l; [by apply (exec_call e2 1) | apply rtc_refl]. }
  exists e3. split_and!; [exact Hs | vm_compute; reflexivity | |].
  - apply (executor_bounded 1 5 e0 e3 0); [lia | reflexivity | exact Hs].
  - apply (executor_bounded 1 5 e0 e3 0); [lia | reflexivity | exact Hs].
Defined.
