(* ===== verification/Namespace.v ===== *)
(** The dynamic namespace of mounted providers
    (crates/tuxstack-vfs/src/namespace.rs).  It is a client of the provider
    interface and implements it again, over its own state paired with the
    world of the mounted providers.

    A [HashMap] is a [gmap]; the order in which the standard library iterates
    over it is unspecified, so it is a parameter [iter] that lists every entry
    once.  A poisoned lock needs a panic of another thread that holds it and
    is not modelled. *)

From S2P Require Import Prelude Error Path Model Symlink Provider.

Local Open Scope Z_scope.

(** [Iterator::max_by_key]: the last of the greatest elements. *)
Definition max_by_key {A} (f : A → nat) (l : list A) : option A :=
  foldl (fun acc x => match acc with
                      | None => Some x
                      | Some y => if (f y <=? f x)%nat then Some x else Some y
                      end) None l.

Record MountedProvider (P : Type) := mkMountedProvider {
  key : string;
  mounted : P;
}.
Arguments mkMountedProvider {P}.
Arguments key {P}.
Arguments mounted {P}.

Record OpenRoute (P : Type) := mkOpenRoute {
  open_provider : P;
  inner : ProviderFileHandle;
}.
Arguments mkOpenRoute {P}.
Arguments open_provider {P}.
Arguments inner {P}.

Record ResolvedNamespaceProvider (P : Type) := mkResolvedNamespaceProvider {
  resolved_key : string;
  resolved : P;
  mount_path : VirtualPath;
  relative_path : VirtualPath;
}.
Arguments mkResolvedNamespaceProvider {P}.
Arguments resolved_key {P}.
Arguments resolved {P}.
Arguments mount_path {P}.
Arguments relative_path {P}.

Record NamespaceProvider (P : Type) := mkNamespaceProvider {
  mounts : gmap VirtualPath (MountedProvider P);
  aliases : gmap VirtualPath VirtualPathBytes;
  handles : gmap Z (OpenRoute P);
  next_handle : Z;
}.
Arguments mkNamespaceProvider {P}.
Arguments mounts {P}.
Arguments aliases {P}.
Arguments handles {P}.
Arguments next_handle {P}.

(** How a [HashMap] is iterated: each entry once, in some order. *)
Class HashIter := {
  iter {A} : gmap VirtualPath A → list (VirtualPath * A);
  iter_perm {A} (m : gmap VirtualPath A) : iter m ≡ₚ map_to_list m;
}.

(** The map that [read_dir] collects. *)
Abbreviation Children := (gmap VirtualFileName VirtualMetadata).

Section namespace.
Context {W P : Type} {FF : FuserFlags} {RP : ReadOnlyFilesystemProvider W P} {HI : HashIter}.
Implicit Types (self : NamespaceProvider P) (path : VirtualPath) (ctx : RequestContext).

(** Programs of the namespace: its own state and the providers' world. *)
Abbreviation nsprog := (prog (NamespaceProvider P * W)).

Definition NamespaceProvider_new : NamespaceProvider P :=
  {| mounts := ∅; aliases := ∅; handles := ∅; next_handle := 1 |}.

Definition ns_mount self path (key : string) (provider : P) : vres () * NamespaceProvider P :=
  if VirtualPath_is_root path then (Err (InvalidInput "namespace root cannot be replaced"), self)
  else
    (Ok tt, mkNamespaceProvider (<[path := mkMountedProvider key provider]> (mounts self))
              (aliases self) (handles self) (next_handle self)).

Definition ns_alias self path (target : VirtualPathBytes) : vres () * NamespaceProvider P :=
  if VirtualPath_is_root path || negb (VirtualPathBytes_is_absolute target)
  then (Err (InvalidInput "namespace alias must be absolute and non-root"), self)
  else
    (Ok tt, mkNamespaceProvider (mounts self) (<[path := target]> (aliases self))
              (handles self) (next_handle self)).

Definition ns_unmount self path : vres () * NamespaceProvider P :=
  (Ok tt, mkNamespaceProvider (delete path (mounts self))
            (filter (fun e => VirtualPath_starts_with e.1 path = false) (aliases self))
            (handles self) (next_handle self)).

Definition ns_clear self : vres () * NamespaceProvider P :=
  (Ok tt, mkNamespaceProvider ∅ ∅ (handles self) (next_handle self)).

Definition provider_at self path : vres (option (ResolvedNamespaceProvider P)) :=
  match max_by_key (fun e => VirtualPath_depth e.1)
          (List.filter (fun e => VirtualPath_starts_with path e.1) (iter (mounts self))) with
  | None => Ok None
  | Some (pre, m) =>
      relative ← VirtualPath_strip_prefix path pre;
      Ok (option_map (fun relative_path =>
            {| resolved_key := key m;
               resolved := mounted m;
               mount_path := pre;
               relative_path := relative_path |}) relative)
  end.

(** Mode 0o555. *)
Definition synthetic_metadata path : VirtualMetadata :=
  let metadata := VirtualMetadata_directory (VirtualPath_as_bytes path) in
  {| node_id := node_id metadata;
     file_type := file_type metadata;
     size := size metadata;
     nlink := nlink metadata;
     mtime := mtime metadata;
     original := mkOriginalMetadata 365 (orig_uid (original metadata)) (orig_gid (original metadata));
     device_id := device_id metadata;
     generation := generation metadata |}.

Definition alias_metadata path (target : VirtualPathBytes) : VirtualMetadata :=
  VirtualMetadata_symlink (VirtualPath_as_bytes path) (len (VirtualPathBytes_as_bytes target)).

Definition is_synthetic_directory self path : bool :=
  if VirtualPath_is_root path then true
  else existsb (fun e => VirtualPath_starts_with e.1 path && negb (bool_decide (e.1 = path)))
         (iter (mounts self)).

Definition alias_for self path : option VirtualPathBytes := aliases self !! path.

Definition ns_metadata path ctx : nsprog VirtualMetadata :=
  alias ← asks (fun self => Ok (alias_for self path));
  match alias with
  | Some target => mret (alias_metadata path target)
  | None =>
      route ← asks (fun self => provider_at self path);
      match route with
      | Some route => call (p_getattr (resolved route) (relative_path route) ctx)
      | None =>
          synthetic ← asks (fun self => Ok (is_synthetic_directory self path));
          if (synthetic : bool) then mret (synthetic_metadata path) else throw NotFound
      end
  end.

Definition ns_lookup (parent : VirtualPath) (name : VirtualFileName) ctx : nsprog VirtualMetadata :=
  path ← lift (VirtualPath_join parent name);
  ns_metadata path ctx.

Definition ns_getattr path ctx : nsprog VirtualMetadata := ns_metadata path ctx.

(** The loop over the mounts of [read_dir]. *)
Fixpoint mounts_loop path ctx (ms : list (VirtualPath * MountedProvider P)) (children : Children)
  : nsprog Children :=
  match ms with
  | [] => mret children
  | (mount, m) :: ms =>
      parent ← lift (VirtualPath_parent mount);
      if bool_decide (parent = Some path) then
        name ← lift (ok_or (InvalidInput "mount has no name") (VirtualPath_file_name mount));
        metadata ← call (p_getattr (mounted m) VirtualPath_root ctx);
        mounts_loop path ctx ms (<[name := metadata]> children)
      else if VirtualPath_starts_with mount path && (VirtualPath_depth path <? VirtualPath_depth mount)%nat
      then
        child ← lift (match components mount !! VirtualPath_depth path with
                      | Some c => Ok c
                      | None => Panic "index out of bounds"
                      end);
        child_path ← lift (VirtualPath_join path child);
        mounts_loop path ctx ms
          (match children !! child with
           | Some _ => children
           | None => <[child := synthetic_metadata child_path]> children
           end)
      else mounts_loop path ctx ms children
  end.

(** The loop over the aliases of [read_dir]. *)
Fixpoint aliases_loop path (als : list (VirtualPath * VirtualPathBytes)) (children : Children)
  : vres Children :=
  match als with
  | [] => Ok children
  | (alias_path, target) :: als =>
      parent ← VirtualPath_parent alias_path;
      if bool_decide (parent = Some path) then
        name ← ok_or (InvalidInput "alias has no name") (VirtualPath_file_name alias_path);
        aliases_loop path als (<[name := alias_metadata alias_path target]> children)
      else aliases_loop path als children
  end.

(** [BTreeMap::into_iter]: in the order of the keys. *)
Definition children_entries (children : Children) : list VirtualDirectoryEntry :=
  sort_by entry_cmp ((fun e => mkVirtualDirectoryEntry e.1 e.2) <$> map_to_list children).

Definition ns_read_dir path ctx : nsprog (list VirtualDirectoryEntry) :=
  route ← asks (fun self => provider_at self path);
  match route with
  | Some route => call (p_read_dir (resolved route) (relative_path route) ctx)
  | None =>
      synthetic ← asks (fun self => Ok (is_synthetic_directory self path));
      if negb (synthetic : bool) then throw NotDirectory
      else
        ms ← asks (fun self => Ok (mounts self));
        als ← asks (fun self => Ok (aliases self));
        children ← mounts_loop path ctx (iter ms) ∅;
        children ← lift (aliases_loop path (iter als) children);
        mret (children_entries children)
  end.

Definition ns_read_link path ctx : nsprog VirtualPathBytes :=
  alias ← asks (fun self => Ok (alias_for self path));
  match alias with
  | Some target => mret target
  | None =>
      route ← asks (fun self => provider_at self path);
      match route with
      | None => throw (InvalidInput "node is not a symlink")
      | Some route =>
          target ← call (p_read_link (resolved route) (relative_path route) ctx);
          if negb (VirtualPathBytes_is_absolute target) then mret target
          else
            provider_target ← lift (VirtualPath_from_absolute (VirtualPathBytes_as_bytes target));
            anchored ← lift (VirtualPath_from_components
                               (components (mount_path route) ++ components provider_target));
            lift (VirtualPathBytes_new (VirtualPath_as_bytes anchored))
      end
  end.

Definition ns_open path (flags : Z) ctx : nsprog ProviderFileHandle :=
  route ← asks (fun self => provider_at self path);
  match route with
  | None =>
      synthetic ← asks (fun self => Ok (is_synthetic_directory self path));
      throw (if (synthetic : bool) then IsDirectory else NotFound)
  | Some route =>
      inner ← call (p_open (resolved route) (relative_path route) flags ctx);
      modify (fun self =>
        let id := next_handle self in
        (Ok (mkProviderFileHandle id path (content_generation inner)),
         mkNamespaceProvider (mounts self) (aliases self)
           (<[id := mkOpenRoute (resolved route) inner]> (handles self))
           (wrapping_add 64 id 1)))
  end.

Definition ns_read_at (handle : ProviderFileHandle) (offset count : Z) ctx : nsprog (list byte) :=
  route ← asks (fun self => ok_or BadHandle (handles self !! handle_id handle));
  call (p_read_at (open_provider route) (inner route) offset count ctx).

Definition ns_close (handle : ProviderFileHandle) : nsprog () :=
  route ← modify (fun self =>
             (ok_or BadHandle (handles self !! handle_id handle),
              mkNamespaceProvider (mounts self) (aliases self)
                (delete (handle_id handle) (handles self)) (next_handle self)));
  call (p_close (open_provider route) (inner route)).

(** [for provider in providers { provider.refresh(None).await?; }] *)
Fixpoint refresh_all (ps : list P) : nsprog () :=
  match ps with
  | [] => mret tt
  | p :: ps => _ ← call (p_refresh p None); refresh_all ps
  end.

Definition ns_refresh (path : option VirtualPath) : nsprog () :=
  route ← asks (fun self =>
    match path with Some path => provider_at self path | None => Ok None end);
  match route with
  | Some route => call (p_refresh (resolved route) (Some (relative_path route)))
  | None =>
      ps ← asks (fun self => Ok ((fun e => mounted e.2) <$> iter (mounts self)));
      refresh_all ps
  end.

Definition ns_descriptor : ProviderDescriptor :=
  {| kind := InMemory;
     consistency := Live;
     source := Some "tuxstackd namespace";
     capabilities := Capabilities.READ_ONLY |}.

#[export] Instance namespace_provider :
  ReadOnlyFilesystemProvider (NamespaceProvider P * W) () := {
  p_descriptor _ _ := ns_descriptor;
  p_lookup _ := ns_lookup;
  p_getattr _ := ns_getattr;
  p_read_dir _ := ns_read_dir;
  p_read_link _ := ns_read_link;
  p_open _ := ns_open;
  p_read_at _ := ns_read_at;
  p_close _ := ns_close;
  p_refresh _ := ns_refresh;
}.

(** ** Selection of the deepest mount *)
Lemma max_by_key_None {A} (f : A → nat) l : max_by_key f l = None → l = [].
Proof.
  unfold max_by_key.
  assert (∀ l x, foldl (fun acc x => match acc with
                      | None => Some x
                      | Some y => if (f y <=? f x)%nat then Some x else Some y
                      end) (Some x) l ≠ None) as H.
  { clear l. induction l as [|a l IH]; intros x; cbn; [done |]. by case_match. }
  destruct l as [|a l]; cbn; [done |]. by intros ?%H.
Qed.

Lemma max_by_key_Some {A} (f : A → nat) l x :
  max_by_key f l = Some x → x ∈ l ∧ ∀ y, y ∈ l → (f y ≤ f x)%nat.
Proof.
  unfold max_by_key.
  assert (∀ l z, foldl (fun acc x => match acc with
                      | None => Some x
                      | Some y => if (f y <=? f x)%nat then Some x else Some y
                      end) (Some z) l = Some x →
                 x ∈ z :: l ∧ ∀ y, y ∈ z :: l → (f y ≤ f x)%nat) as H.
  { clear l. induction l as [|a l IH]; intros z; cbn.
    - intros [= ->]. set_solver.
    - destruct (Nat.leb_spec (f z) (f a)) as [Hle|Hgt]; intros [Hin Hmax]%IH.
      + split; [set_solver |]. intros y [->|Hy]%elem_of_cons; [| by apply Hmax].
        pose proof (Hmax a). specialize (Hmax a). etrans; [exact Hle |]. apply Hmax. set_solver.
      + split; [set_solver |]. intros y [->|[->|Hy]%elem_of_cons]%elem_of_cons.
        * apply Hmax. set_solver.
        * assert (f z ≤ f x)%nat by (apply Hmax; set_solver). lia.
        * apply Hmax. set_solver. }
  destruct l as [|a l]; cbn; [done |]. apply H.
Qed.

(** What the operations keep: mounts and aliases sit at well-formed paths below
    the root, and alias targets are absolute. *)
Record ns_wf self : Prop := {
  ns_mounts p m : mounts self !! p = Some m → path_wf p ∧ VirtualPath_is_root p = false;
  ns_aliases p t : aliases self !! p = Some t →
    path_wf p ∧ VirtualPath_is_root p = false ∧ VirtualPathBytes_is_absolute t = true;
}.

Lemma NamespaceProvider_new_wf : ns_wf NamespaceProvider_new.
Proof. split; cbn; intros p ?; by rewrite lookup_empty. Qed.

Lemma ns_mount_wf self path k p : ns_wf self → path_wf path → ns_wf (ns_mount self path k p).2.
Proof.
  intros [Hm Ha] Hp. unfold ns_mount. destruct (VirtualPath_is_root path) eqn:E; [done |].
  split; cbn [snd mounts aliases]; [| done].
  by intros q m [[<- <-] | [? ?%Hm]]%lookup_insert_Some.
Qed.

Lemma ns_alias_wf self path t : ns_wf self → path_wf path → ns_wf (ns_alias self path t).2.
Proof.
  intros [Hm Ha] Hp. unfold ns_alias. destruct (VirtualPath_is_root path) eqn:E; [done |].
  destruct (VirtualPathBytes_is_absolute t) eqn:Et; [| done]. cbn [negb orb].
  split; cbn [snd mounts aliases]; [done |].
  by intros q u [[<- <-] | [? ?%Ha]]%lookup_insert_Some.
Qed.

Lemma ns_unmount_wf self path : ns_wf self → ns_wf (ns_unmount self path).2.
Proof.
  intros [Hm Ha]. split; cbn [ns_unmount snd mounts aliases].
  - by intros q m [_ ?%Hm]%lookup_delete_Some.
  - by intros q t [?%Ha _]%map_lookup_filter_Some.
Qed.

Lemma iter_lookup {A} (m : gmap VirtualPath A) p a : (p, a) ∈ iter m ↔ m !! p = Some a.
Proof. by rewrite iter_perm, elem_of_map_to_list. Qed.

Lemma iter_NoDup {A} (m : gmap VirtualPath A) : NoDup ((iter m).*1).
Proof. rewrite iter_perm. apply NoDup_fst_map_to_list. Qed.

Lemma provider_at_spec self path :
  path_wf path →
  (∃ pre m rest,
     mounts self !! pre = Some m ∧ components path = components pre ++ rest ∧
     (∀ pre', is_Some (mounts self !! pre') → VirtualPath_starts_with path pre' = true →
              (VirtualPath_depth pre' ≤ VirtualPath_depth pre)%nat) ∧
     provider_at self path =
       Ok (Some (mkResolvedNamespaceProvider (key m) (mounted m) pre
                   (mkVirtualPath rest (path_len rest)))))
  ∨ ((∀ pre, is_Some (mounts self !! pre) → VirtualPath_starts_with path pre = false) ∧
     provider_at self path = Ok None).
Proof.
  intros Hp. unfold provider_at.
  assert (∀ q m, (q, m) ∈ List.filter (fun e => VirtualPath_starts_with path e.1) (iter (mounts self)) ↔
                 mounts self !! q = Some m ∧ VirtualPath_starts_with path q = true) as Hin.
  { intros q m. rewrite list_elem_of_In, filter_In, <- list_elem_of_In, iter_lookup. done. }
  destruct (max_by_key _ _) as [[pre m]|] eqn:Emax.
  - left. apply max_by_key_Some in Emax as [Hpre Hmax].
    apply Hin in Hpre as [Hm Hs]. destruct (proj1 (VirtualPath_starts_with_spec _ _) Hs) as [rest Hrest].
    exists pre, m, rest. split_and!; [done | done | |].
    + intros pre' [m' Hm'] Hs'. apply (Hmax (pre', m')). by apply Hin.
    + by destruct (VirtualPath_strip_prefix_app path pre rest Hp Hrest) as [-> _].
  - right. split; [| done]. apply max_by_key_None in Emax. intros pre [m Hm].
    destruct (VirtualPath_starts_with path pre) eqn:Es; [| done].
    assert ((pre, m) ∈ @nil (VirtualPath * MountedProvider P)); [| set_solver].
    rewrite <- Emax. by apply Hin.
Qed.

(** ** The synthetic listing *)

(** A mount strictly below the child [name] of [path]. *)
Definition below path (name : VirtualFileName) (mount : VirtualPath) : Prop :=
  ∃ rest, rest ≠ [] ∧ components mount = components path ++ name :: rest.

Definition child_path path (name : VirtualFileName) : VirtualPath :=
  mkVirtualPath (components path ++ [name]) (path_len (components path ++ [name])).

Lemma join_child path name q : VirtualPath_join path name = Ok q → q = child_path path name.
Proof. by intros [-> _]%from_components_Ok. Qed.

Lemma below_join path name mount :
  path_wf mount → below path name mount → VirtualPath_join path name = Ok (child_path path name).
Proof.
  intros (_ & Hl & Hm) (rest & _ & Hc). apply from_components_Ok. split; [done |].
  rewrite Hl, Hc in Hm. pose proof (path_len_app_l (components path ++ [name]) rest) as H.
  rewrite <- app_assoc in H. cbn in H. lia.
Qed.

(** The three cases of one mount in the loop of [read_dir]. *)
Lemma mount_cases path mount :
  path_wf path → path_wf mount →
  (∃ name, VirtualPath_parent mount = Ok (Some path) ∧ VirtualPath_file_name mount = Some name ∧
           VirtualPath_join path name = Ok mount ∧ ∀ n, ¬ below path n mount) ∨
  (∃ parent child, VirtualPath_parent mount = Ok parent ∧ parent ≠ Some path ∧
     VirtualPath_starts_with mount path = true ∧
     (VirtualPath_depth path <? VirtualPath_depth mount)%nat = true ∧
     components mount !! VirtualPath_depth path = Some child ∧
     below path child mount ∧ (∀ n, below path n mount → n = child) ∧
     (∀ n, VirtualPath_join path n ≠ Ok mount)) ∨
  (∃ parent, VirtualPath_parent mount = Ok parent ∧ parent ≠ Some path ∧
     VirtualPath_starts_with mount path && (VirtualPath_depth path <? VirtualPath_depth mount)%nat = false ∧
     (∀ n, ¬ below path n mount) ∧ (∀ n, VirtualPath_join path n ≠ Ok mount)).
Proof.
  intros Hp Hq. assert (∃ parent, VirtualPath_parent mount = Ok parent) as [parent Hpar].
  { destruct (components mount) as [|c cs _] eqn:E using rev_ind.
    - by rewrite VirtualPath_parent_root; eauto.
    - destruct (VirtualPath_parent_snoc mount cs c Hq E) as [-> _]. eauto. }
  assert (∀ n rest, components mount = components path ++ n :: rest →
                    components mount !! VirtualPath_depth path = Some n) as Hnth.
  { intros n rest ->. apply list_lookup_middle. done. }
  destruct (VirtualPath_starts_with mount path && (VirtualPath_depth path <? VirtualPath_depth mount)%nat)
    eqn:Eb.
  2: { right. right. exists parent.
       assert (∀ n rest, components mount ≠ components path ++ n :: rest) as Hno.
       { intros n rest E. apply not_true_iff_false in Eb. apply Eb. apply andb_true_iff.
         rewrite VirtualPath_starts_with_spec. split; [eauto |]. apply Nat.ltb_lt.
         unfold VirtualPath_depth. rewrite E, length_app. cbn. lia. }
       assert (∀ n, VirtualPath_join path n ≠ Ok mount) as Hj.
       { intros n ->%join_child. by eapply Hno. }
       split_and!; [done | | done | intros n (rest & _ & E); by eapply Hno | done].
       intros ->. destruct (VirtualPath_file_name mount) as [n|] eqn:En.
       - apply (Hj n). by apply parent_of_join.
       - unfold VirtualPath_file_name in En. apply last_None in En.
         by rewrite VirtualPath_parent_root in Hpar. }
  apply andb_true_iff in Eb as [[cs Hc]%VirtualPath_starts_with_spec Hd%Nat.ltb_lt].
  unfold VirtualPath_depth in Hd. rewrite Hc, length_app in Hd.
  destruct cs as [|n rest]; [cbn in Hd; lia |]. destruct rest as [|n' rest].
  - left. exists n.
    assert (VirtualPath_join path n = Ok mount) as Hj.
    { apply from_components_Ok. rewrite <- Hc. destruct Hq as (_ & Hl & Hm).
      split; [destruct mount; cbn in *; by f_equal | lia]. }
    pose proof (proj2 (parent_of_join path mount n Hp Hq) Hj) as [? ?]. split_and!; [done.. |].
    intros n2 (rest & Hr & E). rewrite Hc in E. apply app_inv_head in E. by destruct rest.
  - right. left. exists parent, n.
    assert (∀ n, VirtualPath_join path n ≠ Ok mount) as Hj.
    { intros n2 E%join_child. rewrite E in Hc. cbn in Hc. apply app_inv_head in Hc. done. }
    split_and!; [done | | | | | | | done].
    + intros ->. destruct (VirtualPath_file_name mount) as [n2|] eqn:En.
      * apply (Hj n2). by apply parent_of_join.
      * unfold VirtualPath_file_name in En. apply last_None in En.
        by rewrite VirtualPath_parent_root in Hpar.
    + apply VirtualPath_starts_with_spec. eauto.
    + apply Nat.ltb_lt. unfold VirtualPath_depth. rewrite Hc, length_app. cbn. lia.
    + by eapply Hnth.
    + by exists (n' :: rest).
    + intros n2 (rest2 & _ & E). apply Hnth in E. rewrite (Hnth _ _ Hc) in E. congruence.
Qed.

(** Every mounted provider answers [getattr] of its root without changing the world. *)
Definition roots_answer (ms : gmap VirtualPath (MountedProvider P)) ctx (w : W)
  (md : P → VirtualMetadata) : Prop :=
  ∀ q m, ms !! q = Some m → p_getattr (mounted m) VirtualPath_root ctx w = (Ok (md (mounted m)), w).

(** What the loop over [ms] makes of the children [c]: a mount at the child
    itself wins, then what was there, then a synthetic directory for a mount
    below. *)
Record children_of path (md : P → VirtualMetadata) (ms : list (VirtualPath * MountedProvider P))
  (c c' : Children) (name : VirtualFileName) : Prop := {
  child_direct q m : (q, m) ∈ ms → VirtualPath_join path name = Ok q → c' !! name = Some (md (mounted m));
  child_kept x : (∀ q m, (q, m) ∈ ms → VirtualPath_join path name ≠ Ok q) →
    c !! name = Some x → c' !! name = Some x;
  child_synthetic q m : (∀ q m, (q, m) ∈ ms → VirtualPath_join path name ≠ Ok q) →
    c !! name = None → (q, m) ∈ ms → below path name q →
    c' !! name = Some (synthetic_metadata (child_path path name));
  child_absent : (∀ q m, (q, m) ∈ ms → VirtualPath_join path name ≠ Ok q) →
    c !! name = None → (∀ q m, (q, m) ∈ ms → ¬ below path name q) → c' !! name = None;
}.

Lemma children_of_direct path md mount m ms c c' n name :
  VirtualPath_join path n = Ok mount → (∀ n, ¬ below path n mount) → mount ∉ ms.*1 →
  children_of path md ms (<[n := md (mounted m)]> c) c' name →
  children_of path md ((mount, m) :: ms) c c' name.
Proof.
  intros Hj Hnb Hni [Hd Hk Hs Ha].
  assert (∀ x, VirtualPath_join path x = Ok mount → x = n) as Hinj.
  { intros x Hx. apply join_child in Hx, Hj. rewrite Hx in Hj. injection Hj as Hj _.
    by apply app_inj_2 in Hj as [_ [= ->]]. }
  assert (∀ q m', (q, m') ∈ ms → q ≠ mount) as Hnm.
  { intros q m' Hin ->. apply Hni. apply list_elem_of_fmap. by exists (mount, m'). }
  split.
  - intros q m' [[= -> ->]|Hin]%elem_of_cons Hjq; [| by eapply Hd].
    apply Hinj in Hjq as ->. apply Hk; [| apply lookup_insert_eq].
    intros q' m2 Hin E. rewrite Hj in E. injection E as <-. by apply Hnm in Hin.
  - intros x Hno Hx. apply Hk; [intros q m' Hin; eapply Hno; by right |].
    rewrite lookup_insert_ne; [done |]. intros ->. eapply Hno; [left | done].
  - intros q m' Hno Hn [[= -> ->]|Hin]%elem_of_cons Hb; [by apply Hnb in Hb |].
    eapply Hs; [intros q' m2 Hin'; eapply Hno; by right | | done..].
    rewrite lookup_insert_ne; [done |]. intros ->. eapply Hno; [left | done].
  - intros Hno Hn Hall. apply Ha; [intros q' m2 Hin'; eapply Hno; by right | |].
    + rewrite lookup_insert_ne; [done |]. intros ->. eapply Hno; [left | done].
    + intros q m' Hin. eapply Hall. by right.
Qed.

Lemma children_of_nested path md mount m ms c c' ch name :
  below path ch mount → (∀ n, below path n mount → n = ch) →
  (∀ n, VirtualPath_join path n ≠ Ok mount) →
  children_of path md ms
    (match c !! ch with
     | Some _ => c
     | None => <[ch := synthetic_metadata (child_path path ch)]> c
     end) c' name →
  children_of path md ((mount, m) :: ms) c c' name.
Proof.
  intros Hb Hbu Hnj [Hd Hk Hs Ha]. set (c1 := match c !! ch with Some _ => c | None => _ end) in *.
  assert (∀ x, x ≠ ch → c1 !! x = c !! x) as Hoth.
  { intros x Hx. unfold c1. destruct (c !! ch); [done | by rewrite lookup_insert_ne]. }
  split.
  - intros q m' [[= -> ->]|Hin]%elem_of_cons Hjq; [by apply Hnj in Hjq | by eapply Hd].
  - intros x Hno Hx. apply Hk; [intros q m' Hin; eapply Hno; by right |].
    destruct (decide (name = ch)) as [->|]; [unfold c1; by rewrite Hx | by rewrite Hoth].
  - intros q m' Hno Hn Hin Hbq. destruct (decide (name = ch)) as [->|Hne].
    + apply Hk; [intros q' m2 Hin'; eapply Hno; by right |].
      unfold c1. rewrite Hn. apply lookup_insert_eq.
    + apply elem_of_cons in Hin as [[= -> ->]|Hin]; [by apply Hbu in Hbq |].
      eapply Hs; [intros q' m2 Hin'; eapply Hno; by right | by rewrite Hoth | done..].
  - intros Hno Hn Hall. apply Ha; [intros q' m2 Hin'; eapply Hno; by right | |].
    + rewrite Hoth; [done |]. intros ->. eapply Hall; [left | done].
    + intros q m' Hin. eapply Hall. by right.
Qed.

Lemma children_of_skip path md mount m ms c c' name :
  (∀ n, ¬ below path n mount) → (∀ n, VirtualPath_join path n ≠ Ok mount) →
  children_of path md ms c c' name → children_of path md ((mount, m) :: ms) c c' name.
Proof.
  intros Hnb Hnj [Hd Hk Hs Ha]. split.
  - intros q m' [[= -> ->]|Hin]%elem_of_cons Hjq; [by apply Hnj in Hjq | by eapply Hd].
  - intros x Hno Hx. apply Hk; [| done]. intros q m' Hin. eapply Hno. by right.
  - intros q m' Hno Hn [[= -> ->]|Hin]%elem_of_cons Hb; [by apply Hnb in Hb |].
    eapply Hs; [| done..]. intros q' m2 Hin'. eapply Hno. by right.
  - intros Hno Hn Hall. apply Ha; [| done |]; intros q m' Hin; [eapply Hno | eapply Hall]; by right.
Qed.

Lemma mounts_loop_spec self path ctx w md ms c :
  path_wf path → NoDup (ms.*1) →
  (∀ q m, (q, m) ∈ ms → path_wf q) →
  (∀ q m, (q, m) ∈ ms → p_getattr (mounted m) VirtualPath_root ctx w = (Ok (md (mounted m)), w)) →
  ∃ c', mounts_loop path ctx ms c (self, w) = (Ok c', (self, w)) ∧
        ∀ name, children_of path md ms c c' name.
Proof.
  intros Hp. revert c. induction ms as [|[mount m] ms IH]; intros c Hnd Hwf Hroot.
  { exists c. split; [done |]. intros name. split; set_solver. }
  cbn in Hnd. apply list.NoDup_cons in Hnd as [Hni Hnd].
  assert (path_wf mount) as Hq by (eapply Hwf; left).
  specialize (fun c => IH c Hnd (fun q m H => Hwf q m ltac:(by right))
                         (fun q m H => Hroot q m ltac:(by right))).
  cbn [mounts_loop].
  destruct (mount_cases path mount Hp Hq)
    as [(n & -> & -> & Hj & Hnb) | [(parent & ch & -> & Hne & -> & -> & -> & Hb & Hbu & Hnj)
       | (parent & -> & Hne & -> & Hnb & Hnj)]];
    rewrite bind_lift_Ok.
  - rewrite bool_decide_eq_true_2 by done. cbn [ok_or]. rewrite bind_lift_Ok.
    erewrite bind_call_Ok by (apply Hroot with (q := mount); left).
    destruct (IH (<[n := md (mounted m)]> c)) as (c' & Hc' & Hspec). exists c'. split; [done |].
    intros name. by eapply children_of_direct.
  - rewrite bool_decide_eq_false_2 by done. cbn [andb].
    rewrite bind_lift_Ok, (below_join path ch mount Hq Hb), bind_lift_Ok.
    destruct (IH (match c !! ch with
                  | Some _ => c
                  | None => <[ch := synthetic_metadata (child_path path ch)]> c
                  end)) as (c' & Hc' & Hspec). exists c'. split; [done |].
    intros name. by eapply children_of_nested.
  - rewrite bool_decide_eq_false_2 by done.
    destruct (IH c) as (c' & Hc' & Hspec). exists c'. split; [done |].
    intros name. by eapply children_of_skip.
Qed.

Lemma aliases_loop_spec path (als : list (VirtualPath * VirtualPathBytes)) c :
  path_wf path → NoDup (als.*1) → (∀ q t, (q, t) ∈ als → path_wf q) →
  ∃ c', aliases_loop path als c = Ok c' ∧
    ∀ name,
      (∀ q t, (q, t) ∈ als → VirtualPath_join path name = Ok q → c' !! name = Some (alias_metadata q t)) ∧
      ((∀ q t, (q, t) ∈ als → VirtualPath_join path name ≠ Ok q) → c' !! name = c !! name).
Proof.
  intros Hp. revert c. induction als as [|[a t] als IH]; intros c Hnd Hwf.
  { exists c. split; [done |]. intros name. set_solver. }
  cbn in Hnd. apply list.NoDup_cons in Hnd as [Hni Hnd].
  assert (path_wf a) as Ha by (eapply Hwf; left).
  specialize (fun c => IH c Hnd (fun q t H => Hwf q t ltac:(by right))).
  assert (∀ q t', (q, t') ∈ als → q ≠ a) as Hnm.
  { intros q t' Hin ->. apply Hni. apply list_elem_of_fmap. by exists (a, t'). }
  cbn [aliases_loop].
  destruct (mount_cases path a Hp Ha)
    as [(n & -> & -> & Hj & _) | [(parent & ch & -> & Hne & _ & _ & _ & _ & _ & Hnj)
       | (parent & -> & Hne & _ & _ & Hnj)]]; cbn [mbind result_bind].
  - rewrite bool_decide_eq_true_2 by done. cbn [ok_or mbind result_bind].
    destruct (IH (<[n := alias_metadata a t]> c)) as (c' & -> & Hspec). exists c'. split; [done |].
    intros name. destruct (Hspec name) as [H1 H2]. split.
    + intros q t' [[= -> ->]|Hin]%elem_of_cons Hjq; [| by eapply H1].
      assert (name = n) as ->.
      { apply join_child in Hjq, Hj. rewrite Hjq in Hj. injection Hj as Hj _.
        by apply app_inj_2 in Hj as [_ [= ->]]. }
      rewrite H2; [apply lookup_insert_eq |]. intros q' t2 Hin E. rewrite Hj in E. injection E as <-.
      by apply Hnm in Hin.
    + intros Hno. rewrite H2 by (intros q' t2 Hin; eapply Hno; by right).
      rewrite lookup_insert_ne; [done |]. intros ->. eapply Hno; [left | done].
  - rewrite bool_decide_eq_false_2 by done. destruct (IH c) as (c' & -> & Hspec).
    exists c'. split; [done |]. intros name. destruct (Hspec name) as [H1 H2].
    split; [| intros Hno; apply H2; intros q' t2 Hin; eapply Hno; by right].
    intros q t' [[= -> ->]|Hin]%elem_of_cons Hjq; [by apply Hnj in Hjq | by eapply H1].
  - rewrite bool_decide_eq_false_2 by done. destruct (IH c) as (c' & -> & Hspec).
    exists c'. split; [done |]. intros name. destruct (Hspec name) as [H1 H2].
    split; [| intros Hno; apply H2; intros q' t2 Hin; eapply Hno; by right].
    intros q t' [[= -> ->]|Hin]%elem_of_cons Hjq; [by apply Hnj in Hjq | by eapply H1].
Qed.

Lemma children_entries_spec (c : Children) :
  StronglySorted (fun x y => entry_cmp x y = Lt) (children_entries c) ∧
  ∀ e, e ∈ children_entries c ↔ c !! entry_name e = Some (entry_metadata e).
Proof.
  unfold children_entries. split.
  - apply (sorted_strict _ entry_name).
    + intros a b H%bytes_cmp_eq. destruct a as [[] ?], b as [[] ?]; cbn in *. by subst.
    + rewrite (sort_by_perm entry_cmp), <- list_fmap_compose. apply NoDup_fst_map_to_list.
    + apply sort_by_sorted. unfold entry_cmp. apply _.
  - intros e. rewrite (sort_by_perm entry_cmp), list_elem_of_fmap. split.
    + intros ([n md] & -> & Hin). by apply elem_of_map_to_list in Hin.
    + intros H%elem_of_map_to_list. exists (entry_name e, entry_metadata e). split; [by destruct e | done].
Qed.

(** ** Lookups below a directory of the namespace itself *)
Section synthetic_directory.
Context (self : NamespaceProvider P) (path : VirtualPath) (ctx : RequestContext) (w : W).
Context (Hwf : ns_wf self) (Hp : path_wf path).
Context (Hnone : ∀ pre, is_Some (mounts self !! pre) → VirtualPath_starts_with path pre = false).

(** A mount that covers the child is at the child. *)
Lemma covering_child pre m rest name :
  mounts self !! pre = Some m → components path ++ [name] = components pre ++ rest →
  path_wf (child_path path name) → rest = [] ∧ pre = child_path path name.
Proof.
  intros Hm Hc Hcw. destruct rest as [|r rest _] using rev_ind.
  - split; [done |]. rewrite app_nil_r in Hc. apply path_wf_eq; [by eapply ns_mounts | done |].
    by rewrite <- Hc.
  - exfalso. rewrite app_assoc in Hc. apply app_inj_2 in Hc as [Hc _]; [| done].
    assert (VirtualPath_starts_with path pre = true) as Hs by (apply VirtualPath_starts_with_spec; eauto).
    rewrite Hnone in Hs; [done |]. by rewrite Hm.
Qed.

Lemma provider_at_child name :
  path_wf (child_path path name) →
  provider_at self (child_path path name) =
  Ok (match mounts self !! child_path path name with
      | Some m => Some (mkResolvedNamespaceProvider (key m) (mounted m) (child_path path name)
                          VirtualPath_root)
      | None => None
      end).
Proof.
  intros Hcw.
  destruct (provider_at_spec self _ Hcw) as [(pre & m & rest & Hm & Hc & _ & ->) | [Hno ->]].
  - destruct (covering_child pre m rest name Hm Hc Hcw) as [-> ->]. by rewrite Hm.
  - destruct (mounts self !! child_path path name) as [m|] eqn:E; [| done].
    assert (VirtualPath_starts_with (child_path path name) (child_path path name) = true) as Hs.
    { apply VirtualPath_starts_with_spec. exists []. by rewrite app_nil_r. }
    rewrite Hno in Hs; [done |]. by rewrite E.
Qed.

Lemma synthetic_child name :
  path_wf (child_path path name) →
  is_synthetic_directory self (child_path path name) = true ↔
  ∃ q m, mounts self !! q = Some m ∧ below path name q.
Proof.
  intros Hcw. unfold is_synthetic_directory.
  assert (VirtualPath_is_root (child_path path name) = false) as ->.
  { apply is_empty_false. cbn. by destruct (components path). }
  rewrite existsb_exists. setoid_rewrite <- list_elem_of_In. split.
  - intros ([q m] & Hin%iter_lookup & Hb). apply andb_true_iff in Hb as [Hs Hne].
    cbn [fst] in *. apply VirtualPath_starts_with_spec in Hs as [rest Hc]. cbn in Hc.
    rewrite <- app_assoc in Hc. exists q, m. split; [done |]. exists rest. split; [| done].
    intros ->. apply negb_true_iff, bool_decide_eq_false in Hne. apply Hne.
    apply path_wf_eq; [by eapply ns_mounts | done | done].
  - intros (q & m & Hm & rest & Hr & Hc). exists (q, m). split; [by apply iter_lookup |].
    apply andb_true_iff. cbn [fst]. split.
    + apply VirtualPath_starts_with_spec. exists rest. cbn. by rewrite <- app_assoc.
    + apply negb_true_iff, bool_decide_eq_false. intros ->. cbn in Hc.
      apply app_inv_head in Hc. by destruct rest.
Qed.

(** The metadata of a child, case by case. *)
Lemma metadata_child name md :
  path_wf (child_path path name) → roots_answer (mounts self) ctx w md →
  ns_metadata (child_path path name) ctx (self, w) =
  ((match aliases self !! child_path path name with
    | Some t => Ok (alias_metadata (child_path path name) t)
    | None =>
        match mounts self !! child_path path name with
        | Some m => Ok (md (mounted m))
        | None =>
            if is_synthetic_directory self (child_path path name)
            then Ok (synthetic_metadata (child_path path name)) else Err NotFound
        end
    end), (self, w)).
Proof.
  intros Hcw Hroots. unfold ns_metadata. erewrite bind_asks by done. unfold alias_for.
  destruct (aliases self !! _) as [t|]; [done |].
  erewrite bind_asks by (by apply provider_at_child).
  destruct (mounts self !! _) as [m|] eqn:E.
  - cbn [resolved relative_path]. unfold call. cbn [fst snd]. by rewrite (Hroots _ _ E).
  - erewrite bind_asks by done. by destruct (is_synthetic_directory _ _).
Qed.
End synthetic_directory.

(** The collected map agrees with the case analysis of a lookup. *)
Lemma collected_child self path md (c1 c2 : Children) name :
  ns_wf self → path_wf path → path_wf (child_path path name) →
  VirtualPath_join path name = Ok (child_path path name) →
  children_of path md (iter (mounts self)) ∅ c1 name →
  (∀ q t, (q, t) ∈ iter (aliases self) → VirtualPath_join path name = Ok q →
          c2 !! name = Some (alias_metadata q t)) →
  ((∀ q t, (q, t) ∈ iter (aliases self) → VirtualPath_join path name ≠ Ok q) → c2 !! name = c1 !! name) →
  c2 !! name =
  match aliases self !! child_path path name with
  | Some t => Some (alias_metadata (child_path path name) t)
  | None =>
      match mounts self !! child_path path name with
      | Some m => Some (md (mounted m))
      | None =>
          if is_synthetic_directory self (child_path path name)
          then Some (synthetic_metadata (child_path path name)) else None
      end
  end.
Proof.
  intros Hwf Hp Hcw Hj [Hd _ Hs Ha] Hal Hno.
  destruct (aliases self !! child_path path name) as [t|] eqn:Et.
  { apply (Hal _ t); [by apply iter_lookup | done]. }
  rewrite Hno; [| intros q t Hin%iter_lookup E; congruence].
  destruct (mounts self !! child_path path name) as [m|] eqn:Em.
  { apply (Hd (child_path path name) m); [by apply iter_lookup | done]. }
  assert (∀ q m, (q, m) ∈ iter (mounts self) → VirtualPath_join path name ≠ Ok q) as Hnd.
  { intros q m Hin%iter_lookup E. congruence. }
  destruct (is_synthetic_directory self (child_path path name)) eqn:Es.
  - apply synthetic_child in Es as (q & m & Hm & Hb); [| done | done].
    apply (Hs q m); [done | apply lookup_empty | by apply iter_lookup | done].
  - apply Ha; [done | apply lookup_empty |]. intros q m Hin%iter_lookup Hb.
    apply not_true_iff_false in Es. apply Es. apply synthetic_child; [done | done | eauto].
Qed.

Lemma ns_read_dir_spec self path ctx w md :
  ns_wf self → path_wf path → provider_at self path = Ok None →
  is_synthetic_directory self path = true → roots_answer (mounts self) ctx w md →
  ∃ entries, ns_read_dir path ctx (self, w) = (Ok entries, (self, w)) ∧
    StronglySorted (fun x y => entry_cmp x y = Lt) entries ∧
    ∀ e, name_wf (entry_name e) →
      e ∈ entries ↔ ns_lookup path (entry_name e) ctx (self, w) = (Ok (entry_metadata e), (self, w)).
Proof.
  intros Hwf Hp Hat Hsyn Hroots.
  assert (∀ pre, is_Some (mounts self !! pre) → VirtualPath_starts_with path pre = false) as Hnone.
  { destruct (provider_at_spec self path Hp) as [(? & ? & ? & _ & _ & _ & E) | [? _]]; [congruence | done]. }
  destruct (mounts_loop_spec self path ctx w md (iter (mounts self)) ∅) as (c1 & Hc1 & Hspec1);
    [done | apply iter_NoDup | intros q m Hin%iter_lookup; by eapply ns_mounts
    | intros q m Hin%iter_lookup; by eapply Hroots |].
  destruct (aliases_loop_spec path (iter (aliases self)) c1) as (c2 & Hc2 & Hspec2);
    [done | apply iter_NoDup | intros q m Hin%iter_lookup; by eapply ns_aliases |].
  exists (children_entries c2). destruct (children_entries_spec c2) as [Hsorted Hin]. split_and!.
  - unfold ns_read_dir. erewrite bind_asks by done. cbn beta iota.
    erewrite bind_asks by (by rewrite Hsyn). cbn [negb].
    erewrite bind_asks by done. erewrite bind_asks by done.
    unfold mbind at 1, prog_bind at 1. rewrite Hc1, Hc2. done.
  - done.
  - intros e Hn. rewrite Hin. unfold ns_lookup. destruct (Hspec2 (entry_name e)) as [Hal Hno].
    destruct (VirtualPath_join path (entry_name e)) as [q|err|s] eqn:Ej.
    + pose proof (join_child _ _ _ Ej) as ->. rewrite bind_lift_Ok.
      destruct (VirtualPath_join_wf path (entry_name e) _ Hp Hn Ej) as [Hcw _].
      rewrite (metadata_child self path ctx w Hwf Hnone _ md Hcw Hroots).
      rewrite <- Ej in Hal, Hno.
      rewrite (collected_child self path md c1 c2 _ Hwf Hp Hcw Ej (Hspec1 _) Hal Hno).
      destruct (aliases self !! _) as [t|]; [split; by intros [= ->] |].
      destruct (mounts self !! _) as [m|]; [split; by intros [= ->] |].
      destruct (is_synthetic_directory self (child_path path (entry_name e)));
        split; first [by intros [= ->] | by intros [=]].
    + split; [| done]. rewrite Hno by done.
      rewrite (child_absent _ _ _ _ _ _ (Hspec1 (entry_name e))); [done | congruence | apply lookup_empty |].
      intros q m Hq%iter_lookup Hb. apply below_join in Hb; [congruence | by eapply ns_mounts].
    + by apply VirtualPath_join_no_panic in Ej.
Qed.

(** ** Links and handles *)
Lemma ns_read_link_anchored self path ctx w target s' :
  path_wf path → (∀ p t, mounts self !! p = Some t → path_wf p) → aliases self !! path = None →
  ns_read_link path ctx (self, w) = (Ok target, s') → VirtualPathBytes_is_absolute target = true →
  ∃ route q, provider_at self path = Ok (Some route) ∧
    VirtualPath_from_absolute (VirtualPathBytes_as_bytes target) = Ok q ∧
    VirtualPath_starts_with q (mount_path route) = true.
Proof.
  intros Hp Hm Hal. unfold ns_read_link. erewrite bind_asks by done. unfold alias_for. rewrite Hal.
  destruct (provider_at_spec self path Hp) as [(pre & m & rest & Hpre & Hc & _ & Hat) | [_ Hat]];
    erewrite bind_asks by done; [| done].
  cbn [resolved relative_path mount_path].
  destruct (p_read_link (mounted m) (mkVirtualPath rest (path_len rest)) ctx w) as [[t|e|s] w'] eqn:El.
  2, 3: unfold mbind, prog_bind, call; cbn; rewrite El; done.
  erewrite bind_call_Ok by done.
  destruct (VirtualPathBytes_is_absolute t) eqn:Et; cbn [negb]; [| intros [= <- _]; congruence].
  destruct (VirtualPath_from_absolute _) as [pt|e|s] eqn:Ea; [| done | done]. rewrite bind_lift_Ok.
  destruct (VirtualPath_from_components _) as [q|e|s] eqn:Eq; [| done | done]. rewrite bind_lift_Ok.
  unfold lift. intros [= Hn _] _.
  assert (path_wf q) as Hq.
  { eapply from_components_wf; [| exact Eq]. apply Forall_app. split; [by apply (Hm pre m) |].
    by apply from_absolute_wf in Ea as []. }
  exists (mkResolvedNamespaceProvider (key m) (mounted m) pre (mkVirtualPath rest (path_len rest))), q.
  split_and!; [done | |].
  - unfold VirtualPathBytes_new in Hn. repeat (case_match; [done |]). injection Hn as <-.
    by apply from_absolute_as_bytes.
  - apply VirtualPath_starts_with_spec. exists (components pt). by apply from_components_Ok in Eq as [-> _].
Qed.

Lemma ns_open_result path flags ctx self w :
  (∃ e, ns_open path flags ctx (self, w) = (Err e, (self, w))) ∨
  (∃ s, provider_at self path = Panic s) ∨
  (∃ route r w', provider_at self path = Ok (Some route) ∧
     p_open (resolved route) (relative_path route) flags ctx w = (r, w') ∧
     ns_open path flags ctx (self, w) =
       match r with
       | Ok inner =>
           (Ok (mkProviderFileHandle (next_handle self) path (content_generation inner)),
            (mkNamespaceProvider (mounts self) (aliases self)
               (<[next_handle self := mkOpenRoute (resolved route) inner]> (handles self))
               (wrapping_add 64 (next_handle self) 1), w'))
       | Err e => (Err e, (self, w'))
       | Panic s => (Panic s, (self, w'))
       end).
Proof.
  unfold ns_open. destruct (provider_at self path) as [[route|]|e|s] eqn:E; [| | |by eauto].
  - right. right. destruct (p_open (resolved route) (relative_path route) flags ctx w) as [r w'] eqn:Eo.
    exists route, r, w'. split_and!; [done | done |]. erewrite bind_asks by done.
    destruct r as [i|e|s]; [by erewrite bind_call_Ok by done | |];
      unfold mbind, prog_bind, call; cbn; by rewrite Eo.
  - left. eexists. erewrite bind_asks by done. cbn beta iota. erewrite bind_asks by done. done.
  - left. exists e. unfold mbind, prog_bind, asks. cbn. by rewrite E.
Qed.
End namespace.

(** The namespace keeps the promises of the providers mounted in it. *)
#[export] Instance namespace_ProviderLaws {W P : Type} {FF : FuserFlags}
  {RP : ReadOnlyFilesystemProvider W P} {HI : HashIter} {PL : ProviderLaws W P} :
  ProviderLaws (NamespaceProvider P * W) ().
Proof.
  split; [| done]. intros [] path flags ctx [self w] Hf. cbn.
  destruct (ns_open_result path flags ctx self w)
    as [[e ->] | [[s Hp] | (route & r & w' & _ & Ho & ->)]]; [done | |].
  - unfold ns_open, mbind, prog_bind, asks. cbn. by rewrite Hp.
  - pose proof (provider_refuses_writes (resolved route) (relative_path route) flags ctx w Hf) as H.
    rewrite Ho in H. by destruct r.
Qed.

(** ** Properties *)
Section properties.
Context {W P : Type} {FF : FuserFlags} {RP : ReadOnlyFilesystemProvider W P} {HI : HashIter}.
Implicit Types (self : NamespaceProvider P) (path : VirtualPath) (ctx : RequestContext).

(** Whatever order the hash map is iterated in, [provider_at] selects the
    mount with the longest component prefix of the path and returns its
    provider with the rest of the path; it answers [None] exactly when no mount
    covers the path, and never fails on a well-formed path. *)
Theorem namespace_routes_deepest self path (route : ResolvedNamespaceProvider P) :
  ns_wf self → path_wf path →
  (provider_at self path = Ok (Some route) ↔
   mounts self !! mount_path route = Some (mkMountedProvider (resolved_key route) (resolved route)) ∧
   components path = components (mount_path route) ++ components (relative_path route) ∧
   path_wf (relative_path route) ∧
   ∀ pre, is_Some (mounts self !! pre) → VirtualPath_starts_with path pre = true →
          (VirtualPath_depth pre ≤ VirtualPath_depth (mount_path route))%nat) ∧
  (provider_at self path = Ok None ↔
   ∀ pre, is_Some (mounts self !! pre) → VirtualPath_starts_with path pre = false).
Proof.
  intros Hwf Hp.
  destruct (provider_at_spec self path Hp) as [(pre & m & rest & Hm & Hc & Hmax & ->) | [Hno ->]].
  - assert (VirtualPath_starts_with path pre = true) as Hs by (apply VirtualPath_starts_with_spec; eauto).
    split.
    2: { split; [done |]. intros Hno. rewrite Hno in Hs; [done |]. by rewrite Hm. }
    destruct route as [k p mp rel]; cbn. split.
    + intros [= <- <- <- <-]. split_and!; [by destruct m | done | | done].
      by apply (VirtualPath_strip_prefix_app path pre).
    + intros (Hm' & Hc' & Hrel & Hmax').
      assert (VirtualPath_starts_with path mp = true) as Hs' by (apply VirtualPath_starts_with_spec; eauto).
      assert (components mp = components pre ∧ components rel = rest) as [Emp Erel].
      { rewrite Hc in Hc'. symmetry in Hc'. apply app_inj_1 in Hc' as [? ?]; [done |].
        apply Nat.le_antisymm; [apply Hmax | apply Hmax']; done. }
      assert (mp = pre) as -> by (apply path_wf_eq; [by eapply ns_mounts.. | done]).
      rewrite Hm in Hm'. injection Hm' as ->. cbn. subst rest. do 3 f_equal.
      destruct Hrel as (_ & Hl & _). destruct rel; cbn in *. by f_equal.
  - split; [| done]. split; [done |]. intros (Hm & Hc & _).
    exfalso. assert (VirtualPath_starts_with path (mount_path route) = true) as Hs
      by (apply VirtualPath_starts_with_spec; eauto).
    rewrite Hno in Hs; [done |]. by rewrite Hm.
Qed.

(** C31: a directory of the namespace lists exactly the names that can be looked
    up in it.  For a directory that no provider covers, and providers that
    answer for their roots, [read_dir] succeeds whatever the iteration order of
    the mounts and aliases; the result is strictly sorted by name, and it has a
    name with some metadata if and only if [lookup] of that name returns that
    metadata - for mounts, for synthetic parents of deeper mounts, and for
    aliases, which win over both. *)
Theorem namespace_listing_is_lookup self path ctx (w : W) (md : P → VirtualMetadata) :
  ns_wf self → path_wf path → provider_at self path = Ok None →
  is_synthetic_directory self path = true → roots_answer (mounts self) ctx w md →
  ∃ entries, ns_read_dir path ctx (self, w) = (Ok entries, (self, w)) ∧
    StronglySorted (fun x y => entry_cmp x y = Lt) entries ∧
    ∀ e, name_wf (entry_name e) →
      e ∈ entries ↔ ns_lookup path (entry_name e) ctx (self, w) = (Ok (entry_metadata e), (self, w)).
Proof. apply ns_read_dir_spec. Qed.

(** An absolute link of a mounted provider never leaves that provider's
    mount.  What [read_link] returns for a node of a provider is relative, or
    it is an absolute path below the mount point the node belongs to. *)
Theorem namespace_link_anchored self path ctx (w : W) (target : VirtualPathBytes) s' :
  ns_wf self → path_wf path → aliases self !! path = None →
  ns_read_link path ctx (self, w) = (Ok target, s') →
  VirtualPathBytes_is_absolute target = false ∨
  ∃ route q, provider_at self path = Ok (Some route) ∧
    VirtualPath_from_absolute (VirtualPathBytes_as_bytes target) = Ok q ∧
    VirtualPath_starts_with q (mount_path route) = true.
Proof.
  intros Hwf Hp Ha Hr. destruct (VirtualPathBytes_is_absolute target) eqn:E; [right | by left].
  eapply ns_read_link_anchored; try done. intros p t Ht. by eapply ns_mounts.
Qed.

(** An open file survives changes of the namespace.  A handle that [open]
    returned reads from the provider that was mounted at the time and with that
    provider's own handle, also after the path is mounted over, unmounted or the
    whole namespace is cleared; closing it closes that provider's handle once,
    and every later use is refused with [BadHandle] without calling a provider. *)
Theorem namespace_handle_survives self path (flags : Z) ctx (w : W) (handle : ProviderFileHandle) self1 w1 :
  ns_open path flags ctx (self, w) = (Ok handle, (self1, w1)) →
  ∃ route inner,
    provider_at self path = Ok (Some route) ∧
    p_open (resolved route) (relative_path route) flags ctx w = (Ok inner, w1) ∧
    ∀ self2 offset count w2,
      self2 = self1 ∨ self2 = (ns_clear self1).2 ∨ self2 = (ns_unmount self1 (mount_path route)).2 ∨
      (∃ k p, self2 = (ns_mount self1 path k p).2) →
      ns_read_at handle offset count ctx (self2, w2) =
        call (p_read_at (resolved route) inner offset count ctx) (self2, w2) ∧
      ∃ self3 w3, (ns_close handle (self2, w2)).2 = (self3, w3) ∧
        p_close (resolved route) inner w2 = ((ns_close handle (self2, w2)).1, w3) ∧
        ns_read_at handle offset count ctx (self3, w3) = (Err BadHandle, (self3, w3)) ∧
        ns_close handle (self3, w3) = (Err BadHandle, (self3, w3)).
Proof.
  intros Ho. destruct (ns_open_result path flags ctx self w)
    as [[e E] | [[s Hp] | (route & r & w' & Hat & Hop & E)]].
  - rewrite E in Ho. done.
  - unfold ns_open, mbind, prog_bind, asks in Ho. cbn in Ho. rewrite Hp in Ho. done.
  - rewrite E in Ho. destruct r as [i|e|s]; [| done | done]. injection Ho as <- <- <-.
    exists route, i. split_and!; [done | done |]. intros self2 offset count w2 Hself2.
    assert (handles self2 !! next_handle self = Some (mkOpenRoute (resolved route) i)) as Hh.
    { assert (handles self2 = <[next_handle self := mkOpenRoute (resolved route) i]> (handles self)) as ->;
        [| apply lookup_insert_eq].
      destruct Hself2 as [-> | [-> | [-> | (k & p & ->)]]]; [done.. |].
      unfold ns_mount. by destruct (VirtualPath_is_root path). }
    split.
    { unfold ns_read_at. rewrite (bind_asks _ (mkOpenRoute (resolved route) i)); [done |]. cbn. by rewrite Hh. }
    destruct (p_close (resolved route) i w2) as [rc w3] eqn:Ec.
    exists (mkNamespaceProvider (mounts self2) (aliases self2)
              (delete (next_handle self) (handles self2)) (next_handle self2)), w3.
    unfold ns_close, ns_read_at, mbind, prog_bind, modify, asks, call. cbn.
    rewrite Hh. cbn. rewrite Ec. rewrite lookup_delete_eq. cbn. rewrite delete_delete_eq.
    split_and!; done.
Qed.
End properties.

(** ** Concrete runs: the in-memory provider mounted twice, and an alias. *)
#[export] Instance list_HashIter : HashIter := {
  iter A m := map_to_list m;
  iter_perm A m := reflexivity _;
}.

Definition sample_ns : NamespaceProvider () :=
  let ns := (ns_mount NamespaceProvider_new (sample_path "/volumes/v") "v" tt).2 in
  let ns := (ns_mount ns (sample_path "/volumes/w/x") "w" tt).2 in
  (ns_alias ns (sample_path "/latest") (mkVirtualPathBytes (bytes "/volumes/v"))).2.

Lemma sample_ns_wf : ns_wf sample_ns.
Proof.
  apply ns_alias_wf; [| apply sample_path_wf].
  do 2 (apply ns_mount_wf; [| apply sample_path_wf]). apply NamespaceProvider_new_wf.
Qed.

Lemma sample_ns_roots :
  roots_answer (mounts sample_ns) sample_ctx sample_world
    (fun _ => VirtualMetadata_directory (bytes "root")).
Proof. intros q [k []] _. vm_compute. reflexivity. Qed.

Lemma sample_ns_mounts :
  mounts sample_ns =
  <[sample_path "/volumes/w/x" := mkMountedProvider "w" tt]>
    (<[sample_path "/volumes/v" := mkMountedProvider "v" tt]> ∅).
Proof.
  assert (∀ (ns : NamespaceProvider ()) p k, VirtualPath_is_root p = false →
    mounts (ns_mount ns p k tt).2 = <[p := mkMountedProvider k tt]> (mounts ns)) as Hm.
  { intros ns p k Hp. unfold ns_mount. by rewrite Hp. }
  assert (∀ (ns : NamespaceProvider ()) p t, mounts (ns_alias ns p t).2 = mounts ns) as Ha.
  { intros ns p t. unfold ns_alias. by destruct (_ || _). }
  unfold sample_ns. rewrite Ha, !Hm by (vm_compute; reflexivity). done.
Qed.

(** Witness: a file of the first mount. *)
Lemma namespace_routes_deepest_witness :
  provider_at sample_ns (sample_path "/volumes/v/etc") =
  Ok (Some (mkResolvedNamespaceProvider "v" tt (sample_path "/volumes/v") (sample_path "/etc"))).
Proof.
  apply (proj1 (namespace_routes_deepest sample_ns (sample_path "/volumes/v/etc")
    (mkResolvedNamespaceProvider "v" tt (sample_path "/volumes/v") (sample_path "/etc"))
    sample_ns_wf (sample_path_wf _))).
  split_and!; cbn [mount_path relative_path resolved_key resolved].
  - vm_compute. reflexivity.
  - vm_compute. reflexivity.
  - apply sample_path_wf.
  - intros pre Hpre Hs. rewrite sample_ns_mounts in Hpre.
    apply lookup_insert_is_Some' in Hpre as [<- | Hpre]; [vm_compute in Hs; discriminate |].
    apply lookup_insert_is_Some' in Hpre as [<- | Hpre]; [done |].
    rewrite lookup_empty in Hpre. by destruct Hpre.
Defined.

(** Witness: the listing of [/volumes]. *)
Lemma namespace_listing_is_lookup_witness :
  ∃ entries,
    ns_read_dir (sample_path "/volumes") sample_ctx (sample_ns, sample_world)
    = (Ok entries, (sample_ns, sample_world)).
Proof.
  destruct (namespace_listing_is_lookup sample_ns (sample_path "/volumes") sample_ctx sample_world
              (fun _ => VirtualMetadata_directory (bytes "root")) sample_ns_wf (sample_path_wf _))
    as (entries & H & _).
  - vm_compute. reflexivity.
  - vm_compute. reflexivity.
  - apply sample_ns_roots.
  - eauto.
Defined.

(** Witness: an absolute link inside a mounted volume. *)
Lemma namespace_link_anchored_witness :
  ∃ route q,
    provider_at sample_ns (sample_path "/volumes/v/etc/link") = Ok (Some route) ∧
    VirtualPath_from_absolute (bytes "/volumes/v/etc/hosts") = Ok q ∧
    VirtualPath_starts_with q (mount_path route) = true.
Proof.
  destruct (ns_read_link (sample_path "/volumes/v/etc/link") sample_ctx (sample_ns, sample_world))
    as [r s'] eqn:E.
  destruct (namespace_link_anchored sample_ns (sample_path "/volumes/v/etc/link") sample_ctx sample_world
              (mkVirtualPathBytes (bytes "/volumes/v/etc/hosts")) s') as [H | H].
  - apply sample_ns_wf.
  - apply sample_path_wf.
  - vm_compute. reflexivity.
  - rewrite E. f_equal.
    assert (r = (ns_read_link (sample_path "/volumes/v/etc/link") sample_ctx
                   (sample_ns, sample_world)).1) as -> by (by rewrite E).
    vm_compute. reflexivity.
  - vm_compute in H. discriminate.
  - exact H.
Defined.

(** Witness: the hosts file opened through the first mount. *)
Lemma namespace_handle_survives_witness :
  ∃ handle self1 w1,
    ns_open (sample_path "/volumes/v/etc/hosts") 0 sample_ctx (sample_ns, sample_world)
    = (Ok handle, (self1, w1)) ∧
    ∃ route inner,
      provider_at sample_ns (sample_path "/volumes/v/etc/hosts") = Ok (Some route) ∧
      ns_read_at handle 0 9 sample_ctx ((ns_clear self1).2, w1)
      = call (p_read_at (resolved route) inner 0 9 sample_ctx) ((ns_clear self1).2, w1).
Proof.
  destruct (ns_open (sample_path "/volumes/v/etc/hosts") 0 sample_ctx (sample_ns, sample_world))
    as [r [self1 w1]] eqn:E.
  assert (r = (ns_open (sample_path "/volumes/v/etc/hosts") 0 sample_ctx
                 (sample_ns, sample_world)).1) as Hr by (by rewrite E).
  vm_compute in Hr. destruct r as [handle|e|s]; [| discriminate..]. clear Hr.
  exists handle, self1, w1. split; [reflexivity |].
  destruct (namespace_handle_survives sample_ns (sample_path "/volumes/v/etc/hosts") 0 sample_ctx
              sample_world handle self1 w1 E) as (route & i & Hat & _ & Hread).
  exists route, i. split; [exact Hat |].
  destruct (Hread (ns_clear self1).2 0 9 w1) as [H _]; [by right; left | exact H].
Defined.
