(* ===== verification/Adapter.v ===== *)
(** The FUSE adapter (crates/tuxstack-vfs/src/adapter.rs): the kernel's
    requests answered from the inode table, the node cache, the handle table
    and one provider.

    A handler is a program over the adapter's state and the provider's world
    that ends with the reply it sends ([Reply*] objects of the [fuser] crate are
    sent exactly once, so the reply is a value).  Every provider call goes
    through the executor, whose outcome the environment chooses. *)

From S2P Require Import Prelude Error Path Symlink Model Inode Handle Provider Executor.

Local Open Scope Z_scope.

Inductive FileType :=
  | FRegularFile | FDirectory | FSymlink | FCharDevice | FBlockDevice | FNamedPipe | FSocket.

Definition fuse_file_type (t : VirtualFileType) : FileType :=
  match t with
  | RegularFile => FRegularFile
  | Directory => FDirectory
  | Symlink => FSymlink
  | CharacterDevice => FCharDevice
  | BlockDevice => FBlockDevice
  | NamedPipe => FNamedPipe
  | Socket => FSocket
  end.

Record FileAttr := mkFileAttr {
  ino : Z;
  attr_size : Z;
  blocks : Z;
  atime : Z;
  attr_mtime : Z;
  ctime : Z;
  crtime : Z;
  attr_kind : FileType;
  perm : Z;
  attr_nlink : Z;
  attr_uid : Z;
  attr_gid : Z;
  rdev : Z;
  blksize : Z;
  attr_flags : Z;
}.

(** One entry of a directory reply: inode, the offset of the next one, kind, name. *)
Record DirItem := mkDirItem {
  item_ino : Z;
  item_offset : Z;
  item_kind : FileType;
  item_name : list byte;
}.

(** What a handler sends back. *)
Inductive Reply :=
  | ReplyError (e : Errno)
  | ReplyOk
  | ReplyEntry (attr : FileAttr) (generation : Z)
  | ReplyAttr (attr : FileAttr)
  | ReplyData (data : list byte)
  | ReplyOpened (fh : Z)
  | ReplyDirectory (items : list DirItem)
  | ReplyStatfs (total free avail files ffree bsize namelen frsize : Z)
  | ReplyXattrSize (size : Z)
  | ReplyPanic (site : string).

Record CachedNode := mkCachedNode {
  node_path : VirtualPath;
  node_metadata : VirtualMetadata;
}.

Record ReadOnlyFuseAdapter (P S : Type) := mkReadOnlyFuseAdapter {
  ad_provider : P;
  ad_resource : DockerFilesystemResource;
  ad_daemon_identity : string;
  ad_provider_key : string;
  ad_uid : Z;
  ad_gid : Z;
  inodes : InodeTable;
  ad_nodes : gmap Z CachedNode;
  ad_handles : OpenHandleTable S;
  next_request_id : Z;
}.
Arguments mkReadOnlyFuseAdapter {P S}.
Arguments ad_provider {P S}.
Arguments ad_resource {P S}.
Arguments ad_daemon_identity {P S}.
Arguments ad_provider_key {P S}.
Arguments ad_uid {P S}.
Arguments ad_gid {P S}.
Arguments inodes {P S}.
Arguments ad_nodes {P S}.
Arguments ad_handles {P S}.
Arguments next_request_id {P S}.

(** The credentials of a request. *)
Record Request := mkRequest { req_uid : Z; req_gid : Z; req_pid : Z }.

(** [Debug] of [ProviderKind]. *)
Definition ProviderKind_debug (k : ProviderKind) : string :=
  match k with
  | ContainerRootfsSnapshot => "ContainerRootfsSnapshot"
  | ContainerArchiveLive => "ContainerArchiveLive"
  | NamedVolumeLive => "NamedVolumeLive"
  | LocalBindLive => "LocalBindLive"
  | HelperBindLive => "HelperBindLive"
  | TmpfsLive => "TmpfsLive"
  | RuntimeMount => "RuntimeMount"
  | ImageRootfsImmutable => "ImageRootfsImmutable"
  | InMemory => "InMemory"
  end.

(** The digits of a non-negative number, at least [width] of them; a [u32] has
    at most 11 in base 8 or 10. *)
Fixpoint digits_loop (fuel : nat) (base n : Z) (acc : list byte) : list byte :=
  match fuel with
  | O => acc
  | S fuel =>
      let acc := of_u8 (48 + n mod base) :: acc in
      if n <? base then acc else digits_loop fuel base (n / base) acc
  end.
Definition format_digits (base width n : Z) : list byte :=
  let ds := digits_loop 11 base n [] in
  replicate (Z.to_nat (width - len ds)) "0"%byte ++ ds.

(** Mask bits of [access(2)]. *)
Definition X_OK : Z := 1.
Definition W_OK : Z := 2.

Section adapter.
Context {W P S : Type} {FF : FuserFlags} {RP : ReadOnlyFilesystemProvider W P}.
Context {SL : Slab (OpenHandle P) S}.
Abbreviation Adapter := (ReadOnlyFuseAdapter P S).
Abbreviation fsprog := (prog (Adapter * W)).
Implicit Types (self : Adapter) (request : Request) (outcome : Outcome W).

Definition set_inodes self (t : InodeTable) : Adapter :=
  mkReadOnlyFuseAdapter (ad_provider self) (ad_resource self) (ad_daemon_identity self)
    (ad_provider_key self) (ad_uid self) (ad_gid self) t (ad_nodes self) (ad_handles self)
    (next_request_id self).
Definition set_nodes self (ns : gmap Z CachedNode) : Adapter :=
  mkReadOnlyFuseAdapter (ad_provider self) (ad_resource self) (ad_daemon_identity self)
    (ad_provider_key self) (ad_uid self) (ad_gid self) (inodes self) ns (ad_handles self)
    (next_request_id self).
Definition set_handles self (hs : OpenHandleTable S) : Adapter :=
  mkReadOnlyFuseAdapter (ad_provider self) (ad_resource self) (ad_daemon_identity self)
    (ad_provider_key self) (ad_uid self) (ad_gid self) (inodes self) (ad_nodes self) hs
    (next_request_id self).
Definition set_next_request_id self (n : Z) : Adapter :=
  mkReadOnlyFuseAdapter (ad_provider self) (ad_resource self) (ad_daemon_identity self)
    (ad_provider_key self) (ad_uid self) (ad_gid self) (inodes self) (ad_nodes self)
    (ad_handles self) n.

Definition adapter_new (provider : P) (resource : DockerFilesystemResource)
  (daemon_identity provider_key : string) (uid gid operation_timeout max_provider_operations
   max_handles handle_idle_timeout : Z) outcome : prog W Adapter :=
  let root := VirtualPath_root in
  let context := mkRequestContext uid gid 0 0 in
  _ ← lift (ProviderExecutor_new max_provider_operations operation_timeout);
  root_metadata ← execute outcome (p_getattr provider root context);
  if negb (bool_decide (file_type root_metadata = Directory))
  then throw (InvalidInput "provider root must be a directory")
  else
    handles ← lift (OpenHandleTable_new max_handles handle_idle_timeout);
    mret {| ad_provider := provider;
            ad_resource := resource;
            ad_daemon_identity := daemon_identity;
            ad_provider_key := provider_key;
            ad_uid := uid;
            ad_gid := gid;
            inodes := InodeTable_new;
            ad_nodes := {[ROOT_INODE := mkCachedNode root root_metadata]};
            ad_handles := handles;
            next_request_id := 1 |}.

Definition ad_context request : fsprog RequestContext :=
  modify (fun self =>
    (Ok (mkRequestContext (req_uid request) (req_gid request) (req_pid request) (next_request_id self)),
     set_next_request_id self (wrapping_add 64 (next_request_id self) 1))).

Definition ad_node self (inode : Z) : vres CachedNode := ok_or NotFound (ad_nodes self !! inode).

Definition node_key self (path : VirtualPath) (metadata : VirtualMetadata) : VirtualNodeKey :=
  {| daemon_identity := ad_daemon_identity self;
     resource_kind := kind_name (ad_resource self);
     resource_id := canonical_id (ad_resource self);
     provider_key := ad_provider_key self;
     logical_path := path;
     key_generation := generation metadata |}.

Definition node_hardlink_key self (metadata : VirtualMetadata) : HardlinkKey :=
  {| hl_daemon_identity := ad_daemon_identity self;
     hl_resource_kind := kind_name (ad_resource self);
     hl_resource_id := canonical_id (ad_resource self);
     hl_provider_key := ad_provider_key self;
     provider_node_id := node_id metadata;
     hl_generation := generation metadata |}.

Definition cache_node (path : VirtualPath) (metadata : VirtualMetadata) : fsprog Z :=
  modify (fun self =>
    match inode_for (inodes self) (node_key self path metadata)
            (Some (node_hardlink_key self metadata)) with
    | (Ok inode, t) =>
        let self := set_inodes self t in
        (Ok inode, set_nodes self (<[inode := mkCachedNode path metadata]> (ad_nodes self)))
    | (Err e, t) => (Err e, set_inodes self t)
    | (Panic s, t) => (Panic s, set_inodes self t)
    end).

(** Modes 0o555, 0o444 and 0o777. *)
Definition attr self (inode : Z) (metadata : VirtualMetadata) : FileAttr :=
  let mode :=
    match file_type metadata with
    | Directory => 365
    | RegularFile => 292
    | Symlink => 511
    | _ => 292
    end in
  {| ino := inode;
     attr_size := size metadata;
     blocks := (size metadata + 511) / 512;
     atime := mtime metadata;
     attr_mtime := mtime metadata;
     ctime := mtime metadata;
     crtime := UNIX_EPOCH;
     attr_kind := fuse_file_type (file_type metadata);
     perm := mode;
     attr_nlink := Z.max (nlink metadata) 1;
     attr_uid := ad_uid self;
     attr_gid := ad_gid self;
     rdev := let d := default 0 (device_id metadata) in if d <=? u32_max then d else 0;
     blksize := 4096;
     attr_flags := 0 |}.

(** [match result { Ok(v) => reply.…(v), Err(error) => reply.error(errno(&error)) }] *)
Definition reply_with {A} (f : Adapter → A → Reply) (m : fsprog A) (s : Adapter * W)
  : Reply * (Adapter * W) :=
  let '(r, s) := m s in
  (match r with
   | Ok a => f s.1 a
   | Err e => ReplyError (VfsError_errno e)
   | Panic site => ReplyPanic site
   end, s).

(** A provider call through the executor. *)
Definition ad_execute {A} outcome (m : prog W A) : fsprog A := call (execute outcome m).

Definition fs_lookup request (parent : Z) (name : list byte) outcome :=
  reply_with (fun self (im : Z * VirtualMetadata) =>
                ReplyEntry (attr self im.1 im.2) (generation im.2))
   (parent ← asks (fun self => ad_node self parent);
    name ← lift (VirtualFileName_new name);
    path ← lift (VirtualPath_join (node_path parent) name);
    provider ← asks (fun self => Ok (ad_provider self));
    context ← ad_context request;
    metadata ← ad_execute outcome (p_lookup provider (node_path parent) name context);
    inode ← cache_node path metadata;
    mret (inode, metadata)).

Definition fs_forget (inode lookup_count : Z) (s : Adapter * W) : Adapter * W :=
  (set_inodes s.1 (forget (inodes s.1) inode lookup_count), s.2).

Definition fs_getattr request (inode : Z) outcome :=
  reply_with (fun self metadata => ReplyAttr (attr self inode metadata))
   (node ← asks (fun self => ad_node self inode);
    provider ← asks (fun self => Ok (ad_provider self));
    context ← ad_context request;
    metadata ← ad_execute outcome (p_getattr provider (node_path node) context);
    _ ← modify (fun self =>
          (Ok tt, set_nodes self (<[inode := mkCachedNode (node_path node) metadata]> (ad_nodes self))));
    mret metadata).

Definition fs_readlink request (inode : Z) outcome :=
  reply_with (fun _ target => ReplyData (VirtualPathBytes_as_bytes target))
   (node ← asks (fun self => ad_node self inode);
    if negb (bool_decide (file_type (node_metadata node) = Symlink))
    then throw (InvalidInput "node is not a symlink")
    else
      provider ← asks (fun self => Ok (ad_provider self));
      context ← ad_context request;
      target ← ad_execute outcome (p_read_link provider (node_path node) context);
      lift (rewrite_symlink (node_path node) target)).

Definition fs_open request (inode flags : Z) outcome (now : Z) :=
  reply_with (fun _ handle => ReplyOpened handle)
   (if negb (is_read_only_open flags) then throw ReadOnly
    else
      node ← asks (fun self => ad_node self inode);
      _ ← lift (match file_type (node_metadata node) with
                | Directory => Err IsDirectory
                | RegularFile => Ok tt
                | Symlink => Err (InvalidInput "cannot open symlink directly")
                | _ => Err SpecialFile
                end);
      provider ← asks (fun self => Ok (ad_provider self));
      context ← ad_context request;
      provider_handle ← ad_execute outcome (p_open provider (node_path node) flags context);
      modify (fun self =>
        let handle :=
          {| Handle.provider := provider;
             provider_handle := provider_handle;
             resource := ad_resource self;
             path := node_path node;
             oh_content_generation := generation (node_metadata node);
             backing_strategy := "provider";
             opened_at := now;
             last_accessed_at := now |} in
        let '(r, hs) := handle_insert (ad_handles self) handle now in
        (r, set_handles self hs))).

Definition fs_read request (handle offset size : Z) outcome (now : Z) :=
  reply_with (fun _ data => ReplyData data)
   (h ← modify (fun self =>
          let '(r, hs) := handle_get_mut (ad_handles self) handle now in
          (r, set_handles self hs));
    context ← ad_context request;
    ad_execute outcome (p_read_at (Handle.provider h) (provider_handle h) offset size context)).

Definition fs_release (handle : Z) outcome :=
  reply_with (fun _ (_ : ()) => ReplyOk)
   (h ← modify (fun self =>
          let '(r, hs) := handle_remove (ad_handles self) handle in
          (r, set_handles self hs));
    ad_execute outcome (p_close (Handle.provider h) (provider_handle h))).

(** [for entry in entries { … resolved.push(…) }] *)
Fixpoint resolve_entries (path : VirtualPath) (entries : list VirtualDirectoryEntry)
  (resolved : list (Z * VirtualFileType * list byte)) : fsprog (list (Z * VirtualFileType * list byte)) :=
  match entries with
  | [] => mret resolved
  | entry :: entries =>
      child_path ← lift (VirtualPath_join path (entry_name entry));
      child_inode ← cache_node child_path (entry_metadata entry);
      resolve_entries path entries
        (resolved ++ [(child_inode, file_type (entry_metadata entry),
                       VirtualFileName_as_bytes (entry_name entry))])
  end.

(** The inode of the first cached node with that path; the iteration order of
    the cache is unspecified. *)
Definition parent_inode self (path : VirtualPath) : vres Z :=
  parent ← VirtualPath_parent path;
  Ok (default ROOT_INODE
        (parent ≫= fun parent_path =>
           fst <$> find (fun e => bool_decide (node_path e.2 = parent_path)) (map_to_list (ad_nodes self)))).

(** [reply.add] until the buffer is full: [fits] says whether one more entry
    fits after those already added. *)
Fixpoint add_loop (fits : list DirItem → DirItem → bool) (items added : list DirItem) : list DirItem :=
  match items with
  | [] => added
  | item :: items => if fits added item then add_loop fits items (added ++ [item]) else added
  end.

(** [entries.iter().enumerate()] with the cookie [index + 1]. *)
Definition dir_items (entries : list (Z * VirtualFileType * list byte)) : list DirItem :=
  imap (fun index e => mkDirItem e.1.1 (Z.of_nat index + 1) (fuse_file_type e.1.2) e.2) entries.

Definition fs_readdir request (inode offset : Z) outcome (fits : list DirItem → DirItem → bool) :=
  reply_with (fun _ entries =>
                ReplyDirectory (add_loop fits (drop (Z.to_nat offset) (dir_items entries)) []))
   (node ← asks (fun self => ad_node self inode);
    if negb (bool_decide (file_type (node_metadata node) = Directory)) then throw NotDirectory
    else
      provider ← asks (fun self => Ok (ad_provider self));
      context ← ad_context request;
      entries ← ad_execute outcome (p_read_dir provider (node_path node) context);
      parent ← asks (fun self => parent_inode self (node_path node));
      resolve_entries (node_path node) entries
        [(inode, Directory, bytes "."); (parent, Directory, bytes "..")]).

Definition fs_statfs : Reply := ReplyStatfs 1 0 0 1 0 4096 255 4096.

Definition fs_access self (inode mask : Z) : Reply :=
  match ad_node self inode with
  | Err e => ReplyError (VfsError_errno e)
  | Panic s => ReplyPanic s
  | Ok node =>
      if Z.land mask W_OK =? W_OK then ReplyError EROFS
      else if (Z.land mask X_OK =? X_OK) && negb (bool_decide (file_type (node_metadata node) = Directory))
      then ReplyError EACCES
      else ReplyOk
  end.

Definition original_xattrs self (w : W) (metadata : VirtualMetadata) : list (string * list byte) :=
  [("user.tuxstack.original_uid", format_digits 10 1 (orig_uid (original metadata)));
   ("user.tuxstack.original_gid", format_digits 10 1 (orig_gid (original metadata)));
   ("user.tuxstack.original_mode", format_digits 8 4 (Z.land (orig_mode (original metadata)) 4095));
   ("user.tuxstack.provider", bytes (ProviderKind_debug (kind (p_descriptor (ad_provider self) w))));
   ("user.tuxstack.resource_id", bytes (canonical_id (ad_resource self)))]%string.

Definition xattr_reply (result : vres (list byte)) (size : Z) : Reply :=
  match result with
  | Err e => ReplyError (VfsError_errno e)
  | Panic s => ReplyPanic s
  | Ok value =>
      if size =? 0 then ReplyXattrSize (len value mod 2 ^ 32)
      else if size <? len value then ReplyError ERANGE
      else ReplyData value
  end.

Definition fs_getxattr self (w : W) (inode : Z) (name : list byte) (size : Z) : Reply :=
  xattr_reply
    (node ← ad_node self inode;
     ok_or NotFound
       (snd <$> find (fun e => bool_decide (name = bytes e.1)) (original_xattrs self w (node_metadata node))))
    size.

Definition fs_listxattr self (w : W) (inode : Z) (size : Z) : Reply :=
  xattr_reply
    (node ← ad_node self inode;
     Ok (original_xattrs self w (node_metadata node) ≫= fun e => bytes e.1 ++ ["000"%byte]))
    size.

(** The operations that would change the filesystem. *)
Inductive MutationRequest :=
  | Setattr | Mknod | Mkdir | Unlink | Rmdir | MakeSymlink | Rename | Link | WriteData | Setxattr
  | Removexattr | Create | Fallocate | CopyFileRange.

Definition fs_mutation (op : MutationRequest) (s : Adapter * W) : Reply * (Adapter * W) :=
  match op with
  | Setattr | Mknod | Mkdir | Unlink | Rmdir | MakeSymlink | Rename | Link | WriteData | Setxattr
  | Removexattr | Create | Fallocate | CopyFileRange => (ReplyError EROFS, s)
  end.

(** ** What the adapter relies on

    [world_ok] is an invariant of the provider's world that its operations keep
    and that makes the values they return valid: file names and link targets are
    only built by their checked constructors. *)
Class ProviderInvariant := {
  world_ok : W → Prop;
  world_ok_lookup p parent name ctx w : world_ok w → world_ok (p_lookup p parent name ctx w).2;
  world_ok_getattr p path ctx w : world_ok w → world_ok (p_getattr p path ctx w).2;
  world_ok_read_dir p path ctx w : world_ok w → world_ok (p_read_dir p path ctx w).2;
  world_ok_read_link p path ctx w : world_ok w → world_ok (p_read_link p path ctx w).2;
  world_ok_open p path flags ctx w : world_ok w → world_ok (p_open p path flags ctx w).2;
  world_ok_read_at p handle offset size ctx w :
    world_ok w → world_ok (p_read_at p handle offset size ctx w).2;
  world_ok_close p handle w : world_ok w → world_ok (p_close p handle w).2;
  read_dir_names p path ctx w es :
    world_ok w → (p_read_dir p path ctx w).1 = Ok es → Forall (fun e => name_wf (entry_name e)) es;
  read_link_target p path ctx w t :
    world_ok w → (p_read_link p path ctx w).1 = Ok t → target_wf t;
}.

(** The requests the kernel sends and the choices of the environment. *)
Inductive FsRequest :=
  | RqLookup request (parent : Z) (name : list byte) outcome
  | RqForget (inode count : Z)
  | RqGetattr request (inode : Z) outcome
  | RqReadlink request (inode : Z) outcome
  | RqOpen request (inode flags : Z) outcome (now : Z)
  | RqRead request (handle offset size : Z) outcome (now : Z)
  | RqRelease (handle : Z) outcome
  | RqReaddir request (inode offset : Z) outcome (fits : list DirItem → DirItem → bool)
  | RqMutation (op : MutationRequest).

Definition serve (r : FsRequest) (s : Adapter * W) : Reply * (Adapter * W) :=
  match r with
  | RqLookup request parent name outcome => fs_lookup request parent name outcome s
  | RqForget inode count => (ReplyOk, fs_forget inode count s)
  | RqGetattr request inode outcome => fs_getattr request inode outcome s
  | RqReadlink request inode outcome => fs_readlink request inode outcome s
  | RqOpen request inode flags outcome now => fs_open request inode flags outcome now s
  | RqRead request handle offset size outcome now => fs_read request handle offset size outcome now s
  | RqRelease handle outcome => fs_release handle outcome s
  | RqReaddir request inode offset outcome fits => fs_readdir request inode offset outcome fits s
  | RqMutation op => fs_mutation op s
  end.

Definition serve_all (rs : list FsRequest) (s : Adapter * W) : Adapter * W :=
  foldl (fun s r => (serve r s).2) s rs.
End adapter.
Arguments ProviderInvariant W P {RP}.
Arguments FsRequest W : clear implicits.

(** ** The invariant of the adapter *)
Record adapter_wf {P S} `{!Slab (OpenHandle P) S} (self : ReadOnlyFuseAdapter P S) : Prop := {
  awf_inodes : inode_wf (inodes self);
  awf_handles : handle_wf (ad_handles self);
  (** A cached node has a live inode that still carries its path. *)
  awf_nodes i n : ad_nodes self !! i = Some n →
    path_wf (node_path n) ∧
    ∃ r, by_inode (inodes self) !! i = Some r ∧ deleted r = false ∧
         ∃ k, k ∈ Inode.aliases r ∧ logical_path k = node_path n;
  (** The root inode belongs to the root of the provider and to nothing else. *)
  awf_root : ∃ r, by_inode (inodes self) !! ROOT_INODE = Some r ∧
    hardlink_key r = None ∧ Inode.aliases r = {[VirtualNodeKey_root]};
  awf_root_node : ∃ n, ad_nodes self !! ROOT_INODE = Some n ∧ node_path n = VirtualPath_root;
}.

Section invariant.
Context {W P S : Type} {FF : FuserFlags} {RP : ReadOnlyFilesystemProvider W P}.
Context {SL : Slab (OpenHandle P) S} {SLL : SlabLaws (OpenHandle P) S}.
Context {PI : ProviderInvariant W P}.
Implicit Types (self : ReadOnlyFuseAdapter P S) (outcome : Outcome W).

(** A future that is dropped part-way leaves a world that is still valid. *)
Definition outcome_ok outcome : Prop :=
  match outcome with
  | Completed => True
  | Elapsed partial | Cancelled partial => ∀ w, world_ok w → world_ok (partial w)
  end.

Definition fs_inv (s : ReadOnlyFuseAdapter P S * W) : Prop := adapter_wf s.1 ∧ world_ok s.2.

(** The root key is of a kind no resource has. *)
Lemma node_key_not_root self path md : node_key self path md ≠ VirtualNodeKey_root.
Proof. intros H. injection H as _ H _. by destruct (ad_resource self). Qed.

Lemma awf_set_other self self' :
  inodes self' = inodes self → ad_nodes self' = ad_nodes self → handle_wf (ad_handles self') →
  adapter_wf self → adapter_wf self'.
Proof. intros Hi Hn Hh [H1 H2 H3 H4 H5]. split; rewrite ?Hi, ?Hn; done. Qed.

(** What [inode_for] does to the records that the cache points at. *)
Lemma inode_for_records t key h i t' :
  inode_wf t → inode_for t key h = (Ok i, t') →
  (∃ r, by_inode t' !! i = Some r ∧ deleted r = false ∧ key ∈ Inode.aliases r) ∧
  (∀ j r, by_inode t !! j = Some r → deleted r = false →
     ∃ r', by_inode t' !! j = Some r' ∧ deleted r' = false ∧ hardlink_key r' = hardlink_key r ∧
           (Inode.aliases r' = Inode.aliases r ∨
            (j = i ∧ Inode.aliases r' = {[key]} ∪ Inode.aliases r ∧ is_Some (hardlink_key r)))).
Proof.
  intros Hwf Hf. pose proof (inode_for_wf t key h Hwf) as Hwf'. rewrite Hf in Hwf'. cbn in Hwf'.
  assert (by_key t' !! key = Some i) as Hk.
  { destruct (inode_for_result t key h Hwf) as [[_ E] | (j & t2 & E & Hk & _)];
      rewrite Hf in E; [done |]. by injection E as <- <-. }
  split.
  { pose proof (proj1 (wf_key t' Hwf' key i) Hk) as (r & Hi & Ha). exists r. split_and!; [done | | done].
    destruct (wf_record t' Hwf' i r Hi) as (_ & _ & _ & Hd & _).
    destruct (deleted r); [set_solver | done]. }
  intros j r Hj Hlive. unfold inode_for in Hf. destruct (by_key t !! key) as [i0|] eqn:Ek.
  - destruct (by_inode t !! i0) as [r0|] eqn:Ei; [| naive_solver].
    destruct (deleted r0) eqn:Ed; [done |]. injection Hf as <- <-. cbn [with_record by_inode].
    destruct (decide (j = i0)) as [->|Hne].
    + eexists. rewrite lookup_insert_eq. simplify_eq. cbn. naive_solver.
    + exists r. rewrite lookup_insert_ne by done. naive_solver.
  - destruct (h ≫= _) as [i0|] eqn:Eh.
    + destruct h as [h|]; [| done]. cbn in Eh.
      apply (wf_hardlink t Hwf) in Eh as (r0 & Ei & Hh & Ed). rewrite Ei, Ed in Hf.
      injection Hf as <- <-. cbn [with_record with_key by_inode].
      destruct (decide (j = i0)) as [->|Hne].
      * rewrite Hj in Ei. injection Ei as <-. eexists. split; [apply lookup_insert_eq |].
        split_and!; [exact Ed | done |]. right. split_and!; [done | done | by rewrite Hh].
      * exists r. rewrite lookup_insert_ne by done. naive_solver.
    + unfold fresh_inode, checked_add in Hf. case_bool_decide; [| done]. injection Hf as <- <-.
      cbn [by_inode]. exists r. rewrite lookup_insert_ne; [naive_solver |].
      apply (wf_record t Hwf) in Hj as (_ & ? & _). lia.
Qed.

Lemma set_inodes_wf self t :
  adapter_wf self → inode_wf t →
  (∀ j r, by_inode (inodes self) !! j = Some r → deleted r = false →
     ∃ r', by_inode t !! j = Some r' ∧ deleted r' = false ∧ hardlink_key r' = hardlink_key r ∧
           Inode.aliases r ⊆ Inode.aliases r' ∧
           (hardlink_key r = None → Inode.aliases r' = Inode.aliases r)) →
  adapter_wf (set_inodes self t).
Proof.
  intros [H1 H2 H3 (rr & Hr & Hrh & Hra) H5] Ht Hext. split; cbn.
  - done.
  - done.
  - intros i n Hn. apply H3 in Hn as (Hp & r & Hi & Hd & k & Hk & Hl). split; [done |].
    destruct (Hext i r Hi Hd) as (r' & ? & ? & _ & Hsub & _). exists r'. split_and!; [done | done |].
    exists k. split; [set_solver | done].
  - assert (deleted rr = false) as Hd.
    { destruct (wf_root _ H1) as (s & Hs & ?). congruence. }
    destruct (Hext _ rr Hr Hd) as (r' & ? & _ & Hh & _ & Ha). exists r'. split_and!; [done | congruence |].
    rewrite Ha by done. done.
  - done.
Qed.

Lemma keeps_cache_node path md :
  path_wf path → keeps fs_inv (cache_node path md) (fun _ => True).
Proof.
  intros Hp [self w] [Hwf Hw]. cbn [fst snd] in Hwf, Hw. split; [| done].
  split; [| by unfold cache_node, modify; repeat case_match].
  unfold cache_node, modify. cbn [fst snd].
  destruct (inode_for (inodes self) (node_key self path md) (Some (node_hardlink_key self md)))
    as [r t] eqn:Ef.
  pose proof Hwf as [H1 _ _ (rr & Hr & Hrh & Hra) H5].
  destruct (inode_for_result _ (node_key self path md) (Some (node_hardlink_key self md)) H1)
    as [[_ E] | (i & t' & E & Hk & _)]; rewrite E in Ef; injection Ef as <- <-; cbn [fst snd].
  { apply (awf_set_other self); try done. exact (awf_handles self Hwf). }
  pose proof (inode_for_wf _ (node_key self path md) (Some (node_hardlink_key self md)) H1) as Ht.
  rewrite E in Ht. cbn in Ht.
  destruct (inode_for_records _ _ _ _ _ H1 E) as [(r & Hi & Hd & Ha) Hext].
  assert (adapter_wf (set_inodes self t')) as Hwf'.
  { apply set_inodes_wf; [done | done |]. intros j s Hj Hs.
    destruct (Hext j s Hj Hs) as (s' & ? & ? & ? & Hal). exists s'. split_and!; [done | done | done | |].
    - destruct Hal as [-> | (_ & -> & _)]; set_solver.
    - intros Hn. destruct Hal as [-> | (_ & _ & Hsome)]; [done |]. rewrite Hn in Hsome. by destruct Hsome. }
  destruct Hwf' as [G1 G2 G3 G4 G5]. split; cbn; [done | done | | done |].
  - intros j n [[<- <-] | [Hne Hn]]%lookup_insert_Some; [| by apply G3].
    split; [done |]. exists r. split_and!; [done | done |]. by exists (node_key self path md).
  - rewrite lookup_insert_ne; [done |]. intros ->. cbn in G4.
    destruct G4 as (s & Hs & _ & Hsa). rewrite Hi in Hs. injection Hs as <-.
    rewrite Hsa in Ha. apply elem_of_singleton in Ha. by apply node_key_not_root in Ha.
Qed.

Lemma keeps_node i :
  keeps fs_inv (asks (fun self => ad_node self i)) (fun n => path_wf (node_path n)).
Proof.
  eapply keeps_weaken; [apply keeps_asks |]. cbn. intros n ([self w] & [Hwf _] & Hn).
  apply ok_or_Ok in Hn. by apply (awf_nodes self Hwf) in Hn as [? _].
Qed.

Lemma keeps_context request : keeps fs_inv (ad_context request) (fun _ => True).
Proof.
  intros [self w] [Hwf Hw]. cbn [fst snd] in Hwf, Hw. split; [| done]. split; [| done].
  apply (awf_set_other self); try done. exact (awf_handles self Hwf).
Qed.

Lemma keeps_execute {A} outcome (m : prog W A) :
  outcome_ok outcome → (∀ w, world_ok w → world_ok (m w).2) →
  keeps fs_inv (ad_execute outcome m) (fun a => ∃ w, world_ok w ∧ (m w).1 = Ok a).
Proof.
  intros Ho Hm [self w] [Hwf Hw]. unfold ad_execute, call, execute. cbn [fst snd].
  destruct outcome as [|partial|partial]; cbn [fst snd].
  - specialize (Hm w Hw). destruct (m w) as [r w'] eqn:E. split; [done |].
    cbn. intros a ->. exists w. by rewrite E.
  - split; [split; [done | by apply Ho] | done].
  - split; [split; [done | by apply Ho] | done].
Qed.

(** A change of the handle table by one of its operations. *)
Lemma keeps_handles {A} (f : ReadOnlyFuseAdapter P S → vres A * OpenHandleTable S) :
  (∀ self, adapter_wf self → handle_wf (f self).2) →
  keeps fs_inv (modify (fun self => let '(r, hs) := f self in (r, set_handles self hs)))
    (fun _ => True).
Proof.
  intros Hf [self w] [Hwf Hw]. cbn [fst snd] in Hwf, Hw. split; [| done]. unfold modify. cbn [fst snd].
  specialize (Hf self Hwf). destruct (f self) as [r hs]. split; [| done].
  by apply (awf_set_other self).
Qed.

Lemma keeps_resolve_entries path entries resolved :
  path_wf path → Forall (fun e => name_wf (entry_name e)) entries →
  keeps fs_inv (resolve_entries path entries resolved) (fun _ => True).
Proof.
  intros Hp Hes. revert resolved. induction Hes as [|e es He Hes IH]; intros resolved; cbn [resolve_entries].
  { apply keeps_ret. }
  eapply keeps_bind; [apply keeps_lift |]. intros q Hj. cbn in Hj.
  destruct (VirtualPath_join_wf path (entry_name e) q Hp He Hj) as [Hq _].
  eapply keeps_bind; [by apply keeps_cache_node |]. intros i _. apply IH.
Qed.

Lemma reply_with_keeps {A} (f : ReadOnlyFuseAdapter P S → A → Reply) m Q s :
  keeps fs_inv m Q → fs_inv s → fs_inv (reply_with f m s).2.
Proof. intros Hm Hs. unfold reply_with. destruct (Hm s Hs) as [H _]. by destruct (m s). Qed.

Definition request_ok (r : FsRequest W) : Prop :=
  match r with
  | RqLookup _ _ _ o | RqGetattr _ _ o | RqReadlink _ _ o | RqOpen _ _ _ o _ | RqRead _ _ _ _ o _
  | RqRelease _ o | RqReaddir _ _ _ o _ => outcome_ok o
  | RqForget _ count => 0 ≤ count
  | RqMutation _ => True
  end.

Lemma fs_forget_inv i n s : 0 ≤ n → fs_inv s → fs_inv (fs_forget i n s).
Proof.
  intros Hn [Hwf Hw]. split; [| done]. cbn. apply set_inodes_wf; [done | |].
  - apply forget_wf; [apply Hwf | done].
  - intros j r Hj Hd. unfold forget. destruct (by_inode (inodes s.1) !! i) as [r0|] eqn:E.
    + cbn [with_record by_inode]. destruct (decide (j = i)) as [->|Hne].
      * eexists. rewrite lookup_insert_eq. simplify_eq. cbn. naive_solver.
      * exists r. rewrite lookup_insert_ne by done. naive_solver.
    + exists r. naive_solver.
Qed.

Lemma ad_execute_state {A} outcome (m : prog W A) self w :
  ∃ r w', ad_execute outcome m (self, w) = (r, (self, w')) ∧
          (world_ok w → outcome_ok outcome → (∀ w, world_ok w → world_ok (m w).2) → world_ok w').
Proof.
  unfold ad_execute, call, execute. cbn. destruct outcome as [|partial|partial].
  - destruct (m w) as [r w'] eqn:E. exists r, w'. split; [done |]. intros Hw _ Hm.
    specialize (Hm w Hw). by rewrite E in Hm.
  - eexists _, _. split; [done |]. intros Hw Ho _. by apply Ho.
  - eexists _, _. split; [done |]. intros Hw Ho _. by apply Ho.
Qed.

Lemma fs_getattr_inv request i outcome s :
  outcome_ok outcome → fs_inv s → fs_inv (fs_getattr request i outcome s).2.
Proof.
  intros Ho Hs. destruct s as [self w]. pose proof Hs as [Hwf Hw]. cbn [fst snd] in Hwf, Hw.
  unfold fs_getattr, reply_with. destruct (ad_nodes self !! i) as [n|] eqn:En.
  2: { unfold mbind, prog_bind, asks, ad_node. cbn. by rewrite En. }
  rewrite (bind_asks _ n) by (unfold ad_node; by rewrite En). erewrite bind_asks by done.
  unfold ad_context. erewrite bind_modify by done. set (self1 := set_next_request_id self _).
  assert (adapter_wf self1) as Hwf1.
  { apply (awf_set_other self); try done. exact (awf_handles self Hwf). }
  set (ctx := mkRequestContext _ _ _ _).
  destruct (ad_execute_state outcome (p_getattr (ad_provider self) (node_path n) ctx) self1 w)
    as (r & w' & E & Hw'). specialize (Hw' Hw Ho (fun w => world_ok_getattr _ _ _ w)).
  unfold mbind at 1, prog_bind at 1. rewrite E. destruct r as [md|e|p]; [| done | done].
  erewrite bind_modify by done. cbn. split; [| done].
  destruct Hwf1 as [G1 G2 G3 G4 G5]. split; cbn [fst set_nodes inodes ad_nodes ad_handles];
    [done | done | | done |].
  - intros j n' [[<- <-] | [_ Hn']]%lookup_insert_Some; [| by apply G3]. by apply (G3 i n).
  - destruct (decide (i = ROOT_INODE)) as [->|Hne]; [| by rewrite lookup_insert_ne].
    eexists. rewrite lookup_insert_eq. split; [done |]. cbn. destruct G5 as (n' & Hn' & ?).
    change (ad_nodes self !! ROOT_INODE = Some n') in Hn'. congruence.
Qed.

(** Peel one bind of a handler. *)
Ltac kstep := eapply keeps_bind; [first
  [ apply keeps_node | apply keeps_context | apply keeps_lift
  | apply keeps_execute; [eassumption |] | by apply keeps_cache_node
  | apply keeps_asks ] |].

Lemma serve_inv r s : request_ok r → fs_inv s → fs_inv (serve r s).2.
Proof.
  intros Hr Hs.
  destruct r as [request parent name o|i n|request i o|request i o|request i flags o now
                |request h off sz o now|h o|request i off o fits|op]; cbn [serve request_ok] in *.
  - apply (reply_with_keeps _ _ (fun _ => True)); [| done]. kstep. intros n Hn. kstep. intros nm Hnm. cbn in Hnm.
    apply VirtualFileName_new_Ok in Hnm as [-> Hnm]. kstep. intros q Hj. cbn in Hj.
    destruct (VirtualPath_join_wf _ (mkVirtualFileName name) q Hn Hnm Hj) as [Hq _].
    kstep. intros p _. kstep. intros ctx _. kstep; [intros w; apply world_ok_lookup |].
    intros md _. kstep. intros i _. apply keeps_ret.
  - by apply fs_forget_inv.
  - by apply fs_getattr_inv.
  - apply (reply_with_keeps _ _ (fun _ => True)); [| done]. kstep. intros n Hn.
    destruct (negb _); [apply keeps_throw |]. kstep. intros p _. kstep. intros ctx _.
    kstep; [intros w; apply world_ok_read_link |]. intros t _.
    eapply keeps_weaken; [apply keeps_lift | done].
  - apply (reply_with_keeps _ _ (fun _ => True)); [| done]. destruct (negb _); [apply keeps_throw |].
    kstep. intros n Hn. kstep. intros _ _. kstep. intros p _. kstep. intros ctx _.
    kstep; [intros w; apply world_ok_open |]. intros ph _.
    apply (keeps_handles (fun self => handle_insert (ad_handles self) _ now)).
    intros self Hwf. apply handle_insert_wf, Hwf.
  - apply (reply_with_keeps _ _ (fun _ => True)); [| done].
    eapply keeps_bind; [apply (keeps_handles (fun self => handle_get_mut (ad_handles self) h now)) |].
    { intros self Hwf. apply handle_get_mut_wf, Hwf. }
    intros hd _. kstep. intros ctx _. eapply keeps_weaken; [| done].
    apply keeps_execute; [done |]. intros w. apply world_ok_read_at.
  - apply (reply_with_keeps _ _ (fun _ => True)); [| done].
    eapply keeps_bind; [apply (keeps_handles (fun self => handle_remove (ad_handles self) h)) |].
    { intros self Hwf. apply handle_remove_wf, Hwf. }
    intros hd _. eapply keeps_weaken; [| done].
    apply keeps_execute; [done |]. intros w. apply world_ok_close.
  - apply (reply_with_keeps _ _ (fun _ => True)); [| done]. kstep. intros n Hn.
    destruct (negb _); [apply keeps_throw |]. kstep. intros p _. kstep. intros ctx _.
    kstep; [intros w; apply world_ok_read_dir |]. intros es (w & Hw & Hes). kstep. intros pi _.
    apply keeps_resolve_entries; [done |]. by eapply read_dir_names.
  - by destruct op.
Qed.

Lemma serve_all_inv rs s : Forall request_ok rs → fs_inv s → fs_inv (serve_all rs s).
Proof.
  intros Hrs. revert s. induction Hrs as [|r rs Hr Hrs IH]; intros s Hs; cbn; [done |].
  by apply IH, serve_inv.
Qed.

Lemma adapter_new_inv provider resource di pk uid gid ot mo mh ht outcome w self w' :
  0 ≤ mh → outcome_ok outcome → world_ok w →
  adapter_new provider resource di pk uid gid ot mo mh ht outcome w = (Ok self, w') →
  fs_inv (self, w').
Proof.
  intros Hmh Ho Hw. unfold adapter_new, mbind, prog_bind, lift.
  destruct (ProviderExecutor_new mo ot); [| done | done].
  set (m := p_getattr provider VirtualPath_root _).
  assert (world_ok (execute outcome m w).2) as Hw1.
  { unfold execute. destruct outcome; [by apply world_ok_getattr | by apply Ho..]. }
  destruct (execute outcome m w) as [[md|e|p] w1]; [| done | done].
  case_bool_decide as Hd; cbn [negb]; [| done].
  destruct (OpenHandleTable_new mh ht) as [hs|e|p] eqn:Eh; [| done | done].
  intros [= <- <-]. split; [| done]. cbn [fst]. split; cbn [inodes ad_handles ad_nodes].
  - apply InodeTable_new_wf.
  - by eapply OpenHandleTable_new_wf.
  - intros i n [<- <-]%lookup_singleton_Some. split; [apply VirtualPath_root_wf |].
    eexists. split; [apply lookup_singleton_eq |]. split; [done |].
    exists VirtualNodeKey_root. split; [cbn; set_solver | done].
  - eexists. split; [apply lookup_singleton_eq | done].
  - eexists. split; [apply lookup_singleton_eq | done].
Qed.

(** ** The handle table under requests *)
Definition releases (r : FsRequest W) : Z := match r with RqRelease _ _ => 1 | _ => 0 end.

(** The table was changed by handle operations other than removals. *)
Definition opened_from (hs : OpenHandleTable S) (s : ReadOnlyFuseAdapter P S * W) : Prop :=
  ∃ ops, ad_handles s.1 = foldl run_op hs ops ∧ removals ops = 0.

Lemma keeps_opened_same {A} hs (m : prog (ReadOnlyFuseAdapter P S * W) A) :
  (∀ s, ad_handles (m s).2.1 = ad_handles s.1) → keeps (opened_from hs) m (fun _ => True).
Proof. intros Hm s (ops & Ho & Hr). split; [| done]. exists ops. by rewrite Hm. Qed.

Lemma ad_execute_handles {A} outcome (m : prog W A) (s : ReadOnlyFuseAdapter P S * W) :
  ad_handles (ad_execute outcome m s).2.1 = ad_handles s.1.
Proof. destruct s as [self w]. by destruct (ad_execute_state outcome m self w) as (r & w' & -> & _). Qed.

Lemma cache_node_handles path md (s : ReadOnlyFuseAdapter P S * W) :
  ad_handles (cache_node path md s).2.1 = ad_handles s.1.
Proof. unfold cache_node, modify. destruct (inode_for _ _ _) as [[]]; done. Qed.

Lemma keeps_opened_resolve hs path entries resolved :
  keeps (opened_from hs) (resolve_entries path entries resolved) (fun _ => True).
Proof.
  revert resolved. induction entries as [|e es IH]; intros resolved; cbn [resolve_entries].
  { apply keeps_ret. }
  eapply keeps_bind; [apply keeps_lift |]. intros q _.
  eapply keeps_bind; [apply keeps_opened_same; intros; apply cache_node_handles |]. intros i _. apply IH.
Qed.

Lemma keeps_opened_op {A} hs (f : ReadOnlyFuseAdapter P S → vres A * OpenHandleTable S) :
  (∀ self, ∃ op, (f self).2 = run_op (ad_handles self) op ∧ is_remove op = false) →
  keeps (opened_from hs) (modify (fun self => let '(r, t) := f self in (r, set_handles self t)))
    (fun _ => True).
Proof.
  intros Hf [self w] (ops & Ho & Hr). split; [| done]. cbn in Ho. unfold modify. cbn [fst snd].
  destruct (Hf self) as (op & Hop & Hn). destruct (f self) as [r t]. cbn in Hop |- *.
  exists (ops ++ [op]). cbn. rewrite foldl_app, removals_app, Hr, <- Ho. cbn. by rewrite Hn.
Qed.

Lemma reply_with_opened {A} (f : ReadOnlyFuseAdapter P S → A → Reply) m Q hs s :
  keeps (opened_from hs) m Q → opened_from hs s → opened_from hs (reply_with f m s).2.
Proof. intros Hm Hs. unfold reply_with. destruct (Hm s Hs) as [H _]. by destruct (m s). Qed.

Ltac ostep := eapply keeps_bind; [first
  [ apply keeps_lift | apply keeps_asks
  | apply keeps_opened_same; intros; first [done | apply ad_execute_handles | apply cache_node_handles]]
  | intros ? _].

Lemma serve_handles r self w :
  ∃ ops, ad_handles (serve r (self, w)).2.1 = foldl run_op (ad_handles self) ops ∧
         removals ops ≤ releases r.
Proof.
  assert (opened_from (ad_handles self) (self, w)) as H0 by (by exists []).
  assert (releases r = 0 → opened_from (ad_handles self) (serve r (self, w)).2 →
    ∃ ops, ad_handles (serve r (self, w)).2.1 = foldl run_op (ad_handles self) ops ∧
           removals ops ≤ releases r) as Hgo.
  { intros Hr (ops & ? & ?). exists ops. split; [done | lia]. }
  destruct r as [request parent name o|i n|request i o|request i o|request i flags o now
                |request h off sz o now|h o|request i off o fits|op]; try (apply Hgo; [done |]); cbn [serve].
  - eapply (reply_with_opened _ _ (fun _ => True)); [| done]. repeat ostep. apply keeps_ret.
  - by exists [].
  - eapply (reply_with_opened _ _ (fun _ => True)); [| done]. repeat ostep. apply keeps_ret.
  - eapply (reply_with_opened _ _ (fun _ => True)); [| done]. ostep.
    destruct (negb _); [apply keeps_throw |]. repeat ostep.
    eapply keeps_weaken; [apply keeps_lift | done].
  - eapply (reply_with_opened _ _ (fun _ => True)); [| done]. destruct (negb _); [apply keeps_throw |].
    repeat ostep. apply (keeps_opened_op _ (fun self => handle_insert (ad_handles self) _ now)).
    intros self'. by eexists (OpInsert _ now).
  - eapply (reply_with_opened _ _ (fun _ => True)); [| done].
    eapply keeps_bind.
    { apply (keeps_opened_op _ (fun self => handle_get_mut (ad_handles self) h now)).
      intros self'. by exists (OpGet h now). }
    intros hd _. ostep. apply keeps_opened_same. intros. apply ad_execute_handles.
  - exists [OpRemove h]. split; [| done]. cbn [foldl run_op]. unfold fs_release, reply_with.
    unfold mbind, prog_bind, modify. cbn [fst snd].
    destruct (handle_remove (ad_handles self) h) as [[hd|e|p] hs]; [| done | done].
    pose proof (ad_execute_handles o (p_close (Handle.provider hd) (provider_handle hd))
                  (set_handles self hs, w)) as He.
    destruct (ad_execute _ _ _). done.
  - eapply (reply_with_opened _ _ (fun _ => True)); [| done]. ostep.
    destruct (negb _); [apply keeps_throw |]. repeat ostep. apply keeps_opened_resolve.
  - by destruct op.
Qed.

Lemma serve_all_handles rs s :
  ∃ ops, ad_handles (serve_all rs s).1 = foldl run_op (ad_handles s.1) ops ∧
         removals ops ≤ foldr (fun r n => releases r + n) 0 rs.
Proof.
  revert s. induction rs as [|r rs IH]; intros [self w].
  { by exists []. }
  destruct (serve_handles r self w) as (ops1 & H1 & Hr1).
  destruct (IH (serve r (self, w)).2) as (ops2 & H2 & Hr2).
  exists (ops1 ++ ops2). cbn [foldr]. rewrite foldl_app, removals_app. cbn [fst] in *.
  rewrite <- H1. split; [exact H2 | lia].
Qed.
End invariant.

(** ** The in-memory provider keeps its promises to the adapter *)
Definition memory_ok (m : InMemoryProvider) : Prop :=
  mem_wf m ∧
  ∀ p n t, nodes m !! p = Some n → mem_content n = MemSymlink t → target_wf t.

Lemma memory_open_ok {FF : FuserFlags} path flags m :
  memory_ok m → memory_ok (memory_open path flags m).2.
Proof.
  intros [[Hr Hn] Ht]. unfold memory_open. destruct (negb _); [done |].
  destruct (memory_node m path) as [n|e|s]; [| done | done].
  destruct (file_type (mem_metadata n)); try done.
Qed.

Lemma memory_read_dir_names m path es :
  mem_wf m → memory_read_dir m path = Ok es → Forall (fun e => name_wf (entry_name e)) es.
Proof.
  intros Hm Hes. pose proof Hes as Hd. unfold memory_read_dir in Hd.
  apply bind_Ok in Hd as (n & Hn & Hd). apply bind_Ok in Hd as ([] & Hg & _).
  apply ok_or_Ok in Hn. apply guard_err_Ok, negb_false_iff, bool_decide_eq_true in Hg.
  destruct (memory_read_dir_spec m path n Hm Hn Hg) as (es' & E & _ & Hin).
  rewrite Hes in E. injection E as <-. apply list.Forall_forall. intros e He%Hin.
  unfold memory_lookup in He. apply bind_Ok in He as (q & Hj & Hq).
  unfold memory_node in Hq. destruct (nodes m !! q) as [nq|] eqn:Eq; [| done].
  apply (mem_node m Hm) in Eq as ((Hnames & _) & _). apply from_components_Ok in Hj as [-> _].
  cbn in Hnames. apply Forall_app in Hnames as [_ Hlast]. by apply Forall_cons_iff in Hlast as [? _].
Qed.

#[export] Instance memory_ProviderInvariant {FF : FuserFlags} :
  ProviderInvariant InMemoryProvider ().
Proof.
  refine {| world_ok := memory_ok |}; cbn; try done.
  - intros _ path flags _ m. apply memory_open_ok.
  - intros _ path _ m es [Hm _]. by apply memory_read_dir_names.
  - intros _ path _ m t [_ Ht] Hl. unfold memory_read_link in Hl.
    apply bind_Ok in Hl as (n & Hn & Hl). apply ok_or_Ok in Hn.
    destruct (mem_content n) eqn:Ec; try done. injection Hl as <-. by eapply Ht.
Defined.

(** ** Paging *)

(** The kernel reads a directory page by page: each request starts at the
    offset of the last entry it received, until a page is empty. *)
Fixpoint read_pages (fuel : nat) (fits : Z → list DirItem → DirItem → bool) (items : list DirItem)
  (offset : Z) : list DirItem :=
  match fuel with
  | O => []
  | S fuel =>
      let page := add_loop (fits offset) (drop (Z.to_nat offset) items) [] in
      match list.last page with
      | None => []
      | Some item => page ++ read_pages fuel fits items (item_offset item)
      end
  end.

Lemma add_loop_prefix fits items added :
  ∃ k, add_loop fits items added = added ++ take k items.
Proof.
  revert added. induction items as [|item items IH]; intros added; cbn.
  { exists 0%nat. by rewrite app_nil_r. }
  destruct (fits added item); [| exists 0%nat; by rewrite app_nil_r].
  destruct (IH (added ++ [item])) as [k ->]. exists (S k). cbn. by rewrite <- app_assoc.
Qed.

Lemma add_loop_progress fits item items :
  fits [] item = true → ∃ k, add_loop fits (item :: items) [] = take (S k) (item :: items).
Proof.
  intros Hf. cbn. rewrite Hf. destruct (add_loop_prefix fits items [item]) as [k ->]. by exists k.
Qed.

Lemma dir_items_offset es k item :
  dir_items es !! k = Some item → item_offset item = Z.of_nat k + 1.
Proof. unfold dir_items. rewrite list_lookup_imap. by intros (e & _ & ->)%fmap_Some. Qed.

Lemma read_pages_complete fuel fits es n :
  (∀ off item, fits off [] item = true) → (length (dir_items es) - n < fuel)%nat →
  read_pages fuel fits (dir_items es) (Z.of_nat n) = drop n (dir_items es).
Proof.
  intros Hf. revert n. induction fuel as [|fuel IH]; intros n Hn; [lia |]. cbn [read_pages].
  rewrite Nat2Z.id. destruct (drop n (dir_items es)) as [|item rest] eqn:Ed; [done |].
  destruct (add_loop_progress (fits (Z.of_nat n)) item rest (Hf _ _)) as [k ->].
  set (page := take (S k) (item :: rest)).
  assert (n < length (dir_items es))%nat as Hlt.
  { apply not_ge. intros Hge. rewrite drop_ge in Ed by lia. done. }
  assert (∃ last, list.last page = Some last ∧ item_offset last = Z.of_nat (n + length page))
    as (l & Hl & Hoff).
  { destruct page as [|x page' _] eqn:Ep using rev_ind; [by subst page |].
    rewrite last_snoc. exists x. split; [done |].
    assert (dir_items es !! (n + length page')%nat = Some x) as Hx.
    { rewrite <- lookup_drop, Ed. apply (prefix_lookup_Some (page' ++ [x])).
      - by rewrite lookup_app_r, Nat.sub_diag by lia.
      - rewrite <- Ep. apply prefix_take. }
    rewrite (dir_items_offset _ _ _ Hx), length_app. cbn. lia. }
  rewrite Hl, Hoff. assert (1 ≤ length page)%nat as Hpos by (subst page; cbn; lia).
  rewrite IH by lia. rewrite <- drop_drop, Ed. subst page.
  rewrite length_take. destruct (Nat.le_gt_cases (S k) (length (item :: rest))).
  - rewrite Nat.min_l by lia. apply take_drop.
  - rewrite Nat.min_r by lia. rewrite take_ge, drop_ge by lia. apply app_nil_r.
Qed.

(** ** Properties *)
Section properties.
Context {W P S : Type} {FF : FuserFlags} {RP : ReadOnlyFilesystemProvider W P}.
Context {SL : Slab (OpenHandle P) S} {SLL : SlabLaws (OpenHandle P) S}.
Context {PI : ProviderInvariant W P}.

(** C1: the adapter's tables stay consistent under every sequence of requests,
    including requests whose provider call fails, times out or is cancelled
    part-way: the inode table and the handle table keep their invariants, each
    cached node has a well-formed path and a live inode that carries this path
    as an alias, and inode 1 is always the root of the provider. *)
Theorem adapter_invariant provider resource di pk uid gid ot mo mh ht (outcome : Outcome W) w
  (self : ReadOnlyFuseAdapter P S) w' (rs : list (FsRequest W)) :
  0 ≤ mh → outcome_ok outcome → world_ok w →
  adapter_new provider resource di pk uid gid ot mo mh ht outcome w = (Ok self, w') →
  Forall request_ok rs →
  adapter_wf (serve_all rs (self, w')).1 ∧ world_ok (serve_all rs (self, w')).2.
Proof.
  intros Hmh Ho Hw Hnew Hrs. apply (serve_all_inv rs (self, w') Hrs). by eapply adapter_new_inv.
Qed.

(** C2: nothing can be written through the adapter.  Every mutating operation
    replies EROFS and changes nothing; an open with write access or with a
    create, exclusive, truncate or append flag replies EROFS and neither calls
    the provider nor changes the adapter; [access] never grants write
    permission; and the mode bits of a file or directory grant no write bit. *)
Theorem adapter_read_only (s : ReadOnlyFuseAdapter P S * W) (op : MutationRequest)
  (request : Request) (i flags mask : Z) (outcome : Outcome W) (now : Z) (md : VirtualMetadata) :
  FuserFlagsLaws →
  fs_mutation op s = (ReplyError EROFS, s) ∧
  (Z.land flags 3 ≠ 0 ∨ Z.land flags (Z.lor (Z.lor (Z.lor O_CREAT O_EXCL) O_TRUNC) O_APPEND) ≠ 0 →
   fs_open request i flags outcome now s = (ReplyError EROFS, s)) ∧
  (Z.testbit mask 1 = true →
   fs_access s.1 i mask = ReplyError EROFS ∨ fs_access s.1 i mask = ReplyError ENOENT) ∧
  (file_type md ≠ Symlink → Z.land (perm (attr s.1 i md)) 146 = 0).
Proof.
  intros HF. split_and!.
  - by destruct op.
  - intros Hfl. unfold fs_open, reply_with. destruct (is_read_only_open flags) eqn:E; [| done].
    apply is_read_only_open_spec in E. naive_solver.
  - intros Hb. unfold fs_access, ad_node. destruct (ad_nodes s.1 !! i); cbn [ok_or]; [| by right].
    left. replace (Z.land mask W_OK) with W_OK; [done |]. symmetry.
    apply Z.bits_inj'. intros k Hk. rewrite Z.land_spec. unfold W_OK.
    destruct (Z.eq_dec k 1) as [->|Hne]; [by rewrite Hb |].
    change 2 with (2 ^ 1). rewrite Z.pow2_bits_false by lia. apply andb_false_r.
  - intros Hs. unfold attr. cbn [perm]. by destruct (file_type md).
Qed.

(** A released file handle is dead.  Once [release] was served for an open
    handle - also when the provider's close fails or times out - every later
    read or release of that handle replies EBADF, changes nothing and does not
    reach the provider, whatever other requests were served in between, as long
    as fewer than 2^32 - 1 of them are releases. *)
Theorem adapter_release_final (s : ReadOnlyFuseAdapter P S * W) (h : Z) (hd : OpenHandle P)
  (o1 o2 o3 : Outcome W) (rs : list (FsRequest W)) (request : Request) (off sz now : Z) :
  fs_inv s → live_id (ad_handles s.1) h hd →
  foldr (fun r n => releases r + n) 0 rs < 2 ^ 32 - 1 →
  let s' := serve_all rs (fs_release h o1 s).2 in
  fs_read request h off sz o2 now s' = (ReplyError EBADF, s') ∧
  fs_release h o3 s' = (ReplyError EBADF, s').
Proof.
  intros [Hwf _] Hl Hc s'. pose proof (awf_handles _ Hwf) as Hh.
  assert (ad_handles (fs_release h o1 s).2.1 = (handle_remove (ad_handles s.1) h).2 ∧
          (handle_remove (ad_handles s.1) h).1 = Ok hd) as [Hrel Hok].
  { destruct (handle_remove_live (ad_handles s.1) h) as [(h2 & [_ Hl2] & Hr & _) | [Hn _]];
      [| by apply Hn in Hl]. destruct Hl as [_ Hl]. split; [| congruence].
    unfold fs_release, reply_with, mbind, prog_bind, modify.
    destruct (handle_remove (ad_handles s.1) h) as [r hs]. cbn in Hr. subst r.
    pose proof (ad_execute_handles o1 (p_close (Handle.provider h2) (provider_handle h2))
                  (set_handles s.1 hs, s.2)) as He. by destruct (ad_execute _ _ _). }
  destruct (serve_all_handles rs (fs_release h o1 s).2) as (ops & Hops & Hr). fold s' in Hops.
  rewrite Hrel in Hops.
  pose proof (removed_stays_dead (ad_handles s.1) h hd ops Hh Hok ltac:(lia)) as Hdead.
  rewrite <- Hops in Hdead. clearbody s'. destruct s' as [self w]. cbn [fst] in *.
  assert (set_handles self (ad_handles self) = self) as Heta by (by destruct self).
  split.
  - unfold fs_read, reply_with, mbind, prog_bind, modify. cbn [fst snd].
    destruct (handle_get_mut_live (ad_handles self) h now) as [(h2 & H & _) | [_ ->]];
      [by apply Hdead in H |]. by rewrite Heta.
  - unfold fs_release, reply_with, mbind, prog_bind, modify. cbn [fst snd].
    destruct (handle_remove_live (ad_handles self) h) as [(h2 & H & _) | [_ ->]];
      [by apply Hdead in H |]. by rewrite Heta.
Qed.

(** C3: reads of an opened file return the provider's bytes.  When [open]
    replies with a handle, the node is a regular file, the flags are read-only,
    the provider opened it, and the next read through that handle replies with
    exactly what the provider's [read_at] returns for the provider's own handle
    (or its error). *)
Theorem adapter_open_read (s s1 : ReadOnlyFuseAdapter P S * W) (request request' : Request)
  (i flags now now' fh off sz : Z) :
  fs_inv s → fs_open request i flags Completed now s = (ReplyOpened fh, s1) →
  ∃ node ctx ph ctx',
    ad_node s.1 i = Ok node ∧ file_type (node_metadata node) = RegularFile ∧
    is_read_only_open flags = true ∧
    p_open (ad_provider s.1) (node_path node) flags ctx s.2 = (Ok ph, s1.2) ∧
    (fs_read request' fh off sz Completed now' s1).1 =
      match (p_read_at (ad_provider s.1) ph off sz ctx' s1.2).1 with
      | Ok data => ReplyData data
      | Err e => ReplyError (VfsError_errno e)
      | Panic site => ReplyPanic site
      end.
Proof.
  destruct s as [self w]. intros [Hwf _] Ho. cbn [fst snd] in *. unfold fs_open, reply_with in Ho.
  destruct (is_read_only_open flags); cbn [negb] in Ho; [| done].
  unfold mbind, prog_bind, asks, lift, modify, ad_context, ad_execute, call, execute in Ho.
  cbn [fst snd] in Ho. destruct (ad_node self i) as [node|e|p] eqn:En; [| done | done].
  destruct (file_type (node_metadata node)) eqn:Eft; try done.
  cbn [fst snd modify set_next_request_id] in Ho.
  set (ctx := mkRequestContext _ _ _ _) in Ho.
  destruct (p_open (ad_provider self) (node_path node) flags ctx w) as [[ph|e|p] w1] eqn:Eo; [| done | done].
  unfold set_next_request_id in Ho. cbn [fst snd ad_handles ad_resource] in Ho.
  set (hd := mkOpenHandle _ _ _ _ _ _ _ _) in Ho.
  destruct (handle_insert_cases (ad_handles self) hd now (awf_handles _ Hwf))
    as [[_ E] | (id & Hid & _ & Hlive & _)]; [by rewrite E in Ho |].
  destruct (handle_insert (ad_handles self) hd now) as [r hs]. cbn in Hid, Hlive. subst r.
  injection Ho as <- <-. cbn [snd].
  exists node, ctx, ph, (mkRequestContext (req_uid request') (req_gid request') (req_pid request')
                           (wrapping_add 64 (next_request_id self) 1)).
  split_and!; [done | done | done | done |].
  unfold fs_read, reply_with, mbind, prog_bind, modify, set_handles. cbn [fst snd ad_handles].
  destruct (handle_get_mut_live hs id now') as [(h2 & Hl2 & Hg) | [Hn _]]; [| by apply Hn in Hlive].
  destruct Hlive as [_ Hl]. destruct Hl2 as [_ Hl2]. rewrite Hl in Hl2. injection Hl2 as <-.
  destruct (handle_get_mut hs id now') as [r hs2]. cbn in Hg. subst r.
  unfold ad_context, modify, ad_execute, call, execute. cbn [fst snd].
  cbn [Handle.provider provider_handle set_last_accessed_at set_opened_at hd].
  by destruct (p_read_at _ _ _ _ _ _) as [[data|e|p] w2].
Qed.

End properties.



(** ** A concrete adapter over the in-memory provider *)
Definition SampleAdapter := ReadOnlyFuseAdapter () (list (option (OpenHandle ()))).

Definition sample_adapter : SampleAdapter :=
  {| ad_provider := tt;
     ad_resource := Volume "v";
     ad_daemon_identity := "d";
     ad_provider_key := "k";
     ad_uid := 1000;
     ad_gid := 1000;
     inodes := InodeTable_new;
     ad_nodes := {[ROOT_INODE := mkCachedNode VirtualPath_root (VirtualMetadata_directory (bytes "root"))]};
     ad_handles := mkOpenHandleTable [] [] 1 30;
     next_request_id := 1 |}.

Lemma sample_world_ok : memory_ok sample_world.
Proof.
  split; [apply sample_world_wf |]. intros p n t Hn Hc.
  assert (Forall (fun e => ∀ t, mem_content e.2 = MemSymlink t → target_wf t)
            (map_to_list (nodes sample_world))) as Hall.
  { vm_compute map_to_list. repeat (apply Forall_cons; [| ]); [.. | constructor];
      intros t' E; try discriminate E. injection E as <-. split; apply (bool_decide_unpack _); vm_compute; exact I. }
  eapply (proj1 (list.Forall_forall _ _) Hall (p, n)); [by apply elem_of_map_to_list | done].
Qed.

Lemma sample_adapter_new :
  adapter_new tt (Volume "v") "d" "k" 1000 1000 5 1 1 30 Completed sample_world
  = (Ok sample_adapter, sample_world).
Proof. reflexivity. Qed.

Lemma sample_adapter_inv : fs_inv (sample_adapter, sample_world).
Proof.
  eapply adapter_new_inv; [| | | exact sample_adapter_new]; [lia | exact I | apply sample_world_ok].
Qed.

Definition sample_request : Request := mkRequest 1000 1000 42.

(** The kernel walks to [/etc/hosts] (inode 3) and opens it (handle 0). *)
Definition sample_walk (name : string) : list (FsRequest InMemoryProvider) :=
  [RqLookup sample_request 1 (bytes "etc") Completed; RqLookup sample_request 2 (bytes name) Completed].
Definition sample_state (name : string) : SampleAdapter * InMemoryProvider :=
  serve_all (sample_walk name) (sample_adapter, sample_world).

Lemma sample_state_inv name : fs_inv (sample_state name).
Proof. apply serve_all_inv; [repeat constructor | apply sample_adapter_inv]. Qed.

(** Witness: two lookups and a read that times out. *)
Lemma adapter_invariant_witness :
  let rs := sample_walk "hosts" ++ [RqRead sample_request 0 0 10 (Elapsed id) 3] in
  adapter_wf (serve_all rs (sample_adapter, sample_world)).1 ∧
  world_ok (serve_all rs (sample_adapter, sample_world)).2.
Proof.
  intros rs. eapply adapter_invariant; [| | | exact sample_adapter_new |].
  - lia.
  - exact I.
  - apply sample_world_ok.
  - do 2 (apply Forall_cons; [exact I |]). apply Forall_cons; [| constructor]. intros w Hw. exact Hw.
Defined.

(** Witness: an open for writing. *)
Lemma adapter_read_only_witness :
  fs_open sample_request 1 1 Completed 0 (sample_adapter, sample_world)
  = (ReplyError EROFS, (sample_adapter, sample_world)).
Proof.
  destruct (adapter_read_only (sample_adapter, sample_world) Mkdir sample_request 1 1 2 Completed 0
              (VirtualMetadata_directory []) _) as (_ & H & _).
  apply H. left. vm_compute. discriminate.
Defined.

Definition sample_open_handle : OpenHandle () :=
  mkOpenHandle tt (mkProviderFileHandle 1 (sample_path "/etc/hosts") 0) (Volume "v")
    (sample_path "/etc/hosts") 0 "provider" 7 7.

Lemma sample_opened_live :
  live_id (ad_handles (serve_all [RqOpen sample_request 3 0 Completed 7] (sample_state "hosts")).1) 0
    sample_open_handle.
Proof. split; vm_compute; reflexivity. Qed.

(** Witness: the handle is released, with a close that times out. *)
Lemma adapter_release_final_witness :
  let s := serve_all [RqOpen sample_request 3 0 Completed 7] (sample_state "hosts") in
  let s' := serve_all [] (fs_release 0 (Elapsed id) s).2 in
  fs_read sample_request 0 0 10 Completed 9 s' = (ReplyError EBADF, s') ∧
  fs_release 0 Completed s' = (ReplyError EBADF, s').
Proof.
  intros s.
  apply (adapter_release_final s 0 sample_open_handle (Elapsed id) Completed Completed []
           sample_request 0 10 9).
  - apply serve_all_inv; [repeat constructor | apply sample_state_inv].
  - apply sample_opened_live.
  - vm_compute. reflexivity.
Defined.

Lemma sample_open_reply :
  (fs_open sample_request 3 0 Completed 7 (sample_state "hosts")).1 = ReplyOpened 0.
Proof. vm_compute. reflexivity. Qed.

(** Witness: the hosts file is opened and read. *)
Lemma adapter_open_read_witness :
  ∃ s1 ph ctx',
    fs_open sample_request 3 0 Completed 7 (sample_state "hosts") = (ReplyOpened 0, s1) ∧
    (fs_read sample_request 0 0 9 Completed 8 s1).1 =
      match (p_read_at tt ph 0 9 ctx' s1.2).1 with
      | Ok data => ReplyData data
      | Err e => ReplyError (VfsError_errno e)
      | Panic site => ReplyPanic site
      end.
Proof.
  pose proof sample_open_reply as Hr.
  destruct (fs_open sample_request 3 0 Completed 7 (sample_state "hosts")) as [r s1] eqn:E.
  cbn in Hr. subst r.
  destruct (adapter_open_read (sample_state "hosts") s1 sample_request sample_request 3 0 7 8 0 0 9
              (sample_state_inv "hosts") E) as (node & ctx & ph & ctx' & _ & _ & _ & _ & H).
  exists s1, ph, ctx'. split; [reflexivity | exact H].
Defined.

Lemma sample_readlink_reply :
  (fs_readlink sample_request 3 Completed (sample_state "link")).1 = ReplyData (bytes "../etc/hosts").
Proof. vm_compute. reflexivity. Qed.

