(* ===== verification/TarIndex.v ===== *)
(** The metadata index of a tar archive
    (crates/docker-core/src/vfs_providers/tar_index.rs): resource limits,
    relative archive paths, entries and the map of entries with its synthetic
    parent directories. *)

From stdpp Require Import relations.
From S2P Require Import Prelude Error Path Model.

Local Open Scope Z_scope.

Definition TAR_BLOCK : Z := 512.

Record TarLimits := mkTarLimits {
  max_archive_bytes : Z;
  max_entries : Z;
  max_path_bytes : Z;
  max_extension_bytes : Z;
  max_entry_bytes : Z;
}.

Definition TarLimits_default : TarLimits :=
  {| max_archive_bytes := 8 * 1024 * 1024 * 1024;
     max_entries := 100000;
     max_path_bytes := 16 * 1024;
     max_extension_bytes := 1024 * 1024;
     max_entry_bytes := 2 * 1024 * 1024 * 1024 |}.

Definition TarLimits_validate (self : TarLimits) : vres () :=
  if (max_archive_bytes self <? TAR_BLOCK * 2) || (max_entries self =? 0)
     || (max_path_bytes self =? 0) || (max_extension_bytes self =? 0)
     || (max_entry_bytes self =? 0) || (max_archive_bytes self <? max_entry_bytes self)
  then Err (InvalidInput "invalid tar resource limits")
  else Ok tt.

(** ** Paths of an archive: components relative to its root *)
Abbreviation TarPath := (list (list byte)).

Definition TarPath_root : TarPath := [].
Definition TarPath_is_root (self : TarPath) : bool := is_empty self.
Definition TarPath_depth (self : TarPath) : nat := length self.

Definition TarPath_parent (self : TarPath) : option TarPath :=
  if TarPath_is_root self then None else Some (take (length self - 1) self).

Definition TarPath_name (self : TarPath) : option (list byte) := list.last self.

Definition TarPath_starts_with (self pre : TarPath) : bool := bool_decide (pre `prefix_of` self).

Definition TarPath_is_descendant_of (self parent : TarPath) : bool :=
  (TarPath_depth parent <? TarPath_depth self)%nat && TarPath_starts_with self parent.

Definition encoded_len (self : TarPath) : Z :=
  if TarPath_is_root self then 1 else foldr (fun c acc => len c + 1 + acc) 0 self.

(** The loop over the pieces between slashes. *)
Fixpoint tar_components (pieces : list (list byte)) (cs : TarPath) : vres TarPath :=
  match pieces with
  | [] => Ok cs
  | c :: rest =>
      if is_empty c || bool_decide (c = bytes ".") then tar_components rest cs
      else if bool_decide (c = bytes "..") then Err SymlinkEscape
      else
        name ← VirtualFileName_new c;
        tar_components rest (cs ++ [VirtualFileName_as_bytes name])
  end.

Definition from_tar_bytes (raw : list byte) (limits : TarLimits) : vres TarPath :=
  if max_path_bytes limits <? len raw then Err PathTooLong
  else if bool_decide (head raw = Some "/"%byte) then Err (InvalidInput "absolute tar entry path")
  else if contains "000"%byte raw then Err (InvalidInput "NUL in tar entry path")
  else
    path ← tar_components (split_on "/"%byte raw) [];
    if max_path_bytes limits <? encoded_len path then Err PathTooLong else Ok path.

Definition from_virtual (path : VirtualPath) : TarPath :=
  map VirtualFileName_as_bytes (components path).

Definition to_virtual (self : TarPath) : vres VirtualPath :=
  names ← mapM_result VirtualFileName_new self;
  VirtualPath_from_components names.

(** ** Entries *)
Inductive TarEntryKind :=
  | TRegularFile
  | TDirectory
  | TSymlink
  | THardlink
  | TCharacterDevice
  | TBlockDevice
  | TNamedPipe
  | TOther.

#[export] Instance TarEntryKind_eq_dec : EqDecision TarEntryKind.
Proof. solve_decision. Defined.

Record TarEntry := mkTarEntry {
  te_raw_path : list byte;
  te_path : TarPath;
  te_kind : TarEntryKind;
  te_size : Z;
  te_mode : Z;
  te_uid : Z;
  te_gid : Z;
  te_mtime : Z;
  te_link_target : option (list byte);
  te_device_major : option Z;
  te_device_minor : option Z;
  te_synthetic : bool;
}.

#[export] Instance TarEntry_eq_dec : EqDecision TarEntry.
Proof. solve_decision. Defined.

(** Mode 0o755. *)
Definition TarEntry_root : TarEntry :=
  mkTarEntry (bytes ".") TarPath_root TDirectory 0 493 0 0 0 None None None true.

(** [bytes.push(b'/')] before every component but the first. *)
Definition synthetic_raw_path (path : TarPath) : list byte :=
  foldl (fun bs (e : nat * list byte) => (if (e.1 =? 0)%nat then bs else bs ++ ["/"%byte]) ++ e.2) []
    (imap pair path).

Definition synthetic_directory (path : TarPath) : TarEntry :=
  mkTarEntry (synthetic_raw_path path) path TDirectory 0 493 0 0 0 None None None true.

(** Nanoseconds; [SystemTime] holds every [i64] second on Unix. *)
Definition system_time (seconds : Z) : Z :=
  if 0 <=? seconds then UNIX_EPOCH + seconds * 10 ^ 9 else UNIX_EPOCH - Z.abs seconds * 10 ^ 9.

Definition entry_file_type (kind : TarEntryKind) : VirtualFileType :=
  match kind with
  | TRegularFile | THardlink => RegularFile
  | TDirectory => Directory
  | TSymlink => Symlink
  | TCharacterDevice => CharacterDevice
  | TBlockDevice => BlockDevice
  | TNamedPipe => NamedPipe
  | TOther => Socket
  end.

Definition TarEntry_metadata (self : TarEntry) (identity_prefix : list byte) (generation : Z)
  : VirtualMetadata :=
  {| node_id := identity_prefix ++ "000"%byte :: te_raw_path self;
     file_type := entry_file_type (te_kind self);
     size := te_size self;
     nlink := if bool_decide (te_kind self = THardlink) then 2 else 1;
     mtime := system_time (te_mtime self);
     original := mkOriginalMetadata (te_mode self) (te_uid self) (te_gid self);
     device_id :=
       match te_device_major self, te_device_minor self with
       | Some major, Some minor => Some (Z.lor (Z.shiftl major 32) minor)
       | _, _ => None
       end;
     generation := generation |}.

(** ** The index *)
Record TarIndex := mkTarIndex { entries : gmap TarPath TarEntry }.

Definition TarIndex_empty : TarIndex := mkTarIndex {[TarPath_root := TarEntry_root]}.

Definition TarIndex_len (self : TarIndex) : Z := Z.of_nat (base.size (entries self)).

Definition TarIndex_get (self : TarIndex) (path : TarPath) : option TarEntry := entries self !! path.

(** The order of [Vec<Vec<u8>>]; a [BTreeMap] iterates in the order of its keys. *)
Definition tar_path_cmp : TarPath → TarPath → comparison := cmp_lex bytes_cmp.
Definition TarIndex_iter (self : TarIndex) : list (TarPath * TarEntry) :=
  sort_by (cmp_by fst tar_path_cmp) (map_to_list (entries self)).

(** The loop of [resolve_hardlink], [for _ in 0..40]. *)
Fixpoint resolve_hardlink_loop (self : TarIndex) (n : nat) (current : TarPath) (visited : gset TarPath)
  : vres TarEntry :=
  match n with
  | O => Err SymlinkLoop
  | S n =>
      if bool_decide (current ∈ visited) then Err SymlinkLoop
      else
        entry ← ok_or NotFound (TarIndex_get self current);
        if negb (bool_decide (te_kind entry = THardlink)) then Ok entry
        else
          target ← ok_or (Io "hardlink has no target") (te_link_target entry);
          current' ← from_tar_bytes target TarLimits_default;
          resolve_hardlink_loop self n current' ({[current]} ∪ visited)
  end.

Definition resolve_hardlink (self : TarIndex) (path : TarPath) : vres TarEntry :=
  resolve_hardlink_loop self 40 path ∅.

Definition with_nlink (m : VirtualMetadata) (n : Z) : VirtualMetadata :=
  mkVirtualMetadata (node_id m) (file_type m) (size m) n (mtime m) (original m) (device_id m)
    (generation m).

Definition TarIndex_metadata (self : TarIndex) (path : TarPath) (identity_prefix : list byte)
  (generation : Z) : vres VirtualMetadata :=
  entry ← ok_or NotFound (TarIndex_get self path);
  if negb (bool_decide (te_kind entry = THardlink))
  then Ok (TarEntry_metadata entry identity_prefix generation)
  else
    target ← resolve_hardlink self path;
    let metadata := TarEntry_metadata target identity_prefix generation in
    Ok (with_nlink metadata (Z.max (nlink metadata) 2)).

Definition content_path (self : TarIndex) (path : VirtualPath) : vres VirtualPath :=
  let path := from_virtual path in
  entry ← ok_or NotFound (TarIndex_get self path);
  content ← (if bool_decide (te_kind entry = THardlink) then resolve_hardlink self path else Ok entry);
  match te_kind content with
  | TRegularFile => to_virtual (te_path content)
  | TDirectory => Err IsDirectory
  | TCharacterDevice | TBlockDevice | TNamedPipe | TOther => Err SpecialFile
  | _ => Err (InvalidInput "node is not a regular file")
  end.

Definition children (self : TarIndex) (parent : TarPath) : list TarEntry :=
  let expected_depth := (TarPath_depth parent + 1)%nat in
  List.filter (fun entry => (TarPath_depth (te_path entry) =? expected_depth)%nat
                            && bool_decide (TarPath_parent (te_path entry) = Some parent))
    (snd <$> TarIndex_iter self).

Definition directory_entries (self : TarIndex) (parent : VirtualPath) (identity_prefix : list byte)
  (generation : Z) : vres (list VirtualDirectoryEntry) :=
  let path := from_virtual parent in
  entry ← ok_or NotFound (TarIndex_get self path);
  if negb (bool_decide (te_kind entry = TDirectory)) then Err NotDirectory
  else
    mapM_result
      (fun entry =>
         name ← ok_or NotFound (TarPath_name (te_path entry));
         name ← VirtualFileName_new name;
         metadata ← TarIndex_metadata self (te_path entry) identity_prefix generation;
         Ok (mkVirtualDirectoryEntry name metadata))
      (children self path).

Definition TarIndex_insert (self : TarIndex) (path : TarPath) (e : TarEntry) : TarIndex :=
  mkTarIndex (<[path := e]> (entries self)).

Definition ensure_capacity (self : TarIndex) (max : Z) : vres () :=
  if max <=? saturating_sub (TarIndex_len self) 1
  then Err (Unavailable "tar entry limit exceeded") else Ok tt.

(** The missing ancestors of a path, nearest first: the [while let] loop, whose
    fuel is the depth of the path. *)
Fixpoint missing_parents (self : TarIndex) (fuel : nat) (parent : option TarPath) : list TarPath :=
  match fuel, parent with
  | S fuel, Some path =>
      if bool_decide (is_Some (entries self !! path)) then []
      else path :: missing_parents self fuel (TarPath_parent path)
  | _, _ => []
  end.

(** [for path in missing { self.ensure_capacity(max)?; self.entries.insert(…) }] *)
Fixpoint insert_missing (self : TarIndex) (missing : list TarPath) (max : Z) : vres () * TarIndex :=
  match missing with
  | [] => (Ok tt, self)
  | path :: missing =>
      match ensure_capacity self max with
      | Ok _ => insert_missing (TarIndex_insert self path (synthetic_directory path)) missing max
      | Err e => (Err e, self)
      | Panic s => (Panic s, self)
      end
  end.

Definition insert_with_parents (self : TarIndex) (entry : TarEntry) (max : Z) : vres () * TarIndex :=
  let missing := missing_parents self (TarPath_depth (te_path entry)) (TarPath_parent (te_path entry)) in
  match insert_missing self (reverse missing) max with
  | (Ok _, self) =>
      match entries self !! te_path entry with
      | Some existing =>
          if te_synthetic existing && negb (te_synthetic entry)
          then (Ok tt, TarIndex_insert self (te_path entry) entry)
          else (Err (InvalidInput "duplicate tar entry path"), self)
      | None =>
          match ensure_capacity self max with
          | Ok _ => (Ok tt, TarIndex_insert self (te_path entry) entry)
          | Err e => (Err e, self)
          | Panic s => (Panic s, self)
          end
      end
  | (Err e, self) => (Err e, self)
  | (Panic s, self) => (Panic s, self)
  end.

Definition insert_synthetic_directory (self : TarIndex) (path : TarPath) (max : Z) : vres () * TarIndex :=
  if TarPath_is_root path then (Ok tt, self)
  else insert_with_parents self (synthetic_directory path) max.

Definition remove_descendants (self : TarIndex) (root : TarPath) : TarIndex :=
  mkTarIndex (filter (fun e => TarPath_is_descendant_of e.1 root = false) (entries self)).

Definition TarIndex_replace (self : TarIndex) (entry : TarEntry) : TarIndex :=
  TarIndex_insert self (te_path entry) entry.

(** One turn of the loop of [validate_persisted]. *)
Definition validate_entry (self : TarIndex) (limits : TarLimits) (e : TarPath * TarEntry) : vres () :=
  let '(path, entry) := e in
  if negb (bool_decide (path = te_path entry)) || (max_path_bytes limits <? encoded_len path)
  then Err (InvalidInput "corrupt tar index path")
  else
    _ ← (if TarPath_is_root path then Ok tt
         else match TarPath_parent path with
              | None => Panic "non-root"
              | Some parent =>
                  guard_err (negb (bool_decide (is_Some (entries self !! parent))))
                    (InvalidInput "corrupt tar index parent")
              end);
    if bool_decide (te_kind entry = THardlink) then
      target ← ok_or (InvalidInput "corrupt hardlink target") (te_link_target entry);
      _ ← from_tar_bytes target limits;
      Ok tt
    else Ok tt.

Definition validate_persisted (self : TarIndex) (limits : TarLimits) : vres () :=
  _ ← TarLimits_validate limits;
  if (max_entries limits + 1 <? TarIndex_len self)
     || negb (bool_decide (te_kind <$> entries self !! TarPath_root = Some TDirectory))
  then Err (InvalidInput "corrupt tar index")
  else
    _ ← mapM_result (validate_entry self limits) (TarIndex_iter self);
    Ok tt.

(** ** Paths *)
Definition tar_name_ok (c : list byte) : Prop := name_ok c.

Lemma tar_components_ok pieces cs ds :
  Forall tar_name_ok cs → tar_components pieces cs = Ok ds → Forall tar_name_ok ds.
Proof.
  revert cs. induction pieces as [|c pieces IH]; intros cs Hcs; cbn; [by intros [= <-] |].
  case_match; [by apply IH |]. case_match; [done |]. rewrite bind_Ok.
  intros (n & Hn & Hr). apply VirtualFileName_new_Ok in Hn as [-> Hn]. eapply IH; [| exact Hr].
  apply Forall_app. split; [done |]. by apply Forall_cons.
Qed.

Lemma from_tar_bytes_ok raw limits p :
  from_tar_bytes raw limits = Ok p → Forall tar_name_ok p ∧ encoded_len p ≤ max_path_bytes limits.
Proof.
  unfold from_tar_bytes. repeat (case_match; [done |]). rewrite bind_Ok. intros (q & Hq & Hp).
  destruct (Z.ltb_spec (max_path_bytes limits) (encoded_len q)); [done |]. injection Hp as <-.
  split; [| lia]. eapply tar_components_ok; [constructor | done].
Qed.

Lemma tar_components_no_panic pieces cs s : tar_components pieces cs ≠ Panic s.
Proof.
  revert cs. induction pieces as [|c pieces IH]; intros cs; cbn; [done |].
  case_match; [apply IH |]. case_match; [done |].
  destruct (VirtualFileName_new c) as [n| |s'] eqn:E; cbn; [apply IH | done |].
  by apply VirtualFileName_new_no_panic in E.
Qed.

Lemma from_tar_bytes_no_panic raw limits s : from_tar_bytes raw limits ≠ Panic s.
Proof.
  unfold from_tar_bytes. repeat (case_match; [done |]).
  destruct (tar_components _ _) as [q| |s'] eqn:E; cbn; [by case_match | done |].
  by apply tar_components_no_panic in E.
Qed.

Lemma encoded_len_sum (cs : TarPath) :
  encoded_len cs = if is_empty cs then 1 else components_len (map mkVirtualFileName cs).
Proof.
  unfold encoded_len, TarPath_is_root, components_len. destruct (is_empty cs); [done |].
  induction cs as [|c cs IH]; [done |]. cbn in *. by rewrite IH.
Qed.

Lemma encoded_len_path_len (cs : TarPath) : encoded_len cs = path_len (map mkVirtualFileName cs).
Proof. rewrite encoded_len_sum. unfold path_len. by destruct cs. Qed.

Lemma encoded_len_take p k : encoded_len (take k p) ≤ encoded_len p.
Proof.
  rewrite !encoded_len_path_len. rewrite <- (take_drop k p) at 2. rewrite map_app. apply path_len_app_l.
Qed.

Lemma mapM_names (p : TarPath) :
  Forall tar_name_ok p → mapM_result VirtualFileName_new p = Ok (map mkVirtualFileName p).
Proof.
  intros Hp. apply mapM_result_Ok. induction Hp as [|c p Hc Hp IH]; cbn; constructor; [| done].
  by apply VirtualFileName_new_Ok.
Qed.

Lemma to_virtual_ok (p : TarPath) :
  Forall tar_name_ok p → encoded_len p ≤ DEFAULT_MAX_PATH_BYTES →
  ∃ v, to_virtual p = Ok v ∧ path_wf v ∧ from_virtual v = p.
Proof.
  intros Hp Hl. unfold to_virtual. rewrite mapM_names by done. cbn [mbind result_bind].
  rewrite encoded_len_path_len in Hl.
  eexists. split; [by apply from_components_Ok |]. split.
  - eapply from_components_wf; [| by apply from_components_Ok].
    apply Forall_map. eapply Forall_impl; [| exact Hp]. done.
  - unfold from_virtual. cbn. rewrite map_map. apply map_id.
Qed.

Lemma TarPath_parent_take p k :
  (S k ≤ length p)%nat → TarPath_parent (take (S k) p) = Some (take k p).
Proof.
  intros Hk. unfold TarPath_parent, TarPath_is_root.
  destruct (is_empty (take (S k) p)) eqn:E.
  { destruct p; [cbn in Hk; lia | done]. }
  rewrite length_take, Nat.min_l by lia. replace (S k - 1)%nat with k by lia.
  rewrite take_take. by rewrite Nat.min_l by lia.
Qed.

(** ** The invariant of the index *)
Record index_wf (limits : TarLimits) (self : TarIndex) : Prop := {
  iwf_size : TarIndex_len self ≤ max_entries limits + 1;
  iwf_root : te_kind <$> entries self !! TarPath_root = Some TDirectory;
  iwf_entry p e : entries self !! p = Some e →
    te_path e = p ∧ Forall tar_name_ok p ∧ encoded_len p ≤ max_path_bytes limits ∧
    (∀ parent, TarPath_parent p = Some parent → is_Some (entries self !! parent)) ∧
    (te_kind e = THardlink → ∃ t, te_link_target e = Some t ∧ is_ok (from_tar_bytes t limits) = true);
}.

(** What an entry must satisfy to enter the index. *)
Definition entry_ok (limits : TarLimits) (e : TarEntry) : Prop :=
  te_path e ≠ [] ∧ Forall tar_name_ok (te_path e) ∧ encoded_len (te_path e) ≤ max_path_bytes limits ∧
  (te_kind e = THardlink → ∃ t, te_link_target e = Some t ∧ is_ok (from_tar_bytes t limits) = true).

Lemma TarIndex_empty_wf limits :
  TarLimits_validate limits = Ok tt → 0 ≤ max_entries limits → 0 ≤ max_path_bytes limits →
  index_wf limits TarIndex_empty.
Proof.
  unfold TarLimits_validate. destruct (_ || _) eqn:E; [done |]. intros _ He Hp.
  rewrite !orb_false_iff, !Z.eqb_neq in E. destruct E as [[[[[_ ?] ?] _] _] _]. split.
  - unfold TarIndex_len, TarIndex_empty. cbn [entries]. rewrite map_size_singleton. lia.
  - unfold TarIndex_empty. cbn [entries]. by rewrite lookup_singleton_eq.
  - unfold TarIndex_empty. cbn [entries]. intros p e [<- <-]%lookup_singleton_Some. cbn.
    split_and!; [done | constructor | lia | done | done].
Qed.

Lemma index_wf_insert limits self e :
  index_wf limits self → entry_ok limits e →
  (∀ parent, TarPath_parent (te_path e) = Some parent → is_Some (entries self !! parent)) →
  (is_Some (entries self !! te_path e) ∨ TarIndex_len self ≤ max_entries limits) →
  index_wf limits (TarIndex_insert self (te_path e) e).
Proof.
  intros [Hs Hr He] (Hne & Hn & Hl & Hh) Hpar Hcap. unfold TarIndex_insert. split; cbn [entries].
  - unfold TarIndex_len in *. cbn [entries]. rewrite map_size_insert.
    destruct (entries self !! te_path e) as [e'|]; cbn; [lia |].
    destruct Hcap as [[? ?]|?]; [done | lia].
  - by rewrite lookup_insert_ne.
  - intros p e' [[<- <-] | [Hp Hl']]%lookup_insert_Some.
    + split_and!; [done | done | done | | done]. intros parent Hparent.
      apply lookup_insert_is_Some'. right. by apply Hpar.
    + apply He in Hl' as (? & ? & ? & Hp' & ?). split_and!; try done. intros parent Hparent.
      apply lookup_insert_is_Some'. right. by apply Hp'.
Qed.

Lemma index_wf_root_present limits self : index_wf limits self → is_Some (entries self !! TarPath_root).
Proof. intros Hwf. pose proof (iwf_root _ _ Hwf) as H. by destruct (entries self !! TarPath_root). Qed.

(** ** Insertion *)
Lemma missing_parents_spec self p k :
  is_Some (entries self !! TarPath_root) → (k ≤ length p)%nat →
  ∃ n, (n ≤ k)%nat ∧ is_Some (entries self !! take n p) ∧
       reverse (missing_parents self (S k) (Some (take k p)))
       = (fun j => take j p) <$> seq (S n) (k - n).
Proof.
  intros Hroot. induction k as [|k IH]; intros Hk; cbn [missing_parents].
  { exists 0%nat. rewrite bool_decide_eq_true_2 by done. done. }
  case_bool_decide as Hin.
  { exists (S k). rewrite Nat.sub_diag. done. }
  destruct IH as (n & Hn & Hsome & IH); [lia |]. exists n. split_and!; [lia | done |].
  rewrite TarPath_parent_take by lia. cbn [missing_parents] in IH. rewrite reverse_cons, IH.
  replace (S k - n)%nat with (S (k - n)) by lia. rewrite seq_S, fmap_app. cbn.
  do 3 f_equal. lia.
Qed.

Lemma insert_missing_wf limits p m n self :
  index_wf limits self → Forall tar_name_ok p → encoded_len p ≤ max_path_bytes limits →
  is_Some (entries self !! take n p) → (n + m ≤ length p)%nat →
  let r := insert_missing self ((fun j => take j p) <$> seq (S n) m) (max_entries limits) in
  index_wf limits r.2 ∧ (∀ s, r.1 ≠ Panic s) ∧
  (r.1 = Ok tt → is_Some (entries r.2 !! take (n + m) p)).
Proof.
  intros Hwf Hp Hl. revert n self Hwf. induction m as [|m IH]; intros n self Hwf Hin Hlen; cbn.
  { rewrite Nat.add_0_r. split_and!; try done. }
  unfold ensure_capacity, saturating_sub. destruct (Z.leb_spec (max_entries limits) (Z.max 0 (TarIndex_len self - 1)))
    as [Ecap|Ecap]; [split_and!; done |]. pose proof (iwf_size _ _ Hwf) as Hsz.
  set (d := synthetic_directory (take (S n) p)).
  assert (index_wf limits (TarIndex_insert self (take (S n) p) d)) as Hwf'.
  { apply (index_wf_insert limits self d Hwf).
    - unfold entry_ok. change (te_path d) with (take (S n) p).
      split_and!; [| by apply Forall_take | | done].
      + destruct p; [cbn in Hlen; lia | done].
      + pose proof (encoded_len_take p (S n)). lia.
    - intros parent Hpar. change (te_path d) with (take (S n) p) in Hpar.
      rewrite TarPath_parent_take in Hpar by lia. by injection Hpar as <-.
    - right. lia. }
  destruct (IH (S n) _ Hwf') as (H1 & H3 & H4); [| lia |].
  { cbn. by rewrite lookup_insert_eq. }
  split_and!; [done | done |]. intros Ho. rewrite Nat.add_succ_r. by apply H4.
Qed.

Lemma insert_with_parents_wf limits self e :
  index_wf limits self → entry_ok limits e →
  index_wf limits (insert_with_parents self e (max_entries limits)).2 ∧
  ∀ s, (insert_with_parents self e (max_entries limits)).1 ≠ Panic s.
Proof.
  intros Hwf Hok. pose proof Hok as (Hne & Hn & Hl & Hh).
  destruct (te_path e) as [|c cs _] eqn:Ep using rev_ind; [done |].
  set (p := cs ++ [c]) in *. assert (length p = S (length cs)) as Hlp by (unfold p; rewrite length_app; cbn; lia).
  unfold insert_with_parents. rewrite Ep. unfold TarPath_depth.
  assert (TarPath_parent p = Some (take (length cs) p)) as Hpar.
  { rewrite <- (take_ge p (length p)) at 1 by lia. rewrite Hlp. apply TarPath_parent_take. lia. }
  rewrite Hpar, Hlp.
  destruct (missing_parents_spec self p (length cs)) as (n & Hn' & Hin & ->);
    [by eapply index_wf_root_present | lia |].
  destruct (insert_missing_wf limits p (length cs - n) n self Hwf Hn Hl Hin) as (H1 & H3 & H4); [lia |].
  replace (n + (length cs - n))%nat with (length cs) in H4 by lia.
  destruct (insert_missing _ _ _) as [[[]|err|s] self'] eqn:Ei; cbn [fst snd] in *;
    [| done | by destruct (H3 s)].
  specialize (H4 eq_refl).
  assert (∀ parent, TarPath_parent (te_path e) = Some parent → is_Some (entries self' !! parent)) as Hparents.
  { intros parent. rewrite Ep, Hpar. by intros [= <-]. }
  rewrite <- Ep in *. destruct (entries self' !! te_path e) as [existing|] eqn:Ex.
  - destruct (_ && _); [| done]. split; [| done]. apply index_wf_insert; try done. by left.
  - unfold ensure_capacity, saturating_sub. destruct (Z.leb_spec (max_entries limits) (Z.max 0 (TarIndex_len self' - 1)))
      as [Ecap|Ecap]; [done |].
    split; [| done]. apply index_wf_insert; try done. right. lia.
Qed.

(** What insertion adds. *)
Lemma missing_parents_absent self fuel o q : q ∈ missing_parents self fuel o → entries self !! q = None.
Proof.
  revert o. induction fuel as [|fuel IH]; intros o; cbn; [by destruct o; intros ?%elem_of_nil |].
  destruct o as [p|]; [| by intros ?%elem_of_nil]. case_bool_decide as H; [by intros ?%elem_of_nil |].
  intros [->|Hq]%elem_of_cons; [by apply eq_None_not_Some | by eapply IH].
Qed.

Lemma insert_missing_lookup self missing max self' q :
  insert_missing self missing max = (Ok tt, self') →
  entries self' !! q = if decide (q ∈ missing) then Some (synthetic_directory q) else entries self !! q.
Proof.
  revert self. induction missing as [|p missing IH]; intros self; cbn [insert_missing].
  { intros [= <-]. by rewrite decide_False by (by intros ?%elem_of_nil). }
  destruct (ensure_capacity self max) as [u|e|s]; [| done | done]. intros ->%IH. cbn.
  destruct (decide (q ∈ missing)) as [Hin|Hin].
  - by rewrite decide_True by (by right).
  - destruct (decide (q = p)) as [->|Hne].
    + rewrite decide_True by (by left). apply lookup_insert_eq.
    + rewrite decide_False by (by intros [?|?]%elem_of_cons). by apply lookup_insert_ne.
Qed.

(** An index with a path has its ancestors. *)
Lemma ancestor_present limits self p q :
  index_wf limits self → is_Some (entries self !! p) → q `prefix_of` p → is_Some (entries self !! q).
Proof.
  intros Hwf Hp [k ->]. revert Hp. induction k as [|c k IH] using rev_ind; [by rewrite app_nil_r |].
  rewrite app_assoc. intros [e He]. apply IH. apply (iwf_entry _ _ Hwf _ _ He).
  unfold TarPath_parent, TarPath_is_root. destruct (is_empty _) eqn:E; [by apply is_empty_true in E; destruct (q ++ k) |].
  rewrite length_app. cbn. rewrite Nat.add_sub. by rewrite take_app_length.
Qed.

Lemma insert_with_parents_lookup limits self e self' q :
  index_wf limits self → te_path e ≠ [] → entries self !! te_path e = None →
  insert_with_parents self e (max_entries limits) = (Ok tt, self') →
  entries self' !! q = if decide (q = te_path e) then Some e
                       else match entries self !! q with
                            | Some x => Some x
                            | None => if decide (q `prefix_of` te_path e) then Some (synthetic_directory q) else None
                            end.
Proof.
  intros Hwf Hne Habs H. destruct (te_path e) as [|c cs _] eqn:Ep using rev_ind; [done |].
  set (p := cs ++ [c]) in *. assert (length p = S (length cs)) as Hlp by (unfold p; rewrite length_app; cbn; lia).
  unfold insert_with_parents in H. rewrite Ep in H. unfold TarPath_depth in H.
  assert (TarPath_parent p = Some (take (length cs) p)) as Hpar.
  { rewrite <- (take_ge p (length p)) at 1 by lia. rewrite Hlp. apply TarPath_parent_take. lia. }
  rewrite Hpar, Hlp in H. pose proof (missing_parents_absent self (S (length cs)) (Some (take (length cs) p))) as Hmiss.
  destruct (missing_parents_spec self p (length cs)) as (n & Hn & Hin & Hrev);
    [by eapply index_wf_root_present | lia |].
  rewrite Hrev in H. destruct (insert_missing _ _ _) as [[[]|err|s] self1] eqn:Ei; [| done | done].
  assert (∀ q, entries self1 !! q = match entries self !! q with
            | Some x => Some x
            | None => if decide (q `prefix_of` p ∧ q ≠ p) then Some (synthetic_directory q) else None end) as H1.
  { intros q'. rewrite (insert_missing_lookup _ _ _ _ q' Ei). case_decide as Hq.
    - assert (entries self !! q' = None) as ->.
      { apply Hmiss. rewrite <- elem_of_reverse. by rewrite Hrev. }
      apply list_elem_of_fmap in Hq as (j & -> & Hj%elem_of_seq). rewrite decide_True; [done |]. split; [apply prefix_take |].
      intros Heq. apply (f_equal length) in Heq. rewrite length_take in Heq. lia.
    - destruct (entries self !! q') eqn:Eq; [done |]. rewrite decide_False; [done |]. intros [[k Hk] Hnp].
      assert (q' = take (length q') p) as Hq' by (by rewrite Hk, take_app_length).
      assert (length q' ≤ length cs)%nat as Hle.
      { destruct k as [|x k]; [by rewrite app_nil_r in Hk |]. rewrite Hk, length_app in Hlp. cbn in Hlp. lia. }
      destruct (Nat.le_gt_cases (length q') n) as [Hlt|Hgt].
      + assert (is_Some (entries self !! q')) as Hs; [| by rewrite Eq in Hs; destruct Hs].
        eapply ancestor_present; [done | exact Hin |]. rewrite Hq'. exists (drop (length q') (take n p)).
        rewrite <- (take_drop (length q') (take n p)) at 1. by rewrite take_take, Nat.min_l by lia.
      + apply Hq, list_elem_of_fmap. exists (length q'). split; [done |]. apply elem_of_seq. lia. }
  assert (entries self1 !! p = None) as Hp1 by (rewrite H1, Habs, decide_False; [done | tauto]).
  rewrite Hp1 in H. destruct (ensure_capacity _ _) as [[]|err|s]; [| done | done]. injection H as <-. cbn.
  destruct (decide (q = p)) as [->|Hqp]; [apply lookup_insert_eq |]. rewrite lookup_insert_ne, H1 by done.
  destruct (entries self !! q); [done |]. destruct (decide (q `prefix_of` p)); [by rewrite decide_True | by rewrite decide_False by tauto].
Qed.

(** ** Removal *)
Lemma descendant_child root p parent :
  TarPath_parent p = Some parent → TarPath_is_descendant_of p root = false →
  TarPath_is_descendant_of parent root = false.
Proof.
  intros Hp Hd. apply not_true_iff_false. intros Hd'. apply not_true_iff_false in Hd. apply Hd.
  unfold TarPath_is_descendant_of, TarPath_starts_with, TarPath_depth in *.
  apply andb_true_iff in Hd' as [H1%Nat.ltb_lt H2%bool_decide_eq_true]. unfold TarPath_parent in Hp.
  destruct (TarPath_is_root p); [done |]. injection Hp as <-.
  rewrite length_take in H1. apply andb_true_iff. rewrite Nat.ltb_lt, bool_decide_eq_true. split; [lia |].
  etrans; [exact H2 | apply prefix_take].
Qed.

Lemma remove_descendants_wf limits self root :
  index_wf limits self → index_wf limits (remove_descendants self root).
Proof.
  intros [Hs Hr He]. unfold remove_descendants. split; cbn [entries].
  - unfold TarIndex_len in *. cbn [entries].
    pose proof (map_subseteq_size _ _ (map_filter_subseteq
      (fun e : TarPath * TarEntry => TarPath_is_descendant_of e.1 root = false) (entries self))). lia.
  - destruct (entries self !! TarPath_root) as [e|] eqn:E; [| done].
    erewrite (map_lookup_filter_Some_2 _ _ _ e); [done | done |]. done.
  - intros p e [Hp Hd]%map_lookup_filter_Some. cbn in Hd.
    apply He in Hp as (? & ? & ? & Hpar & ?). split_and!; try done.
    intros parent Hparent. destruct (Hpar parent Hparent) as [e' He'].
    exists e'. apply map_lookup_filter_Some. split; [done |]. cbn. by eapply descendant_child.
Qed.

(** ** Validation of a persisted index *)
Lemma validate_entry_ok limits self e :
  index_wf limits self → entries self !! e.1 = Some e.2 → validate_entry self limits e = Ok tt.
Proof.
  destruct e as [p e]. cbn [fst snd]. intros Hwf He.
  apply (iwf_entry _ _ Hwf) in He as (Hpath & _ & Hl & Hpar & Hh).
  unfold validate_entry. rewrite bool_decide_eq_true_2 by done. cbn [negb orb].
  rewrite (proj2 (Z.ltb_ge _ _)) by lia.
  assert ((if TarPath_is_root p then Ok tt
           else match TarPath_parent p with
                | None => Panic "non-root"
                | Some parent =>
                    guard_err (negb (bool_decide (is_Some (entries self !! parent))))
                      (InvalidInput "corrupt tar index parent")
                end) = Ok tt) as ->.
  { destruct (TarPath_is_root p) eqn:Er; [done |].
    destruct (TarPath_parent p) as [parent|] eqn:Ep.
    - by rewrite bool_decide_eq_true_2 by (by apply Hpar).
    - unfold TarPath_parent in Ep. by rewrite Er in Ep. }
  cbn [mbind result_bind]. case_bool_decide as Hk; [| done].
  destruct (Hh Hk) as (t & -> & Ht). cbn. by destruct (from_tar_bytes t limits).
Qed.

Lemma validate_persisted_ok limits self :
  TarLimits_validate limits = Ok tt → index_wf limits self → validate_persisted self limits = Ok tt.
Proof.
  intros Hl Hwf. unfold validate_persisted. rewrite Hl. cbn [mbind result_bind].
  pose proof (iwf_size _ _ Hwf). rewrite (proj2 (Z.ltb_ge _ _)) by lia.
  rewrite bool_decide_eq_true_2 by apply Hwf. cbn [negb orb].
  assert (∀ l, Forall (fun e => entries self !! e.1 = Some e.2) l →
               ∃ us, mapM_result (validate_entry self limits) l = Ok us) as Hm.
  { intros l Hall. apply mapM_result_total. intros e He. exists tt.
    apply validate_entry_ok; [done |]. by apply (proj1 (list.Forall_forall _ _) Hall). }
  destruct (Hm (TarIndex_iter self)) as [us ->]; [| done].
  apply list.Forall_forall. intros [p e]. unfold TarIndex_iter.
  rewrite (sort_by_perm (cmp_by fst tar_path_cmp)). by intros ?%elem_of_map_to_list.
Qed.

(** ** Sequences of changes *)
Inductive IndexOp :=
  | IndexInsert (e : TarEntry)
  | IndexSynthetic (p : TarPath)
  | IndexRemove (root : TarPath).

Definition run_index_op (limits : TarLimits) (self : TarIndex) (op : IndexOp) : TarIndex :=
  match op with
  | IndexInsert e => (insert_with_parents self e (max_entries limits)).2
  | IndexSynthetic p => (insert_synthetic_directory self p (max_entries limits)).2
  | IndexRemove root => remove_descendants self root
  end.

Definition index_op_ok (limits : TarLimits) (op : IndexOp) : Prop :=
  match op with
  | IndexInsert e => entry_ok limits e
  | IndexSynthetic p => Forall tar_name_ok p ∧ encoded_len p ≤ max_path_bytes limits
  | IndexRemove _ => True
  end.

Lemma run_index_op_wf limits self op :
  index_wf limits self → index_op_ok limits op → index_wf limits (run_index_op limits self op).
Proof.
  intros Hwf Hop. destruct op as [e|p|root]; cbn in *.
  - by apply insert_with_parents_wf.
  - unfold insert_synthetic_directory. destruct (TarPath_is_root p) eqn:E; [done |].
    apply insert_with_parents_wf; [done |]. split_and!; try apply Hop; [| done].
    by apply is_empty_false in E.
  - by apply remove_descendants_wf.
Qed.

Lemma run_index_ops_wf limits ops self :
  index_wf limits self → Forall (index_op_ok limits) ops →
  index_wf limits (foldl (run_index_op limits) self ops).
Proof.
  intros Hwf Hops. revert self Hwf. induction Hops as [|op ops Hop Hops IH]; intros self Hwf; cbn; [done |].
  by apply IH, run_index_op_wf.
Qed.

(** One hardlink step: the next path, or the entry at the end of the chain. *)
Definition hardlink_next (self : TarIndex) (p : TarPath) : vres (TarPath + TarEntry) :=
  entry ← ok_or NotFound (TarIndex_get self p);
  if negb (bool_decide (te_kind entry = THardlink)) then Ok (inr entry)
  else
    target ← ok_or (Io "hardlink has no target") (te_link_target entry);
    inl <$> from_tar_bytes target TarLimits_default.

Lemma resolve_hardlink_follow self n p visited :
  resolve_hardlink_loop self n p visited = follow (hardlink_next self) SymlinkLoop n p visited.
Proof.
  revert p visited. induction n as [|n IH]; intros p visited; cbn; [done |].
  case_bool_decide; [done |]. unfold hardlink_next at 1.
  destruct (TarIndex_get self p) as [e|]; cbn; [| done]. destruct (negb _); [done |].
  destruct (te_link_target e) as [t|]; cbn; [| done].
  destruct (from_tar_bytes t TarLimits_default); cbn; [apply IH | done | done].
Qed.

(** ** Properties *)

(** No archive path leaves the archive.  When a tar path is accepted, every
    component is a valid file name (so no empty, dot or dot-dot component, no
    slash and no NUL), the path is within the configured limit, and under the
    default limit it is a well-formed virtual path that maps back to the same
    components. *)
Theorem tar_path_confined (raw : list byte) (limits : TarLimits) (p : TarPath) :
  from_tar_bytes raw limits = Ok p →
  Forall name_ok p ∧ encoded_len p ≤ max_path_bytes limits ∧
  (max_path_bytes limits ≤ max_path_bytes TarLimits_default →
   ∃ v, to_virtual p = Ok v ∧ path_wf v ∧ from_virtual v = p).
Proof.
  intros [Hn Hl]%from_tar_bytes_ok. split_and!; [done | done |]. intros Hd.
  apply to_virtual_ok; [done |]. unfold TarLimits_default, DEFAULT_MAX_PATH_BYTES in *. cbn in Hd. lia.
Qed.

(** Witness: a path with dot and empty components. *)
Lemma tar_path_confined_witness :
  from_tar_bytes (bytes "./usr//bin/sh") TarLimits_default = Ok [bytes "usr"; bytes "bin"; bytes "sh"] ∧
  ∃ v, to_virtual [bytes "usr"; bytes "bin"; bytes "sh"] = Ok v.
Proof.
  split; [vm_compute; reflexivity |].
  destruct (tar_path_confined (bytes "./usr//bin/sh") TarLimits_default
              [bytes "usr"; bytes "bin"; bytes "sh"]) as (_ & _ & H); [vm_compute; reflexivity |].
  destruct (H ltac:(lia)) as (v & Hv & _). eauto.
Defined.

(** An index that was built by insertions and removals passes the check that
    guards persisted indexes.  Whatever entries are inserted, in any order and
    also when insertions fail half-way (limit reached, duplicate path), the
    index keeps at most [max_entries] entries besides the root, every entry
    sits at its own path within the limits, every ancestor directory exists,
    and hardlinks have a valid target: [validate_persisted] accepts it. *)
Theorem tar_index_validates (limits : TarLimits) (ops : list IndexOp) :
  TarLimits_validate limits = Ok tt → 0 ≤ max_entries limits → 0 ≤ max_path_bytes limits →
  Forall (index_op_ok limits) ops →
  let self := foldl (run_index_op limits) TarIndex_empty ops in
  index_wf limits self ∧ validate_persisted self limits = Ok tt.
Proof.
  intros Hl He Hp Hops self.
  assert (index_wf limits self) as Hwf by (apply run_index_ops_wf; [by apply TarIndex_empty_wf | done]).
  split; [done | by apply validate_persisted_ok].
Qed.

(** Witness: a file three levels deep, whose ancestors become synthetic. *)
Definition sample_tar_entry : TarEntry :=
  mkTarEntry (bytes "usr/bin/sh") [bytes "usr"; bytes "bin"; bytes "sh"] TRegularFile 10 420 0 0 0
    None None None false.

Lemma tar_index_validates_witness :
  validate_persisted
    (foldl (run_index_op TarLimits_default) TarIndex_empty [IndexInsert sample_tar_entry])
    TarLimits_default = Ok tt.
Proof.
  apply (tar_index_validates TarLimits_default [IndexInsert sample_tar_entry]).
  - vm_compute. reflexivity.
  - vm_compute. discriminate.
  - vm_compute. discriminate.
  - apply Forall_cons; [| constructor]. split_and!; [discriminate | | vm_compute; discriminate | discriminate].
    do 3 (apply Forall_cons; [apply (bool_decide_unpack _); vm_compute; exact I |]). constructor.
Defined.

(** Hardlinks resolve to the entry at the end of the chain.
    [resolve_hardlink] succeeds with an entry if and only if fewer than 40
    hardlink steps lead from the path to that entry and it is not itself a
    hardlink; a cycle, a dangling target or a longer chain is an error, and the
    resolution always terminates. *)
Theorem hardlink_resolution_correct (self : TarIndex) (p : TarPath) (e : TarEntry) :
  resolve_hardlink self p = Ok e ↔
  ∃ k q, (k < 40)%nat ∧ nsteps (chain_step (hardlink_next self)) k p q ∧
         TarIndex_get self q = Some e ∧ te_kind e ≠ THardlink.
Proof.
  unfold resolve_hardlink. rewrite resolve_hardlink_follow, follow_spec.
  assert (∀ q, hardlink_next self q = Ok (inr e) ↔ TarIndex_get self q = Some e ∧ te_kind e ≠ THardlink) as Hend.
  { intros q. unfold hardlink_next. rewrite bind_Ok. setoid_rewrite ok_or_Ok. split.
    - intros (e' & He & Hr). case_bool_decide as Hk; cbn [negb] in Hr; [| by injection Hr as ->].
      apply bind_Ok in Hr as (t & _ & Hr). by destruct (from_tar_bytes t TarLimits_default).
    - intros [He Hk]. exists e. split; [done |]. by rewrite bool_decide_eq_false_2. }
  setoid_rewrite Hend. done.
Qed.
