(* ===== verification/TarReader.v ===== *)
(** The streaming tar reader
    (crates/docker-core/src/vfs_providers/tar_index.rs): number fields,
    headers, PAX and GNU extensions, and the reader over a stream of chunks
    that feeds the index.

    The stream is the list of items it will still yield.  A loop of the reader
    consumes at least one byte per turn, so its fuel is the number of bytes the
    buffer and the stream still hold, plus one; running out of fuel is the
    outcome [Panic], which the theorems exclude. *)

From S2P Require Import Prelude Error Path Numbers Provider TarIndex.

Local Open Scope Z_scope.

(** ** Byte strings and numbers *)

(** [iter().position(|byte| *byte == b)] *)
Fixpoint position (b : byte) (l : list byte) : option nat :=
  match l with
  | [] => None
  | c :: l => if bool_decide (c = b) then Some 0%nat else S <$> position b l
  end.

Fixpoint skip_while (f : byte → bool) (l : list byte) : list byte :=
  match l with
  | [] => []
  | c :: l' => if f c then skip_while f l' else l
  end.

Fixpoint take_while (f : byte → bool) (l : list byte) : list byte :=
  match l with
  | [] => []
  | c :: l => if f c then c :: take_while f l else []
  end.

(** [data[from..to]] *)
Definition slice (l : list byte) (from to : nat) : list byte := take (to - from) (drop from l).

Definition is_octal_digit (b : byte) : bool := (48 <=? u8 b) && (u8 b <=? 55).

Definition is_blank (b : byte) : bool := bool_decide (b = "000"%byte) || bool_decide (b = " "%byte).

(** The loop of the base-256 form. *)
Fixpoint base256 (value : Z) (bs : list byte) : option Z :=
  match bs with
  | [] => Some value
  | b :: bs =>
      v ← checked_mul u64_max value 256;
      v ← checked_add u64_max v (u8 b);
      base256 v bs
  end.

Definition tar_number (field : list byte) (label : string) : vres Z :=
  match field with
  | [] => Err (Io ("empty tar " ++ label)%string)
  | first :: rest =>
      if negb (Z.land (u8 first) 128 =? 0) then
        if negb (Z.land (u8 first) 64 =? 0) then Err (Io ("negative tar " ++ label)%string)
        else ok_or (Io ("tar " ++ label ++ " overflow")%string) (base256 (Z.land (u8 first) 63) rest)
      else
        let value := take_while (fun b => negb (is_blank b)) (skip_while is_blank field) in
        if is_empty value then Ok 0
        else if negb (forallb is_octal_digit value) then Err (Io ("invalid octal tar " ++ label)%string)
        else
          let v := radix_value 8 value in
          if v <=? u64_max then Ok v else Err (Io ("tar " ++ label ++ " overflow")%string)
  end.

Definition optional_tar_number (field : list byte) (label : string) : vres (option Z) :=
  if forallb is_blank field then Ok None else Some <$> tar_number field label.

Definition text_field (field : list byte) : list byte :=
  take (default (length field) (position "000"%byte field)) field.

Definition checked_u32 (value : Z) (label : string) : vres Z :=
  if value <=? u32_max then Ok value else Err (Io (label ++ " overflow")%string).

Definition padding (_remaining original_size : Z) : Z :=
  (TAR_BLOCK - original_size mod TAR_BLOCK) mod TAR_BLOCK.

Definition verify_checksum (block : list byte) : vres () :=
  expected ← tar_number (slice block 148 156) "checksum";
  let actual :=
    foldl Z.add 0
      (imap (fun index b => if (148 <=? index)%nat && (index <? 156)%nat then u8 " "%byte else u8 b) block) in
  if negb (actual =? expected) then Err (Io "tar checksum mismatch") else Ok tt.

(** ** Headers and extensions *)
Record RawHeader := mkRawHeader {
  rh_path : list byte;
  rh_link_target : option (list byte);
  rh_type_flag : byte;
  rh_kind : TarEntryKind;
  rh_size : Z;
  rh_mode : Z;
  rh_uid : Z;
  rh_gid : Z;
  rh_mtime : Z;
  rh_device_major : option Z;
  rh_device_minor : option Z;
}.

Definition header_kind (type_flag : byte) : TarEntryKind :=
  match type_flag with
  | "000" | "0" | "7" => TRegularFile
  | "5" => TDirectory
  | "2" => TSymlink
  | "1" => THardlink
  | "3" => TCharacterDevice
  | "4" => TBlockDevice
  | "6" => TNamedPipe
  | _ => TOther
  end%byte.

Definition parse_header (block : list byte) : vres RawHeader :=
  if negb (len block =? TAR_BLOCK) then Err (Io "truncated tar header")
  else
    _ ← verify_checksum block;
    let name := text_field (slice block 0 100) in
    let prefix := text_field (slice block 345 500) in
    let path :=
      if is_empty prefix then name
      else if is_empty name then prefix
      else prefix ++ "/"%byte :: name in
    if is_empty path then Err (Io "empty tar entry path")
    else
      let type_flag := default "000"%byte (block !! 156%nat) in
      let link := text_field (slice block 157 257) in
      size ← tar_number (slice block 124 136) "size";
      mode ← tar_number (slice block 100 108) "mode";
      uid ← tar_number (slice block 108 116) "uid";
      gid ← tar_number (slice block 116 124) "gid";
      mtime ← tar_number (slice block 136 148) "mtime";
      mtime ← (if mtime <=? i64_max then Ok mtime else Err (Io "tar mtime overflow"));
      device_major ← optional_tar_number (slice block 329 337) "device major";
      device_minor ← optional_tar_number (slice block 337 345) "device minor";
      Ok {| rh_path := path;
            rh_link_target := if is_empty link then None else Some link;
            rh_type_flag := type_flag;
            rh_kind := header_kind type_flag;
            rh_size := size;
            rh_mode := mode;
            rh_uid := uid;
            rh_gid := gid;
            rh_mtime := mtime;
            rh_device_major := device_major;
            rh_device_minor := device_minor |}.

Record PaxValues := mkPaxValues {
  pax_path : option (list byte);
  pax_link_path : option (list byte);
  pax_size : option Z;
  pax_uid : option Z;
  pax_gid : option Z;
  pax_mtime_value : option Z;
}.

Definition PaxValues_default : PaxValues := mkPaxValues None None None None None None.

(** [if other.x.is_some() { self.x = other.x }] *)
Definition over {A} (self other : option A) : option A :=
  match other with Some _ => other | None => self end.

Definition overlay (self other : PaxValues) : PaxValues :=
  {| pax_path := over (pax_path self) (pax_path other);
     pax_link_path := over (pax_link_path self) (pax_link_path other);
     pax_size := over (pax_size self) (pax_size other);
     pax_uid := over (pax_uid self) (pax_uid other);
     pax_gid := over (pax_gid self) (pax_gid other);
     pax_mtime_value := over (pax_mtime_value self) (pax_mtime_value other) |}.

Definition decimal_u64 (value : list byte) (label : string) : vres Z :=
  if is_empty value || negb (forallb is_ascii_digit value) then Err (Io ("invalid " ++ label)%string)
  else ok_or (Io (label ++ " overflow")%string) (parse_unsigned u64_max value).

Definition pax_mtime (value : list byte) : vres Z :=
  let integer := default value (head (split_on "."%byte value)) in
  ok_or (Io "invalid PAX mtime") (parse_i64 integer).

(** [match key { … }] of one PAX record. *)
Definition pax_assign (result : PaxValues) (key value : list byte) : vres PaxValues :=
  let '(mkPaxValues p l s u g m) := result in
  if bool_decide (key = bytes "path") then Ok (mkPaxValues (Some value) l s u g m)
  else if bool_decide (key = bytes "linkpath") then Ok (mkPaxValues p (Some value) s u g m)
  else if bool_decide (key = bytes "size") then
    v ← decimal_u64 value "PAX size"; Ok (mkPaxValues p l (Some v) u g m)
  else if bool_decide (key = bytes "uid") then
    v ← decimal_u64 value "PAX uid"; Ok (mkPaxValues p l s (Some v) g m)
  else if bool_decide (key = bytes "gid") then
    v ← decimal_u64 value "PAX gid"; Ok (mkPaxValues p l s u (Some v) m)
  else if bool_decide (key = bytes "mtime") then
    v ← pax_mtime value; Ok (mkPaxValues p l s u g (Some v))
  else Ok result.

(** The [while offset < data.len()] loop; a record is at least three bytes
    long, so the length of the data is enough fuel. *)
Fixpoint pax_loop (fuel : nat) (data : list byte) (offset : Z) (result : PaxValues) : vres PaxValues :=
  if len data <=? offset then Ok result
  else
    match fuel with
    | O => Panic "PAX records out of fuel"
    | S fuel =>
        space ← ok_or (Io "PAX record has no length")
                  (position " "%byte (drop (Z.to_nat offset) data));
        let space := Z.of_nat space + offset in
        length ← ok_or (Io "invalid PAX record length")
                   (parse_unsigned usize_max (slice data (Z.to_nat offset) (Z.to_nat space)));
        end_ ← ok_or (Io "PAX record overflow") (checked_add usize_max offset length);
        if (len data <? end_) || (end_ <=? space + 2)
           || negb (bool_decide (data !! Z.to_nat (end_ - 1) = Some "010"%byte))
        then Err (Io "invalid PAX record boundary")
        else
          let record := slice data (Z.to_nat (space + 1)) (Z.to_nat (end_ - 1)) in
          equals ← ok_or (Io "invalid PAX key/value") (position "="%byte record);
          let key := take equals record in
          let value := drop (equals + 1) record in
          if contains "000"%byte value then Err (Io "NUL in PAX value")
          else
            result ← pax_assign result key value;
            pax_loop fuel data end_ result
    end.

Definition parse_pax (data : list byte) : vres PaxValues :=
  pax_loop (length data) data 0 PaxValues_default.

Definition parse_long_value (data : list byte) : vres (list byte) :=
  let end_ := default (length data) (position "000"%byte data) in
  if existsb (fun b => negb (bool_decide (b = "000"%byte) || bool_decide (b = "010"%byte))) (drop end_ data)
  then Err (Io "invalid GNU long-name tail")
  else Ok (reverse (skip_while (fun b => bool_decide (b = "010"%byte)) (reverse (take end_ data)))).

Definition validate_link_target (target : option (list byte)) (limits : TarLimits) : vres () :=
  match target with
  | None => Ok tt
  | Some target =>
      if max_path_bytes limits <? len target then Err PathTooLong
      else if contains "000"%byte target then Err (InvalidInput "NUL in tar link target")
      else _ ← VirtualPathBytes_new target; Ok tt
  end.

(** ** The reader *)
Record TarStreamReader := mkTarStreamReader {
  stream : list (list byte + VfsError);
  buffer : list byte;
  limits : TarLimits;
  received : Z;
  ended : bool;
  archive_finished : bool;
  current_size : option Z;
  global_pax : PaxValues;
  pending_pax : PaxValues;
  pending_long_name : option (list byte);
  pending_long_link : option (list byte);
}.

Definition TarStreamReader_new (stream : list (list byte + VfsError)) (limits : TarLimits) : TarStreamReader :=
  mkTarStreamReader stream [] limits 0 false false None PaxValues_default PaxValues_default None None.

(** The part of the state that only [fill] and the byte operations change. *)
Definition set_input (self : TarStreamReader) (stream : list (list byte + VfsError)) (buffer : list byte)
  (received : Z) (ended : bool) : TarStreamReader :=
  mkTarStreamReader stream buffer (limits self) received ended (archive_finished self)
    (current_size self) (global_pax self) (pending_pax self) (pending_long_name self)
    (pending_long_link self).
Definition set_buffer (self : TarStreamReader) (buffer : list byte) : TarStreamReader :=
  set_input self (stream self) buffer (received self) (ended self).
Definition set_current_size (self : TarStreamReader) (size : option Z) : TarStreamReader :=
  mkTarStreamReader (stream self) (buffer self) (limits self) (received self) (ended self)
    (archive_finished self) size (global_pax self) (pending_pax self) (pending_long_name self)
    (pending_long_link self).
Definition set_archive_finished (self : TarStreamReader) : TarStreamReader :=
  mkTarStreamReader (stream self) (buffer self) (limits self) (received self) (ended self)
    true (current_size self) (global_pax self) (pending_pax self) (pending_long_name self)
    (pending_long_link self).
Definition set_pending (self : TarStreamReader) (global pending : PaxValues)
  (name link : option (list byte)) : TarStreamReader :=
  mkTarStreamReader (stream self) (buffer self) (limits self) (received self) (ended self)
    (archive_finished self) (current_size self) global pending name link.

(** Bytes that the reader can still deliver. *)
Definition item_bytes (i : list byte + VfsError) : list byte :=
  match i with inl chunk => chunk | inr _ => [] end.
Definition available (self : TarStreamReader) : nat :=
  (length (buffer self) + length (stream self ≫= item_bytes))%nat.

(** The loop of [fill] over the items of the stream. *)
Fixpoint fill_loop (items : list (list byte + VfsError)) (self : TarStreamReader)
  : vres () * TarStreamReader :=
  match items with
  | [] => (Ok tt, set_input self [] (buffer self) (received self) true)
  | inr e :: items => (Err e, set_input self items (buffer self) (received self) (ended self))
  | inl chunk :: items =>
      if is_empty chunk then fill_loop items self
      else
        match checked_add u64_max (received self) (len chunk) with
        | None =>
            (Err (Unavailable "tar byte limit exceeded"),
             set_input self items (buffer self) (received self) (ended self))
        | Some received =>
            if max_archive_bytes (limits self) <? received
            then (Err (Unavailable "tar byte limit exceeded"),
                  set_input self items (buffer self) received (ended self))
            else (Ok tt, set_input self items (buffer self ++ chunk) received (ended self))
        end
  end.

Definition fill : prog TarStreamReader () := fun self =>
  if negb (is_empty (buffer self)) || ended self then (Ok tt, self)
  else fill_loop (stream self) self.

Fixpoint read_exact_loop (fuel : nat) (length : Z) (result : list byte) : prog TarStreamReader (list byte) :=
  if length <=? len result then mret result
  else
    match fuel with
    | O => lift (Panic "read_exact out of fuel")
    | S fuel =>
        _ ← fill;
        buffer ← gets buffer;
        if is_empty buffer then throw (Io "truncated tar archive")
        else
          let n := Z.to_nat (Z.min (length - len result) (len buffer)) in
          _ ← update (fun self => set_buffer self (drop n buffer));
          read_exact_loop fuel length (result ++ take n buffer)
    end.

Definition read_exact (length : Z) : prog TarStreamReader (list byte) :=
  fuel ← gets available;
  read_exact_loop (S fuel) length [].

Fixpoint skip_exact_loop (fuel : nat) (length : Z) : prog TarStreamReader () :=
  if length =? 0 then mret tt
  else
    match fuel with
    | O => lift (Panic "skip_exact out of fuel")
    | S fuel =>
        _ ← fill;
        buffer ← gets buffer;
        if is_empty buffer then throw (Io "truncated tar archive")
        else
          let n := Z.min length (len buffer) in
          _ ← update (fun self => set_buffer self (drop (Z.to_nat n) buffer));
          skip_exact_loop fuel (length - n)
    end.

Definition skip_exact (length : Z) : prog TarStreamReader () :=
  fuel ← gets available;
  skip_exact_loop (S fuel) length.

Fixpoint zero_tail_loop (fuel : nat) : prog TarStreamReader () :=
  match fuel with
  | O => lift (Panic "ensure_zero_tail out of fuel")
  | S fuel =>
      _ ← fill;
      buffer ← gets buffer;
      if is_empty buffer then mret tt
      else if existsb (fun b => negb (bool_decide (b = "000"%byte))) buffer
      then throw (Io "non-zero bytes after tar end marker")
      else
        _ ← update (fun self => set_buffer self []);
        zero_tail_loop fuel
  end.

Definition ensure_zero_tail : prog TarStreamReader () :=
  fuel ← gets available;
  zero_tail_loop (S fuel).

Definition read_extension (size : Z) : prog TarStreamReader (list byte) :=
  limits ← gets limits;
  if max_extension_bytes limits <? size then throw (Unavailable "tar extension limit exceeded")
  else
    data ← read_exact size;
    _ ← skip_exact (padding size size);
    mret data.

(** The entry that a header, its extensions and the limits describe: the tail
    of [next_entry], lines 670-718. *)
Definition finish_entry (header : RawHeader) : prog TarStreamReader TarEntry :=
  global ← gets global_pax;
  pending ← gets pending_pax;
  long_name ← gets pending_long_name;
  long_link ← gets pending_long_link;
  limits ← gets limits;
  let pax := overlay global pending in
  let '(raw_path, name) :=
    match pax_path pax with
    | Some path => (path, long_name)
    | None =>
        match long_name with
        | Some name => (name, None)
        | None => (rh_path header, None)
        end
    end in
  let '(link_target, link) :=
    match pax_link_path pax with
    | Some path => (Some path, long_link)
    | None =>
        match long_link with
        | Some link => (Some link, None)
        | None => (rh_link_target header, None)
        end
    end in
  _ ← update (fun self => set_pending self global PaxValues_default name link);
  _ ← lift (validate_link_target link_target limits);
  _ ← lift (if bool_decide (rh_kind header = THardlink) then
              target ← ok_or (Io "hardlink has no target") link_target;
              _ ← from_tar_bytes target limits;
              Ok tt
            else Ok tt);
  let size := default (rh_size header) (pax_size pax) in
  if max_entry_bytes limits <? size then throw (Unavailable "tar entry size limit exceeded")
  else
    entry ← lift (
      path ← from_tar_bytes raw_path limits;
      mode ← checked_u32 (rh_mode header) "tar mode";
      uid ← checked_u32 (default (rh_uid header) (pax_uid pax)) "tar uid";
      gid ← checked_u32 (default (rh_gid header) (pax_gid pax)) "tar gid";
      device_major ← match rh_device_major header with
                     | Some v => Some <$> checked_u32 v "device major"
                     | None => Ok None
                     end;
      device_minor ← match rh_device_minor header with
                     | Some v => Some <$> checked_u32 v "device minor"
                     | None => Ok None
                     end;
      Ok {| te_raw_path := raw_path;
            te_path := path;
            te_kind := rh_kind header;
            te_size := size;
            te_mode := mode;
            te_uid := uid;
            te_gid := gid;
            te_mtime := default (rh_mtime header) (pax_mtime_value pax);
            te_link_target := link_target;
            te_device_major := device_major;
            te_device_minor := device_minor;
            te_synthetic := false |});
    _ ← update (fun self => set_current_size self (Some size));
    mret entry.

(** The loop of [next_entry]: every turn reads a block. *)
Fixpoint next_entry_loop (fuel : nat) : prog TarStreamReader (option TarEntry) :=
  match fuel with
  | O => lift (Panic "next_entry out of fuel")
  | S fuel =>
      block ← read_exact TAR_BLOCK;
      if forallb (fun b => bool_decide (b = "000"%byte)) block then
        second ← read_exact TAR_BLOCK;
        if existsb (fun b => negb (bool_decide (b = "000"%byte))) second
        then throw (Io "non-zero tar header after end marker")
        else
          _ ← ensure_zero_tail;
          _ ← update set_archive_finished;
          mret None
      else
        header ← lift (parse_header block);
        if bool_decide (rh_type_flag header = "x"%byte) || bool_decide (rh_type_flag header = "g"%byte) then
          payload ← read_extension (rh_size header);
          pax ← lift (parse_pax payload);
          _ ← update (fun self =>
                   if bool_decide (rh_type_flag header = "g"%byte)
                   then set_pending self (overlay (global_pax self) pax) (pending_pax self)
                          (pending_long_name self) (pending_long_link self)
                   else set_pending self (global_pax self) (overlay (pending_pax self) pax)
                          (pending_long_name self) (pending_long_link self));
          next_entry_loop fuel
        else if bool_decide (rh_type_flag header = "L"%byte) || bool_decide (rh_type_flag header = "K"%byte) then
          payload ← read_extension (rh_size header);
          value ← lift (parse_long_value payload);
          _ ← update (fun self =>
                   if bool_decide (rh_type_flag header = "L"%byte)
                   then set_pending self (global_pax self) (pending_pax self)
                          (Some value) (pending_long_link self)
                   else set_pending self (global_pax self) (pending_pax self)
                          (pending_long_name self) (Some value));
          next_entry_loop fuel
        else
          entry ← finish_entry header;
          mret (Some entry)
  end.

Definition next_entry : prog TarStreamReader (option TarEntry) :=
  current ← gets current_size;
  finished ← gets archive_finished;
  fuel ← gets available;
  if bool_decide (is_Some current) then throw (InvalidInput "previous tar body was not consumed")
  else if (finished : bool) then mret None
  else next_entry_loop (S fuel).

Definition read_body_chunk (maximum : Z) : prog TarStreamReader (option (list byte)) :=
  current ← gets current_size;
  remaining ← lift (ok_or (InvalidInput "no current tar body") current);
  if remaining =? 0 then mret None
  else
    _ ← fill;
    buffer ← gets buffer;
    if is_empty buffer then throw (Io "truncated tar archive")
    else
      let n := Z.min (Z.min (Z.max maximum 1) (len buffer)) remaining in
      let chunk := take (Z.to_nat n) buffer in
      _ ← update (fun self => set_current_size (set_buffer self (drop (Z.to_nat n) buffer))
                                (Some (remaining - n)));
      mret (Some chunk).

Definition skip_entry_body : prog TarStreamReader () :=
  current ← gets current_size;
  _ ← update (fun self => set_current_size self None);
  size ← lift (ok_or (InvalidInput "no current tar body") current);
  _ ← skip_exact size;
  skip_exact (padding size size).

Definition complete_consumed_body (original_size : Z) : prog TarStreamReader () :=
  current ← gets current_size;
  _ ← update (fun self => set_current_size self None);
  remaining ← lift (ok_or (InvalidInput "no current tar body") current);
  if negb (remaining =? 0) then throw (InvalidInput "tar body is incomplete")
  else skip_exact (padding original_size original_size).

(** The [while let Some(entry)] loop of [from_stream]. *)
Fixpoint index_loop (fuel : nat) (index : TarIndex) : prog TarStreamReader TarIndex :=
  match fuel with
  | O => lift (Panic "from_stream out of fuel")
  | S fuel =>
      entry ← next_entry;
      match entry with
      | None => mret index
      | Some entry =>
          _ ← skip_entry_body;
          if TarPath_is_root (te_path entry) then index_loop fuel index
          else
            limits ← gets limits;
            match insert_with_parents index entry (max_entries limits) with
            | (Ok _, index) => index_loop fuel index
            | (Err e, _) => throw e
            | (Panic s, _) => lift (Panic s)
            end
      end
  end.

Definition from_stream (stream : list (list byte + VfsError)) (limits : TarLimits) : vres TarIndex :=
  _ ← TarLimits_validate limits;
  let reader := TarStreamReader_new stream limits in
  (index_loop (S (available reader)) TarIndex_empty reader).1.

(** ** Number fields *)
Lemma is_octal_digit_range b : is_octal_digit b = true → 0 ≤ digit b < 8.
Proof. unfold is_octal_digit, digit. rewrite andb_true_iff, !Z.leb_le. lia. Qed.
Lemma base256_range bs v w : 0 ≤ v ≤ u64_max → base256 v bs = Some w → 0 ≤ w ≤ u64_max.
Proof.
  revert v. induction bs as [|b bs IH]; intros v Hv; cbn; [by intros [= <-] |].
  unfold checked_mul, checked_add. case_bool_decide; cbn; [| done]. case_bool_decide; cbn; [| done].
  apply IH. pose proof (u8_range b). lia.
Qed.

Lemma land_mask_range a n : 0 ≤ n → 0 ≤ Z.land a (Z.ones n) < 2 ^ n.
Proof. intros Hn. rewrite Z.land_ones by done. apply Z.mod_pos_bound. lia. Qed.

Lemma tar_number_range field label v : tar_number field label = Ok v → 0 ≤ v ≤ u64_max.
Proof.
  unfold tar_number. destruct field as [|first rest]; [done |]. repeat case_match; try done; intros Hv.
  - apply ok_or_Ok in Hv. eapply base256_range; [| exact Hv].
    pose proof (land_mask_range (u8 first) 6 ltac:(lia)). change (Z.ones 6) with 63 in *. cbv [u64_max]. lia.
  - injection Hv as <-. cbv. split; discriminate.
  - injection Hv as <-. split; [| by apply Z.leb_le]. apply radix_value_nonneg; [lia |].
    eapply forallb_digits; [| by apply negb_false_iff]. intros b Hb%is_octal_digit_range. lia.
Qed.

Lemma tar_number_no_panic field label s : tar_number field label ≠ Panic s.
Proof. intros H. unfold tar_number, ok_or in H. repeat case_match; done. Qed.

(** ** Parsers do not panic *)
Definition safe {A} (m : vres A) (Q : A → Prop) : Prop :=
  match m with Ok a => Q a | Err _ => True | Panic _ => False end.

Lemma safe_bind {A B} (m : vres A) (f : A → vres B) Q R :
  safe m Q → (∀ a, Q a → safe (f a) R) → safe (m ≫= f) R.
Proof. destruct m; cbn; eauto. Qed.
Lemma safe_weaken {A} (m : vres A) (Q R : A → Prop) : safe m Q → (∀ a, Q a → R a) → safe m R.
Proof. destruct m; cbn; eauto. Qed.
Lemma safe_intro {A} (m : vres A) : (∀ s, m ≠ Panic s) → safe m (fun a => m = Ok a).
Proof. destruct m; cbn; naive_solver. Qed.
Lemma safe_ok_or {A} e (o : option A) : safe (ok_or e o) (fun a => o = Some a).
Proof. by destruct o. Qed.

Lemma tar_number_safe field label : safe (tar_number field label) (fun v => 0 ≤ v ≤ u64_max).
Proof. eapply safe_weaken; [apply safe_intro, tar_number_no_panic | apply tar_number_range]. Qed.

Lemma optional_tar_number_safe field label : safe (optional_tar_number field label) (fun _ => True).
Proof.
  unfold optional_tar_number. case_match; [done |]. pose proof (tar_number_safe field label).
  by destruct (tar_number field label).
Qed.

Lemma parse_header_safe block : safe (parse_header block) (fun h => 0 ≤ rh_size h).
Proof.
  unfold parse_header, verify_checksum. destruct (negb _); [done |].
  eapply safe_bind; [eapply (safe_bind _ _ _ (fun _ => True)); [apply tar_number_safe |] |];
    [intros v _; by case_match |].
  intros _ _. destruct (is_empty (if is_empty _ then _ else _)); [done |].
  eapply safe_bind; [apply tar_number_safe |]. intros size Hsize.
  do 3 (eapply safe_bind; [apply tar_number_safe |]; intros ? _).
  eapply safe_bind; [apply tar_number_safe |]. intros mtime _.
  eapply (safe_bind _ _ (fun _ => True)); [by case_match |]. intros ? _.
  do 2 (eapply safe_bind; [apply optional_tar_number_safe |]; intros ? _).
  exact (proj1 Hsize).
Qed.

Definition pax_ok (p : PaxValues) : Prop := ∀ s, pax_size p = Some s → 0 ≤ s.

Lemma decimal_u64_safe value label : safe (decimal_u64 value label) (fun v => 0 ≤ v ≤ u64_max).
Proof.
  unfold decimal_u64. case_match; [done |]. eapply safe_weaken; [apply safe_ok_or |].
  intros v. apply parse_unsigned_range.
Qed.

Lemma pax_assign_safe p key value : pax_ok p → safe (pax_assign p key value) pax_ok.
Proof.
  intros Hp. destruct p as [pa l s u g m]. unfold pax_assign, pax_ok in *. cbn in Hp.
  repeat case_bool_decide; try done.
  1-3: eapply safe_bind; [apply decimal_u64_safe |]; cbn; intros v Hv; try done; intros ? [= <-]; lia.
  eapply safe_bind; [apply safe_ok_or |]. intros v _. cbn. done.
Qed.

Lemma pax_loop_safe fuel data offset p :
  0 ≤ offset → len data - offset ≤ Z.of_nat fuel → pax_ok p → safe (pax_loop fuel data offset p) pax_ok.
Proof.
  revert offset p. induction fuel as [|fuel IH]; intros offset p Ho Hf Hp; cbn;
    destruct (Z.leb_spec (len data) offset); try done; [lia |].
  eapply safe_bind; [apply safe_ok_or |]. intros space _.
  eapply safe_bind; [apply safe_ok_or |]. intros n _.
  eapply safe_bind; [apply safe_ok_or |]. intros end_ _.
  destruct (_ || _) eqn:E; [done |]. apply orb_false_iff in E as [[_ E%Z.leb_gt]%orb_false_iff _].
  eapply safe_bind; [apply safe_ok_or |]. intros equals _. destruct (contains _ _); [done |].
  eapply safe_bind; [by apply pax_assign_safe |]. intros q Hq. apply IH; [lia | lia | done].
Qed.

Lemma parse_pax_safe data : safe (parse_pax data) pax_ok.
Proof. apply pax_loop_safe; [lia | unfold len; lia | done]. Qed.

Lemma overlay_ok p q : pax_ok p → pax_ok q → pax_ok (overlay p q).
Proof. unfold pax_ok, overlay, over. intros Hp Hq s. cbn. destruct (pax_size q); naive_solver. Qed.

(** ** The reader terminates

    [runs n k m Q]: started with fewer than [n] bytes available, [m] does not
    panic, keeps the reader's invariant, and when it succeeds it has consumed
    at least [k] bytes and its result satisfies [Q]. *)
Record reader_inv (lim : TarLimits) (r : TarStreamReader) : Prop := {
  ri_limits : limits r = lim;
  ri_current : ∀ s, current_size r = Some s → 0 ≤ s;
  ri_global : pax_ok (global_pax r);
  ri_pending : pax_ok (pending_pax r);
}.

Section runs.
Context (lim : TarLimits).

Definition runs {A} (n k : nat) (m : prog TarStreamReader A) (Q : A → Prop) : Prop :=
  ∀ r, reader_inv lim r → (available r < n)%nat →
  reader_inv lim (m r).2 ∧ safe (m r).1 (fun a => (available (m r).2 + k ≤ available r)%nat ∧ Q a).

Lemma runs_bind {A B} n k j (m : prog TarStreamReader A) (f : A → prog TarStreamReader B) Q R :
  runs n k m Q → (∀ a, Q a → runs (n - k) j (f a) R) → runs n (k + j) (m ≫= f) R.
Proof.
  intros Hm Hf r Hi Ha. destruct (Hm r Hi Ha) as [Hi' Hs]. unfold mbind, prog_bind.
  destruct (m r) as [[a|e|s] r']; cbn in *; [| done | done]. destruct Hs as [Hk Hq].
  destruct (Hf a Hq r' Hi' ltac:(lia)) as [Hi2 Hs2]. split; [done |].
  eapply safe_weaken; [exact Hs2 |]. cbn. intros b [? ?]. split; [lia | done].
Qed.

(** A step that consumes nothing that is counted. *)
Lemma runs_bind0 {A B} n k (m : prog TarStreamReader A) (f : A → prog TarStreamReader B) Q R :
  runs n 0 m Q → (∀ a, Q a → runs n k (f a) R) → runs n k (m ≫= f) R.
Proof. intros Hm Hf. eapply (runs_bind n 0 k); [done |]. intros a Ha. rewrite Nat.sub_0_r. by apply Hf. Qed.

Lemma runs_weaken {A} n n' k k' (m : prog TarStreamReader A) (Q R : A → Prop) :
  runs n k m Q → (n' ≤ n)%nat → (k' ≤ k)%nat → (∀ a, Q a → R a) → runs n' k' m R.
Proof.
  intros Hm Hn Hk HQ r Hi Ha. destruct (Hm r Hi ltac:(lia)) as [Hi' Hs]. split; [done |].
  eapply safe_weaken; [exact Hs |]. cbn. intros a [? ?]. split; [lia | by apply HQ].
Qed.

Lemma runs_ret {A} n (a : A) (Q : A → Prop) : Q a → runs n 0 (mret a) Q.
Proof. intros Hq r Hi Ha. cbn. split_and!; [done | lia | done]. Qed.
Lemma runs_throw {A} n k e (Q : A → Prop) : runs n k (throw e) Q.
Proof. intros r Hi Ha. done. Qed.
Lemma runs_lift {A} n (m : vres A) (Q : A → Prop) : safe m Q → runs n 0 (lift m) Q.
Proof. intros Hm r Hi Ha. cbn. split; [done |]. destruct m; cbn in *; [split; [lia | done] | done | done]. Qed.
Lemma runs_gets {A} n (f : TarStreamReader → A) :
  runs n 0 (gets f) (fun a => ∃ r, reader_inv lim r ∧ (available r < n)%nat ∧ f r = a).
Proof. intros r Hi Ha. cbn. split_and!; [done | lia | by exists r]. Qed.
Lemma runs_update n (f : TarStreamReader → TarStreamReader) :
  (∀ r, reader_inv lim r → reader_inv lim (f r) ∧ (available (f r) ≤ available r)%nat) →
  runs n 0 (update f) (fun _ => True).
Proof. intros Hf r Hi Ha. destruct (Hf r Hi). cbn. split_and!; [done | lia | done]. Qed.
(** The fuel of a loop is the state's own measure. *)
Lemma runs_fuel {A} n k (f : TarStreamReader → nat) (m : nat → prog TarStreamReader A) Q :
  (∀ r, (available r < n)%nat → ∀ i, i = f r → runs (S (available r)) k (m i) Q) → runs n k (x ← gets f; m x) Q.
Proof. intros H r Hi Ha. unfold mbind, prog_bind, gets. apply (H r Ha _ eq_refl r Hi). lia. Qed.

(** *** Byte operations *)
Lemma reader_inv_set_input r s b n e : reader_inv lim r → reader_inv lim (set_input r s b n e).
Proof. by intros []. Qed.

Lemma fill_loop_spec items r :
  (∃ s b n e, (fill_loop items r).2 = set_input r s b n e) ∧
  safe (fill_loop items r).1
    (fun _ => available (fill_loop items r).2 = (length (buffer r) + length (items ≫= item_bytes))%nat).
Proof.
  induction items as [|[chunk|e] items IH]; cbn [fill_loop]; [| | by repeat econstructor].
  { split; [by repeat econstructor |]. cbn. unfold available. cbn. lia. }
  destruct (is_empty chunk) eqn:E.
  { apply is_empty_true in E as ->. exact IH. }
  destruct (checked_add _ _ _) as [n|]; [| by repeat econstructor].
  destruct (_ <? _); [by repeat econstructor |]. split; [by repeat econstructor |].
  cbn. unfold available. cbn. rewrite !length_app. lia.
Qed.

Lemma runs_fill n : runs n 0 fill (fun _ => True).
Proof.
  intros r Hi Ha. unfold fill. destruct (_ || _); [cbn; split_and!; [done | lia | done] |].
  destruct (fill_loop_spec (stream r) r) as [(s & b & m & e & ->) Hs].
  split; [by apply reader_inv_set_input |]. eapply safe_weaken; [exact Hs |].
  cbn. intros _ ->. split; [| done]. unfold available. lia.
Qed.

(** The common step of the byte loops: fill, then take a part of the buffer. *)
Lemma runs_take {A} n k (cut : list byte → nat) (m : list byte → prog TarStreamReader A) Q :
  (∀ b, b ≠ [] → (1 ≤ cut b ≤ length b)%nat ∧ runs (n - 1) (k - cut b) (m b) Q) →
  runs n k
    (_ ← fill; b ← gets buffer;
     if is_empty b then throw (Io "truncated tar archive")
     else _ ← update (fun self => set_buffer self (drop (cut b) b)); m b) Q.
Proof.
  intros Hm. eapply (runs_bind0 n k); [apply runs_fill |]. intros _ _ r Hi Ha.
  change (let b := buffer r in let p := if is_empty b then throw (Io "truncated tar archive")
     else _ ← update (fun self => set_buffer self (drop (cut b) b)); m b in
     reader_inv lim (p r).2 ∧ safe (p r).1 (fun a => (available (p r).2 + k ≤ available r)%nat ∧ Q a)).
  cbv zeta. destruct (is_empty (buffer r)) eqn:E; [done |].
  apply is_empty_false in E. set (r' := set_buffer r (drop (cut (buffer r)) (buffer r))).
  destruct (Hm _ E) as [Hcut Hr].
  assert (available r' + cut (buffer r) = available r)%nat as Hav.
  { unfold available, r'. cbn. rewrite length_drop. lia. }
  destruct (Hr r') as [Hi' Hs]; [by apply reader_inv_set_input | lia |].
  split; [exact Hi' |]. eapply safe_weaken; [exact Hs |]. intros a [? ?].
  split; [change (available (m (buffer r) r').2 + k ≤ available r)%nat; lia | done].
Qed.

Lemma runs_read_exact_loop fuel length result :
  runs fuel (Z.to_nat (length - len result)) (read_exact_loop fuel length result) (fun _ => True).
Proof.
  revert result. induction fuel as [|fuel IH]; intros result; cbn [read_exact_loop].
  { intros r Hi Ha. lia. }
  destruct (Z.leb_spec length (len result)) as [Hl|Hl].
  { replace (Z.to_nat _) with 0%nat by lia. by apply runs_ret. }
  apply (runs_take _ _ (fun b => Z.to_nat (Z.min (length - len result) (len b)))). intros b Hb.
  assert (1 ≤ len b) by (destruct b; [done | unfold len; cbn; lia]). split; [unfold len in *; lia |].
  eapply runs_weaken; [apply IH | lia | | done]. unfold len in *.
  rewrite length_app, length_take. lia.
Qed.

Lemma runs_read_exact n length : runs n (Z.to_nat length) (read_exact length) (fun _ => True).
Proof.
  apply runs_fuel. intros r Ha i ->.
  eapply runs_weaken; [apply runs_read_exact_loop | lia | rewrite len_nil; lia | done].
Qed.

Lemma runs_skip_exact_loop fuel length :
  0 ≤ length → runs fuel (Z.to_nat length) (skip_exact_loop fuel length) (fun _ => True).
Proof.
  revert length. induction fuel as [|fuel IH]; intros length Hl; cbn [skip_exact_loop].
  { intros r Hi Ha. lia. }
  destruct (Z.eqb_spec length 0) as [->|Hne]; [by apply runs_ret |].
  apply (runs_take _ _ (fun b => Z.to_nat (Z.min length (len b)))). intros b Hb.
  assert (1 ≤ len b) by (destruct b; [done | unfold len; cbn; lia]). split; [unfold len in *; lia |].
  eapply runs_weaken; [apply IH | | | done]; lia.
Qed.

Lemma runs_skip_exact n length :
  0 ≤ length → runs n (Z.to_nat length) (skip_exact length) (fun _ => True).
Proof.
  intros Hl. apply runs_fuel. intros r Ha i ->.
  eapply runs_weaken; [by apply runs_skip_exact_loop | lia | lia | done].
Qed.

Lemma runs_zero_tail_loop fuel : runs fuel 0 (zero_tail_loop fuel) (fun _ => True).
Proof.
  induction fuel as [|fuel IH]; cbn [zero_tail_loop]; [intros r Hi Ha; lia |].
  eapply (runs_bind0 _ 0); [apply runs_fill |]. intros _ _ r Hi Ha.
  change (let b := buffer r in let p := if is_empty b then mret tt
     else if existsb (fun b => negb (bool_decide (b = "000"%byte))) b
          then throw (Io "non-zero bytes after tar end marker")
          else _ ← update (fun self => set_buffer self []); zero_tail_loop fuel in
     reader_inv lim (p r).2 ∧ safe (p r).1 (fun a => (available (p r).2 + 0 ≤ available r)%nat ∧ True)).
  cbv zeta. destruct (is_empty (buffer r)) eqn:E; [cbn; split_and!; [done | lia | done] |].
  destruct (existsb _ _); [done |]. apply is_empty_false in E.
  destruct (IH (set_buffer r [])) as [Hi' Hs]; [by apply reader_inv_set_input | |].
  { unfold available in *. cbn in *. destruct (buffer r); [done | cbn in *; lia]. }
  split; [exact Hi' |]. eapply safe_weaken; [exact Hs |]. intros a [H _]. split; [| done].
  etrans; [exact H |]. unfold available. cbn. lia.
Qed.

Lemma runs_ensure_zero_tail n : runs n 0 ensure_zero_tail (fun _ => True).
Proof. apply runs_fuel. intros r Ha i ->. apply runs_zero_tail_loop. Qed.

Lemma padding_range a b : 0 ≤ padding a b < TAR_BLOCK.
Proof. apply Z.mod_pos_bound. unfold TAR_BLOCK. lia. Qed.

(** Keeps the length of a bind chain at zero counted bytes. *)
Lemma runs_any {A} n k (m : prog TarStreamReader A) Q : runs n k m Q → runs n 0 m Q.
Proof. intros H. eapply runs_weaken; [exact H | lia | lia | done]. Qed.

Lemma runs_read_extension n size : runs n 0 (read_extension size) (fun _ => True).
Proof.
  eapply runs_bind0; [apply runs_gets |]. intros l _. destruct (_ <? _); [apply runs_throw |].
  eapply runs_bind0; [eapply runs_any, runs_read_exact |]. intros data _.
  eapply runs_bind0; [eapply runs_any, runs_skip_exact; apply padding_range |]. intros _ _. by apply runs_ret.
Qed.

(** *** Entries *)

(** What [next_entry] promises of an entry. *)
Definition entry_accepted (e : TarEntry) : Prop := te_path e ≠ [] → entry_ok lim e.

Lemma validate_link_target_safe target l : safe (validate_link_target target l) (fun _ => True).
Proof.
  unfold validate_link_target, VirtualPathBytes_new. by repeat case_match.
Qed.

Lemma checked_u32_safe v label : safe (checked_u32 v label) (fun _ => True).
Proof. unfold checked_u32. by case_match. Qed.

Lemma checked_device_safe (o : option Z) label :
  safe (match o with Some v => Some <$> checked_u32 v label | None => Ok None end) (fun _ => True).
Proof. destruct o as [v|]; [| done]. unfold checked_u32. by case_match. Qed.

Lemma from_tar_bytes_safe raw l : safe (from_tar_bytes raw l) (fun p => from_tar_bytes raw l = Ok p).
Proof. apply safe_intro. intros s. apply from_tar_bytes_no_panic. Qed.

Lemma hardlink_target_safe kind (target : option (list byte)) :
  safe (if bool_decide (kind = THardlink) then
          target ← ok_or (Io "hardlink has no target") target;
          _ ← from_tar_bytes target lim; Ok tt
        else Ok tt)
    (fun _ => kind = THardlink → ∃ t, target = Some t ∧ is_ok (from_tar_bytes t lim) = true).
Proof.
  case_bool_decide as Hk; [| by cbn; intros]. destruct target as [t|]; [| done]. cbn.
  pose proof (from_tar_bytes_safe t lim) as Hs. destruct (from_tar_bytes t lim) eqn:E; cbn in *; [| done | done].
  intros _. exists t. by rewrite E.
Qed.

Lemma runs_finish_entry n header :
  0 ≤ rh_size header → runs n 0 (finish_entry header) entry_accepted.
Proof.
  intros Hh. unfold finish_entry.
  eapply runs_bind0; [apply runs_gets |]. intros global (r & Hi & _ & <-).
  eapply runs_bind0; [apply runs_gets |]. intros pending (r' & Hi' & _ & <-).
  eapply runs_bind0; [apply runs_gets |]. intros name _.
  eapply runs_bind0; [apply runs_gets |]. intros link _.
  eapply runs_bind0; [apply runs_gets |]. intros l (r2 & Hi2 & _ & <-). rewrite (ri_limits _ _ Hi2).
  assert (pax_ok (overlay (global_pax r) (pending_pax r'))) as Hpax by (apply overlay_ok; [apply Hi | apply Hi']).
  destruct (match pax_path _ with Some _ => _ | None => _ end) as [raw_path name'].
  destruct (match pax_link_path _ with Some _ => _ | None => _ end) as [link_target link'].
  eapply runs_bind0; [apply runs_update; intros s []; split; [split; try done; apply Hi | done] |]. intros _ _.
  eapply runs_bind0; [apply runs_lift, validate_link_target_safe |]. intros _ _.
  eapply runs_bind0; [apply runs_lift, hardlink_target_safe |]. intros ? Hlink.
  destruct (_ <? _); [apply runs_throw |].
  set (size := default (rh_size header) (pax_size (overlay (global_pax r) (pending_pax r')))).
  assert (0 ≤ size) as Hsize by (unfold size; destruct (pax_size _) eqn:E; [by apply Hpax | done]).
  eapply (runs_bind0 _ _ _ _ entry_accepted).
  - apply runs_lift. eapply safe_bind; [apply from_tar_bytes_safe |]. intros path Hpath.
    do 3 (eapply safe_bind; [apply checked_u32_safe |]; intros ? _).
    do 2 (eapply safe_bind; [apply checked_device_safe |]; intros ? _).
    apply from_tar_bytes_ok in Hpath as [Hn Hl]. cbn [safe]. unfold entry_accepted, entry_ok. cbn.
    intros Hne. done.
  - intros e He. eapply runs_bind0; [| intros _ _; by apply runs_ret].
    apply runs_update. intros s []. split; [| done]. split; cbn; try done. by intros ? [= <-].
Qed.

Lemma runs_next_entry_loop fuel :
  runs fuel 1 (next_entry_loop fuel) (fun o => ∀ e, o = Some e → entry_accepted e).
Proof.
  induction fuel as [|fuel IH]; cbn [next_entry_loop]; [intros r Hi Ha; lia |].
  eapply (runs_bind _ 1 0).
  { eapply runs_weaken; [apply runs_read_exact | apply Nat.le_refl | unfold TAR_BLOCK; lia | exact (fun _ H => H)]. }
  intros block _. cbn [Nat.sub]. rewrite Nat.sub_0_r. destruct (forallb _ _).
  { eapply runs_bind0; [eapply runs_any, runs_read_exact |]. intros second _.
    destruct (existsb _ _); [apply runs_throw |].
    eapply runs_bind0; [apply runs_ensure_zero_tail |]. intros _ _.
    eapply runs_bind0; [apply runs_update; by intros s [] |]. intros _ _. by apply runs_ret. }
  eapply runs_bind0; [apply runs_lift, parse_header_safe |]. intros header Hh.
  destruct (_ || _).
  { eapply runs_bind0; [apply runs_read_extension |]. intros payload _.
    eapply runs_bind0; [apply runs_lift, parse_pax_safe |]. intros pax Hpax.
    eapply runs_bind0; [| intros _ _; eapply runs_any, IH].
    apply runs_update. intros s []. case_bool_decide; (split; [| done]); split; try done; by apply overlay_ok. }
  destruct (_ || _).
  { eapply runs_bind0; [apply runs_read_extension |]. intros payload _.
    eapply (runs_bind0 _ _ _ _ (fun _ => True)).
    { apply runs_lift. unfold parse_long_value. by case_match. }
    intros value _. eapply runs_bind0; [| intros _ _; eapply runs_any, IH].
    apply runs_update. intros s []. by case_bool_decide. }
  eapply runs_bind0; [by apply runs_finish_entry |]. intros e He. apply runs_ret. by intros ? [= <-].
Qed.

(** An entry costs at least a byte; the end of the archive need not. *)
Lemma runs_next_entry n : runs n 0 next_entry (fun o => ∀ e, o = Some e → entry_accepted e).
Proof.
  eapply runs_bind0; [apply runs_gets |]. intros current _.
  eapply runs_bind0; [apply runs_gets |]. intros finished _.
  apply runs_fuel. intros r Ha i ->. case_bool_decide; [apply runs_throw |].
  destruct finished; [by apply runs_ret |]. eapply runs_any, runs_next_entry_loop.
Qed.

Lemma next_entry_cost r e :
  reader_inv lim r → (next_entry r).1 = Ok (Some e) → (available (next_entry r).2 + 1 ≤ available r)%nat.
Proof.
  intros Hi. destruct (runs_next_entry_loop (S (available r)) r Hi ltac:(lia)) as [_ Hs].
  unfold next_entry, mbind, prog_bind, gets. case_bool_decide; [done |].
  destruct (archive_finished r); [done |]. intros He. rewrite He in Hs. apply Hs.
Qed.

Lemma runs_skip_entry_body n : runs n 0 skip_entry_body (fun _ => True).
Proof.
  eapply runs_bind0; [apply runs_gets |]. intros current (r & Hi & _ & <-).
  eapply runs_bind0; [apply runs_update; intros s []; split; [split; try done; cbn; discriminate | unfold available; cbn; lia] |]. intros _ _.
  eapply runs_bind0; [apply runs_lift, safe_ok_or |]. intros size Hsize%(ri_current _ _ Hi).
  eapply runs_bind0; [by eapply runs_any, runs_skip_exact |]. intros _ _.
  eapply runs_any, runs_skip_exact, padding_range.
Qed.

Lemma runs_bind_at {A B} k (m : prog TarStreamReader A) (f : A → prog TarStreamReader B) (Q : B → Prop) r :
  reader_inv lim (m r).2 →
  safe (m r).1 (fun a => reader_inv lim (f a (m r).2).2 ∧
    safe (f a (m r).2).1 (fun b => (available (f a (m r).2).2 + k ≤ available r)%nat ∧ Q b)) →
  reader_inv lim ((m ≫= f) r).2 ∧
  safe ((m ≫= f) r).1 (fun b => (available ((m ≫= f) r).2 + k ≤ available r)%nat ∧ Q b).
Proof. unfold mbind, prog_bind. by destruct (m r) as [[a|e|s] r']. Qed.

Lemma runs_index_loop fuel index :
  index_wf lim index → runs fuel 0 (index_loop fuel index) (index_wf lim).
Proof.
  revert index. induction fuel as [|fuel IH]; intros index Hwf; cbn [index_loop]; [intros r Hi Ha; lia |].
  intros r Hi Ha. pose proof (next_entry_cost r) as Hcost. destruct (runs_next_entry (S fuel) r Hi Ha) as [Hi' Hs].
  apply runs_bind_at; [done |].
  destruct (next_entry r) as [[[e|]|err|s] r']; cbn [safe fst snd] in *; [| | done | done].
  2: { cbn. split_and!; [done | lia | done]. }
  specialize (Hcost e Hi eq_refl). destruct Hs as [_ He]. specialize (He e eq_refl).
  assert (runs fuel 0 (_ ← skip_entry_body;
          if TarPath_is_root (te_path e) then index_loop fuel index
          else limits ← gets limits;
               match insert_with_parents index e (max_entries limits) with
               | (Ok _, index) => index_loop fuel index
               | (Err e, _) => throw e
               | (Panic s, _) => lift (Panic s)
               end) (index_wf lim)) as Hrest.
  { eapply runs_bind0; [apply runs_skip_entry_body |]. intros _ _.
    destruct (TarPath_is_root (te_path e)) eqn:Er; [by apply IH |].
    apply is_empty_false in Er. specialize (He Er).
    eapply runs_bind0; [apply runs_gets |]. intros l (r2 & Hi2 & _ & <-). rewrite (ri_limits _ _ Hi2).
    destruct (insert_with_parents_wf lim index e Hwf He) as [Hwf' Hp].
    destruct (insert_with_parents _ _ _) as [[u|err|s] index']; cbn in Hwf', Hp;
      [by apply IH | apply runs_throw | by destruct (Hp s)]. }
  destruct (Hrest r' Hi' ltac:(lia)) as [Hi2 Hs2]. split; [exact Hi2 |].
  eapply safe_weaken; [exact Hs2 |]. intros a [? ?]. split; [lia | done].
Qed.
End runs.

Lemma TarStreamReader_new_inv stream lim : reader_inv lim (TarStreamReader_new stream lim).
Proof. by split. Qed.

(** ** Chunks do not matter

    [rem r] is what the reader will still deliver; two readers are similar when
    they agree on it and on everything but how it is cut into chunks. *)
Definition rem (r : TarStreamReader) : list byte := buffer r ++ (stream r ≫= item_bytes).
Definition core (r : TarStreamReader) : TarStreamReader := set_input r [] [] 0 false.

Record input_ok (r : TarStreamReader) : Prop := {
  io_chunks : Forall (fun i => ∃ chunk, i = inl chunk) (stream r);
  io_limit : received r + len (stream r ≫= item_bytes) ≤ max_archive_bytes (limits r) ≤ u64_max;
  io_ended : ended r = true → (stream r ≫= item_bytes) = [];
}.

Definition sim (r1 r2 : TarStreamReader) : Prop :=
  input_ok r1 ∧ input_ok r2 ∧ core r1 = core r2 ∧ rem r1 = rem r2.

(** [r'] is [r] after [n] bytes were delivered. *)
Definition consumed (n : nat) (r r' : TarStreamReader) : Prop :=
  input_ok r' ∧ core r' = core r ∧ rem r' = drop n (rem r).

Lemma available_rem r : available r = length (rem r).
Proof. unfold available, rem. by rewrite length_app. Qed.

Lemma consumed_trans n m r1 r2 r3 : consumed n r1 r2 → consumed m r2 r3 → consumed (n + m) r1 r3.
Proof. intros (_ & H1 & H2) (H3 & H4 & H5). split_and!; [done | congruence |]. by rewrite H5, H2, drop_drop. Qed.

Lemma consumed_sim n r1 r2 r1' r2' :
  sim r1 r2 → consumed n r1 r1' → consumed n r2 r2' → sim r1' r2'.
Proof. intros (_ & _ & Hc & Hr) (? & ? & ?) (? & ? & ?). split_and!; [done | done | congruence | congruence]. Qed.

Lemma fill_loop_ok r items :
  input_ok (set_input r items (buffer r) (received r) (ended r)) → buffer r = [] → ended r = false →
  ∃ r', fill_loop items r = (Ok tt, r') ∧ input_ok r' ∧ core r' = core r ∧
        rem r' = (items ≫= item_bytes) ∧ (buffer r' = [] → rem r' = []).
Proof.
  intros Hok Hb He. induction items as [|i items IH]; cbn [fill_loop].
  { eexists. split; [done |]. destruct Hok. cbn in *. split_and!; [by split | done | | ];
      unfold rem; cbn; by rewrite Hb. }
  destruct Hok as [Hc Hl _]. cbn in Hc, Hl. apply Forall_cons_iff in Hc as [[chunk ->] Hc].
  destruct (is_empty chunk) eqn:E.
  { apply is_empty_true in E as ->. apply IH. split; cbn; try done. by rewrite He. }
  cbn in Hl. rewrite len_app in Hl. pose proof (len_nonneg (items ≫= item_bytes)).
  unfold checked_add. rewrite bool_decide_eq_true_2 by lia.
  rewrite (proj2 (Z.ltb_ge _ _)) by lia. eexists. split; [done |]. apply is_empty_false in E.
  split_and!; [split; cbn; try done; [lia | by rewrite He] | done | |]; unfold rem; cbn; rewrite Hb; cbn; [done |].
  by intros ->.
Qed.

Lemma fill_ok r :
  input_ok r → ∃ r', fill r = (Ok tt, r') ∧ consumed 0 r r' ∧ (buffer r' = [] → rem r' = []).
Proof.
  intros Hok. unfold fill, consumed. rewrite drop_0. destruct (is_empty (buffer r)) eqn:E; cbn [negb orb].
  - apply is_empty_true in E. destruct (ended r) eqn:Ee.
    + exists r. split_and!; try done. unfold rem. by rewrite E, (io_ended _ Hok Ee).
    + destruct (fill_loop_ok r (stream r)) as (r' & Hf & ? & ? & Hr & ?); try done.
      { by destruct r, Hok; split. }
      exists r'. split_and!; try done. rewrite Hr. unfold rem. by rewrite E.
  - exists r. apply is_empty_false in E. by split_and!.
Qed.

(** The step shared by [read_exact] and [skip_exact], see [runs_take]. *)
Lemma take_step {A} r (cut : list byte → nat) (m : list byte → prog TarStreamReader A) :
  input_ok r → (∀ b, (cut b ≤ length b)%nat) →
  let p := (_ ← fill; b ← gets buffer;
            if is_empty b then throw (Io "truncated tar archive")
            else _ ← update (fun self => set_buffer self (drop (cut b) b)); m b) in
  (rem r = [] ∧ (p r).1 = Err (Io "truncated tar archive")) ∨
  ∃ b k r', b ≠ [] ∧ rem r = b ++ k ∧ consumed (cut b) r r' ∧ p r = m b r'.
Proof.
  intros Hok Hcut p. destruct (fill_ok r Hok) as (r1 & Hf & (Hok1 & Hc1 & Hr1) & He).
  assert (p r = (if is_empty (buffer r1) then throw (Io "truncated tar archive")
                 else _ ← update (fun self => set_buffer self (drop (cut (buffer r1)) (buffer r1)));
                      m (buffer r1)) r1) as ->.
  { unfold p. unfold mbind at 1, prog_bind. rewrite Hf. done. }
  rewrite drop_0 in Hr1. destruct (is_empty (buffer r1)) eqn:E.
  { left. apply is_empty_true in E. by rewrite <- Hr1, He. }
  right. apply is_empty_false in E. exists (buffer r1), (stream r1 ≫= item_bytes).
  eexists. split_and!; [done | by rewrite <- Hr1 | | reflexivity].
  unfold consumed. rewrite <- Hr1, <- Hc1. split_and!; [by destruct Hok1; split | done |].
  unfold rem. cbn. by rewrite drop_app_le.
Qed.

Lemma read_exact_loop_ok fuel length result r :
  input_ok r → (available r < fuel)%nat →
  let want := Z.to_nat (length - len result) in
  if decide (want ≤ List.length (rem r))%nat
  then ∃ r', read_exact_loop fuel length result r = (Ok (result ++ take want (rem r)), r') ∧ consumed want r r'
  else (read_exact_loop fuel length result r).1 = Err (Io "truncated tar archive").
Proof.
  revert result r. induction fuel as [|fuel IH]; intros result r Hok Ha; [lia |]. cbn [read_exact_loop].
  cbv zeta. destruct (Z.leb_spec length (len result)) as [Hl|Hl].
  { replace (Z.to_nat _) with 0%nat by lia. rewrite decide_True by lia. exists r.
    by rewrite take_0, app_nil_r. }
  set (want := Z.to_nat (length - len result)). assert (1 ≤ want)%nat as Hwant by (unfold want; lia).
  set (cut := fun b : list byte => Z.to_nat (Z.min (length - len result) (len b))).
  assert (∀ b, cut b = Nat.min want (List.length b)) as Hcut by (intros b; unfold cut, want, len; lia).
  destruct (take_step r cut (fun b => read_exact_loop fuel length (result ++ take (cut b) b)))
    as [[Hr He] | (b & k & r' & Hb & Hr & Hc & He)]; [done | intros b; rewrite Hcut; lia | |].
  { rewrite Hr. rewrite decide_False by (cbn; unfold want; lia). exact He. }
  assert (1 ≤ List.length b)%nat as Hlb by (destruct b; [done | cbn; lia]).
  assert (available r' < fuel)%nat as Ha'.
  { rewrite available_rem in *. destruct Hc as (_ & _ & ->). rewrite length_drop, Hcut, Hr, length_app in *. lia. }
  specialize (IH (result ++ take (cut b) b) r' (proj1 Hc) Ha'). cbv zeta in IH.
  assert (Z.to_nat (length - len (result ++ take (cut b) b)) = want - cut b)%nat as Hw.
  { rewrite len_app. unfold len at 2. rewrite length_take, Hcut. unfold want. lia. }
  rewrite Hw in IH. destruct Hc as (Hok' & Hcore & Hrem). rewrite Hrem, length_drop in IH.
  rewrite Hr, length_app in IH |- *. pose proof (Hcut b) as Hcb.
  destruct (decide (want ≤ _)%nat) as [Hd|Hd].
  - rewrite decide_True in IH by lia. destruct IH as (r2 & IH & Hc2). exists r2.
    split.
    + etrans; [exact He |]. rewrite IH, <- app_assoc. f_equal. f_equal. f_equal. rewrite Hcb.
      destruct (Nat.le_gt_cases want (List.length b)) as [Hle|Hgt].
      * rewrite Nat.min_l, Nat.sub_diag, take_0, app_nil_r by lia. by rewrite take_app_le.
      * rewrite Nat.min_r by lia. rewrite firstn_all, drop_app_length.
        by rewrite take_app_ge by lia.
    + replace want with (cut b + (want - cut b))%nat at 1 by lia.
      eapply consumed_trans; [by split_and! | exact Hc2].
  - rewrite decide_False in IH by lia. exact (eq_trans (f_equal fst He) IH).
Qed.

Lemma skip_exact_loop_ok fuel length r :
  input_ok r → (available r < fuel)%nat → 0 ≤ length →
  if decide (Z.to_nat length ≤ List.length (rem r))%nat
  then ∃ r', skip_exact_loop fuel length r = (Ok tt, r') ∧ consumed (Z.to_nat length) r r'
  else (skip_exact_loop fuel length r).1 = Err (Io "truncated tar archive").
Proof.
  revert length r. induction fuel as [|fuel IH]; intros length r Hok Ha Hl; [lia |]. cbn [skip_exact_loop].
  destruct (Z.eqb_spec length 0) as [->|Hne]; [rewrite decide_True by lia; by exists r |].
  set (cut := fun b : list byte => Z.to_nat (Z.min length (len b))).
  assert (∀ b, cut b = Nat.min (Z.to_nat length) (List.length b)) as Hcut by (intros b; unfold cut, len; lia).
  destruct (take_step r cut (fun b => skip_exact_loop fuel (length - Z.min length (len b))))
    as [[Hr He] | (b & k & r' & Hb & Hr & Hc & He)]; [done | intros b; rewrite Hcut; lia | |].
  { rewrite Hr. rewrite decide_False by (cbn; lia). exact He. }
  assert (1 ≤ List.length b)%nat as Hlb by (destruct b; [done | cbn; lia]). pose proof (Hcut b) as Hcb.
  destruct Hc as (Hok' & Hcore & Hrem).
  assert (available r' < fuel)%nat as Ha'.
  { rewrite available_rem in *. rewrite Hrem, length_drop, Hr, length_app in *. lia. }
  specialize (IH (length - Z.min length (len b)) r' Hok' Ha' ltac:(unfold len; lia)).
  assert (Z.to_nat (length - Z.min length (len b)) = Z.to_nat length - cut b)%nat as Hw by (unfold len; lia).
  rewrite Hw, Hrem, length_drop, Hr, length_app in IH. rewrite Hr, length_app.
  destruct (decide (Z.to_nat length ≤ _)%nat) as [Hd|Hd].
  - rewrite decide_True in IH by lia. destruct IH as (r2 & IH & Hc2). exists r2.
    split; [exact (eq_trans He IH) |].
    replace (Z.to_nat length) with (cut b + (Z.to_nat length - cut b))%nat at 1 by lia.
    eapply consumed_trans; [by split_and! | exact Hc2].
  - rewrite decide_False in IH by lia. exact (eq_trans (f_equal fst He) IH).
Qed.

Lemma zero_tail_loop_ok fuel r :
  input_ok r → (available r < fuel)%nat →
  if existsb (fun b => negb (bool_decide (b = "000"%byte))) (rem r)
  then (zero_tail_loop fuel r).1 = Err (Io "non-zero bytes after tar end marker")
  else ∃ r', zero_tail_loop fuel r = (Ok tt, r') ∧ consumed (length (rem r)) r r'.
Proof.
  revert r. induction fuel as [|fuel IH]; intros r Hok Ha; [lia |].
  destruct (fill_ok r Hok) as (r1 & Hf & (Hok1 & Hc1 & Hr1) & He). rewrite drop_0 in Hr1.
  assert (zero_tail_loop (S fuel) r =
          (if is_empty (buffer r1) then mret tt
           else if existsb (fun b => negb (bool_decide (b = "000"%byte))) (buffer r1)
           then throw (Io "non-zero bytes after tar end marker")
           else _ ← update (fun self => set_buffer self []); zero_tail_loop fuel) r1) as ->.
  { cbn [zero_tail_loop]. unfold mbind at 1, prog_bind. rewrite Hf. done. }
  destruct (is_empty (buffer r1)) eqn:E.
  { apply is_empty_true in E. rewrite <- Hr1, (He E). exists r1. unfold consumed. by rewrite <- Hr1, He. }
  assert (rem r = buffer r1 ++ rem (set_buffer r1 [])) as Hr by (rewrite <- Hr1; done).
  rewrite Hr, existsb_app. destruct (existsb _ (buffer r1)); [done |]. cbn [orb].
  apply is_empty_false in E. assert (1 ≤ length (buffer r1))%nat by (destruct (buffer r1); [done | cbn; lia]).
  assert (input_ok (set_buffer r1 [])) as Hok2 by (by destruct Hok1; split).
  specialize (IH (set_buffer r1 []) Hok2). rewrite !available_rem in *.
  rewrite Hr, length_app in Ha. specialize (IH ltac:(lia)).
  destruct (existsb _ _); [exact IH |]. destruct IH as (r2 & IH & Hc2). exists r2. split; [exact IH |].
  rewrite length_app. eapply consumed_trans; [| exact Hc2]. unfold consumed.
  split_and!; [done | by rewrite <- Hc1 |]. by rewrite Hr, drop_app_length.
Qed.

(** [indep m]: similar readers give the same result and stay similar. *)
Definition indep {A} (m : prog TarStreamReader A) : Prop :=
  ∀ r1 r2, sim r1 r2 → (m r1).1 = (m r2).1 ∧ (is_ok (m r1).1 = true → sim (m r1).2 (m r2).2).

Lemma indep_bind {A B} (m : prog TarStreamReader A) (f : A → prog TarStreamReader B) :
  indep m → (∀ a, indep (f a)) → indep (m ≫= f).
Proof.
  intros Hm Hf r1 r2 Hs. destruct (Hm r1 r2 Hs) as [He Hs']. unfold mbind, prog_bind.
  destruct (m r1) as [x1 r1'], (m r2) as [x2 r2']. cbn in He, Hs'. subst x2.
  destruct x1 as [a|e|s]; [| done | done]. apply Hf. by apply Hs'.
Qed.

Lemma indep_lift {A} (x : vres A) : indep (lift x).
Proof. by intros r1 r2 Hs. Qed.
Lemma indep_ret {A} (a : A) : indep (mret a).
Proof. by intros r1 r2 Hs. Qed.
Lemma indep_throw {A} e : indep (throw (A:=A) e).
Proof. by intros r1 r2 Hs. Qed.
Lemma indep_gets {A} (f : TarStreamReader → A) : (∀ r, f r = f (core r)) → indep (gets f).
Proof. intros Hf r1 r2 Hs. split; [| done]. cbn. rewrite (Hf r1), (Hf r2). f_equal. f_equal. apply Hs. Qed.
Lemma indep_fuel {A} (m : nat → prog TarStreamReader A) :
  (∀ n r1 r2, sim r1 r2 → n = available r1 → (m n r1).1 = (m n r2).1 ∧ (is_ok (m n r1).1 = true → sim (m n r1).2 (m n r2).2)) →
  indep (n ← gets available; m n).
Proof.
  intros Hm r1 r2 Hs. unfold mbind, prog_bind, gets.
  assert (available r2 = available r1) as -> by (rewrite !available_rem; f_equal; symmetry; apply Hs).
  by apply Hm.
Qed.

(** A change of the part of the state that is not the input. *)
Definition keeps_input (f : TarStreamReader → TarStreamReader) : Prop :=
  ∀ r s b n e, f (set_input r s b n e) = set_input (f r) s b n e ∧ limits (f r) = limits r ∧
               stream (f r) = stream r ∧ buffer (f r) = buffer r ∧ received (f r) = received r ∧ ended (f r) = ended r.

Lemma indep_update f : keeps_input f → indep (update f).
Proof.
  intros Hf r1 r2 (H1 & H2 & Hc & Hr). split; [done |]. intros _. cbn.
  assert (∀ r, input_ok r → input_ok (f r)) as Hio.
  { intros r []. destruct (Hf r [] [] 0 false) as (_ & E1 & E2 & E3 & E4 & E5).
    split; rewrite ?E1, ?E2, ?E3, ?E4, ?E5; done. }
  assert (∀ r, core (f r) = f (core r)) as Hcore by (intros r; symmetry; apply Hf).
  assert (∀ r, rem (f r) = rem r) as Hrem.
  { intros r. destruct (Hf r [] [] 0 false) as (_ & _ & E2 & E3 & _). unfold rem. by rewrite E2, E3. }
  split_and!; [by apply Hio | by apply Hio | rewrite !Hcore; by f_equal | by rewrite !Hrem].
Qed.

Lemma sim_consumed {A} n r1 r2 r1' r2' (a : A) (x1 x2 : vres A * TarStreamReader) :
  sim r1 r2 → x1 = (Ok a, r1') → x2 = (Ok a, r2') → consumed n r1 r1' → consumed n r2 r2' →
  x1.1 = x2.1 ∧ (is_ok x1.1 = true → sim x1.2 x2.2).
Proof. intros Hs -> -> H1 H2. split; [done |]. intros _. by eapply consumed_sim. Qed.

Lemma sim_error {A} e (x1 x2 : vres A * TarStreamReader) :
  x1.1 = Err e → x2.1 = Err e → x1.1 = x2.1 ∧ (is_ok x1.1 = true → sim x1.2 x2.2).
Proof. intros H1 H2. rewrite H1, H2. done. Qed.

Lemma sim_available r1 r2 : sim r1 r2 → available r2 = available r1.
Proof. intros Hs. rewrite !available_rem. f_equal. symmetry. apply Hs. Qed.

Lemma indep_read_exact length : indep (read_exact length).
Proof.
  apply (indep_fuel (fun n => read_exact_loop (S n) length [])). intros n r1 r2 Hs ->.
  pose proof (sim_available _ _ Hs) as Ha. pose proof Hs as (H1 & H2 & _ & Hr).
  pose proof (read_exact_loop_ok (S (available r1)) length [] r1 H1 ltac:(lia)) as E1.
  pose proof (read_exact_loop_ok (S (available r1)) length [] r2 H2 ltac:(lia)) as E2. cbv zeta in E1, E2.
  rewrite <- Hr in E2. destruct (decide _).
  - destruct E1 as (r1' & E1 & C1), E2 as (r2' & E2 & C2). by eapply sim_consumed.
  - by eapply sim_error.
Qed.

(** A negative length, which the sizes of the reader never are. *)
Lemma skip_exact_loop_neg fuel length r :
  input_ok r → length < 0 →
  if decide (rem r = [])
  then (skip_exact_loop (S fuel) length r).1 = Err (Io "truncated tar archive")
  else ∃ r', skip_exact_loop (S fuel) length r = (Ok tt, r') ∧ consumed 0 r r'.
Proof.
  intros Hok Hl. cbn [skip_exact_loop]. destruct (Z.eqb_spec length 0) as [|_]; [lia |].
  destruct (take_step r (fun b => Z.to_nat (Z.min length (len b)))
              (fun b => skip_exact_loop fuel (length - Z.min length (len b))))
    as [[Hr He] | (b & k & r' & Hb & Hr & Hc & He)]; [done | intros b; unfold len; lia | |].
  { by rewrite decide_True. }
  rewrite decide_False by (rewrite Hr; by destruct b). exists r'. pose proof (len_nonneg b).
  replace (Z.to_nat (Z.min length (len b))) with 0%nat in Hc by lia. split; [| done].
  etrans; [exact He |]. replace (length - Z.min length (len b)) with 0 by lia. by destruct fuel.
Qed.

Lemma indep_skip_exact length : indep (skip_exact length).
Proof.
  apply (indep_fuel (fun n => skip_exact_loop (S n) length)). intros n r1 r2 Hs ->.
  pose proof (sim_available _ _ Hs) as Ha. pose proof Hs as (H1 & H2 & _ & Hr).
  destruct (Z.lt_ge_cases length 0) as [Hl|Hl].
  - pose proof (skip_exact_loop_neg (available r1) length r1 H1 Hl) as E1.
    pose proof (skip_exact_loop_neg (available r1) length r2 H2 Hl) as E2.
    rewrite <- Hr in E2. destruct (decide _); [by eapply sim_error |].
    destruct E1 as (r1' & E1 & C1), E2 as (r2' & E2 & C2). by eapply sim_consumed.
  - pose proof (skip_exact_loop_ok (S (available r1)) length r1 H1 ltac:(lia) Hl) as E1.
    pose proof (skip_exact_loop_ok (S (available r1)) length r2 H2 ltac:(lia) Hl) as E2.
    rewrite <- Hr in E2. destruct (decide _); [| by eapply sim_error].
    destruct E1 as (r1' & E1 & C1), E2 as (r2' & E2 & C2). by eapply sim_consumed.
Qed.

Lemma indep_ensure_zero_tail : indep ensure_zero_tail.
Proof.
  apply (indep_fuel (fun n => zero_tail_loop (S n))). intros n r1 r2 Hs ->.
  pose proof (sim_available _ _ Hs) as Ha. pose proof Hs as (H1 & H2 & _ & Hr).
  pose proof (zero_tail_loop_ok (S (available r1)) r1 H1 ltac:(lia)) as E1.
  pose proof (zero_tail_loop_ok (S (available r1)) r2 H2 ltac:(lia)) as E2.
  rewrite <- Hr in E2. destruct (existsb _ _); [by eapply sim_error |].
  destruct E1 as (r1' & E1 & C1), E2 as (r2' & E2 & C2). by eapply sim_consumed.
Qed.

Create HintDb indep discriminated.
#[export] Hint Resolve indep_lift indep_ret indep_throw indep_read_exact indep_skip_exact
  indep_ensure_zero_tail : indep.
#[export] Hint Extern 1 (indep (gets _)) => apply indep_gets; done : indep.
#[export] Hint Extern 1 (indep (update _)) => apply indep_update; repeat intro; repeat case_bool_decide; done : indep.

(** Follow the program: binds, branches, and the operations of the database. *)
Ltac indep_auto :=
  repeat match goal with
  | |- indep (mbind _ _) => apply indep_bind; [| intros ?]
  | |- indep (if ?c then _ else _) => destruct c
  | |- indep (let '(_, _) := ?p in _) => destruct p
  | _ => solve [auto with indep]
  end.

Lemma indep_read_extension size : indep (read_extension size).
Proof. unfold read_extension. indep_auto. Qed.
#[export] Hint Resolve indep_read_extension : indep.

Lemma indep_finish_entry header : indep (finish_entry header).
Proof. unfold finish_entry. indep_auto. Qed.
#[export] Hint Resolve indep_finish_entry : indep.

Lemma indep_next_entry_loop fuel : indep (next_entry_loop fuel).
Proof. induction fuel; cbn [next_entry_loop]; indep_auto. Qed.
#[export] Hint Resolve indep_next_entry_loop : indep.

Lemma indep_next_entry : indep next_entry.
Proof.
  unfold next_entry. do 2 (apply indep_bind; [auto with indep | intros ?]).
  apply (indep_fuel (fun n => if bool_decide (is_Some a) then _ else if a0 then _ else next_entry_loop (S n))).
  intros n r1 r2 Hs _. case_bool_decide; [done |]. destruct a0; [done |]. by apply indep_next_entry_loop.
Qed.

Lemma indep_skip_entry_body : indep skip_entry_body.
Proof. unfold skip_entry_body. indep_auto. Qed.
#[export] Hint Resolve indep_next_entry indep_skip_entry_body : indep.

Lemma indep_index_loop fuel index : indep (index_loop fuel index).
Proof.
  revert index. induction fuel as [|fuel IH]; intros index; cbn [index_loop]; [apply indep_lift |].
  apply indep_bind; [apply indep_next_entry |]. intros [e|]; [| apply indep_ret]. indep_auto.
  match goal with r : vres () |- _ => destruct r end; indep_auto.
Qed.

Lemma TarStreamReader_new_input_ok chunks limits :
  len (concat chunks) ≤ max_archive_bytes limits ≤ u64_max →
  input_ok (TarStreamReader_new (inl <$> chunks) limits) ∧
  rem (TarStreamReader_new (inl <$> chunks) limits) = concat chunks.
Proof.
  intros Hl. assert ((inl <$> chunks) ≫= item_bytes = concat chunks) as Hc.
  { clear Hl. induction chunks as [|c cs IH]; cbn; [done | by rewrite IH]. }
  split; [split; cbn; [| by rewrite Hc | done] |].
  - apply list.Forall_forall. intros i (c & -> & _)%list_elem_of_fmap. eauto.
  - unfold rem. cbn. done.
Qed.

(** *** Encoders

    The number fields that archivers write: octal digits up to a NUL, and the
    base-256 form for values that do not fit. *)
Fixpoint octal_digits (n : nat) (v : Z) : list byte :=
  match n with
  | O => []
  | S n => octal_digits n (v / 8) ++ [of_u8 (48 + v mod 8)]
  end.

Lemma octal_digit_value v : u8 (of_u8 (48 + v mod 8)) = 48 + v mod 8.
Proof. pose proof (Z.mod_pos_bound v 8 ltac:(lia)). apply of_u8_value. lia. Qed.

Lemma octal_digits_octal n v : Forall (fun b => is_octal_digit b = true) (octal_digits n v).
Proof.
  revert v. induction n as [|n IH]; intros v; cbn; [constructor |]. apply Forall_app. split; [apply IH |].
  constructor; [| constructor]. unfold is_octal_digit. rewrite octal_digit_value, andb_true_iff, !Z.leb_le.
  pose proof (Z.mod_pos_bound v 8 ltac:(lia)). lia.
Qed.

Lemma octal_digits_value n v : radix_value 8 (octal_digits n v) = v mod 8 ^ Z.of_nat n.
Proof.
  revert v. induction n as [|n IH]; intros v; [by rewrite Z.mod_1_r |]. cbn [octal_digits].
  unfold radix_value in *. rewrite foldl_app. cbn. rewrite IH. unfold digit. rewrite octal_digit_value.
  rewrite Nat2Z.inj_succ, Z.pow_succ_r, (Z.rem_mul_r v 8) by lia. lia.
Qed.

Lemma octal_digits_length n v : length (octal_digits n v) = n.
Proof. revert v. induction n as [|n IH]; intros v; cbn; [done |]. rewrite length_app, IH. cbn. lia. Qed.

Lemma octal_not_blank b : is_octal_digit b = true → is_blank b = false.
Proof. by destruct b. Qed.

Lemma take_while_stop (f : byte → bool) ds b rest :
  Forall (fun d => f d = true) ds → f b = false → take_while f (ds ++ b :: rest) = ds.
Proof.
  intros Hds Hb. induction Hds as [|d ds Hd Hds IH]; cbn; [by rewrite Hb |]. by rewrite Hd, IH.
Qed.

Lemma base256_be n v acc :
  0 ≤ acc → acc * 256 ^ Z.of_nat n + v mod 256 ^ Z.of_nat n ≤ u64_max →
  base256 acc (be_bytes n v) = Some (acc * 256 ^ Z.of_nat n + v mod 256 ^ Z.of_nat n).
Proof.
  assert (∀ bs b acc, base256 acc (bs ++ [b]) =
          w ← base256 acc bs; w ← checked_mul u64_max w 256; checked_add u64_max w (u8 b)) as Happ.
  { induction bs as [|c bs IH]; intros b a; cbn [base256 app].
    - cbn. destruct (checked_mul _ _ _); cbn; [| done]. by destruct (checked_add _ _ _).
    - destruct (checked_mul _ a _); cbn; [| done]. destruct (checked_add _ _ _); cbn; [apply IH | done]. }
  intros Ha. revert v. induction n as [|n IH]; intros v Hv.
  { cbn in *. rewrite Z.mod_1_r. f_equal. lia. }
  rewrite Nat2Z.inj_succ, Z.pow_succ_r, (Z.rem_mul_r v 256) in * by lia. cbn [be_bytes]. rewrite Happ.
  pose proof (Z.mod_pos_bound v 256 ltac:(lia)). pose proof (Z.pow_pos_nonneg 256 (Z.of_nat n) ltac:(lia) ltac:(lia)).
  pose proof (Z.mod_pos_bound (v / 256) (256 ^ Z.of_nat n) ltac:(lia)).
  rewrite IH by nia. cbn. unfold checked_mul, checked_add.
  rewrite bool_decide_eq_true_2 by nia. cbn. rewrite u8_of_u8_mod, bool_decide_eq_true_2 by nia. f_equal. nia.
Qed.

Lemma tar_number_octal label n v rest :
  (0 < n)%nat → 0 ≤ v < 8 ^ Z.of_nat n → v ≤ u64_max →
  tar_number (octal_digits n v ++ "000"%byte :: rest) label = Ok v.
Proof.
  intros Hn Hv Hmax. pose proof (octal_digits_octal n v) as Ho.
  pose proof (octal_digits_value n v) as Hval. rewrite Z.mod_small in Hval by done.
  destruct (octal_digits n v) as [|d ds] eqn:Ed; [pose proof (octal_digits_length n v); rewrite Ed in *; cbn in *; lia |].
  apply Forall_cons_iff in Ho as [Hd Hds]. unfold tar_number. cbn [app].
  assert (Z.land (u8 d) 128 = 0) as -> by (clear -Hd; by destruct d).
  cbn [Z.eqb negb skip_while]. rewrite (octal_not_blank d Hd).
  assert (take_while (fun b => negb (is_blank b)) (d :: ds ++ "000"%byte :: rest) = d :: ds) as ->.
  { apply (take_while_stop _ (d :: ds)); [| done]. constructor; [by rewrite octal_not_blank |].
    eapply Forall_impl; [| exact Hds]. cbn. intros b Hb. by rewrite octal_not_blank. }
  assert (forallb is_octal_digit (d :: ds) = true) as ->.
  { apply forallb_forall. intros b Hb%list_elem_of_In.
    apply (proj1 (list.Forall_forall _ (d :: ds)) (Forall_cons _ _ _ Hd Hds) b Hb). }
  cbn [is_empty negb]. rewrite Hval. by rewrite (proj2 (Z.leb_le _ _)).
Qed.

(** A header block, field by field, as an archiver writes it. *)
Definition padded (n : nat) (l : list byte) : list byte := l ++ replicate (n - length l) "000"%byte.
Definition write_octal (w : nat) (v : Z) : list byte := octal_digits (w - 1) v ++ ["000"%byte].

Definition header_fields (h : RawHeader) (checksum : list byte) : list (list byte) :=
  [padded 100 (rh_path h); write_octal 8 (rh_mode h); write_octal 8 (rh_uid h); write_octal 8 (rh_gid h);
   write_octal 12 (rh_size h); write_octal 12 (rh_mtime h); checksum; [rh_type_flag h];
   padded 100 (default [] (rh_link_target h)); bytes "ustar" ++ ["000"; "0"; "0"]%byte;
   replicate 64 "000"%byte; replicate 8 "000"%byte; replicate 8 "000"%byte; replicate 155 "000"%byte;
   replicate 12 "000"%byte].

Definition byte_sum (l : list byte) : Z := foldl Z.add 0 (u8 <$> l).

Definition tar_header (h : RawHeader) : list byte :=
  concat (header_fields h (write_octal 8 (byte_sum (concat (header_fields h (replicate 8 " "%byte)))))).

(** The widths of the fields of a ustar block. *)
Definition header_widths : list nat := [100; 8; 8; 8; 12; 12; 8; 1; 100; 8; 64; 8; 8; 155; 12]%nat.

(** A header that fits the fields of the block. *)
Record header_fits (h : RawHeader) : Prop := {
  hf_path : rh_path h ≠ [] ∧ "000"%byte ∉ rh_path h ∧ (length (rh_path h) ≤ 100)%nat;
  hf_link : ∀ l, rh_link_target h = Some l → l ≠ [] ∧ "000"%byte ∉ l ∧ (length l ≤ 100)%nat;
  hf_kind : rh_kind h = header_kind (rh_type_flag h);
  hf_numbers : 0 ≤ rh_mode h < 8 ^ 7 ∧ 0 ≤ rh_uid h < 8 ^ 7 ∧ 0 ≤ rh_gid h < 8 ^ 7 ∧
               0 ≤ rh_size h < 8 ^ 11 ∧ 0 ≤ rh_mtime h < 8 ^ 11;
  hf_device : rh_device_major h = None ∧ rh_device_minor h = None;
}.

Lemma slice_field (fs : list (list byte)) widths i f :
  map length fs = widths → fs !! i = Some f →
  slice (concat fs) (sum_list (take i widths)) (sum_list (take (S i) widths)) = f.
Proof.
  intros Hw Hf. subst widths.
  assert (∀ l : list (list byte), sum_list (map length l) = length (concat l)) as Hsum.
  { induction l as [|x l IH]; cbn; [done |]. by rewrite length_app, IH. }
  rewrite !firstn_map, !Hsum. pose proof (take_drop_middle fs i f Hf) as Hd.
  rewrite (take_S_r _ _ _ Hf), concat_app. cbn [concat]. rewrite app_nil_r, length_app. unfold slice.
  assert (concat fs = concat (take i fs) ++ f ++ concat (drop (S i) fs)) as ->
    by (rewrite <- Hd at 1; by rewrite concat_app). rewrite drop_app_length.
  replace (_ - _)%nat with (length f) by lia. apply take_app_length.
Qed.

Lemma padded_length n l : (length l ≤ n)%nat → length (padded n l) = n.
Proof. intros H. unfold padded. rewrite length_app, length_replicate. lia. Qed.
Lemma write_octal_length w v : (0 < w)%nat → length (write_octal w v) = w.
Proof. intros H. unfold write_octal. rewrite length_app, octal_digits_length. cbn. lia. Qed.

Lemma header_fields_widths h checksum :
  header_fits h → length checksum = 8%nat → map length (header_fields h checksum) = header_widths.
Proof.
  intros Hf Hc. unfold header_fields. cbn [map].
  rewrite !write_octal_length, Hc, (padded_length 100 (rh_path h)) by (try apply Hf; lia).
  rewrite padded_length; [done |]. destruct (rh_link_target h) as [l|] eqn:E; cbn; [by apply (hf_link _ Hf) | lia].
Qed.

Lemma position_app_nul l k : "000"%byte ∉ l → position "000"%byte (l ++ "000"%byte :: k) = Some (length l).
Proof.
  induction l as [|c l IH]; cbn; intros Hl; [done |]. apply not_elem_of_cons in Hl as [Hc Hl].
  rewrite bool_decide_eq_false_2 by congruence. by rewrite IH.
Qed.
Lemma position_none l : "000"%byte ∉ l → position "000"%byte l = None.
Proof.
  induction l as [|c l IH]; cbn; intros Hl; [done |]. apply not_elem_of_cons in Hl as [Hc Hl].
  rewrite bool_decide_eq_false_2 by congruence. by rewrite IH.
Qed.

Lemma text_field_padded n l : "000"%byte ∉ l → (length l ≤ n)%nat → text_field (padded n l) = l.
Proof.
  intros Hl Hn. unfold text_field, padded. destruct (n - length l)%nat as [|k]; cbn [replicate].
  - rewrite app_nil_r, position_none by done. cbn. by rewrite firstn_all.
  - rewrite position_app_nul by done. cbn. apply take_app_length.
Qed.

Lemma foldl_add_app (a : Z) (l k : list Z) : foldl Z.add a (l ++ k) = foldl Z.add 0 l + foldl Z.add a k.
Proof.
  assert (∀ l a, foldl Z.add a l = a + foldl Z.add 0 l) as H.
  { clear. induction l as [|x l IH]; intros a; cbn [foldl]; [lia |]. rewrite (IH (a + x)), (IH (0 + x)). lia. }
  rewrite foldl_app, (H k (foldl Z.add a l)), (H k a), (H l a). lia.
Qed.

Lemma byte_sum_app l k : byte_sum (l ++ k) = byte_sum l + byte_sum k.
Proof. unfold byte_sum. by rewrite fmap_app, foldl_add_app. Qed.

Lemma byte_sum_range l : 0 ≤ byte_sum l ≤ 255 * len l.
Proof.
  induction l as [|b l IH]; [done |]. change (b :: l) with ([b] ++ l). rewrite byte_sum_app, len_app.
  assert (byte_sum [b] = u8 b) as -> by done. assert (len [b] = 1) as -> by done. pose proof (u8_range b). lia.
Qed.

(** The checksum of a block counts the checksum field as blanks. *)
Lemma checksum_sum front checksum back :
  length front = 148%nat → length checksum = 8%nat →
  foldl Z.add 0 (imap (fun index b => if (148 <=? index)%nat && (index <? 156)%nat then u8 " "%byte else u8 b)
                   (front ++ checksum ++ back))
  = byte_sum (front ++ replicate 8 " "%byte ++ back).
Proof.
  intros Hf Hc. rewrite !imap_app, Hf, Hc. unfold byte_sum. rewrite !fmap_app. f_equal. f_equal; [| f_equal].
  - apply list_eq. intros i. rewrite list_lookup_imap, list_lookup_fmap.
    destruct (front !! i) eqn:E; [| done]. apply lookup_lt_Some in E. cbn [fmap option_fmap option_map].
    destruct (Nat.leb_spec 148 i); [lia | done].
  - do 8 (destruct checksum as [|? checksum]; [done |]). destruct checksum; [| done]. reflexivity.
  - apply list_eq. intros i. rewrite list_lookup_imap, list_lookup_fmap.
    destruct (back !! i) eqn:E; [| done]. cbn [fmap option_fmap option_map]. unfold compose.
    destruct (Nat.ltb_spec (148 + (8 + i)) 156); [lia |]. by rewrite andb_false_r.
Qed.

(** [header_fields] around its checksum. *)
Lemma header_split h checksum :
  ∃ front back, ∀ c, concat (header_fields h c) = front ++ c ++ back ∧
    front = concat (take 6 (header_fields h checksum)).
Proof.
  exists (concat (take 6 (header_fields h checksum))), (concat (drop 7 (header_fields h checksum))).
  intros c. split; [| done]. unfold header_fields. cbn [take drop concat]. by rewrite !app_assoc, ?app_nil_r.
Qed.

Lemma concat_length (fs : list (list byte)) : length (concat fs) = sum_list (map length fs).
Proof. induction fs as [|x fs IH]; cbn; [done |]. by rewrite length_app, IH. Qed.

Lemma header_length h checksum :
  header_fits h → length checksum = 8%nat → length (concat (header_fields h checksum)) = 512%nat.
Proof. intros Hf Hc. by rewrite concat_length, header_fields_widths. Qed.

Lemma write_octal_number label w v :
  (1 < w)%nat → 0 ≤ v < 8 ^ Z.of_nat (w - 1) → (w ≤ 22)%nat → tar_number (write_octal w v) label = Ok v.
Proof.
  intros Hw Hv Hm. apply tar_number_octal; [lia | done |].
  assert (8 ^ Z.of_nat (w - 1) ≤ 8 ^ 21) by (apply Z.pow_le_mono_r; lia).
  assert (8 ^ 21 ≤ u64_max) by (vm_compute; discriminate). lia.
Qed.

Lemma tar_header_checksum h : header_fits h → verify_checksum (tar_header h) = Ok tt.
Proof.
  intros Hf. unfold verify_checksum, tar_header.
  set (sum := byte_sum (concat (header_fields h (replicate 8 " "%byte)))).
  assert (0 ≤ sum < 8 ^ Z.of_nat (8 - 1)) as Hsum.
  { pose proof (byte_sum_range (concat (header_fields h (replicate 8 " "%byte)))) as Hr.
    unfold len in Hr. rewrite header_length in Hr by done. fold sum in Hr.
    change (8 ^ Z.of_nat (8 - 1)) with 2097152. change (Z.of_nat 512) with 512 in Hr. lia. }
  assert (length (write_octal 8 sum) = 8%nat) as Hl by (apply write_octal_length; lia).
  pose proof (header_fields_widths h _ Hf Hl) as Hw.
  assert (slice (concat (header_fields h (write_octal 8 sum))) 148 156 = write_octal 8 sum) as ->
    by exact (slice_field _ _ 6 _ Hw eq_refl).
  rewrite write_octal_number by (done || lia).
  cbn [mbind result_bind]. destruct (header_split h (write_octal 8 sum)) as (front & back & Hs).
  rewrite (proj1 (Hs _)). rewrite checksum_sum; [| | done].
  - rewrite <- (proj1 (Hs _)). fold sum. by rewrite Z.eqb_refl.
  - rewrite (proj2 (Hs [])), concat_length. rewrite <- firstn_map, Hw. reflexivity.
Qed.

Lemma lookup_of_slice (l : list byte) n b : slice l n (S n) = [b] → l !! n = Some b.
Proof.
  unfold slice. replace (S n - n)%nat with 1%nat by lia. intros H.
  rewrite <- (Nat.add_0_r n), <- lookup_drop. destruct (drop n l); cbn in *; [done | congruence].
Qed.

Lemma parse_header_encoded h : header_fits h → parse_header (tar_header h) = Ok h.
Proof.
  intros Hf. unfold parse_header. rewrite tar_header_checksum by done. unfold tar_header.
  set (checksum := write_octal 8 _). assert (length checksum = 8%nat) as Hl by (apply write_octal_length; lia).
  pose proof (header_fields_widths h _ Hf Hl) as Hw. unfold len at 1. rewrite header_length by done.
  cbn [Z.eqb negb mbind result_bind].
  set (block := concat (header_fields h checksum)).
  assert (slice block 0 100 = padded 100 (rh_path h)) as -> by exact (slice_field _ _ 0 _ Hw eq_refl).
  assert (slice block 345 500 = replicate 155 "000"%byte) as -> by exact (slice_field _ _ 13 _ Hw eq_refl).
  assert (block !! 156%nat = Some (rh_type_flag h)) as ->
    by exact (lookup_of_slice _ 156 _ (slice_field _ _ 7 _ Hw eq_refl)).
  assert (slice block 157 257 = padded 100 (default [] (rh_link_target h))) as ->
    by exact (slice_field _ _ 8 _ Hw eq_refl).
  assert (slice block 124 136 = write_octal 12 (rh_size h)) as -> by exact (slice_field _ _ 4 _ Hw eq_refl).
  assert (slice block 100 108 = write_octal 8 (rh_mode h)) as -> by exact (slice_field _ _ 1 _ Hw eq_refl).
  assert (slice block 108 116 = write_octal 8 (rh_uid h)) as -> by exact (slice_field _ _ 2 _ Hw eq_refl).
  assert (slice block 116 124 = write_octal 8 (rh_gid h)) as -> by exact (slice_field _ _ 3 _ Hw eq_refl).
  assert (slice block 136 148 = write_octal 12 (rh_mtime h)) as -> by exact (slice_field _ _ 5 _ Hw eq_refl).
  assert (slice block 329 337 = replicate 8 "000"%byte) as -> by exact (slice_field _ _ 11 _ Hw eq_refl).
  assert (slice block 337 345 = replicate 8 "000"%byte) as -> by exact (slice_field _ _ 12 _ Hw eq_refl).
  destruct (hf_path _ Hf) as (Hp & Hpn & Hpl). destruct (hf_numbers _ Hf) as (Hm & Hu & Hg & Hs & Ht).
  destruct (hf_device _ Hf) as [Hmaj Hmin].
  assert (text_field (padded 100 (default [] (rh_link_target h))) = default [] (rh_link_target h)) as ->.
  { destruct (rh_link_target h) as [l|] eqn:E; [| done]. apply text_field_padded; by apply (hf_link _ Hf). }
  rewrite text_field_padded by done. rewrite !write_octal_number by (done || lia).
  change (text_field (replicate 155 "000"%byte)) with (@nil byte). cbn [is_empty].
  destruct (rh_path h) as [|c cs] eqn:Ep; [done |]. cbn [is_empty mbind result_bind default].
  rewrite (proj2 (Z.leb_le _ _)) by (unfold i64_max; lia). cbn [mbind result_bind].
  change (optional_tar_number (replicate 8 "000"%byte) _) with (@Ok VfsError (option Z) None).
  cbn [mbind result_bind]. pose proof (hf_kind _ Hf) as Hk. pose proof (hf_link _ Hf) as Hlink. clear -Ep Hmaj Hmin Hk Hlink.
  destruct h as [p l t k s m u g mt ma mi]. cbn in *. subst. f_equal. destruct l as [l|]; [| done].
  by destruct (Hlink l eq_refl), l.
Qed.

(** *** Archives

    An archive of plain entries, each a header, a body and its padding, and the
    end marker. *)
Definition encode_entry (e : RawHeader * list byte) : list byte :=
  tar_header e.1 ++ e.2 ++ replicate (Z.to_nat (padding (len e.2) (len e.2))) "000"%byte.
Definition encode_archive (es : list (RawHeader * list byte)) : list byte :=
  concat (encode_entry <$> es) ++ replicate 1024 "000"%byte.

(** What the index stores for a header. *)
Definition entry_of (h : RawHeader) (p : TarPath) : TarEntry :=
  mkTarEntry (rh_path h) p (rh_kind h) (rh_size h) (rh_mode h) (rh_uid h) (rh_gid h) (rh_mtime h)
    (rh_link_target h) None None false.

(** An entry without extensions that the limits admit, at path [p]. *)
Record plain_entry (limits : TarLimits) (h : RawHeader) (body : list byte) (p : TarPath) : Prop := {
  pe_fits : header_fits h;
  pe_flag : rh_type_flag h ∉ ["x"; "g"; "L"; "K"]%byte;
  pe_size : rh_size h = len body ∧ len body ≤ max_entry_bytes limits;
  pe_path : from_tar_bytes (rh_path h) limits = Ok p;
  pe_link : validate_link_target (rh_link_target h) limits = Ok tt;
  pe_hard : rh_kind h = THardlink →
            ∃ t q, rh_link_target h = Some t ∧ from_tar_bytes t limits = Ok q;
}.

(** The index that a list of entries describes: they are inserted in order, the
    root itself is skipped, and the first error is the result. *)
Fixpoint index_entries (limits : TarLimits) (index : TarIndex) (es : list TarEntry) : vres TarIndex :=
  match es with
  | [] => Ok index
  | e :: es =>
      if TarPath_is_root (te_path e) then index_entries limits index es
      else
        let '(r, index) := insert_with_parents index e (max_entries limits) in
        _ ← r; index_entries limits index es
  end.

(** A reader between two entries. *)
Record at_entry (limits : TarLimits) (r : TarStreamReader) (rest : list byte) : Prop := {
  ae_input : input_ok r;
  ae_core : core r = core (TarStreamReader_new [] limits);
  ae_rem : rem r = rest;
}.

Lemma core_fields r r' :
  core r = core r' →
  limits r = limits r' ∧ archive_finished r = archive_finished r' ∧ current_size r = current_size r' ∧
  global_pax r = global_pax r' ∧ pending_pax r = pending_pax r' ∧
  pending_long_name r = pending_long_name r' ∧ pending_long_link r = pending_long_link r'.
Proof. destruct r, r'. unfold core, set_input. cbn. intros H. by injection H as -> -> -> -> -> -> ->. Qed.

Lemma read_exact_ok r pre post :
  input_ok r → rem r = pre ++ post →
  ∃ r', read_exact (len pre) r = (Ok pre, r') ∧ input_ok r' ∧ core r' = core r ∧ rem r' = post.
Proof.
  intros Hok Hr. pose proof (read_exact_loop_ok (S (available r)) (len pre) [] r Hok ltac:(lia)) as H.
  cbv zeta in H. rewrite len_nil, Z.sub_0_r, Hr in H. unfold len in H. rewrite Nat2Z.id in H.
  rewrite decide_True in H by (rewrite length_app; lia). destruct H as (r' & H & H1 & H2 & H3).
  rewrite take_app_length in H. rewrite Hr, drop_app_length in H3. by exists r'.
Qed.

Lemma skip_exact_ok r n pre post :
  input_ok r → rem r = pre ++ post → n = len pre →
  ∃ r', skip_exact n r = (Ok tt, r') ∧ input_ok r' ∧ core r' = core r ∧ rem r' = post.
Proof.
  intros Hok Hr ->. pose proof (skip_exact_loop_ok (S (available r)) (len pre) r Hok ltac:(lia) (len_nonneg _)) as H.
  rewrite Hr in H. unfold len in H. rewrite Nat2Z.id in H.
  rewrite decide_True in H by (rewrite length_app; lia). destruct H as (r' & H & H1 & H2 & H3).
  rewrite Hr, drop_app_length in H3. by exists r'.
Qed.

Lemma tar_header_length h : header_fits h → len (tar_header h) = TAR_BLOCK.
Proof.
  intros Hf. unfold len, tar_header. rewrite header_length; [done | done | apply write_octal_length; lia].
Qed.

Lemma tar_header_nonzero h : header_fits h → forallb (fun b => bool_decide (b = "000"%byte)) (tar_header h) = false.
Proof.
  intros Hf. destruct (hf_path _ Hf) as (Hp & Hn & _). unfold tar_header, header_fields, padded.
  destruct (rh_path h) as [|c cs]; [done |]. cbn [concat app forallb]. apply andb_false_intro1.
  apply bool_decide_eq_false. set_solver.
Qed.

Lemma finish_plain limits r h body p :
  core r = core (TarStreamReader_new [] limits) → plain_entry limits h body p →
  finish_entry h r = (Ok (entry_of h p), set_current_size r (Some (rh_size h))).
Proof.
  intros Hc Hp. destruct (core_fields _ _ Hc) as (E1 & _ & _ & E4 & E5 & E6 & E7). cbn in E1, E4, E5, E6, E7.
  destruct (pe_size _ _ _ _ Hp) as [Hs1 Hs2]. destruct (hf_numbers _ (pe_fits _ _ _ _ Hp)) as (Hm & Hu & Hg & _).
  destruct (hf_device _ (pe_fits _ _ _ _ Hp)) as [Hd1 Hd2].
  unfold finish_entry, mbind, prog_bind, gets, update, lift. rewrite E1, E4, E5, E6, E7. cbn [pax_path pax_link_path pax_size pax_uid pax_gid pax_mtime_value overlay over PaxValues_default].
  rewrite (pe_link _ _ _ _ Hp).
  assert ((if bool_decide (rh_kind h = THardlink)
           then target ← ok_or (Io "hardlink has no target") (rh_link_target h);
                _ ← from_tar_bytes target limits; Ok tt else Ok tt) = Ok tt) as Hh.
  { case_bool_decide as Hk; [| done]. destruct (pe_hard _ _ _ _ Hp Hk) as (t & q & -> & Hq). cbn. by rewrite Hq. }
  unfold mbind in Hh. rewrite Hh. cbn [from_option id default]. rewrite (proj2 (Z.ltb_ge _ _)) by (unfold id; lia).
  rewrite (pe_path _ _ _ _ Hp), Hd1, Hd2. cbn [result_bind]. unfold checked_u32, id.
  rewrite !(proj2 (Z.leb_le _ _)) by (unfold u32_max; lia). cbn [result_bind]. f_equal.
  destruct r. cbn in *. by subst.
Qed.

Lemma next_entry_at limits r rest :
  at_entry limits r rest → next_entry r = next_entry_loop (S (available r)) r.
Proof.
  intros [_ Hc _]. destruct (core_fields _ _ Hc) as (_ & E2 & E3 & _). cbn in E2, E3.
  unfold next_entry, mbind, prog_bind, gets. by rewrite E2, E3.
Qed.

Lemma next_entry_state limits r h body p rest :
  at_entry limits r (encode_entry (h, body) ++ rest) → plain_entry limits h body p →
  ∃ r1, next_entry r = (Ok (Some (entry_of h p)), set_current_size r1 (Some (rh_size h)))
    ∧ input_ok r1 ∧ core r1 = core (TarStreamReader_new [] limits)
    ∧ rem r1 = body ++ replicate (Z.to_nat (padding (len body) (len body))) "000"%byte ++ rest.
Proof.
  intros Ha Hp. pose proof (pe_fits _ _ _ _ Hp) as Hf. pose proof Ha as [Hi Hc Hr].
  unfold encode_entry in Hr. cbn [fst snd] in Hr. rewrite <- app_assoc in Hr.
  destruct (read_exact_ok r _ _ Hi Hr) as (r1 & Hread & Hi1 & Hc1 & Hr1). rewrite tar_header_length in Hread by done.
  exists r1. split_and!; [| done | congruence | by rewrite Hr1, <- app_assoc].
  rewrite (next_entry_at _ _ _ Ha). cbn [next_entry_loop]. unfold mbind at 1, prog_bind at 1. rewrite Hread.
  rewrite tar_header_nonzero by done. unfold mbind at 1, prog_bind at 1, lift at 1.
  rewrite parse_header_encoded by done. pose proof (pe_flag _ _ _ _ Hp) as Hflag.
  rewrite !bool_decide_eq_false_2 by set_solver. cbn [orb]. unfold mbind, prog_bind.
  by rewrite (finish_plain limits r1 h body p (eq_trans Hc1 Hc) Hp).
Qed.

(** After the body and its padding the reader is at the next entry. *)
Lemma skip_padding limits r (body rest : list byte) :
  input_ok r → core r = core (TarStreamReader_new [] limits) →
  rem r = replicate (Z.to_nat (padding (len body) (len body))) "000"%byte ++ rest →
  ∃ r', skip_exact (padding (len body) (len body)) r = (Ok tt, r') ∧ at_entry limits r' rest.
Proof.
  intros Hi Hc Hr.
  destruct (skip_exact_ok r (padding (len body) (len body)) _ _ Hi Hr) as (r5 & Hpad & Hi5 & Hc5 & Hr5).
  { unfold len at 3. rewrite length_replicate, Z2Nat.id; [done | apply padding_range]. }
  exists r5. split; [done |]. by split; [| congruence |].
Qed.

(** Forgetting the size of the current body. *)
Lemma clear_current_size limits r size :
  core r = core (TarStreamReader_new [] limits) →
  core (set_current_size (set_current_size r size) None) = core (TarStreamReader_new [] limits).
Proof.
  intros Hc. destruct (core_fields _ _ Hc) as (_ & _ & E & _). rewrite <- Hc. destruct r. cbn in *. by subst.
Qed.

Lemma next_entry_plain limits r h body p rest :
  at_entry limits r (encode_entry (h, body) ++ rest) → plain_entry limits h body p →
  ∃ r', (_ ← next_entry; skip_entry_body) r = (Ok tt, r') ∧ next_entry r = (Ok (Some (entry_of h p)), (next_entry r).2) ∧
        at_entry limits r' rest.
Proof.
  intros Ha Hp. destruct (next_entry_state _ _ _ _ _ _ Ha Hp) as (r1 & Hnext & Hi1 & Hc1 & Hr1).
  destruct (pe_size _ _ _ _ Hp) as [Hs _]. set (r2 := set_current_size r1 (Some (rh_size h))) in *.
  set (r3 := set_current_size r2 None). assert (input_ok r3) as Hi3 by (by destruct Hi1; split).
  destruct (skip_exact_ok r3 (rh_size h) body _ Hi3 Hr1 Hs) as (r4 & Hskip & Hi4 & Hc4 & Hr4).
  destruct (skip_padding limits r4 body rest Hi4) as (r5 & Hpad & Hat); [| done |].
  { rewrite Hc4. unfold r3, r2. by apply clear_current_size. }
  exists r5. split_and!; [| by rewrite Hnext | done].
  unfold mbind at 1, prog_bind at 1. rewrite Hnext. unfold skip_entry_body, mbind, prog_bind, gets, update, lift.
  cbn [current_size r2 set_current_size ok_or]. fold r3. by rewrite Hskip, Hs, Hpad.
Qed.

Lemma next_entry_end limits r :
  at_entry limits r (replicate 1024 "000"%byte) → (next_entry r).1 = Ok None.
Proof.
  intros Ha. rewrite (next_entry_at _ _ _ Ha). destruct Ha as [Hi Hc Hr].
  change (replicate 1024 "000"%byte) with (replicate 512 "000"%byte ++ replicate 512 "000"%byte) in Hr.
  destruct (read_exact_ok r _ _ Hi Hr) as (r1 & Hread & Hi1 & _ & Hr1).
  rewrite <- (app_nil_r (replicate 512 _)) in Hr1.
  destruct (read_exact_ok r1 _ _ Hi1 Hr1) as (r2 & Hread2 & Hi2 & _ & Hr2).
  pose proof (zero_tail_loop_ok (S (available r2)) r2 Hi2 ltac:(lia)) as Hz. rewrite Hr2 in Hz. cbn [existsb] in Hz.
  destruct Hz as (r3 & Hz & _). change (len (replicate 512 "000"%byte)) with TAR_BLOCK in *.
  cbn [next_entry_loop]. unfold mbind, prog_bind. rewrite Hread.
  replace (forallb _ (replicate 512 "000"%byte)) with true by reflexivity. rewrite Hread2.
  change (existsb _ (replicate 512 "000"%byte)) with false. unfold ensure_zero_tail, mbind, prog_bind, gets. by rewrite Hz.
Qed.

Lemma index_loop_plain lim fuel es index r :
  at_entry lim r (encode_archive es.*1) → (length es < fuel)%nat →
  Forall (fun e => plain_entry lim e.1.1 e.1.2 e.2) es →
  (index_loop fuel index r).1 = index_entries lim index ((fun e => entry_of e.1.1 e.2) <$> es).
Proof.
  revert fuel index r. induction es as [|[[h body] p] es IH]; intros fuel index r Ha Hf Hes;
    (destruct fuel as [|fuel]; [cbn in Hf; lia |]); cbn [index_loop fmap list_fmap index_entries].
  { pose proof (next_entry_end _ _ Ha) as He. unfold mbind at 1, prog_bind at 1.
    destruct (next_entry r) as [x r']. cbn in He. by subst x. }
  apply Forall_cons_iff in Hes as [Hp Hes]. cbn [fst snd] in *.
  assert (at_entry lim r (encode_entry (h, body) ++ encode_archive es.*1)) as Ha'.
  { destruct Ha as [? ? Hr]. split; [done | done |]. rewrite Hr. unfold encode_archive. cbn [fmap list_fmap fst concat]. by rewrite <- app_assoc. }
  destruct (next_entry_plain _ _ _ _ _ _ Ha' Hp) as (r' & Hskip & Hnext & Hat).
  unfold mbind at 1, prog_bind at 1. rewrite Hnext. unfold mbind, prog_bind in Hskip. rewrite Hnext in Hskip.
  unfold mbind at 1, prog_bind at 1. rewrite Hskip. cbn [te_path entry_of].
  destruct (TarPath_is_root p); [apply IH; [done | cbn in Hf; lia | done] |].
  unfold mbind at 1, prog_bind at 1, gets.
  destruct (core_fields _ _ (ae_core _ _ _ Hat)) as (-> & _). cbn [limits TarStreamReader_new].
  destruct (insert_with_parents _ _ _) as [[u|e|s] index']; cbn [mbind result_bind]; [| done | done].
  apply IH; [done | cbn in Hf; lia | done].
Qed.

Lemma encode_archive_length limits es :
  Forall (fun e => plain_entry limits e.1.1 e.1.2 e.2) es → (length es < length (encode_archive es.*1))%nat.
Proof.
  induction 1 as [|[[h body] p] es Hp Hes IH]; [unfold encode_archive; cbn; lia |].
  unfold encode_archive in *. cbn [fmap list_fmap concat length]. rewrite <- app_assoc, length_app.
  pose proof (tar_header_length h (pe_fits _ _ _ _ Hp)) as Hl. unfold len, TAR_BLOCK in Hl.
  unfold encode_entry at 1. rewrite length_app. cbn [fst]. lia.
Qed.

Lemma from_stream_plain (limits : TarLimits) (es : list (RawHeader * list byte * TarPath)) (chunks : list (list byte)) :
  TarLimits_validate limits = Ok tt →
  Forall (fun e => plain_entry limits e.1.1 e.1.2 e.2) es →
  concat chunks = encode_archive es.*1 →
  len (encode_archive es.*1) ≤ max_archive_bytes limits ≤ u64_max →
  from_stream (inl <$> chunks) limits
  = index_entries limits TarIndex_empty ((fun e => entry_of e.1.1 e.2) <$> es).
Proof.
  intros Hv Hes Hc Hl. unfold from_stream. rewrite Hv. cbn [mbind result_bind].
  destruct (TarStreamReader_new_input_ok chunks limits) as [Hi Hr]; [by rewrite Hc |]. rewrite Hc in Hr.
  apply index_loop_plain; [| | done].
  - by split.
  - rewrite available_rem, Hr. pose proof (encode_archive_length limits es Hes). lia.
Qed.

(** ** Properties *)

(** Reading an archive gives a valid index or an error. *)
Lemma from_stream_valid (stream : list (list byte + VfsError)) (limits : TarLimits) :
  0 ≤ max_entries limits → 0 ≤ max_path_bytes limits →
  match from_stream stream limits with
  | Ok index => index_wf limits index ∧ validate_persisted index limits = Ok tt
  | Err _ => True
  | Panic _ => False
  end.
Proof.
  intros He Hp. unfold from_stream. destruct (TarLimits_validate limits) as [[]|e|s] eqn:El; cbn [mbind result_bind];
    [| done | unfold TarLimits_validate in El; destruct (_ || _); discriminate El].
  pose proof (TarIndex_empty_wf limits El He Hp) as Hwf.
  pose proof (TarStreamReader_new_inv stream limits) as Hi.
  destruct (runs_index_loop limits _ TarIndex_empty Hwf _ Hi (Nat.lt_succ_diag_r _)) as [_ Hs].
  destruct (index_loop _ _ _) as [[index|e|s] r]; cbn [fst snd safe] in *; [| done | done].
  split; [apply Hs |]. apply validate_persisted_ok; [done | apply Hs].
Qed.



(** C7: how the transport cuts an archive into chunks does not matter.  Two
    streams that deliver the same bytes, within the archive limit, give the
    same result: the same index or the same error. *)
Theorem from_stream_chunking (chunks1 chunks2 : list (list byte)) (limits : TarLimits) :
  concat chunks1 = concat chunks2 →
  len (concat chunks1) ≤ max_archive_bytes limits ≤ u64_max →
  from_stream (inl <$> chunks1) limits = from_stream (inl <$> chunks2) limits.
Proof.
  intros Hc Hl. unfold from_stream. destruct (TarLimits_validate limits); cbn [mbind result_bind]; [| done | done].
  destruct (TarStreamReader_new_input_ok chunks1 limits Hl) as [H1 R1]. rewrite Hc in Hl, R1.
  destruct (TarStreamReader_new_input_ok chunks2 limits Hl) as [H2 R2]. rewrite <- R2 in R1.
  rewrite !available_rem, R1. apply indep_index_loop. by split_and!.
Qed.

(** Witness: the end marker in one chunk and in five. *)
Lemma from_stream_chunking_witness :
  from_stream (inl <$> [replicate 1024 "000"%byte]) TarLimits_default =
  from_stream (inl <$> [replicate 100 "000"%byte; []; replicate 412 "000"%byte; replicate 511 "000"%byte;
                        ["000"%byte]]) TarLimits_default.
Proof. apply from_stream_chunking; [vm_compute; reflexivity | vm_compute; split; discriminate]. Defined.

(** Number fields decode to what was encoded, and never to more than 64
    bits.  Every accepted field is a [u64]; octal digits up to a NUL give their
    value whatever follows, and the base-256 form gives its big-endian value. *)
Theorem tar_number_roundtrip (label : string) :
  (∀ field v, tar_number field label = Ok v → 0 ≤ v ≤ u64_max) ∧
  (∀ n v rest, (0 < n)%nat → 0 ≤ v < 8 ^ Z.of_nat n → v ≤ u64_max →
     tar_number (octal_digits n v ++ "000"%byte :: rest) label = Ok v) ∧
  (∀ n v, 0 ≤ v < 256 ^ Z.of_nat n → v ≤ u64_max →
     tar_number ("128"%byte :: be_bytes n v) label = Ok v).
Proof.
  split_and!; [intros field v; apply tar_number_range | |].
  - intros n v rest. apply tar_number_octal.
  - intros n v Hv Hmax. unfold tar_number.
    change (Z.land (u8 "128"%byte) 128 =? 0) with false. change (Z.land (u8 "128"%byte) 64 =? 0) with true.
    change (Z.land (u8 "128"%byte) 63) with 0. cbn [negb].
    rewrite base256_be by (rewrite ?Z.mod_small; lia). cbn. by rewrite Z.mod_small.
Qed.

(** C5: an archive of plain entries is read back as it was written.  For any
    entries that fit the ustar block and the limits, and however the transport
    cuts the encoded archive into chunks, [from_stream] yields the index that
    the entries describe (or the error of the first entry that cannot be
    inserted): no entry, attribute or order is lost, and bodies and padding are
    skipped exactly. *)
Theorem archive_roundtrip (limits : TarLimits) (es : list (RawHeader * list byte * TarPath))
  (chunks : list (list byte)) :
  TarLimits_validate limits = Ok tt →
  Forall (fun e => plain_entry limits e.1.1 e.1.2 e.2) es →
  concat chunks = encode_archive es.*1 →
  len (encode_archive es.*1) ≤ max_archive_bytes limits ≤ u64_max →
  from_stream (inl <$> chunks) limits
  = index_entries limits TarIndex_empty ((fun e => entry_of e.1.1 e.2) <$> es).
Proof. apply from_stream_plain. Qed.

(** Witness: one file, delivered in two chunks. *)
Definition sample_header : RawHeader :=
  mkRawHeader (bytes "etc/motd") None "0"%byte TRegularFile 5 420 12 34 7 None None.

Lemma sample_header_fits : header_fits sample_header.
Proof.
  split; cbn.
  - split_and!; [discriminate | apply (bool_decide_unpack _); vm_compute; exact I | lia].
  - discriminate.
  - reflexivity.
  - lia.
  - split; reflexivity.
Qed.

Lemma archive_roundtrip_witness :
  let file := encode_archive [(sample_header, bytes "hello")] in
  match from_stream (inl <$> [take 700 file; drop 700 file]) TarLimits_default with
  | Ok index => (te_size <$> TarIndex_get index [bytes "etc"; bytes "motd"]) = Some 5
  | _ => False
  end.
Proof.
  intros file.
  rewrite (archive_roundtrip TarLimits_default [(sample_header, bytes "hello", [bytes "etc"; bytes "motd"])]).
  - vm_compute. reflexivity.
  - vm_compute. reflexivity.
  - apply Forall_cons; [| constructor]. split.
    + apply sample_header_fits.
    + apply (bool_decide_unpack _). vm_compute. exact I.
    + vm_compute. split; [reflexivity | discriminate].
    + vm_compute. reflexivity.
    + vm_compute. reflexivity.
    + discriminate.
  - cbn [concat fmap list_fmap]. rewrite app_nil_r. apply take_drop.
  - vm_compute. split; discriminate.
Defined.

(** ** A long name outlives its entry

    [next_entry] takes the pending GNU long name only when no PAX path is
    present.  An archive that gives one entry both keeps the long name, and
    the next entry is indexed under it instead of its own name. *)
Definition extension_header (flag : byte) (size : Z) : RawHeader :=
  mkRawHeader (bytes "ext") None flag TOther size 420 0 0 0 None None.
Definition leak_archive : list byte :=
  encode_archive
    [(extension_header "L"%byte 4, bytes "long"); (extension_header "x"%byte 9, bytes "9 path=p" ++ ["010"%byte]);
     (sample_header, bytes "hello"); (sample_header, bytes "other")].

(** A GNU long name that a PAX path overrides is applied to the next entry.
    In an archive whose first file has a long-name extension and a PAX path, the
    first file is indexed under the PAX path, and the second one, which has no
    extension at all, under the first one's long name; its own name is absent. *)
Theorem long_name_leaks_to_next_entry :
  match from_stream [inl leak_archive] TarLimits_default with
  | Ok index =>
      is_Some (TarIndex_get index [bytes "p"]) ∧ is_Some (TarIndex_get index [bytes "long"]) ∧
      TarIndex_get index [bytes "etc"; bytes "motd"] = None
  | _ => False
  end.
Proof.
  assert (match from_stream [inl leak_archive] TarLimits_default with
          | Ok index =>
              bool_decide (is_Some (TarIndex_get index [bytes "p"]))
              && bool_decide (is_Some (TarIndex_get index [bytes "long"]))
              && bool_decide (¬ is_Some (TarIndex_get index [bytes "etc"; bytes "motd"]))
          | _ => false
          end = true) as H by (vm_compute; reflexivity).
  destruct (from_stream _ _) as [index| |]; [| discriminate H | discriminate H].
  rewrite !andb_true_iff, !bool_decide_eq_true in H. destruct H as [[H1 H2] H3].
  split_and!; [done | done | by apply eq_None_not_Some].
Qed.
