(* ===== verification/Spool.v ===== *)
(** The bounded backing store of archive content
    (crates/docker-core/src/vfs_providers/spool.rs).

    The spool's shared state is a record: the atomic counter of reserved bytes,
    the runtime directory with the inodes its files name, and the heap of
    reference-counted leases.  A writer is owned by its caller and passed
    explicitly.  What the program does not decide (the fresh file name, whether a
    call of the file system fails, how many bytes a positioned read returns) is
    read from [SpoolEnv] at a clock that every such call advances.  Dropping a
    value is an explicit call at the points where Rust runs it, on the error
    paths too. *)

From S2P Require Import Prelude Error Path Model Provider.

Local Open Scope Z_scope.

Record ContentSpoolLimits := {
  memory_threshold : Z;
  max_single_bytes : Z;
  max_total_bytes : Z;
}.

Definition ContentSpoolLimits_default : ContentSpoolLimits :=
  {| memory_threshold := 2 * 1024 * 1024;
     max_single_bytes := 2 * 1024 * 1024 * 1024;
     max_total_bytes := 2 * 1024 * 1024 * 1024 |}.

Definition ContentSpoolLimits_validate (self : ContentSpoolLimits) : vres () :=
  if (memory_threshold self >? max_single_bytes self) || (max_single_bytes self =? 0)
     || (max_single_bytes self >? max_total_bytes self)
  then Err (InvalidInput "invalid content spool limits")
  else Ok tt.

Abbreviation PathBuf := (list byte).

Record ContentLease := { lease_bytes : Z; lease_path : option PathBuf }.

(** What the environment decides at each tick of the clock. *)
Class SpoolEnv := {
  io_fault : nat → option (nat * string);
  uuid : nat → list byte;
  short_read : nat → nat;
}.

(** The spool with the parts of the file system and of the heap it uses.
    [directory] maps a path to an inode, an index of [inodes]; [leases] maps
    the address of an [Arc<ContentLease>] to the lease and its count. *)
Record ContentSpool := {
  runtime_directory : PathBuf;
  limits : ContentSpoolLimits;
  reserved_bytes : Z;
  directory : gmap PathBuf nat;
  inodes : list (list byte);
  leases : gmap nat (ContentLease * nat);
  clock : nat;
}.

Definition set_reserved (n : Z) (s : ContentSpool) : ContentSpool :=
  {| runtime_directory := runtime_directory s; limits := limits s; reserved_bytes := n;
     directory := directory s; inodes := inodes s; leases := leases s; clock := clock s |}.
Definition set_files (d : gmap PathBuf nat) (i : list (list byte)) (s : ContentSpool) : ContentSpool :=
  {| runtime_directory := runtime_directory s; limits := limits s; reserved_bytes := reserved_bytes s;
     directory := d; inodes := i; leases := leases s; clock := clock s |}.
Definition set_leases (l : gmap nat (ContentLease * nat)) (s : ContentSpool) : ContentSpool :=
  {| runtime_directory := runtime_directory s; limits := limits s; reserved_bytes := reserved_bytes s;
     directory := directory s; inodes := inodes s; leases := l; clock := clock s |}.
Definition advance (s : ContentSpool) : ContentSpool :=
  {| runtime_directory := runtime_directory s; limits := limits s; reserved_bytes := reserved_bytes s;
     directory := directory s; inodes := inodes s; leases := leases s; clock := S (clock s) |}.

Record ContentSpoolWriter := {
  writer_memory : list byte;
  writer_temporary : option (PathBuf * nat);
  writer_reserved : Z;
  writer_finished : bool;
}.

(** A [File] is the inode it was opened on. *)
Inductive ContentBacking : Type :=
  | DirectLocalFile (file : nat) (length : Z)
  | Memory (bytes : list byte) (lease : nat)
  | SpoolFile (path : PathBuf) (file : nat) (completed_bytes : Z) (lease : nat).

Section spool.
Context {env : SpoolEnv}.

(** ** The file system calls *)

(** One call: it may fail, leaving [partial k] behind. *)
Definition io_call {A} (partial : nat → ContentSpool → ContentSpool)
  (m : ContentSpool → vres A * ContentSpool) : prog ContentSpool A := fun s =>
  match io_fault (clock s) with
  | Some (k, message) => (Err (Io message), partial k (advance s))
  | None => m (advance s)
  end.

Definition append_inode (file : nat) (chunk : list byte) (s : ContentSpool) : ContentSpool :=
  set_files (directory s) (alter (fun old => old ++ chunk) file (inodes s)) s.

(** [write_all]: a failed call may have written a part. *)
Definition write_all (file : nat) (chunk : list byte) : prog ContentSpool () :=
  io_call (fun k => append_inode file (take k chunk)) (fun s => (Ok tt, append_inode file chunk s)).

(** [let _ = remove_file(path)] *)
Definition remove_file (path : PathBuf) : prog ContentSpool () := fun s =>
  match io_fault (clock s) with
  | Some _ => (Ok tt, advance s)
  | None => (Ok tt, set_files (delete path (directory s)) (inodes s) (advance s))
  end.

(** [flush] and [sync_data] *)
Definition sync_file : prog ContentSpool () := io_call (fun _ s => s) (fun s => (Ok tt, s)).

(** [File::open] *)
Definition open_file (path : PathBuf) : prog ContentSpool nat :=
  io_call (fun _ s => s) (fun s =>
    match directory s !! path with
    | Some file => (Ok file, s)
    | None => (Err (Io "No such file or directory (os error 2)"), s)
    end).

(** [Path::join] with a relative name *)
Definition path_join (dir name : PathBuf) : PathBuf :=
  match list.last dir with
  | Some "/"%byte => dir ++ name
  | None => name
  | _ => dir ++ "/"%byte :: name
  end.

(** A cleanup that runs when a local is dropped on the error path. *)
Definition on_err {W A} (m : prog W A) (cleanup : prog W ()) : prog W A := fun w =>
  match m w with
  | (Ok a, w) => (Ok a, w)
  | (r, w) => (r, (cleanup w).2)
  end.

(** ** Reference-counted leases *)
Definition lease_new (lease : ContentLease) : prog ContentSpool nat := fun s =>
  let id := fresh (dom (leases s)) in
  (Ok id, set_leases (<[id := (lease, 1%nat)]> (leases s)) s).

Definition lease_clone (id : nat) : prog ContentSpool () :=
  update (fun s => set_leases (alter (fun '(l, n) => (l, S n)) id (leases s)) s).

(** [fetch_sub] wraps. *)
Definition release (bytes : Z) : prog ContentSpool () :=
  update (fun s => set_reserved ((reserved_bytes s - bytes) mod 2 ^ 64) s).

(** [Drop for ContentLease], run when the last reference goes. *)
Definition ContentLease_drop (lease : ContentLease) : prog ContentSpool () :=
  release (lease_bytes lease);;
  match lease_path lease with
  | Some path => remove_file path
  | None => mret tt
  end.

Definition lease_drop (id : nat) : prog ContentSpool () := fun s =>
  match leases s !! id with
  | Some (lease, S (S n)) => (Ok tt, set_leases (<[id := (lease, S n)]> (leases s)) s)
  | Some (lease, _) => ContentLease_drop lease (set_leases (delete id (leases s)) s)
  | None => (Ok tt, s)
  end.

(** ** The spool *)

(** The first calls, before there is a spool: [create_dir_all] and
    [set_permissions]. *)
Definition prepare_call (n : nat) : vres () :=
  match io_fault n with Some (_, message) => Err (Io message) | None => Ok tt end.

(** [ContentSpool::new]; [directory] holds the files the spool makes. *)
Definition ContentSpool_new (dir : PathBuf) (l : ContentSpoolLimits) : vres ContentSpool :=
  _ ← ContentSpoolLimits_validate l;
  _ ← prepare_call 0;
  _ ← prepare_call 1;
  Ok {| runtime_directory := dir; limits := l; reserved_bytes := 0; directory := ∅;
        inodes := []; leases := ∅; clock := 2 |}.

Definition reserve (bytes : Z) : prog ContentSpool () := fun s =>
  match checked_add u64_max (reserved_bytes s) bytes with
  | Some next =>
      if next <=? max_total_bytes (limits s) then (Ok tt, set_reserved next s)
      else (Err (Unavailable "total content spool limit exceeded"), s)
  | None => (Err (Unavailable "total content spool limit exceeded"), s)
  end.

Definition spool_name (n : nat) : PathBuf := bytes "content-" ++ uuid n ++ bytes ".spool".

(** [create_new(true)] refuses an existing name. *)
Definition create_temporary : prog ContentSpool (PathBuf * nat) := fun s =>
  let path := path_join (runtime_directory s) (spool_name (clock s)) in
  io_call (fun _ s => s) (fun s =>
    match directory s !! path with
    | Some _ => (Err (Io "File exists (os error 17)"), s)
    | None =>
        let file := length (inodes s) in
        (Ok (path, file), set_files (<[path := file]> (directory s)) (inodes s ++ [[]]) s)
    end) s.

Definition writer_new : ContentSpoolWriter :=
  {| writer_memory := []; writer_temporary := None; writer_reserved := 0; writer_finished := false |}.

Definition set_memory (m : list byte) (w : ContentSpoolWriter) : ContentSpoolWriter :=
  {| writer_memory := m; writer_temporary := writer_temporary w;
     writer_reserved := writer_reserved w; writer_finished := writer_finished w |}.
Definition set_temporary (t : option (PathBuf * nat)) (w : ContentSpoolWriter) : ContentSpoolWriter :=
  {| writer_memory := writer_memory w; writer_temporary := t;
     writer_reserved := writer_reserved w; writer_finished := writer_finished w |}.
Definition set_writer_reserved (n : Z) (w : ContentSpoolWriter) : ContentSpoolWriter :=
  {| writer_memory := writer_memory w; writer_temporary := writer_temporary w;
     writer_reserved := n; writer_finished := writer_finished w |}.

Abbreviation wprog := (prog (ContentSpoolWriter * ContentSpool)).

Definition put_writer (f : ContentSpoolWriter → ContentSpoolWriter) : wprog () :=
  modify (fun w => (Ok tt, f w)).

(** [if self.temporary.is_none() { … }]: move the memory to a new file. *)
Definition spill : wprog () :=
  temporary ← asks (fun w => Ok (writer_temporary w));
  match temporary with
  | Some _ => mret tt
  | None =>
      '(path, file) ← call create_temporary;
      memory ← asks (fun w => Ok (writer_memory w));
      on_err (call (write_all file memory)) (call (remove_file path));;
      put_writer (set_memory []);;
      put_writer (set_temporary (Some (path, file)))
  end.

Definition push (chunk : list byte) : wprog () :=
  reserved ← asks (fun w => Ok (writer_reserved w));
  next ← lift (ok_or (Unavailable "content spool size overflow")
                 (checked_add u64_max reserved (len chunk)));
  l ← call (gets limits);
  lift (guard_err (next >? max_single_bytes l) (Unavailable "single content spool limit exceeded"));;
  call (reserve (len chunk));;
  put_writer (set_writer_reserved next);;
  temporary ← asks (fun w => Ok (writer_temporary w));
  if bool_decide (temporary = None) && (next <=? memory_threshold l)
  then put_writer (fun w => set_memory (writer_memory w ++ chunk) w)
  else
    spill;;
    temporary ← asks (fun w => Ok (writer_temporary w));
    match temporary with
    | Some (_, file) => call (write_all file chunk)
    | None => mret tt
    end.

(** [finish(mut self)]: the lease now owns the bytes and the file; the writer's
    [Drop] then sees [finished]. *)
Definition finish (self : ContentSpoolWriter) : prog ContentSpool ContentBacking :=
  let bytes := writer_reserved self in
  lease ← lease_new {| lease_bytes := bytes; lease_path := fst <$> writer_temporary self |};
  match writer_temporary self with
  | None => mret (Memory (writer_memory self) lease)
  | Some (path, _) =>
      on_err
        (sync_file;; sync_file;;
         file ← open_file path;
         mret (SpoolFile path file bytes lease))
        (lease_drop lease)
  end.

(** [Drop for ContentSpoolWriter] *)
Definition ContentSpoolWriter_drop (self : ContentSpoolWriter) : prog ContentSpool () :=
  if writer_finished self then mret tt
  else
    release (writer_reserved self);;
    match writer_temporary self with
    | Some (path, _) => remove_file path
    | None => mret tt
    end.

(** [while let Some(chunk) = stream.next().await { writer.push(chunk?).await?; }
    writer.finish().await], the writer dropped on every early return. *)
Fixpoint spool_loop (writer : ContentSpoolWriter) (stream : list (vres (list byte)))
  : prog ContentSpool ContentBacking := fun s =>
  match stream with
  | [] => finish writer s
  | item :: stream =>
      match item with
      | Ok chunk =>
          match push chunk (writer, s) with
          | (Ok _, (writer, s)) => spool_loop writer stream s
          | (Err e, (writer, s)) => (Err e, (ContentSpoolWriter_drop writer s).2)
          | (Panic p, (writer, s)) => (Panic p, (ContentSpoolWriter_drop writer s).2)
          end
      | Err e => (Err e, (ContentSpoolWriter_drop writer s).2)
      | Panic p => (Panic p, (ContentSpoolWriter_drop writer s).2)
      end
  end.

Definition spool (stream : list (vres (list byte))) : prog ContentSpool ContentBacking :=
  spool_loop writer_new stream.

Definition spool_memory (bytes : list byte) : prog ContentSpool ContentBacking :=
  l ← gets limits;
  lift (guard_err (len bytes >? max_single_bytes l) (Unavailable "single content spool limit exceeded"));;
  reserve (len bytes);;
  lease ← lease_new {| lease_bytes := len bytes; lease_path := None |};
  mret (Memory bytes lease).

(** ** The backing *)
Definition inode_content (s : ContentSpool) (file : nat) : list byte := default [] (inodes s !! file).

Definition direct_local_file (file : nat) : prog ContentSpool ContentBacking :=
  io_call (fun _ s => s) (fun s => (Ok (DirectLocalFile file (len (inode_content s file))), s)).

Definition backing_len (self : ContentBacking) : Z :=
  match self with
  | DirectLocalFile _ length => length
  | Memory bytes _ => len bytes
  | SpoolFile _ _ completed_bytes _ => completed_bytes
  end.

Definition backing_is_empty (self : ContentBacking) : bool := backing_len self =? 0.

Definition spool_path (self : ContentBacking) : option PathBuf :=
  match self with SpoolFile path _ _ _ => Some path | _ => None end.

Definition backing_lease (self : ContentBacking) : option nat :=
  match self with
  | DirectLocalFile _ _ => None
  | Memory _ lease | SpoolFile _ _ _ lease => Some lease
  end.

(** [Clone] and [Drop] of a backing: its lease is an [Arc]. *)
Definition backing_clone (self : ContentBacking) : prog ContentSpool ContentBacking :=
  match backing_lease self with
  | Some id => lease_clone id;; mret self
  | None => mret self
  end.
Definition backing_drop (self : ContentBacking) : prog ContentSpool () :=
  match backing_lease self with
  | Some id => lease_drop id
  | None => mret tt
  end.

(** One [pread] into a buffer of [space] bytes: at least one byte when there is
    space and the file goes on, possibly fewer than asked. *)
Definition pread (file : nat) (space offset : Z) : prog ContentSpool (list byte) := fun s =>
  io_call (fun _ s => s) (fun s' =>
    (Ok (take (Nat.min (Z.to_nat space) (S (short_read (clock s))))
           (drop (Z.to_nat offset) (inode_content s' file))), s')) s.

(** [while filled < wanted { … }]; each turn fills at least one byte. *)
Fixpoint read_loop (fuel : nat) (file : nat) (offset wanted : Z) (output : list byte)
  : prog ContentSpool (list byte) :=
  match fuel with
  | O => lift (Panic "out of fuel")
  | S fuel =>
      if len output <? wanted then
        chunk ← pread file (wanted - len output) (offset + len output);
        if len chunk =? 0 then mret output
        else read_loop fuel file offset wanted (output ++ chunk)
      else mret output
  end.

Definition read_file_at (file : nat) (length offset size : Z) : prog ContentSpool (list byte) :=
  if (offset >=? length) || (size =? 0) then mret []
  else
    let wanted := Z.min size (length - offset) in
    read_loop (S (Z.to_nat wanted)) file offset wanted [].

Definition read_at (self : ContentBacking) (offset size : Z) : prog ContentSpool (list byte) :=
  match self with
  | Memory bytes _ =>
      let start := Z.min offset (len bytes) in
      let stop := Z.min (saturating_add usize_max start size) (len bytes) in
      mret (take (Z.to_nat (stop - start)) (drop (Z.to_nat start) bytes))
  | DirectLocalFile file length => read_file_at file length offset size
  | SpoolFile _ file completed_bytes _ => read_file_at file completed_bytes offset size
  end.

(** ** Effects of the primitive calls *)

(** [s] and [s'] differ at most in the clock. *)
Definition same_files (s s' : ContentSpool) : Prop :=
  runtime_directory s' = runtime_directory s ∧ limits s' = limits s
  ∧ reserved_bytes s' = reserved_bytes s ∧ directory s' = directory s
  ∧ inodes s' = inodes s ∧ leases s' = leases s.

#[export] Instance same_files_pre : PreOrder same_files.
Proof.
  split; [by intros [] | intros a b c (?&?&?&?&?&?) (?&?&?&?&?&?)].
  repeat split; congruence.
Qed.

Lemma advance_same s : same_files s (advance s).
Proof. by repeat split. Qed.

(** ** Reading *)
Definition slice (offset size : Z) (l : list byte) : list byte :=
  take (Z.to_nat size) (drop (Z.to_nat offset) l).

Definition content (s : ContentSpool) (b : ContentBacking) : list byte :=
  match b with
  | Memory bytes _ => bytes
  | DirectLocalFile file length => take (Z.to_nat length) (inode_content s file)
  | SpoolFile _ file completed _ => take (Z.to_nat completed) (inode_content s file)
  end.

(** The outcome of a read: the bytes, or an error of the file system. *)
Definition io_outcome {A} (r : vres A) (a : A) : Prop :=
  r = Ok a ∨ ∃ n k message, io_fault n = Some (k, message) ∧ r = Err (Io message).

Lemma pread_spec file space offset s :
  0 ≤ offset → 0 < space →
  ∃ k, 0 < k ≤ space ∧ same_files s (pread file space offset s).2
  ∧ io_outcome (pread file space offset s).1 (slice offset k (inode_content s file)).
Proof.
  intros Ho Hs. exists (Z.min space (Z.of_nat (S (short_read (clock s))))). split; [lia |].
  unfold pread, io_call. destruct (io_fault _) as [[k m]|] eqn:E; cbn [fst snd].
  - split; [apply advance_same |]. right. by exists (clock s), k, m.
  - split; [apply advance_same |]. left. unfold slice. do 2 f_equal. lia.
Qed.

Lemma slice_suffix {A} (l out tl : list A) o :
  drop (Z.to_nat o) l = out ++ tl → 0 ≤ o → drop (Z.to_nat (o + len out)) l = tl.
Proof.
  intros H Ho. pose proof (len_nonneg out). rewrite Z2Nat.inj_add by lia. rewrite <- drop_drop, H.
  unfold len. rewrite Nat2Z.id. apply drop_app_length.
Qed.

Lemma read_loop_spec file offset wanted fuel s output tl :
  0 ≤ offset → drop (Z.to_nat offset) (inode_content s file) = output ++ tl →
  len output ≤ wanted → (Z.to_nat (wanted - len output) < fuel)%nat →
  same_files s (read_loop fuel file offset wanted output s).2
  ∧ io_outcome (read_loop fuel file offset wanted output s).1 (slice offset wanted (inode_content s file)).
Proof.
  intros Ho. revert s output tl. induction fuel as [|fuel IH]; intros s output tl Hout Hle Hf; [lia |].
  cbn [read_loop]. pose proof (len_nonneg output) as H0.
  destruct (Z.ltb_spec (len output) wanted) as [Hlt|Hge].
  2: { split; [done |]. left. cbn. f_equal. unfold slice. rewrite Hout.
       replace (Z.to_nat wanted) with (length output) by (unfold len in *; lia). by rewrite take_app_length. }
  destruct (pread_spec file (wanted - len output) (offset + len output) s) as (k & Hk & Hsame & Hr); [lia.. |].
  unfold mbind, prog_bind. destruct (pread _ _ _ s) as [r s1]. cbn [fst snd] in *.
  destruct Hr as [-> | (n & j & m & Hm & ->)]; [| split; [done |]; right; by exists n, j, m].
  assert (slice (offset + len output) k (inode_content s file) = take (Z.to_nat k) tl) as ->
    by (unfold slice; by rewrite (slice_suffix _ _ _ _ Hout Ho)).
  assert (inode_content s1 file = inode_content s file) as Hc
    by (unfold inode_content; by rewrite (proj1 (proj2 (proj2 (proj2 (proj2 Hsame)))))).
  destruct (Z.eqb_spec (len (take (Z.to_nat k) tl)) 0) as [He|He].
  - split; [done |]. left. cbn. f_equal. apply len_zero_iff in He.
    destruct tl as [|b tl]; [| destruct (Z.to_nat k) eqn:?; [lia | done]].
    unfold slice. rewrite Hout, app_nil_r, take_ge; [done | unfold len in *; lia].
  - rewrite <- Hc in *. destruct (IH s1 (output ++ take (Z.to_nat k) tl) (drop (Z.to_nat k) tl)) as [IH1 IH2].
    + by rewrite <- app_assoc, take_drop.
    + rewrite len_app. unfold len at 2. rewrite length_take. lia.
    + pose proof (len_nonneg (take (Z.to_nat k) tl)). rewrite len_app. lia.
    + split; [by etransitivity | done].
Qed.

Lemma read_file_at_spec file length offset size s :
  0 ≤ offset → 0 ≤ size →
  same_files s (read_file_at file length offset size s).2
  ∧ io_outcome (read_file_at file length offset size s).1
      (slice offset size (take (Z.to_nat length) (inode_content s file))).
Proof.
  intros Ho Hs. unfold read_file_at.
  assert (slice offset size (take (Z.to_nat length) (inode_content s file))
          = slice offset (Z.min size (length - offset)) (inode_content s file)) as ->.
  { unfold slice. rewrite skipn_firstn_comm, take_take. f_equal. lia. }
  destruct (Z.geb_spec offset length) as [Hge|Hlt]; cbn [orb].
  { split; [done |]. left. unfold slice. by rewrite (Z2Nat.nonpos (Z.min _ _)) by lia. }
  destruct (Z.eqb_spec size 0) as [->|Hne].
  { split; [done |]. left. unfold slice. by rewrite (Z2Nat.nonpos (Z.min _ _)) by lia. }
  eapply (read_loop_spec _ _ _ _ s []); [done | by rewrite app_nil_l | rewrite len_nil; lia |].
  rewrite len_nil. lia.
Qed.

(** A vector is at most [isize::MAX] bytes long. *)
Definition backing_fits (b : ContentBacking) : Prop :=
  match b with Memory bytes _ => len bytes ≤ usize_max | _ => True end.

Lemma read_at_spec b offset size s :
  0 ≤ offset → 0 ≤ size → backing_fits b →
  same_files s (read_at b offset size s).2
  ∧ io_outcome (read_at b offset size s).1 (slice offset size (content s b)).
Proof.
  intros Ho Hs Hb. destruct b as [file l|bs lease|path file l lease]; cbn [read_at content].
  - by apply read_file_at_spec.
  - cbn in Hb. split; [done |]. left. cbn. f_equal. unfold slice, saturating_add.
    destruct (Z.le_gt_cases (len bs) offset) as [Hle|Hlt].
    + rewrite (Z.min_r offset), !(drop_ge bs) by (unfold len in *; lia). by rewrite !take_nil.
    + rewrite (Z.min_l offset) by lia.
      destruct (Z.le_gt_cases (offset + size) (len bs)) as [H1|H1].
      * f_equal. lia.
      * rewrite !take_ge; [done | rewrite length_drop; unfold len in *; lia..].
  - by apply read_file_at_spec.
Qed.

(** ** Writing

    Every name in the directory is an inode, and no inode has two names. *)
Definition files_ok (s : ContentSpool) : Prop :=
  ∀ p i, directory s !! p = Some i →
    (i < length (inodes s))%nat ∧ ∀ q, directory s !! q = Some i → q = p.

(** The writer's temporary file is in the directory, and owns all its bytes. *)
Definition temp_ok (s : ContentSpool) (w : ContentSpoolWriter) : Prop :=
  match writer_temporary w with
  | Some (p, i) => directory s !! p = Some i ∧ writer_memory w = []
  | None => True
  end.

Definition writer_content (s : ContentSpool) (w : ContentSpoolWriter) : list byte :=
  match writer_temporary w with
  | Some (_, file) => inode_content s file
  | None => writer_memory w
  end.

(** A call that may append to the inode [own] and add files, and leaves the
    rest of the file system as it is. *)
Record grows (own : option nat) (s s' : ContentSpool) : Prop := {
  grows_inodes i : (i < length (inodes s))%nat → own ≠ Some i → inodes s' !! i = inodes s !! i;
  grows_len : (length (inodes s) ≤ length (inodes s'))%nat;
  grows_dir p i : directory s !! p = Some i → directory s' !! p = Some i;
  grows_ok : files_ok s → files_ok s';
  grows_limits : limits s' = limits s;
  grows_leases : leases s' = leases s;
}.

Lemma grows_trans own s1 s2 s3 : grows own s1 s2 → grows own s2 s3 → grows own s1 s3.
Proof.
  intros [A1 A2 A3 A4 A5 A6] [B1 B2 B3 B4 B5 B6]. split; eauto; try lia; try congruence.
  intros i Hi Ho. rewrite B1, A1 by (done || lia). done.
Qed.

Lemma same_grows own s s' : same_files s s' → grows own s s'.
Proof.
  intros (?&?&?&Hd&Hi&?). split; try done; unfold files_ok; rewrite ?Hd, ?Hi; done.
Qed.

Lemma append_grows file chunk s : grows (Some file) s (append_inode file chunk s).
Proof.
  split; cbn; try done.
  - intros i Hi Ho. rewrite list_lookup_alter_ne; [done | congruence].
  - by rewrite length_alter.
  - unfold files_ok. cbn. by rewrite length_alter.
Qed.

Lemma append_content file chunk s :
  (file < length (inodes s))%nat →
  inode_content (append_inode file chunk s) file = inode_content s file ++ chunk.
Proof.
  intros Hf. unfold inode_content, append_inode. cbn. rewrite list_lookup_alter_eq.
  by destruct (lookup_lt_is_Some_2 _ _ Hf) as [c ->].
Qed.

Definition no_faults : Prop := ∀ n, io_fault n = None.

Lemma write_all_spec file chunk s r s' :
  write_all file chunk s = (r, s') → (file < length (inodes s))%nat →
  grows (Some file) s s' ∧ reserved_bytes s' = reserved_bytes s ∧ directory s' = directory s
  ∧ (no_faults → r = Ok tt)
  ∧ (r = Ok tt → inode_content s' file = inode_content s file ++ chunk) ∧ is_panic r = false.
Proof.
  unfold write_all, io_call. intros H Hf.
  destruct (io_fault (clock s)) as [[k m]|] eqn:E; injection H as <- <-.
  - split_and!; try done; [| intros Hn; by rewrite Hn in E].
    eapply grows_trans; [apply same_grows, advance_same | apply append_grows].
  - split_and!; try done.
    + eapply grows_trans; [apply same_grows, advance_same | apply append_grows].
    + intros _. by rewrite append_content.
Qed.

Lemma create_temporary_spec s r s' :
  create_temporary s = (r, s') →
  grows None s s' ∧ reserved_bytes s' = reserved_bytes s ∧ is_panic r = false
  ∧ match r with
    | Ok (path, file) => directory s !! path = None ∧ file = length (inodes s)
        ∧ directory s' = <[path := file]> (directory s) ∧ inodes s' = inodes s ++ [[]]
    | _ => same_files s s'
    end.
Proof.
  unfold create_temporary, io_call. set (path := path_join _ _). intros H.
  destruct (io_fault (clock s)) as [[k m]|] eqn:E; [injection H as <- <- |].
  { split; [by apply same_grows, advance_same | done]. }
  cbn in H. destruct (directory s !! path) as [i|] eqn:Hp; injection H as <- <-.
  { split; [by apply same_grows, advance_same | done]. }
  split; [| done]. split; cbn; try done.
  - intros i Hi _. by rewrite lookup_app_l.
  - rewrite length_app. lia.
  - intros q i Hq. rewrite lookup_insert_ne; [done | congruence].
  - intros Hok q i. cbn. rewrite length_app. cbn.
    rewrite lookup_insert_Some. intros [[<- <-]|[Hne Hq]].
    + split; [lia |]. intros q. rewrite lookup_insert_Some. intros [[<- _]|[_ Hq]]; [done |].
      apply Hok in Hq as [? _]. lia.
    + destruct (Hok q i Hq) as [Hi Hu]. split; [lia |]. intros q'.
      rewrite lookup_insert_Some. intros [[<- <-]|[_ Hq']]; [lia | by apply Hu].
Qed.

Lemma remove_file_spec path s r s' :
  remove_file path s = (r, s') →
  r = Ok tt ∧ limits s' = limits s ∧ reserved_bytes s' = reserved_bytes s ∧ inodes s' = inodes s
  ∧ leases s' = leases s
  ∧ (directory s' = directory s ∧ ¬ no_faults ∨ directory s' = delete path (directory s)).
Proof.
  unfold remove_file. intros H. destruct (io_fault (clock s)) eqn:E; injection H as <- <-.
  - split_and!; try done. left. split; [done |]. intros Hn. by rewrite Hn in E.
  - split_and!; try done. by right.
Qed.

Definition own_file (w : ContentSpoolWriter) : option nat := snd <$> writer_temporary w.
Definition own_path (w : ContentSpoolWriter) : option PathBuf := fst <$> writer_temporary w.

(** Run the programs of the monad in a hypothesis, the calls kept folded. *)
Ltac run H :=
  unfold mbind, prog_bind, asks, modify, call, put_writer, lift, gets, update, on_err, mret, prog_ret in H;
  cbn [fst snd] in H.

(** What [spill] and [push] do to the writer and the files. *)
Record wrote (w w' : ContentSpoolWriter) (s s' : ContentSpool) : Prop := {
  wrote_grows : grows (own_file w) s s';
  wrote_temp_ok : temp_ok s' w';
  wrote_temp : writer_temporary w' = writer_temporary w
    ∨ writer_temporary w = None ∧ ∃ p i, writer_temporary w' = Some (p, i)
      ∧ directory s !! p = None ∧ (length (inodes s) ≤ i)%nat;
  wrote_finished : writer_finished w' = writer_finished w;
  wrote_clean : no_faults → ∀ p, is_Some (directory s' !! p) → is_Some (directory s !! p) ∨ own_path w' = Some p;
}.

Lemma grows_weaken own s s' : grows None s s' → grows own s s'.
Proof. intros []. split; auto. Qed.

(** An inode created after [s] is not one that [s] has. *)
Lemma grows_fresh own i s s' :
  (length (inodes s) ≤ i)%nat → grows (Some i) s s' → grows own s s'.
Proof.
  intros Hi []. split; eauto. intros j Hj Hne. apply grows_inodes0; [done |]. intros [= ->]. lia.
Qed.

(** The files stay as they are. *)
Lemma wrote_still w w' s s' :
  directory s' = directory s → inodes s' = inodes s → limits s' = limits s → leases s' = leases s →
  writer_temporary w' = writer_temporary w → writer_finished w' = writer_finished w →
  temp_ok s w' → wrote w w' s s'.
Proof.
  intros Hd Hi Hl Hle Ht Hf Hok. split; [| | by left | done |].
  - split; try done; unfold files_ok; rewrite ?Hd, ?Hi; done.
  - unfold temp_ok in *. by rewrite Hd.
  - intros _ p Hp. left. by rewrite <- Hd.
Qed.

Lemma wrote_same w s s' : temp_ok s w → same_files s s' → wrote w w s s'.
Proof. intros Ht (?&?&?&?&?&?). by apply wrote_still. Qed.

Lemma spill_spec w s r w' s' :
  spill (w, s) = (r, (w', s')) → files_ok s → temp_ok s w →
  wrote w w' s s' ∧ reserved_bytes s' = reserved_bytes s ∧ writer_reserved w' = writer_reserved w
  ∧ is_panic r = false
  ∧ (r = Ok tt → writer_temporary w' ≠ None ∧ writer_content s' w' = writer_content s w).
Proof.
  intros H Hok Ht. unfold spill in H. run H.
  destruct (writer_temporary w) as [t|] eqn:Htemp.
  { injection H as <- <- <-. split_and!; try done; [by apply wrote_same | by rewrite Htemp]. }
  run H. destruct (create_temporary s) as [[[path file]|e|m] s1] eqn:Hc; run H;
    apply create_temporary_spec in Hc as (Hg & Hr & Hp & Hc); [| | done].
  2: { injection H as <- <- <-. split_and!; try done. by apply wrote_same. }
  destruct Hc as (Hnone & -> & Hd & Hi). set (file := length (inodes s)) in *.
  assert (file < length (inodes s1))%nat as Hlt by (rewrite Hi, length_app; cbn; unfold file; lia).
  destruct (write_all file (writer_memory w) s1) as [r2 s2] eqn:Hw.
  apply write_all_spec in Hw as (Hg2 & Hr2 & Hd2 & Hn2 & Hc2 & Hp2); [| done].
  assert (grows (own_file w) s s2) as Hg12.
  { apply (grows_fresh _ file); [done |]. eapply grows_trans; [by apply grows_weaken | done]. }
  destruct r2 as [[]|e|m]; run H; [| | done].
  - injection H as <- <- <-. cbn. split_and!; try done; [| by rewrite Hr2 | intros _; split; [done |]].
    + split; try done; cbn.
      * split; [by rewrite Hd2, Hd, lookup_insert_eq | done].
      * right. split; [done |]. eauto.
      * intros _ q. rewrite Hd2, Hd. intros [i [[<- _]|[_ Hq]]%lookup_insert_Some]; [by right | left; eauto].
    + unfold writer_content. cbn. rewrite Htemp, (Hc2 eq_refl). unfold inode_content at 1.
      by rewrite Hi, list_lookup_middle.
  - destruct (remove_file path s2) as [r3 s3] eqn:Hrm.
    apply remove_file_spec in Hrm as (-> & Hl3 & Hr3 & Hi3 & Hle3 & Hd3). injection H as <- <- <-.
    assert (grows (own_file w) s s3) as Hg13.
    { destruct Hg12 as [G1 G2 G3 G4 G5 G6]. split; rewrite ?Hi3, ?Hl3, ?Hle3; try done.
      - intros q i Hq. destruct Hd3 as [[-> _] | ->]; [by apply G3 |].
        rewrite lookup_delete_ne; [by apply G3 | congruence].
      - intros _. specialize (G4 Hok). unfold files_ok in *. rewrite Hi3.
        destruct Hd3 as [[-> _] | ->]; [done |]. intros q i [_ Hq]%lookup_delete_Some.
        destruct (G4 _ _ Hq) as [? Hu]. split; [done |]. intros q' [_ Hq']%lookup_delete_Some. by apply Hu. }
    split_and!; try done; [| by rewrite Hr3, Hr2].
    split; try done; [| by left |].
    + unfold temp_ok. by rewrite Htemp.
    + intros Hn q Hq. left. destruct Hd3 as [[_ ?] | Hd3]; [done |].
      rewrite Hd3, Hd2, Hd, delete_insert_id in Hq by done. done.
Qed.

(** The names the generator will yield are not in the directory yet. *)
Definition names_fresh (s : ContentSpool) : Prop :=
  ∀ n, (clock s ≤ n)%nat → directory s !! path_join (runtime_directory s) (spool_name n) = None.

Lemma spill_progress w s :
  no_faults → (writer_temporary w = None → names_fresh s) → (spill (w, s)).1 = Ok tt.
Proof.
  intros Hn Hf. destruct (spill (w, s)) as [r ws] eqn:H. unfold spill in H. run H.
  destruct (writer_temporary w) as [t|] eqn:Ht; [by injection H as <- <- |].
  specialize (Hf eq_refl). run H. unfold create_temporary, write_all, io_call in H. rewrite !Hn in H.
  cbn -[path_join spool_name] in H. rewrite Hf in H by lia. cbn -[path_join spool_name] in H. rewrite Hn in H.
  by injection H as <- <-.
Qed.

Lemma reserve_spec n s r s' :
  reserve n s = (r, s') → 0 ≤ n →
  (r = Ok tt ∧ s' = set_reserved (reserved_bytes s + n) s
    ∧ reserved_bytes s + n ≤ max_total_bytes (limits s) ∧ reserved_bytes s + n ≤ u64_max)
  ∨ (is_panic r = false ∧ is_ok r = false ∧ s' = s
    ∧ (max_total_bytes (limits s) < reserved_bytes s + n ∨ u64_max < reserved_bytes s + n)).
Proof.
  unfold reserve, checked_add. intros H Hn. case_bool_decide as Hb.
  - destruct (Z.leb_spec (reserved_bytes s + n) (max_total_bytes (limits s))); injection H as <- <-;
      [left | right]; split_and!; auto; lia.
  - injection H as <- <-. right. split_and!; auto. lia.
Qed.

Lemma wrote_reserved w w' s s' n m :
  wrote (set_writer_reserved m w) w' (set_reserved n s) s' → wrote w w' s s'.
Proof. intros [[] ? ? ? ?]. split; [split |..]; done. Qed.

Record pushed (chunk : list byte) (w w' : ContentSpoolWriter) (s s' : ContentSpool) (r : vres ()) : Prop := {
  pushed_wrote : wrote w w' s s';
  pushed_account : reserved_bytes s' - writer_reserved w' = reserved_bytes s - writer_reserved w;
  pushed_reserved : writer_reserved w' = writer_reserved w ∧ r ≠ Ok tt
    ∨ writer_reserved w' = writer_reserved w + len chunk ∧ writer_reserved w' ≤ max_single_bytes (limits s)
      ∧ reserved_bytes s' ≤ max_total_bytes (limits s);
  pushed_no_panic : is_panic r = false;
  pushed_content : r = Ok tt → writer_content s' w' = writer_content s w ++ chunk
    ∧ bool_decide (writer_temporary w' = None)
      = bool_decide (writer_temporary w = None) && (writer_reserved w' <=? memory_threshold (limits s))
    ∧ (writer_temporary w' = None → s' = set_reserved (reserved_bytes s') s);
  pushed_progress : no_faults → (writer_temporary w = None → names_fresh s) →
    writer_reserved w + len chunk ≤ max_single_bytes (limits s) →
    reserved_bytes s + len chunk ≤ max_total_bytes (limits s) →
    max_total_bytes (limits s) ≤ u64_max → writer_reserved w ≤ reserved_bytes s → r = Ok tt;
}.

Lemma push_spec chunk w s r w' s' :
  push chunk (w, s) = (r, (w', s')) → files_ok s → temp_ok s w → pushed chunk w w' s s' r.
Proof.
  intros H Hok Ht. pose proof (len_nonneg chunk) as H0. unfold push in H. run H.
  unfold checked_add in H. case_bool_decide as Hb; run H.
  2: { injection H as <- <- <-. split; try done; [by apply wrote_same | by left | intros; lia]. }
  cbn [ok_or] in H. unfold guard_err in H.
  destruct (Z.gtb_spec (writer_reserved w + len chunk) (max_single_bytes (limits s))) as [Hs|Hs]; run H.
  { injection H as <- <- <-. split; try done; [by apply wrote_same | by left | intros; lia]. }
  destruct (reserve (len chunk) s) as [r1 s1] eqn:Hr. apply reserve_spec in Hr as [Hr|Hr]; [| | done].
  2: { destruct Hr as (Hp1 & Hok1 & -> & Hr). destruct r1 as [[]|e|m]; [done | | done]; run H.
       injection H as <- <- <-. split; try done; [by apply wrote_same | by left | intros; lia]. }
  destruct Hr as (-> & -> & Hr1 & Hr2). run H.
  set (next := writer_reserved w + len chunk) in *. set (s1 := set_reserved _ s) in *.
  set (w1 := set_writer_reserved next w) in *.
  change (writer_temporary w1) with (writer_temporary w) in H.
  assert (files_ok s1) as Hok1 by exact Hok. assert (temp_ok s1 w1) as Ht1 by exact Ht.
  destruct (bool_decide (writer_temporary w = None) && _) eqn:Hmem.
  { run H. injection H as <- <- <-. apply andb_true_iff in Hmem as [Hnone Hth].
    apply bool_decide_eq_true in Hnone. split; cbn.
    - apply wrote_still; try done. unfold temp_ok. cbn. by rewrite Hnone.
    - unfold next. lia.
    - right. lia.
    - done.
    - intros _. unfold writer_content. cbn. rewrite Hnone. split_and!; [done | | done].
      by rewrite bool_decide_eq_true_2, Hth.
    - done. }
  run H. destruct (spill (w1, s1)) as [r2 [w2 s2]] eqn:Hsp.
  pose proof (spill_progress w1 s1) as Hprog. rewrite Hsp in Hprog. cbn [fst] in Hprog.
  apply spill_spec in Hsp as (Hw & Hr3 & Hw3 & Hp3 & Hc3); [| done..].
  destruct r2 as [[]|e|m]; [| | done]; run H.
  2: { injection H as <- <- <-. split; try done.
       - by eapply wrote_reserved.
       - cbn in *. unfold next in *. lia.
       - right. cbn in *. lia.
       - intros Hn Hf. specialize (Hprog Hn Hf). done. }
  destruct (Hc3 eq_refl) as [Hsome Hcont]. destruct (writer_temporary w2) as [[path file]|] eqn:Htemp2; [| done].
  run H. destruct (write_all file chunk s2) as [r4 s4] eqn:Hwa. injection H as <- <- <-.
  assert (directory s2 !! path = Some file) as Hdir.
  { pose proof (wrote_temp_ok _ _ _ _ Hw) as Htok. unfold temp_ok in Htok. rewrite Htemp2 in Htok. apply Htok. }
  assert (file < length (inodes s2))%nat as Hlt
    by (by apply (grows_ok _ _ _ (wrote_grows _ _ _ _ Hw) Hok1 path file)).
  apply write_all_spec in Hwa as (Hg4 & Hr4 & Hd4 & Hn4 & Hc4 & Hp4); [| done].
  assert (wrote w w2 s s4) as Hwr.
  { eapply wrote_reserved with (m := next) (n := reserved_bytes s + len chunk).
    destruct Hw as [Hg2 Ht2 Hcase Hf2 Hcl]. split; try done.
    - destruct Hcase as [Heq | (Hnone & p & i & Heq & Hp & Hi)].
      + eapply grows_trans; [exact Hg2 |]. unfold own_file. change (writer_temporary w1) with (writer_temporary w) in Heq. cbn. by rewrite <- Heq, Htemp2.
      + rewrite Htemp2 in Heq. injection Heq as <- <-. apply (grows_fresh _ file); [done |].
        eapply grows_trans; [| done]. unfold own_file in Hg2. rewrite Hnone in Hg2. by apply grows_weaken.
    - unfold temp_ok in *. rewrite Htemp2, Hd4 in *. done.
    - rewrite Hd4. done. }
  split; try done.
  - cbn in *. unfold next in *. lia.
  - right. cbn in *. lia.
  - intros Hrr. split_and!.
    + unfold writer_content at 1. rewrite Htemp2, (Hc4 Hrr). change (writer_content s w) with (writer_content s1 w1).
      rewrite <- Hcont. unfold writer_content. by rewrite Htemp2.
    + rewrite Htemp2, bool_decide_eq_false_2 by done. rewrite Hw3. cbn. fold next. done.
    + by rewrite Htemp2.
  - intros. by apply Hn4.
Qed.

(** ** Releasing *)
Definition removed (path : option PathBuf) (d d' : gmap PathBuf nat) : Prop :=
  match path with
  | Some p => d' = delete p d ∨ d' = d ∧ ¬ no_faults
  | None => d' = d
  end.

(** The reservation of [n] bytes and the file at [path] are given back. *)
Record released (n : Z) (path : option PathBuf) (s s' : ContentSpool) : Prop := {
  released_bytes : reserved_bytes s' = (reserved_bytes s - n) mod 2 ^ 64;
  released_dir : removed path (directory s) (directory s');
  released_inodes : inodes s' = inodes s;
  released_limits : limits s' = limits s;
  released_leases : leases s' = leases s;
}.

Lemma release_path_spec n path s r s' :
  (release n;; match path with Some p => remove_file p | None => mret tt end) s = (r, s') →
  r = Ok tt ∧ released n path s s'.
Proof.
  intros H. unfold release in H. run H. destruct path as [p|]; run H.
  - apply remove_file_spec in H as (-> & Hl & Hr & Hi & Hle & Hd). split; [done |].
    split; try done. cbn in *. tauto.
  - by injection H as <- <-.
Qed.

Lemma ContentSpoolWriter_drop_spec w s r s' :
  ContentSpoolWriter_drop w s = (r, s') → writer_finished w = false →
  r = Ok tt ∧ released (writer_reserved w) (own_path w) s s'.
Proof.
  unfold ContentSpoolWriter_drop, own_path. intros H Hf. rewrite Hf in H.
  apply release_path_spec. by destruct (writer_temporary w) as [[p i]|].
Qed.

(** Drop one reference; the last one gives the lease's resources back. *)
Lemma lease_drop_spec id s r s' lease n :
  lease_drop id s = (r, s') → leases s !! id = Some (lease, S n) →
  r = Ok tt
  ∧ match n with
    | O => released (lease_bytes lease) (lease_path lease) (set_leases (delete id (leases s)) s) s'
    | S _ => s' = set_leases (<[id := (lease, n)]> (leases s)) s
    end.
Proof.
  unfold lease_drop. intros H Hl. rewrite Hl in H. destruct n as [|n].
  - unfold ContentLease_drop in H. by apply release_path_spec in H.
  - by injection H as <- <-.
Qed.

Definition lease_of (w : ContentSpoolWriter) : ContentLease :=
  {| lease_bytes := writer_reserved w; lease_path := own_path w |}.

Definition backing_of (w : ContentSpoolWriter) (lease : nat) : ContentBacking :=
  match writer_temporary w with
  | Some (p, i) => SpoolFile p i (writer_reserved w) lease
  | None => Memory (writer_memory w) lease
  end.

(** Like [same_files], the leases apart. *)
Definition same_store (s s' : ContentSpool) : Prop :=
  limits s' = limits s ∧ reserved_bytes s' = reserved_bytes s ∧ directory s' = directory s
  ∧ inodes s' = inodes s.

Lemma sync_file_spec s r s' :
  sync_file s = (r, s') → same_files s s' ∧ is_panic r = false ∧ (no_faults → r = Ok tt).
Proof.
  unfold sync_file, io_call. intros H. destruct (io_fault (clock s)) as [[k m]|] eqn:E; injection H as <- <-.
  - split_and!; [by apply advance_same | done |]. intros Hn. by rewrite Hn in E.
  - split_and!; [by apply advance_same | done | done].
Qed.

Lemma open_file_spec path i s r s' :
  open_file path s = (r, s') → directory s !! path = Some i →
  same_files s s' ∧ is_panic r = false ∧ (no_faults → r = Ok i) ∧ (∀ j, r = Ok j → j = i).
Proof.
  unfold open_file, io_call. intros H Hp. destruct (io_fault (clock s)) as [[k m]|] eqn:E.
  - injection H as <- <-. split_and!; [by apply advance_same | done | | done]. intros Hn. by rewrite Hn in E.
  - cbn in H. rewrite Hp in H. injection H as <- <-. split_and!; [by apply advance_same | done | done |].
    by intros j [= <-].
Qed.

(** The part of [finish] that can fail. *)
Lemma finish_file_spec path i bytes lease s r s' :
  (sync_file;; sync_file;; file ← open_file path; mret (SpoolFile path file bytes lease)) s = (r, s') →
  directory s !! path = Some i →
  same_files s s' ∧ is_panic r = false ∧ (no_faults → is_ok r = true)
  ∧ (∀ b, r = Ok b → b = SpoolFile path i bytes lease).
Proof.
  intros H Hp. run H.
  destruct (sync_file s) as [r1 s1] eqn:H1. apply sync_file_spec in H1 as (S1 & P1 & N1).
  destruct r1 as [[]|e|m]; [| | done]; run H;
    [| by injection H as <- <-; split_and!; try done; intros Hn; specialize (N1 Hn)].
  destruct (sync_file s1) as [r2 s2] eqn:H2. apply sync_file_spec in H2 as (S2 & P2 & N2).
  pose proof (transitivity S1 S2) as S12.
  destruct r2 as [[]|e|m]; [| | done]; run H;
    [| by injection H as <- <-; split_and!; try done; intros Hn; specialize (N2 Hn)].
  destruct (open_file path s2) as [r3 s3] eqn:H3.
  apply (open_file_spec path i) in H3 as (S3 & P3 & N3 & E3);
    [| by rewrite (proj1 (proj2 (proj2 (proj2 S12))))].
  pose proof (transitivity S12 S3) as S13.
  destruct r3 as [j|e|m]; [| | done]; run H; injection H as <- <-.
  - split_and!; try done. intros b [= <-]. by rewrite (E3 j).
  - split_and!; try done. intros Hn. by specialize (N3 Hn).
Qed.

Lemma writer_finish_spec w s r s' :
  finish w s = (r, s') → temp_ok s w →
  is_panic r = false ∧ (no_faults → is_ok r = true)
  ∧ ((∃ id, r = Ok (backing_of w id) ∧ leases s !! id = None
        ∧ leases s' = <[id := (lease_of w, 1%nat)]> (leases s) ∧ same_store s s')
     ∨ is_ok r = false ∧ released (writer_reserved w) (own_path w) s s').
Proof.
  unfold finish. intros H Ht. run H. unfold lease_new in H.
  set (id := fresh (dom (leases s))) in *.
  assert (leases s !! id = None) as Hid by (apply not_elem_of_dom, is_fresh).
  unfold temp_ok in Ht. unfold backing_of, lease_of, own_path.
  destruct (writer_temporary w) as [[p i]|] eqn:Htemp; run H.
  2: { injection H as <- <-. split_and!; try done. left. by exists id. }
  match type of H with context [set_leases ?l s] => set (s1 := set_leases l s) in * end.
  destruct Ht as [Hp _].
  pose proof (finish_file_spec p i (writer_reserved w) id s1) as Hspec. run Hspec.
  match type of H with match ?m with _ => _ end = _ => destruct m as [r2 s2] eqn:Hb end.
  destruct (Hspec _ _ eq_refl Hp) as (S & P & N & E).
  destruct S as (S1 & S2 & S3 & S4 & S5 & S6).
  destruct r2 as [b|e|m]; [| | done]; run H.
  - injection H as <- <-. split_and!; try done. left. exists id. by rewrite (E b).
  - destruct (lease_drop id s2) as [r3 s3] eqn:Hd. injection H as <- <-.
    eapply (lease_drop_spec _ _ _ _ _ 0) in Hd as [_ [R1 R2 R3 R4 R5]]; [| rewrite S6; cbn; apply lookup_insert_eq].
    split_and!; try done. right. split; [done |]. cbn in *. rewrite S3, S4, S5, S2 in *.
    split; try done. rewrite R5, S6. cbn. by rewrite delete_insert_id.
Qed.

(** ** One writer from its creation on

    What holds of a writer [w] in [s] when it was created in [s0] and only it
    has run since. *)
Record session (s0 : ContentSpool) (w : ContentSpoolWriter) (s : ContentSpool) : Prop := {
  session_files : files_ok s;
  session_temp : temp_ok s w;
  session_grows : grows None s0 s;
  session_new p i : writer_temporary w = Some (p, i) → directory s0 !! p = None ∧ (length (inodes s0) ≤ i)%nat;
  session_open : writer_finished w = false;
  session_account : reserved_bytes s = reserved_bytes s0 + writer_reserved w;
  session_nonneg : 0 ≤ writer_reserved w;
  session_bound : reserved_bytes s ≤ max_total_bytes (limits s0) ∨ writer_reserved w = 0;
  session_clean : no_faults → ∀ p, is_Some (directory s !! p) → is_Some (directory s0 !! p) ∨ own_path w = Some p;
}.

Lemma session_start s : files_ok s → session s writer_new s.
Proof. intros Hf. split; try done; first [by apply same_grows | cbn; lia | by right | by left]. Qed.

Lemma session_push s0 w s chunk r w' s' :
  session s0 w s → push chunk (w, s) = (r, (w', s')) → session s0 w' s' ∧ pushed chunk w w' s s' r.
Proof.
  intros [Hf Ht Hg Hnew Hop Ha Hn Hb Hc] H. pose proof (push_spec _ _ _ _ _ _ H Hf Ht) as P.
  split; [| done]. destruct P as [[Wg Wt Wc Wf Wcl] Pa Pr Pp Pc Pp']. pose proof (len_nonneg chunk).
  assert (grows (own_file w') s0 s' ∧ ∀ p i, writer_temporary w' = Some (p, i) →
            directory s0 !! p = None ∧ (length (inodes s0) ≤ i)%nat) as [Hg' Hnew'].
  { split.
    - destruct (writer_temporary w) as [[p i]|] eqn:E.
      + destruct (Hnew p i eq_refl). apply (grows_fresh _ i); [done |]. eapply grows_trans; [by apply grows_weaken |].
        unfold own_file in Wg. by rewrite E in Wg.
      + apply grows_weaken. eapply grows_trans; [done |]. unfold own_file in Wg. by rewrite E in Wg.
    - intros p i Hpi. destruct Wc as [Heq | (Hnone & q & j & Heq & Hq & Hj)].
      + apply Hnew. by rewrite <- Heq.
      + rewrite Hpi in Heq. injection Heq as <- <-. split.
        * destruct (directory s0 !! p) eqn:E; [| done]. by rewrite (grows_dir _ _ _ Hg p _ E) in Hq.
        * pose proof (grows_len _ _ _ Hg). lia. }
  split; try done.
  - by apply (grows_ok _ _ _ Wg).
  - destruct (writer_temporary w') as [[p i]|] eqn:E.
    + destruct (Hnew' p i eq_refl). unfold own_file in Hg'. rewrite E in Hg'. by apply (grows_fresh _ i).
    + unfold own_file in Hg'. by rewrite E in Hg'.
  - congruence.
  - lia.
  - destruct Pr as [[-> _] | (-> & _)]; lia.
  - rewrite <- (grows_limits _ _ _ Hg). destruct Pr as [[Heq _] | (? & ? & ?)]; [| by left].
    rewrite (grows_limits _ _ _ Hg). destruct Hb; [left | right]; lia.
  - intros Hnf p Hp. destruct (Wcl Hnf p Hp) as [Hp'|]; [| by right].
    destruct (Hc Hnf p Hp') as [|Hown]; [by left |]. right.
    destruct Wc as [Heq | (Hnone & _)]; unfold own_path in *; [by rewrite Heq | by rewrite Hnone in Hown].
Qed.

(** What an abandoned writer leaves behind: nothing. *)
Definition restored (s0 s : ContentSpool) : Prop :=
  reserved_bytes s = reserved_bytes s0 ∧ leases s = leases s0 ∧ limits s = limits s0
  ∧ (∀ p i, directory s0 !! p = Some i → directory s !! p = Some i ∧ inodes s !! i = inodes s0 !! i)
  ∧ (no_faults → directory s = directory s0).

Lemma session_released s0 w s s' :
  0 ≤ reserved_bytes s0 < 2 ^ 64 → files_ok s0 →
  session s0 w s → released (writer_reserved w) (own_path w) s s' → restored s0 s'.
Proof.
  intros H0 Hf0 [Hf Ht Hg Hnew Hop Ha Hn Hb Hc] [R1 R2 R3 R4 R5].
  assert (∀ p, own_path w = Some p → directory s0 !! p = None) as Hown.
  { unfold own_path. intros p Hp. destruct (writer_temporary w) as [[q i]|]; [| done].
    injection Hp as ->. by apply (Hnew p i). }
  split_and!.
  - rewrite R1, Ha. rewrite Z.mod_small; lia.
  - by rewrite R5, (grows_leases _ _ _ Hg).
  - by rewrite R4, (grows_limits _ _ _ Hg).
  - intros p i Hp. rewrite R3. split.
    + pose proof (grows_dir _ _ _ Hg p i Hp) as Hp'. unfold removed in R2.
      destruct (own_path w) as [q|]; [| by rewrite R2]. destruct R2 as [-> | [-> _]]; [| done].
      rewrite lookup_delete_ne; [done |]. intros ->. by rewrite (Hown p) in Hp.
    + apply (grows_inodes _ _ _ Hg); [by apply (Hf0 p) | done].
  - intros Hnf. apply map_eq. intros p. unfold removed in R2.
    destruct (directory s0 !! p) as [i|] eqn:E.
    + pose proof (grows_dir _ _ _ Hg p i E) as Hp.
      destruct (own_path w) as [q|] eqn:Ho; [| by rewrite R2]. destruct R2 as [-> | [_ ?]]; [| done].
      rewrite lookup_delete_ne; [done |]. intros ->. by rewrite (Hown p) in E.
    + destruct (directory s' !! p) as [i|] eqn:E'; [| done]. exfalso.
      destruct (own_path w) as [q|] eqn:Ho.
      * destruct R2 as [Hd | [_ ?]]; [| done]. rewrite Hd in E'. apply lookup_delete_Some in E' as [Hne Hp].
        destruct (Hc Hnf p) as [Hs|Hs]; [eauto | by rewrite E in Hs; destruct Hs | congruence].
      * rewrite R2 in E'. destruct (Hc Hnf p) as [Hs|Hs]; [eauto | by rewrite E in Hs; destruct Hs | done].
Qed.

(** The writer holds [acc], in memory exactly when it fits the threshold. *)
Definition holds (acc : list byte) (w : ContentSpoolWriter) (s : ContentSpool) : Prop :=
  writer_content s w = acc ∧ writer_reserved w = len acc
  ∧ bool_decide (writer_temporary w = None) = (len acc <=? memory_threshold (limits s)).

Lemma holds_push acc chunk w w' s s' r :
  holds acc w s → pushed chunk w w' s s' r → r = Ok tt → holds (acc ++ chunk) w' s'.
Proof.
  intros (Hc & Hr & Ht) P Hok. destruct (pushed_content _ _ _ _ _ _ P Hok) as (C1 & C2 & _).
  destruct (pushed_reserved _ _ _ _ _ _ P) as [[_ ?] | (R & _)]; [done |].
  pose proof (grows_limits _ _ _ (wrote_grows _ _ _ _ (pushed_wrote _ _ _ _ _ _ P))) as Hl.
  unfold holds. rewrite C1, C2, Hl, Hc, Ht, len_app, R, Hr. split_and!; [done.. |].
  pose proof (len_nonneg chunk). destruct (Z.leb_spec (len acc) (memory_threshold (limits s))); [done |].
  cbn. symmetry. apply Z.leb_gt. lia.
Qed.

(** What a successful [spool] returns for the bytes [acc]. *)
Record spooled (s0 : ContentSpool) (acc : list byte) (b : ContentBacking) (s : ContentSpool) : Prop := {
  spooled_content : content s b = acc;
  spooled_len : backing_len b = len acc;
  spooled_where : bool_decide (spool_path b = None) = (len acc <=? memory_threshold (limits s0));
  spooled_reserved : reserved_bytes s = reserved_bytes s0 + len acc;
  spooled_bound : reserved_bytes s ≤ max_total_bytes (limits s0) ∨ len acc = 0;
  spooled_lease : ∃ id l, backing_lease b = Some id ∧ leases s0 !! id = None
    ∧ leases s = <[id := (l, 1%nat)]> (leases s0) ∧ lease_bytes l = len acc ∧ lease_path l = spool_path b;
}.

Lemma finish_holds s0 acc w s r s' :
  session s0 w s → holds acc w s → finish w s = (r, s') →
  is_panic r = false ∧ (no_faults → is_ok r = true)
  ∧ (∀ b, r = Ok b → spooled s0 acc b s')
  ∧ (is_ok r = false → released (writer_reserved w) (own_path w) s s').
Proof.
  intros S (Hc & Hr & Ht) H. apply writer_finish_spec in H as (P & N & H); [| apply S].
  split_and!; [done | done | | destruct H as [(? & -> & _) | [_ ?]]; done].
  intros b Hb. destruct H as [(id & -> & Hid & Hl & Hlim & Hres & Hdir & Hino) | [Hno _]]; [| by rewrite Hb in Hno].
  injection Hb as <-. destruct S as [Sf St Sg Sn So Sa Sp Sb Sc].
  assert (spool_path (backing_of w id) = own_path w) as Hpath
    by (unfold backing_of, own_path; by destruct (writer_temporary w) as [[]|]).
  split.
  - unfold backing_of. unfold writer_content in Hc. destruct (writer_temporary w) as [[p i]|]; cbn; [| done].
    unfold inode_content in *. rewrite Hino, Hc, Hr. unfold len. by rewrite Nat2Z.id, take_ge.
  - unfold backing_of. unfold writer_content in Hc. destruct (writer_temporary w) as [[p i]|]; cbn; [done |].
    by rewrite Hc.
  - rewrite Hpath, <- (grows_limits _ _ _ Sg), <- Ht. unfold own_path.
    by destruct (writer_temporary w) as [[]|].
  - by rewrite Hres, Sa, Hr.
  - rewrite Hres, <- Hr. done.
  - rewrite Hl, (grows_leases _ _ _ Sg) in *. exists id, (lease_of w). rewrite Hpath. split_and!; try done.
    unfold backing_of. by destruct (writer_temporary w) as [[]|].
Qed.

Lemma spool_loop_spec s0 stream acc w s r s' :
  0 ≤ reserved_bytes s0 < 2 ^ 64 → files_ok s0 →
  session s0 w s → holds acc w s → spool_loop w stream s = (r, s') →
  (∀ b, r = Ok b → ∃ chunks, stream = Ok <$> chunks ∧ spooled s0 (acc ++ concat chunks) b s')
  ∧ (is_ok r = false → restored s0 s')
  ∧ (forallb (negb ∘ is_panic) stream = true → is_panic r = false).
Proof.
  intros H0 Hf0. revert acc w s. induction stream as [|item stream IH]; intros acc w s S Hh H.
  { cbn in H. eapply finish_holds in H as (P & _ & O & E); [| done..]. split_and!; [| | done].
    - intros b Hb. exists []. rewrite app_nil_r. split; [done |]. by apply O.
    - intros Hno. eapply session_released; [done.. | by apply E]. }
  assert (∀ w s, session s0 w s → restored s0 (ContentSpoolWriter_drop w s).2) as Hdrop.
  { intros w1 s1 S1. destruct (ContentSpoolWriter_drop w1 s1) as [rd sd] eqn:Hd.
    apply ContentSpoolWriter_drop_spec in Hd as [_ Hd]; [| apply S1]. by eapply session_released. }
  cbn in H. destruct item as [chunk|e|m].
  - destruct (push chunk (w, s)) as [r1 [w1 s1]] eqn:Hp.
    destruct (session_push _ _ _ _ _ _ _ S Hp) as [S1 P1].
    destruct r1 as [[]|e|m].
    + specialize (IH _ _ _ S1 (holds_push _ _ _ _ _ _ _ Hh P1 eq_refl) H) as (I1 & I2 & I3).
      split_and!; [| done | done]. intros b Hb. destruct (I1 b Hb) as (chunks & -> & Hs).
      exists (chunk :: chunks). split; [done |]. by rewrite concat_cons, app_assoc.
    + injection H as <- <-. split_and!; [done | by auto | done].
    + by destruct P1.
  - injection H as <- <-. split_and!; [done | by auto | done].
  - injection H as <- <-. split_and!; [done | by auto | done].
Qed.

Lemma spool_loop_progress s0 chunks acc w s :
  no_faults → max_total_bytes (limits s0) ≤ u64_max → 0 ≤ reserved_bytes s0 →
  session s0 w s → holds acc w s → (writer_temporary w = None → names_fresh s) →
  len (acc ++ concat chunks) ≤ max_single_bytes (limits s0) →
  reserved_bytes s0 + len (acc ++ concat chunks) ≤ max_total_bytes (limits s0) →
  is_ok (spool_loop w (Ok <$> chunks) s).1 = true.
Proof.
  intros Hn Hm H0. revert acc w s. induction chunks as [|chunk chunks IH]; intros acc w s S Hh Hf H1 H2.
  { cbn. destruct (finish w s) as [r s'] eqn:H. eapply finish_holds in H as (_ & N & _); [| done..]. by apply N. }
  cbn. destruct (push chunk (w, s)) as [r1 [w1 s1]] eqn:Hp.
  destruct (session_push _ _ _ _ _ _ _ S Hp) as [S1 P1].
  rewrite concat_cons, app_assoc, len_app in H1, H2.
  pose proof (len_nonneg (concat chunks)). destruct Hh as (Hc & Hr & Ht) eqn:EH. clear EH.
  pose proof (grows_limits _ _ _ (session_grows _ _ _ S)) as Hl.
  assert (r1 = Ok tt) as ->.
  { rewrite len_app in *. pose proof (session_account _ _ _ S).
    apply (pushed_progress _ _ _ _ _ _ P1); rewrite ?Hl; try done; lia. }
  eapply IH; [done | by eapply holds_push | | by rewrite len_app | by rewrite len_app].
  intros Ht1. destruct (pushed_content _ _ _ _ _ _ P1 eq_refl) as (_ & C2 & C3).
  rewrite (C3 Ht1). assert (writer_temporary w = None) as Hw.
  { rewrite (bool_decide_eq_true_2 _ Ht1) in C2. symmetry in C2. apply andb_true_iff in C2 as [C2 _].
    by apply bool_decide_eq_true in C2. }
  exact (Hf Hw).
Qed.

(** The states a spool can be in, as far as one call is concerned. *)
Definition spool_ok (s : ContentSpool) : Prop :=
  files_ok s ∧ 0 ≤ reserved_bytes s ≤ max_total_bytes (limits s)
  ∧ max_total_bytes (limits s) ≤ u64_max ∧ 0 ≤ memory_threshold (limits s).

(** Spooling a stream, whatever its chunks and whatever calls of the file
    system fail on the way: a success means that the stream had no error, that the
    backing holds exactly the concatenated chunks, in memory exactly when they fit
    the threshold, and that every read at an offset returns that slice of them or
    an error of the file system.  When no call fails, the names are new and the
    limits leave room, it succeeds. *)
Theorem spool_content s stream r s' :
  spool_ok s → spool stream s = (r, s') →
  (∀ b, r = Ok b → ∃ chunks, stream = Ok <$> chunks
     ∧ backing_len b = len (concat chunks)
     ∧ bool_decide (spool_path b = None) = (len (concat chunks) <=? memory_threshold (limits s))
     ∧ reserved_bytes s' = reserved_bytes s + len (concat chunks)
     ∧ ∀ offset size, 0 ≤ offset → 0 ≤ size →
         io_outcome (read_at b offset size s').1 (slice offset size (concat chunks)))
  ∧ (∀ chunks, stream = Ok <$> chunks → no_faults → names_fresh s →
       len (concat chunks) ≤ max_single_bytes (limits s) →
       reserved_bytes s + len (concat chunks) ≤ max_total_bytes (limits s) → is_ok r = true).
Proof.
  intros (Hf & Hres & Hmax & Hth) H. assert (holds [] writer_new s) as Hh.
  { split_and!; try done. symmetry. apply Z.leb_le. by rewrite len_nil. }
  split.
  - intros b Hb. apply spool_loop_spec with (s0 := s) (acc := []) in H as (O & _);
      [| unfold u64_max in *; lia | done | by apply session_start | done].
    destruct (O b Hb) as (chunks & -> & S). destruct S as [S1 S2 S3 S4 S5 S6]. rewrite app_nil_l in *. exists chunks.
    split_and!; try done. intros offset size Ho Hs. rewrite <- S1. apply read_at_spec; [done.. |].
    destruct b as [| bs |]; try done. cbn in S1. subst bs. cbn. unfold u64_max, usize_max in *.
    lia.
  - intros chunks -> Hn Hfr H1 H2. pose proof (spool_loop_progress s chunks [] writer_new s) as P.
    unfold spool in H. rewrite H in P. apply P; try done; [lia | by apply session_start].
Qed.

(** A spool call that fails, at whatever point, gives everything back: the
    reserved bytes, the leases and the files that existed are as before, and when
    removing does not fail either no file is left over. *)
Theorem spool_failure_restores s stream r s' :
  spool_ok s → spool stream s = (r, s') → is_ok r = false →
  reserved_bytes s' = reserved_bytes s ∧ leases s' = leases s
  ∧ (∀ p i, directory s !! p = Some i → directory s' !! p = Some i ∧ inodes s' !! i = inodes s !! i)
  ∧ (no_faults → directory s' = directory s).
Proof.
  intros (Hf & Hres & Hmax & Hth) H Hr.
  apply spool_loop_spec with (s0 := s) (acc := []) in H as (_ & E & _);
    [| unfold u64_max in *; lia | done | by apply session_start |].
  - destruct (E Hr) as (? & ? & ? & ? & ?). done.
  - split_and!; try done. symmetry. apply Z.leb_le. by rewrite len_nil.
Qed.

(** ** Many writers and readers of one spool

    Callers own writers and backings; each step is one call of one of them.  A
    writer whose [push] or [finish] fails is dropped, as both callers do. *)
Record system := mkSystem {
  sys_spool : ContentSpool;
  sys_writers : gmap nat ContentSpoolWriter;
  sys_backings : gmap nat ContentBacking;
}.

Inductive spool_step : system → system → Prop :=
  | step_writer s ws bs id :
      ws !! id = None → spool_step (mkSystem s ws bs) (mkSystem s (<[id := writer_new]> ws) bs)
  | step_push s ws bs id w chunk w' s' :
      ws !! id = Some w → push chunk (w, s) = (Ok tt, (w', s')) →
      spool_step (mkSystem s ws bs) (mkSystem s' (<[id := w']> ws) bs)
  | step_push_fail s ws bs id w chunk e w' s' :
      ws !! id = Some w → push chunk (w, s) = (Err e, (w', s')) →
      spool_step (mkSystem s ws bs) (mkSystem (ContentSpoolWriter_drop w' s').2 (delete id ws) bs)
  | step_abandon s ws bs id w :
      ws !! id = Some w →
      spool_step (mkSystem s ws bs) (mkSystem (ContentSpoolWriter_drop w s).2 (delete id ws) bs)
  | step_finish s ws bs id w bid b s' :
      ws !! id = Some w → bs !! bid = None → finish w s = (Ok b, s') →
      spool_step (mkSystem s ws bs) (mkSystem s' (delete id ws) (<[bid := b]> bs))
  | step_finish_fail s ws bs id w e s' :
      ws !! id = Some w → finish w s = (Err e, s') →
      spool_step (mkSystem s ws bs) (mkSystem s' (delete id ws) bs)
  | step_memory s ws bs bytes bid b s' :
      bs !! bid = None → spool_memory bytes s = (Ok b, s') →
      spool_step (mkSystem s ws bs) (mkSystem s' ws (<[bid := b]> bs))
  | step_clone s ws bs bid b bid' b' s' :
      bs !! bid = Some b → bs !! bid' = None → backing_clone b s = (Ok b', s') →
      spool_step (mkSystem s ws bs) (mkSystem s' ws (<[bid' := b']> bs))
  | step_drop s ws bs bid b :
      bs !! bid = Some b →
      spool_step (mkSystem s ws bs) (mkSystem (backing_drop b s).2 ws (delete bid bs))
  | step_read s ws bs bid b offset size :
      bs !! bid = Some b → 0 ≤ offset → 0 ≤ size →
      spool_step (mkSystem s ws bs) (mkSystem (read_at b offset size s).2 ws bs).

(** Who a file belongs to. *)
Inductive owner := OwnWriter (id : nat) | OwnLease (id : nat).

#[export] Instance owner_eq_dec : EqDecision owner.
Proof. solve_decision. Defined.

Definition owner_path (sys : system) (o : owner) : option PathBuf :=
  match o with
  | OwnWriter id => sys_writers sys !! id ≫= own_path
  | OwnLease id => leases (sys_spool sys) !! id ≫= (fun '(l, _) => lease_path l)
  end.

Definition refers (id : nat) (b : ContentBacking) : Z :=
  if bool_decide (backing_lease b = Some id) then 1 else 0.

Definition lease_size (ln : ContentLease * nat) : Z := lease_bytes ln.1.

Record system_inv (sys : system) : Prop := {
  inv_files : files_ok (sys_spool sys);
  inv_limits : max_total_bytes (limits (sys_spool sys)) ≤ u64_max;
  inv_account : reserved_bytes (sys_spool sys)
    = map_sum writer_reserved (sys_writers sys) + map_sum lease_size (leases (sys_spool sys));
  inv_bound : reserved_bytes (sys_spool sys) ≤ max_total_bytes (limits (sys_spool sys));
  inv_writers id w : sys_writers sys !! id = Some w →
    0 ≤ writer_reserved w ∧ temp_ok (sys_spool sys) w ∧ writer_finished w = false;
  inv_leases id l n : leases (sys_spool sys) !! id = Some (l, n) → 0 ≤ lease_bytes l ∧ (0 < n)%nat;
  inv_refs id : map_sum (refers id) (sys_backings sys)
    = match leases (sys_spool sys) !! id with Some (_, n) => Z.of_nat n | None => 0 end;
  inv_backings bid b : sys_backings sys !! bid = Some b → ∃ id l n,
    backing_lease b = Some id ∧ leases (sys_spool sys) !! id = Some (l, n) ∧ lease_path l = spool_path b
    ∧ lease_bytes l = backing_len b
    ∧ match b with SpoolFile p i _ _ => directory (sys_spool sys) !! p = Some i | _ => True end;
  inv_named o p : owner_path sys o = Some p → is_Some (directory (sys_spool sys) !! p);
  inv_own o1 o2 p : owner_path sys o1 = Some p → owner_path sys o2 = Some p → o1 = o2;
  inv_clean p : no_faults → is_Some (directory (sys_spool sys) !! p) → ∃ o, owner_path sys o = Some p;
}.

Lemma removed_other path d d' q : removed path d d' → path ≠ Some q → d' !! q = d !! q.
Proof.
  unfold removed. destruct path as [p|]; [| by intros ->]. intros [-> | [-> _]] Hne; [| done].
  apply lookup_delete_ne. congruence.
Qed.
Lemma removed_sub path d d' q i : removed path d d' → d' !! q = Some i → d !! q = Some i.
Proof.
  unfold removed. destruct path as [p|]; [| by intros ->]. intros [-> | [-> _]] H; [| done].
  by apply lookup_delete_Some in H as [_ ?].
Qed.
Lemma removed_gone q d d' : removed (Some q) d d' → no_faults → d' !! q = None.
Proof. intros [-> | [_ ?]] Hn; [apply lookup_delete_eq | done]. Qed.

Lemma released_files n path s s' : released n path s s' → files_ok s → files_ok s'.
Proof.
  intros [R1 R2 R3 R4 R5] Hf p i Hp. rewrite R3. pose proof (removed_sub _ _ _ _ _ R2 Hp) as Hp'.
  destruct (Hf p i Hp') as [Hi Hu]. split; [done |]. intros q Hq. apply Hu. by eapply removed_sub.
Qed.

Section preservation.
Variables (s : ContentSpool) (ws : gmap nat ContentSpoolWriter) (bs : gmap nat ContentBacking).
Hypothesis Hinv : system_inv (mkSystem s ws bs).

Lemma writer_le id w : ws !! id = Some w → 0 ≤ writer_reserved w ≤ reserved_bytes s.
Proof.
  intros Hw. destruct Hinv as [_ _ Ha _ Hws Hls _ _ _ _ _]. cbn in *.
  destruct (Hws id w Hw) as (H0 & _).
  assert (writer_reserved w ≤ map_sum writer_reserved ws).
  { eapply map_sum_ge; [| done]. intros i x Hx. by apply (Hws i x). }
  assert (0 ≤ map_sum lease_size (leases s)); [| lia].
  apply map_sum_nonneg. intros i [l n] Hl. by apply (Hls i l n).
Qed.

Lemma lease_le id l n : leases s !! id = Some (l, n) → 0 ≤ lease_bytes l ≤ reserved_bytes s.
Proof.
  intros Hl. destruct Hinv as [_ _ Ha _ Hws Hls _ _ _ _ _]. cbn in *.
  destruct (Hls id l n Hl) as (H0 & _).
  assert (lease_bytes l ≤ map_sum lease_size (leases s)).
  { eapply (map_sum_ge lease_size _ id (l, n)); [| done]. intros i [x k] Hx. by apply (Hls i x k). }
  assert (0 ≤ map_sum writer_reserved ws); [| lia].
  apply map_sum_nonneg. intros i x Hx. by apply (Hws i x).
Qed.

Lemma reserved_u64 : 0 ≤ reserved_bytes s < 2 ^ 64.
Proof.
  destruct Hinv as [_ Hm Ha Hb Hws Hls _ _ _ _ _]. cbn in *. unfold u64_max in *.
  assert (0 ≤ map_sum writer_reserved ws) by (apply map_sum_nonneg; intros i x Hx; by apply (Hws i x)).
  assert (0 ≤ map_sum lease_size (leases s)); [| lia].
  apply map_sum_nonneg. intros i [l n] Hl. by apply (Hls i l n).
Qed.

Lemma inv_same s' : same_files s s' → system_inv (mkSystem s' ws bs).
Proof.
  intros (_ & E1 & E2 & E3 & E4 & E5). destruct Hinv as [I1 I2 I3 I4 I5 I6 I7 I8 I9 I10 I11].
  unfold owner_path in *. cbn in *.
  split; unfold files_ok, temp_ok, owner_path in *; cbn; rewrite ?E1, ?E2, ?E3, ?E4, ?E5; done.
Qed.

(** The paths of other owners are not the writer's. *)
Lemma own_other id w o p :
  ws !! id = Some w → owner_path (mkSystem s ws bs) o = Some p → o ≠ OwnWriter id → own_path w ≠ Some p.
Proof.
  intros Hw Ho Hne Hp. apply Hne. eapply (inv_own _ Hinv); [done |]. cbn. by rewrite Hw.
Qed.

Lemma inv_push id w chunk r w' s' :
  ws !! id = Some w → push chunk (w, s) = (r, (w', s')) → system_inv (mkSystem s' (<[id := w']> ws) bs).
Proof.
  intros Hw Hp. pose proof reserved_u64 as H64. pose proof (writer_le _ _ Hw) as Hwle. pose proof own_other as Hother.
  destruct Hinv as [I1 I2 I3 I4 I5 I6 I7 I8 I9 I10 I11]. destruct (I5 id w Hw) as (W1 & W2 & W3). cbn in *.
  destruct (push_spec _ _ _ _ _ _ Hp I1 W2) as [[[G1 G2 G3 G4 G5 G6] Wt Wc Wf Wcl] Pa Pr _ _ _].
  pose proof (len_nonneg chunk) as H0.
  assert (∀ o p, owner_path (mkSystem s' (<[id := w']> ws) bs) o = Some p →
            owner_path (mkSystem s ws bs) o = Some p
            ∨ o = OwnWriter id ∧ directory s !! p = None ∧ is_Some (directory s' !! p)) as Howner.
  { intros [j|j] p; cbn; [| rewrite G6; auto]. destruct (decide (j = id)) as [->|Hne].
    - rewrite lookup_insert_eq, Hw. cbn. destruct Wc as [Heq | (Hn & q & i & Heq & Hq & Hi)].
      + unfold own_path. rewrite Heq. auto.
      + unfold own_path. rewrite Heq. intros [= <-]. right. split_and!; [done | done |].
        unfold temp_ok in Wt. rewrite Heq in Wt. destruct Wt as [-> _]. eauto.
    - rewrite lookup_insert_ne by done. auto. }
  split; cbn.
  - by apply G4.
  - by rewrite G5.
  - rewrite G6, (map_sum_insert _ _ id w) by done. lia.
  - rewrite G5. destruct Pr as [[? _] | (? & ? & ?)]; lia.
  - intros j x Hx. destruct (decide (j = id)) as [->|Hne].
    + rewrite lookup_insert_eq in Hx. injection Hx as <-. split_and!; [| done | congruence].
      destruct Pr as [[-> _] | (-> & _)]; lia.
    + rewrite lookup_insert_ne in Hx by done. destruct (I5 j x Hx) as (X1 & X2 & X3). split_and!; try done.
      unfold temp_ok in *. destruct (writer_temporary x) as [[q i]|]; [| done]. destruct X2. split; [by apply G3 | done].
  - rewrite G6. apply I6.
  - intros j. rewrite G6. apply I7.
  - intros bid b Hb. destruct (I8 bid b Hb) as (j & l & n & B1 & B2 & B3 & B4 & B5).
    exists j, l, n. rewrite G6. split_and!; try done. destruct b; [done.. | by apply G3].
  - intros o p Ho. destruct (Howner o p Ho) as [Ho'|(_ & _ & ?)]; [| done].
    destruct (I9 o p Ho') as [i Hi]. exists i. by apply G3.
  - intros o1 o2 p H1 H2. destruct (Howner o1 p H1) as [H1'|(-> & D1 & _)], (Howner o2 p H2) as [H2'|(-> & D2 & _)].
    + by eapply I10.
    + destruct (I9 _ _ H1') as [? ?]. congruence.
    + destruct (I9 _ _ H2') as [? ?]. congruence.
    + done.
  - intros p Hn Hs. destruct (Wcl Hn p Hs) as [Hs'|Hown].
    + destruct (I11 p Hn Hs') as [o Ho]. exists o. destruct o as [j|j]; cbn in *; [| by rewrite G6].
      destruct (decide (j = id)) as [->|Hne]; [| by rewrite lookup_insert_ne].
      rewrite Hw in Ho. cbn in Ho. rewrite lookup_insert_eq. cbn. unfold own_path in *.
      destruct Wc as [-> | (Hnone & _)]; [done | by rewrite Hnone in Ho].
    + exists (OwnWriter id). cbn. by rewrite lookup_insert_eq.
Qed.

Lemma inv_release_writer id w s' :
  ws !! id = Some w → released (writer_reserved w) (own_path w) s s' →
  system_inv (mkSystem s' (delete id ws) bs).
Proof.
  intros Hw Hr. pose proof reserved_u64 as H64. pose proof (writer_le _ _ Hw) as Hwle.
  pose proof (fun o p => own_other id w o p Hw) as Hother.
  pose proof (released_files _ _ _ _ Hr) as Hrf.
  destruct Hinv as [I1 I2 I3 I4 I5 I6 I7 I8 I9 I10 I11], Hr as [R1 R2 R3 R4 R5]. cbn in *.
  assert (∀ o p, owner_path (mkSystem s' (delete id ws) bs) o = Some p →
            owner_path (mkSystem s ws bs) o = Some p ∧ o ≠ OwnWriter id) as Howner.
  { intros [j|j] p; cbn; [| by rewrite R5]. destruct (decide (j = id)) as [->|Hne].
    - by rewrite lookup_delete_eq.
    - rewrite lookup_delete_ne by done. split; [done | congruence]. }
  rewrite Z.mod_small in R1 by lia.
  split; cbn; rewrite ?R4, ?R5.
  - by apply Hrf.
  - done.
  - rewrite R1, I3, (map_sum_delete _ ws id w) by done. lia.
  - lia.
  - intros j x [Hne Hx]%lookup_delete_Some. destruct (I5 j x Hx) as (X1 & X2 & X3). split_and!; try done.
    unfold temp_ok in *. destruct (writer_temporary x) as [[q i]|] eqn:E; [| done]. split; [| by apply X2].
    erewrite removed_other; [by apply X2 | done |]. apply (Hother (OwnWriter j)); [| congruence].
    cbn. rewrite Hx. cbn. unfold own_path. by rewrite E.
  - apply I6.
  - done.
  - intros bid b Hb. destruct (I8 bid b Hb) as (j & l & n & B1 & B2 & B3 & B4 & B5).
    exists j, l, n. split_and!; try done. destruct b as [| |p i c k]; [done.. |].
    erewrite removed_other; [done | done |]. apply (Hother (OwnLease j)); [| done]. cbn. by rewrite B2.
  - intros o p [Ho Hne]%Howner. erewrite removed_other; [by eapply I9 | done | by eapply Hother].
  - intros o1 o2 p [H1 _]%Howner [H2 _]%Howner. by eapply I10.
  - intros p Hn [i Hi]. destruct (I11 p Hn) as [o Ho]; [by eapply removed_sub in Hi; eauto |].
    exists o. destruct o as [j|j]; cbn in *; [| by rewrite R5].
    destruct (decide (j = id)) as [->|Hne]; [| by rewrite lookup_delete_ne].
    rewrite Hw in Ho. cbn in Ho. rewrite Ho in R2. rewrite (removed_gone _ _ _ R2 Hn) in Hi. done.
Qed.

Lemma inv_writer_new id : ws !! id = None → system_inv (mkSystem s (<[id := writer_new]> ws) bs).
Proof.
  intros Hid. destruct Hinv as [I1 I2 I3 I4 I5 I6 I7 I8 I9 I10 I11]. cbn in *.
  assert (∀ o, owner_path (mkSystem s (<[id := writer_new]> ws) bs) o = owner_path (mkSystem s ws bs) o) as Howner.
  { intros [j|j]; cbn; [| done]. destruct (decide (j = id)) as [->|Hne].
    - by rewrite lookup_insert_eq, Hid.
    - by rewrite lookup_insert_ne. }
  split; cbn; try done.
  - rewrite map_sum_insert_new by done. cbn. lia.
  - intros j x [[<- <-]|[Hne Hx]]%lookup_insert_Some; [done | by apply (I5 j)].
  - intros o p. rewrite Howner. apply I9.
  - intros o1 o2 p. rewrite !Howner. apply I10.
  - intros p Hn Hs. destruct (I11 p Hn Hs) as [o Ho]. exists o. by rewrite Howner.
Qed.

(** The reference counts when a backing with a new lease is added. *)
Lemma refs_new bid b lid l :
  bs !! bid = None → backing_lease b = Some lid → leases s !! lid = None →
  ∀ id, map_sum (refers id) (<[bid := b]> bs)
        = match <[lid := (l, 1%nat)]> (leases s) !! id with Some (_, n) => Z.of_nat n | None => 0 end.
Proof.
  intros Hb Hlb Hl id. rewrite map_sum_insert_new, (inv_refs _ Hinv) by done. cbn.
  unfold refers. rewrite Hlb. destruct (decide (id = lid)) as [->|Hne].
  - by rewrite bool_decide_eq_true_2, lookup_insert_eq, Hl.
  - rewrite bool_decide_eq_false_2, lookup_insert_ne by congruence. done.
Qed.

Lemma inv_finish id w bid lid s' :
  ws !! id = Some w → bs !! bid = None → leases s !! lid = None → same_store s s' →
  leases s' = <[lid := (lease_of w, 1%nat)]> (leases s) →
  backing_len (backing_of w lid) = writer_reserved w →
  system_inv (mkSystem s' (delete id ws) (<[bid := backing_of w lid]> bs)).
Proof.
  intros Hw Hbid Hlid (E1 & E2 & E3 & E4) El Hlen.
  assert (backing_lease (backing_of w lid) = Some lid) as Hbl
    by (unfold backing_of; by destruct (writer_temporary w) as [[]|]).
  pose proof (refs_new bid (backing_of w lid) lid (lease_of w) Hbid Hbl Hlid) as Hrefs.
  pose proof (writer_le _ _ Hw) as Hwle.
  destruct Hinv as [I1 I2 I3 I4 I5 I6 I7 I8 I9 I10 I11]. destruct (I5 id w Hw) as (W1 & W2 & W3). cbn in *.
  assert (∀ o p, owner_path (mkSystem s' (delete id ws) (<[bid := backing_of w lid]> bs)) o = Some p →
    owner_path (mkSystem s ws bs) o = Some p ∧ o ≠ OwnWriter id
    ∨ o = OwnLease lid ∧ owner_path (mkSystem s ws bs) (OwnWriter id) = Some p) as Howner.
  { intros [j|j] p; cbn; [| rewrite El].
    - intros H. left. destruct (decide (j = id)) as [->|Hne]; [by rewrite lookup_delete_eq in H |].
      rewrite lookup_delete_ne in H by done. split; [done | congruence].
    - destruct (decide (j = lid)) as [->|Hne].
      + rewrite lookup_insert_eq, Hw. cbn. auto.
      + rewrite lookup_insert_ne by done. left. split; [done | congruence]. }
  split; cbn; rewrite ?E1, ?E2, ?E3, ?E4, ?El; try done.
  - unfold files_ok. rewrite E3, E4. apply I1.
  - rewrite I3, (map_sum_delete _ ws id w), map_sum_insert_new by done. cbn. lia.
  - intros j x [Hne Hx]%lookup_delete_Some. destruct (I5 j x Hx) as (? & ? & ?). unfold temp_ok. by rewrite E3.
  - intros j l n [[<- [= <- <-]]|[Hne Hx]]%lookup_insert_Some; [cbn; lia | by apply (I6 j)].
  - intros c b [[<- <-]|[Hne Hb]]%lookup_insert_Some.
    + exists lid, (lease_of w), 1%nat. rewrite lookup_insert_eq. split_and!; try done.
      * unfold lease_of, backing_of, own_path. by destruct (writer_temporary w) as [[]|].
      * unfold backing_of. unfold temp_ok in W2. destruct (writer_temporary w) as [[]|]; [by apply W2 | done].
    + destruct (I8 c b Hb) as (k & l & n & B1 & B2 & B3 & B4 & B5). exists k, l, n.
      rewrite lookup_insert_ne by congruence. done.
  - intros o p [[Ho _]|[_ Ho]]%Howner; by eapply I9.
  - intros o1 o2 p [[H1 N1]|[-> H1]]%Howner [[H2 N2]|[-> H2]]%Howner; [by eapply I10 | | | done].
    + destruct N1. by eapply I10.
    + destruct N2. by eapply I10.
  - intros p Hn Hs. destruct (I11 p Hn Hs) as [o Ho]. destruct (decide (o = OwnWriter id)) as [->|Hne].
    + exists (OwnLease lid). cbn in *. rewrite El, lookup_insert_eq. by rewrite Hw in Ho.
    + exists o. destruct o as [j|j]; cbn in *.
      * rewrite lookup_delete_ne by congruence. done.
      * rewrite El, lookup_insert_ne; [done |]. intros <-. by rewrite Hlid in Ho.
Qed.

Lemma inv_memory bytes bid lid s' :
  bs !! bid = None → leases s !! lid = None →
  limits s' = limits s → reserved_bytes s' = reserved_bytes s + len bytes →
  reserved_bytes s' ≤ max_total_bytes (limits s) → directory s' = directory s → inodes s' = inodes s →
  leases s' = <[lid := ({| lease_bytes := len bytes; lease_path := None |}, 1%nat)]> (leases s) →
  system_inv (mkSystem s' ws (<[bid := Memory bytes lid]> bs)).
Proof.
  intros Hbid Hlid E1 E2 Hle E3 E4 El.
  set (lease := {| lease_bytes := len bytes; lease_path := None |}) in *.
  pose proof (refs_new bid (Memory bytes lid) lid lease Hbid eq_refl Hlid) as Hrefs.
  destruct Hinv as [I1 I2 I3 I4 I5 I6 I7 I8 I9 I10 I11]. cbn in *.
  assert (∀ o, owner_path (mkSystem s' ws (<[bid := Memory bytes lid]> bs)) o
               = owner_path (mkSystem s ws bs) o) as Howner.
  { intros [j|j]; cbn; [done |]. rewrite El. destruct (decide (j = lid)) as [->|Hne].
    - by rewrite lookup_insert_eq, Hlid.
    - by rewrite lookup_insert_ne. }
  split; cbn; rewrite ?E1, ?E3, ?E4, ?El; try done.
  - unfold files_ok. rewrite E3, E4. apply I1.
  - rewrite E2, I3, map_sum_insert_new by done. cbn. lia.
  - intros j x Hx. destruct (I5 j x Hx) as (? & ? & ?). unfold temp_ok. by rewrite E3.
  - intros j l n [[<- [= <- <-]]|[Hne Hx]]%lookup_insert_Some; [| by apply (I6 j)].
    split; [apply len_nonneg | lia].
  - intros c b [[<- <-]|[Hne Hb]]%lookup_insert_Some.
    + exists lid, lease, 1%nat. by rewrite lookup_insert_eq.
    + destruct (I8 c b Hb) as (k & l & n & B1 & B2 & B3 & B4 & B5). exists k, l, n.
      rewrite lookup_insert_ne by congruence. done.
  - intros o p. rewrite Howner. apply I9.
  - intros o1 o2 p. rewrite !Howner. apply I10.
  - intros p Hn Hs. destruct (I11 p Hn Hs) as [o Ho]. exists o. by rewrite Howner.
Qed.

(** One more or one fewer reference to a lease that stays. *)
Lemma inv_recount bs' lid l n k :
  leases s !! lid = Some (l, n) → (0 < k)%nat →
  (∀ id, map_sum (refers id) bs'
         = map_sum (refers id) bs + (if decide (id = lid) then Z.of_nat k - Z.of_nat n else 0)) →
  (∀ bid b, bs' !! bid = Some b → ∃ bid', bs !! bid' = Some b) →
  system_inv (mkSystem (set_leases (<[lid := (l, k)]> (leases s)) s) ws bs').
Proof.
  intros Hl Hk Hrefs Hsub. destruct Hinv as [I1 I2 I3 I4 I5 I6 I7 I8 I9 I10 I11]. cbn in *.
  set (s' := set_leases _ s).
  assert (∀ o, owner_path (mkSystem s' ws bs') o = owner_path (mkSystem s ws bs) o) as Howner.
  { intros [j|j]; cbn; [done |]. destruct (decide (j = lid)) as [->|Hne].
    - by rewrite lookup_insert_eq, Hl.
    - by rewrite lookup_insert_ne. }
  split; cbn; try done.
  - rewrite I3, (map_sum_insert _ _ lid (l, n)) by done. unfold lease_size at 3 4. cbn. lia.
  - intros j l' n' [[<- [= <- <-]]|[Hne Hx]]%lookup_insert_Some; [| by apply (I6 j l' n')].
    split; [by apply (I6 lid l n) | done].
  - intros id. rewrite Hrefs, I7. case_decide as Hd.
    + subst id. rewrite lookup_insert_eq, Hl. lia.
    + rewrite lookup_insert_ne by done. lia.
  - intros c b Hb. destruct (Hsub c b Hb) as [c' Hc].
    destruct (I8 c' b Hc) as (j & l' & n' & B1 & B2 & B3 & B4 & B5).
    destruct (decide (j = lid)) as [->|Hne].
    + exists lid, l, k. rewrite lookup_insert_eq. rewrite Hl in B2. by injection B2 as <- <-.
    + exists j, l', n'. by rewrite lookup_insert_ne.
  - intros o p. rewrite Howner. apply I9.
  - intros o1 o2 p. rewrite !Howner. apply I10.
  - intros p Hn Hs. destruct (I11 p Hn Hs) as [o Ho]. exists o. by rewrite Howner.
Qed.

Lemma refers_nonneg id (m : gmap nat ContentBacking) : map_Forall (fun _ b => 0 ≤ refers id b) m.
Proof. intros i b _. unfold refers. case_bool_decide; lia. Qed.

(** The last reference goes, and with it the lease. *)
Lemma inv_last bid b lid l s' :
  bs !! bid = Some b → backing_lease b = Some lid → leases s !! lid = Some (l, 1%nat) →
  released (lease_bytes l) (lease_path l) (set_leases (delete lid (leases s)) s) s' →
  system_inv (mkSystem s' ws (delete bid bs)).
Proof.
  intros Hb Hbl Hl Hr. pose proof reserved_u64 as H64. pose proof (lease_le _ _ _ Hl) as Hle.
  pose proof (released_files _ _ _ _ Hr) as Hrf.
  destruct Hinv as [I1 I2 I3 I4 I5 I6 I7 I8 I9 I10 I11], Hr as [R1 R2 R3 R4 R5]. cbn in *.
  rewrite Z.mod_small in R1 by lia.
  assert (∀ o p, owner_path (mkSystem s' ws (delete bid bs)) o = Some p →
    owner_path (mkSystem s ws bs) o = Some p ∧ lease_path l ≠ Some p) as Howner.
  { intros o p Ho. assert (owner_path (mkSystem s ws bs) o = Some p ∧ o ≠ OwnLease lid) as [H1 H2].
    { destruct o as [j|j]; cbn in *; [done |]. rewrite R5 in Ho.
      destruct (decide (j = lid)) as [->|Hne]; [by rewrite lookup_delete_eq in Ho |].
      rewrite lookup_delete_ne in Ho by done. split; [done | congruence]. }
    split; [done |]. intros Hp. apply H2. eapply I10; [done |]. cbn. by rewrite Hl. }
  assert (map_sum (refers lid) (delete bid bs) = 0) as Hzero.
  { pose proof (I7 lid) as Href. rewrite Hl, (map_sum_delete _ bs bid b) in Href by done.
    unfold refers at 1 in Href. rewrite bool_decide_eq_true_2 in Href by done. lia. }
  split; cbn; rewrite ?R4, ?R5.
  - by apply Hrf.
  - done.
  - rewrite R1, I3, (map_sum_delete _ (leases s) lid (l, 1%nat)) by done. unfold lease_size at 1. cbn. lia.
  - lia.
  - intros j x Hx. destruct (I5 j x Hx) as (X1 & X2 & X3). split_and!; try done.
    unfold temp_ok in *. destruct (writer_temporary x) as [[q i]|] eqn:E; [| done]. split; [| by apply X2].
    erewrite removed_other; [by apply X2 | done |]. apply (Howner (OwnWriter j)). cbn. rewrite Hx. cbn.
    unfold own_path. by rewrite E.
  - intros j l' n' [_ Hx]%lookup_delete_Some. by apply (I6 j l' n').
  - intros id. destruct (decide (id = lid)) as [->|Hne]; [by rewrite lookup_delete_eq |].
    rewrite lookup_delete_ne, <- I7, (map_sum_delete _ bs bid b) by done. unfold refers at 2.
    rewrite bool_decide_eq_false_2 by congruence. lia.
  - intros c x Hx. pose proof Hx as [Hne Hx']%lookup_delete_Some.
    destruct (I8 c x Hx') as (j & l' & n' & B1 & B2 & B3 & B4 & B5).
    assert (j ≠ lid) as Hj.
    { intros ->. pose proof (map_sum_ge (refers lid) _ c x (refers_nonneg lid _) Hx) as Hge.
      unfold refers at 1 in Hge. rewrite bool_decide_eq_true_2 in Hge by done. lia. }
    exists j, l', n'. rewrite lookup_delete_ne by done. split_and!; try done.
    destruct x as [| |p i z k]; [done.. |]. erewrite removed_other; [done | done |].
    apply (Howner (OwnLease j)). cbn. rewrite R5, lookup_delete_ne by done. by rewrite B2.
  - intros o p [Ho Hne]%Howner. erewrite removed_other; [by eapply I9 | done | done].
  - intros o1 o2 p [H1 _]%Howner [H2 _]%Howner. by eapply I10.
  - intros p Hn [i Hi]. destruct (I11 p Hn) as [o Ho]; [by eapply removed_sub in Hi; eauto |].
    exists o. destruct o as [j|j]; cbn in *; [done |]. rewrite R5.
    destruct (decide (j = lid)) as [->|Hne]; [| by rewrite lookup_delete_ne].
    rewrite Hl in Ho. cbn in Ho. rewrite Ho in R2. rewrite (removed_gone _ _ _ R2 Hn) in Hi. done.
Qed.

(** Content a call of the writer [id] does not touch. *)
Definition kept (own : option nat) (s s' : ContentSpool) : Prop :=
  ∀ p i, directory s !! p = Some i → own ≠ Some i → inodes s' !! i = inodes s !! i.

Lemma grows_kept own s1 : grows own s s1 → kept own s s1.
Proof.
  intros Hg p i Hp Hne. apply (grows_inodes _ _ _ Hg); [| done]. by apply (inv_files _ Hinv p i).
Qed.

Lemma frame_file id w o p i s' :
  ws !! id = Some w → kept (own_file w) s s' → owner_path (mkSystem s ws bs) o = Some p →
  o ≠ OwnWriter id → directory s !! p = Some i → inode_content s' i = inode_content s i.
Proof.
  intros Hw Hk Ho Hne Hp. unfold inode_content. rewrite (Hk p i); [done | done |].
  unfold own_file. intros Hown. destruct (writer_temporary w) as [[q k]|] eqn:E; [| done]. injection Hown as ->.
  destruct (inv_writers _ Hinv id w Hw) as (_ & Ht & _). unfold temp_ok in Ht. rewrite E in Ht.
  assert (q = p) as -> by (apply (proj2 (inv_files _ Hinv p i Hp)); apply Ht).
  apply (own_other id w o p); [done.. |]. unfold own_path. by rewrite E.
Qed.

Lemma frame_writer id w j x s' :
  ws !! id = Some w → kept (own_file w) s s' → ws !! j = Some x → j ≠ id →
  writer_content s' x = writer_content s x.
Proof.
  intros Hw Hk Hx Hne. destruct (inv_writers _ Hinv j x Hx) as (_ & Ht & _). unfold writer_content, temp_ok in *.
  destruct (writer_temporary x) as [[p i]|] eqn:E; [| done].
  apply (frame_file id w (OwnWriter j) p); [done | done | | congruence | by apply Ht].
  cbn. rewrite Hx. cbn. unfold own_path. by rewrite E.
Qed.

Lemma frame_backing id w bid b s' :
  ws !! id = Some w → kept (own_file w) s s' → bs !! bid = Some b → content s' b = content s b.
Proof.
  intros Hw Hk Hb. destruct (inv_backings _ Hinv bid b Hb) as (j & l & n & B1 & B2 & B3 & B4 & B5).
  destruct b as [| |p i z k]; [done.. |]. cbn in *.
  f_equal. apply (frame_file id w (OwnLease j) p); [done | done | | done | done]. cbn. by rewrite B2.
Qed.
End preservation.

Lemma same_inodes_content s s' : inodes s' = inodes s →
  (∀ w, writer_content s' w = writer_content s w) ∧ (∀ b, content s' b = content s b).
Proof.
  intros Hi. unfold writer_content, content, inode_content. rewrite Hi. done.
Qed.

(** ** The abstract store

    A set of growing byte strings and a set of published ones; nothing else. *)
Record store := mkStore { st_writers : gmap nat (list byte); st_contents : gmap nat (list byte) }.

Inductive store_step (max : Z) : store → store → Prop :=
  | st_open ws cs id : ws !! id = None → store_step max (mkStore ws cs) (mkStore (<[id := []]> ws) cs)
  | st_append ws cs id c chunk : ws !! id = Some c → len (c ++ chunk) ≤ max →
      store_step max (mkStore ws cs) (mkStore (<[id := c ++ chunk]> ws) cs)
  | st_abort ws cs id c : ws !! id = Some c → store_step max (mkStore ws cs) (mkStore (delete id ws) cs)
  | st_publish ws cs id c bid : ws !! id = Some c → cs !! bid = None →
      store_step max (mkStore ws cs) (mkStore (delete id ws) (<[bid := c]> cs))
  | st_put ws cs bid c : cs !! bid = None → len c ≤ max →
      store_step max (mkStore ws cs) (mkStore ws (<[bid := c]> cs))
  | st_copy ws cs bid c bid' : cs !! bid = Some c → cs !! bid' = None →
      store_step max (mkStore ws cs) (mkStore ws (<[bid' := c]> cs))
  | st_forget ws cs bid c : cs !! bid = Some c → store_step max (mkStore ws cs) (mkStore ws (delete bid cs))
  | st_read ws cs bid c : cs !! bid = Some c → store_step max (mkStore ws cs) (mkStore ws cs).

Definition abs (sys : system) : store :=
  mkStore (writer_content (sys_spool sys) <$> sys_writers sys) (content (sys_spool sys) <$> sys_backings sys).

Definition contents_ok (sys : system) : Prop :=
  (∀ id w, sys_writers sys !! id = Some w → writer_reserved w = len (writer_content (sys_spool sys) w))
  ∧ (∀ bid b, sys_backings sys !! bid = Some b → backing_len b = len (content (sys_spool sys) b)).

Definition simulated (sys sys' : system) : Prop :=
  system_inv sys' ∧ contents_ok sys' ∧ limits (sys_spool sys') = limits (sys_spool sys)
  ∧ store_step (max_single_bytes (limits (sys_spool sys))) (abs sys) (abs sys').

Lemma fmap_frame {A B} (f g : A → B) (m : gmap nat A) :
  (∀ id a, m !! id = Some a → f a = g a) → f <$> m = g <$> m.
Proof. intros H. apply map_fmap_ext. done. Qed.

(** Abandoning a writer in a state whose other content is that of [s0]. *)
Lemma simulated_abandon s0 s ws bs id w w0 s' :
  contents_ok (mkSystem s0 ws bs) → ws !! id = Some w0 →
  system_inv (mkSystem s (<[id := w]> ws) bs) → limits s = limits s0 →
  (∀ j x, ws !! j = Some x → j ≠ id → writer_content s x = writer_content s0 x) →
  (∀ bid b, bs !! bid = Some b → content s b = content s0 b) →
  released (writer_reserved w) (own_path w) s s' →
  simulated (mkSystem s0 ws bs) (mkSystem s' (delete id ws) bs).
Proof.
  intros [C1 C2] Hw Hinv Hlim Fw Fb Hr. cbn in *.
  destruct (same_inodes_content s s' (released_inodes _ _ _ _ Hr)) as [Ew Eb].
  split_and!.
  - rewrite <- (delete_insert_eq ws id w). eapply inv_release_writer; [done | by rewrite lookup_insert_eq | done].
  - split; cbn.
    + intros j x [Hne Hx]%lookup_delete_Some. rewrite Ew, (Fw j x) by done. by apply (C1 j).
    + intros bid b Hb. rewrite Eb, (Fb bid b) by done. by apply (C2 bid).
  - cbn. by rewrite (released_limits _ _ _ _ Hr).
  - unfold abs. cbn.
    rewrite (fmap_frame (content s') (content s0) bs) by (intros bid b Hb; by rewrite Eb, (Fb bid)).
    rewrite (fmap_frame (writer_content s') (writer_content s0) (delete id ws))
      by (intros j x [Hne Hx]%lookup_delete_Some; by rewrite Ew, (Fw j)).
    rewrite fmap_delete. eapply st_abort. by rewrite lookup_fmap, Hw.
Qed.

Lemma simulated_push s ws bs id w chunk w' s' :
  system_inv (mkSystem s ws bs) → contents_ok (mkSystem s ws bs) →
  ws !! id = Some w → push chunk (w, s) = (Ok tt, (w', s')) →
  simulated (mkSystem s ws bs) (mkSystem s' (<[id := w']> ws) bs).
Proof.
  intros Hinv [C1 C2] Hw Hp. cbn in *. pose proof (inv_push _ _ _ Hinv _ _ _ _ _ _ Hw Hp) as Hinv'.
  destruct (inv_writers _ Hinv id w Hw) as (W1 & W2 & W3).
  pose proof (push_spec _ _ _ _ _ _ Hp (inv_files _ Hinv) W2) as [[G _ _ _ _] Pa Pr _ Pc _].
  destruct (Pc eq_refl) as (Pc1 & _). destruct Pr as [[_ ?] | (Pr1 & Pr2 & Pr3)]; [done |].
  pose proof (grows_kept _ _ _ Hinv _ _ G) as Hk.
  assert (∀ j x, ws !! j = Some x → j ≠ id → writer_content s' x = writer_content s x) as Fw
    by (intros; by eapply (frame_writer s ws bs Hinv id w)).
  assert (∀ bid b, bs !! bid = Some b → content s' b = content s b) as Fb
    by (intros; by eapply (frame_backing s ws bs Hinv id w)).
  assert (writer_reserved w' = len (writer_content s' w')) as Hlen
    by (rewrite Pc1, len_app, <- (C1 id w Hw); lia).
  split_and!; [done | | by apply (grows_limits _ _ _ G) |].
  - split; cbn.
    + intros j x [[<- <-]|[Hne Hx]]%lookup_insert_Some; [done |]. rewrite (Fw j x) by done. by apply (C1 j).
    + intros bid b Hb. rewrite (Fb bid b) by done. by apply (C2 bid).
  - unfold abs. cbn. rewrite (fmap_frame (content s') (content s) bs) by (intros bid b Hb; by rewrite (Fb bid)).
    replace (writer_content s' <$> <[id := w']> ws)
      with (<[id := writer_content s w ++ chunk]> (writer_content s <$> ws)).
    + apply st_append; [by rewrite lookup_fmap, Hw |]. rewrite <- Pc1, <- Hlen. done.
    + apply map_eq. intros j. rewrite lookup_fmap. destruct (decide (j = id)) as [->|Hne].
      * rewrite !lookup_insert_eq. cbn. by rewrite Pc1.
      * rewrite !lookup_insert_ne, lookup_fmap by done. destruct (ws !! j) as [x|] eqn:E; [| done]. cbn.
        by rewrite (Fw j x).
Qed.

Lemma simulated_push_fail s ws bs id w chunk e w' s' :
  system_inv (mkSystem s ws bs) → contents_ok (mkSystem s ws bs) →
  ws !! id = Some w → push chunk (w, s) = (Err e, (w', s')) →
  simulated (mkSystem s ws bs) (mkSystem (ContentSpoolWriter_drop w' s').2 (delete id ws) bs).
Proof.
  intros Hinv C Hw Hp. pose proof (inv_push _ _ _ Hinv _ _ _ _ _ _ Hw Hp) as Hinv'.
  destruct (inv_writers _ Hinv id w Hw) as (W1 & W2 & W3).
  pose proof (push_spec _ _ _ _ _ _ Hp (inv_files _ Hinv) W2) as [[G _ _ F _] _ _ _ _ _].
  pose proof (grows_kept _ _ _ Hinv _ _ G) as Hk.
  destruct (ContentSpoolWriter_drop w' s') as [rd sd] eqn:Hd.
  apply ContentSpoolWriter_drop_spec in Hd as [_ Hd]; [| congruence].
  eapply simulated_abandon; [done | done | done | by apply (grows_limits _ _ _ G) | | | done].
  - intros; by eapply (frame_writer s ws bs Hinv id w).
  - intros; by eapply (frame_backing s ws bs Hinv id w).
Qed.

Lemma simulated_finish s ws bs id w bid b s' :
  system_inv (mkSystem s ws bs) → contents_ok (mkSystem s ws bs) →
  ws !! id = Some w → bs !! bid = None → finish w s = (Ok b, s') →
  simulated (mkSystem s ws bs) (mkSystem s' (delete id ws) (<[bid := b]> bs)).
Proof.
  intros Hinv [C1 C2] Hw Hbid Hf. cbn in *. destruct (inv_writers _ Hinv id w Hw) as (W1 & W2 & W3).
  apply writer_finish_spec in Hf as (_ & _ & [(lid & [= ->] & Hl & Hls & Hsame) | [? _]]); [| done | done].
  pose proof Hsame as (E1 & E2 & E3 & E4). destruct (same_inodes_content s s' E4) as [Ew Eb].
  assert (content s' (backing_of w lid) = writer_content s w) as Hc.
  { rewrite Eb. pose proof (C1 id w Hw) as Hlen. unfold writer_content in Hlen |- *. unfold backing_of.
    destruct (writer_temporary w) as [[p i]|]; cbn; [| done]. rewrite Hlen. unfold len. by rewrite Nat2Z.id, take_ge. }
  assert (backing_len (backing_of w lid) = writer_reserved w) as Hlen.
  { pose proof (C1 id w Hw) as Hlen. unfold writer_content in Hlen. unfold backing_of.
    destruct (writer_temporary w) as [[p i]|]; done. }
  split_and!; [by apply inv_finish with (s := s) | | done |].
  - split; cbn.
    + intros j x [Hne Hx]%lookup_delete_Some. rewrite Ew. by apply (C1 j).
    + intros c b [[<- <-]|[Hne Hb]]%lookup_insert_Some; [| rewrite Eb; by apply (C2 c)].
      by rewrite Hc, Hlen, (C1 id w).
  - unfold abs. cbn. rewrite fmap_insert, Hc, fmap_delete.
    rewrite (fmap_frame (content s') (content s) bs) by (intros; apply Eb).
    rewrite (fmap_frame (writer_content s') (writer_content s) ws) by (intros; apply Ew).
    apply st_publish; rewrite lookup_fmap; [by rewrite Hw | by rewrite Hbid].
Qed.

Lemma simulated_finish_fail s ws bs id w e s' :
  system_inv (mkSystem s ws bs) → contents_ok (mkSystem s ws bs) →
  ws !! id = Some w → finish w s = (Err e, s') →
  simulated (mkSystem s ws bs) (mkSystem s' (delete id ws) bs).
Proof.
  intros Hinv C Hw Hf. destruct (inv_writers _ Hinv id w Hw) as (W1 & W2 & W3).
  apply writer_finish_spec in Hf as (_ & _ & [(lid & ? & _) | [_ Hr]]); [done | | done].
  eapply simulated_abandon; [done | done | by rewrite insert_id | done..].
Qed.

Lemma simulated_abandon_step s ws bs id w :
  system_inv (mkSystem s ws bs) → contents_ok (mkSystem s ws bs) → ws !! id = Some w →
  simulated (mkSystem s ws bs) (mkSystem (ContentSpoolWriter_drop w s).2 (delete id ws) bs).
Proof.
  intros Hinv C Hw. destruct (inv_writers _ Hinv id w Hw) as (W1 & W2 & W3).
  destruct (ContentSpoolWriter_drop w s) as [rd sd] eqn:Hd.
  apply ContentSpoolWriter_drop_spec in Hd as [_ Hd]; [| done].
  eapply simulated_abandon; [done | done | by rewrite insert_id | done..].
Qed.

(** Steps that touch no file and no writer. *)
Lemma simulated_backings s ws bs s' bs' :
  contents_ok (mkSystem s ws bs) → system_inv (mkSystem s' ws bs') →
  inodes s' = inodes s → limits s' = limits s →
  (∀ bid b, bs' !! bid = Some b → backing_len b = len (content s b)) →
  store_step (max_single_bytes (limits s)) (abs (mkSystem s ws bs))
    (mkStore (writer_content s <$> ws) (content s <$> bs')) →
  simulated (mkSystem s ws bs) (mkSystem s' ws bs').
Proof.
  intros [C1 C2] Hinv' Hi Hl Hb Hst. destruct (same_inodes_content s s' Hi) as [Ew Eb].
  split_and!; [done | | done |].
  - split; cbn.
    + intros id w Hw. rewrite Ew. by apply (C1 id).
    + intros bid b Hbb. rewrite Eb. by apply (Hb bid).
  - unfold abs at 2. cbn. rewrite (fmap_frame (content s') (content s) bs') by (intros; apply Eb).
    rewrite (fmap_frame (writer_content s') (writer_content s) ws) by (intros; apply Ew). done.
Qed.

Lemma spool_memory_spec bytes s r s' :
  spool_memory bytes s = (r, s') →
  (∃ lid, r = Ok (Memory bytes lid) ∧ leases s !! lid = None ∧ len bytes ≤ max_single_bytes (limits s)
    ∧ limits s' = limits s ∧ reserved_bytes s' = reserved_bytes s + len bytes
    ∧ reserved_bytes s' ≤ max_total_bytes (limits s) ∧ directory s' = directory s ∧ inodes s' = inodes s
    ∧ leases s' = <[lid := ({| lease_bytes := len bytes; lease_path := None |}, 1%nat)]> (leases s))
  ∨ (is_ok r = false ∧ is_panic r = false ∧ s' = s).
Proof.
  unfold spool_memory. intros H. pose proof (len_nonneg bytes). run H. unfold guard_err in H.
  destruct (Z.gtb_spec (len bytes) (max_single_bytes (limits s))); run H; [injection H as <- <-; by right |].
  destruct (reserve (len bytes) s) as [r1 s1] eqn:Hr. apply reserve_spec in Hr as [Hr|Hr]; [| | done].
  - destruct Hr as (-> & -> & Hr1 & Hr2). run H. unfold lease_new in H. injection H as <- <-. left.
    exists (fresh (dom (leases s))). split_and!; try done. apply not_elem_of_dom, is_fresh.
  - destruct Hr as (P & O & -> & _). right. destruct r1 as [[]|e|m]; [done | | done]. run H. by injection H as <- <-.
Qed.

Lemma simulated_memory s ws bs bytes bid b s' :
  system_inv (mkSystem s ws bs) → contents_ok (mkSystem s ws bs) →
  bs !! bid = None → spool_memory bytes s = (Ok b, s') →
  simulated (mkSystem s ws bs) (mkSystem s' ws (<[bid := b]> bs)).
Proof.
  intros Hinv C Hbid H. apply spool_memory_spec in H as [(lid & [= ->] & Hl & Hm & E1 & E2 & E3 & E4 & E5 & E6) | (? & _)];
    [| done].
  apply simulated_backings; [done | by apply inv_memory with (s := s) | done | done | |].
  - intros c x [[<- <-]|[Hne Hx]]%lookup_insert_Some; [done | by apply (proj2 C c)].
  - rewrite fmap_insert. apply st_put; [by rewrite lookup_fmap; cbn; rewrite Hbid | done].
Qed.

Lemma simulated_clone s ws bs bid b bid' b' s' :
  system_inv (mkSystem s ws bs) → contents_ok (mkSystem s ws bs) →
  bs !! bid = Some b → bs !! bid' = None → backing_clone b s = (Ok b', s') →
  simulated (mkSystem s ws bs) (mkSystem s' ws (<[bid' := b']> bs)).
Proof.
  intros Hinv C Hb Hb' H. destruct (inv_backings _ Hinv bid b Hb) as (lid & l & n & B1 & B2 & _). cbn in *.
  unfold backing_clone in H. rewrite B1 in H. unfold lease_clone in H. run H. injection H as -> <-.
  rewrite (alter_alt_Some _ _ lid (l, n)) by done.
  destruct (inv_leases _ Hinv lid l n B2) as [_ Hn].
  apply simulated_backings; [done | | done | done | |].
  - apply inv_recount with (bs := bs) (n := n); [done | done | lia | |].
    + intros id. rewrite map_sum_insert_new by done. unfold refers at 1. rewrite B1.
      case_decide; case_bool_decide; simplify_eq; lia.
    + intros c x [[<- <-]|[Hne Hx]]%lookup_insert_Some; eauto.
  - intros c x [[<- <-]|[Hne Hx]]%lookup_insert_Some; [by apply (proj2 C bid) | by apply (proj2 C c)].
  - rewrite fmap_insert. apply st_copy with (bid := bid); rewrite lookup_fmap; cbn; [by rewrite Hb | by rewrite Hb'].
Qed.

Lemma simulated_drop s ws bs bid b :
  system_inv (mkSystem s ws bs) → contents_ok (mkSystem s ws bs) → bs !! bid = Some b →
  simulated (mkSystem s ws bs) (mkSystem (backing_drop b s).2 ws (delete bid bs)).
Proof.
  intros Hinv C Hb. destruct (inv_backings _ Hinv bid b Hb) as (lid & l & n & B1 & B2 & _). cbn in *.
  unfold backing_drop. rewrite B1. destruct (lease_drop lid s) as [r s'] eqn:H.
  destruct (inv_leases _ Hinv lid l n B2) as [_ Hn]. destruct n as [|n]; [lia |].
  apply (lease_drop_spec _ _ _ _ l n) in H as [_ H]; [| done]. cbn.
  assert (∀ c x, delete bid bs !! c = Some x → backing_len x = len (content s x)) as Hlen
    by (intros c x [_ Hx]%lookup_delete_Some; by apply (proj2 C c)).
  assert (store_step (max_single_bytes (limits s)) (abs (mkSystem s ws bs))
            (mkStore (writer_content s <$> ws) (content s <$> delete bid bs))) as Hst.
  { rewrite fmap_delete. eapply st_forget. by rewrite lookup_fmap, Hb. }
  destruct n as [|n].
  - apply simulated_backings; [done | by eapply inv_last | | | done | done]; by destruct H.
  - subst s'. apply simulated_backings; [done | | done | done | done | done].
    apply inv_recount with (bs := bs) (n := S (S n)); [done | done | lia | |].
    + intros id. rewrite (map_sum_delete _ bs bid b) by done. unfold refers at 2. rewrite B1.
      case_decide; case_bool_decide; simplify_eq; lia.
    + intros c x [_ Hx]%lookup_delete_Some. eauto.
Qed.

Lemma fits_read s ws bs bid b :
  system_inv (mkSystem s ws bs) → bs !! bid = Some b → backing_fits b.
Proof.
  intros Hinv Hb. destruct (inv_backings _ Hinv bid b Hb) as (lid & l & n & B1 & B2 & _ & B4 & _). cbn in *.
  pose proof (lease_le _ _ _ Hinv lid l n B2) as Hle. pose proof (reserved_u64 _ _ _ Hinv) as H64.
  destruct b; cbn in *; try done. unfold usize_max. lia.
Qed.

(** Every step of the system is a step of the abstract store. *)
Lemma simulation sys sys' :
  system_inv sys → contents_ok sys → spool_step sys sys' → simulated sys sys'.
Proof.
  intros Hinv C Hs. destruct Hs.
  - split_and!; [by apply inv_writer_new | | done |].
    + destruct C as [C1 C2]. split; cbn in *; [| done].
      intros j x [[<- <-]|[Hne Hx]]%lookup_insert_Some; [done | by apply (C1 j)].
    + unfold abs. cbn. rewrite fmap_insert. apply st_open. rewrite lookup_fmap. cbn. by rewrite H.
  - by eapply simulated_push.
  - by eapply simulated_push_fail.
  - by eapply simulated_abandon_step.
  - by eapply simulated_finish.
  - by eapply simulated_finish_fail.
  - by eapply simulated_memory.
  - by eapply simulated_clone.
  - by eapply simulated_drop.
  - destruct (read_at_spec b offset size s) as [Hsame _]; [done | done | by eapply fits_read |].
    pose proof Hsame as (_ & E1 & _ & _ & E2 & _).
    apply simulated_backings; [done | by eapply inv_same | done | done | |].
    + intros c x Hx. by apply (proj2 C c).
    + apply st_read with (bid := bid) (c := content s b). by rewrite lookup_fmap; cbn; rewrite H.
Qed.

Definition reachable (dir : PathBuf) (l : ContentSpoolLimits) (sys : system) : Prop :=
  ∃ s, ContentSpool_new dir l = Ok s ∧ rtc spool_step (mkSystem s ∅ ∅) sys.

Lemma system_inv_init dir l s :
  0 ≤ max_total_bytes l ≤ u64_max → ContentSpool_new dir l = Ok s → system_inv (mkSystem s ∅ ∅).
Proof.
  intros Hm (u & _ & (v & _ & (w & _ & [= <-])%bind_Ok)%bind_Ok)%bind_Ok. split; cbn; rewrite ?map_sum_empty; try done; try lia.
  - intros [] p; cbn; by rewrite lookup_empty.
  - intros [] o2 p; cbn; by rewrite lookup_empty.
  - intros p _ [i Hi]. by rewrite lookup_empty in Hi.
Qed.

Lemma reachable_simulated dir l sys :
  0 ≤ max_total_bytes l ≤ u64_max → reachable dir l sys →
  system_inv sys ∧ contents_ok sys ∧ limits (sys_spool sys) = l
  ∧ rtc (store_step (max_single_bytes l)) (mkStore ∅ ∅) (abs sys).
Proof.
  intros Hm (s & Hs & Hr). pose proof (system_inv_init _ _ _ Hm Hs) as Hi.
  assert (limits s = l) as Hl by (by apply bind_Ok in Hs as (u & _ & (v & _ & (w & _ & [= <-])%bind_Ok)%bind_Ok)).
  revert sys Hr. apply rtc_ind_r.
  - by split_and!.
  - intros sys sys' _ Hstep IH. destruct IH as (I1 & I2 & I3 & I4). destruct (simulation _ _ I1 I2 Hstep) as (J1 & J2 & J3 & J4).
    split_and!; [done | done | congruence |]. eapply rtc_r; [done |]. by rewrite <- I3.
Qed.

(** C17: The spool refines a store of immutable byte strings.  Whatever calls many
    writers and readers make, and whichever of them fail, the writers' and the
    backings' contents evolve as the abstract store allows, published content
    never changes, and a read of a backing returns the slice of the content the
    store records for it, or an error of the file system. *)
Theorem spool_refines_store dir l sys :
  0 ≤ max_total_bytes l ≤ u64_max → reachable dir l sys →
  rtc (store_step (max_single_bytes l)) (mkStore ∅ ∅) (abs sys)
  ∧ ∀ bid b, sys_backings sys !! bid = Some b → ∃ c, st_contents (abs sys) !! bid = Some c
      ∧ backing_len b = len c
      ∧ ∀ offset size, 0 ≤ offset → 0 ≤ size →
          io_outcome (read_at b offset size (sys_spool sys)).1 (slice offset size c).
Proof.
  intros Hm Hr. destruct (reachable_simulated _ _ _ Hm Hr) as (I & C & _ & R). split; [done |].
  intros bid b Hb. exists (content (sys_spool sys) b). split_and!.
  - unfold abs. cbn. by rewrite lookup_fmap, Hb.
  - by apply (proj2 C bid).
  - intros offset size Ho Hs. apply read_at_spec; [done.. |]. destruct sys. by eapply fits_read.
Qed.

(** The accounting of a reachable spool. *)
Lemma spool_accounting_of dir l sys :
  0 ≤ max_total_bytes l ≤ u64_max → reachable dir l sys →
  reserved_bytes (sys_spool sys)
    = map_sum writer_reserved (sys_writers sys) + map_sum lease_size (leases (sys_spool sys))
  ∧ 0 ≤ reserved_bytes (sys_spool sys) ≤ max_total_bytes l
  ∧ (∀ id, map_sum (refers id) (sys_backings sys)
       = match leases (sys_spool sys) !! id with Some (_, n) => Z.of_nat n | None => 0 end)
  ∧ (sys_writers sys = ∅ → sys_backings sys = ∅ →
       reserved_bytes (sys_spool sys) = 0 ∧ leases (sys_spool sys) = ∅
       ∧ (no_faults → directory (sys_spool sys) = ∅)).
Proof.
  intros Hm Hr. destruct (reachable_simulated _ _ _ Hm Hr) as (I & _ & Hl & _).
  destruct sys as [s ws bs]. pose proof (reserved_u64 _ _ _ I) as H64.
  pose proof (inv_bound _ I) as Hb. cbn in *. rewrite Hl in Hb.
  split_and!; [by apply (inv_account _ I) | lia | done | by apply (inv_refs _ I) |].
  intros -> ->. assert (leases s = ∅) as Hle.
  { apply map_empty. intros id. destruct (leases s !! id) as [[ls n]|] eqn:E; [| done].
    pose proof (inv_refs _ I id) as Href. cbn in Href. rewrite E, map_sum_empty in Href.
    destruct (inv_leases _ I id ls n E). lia. }
  split_and!; [| done |].
  - pose proof (inv_account _ I) as Ha. cbn in Ha. by rewrite Ha, Hle, !map_sum_empty.
  - intros Hn. apply map_empty. intros p. destruct (directory s !! p) eqn:E; [| done].
    destruct (inv_clean _ I p Hn) as [[id|id] Ho]; [cbn; eauto | |]; cbn in Ho;
      rewrite ?Hle, lookup_empty in Ho; done.
Qed.

(** The byte accounting of the spool is exact in every reachable state: the
    counter is the sum of what the live writers and leases hold, it never exceeds
    the limit and never wraps, each lease is counted once however many clones
    share it, and when every writer and backing is gone it is zero, no lease is
    left and, when removing never failed, no file either. *)
Theorem spool_accounting dir l sys :
  0 ≤ max_total_bytes l ≤ u64_max → reachable dir l sys →
  reserved_bytes (sys_spool sys)
    = map_sum writer_reserved (sys_writers sys) + map_sum lease_size (leases (sys_spool sys))
  ∧ 0 ≤ reserved_bytes (sys_spool sys) ≤ max_total_bytes l
  ∧ (∀ id, map_sum (refers id) (sys_backings sys)
       = match leases (sys_spool sys) !! id with Some (_, n) => Z.of_nat n | None => 0 end)
  ∧ (sys_writers sys = ∅ → sys_backings sys = ∅ →
       reserved_bytes (sys_spool sys) = 0 ∧ leases (sys_spool sys) = ∅
       ∧ (no_faults → directory (sys_spool sys) = ∅)).
Proof. apply spool_accounting_of. Qed.

End spool.

(** ** Concrete runs *)
Definition quiet_env : SpoolEnv :=
  {| io_fault := fun _ => None; uuid := fun n => replicate (S n) "a"%byte; short_read := fun _ => 0%nat |}.

(** The third call of the file system fails. *)
Definition failing_env : SpoolEnv :=
  {| io_fault := fun n => if bool_decide (n = 4%nat) then Some (1%nat, "disk full") else None;
     uuid := fun n => replicate (S n) "a"%byte; short_read := fun _ => 0%nat |}.

Definition small_limits : ContentSpoolLimits :=
  {| memory_threshold := 3; max_single_bytes := 64; max_total_bytes := 64 |}.
Definition empty_spool : ContentSpool :=
  {| runtime_directory := bytes "/run"; limits := small_limits; reserved_bytes := 0; directory := ∅;
     inodes := []; leases := ∅; clock := 2 |}.
Definition two_chunks : list (vres (list byte)) := [Ok (bytes "abcd"); Ok (bytes "efgh")].

Lemma empty_spool_ok : spool_ok empty_spool.
Proof. by split_and!. Qed.

Lemma spool_content_witness :
  ∃ r s', @spool quiet_env two_chunks empty_spool = (r, s') ∧ spool_ok empty_spool
  ∧ ∃ b, r = Ok b ∧ ∃ chunks, two_chunks = Ok <$> chunks ∧ backing_len b = len (concat chunks)
    ∧ io_outcome (env := quiet_env) (@read_at quiet_env b 5 10 s').1 (bytes "fgh").
Proof.
  destruct (@spool quiet_env two_chunks empty_spool) as [r s'] eqn:H. exists r, s'.
  split_and!; [done | exact empty_spool_ok |].
  destruct (@spool_content quiet_env empty_spool two_chunks r s' empty_spool_ok H) as [O P].
  destruct r as [b|e|m].
  - exists b. split; [done |]. destruct (O b eq_refl) as (chunks & E & L & _ & _ & R). exists chunks.
    split_and!; [done | done |].
    assert (chunks = [bytes "abcd"; bytes "efgh"]) as ->.
    { destruct chunks as [|c1 [|c2 [|c3 chunks]]]; try discriminate E. by injection E as <- <-. }
    apply (R 5 10); lia.
  - exfalso. vm_compute in H. discriminate H.
  - exfalso. vm_compute in H. discriminate H.
Defined.

Lemma spool_failure_restores_witness :
  ∃ r s', @spool failing_env two_chunks empty_spool = (r, s') ∧ is_ok r = false
  ∧ reserved_bytes s' = 0 ∧ leases s' = ∅.
Proof.
  destruct (@spool failing_env two_chunks empty_spool) as [r s'] eqn:H. exists r, s'.
  assert (is_ok r = false) as Hr by (change r with (r, s').1; rewrite <- H; vm_compute; reflexivity).
  destruct (@spool_failure_restores failing_env empty_spool two_chunks r s' empty_spool_ok H Hr) as (A & B & _).
  split_and!; [done | done | exact A | exact B].
Defined.

(** A writer, a backing of it, a clone, and both dropped again. *)
Definition memory_only : system :=
  mkSystem (@spool_memory (bytes "xyz") empty_spool).2 ∅ {[ 0%nat := Memory (bytes "xyz") 0%nat ]}.

Lemma memory_only_reachable : @reachable quiet_env (bytes "/run") small_limits memory_only.
Proof.
  exists empty_spool. split; [reflexivity |]. apply rtc_once.
  apply (@step_memory quiet_env _ _ _ (bytes "xyz")); [apply lookup_empty | vm_compute; reflexivity].
Qed.

Lemma spool_refines_store_witness :
  ∃ c, st_contents (abs memory_only) !! 0%nat = Some c
  ∧ io_outcome (env := quiet_env) (@read_at quiet_env (Memory (bytes "xyz") 0) 1 9 (sys_spool memory_only)).1 (slice 1 9 c).
Proof.
  destruct (@spool_refines_store quiet_env (bytes "/run") small_limits memory_only) as [_ R];
    [cbn; unfold u64_max; lia | exact memory_only_reachable |].
  destruct (R 0%nat (Memory (bytes "xyz") 0)) as (c & Hc & _ & Hr); [reflexivity |].
  exists c. split; [exact Hc | apply Hr; lia].
Defined.

Lemma spool_accounting_witness :
  reserved_bytes (sys_spool memory_only) = 3 ∧ 0 ≤ reserved_bytes (sys_spool memory_only) ≤ 64.
Proof.
  split; [vm_compute; reflexivity |].
  refine (proj1 (proj2 (@spool_accounting quiet_env (bytes "/run") small_limits memory_only _ _)));
    [cbn; unfold u64_max; lia | exact memory_only_reachable].
Defined.
