(* ===== verification/Sha256.v ===== *)
(** The streaming SHA-256 of the filesystem helper
    (crates/tuxstack-fs-helper/src/hash.rs).

    Words are [Z] below 2^32 with the wrap-around written out; the 64-byte buffer
    is a list of 64 bytes whose tail may be stale, as in the code.  A slice out
    of range is [Panic]. *)

From S2P Require Import Prelude Error Path.

Local Open Scope Z_scope.

(** ** 32-bit words *)
Definition wrap32 (x : Z) : Z := x mod 2 ^ 32.
Definition wrapping_add32 (a b : Z) : Z := wrap32 (a + b).
Definition rotate_right (x : Z) (n : Z) : Z := Z.lor (Z.shiftr x n) (wrap32 (Z.shiftl x (32 - n))).
Definition not32 (x : Z) : Z := Z.lxor x (2 ^ 32 - 1).

(** [w[i]] *)
Definition word (w : list Z) (i : nat) : Z := nth i w 0.

(** The round constants, in decimal; [K_cube_roots] below checks the table. *)
Definition K : list Z :=
  [1116352408; 1899447441; 3049323471; 3921009573; 961987163; 1508970993;
   2453635748; 2870763221; 3624381080; 310598401; 607225278; 1426881987;
   1925078388; 2162078206; 2614888103; 3248222580; 3835390401; 4022224774;
   264347078; 604807628; 770255983; 1249150122; 1555081692; 1996064986;
   2554220882; 2821834349; 2952996808; 3210313671; 3336571891; 3584528711;
   113926993; 338241895; 666307205; 773529912; 1294757372; 1396182291;
   1695183700; 1986661051; 2177026350; 2456956037; 2730485921; 2820302411;
   3259730800; 3345764771; 3516065817; 3600352804; 4094571909; 275423344;
   430227734; 506948616; 659060556; 883997877; 958139571; 1322822218;
   1537002063; 1747873779; 1955562222; 2024104815; 2227730452; 2361852424;
   2428436474; 2756734187; 3204031479; 3329325298].

(** The first 64 primes, and the integer square and cube root tests of the
    standard's definition of the tables: [v] is the first 32 bits of the
    fractional part of the root of [p] with integer part [a]. *)
Definition is_prime (p : Z) : bool :=
  (2 <=? p) && forallb (fun d => negb (p mod d =? 0)) (seqZ 2 (p - 2)).
Definition primes64 : list Z := take 64 (filter (fun p => is_prime p = true) (seqZ 2 310)).
Definition frac_cube_root (p v : Z) : bool :=
  existsb (fun a => let r := v + a * 2 ^ 32 in
    (r ^ 3 <=? p * 2 ^ 96) && (p * 2 ^ 96 <? (r + 1) ^ 3)) (seqZ 0 8).
Definition frac_square_root (p v : Z) : bool :=
  existsb (fun a => let r := v + a * 2 ^ 32 in
    (r ^ 2 <=? p * 2 ^ 64) && (p * 2 ^ 64 <? (r + 1) ^ 2)) (seqZ 0 8).

(** The table of the code is the one the standard defines. *)
Lemma K_cube_roots :
  length primes64 = 64%nat ∧ length K = 64%nat
  ∧ forallb (fun '(p, v) => frac_cube_root p v) (zip primes64 K) = true.
Proof. vm_compute. done. Qed.

(** [chunks_exact(4)] of a block, each read big-endian. *)
Fixpoint block_words (n : nat) (block : list byte) : list Z :=
  match n with
  | O => []
  | S n => from_be_bytes (take 4 block) :: block_words n (drop 4 block)
  end.

(** [for i in 16..64 { w[i] = … }]; the words from [i] on are still zero. *)
Definition schedule_word (w : list Z) (i : nat) : Z :=
  let w15 := word w (i - 15) in
  let w2 := word w (i - 2) in
  let s0 := Z.lxor (Z.lxor (rotate_right w15 7) (rotate_right w15 18)) (Z.shiftr w15 3) in
  let s1 := Z.lxor (Z.lxor (rotate_right w2 17) (rotate_right w2 19)) (Z.shiftr w2 10) in
  wrapping_add32 (wrapping_add32 (wrapping_add32 (word w (i - 16)) s0) (word w (i - 7))) s1.

Definition message_schedule (block : list byte) : list Z :=
  foldl (fun w i => <[i := schedule_word w i]> w) (block_words 16 block ++ replicate 48 0) (seq 16 48).

(** The eight working variables. *)
Record Working := mkWorking { wa : Z; wb : Z; wc : Z; wd : Z; we : Z; wf : Z; wg : Z; wh : Z }.

(** One turn of the round loop. *)
Definition round (w : list Z) (v : Working) (i : nat) : Working :=
  let '(mkWorking a b c d e f g h) := v in
  let s1 := Z.lxor (Z.lxor (rotate_right e 6) (rotate_right e 11)) (rotate_right e 25) in
  let ch := Z.lxor (Z.land e f) (Z.land (not32 e) g) in
  let t1 := wrapping_add32 (wrapping_add32 (wrapping_add32 (wrapping_add32 h s1) ch) (word K i)) (word w i) in
  let s0 := Z.lxor (Z.lxor (rotate_right a 2) (rotate_right a 13)) (rotate_right a 22) in
  let maj := Z.lxor (Z.lxor (Z.land a b) (Z.land a c)) (Z.land b c) in
  let t2 := wrapping_add32 s0 maj in
  mkWorking (wrapping_add32 t1 t2) a b c (wrapping_add32 d t1) e f g.

Definition compress (state : Working) (block : list byte) : Working :=
  let w := message_schedule block in
  let v := foldl (round w) state (seq 0 64) in
  mkWorking (wrapping_add32 (wa state) (wa v)) (wrapping_add32 (wb state) (wb v))
    (wrapping_add32 (wc state) (wc v)) (wrapping_add32 (wd state) (wd v))
    (wrapping_add32 (we state) (we v)) (wrapping_add32 (wf state) (wf v))
    (wrapping_add32 (wg state) (wg v)) (wrapping_add32 (wh state) (wh v)).

(** ** The hasher *)
Record Sha256 := mkSha256 {
  state : Working;
  buffer : list byte;
  buffer_len : nat;
  total : Z;
}.

Definition initial_state : Working :=
  mkWorking 1779033703 3144134277 1013904242 2773480762 1359893119 2600822924 528734635 1541459225.

Lemma initial_state_square_roots :
  let '(mkWorking a b c d e f g h) := initial_state in
  forallb (fun '(p, v) => frac_square_root p v) (zip (take 8 primes64) [a; b; c; d; e; f; g; h]) = true.
Proof. vm_compute. done. Qed.

Definition Sha256_new : Sha256 :=
  {| state := initial_state; buffer := replicate 64 "000"%byte; buffer_len := 0; total := 0 |}.

(** [buffer[from..from + data.len()].copy_from_slice(data)] *)
Definition copy_at (buffer : list byte) (from : nat) (data : list byte) : vres (list byte) :=
  if (from + length data <=? length buffer)%nat
  then Ok (take from buffer ++ data ++ drop (from + length data) buffer)
  else Panic "range end index out of range".

(** [while data.len() >= 64 { … }]; every turn takes 64 bytes. *)
Fixpoint compress_loop (fuel : nat) (state : Working) (data : list byte) : Working * list byte :=
  match fuel with
  | O => (state, data)
  | S fuel =>
      if (64 <=? length data)%nat then compress_loop fuel (compress state (take 64 data)) (drop 64 data)
      else (state, data)
  end.

(** [if self.buffer_len > 0 { … }]: the new state and the rest of the data. *)
Definition fill_buffer (self : Sha256) (data : list byte) : vres (Sha256 * list byte) :=
  if (0 <? buffer_len self)%nat then
    if (64 <? buffer_len self)%nat then Panic "attempt to subtract with overflow"
    else
      let n := Nat.min (64 - buffer_len self) (length data) in
      buf ← copy_at (buffer self) (buffer_len self) (take n data);
      let len := (buffer_len self + n)%nat in
      if (len =? 64)%nat
      then Ok (mkSha256 (compress (state self) buf) buf 0 (total self), drop n data)
      else Ok (mkSha256 (state self) buf len (total self), drop n data)
  else Ok (self, data).

Definition update (self : Sha256) (data : list byte) : vres Sha256 :=
  let self := mkSha256 (state self) (buffer self) (buffer_len self) ((total self + len data) mod 2 ^ 64) in
  '(self, data) ← fill_buffer self data;
  let '(state, data) := compress_loop (length data) (state self) data in
  if is_empty data then Ok (mkSha256 state (buffer self) (buffer_len self) (total self))
  else
    buf ← copy_at (buffer self) 0 data;
    Ok (mkSha256 state buf (length data) (total self)).

(** [while self.buffer_len != 56 { self.update(&[0]) }]; a turn advances the
    buffer by one byte, so 64 turns are enough. *)
Fixpoint pad_loop (fuel : nat) (self : Sha256) : vres Sha256 :=
  if (buffer_len self =? 56)%nat then Ok self
  else
    match fuel with
    | O => Panic "padding out of fuel"
    | S fuel => self ← update self ["000"%byte]; pad_loop fuel self
    end.

Definition state_words (v : Working) : list Z := [wa v; wb v; wc v; wd v; we v; wf v; wg v; wh v].

Definition finish (self : Sha256) : vres (list byte) :=
  let bit_len := (total self * 8) mod 2 ^ 64 in
  self ← update self ["128"%byte];
  self ← pad_loop 64 self;
  self ← update self (be_bytes 8 bit_len);
  Ok (state_words (state self) ≫= be_bytes 4).

(** The read loop of [run]: the reads of a file up to the first empty one. *)
Fixpoint hash_reads (self : Sha256) (reads : list (list byte)) : vres Sha256 :=
  match reads with
  | [] => Ok self
  | chunk :: reads =>
      if is_empty chunk then Ok self
      else self ← update self chunk; hash_reads self reads
  end.

(** ** SHA-256 of a message

    The standard's definition: the padded message is cut into blocks, and the
    blocks are folded into the initial state. *)
Fixpoint absorb (n : nat) (state : Working) (message : list byte) : Working :=
  match n with
  | O => state
  | S n => absorb n (compress state (take 64 message)) (drop 64 message)
  end.

Definition sha256_pad (message : list byte) : list byte :=
  message ++ ["128"%byte] ++ replicate (Z.to_nat ((55 - len message) mod 64)) "000"%byte
    ++ be_bytes 8 (8 * len message).

Definition sha256 (message : list byte) : list byte :=
  let padded := sha256_pad message in
  state_words (absorb (length padded / 64) initial_state padded) ≫= be_bytes 4.

(** ** The hasher represents the bytes it was given *)
Record represents (self : Sha256) (message : list byte) : Prop := {
  rep_blocks : ∃ n full, length full = (64 * n)%nat ∧ message = full ++ take (buffer_len self) (buffer self)
                         ∧ state self = absorb n initial_state full;
  rep_buffer : length (buffer self) = 64%nat;
  rep_len : (buffer_len self < 64)%nat;
}.

Lemma absorb_app n k st l1 l2 :
  length l1 = (64 * n)%nat → absorb (n + k) st (l1 ++ l2) = absorb k (absorb n st l1) l2.
Proof.
  revert st l1. induction n as [|n IH]; intros st l1 Hl; cbn [absorb Nat.add].
  { by destruct l1. }
  rewrite take_app_le, drop_app_le by lia. apply IH. rewrite length_drop. lia.
Qed.

Lemma absorb_block st block : length block = 64%nat → absorb 1 st block = compress st block.
Proof. intros Hb. cbn. by rewrite take_ge by lia. Qed.

Lemma compress_loop_spec fuel st data :
  (length data ≤ fuel)%nat →
  ∃ n full rest, data = full ++ rest ∧ length full = (64 * n)%nat ∧ (length rest < 64)%nat ∧
    compress_loop fuel st data = (absorb n st full, rest).
Proof.
  revert st data. induction fuel as [|fuel IH]; intros st data Hf; cbn [compress_loop].
  { exists 0%nat, [], data. destruct data; [| cbn in Hf; lia]. split_and!; cbn; done || lia. }
  destruct (Nat.leb_spec 64 (length data)) as [Hl|Hl]; [| exists 0%nat, [], data; done].
  destruct (IH (compress st (take 64 data)) (drop 64 data)) as (n & full & rest & Hd & Hn & Hr & He).
  { rewrite length_drop. lia. }
  exists (S n), (take 64 data ++ full), rest. split_and!; [| | done |].
  - by rewrite <- app_assoc, <- Hd, take_drop.
  - rewrite length_app, length_take. lia.
  - rewrite He. change (S n) with (1 + n)%nat. rewrite absorb_app by (rewrite length_take; lia).
    by rewrite absorb_block by (rewrite length_take; lia).
Qed.

Lemma copy_at_ok buf from data :
  (from + length data ≤ length buf)%nat →
  ∃ buf', copy_at buf from data = Ok buf' ∧ length buf' = length buf ∧
          take (from + length data) buf' = take from buf ++ data.
Proof.
  intros Hl. unfold copy_at. rewrite (proj2 (Nat.leb_le _ _)) by done. eexists. split; [done |].
  assert (length (take from buf) = from) as Hf by (rewrite length_take; lia). split.
  - rewrite !length_app, length_drop, Hf. lia.
  - rewrite app_assoc. rewrite take_app_le by (rewrite length_app; lia).
    apply take_ge. rewrite length_app. lia.
Qed.

(** The buffer step leaves an empty buffer or no data. *)
Lemma fill_buffer_spec self m data :
  represents self m →
  ∃ self' m' data', fill_buffer self data = Ok (self', data') ∧ represents self' m' ∧
    m ++ data = m' ++ data' ∧ (buffer_len self' = 0%nat ∨ data' = []) ∧ total self' = total self.
Proof.
  intros [(n & full & Hn & Hm & Hst) Hb Hl]. unfold fill_buffer.
  destruct (Nat.ltb_spec 0 (buffer_len self)) as [Hpos|Hz].
  2: { exists self, m, data. split_and!; try done; [split; eauto | left; lia]. }
  destruct (Nat.ltb_spec 64 (buffer_len self)); [lia |].
  set (k := Nat.min (64 - buffer_len self) (length data)).
  assert (length (take k data) = k) as Hk by (rewrite length_take; lia).
  destruct (copy_at_ok (buffer self) (buffer_len self) (take k data)) as (buf & -> & Hbl & Htake); [lia |].
  cbn [mbind result_bind]. rewrite Hk in Htake.
  assert (full ++ take (buffer_len self) (buffer self) ++ take k data = m ++ take k data) as Hsplit
    by (rewrite Hm; by rewrite <- app_assoc).
  destruct (Nat.eqb_spec (buffer_len self + k) 64) as [H64|H64].
  - do 3 eexists. split; [done |]. rewrite H64, take_ge in Htake by lia. split_and!.
    + split; cbn; [| lia | lia]. exists (S n), (full ++ buf). split_and!; [| by rewrite app_nil_r |].
      * rewrite length_app. lia.
      * rewrite <- (Nat.add_1_r n), absorb_app, absorb_block, Hst by lia. done.
    + rewrite Htake, Hsplit, <- app_assoc, take_drop. done.
    + by left.
    + done.
  - exists (mkSha256 (state self) buf (buffer_len self + k) (total self)), (m ++ take k data), (drop k data).
    split_and!; [done | | by rewrite <- app_assoc, take_drop | | done].
    + split; cbn; [| lia | lia]. exists n, full. split_and!; [done | | done]. by rewrite Htake, Hsplit.
    + right. apply drop_ge. lia.
Qed.

Lemma update_spec self m data :
  represents self m → total self = len m mod 2 ^ 64 →
  ∃ self', update self data = Ok self' ∧ represents self' (m ++ data) ∧
           total self' = len (m ++ data) mod 2 ^ 64.
Proof.
  intros Hr Ht. unfold update. set (self0 := mkSha256 _ _ _ ((total self + len data) mod 2 ^ 64)).
  assert (represents self0 m) as Hr0 by (by destruct Hr).
  assert (total self0 = len (m ++ data) mod 2 ^ 64) as Ht0.
  { cbn. rewrite Ht, len_app, Zplus_mod_idemp_l. done. }
  destruct (fill_buffer_spec self0 m data Hr0) as (self1 & m1 & data1 & -> & Hr1 & Heq & Hor & Ht1).
  cbn [mbind result_bind]. rewrite Heq in *. rewrite Ht0 in Ht1.
  destruct (compress_loop_spec (length data1) (state self1) data1 ltac:(lia)) as (k & full & rest & Hd & Hk & Hlr & ->).
  destruct Hr1 as [(n & full0 & Hn & Hm1 & Hst) Hb Hl].
  destruct (is_empty rest) eqn:Er.
  - apply is_empty_true in Er as ->. rewrite app_nil_r in Hd. subst data1.
    eexists. split_and!; [done | | done]. split; cbn; [| done | done]. destruct Hor as [Hz | ->].
    + exists (n + k)%nat, (full0 ++ full). rewrite Hz, take_0, app_nil_r in *. subst m1.
      split_and!; [rewrite length_app; lia | done |]. by rewrite Hst, absorb_app.
    + exists n, full0. rewrite app_nil_r. destruct k; [done | cbn in Hk; lia].
  - apply is_empty_false in Er. destruct Hor as [Hz | ->]; [| destruct full, rest; done].
    destruct (copy_at_ok (buffer self1) 0 rest) as (buf & -> & Hbl & Htake); [lia |].
    cbn [mbind result_bind]. eexists. split_and!; [done | | done]. split; cbn; [| lia | done].
    rewrite take_0 in Htake. cbn in Htake. rewrite Htake. rewrite Hz, take_0, app_nil_r in Hm1. subst m1 data1.
    exists (n + k)%nat, (full0 ++ full). split_and!; [rewrite length_app; lia | by rewrite app_assoc |].
    by rewrite Hst, absorb_app.
Qed.

Lemma represents_len self m : represents self m → Z.of_nat (buffer_len self) = len m mod 64.
Proof.
  intros [(n & full & Hn & -> & _) Hb Hl]. rewrite len_app. unfold len. rewrite length_take, Hn, Nat.min_l by lia.
  Z.to_euclidean_division_equations. lia.
Qed.

Lemma pad_loop_spec fuel self m :
  represents self m → total self = len m mod 2 ^ 64 → (56 - len m) mod 64 ≤ Z.of_nat fuel →
  ∃ self', pad_loop fuel self = Ok self' ∧
    represents self' (m ++ replicate (Z.to_nat ((56 - len m) mod 64)) "000"%byte) ∧
    total self' = len (m ++ replicate (Z.to_nat ((56 - len m) mod 64)) "000"%byte) mod 2 ^ 64.
Proof.
  revert self m. induction fuel as [|fuel IH]; intros self m Hr Ht Hf; cbn [pad_loop];
    pose proof (represents_len _ _ Hr) as Hb; pose proof (len_nonneg m) as Hm;
    (destruct (Nat.eqb_spec (buffer_len self) 56) as [H56|H56];
     [replace ((56 - len m) mod 64) with 0 by (Z.to_euclidean_division_equations; lia);
      exists self; by rewrite app_nil_r |]).
  { Z.to_euclidean_division_equations. lia. }
  destruct (update_spec self m ["000"%byte] Hr Ht) as (self1 & -> & Hr1 & Ht1). cbn [mbind result_bind].
  assert ((56 - len (m ++ ["000"%byte])) mod 64 = (56 - len m) mod 64 - 1) as Hk.
  { rewrite len_app. change (len ["000"%byte]) with 1. Z.to_euclidean_division_equations. lia. }
  destruct (IH self1 (m ++ ["000"%byte]) Hr1 Ht1) as (self2 & He & Hr2 & Ht2); [lia |].
  exists self2. rewrite Hk, <- app_assoc in Hr2, Ht2.
  assert (["000"%byte] ++ replicate (Z.to_nat ((56 - len m) mod 64 - 1)) "000"%byte
          = replicate (Z.to_nat ((56 - len m) mod 64)) "000"%byte) as Hrep.
  { change ["000"%byte] with (replicate 1 "000"%byte). rewrite <- replicate_add. f_equal.
    Z.to_euclidean_division_equations. lia. }
  rewrite Hrep in Hr2, Ht2. done.
Qed.

Lemma be_bytes_mod n v : be_bytes n (v mod 256 ^ Z.of_nat n) = be_bytes n v.
Proof.
  revert v. induction n as [|n IH]; intros v; cbn [be_bytes]; [done |].
  assert (0 < 256 ^ Z.of_nat n) as Hp by (apply Z.pow_pos_nonneg; lia).
  rewrite Nat2Z.inj_succ, Z.pow_succ_r, Z.rem_mul_r by lia. rewrite <- (IH (v / 256)). f_equal.
  - f_equal. symmetry. apply (Z.div_unique_pos _ _ _ (v mod 256)); [apply Z.mod_pos_bound; lia | lia].
  - f_equal. apply u8_inj. rewrite !u8_of_u8_mod.
    rewrite (Z.mul_comm 256), Z_mod_plus_full, Z.mod_mod by lia. done.
Qed.

Lemma finish_spec self m :
  represents self m → total self = len m mod 2 ^ 64 → finish self = Ok (sha256 m).
Proof.
  intros Hr Ht. unfold finish. destruct (update_spec self m ["128"%byte] Hr Ht) as (s1 & -> & Hr1 & Ht1).
  cbn [mbind result_bind]. set (m1 := m ++ ["128"%byte]) in *.
  assert ((56 - len m1) mod 64 = (55 - len m) mod 64) as Hk
    by (unfold m1; rewrite len_app; f_equal; change (len ["128"%byte]) with 1; lia).
  destruct (pad_loop_spec 64 s1 m1 Hr1 Ht1) as (s2 & -> & Hr2 & Ht2).
  { pose proof (Z.mod_pos_bound (56 - len m1) 64 ltac:(lia)). lia. }
  cbn [mbind result_bind]. set (bits := (total self * 8) mod 2 ^ 64).
  destruct (update_spec s2 _ (be_bytes 8 bits) Hr2 Ht2) as (s3 & -> & Hr3 & _).
  cbn [mbind result_bind]. unfold sha256. do 2 f_equal.
  assert (be_bytes 8 bits = be_bytes 8 (8 * len m)) as Hbits.
  { unfold bits. rewrite Ht, Zmult_mod_idemp_l, Z.mul_comm. apply (be_bytes_mod 8). }
  rewrite Hk, Hbits in Hr3.
  assert ((m1 ++ replicate (Z.to_nat ((55 - len m) mod 64)) "000"%byte) ++ be_bytes 8 (8 * len m) = sha256_pad m) as Hpad.
  { unfold sha256_pad, m1. by rewrite <- !app_assoc. }
  rewrite Hpad in Hr3. assert (buffer_len s3 = 0%nat) as Hz.
  { apply Nat2Z.inj. rewrite (represents_len _ _ Hr3). unfold sha256_pad. rewrite !len_app.
    assert (len (be_bytes 8 (8 * len m)) = 8) as -> by (unfold len; by rewrite be_bytes_length).
    assert (len (replicate (Z.to_nat ((55 - len m) mod 64)) "000"%byte) = (55 - len m) mod 64) as ->.
    { unfold len at 1. rewrite length_replicate. apply Z2Nat.id. apply Z.mod_pos_bound. lia. }
    change (len ["128"%byte]) with 1. Z.to_euclidean_division_equations. lia. }
  destruct (rep_blocks _ _ Hr3) as (n & full & Hn & Hm & Hst). rewrite Hz, take_0, app_nil_r in Hm. subst full.
  by rewrite Hst, Hn, Nat.mul_comm, Nat.div_mul.
Qed.

Lemma Sha256_new_represents : represents Sha256_new [].
Proof. split; cbn; [| done | lia]. by exists 0%nat, []. Qed.

Lemma hash_reads_spec reads self m :
  represents self m → total self = len m mod 2 ^ 64 → Forall (fun c => c ≠ []) reads →
  ∃ self', hash_reads self (reads ++ [[]]) = Ok self' ∧ represents self' (m ++ concat reads) ∧
           total self' = len (m ++ concat reads) mod 2 ^ 64.
Proof.
  revert self m. induction reads as [|c reads IH]; intros self m Hr Ht Hc; cbn.
  { rewrite app_nil_r. by exists self. }
  apply Forall_cons_iff in Hc as [Hne Hc]. rewrite (proj2 (is_empty_false c) Hne).
  destruct (update_spec self m c Hr Ht) as (s1 & -> & Hr1 & Ht1). cbn [mbind result_bind].
  destruct (IH s1 (m ++ c) Hr1 Ht1 Hc) as (s2 & ? & Hr2 & Ht2). exists s2. by rewrite app_assoc.
Qed.

(** ** Properties *)

(** C39: the hand-written hasher computes SHA-256 however the file is read.  For
    every split of a file into reads, feeding them one by one and finishing
    never panics and returns the digest of the whole content: the padded message
    cut into 64-byte blocks and folded through the compression function. *)
Theorem sha256_streaming (reads : list (list byte)) :
  Forall (fun c => c ≠ []) reads →
  (self ← hash_reads Sha256_new (reads ++ [[]]); finish self) = Ok (sha256 (concat reads)).
Proof.
  intros Hc. destruct (hash_reads_spec reads Sha256_new [] Sha256_new_represents eq_refl Hc) as (self & -> & Hr & Ht).
  cbn [mbind result_bind]. by apply finish_spec.
Qed.

(** Witness: the test vector "abc" of the standard, read in two pieces. *)
Lemma sha256_streaming_witness :
  (self ← hash_reads Sha256_new [bytes "a"; bytes "bc"; []]; finish self)
  = Ok (sha256 (bytes "abc")) ∧
  u8 <$> take 4 (sha256 (bytes "abc")) = [0xba; 0x78; 0x16; 0xbf].
Proof.
  split; [| vm_compute; reflexivity].
  apply (sha256_streaming [bytes "a"; bytes "bc"]).
  do 2 (apply Forall_cons; [discriminate |]). constructor.
Defined.
