(* ===== verification/FsProtocol.v ===== *)
(** The wire format of the filesystem helper
    (crates/tuxstack-fs-protocol/src/lib.rs): error codes, base64 byte fields
    and path tokens.

    A [String] is the list of its bytes; error messages of this crate are
    strings too. *)

From S2P Require Import Prelude Error Path.

Local Open Scope Z_scope.

Definition FS_HELPER_PROTOCOL_VERSION : Z := 1.

(** ** Error codes *)
Inductive HelperErrorCode :=
  | InvalidArgs | InvalidToken | PathEscapeRejected | HelperNotFound | HelperNotDirectory
  | HelperIsDirectory | HelperPermissionDenied | HelperSymlinkLoop | UnsupportedFileType | HelperIo.

Definition HelperErrorCode_as_str (self : HelperErrorCode) : string :=
  match self with
  | InvalidArgs => "invalid_args"
  | InvalidToken => "invalid_token"
  | PathEscapeRejected => "path_escape_rejected"
  | HelperNotFound => "not_found"
  | HelperNotDirectory => "not_directory"
  | HelperIsDirectory => "is_directory"
  | HelperPermissionDenied => "permission_denied"
  | HelperSymlinkLoop => "symlink_loop"
  | UnsupportedFileType => "unsupported_file_type"
  | HelperIo => "io"
  end.

(** A result whose error is a message. *)
Abbreviation sres := (result (list byte)).

(** ** Base64 *)
Definition B64_ALPHABET : list byte :=
  bytes "ABCDEFGHIJKLMNOPQRSTUVWXYZabcdefghijklmnopqrstuvwxyz0123456789+/".

Definition b64_char (v : Z) : byte := nth (Z.to_nat v) B64_ALPHABET "000"%byte.

(** The body of the loop over [data.chunks(3)]. *)
Definition encode_chunk (chunk : list byte) : list byte :=
  let b0 := u8 (nth 0 chunk "000"%byte) in
  let b1 := u8 (nth 1 chunk "000"%byte) in
  let b2 := u8 (nth 2 chunk "000"%byte) in
  let triple := Z.lor (Z.lor (Z.shiftl b0 16) (Z.shiftl b1 8)) b2 in
  [b64_char (Z.land (Z.shiftr triple 18) 63);
   b64_char (Z.land (Z.shiftr triple 12) 63);
   if (1 <? length chunk)%nat then b64_char (Z.land (Z.shiftr triple 6) 63) else "="%byte;
   if (2 <? length chunk)%nat then b64_char (Z.land triple 63) else "="%byte].

Fixpoint encode_base64 (data : list byte) : list byte :=
  match data with
  | [] => []
  | b0 :: b1 :: b2 :: rest => encode_chunk [b0; b1; b2] ++ encode_base64 rest
  | chunk => encode_chunk chunk
  end.

(** The nested function [value]. *)
Definition b64_value (b : byte) : option Z :=
  let v := u8 b in
  if (65 <=? v) && (v <=? 90) then Some (v - 65)
  else if (97 <=? v) && (v <=? 122) then Some (v - 97 + 26)
  else if (48 <=? v) && (v <=? 57) then Some (v - 48 + 52)
  else if bool_decide (b = "+"%byte) then Some 62
  else if bool_decide (b = "/"%byte) then Some 63
  else None.

(** [quad[i]] *)
Definition b64_quad (b : byte) : sres Z :=
  if bool_decide (b = "="%byte) then Ok 0
  else ok_or (bytes "invalid base64 character") (b64_value b).

(** The body of the loop over [clean.chunks(4)], for a chunk of four. *)
Definition decode_chunk (c0 c1 c2 c3 : byte) : sres (list byte) :=
  q0 ← b64_quad c0;
  q1 ← b64_quad c1;
  q2 ← b64_quad c2;
  q3 ← b64_quad c3;
  let triple := Z.lor (Z.lor (Z.lor (Z.shiftl q0 18) (Z.shiftl q1 12)) (Z.shiftl q2 6)) q3 in
  Ok ([of_u8 (Z.shiftr triple 16)]
      ++ (if bool_decide (c2 = "="%byte) then [] else [of_u8 (Z.shiftr triple 8)])
      ++ (if bool_decide (c3 = "="%byte) then [] else [of_u8 triple])).

(** The loop; a rest of fewer than four bytes was excluded by the length check. *)
Fixpoint b64_decode_loop (clean : list byte) : sres (list byte) :=
  match clean with
  | c0 :: c1 :: c2 :: c3 :: rest =>
      out ← decode_chunk c0 c1 c2 c3;
      outs ← b64_decode_loop rest;
      Ok (out ++ outs)
  | _ => Ok []
  end.

Definition is_ascii_whitespace (b : byte) : bool :=
  bool_decide (b ∈ [" "; "009"; "010"; "012"; "013"]%byte).

Definition decode_base64 (input : list byte) : sres (list byte) :=
  let clean := List.filter (fun b => negb (is_ascii_whitespace b)) input in
  if negb (Z.of_nat (length clean) mod 4 =? 0) then Err (bytes "invalid base64 length")
  else b64_decode_loop clean.

(** ** Path tokens *)
Definition PATH_TOKEN_VERSION : list byte := bytes "v1".

Record FilesystemPathToken := mkFilesystemPathToken { token_str : list byte }.

(** The loop over [relative.split('/')]. *)
Fixpoint validate_parts (parts : list (list byte)) : sres () :=
  match parts with
  | [] => Ok tt
  | part :: parts =>
      if bool_decide (part = bytes "..") then Err (bytes "path token must not contain '..'")
      else if bool_decide (part = bytes ".") then Err (bytes "path token must not contain '.'")
      else if is_empty part then Err (bytes "path token must not contain empty components")
      else validate_parts parts
  end.

Definition validate_relative (relative : list byte) : sres () :=
  if is_empty relative then Ok tt
  else if bool_decide (head relative = Some "/"%byte)
  then Err (bytes "path token must be root-relative, not absolute")
  else if contains "000"%byte relative then Err (bytes "path token contains a NUL byte")
  else validate_parts (split_on "/"%byte relative).

Definition encode_relative (relative : list byte) : sres FilesystemPathToken :=
  _ ← validate_relative relative;
  Ok (mkFilesystemPathToken (PATH_TOKEN_VERSION ++ ":"%byte :: encode_base64 relative)).

(** [str::strip_prefix] *)
Fixpoint strip_prefix (pre s : list byte) : option (list byte) :=
  match pre, s with
  | [], _ => Some s
  | p :: pre, c :: s => if bool_decide (p = c) then strip_prefix pre s else None
  | _ :: _, [] => None
  end.

Definition decode_relative (self : FilesystemPathToken) : sres (list byte) :=
  match strip_prefix (PATH_TOKEN_VERSION ++ [":"%byte]) (token_str self) with
  | None => Err (bytes "unsupported path token version: " ++ token_str self)
  | Some rest =>
      bs ← match decode_base64 rest with
           | Err message => Err (bytes "invalid path token encoding: " ++ message)
           | r => r
           end;
      _ ← validate_relative bs;
      Ok bs
  end.

Definition root_token : sres FilesystemPathToken :=
  expect "root token is always valid" (encode_relative []).

Definition token_is_root (self : FilesystemPathToken) : bool :=
  match decode_relative self with Ok b => is_empty b | _ => false end.

(** ** Base64 round trip *)
Lemma b64_value_char v : 0 ≤ v < 64 → b64_value (b64_char v) = Some v.
Proof.
  intros Hv. assert (v ∈ Z.of_nat <$> seq 0 64) as Hin.
  { apply list_elem_of_fmap. exists (Z.to_nat v). split; [lia |]. apply elem_of_seq. lia. }
  revert v Hin Hv.
  assert (Forall (fun v => b64_value (b64_char v) = Some v) (Z.of_nat <$> seq 0 64)) as H
    by (apply (bool_decide_unpack _); vm_compute; exact I).
  intros v Hin _. by apply (proj1 (list.Forall_forall _ _) H).
Qed.

Lemma b64_char_plain v :
  0 ≤ v < 64 → b64_char v ≠ "="%byte ∧ is_ascii_whitespace (b64_char v) = false.
Proof.
  intros Hv. assert (v ∈ Z.of_nat <$> seq 0 64) as Hin.
  { apply list_elem_of_fmap. exists (Z.to_nat v). split; [lia |]. apply elem_of_seq. lia. }
  assert (Forall (fun v => b64_char v ≠ "="%byte ∧ is_ascii_whitespace (b64_char v) = false)
            (Z.of_nat <$> seq 0 64)) as H
    by (apply (bool_decide_unpack _); vm_compute; exact I).
  by apply (proj1 (list.Forall_forall _ _) H).
Qed.

Lemma b64_quad_char v : 0 ≤ v < 64 → b64_quad (b64_char v) = Ok v.
Proof.
  intros Hv. unfold b64_quad. rewrite bool_decide_eq_false_2 by (by apply b64_char_plain).
  by rewrite b64_value_char.
Qed.

Lemma b64_quad_pad : b64_quad "="%byte = Ok 0.
Proof. done. Qed.

Lemma Z_lor_add a n b : 0 ≤ n → 0 ≤ b < 2 ^ n → Z.lor (a * 2 ^ n) b = a * 2 ^ n + b.
Proof.
  intros Hn Hb. apply Z_lor_disjoint. apply Z.bits_inj'. intros i Hi. rewrite Z.land_spec, Z.bits_0.
  destruct (Z.lt_ge_cases i n) as [Hlt|Hge].
  - by rewrite Z.mul_pow2_bits_low.
  - rewrite (Z_testbit_small b i) by (pose proof (Z.pow_le_mono_r 2 n i ltac:(lia) ltac:(lia)); lia).
    apply andb_false_r.
Qed.

(** The three bytes of a group, and the four values of a group. *)
Lemma triple_value b0 b1 b2 :
  0 ≤ b1 < 256 → 0 ≤ b2 < 256 →
  Z.lor (Z.lor (Z.shiftl b0 16) (Z.shiftl b1 8)) b2 = b0 * 65536 + b1 * 256 + b2.
Proof.
  intros H1 H2. rewrite !Z.shiftl_mul_pow2, Z_lor_add by lia.
  replace (b0 * 2 ^ 16 + b1 * 2 ^ 8) with ((b0 * 256 + b1) * 2 ^ 8) by lia. rewrite Z_lor_add by lia. lia.
Qed.

Lemma quads_value q0 q1 q2 q3 :
  0 ≤ q1 < 64 → 0 ≤ q2 < 64 → 0 ≤ q3 < 64 →
  Z.lor (Z.lor (Z.lor (Z.shiftl q0 18) (Z.shiftl q1 12)) (Z.shiftl q2 6)) q3
  = q0 * 262144 + q1 * 4096 + q2 * 64 + q3.
Proof.
  intros H1 H2 H3. rewrite !Z.shiftl_mul_pow2, Z_lor_add by lia.
  replace (q0 * 2 ^ 18 + q1 * 2 ^ 12) with ((q0 * 64 + q1) * 2 ^ 12) by lia. rewrite Z_lor_add by lia.
  replace ((q0 * 64 + q1) * 2 ^ 12 + q2 * 2 ^ 6) with ((q0 * 4096 + q1 * 64 + q2) * 2 ^ 6) by lia.
  rewrite Z_lor_add by lia. lia.
Qed.

Lemma sextet_value t n : 0 ≤ n → Z.land (Z.shiftr t n) 63 = (t / 2 ^ n) mod 64.
Proof. intros Hn. change 63 with (Z.ones 6). rewrite Z.land_ones, Z.shiftr_div_pow2 by lia. done. Qed.

Lemma of_u8_of_mod z b : z mod 256 = u8 b → of_u8 z = b.
Proof. intros H. apply u8_inj. by rewrite u8_of_u8_mod. Qed.

Definition not_space (b : byte) : Prop := is_ascii_whitespace b = false.

(** The four sextets of three bytes, and back. *)
Lemma sextets b0 b1 b2 :
  0 ≤ b0 < 256 → 0 ≤ b1 < 256 → 0 ≤ b2 < 256 →
  let t := b0 * 65536 + b1 * 256 + b2 in
  let q n := (t / 2 ^ n) mod 64 in
  0 ≤ q 18 < 64 ∧ 0 ≤ q 12 < 64 ∧ 0 ≤ q 6 < 64 ∧ 0 ≤ q 0 < 64 ∧
  q 18 * 262144 + q 12 * 4096 + q 6 * 64 + q 0 = t.
Proof.
  intros H0 H1 H2 t q. unfold q, t.
  change (2 ^ 18) with 262144. change (2 ^ 12) with 4096. change (2 ^ 6) with 64. change (2 ^ 0) with 1.
  Z.to_euclidean_division_equations. lia.
Qed.

(** Without the third byte the last sextet is zero, and without the second one
    the last two are. *)
Lemma sextets_short b0 b1 :
  0 ≤ b0 < 256 → 0 ≤ b1 < 256 →
  ((b0 * 65536 + b1 * 256) / 2 ^ 0) mod 64 = 0 ∧ ((b0 * 65536) / 2 ^ 6) mod 64 = 0.
Proof.
  intros H0 H1. change (2 ^ 6) with 64. change (2 ^ 0) with 1. Z.to_euclidean_division_equations. lia.
Qed.

Lemma decode_encode_chunk chunk :
  (0 < length chunk ≤ 3)%nat →
  ∃ c0 c1 c2 c3, encode_chunk chunk = [c0; c1; c2; c3] ∧ decode_chunk c0 c1 c2 c3 = Ok chunk ∧
                 Forall not_space [c0; c1; c2; c3].
Proof.
  intros Hl. unfold encode_chunk.
  set (x0 := nth 0 chunk "000"%byte). set (x1 := nth 1 chunk "000"%byte). set (x2 := nth 2 chunk "000"%byte).
  pose proof (u8_range x0) as R0. pose proof (u8_range x1) as R1. pose proof (u8_range x2) as R2.
  rewrite triple_value by done. set (t := u8 x0 * 65536 + u8 x1 * 256 + u8 x2).
  assert (Z.land t 63 = (t / 2 ^ 0) mod 64) as -> by (rewrite <- sextet_value by lia; by rewrite Z.shiftr_0_r).
  rewrite !sextet_value by lia. destruct (sextets (u8 x0) (u8 x1) (u8 x2) R0 R1 R2) as (Q0 & Q1 & Q2 & Q3 & Hsum).
  fold t in Q0, Q1, Q2, Q3, Hsum. destruct (sextets_short (u8 x0) (u8 x1) R0 R1) as [S3 S2].
  assert (of_u8 (Z.shiftr t 16) = x0 ∧ of_u8 (Z.shiftr t 8) = x1 ∧ of_u8 t = x2) as (T0 & T1 & T2).
  { rewrite !Z.shiftr_div_pow2 by lia. change (2 ^ 16) with 65536. change (2 ^ 8) with 256. unfold t.
    split_and!; apply of_u8_of_mod; Z.to_euclidean_division_equations; lia. }
  do 4 eexists. split; [done |]. unfold decode_chunk.
  destruct chunk as [|a [|b [|c [|]]]]; cbn [length] in Hl; try lia; cbn [length Nat.ltb Nat.leb].
  - assert (t = u8 x0 * 65536) as Ht by (unfold t; change (u8 x1) with 0; change (u8 x2) with 0; lia).
    rewrite b64_quad_pad, !b64_quad_char by done. cbn [mbind result_bind].
    rewrite Ht, S2 in Hsum. assert ((u8 x0 * 65536 / 2 ^ 0) mod 64 = 0) as S0 by
      (clear; change (2 ^ 0) with 1; Z.to_euclidean_division_equations; lia).
    rewrite S0 in Hsum. rewrite quads_value by lia. rewrite <- Ht in Hsum. rewrite Hsum. split; [by rewrite T0 |].
    repeat constructor; by apply b64_char_plain.
  - assert (t = u8 x0 * 65536 + u8 x1 * 256) as Ht by (unfold t; change (u8 x2) with 0; lia).
    rewrite b64_quad_pad, !b64_quad_char by done. cbn [mbind result_bind].
    rewrite bool_decide_eq_false_2 by (by apply b64_char_plain).
    rewrite <- Ht in S3. rewrite S3 in Hsum. rewrite quads_value, Hsum by lia. split; [by rewrite T0, T1 |].
    repeat constructor; by apply b64_char_plain.
  - rewrite !b64_quad_char by done. cbn [mbind result_bind].
    rewrite !bool_decide_eq_false_2 by (by apply b64_char_plain).
    rewrite quads_value, Hsum by lia. split; [by rewrite T0, T1, T2 |].
    repeat constructor; by apply b64_char_plain.
Qed.

Lemma encode_base64_spec data :
  Forall not_space (encode_base64 data) ∧ (length (encode_base64 data) mod 4 = 0)%nat ∧
  b64_decode_loop (encode_base64 data) = Ok data.
Proof.
  remember (length data) as n eqn:Hn. revert data Hn.
  induction n as [n IH] using (well_founded_induction lt_wf). intros data ->.
  assert (∀ chunk rest, (0 < length chunk ≤ 3)%nat → data = chunk ++ rest →
          encode_base64 data = encode_chunk chunk ++ encode_base64 rest →
          Forall not_space (encode_base64 data) ∧ (length (encode_base64 data) mod 4 = 0)%nat ∧
          b64_decode_loop (encode_base64 data) = Ok data) as Hstep.
  { intros chunk rest Hc Hd ->.
    destruct (decode_encode_chunk chunk Hc) as (c0 & c1 & c2 & c3 & -> & Hdec & Hsp).
    destruct (IH (length rest)) with (data := rest) as (H1 & H2 & H3); [rewrite Hd, length_app; lia | done |].
    split_and!.
    - apply Forall_app. done.
    - cbn [app length]. rewrite <- H2 at 2. clear. set (k := length (encode_base64 rest)).
      change (S (S (S (S k)))) with (4 + k)%nat. rewrite <- Nat.Div0.add_mod_idemp_l. done.
    - cbn [app b64_decode_loop]. rewrite Hdec. cbn [mbind result_bind]. rewrite H3. cbn. by rewrite Hd. }
  destruct data as [|a [|b [|c rest]]]; [done | | |].
  - apply (Hstep [a] []); [cbn; lia | done | done].
  - apply (Hstep [a; b] []); [cbn; lia | done | done].
  - apply (Hstep [a; b; c] rest); [cbn; lia | done | done].
Qed.

Lemma filter_all {A} (f : A → bool) l : Forall (fun a => f a = true) l → List.filter f l = l.
Proof. induction 1 as [|a l Ha Hl IH]; cbn; [done |]. by rewrite Ha, IH. Qed.

Lemma decode_encode_base64 data : decode_base64 (encode_base64 data) = Ok data.
Proof.
  destruct (encode_base64_spec data) as (H1 & H2 & H3). unfold decode_base64.
  rewrite filter_all by (eapply Forall_impl; [| exact H1]; intros b Hb; cbn; by rewrite Hb).
  rewrite <- (Nat2Z.inj_mod _ 4), H2. exact H3.
Qed.

(** ** Tokens *)
Definition part_ok (part : list byte) : Prop := part ≠ [] ∧ part ≠ bytes "." ∧ part ≠ bytes "..".

(** The paths a token may carry: the root, or components without traversal. *)
Definition relative_ok (relative : list byte) : Prop :=
  relative = [] ∨ "000"%byte ∉ relative ∧ Forall part_ok (split_on "/"%byte relative).

Lemma validate_parts_ok parts : validate_parts parts = Ok tt ↔ Forall part_ok parts.
Proof.
  induction parts as [|part parts IH]; cbn; [done |]. rewrite Forall_cons_iff, <- IH. unfold part_ok.
  repeat case_bool_decide; [naive_solver | naive_solver |].
  destruct (is_empty part) eqn:E; [apply is_empty_true in E; naive_solver | apply is_empty_false in E; naive_solver].
Qed.

Lemma validate_relative_ok relative : validate_relative relative = Ok tt ↔ relative_ok relative.
Proof.
  unfold validate_relative, relative_ok, contains. destruct relative as [|b rest]; cbn [is_empty head].
  { split; [by left | done]. }
  case_bool_decide as Hb.
  { injection Hb as ->. split; [done |]. intros [|[_ Hp]]; [done |]. cbn in Hp.
    apply Forall_cons_iff in Hp as [[Hp _] _]. done. }
  case_bool_decide as H0; [split; [done |]; intros [|[? _]]; done |].
  rewrite validate_parts_ok. naive_solver.
Qed.

Lemma strip_prefix_app pre s : strip_prefix pre (pre ++ s) = Some s.
Proof. induction pre as [|p pre IH]; cbn; [done |]. by rewrite bool_decide_eq_true_2. Qed.

Lemma encode_relative_ok relative :
  relative_ok relative → ∃ t, encode_relative relative = Ok t ∧ decode_relative t = Ok relative.
Proof.
  intros H%validate_relative_ok. unfold encode_relative. rewrite H. eexists. split; [done |].
  unfold decode_relative. cbn [token_str].
  change (PATH_TOKEN_VERSION ++ ":"%byte :: encode_base64 relative)
    with ((PATH_TOKEN_VERSION ++ [":"%byte]) ++ encode_base64 relative).
  rewrite strip_prefix_app, decode_encode_base64. cbn [mbind result_bind]. by rewrite H.
Qed.

Lemma decode_relative_ok t relative : decode_relative t = Ok relative → relative_ok relative.
Proof.
  unfold decode_relative. destruct (strip_prefix _ _) as [rest|]; [| done].
  destruct (decode_base64 rest); cbn; [| done | done].
  destruct (validate_relative a) as [[]| |] eqn:E; cbn; [| done | done]. intros [= <-].
  by apply validate_relative_ok.
Qed.

(** ** Properties *)

(** Byte fields survive the wire.  Decoding the base64 encoding of any bytes
    gives them back, whatever their number modulo three. *)
Theorem base64_roundtrip (data : list byte) : decode_base64 (encode_base64 data) = Ok data.
Proof. apply decode_encode_base64. Qed.
