(* ===== verification/FsHelper.v ===== *)
(** The filesystem helper (crates/tuxstack-fs-helper/src): tokens under a browse
    root, canonicalisation and confinement, and the commands [list], [stat],
    [preview], [hash] and [readlink].

    The file system is a parameter: what the calls of [std::fs] return for a
    path.  A path handed to it is a list of bytes; a canonical path is a list of
    components below "/", and the browse root is an absolute path.  Of an error only its stable code is kept; the message
    is meant for humans.  A command returns the messages it emitted and how it
    ended. *)

From S2P Require Import Prelude Error Path Numbers FsProtocol.
From S2P Require Sha256.
From stdpp Require sorting.

Local Open Scope Z_scope.

(** ** Errors and messages *)
Abbreviation hres := (result HelperErrorCode).

(** [std::io::ErrorKind], the kinds the helper tells apart. *)
Inductive IoKind := KNotFound | KPermissionDenied | KIsADirectory | KNotADirectory | KOther.

Definition from_io (error : IoKind) : HelperErrorCode :=
  match error with
  | KNotFound => HelperNotFound
  | KPermissionDenied => HelperPermissionDenied
  | KIsADirectory => HelperIsDirectory
  | KNotADirectory => HelperNotDirectory
  | KOther => HelperIo
  end.

Definition map_err {E E' A} (f : E → E') (r : result E A) : result E' A :=
  match r with Ok a => Ok a | Err e => Err (f e) | Panic s => Panic s end.

Inductive HelperFileType :=
  | FtDirectory | FtFile | FtSymlink | FtSocket | FtFifo | FtBlockDevice | FtCharacterDevice | FtUnknown.

#[export] Instance HelperFileType_eq_dec : EqDecision HelperFileType.
Proof. solve_decision. Defined.

(** What [metadata] and [symlink_metadata] report of a file. *)
Record Metadata := mkMetadata {
  md_type : HelperFileType;
  md_len : Z;
  md_mtime : Z;
  md_mode : Z;
  md_uid : Z;
  md_gid : Z;
}.

Record MessageFields := mkMessageFields {
  mf_file_type : HelperFileType;
  mf_size : option Z;
  mf_mtime : option Z;
  mf_mode : option Z;
  mf_uid : option Z;
  mf_gid : option Z;
  mf_symlink_target_b64 : option (list byte);
  mf_readable : bool;
}.

Inductive HelperMessage :=
  | MsgHello (protocol : Z) (helper_version : list byte)
  | MsgEntry (name_b64 path_token : list byte) (fields : MessageFields)
  | MsgStat (path_token : list byte) (fields : MessageFields)
  | MsgPreviewChunk (data_b64 : list byte) (offset : Z) (eof truncated : bool)
  | MsgHash (algorithm value : list byte)
  | MsgResolved (path_token : list byte)
  | MsgEnd (truncated : bool) (next_cursor : option (list byte))
  | MsgError (code : HelperErrorCode).

(** The calls of [std::fs] that the helper makes.  An open file is its content
    and, for each successive read, an error or the number of bytes the system
    returns at most; after the last of them it is at its end. *)
Class HelperFs := {
  fs_metadata : list byte → result IoKind Metadata;
  fs_symlink_metadata : list byte → result IoKind Metadata;
  fs_read_link : list byte → result IoKind (list byte);
  fs_read_dir : list byte → result IoKind (list (result IoKind (list byte)));
  fs_open : list byte → result IoKind (list byte * list (result IoKind nat));
}.

(** ** Tokens under the browse root *)
Definition ends_with_slash (l : list byte) : bool := bool_decide (list.last l = Some "/"%byte).

Definition decode_token (token : list byte) : hres (list byte) :=
  map_err (fun _ => InvalidToken) (decode_relative (mkFilesystemPathToken token)).

Definition resolve_token (root token : list byte) : hres (list byte) :=
  relative ← map_err (fun _ => InvalidToken) (decode_relative (mkFilesystemPathToken token));
  Ok (if is_empty relative then root
      else (if ends_with_slash root then root else root ++ ["/"%byte]) ++ relative).

Definition child_token (parent_relative name : list byte) : hres FilesystemPathToken :=
  let relative :=
    parent_relative ++ (if is_empty parent_relative then [] else ["/"%byte]) ++ name in
  map_err (fun _ => InvalidToken) (encode_relative relative).

Definition token_under_root (root absolute : list byte) : hres FilesystemPathToken :=
  relative ←
    (if bool_decide (absolute = root) then Ok []
     else match strip_prefix root absolute with
          | Some rest => Ok (default rest (strip_prefix ["/"%byte] rest))
          | None => Err PathEscapeRejected
          end);
  map_err (fun _ => InvalidToken) (encode_relative relative).

(** ** Canonical paths *)

(** [Path::components] without the root: empty pieces and dots are dropped. *)
Definition path_pieces (path : list byte) : list (list byte) :=
  List.filter (fun c => negb (is_empty c || bool_decide (c = bytes "."))) (split_on "/"%byte path).

(** [Path] from components below the root. *)
Definition path_render (cs : list (list byte)) : list byte := "/"%byte :: join_with "/"%byte cs.

(** The loop of [normalize] over the components: a parent of the root is the root. *)
Definition normalize_step (out : list (list byte)) (c : list byte) : list (list byte) :=
  if bool_decide (c = bytes "..") then take (length out - 1) out else out ++ [c].
Definition normalize (pieces : list (list byte)) : list (list byte) := foldl normalize_step [] pieces.

Definition MAX_SYMLINK_HOPS : nat := 40.

Section commands.
Context {FS : HelperFs}.

(** The [for] loop of [canonicalize]: the whole path when no component is a
    link, or the path to restart from after the first link. *)
Fixpoint walk (result_ : list (list byte)) (cs : list (list byte)) (hops : nat)
  : hres (list (list byte) + list (list byte)) :=
  match cs with
  | [] => Ok (inl result_)
  | c :: rest =>
      let next := result_ ++ [c] in
      meta ← map_err from_io (fs_symlink_metadata (path_render next));
      if bool_decide (md_type meta = FtSymlink) then
        if (MAX_SYMLINK_HOPS <? S hops)%nat then Err HelperSymlinkLoop
        else
          target ← map_err from_io (fs_read_link (path_render next));
          Ok (inr (normalize
                (if bool_decide (head target = Some "/"%byte)
                 then path_pieces target ++ rest
                 else result_ ++ path_pieces target ++ rest)))
      else walk next rest hops
  end.

(** The outer loop; [n] restarts are left. *)
Fixpoint canonicalize_loop (n hops : nat) (current : list (list byte)) : hres (list (list byte)) :=
  _ ← map_err from_io (fs_symlink_metadata (bytes "/"));
  r ← walk [] current hops;
  match r with
  | inl result_ => Ok result_
  | inr current =>
      match n with
      | O => Panic "canonicalize out of fuel"
      | S n => canonicalize_loop n (S hops) current
      end
  end.

Definition canonicalize (path : list byte) : hres (list (list byte)) :=
  canonicalize_loop MAX_SYMLINK_HOPS 0 (normalize (path_pieces path)).

Definition confine_to_root (root path : list byte) : hres (list (list byte)) :=
  canonical ← canonicalize path;
  root_canonical ← canonicalize root;
  if negb (bool_decide (root_canonical `prefix_of` canonical)) then Err PathEscapeRejected
  else Ok canonical.

(** ** Commands *)
Record Flags := mkFlags {
  fl_root : list byte;
  fl_token : list byte;
  fl_show_hidden : bool;
  fl_limit : option Z;
  fl_cursor : option (list byte);
  fl_offset : Z;
  fl_read_limit : Z;
  fl_algorithm : list byte;
}.

Definition Flags_default : Flags :=
  mkFlags (bytes "/") [] false None None 0 (64 * 1024) (bytes "sha256").

(** One flag: the new flags, whether it was the token, and the rest. *)
Definition parse_flag (flags : Flags) (arg : list byte) (iter : list (list byte))
  : hres (Flags * bool * list (list byte)) :=
  let '(mkFlags root token hidden limit cursor offset read_limit algorithm) := flags in
  if bool_decide (arg = bytes "--show-hidden")
  then Ok (mkFlags root token true limit cursor offset read_limit algorithm, false, iter)
  else if bool_decide (arg ∈ [bytes "--root"; bytes "--path-token"; bytes "--limit"; bytes "--cursor";
                              bytes "--offset"; bytes "--limit-bytes"; bytes "--algorithm"]) then
    match iter with
    | [] => Err InvalidArgs
    | value :: iter =>
        if bool_decide (arg = bytes "--root")
        then Ok (mkFlags value token hidden limit cursor offset read_limit algorithm, false, iter)
        else if bool_decide (arg = bytes "--path-token")
        then Ok (mkFlags root value hidden limit cursor offset read_limit algorithm, true, iter)
        else if bool_decide (arg = bytes "--limit") then
          n ← ok_or InvalidArgs (parse_unsigned usize_max value);
          Ok (mkFlags root token hidden (Some n) cursor offset read_limit algorithm, false, iter)
        else if bool_decide (arg = bytes "--cursor")
        then Ok (mkFlags root token hidden limit (Some value) offset read_limit algorithm, false, iter)
        else if bool_decide (arg = bytes "--offset") then
          n ← ok_or InvalidArgs (parse_unsigned u64_max value);
          Ok (mkFlags root token hidden limit cursor n read_limit algorithm, false, iter)
        else if bool_decide (arg = bytes "--limit-bytes") then
          n ← ok_or InvalidArgs (parse_unsigned u64_max value);
          Ok (mkFlags root token hidden limit cursor offset n algorithm, false, iter)
        else Ok (mkFlags root token hidden limit cursor offset read_limit value, false, iter)
    end
  else Err InvalidArgs.

(** [while let Some(arg) = iter.next()]; a turn takes at least one argument, so
    their number is enough fuel. *)
Fixpoint parse_flags_loop (fuel : nat) (flags : Flags) (seen_token : bool) (args : list (list byte)) : hres Flags :=
  match args with
  | [] => if seen_token then Ok flags else Err InvalidArgs
  | arg :: iter =>
      match fuel with
      | O => Panic "parse_flags out of fuel"
      | S fuel =>
          '(flags, seen, iter) ← parse_flag flags arg iter;
          parse_flags_loop fuel flags (seen_token || seen) iter
      end
  end.

Definition parse_flags (args : list (list byte)) : hres Flags :=
  parse_flags_loop (length args) Flags_default false args.

Definition is_readable (meta : Metadata) : bool := negb (Z.land (md_mode meta) 292 =? 0).

Definition message_fields (path : list byte) (meta : Metadata) : hres MessageFields :=
  let file_type := md_type meta in
  let size := if bool_decide (file_type = FtDirectory) then None else Some (md_len meta) in
  target ← (if bool_decide (file_type = FtSymlink) then
              target ← map_err from_io (fs_read_link path);
              Ok (Some (encode_base64 target))
            else Ok None);
  Ok (mkMessageFields file_type size (Some (md_mtime meta)) (Some (Z.land (md_mode meta) 4095))
        (Some (md_uid meta)) (Some (md_gid meta)) target (is_readable meta)).

Definition entry_message (path name_raw parent_relative : list byte) (meta : Metadata) : hres HelperMessage :=
  fields ← message_fields path meta;
  token ← child_token parent_relative name_raw;
  Ok (MsgEntry (encode_base64 name_raw) (token_str token) fields).

Definition stat_message (path token : list byte) (meta : Metadata) : hres HelperMessage :=
  fields ← message_fields path meta;
  Ok (MsgStat token fields).

Definition RUNTIME_ROOT_DIRS : list (list byte) := [bytes "proc"; bytes "sys"; bytes "dev"; bytes "run"].
Definition HELPER_ROOT_NAME : list byte := bytes ".tuxstack".

(** The conditions of the [for item in reader] loop. *)
Definition list_skips (is_browse_root show_hidden : bool) (cursor : option (list byte)) (raw : list byte) : bool :=
  bool_decide (raw = bytes ".") || bool_decide (raw = bytes "..")
  || (is_browse_root && (bool_decide (raw ∈ RUNTIME_ROOT_DIRS) || bool_decide (raw = HELPER_ROOT_NAME)))
  || (negb show_hidden && bool_decide (head raw = Some "."%byte))
  || match cursor with
     | Some c => bool_decide (bytes_cmp raw c ≠ Gt)
     | None => false
     end.

Fixpoint collect_names (skips : list byte → bool) (items : list (result IoKind (list byte)))
  (names : list (list byte)) : hres (list (list byte)) :=
  match items with
  | [] => Ok names
  | item :: items =>
      raw ← map_err from_io item;
      if skips raw then collect_names skips items names
      else collect_names skips items (names ++ [raw])
  end.

(** Page, truncation flag and next cursor of the sorted names. *)
Definition list_page (names : list (list byte)) (limit : option Z)
  : hres (list (list byte) * bool * option (list byte)) :=
  let page_limit := Z.min (default usize_max limit) (len names) in
  let truncated := page_limit <? len names in
  next_cursor ←
    (if truncated then
       if page_limit - 1 <? 0 then Panic "attempt to subtract with overflow"
       else Ok (encode_base64 <$> names !! Z.to_nat (page_limit - 1))
     else Ok None);
  Ok (take (Z.to_nat page_limit) names, truncated, next_cursor).

(** [dir.join(name)] for a name without slashes. *)
Definition path_join (dir name : list byte) : list byte :=
  (if is_empty dir || ends_with_slash dir then dir else dir ++ ["/"%byte]) ++ name.

Fixpoint emit_entries (dir relative : list byte) (page : list (list byte)) (out : list HelperMessage)
  : list HelperMessage * hres () :=
  match page with
  | [] => (out, Ok tt)
  | name :: page =>
      match meta ← map_err from_io (fs_symlink_metadata (path_join dir name));
            entry_message (path_join dir name) name relative meta with
      | Ok message => emit_entries dir relative page (out ++ [message])
      | Err e => (out, Err e)
      | Panic s => (out, Panic s)
      end
  end.

Definition list_names (flags : Flags) : hres (list byte * list byte * list (list byte)) :=
  dir ← resolve_token (fl_root flags) (fl_token flags);
  relative ← decode_token (fl_token flags);
  meta ← map_err from_io (fs_metadata dir);
  if negb (bool_decide (md_type meta = FtDirectory)) then Err HelperNotDirectory
  else
    reader ← map_err from_io (fs_read_dir dir);
    cursor ← match fl_cursor flags with
             | Some cursor => Some <$> map_err (fun _ => InvalidToken) (decode_base64 cursor)
             | None => Ok None
             end;
    names ← collect_names (list_skips (is_empty relative) (fl_show_hidden flags) cursor) reader [];
    Ok (dir, relative, sort_by bytes_cmp names).

Definition list_run (flags : Flags) : list HelperMessage * hres () :=
  match '(dir, relative, names) ← list_names flags;
        '(page, truncated, next_cursor) ← list_page names (fl_limit flags);
        Ok (dir, relative, page, truncated, next_cursor) with
  | Err e => ([], Err e)
  | Panic s => ([], Panic s)
  | Ok (dir, relative, page, truncated, next_cursor) =>
      match emit_entries dir relative page [] with
      | (out, Ok _) => (out ++ [MsgEnd truncated next_cursor], Ok tt)
      | r => r
      end
  end.

Definition stat_run (flags : Flags) : list HelperMessage * hres () :=
  match path ← resolve_token (fl_root flags) (fl_token flags);
        meta ← map_err from_io (fs_symlink_metadata path);
        stat_message path (fl_token flags) meta with
  | Ok message => ([message], Ok tt)
  | Err e => ([], Err e)
  | Panic s => ([], Panic s)
  end.

Definition CHUNK_SIZE : Z := 32 * 1024.

(** [while remaining > 0 { … }]: a read returns at most what is wanted, what the
    file still has, and what the system gives; an empty read ends the loop. *)
Fixpoint preview_loop (reads : list (result IoKind nat)) (content : list byte) (position remaining : Z)
  (truncated : bool) (out : list HelperMessage) : list HelperMessage * hres () :=
  if remaining <=? 0 then (out, Ok tt)
  else
    match reads with
    | [] => (out, Ok tt)
    | Err e :: _ => (out, Err (from_io e))
    | Panic s :: _ => (out, Panic s)
    | Ok size :: reads =>
        let want := Z.to_nat (Z.min remaining CHUNK_SIZE) in
        let data := take (Nat.min want size) content in
        if is_empty data then (out, Ok tt)
        else
          preview_loop reads (drop (length data) content) (position + len data) (remaining - len data) truncated
            (out ++ [MsgPreviewChunk (encode_base64 data) position (remaining - len data =? 0) truncated])
    end.

Definition preview_run (flags : Flags) : list HelperMessage * hres () :=
  match raw_path ← resolve_token (fl_root flags) (fl_token flags);
        safe ← confine_to_root (fl_root flags) raw_path;
        meta ← map_err from_io (fs_metadata (path_render safe));
        if bool_decide (md_type meta = FtDirectory) then Err HelperIsDirectory
        else if negb (bool_decide (md_type meta = FtFile)) && negb (bool_decide (md_type meta = FtSymlink))
        then Err UnsupportedFileType
        else Ok (path_render safe, md_len meta) with
  | Err e => ([], Err e)
  | Panic s => ([], Panic s)
  | Ok (safe, size) =>
      let offset := fl_offset flags in
      let limit := fl_read_limit flags in
      let end_ := Z.min (saturating_add u64_max offset limit) size in
      let truncated := end_ <? size in
      if (limit =? 0) || (size <=? offset)
      then ([MsgPreviewChunk (encode_base64 []) offset true truncated], Ok tt)
      else
        match map_err from_io (fs_open safe) with
        | Err e => ([], Err e)
        | Panic s => ([], Panic s)
        | Ok (content, reads) =>
            preview_loop reads (drop (Z.to_nat offset) content) offset (end_ - offset) truncated []
        end
  end.

Definition hex_byte (b : byte) : list byte :=
  let digit v := nth (Z.to_nat v) (bytes "0123456789abcdef") "000"%byte in
  [digit (u8 b / 16); digit (u8 b mod 16)].
Definition hex (bs : list byte) : list byte := bs ≫= hex_byte.

(** The reads of a file in pieces of at most [READ_CHUNK], up to the first empty
    one or an error. *)
Definition READ_CHUNK : nat := Nat.mul 64 1024.
Fixpoint file_reads (reads : list (result IoKind nat)) (content : list byte) : hres (list (list byte)) :=
  match reads with
  | [] => Ok [[]]
  | Err e :: _ => Err (from_io e)
  | Panic s :: _ => Panic s
  | Ok size :: reads =>
      let data := take (Nat.min READ_CHUNK size) content in
      if is_empty data then Ok [[]]
      else rest ← file_reads reads (drop (length data) content); Ok (data :: rest)
  end.

Definition hash_run (flags : Flags) : list HelperMessage * hres () :=
  match (if negb (bool_decide (fl_algorithm flags = bytes "sha256")) then Err InvalidArgs else Ok tt);;
        raw_path ← resolve_token (fl_root flags) (fl_token flags);
        safe ← confine_to_root (fl_root flags) raw_path;
        meta ← map_err from_io (fs_metadata (path_render safe));
        if bool_decide (md_type meta = FtDirectory) then Err HelperIsDirectory
        else if negb (bool_decide (md_type meta = FtFile)) then Err UnsupportedFileType
        else
          '(content, reads) ← map_err from_io (fs_open (path_render safe));
          chunks ← file_reads reads content;
          hasher ← map_err (fun _ => HelperIo) (Sha256.hash_reads Sha256.Sha256_new chunks);
          digest ← map_err (fun _ => HelperIo) (Sha256.finish hasher);
          Ok (MsgHash (bytes "sha256") (hex digest)) with
  | Ok message => ([message], Ok tt)
  | Err e => ([], Err e)
  | Panic s => ([], Panic s)
  end.

Definition readlink_run (flags : Flags) : list HelperMessage * hres () :=
  match path ← resolve_token (fl_root flags) (fl_token flags);
        canonical ← canonicalize path;
        token_under_root (fl_root flags) (path_render canonical) with
  | Ok token => ([MsgResolved (token_str token)], Ok tt)
  | Err e => ([], Err e)
  | Panic s => ([], Panic s)
  end.

(** A command that parses its flags first. *)
Definition with_flags (run : Flags → list HelperMessage * hres ()) (args : list (list byte))
  : list HelperMessage * hres () :=
  match parse_flags args with
  | Ok flags => run flags
  | Err e => ([], Err e)
  | Panic s => ([], Panic s)
  end.

(** [main]: the lines written to standard output and the exit code; an error is
    the last line.  [hold] waits until the process is stopped, so it has none. *)
Definition helper_main (helper_version : list byte) (args : list (list byte))
  : option (hres (list HelperMessage * Z)) :=
  if bool_decide (head args = Some (bytes "hold")) then None
  else
    let '(out, result_) :=
      match args with
      | [] => ([], Err InvalidArgs)
      | command :: args =>
          if bool_decide (command = bytes "hello") then ([MsgHello FS_HELPER_PROTOCOL_VERSION helper_version], Ok tt)
          else if bool_decide (command = bytes "list") then with_flags list_run args
          else if bool_decide (command = bytes "stat") then with_flags stat_run args
          else if bool_decide (command = bytes "preview") then with_flags preview_run args
          else if bool_decide (command = bytes "hash") then with_flags hash_run args
          else if bool_decide (command = bytes "readlink") then with_flags readlink_run args
          else ([], Err InvalidArgs)
      end in
    Some (match result_ with
          | Ok _ => Ok (out, 0)
          | Err code => Ok (out ++ [MsgError code], 1)
          | Panic s => Panic s
          end).
End commands.

(** ** Tokens *)
Lemma split_on_sep_app sep a l : split_on sep (a ++ sep :: l) = split_on sep a ++ split_on sep l.
Proof.
  induction a as [|b a IH]; cbn; [by rewrite decide_True |]. case_decide; [by rewrite IH |].
  rewrite IH. pose proof (split_on_ne sep a) as Hne. by destruct (split_on sep a).
Qed.

Lemma path_pieces_app a b : path_pieces (a ++ "/"%byte :: b) = path_pieces a ++ path_pieces b.
Proof. unfold path_pieces. by rewrite split_on_sep_app, List.filter_app. Qed.

Lemma path_pieces_relative rel : relative_ok rel → rel ≠ [] → path_pieces rel = split_on "/"%byte rel.
Proof.
  intros [->|[_ Hp]]; [done |]. intros _. apply filter_all. eapply Forall_impl; [| exact Hp].
  cbn. intros part (H1 & H2 & _). rewrite (proj2 (is_empty_false part) H1).
  by rewrite bool_decide_eq_false_2.
Qed.

Lemma path_pieces_nil : path_pieces [] = [].
Proof. done. Qed.

(** A path joined below a root has the root's pieces first. *)
Lemma path_pieces_below root rel :
  path_pieces ((if ends_with_slash root then root else root ++ ["/"%byte]) ++ rel)
  = path_pieces root ++ path_pieces rel.
Proof.
  unfold ends_with_slash. case_bool_decide as H.
  - destruct root as [|b r _] using rev_ind; [done |]. rewrite list.last_snoc in H. injection H as ->.
    rewrite <- app_assoc. cbn [app]. rewrite !path_pieces_app, path_pieces_nil, app_nil_r. done.
  - rewrite <- app_assoc. apply path_pieces_app.
Qed.

Definition no_dotdot (cs : list (list byte)) : Prop := Forall (fun c => c ≠ bytes "..") cs.

Lemma normalize_app a b : no_dotdot b → normalize (a ++ b) = normalize a ++ b.
Proof.
  intros Hb. unfold normalize. rewrite foldl_app. generalize (foldl normalize_step [] a) as out.
  induction Hb as [|c b Hc Hb IH]; intros out; cbn; [by rewrite app_nil_r |].
  rewrite IH. unfold normalize_step. rewrite bool_decide_eq_false_2 by done. by rewrite <- app_assoc.
Qed.

Lemma relative_no_dotdot rel : relative_ok rel → no_dotdot (path_pieces rel).
Proof.
  intros Hr. destruct (decide (rel = [])) as [->|Hne]; [constructor |].
  rewrite path_pieces_relative by done. destruct Hr as [|[_ Hp]]; [done |].
  eapply Forall_impl; [| exact Hp]. by intros part (_ & _ & H).
Qed.

Lemma decode_token_relative token rel :
  decode_token token = Ok rel → decode_relative (mkFilesystemPathToken token) = Ok rel.
Proof. unfold decode_token. by destruct (decode_relative _); cbn; [intros [= ->] | |]. Qed.

Lemma resolve_token_pieces root token path :
  resolve_token root token = Ok path →
  ∃ rel, decode_token token = Ok rel ∧ relative_ok rel ∧ path_pieces path = path_pieces root ++ path_pieces rel.
Proof.
  unfold resolve_token, decode_token. rewrite bind_Ok. intros (rel & Hd & [= <-]). exists rel.
  split; [done |]. destruct (decode_relative _) as [r| |] eqn:E; cbn in Hd; [| done | done]. injection Hd as ->.
  pose proof (decode_relative_ok _ _ E) as Hr. split; [done |].
  destruct (is_empty rel) eqn:Ee; [| apply path_pieces_below].
  apply is_empty_true in Ee as ->. by rewrite path_pieces_nil, app_nil_r.
Qed.

(** A file name of a directory. *)
Definition entry_name_ok (name : list byte) : Prop :=
  part_ok name ∧ "000"%byte ∉ name ∧ "/"%byte ∉ name.

Lemma child_relative_ok parent name :
  relative_ok parent → entry_name_ok name →
  relative_ok (parent ++ (if is_empty parent then [] else ["/"%byte]) ++ name).
Proof.
  intros Hp (Hn & H0 & Hs). destruct (is_empty parent) eqn:E.
  - apply is_empty_true in E as ->. right. cbn. split; [done |]. rewrite split_on_no_sep by done. constructor; [done | constructor].
  - apply is_empty_false in E. destruct Hp as [|[Hp0 Hp]]; [done |]. right. split; [set_solver |].
    cbn [app]. rewrite split_on_sep_app, Forall_app. split; [done |].
    rewrite split_on_no_sep by done. constructor; [done | constructor].
Qed.

Lemma child_token_ok parent name :
  relative_ok parent → entry_name_ok name →
  ∃ t rel, child_token parent name = Ok t ∧ decode_token (token_str t) = Ok rel ∧
           path_pieces rel = path_pieces parent ++ [name].
Proof.
  intros Hp Hn. destruct (encode_relative_ok _ (child_relative_ok _ _ Hp Hn)) as (t & He & Hd).
  exists t. eexists. unfold child_token. rewrite He. split; [done |]. split.
  - unfold decode_token. destruct t as [ts]. cbn [token_str]. by rewrite Hd.
  - destruct Hn as ((H1 & H2 & _) & _ & Hs).
    assert (path_pieces name = [name]) as Hname.
    { unfold path_pieces. rewrite split_on_no_sep by done. cbn.
      rewrite (proj2 (is_empty_false name) H1), bool_decide_eq_false_2 by done. done. }
    destruct (is_empty parent) eqn:E.
    + by apply is_empty_true in E as ->.
    + cbn [app]. by rewrite path_pieces_app, Hname.
Qed.

(** ** Canonical paths *)

(** A component as it comes out of a path, and a proper name. *)
Definition piece_ok (c : list byte) : Prop := c ≠ [] ∧ c ≠ bytes "." ∧ "/"%byte ∉ c.
Definition names_ok (cs : list (list byte)) : Prop := Forall (fun c => piece_ok c ∧ c ≠ bytes "..") cs.

Lemma path_pieces_ok path : Forall piece_ok (path_pieces path).
Proof.
  apply list.Forall_forall. intros c Hc. unfold path_pieces in Hc.
  apply list_elem_of_In, List.filter_In in Hc as [Hin Hf].
  apply negb_true_iff, orb_false_iff in Hf as [H1%is_empty_false H2%bool_decide_eq_false].
  split_and!; [done | done |].
  apply (proj1 (list.Forall_forall _ _) (split_on_pieces "/"%byte path)). by apply list_elem_of_In.
Qed.

Lemma normalize_ok pieces : Forall piece_ok pieces → names_ok (normalize pieces).
Proof.
  unfold normalize. assert (names_ok []) as H0 by constructor. revert H0. generalize (@nil (list byte)) as out.
  intros out Hout Hp. revert out Hout. induction Hp as [|c pieces Hc Hp IH]; intros out Hout; cbn; [done |].
  apply IH. unfold normalize_step. case_bool_decide; [by apply Forall_take |].
  apply Forall_app. split; [done |]. constructor; [done | constructor].
Qed.

(** The calls of the file system return. *)
Class HelperFsLaws {FS : HelperFs} : Prop := {
  symlink_metadata_returns path s : fs_symlink_metadata path ≠ Panic s;
  read_link_returns path s : fs_read_link path ≠ Panic s;
}.

Section canonical.
Context {FS : HelperFs}.

(** Every prefix of the path exists and is not a link: following the path from
    the root never leaves it. *)
Definition link_free (cs : list (list byte)) : Prop :=
  ∀ p, p `prefix_of` cs → p ≠ [] →
  ∃ meta, fs_symlink_metadata (path_render p) = Ok meta ∧ md_type meta ≠ FtSymlink.

Lemma link_free_snoc cs c meta :
  link_free cs → fs_symlink_metadata (path_render (cs ++ [c])) = Ok meta → md_type meta ≠ FtSymlink →
  link_free (cs ++ [c]).
Proof.
  intros Hl Hm Ht p [k Hk] Hne. destruct k as [|x k _] using rev_ind.
  - rewrite app_nil_r in Hk. subst. eauto.
  - rewrite app_assoc in Hk. apply app_inj_tail in Hk as [-> _]. apply Hl; [| done]. by exists k.
Qed.

Lemma map_err_Ok {E E' A} (f : E → E') (r : result E A) a : map_err f r = Ok a ↔ r = Ok a.
Proof. destruct r; cbn; naive_solver. Qed.
Lemma map_err_Panic {E E' A} (f : E → E') (r : result E A) s : map_err f r = Panic s ↔ r = Panic s.
Proof. destruct r; cbn; naive_solver. Qed.

Lemma walk_done cs res hops r :
  link_free res → walk res cs hops = Ok (inl r) → r = res ++ cs ∧ link_free r.
Proof.
  revert res. induction cs as [|c cs IH]; intros res Hl; cbn [walk].
  { intros [= <-]. by rewrite app_nil_r. }
  rewrite bind_Ok. setoid_rewrite map_err_Ok. intros (meta & Hm & Hw). case_bool_decide as Ht.
  { destruct (_ <? _)%nat; [done |]. rewrite bind_Ok in Hw. by destruct Hw as (? & _ & Hw). }
  destruct (IH (res ++ [c])) as [-> ?]; [by eapply link_free_snoc | done |].
  split; [by rewrite <- app_assoc | done].
Qed.

Lemma walk_restart cs res hops current :
  names_ok res → names_ok cs → walk res cs hops = Ok (inr current) →
  names_ok current ∧ (S hops ≤ MAX_SYMLINK_HOPS)%nat.
Proof.
  revert res. induction cs as [|c cs IH]; intros res Hr Hc; cbn [walk]; [done |].
  apply Forall_cons_iff in Hc as [Hc Hcs]. rewrite bind_Ok. intros (meta & _ & Hw). case_bool_decide as Ht.
  - destruct (Nat.ltb_spec MAX_SYMLINK_HOPS (S hops)); [done |]. rewrite bind_Ok in Hw.
    destruct Hw as (target & _ & [= <-]). split; [| lia]. apply normalize_ok.
    assert (∀ l, names_ok l → Forall piece_ok l) as Hn by (intros l; apply Forall_impl; naive_solver).
    case_bool_decide; repeat (apply Forall_app; split); auto using path_pieces_ok.
  - apply (IH (res ++ [c])); [| done | done]. apply Forall_app. split; [done |]. constructor; [done | constructor].
Qed.

Lemma walk_no_panic {L : HelperFsLaws} cs res hops s : walk res cs hops ≠ Panic s.
Proof.
  revert res. induction cs as [|c cs IH]; intros res; cbn [walk]; [done |].
  destruct (fs_symlink_metadata _) eqn:E; cbn [map_err mbind result_bind]; [| done | by apply symlink_metadata_returns in E].
  case_bool_decide; [| apply IH]. destruct (_ <? _)%nat; [done |].
  destruct (fs_read_link _) eqn:E2; cbn [map_err mbind result_bind]; [done | done | by apply read_link_returns in E2].
Qed.

Lemma canonicalize_loop_ok n hops current c :
  names_ok current → canonicalize_loop n hops current = Ok c → names_ok c ∧ link_free c.
Proof.
  revert hops current. induction n as [|n IH]; intros hops current Hc; cbn [canonicalize_loop];
    rewrite bind_Ok; setoid_rewrite bind_Ok; intros (_ & _ & [r|r] & Hw & He).
  1, 3: injection He as [= ->];
    (destruct (walk_done current [] hops c) as [-> Hl]; [intros p ->%prefix_nil_inv Hne; done | exact Hw |]); split; [exact Hc | exact Hl].
  - done.
  - eapply IH; [| exact He]. eapply walk_restart; [constructor | done | exact Hw].
Qed.

Lemma canonicalize_loop_no_panic {L : HelperFsLaws} n hops current s :
  (n + hops = MAX_SYMLINK_HOPS)%nat → names_ok current → canonicalize_loop n hops current ≠ Panic s.
Proof.
  revert hops current. induction n as [|n IH]; intros hops current Hn Hc; cbn [canonicalize_loop];
    (destruct (fs_symlink_metadata _) eqn:E; cbn [map_err mbind result_bind];
      [| done | by apply symlink_metadata_returns in E]);
    (destruct (walk [] current hops) as [[r|r]| |] eqn:Ew; cbn [mbind result_bind];
      [done | | done | by apply walk_no_panic in Ew]);
    destruct (walk_restart current [] hops r (Forall_nil _) Hc Ew) as [Hr Hh]; [lia |].
  apply IH; [lia | done].
Qed.

Lemma canonicalize_ok path c : canonicalize path = Ok c → names_ok c ∧ link_free c.
Proof. apply canonicalize_loop_ok, normalize_ok, path_pieces_ok. Qed.

Lemma canonicalize_no_panic {L : HelperFsLaws} path s : canonicalize path ≠ Panic s.
Proof. apply canonicalize_loop_no_panic; [done |]. apply normalize_ok, path_pieces_ok. Qed.
End canonical.

(** ** Listings *)
Definition visible (is_browse_root show_hidden : bool) (cursor : option (list byte)) (items : list (list byte))
  : list (list byte) :=
  sort_by bytes_cmp (List.filter (fun raw => negb (list_skips is_browse_root show_hidden cursor raw)) items).

Definition with_cursor (flags : Flags) (cursor : list byte) : Flags :=
  mkFlags (fl_root flags) (fl_token flags) (fl_show_hidden flags) (fl_limit flags) (Some cursor)
    (fl_offset flags) (fl_read_limit flags) (fl_algorithm flags).

(** A client that follows the cursors from page to page. *)
Fixpoint list_all {FS : HelperFs} (fuel : nat) (flags : Flags) : hres (list (list byte)) :=
  '(_, _, names) ← list_names flags;
  '(page, _, next_cursor) ← list_page names (fl_limit flags);
  match next_cursor with
  | None => Ok page
  | Some cursor =>
      match fuel with
      | O => Panic "list_all out of fuel"
      | S fuel => rest ← list_all fuel (with_cursor flags cursor); Ok (page ++ rest)
      end
  end.

Lemma collect_names_ok skips (items names : list (list byte)) :
  collect_names skips (Ok <$> items) names = Ok (names ++ List.filter (fun raw => negb (skips raw)) items).
Proof.
  revert names. induction items as [|raw items IH]; intros names; cbn; [by rewrite app_nil_r |].
  destruct (skips raw); cbn; rewrite IH; [done |]. by rewrite <- app_assoc.
Qed.

Lemma filter_sorted {A} (R : A → A → Prop) f l : StronglySorted R l → StronglySorted R (List.filter f l).
Proof.
  induction 1 as [|a l Hl IH Ha]; cbn; [constructor |]. destruct (f a); [| done]. constructor; [done |].
  apply list.Forall_forall. intros b [Hb _]%list_elem_of_In%List.filter_In.
  apply (proj1 (list.Forall_forall _ _) Ha). by apply list_elem_of_In.
Qed.

Lemma filter_perm {A} (f : A → bool) l k : l ≡ₚ k → List.filter f l ≡ₚ List.filter f k.
Proof.
  induction 1 as [|a l k H IH|a b l|l k m H1 IH1 H2 IH2]; cbn; [done | | | by etrans].
  - destruct (f a); [by constructor | done].
  - destruct (f a), (f b); try done. constructor.
Qed.

(** Sorting and filtering commute. *)
Lemma sort_filter f (l : list (list byte)) :
  sort_by bytes_cmp (List.filter f l) = List.filter f (sort_by bytes_cmp l).
Proof.
  apply (sorting.StronglySorted_unique_strong (fun x y => bytes_cmp x y ≠ Gt)).
  - intros x y _ _ H1 H2. apply bytes_cmp_eq. rewrite cmp_flip in H2. by destruct (bytes_cmp x y).
  - apply sort_by_sorted, _.
  - apply filter_sorted, sort_by_sorted, _.
  - rewrite (sort_by_perm bytes_cmp). apply filter_perm. symmetry. apply sort_by_perm.
Qed.

Lemma visible_strict root hidden cursor items :
  NoDup items → StronglySorted (fun x y => bytes_cmp x y = Lt) (visible root hidden cursor items).
Proof.
  intros Hnd. apply (sorted_strict bytes_cmp id).
  - apply bytes_cmp_eq.
  - rewrite list_fmap_id. unfold visible. rewrite (sort_by_perm bytes_cmp).
    apply NoDup_ListNoDup, List.NoDup_filter, NoDup_ListNoDup, Hnd.
  - apply sort_by_sorted, _.
Qed.

(** In a strictly sorted list the elements after the [k]-th are those greater. *)
Lemma filter_after (l : list (list byte)) k c :
  StronglySorted (fun x y => bytes_cmp x y = Lt) l → l !! k = Some c →
  List.filter (fun raw => negb (bool_decide (bytes_cmp raw c ≠ Gt))) l = drop (S k) l.
Proof.
  intros Hs. revert k. induction Hs as [|a l Hs IH Ha]; intros k Hk; [done |].
  assert (∀ b, b ∈ l → bytes_cmp a b = Lt) as Hlt by (by apply list.Forall_forall).
  destruct k as [|k]; cbn [lookup list_lookup] in Hk.
  - injection Hk as ->. cbn [List.filter drop]. rewrite cmp_refl, bool_decide_eq_true_2 by (done || apply _).
    cbn [negb]. apply filter_all, list.Forall_forall. intros b Hb. cbn.
    rewrite cmp_flip, (Hlt b Hb). rewrite bool_decide_eq_false_2; [done | intros H; by apply H].
  - cbn [List.filter]. assert (bytes_cmp a c = Lt) as -> by (apply Hlt; by eapply list_elem_of_lookup_2).
    rewrite bool_decide_eq_true_2 by done. cbn [negb drop]. by apply IH.
Qed.

Lemma visible_after root hidden cursor items k c :
  NoDup items → visible root hidden cursor items !! k = Some c →
  visible root hidden (Some c) items = drop (S k) (visible root hidden cursor items).
Proof.
  intros Hnd Hk. rewrite <- (filter_after _ k c (visible_strict _ _ _ _ Hnd) Hk). unfold visible at 1 2.
  rewrite <- sort_filter. f_equal.
  assert (∀ x, x ∈ visible root hidden cursor items → list_skips root hidden cursor x = false) as Hv.
  { intros x Hx. unfold visible in Hx. rewrite (sort_by_perm bytes_cmp) in Hx.
    apply list_elem_of_In, List.filter_In in Hx as [_ Hx]. by apply negb_true_iff. }
  assert (list_skips root hidden cursor c = false) as Hc by (apply Hv; by eapply list_elem_of_lookup_2).
  clear Hk Hnd Hv. induction items as [|x items IH]; cbn [List.filter]; [done |].
  assert (negb (list_skips root hidden (Some c) x) =
          negb (list_skips root hidden cursor x) && negb (bool_decide (bytes_cmp x c ≠ Gt))) as ->.
  { unfold list_skips in *. rewrite !negb_orb, <- !andb_assoc. do 4 f_equal.
    apply orb_false_iff in Hc as [_ Hc]. destruct cursor as [d|]; [| done].
    apply bool_decide_eq_false in Hc. case_bool_decide as H1; [by rewrite andb_false_r |].
    rewrite bool_decide_eq_false_2; [done |]. intros H2.
    assert (bytes_cmp x c ≠ Gt) as H3; [| congruence]. apply (cmp_trans x d c); [done |].
    destruct (bytes_cmp c d) eqn:E; try (by destruct Hc). rewrite cmp_flip, E. done. }
  destruct (negb (list_skips root hidden cursor x)); cbn [andb List.filter]; [| exact IH].
  destruct (negb (bool_decide _)); [by rewrite IH | exact IH].
Qed.

Section listing.
Context {FS : HelperFs}.
Context (dir relative : list byte) (meta : Metadata) (items : list (list byte)).
Hypothesis Hmeta : fs_metadata dir = Ok meta.
Hypothesis Htype : md_type meta = FtDirectory.
Hypothesis Hread : fs_read_dir dir = Ok (Ok <$> items).
Hypothesis Hnodup : NoDup items.

(** The names that [list] sees with a given cursor. *)
Lemma list_names_ok flags cursor :
  resolve_token (fl_root flags) (fl_token flags) = Ok dir → decode_token (fl_token flags) = Ok relative →
  fl_cursor flags = encode_base64 <$> cursor →
  list_names flags = Ok (dir, relative, visible (is_empty relative) (fl_show_hidden flags) cursor items).
Proof.
  intros Hr Hd Hc. unfold list_names. rewrite Hr. cbn [mbind result_bind]. rewrite Hd. cbn [mbind result_bind].
  rewrite Hmeta. cbn [map_err mbind result_bind]. rewrite bool_decide_eq_true_2 by done. cbn [negb].
  rewrite Hread, Hc. cbn [map_err mbind result_bind].
  assert (match encode_base64 <$> cursor with
          | Some cursor => Some <$> map_err (fun _ => InvalidToken) (decode_base64 cursor)
          | None => Ok None
          end = Ok cursor) as ->.
  { destruct cursor as [c|]; cbn; [by rewrite decode_encode_base64 | done]. }
  cbn [mbind result_bind]. by rewrite collect_names_ok.
Qed.

Lemma list_page_ok names limit :
  1 ≤ limit →
  list_page names (Some limit) =
  Ok (if decide (length names ≤ Z.to_nat limit)%nat then (names, false, None)
      else (take (Z.to_nat limit) names, true, encode_base64 <$> names !! (Z.to_nat limit - 1)%nat)).
Proof.
  intros Hl. unfold list_page. cbn [default]. unfold len, id. case_decide as Hd.
  - rewrite Z.min_r, Z.ltb_irrefl by lia. cbn [mbind result_bind]. by rewrite Nat2Z.id, take_ge by lia.
  - rewrite Z.min_l by lia. rewrite (proj2 (Z.ltb_lt _ _)) by lia.
    rewrite (proj2 (Z.ltb_ge _ _)) by lia. cbn [mbind result_bind].
    by replace (Z.to_nat (limit - 1)) with (Z.to_nat limit - 1)%nat by lia.
Qed.

Lemma list_all_ok fuel flags cursor limit :
  resolve_token (fl_root flags) (fl_token flags) = Ok dir → decode_token (fl_token flags) = Ok relative →
  fl_cursor flags = encode_base64 <$> cursor → fl_limit flags = Some limit → 1 ≤ limit →
  (length (visible (is_empty relative) (fl_show_hidden flags) cursor items) ≤ fuel)%nat →
  list_all fuel flags = Ok (visible (is_empty relative) (fl_show_hidden flags) cursor items).
Proof.
  revert flags cursor. induction fuel as [|fuel IH]; intros flags cursor Hr Hd Hc Hlim Hl Hf; cbn [list_all];
    rewrite (list_names_ok flags cursor Hr Hd Hc); cbn [mbind result_bind]; rewrite Hlim, list_page_ok by done;
    set (names := visible _ _ _ _) in *; case_decide as Hdec; cbn [mbind result_bind]; try done; [lia |].
  destruct (names !! (Z.to_nat limit - 1)%nat) as [c|] eqn:Ec.
  2: { apply lookup_ge_None in Ec. lia. }
  cbn [fmap option_fmap option_map].
  assert (visible (is_empty relative) (fl_show_hidden flags) (Some c) items = drop (Z.to_nat limit) names) as Hv.
  { unfold names in Ec. rewrite (visible_after _ _ _ _ _ _ Hnodup Ec). fold names. f_equal. lia. }
  rewrite (IH (with_cursor flags (encode_base64 c)) (Some c)); [| done | done | done | done | done |].
  - cbn [fl_show_hidden with_cursor mbind result_bind]. by rewrite Hv, take_drop.
  - cbn [fl_show_hidden with_cursor]. rewrite Hv, length_drop. lia.
Qed.
End listing.

(** ** Previews *)

(** The messages for the pieces [ds] of a range. *)
Fixpoint preview_messages (position remaining : Z) (truncated : bool) (ds : list (list byte)) : list HelperMessage :=
  match ds with
  | [] => []
  | d :: ds =>
      MsgPreviewChunk (encode_base64 d) position (remaining - len d =? 0) truncated
        :: preview_messages (position + len d) (remaining - len d) truncated ds
  end.

Lemma preview_loop_ok sizes content position remaining truncated out :
  0 ≤ remaining ≤ len content → Forall (fun n => 1 ≤ n)%nat sizes → remaining ≤ len sizes →
  ∃ ds, preview_loop (Ok <$> sizes) content position remaining truncated out
        = (out ++ preview_messages position remaining truncated ds, Ok tt) ∧
        concat ds = take (Z.to_nat remaining) content ∧ Forall (fun d => d ≠ [] ∧ len d ≤ CHUNK_SIZE) ds.
Proof.
  intros Hr Hs. revert content position remaining out Hr.
  induction Hs as [|n sizes Hn Hs IH]; intros content position remaining out Hr Hlen; cbn [fmap list_fmap preview_loop];
    (destruct (Z.leb_spec remaining 0) as [Hz|Hz];
     [exists []; cbn; rewrite app_nil_r; replace (Z.to_nat remaining) with 0%nat by lia; by rewrite take_0 |]).
  { unfold len in Hlen. cbn in Hlen. lia. }
  set (d := take (Nat.min (Z.to_nat (Z.min remaining CHUNK_SIZE)) n) content).
  assert (length d = Nat.min (Nat.min (Z.to_nat (Z.min remaining CHUNK_SIZE)) n) (length content)) as Hd
    by (apply length_take).
  assert (1 ≤ CHUNK_SIZE) as Hchunk by (unfold CHUNK_SIZE; lia).
  assert (1 ≤ length d)%nat as Hd1 by (rewrite Hd; unfold len in Hr; lia).
  destruct (is_empty d) eqn:E; [apply is_empty_true in E; rewrite E in Hd1; cbn in Hd1; lia |].
  apply is_empty_false in E. rewrite len_cons in Hlen.
  destruct (IH (drop (length d) content) (position + len d) (remaining - len d)
              (out ++ [MsgPreviewChunk (encode_base64 d) position (remaining - len d =? 0) truncated]))
    as (ds & -> & Hc & Hf).
  - unfold len in *. rewrite length_drop. lia.
  - unfold len in *. lia.
  - exists (d :: ds). split_and!.
    + cbn [preview_messages]. by rewrite <- app_assoc.
    + cbn [concat]. rewrite Hc. assert (d = take (length d) content) as Ht.
      { rewrite Hd. unfold d. rewrite <- (firstn_all content) at 1. by rewrite take_take. }
      rewrite Ht at 1. rewrite take_take_drop. f_equal. unfold len in *. lia.
    + constructor; [| done]. split; [done |]. unfold len. lia.
Qed.

(** ** Properties *)

(** A path token names a place below the browse root.  Whatever string is
    given as a token, when it resolves, the normalised path is the normalised
    root followed by proper names only; and the token that a listing gives for
    an entry of a directory resolves to that entry. *)
Theorem token_below_root (root token path parent name : list byte) :
  resolve_token root token = Ok path → relative_ok parent → entry_name_ok name →
  (∃ rel, no_dotdot (path_pieces rel) ∧
     normalize (path_pieces path) = normalize (path_pieces root) ++ path_pieces rel) ∧
  ∃ t below, child_token parent name = Ok t ∧ resolve_token root (token_str t) = Ok below ∧
     path_pieces below = path_pieces root ++ path_pieces parent ++ [name].
Proof.
  intros Hr Hp Hn. split.
  - destruct (resolve_token_pieces _ _ _ Hr) as (rel & _ & Hok & ->). exists rel.
    split; [by apply relative_no_dotdot |]. by apply normalize_app, relative_no_dotdot.
  - destruct (child_token_ok parent name Hp Hn) as (t & rel & Ht & Hd & Hpieces).
    exists t. destruct (resolve_token root (token_str t)) as [below| |] eqn:Eb;
      [| unfold decode_token in Hd; unfold resolve_token in Eb; rewrite Hd in Eb; discriminate Eb ..].
    exists below. split_and!; [done | done |].
    destruct (resolve_token_pieces _ _ _ Eb) as (rel' & Hd' & _ & ->). rewrite Hd in Hd'. injection Hd' as <-.
    by rewrite Hpieces.
Qed.

(** Witness: a token made for an entry of a directory of the root "/r". *)
Lemma token_below_root_witness :
  ∃ t below, child_token (bytes "etc") (bytes "passwd") = Ok t ∧ resolve_token (bytes "/r") (token_str t) = Ok below.
Proof.
  destruct (token_below_root (bytes "/r") (bytes "v1:ZXRj") (bytes "/r/etc") (bytes "etc") (bytes "passwd"))
    as [_ (t & below & H1 & H2 & _)].
  - vm_compute. reflexivity.
  - right. split; [apply (bool_decide_unpack _); vm_compute; exact I |].
    replace (split_on "/"%byte (bytes "etc")) with [bytes "etc"] by (vm_compute; reflexivity).
    constructor; [split_and!; vm_compute; discriminate | constructor].
  - split; [split_and!; vm_compute; discriminate |].
    split; apply (bool_decide_unpack _); vm_compute; exact I.
  - eauto.
Defined.

(** C38: reads stay inside the browse root.  [confine_to_root] always returns, also
    for link cycles; when it accepts a path, the canonical path it returns is
    below the canonical root, consists of proper names, and none of its
    components is a link, so that opening it cannot lead anywhere else. *)
Theorem confine_to_root_safe {FS : HelperFs} {L : HelperFsLaws} (root path : list byte) :
  match confine_to_root root path with
  | Ok canonical =>
      ∃ root_canonical, canonicalize root = Ok root_canonical ∧
        root_canonical `prefix_of` canonical ∧ names_ok canonical ∧ link_free canonical
  | Err _ => True
  | Panic _ => False
  end.
Proof.
  unfold confine_to_root. destruct (canonicalize path) as [c|e|s] eqn:Ec; cbn [mbind result_bind]; [| done | by apply canonicalize_no_panic in Ec].
  destruct (canonicalize root) as [r|e|s] eqn:Er; cbn [mbind result_bind]; [| done | by apply canonicalize_no_panic in Er].
  case_bool_decide as Hp; cbn [negb]; [| done]. exists r. pose proof (canonicalize_ok _ _ Ec) as [? ?]. done.
Qed.

(** A small file system: a browse root with a file and a link that leaves it for
    a sibling directory whose name extends the root's name. *)
Definition sample_md (t : HelperFileType) (n : Z) : Metadata := mkMetadata t n 0 420 0 0.
Definition sample_fs : HelperFs := {|
  fs_metadata p :=
    if bool_decide (p = bytes "/r") then Ok (sample_md FtDirectory 0)
    else if bool_decide (p = bytes "/r/motd") then Ok (sample_md FtFile 5)
    else Err KNotFound;
  fs_symlink_metadata p :=
    if bool_decide (p ∈ [bytes "/"; bytes "/r"; bytes "/r2"]) then Ok (sample_md FtDirectory 0)
    else if bool_decide (p ∈ [bytes "/r/motd"; bytes "/r2/secret"]) then Ok (sample_md FtFile 5)
    else if bool_decide (p = bytes "/r/up") then Ok (sample_md FtSymlink 10)
    else Err KNotFound;
  fs_read_link p := if bool_decide (p = bytes "/r/up") then Ok (bytes "/r2/secret") else Err KNotFound;
  fs_read_dir p := if bool_decide (p = bytes "/r") then Ok (Ok <$> [bytes "up"; bytes "motd"]) else Err KNotADirectory;
  fs_open p := if bool_decide (p = bytes "/r/motd") then Ok (bytes "hello", Ok <$> [3; 3; 3; 3; 3]%nat) else Err KNotFound;
|}.

Lemma sample_fs_laws : HelperFsLaws (FS := sample_fs).
Proof. split; intros path s; cbn; repeat case_match; done. Qed.

(** Witness: the file is accepted and the link rejected. *)
Lemma confine_to_root_safe_witness :
  confine_to_root (FS := sample_fs) (bytes "/r") (bytes "/r/motd") = Ok [bytes "r"; bytes "motd"] ∧
  confine_to_root (FS := sample_fs) (bytes "/r") (bytes "/r/up") = Err PathEscapeRejected ∧
  link_free (FS := sample_fs) [bytes "r"; bytes "motd"].
Proof.
  assert (confine_to_root (FS := sample_fs) (bytes "/r") (bytes "/r/motd") = Ok [bytes "r"; bytes "motd"]) as H
    by (vm_compute; reflexivity).
  split_and!; [exact H | vm_compute; reflexivity |].
  pose proof (confine_to_root_safe (FS := sample_fs) (L := sample_fs_laws) (bytes "/r") (bytes "/r/motd")) as Hs.
  rewrite H in Hs. destruct Hs as (r & _ & _ & _ & Hl). exact Hl.
Defined.

(** Paging through a directory misses nothing and repeats nothing.  For a
    directory that does not change, following the cursors from page to page
    with any positive limit yields all visible names, each once, in byte order. *)
Theorem list_pages_complete {FS : HelperFs} (flags : Flags) (dir relative : list byte) (meta : Metadata)
  (items : list (list byte)) (limit : Z) :
  resolve_token (fl_root flags) (fl_token flags) = Ok dir → decode_token (fl_token flags) = Ok relative →
  fs_metadata dir = Ok meta → md_type meta = FtDirectory → fs_read_dir dir = Ok (Ok <$> items) → NoDup items →
  fl_cursor flags = None → fl_limit flags = Some limit → 1 ≤ limit →
  list_all (length items) flags = Ok (visible (is_empty relative) (fl_show_hidden flags) None items).
Proof.
  intros Hr Hd Hm Ht Hread Hnd Hc Hlim Hl.
  apply (list_all_ok dir relative meta items Hm Ht Hread Hnd _ _ None limit); try done.
  unfold visible. rewrite (Permutation_length (sort_by_perm bytes_cmp _)). apply List.filter_length_le.
Qed.

(** Witness: two names in pages of one. *)
Definition sample_flags : Flags :=
  mkFlags (bytes "/r") (bytes "v1:") false (Some 1) None 0 (64 * 1024) (bytes "sha256").

Lemma list_pages_complete_witness :
  list_all (FS := sample_fs) 2 sample_flags = Ok [bytes "motd"; bytes "up"].
Proof.
  apply (list_pages_complete (FS := sample_fs) sample_flags (bytes "/r") [] (sample_md FtDirectory 0)
           [bytes "up"; bytes "motd"] 1); try (vm_compute; reflexivity).
  - apply (bool_decide_unpack _). vm_compute. exact I.
  - lia.
Defined.

(** A limit of zero makes [list] panic.  The limit is not checked against
    zero, and with a name to show the next cursor is taken from before the
    start of the page. *)
Theorem list_limit_zero_panics :
  list_run (FS := sample_fs)
    (mkFlags (bytes "/r") (bytes "v1:") false (Some 0) None 0 (64 * 1024) (bytes "sha256"))
  = ([], Panic "attempt to subtract with overflow").
Proof. vm_compute. reflexivity. Qed.

(** A preview is exactly the requested range of the file.  However the
    system cuts the reads, as long as none is empty before the end, the chunks
    are non-empty, at most 32 KiB, carry consecutive offsets, together are the
    bytes from the offset up to the limit or the end of the file, and exactly
    the last one is marked as the end. *)
Theorem preview_exact {FS : HelperFs} (flags : Flags) (path : list byte) (safe : list (list byte))
  (meta : Metadata) (content : list byte) (sizes : list nat) :
  resolve_token (fl_root flags) (fl_token flags) = Ok path → confine_to_root (fl_root flags) path = Ok safe →
  fs_metadata (path_render safe) = Ok meta → md_type meta = FtFile → md_len meta = len content →
  fs_open (path_render safe) = Ok (content, Ok <$> sizes) → Forall (fun n => 1 ≤ n)%nat sizes →
  len content ≤ len sizes → 0 ≤ fl_offset flags < len content → 1 ≤ fl_read_limit flags →
  len content ≤ u64_max →
  let end_ := Z.min (fl_offset flags + fl_read_limit flags) (len content) in
  ∃ ds, preview_run flags
        = (preview_messages (fl_offset flags) (end_ - fl_offset flags) (end_ <? len content) ds, Ok tt) ∧
        concat ds = take (Z.to_nat (end_ - fl_offset flags)) (drop (Z.to_nat (fl_offset flags)) content) ∧
        Forall (fun d => d ≠ [] ∧ len d ≤ CHUNK_SIZE) ds.
Proof.
  intros Hr Hc Hm Ht Hlen Ho Hs Hn Hoff Hlim Hmax end_. unfold preview_run.
  rewrite Hr. cbn [mbind result_bind]. rewrite Hc. cbn [mbind result_bind]. rewrite Hm. cbn [map_err mbind result_bind].
  rewrite Ht, Hlen. rewrite bool_decide_eq_false_2 by done. rewrite bool_decide_eq_true_2 by done. cbn [negb andb].
  rewrite (proj2 (Z.eqb_neq _ _)), (proj2 (Z.leb_gt _ _)) by lia. cbn [orb]. rewrite Ho. cbn [map_err].
  assert (Z.min (saturating_add u64_max (fl_offset flags) (fl_read_limit flags)) (len content) = end_) as ->
    by (unfold saturating_add, end_; lia).
  apply (preview_loop_ok sizes _ _ _ _ []); [| done | unfold end_; lia].
  unfold end_, len in *. rewrite length_drop. lia.
Qed.

(** Witness: four bytes from offset one, in reads of three bytes. *)
Lemma preview_exact_witness :
  ∃ ds, (preview_run (FS := sample_fs)
           (mkFlags (bytes "/r") (bytes "v1:bW90ZA==") false None None 1 3 (bytes "sha256"))).1
        = preview_messages 1 3 true ds ∧ concat ds = bytes "ell".
Proof.
  destruct (preview_exact (FS := sample_fs)
              (mkFlags (bytes "/r") (bytes "v1:bW90ZA==") false None None 1 3 (bytes "sha256"))
              (bytes "/r/motd") [bytes "r"; bytes "motd"] (sample_md FtFile 5) (bytes "hello") [3; 3; 3; 3; 3]%nat)
    as (ds & H1 & H2 & _); try (vm_compute; reflexivity).
  - repeat constructor.
  - vm_compute. discriminate.
  - cbn. unfold len. cbn. lia.
  - cbn. lia.
  - vm_compute. discriminate.
  - exists ds. split; [exact (f_equal fst H1) | exact H2].
Defined.

(** C: [readlink] reports a target outside the browse root as a path inside it.
    The canonical target is compared with the root as a byte string, so a
    sibling directory whose name starts with the root's name passes: the
    returned token names a different path below the root, where [preview] of
    the same link is refused as an escape. *)
Theorem readlink_accepts_sibling :
  canonicalize (FS := sample_fs) (bytes "/r/up") = Ok [bytes "r2"; bytes "secret"] ∧
  readlink_run (FS := sample_fs)
    (mkFlags (bytes "/r") (bytes "v1:dXA=") false None None 0 (64 * 1024) (bytes "sha256"))
  = ([MsgResolved (bytes "v1:Mi9zZWNyZXQ=")], Ok tt) ∧
  resolve_token (bytes "/r") (bytes "v1:Mi9zZWNyZXQ=") = Ok (bytes "/r/2/secret") ∧
  (preview_run (FS := sample_fs)
    (mkFlags (bytes "/r") (bytes "v1:dXA=") false None None 0 (64 * 1024) (bytes "sha256"))).2
  = Err PathEscapeRejected.
Proof. split_and!; vm_compute; reflexivity. Qed.
