(* ===== verification/Domain.v ===== *)
(** The domain records of crates/tuxstack-domain and the pure functions on them:
    system.rs, stats.rs, options.rs, network.rs, image.rs, volume.rs, event.rs and
    the list side of container.rs.

    A [String] and a [PathBuf] are bytes, a [BTreeMap<String, String>] is a finite
    map, a [DateTime<Utc>] the nanoseconds since the epoch, an [f64] a value of the
    standard library's [spec_float].  Fields carry a prefix of their record's name,
    constructors one of their enum's. *)

From Stdlib Require Import SpecFloat.
From S2P Require Import Prelude Path Numbers Text.

Local Open Scope Z_scope.

Abbreviation DateTime := Z (only parsing).
Abbreviation f64 := spec_float.
Abbreviation Labels := (gmap text text).

(** [DateTime::timestamp]: whole seconds, rounded down. *)
Definition timestamp (t : DateTime) : Z := t / 1000000000.

(** ** Container states *)
Inductive ContainerRuntimeState : Type :=
  | Runtime_Created | Runtime_Running | Runtime_Paused | Runtime_Restarting
  | Runtime_Removing | Runtime_Exited | Runtime_Dead | Runtime_Unknown.
#[export] Instance ContainerRuntimeState_eq_dec : EqDecision ContainerRuntimeState.
Proof. solve_decision. Defined.

Definition runtime_from_str_opt (s : text) : ContainerRuntimeState :=
  let key := to_ascii_lowercase (trim s) in
  if bool_decide (key = bytes "created") then Runtime_Created
  else if bool_decide (key = bytes "running") then Runtime_Running
  else if bool_decide (key = bytes "paused") then Runtime_Paused
  else if bool_decide (key = bytes "restarting") then Runtime_Restarting
  else if bool_decide (key = bytes "removing") then Runtime_Removing
  else if bool_decide (key = bytes "exited") || bool_decide (key = bytes "stopped") then Runtime_Exited
  else if bool_decide (key = bytes "dead") then Runtime_Dead
  else Runtime_Unknown.

Definition runtime_as_str (self : ContainerRuntimeState) : text :=
  match self with
  | Runtime_Created => bytes "created"
  | Runtime_Running => bytes "running"
  | Runtime_Paused => bytes "paused"
  | Runtime_Restarting => bytes "restarting"
  | Runtime_Removing => bytes "removing"
  | Runtime_Exited => bytes "exited"
  | Runtime_Dead => bytes "dead"
  | Runtime_Unknown => bytes "unknown"
  end.

Definition runtime_is_active (self : ContainerRuntimeState) : bool :=
  match self with Runtime_Running | Runtime_Paused | Runtime_Restarting => true | _ => false end.

Definition runtime_is_stopped (self : ContainerRuntimeState) : bool :=
  match self with Runtime_Created | Runtime_Exited | Runtime_Dead | Runtime_Unknown => true | _ => false end.

Inductive ContainerOperationState : Type :=
  | Operation_Idle | Operation_Starting | Operation_Stopping | Operation_Restarting
  | Operation_Killing | Operation_Pausing | Operation_Unpausing | Operation_Removing | Operation_Renaming.

Inductive ContainerHealthState : Type :=
  | Health_None | Health_Starting | Health_Healthy | Health_Unhealthy | Health_Unknown.
#[export] Instance ContainerHealthState_eq_dec : EqDecision ContainerHealthState.
Proof. solve_decision. Defined.

Record ContainerHealthSummary := { chs_status : ContainerHealthState }.

(** ** Ports *)
Record PortBinding := {
  pb_host_ip : option text;
  pb_host_port : option Z;
  pb_container_port : Z;
  pb_protocol : text;
}.

Definition port_display (self : PortBinding) : text :=
  let host := match pb_host_ip self, pb_host_port self with
              | Some ip, Some port => ip ++ bytes ":" ++ u64_to_string port
              | None, Some port => u64_to_string port
              | _, _ => []
              end in
  let target := u64_to_string (pb_container_port self) ++ bytes "/" ++ pb_protocol self in
  if is_empty host then target else host ++ bytes "->" ++ target.

Definition port_is_published (self : PortBinding) : bool := bool_decide (is_Some (pb_host_port self)).

(** ** Containers in a list *)
Record ContainerSummary := {
  cs_id : text;
  cs_short_id : text;
  cs_name : text;
  cs_image : text;
  cs_image_id : text;
  cs_state : ContainerRuntimeState;
  cs_status : text;
  cs_created_at : DateTime;
  cs_ports : list PortBinding;
  cs_labels : Labels;
}.

Definition cs_names (self : ContainerSummary) : list text :=
  if is_empty (cs_name self) then [] else [cs_name self].

Definition cs_created_at_opt (self : ContainerSummary) : option DateTime :=
  if timestamp (cs_created_at self) =? 0 then None else Some (cs_created_at self).

Definition cs_health_summary (self : ContainerSummary) : option ContainerHealthSummary :=
  let lower := to_ascii_lowercase (cs_status self) in
  if str_contains lower (bytes "(unhealthy)") then Some {| chs_status := Health_Unhealthy |}
  else if str_contains lower (bytes "(healthy)") then Some {| chs_status := Health_Healthy |}
  else if str_contains lower (bytes "health: starting") || str_contains lower (bytes "(health: starting)")
  then Some {| chs_status := Health_Starting |}
  else None.

Inductive ContainerMountType : Type :=
  | MountType_Volume | MountType_Bind | MountType_Tmpfs | MountType_NamedPipe
  | MountType_Cluster | MountType_Image | MountType_Unknown.

Definition mount_type_from_docker (value : text) : ContainerMountType :=
  if bool_decide (value = bytes "volume") then MountType_Volume
  else if bool_decide (value = bytes "bind") then MountType_Bind
  else if bool_decide (value = bytes "tmpfs") then MountType_Tmpfs
  else if bool_decide (value = bytes "npipe") then MountType_NamedPipe
  else if bool_decide (value = bytes "cluster") then MountType_Cluster
  else if bool_decide (value = bytes "image") then MountType_Image
  else MountType_Unknown.

Definition mount_type_as_docker (self : ContainerMountType) : text :=
  match self with
  | MountType_Volume => bytes "volume"
  | MountType_Bind => bytes "bind"
  | MountType_Tmpfs => bytes "tmpfs"
  | MountType_NamedPipe => bytes "npipe"
  | MountType_Cluster => bytes "cluster"
  | MountType_Image => bytes "image"
  | MountType_Unknown => bytes "unknown"
  end.

(** ** Container details *)
Record EnvironmentVariable := { ev_name : text; ev_value : option text }.

Definition env_display (self : EnvironmentVariable) : text :=
  match ev_value self with Some v => ev_name self ++ bytes "=" ++ v | None => ev_name self end.

Record ContainerMountSummary := {
  cms_source : option text;
  cms_destination : text;
  cms_mode : option text;
  cms_rw : bool;
  cms_mount_type : text;
  cms_name : option text;
  cms_propagation : option text;
}.

Definition cms_read_only (self : ContainerMountSummary) : bool := negb (cms_rw self).
Definition cms_typed_mount_type (self : ContainerMountSummary) : ContainerMountType :=
  mount_type_from_docker (cms_mount_type self).

Record ContainerNetworkSummary := {
  cns_network_name : text;
  cns_network_id : option text;
  cns_ipv4 : option text;
  cns_ipv6 : option text;
  cns_gateway : option text;
  cns_ipv6_gateway : option text;
  cns_mac : option text;
  cns_aliases : list text;
  cns_endpoint_id : option text;
}.

Record RestartPolicy := { rp_name : text; rp_maximum_retry_count : option Z }.

Record HealthLogEntry := {
  hle_exit_code : option Z;
  hle_output : option text;
  hle_start : option DateTime;
  hle_end : option DateTime;
}.

Record HealthStatus := {
  hs_status : text;
  hs_failing_streak : option Z;
  hs_last_check : option DateTime;
  hs_log : list HealthLogEntry;
}.

Record ContainerStateDetail := {
  csd_running : bool;
  csd_paused : bool;
  csd_restarting : bool;
  csd_oom_killed : bool;
  csd_dead : bool;
  csd_exit_code : option Z;
  csd_error : option text;
  csd_started_at : option DateTime;
  csd_finished_at : option DateTime;
  csd_restart_count : Z;
}.

Record ResourceLimits := {
  rl_memory_bytes : option Z;
  rl_nano_cpus : option Z;
  rl_pids_limit : option Z;
  rl_cpu_shares : option Z;
}.

Record ContainerDetail := {
  cd_summary : ContainerSummary;
  cd_command : list text;
  cd_entrypoint : list text;
  cd_environment : list EnvironmentVariable;
  cd_mounts : list ContainerMountSummary;
  cd_networks : list ContainerNetworkSummary;
  cd_restart_policy : RestartPolicy;
  cd_health : option HealthStatus;
  cd_platform : option text;
  cd_hostname : option text;
  cd_domain_name : option text;
  cd_working_dir : option text;
  cd_user : option text;
  cd_stop_signal : option text;
  cd_stop_timeout_seconds : option Z;
  cd_auto_remove : bool;
  cd_tty : bool;
  cd_open_stdin : bool;
  cd_read_only_rootfs : bool;
  cd_privileged : bool;
  cd_state_detail : ContainerStateDetail;
  cd_resource_limits : ResourceLimits;
}.

Inductive LogStream : Type := Log_Stdout | Log_Stderr | Log_Console | Log_Unknown.
Record LogLine := { ll_timestamp : option DateTime; ll_stream : LogStream; ll_message : text }.

Record ContainerNetworkFailure := { cnf_network : text; cnf_error : text }.
Record CreateContainerResult := {
  ccr_id : text;
  ccr_warnings : list text;
  ccr_network_failures : list ContainerNetworkFailure;
  ccr_started : bool;
  ccr_start_error : option text;
}.

(** ** Options *)
Record StopContainerOptions := { sco_timeout_seconds : option Z }.
Record RestartContainerOptions := { rco_timeout_seconds : option Z }.
Record KillContainerOptions := { kco_signal : text }.
Definition KillContainerOptions_default : KillContainerOptions := {| kco_signal := bytes "SIGKILL" |}.
Record RemoveContainerOptions := { rmo_force : bool; rmo_remove_volumes : bool; rmo_remove_links : bool }.
Record ContainerLogsOptions := {
  clo_stdout : bool;
  clo_stderr : bool;
  clo_timestamps : bool;
  clo_follow : bool;
  clo_tail : option Z;
  clo_since : option DateTime;
  clo_until : option DateTime;
}.

Definition logs_historical (tail : Z) : ContainerLogsOptions :=
  {| clo_stdout := true; clo_stderr := true; clo_timestamps := false; clo_follow := false;
     clo_tail := Some tail; clo_since := None; clo_until := None |}.
Definition logs_follow : ContainerLogsOptions :=
  {| clo_stdout := true; clo_stderr := true; clo_timestamps := false; clo_follow := true;
     clo_tail := None; clo_since := None; clo_until := None |}.

(** ** System and statistics *)
Record ContainerStats := {
  st_cpu_percent : f64;
  st_memory_usage_bytes : Z;
  st_memory_limit_bytes : Z;
  st_memory_percent : f64;
  st_network_rx_bytes : Z;
  st_network_tx_bytes : Z;
  st_block_read_bytes : Z;
  st_block_write_bytes : Z;
  st_pids : option Z;
  st_sampled_at : DateTime;
}.

(** [Default::default], given the current time. *)
Definition ContainerStats_default (now : DateTime) : ContainerStats :=
  {| st_cpu_percent := S754_zero false; st_memory_usage_bytes := 0; st_memory_limit_bytes := 0;
     st_memory_percent := S754_zero false; st_network_rx_bytes := 0; st_network_tx_bytes := 0;
     st_block_read_bytes := 0; st_block_write_bytes := 0; st_pids := None; st_sampled_at := now |}.

Record DockerSystemInfo := {
  si_version : text;
  si_api_version : text;
  si_min_api_version : text;
  si_os : text;
  si_arch : text;
  si_kernel_version : text;
  si_operating_system : text;
  si_server_version : text;
  si_docker_root_dir : text;
  si_total_memory : Z;
  si_n_cpus : Z;
  si_name : text;
  si_driver : text;
  si_containers : Z;
  si_containers_running : Z;
  si_containers_paused : Z;
  si_containers_stopped : Z;
  si_images : Z;
}.
Record OverviewData := { od_system : DockerSystemInfo; od_networks : Z; od_volumes : Z }.

Record DockerEvent := {
  de_event_type : text;
  de_action : text;
  de_actor_id : option text;
  de_actor_attributes : list (text * text);
  de_time : option DateTime;
}.

(** ** Networks *)
Record NetworkSummary := {
  ns_id : text;
  ns_short_id : text;
  ns_name : text;
  ns_driver : text;
  ns_scope : text;
  ns_created_at : option DateTime;
  ns_subnet : option text;
  ns_gateway : option text;
  ns_internal : bool;
  ns_attachable : bool;
  ns_ingress : bool;
  ns_ipv4 : bool;
  ns_ipv6 : bool;
  ns_labels : Labels;
}.
Record NetworkSubnet := {
  nsub_subnet : text;
  nsub_gateway : option text;
  nsub_ip_range : option text;
  nsub_auxiliary_addresses : Labels;
}.
Record NetworkIpam := { ipam_driver : option text; ipam_options : Labels; ipam_subnets : list NetworkSubnet }.
Record NetworkContainer := {
  nc_id : text;
  nc_short_id : text;
  nc_name : text;
  nc_endpoint_id : text;
  nc_ipv4_address : option text;
  nc_ipv6_address : option text;
  nc_mac_address : option text;
}.
Record NetworkDetail := {
  nd_summary : NetworkSummary;
  nd_internal : bool;
  nd_attachable : bool;
  nd_ingress : bool;
  nd_options : Labels;
  nd_ipam : NetworkIpam;
  nd_containers : list NetworkContainer;
}.
Record CreateNetworkOptions := {
  cno_name : text;
  cno_driver : text;
  cno_subnet : option text;
  cno_gateway : option text;
  cno_ipv6 : bool;
  cno_internal : bool;
  cno_attachable : bool;
  cno_labels : Labels;
  cno_options : Labels;
}.
Definition CreateNetworkOptions_default : CreateNetworkOptions :=
  {| cno_name := []; cno_driver := bytes "bridge"; cno_subnet := None; cno_gateway := None;
     cno_ipv6 := false; cno_internal := false; cno_attachable := false; cno_labels := ∅; cno_options := ∅ |}.
Record CreateNetworkResult := { cnr_id : text; cnr_warning : option text }.

(** ** Images *)
Record ImageContainerReference := {
  icr_id : text;
  icr_short_id : text;
  icr_name : text;
  icr_state : ContainerRuntimeState;
  icr_status : text;
  icr_created_at : option DateTime;
}.
Record ImageSummary := {
  is_id : text;
  is_short_id : text;
  is_repo_tags : list text;
  is_repo_digests : list text;
  is_display_name : text;
  is_created_at : option DateTime;
  is_size_bytes : Z;
  is_shared_size_bytes : option Z;
  is_virtual_size_bytes : option Z;
  is_labels : Labels;
  is_containers : list ImageContainerReference;
  is_in_use : bool;
}.
Record ImageDetail := {
  id_summary : ImageSummary;
  id_architecture : option text;
  id_os : option text;
  id_variant : option text;
  id_author : option text;
  id_docker_version : option text;
  id_comment : option text;
  id_command : list text;
  id_entrypoint : list text;
  id_environment : list EnvironmentVariable;
  id_working_dir : option text;
  id_user : option text;
  id_stop_signal : option text;
  id_shell : list text;
  id_labels : Labels;
  id_root_fs_layers : list text;
}.
Record RegistryAuth := {
  ra_username : option text;
  ra_password : option text;
  ra_server_address : option text;
  ra_identity_token : option text;
  ra_registry_token : option text;
}.
Record PullImageOptions := {
  pio_reference : text;
  pio_platform : option text;
  pio_registry_auth : option RegistryAuth;
}.
Record RemoveImageOptions := { rio_force : bool; rio_prune_children : bool }.
Inductive ImageDeleteResult : Type := Image_Untagged (reference : text) | Image_Deleted (id : text).
Record ImagePullProgress := {
  ipp_image_reference : text;
  ipp_layer_id : option text;
  ipp_status : text;
  ipp_current : option Z;
  ipp_total : option Z;
  ipp_percent : option f64;
  ipp_completed : bool;
}.

Definition normalize_image_id (id : text) : text :=
  let trimmed := trim id in
  to_ascii_lowercase
    (match strip_prefix (bytes "sha256:") trimmed with
     | Some rest => rest
     | None => default trimmed (strip_prefix (bytes "sha256-") trimmed)
     end).

Definition parse_repo_tag (reference : text) : option (text * text) :=
  if is_empty reference || bool_decide (reference = bytes "<none>:<none>") || contains "@"%byte reference
  then None
  else
    let slash := rfind "/"%byte reference in
    match rfind ":"%byte reference with
    | None => None
    | Some colon =>
        if match slash with Some slash => (colon <? slash)%nat | None => false end then None
        else
          let repository := take colon reference in
          let tag := drop 1 (drop colon reference) in
          if negb (is_empty repository) && negb (is_empty tag) then Some (repository, tag) else None
    end.

(** The [filter] with [seen.insert], then [sum]; the sum of [u64] panics on
    overflow in a checked build and wraps in a release build, so it is kept
    unbounded here. *)
Fixpoint total_unique_size_loop (seen : gset text) (images : list ImageSummary) : Z :=
  match images with
  | [] => 0
  | image :: images =>
      let key := normalize_image_id (is_id image) in
      if bool_decide (key ∈ seen) then total_unique_size_loop seen images
      else is_size_bytes image + total_unique_size_loop ({[key]} ∪ seen) images
  end.
Definition total_unique_size (images : list ImageSummary) : Z := total_unique_size_loop ∅ images.

Definition primary_tag (self : ImageSummary) : text := default (bytes "<none>:<none>") (head (is_repo_tags self)).

(** ** Volumes *)
Record VolumeUsage := { vu_size_bytes : option Z; vu_ref_count : option Z }.
Record VolumeContainerReference := {
  vcr_id : text;
  vcr_short_id : text;
  vcr_name : text;
  vcr_state : ContainerRuntimeState;
  vcr_destination : text;
  vcr_read_only : bool;
  vcr_propagation : option text;
}.
Record VolumeSummary := {
  vs_name : text;
  vs_driver : text;
  vs_scope : text;
  vs_mountpoint : option text;
  vs_created_at : option DateTime;
  vs_labels : Labels;
  vs_options : Labels;
  vs_usage : VolumeUsage;
  vs_used_by : list VolumeContainerReference;
  vs_anonymous : bool;
}.
Definition vs_in_use (self : VolumeSummary) : bool := negb (is_empty (vs_used_by self)).

Record VolumeDetail := { vd_summary : VolumeSummary; vd_status : Labels }.
Record CreateVolumeRequest := {
  cvr_name : option text;
  cvr_driver : option text;
  cvr_driver_options : Labels;
  cvr_labels : Labels;
}.
Record RemoveVolumeOptions := { rvo_force : bool }.
Record PruneVolumeFilters := { pvf_filters : gmap text (list text) }.
Record VolumePruneResult := { vpr_volumes_deleted : list text; vpr_space_reclaimed_bytes : option Z }.
Inductive VolumeExportCompression : Type := Compression_Tar | Compression_TarGzip | Compression_TarZstd.
Record ExportVolumeRequest := {
  evr_volume_name : text;
  evr_destination : text;
  evr_compression : VolumeExportCompression;
}.
Record CloneVolumeRequest := {
  clvr_source_volume : text;
  clvr_target_name : text;
  clvr_target_driver : option text;
  clvr_target_driver_options : Labels;
  clvr_copy_labels : bool;
}.
Record VolumeSizeSummary := { vss_known_total_bytes : Z; vss_known_count : Z; vss_unknown_count : Z }.

Definition volume_size_step (result : VolumeSizeSummary) (volume : VolumeSummary) : VolumeSizeSummary :=
  match vu_size_bytes (vs_usage volume) with
  | Some size =>
      {| vss_known_total_bytes := saturating_add u64_max (vss_known_total_bytes result) size;
         vss_known_count := vss_known_count result + 1;
         vss_unknown_count := vss_unknown_count result |}
  | None =>
      {| vss_known_total_bytes := vss_known_total_bytes result;
         vss_known_count := vss_known_count result;
         vss_unknown_count := vss_unknown_count result + 1 |}
  end.

Definition VolumeSizeSummary_from_volumes (volumes : list VolumeSummary) : VolumeSizeSummary :=
  foldl volume_size_step {| vss_known_total_bytes := 0; vss_known_count := 0; vss_unknown_count := 0 |} volumes.

Inductive VolumeSort : Type :=
  | Sort_NameAscending | Sort_NameDescending | Sort_NewestFirst | Sort_OldestFirst
  | Sort_LargestFirst | Sort_SmallestFirst | Sort_MostContainers | Sort_FewestContainers
  | Sort_InUseFirst | Sort_UnusedFirst.

Definition option_last_cmp {A} (cmp : A → A → comparison) (l r : option A) : comparison :=
  match l, r with
  | Some l, Some r => cmp l r
  | Some _, None => Lt
  | None, Some _ => Gt
  | None, None => Eq
  end.
Definition option_last_cmp_desc {A} (cmp : A → A → comparison) (l r : option A) : comparison :=
  match l, r with
  | Some l, Some r => cmp r l
  | Some _, None => Lt
  | None, Some _ => Gt
  | None, None => Eq
  end.

(** [bool::cmp] *)
Definition bool_cmp (a b : bool) : comparison := (Z.b2z a ?= Z.b2z b).

Definition volume_key_cmp (sort : VolumeSort) : VolumeSummary → VolumeSummary → comparison :=
  match sort with
  | Sort_NameAscending => cmp_by vs_name bytes_cmp
  | Sort_NameDescending => cmp_rev (cmp_by vs_name bytes_cmp)
  | Sort_NewestFirst => cmp_by vs_created_at (option_last_cmp_desc Z.compare)
  | Sort_OldestFirst => cmp_by vs_created_at (option_last_cmp Z.compare)
  | Sort_LargestFirst => cmp_by (fun v => vu_size_bytes (vs_usage v)) (option_last_cmp_desc Z.compare)
  | Sort_SmallestFirst => cmp_by (fun v => vu_size_bytes (vs_usage v)) (option_last_cmp Z.compare)
  | Sort_MostContainers => cmp_rev (cmp_by (fun v => length (vs_used_by v)) Nat.compare)
  | Sort_FewestContainers => cmp_by (fun v => length (vs_used_by v)) Nat.compare
  | Sort_InUseFirst => cmp_rev (cmp_by vs_in_use bool_cmp)
  | Sort_UnusedFirst => cmp_by vs_in_use bool_cmp
  end.

Definition volume_cmp (sort : VolumeSort) : VolumeSummary → VolumeSummary → comparison :=
  cmp_then (volume_key_cmp sort) (cmp_by vs_name bytes_cmp).

Definition sort_volumes (volumes : list VolumeSummary) (sort : VolumeSort) : list VolumeSummary :=
  sort_by (volume_cmp sort) volumes.

Definition looks_anonymous_volume (name : text) (labels : Labels) : bool :=
  bool_decide (labels = ∅) && (length name =? 64)%nat && forallb is_ascii_hexdigit name.

(** ** Facts *)

Lemma runtime_state_roundtrip s : runtime_from_str_opt (runtime_as_str s) = s.
Proof. destruct s; vm_compute; reflexivity. Qed.

Lemma runtime_state_partition s :
  runtime_is_active s || runtime_is_stopped s || bool_decide (s = Runtime_Removing) = true
  ∧ runtime_is_active s && runtime_is_stopped s = false.
Proof. by destruct s. Qed.

Lemma mount_type_roundtrip t : mount_type_from_docker (mount_type_as_docker t) = t.
Proof. destruct t; vm_compute; reflexivity. Qed.

#[export] Instance option_last_cmp_total {A} (cmp : A → A → comparison) `{!TotalCmp cmp} :
  TotalCmp (option_last_cmp cmp).
Proof.
  split.
  - intros [a|] [b|]; cbn; try done. apply cmp_flip.
  - intros [a|] [b|] [c|]; cbn; try done. apply cmp_trans.
Qed.
#[export] Instance option_last_cmp_desc_total {A} (cmp : A → A → comparison) `{!TotalCmp cmp} :
  TotalCmp (option_last_cmp_desc cmp).
Proof.
  split.
  - intros [a|] [b|]; cbn; try done. apply cmp_flip.
  - intros [a|] [b|] [c|]; cbn; try done. intros H1 H2. by eapply cmp_trans.
Qed.
#[export] Instance bool_cmp_total : TotalCmp bool_cmp.
Proof. split; [by intros [] [] | by intros [] [] []]. Qed.

#[export] Instance volume_key_cmp_total sort : TotalCmp (volume_key_cmp sort).
Proof. destruct sort; cbn; apply _. Qed.
#[export] Instance volume_cmp_total sort : TotalCmp (volume_cmp sort).
Proof. unfold volume_cmp. apply _. Qed.

(** Sorting volumes is a stable choice of order: the result is a permutation of
    the input, every earlier volume compares at most equal to every later one, it
    does not depend on the order of the input when names are distinct, and in
    either direction no volume of unknown size precedes one of known size. *)
Theorem sort_volumes_correct volumes sort :
  sort_volumes volumes sort ≡ₚ volumes
  ∧ StronglySorted (fun a b => volume_cmp sort a b ≠ Gt) (sort_volumes volumes sort)
  ∧ (∀ volumes', volumes ≡ₚ volumes' → NoDup (vs_name <$> volumes) →
       sort_volumes volumes sort = sort_volumes volumes' sort)
  ∧ (sort = Sort_LargestFirst ∨ sort = Sort_SmallestFirst →
     StronglySorted (fun a b => vu_size_bytes (vs_usage a) = None → vu_size_bytes (vs_usage b) = None)
       (sort_volumes volumes sort)).
Proof.
  pose proof (sort_by_sorted (volume_cmp sort) volumes) as Hs. split_and!; [apply sort_by_perm | exact Hs | |].
  - intros volumes' Hp Hnd. apply (sort_by_unique _ vs_name); [| done | done].
    intros a b. unfold volume_cmp, cmp_then. destruct (volume_key_cmp sort a b); try done. apply bytes_cmp_eq.
  - intros Hsort. unfold sort_volumes. revert Hs. induction (sort_by _ volumes) as [|a l IH]; [constructor |].
    intros [Hl Ha]%StronglySorted_inv. constructor; [by apply IH |]. eapply Forall_impl; [| exact Ha].
    intros b. unfold volume_cmp, cmp_then, cmp_by. destruct Hsort as [-> | ->]; cbn; unfold cmp_by;
      destruct (vu_size_bytes (vs_usage a)), (vu_size_bytes (vs_usage b)); done.
Qed.

Definition sized_volume (name : text) (size : option Z) : VolumeSummary :=
  {| vs_name := name; vs_driver := bytes "local"; vs_scope := bytes "local"; vs_mountpoint := None;
     vs_created_at := None; vs_labels := ∅; vs_options := ∅;
     vs_usage := {| vu_size_bytes := size; vu_ref_count := None |}; vs_used_by := []; vs_anonymous := false |}.

Lemma sort_volumes_examples :
  vs_name <$> sort_volumes [sized_volume (bytes "u") None; sized_volume (bytes "l") (Some 100);
                            sized_volume (bytes "s") (Some 1)] Sort_LargestFirst
  = [bytes "l"; bytes "s"; bytes "u"].
Proof. vm_compute. reflexivity. Qed.

(** Splitting an image reference succeeds exactly on [repository:tag] whose tag has
    neither a colon nor a slash, both parts non-empty, without a digest and other
    than Docker's placeholder; the parts are unique.  A registry port is never
    taken for a tag. *)
Theorem parse_repo_tag_spec reference repository tag :
  parse_repo_tag reference = Some (repository, tag)
  ↔ reference = repository ++ ":"%byte :: tag ∧ repository ≠ [] ∧ tag ≠ []
    ∧ ":"%byte ∉ tag ∧ "/"%byte ∉ tag ∧ "@"%byte ∉ reference ∧ reference ≠ bytes "<none>:<none>".
Proof.
  unfold parse_repo_tag. split.
  - destruct reference as [|b0 r0] eqn:Er; [done |]. rewrite <- Er. clear Er b0 r0.
    cbn [is_empty orb]. destruct (is_empty reference) eqn:He; [done |]. cbn [orb].
    case_bool_decide as Hn; [done |]. unfold contains. case_bool_decide as Hat; [done |]. cbn [orb].
    destruct (rfind ":"%byte reference) as [colon|] eqn:Hc; [| done].
    apply rfind_Some in Hc as (l & r & Href & <- & Hr).
    destruct (rfind "/"%byte reference) as [slash|] eqn:Hs.
    + destruct (Nat.ltb_spec (length l) slash) as [Hlt|Hge]; [done |].
      rewrite Href, drop_app_length, take_app_length. cbn [drop].
      destruct l as [|c l]; [done |]. destruct r as [|d r]; [done |]. cbn [is_empty negb andb]. intros [= <- <-]. rewrite <- Href.
      split_and!; try done.
      apply rfind_Some in Hs as (l2 & r2 & Href2 & <- & Hr2). intros Hin.
      assert (reference !! length l2 = Some "/"%byte) as Hl2 by (by rewrite Href2, list_lookup_middle).
      rewrite Href in Hl2.
      destruct (list_elem_of_lookup_1 _ _ Hin) as [k Hk].
      assert (reference !! (length (c :: l) + S k)%nat = Some "/"%byte) as Hk2.
      { rewrite Href, lookup_app_r by lia. by replace (_ - _)%nat with (S k) by lia. }
      rewrite Href2, lookup_app_r in Hk2 by lia.
      destruct (length (c :: l) + S k - length l2)%nat as [|m] eqn:Em; [lia |].
      apply Hr2. by eapply list_elem_of_lookup_2.
    + apply rfind_None in Hs. rewrite Href, drop_app_length, take_app_length. cbn [drop].
      destruct l as [|c l]; [done |]. destruct r as [|d r]; [done |]. cbn [is_empty negb andb]. intros [= <- <-]. rewrite <- Href.
      split_and!; try done. rewrite Href in Hs. set_solver.
  - intros (-> & Hrep & Htag & Hc & Hs & Hat & Hn).
    assert (is_empty (repository ++ ":"%byte :: tag) = false) as -> by (by destruct repository).
    rewrite bool_decide_eq_false_2 by done. unfold contains. rewrite bool_decide_eq_false_2 by done. cbn [orb].
    assert (rfind ":"%byte (repository ++ ":"%byte :: tag) = Some (length repository)) as ->
      by (apply rfind_Some; eauto).
    assert (match rfind "/"%byte (repository ++ ":"%byte :: tag) with
            | Some slash => (length repository <? slash)%nat | None => false end = false) as ->.
    { destruct (rfind "/"%byte _) as [slash|] eqn:E; [| done]. apply Nat.ltb_ge.
      apply rfind_Some in E as (l & r & E & <- & Hr). destruct (Nat.le_gt_cases (length l) (length repository)); [lia |].
      exfalso. apply Hs. assert ((repository ++ ":"%byte :: tag) !! length l = Some "/"%byte) as Hl
        by (by rewrite E, list_lookup_middle).
      rewrite lookup_app_r in Hl by lia. destruct (length l - length repository)%nat eqn:El; [lia |].
      by eapply list_elem_of_lookup_2. }
    rewrite drop_app_length, take_app_length. cbn [drop]. by destruct repository, tag.
Qed.

(** Each image is counted once, however its id is written. *)
Lemma total_unique_size_loop_seen seen images :
  (∀ i, i ∈ images → normalize_image_id (is_id i) ∈ seen) → total_unique_size_loop seen images = 0.
Proof.
  revert seen. induction images as [|i images IH]; intros seen H; cbn; [done |].
  rewrite bool_decide_eq_true_2 by (apply H; left). apply IH. intros j Hj. apply H. by right.
Qed.

Lemma total_unique_size_loop_app seen l k :
  total_unique_size_loop seen (l ++ k)
  = total_unique_size_loop seen l
    + total_unique_size_loop (list_to_set ((fun i => normalize_image_id (is_id i)) <$> l) ∪ seen) k.
Proof.
  revert seen. induction l as [|i l IH]; intros seen; cbn.
  - by rewrite union_empty_l_L.
  - case_bool_decide as Hin; rewrite IH; [f_equal; f_equal; set_solver |]. rewrite Z.add_assoc. f_equal.
    f_equal. set_solver.
Qed.

Lemma total_unique_size_duplicates images more :
  (∀ i, i ∈ more → ∃ j, j ∈ images ∧ normalize_image_id (is_id j) = normalize_image_id (is_id i)) →
  total_unique_size (images ++ more) = total_unique_size images.
Proof.
  intros H. unfold total_unique_size. rewrite total_unique_size_loop_app, (total_unique_size_loop_seen (_ ∪ _)); [lia |].
  intros i Hi. destruct (H i Hi) as (j & Hj & <-). rewrite union_empty_r_L, elem_of_list_to_set.
  apply list_elem_of_fmap. eauto.
Qed.

Lemma total_unique_size_distinct seen images :
  NoDup ((fun i => normalize_image_id (is_id i)) <$> images) →
  (∀ i, i ∈ images → normalize_image_id (is_id i) ∉ seen) →
  total_unique_size_loop seen images = foldr (fun i acc => is_size_bytes i + acc) 0 images.
Proof.
  revert seen. induction images as [|i images IH]; intros seen Hnd H; cbn in *; [done |].
  apply list.NoDup_cons in Hnd as [Hi Hnd]. rewrite bool_decide_eq_false_2 by (apply H; left). f_equal.
  apply IH; [done |]. intros j Hj. rewrite elem_of_union, elem_of_singleton. intros [Heq|Hin].
  - apply Hi. rewrite <- Heq. by apply (list_elem_of_fmap_2 (fun i => normalize_image_id (is_id i))).
  - revert Hin. apply H. by right.
Qed.

(** The known sizes and the counts of a volume list. *)
Lemma volume_size_fold volumes s0 :
  Forall (fun v => 0 ≤ default 0 (vu_size_bytes (vs_usage v))) volumes → 0 ≤ vss_known_total_bytes s0 ≤ u64_max →
  let s := foldl volume_size_step s0 volumes in
  vss_known_count s + vss_unknown_count s = vss_known_count s0 + vss_unknown_count s0 + len volumes
  ∧ vss_known_total_bytes s
    = Z.min u64_max (vss_known_total_bytes s0
                     + foldr (fun v acc => default 0 (vu_size_bytes (vs_usage v)) + acc) 0 volumes).
Proof.
  intros Hall. revert s0. induction Hall as [|v volumes Hv Hall IH]; intros s0 H0; cbn.
  - rewrite len_nil. lia.
  - assert (0 ≤ foldr (fun v acc => default 0 (vu_size_bytes (vs_usage v)) + acc) 0 volumes) as Hpos.
    { clear IH. induction Hall; cbn; lia. }
    destruct (IH (volume_size_step s0 v)) as [I1 I2].
    { unfold volume_size_step, saturating_add. destruct (vu_size_bytes (vs_usage v)); cbn in *; lia. }
    rewrite I1, I2, len_cons. unfold volume_size_step, saturating_add.
    destruct (vu_size_bytes (vs_usage v)); cbn in *; lia.
Qed.

Lemma volume_size_summary volumes :
  Forall (fun v => 0 ≤ default 0 (vu_size_bytes (vs_usage v))) volumes →
  let s := VolumeSizeSummary_from_volumes volumes in
  vss_known_count s + vss_unknown_count s = len volumes
  ∧ vss_known_total_bytes s
    = Z.min u64_max (foldr (fun v acc => default 0 (vu_size_bytes (vs_usage v)) + acc) 0 volumes).
Proof.
  intros Hall. destruct (volume_size_fold volumes
    {| vss_known_total_bytes := 0; vss_known_count := 0; vss_unknown_count := 0 |} Hall) as [H1 H2];
    [cbn; unfold u64_max; lia |]. split; [exact H1 | exact H2].
Qed.
