(* ===== verification/Compose.v ===== *)
(** Compose metadata and grouping (crates/tuxstack-domain/src/compose.rs), with the
    sorting and the search of container lists (container.rs) that use them.

    A [PathBuf] is its bytes; the standard library compares and hashes paths by
    their components, so that is what [path_cmp] does.  The order in which a hash
    map is iterated is a parameter, [HashOrder]. *)

From S2P Require Import Prelude Path Numbers Text Domain.

Local Open Scope Z_scope.

(** ** Paths of the standard library *)
Inductive Component : Type := RootDir | CurDir | ParentDir | Normal (name : text).

Definition component (raw : text) : option Component :=
  if is_empty raw || bool_decide (raw = bytes ".") then None
  else if bool_decide (raw = bytes "..") then Some ParentDir
  else Some (Normal raw).

(** [Path::components]: a leading dot is kept, other dots and empty pieces are not. *)
Definition path_components (path : text) : list Component :=
  match split_on "/"%byte path with
  | [] => []
  | first :: rest =>
      (if is_empty path then []
       else if is_empty first then [RootDir]
       else if bool_decide (first = bytes ".") then [CurDir]
       else option_list (component first))
      ++ omap component rest
  end.

Definition component_rank (c : Component) : Z :=
  match c with RootDir => 0 | CurDir => 1 | ParentDir => 2 | Normal _ => 3 end.
Definition component_name (c : Component) : text := match c with Normal name => name | _ => [] end.
Definition component_cmp : Component → Component → comparison :=
  cmp_then (cmp_by component_rank Z.compare) (cmp_by component_name bytes_cmp).
Definition path_cmp : text → text → comparison := cmp_by path_components (cmp_lex component_cmp).

(** [Option::cmp]: [None] comes first. *)
Definition option_cmp {A} (cmp : A → A → comparison) (l r : option A) : comparison :=
  match l, r with
  | Some l, Some r => cmp l r
  | Some _, None => Gt
  | None, Some _ => Lt
  | None, None => Eq
  end.

(** ** Labels *)
Definition COMPOSE_PROJECT_LABEL : text := bytes "com.docker.compose.project".
Definition COMPOSE_SERVICE_LABEL : text := bytes "com.docker.compose.service".
Definition COMPOSE_CONTAINER_NUMBER_LABEL : text := bytes "com.docker.compose.container-number".
Definition COMPOSE_WORKING_DIR_LABEL : text := bytes "com.docker.compose.project.working_dir".
Definition COMPOSE_CONFIG_FILES_LABEL : text := bytes "com.docker.compose.project.config_files".
Definition COMPOSE_VERSION_LABEL : text := bytes "com.docker.compose.version".
Definition COMPOSE_ONEOFF_LABEL : text := bytes "com.docker.compose.oneoff".
Definition DEVCONTAINER_LOCAL_FOLDER_LABEL : text := bytes "devcontainer.local_folder".
Definition DEVCONTAINER_CONFIG_FILE_LABEL : text := bytes "devcontainer.config_file".

Record ComposeContainerMetadata := {
  ccm_project_name : text;
  ccm_service : text;
  ccm_container_number : option Z;
  ccm_working_directory : option text;
  ccm_config_files : list text;
  ccm_compose_version : option text;
  ccm_oneoff : bool;
  ccm_devcontainer_local_folder : option text;
  ccm_devcontainer_config_file : option text;
}.

Definition nonempty (value : option text) : option text :=
  match value with
  | Some value => let v := trim value in if is_empty v then None else Some v
  | None => None
  end.

Definition split_config_files (value : text) : list text :=
  List.filter (fun v => negb (is_empty v)) (map trim (split_on ","%byte value)).

Definition from_labels (labels : Labels) : option ComposeContainerMetadata :=
  match nonempty (labels !! COMPOSE_PROJECT_LABEL) with
  | None => None
  | Some project_name =>
      Some {|
        ccm_project_name := project_name;
        ccm_service := default [] (trim <$> labels !! COMPOSE_SERVICE_LABEL);
        ccm_container_number := labels !! COMPOSE_CONTAINER_NUMBER_LABEL ≫= parse_unsigned u32_max;
        ccm_working_directory := nonempty (labels !! COMPOSE_WORKING_DIR_LABEL);
        ccm_config_files := default [] (split_config_files <$> labels !! COMPOSE_CONFIG_FILES_LABEL);
        ccm_compose_version := nonempty (labels !! COMPOSE_VERSION_LABEL);
        ccm_oneoff :=
          match labels !! COMPOSE_ONEOFF_LABEL with
          | Some value =>
              let lower := to_ascii_lowercase value in
              bool_decide (lower = bytes "true") || bool_decide (lower = bytes "1") || bool_decide (lower = bytes "yes")
          | None => false
          end;
        ccm_devcontainer_local_folder := nonempty (labels !! DEVCONTAINER_LOCAL_FOLDER_LABEL);
        ccm_devcontainer_config_file := nonempty (labels !! DEVCONTAINER_CONFIG_FILE_LABEL);
      |}
  end.

Definition is_devcontainer (self : ComposeContainerMetadata) : bool :=
  bool_decide (is_Some (ccm_devcontainer_local_folder self))
  || bool_decide (is_Some (ccm_devcontainer_config_file self)).

Definition compose_metadata (self : ContainerSummary) : option ComposeContainerMetadata := from_labels (cs_labels self).

(** ** Groups *)
Record ContainerGroupId := { cgi_endpoint_key : text; cgi_project_name : text }.

Inductive GroupOperationState : Type :=
  | Group_Idle | Group_Starting | Group_Stopping | Group_Restarting
  | Group_Pausing | Group_Unpausing | Group_Removing.

Inductive ContainerGroupSection : Type :=
  | Section_Restarting | Section_Running | Section_Paused | Section_Stopped.

Record ContainerGroupSummary := {
  cgs_id : ContainerGroupId;
  cgs_project_name : text;
  cgs_display_name : text;
  cgs_containers : list text;
  cgs_total_count : Z;
  cgs_running_count : Z;
  cgs_paused_count : Z;
  cgs_restarting_count : Z;
  cgs_stopped_count : Z;
  cgs_unhealthy_count : Z;
  cgs_oneoff_count : Z;
  cgs_devcontainer_count : Z;
  cgs_working_directory : option text;
  cgs_config_files : list text;
  cgs_compose_version : option text;
  cgs_operation_state : GroupOperationState;
}.

Definition cgs_section (self : ContainerGroupSummary) : ContainerGroupSection :=
  if cgs_restarting_count self >? 0 then Section_Restarting
  else if cgs_running_count self >? 0 then Section_Running
  else if cgs_paused_count self >? 0 then Section_Paused
  else Section_Stopped.

Record ContainerGroupMemberResult := { gmr_container_id : text; gmr_error : option text }.
Definition gmr_succeeded (self : ContainerGroupMemberResult) : bool := bool_decide (gmr_error self = None).

Record ContainerGroupOperationResult := {
  gor_group_id : ContainerGroupId;
  gor_members : list ContainerGroupMemberResult;
}.
Definition gor_is_complete_success (self : ContainerGroupOperationResult) : bool :=
  forallb gmr_succeeded (gor_members self).
Definition gor_failure_count (self : ContainerGroupOperationResult) : Z :=
  len (List.filter (fun m => negb (gmr_succeeded m)) (gor_members self)).

(** The order in which [HashMap::into_iter] yields the entries. *)
Class HashOrder := {
  hash_order {A : Type} : list A → list A;
  hash_order_perm {A : Type} (l : list A) : hash_order l ≡ₚ l;
}.

(** [*counts.entry(value).or_default() += 1]: the first spelling of a key stays. *)
Fixpoint count_value {A} (cmp : A → A → comparison) (a : A) (counts : list (A * Z)) : list (A * Z) :=
  match counts with
  | [] => [(a, 1)]
  | (b, n) :: counts =>
      match cmp a b with
      | Eq => (b, n + 1) :: counts
      | _ => (b, n) :: count_value cmp a counts
      end
  end.

(** [Iterator::max_by]: the last of the greatest elements. *)
Fixpoint max_by {A} (cmp : A → A → comparison) (l : list A) : option A :=
  match l with
  | [] => None
  | a :: l =>
      match max_by cmp l with
      | None => Some a
      | Some b => match cmp a b with Gt => Some a | _ => Some b end
      end
  end.

Section grouping.
Context {HO : HashOrder}.

Definition most_common {A} (cmp : A → A → comparison) (values : list A) : option A :=
  let counts := foldl (fun counts a => count_value cmp a counts) [] values in
  fst <$> max_by (cmp_then (cmp_by snd Z.compare) (cmp_rev (cmp_by fst cmp))) (hash_order counts).

(** [projects.entry(key).or_default().push(value)] of an ordered map, as its
    sorted list of entries. *)
Fixpoint btree_push {A} (key : text) (value : A) (map : list (text * list A)) : list (text * list A) :=
  match map with
  | [] => [(key, [value])]
  | (k, vs) :: map' =>
      match bytes_cmp key k with
      | Lt => (key, [value]) :: map
      | Eq => (k, vs ++ [value]) :: map'
      | Gt => (k, vs) :: btree_push key value map'
      end
  end.

Abbreviation member := (ContainerSummary * ComposeContainerMetadata)%type.

Definition collect_projects (containers : list ContainerSummary) : list (text * list member) :=
  foldl (fun projects container =>
    match compose_metadata container with
    | Some metadata => btree_push (ccm_project_name metadata) (container, metadata) projects
    | None => projects
    end) [] containers.

Definition member_cmp : member → member → comparison :=
  cmp_then (cmp_by (fun m => to_ascii_lowercase (ccm_service m.2)) bytes_cmp)
    (cmp_then (cmp_by (fun m => ccm_container_number m.2) (option_cmp Z.compare))
       (cmp_then (cmp_by (fun m => to_ascii_lowercase (cs_name m.1)) bytes_cmp)
          (cmp_by (fun m => cs_id m.1) bytes_cmp))).

Definition count_where {A} (f : A → bool) (l : list A) : Z := len (List.filter f l).

Definition is_unhealthy (c : ContainerSummary) : bool :=
  match cs_health_summary c with
  | Some health => bool_decide (chs_status health = Health_Unhealthy)
  | None => false
  end.

(** [Vec::dedup]: drop an element equal to the one kept before it. *)
Fixpoint dedup_from {A} (cmp : A → A → comparison) (last : A) (l : list A) : list A :=
  match l with
  | [] => []
  | a :: l => match cmp last a with Eq => dedup_from cmp last l | _ => a :: dedup_from cmp a l end
  end.
Definition dedup {A} (cmp : A → A → comparison) (l : list A) : list A :=
  match l with [] => [] | a :: l => a :: dedup_from cmp a l end.

Definition group_summary (endpoint_key project_name : text) (members : list member) : ContainerGroupSummary :=
  let members := sort_by member_cmp members in
  let in_state s := count_where (fun m : member => bool_decide (cs_state m.1 = s)) members in
  let running_count := in_state Runtime_Running in
  let paused_count := in_state Runtime_Paused in
  let restarting_count := in_state Runtime_Restarting in
  {| cgs_id := {| cgi_endpoint_key := endpoint_key; cgi_project_name := project_name |};
     cgs_display_name := project_name;
     cgs_project_name := project_name;
     cgs_total_count := len members;
     cgs_containers := map (fun m => cs_id m.1) members;
     cgs_running_count := running_count;
     cgs_paused_count := paused_count;
     cgs_restarting_count := restarting_count;
     cgs_stopped_count := len members - running_count - paused_count - restarting_count;
     cgs_unhealthy_count := count_where (fun m => is_unhealthy m.1) members;
     cgs_oneoff_count := count_where (fun m => ccm_oneoff m.2) members;
     cgs_devcontainer_count := count_where (fun m => is_devcontainer m.2) members;
     cgs_working_directory := most_common path_cmp (omap (fun m => ccm_working_directory m.2) members);
     cgs_config_files := dedup path_cmp (sort_by path_cmp (members ≫= fun m => ccm_config_files m.2));
     cgs_compose_version := most_common bytes_cmp (omap (fun m => ccm_compose_version m.2) members);
     cgs_operation_state := Group_Idle |}.

Definition group_compose_containers (endpoint_key : text) (containers : list ContainerSummary)
  : list ContainerGroupSummary :=
  map (fun '(project_name, members) => group_summary endpoint_key project_name members)
    (collect_projects containers).
End grouping.

(** ** Sorting and searching container lists *)
Inductive ContainerSortMode : Type :=
  | Mode_NameAscending | Mode_NameDescending | Mode_NewestFirst | Mode_OldestFirst
  | Mode_RunningFirst | Mode_StoppedFirst | Mode_ComposeGroupsFirst | Mode_IndividualContainersFirst.

Definition state_sort_key (state : ContainerRuntimeState) : Z :=
  match state with
  | Runtime_Restarting => 0
  | Runtime_Running => 1
  | Runtime_Paused => 2
  | _ => 3
  end.

Definition container_name_cmp : ContainerSummary → ContainerSummary → comparison :=
  cmp_then (cmp_by (fun c => to_ascii_lowercase (cs_name c)) bytes_cmp) (cmp_by cs_id bytes_cmp).

Definition has_compose (c : ContainerSummary) : bool :=
  match compose_metadata c with Some _ => true | None => false end.

Definition container_cmp (mode : ContainerSortMode) : ContainerSummary → ContainerSummary → comparison :=
  match mode with
  | Mode_NameAscending => container_name_cmp
  | Mode_NameDescending =>
      cmp_then (cmp_rev (cmp_by (fun c => to_ascii_lowercase (cs_name c)) bytes_cmp)) (cmp_by cs_id bytes_cmp)
  | Mode_NewestFirst => cmp_then (cmp_rev (cmp_by cs_created_at Z.compare)) container_name_cmp
  | Mode_OldestFirst => cmp_then (cmp_by cs_created_at Z.compare) container_name_cmp
  | Mode_RunningFirst => cmp_then (cmp_by (fun c => state_sort_key (cs_state c)) Z.compare) container_name_cmp
  | Mode_StoppedFirst => cmp_then (cmp_rev (cmp_by (fun c => state_sort_key (cs_state c)) Z.compare)) container_name_cmp
  | Mode_ComposeGroupsFirst => cmp_then (cmp_rev (cmp_by has_compose bool_cmp)) container_name_cmp
  | Mode_IndividualContainersFirst => cmp_then (cmp_by has_compose bool_cmp) container_name_cmp
  end.

Definition sort_containers (containers : list ContainerSummary) (mode : ContainerSortMode) : list ContainerSummary :=
  sort_by (container_cmp mode) containers.

Definition container_matches_search (container : ContainerSummary) (query : text) : bool :=
  let query := to_ascii_lowercase (trim query) in
  let found value := str_contains (to_ascii_lowercase value) query in
  if is_empty query then true
  else
    let compose := compose_metadata container in
    existsb found
      [cs_name container; cs_id container; cs_short_id container; cs_image container; cs_image_id container;
       runtime_as_str (cs_state container);
       default [] (ccm_project_name <$> compose); default [] (ccm_service <$> compose)]
    || existsb (fun port => found (port_display port)) (cs_ports container)
    || existsb (fun '(key, value) => found key || found value) (map_to_list (cs_labels container)).

(** ** Facts about orders *)
#[export] Instance option_cmp_total {A} (cmp : A → A → comparison) `{!TotalCmp cmp} : TotalCmp (option_cmp cmp).
Proof.
  split.
  - intros [a|] [b|]; cbn; try done. apply cmp_flip.
  - intros [a|] [b|] [c|]; cbn; try done. apply cmp_trans.
Qed.
#[export] Instance component_cmp_total : TotalCmp component_cmp.
Proof. unfold component_cmp. apply _. Qed.
#[export] Instance path_cmp_total : TotalCmp path_cmp.
Proof. unfold path_cmp. apply _. Qed.
#[export] Instance member_cmp_total : TotalCmp member_cmp.
Proof. unfold member_cmp. apply _. Qed.
#[export] Instance container_name_cmp_total : TotalCmp container_name_cmp.
Proof. unfold container_name_cmp. apply _. Qed.
#[export] Instance container_cmp_total mode : TotalCmp (container_cmp mode).
Proof. destruct mode; cbn; apply _. Qed.

Lemma cmp_then_Eq {A} (c1 c2 : A → A → comparison) a b :
  cmp_then c1 c2 a b = Eq ↔ c1 a b = Eq ∧ c2 a b = Eq.
Proof. unfold cmp_then. destruct (c1 a b); naive_solver. Qed.

Lemma container_cmp_id mode a b : container_cmp mode a b = Eq → cs_id a = cs_id b.
Proof.
  destruct mode; cbn; unfold container_name_cmp; rewrite ?cmp_then_Eq; intros H;
    apply bytes_cmp_eq; unfold cmp_by in H; tauto.
Qed.

Lemma path_examples :
  path_cmp (bytes "/a/b") (bytes "/a//b/./") = Eq ∧ path_cmp (bytes "/a/b") (bytes "/a/c") = Lt
  ∧ path_components (bytes "./x/../y") = [CurDir; Normal (bytes "x"); ParentDir; Normal (bytes "y")].
Proof. vm_compute. done. Qed.

(** Sorting containers permutes the list, orders every earlier container at most
    equal to every later one, and, full ids being distinct, gives the same result
    whatever the order of the input, in each of the eight modes. *)
Theorem sort_containers_correct containers mode :
  sort_containers containers mode ≡ₚ containers
  ∧ StronglySorted (fun a b => container_cmp mode a b ≠ Gt) (sort_containers containers mode)
  ∧ (∀ containers', containers ≡ₚ containers' → NoDup (cs_id <$> containers) →
       sort_containers containers mode = sort_containers containers' mode).
Proof.
  split_and!; [apply sort_by_perm | apply sort_by_sorted; apply _ |].
  intros containers' Hp Hnd. apply (sort_by_unique _ cs_id); [apply container_cmp_id | done | done].
Qed.

(** ** The most common value *)
Section most_common.
Context {HO : HashOrder} {A : Type} (cmp : A → A → comparison) `{!TotalCmp cmp}.

Definition occurrences (a : A) (values : list A) : Z :=
  len (List.filter (fun b => match cmp a b with Eq => true | _ => false end) values).

(** The counted values are distinct, and counted right. *)
Definition counts_ok (values : list A) (counts : list (A * Z)) : Prop :=
  (∀ a n, (a, n) ∈ counts → a ∈ values ∧ n = occurrences a values)
  ∧ (∀ a, a ∈ values → ∃ b n, (b, n) ∈ counts ∧ cmp a b = Eq).

Lemma cmp_Eq_sym a b : cmp a b = Eq → cmp b a = Eq.
Proof. intros H. by rewrite (cmp_flip (cmp := cmp) a b), H. Qed.

Lemma cmp_Eq_iff a b c : cmp a b = Eq → cmp a c = Eq ↔ cmp b c = Eq.
Proof.
  intros Hab. split; intros H.
  - exact (cmp_eq_trans cmp b a c (cmp_Eq_sym a b Hab) H).
  - exact (cmp_eq_trans cmp a b c Hab H).
Qed.

Lemma occurrences_eq a b values : cmp a b = Eq → occurrences a values = occurrences b values.
Proof.
  intros Hab. unfold occurrences. f_equal. apply List.filter_ext. intros c.
  pose proof (cmp_Eq_iff a b c Hab) as H. destruct (cmp a c), (cmp b c); naive_solver.
Qed.

Lemma occurrences_snoc a values b :
  occurrences a (values ++ [b]) = occurrences a values + (match cmp a b with Eq => 1 | _ => 0 end).
Proof.
  unfold occurrences. rewrite List.filter_app, len_app. cbn. destruct (cmp a b); done.
Qed.

Lemma occurrences_absent a values : (∀ b, b ∈ values → cmp a b ≠ Eq) → occurrences a values = 0.
Proof.
  intros H. unfold occurrences. induction values as [|b values IH]; [done |]. cbn.
  destruct (cmp a b) eqn:E; [by destruct (H b); [left |] | |]; apply IH; intros c Hc; apply H; by right.
Qed.

Definition distinct (counts : list (A * Z)) : Prop :=
  StronglySorted (fun x y => cmp x.1 y.1 ≠ Eq) counts.

Lemma cmp_Eq_neq a b c : cmp a b = Eq → cmp b c ≠ Eq → cmp a c ≠ Eq.
Proof. intros H1 H2 H3. apply H2. by apply (cmp_Eq_iff a b c). Qed.

Lemma count_value_elem a counts b n :
  distinct counts → (b, n) ∈ count_value cmp a counts →
  ((b, n) ∈ counts ∧ cmp a b ≠ Eq)
  ∨ (∃ m, (b, m) ∈ counts ∧ cmp a b = Eq ∧ n = m + 1)
  ∨ (b = a ∧ n = 1 ∧ ∀ x m, (x, m) ∈ counts → cmp a x ≠ Eq).
Proof.
  induction counts as [|[c k] counts IH]; intros Hd; cbn.
  - intros [= -> ->]%list_elem_of_singleton. right; right. split_and!; [done.. |]. by intros x m ?%not_elem_of_nil.
  - apply StronglySorted_inv in Hd as [Hd Hall].
    assert (∀ x m, (x, m) ∈ counts → cmp c x ≠ Eq) as Hc
      by (intros x m Hx; by apply (proj1 (list.Forall_forall _ _) Hall (x, m) Hx)).
    destruct (cmp a c) eqn:E; intros [[= -> ->]|Hin]%elem_of_cons.
    + right; left. exists k. split_and!; [left | done..].
    + left. split; [by right |]. eapply cmp_Eq_neq; [done | by eapply Hc].
    + left. split; [left | by rewrite E].
    + destruct (IH Hd Hin) as [[H1 H2] | [(m & H1 & H2 & H3) | (H1 & H2 & H3)]].
      * left. split; [by right | done].
      * right; left. exists m. split_and!; [by right | done..].
      * right; right. split_and!; [done.. |]. intros x m [[= -> ->]|Hx]%elem_of_cons; [by rewrite E | by eapply H3].
    + left. split; [left | by rewrite E].
    + destruct (IH Hd Hin) as [[H1 H2] | [(m & H1 & H2 & H3) | (H1 & H2 & H3)]].
      * left. split; [by right | done].
      * right; left. exists m. split_and!; [by right | done..].
      * right; right. split_and!; [done.. |]. intros x m [[= -> ->]|Hx]%elem_of_cons; [by rewrite E | by eapply H3].
Qed.

Lemma count_value_covers a counts :
  (∃ b n, (b, n) ∈ count_value cmp a counts ∧ cmp a b = Eq)
  ∧ ∀ b n, (b, n) ∈ counts → ∃ m, (b, m) ∈ count_value cmp a counts.
Proof.
  induction counts as [|[c k] counts [(b0 & n0 & I1 & I2) I3]]; cbn.
  - split; [| by intros b n ?%not_elem_of_nil]. exists a, 1. split; [left | apply cmp_refl, _].
  - destruct (cmp a c) eqn:E; (split; [| intros b n [[= -> ->]|Hb]%elem_of_cons]).
    + exists c, (k + 1). split; [left | done].
    + exists (k + 1). left.
    + exists n. by right.
    + exists b0, n0. split; [by right | done].
    + exists k. left.
    + destruct (I3 b n Hb) as [m Hm]. exists m. by right.
    + exists b0, n0. split; [by right | done].
    + exists k. left.
    + destruct (I3 b n Hb) as [m Hm]. exists m. by right.
Qed.

Lemma count_value_distinct a counts : distinct counts → distinct (count_value cmp a counts).
Proof.
  induction counts as [|[c k] counts IH]; intros Hd; cbn; [repeat constructor |].
  pose proof Hd as [Hd' Hall]%StronglySorted_inv.
  assert (cmp a c ≠ Eq → distinct ((c, k) :: count_value cmp a counts)) as Hne.
  { intros Hac. constructor; [by apply IH |]. apply list.Forall_forall. intros [b n] Hb. cbn.
    apply (count_value_elem a counts b n Hd') in Hb as [[H1 _] | [(m & H1 & _) | (-> & _)]].
    - by apply (proj1 (list.Forall_forall _ _) Hall (b, n)).
    - by apply (proj1 (list.Forall_forall _ _) Hall (b, m)).
    - intros H%cmp_Eq_sym. done. }
  destruct (cmp a c) eqn:E; [| by apply Hne | by apply Hne]. by constructor.
Qed.

Lemma counts_ok_step a values counts :
  distinct counts → counts_ok values counts → counts_ok (values ++ [a]) (count_value cmp a counts).
Proof.
  intros Hd [H1 H2]. split.
  - intros b n Hb. rewrite occurrences_snoc, elem_of_app, list_elem_of_singleton.
    apply (count_value_elem a counts b n Hd) in Hb as [[Hb Hne] | [(m & Hb & He & ->) | (-> & -> & Hall)]].
    + destruct (H1 b n Hb) as [Hin ->]. split; [by left |].
      destruct (cmp b a) eqn:E; [| lia | lia]. by apply cmp_Eq_sym in E.
    + destruct (H1 b m Hb) as [Hin ->]. split; [by left |]. by rewrite (cmp_Eq_sym _ _ He).
    + split; [by right |]. rewrite (cmp_refl cmp), occurrences_absent; [done |].
      intros b Hb Hab. destruct (H2 b Hb) as (c & n & Hc & Hbc). eapply Hall; [exact Hc |].
      by apply (cmp_Eq_iff a b c Hab).
  - intros b [Hb | ->%list_elem_of_singleton]%elem_of_app.
    + destruct (H2 b Hb) as (c & n & Hc & Hbc). destruct (count_value_covers a counts) as [_ Hcov].
      destruct (Hcov c n Hc) as [m Hm]. eauto.
    + destruct (count_value_covers a counts) as [(c & n & Hc & Hac) _]. eauto.
Qed.

Lemma counts_ok_fold values :
  let counts := foldl (fun counts a => count_value cmp a counts) [] values in
  distinct counts ∧ counts_ok values counts.
Proof.
  induction values as [|a values [I1 I2]] using rev_ind; cbn.
  - split; [constructor |]. split; intros ?; intros; by apply not_elem_of_nil in H || by apply not_elem_of_nil in H0.
  - rewrite foldl_app. cbn. split; [by apply count_value_distinct | by apply counts_ok_step].
Qed.

Lemma max_by_spec {B} (c : B → B → comparison) `{!TotalCmp c} (l : list B) :
  match max_by c l with
  | None => l = []
  | Some m => m ∈ l ∧ ∀ b, b ∈ l → c b m ≠ Gt
  end.
Proof.
  induction l as [|a l IH]; cbn; [done |]. destruct (max_by c l) as [m|].
  - destruct IH as [Hm Hall]. destruct (c a m) eqn:E.
    + split; [by right |]. intros b [->|Hb]%elem_of_cons; [by rewrite E | by apply Hall].
    + split; [by right |]. intros b [->|Hb]%elem_of_cons; [by rewrite E | by apply Hall].
    + split; [left |]. intros b [->|Hb]%elem_of_cons; [by rewrite cmp_refl |].
      eapply cmp_trans; [by apply Hall |]. rewrite cmp_flip, E. done.
  - subst l. split; [left |]. intros b ->%list_elem_of_singleton. by rewrite cmp_refl.
Qed.

(** The most common value is one of the values; no other occurs more often, and
    none that occurs as often is smaller. *)
Lemma most_common_spec values :
  match most_common cmp values with
  | None => values = []
  | Some v => v ∈ values ∧ ∀ x, x ∈ values →
      occurrences x values < occurrences v values
      ∨ occurrences x values = occurrences v values ∧ cmp v x ≠ Gt
  end.
Proof.
  unfold most_common. destruct (counts_ok_fold values) as [_ [H1 H2]].
  set (counts := foldl _ [] values) in *. set (c := cmp_then _ _).
  assert (TotalCmp c) as Hc by (unfold c; apply _).
  pose proof (max_by_spec c (hash_order counts)) as Hm. destruct (max_by c _) as [[v n]|]; cbn.
  - destruct Hm as [Hin Hall]. rewrite hash_order_perm in Hin. destruct (H1 v n Hin) as [Hv ->]. split; [done |].
    intros x Hx. destruct (H2 x Hx) as (y & k & Hy & Hxy). destruct (H1 y k Hy) as [_ ->].
    specialize (Hall (y, occurrences y values)). rewrite hash_order_perm in Hall. specialize (Hall Hy).
    rewrite (occurrences_eq x y values Hxy). unfold c, cmp_then, cmp_by, cmp_rev in Hall. cbn in Hall.
    destruct (Z.compare_spec (occurrences y values) (occurrences v values)) as [He|Hlt|Hgt]; [right | by left | done].
    split; [done |]. eapply cmp_trans; [exact Hall |]. rewrite (cmp_Eq_sym _ _ Hxy). done.
  - pose proof (hash_order_perm counts) as Hp. rewrite Hm in Hp. apply Permutation_nil in Hp.
    destruct values as [|a values]; [done |]. destruct (H2 a) as (b & k & Hb & _); [left |].
    rewrite Hp in Hb. by apply not_elem_of_nil in Hb.
Qed.
End most_common.

(** ** Grouping *)
Section grouping_facts.
Context {HO : HashOrder}.

Definition compose_members (containers : list ContainerSummary) : list (ContainerSummary * ComposeContainerMetadata) :=
  omap (fun c => (fun m => (c, m)) <$> compose_metadata c) containers.

Definition project_of (m : ContainerSummary * ComposeContainerMetadata) : text := ccm_project_name m.2.

Definition in_project (k : text) (m : ContainerSummary * ComposeContainerMetadata) : bool :=
  bool_decide (project_of m = k).

Definition keys_sorted {A} (map : list (text * list A)) : Prop :=
  StronglySorted (fun x y => bytes_cmp x.1 y.1 = Lt) map.

Lemma cmp_Lt_trans {A} (cmp : A → A → comparison) `{!TotalCmp cmp} a b c :
  cmp a b = Lt → cmp b c = Lt → cmp a c = Lt.
Proof.
  intros H1 H2. assert (cmp a c ≠ Gt) as H by (apply (cmp_trans a b c); congruence).
  destruct (cmp a c) eqn:E; [| done | done].
  destruct (cmp_lt_trans cmp a b c) as [? _]; congruence.
Qed.

Lemma btree_push_elem {A} key (v : A) map k vs :
  keys_sorted map → (k, vs) ∈ btree_push key v map ↔
    (k ≠ key ∧ (k, vs) ∈ map)
    ∨ (k = key ∧ ((∃ ws, (key, ws) ∈ map ∧ vs = ws ++ [v]) ∨ ((∀ ws, (key, ws) ∉ map) ∧ vs = [v]))).
Proof.
  induction map as [|[k0 vs0] map IH]; intros Hs; cbn.
  - rewrite list_elem_of_singleton. split.
    + intros [= -> ->]. right. split; [done |]. right. split; [by intros ws ?%not_elem_of_nil | done].
    + intros [[_ ?%not_elem_of_nil] | [-> [(ws & ?%not_elem_of_nil & _) | [_ ->]]]]; done.
  - apply StronglySorted_inv in Hs as [Hs Hall].
    assert (∀ k1 ws, (k1, ws) ∈ map → bytes_cmp k0 k1 = Lt) as Hgt
      by (intros k1 ws Hin; by apply (proj1 (list.Forall_forall _ _) Hall (k1, ws))).
    destruct (bytes_cmp key k0) eqn:E.
    + apply bytes_cmp_eq in E as ->.
      assert (∀ ws, (k0, ws) ∉ map) as Hno.
      { intros ws Hin%Hgt. by rewrite (cmp_refl bytes_cmp) in Hin. }
      rewrite !elem_of_cons. split.
      * intros [[= -> ->]|Hin]; [right; split; [done |]; left; exists vs0; split; [left | done] |].
        left. split; [intros ->; by apply (Hno vs) | by right].
      * intros [[Hne [[= -> _]|Hin]] | [-> [(ws & [[= ->]|Hin]%elem_of_cons & ->) | [Hall' _]]]].
        -- done.
        -- by right.
        -- by left.
        -- by destruct (Hno ws).
        -- destruct (Hall' vs0). left.
    + assert (∀ ws, (key, ws) ∉ (k0, vs0) :: map) as Hno.
      { intros ws [[= -> _]|Hin]%elem_of_cons; [by rewrite (cmp_refl bytes_cmp) in E |].
        apply Hgt in Hin. rewrite (cmp_flip (cmp := bytes_cmp) key k0), E in Hin. done. }
      rewrite (elem_of_cons ((k0, vs0) :: map)). split.
      * intros [[= -> ->]|Hin]; [right; split; [done |]; by right |].
        left. split; [intros ->; by apply (Hno vs) | done].
      * intros [[Hne Hin] | [-> [(ws & Hin & _) | [_ ->]]]]; [by right | by destruct (Hno ws) | by left].
    + assert (key ≠ k0) as Hne by (intros ->; by rewrite (cmp_refl bytes_cmp) in E).
      rewrite elem_of_cons, (IH Hs). setoid_rewrite elem_of_cons. split.
      * intros [[= -> ->] | [[H1 H2] | [-> [(ws & H1 & ->) | [H1 ->]]]]].
        -- left. split; [congruence | by left].
        -- left. split; [done | by right].
        -- right. split; [done |]. left. exists ws. split; [by right | done].
        -- right. split; [done |]. right. split; [| done]. intros ws [[= -> _]|Hin]; [done | by apply (H1 ws)].
      * intros [[H1 [[= -> ->]|H2]] | [-> [(ws & [[= -> _]|H1] & ->) | [H1 ->]]]]; try done.
        -- by left.
        -- right; left. done.
        -- right; right. split; [done |]. left. by exists ws.
        -- right; right. split; [done |]. right. split; [| done]. intros ws Hin. apply (H1 ws). by right.
Qed.

Lemma btree_push_sorted {A} key (v : A) map : keys_sorted map → keys_sorted (btree_push key v map).
Proof.
  induction map as [|[k0 vs0] map IH]; intros Hs; cbn; [repeat constructor |].
  pose proof Hs as [Hs' Hall]%StronglySorted_inv.
  destruct (bytes_cmp key k0) eqn:E.
  - constructor; [done | exact Hall].
  - constructor; [done |]. constructor; [done |]. eapply Forall_impl; [| exact Hall].
    intros [k1 vs1]. cbn. intros H. by apply (cmp_Lt_trans bytes_cmp key k0 k1).
  - constructor; [by apply IH |]. apply list.Forall_forall. intros [k1 vs1] Hin. cbn.
    apply btree_push_elem in Hin; [| done].
    destruct Hin as [[_ Hin] | [-> _]]; [by apply (proj1 (list.Forall_forall _ _) Hall (k1, vs1)) |].
    by rewrite (cmp_flip (cmp := bytes_cmp) key k0), E.
Qed.

Definition projects_ok (members : list (ContainerSummary * ComposeContainerMetadata))
  (map : list (text * list (ContainerSummary * ComposeContainerMetadata))) : Prop :=
  keys_sorted map
  ∧ (∀ k vs, (k, vs) ∈ map ↔ vs = List.filter (in_project k) members ∧ vs ≠ [])
  ∧ concat map.*2 ≡ₚ members.

Lemma btree_push_perm {A} key (v : A) map : concat (btree_push key v map).*2 ≡ₚ v :: concat map.*2.
Proof.
  induction map as [|[k0 vs0] map IH]; cbn; [done |]. destruct (bytes_cmp key k0); cbn.
  - rewrite <- app_assoc. cbn. by rewrite Permutation_middle.
  - done.
  - rewrite IH. by rewrite Permutation_middle.
Qed.

Lemma projects_push members map m :
  projects_ok members map → projects_ok (members ++ [m]) (btree_push (project_of m) m map).
Proof.
  intros (Hs & Hel & Hp). split_and!; [by apply btree_push_sorted | |].
  - intros k vs. rewrite (btree_push_elem _ _ _ _ _ Hs), List.filter_app. cbn.
    unfold in_project at 2. destruct (decide (k = project_of m)) as [->|Hne].
    + rewrite bool_decide_eq_true_2 by done. setoid_rewrite Hel. split.
      * intros [[? _] | [_ [(ws & [-> _] & ->) | [Hno ->]]]]; [done | |].
        -- split; [done | by destruct (List.filter _ _)].
        -- assert (List.filter (in_project (project_of m)) members = []) as ->; [| done].
           destruct (List.filter _ members) as [|x l] eqn:E; [done |]. by destruct (Hno (x :: l)).
      * intros [-> _]. right. split; [done |].
        destruct (List.filter (in_project (project_of m)) members) as [|x l] eqn:E.
        -- right. split; [| done]. intros ws [-> ?]. done.
        -- left. exists (x :: l). done.
    + rewrite bool_decide_eq_false_2 by congruence. rewrite app_nil_r, <- Hel. naive_solver.
  - rewrite btree_push_perm, Hp. by rewrite <- Permutation_cons_append.
Qed.

Lemma collect_projects_ok containers : projects_ok (compose_members containers) (collect_projects containers).
Proof.
  unfold collect_projects, compose_members.
  induction containers as [|c containers IH] using rev_ind.
  - split_and!; [constructor | | done]. intros k vs. split; [by intros ?%not_elem_of_nil | by intros [-> ?]].
  - rewrite foldl_app, omap_app. cbn. destruct (compose_metadata c) as [m|]; cbn.
    + by apply (projects_push _ _ (c, m)).
    + by rewrite app_nil_r.
Qed.

Lemma count_where_le {A} (f : A → bool) l : 0 ≤ count_where f l ≤ len l.
Proof.
  unfold count_where, len. induction l as [|a l IH]; cbn; [lia |]. destruct (f a); cbn; lia.
Qed.

(** Three disjoint conditions hold of at most all elements. *)
Lemma count_where_disjoint {A} (f g h : A → bool) l :
  (∀ a, f a && g a = false ∧ f a && h a = false ∧ g a && h a = false) →
  count_where f l + count_where g l + count_where h l ≤ len l.
Proof.
  intros Hd. unfold count_where, len. induction l as [|a l IH]; cbn; [lia |].
  destruct (Hd a) as (H1 & H2 & H3). destruct (f a), (g a), (h a); cbn in *; try done; lia.
Qed.

Lemma compose_members_ids containers :
  (fun m => cs_id m.1) <$> compose_members containers = cs_id <$> List.filter has_compose containers.
Proof.
  unfold compose_members, has_compose. induction containers as [|c cs IH]; cbn; [done |].
  destruct (compose_metadata c); cbn; by rewrite <- IH.
Qed.

(** What a group shows of its members. *)
Definition group_counts_ok (g : ContainerGroupSummary) : Prop :=
  cgs_total_count g = len (cgs_containers g) ∧ 0 < cgs_total_count g
  ∧ cgs_running_count g + cgs_paused_count g + cgs_restarting_count g + cgs_stopped_count g = cgs_total_count g
  ∧ 0 ≤ cgs_running_count g ∧ 0 ≤ cgs_paused_count g ∧ 0 ≤ cgs_restarting_count g ∧ 0 ≤ cgs_stopped_count g
  ∧ 0 ≤ cgs_unhealthy_count g ≤ cgs_total_count g.

Lemma group_summary_counts endpoint k members : members ≠ [] → group_counts_ok (group_summary endpoint k members).
Proof.
  intros Hne. unfold group_summary. set (ms := sort_by member_cmp members).
  assert (0 < len ms) as Hpos.
  { unfold len, ms. rewrite (sort_by_perm member_cmp). destruct members; [done |]. cbn. lia. }
  unfold group_counts_ok. cbn.
  pose proof (count_where_le (fun m : ContainerSummary * ComposeContainerMetadata => is_unhealthy m.1) ms).
  pose proof (fun s => count_where_le (fun m : ContainerSummary * ComposeContainerMetadata =>
    bool_decide (cs_state m.1 = s)) ms) as Hs.
  assert (∀ m : ContainerSummary * ComposeContainerMetadata,
    let f s := bool_decide (cs_state m.1 = s) in
    f Runtime_Running && f Runtime_Paused = false ∧ f Runtime_Running && f Runtime_Restarting = false
    ∧ f Runtime_Paused && f Runtime_Restarting = false) as Hf by (intros [c m]; cbn; by destruct (cs_state c)).
  pose proof (count_where_disjoint _ _ _ ms Hf) as Hd. cbv beta in Hd.
  split_and!; try done; try apply Hs; try lia; try (unfold len; by rewrite length_map).
Qed.

Definition group_key (g : ContainerGroupSummary) : text * list text := (cgs_project_name g, cgs_containers g).

Lemma group_elem endpoint containers g :
  g ∈ group_compose_containers endpoint containers ↔
  ∃ k, g = group_summary endpoint k (List.filter (in_project k) (compose_members containers))
       ∧ List.filter (in_project k) (compose_members containers) ≠ [].
Proof.
  destruct (collect_projects_ok containers) as (_ & Hel & _). unfold group_compose_containers.
  rewrite list_elem_of_In, in_map_iff. split.
  - intros ([k vs] & <- & Hin%list_elem_of_In). apply Hel in Hin as [-> Hne]. eauto.
  - intros (k & -> & Hne). exists (k, List.filter (in_project k) (compose_members containers)).
    split; [done |]. apply list_elem_of_In, Hel. done.
Qed.

Lemma groups_sorted endpoint containers :
  StronglySorted (fun a b => bytes_cmp (cgs_project_name a) (cgs_project_name b) = Lt)
    (group_compose_containers endpoint containers).
Proof.
  destruct (collect_projects_ok containers) as (Hs & _ & _). unfold group_compose_containers.
  induction Hs as [|[k vs] l Hs IH Hall]; cbn; constructor; [done |].
  apply list.Forall_forall. intros g Hg. rewrite list_elem_of_In, in_map_iff in Hg.
  destruct Hg as ([k1 vs1] & <- & Hin). cbn.
  by apply (proj1 (list.Forall_forall _ _) Hall (k1, vs1)), list_elem_of_In.
Qed.

Lemma groups_ids endpoint containers :
  concat (map cgs_containers (group_compose_containers endpoint containers))
  ≡ₚ cs_id <$> List.filter has_compose containers.
Proof.
  destruct (collect_projects_ok containers) as (_ & _ & Hp). rewrite <- compose_members_ids, <- Hp.
  unfold group_compose_containers. clear Hp. induction (collect_projects containers) as [|[k vs] l IH]; cbn; [done |].
  rewrite fmap_app. apply Permutation_app; [| done]. apply fmap_Permutation. apply sort_by_perm.
Qed.

Lemma filter_perm_members f (l k : list (ContainerSummary * ComposeContainerMetadata)) :
  l ≡ₚ k → List.filter f l ≡ₚ List.filter f k.
Proof.
  induction 1 as [|a l k H IH|a b l|l k m H1 IH1 H2 IH2]; cbn; [done | | | by etrans].
  - destruct (f a); [by constructor | done].
  - destruct (f a), (f b); try done. constructor.
Qed.

Lemma member_cmp_id a b : member_cmp a b = Eq → cs_id a.1 = cs_id b.1.
Proof. unfold member_cmp. rewrite !cmp_then_Eq. intros H. apply bytes_cmp_eq. unfold cmp_by in H. tauto. Qed.

(** The members of a project do not depend on the order of the list. *)
Lemma group_key_perm endpoint k containers containers' :
  containers ≡ₚ containers' → NoDup (cs_id <$> containers) →
  group_key (group_summary endpoint k (List.filter (in_project k) (compose_members containers)))
  = group_key (group_summary endpoint k (List.filter (in_project k) (compose_members containers'))).
Proof.
  intros Hp Hnd. unfold group_key, group_summary. cbn. f_equal. f_equal.
  assert (compose_members containers ≡ₚ compose_members containers') as Hm by (unfold compose_members; by rewrite Hp).
  apply (sort_by_unique _ (fun m => cs_id m.1)); [apply member_cmp_id | | by apply filter_perm_members].
  assert (sublist ((fun m => cs_id m.1) <$> List.filter (in_project k) (compose_members containers))
            (cs_id <$> containers)) as Hsub; [| by eapply sublist_NoDup].
  transitivity ((fun m => cs_id m.1) <$> compose_members containers).
  - apply fmap_sublist. clear. induction (compose_members containers) as [|m l IH]; cbn; [done |].
    destruct (in_project k m); by constructor.
  - rewrite compose_members_ids. apply fmap_sublist. clear.
    induction containers as [|c l IH]; cbn; [done |]. destruct (has_compose c); by constructor.
Qed.

(** C36: Grouping containers into Compose projects: the groups are in strictly
    increasing order of project name; together they list exactly the containers
    with a project label, each once; every group has a member and its counts add up
    without underflow; each group's containers are those of its project in the
    documented order, and, ids being distinct, neither the groups nor their members
    depend on the order in which Docker lists the containers. *)
Theorem compose_grouping_correct endpoint containers :
  let groups := group_compose_containers endpoint containers in
  StronglySorted (fun a b => bytes_cmp (cgs_project_name a) (cgs_project_name b) = Lt) groups
  ∧ concat (map cgs_containers groups) ≡ₚ cs_id <$> List.filter has_compose containers
  ∧ (∀ g, g ∈ groups → group_counts_ok g
       ∧ cgs_containers g = map (fun m => cs_id m.1)
           (sort_by member_cmp (List.filter (in_project (cgs_project_name g)) (compose_members containers))))
  ∧ (∀ containers', containers ≡ₚ containers' → NoDup (cs_id <$> containers) →
       map group_key groups = map group_key (group_compose_containers endpoint containers')).
Proof.
  cbn. split_and!; [apply groups_sorted | apply groups_ids | |].
  - intros g (k & -> & Hne)%group_elem. split; [by apply group_summary_counts | done].
  - intros containers' Hp Hnd.
    assert (∀ cs, StronglySorted (fun a b => bytes_cmp a.1 b.1 = Lt) (map group_key (group_compose_containers endpoint cs)))
      as Hsort.
    { intros cs. pose proof (groups_sorted endpoint cs) as Hs. induction Hs as [|g l Hs IH Hall]; cbn; constructor; [done |].
      apply list.Forall_forall. intros x Hx. rewrite list_elem_of_In, in_map_iff in Hx.
      destruct Hx as (g' & <- & Hg'). by apply (proj1 (list.Forall_forall _ _) Hall g'), list_elem_of_In. }
    assert (∀ cs, NoDup (map group_key (group_compose_containers endpoint cs))) as Hnodup.
    { intros cs. specialize (Hsort cs). induction Hsort as [|x l Hs IH Hall]; constructor; [| done].
      intros Hin. pose proof (proj1 (list.Forall_forall _ _) Hall x Hin) as Hx. cbv beta in Hx. by rewrite (cmp_refl bytes_cmp) in Hx. }
    assert (∀ cs cs' x, cs ≡ₚ cs' → NoDup (cs_id <$> cs) →
      x ∈ map group_key (group_compose_containers endpoint cs) → x ∈ map group_key (group_compose_containers endpoint cs'))
      as Hsub.
    { intros cs cs' x Hcs Hcd. rewrite !list_elem_of_In, !in_map_iff. intros (g & <- & Hg%list_elem_of_In).
      apply group_elem in Hg as (k & -> & Hne). rewrite (group_key_perm endpoint k cs cs' Hcs Hcd). eexists. split; [done |].
      apply list_elem_of_In, group_elem. exists k. split; [done |]. intros He. apply Hne.
      apply Permutation_nil. symmetry. rewrite <- He. apply filter_perm_members. unfold compose_members. by rewrite Hcs. }
    apply (sorting.StronglySorted_unique_strong (fun a b => bytes_cmp a.1 b.1 = Lt)); [| apply Hsort.. |].
    + intros a b _ _ H1 H2. by rewrite (cmp_flip (cmp := bytes_cmp) a.1 b.1), H1 in H2.
    + apply NoDup_Permutation; [apply Hnodup.. |]. intros x. split; [by apply Hsub |].
      apply Hsub; [done | by rewrite <- Hp].
Qed.
End grouping_facts.

(** The order of the list. *)
Definition list_order : HashOrder := {| hash_order := fun A l => l; hash_order_perm := fun A l => reflexivity l |}.

Definition sample_container (name : text) (state : ContainerRuntimeState) (labels : list (text * text)) : ContainerSummary :=
  {| cs_id := bytes "id-" ++ name; cs_short_id := name; cs_name := name; cs_image := bytes "busybox";
     cs_image_id := bytes "image"; cs_state := state; cs_status := runtime_as_str state; cs_created_at := 1;
     cs_ports := []; cs_labels := list_to_map labels |}.

Lemma grouping_example :
  let project name service := [(COMPOSE_PROJECT_LABEL, bytes name); (COMPOSE_SERVICE_LABEL, bytes service)] in
  map group_key (@group_compose_containers list_order (bytes "endpoint")
    [sample_container (bytes "z") Runtime_Exited (project "zeta" "z");
     sample_container (bytes "n") Runtime_Running [];
     sample_container (bytes "b") Runtime_Exited (project "alpha" "b");
     sample_container (bytes "a") Runtime_Running (project "alpha" "A")])
  = [(bytes "alpha", [bytes "id-a"; bytes "id-b"]); (bytes "zeta", [bytes "id-z"])].
Proof. vm_compute. reflexivity. Qed.
