(* ===== verification/CreateContainer.v ===== *)
(** Requests to create a container and their validation
    (crates/tuxstack-domain/src/container.rs, from [ContainerPortProtocol] on).

    The loops of [validate] insert into a set and return at the first fault; each
    is a recursive function that threads the set.  The theorem relates the
    validation to a declarative description of a valid request. *)

From S2P Require Import Prelude Path Numbers Text Domain.

Local Open Scope Z_scope.

Inductive ContainerPortProtocol : Type := Tcp | Udp | Sctp.
Definition protocol_as_str (self : ContainerPortProtocol) : text :=
  match self with Tcp => bytes "tcp" | Udp => bytes "udp" | Sctp => bytes "sctp" end.

Record CreateContainerPort := {
  ccp_container_port : Z;
  ccp_protocol : ContainerPortProtocol;
  ccp_host_ip : option text;
  ccp_host_port : option Z;
}.

Inductive CreateContainerMount : Type :=
  | Mount_Volume (source destination : text) (read_only : bool)
  | Mount_Bind (source destination : text) (read_only : bool) (propagation : option text)
  | Mount_Tmpfs (destination : text) (size_bytes : option Z) (mode : option Z).

Definition mount_destination (self : CreateContainerMount) : text :=
  match self with
  | Mount_Volume _ destination _ | Mount_Bind _ destination _ _ | Mount_Tmpfs destination _ _ => destination
  end.

Record CreateEnvironmentVariable := { cev_key : text; cev_value : text }.

Record CreateContainerNetwork := {
  ccn_name : text;
  ccn_aliases : list text;
  ccn_ipv4_address : option text;
  ccn_ipv6_address : option text;
}.

Inductive ContainerRestartPolicyName : Type := Restart_No | Restart_Always | Restart_UnlessStopped | Restart_OnFailure.
#[export] Instance ContainerRestartPolicyName_eq_dec : EqDecision ContainerRestartPolicyName.
Proof. solve_decision. Defined.
Definition restart_as_docker (self : ContainerRestartPolicyName) : text :=
  match self with
  | Restart_No => bytes "no"
  | Restart_Always => bytes "always"
  | Restart_UnlessStopped => bytes "unless-stopped"
  | Restart_OnFailure => bytes "on-failure"
  end.
Record ContainerRestartPolicy := { crp_name : ContainerRestartPolicyName; crp_maximum_retry_count : option Z }.
Definition ContainerRestartPolicy_default : ContainerRestartPolicy :=
  {| crp_name := Restart_No; crp_maximum_retry_count := None |}.

Record CreateContainerResources := {
  res_cpu_cores_millis : option Z;
  res_memory_bytes : option Z;
  res_pids_limit : option Z;
}.

Record CreateContainerRequest := {
  req_name : option text;
  req_image : text;
  req_platform : option text;
  req_hostname : option text;
  req_domain_name : option text;
  req_entrypoint : list text;
  req_command : list text;
  req_working_directory : option text;
  req_user : option text;
  req_tty : bool;
  req_open_stdin : bool;
  req_ports : list CreateContainerPort;
  req_mounts : list CreateContainerMount;
  req_environment : list CreateEnvironmentVariable;
  req_networks : list CreateContainerNetwork;
  req_resources : CreateContainerResources;
  req_restart_policy : ContainerRestartPolicy;
  req_labels : Labels;
  req_read_only_rootfs : bool;
  req_privileged : bool;
  req_auto_remove : bool;
  req_create_and_start : bool;
}.

Inductive CreateContainerValidationError : Type :=
  | MissingImage
  | InvalidName (name : text)
  | InvalidContainerPort
  | InvalidHostPort
  | InvalidHostIp
  | DuplicatePortBinding
  | InvalidMountDestination (destination : text)
  | DuplicateMountDestination (destination : text)
  | InvalidMountSource
  | InvalidTmpfsSize
  | InvalidTmpfsMode
  | InvalidWorkingDirectory
  | InvalidTextValue
  | InvalidOrDuplicateEnvironmentKey (key : text)
  | InvalidOrDuplicateNetwork (name : text)
  | InvalidCpuLimit
  | InvalidMemoryLimit
  | InvalidPidsLimit
  | InvalidRestartPolicy.

Abbreviation cres := (result CreateContainerValidationError).

(** [deserialize_unique_labels]: the entries in order, a repeated key refused. *)
Fixpoint deserialize_unique_labels (labels : Labels) (entries : list (text * text)) : result text Labels :=
  match entries with
  | [] => Ok labels
  | (key, value) :: entries =>
      if bool_decide (is_Some (labels !! key)) then Err (bytes "duplicate container label key: " ++ key)
      else deserialize_unique_labels (<[key := value]> labels) entries
  end.

Definition has_nul (s : text) : bool := contains "000"%byte s.

Definition valid_component (c : text) : bool :=
  negb (is_empty c) && negb (bool_decide (c = bytes ".")) && negb (bool_decide (c = bytes "..")).

Definition valid_container_path (path : text) : bool :=
  if bool_decide (path = bytes "/") then true
  else
    starts_with path (bytes "/") && negb (has_nul path)
    && forallb valid_component (drop 1 (split_on "/"%byte path)).

(** The characters accepted are ASCII, so bytes are enough. *)
Definition valid_container_name (name : text) : bool :=
  match name with
  | c :: rest =>
      is_ascii_alphanumeric c
      && forallb (fun c => is_ascii_alphanumeric c || bool_decide (c = "_"%byte)
                           || bool_decide (c = "."%byte) || bool_decide (c = "-"%byte)) rest
  | [] => false
  end.

(** [opt.is_some_and(f)] *)
Definition is_some_and {A} (f : A → bool) (o : option A) : bool := match o with Some a => f a | None => false end.
Definition is_none {A} (o : option A) : bool := match o with None => true | Some _ => false end.

(** The keys of the sets the loops fill. *)
Abbreviation binding := (option IpAddr * Z * text)%type.

Fixpoint validate_ports (bindings : gset binding) (ports : list CreateContainerPort) : cres () :=
  match ports with
  | [] => Ok tt
  | port :: ports =>
      if ccp_container_port port =? 0 then Err InvalidContainerPort
      else if is_some_and (fun address => is_none (parse_ip address)) (ccp_host_ip port) then Err InvalidHostIp
      else if bool_decide (ccp_host_port port = Some 0) then Err InvalidHostPort
      else
        match ccp_host_port port with
        | None => validate_ports bindings ports
        | Some host_port =>
            ip ← match ccp_host_ip port with
                 | None => Ok None
                 | Some address => match parse_ip address with Some ip => Ok (Some ip) | None => Err InvalidHostIp end
                 end;
            let key := (ip, host_port, protocol_as_str (ccp_protocol port)) in
            if bool_decide (key ∈ bindings) then Err DuplicatePortBinding
            else validate_ports ({[key]} ∪ bindings) ports
        end
  end.

(** The [match mount { … }] of the loop. *)
Definition validate_mount (mount : CreateContainerMount) : cres () :=
  match mount with
  | Mount_Volume source _ _ => guard_err (is_empty (trim source)) InvalidMountSource
  | Mount_Bind source _ _ _ => guard_err (negb (valid_container_path source)) InvalidMountSource
  | Mount_Tmpfs _ size_bytes mode =>
      if bool_decide (size_bytes = Some 0) then Err InvalidTmpfsSize
      else guard_err (is_some_and (fun mode => mode >? 4095) mode) InvalidTmpfsMode
  end.

Fixpoint validate_mounts (destinations : gset text) (mounts : list CreateContainerMount) : cres () :=
  match mounts with
  | [] => Ok tt
  | mount :: mounts =>
      let destination := mount_destination mount in
      if negb (valid_container_path destination) then Err (InvalidMountDestination destination)
      else
        _ ← validate_mount mount;
        if bool_decide (destination ∈ destinations) then Err (DuplicateMountDestination destination)
        else validate_mounts ({[destination]} ∪ destinations) mounts
  end.

Fixpoint validate_environment (env_keys : gset text) (environment : list CreateEnvironmentVariable) : cres () :=
  match environment with
  | [] => Ok tt
  | variable :: environment =>
      let key := cev_key variable in
      if is_empty key || contains "="%byte key || has_nul key || has_nul (cev_value variable)
         || bool_decide (key ∈ env_keys)
      then Err (InvalidOrDuplicateEnvironmentKey key)
      else validate_environment ({[key]} ∪ env_keys) environment
  end.

(** [aliases.iter().any(…)] with its own set. *)
Fixpoint bad_aliases (seen : gset text) (aliases : list text) : bool :=
  match aliases with
  | [] => false
  | alias :: aliases =>
      is_empty (trim alias) || has_nul alias || bool_decide (alias ∈ seen)
      || bad_aliases ({[alias]} ∪ seen) aliases
  end.

Fixpoint validate_networks (seen : gset text) (networks : list CreateContainerNetwork) : cres () :=
  match networks with
  | [] => Ok tt
  | network :: networks =>
      let name := ccn_name network in
      if is_empty (trim name) || has_nul name || bad_aliases ∅ (ccn_aliases network)
         || is_some_and (fun address => is_none (parse_ipv4 address)) (ccn_ipv4_address network)
         || is_some_and (fun address => is_none (parse_ipv6 address)) (ccn_ipv6_address network)
         || bool_decide (name ∈ seen)
      then Err (InvalidOrDuplicateNetwork name)
      else validate_networks ({[name]} ∪ seen) networks
  end.

Definition bad_label (entry : text * text) : bool :=
  is_empty (trim entry.1) || has_nul entry.1 || has_nul entry.2.

Definition validate (self : CreateContainerRequest) : cres () :=
  _ ← guard_err (is_empty (trim (req_image self))) MissingImage;
  _ ← match req_name self with
      | Some name => guard_err (negb (valid_container_name name)) (InvalidName name)
      | None => Ok tt
      end;
  _ ← validate_ports ∅ (req_ports self);
  _ ← guard_err (is_some_and (fun path => negb (valid_container_path path)) (req_working_directory self))
        InvalidWorkingDirectory;
  _ ← validate_mounts ∅ (req_mounts self);
  _ ← validate_environment ∅ (req_environment self);
  _ ← validate_networks ∅ (req_networks self);
  let resources := req_resources self in
  _ ← guard_err (bool_decide (res_cpu_cores_millis resources = Some 0)) InvalidCpuLimit;
  _ ← guard_err (bool_decide (res_memory_bytes resources = Some 0)) InvalidMemoryLimit;
  _ ← guard_err (is_some_and (fun limit => limit <=? 0) (res_pids_limit resources)) InvalidPidsLimit;
  let policy := req_restart_policy self in
  _ ← guard_err
        ((negb (bool_decide (crp_name policy = Restart_OnFailure)) && negb (is_none (crp_maximum_retry_count policy)))
         || (req_auto_remove self && negb (bool_decide (crp_name policy = Restart_No))))
        InvalidRestartPolicy;
  _ ← guard_err
        (existsb bad_label (map_to_list (req_labels self))
         || existsb has_nul (req_command self ++ req_entrypoint self))
        InvalidTextValue;
  Ok tt.

(** ** What a valid request is *)

(** An absolute path without empty, dot or dot-dot components. *)
Definition absolute_path (p : text) : Prop :=
  p = bytes "/" ∨ ∃ cs, cs ≠ [] ∧ p = concat ((fun c => "/"%byte :: c) <$> cs)
    ∧ Forall (fun c => c ≠ [] ∧ c ≠ bytes "." ∧ c ≠ bytes ".." ∧ "/"%byte ∉ c ∧ "000"%byte ∉ c) cs.

Definition blank (s : text) : Prop := trim s = [].
Definition if_some {A} (P : A → Prop) (o : option A) : Prop := match o with Some a => P a | None => True end.

Definition port_binding (port : CreateContainerPort) : option binding :=
  (fun host_port => (ccp_host_ip port ≫= parse_ip, host_port, protocol_as_str (ccp_protocol port))) <$> ccp_host_port port.

Definition port_ok (port : CreateContainerPort) : Prop :=
  ccp_container_port port ≠ 0 ∧ ccp_host_port port ≠ Some 0
  ∧ if_some (fun address => is_Some (parse_ip address)) (ccp_host_ip port).

Definition mount_ok (mount : CreateContainerMount) : Prop :=
  absolute_path (mount_destination mount)
  ∧ match mount with
    | Mount_Volume source _ _ => ¬ blank source
    | Mount_Bind source _ _ _ => absolute_path source
    | Mount_Tmpfs _ size mode => size ≠ Some 0 ∧ if_some (fun m => m ≤ 4095) mode
    end.

Definition variable_ok (v : CreateEnvironmentVariable) : Prop :=
  cev_key v ≠ [] ∧ "="%byte ∉ cev_key v ∧ "000"%byte ∉ cev_key v ∧ "000"%byte ∉ cev_value v.

Definition network_ok (n : CreateContainerNetwork) : Prop :=
  ¬ blank (ccn_name n) ∧ "000"%byte ∉ ccn_name n
  ∧ Forall (fun a => ¬ blank a ∧ "000"%byte ∉ a) (ccn_aliases n) ∧ NoDup (ccn_aliases n)
  ∧ if_some (fun a => is_Some (parse_ipv4 a)) (ccn_ipv4_address n)
  ∧ if_some (fun a => is_Some (parse_ipv6 a)) (ccn_ipv6_address n).

Record request_valid (r : CreateContainerRequest) : Prop := {
  rv_image : ¬ blank (req_image r);
  rv_name : if_some (fun n => valid_container_name n = true) (req_name r);
  rv_ports : Forall port_ok (req_ports r);
  rv_bindings : NoDup (omap port_binding (req_ports r));
  rv_working_directory : if_some absolute_path (req_working_directory r);
  rv_mounts : Forall mount_ok (req_mounts r);
  rv_destinations : NoDup (mount_destination <$> req_mounts r);
  rv_environment : Forall variable_ok (req_environment r);
  rv_keys : NoDup (cev_key <$> req_environment r);
  rv_networks : Forall network_ok (req_networks r);
  rv_network_names : NoDup (ccn_name <$> req_networks r);
  rv_cpu : res_cpu_cores_millis (req_resources r) ≠ Some 0;
  rv_memory : res_memory_bytes (req_resources r) ≠ Some 0;
  rv_pids : if_some (fun limit => 0 < limit) (res_pids_limit (req_resources r));
  rv_retries : is_Some (crp_maximum_retry_count (req_restart_policy r)) →
               crp_name (req_restart_policy r) = Restart_OnFailure;
  rv_auto_remove : req_auto_remove r = true → crp_name (req_restart_policy r) = Restart_No;
  rv_labels : map_Forall (fun k v => ¬ blank k ∧ "000"%byte ∉ k ∧ "000"%byte ∉ v) (req_labels r);
  rv_text : Forall (fun s => "000"%byte ∉ s) (req_command r ++ req_entrypoint r);
}.

(** ** The checks decide their conditions *)
Lemma has_nul_false s : has_nul s = false ↔ "000"%byte ∉ s.
Proof. unfold has_nul, contains. apply bool_decide_eq_false. Qed.

Lemma is_some_and_false {A} (f : A → bool) P o :
  (∀ a, f a = false ↔ P a) → is_some_and f o = false ↔ if_some P o.
Proof. intros H. destruct o; cbn; [apply H | done]. Qed.

Lemma is_none_false {A} (o : option A) : is_none o = false ↔ is_Some o.
Proof. destruct o; cbn; split; intros H; try done; by destruct H. Qed.

Lemma join_slash cs : cs ≠ [] → concat ((fun c => "/"%byte :: c) <$> cs) = "/"%byte :: join_with "/"%byte cs.
Proof.
  induction cs as [|c cs IH]; intros H; [done |]. destruct cs as [|d cs]; [by cbn; rewrite app_nil_r |].
  specialize (IH ltac:(done)). cbn in IH |- *. by rewrite IH.
Qed.

Lemma elem_of_join sep b ps : b ≠ sep → b ∈ join_with sep ps ↔ ∃ p, p ∈ ps ∧ b ∈ p.
Proof.
  intros Hne. induction ps as [|p ps IH]; cbn.
  - split; [by intros ?%not_elem_of_nil | by intros (p & ?%not_elem_of_nil & _)].
  - destruct ps as [|q ps]; [set_solver |]. rewrite elem_of_app, elem_of_cons, IH. set_solver.
Qed.

Lemma valid_component_spec c : valid_component c = true ↔ c ≠ [] ∧ c ≠ bytes "." ∧ c ≠ bytes "..".
Proof.
  unfold valid_component. rewrite !andb_true_iff, !negb_true_iff, is_empty_false, !bool_decide_eq_false. tauto.
Qed.

Lemma split_slash p r : p = "/"%byte :: r → drop 1 (split_on "/"%byte p) = split_on "/"%byte r.
Proof. intros ->. cbn. done. Qed.

Lemma valid_container_path_spec p : valid_container_path p = true ↔ absolute_path p.
Proof.
  unfold valid_container_path, absolute_path. case_bool_decide as Hroot; [tauto |].
  rewrite !andb_true_iff, negb_true_iff, has_nul_false, starts_with_spec, forallb_forall. split.
  - intros [[[r ->] Hnul] Hcs]. right. exists (split_on "/"%byte r). change (bytes "/" ++ r) with ("/"%byte :: r) in *.
    rewrite (split_slash _ r eq_refl) in Hcs. pose proof (split_on_ne "/"%byte r) as Hne.
    split_and!; [done | by rewrite join_slash, join_split |].
    apply list.Forall_forall. intros c Hc. pose proof (proj1 (list.Forall_forall _ _) (split_on_pieces "/"%byte r) c Hc).
    apply list_elem_of_In in Hc as Hin. apply Hcs, valid_component_spec in Hin as (? & ? & ?). split_and!; try done.
    intros Hn. apply Hnul. right. rewrite <- (join_split "/"%byte r). apply elem_of_join; [done |].
    eauto.
  - intros [? | (cs & Hne & -> & Hcs)]; [done |]. rewrite join_slash in * by done.
    rewrite list.Forall_forall in Hcs. split_and!.
    + by exists (join_with "/"%byte cs).
    + intros [? | Hn]%elem_of_cons; [done |]. apply elem_of_join in Hn as (c & Hc & Hn); [| done].
      by destruct (Hcs c Hc) as (_ & _ & _ & _ & ?).
    + rewrite (split_slash _ (join_with "/"%byte cs) eq_refl), split_join; [| done |].
      * intros c Hc%list_elem_of_In. apply valid_component_spec. destruct (Hcs c Hc) as (?&?&?&?&?). done.
      * apply list.Forall_forall. intros c Hc. by apply (Hcs c Hc).
Qed.

Lemma validate_ports_spec seen ports :
  validate_ports seen ports = Ok tt ↔
  Forall port_ok ports ∧ NoDup (omap port_binding ports) ∧ ∀ b, b ∈ omap port_binding ports → b ∉ seen.
Proof.
  revert seen. induction ports as [|port ports IH]; intros seen; cbn [validate_ports].
  { cbn. split; [| done]. intros _. split_and!; [constructor | constructor | by intros b ?%not_elem_of_nil]. }
  rewrite Forall_cons_iff. unfold port_ok at 1.
  destruct (Z.eqb_spec (ccp_container_port port) 0) as [->|Hcp]; [naive_solver |].
  assert (is_some_and (fun a => is_none (parse_ip a)) (ccp_host_ip port) = false
          ↔ if_some (fun a => is_Some (parse_ip a)) (ccp_host_ip port)) as Hip
    by (apply is_some_and_false; intros; apply is_none_false).
  destruct (is_some_and _ _); [naive_solver |]. destruct Hip as [Hip _]. specialize (Hip eq_refl).
  case_bool_decide as Hz; [naive_solver |].
  assert (omap port_binding (port :: ports)
          = match ccp_host_port port with
            | Some hp => (ccp_host_ip port ≫= parse_ip, hp, protocol_as_str (ccp_protocol port)) :: omap port_binding ports
            | None => omap port_binding ports
            end) as -> by (cbn; unfold port_binding at 1; by destruct (ccp_host_port port)).
  destruct (ccp_host_port port) as [hp|]; [| rewrite IH; tauto].
  assert ((match ccp_host_ip port with
           | None => Ok None
           | Some address => match parse_ip address with Some ip => Ok (Some ip) | None => Err InvalidHostIp end
           end : cres _) = Ok (ccp_host_ip port ≫= parse_ip)) as ->.
  { destruct (ccp_host_ip port) as [a|]; cbn in *; [| done]. by destruct Hip as [ip ->]. }
  cbn [mbind result_bind]. set (key := (_, hp, _)). rewrite list.NoDup_cons. setoid_rewrite elem_of_cons.
  case_bool_decide as Hk.
  - split; [done |]. intros (_ & _ & H). destruct (H key); [by left | done].
  - rewrite IH. split.
    + intros (H1 & H2 & H3). split_and!; try done.
      * intros Hin. apply (H3 key Hin). set_solver.
      * intros b [->|Hb]; [done |]. specialize (H3 b Hb). set_solver.
    + intros ([_ H1] & [H2 H3] & H4). split_and!; try done. intros b Hb.
      rewrite elem_of_union, elem_of_singleton. intros [->|Hs]; [done |]. apply (H4 b); [by right | done].
Qed.

Lemma validate_mount_spec mount :
  absolute_path (mount_destination mount) → validate_mount mount = Ok tt ↔ mount_ok mount.
Proof.
  intros Hd. unfold mount_ok, blank. destruct mount as [source d ro|source d ro pr|d size mode]; cbn.
  - rewrite guard_err_Ok, is_empty_false. naive_solver.
  - rewrite guard_err_Ok, negb_false_iff, valid_container_path_spec. naive_solver.
  - case_bool_decide as Hs; [naive_solver |]. rewrite guard_err_Ok.
    rewrite (is_some_and_false _ (fun m => m ≤ 4095)); [naive_solver |]. intros a.
    destruct (Z.gtb_spec a 4095); split; intros; try done; lia.
Qed.

(** A loop that refuses a repeated key. *)
Lemma seen_step {K} `{Countable K} (seen : gset K) k ks :
  (k ∉ ks ∧ NoDup ks) ∧ (∀ x, x ∈ k :: ks → x ∉ seen) ↔ k ∉ seen ∧ NoDup ks ∧ ∀ x, x ∈ ks → x ∉ {[k]} ∪ seen.
Proof. setoid_rewrite elem_of_cons. set_solver. Qed.

Lemma validate_mounts_spec seen mounts :
  validate_mounts seen mounts = Ok tt ↔
  Forall mount_ok mounts ∧ NoDup (mount_destination <$> mounts)
  ∧ ∀ d, d ∈ mount_destination <$> mounts → d ∉ seen.
Proof.
  revert seen. induction mounts as [|mount mounts IH]; intros seen; cbn [validate_mounts].
  { split; [| done]. intros _. split_and!; [constructor | constructor | by intros b ?%not_elem_of_nil]. }
  rewrite Forall_cons_iff, fmap_cons, list.NoDup_cons.
  destruct (valid_container_path (mount_destination mount)) eqn:Hd; cbn [negb].
  2: { split; [done |]. intros ([[Hp _] _] & _). apply valid_container_path_spec in Hp. congruence. }
  apply valid_container_path_spec in Hd. pose proof (validate_mount_spec mount Hd) as Hm.
  destruct (validate_mount mount) as [[]|e|m] eqn:Ev; cbn [mbind result_bind];
    [| by split; [done |]; intros ([Hok _] & _); apply Hm in Hok..].
  pose proof (seen_step seen (mount_destination mount) (mount_destination <$> mounts)) as Hstep.
  case_bool_decide as Hin; [| rewrite IH; tauto].
  split; [done |]. intros (_ & H1 & H2). destruct Hstep as [Hs _]. by destruct (Hs (conj H1 H2)).
Qed.

Lemma validate_environment_spec seen environment :
  validate_environment seen environment = Ok tt ↔
  Forall variable_ok environment ∧ NoDup (cev_key <$> environment)
  ∧ ∀ k, k ∈ cev_key <$> environment → k ∉ seen.
Proof.
  revert seen. induction environment as [|v environment IH]; intros seen; cbn [validate_environment].
  { split; [| done]. intros _. split_and!; [constructor | constructor | by intros b ?%not_elem_of_nil]. }
  rewrite Forall_cons_iff, fmap_cons, list.NoDup_cons. unfold variable_ok at 1.
  pose proof (seen_step seen (cev_key v) (cev_key <$> environment)) as Hstep.
  destruct (_ || _) eqn:E.
  - split; [done |]. intros ([(H1 & H2 & H3 & H4) _] & H5 & H6). exfalso.
    destruct Hstep as [Hs _]. destruct (Hs (conj H5 H6)) as (H7 & _).
    rewrite !orb_true_iff in E. destruct E as [[[[E|E]|E]|E]|E].
    + by apply is_empty_true in E.
    + unfold contains in E. by apply bool_decide_eq_true in E.
    + apply has_nul_false in H3. congruence.
    + apply has_nul_false in H4. congruence.
    + by apply bool_decide_eq_true in E.
  - rewrite !orb_false_iff, is_empty_false, !has_nul_false in E. unfold contains in E.
    rewrite !bool_decide_eq_false in E. rewrite IH. tauto.
Qed.

Lemma bad_aliases_spec seen aliases :
  bad_aliases seen aliases = false ↔
  Forall (fun a => ¬ blank a ∧ "000"%byte ∉ a) aliases ∧ NoDup aliases ∧ ∀ a, a ∈ aliases → a ∉ seen.
Proof.
  revert seen. induction aliases as [|a aliases IH]; intros seen; cbn.
  { split; [| done]. intros _. split_and!; [constructor | constructor | by intros b ?%not_elem_of_nil]. }
  rewrite Forall_cons_iff, list.NoDup_cons, !orb_false_iff, is_empty_false, has_nul_false, bool_decide_eq_false, IH.
  pose proof (seen_step seen a aliases). unfold blank. tauto.
Qed.

Lemma validate_networks_spec seen networks :
  validate_networks seen networks = Ok tt ↔
  Forall network_ok networks ∧ NoDup (ccn_name <$> networks) ∧ ∀ n, n ∈ ccn_name <$> networks → n ∉ seen.
Proof.
  revert seen. induction networks as [|n networks IH]; intros seen; cbn [validate_networks].
  { split; [| done]. intros _. split_and!; [constructor | constructor | by intros b ?%not_elem_of_nil]. }
  rewrite Forall_cons_iff, fmap_cons, list.NoDup_cons.
  pose proof (seen_step seen (ccn_name n) (ccn_name <$> networks)) as Hstep.
  assert (is_empty (trim (ccn_name n)) || has_nul (ccn_name n) || bad_aliases ∅ (ccn_aliases n)
     || is_some_and (fun address => is_none (parse_ipv4 address)) (ccn_ipv4_address n)
     || is_some_and (fun address => is_none (parse_ipv6 address)) (ccn_ipv6_address n)
     || bool_decide (ccn_name n ∈ seen) = false ↔ network_ok n ∧ ccn_name n ∉ seen) as Hiff.
  { rewrite !orb_false_iff, is_empty_false, has_nul_false, bool_decide_eq_false, bad_aliases_spec.
    rewrite (is_some_and_false _ (fun a => is_Some (parse_ipv4 a))) by (intros; apply is_none_false).
    rewrite (is_some_and_false _ (fun a => is_Some (parse_ipv6 a))) by (intros; apply is_none_false).
    unfold network_ok, blank. set_solver. }
  destruct (_ || bool_decide _).
  - split; [done |]. intros ([Hn _] & H1 & H2). destruct Hstep as [Hs _].
    destruct (Hs (conj H1 H2)) as (H3 & _). destruct Hiff as [_ Hiff]. by discriminate Hiff.
  - destruct Hiff as [Hiff _]. destruct (Hiff eq_refl) as [Hn Hs]. rewrite IH. tauto.
Qed.

Lemma existsb_false {A} (f : A → bool) (l : list A) : existsb f l = false ↔ ∀ a, a ∈ l → f a = false.
Proof.
  induction l as [|b l IH]; cbn.
  - split; [by intros _ a ?%not_elem_of_nil | done].
  - rewrite orb_false_iff, IH. setoid_rewrite elem_of_cons. naive_solver.
Qed.

Lemma labels_ok labels :
  existsb bad_label (map_to_list labels) = false
  ↔ map_Forall (fun k v => ¬ blank k ∧ "000"%byte ∉ k ∧ "000"%byte ∉ v) labels.
Proof.
  rewrite existsb_false. unfold map_Forall, bad_label, blank. split.
  - intros H k v Hkv. specialize (H (k, v)). rewrite elem_of_map_to_list in H. specialize (H Hkv). cbn in H.
    rewrite !orb_false_iff, is_empty_false, !has_nul_false in H. tauto.
  - intros H [k v] Hkv%elem_of_map_to_list. cbn. rewrite !orb_false_iff, is_empty_false, !has_nul_false.
    destruct (H k v Hkv) as (?&?&?). done.
Qed.

Lemma text_ok l : existsb has_nul l = false ↔ Forall (fun s => "000"%byte ∉ s) l.
Proof. rewrite existsb_false, list.Forall_forall. by setoid_rewrite has_nul_false. Qed.

Lemma bind_unit_Ok {E B} (m : result E ()) (f : () → result E B) b :
  m ≫= f = Ok b ↔ m = Ok tt ∧ f tt = Ok b.
Proof. rewrite bind_Ok. split; [intros ([] & ? & ?); done | eauto]. Qed.

(** C35: Validation of a request to create a container accepts exactly the valid
    requests: an image, a well-formed name, ports with parseable addresses and no two
    on the same host binding, absolute paths without dot components, mounts with
    distinct destinations, distinct environment keys without separators or NUL,
    distinct networks with distinct aliases and parseable addresses, positive limits,
    a consistent restart policy and text without NUL. *)
Theorem validate_accepts_exactly_valid r : validate r = Ok tt ↔ request_valid r.
Proof.
  unfold validate. rewrite !bind_unit_Ok, !guard_err_Ok.
  rewrite is_empty_false, validate_ports_spec, validate_mounts_spec, validate_environment_spec, validate_networks_spec.
  rewrite (is_some_and_false _ absolute_path)
    by (intros; rewrite negb_false_iff; apply valid_container_path_spec).
  rewrite !bool_decide_eq_false.
  rewrite (is_some_and_false _ (fun limit => 0 < limit)) by (intros; rewrite Z.leb_gt; done).
  rewrite !orb_false_iff, !andb_false_iff, !negb_false_iff, !bool_decide_eq_true, labels_ok, text_ok.
  assert ((match req_name r with
           | Some name => guard_err (negb (valid_container_name name)) (InvalidName name)
           | None => Ok tt
           end : cres ()) = Ok tt ↔ if_some (fun n => valid_container_name n = true) (req_name r)) as ->.
  { destruct (req_name r); cbn; [by rewrite guard_err_Ok, negb_false_iff | done]. }
  set (retries := crp_maximum_retry_count (req_restart_policy r)).
  assert (is_none retries = true ↔ ¬ is_Some retries) as Hnone
    by (destruct retries; cbn; split; [done | by intros [] | by intros _ [] | done]).
  split.
  - intros (H1 & H2 & (H3 & H4 & _) & H5 & (H6 & H7 & _) & (H8 & H9 & _) & (H10 & H11 & _) & H12 & H13 & H14
            & [H15 H16] & [H17 H18] & _).
    split; try done.
    + intros Hs. destruct H15 as [|Hno%Hnone]; done.
    + intros Ha. destruct H16 as [H16|]; [congruence | done].
  - intros [H1 H2 H3 H4 H5 H6 H7 H8 H9 H10 H11 H12 H13 H14 H15 H16 H17 H18].
    split_and!; try assumption; try exact I; try (intros ? ? ?%elem_of_empty; done); try (intros; apply not_elem_of_empty); try reflexivity.
    + destruct retries eqn:E; [left; apply H15; fold retries; rewrite E; eauto | by right].
    + destruct (req_auto_remove r); [right; by apply H16 | by left].
Qed.

(** Deserialising labels refuses a repeated key and otherwise keeps every entry. *)
Lemma deserialize_unique_labels_spec labels entries :
  (∀ k, k ∈ entries.*1 → labels !! k = None) →
  is_ok (deserialize_unique_labels labels entries) = true ↔ NoDup entries.*1.
Proof.
  revert labels. induction entries as [|[k v] entries IH]; intros labels Hfresh; cbn; [split; [constructor | done] |].
  rewrite list.NoDup_cons. rewrite bool_decide_eq_false_2.
  2: { rewrite Hfresh by left. by intros []. }
  destruct (decide (k ∈ entries.*1)) as [Hk|Hk].
  - split; [| tauto]. intros Hok. exfalso. clear IH Hfresh.
    assert (is_Some (<[k := v]> labels !! k)) as Hs by (rewrite lookup_insert_eq; eauto). revert Hok Hs.
    generalize (<[k := v]> labels) as m. induction entries as [|[k1 v1] entries IH]; intros m; cbn in *.
    + by apply not_elem_of_nil in Hk.
    + case_bool_decide as Hb; [done |]. apply elem_of_cons in Hk as [->|Hk]; [done |].
      intros Hok Hs. eapply (IH Hk); [exact Hok |]. destruct (decide (k1 = k)) as [->|Hne]; [done |].
      by rewrite lookup_insert_ne.
  - rewrite IH; [tauto |]. intros k' Hk'. rewrite lookup_insert_ne by (intros ->; done). apply Hfresh. by right.
Qed.

Definition minimal_request (image : text) : CreateContainerRequest :=
  {| req_name := None; req_image := image; req_platform := None; req_hostname := None; req_domain_name := None;
     req_entrypoint := []; req_command := []; req_working_directory := None; req_user := None;
     req_tty := false; req_open_stdin := false; req_ports := []; req_mounts := []; req_environment := [];
     req_networks := [];
     req_resources := {| res_cpu_cores_millis := None; res_memory_bytes := None; res_pids_limit := None |};
     req_restart_policy := ContainerRestartPolicy_default; req_labels := ∅; req_read_only_rootfs := false;
     req_privileged := false; req_auto_remove := false; req_create_and_start := false |}.

Lemma validate_examples :
  validate (minimal_request (bytes "busybox")) = Ok tt
  ∧ validate (minimal_request (bytes "  ")) = Err MissingImage
  ∧ validate_ports ∅
      [{| ccp_container_port := 80; ccp_protocol := Tcp; ccp_host_ip := Some (bytes "::1"); ccp_host_port := Some 8080 |};
       {| ccp_container_port := 81; ccp_protocol := Tcp; ccp_host_ip := Some (bytes "0:0:0:0:0:0:0:1"); ccp_host_port := Some 8080 |}]
    = Err DuplicatePortBinding
  ∧ valid_container_path (bytes "/var/../etc") = false ∧ valid_container_path (bytes "/var/lib") = true.
Proof. vm_compute. done. Qed.
