(* ===== verification/Protocol.v ===== *)
(** The messages of the local IPC protocol
    (crates/tuxstack-protocol/src/lib.rs): feature bitmaps, the envelope with
    its body, requests, responses, subscriptions and events.  A [PathBuf] is
    its bytes. *)

From S2P Require Import Prelude Path Numbers Text Domain Compose CreateContainer.

Local Open Scope Z_scope.

Definition PROTOCOL_VERSION : Z := 1.
Definition MAX_FRAME_SIZE : Z := 32 * 1024 * 1024.
Definition FRAME_HEADER_SIZE : Z := 4.

Abbreviation RequestId := Z (only parsing).
Abbreviation SubscriptionId := Z (only parsing).
Abbreviation PathBuf := (list byte) (only parsing).

(** ** Bitmaps *)
Record FeatureFlags := mkFeatureFlags { ff_bits : Z }.
Definition ff_NONE : FeatureFlags := mkFeatureFlags 0.
Definition ff_SUBSCRIPTIONS : FeatureFlags := mkFeatureFlags (Z.shiftl 1 0).
Definition ff_REQUEST_CANCELLATION : FeatureFlags := mkFeatureFlags (Z.shiftl 1 1).
Definition ff_RESOURCE_DESCRIPTORS : FeatureFlags := mkFeatureFlags (Z.shiftl 1 2).
Definition ff_contains (self other : FeatureFlags) : bool := Z.land (ff_bits self) (ff_bits other) =? ff_bits other.
Definition ff_union (self other : FeatureFlags) : FeatureFlags := mkFeatureFlags (Z.lor (ff_bits self) (ff_bits other)).

Record ProviderCapabilities := mkProviderCapabilities { pc_bits : Z }.
Definition pc_NONE : ProviderCapabilities := mkProviderCapabilities 0.
Definition pc_LOOKUP : ProviderCapabilities := mkProviderCapabilities (Z.shiftl 1 0).
Definition pc_READDIR : ProviderCapabilities := mkProviderCapabilities (Z.shiftl 1 1).
Definition pc_GETATTR : ProviderCapabilities := mkProviderCapabilities (Z.shiftl 1 2).
Definition pc_READLINK : ProviderCapabilities := mkProviderCapabilities (Z.shiftl 1 3).
Definition pc_OPEN : ProviderCapabilities := mkProviderCapabilities (Z.shiftl 1 4).
Definition pc_READ : ProviderCapabilities := mkProviderCapabilities (Z.shiftl 1 5).
Definition pc_DOWNLOAD : ProviderCapabilities := mkProviderCapabilities (Z.shiftl 1 6).
Definition pc_REFRESH : ProviderCapabilities := mkProviderCapabilities (Z.shiftl 1 7).
Definition pc_contains (self other : ProviderCapabilities) : bool := Z.land (pc_bits self) (pc_bits other) =? pc_bits other.
Definition pc_union (self other : ProviderCapabilities) : ProviderCapabilities :=
  mkProviderCapabilities (Z.lor (pc_bits self) (pc_bits other)).

(** ** Handshake *)
Record ClientHello := {
  ch_client_version : text;
  ch_supported_protocol_versions : list Z;
  ch_feature_flags : FeatureFlags;
  ch_max_frame_size : Z;
}.
Definition ClientHello_current (client_version : text) : ClientHello :=
  {| ch_client_version := client_version;
     ch_supported_protocol_versions := [PROTOCOL_VERSION];
     ch_feature_flags := ff_union (ff_union ff_SUBSCRIPTIONS ff_REQUEST_CANCELLATION) ff_RESOURCE_DESCRIPTORS;
     ch_max_frame_size := MAX_FRAME_SIZE |}.
Record ServerHello := {
  sh_daemon_version : text;
  sh_negotiated_protocol_version : Z;
  sh_feature_flags : FeatureFlags;
  sh_max_frame_size : Z;
}.
Inductive HandshakeRejectionCode : Type :=
  | UnsupportedProtocol | InvalidMaximumFrameSize | MissingRequiredFeature | Unauthorized | ServerUnavailable.
Record HandshakeRejection := {
  hr_code : HandshakeRejectionCode;
  hr_message : text;
  hr_daemon_version : text;
  hr_supported_protocol_versions : list Z;
}.

(** ** Resources, providers and status *)
Inductive MountAction : Type := Mount | Unmount | Remount.
Inductive DockerResourceRef : Type :=
  | Ref_Container (container_id : text)
  | Ref_Image (image_id : text)
  | Ref_Volume (volume_name : text).
#[export] Instance DockerResourceRef_eq_dec : EqDecision DockerResourceRef.
Proof. solve_decision. Defined.
Record ResourcePath := { rp_resource : DockerResourceRef; rp_components : list text }.
Definition ResourcePath_root (resource : DockerResourceRef) : ResourcePath :=
  {| rp_resource := resource; rp_components := [] |}.
#[export] Instance ResourcePath_eq_dec : EqDecision ResourcePath.
Proof. solve_decision. Defined.
Inductive ProviderKind : Type :=
  | ContainerRootfsSnapshot | ContainerArchiveLive | NamedVolumeLive | LocalBindLive | HelperBindLive | TmpfsLive
  | RuntimeMount | ImageRootfsImmutable.
Inductive ConsistencyMode : Type :=
  | Consistency_Immutable
  | Consistency_Live
  | Consistency_Snapshot (captured_at_unix_ms generation : Z)
  | Consistency_OperationTimeRead
  | Consistency_Unavailable.
Inductive ProviderStatus : Type :=
  | Provider_Ready
  | Provider_IndexBuilding (progress_percent : option Z)
  | Provider_SnapshotBuilding (progress_percent : option Z)
  | Provider_Unavailable (reason : text)
  | Provider_PermissionDenied (reason : text).
Record ProviderDescriptor := {
  pd_kind : ProviderKind;
  pd_consistency : ConsistencyMode;
  pd_source : option text;
  pd_capabilities : ProviderCapabilities;
  pd_status : ProviderStatus;
}.
Record ResourceFusePath := {
  rfp_resource : DockerResourceRef;
  rfp_path : PathBuf;
  rfp_descriptor : ProviderDescriptor;
}.
Inductive DaemonLifecycle : Type :=
  | Daemon_Starting | Daemon_Ready | Daemon_Stopping | Daemon_Degraded (reason : text).
Inductive DockerConnectionStatus : Type :=
  | Docker_Connected (daemon_id : option text) | Docker_Reconnecting | Docker_Unavailable (reason : text).
Inductive MountState : Type :=
  | Mount_Unmounted | Mount_Mounting | Mount_Mounted | Mount_Unmounting | Mount_Failed (reason : text).
Record MountStatus := { ms_state : MountState; ms_mount_point : option PathBuf; ms_read_only : bool }.
#[export] Instance MountState_eq_dec : EqDecision MountState.
Proof. solve_decision. Defined.
#[export] Instance MountStatus_eq_dec : EqDecision MountStatus.
Proof. solve_decision. Defined.
Record DaemonStatus := {
  ds_daemon_version : text;
  ds_lifecycle : DaemonLifecycle;
  ds_docker : DockerConnectionStatus;
  ds_mount : MountStatus;
  ds_uptime_seconds : Z;
}.
Inductive ResourceOperation : Type :=
  | Refresh (path : ResourcePath)
  | RebuildIndex (resource : DockerResourceRef)
  | InvalidateCache (resource : DockerResourceRef)
  | OpenResource (resource : DockerResourceRef).
Inductive ResourceOperationResult : Type :=
  | Operation_Completed | Operation_Accepted (operation_id : Z) | Operation_AlreadyCurrent.
Inductive ProtocolErrorCode : Type :=
  | Code_InvalidRequest | Code_NotFound | Code_Conflict | Code_PermissionDenied | Code_DaemonUnavailable
  | Code_DockerUnavailable | Code_FuseUnavailable | Code_ProviderUnavailable | Code_OperationTimedOut
  | Code_Cancelled | Code_ResourceBusy | Code_Internal.
#[export] Instance ProtocolErrorCode_eq_dec : EqDecision ProtocolErrorCode.
Proof. solve_decision. Defined.
Record ProtocolError := { pe_code : ProtocolErrorCode; pe_message : text; pe_retryable : bool }.

(** ** Docker requests and responses *)
Inductive ComposeAction : Type :=
  | Compose_Start
  | Compose_Stop (options : StopContainerOptions)
  | Compose_Restart (options : RestartContainerOptions)
  | Compose_Kill (options : KillContainerOptions)
  | Compose_Pause
  | Compose_Unpause
  | Compose_Remove (options : RemoveContainerOptions).
Record RegistryAuthRequest := {
  rar_username : option text;
  rar_password : option text;
  rar_server_address : option text;
  rar_identity_token : option text;
  rar_registry_token : option text;
}.
Record PullImageRequest := {
  pir_reference : text;
  pir_platform : option text;
  pir_registry_auth : option RegistryAuthRequest;
}.
Record VolumeEnrichment := {
  ve_references : list (text * list VolumeContainerReference);
  ve_usage : list (text * VolumeUsage);
}.
Inductive DockerRequest : Type :=
  | Req_SystemInfo
  | Req_Overview
  | Req_ListContainers (all : bool) (limit : option Z) (search : option text) (state : option ContainerRuntimeState)
  | Req_InspectContainer (id : text)
  | Req_StartContainer (id : text)
  | Req_StopContainer (id : text) (options : StopContainerOptions)
  | Req_RestartContainer (id : text) (options : RestartContainerOptions)
  | Req_PauseContainer (id : text)
  | Req_UnpauseContainer (id : text)
  | Req_KillContainer (id : text) (options : KillContainerOptions)
  | Req_RemoveContainer (id : text) (options : RemoveContainerOptions)
  | Req_RenameContainer (id new_name : text)
  | Req_CreateContainer (request : CreateContainerRequest)
  | Req_ContainerStats (id : text)
  | Req_ContainerLogs (id : text) (options : ContainerLogsOptions)
  | Req_ListComposeProjects
  | Req_ExecuteComposeTargets (group_id : ContainerGroupId) (target_ids : list text) (action : ComposeAction)
  | Req_ListImages (search : option text)
  | Req_InspectImage (id : text)
  | Req_RemoveImage (id : text) (options : RemoveImageOptions)
  | Req_PullImage (options : PullImageOptions)
  | Req_PullImageAuthenticated (request : PullImageRequest)
  | Req_ListNetworks (search : option text)
  | Req_InspectNetwork (id : text)
  | Req_CreateNetwork (options : CreateNetworkOptions)
  | Req_RemoveNetwork (id : text)
  | Req_ListVolumes (search : option text)
  | Req_InspectVolume (name : text)
  | Req_CreateVolume (request : CreateVolumeRequest)
  | Req_RemoveVolume (name : text) (options : RemoveVolumeOptions)
  | Req_PruneVolumes (filters : PruneVolumeFilters)
  | Req_CloneVolume (request : CloneVolumeRequest)
  | Req_EnrichVolumes (names : list text)
  | Req_ExportImage (id : text) (destination : PathBuf)
  | Req_ExportVolume (request : ExportVolumeRequest).
Inductive DockerResponse : Type :=
  | Resp_SystemInfo (info : DockerSystemInfo)
  | Resp_Overview (data : OverviewData)
  | Resp_Containers (containers : list ContainerSummary)
  | Resp_ContainerDetail (detail : ContainerDetail)
  | Resp_ContainerCreated (result : CreateContainerResult)
  | Resp_ContainerStats (stats : ContainerStats)
  | Resp_ContainerLogs (lines : list LogLine)
  | Resp_ComposeProjects (groups : list ContainerGroupSummary)
  | Resp_ComposeOperation (result : ContainerGroupOperationResult)
  | Resp_Images (images : list ImageSummary)
  | Resp_ImageDetail (detail : ImageDetail)
  | Resp_ImagesRemoved (results : list ImageDeleteResult)
  | Resp_ImagePullAccepted (subscription_id : SubscriptionId)
  | Resp_Networks (networks : list NetworkSummary)
  | Resp_NetworkDetail (detail : NetworkDetail)
  | Resp_NetworkCreated (result : CreateNetworkResult)
  | Resp_Volumes (volumes : list VolumeSummary)
  | Resp_VolumeDetail (detail : VolumeDetail)
  | Resp_VolumesPruned (result : VolumePruneResult)
  | Resp_VolumesEnriched (enrichment : VolumeEnrichment)
  | Resp_ExportCompleted (destination : PathBuf) (bytes_written : option Z)
  | Resp_Acknowledged.

Inductive Request : Type :=
  | GetDaemonStatus
  | GetMountStatus
  | SetMountState (action : MountAction)
  | GetResourceFusePath (resource : DockerResourceRef)
  | GetProviderDescriptor (path : ResourcePath)
  | PerformResourceOperation (operation : ResourceOperation)
  | Request_Docker (request : DockerRequest)
  | ContainerTerminalInput (subscription_id : SubscriptionId) (input : list byte)
  | ContainerTerminalResize (subscription_id : SubscriptionId) (rows cols : Z)
  | ContainerTerminalClose (subscription_id : SubscriptionId).
Inductive Response : Type :=
  | Response_DaemonStatus (status : DaemonStatus)
  | Response_MountStatus (status : MountStatus)
  | Response_ResourceFusePath (path : ResourceFusePath)
  | Response_ProviderDescriptor (descriptor : ProviderDescriptor)
  | Response_ResourceOperation (result : ResourceOperationResult)
  | Response_Docker (response : DockerResponse)
  | Response_Acknowledged
  | Response_Error (error : ProtocolError).

(** ** Subscriptions and events *)
Inductive ResourceKind : Type := Kind_Container | Kind_Image | Kind_Network | Kind_Volume.
#[export] Instance ResourceKind_eq_dec : EqDecision ResourceKind.
Proof. solve_decision. Defined.
Inductive ShellSelection : Type := Shell_Auto | Shell_ExactPath (path : text).
Inductive SubscriptionRequest : Type :=
  | Sub_DaemonStatus
  | Sub_MountStatus
  | Sub_ResourceChanges (kinds : list ResourceKind)
  | Sub_ProviderStatus (resource : DockerResourceRef)
  | Sub_ContainerStats (container_ids : list text)
  | Sub_ContainerLogs (container_ids : list text) (options : ContainerLogsOptions)
  | Sub_ImagePull (options : PullImageOptions)
  | Sub_ImagePullAuthenticated (request : PullImageRequest)
  | Sub_ContainerTerminal (container_id : text) (rows cols : Z) (shell : ShellSelection)
      (user workdir : option text).
Record SubscriptionAccepted := { sa_subscription_id : SubscriptionId }.
Inductive TerminalState : Type :=
  | Terminal_Connecting
  | Terminal_Running (shell : text)
  | Terminal_Exited (exit_code : option Z)
  | Terminal_Failed (reason : text).
Inductive ResourceChange : Type :=
  | Change_Created | Change_Updated | Change_Removed | Change_Renamed | Change_Invalidated.
Inductive SubscriptionEndReason : Type :=
  | End_Completed | End_Unsubscribed | End_ServerShutdown | End_ResourceRemoved | End_Error (error : ProtocolError).
Inductive ServerEvent : Type :=
  | Event_DaemonStatus (subscription_id : SubscriptionId) (status : DaemonStatus)
  | Event_MountStatus (subscription_id : SubscriptionId) (status : MountStatus)
  | Event_ResourceChanged (subscription_id : SubscriptionId) (kind : ResourceKind)
      (resource : option DockerResourceRef) (change : ResourceChange)
  | Event_ProviderStatus (subscription_id : SubscriptionId) (path : ResourcePath) (descriptor : ProviderDescriptor)
  | Event_ContainerStats (subscription_id : SubscriptionId) (container_id : text) (stats : ContainerStats)
  | Event_ContainerLog (subscription_id : SubscriptionId) (container_id : text) (line : LogLine)
  | Event_ImagePullProgress (subscription_id : SubscriptionId) (progress : ImagePullProgress)
  | Event_TerminalOutput (subscription_id : SubscriptionId) (output : list byte)
  | Event_TerminalState (subscription_id : SubscriptionId) (state : TerminalState)
  | Event_SubscriptionEnded (subscription_id : SubscriptionId) (reason : SubscriptionEndReason).
Definition event_subscription_id (self : ServerEvent) : SubscriptionId :=
  match self with
  | Event_DaemonStatus subscription_id _
  | Event_MountStatus subscription_id _
  | Event_ResourceChanged subscription_id _ _ _
  | Event_ProviderStatus subscription_id _ _
  | Event_ContainerStats subscription_id _ _
  | Event_ContainerLog subscription_id _ _
  | Event_ImagePullProgress subscription_id _
  | Event_TerminalOutput subscription_id _
  | Event_TerminalState subscription_id _
  | Event_SubscriptionEnded subscription_id _ => subscription_id
  end.

(** ** The envelope *)
Inductive ProtocolBody : Type :=
  | Body_Hello (hello : ClientHello)
  | Body_Accepted (hello : ServerHello)
  | Body_Rejected (rejection : HandshakeRejection)
  | Body_Request (request : Request)
  | Body_Response (response : Response)
  | Body_Subscribe (request : SubscriptionRequest)
  | Body_Subscribed (accepted : SubscriptionAccepted)
  | Body_Unsubscribe (subscription_id : SubscriptionId)
  | Body_Event (event : ServerEvent)
  | Body_CancelRequest (request_id : RequestId)
  | Body_Ping
  | Body_Pong.
Record ProtocolEnvelope := { protocol_version : Z; request_id : RequestId; body : ProtocolBody }.
Definition ProtocolEnvelope_new (request_id : RequestId) (body : ProtocolBody) : ProtocolEnvelope :=
  {| protocol_version := PROTOCOL_VERSION; request_id := request_id; body := body |}.

(** ** What the wire carries

    The secret fields of the domain's [RegistryAuth] are skipped by its
    serialisation and read back as [None]; every other field is carried. *)
Definition wire_auth (a : RegistryAuth) : RegistryAuth :=
  {| ra_username := ra_username a; ra_password := None; ra_server_address := ra_server_address a;
     ra_identity_token := None; ra_registry_token := None |}.
Definition wire_pull (o : PullImageOptions) : PullImageOptions :=
  {| pio_reference := pio_reference o; pio_platform := pio_platform o;
     pio_registry_auth := wire_auth <$> pio_registry_auth o |}.
Definition wire_body (b : ProtocolBody) : ProtocolBody :=
  match b with
  | Body_Request (Request_Docker (Req_PullImage options)) => Body_Request (Request_Docker (Req_PullImage (wire_pull options)))
  | Body_Subscribe (Sub_ImagePull options) => Body_Subscribe (Sub_ImagePull (wire_pull options))
  | _ => b
  end.
Definition wire_envelope (e : ProtocolEnvelope) : ProtocolEnvelope :=
  {| protocol_version := protocol_version e; request_id := request_id e; body := wire_body (body e) |}.

(** ** Laws *)
Lemma flags_contains_spec a b :
  Z.land a b = b ↔ ∀ i, 0 ≤ i → Z.testbit b i = true → Z.testbit a i = true.
Proof.
  split.
  - intros H i Hi Hb. rewrite <- H, Z.land_spec in Hb. by apply andb_true_iff in Hb as [? _].
  - intros H. apply Z.bits_inj'. intros i Hi. rewrite Z.land_spec. specialize (H i Hi).
    destruct (Z.testbit a i), (Z.testbit b i); cbn; try done. by discriminate H.
Qed.

(** The bitmaps behave as sets: containment is inclusion of bits, union is the least upper bound. *)
Lemma feature_flags_lattice a b c :
  (ff_contains a b = true ↔ ∀ i, 0 ≤ i → Z.testbit (ff_bits b) i = true → Z.testbit (ff_bits a) i = true)
  ∧ ff_contains (ff_union a b) a = true ∧ ff_contains (ff_union a b) b = true
  ∧ (ff_contains c a = true → ff_contains c b = true → ff_contains c (ff_union a b) = true).
Proof.
  unfold ff_contains. rewrite !Z.eqb_eq, !flags_contains_spec. cbn. split_and!; try tauto.
  - intros i _ H. by rewrite Z.lor_spec, H.
  - intros i _ H. by rewrite Z.lor_spec, H, orb_true_r.
  - intros Ha Hb i Hi. rewrite Z.lor_spec, orb_true_iff. intros [?|?]; auto.
Qed.

Lemma wire_envelope_idem e : wire_envelope (wire_envelope e) = wire_envelope e.
Proof.
  destruct e as [v i b]. unfold wire_envelope. cbn. f_equal.
  destruct b as [| | |r| |s| | | | | |]; try reflexivity.
  - destruct r as [| | | | | |d| | |]; try reflexivity. destruct d as [| | | | | | | | | | | | | | | | | | | |o| | | | | | | | | | | | | | ]; try reflexivity.
    cbn. destruct o as [? ? [[]|]]; reflexivity.
  - destruct s as [| | | | | |o| |]; try reflexivity. cbn. destruct o as [? ? [[]|]]; reflexivity.
Qed.
