(* ===== verification/Frame.v ===== *)
(** Framing (crates/tuxstack-protocol/src/lib.rs): an envelope travels as a
    four-byte big-endian length and its CBOR form.  The CBOR library is a
    parameter with its laws; a synchronous reader is the list of answers its
    [read] calls will get. *)

From S2P Require Import Prelude Path Numbers Text Domain Protocol.

Local Open Scope Z_scope.

Inductive FrameError : Type :=
  | ZeroLength
  | Oversized (length maximum : Z)
  | TruncatedHeader (actual : Z)
  | TruncatedBody (expected actual : Z)
  | UnknownProtocol (actual expected : Z)
  | TrailingBytes (count : Z)
  | Frame_Encode (message : text)
  | Frame_Decode (message : text).
Abbreviation fres := (result FrameError).

(** ** The CBOR library

    [into_writer] renders an envelope or fails; [from_reader] reads one value
    from the front of its input and tells the position it stopped at. *)
Class Cbor := {
  into_writer : ProtocolEnvelope → text + list byte;
  from_reader : list byte → text + ProtocolEnvelope * nat;
}.

(** What the code relies on: a rendered value is read back as what the wire
    carries of it, whatever follows; nothing is read from no bytes; a read
    stays within its input. *)
Class CborLaws `{!Cbor} : Prop := {
  from_into e payload rest :
    into_writer e = inr payload → from_reader (payload ++ rest) = inr (wire_envelope e, length payload);
  from_reader_empty : ∃ message, from_reader [] = inl message;
  from_reader_position input e n : from_reader input = inr (e, n) → (n ≤ length input)%nat;
}.

Definition validate_frame_length (length maximum : Z) : fres () :=
  if length =? 0 then Err ZeroLength
  else
    let maximum := Z.min maximum MAX_FRAME_SIZE in
    if length >? maximum then Err (Oversized length maximum) else Ok tt.

Section framing.
  Context {cbor : Cbor}.

Definition encode_frame_with_limit (envelope : ProtocolEnvelope) (maximum : Z) : fres (list byte) :=
  let maximum := Z.min maximum MAX_FRAME_SIZE in
  match into_writer envelope with
  | inl error => Err (Frame_Encode error)
  | inr payload =>
      if len payload >? u32_max then Err (Oversized u32_max maximum)
      else
        _ ← validate_frame_length (len payload) maximum;
        Ok (be_bytes 4 (len payload) ++ payload)
  end.
Definition encode_frame (envelope : ProtocolEnvelope) : fres (list byte) :=
  encode_frame_with_limit envelope MAX_FRAME_SIZE.

Definition decode_payload (payload : list byte) (declared_length : Z) : fres ProtocolEnvelope :=
  _ ← validate_frame_length declared_length MAX_FRAME_SIZE;
  if negb (len payload =? declared_length) then Err (TruncatedBody declared_length (len payload))
  else
    match from_reader payload with
    | inl error => Err (Frame_Decode error)
    | inr (envelope, consumed) =>
        if negb (Z.of_nat consumed =? len payload) then Err (TrailingBytes (len payload - Z.of_nat consumed))
        else if negb (protocol_version envelope =? PROTOCOL_VERSION)
        then Err (UnknownProtocol (protocol_version envelope) PROTOCOL_VERSION)
        else Ok envelope
    end.

Definition decode_frame_with_limit (frame : list byte) (maximum : Z) : fres ProtocolEnvelope :=
  if len frame <? FRAME_HEADER_SIZE then Err (TruncatedHeader (len frame))
  else
    let length := from_be_bytes (take 4 frame) in
    let maximum := Z.min maximum MAX_FRAME_SIZE in
    _ ← validate_frame_length length maximum;
    let expected := FRAME_HEADER_SIZE + length in
    if len frame <? expected then Err (TruncatedBody length (len frame - FRAME_HEADER_SIZE))
    else if len frame >? expected then Err (TrailingBytes (len frame - expected))
    else decode_payload (drop 4 frame) length.
Definition decode_frame (frame : list byte) : fres ProtocolEnvelope := decode_frame_with_limit frame MAX_FRAME_SIZE.

(** ** Readers

    The answers of successive [read] calls: bytes (as many as fit the buffer,
    the rest stays for the next call), an interruption, or another error.  No
    answer left, or no bytes in an answer, is the end of the input. *)
Inductive ReadAnswer : Type :=
  | Chunk (data : list byte)
  | Interrupted
  | Failed (error : text).
Inductive ReadFrameError : Type :=
  | ReadFrame_Frame (error : FrameError)
  | ReadFrame_Io (error : text).

(** [read_exact_counted]: the buffer has [wanted] bytes, [done_] of them are filled. *)
Fixpoint read_exact_counted (header : bool) (wanted : nat) (done_ : list byte) (reader : list ReadAnswer)
  : result ReadFrameError (list byte) * list ReadAnswer :=
  if (wanted <=? length done_)%nat then (Ok done_, reader)
  else
    let eof :=
      Err (ReadFrame_Frame (if header then TruncatedHeader (len done_)
                            else TruncatedBody (Z.of_nat wanted mod 2 ^ 32) (len done_))) in
    match reader with
    | [] => (eof, [])
    | Chunk [] :: reader => (eof, reader)
    | Chunk data :: reader =>
        let missing := (wanted - length done_)%nat in
        if (missing <? length data)%nat then (Ok (done_ ++ take missing data), Chunk (drop missing data) :: reader)
        else read_exact_counted header wanted (done_ ++ data) reader
    | Interrupted :: reader => read_exact_counted header wanted done_ reader
    | Failed error :: reader => (Err (ReadFrame_Io error), reader)
    end.

Definition lift_frame {A} (m : fres A) : result ReadFrameError A :=
  match m with Ok a => Ok a | Err e => Err (ReadFrame_Frame e) | Panic site => Panic site end.

Definition read_frame (reader : list ReadAnswer) : result ReadFrameError ProtocolEnvelope * list ReadAnswer :=
  let '(header, reader) := read_exact_counted true 4 [] reader in
  match header with
  | Err e => (Err e, reader)
  | Panic site => (Panic site, reader)
  | Ok header =>
      let length := from_be_bytes header in
      match validate_frame_length length MAX_FRAME_SIZE with
      | Err e => (Err (ReadFrame_Frame e), reader)
      | Panic site => (Panic site, reader)
      | Ok _ =>
          let '(payload, reader) := read_exact_counted false (Z.to_nat length) [] reader in
          match payload with
          | Err e => (Err e, reader)
          | Panic site => (Panic site, reader)
          | Ok payload => (lift_frame (decode_payload payload length), reader)
          end
      end
  end.
End framing.

(** ** Encoding and decoding *)
Definition frame_of (payload : list byte) : list byte := be_bytes 4 (len payload) ++ payload.

Lemma validate_frame_length_Ok length maximum u :
  0 ≤ length → validate_frame_length length maximum = Ok u ↔ 0 < length ≤ Z.min maximum MAX_FRAME_SIZE.
Proof.
  intros H0. unfold validate_frame_length. destruct u.
  destruct (Z.eqb_spec length 0); [split; [done | lia] |]. cbv zeta.
  rewrite Z.gtb_ltb. destruct (Z.ltb_spec (Z.min maximum MAX_FRAME_SIZE) length); split; try done; lia.
Qed.

Lemma from_be_be4 n : 0 ≤ n ≤ u32_max → from_be_bytes (be_bytes 4 n) = n.
Proof. intros H. rewrite from_be_be. apply Z.mod_small. unfold u32_max in H. lia. Qed.

Lemma from_be_bytes_range bs : 0 ≤ from_be_bytes bs < 256 ^ len bs.
Proof.
  induction bs as [|b bs IH] using rev_ind; [done |]. rewrite from_be_bytes_snoc, len_app.
  unfold len at 2. cbn [length]. rewrite Z.pow_add_r by (try lia; apply len_nonneg). pose proof (u8_range b). nia.
Qed.

Lemma frame_of_split payload :
  take 4 (frame_of payload) = be_bytes 4 (len payload) ∧ drop 4 (frame_of payload) = payload
  ∧ len (frame_of payload) = 4 + len payload.
Proof.
  unfold frame_of. split_and!.
  - rewrite take_app_length'; [done | by rewrite be_bytes_length].
  - rewrite drop_app_length'; [done | by rewrite be_bytes_length].
  - rewrite len_app. unfold len at 1. by rewrite be_bytes_length.
Qed.

Section laws.
  Context {cbor : Cbor}.

Lemma encode_frame_spec e m frame :
  encode_frame_with_limit e m = Ok frame
  ↔ ∃ payload, into_writer e = inr payload ∧ 0 < len payload ≤ Z.min m MAX_FRAME_SIZE ∧ frame = frame_of payload.
Proof.
  unfold encode_frame_with_limit. cbv zeta. destruct (into_writer e) as [msg|payload].
  { split; [done | by intros (? & ? & _)]. }
  rewrite Z.gtb_ltb. destruct (Z.ltb_spec u32_max (len payload)) as [Hbig|Hsmall].
  - split; [done |]. intros (p & [= <-] & [_ Hle] & _). exfalso. unfold u32_max, MAX_FRAME_SIZE in *. lia.
  - rewrite bind_Ok. split.
    + intros (u & Hv & [= <-]). apply validate_frame_length_Ok in Hv; [| apply len_nonneg].
      exists payload. split_and!; try done; lia.
    + intros (p & [= <-] & Hle & ->). exists tt. split; [| done].
      apply validate_frame_length_Ok; [apply len_nonneg | lia].
Qed.

(** A frame that fits the limit is decoded by its payload alone. *)
Lemma decode_frame_of payload m :
  0 < len payload ≤ Z.min m MAX_FRAME_SIZE →
  decode_frame_with_limit (frame_of payload) m = decode_payload payload (len payload).
Proof.
  intros Hlen. unfold decode_frame_with_limit. destruct (frame_of_split payload) as (Ht & Hd & Hl).
  rewrite Ht, Hd, Hl, from_be_be4 by (unfold u32_max, MAX_FRAME_SIZE in *; lia). cbv zeta. unfold FRAME_HEADER_SIZE.
  rewrite (proj2 (Z.ltb_ge _ _)) by lia.
  rewrite (proj2 (validate_frame_length_Ok (len payload) _ tt (len_nonneg _))) by lia. cbn -[Z.add].
  by rewrite Z.gtb_ltb, Z.ltb_irrefl.
Qed.

Lemma decode_payload_encoded `{!CborLaws} e payload :
  into_writer e = inr payload → 0 < len payload ≤ MAX_FRAME_SIZE →
  decode_payload payload (len payload)
  = if protocol_version e =? PROTOCOL_VERSION then Ok (wire_envelope e)
    else Err (UnknownProtocol (protocol_version e) PROTOCOL_VERSION).
Proof.
  intros He Hlen. unfold decode_payload.
  rewrite (proj2 (validate_frame_length_Ok (len payload) _ tt (len_nonneg _))) by lia. cbn -[Z.eqb].
  rewrite Z.eqb_refl. cbn -[Z.eqb]. pose proof (from_into e payload [] He) as Hf. rewrite app_nil_r in Hf. rewrite Hf.
  unfold len. rewrite Z.eqb_refl. cbn -[Z.eqb]. by destruct (protocol_version e =? PROTOCOL_VERSION).
Qed.

(** C37: an envelope that encodes within a limit produces a frame of at most
    that many bytes after its header, and decoding the frame under the same
    limit gives back the envelope as the wire carries it (only the skipped
    registry secrets are lost); an envelope of another protocol version is
    refused as such. *)
Theorem frame_roundtrip `{!CborLaws} e m frame :
  encode_frame_with_limit e m = Ok frame →
  FRAME_HEADER_SIZE < len frame ≤ FRAME_HEADER_SIZE + Z.min m MAX_FRAME_SIZE
  ∧ decode_frame_with_limit frame m
    = if protocol_version e =? PROTOCOL_VERSION then Ok (wire_envelope e)
      else Err (UnknownProtocol (protocol_version e) PROTOCOL_VERSION).
Proof.
  intros (payload & He & Hlen & ->)%encode_frame_spec. split.
  - destruct (frame_of_split payload) as (_ & _ & ->). unfold FRAME_HEADER_SIZE. lia.
  - rewrite decode_frame_of by done. apply decode_payload_encoded; [done | lia].
Qed.

(** ** Reading *)

(** The bytes a reader will deliver, and readers that end only after them. *)
Definition answer_data (a : ReadAnswer) : list byte := match a with Chunk data => data | _ => [] end.
Definition reader_data (reader : list ReadAnswer) : list byte := concat (map answer_data reader).
Definition answer_clean (a : ReadAnswer) : bool :=
  match a with Chunk data => negb (is_empty data) | Interrupted => true | Failed _ => false end.
Definition reader_clean (reader : list ReadAnswer) : bool := forallb answer_clean reader.

Definition eof_error (header : bool) (wanted : nat) (got : list byte) : ReadFrameError :=
  ReadFrame_Frame (if header then TruncatedHeader (len got) else TruncatedBody (Z.of_nat wanted mod 2 ^ 32) (len got)).

(** On a clean reader the split into chunks does not matter. *)
Lemma read_exact_clean header wanted done_ reader :
  reader_clean reader = true → (length done_ ≤ wanted)%nat →
  ∃ reader', reader_clean reader' = true ∧
    let all := done_ ++ reader_data reader in
    if (wanted <=? length all)%nat
    then read_exact_counted header wanted done_ reader = (Ok (take wanted all), reader')
         ∧ reader_data reader' = drop wanted all
    else read_exact_counted header wanted done_ reader = (Err (eof_error header wanted all), reader')
         ∧ reader_data reader' = [].
Proof.
  revert done_. induction reader as [|a reader IH]; intros done_ Hclean Hle; cbn zeta.
  - exists []. split; [done |]. unfold reader_data at 1 2 3 4. cbn. rewrite app_nil_r.
    destruct (Nat.leb_spec wanted (length done_)).
    + assert (wanted = length done_) as -> by lia. by rewrite firstn_all, drop_all.
    + done.
  - cbn [reader_clean forallb] in Hclean. apply andb_true_iff in Hclean as [Ha Hclean]. cbn [read_exact_counted].
    destruct (Nat.leb_spec wanted (length done_)) as [Hw|Hw].
    { exists (a :: reader). split; [cbn; by rewrite Ha |].
      assert (wanted = length done_) as -> by lia. rewrite length_app.
      destruct (Nat.leb_spec (length done_) (length done_ + length (reader_data (a :: reader)))); [| lia].
      by rewrite take_app_length, drop_app_length. }
    destruct a as [data| |]; [| by apply IH | done].
    destruct data as [|b data]; [done |]. cbn [answer_clean] in Ha. set (d := b :: data) in *.
    assert (reader_data (Chunk d :: reader) = d ++ reader_data reader) as Hdata by done. rewrite Hdata.
    destruct (Nat.ltb_spec (wanted - length done_) (length d)) as [Hbig|Hsmall].
    + exists (Chunk (drop (wanted - length done_) d) :: reader).
      pose proof (length_drop d (wanted - length done_)) as Hd.
      split.
      { cbn [reader_clean forallb answer_clean]. apply andb_true_iff. split; [| done].
        destruct (drop _ d); [change (length (@nil byte)) with 0%nat in Hd; lia | done]. }
      rewrite !length_app. destruct (Nat.leb_spec wanted (length done_ + (length d + length (reader_data reader)))); [| lia].
      rewrite take_app_ge, drop_app_ge by lia. rewrite take_app_le, drop_app_le by lia. done.
    + specialize (IH (done_ ++ d) Hclean) as (reader' & Hc' & HH); [rewrite length_app; lia |].
      exists reader'. split; [done |]. cbn zeta in HH. rewrite <- (assoc_L (++)) in HH. exact HH.
Qed.

(** Decoding the first frame of some bytes, as a reader meets its parts. *)
Lemma decode_frame_prefix data :
  let n := from_be_bytes (take 4 data) in
  decode_frame (take (4 + Z.to_nat n) data) =
    if (length data <? 4)%nat then Err (TruncatedHeader (len data))
    else _ ← validate_frame_length n MAX_FRAME_SIZE;
         if (length data <? 4 + Z.to_nat n)%nat then Err (TruncatedBody n (len data - 4))
         else decode_payload (take (Z.to_nat n) (drop 4 data)) n.
Proof.
  cbn zeta. set (n := from_be_bytes (take 4 data)).
  assert (0 ≤ n) as Hn by apply from_be_bytes_range.
  unfold decode_frame, decode_frame_with_limit, FRAME_HEADER_SIZE. unfold len at 1. rewrite length_take.
    destruct (Nat.ltb_spec (length data) 4) as [Hs|Hs].
    - rewrite (proj2 (Z.ltb_lt _ _)) by lia. rewrite take_ge by lia. done.
    - rewrite (proj2 (Z.ltb_ge _ _)) by lia. rewrite take_take. replace (4 `min` (4 + Z.to_nat n))%nat with 4%nat by lia.
      fold n. cbv zeta. rewrite Z.min_id. destruct (validate_frame_length n MAX_FRAME_SIZE); cbn [mbind result_bind]; try done.
      unfold len. rewrite length_take. destruct (Nat.ltb_spec (length data) (4 + Z.to_nat n)) as [Hb|Hb].
      + destruct (Z.ltb_spec (Z.of_nat ((4 + Z.to_nat n) `min` length data)) (4 + n)); [| lia]. do 2 f_equal. lia.
      + destruct (Z.ltb_spec (Z.of_nat ((4 + Z.to_nat n) `min` length data)) (4 + n)); [lia |].
        rewrite Z.gtb_ltb. destruct (Z.ltb_spec (4 + n) (Z.of_nat ((4 + Z.to_nat n) `min` length data))); [lia |].
        f_equal. rewrite skipn_firstn_comm. f_equal. lia.
Qed.

(** Reading one frame from a reader depends only on the bytes it delivers,
    not on how they are chopped up or interrupted: the answer is the one
    decoding gives for the first [4 + length] bytes (all of them when there
    are fewer), and when an envelope is returned exactly those bytes have been
    consumed. *)
Theorem read_frame_chunking reader :
  reader_clean reader = true →
  let data := reader_data reader in
  let size := (4 + Z.to_nat (from_be_bytes (take 4 data)))%nat in
  ∃ reader', read_frame reader = (lift_frame (decode_frame (take size data)), reader')
    ∧ reader_clean reader' = true
    ∧ (∀ e, decode_frame (take size data) = Ok e → reader_data reader' = drop size data).
Proof.
  intros Hclean. cbn zeta. set (data := reader_data reader). set (n := from_be_bytes (take 4 data)).
  destruct (read_exact_clean true 4 [] reader Hclean) as (r1 & Hc1 & H1); [cbn; lia |]. cbn zeta in H1.
  change ([] ++ reader_data reader) with data in H1. unfold read_frame.
  assert (0 ≤ n) as Hn by apply from_be_bytes_range.
  rewrite (decode_frame_prefix data : decode_frame (take (4 + Z.to_nat n) data) = _).
  fold n. destruct (Nat.ltb_spec (length data) 4) as [Hs|Hs].
  - rewrite (proj2 (Nat.leb_gt _ _)) in H1 by lia. destruct H1 as [-> _]. exists r1. done.
  - rewrite (proj2 (Nat.leb_le _ _)) in H1 by lia. destruct H1 as [-> Hd1]. cbn zeta. fold n.
    destruct (validate_frame_length n MAX_FRAME_SIZE) as [[]| |] eqn:Hv; [| by exists r1..].
    apply validate_frame_length_Ok in Hv; [| done]. cbn [mbind result_bind].
    destruct (read_exact_clean false (Z.to_nat n) [] r1 Hc1) as (r2 & Hc2 & H2); [cbn; lia |]. cbn zeta in H2.
    change ([] ++ reader_data r1) with (reader_data r1) in H2. rewrite Hd1, length_drop in H2.
    destruct (Nat.ltb_spec (length data) (4 + Z.to_nat n)) as [Hb|Hb].
    + rewrite (proj2 (Nat.leb_gt _ _)) in H2 by lia. destruct H2 as [-> _]. exists r2. split; [| done].
      unfold eof_error. rewrite Z2Nat.id by done. rewrite Z.mod_small by (unfold MAX_FRAME_SIZE in Hv; lia).
      unfold len. rewrite length_drop. replace (Z.of_nat (length data - 4)) with (Z.of_nat (length data) - 4) by lia. done.
    + rewrite (proj2 (Nat.leb_le _ _)) in H2 by lia. destruct H2 as [-> Hd2]. exists r2. split_and!; [done.. |].
      intros _ _. by rewrite Hd2, skipn_skipn, Nat.add_comm.
Qed.

Lemma read_exact_consumes header wanted done_ reader :
  (length done_ ≤ wanted)%nat →
  ∃ taken, reader_data reader = taken ++ reader_data (snd (read_exact_counted header wanted done_ reader))
    ∧ (length done_ + length taken ≤ wanted)%nat
    ∧ (∀ got, fst (read_exact_counted header wanted done_ reader) = Ok got → got = done_ ++ taken ∧ length got = wanted).
Proof.
  revert done_. induction reader as [|a reader IH]; intros done_ Hle; cbn [read_exact_counted].
  { exists []. split_and!; [by case_match | cbn; lia |]. intros got.
    destruct (Nat.leb_spec wanted (length done_)); [| done]. intros [= <-]. rewrite app_nil_r. split; [done | lia]. }
  destruct (Nat.leb_spec wanted (length done_)) as [Hw|Hw].
  { exists []. split_and!; [done | cbn; lia |]. intros got [= <-]. rewrite app_nil_r. split; [done | lia]. }
  destruct a as [[|b data]| |error].
  - exists []. split_and!; [done | cbn; lia | done].
  - set (d := b :: data). change (reader_data (Chunk d :: reader)) with (d ++ reader_data reader).
    destruct (Nat.ltb_spec (wanted - length done_) (length d)) as [Hbig|Hsmall].
    + exists (take (wanted - length done_) d). split_and!.
      * change (snd _) with (Chunk (drop (wanted - length done_) d) :: reader).
        change (reader_data (Chunk (drop (wanted - length done_) d) :: reader))
          with (drop (wanted - length done_) d ++ reader_data reader).
        by rewrite (assoc_L (++)), take_drop.
      * rewrite length_take. lia.
      * intros got [= <-]. split; [done |]. rewrite length_app, length_take. lia.
    + destruct (IH (done_ ++ d)) as (taken & Hd & Hl & Hg); [rewrite length_app; lia |].
      exists (d ++ taken). rewrite Hd, (assoc_L (++)). rewrite length_app in *. split_and!; [done | lia |].
      intros got Hgot%Hg. by rewrite (assoc_L (++)).
  - destruct (IH done_ Hle) as (taken & ?). by exists taken.
  - exists []. split_and!; [done | cbn; lia | done].
Qed.

(** A failed read is never reported as a bad length. *)
Lemma read_exact_error header wanted done_ reader e :
  fst (read_exact_counted header wanted done_ reader) = Err e →
  e ≠ ReadFrame_Frame ZeroLength ∧ ∀ a b, e ≠ ReadFrame_Frame (Oversized a b).
Proof.
  revert done_. induction reader as [|a reader IH]; intros d; cbn [read_exact_counted].
  { case_match; intros [= <-]; by destruct header. }
  destruct (_ <=? _)%nat; [done |]. destruct a as [[|b data]| |error].
  - intros [= <-]. by destruct header.
  - case_match; [done | apply IH].
  - apply IH.
  - by intros [= <-].
Qed.

(** Whatever a peer sends, one call consumes at most the header and the
    largest frame, and no byte after the header when the declared length is
    zero or too large. *)
Theorem read_frame_bounded reader :
  let '(outcome, reader') := read_frame reader in
  ∃ taken, reader_data reader = taken ++ reader_data reader'
    ∧ len taken ≤ FRAME_HEADER_SIZE + MAX_FRAME_SIZE
    ∧ (outcome = Err (ReadFrame_Frame ZeroLength)
       ∨ (∃ n m, outcome = Err (ReadFrame_Frame (Oversized n m))) → len taken ≤ FRAME_HEADER_SIZE).
Proof.
  unfold read_frame. destruct (read_exact_consumes true 4 [] reader) as (t1 & Hd1 & Hl1 & Hg1); [cbn; lia |].
  destruct (read_exact_counted true 4 [] reader) as [[header|e|site] r1]; cbn [fst snd] in *;
    try by (exists t1; cbn in Hl1; unfold len, FRAME_HEADER_SIZE, MAX_FRAME_SIZE; split_and!; [done | lia | lia]).
  cbn in Hl1. specialize (Hg1 _ eq_refl) as [-> _]. set (n := from_be_bytes _).
  assert (0 ≤ n) as Hn by apply from_be_bytes_range. cbv zeta.
  destruct (validate_frame_length n MAX_FRAME_SIZE) as [[]|e|site] eqn:Hv;
    try by (exists t1; unfold len, FRAME_HEADER_SIZE, MAX_FRAME_SIZE; split_and!; [done | lia | lia]).
  pose proof Hv as [_ Hmax]%validate_frame_length_Ok; [| done].
  destruct (read_exact_consumes false (Z.to_nat n) [] r1) as (t2 & Hd2 & Hl2 & _); [cbn; lia |].
  destruct (read_exact_counted false (Z.to_nat n) [] r1) as [payload r2] eqn:Hread. cbn [fst snd] in *. cbn [length] in Hl2.
  assert (∀ outcome : result ReadFrameError ProtocolEnvelope, outcome ≠ Err (ReadFrame_Frame ZeroLength) → (∀ a b, outcome ≠ Err (ReadFrame_Frame (Oversized a b))) →
    ∃ taken, reader_data reader = taken ++ reader_data r2 ∧ len taken ≤ FRAME_HEADER_SIZE + MAX_FRAME_SIZE
      ∧ (outcome = Err (ReadFrame_Frame ZeroLength) ∨ (∃ a b, outcome = Err (ReadFrame_Frame (Oversized a b)))
         → len taken ≤ FRAME_HEADER_SIZE)) as Hout.
  { intros outcome Hz Ho. exists (t1 ++ t2). rewrite Hd1, Hd2, (assoc_L (++)). split_and!; [done | |].
    - rewrite len_app. unfold len, FRAME_HEADER_SIZE in *. lia.
    - intros [?|(a & b & ?)]; [done | by edestruct Ho]. }
  pose proof (read_exact_error false (Z.to_nat n) [] r1) as Herr.
  rewrite Hread in Herr. destruct payload as [payload|e|site]; cbn [fst] in *.
  - apply Hout; unfold lift_frame, decode_payload; rewrite Hv; cbn [mbind result_bind]; repeat case_match; congruence.
  - destruct (Herr e eq_refl) as [Hz Ho]. apply Hout; [congruence |]. intros a b [= ->]. by eapply Ho.
  - by apply Hout.
Qed.
End laws.

(** ** A codec that satisfies the laws

    It carries the envelopes without data: a version, an identifier and a tag. *)
Definition toy_into_writer (e : ProtocolEnvelope) : text + list byte :=
  if (0 <=? protocol_version e) && (protocol_version e <? 2 ^ 32) && (0 <=? request_id e) && (request_id e <? 2 ^ 64) then
    match body e with
    | Body_Ping => inr (be_bytes 4 (protocol_version e) ++ be_bytes 8 (request_id e) ++ ["001"%byte])
    | Body_Pong => inr (be_bytes 4 (protocol_version e) ++ be_bytes 8 (request_id e) ++ ["002"%byte])
    | _ => inl (bytes "unsupported")
    end
  else inl (bytes "out of range").
Definition toy_from_reader (input : list byte) : text + ProtocolEnvelope * nat :=
  match drop 12 input with
  | tag :: _ =>
      let e b := inr ({| protocol_version := from_be_bytes (take 4 input);
                         request_id := from_be_bytes (take 8 (drop 4 input)); body := b |}, 13%nat) in
      if decide (tag = "001"%byte) then e Body_Ping
      else if decide (tag = "002"%byte) then e Body_Pong else inl (bytes "bad tag")
  | [] => inl (bytes "end of input")
  end.
Definition toy_cbor : Cbor := {| into_writer := toy_into_writer; from_reader := toy_from_reader |}.

Lemma toy_laws : @CborLaws toy_cbor.
Proof.
  split; cbn [into_writer from_reader toy_cbor].
  - intros [v i b] payload rest. unfold toy_into_writer. cbn [protocol_version request_id body].
    destruct (_ && _) eqn:Hr; [| done]. rewrite !andb_true_iff, !Z.leb_le, !Z.ltb_lt in Hr.
    destruct Hr as (((Hv0 & Hv1) & Hi0) & Hi1).
    assert (∀ tag, drop 12 ((be_bytes 4 v ++ be_bytes 8 i ++ [tag]) ++ rest) = tag :: rest
      ∧ from_be_bytes (take 4 ((be_bytes 4 v ++ be_bytes 8 i ++ [tag]) ++ rest)) = v
      ∧ from_be_bytes (take 8 (drop 4 ((be_bytes 4 v ++ be_bytes 8 i ++ [tag]) ++ rest))) = i
      ∧ length (be_bytes 4 v ++ be_bytes 8 i ++ [tag]) = 13%nat) as Hparts.
    { intros tag. rewrite <- !(assoc_L (++)).
      assert (length (be_bytes 4 v) = 4%nat) as L4 by apply be_bytes_length.
      assert (length (be_bytes 8 i) = 8%nat) as L8 by apply be_bytes_length. split_and!.
      - rewrite drop_app_ge, L4 by lia. rewrite drop_app_ge, L8 by lia. done.
      - rewrite take_app_length' by done. rewrite from_be_be. apply Z.mod_small. lia.
      - rewrite drop_app_length' by done. rewrite take_app_length' by done. rewrite from_be_be. apply Z.mod_small. lia.
      - rewrite !length_app, L4, L8. done. }
    destruct b; try done; intros Hp%(inj inr); subst payload; unfold toy_from_reader;
      [destruct (Hparts "001"%byte) as (-> & -> & -> & ->) | destruct (Hparts "002"%byte) as (-> & -> & -> & ->)]; done.
  - by eexists.
  - intros input e n. unfold toy_from_reader. destruct (drop 12 input) as [|tag rest] eqn:Hd; [done |].
    pose proof (length_drop input 12) as Hl. rewrite Hd in Hl. cbn in Hl.
    repeat case_decide; intros [= _ <-]; lia.
Qed.

Lemma frame_roundtrip_witness :
  ∃ frame, @encode_frame_with_limit toy_cbor (ProtocolEnvelope_new 7 Body_Ping) 64 = Ok frame
    ∧ @decode_frame_with_limit toy_cbor frame 64 = Ok (ProtocolEnvelope_new 7 Body_Ping).
Proof.
  eexists. split; [vm_compute; reflexivity |].
  refine (proj2 (@frame_roundtrip toy_cbor toy_laws (ProtocolEnvelope_new 7 Body_Ping) 64 _ _)). vm_compute. reflexivity.
Defined.

(** Header and body cut across chunks, with an interruption, and a second frame behind. *)
Definition chopped_reader : list ReadAnswer :=
  let frame := frame_of (be_bytes 4 1 ++ be_bytes 8 7 ++ ["001"%byte]) in
  [Chunk (take 3 frame); Interrupted; Chunk (take 6 (drop 3 frame)); Chunk (drop 9 frame ++ bytes "tail")].

Lemma read_frame_chunking_witness :
  ∃ reader', @read_frame toy_cbor chopped_reader = (Ok (ProtocolEnvelope_new 7 Body_Ping), reader')
    ∧ reader_data reader' = bytes "tail".
Proof.
  destruct (@read_frame_chunking toy_cbor chopped_reader eq_refl) as (reader' & Hr & _ & Hd).
  exists reader'. split; [rewrite Hr; vm_compute; reflexivity |].
  rewrite (Hd (ProtocolEnvelope_new 7 Body_Ping)); vm_compute; reflexivity.
Defined.
