(* ===== verification/Transport.v ===== *)
(** Reading and writing envelopes on the daemon's socket (read_envelope and
    write_envelope of crates/tuxstack-daemon/src/ipc.rs), and what dropping a
    half-finished read does.

    A pending read is a future that keeps the bytes it has already taken off
    the socket; the connection loop drops it whenever another branch of its
    [select!] completes first, and starts a new one. *)

From S2P Require Import Prelude Path Numbers Text Domain Protocol Frame.

Local Open Scope Z_scope.

Section transport.
  Context {cbor : Cbor}.

(** [write_envelope]: the bytes that go out. *)
Definition write_envelope (envelope : ProtocolEnvelope) (maximum : Z) : fres (list byte) :=
  encode_frame_with_limit envelope maximum.

(** [read_envelope] with [taken] already read: how many bytes it still wants,
    an error, or the envelope. *)
Inductive ReadState : Type :=
  | Wants (count : nat)
  | ReadFailed (error : FrameError)
  | ReadDone (envelope : ProtocolEnvelope)
  | ReadPanic (site : string).

Definition read_state (maximum : Z) (taken : list byte) : ReadState :=
  if (length taken <? 4)%nat then Wants (4 - length taken)
  else
    let length_ := from_be_bytes (take 4 taken) in
    match validate_frame_length length_ maximum with
    | Ok _ =>
        let have := (length taken - 4)%nat in
        if (have <? Z.to_nat length_)%nat then Wants (Z.to_nat length_ - have)
        else
          match decode_payload (drop 4 taken) length_ with
          | Ok envelope => ReadDone envelope
          | Err error => ReadFailed error
          | Panic site => ReadPanic site
          end
    | Err error => ReadFailed error
    | Panic site => ReadPanic site
    end.

(** The connection's reading side: bytes on the socket, bytes the current read
    has taken, envelopes handed to the loop, and the error that ends it. *)
Record Reading := { socket : list byte; taken : list byte; received : list ProtocolEnvelope; failed : option FrameError }.
Definition reading_new : Reading := {| socket := []; taken := []; received := []; failed := None |}.

Inductive ReadEvent : Type :=
  | Arrive (data : list byte)
  | Poll
  | OtherBranch.

(** One poll takes what the read wants, as far as the socket has it. *)
Definition poll (maximum : Z) (r : Reading) : Reading :=
  match failed r with
  | Some _ => r
  | None =>
      match read_state maximum (taken r) with
      | Wants count =>
          let all := taken r ++ take count (socket r) in
          let rest := drop count (socket r) in
          match read_state maximum all with
          | ReadDone envelope =>
              {| socket := rest; taken := []; received := received r ++ [envelope]; failed := None |}
          | ReadFailed error => {| socket := rest; taken := all; received := received r; failed := Some error |}
          | Wants _ | ReadPanic _ => {| socket := rest; taken := all; received := received r; failed := None |}
          end
      | _ => r
      end
  end.

Definition read_step (maximum : Z) (r : Reading) (ev : ReadEvent) : Reading :=
  match ev with
  | Arrive data => {| socket := socket r ++ data; taken := taken r; received := received r; failed := failed r |}
  | Poll => poll maximum r
  | OtherBranch => {| socket := socket r; taken := []; received := received r; failed := failed r |}
  end.
Definition read_run (maximum : Z) (evs : list ReadEvent) (r : Reading) : Reading := foldl (read_step maximum) r evs.
End transport.

(** ** Reads that are not dropped *)
Definition arrivals (evs : list ReadEvent) : list byte :=
  concat (map (fun ev => match ev with Arrive data => data | _ => [] end) evs).
Definition undisturbed (evs : list ReadEvent) : bool :=
  forallb (fun ev => match ev with OtherBranch => false | _ => true end) evs.

Section order.
  Context {cbor : Cbor} {laws : CborLaws} (maximum : Z).

(** An envelope of this protocol version and the frame it is sent in. *)
Definition sent_as (e : ProtocolEnvelope) (frame : list byte) : Prop :=
  protocol_version e = PROTOCOL_VERSION ∧ encode_frame_with_limit e maximum = Ok frame.

(** A read that has only part of a frame wants more of it, and not more than it. *)
Lemma read_state_prefix e frame p rest :
  sent_as e frame → frame = p ++ rest → rest ≠ [] →
  ∃ count, read_state maximum p = Wants count ∧ (0 < count)%nat ∧ (count ≤ length rest)%nat.
Proof.
  intros [_ (payload & _ & Hlen & Hf)%encode_frame_spec] Hp Hrest. destruct (frame_of_split payload) as (Ht & _ & Hl).
  rewrite <- Hf in Ht, Hl. assert (length frame = (length p + length rest)%nat) as Hsum by (by rewrite Hp, length_app).
  assert (length rest ≠ 0%nat) as Hr by (by destruct rest). unfold read_state, len in *.
  destruct (Nat.ltb_spec (length p) 4) as [Hs|Hs]; [eexists; split; [done | lia] |].
  rewrite Hp, take_app_le in Ht by done. cbv zeta. rewrite Ht, from_be_be4 by (unfold u32_max, MAX_FRAME_SIZE in *; lia).
  rewrite (proj2 (validate_frame_length_Ok (Z.of_nat (length payload)) maximum tt (Nat2Z.is_nonneg _))) by lia.
  destruct (Nat.ltb_spec (length p - 4) (Z.to_nat (Z.of_nat (length payload)))) as [Hb|Hb]; [| lia].
  eexists. split; [done | lia].
Qed.

Lemma read_state_frame e frame : sent_as e frame → read_state maximum frame = ReadDone (wire_envelope e).
Proof.
  intros [Hv (payload & He & Hlen & ->)%encode_frame_spec]. destruct (frame_of_split payload) as (Ht & Hd & Hl).
  unfold read_state, len in *. destruct (Nat.ltb_spec (length (frame_of payload)) 4); [lia |]. cbv zeta.
  rewrite Ht, from_be_be4 by (unfold u32_max, MAX_FRAME_SIZE in *; lia).
  rewrite (proj2 (validate_frame_length_Ok (Z.of_nat (length payload)) maximum tt (Nat2Z.is_nonneg _))) by lia.
  destruct (Nat.ltb_spec (length (frame_of payload) - 4) (Z.to_nat (Z.of_nat (length payload)))); [lia |].
  rewrite Hd. fold (len payload). rewrite (decode_payload_encoded e payload) by (unfold len; done || lia).
  by rewrite Hv, Z.eqb_refl.
Qed.

(** The reading side is between the frames [done_] it has delivered and the
    frames [todo] it has begun or not yet seen; [more] has not arrived. *)
Definition between (done_ todo : list (ProtocolEnvelope * list byte)) (more : list byte) (r : Reading) : Prop :=
  failed r = None ∧ received r = map (fun ef => wire_envelope (fst ef)) done_
  ∧ taken r ++ socket r ++ more = concat (map snd todo)
  ∧ match todo with [] => taken r = [] | (_, frame) :: _ => ∃ rest, rest ≠ [] ∧ frame = taken r ++ rest end.

Lemma between_intro done_ todo more r :
  Forall (fun ef => sent_as (fst ef) (snd ef)) todo →
  failed r = None → received r = map (fun ef => wire_envelope (fst ef)) done_ → taken r = [] →
  socket r ++ more = concat (map snd todo) → between done_ todo more r.
Proof.
  intros Hall Hf Hr Ht Hs. split_and!; [done.. | by rewrite Ht |]. destruct todo as [|[e frame] todo]; [done |].
  exists frame. rewrite Ht. split; [| done]. apply Forall_cons_iff in Hall as [[_ (payload & _ & Hlen & Hf')%encode_frame_spec] _].
  cbn [snd] in Hf'. destruct (frame_of_split payload) as (_ & _ & Hl). rewrite <- Hf' in Hl. intros ->. rewrite len_nil in Hl. lia.
Qed.

Lemma poll_between done_ todo more r :
  Forall (fun ef => sent_as (fst ef) (snd ef)) todo → between done_ todo more r →
  ∃ now later, todo = now ++ later ∧ between (done_ ++ now) later more (poll maximum r).
Proof.
  intros Hall (Hf & Hr & Hdata & Hhead). unfold poll. rewrite Hf. destruct todo as [|[e frame] todo].
  { rewrite Hhead in *. cbn in Hdata. apply app_nil in Hdata as [Hs ->]. exists [], []. split; [done |].
    rewrite Hs. unfold read_state. cbn. rewrite app_nil_r. by split_and!. }
  destruct Hhead as (rest & Hne & Hframe). pose proof Hall as [Hsent Htodo]%Forall_cons_iff. cbn in Hsent.
  destruct (read_state_prefix e frame (taken r) rest Hsent Hframe Hne) as (count & -> & Hpos & Hcount).
  cbn [map concat snd] in Hdata. rewrite Hframe, <- (assoc_L (++)) in Hdata. apply (inj (taken r ++.)) in Hdata.
  set (got := take count (socket r)).
  assert (∃ rest', rest = got ++ rest') as [rest' Hrest].
  { set (m := (count `min` length (socket r))%nat). exists (drop m rest).
    assert (got = take m rest) as ->; [| by rewrite take_drop].
    apply (f_equal (take m)) in Hdata. rewrite !take_app_le in Hdata by lia. rewrite <- Hdata. unfold got, m.
    destruct (decide (count ≤ length (socket r))%nat); [by rewrite Nat.min_l | rewrite !take_ge by lia; done]. }
  assert (socket r = got ++ drop count (socket r)) as Hsock by (unfold got; by rewrite take_drop).
  rewrite Hsock, Hrest, <- !(assoc_L (++)) in Hdata. apply (inj (got ++.)) in Hdata.
  destruct rest' as [|b rest'].
  - rewrite app_nil_r in Hrest. subst rest. rewrite <- Hframe, (read_state_frame e frame Hsent).
    exists [(e, frame)], todo. split; [done |]. apply between_intro; cbn; [done | done | | done | done].
    by rewrite Hr, map_app.
  - assert (frame = (taken r ++ got) ++ b :: rest') as Hf2 by (by rewrite Hframe, Hrest, (assoc_L (++))).
    destruct (read_state_prefix e frame _ _ Hsent Hf2 ltac:(done)) as (c2 & -> & _). exists [], ((e, frame) :: todo).
    split; [done |]. rewrite app_nil_r. split_and!; cbn; [done | done | | by exists (b :: rest')].
    rewrite Hf2, <- !(assoc_L (++)). do 2 f_equal. exact Hdata.
Qed.

Lemma run_between evs done_ todo more r :
  undisturbed evs = true → Forall (fun ef => sent_as (fst ef) (snd ef)) todo → between done_ todo (arrivals evs ++ more) r →
  ∃ now later, todo = now ++ later ∧ between (done_ ++ now) later more (read_run maximum evs r).
Proof.
  revert done_ todo r. induction evs as [|ev evs IH]; intros done_ todo r Hu Hall Hb.
  { exists [], todo. rewrite app_nil_r. done. }
  cbn in Hu. apply andb_true_iff in Hu as [Hev Hu]. destruct ev as [data| |]; [| | done].
  - apply IH; [done | done |]. destruct Hb as (Hf & Hr & Hd & Hh). split_and!; [done | done | | done].
    unfold arrivals in Hd. cbn in Hd. rewrite <- (assoc_L (++)) in Hd. cbn. rewrite <- (assoc_L (++)). exact Hd.
  - destruct (poll_between _ _ _ _ Hall Hb) as (now & later & -> & Hb'). apply Forall_app in Hall as [_ Hlater].
    destruct (IH _ _ _ Hu Hlater Hb') as (now' & later' & -> & Hb''). exists (now ++ now'), later'.
    by rewrite !(assoc_L (++)).
Qed.

(** As long as its reads are not dropped, the daemon receives the client's
    envelopes exactly as sent and in order, however the bytes are chopped up
    and whenever the read is polled: what it has received is always a prefix
    of what was sent, it never fails, and when every byte has been taken off
    the socket everything has been received. *)
Theorem reads_in_order sent evs :
  Forall (fun ef => sent_as (fst ef) (snd ef)) sent → undisturbed evs = true →
  arrivals evs `prefix_of` concat (map snd sent) →
  let r := read_run maximum evs reading_new in
  failed r = None ∧ received r `prefix_of` map (fun ef => wire_envelope (fst ef)) sent
  ∧ (arrivals evs = concat (map snd sent) → socket r = [] → received r = map (fun ef => wire_envelope (fst ef)) sent).
Proof.
  intros Hall Hu [more Hmore]. cbn zeta.
  destruct (run_between evs [] sent more reading_new Hu Hall) as (now & later & -> & Hf & Hr & Hd & Hh).
  { apply between_intro; done. }
  rewrite app_nil_l in Hr. split_and!; [done | rewrite Hr, map_app; by eexists |].
  intros Harr Hs. rewrite Hr, map_app. rewrite Harr in Hmore. apply (f_equal length) in Hmore. rewrite length_app in Hmore.
  destruct more; [| cbn in Hmore; lia]. rewrite Hs, app_nil_r in Hd.
  destruct later as [|[e frame] later]; [by rewrite app_nil_r |]. destruct Hh as (rest & Hne & Hframe).
  exfalso. cbn in Hd. rewrite Hframe, <- (assoc_L (++)) in Hd. rewrite <- (app_nil_r (taken _)) in Hd at 1.
  apply (inj (taken _ ++.)) in Hd. symmetry in Hd. apply app_nil in Hd as [? _]. done.
Qed.
End order.

(** *** A frame read in one go, and the same frame with a completion in between *)
Definition ping_frame : list byte := frame_of (be_bytes 4 1 ++ be_bytes 8 7 ++ ["001"%byte]).

(** The read of the connection loop does not survive the other branches of
    its select: a ping whose bytes arrive in two pieces is received when
    nothing else happens, but when a request or a subscription completes
    between the two pieces the bytes already read are dropped, the rest is
    taken for a new frame, and the connection fails with a bogus length. *)
Theorem completion_desynchronises_reads :
  let first := Arrive (take 6 ping_frame) in
  let second := Arrive (drop 6 ping_frame) in
  let undisturbed := @read_run toy_cbor 64 [first; Poll; Poll; second; Poll] reading_new in
  let disturbed := @read_run toy_cbor 64 [first; Poll; Poll; OtherBranch; second; Poll] reading_new in
  received undisturbed = [ProtocolEnvelope_new 7 Body_Ping] ∧ failed undisturbed = None
  ∧ received disturbed = [] ∧ failed disturbed = Some (Oversized 65536 64).
Proof. vm_compute. done. Qed.

Lemma reads_in_order_witness :
  let evs := [Arrive (take 6 ping_frame); Poll; Poll; Arrive (drop 6 ping_frame ++ ping_frame); Poll; Poll; Poll] in
  received (@read_run toy_cbor 64 evs reading_new) = [ProtocolEnvelope_new 7 Body_Ping; ProtocolEnvelope_new 7 Body_Ping].
Proof.
  cbn zeta.
  destruct (@reads_in_order toy_cbor toy_laws 64
    [(ProtocolEnvelope_new 7 Body_Ping, ping_frame); (ProtocolEnvelope_new 7 Body_Ping, ping_frame)]
    [Arrive (take 6 ping_frame); Poll; Poll; Arrive (drop 6 ping_frame ++ ping_frame); Poll; Poll; Poll])
    as (_ & _ & Hall).
  - repeat constructor.
  - reflexivity.
  - exists []. vm_compute. reflexivity.
  - rewrite Hall; [reflexivity | vm_compute; reflexivity | vm_compute; reflexivity].
Defined.
