(* ===== verification/DockerError.v ===== *)
(** Docker errors and their way to a frontend: the error types of
    crates/docker-core/src/error.rs with the classification of API errors, the
    daemon's translation to protocol errors (crates/tuxstack-daemon/src/ipc.rs)
    and the client's translation back (crates/tuxstack-client/src/services.rs). *)

From S2P Require Import Prelude Path Numbers Text Domain Protocol.

Local Open Scope Z_scope.

(** ** Error types *)
Inductive ContainerError : Type :=
  | CE_NotFound (message : text)
  | CE_AlreadyRunning (message : text)
  | CE_NotRunning (message : text)
  | CE_Paused (message : text)
  | CE_RemovalInProgress (message : text)
  | CE_PortAlreadyAllocated (message : text)
  | CE_NameAlreadyInUse (message : text)
  | CE_ImageNotFound (message : text)
  | CE_VolumeNotFound (message : text)
  | CE_NetworkNotFound (message : text)
  | CE_InvalidConfiguration (message : text)
  | CE_StartFailed (message : text)
  | CE_StopFailed (message : text)
  | CE_RestartFailed (message : text)
  | CE_KillFailed (message : text)
  | CE_PauseFailed (message : text)
  | CE_UnpauseFailed (message : text)
  | CE_RemoveFailed (message : text)
  | CE_RenameFailed (message : text)
  | CE_PermissionDenied
  | CE_DockerUnavailable
  | CE_OperationTimeout
  | CE_OperationCancelled
  | CE_Api (message : text).

Inductive DockerError : Type :=
  | DE_SocketNotFound (path : PathBuf)
  | DE_PermissionDenied
  | DE_EngineUnavailable
  | DE_ConnectionTimeout
  | DE_OperationTimeout
  | DE_ContainerNotFound (message : text)
  | DE_InvalidContainerConfig (message : text)
  | DE_Container (error : ContainerError)
  | DE_ImageNotFound (message : text)
  | DE_InvalidImageReference (message : text)
  | DE_RegistryAuthenticationFailed
  | DE_RegistryUnavailable (message : text)
  | DE_PullFailed (message : text)
  | DE_ExportFailed (message : text)
  | DE_OperationCancelled
  | DE_DestinationPermissionDenied (path : PathBuf)
  | DE_DiskFull (path : PathBuf)
  | DE_NetworkNotFound (message : text)
  | DE_NetworkProtected (message : text)
  | DE_NetworkInUse (message : text)
  | DE_InvalidNetworkConfig (message : text)
  | DE_VolumeNotFound (message : text)
  | DE_VolumeInUse (message : text)
  | DE_VolumeAlreadyExists (message : text)
  | DE_VolumeDriverUnavailable (message : text)
  | DE_VolumePluginError (message : text)
  | DE_InvalidVolumeName (message : text)
  | DE_CloneFailed (message : text)
  | DE_CleanupFailed (message : text)
  | DE_UnsupportedVolumeCompression (message : text)
  | DE_Conflict (message : text)
  | DE_InvalidResponse (message : text)
  | DE_Api (message : text)
  | DE_UnsupportedConnection (message : text)
  | DE_Internal (message : text).

(** [Display] of a container error, the [#[error]] strings. *)
Definition ContainerError_to_string (self : ContainerError) : text :=
  match self with
  | CE_NotFound m => bytes "Container was not found: " ++ m
  | CE_AlreadyRunning m => bytes "Container is already running: " ++ m
  | CE_NotRunning m => bytes "Container is not running: " ++ m
  | CE_Paused m => bytes "Container is paused: " ++ m
  | CE_RemovalInProgress m => bytes "Container removal is already in progress: " ++ m
  | CE_PortAlreadyAllocated m => bytes "A published port is already allocated: " ++ m
  | CE_NameAlreadyInUse m => bytes "Container name is already in use: " ++ m
  | CE_ImageNotFound m => bytes "Image was not found: " ++ m
  | CE_VolumeNotFound m => bytes "Volume was not found: " ++ m
  | CE_NetworkNotFound m => bytes "Network was not found: " ++ m
  | CE_InvalidConfiguration m => bytes "Invalid container configuration: " ++ m
  | CE_StartFailed m => bytes "Container start failed: " ++ m
  | CE_StopFailed m => bytes "Container stop failed: " ++ m
  | CE_RestartFailed m => bytes "Container restart failed: " ++ m
  | CE_KillFailed m => bytes "Container kill failed: " ++ m
  | CE_PauseFailed m => bytes "Container pause failed: " ++ m
  | CE_UnpauseFailed m => bytes "Container unpause failed: " ++ m
  | CE_RemoveFailed m => bytes "Container removal failed: " ++ m
  | CE_RenameFailed m => bytes "Container rename failed: " ++ m
  | CE_PermissionDenied => bytes "Permission denied while accessing Docker"
  | CE_DockerUnavailable => bytes "Docker Engine is unavailable"
  | CE_OperationTimeout => bytes "Container operation timed out"
  | CE_OperationCancelled => bytes "Container operation was cancelled"
  | CE_Api m => bytes "Docker container API error: " ++ m
  end.
Definition DockerError_to_string (self : DockerError) : text :=
  match self with
  | DE_SocketNotFound p => bytes "Docker socket was not found at " ++ p
  | DE_PermissionDenied => bytes "Permission denied while accessing Docker"
  | DE_EngineUnavailable => bytes "Docker Engine is unavailable"
  | DE_ConnectionTimeout => bytes "Docker connection timed out"
  | DE_OperationTimeout => bytes "Docker operation timed out"
  | DE_ContainerNotFound m => bytes "Container was not found: " ++ m
  | DE_InvalidContainerConfig m => bytes "Invalid container configuration: " ++ m
  | DE_Container e => ContainerError_to_string e
  | DE_ImageNotFound m => bytes "Image was not found: " ++ m
  | DE_InvalidImageReference m => bytes "Invalid image reference: " ++ m
  | DE_RegistryAuthenticationFailed => bytes "Registry authentication failed"
  | DE_RegistryUnavailable m => bytes "Registry is unavailable: " ++ m
  | DE_PullFailed m => bytes "Image pull failed: " ++ m
  | DE_ExportFailed m => bytes "Export failed: " ++ m
  | DE_OperationCancelled => bytes "Operation was cancelled"
  | DE_DestinationPermissionDenied p => bytes "Destination permission denied: " ++ p
  | DE_DiskFull p => bytes "Not enough space at export destination: " ++ p
  | DE_NetworkNotFound m => bytes "Network was not found: " ++ m
  | DE_NetworkProtected m => bytes "Docker-managed network cannot be removed: " ++ m
  | DE_NetworkInUse m => bytes "Network is currently in use: " ++ m
  | DE_InvalidNetworkConfig m => bytes "Invalid network configuration: " ++ m
  | DE_VolumeNotFound m => bytes "Volume was not found: " ++ m
  | DE_VolumeInUse m => bytes "Volume is still in use: " ++ m
  | DE_VolumeAlreadyExists m => bytes "Volume already exists: " ++ m
  | DE_VolumeDriverUnavailable m => bytes "Volume driver is unavailable: " ++ m
  | DE_VolumePluginError m => bytes "Volume plugin returned an error: " ++ m
  | DE_InvalidVolumeName m => bytes "Invalid volume name or options: " ++ m
  | DE_CloneFailed m => bytes "Volume clone failed: " ++ m
  | DE_CleanupFailed m => bytes "Cleanup failed: " ++ m
  | DE_UnsupportedVolumeCompression m => bytes "Unsupported volume compression: " ++ m
  | DE_Conflict m => bytes "Docker operation conflicts with current state: " ++ m
  | DE_InvalidResponse m => bytes "Invalid Docker response: " ++ m
  | DE_Api m => bytes "Docker API error: " ++ m
  | DE_UnsupportedConnection m => bytes "Unsupported Docker connection method: " ++ m
  | DE_Internal m => bytes "Internal error: " ++ m
  end.

(** [From<ContainerError> for DockerError] *)
Definition DockerError_from_container (value : ContainerError) : DockerError :=
  match value with
  | CE_NotFound message => DE_ContainerNotFound message
  | CE_ImageNotFound message => DE_ImageNotFound message
  | CE_VolumeNotFound message => DE_VolumeNotFound message
  | CE_NetworkNotFound message => DE_NetworkNotFound message
  | CE_InvalidConfiguration message => DE_InvalidContainerConfig message
  | CE_PermissionDenied => DE_PermissionDenied
  | CE_DockerUnavailable => DE_EngineUnavailable
  | CE_OperationTimeout => DE_OperationTimeout
  | CE_OperationCancelled => DE_OperationCancelled
  | other => DE_Container other
  end.

(** ** API errors

    What the classification sees of an error of the API client: the variants
    it names, and the displayed text of the error and of its sources. *)
Inductive BollardKind : Type :=
  | DockerResponseServerError (status_code : Z) (message : text)
  | SocketNotFoundError (path : text)
  | RequestTimeoutError
  | OtherError.
Record BollardError := { be_kind : BollardKind; be_display : text; be_sources : list text }.

Definition is_one_of (code : Z) (codes : list Z) : bool := existsb (Z.eqb code) codes.
Definition text_is (s : text) (w : string) : bool := bool_decide (s = bytes w).
Definition has (s : text) (w : string) : bool := str_contains s (bytes w).

Definition api_message (status_code : Z) (message : text) : text :=
  bytes "Docker API error (" ++ u64_to_string status_code ++ bytes "): " ++ message.

Definition not_found (resource message : text) : DockerError :=
  if text_is resource "container" then DE_ContainerNotFound message
  else if text_is resource "image" then DE_ImageNotFound message
  else if text_is resource "network" then DE_NetworkNotFound message
  else if text_is resource "volume" then DE_VolumeNotFound message
  else DE_Api (bytes "Not found: " ++ message).

Section classify.
  (** [str::to_lowercase], which folds the case of all of Unicode. *)
  Context (to_lowercase : text → text).

Fixpoint join_parts (parts : list text) : text :=
  match parts with
  | [] => []
  | [p] => p
  | p :: parts => p ++ bytes " | " ++ join_parts parts
  end.
Definition chain_text (err : BollardError) : text := to_lowercase (join_parts (be_display err :: be_sources err)).

Definition classify_connect_error (err : BollardError) (socket : option PathBuf) : DockerError :=
  let other :=
    let chain := chain_text err in
    if has chain "permission denied" || has chain "os error 13" then DE_PermissionDenied
    else if has chain "no such file" || has chain "os error 2"
    then DE_SocketNotFound (default (bytes "/var/run/docker.sock") socket)
    else if has chain "connection refused" || has chain "no route to host" || has chain "os error 111"
    then DE_EngineUnavailable
    else if has chain "timed out" || has chain "timeout" then DE_ConnectionTimeout
    else if has chain "dns error" || has chain "invalid uri" then DE_UnsupportedConnection (be_display err)
    else DE_Api (be_display err) in
  match be_kind err with
  | DockerResponseServerError status_code _ => if is_one_of status_code [401; 403] then DE_PermissionDenied else other
  | SocketNotFoundError path => DE_SocketNotFound path
  | RequestTimeoutError => DE_ConnectionTimeout
  | OtherError => other
  end.

Definition classify_api_error (err : BollardError) (resource : text) : DockerError :=
  match be_kind err with
  | DockerResponseServerError status_code message =>
      if status_code =? 404 then not_found resource message
      else if status_code =? 409 then DE_Conflict message
      else if is_one_of status_code [401; 403] then DE_PermissionDenied
      else if status_code =? 408 then DE_OperationTimeout
      else DE_Api (api_message status_code message)
  | RequestTimeoutError => DE_OperationTimeout
  | _ =>
      let chain := chain_text err in
      if has chain "timed out" || has chain "timeout" then DE_OperationTimeout
      else if has chain "permission denied" || has chain "os error 13" then DE_PermissionDenied
      else if has chain "connection refused" || has chain "os error 111" then DE_EngineUnavailable
      else DE_Api (be_display err)
  end.

Definition classify_container_api_error (err : BollardError) (operation : text) : ContainerError :=
  match be_kind err with
  | DockerResponseServerError status_code message =>
      let lower := to_ascii_lowercase message in
      if status_code =? 404 then
        if has lower "no such image" || (has lower "image" && has lower "not found") then CE_ImageNotFound message
        else if has lower "network" then CE_NetworkNotFound message
        else if has lower "volume" then CE_VolumeNotFound message
        else CE_NotFound message
      else if is_one_of status_code [401; 403] then CE_PermissionDenied
      else if status_code =? 408 then CE_OperationTimeout
      else if has lower "port is already allocated" || has lower "address already in use" || has lower "port already in use"
      then CE_PortAlreadyAllocated message
      else if has lower "container name" && has lower "already in use" then CE_NameAlreadyInUse message
      else if has lower "already running" then CE_AlreadyRunning message
      else if has lower "is not running" || has lower "not running" then CE_NotRunning message
      else if has lower "is paused" || has lower "container paused" then CE_Paused message
      else if has lower "removal of container" && has lower "in progress" then CE_RemovalInProgress message
      else if text_is operation "create" && (status_code =? 400) then CE_InvalidConfiguration message
      else if text_is operation "start" then CE_StartFailed message
      else if text_is operation "stop" then CE_StopFailed message
      else if text_is operation "restart" then CE_RestartFailed message
      else if text_is operation "kill" then CE_KillFailed message
      else if text_is operation "pause" then CE_PauseFailed message
      else if text_is operation "unpause" then CE_UnpauseFailed message
      else if text_is operation "remove" then CE_RemoveFailed message
      else if text_is operation "rename" then CE_RenameFailed message
      else CE_Api (api_message status_code message)
  | _ =>
      match classify_api_error err (bytes "container") with
      | DE_ContainerNotFound message => CE_NotFound message
      | DE_PermissionDenied => CE_PermissionDenied
      | DE_EngineUnavailable => CE_DockerUnavailable
      | DE_OperationTimeout | DE_ConnectionTimeout => CE_OperationTimeout
      | error => CE_Api (DockerError_to_string error)
      end
  end.

Definition classify_volume_api_error (err : BollardError) (operation : text) : DockerError :=
  let fallback := classify_api_error err (bytes "volume") in
  match be_kind err with
  | DockerResponseServerError status_code message =>
      let lower := to_ascii_lowercase message in
      let create := text_is operation "create" in
      if is_one_of status_code [401; 403] then DE_PermissionDenied
      else if status_code =? 404 then
        if create && (has lower "driver" || has lower "plugin") then DE_VolumeDriverUnavailable message
        else DE_VolumeNotFound message
      else if text_is operation "remove"
              && ((status_code =? 409) || has lower "volume is in use" || has lower "volume is used")
      then DE_VolumeInUse message
      else if create && ((status_code =? 409) || has lower "already exists") then DE_VolumeAlreadyExists message
      else if create && ((status_code =? 400) || has lower "invalid volume") then DE_InvalidVolumeName message
      else if has lower "plugin" || has lower "driver" then DE_VolumePluginError message
      else fallback
  | _ => fallback
  end.

Definition classify_network_api_error (err : BollardError) (operation : text) : DockerError :=
  let fallback := classify_api_error err (bytes "network") in
  match be_kind err with
  | DockerResponseServerError status_code message =>
      let lower := to_ascii_lowercase message in
      let protected :=
        text_is operation "remove"
        && (has lower "pre-defined network" || has lower "predefined network" || has lower "built-in network"
            || has lower "builtin network") in
      let in_use := has lower "active endpoint" || has lower "network is in use" || has lower "network in use" in
      let config_message :=
        has lower "invalid" || has lower "pool overlaps" || has lower "non-overlapping" || has lower "address pool"
        || has lower "subnet" || has lower "gateway" || has lower "driver" || has lower "plugin"
        || has lower "already exists" in
      if protected then DE_NetworkProtected message
      else if in_use then DE_NetworkInUse message
      else if is_one_of status_code [401; 403] then DE_PermissionDenied
      else if (status_code =? 400) || (text_is operation "create" && ((status_code =? 409) || config_message))
      then DE_InvalidNetworkConfig message
      else fallback
  | _ => fallback
  end.
End classify.

(** ** The daemon's protocol errors *)
Inductive ContainerTerminalError : Type :=
  | CTE_NotRunning | CTE_Paused | CTE_ShellNotFound | CTE_CreateFailed | CTE_StartFailed | CTE_Disconnected
  | CTE_ResizeFailed | CTE_Timeout | CTE_Cancelled | CTE_InvalidOptions | CTE_Permission | CTE_DockerUnavailable.
Definition ContainerTerminalError_to_string (self : ContainerTerminalError) : text :=
  match self with
  | CTE_NotRunning => bytes "the container is not running"
  | CTE_Paused => bytes "the container is paused"
  | CTE_ShellNotFound => bytes "no supported shell was found in the container"
  | CTE_CreateFailed => bytes "Docker could not create the exec instance"
  | CTE_StartFailed => bytes "Docker could not start the exec instance"
  | CTE_Disconnected => bytes "the terminal connection was lost"
  | CTE_ResizeFailed => bytes "Docker could not resize the terminal"
  | CTE_Timeout => bytes "the terminal operation timed out"
  | CTE_Cancelled => bytes "the terminal operation was cancelled"
  | CTE_InvalidOptions => bytes "terminal options are invalid"
  | CTE_Permission => bytes "permission to use the Docker terminal was denied"
  | CTE_DockerUnavailable => bytes "Docker Engine is unavailable"
  end.

Definition protocol_error (code : ProtocolErrorCode) (message : text) (retryable : bool) : ProtocolError :=
  {| pe_code := code; pe_message := message; pe_retryable := retryable |}.

Definition docker_error_code (error : DockerError) : ProtocolErrorCode * bool :=
  match error with
  | DE_SocketNotFound _ | DE_EngineUnavailable | DE_ConnectionTimeout => (Code_DockerUnavailable, true)
  | DE_OperationTimeout => (Code_OperationTimedOut, true)
  | DE_OperationCancelled => (Code_Cancelled, true)
  | DE_PermissionDenied | DE_DestinationPermissionDenied _ | DE_RegistryAuthenticationFailed =>
      (Code_PermissionDenied, false)
  | DE_ContainerNotFound _ | DE_ImageNotFound _ | DE_NetworkNotFound _ | DE_VolumeNotFound _
  | DE_Container (CE_NotFound _ | CE_ImageNotFound _ | CE_VolumeNotFound _ | CE_NetworkNotFound _) =>
      (Code_NotFound, false)
  | DE_Conflict _ | DE_NetworkProtected _ | DE_NetworkInUse _ | DE_VolumeInUse _ | DE_VolumeAlreadyExists _
  | DE_Container (CE_AlreadyRunning _ | CE_NotRunning _ | CE_Paused _ | CE_RemovalInProgress _
                  | CE_PortAlreadyAllocated _ | CE_NameAlreadyInUse _) =>
      (Code_Conflict, false)
  | DE_InvalidContainerConfig _ | DE_InvalidImageReference _ | DE_InvalidNetworkConfig _ | DE_InvalidVolumeName _
  | DE_UnsupportedConnection _ | DE_UnsupportedVolumeCompression _ | DE_Container (CE_InvalidConfiguration _) =>
      (Code_InvalidRequest, false)
  | DE_DiskFull _ => (Code_ResourceBusy, false)
  | DE_RegistryUnavailable _ | DE_VolumeDriverUnavailable _ | DE_VolumePluginError _ => (Code_DockerUnavailable, true)
  | DE_Container CE_PermissionDenied => (Code_PermissionDenied, false)
  | DE_Container CE_DockerUnavailable => (Code_DockerUnavailable, true)
  | DE_Container CE_OperationTimeout => (Code_OperationTimedOut, true)
  | DE_Container CE_OperationCancelled => (Code_Cancelled, true)
  | _ => (Code_Internal, false)
  end.
Definition docker_protocol_error (error : DockerError) : ProtocolError :=
  let '(code, retryable) := docker_error_code error in
  protocol_error code (DockerError_to_string error) retryable.

Definition terminal_protocol_error (error : ContainerTerminalError) : ProtocolError :=
  let '(code, retryable) :=
    match error with
    | CTE_InvalidOptions => (Code_InvalidRequest, false)
    | CTE_NotRunning | CTE_Paused | CTE_ShellNotFound => (Code_Conflict, false)
    | CTE_Permission => (Code_PermissionDenied, false)
    | CTE_DockerUnavailable => (Code_DockerUnavailable, true)
    | CTE_Timeout => (Code_OperationTimedOut, true)
    | CTE_Cancelled => (Code_Cancelled, true)
    | CTE_CreateFailed | CTE_StartFailed | CTE_Disconnected | CTE_ResizeFailed => (Code_DockerUnavailable, true)
    end in
  protocol_error code (ContainerTerminalError_to_string error) retryable.

(** An error of the daemon's state is known by its message. *)
Definition map_resource_error (message : text) : ProtocolError :=
  let code :=
    if has message "not attached to the VFS namespace" then Code_NotFound
    else if has message "permission" then Code_PermissionDenied
    else if has message "timed out" then Code_OperationTimedOut
    else Code_ProviderUnavailable in
  protocol_error code message
    (bool_decide (code = Code_OperationTimedOut) || bool_decide (code = Code_ProviderUnavailable)).

(** ** The client's errors *)
Inductive DaemonError : Type :=
  | Cli_DaemonUnavailable (message : text)
  | Cli_SocketNotFound (path : PathBuf)
  | Cli_EngineUnavailable
  | Cli_ConnectionTimeout
  | Cli_PermissionDenied
  | Cli_OperationTimeout
  | Cli_OperationCancelled
  | Cli_ContainerNotFound (message : text)
  | Cli_ImageNotFound (message : text)
  | Cli_NetworkNotFound (message : text)
  | Cli_VolumeNotFound (message : text)
  | Cli_Conflict (message : text)
  | Cli_InvalidRequest (message : text)
  | Cli_InvalidContainerConfig (message : text)
  | Cli_InvalidImageReference (message : text)
  | Cli_InvalidNetworkConfig (message : text)
  | Cli_InvalidVolumeName (message : text)
  | Cli_InvalidResponse (message : text)
  | Cli_NetworkProtected (message : text)
  | Cli_NetworkInUse (message : text)
  | Cli_VolumeInUse (message : text)
  | Cli_VolumeAlreadyExists (message : text)
  | Cli_VolumeDriverUnavailable (message : text)
  | Cli_VolumePluginError (message : text)
  | Cli_RegistryAuthenticationFailed
  | Cli_RegistryUnavailable (message : text)
  | Cli_PullFailed (message : text)
  | Cli_ExportFailed (message : text)
  | Cli_CloneFailed (message : text)
  | Cli_CleanupFailed (message : text)
  | Cli_DestinationPermissionDenied (path : PathBuf)
  | Cli_DiskFull (path : PathBuf)
  | Cli_Api (message : text)
  | Cli_FuseUnavailable (message : text)
  | Cli_ProviderUnavailable (message : text)
  | Cli_Internal (message : text).
(** [Display] of the client's errors; a path is shown as its bytes. *)
Definition DaemonError_to_string (self : DaemonError) : text :=
  match self with
  | Cli_DaemonUnavailable m => bytes "TuxStack service is unavailable: " ++ m
  | Cli_SocketNotFound m => bytes "control socket is unavailable: " ++ m
  | Cli_EngineUnavailable => bytes "Docker Engine is unavailable"
  | Cli_ConnectionTimeout => bytes "connection timed out"
  | Cli_PermissionDenied => bytes "permission denied"
  | Cli_OperationTimeout => bytes "operation timed out"
  | Cli_OperationCancelled => bytes "operation cancelled"
  | Cli_ContainerNotFound m => bytes "container not found: " ++ m
  | Cli_ImageNotFound m => bytes "image not found: " ++ m
  | Cli_NetworkNotFound m => bytes "network not found: " ++ m
  | Cli_VolumeNotFound m => bytes "volume not found: " ++ m
  | Cli_Conflict m => bytes "conflict: " ++ m
  | Cli_InvalidRequest m => bytes "invalid request: " ++ m
  | Cli_InvalidContainerConfig m => bytes "invalid container configuration: " ++ m
  | Cli_InvalidImageReference m => bytes "invalid image reference: " ++ m
  | Cli_InvalidNetworkConfig m => bytes "invalid network configuration: " ++ m
  | Cli_InvalidVolumeName m => bytes "invalid volume name: " ++ m
  | Cli_InvalidResponse m => bytes "invalid daemon response: " ++ m
  | Cli_NetworkProtected m => bytes "network is protected: " ++ m
  | Cli_NetworkInUse m => bytes "network is in use: " ++ m
  | Cli_VolumeInUse m => bytes "volume is in use: " ++ m
  | Cli_VolumeAlreadyExists m => bytes "volume already exists: " ++ m
  | Cli_VolumeDriverUnavailable m => bytes "volume driver is unavailable: " ++ m
  | Cli_VolumePluginError m => bytes "volume plugin failed: " ++ m
  | Cli_RegistryAuthenticationFailed => bytes "registry authentication failed"
  | Cli_RegistryUnavailable m => bytes "registry is unavailable: " ++ m
  | Cli_PullFailed m => bytes "image pull failed: " ++ m
  | Cli_ExportFailed m => bytes "volume export failed: " ++ m
  | Cli_CloneFailed m => bytes "volume clone failed: " ++ m
  | Cli_CleanupFailed m => bytes "operation cleanup failed: " ++ m
  | Cli_DestinationPermissionDenied m => bytes "destination permission denied: " ++ m
  | Cli_DiskFull m => bytes "destination is full: " ++ m
  | Cli_Api m => bytes "daemon API failed: " ++ m
  | Cli_FuseUnavailable m => bytes "FUSE filesystem is unavailable: " ++ m
  | Cli_ProviderUnavailable m => bytes "provider is unavailable: " ++ m
  | Cli_Internal m => bytes "daemon request failed: " ++ m
  end.

Definition DaemonError_code (self : DaemonError) : ProtocolErrorCode :=
  match self with
  | Cli_DaemonUnavailable _ | Cli_SocketNotFound _ => Code_DaemonUnavailable
  | Cli_EngineUnavailable | Cli_ConnectionTimeout => Code_DockerUnavailable
  | Cli_PermissionDenied => Code_PermissionDenied
  | Cli_OperationTimeout => Code_OperationTimedOut
  | Cli_OperationCancelled => Code_Cancelled
  | Cli_ContainerNotFound _ | Cli_ImageNotFound _ | Cli_NetworkNotFound _ | Cli_VolumeNotFound _ => Code_NotFound
  | Cli_Conflict _ | Cli_NetworkProtected _ | Cli_NetworkInUse _ | Cli_VolumeInUse _ | Cli_VolumeAlreadyExists _ =>
      Code_Conflict
  | Cli_InvalidRequest _ | Cli_InvalidContainerConfig _ | Cli_InvalidImageReference _ | Cli_InvalidNetworkConfig _
  | Cli_InvalidVolumeName _ | Cli_InvalidResponse _ => Code_InvalidRequest
  | Cli_FuseUnavailable _ => Code_FuseUnavailable
  | Cli_ProviderUnavailable _ => Code_ProviderUnavailable
  | Cli_RegistryAuthenticationFailed | Cli_DestinationPermissionDenied _ => Code_PermissionDenied
  | Cli_RegistryUnavailable _ | Cli_VolumeDriverUnavailable _ | Cli_VolumePluginError _ => Code_DockerUnavailable
  | Cli_PullFailed _ | Cli_ExportFailed _ | Cli_CloneFailed _ | Cli_CleanupFailed _ | Cli_DiskFull _ | Cli_Api _
  | Cli_Internal _ => Code_Internal
  end.
Definition DaemonError_is_cancelled (self : DaemonError) : bool :=
  match self with Cli_OperationCancelled => true | _ => false end.

Inductive MissingResource : Type :=
  | Missing_Container | Missing_Image | Missing_Network | Missing_Volume | Missing_Generic.

(** The client's [protocol_error]. *)
Definition client_protocol_error (error : ProtocolError) (missing : MissingResource) : DaemonError :=
  match pe_code error with
  | Code_DaemonUnavailable => Cli_DaemonUnavailable (pe_message error)
  | Code_DockerUnavailable => Cli_EngineUnavailable
  | Code_FuseUnavailable => Cli_FuseUnavailable (pe_message error)
  | Code_ProviderUnavailable => Cli_ProviderUnavailable (pe_message error)
  | Code_PermissionDenied => Cli_PermissionDenied
  | Code_OperationTimedOut => Cli_OperationTimeout
  | Code_Cancelled => Cli_OperationCancelled
  | Code_NotFound =>
      match missing with
      | Missing_Container => Cli_ContainerNotFound (pe_message error)
      | Missing_Image => Cli_ImageNotFound (pe_message error)
      | Missing_Network => Cli_NetworkNotFound (pe_message error)
      | Missing_Volume => Cli_VolumeNotFound (pe_message error)
      | Missing_Generic => Cli_Internal (pe_message error)
      end
  | Code_Conflict | Code_ResourceBusy => Cli_Conflict (pe_message error)
  | Code_InvalidRequest => Cli_InvalidRequest (pe_message error)
  | Code_Internal => Cli_Internal (pe_message error)
  end.

(** The client has the terminal errors of its own with the same names. *)
Definition terminal_error (error : DaemonError) : ContainerTerminalError :=
  match error with
  | Cli_PermissionDenied => CTE_Permission
  | Cli_OperationTimeout => CTE_Timeout
  | Cli_OperationCancelled => CTE_Cancelled
  | Cli_InvalidRequest _ => CTE_InvalidOptions
  | Cli_Conflict message =>
      if has (to_ascii_lowercase message) "paused" then CTE_Paused
      else if has (to_ascii_lowercase message) "running" then CTE_NotRunning
      else CTE_Disconnected
  | Cli_EngineUnavailable | Cli_DaemonUnavailable _ => CTE_DockerUnavailable
  | _ => CTE_Disconnected
  end.

Definition subscription_end_error (reason : SubscriptionEndReason) : option DaemonError :=
  match reason with
  | End_Completed | End_Unsubscribed => None
  | End_ServerShutdown => Some (Cli_DaemonUnavailable (bytes "daemon stopped"))
  | End_ResourceRemoved => Some (Cli_Internal (bytes "resource was removed"))
  | End_Error error => Some (client_protocol_error error Missing_Generic)
  end.

(** ** Laws *)

(** The client keeps the daemon's code, but for the two it folds together. *)
Definition folded_code (code : ProtocolErrorCode) (missing : MissingResource) : ProtocolErrorCode :=
  match code, missing with
  | Code_ResourceBusy, _ => Code_Conflict
  | Code_NotFound, Missing_Generic => Code_Internal
  | _, _ => code
  end.

Lemma client_error_code error missing :
  DaemonError_code (client_protocol_error error missing) = folded_code (pe_code error) missing.
Proof. destruct error as [code message retryable]. by destruct code, missing. Qed.

(** Converting a container error to a Docker error does not change how it is reported. *)
Lemma container_error_code e :
  docker_error_code (DockerError_from_container e) = docker_error_code (DE_Container e).
Proof. by destruct e. Qed.

(** Exactly the conditions that may pass by themselves are reported as worth a retry. *)
Lemma docker_error_retryable e :
  snd (docker_error_code e) = true ↔
  fst (docker_error_code e) ∈ [Code_DockerUnavailable; Code_OperationTimedOut; Code_Cancelled].
Proof.
  destruct e as [| | | | | | |c| | | | | | | | | | | | | | | | | | | | | | | | | | |]; try destruct c; cbn;
    rewrite ?elem_of_cons, elem_of_nil; intuition congruence.
Qed.

(** The status the Engine answers with decides the class of an error of each
    kind of resource, whatever the message says: an authorisation failure is a
    permission error (or a network that may not be touched), a missing resource
    is reported as missing (or, while creating a volume, as a missing driver), a
    conflict is the volume in use on removal and the volume that exists on
    creation; and the daemon reports it under the matching protocol code. *)
Theorem classification_by_status lower status message operation display sources :
  let err := {| be_kind := DockerResponseServerError status message; be_display := display; be_sources := sources |} in
  let container := docker_error_code (DockerError_from_container (classify_container_api_error lower err operation)) in
  let volume := classify_volume_api_error lower err operation in
  let network := docker_error_code (classify_network_api_error lower err operation) in
  (status = 401 ∨ status = 403 →
     container = (Code_PermissionDenied, false) ∧ volume = DE_PermissionDenied
     ∧ network ∈ [(Code_PermissionDenied, false); (Code_Conflict, false)])
  ∧ (status = 404 →
     container = (Code_NotFound, false)
     ∧ (volume = DE_VolumeNotFound message
        ∨ operation = bytes "create" ∧ volume = DE_VolumeDriverUnavailable message)
     ∧ network ∈ [(Code_NotFound, false); (Code_Conflict, false); (Code_InvalidRequest, false)])
  ∧ (status = 408 → container = (Code_OperationTimedOut, true))
  ∧ (status = 409 → operation = bytes "remove" → volume = DE_VolumeInUse message)
  ∧ (status = 409 → operation = bytes "create" → volume = DE_VolumeAlreadyExists message).
Proof.
  cbn zeta. split_and!.
  - intros [-> | ->]; split_and!; try reflexivity;
      unfold classify_network_api_error; cbn -[has]; repeat case_match; set_solver.
  - intros ->. split_and!.
    + unfold classify_container_api_error. cbn -[has]. repeat case_match; reflexivity.
    + unfold classify_volume_api_error, text_is. cbn -[has bytes]. case_bool_decide; cbn -[has bytes]; [| by left].
      case_match; [by right | by left].
    + unfold classify_network_api_error. cbn -[has]. repeat case_match; set_solver.
  - by intros ->.
  - by intros -> ->.
  - by intros -> ->.
Qed.

Lemma classification_by_status_witness :
  let err := {| be_kind := DockerResponseServerError 409 (bytes "volume is in use"); be_display := []; be_sources := [] |} in
  classify_volume_api_error to_ascii_lowercase err (bytes "remove") = DE_VolumeInUse (bytes "volume is in use").
Proof.
  cbn zeta.
  destruct (classification_by_status to_ascii_lowercase 409 (bytes "volume is in use") (bytes "remove") [] [])
    as (_ & _ & _ & H & _).
  by apply H.
Defined.

(** A failure to connect because the process has no file descriptor left
    (operating-system error 24) is reported as a missing Docker socket: the
    search for "os error 2" also finds "os error 24". *)
Theorem connect_exhaustion_misreported :
  classify_connect_error to_ascii_lowercase
    {| be_kind := OtherError; be_display := bytes "client error";
       be_sources := [bytes "Too many open files (os error 24)"] |} None
  = DE_SocketNotFound (bytes "/var/run/docker.sock").
Proof. vm_compute. reflexivity. Qed.
