(* ===== verification/Export.v ===== *)
(** Exporting an image to a local file (export_image_locally of
    crates/tuxstack-daemon/src/ipc.rs): the archive is written to a temporary
    file beside the destination, which a rename then replaces.  The file system
    is a parameter with its laws; files are known by the components of their
    paths, as the standard library compares them. *)

From S2P Require Import Prelude Path Numbers Text Utf8 Domain Compose Protocol DockerError.

Local Open Scope Z_scope.

#[export] Instance Component_eq_dec : EqDecision Component.
Proof. solve_decision. Defined.

Record IoError := { io_permission_denied : bool; io_message : text }.

(** What the export uses of the file system and the process: every call gives
    an error or none. *)
Class ExportFs (W : Type) := {
  fs_read : W → list Component → option (list byte);
  fs_create_new : list Component → W → option IoError * W;
  fs_write_all : list Component → list byte → W → option IoError * W;
  fs_flush : list Component → W → option IoError * W;
  fs_sync_all : list Component → W → option IoError * W;
  fs_rename : list Component → list Component → W → option IoError * W;
  fs_remove_file : list Component → W → option IoError * W;
  process_id : W → Z;
  next_export_file : W → Z * W;
}.

Definition same_files {W} `{ExportFs W} (except : list Component → Prop) (w w' : W) : Prop :=
  ∀ q, ¬ except q → fs_read w' q = fs_read w q.

Class ExportFsLaws (W : Type) `{ExportFs W} : Prop := {
  create_new_law p w :
    match fs_create_new p w with
    | (None, w') => fs_read w p = None ∧ fs_read w' p = Some [] ∧ same_files (eq p) w w'
    | (Some _, w') => same_files (fun _ => False) w w'
    end;
  write_all_law p data w :
    match fs_write_all p data w with
    | (None, w') => fs_read w' p = (fun old => old ++ data) <$> fs_read w p ∧ same_files (eq p) w w'
    | (Some _, w') => same_files (eq p) w w'
    end;
  flush_law p w : same_files (fun _ => False) w (snd (fs_flush p w));
  sync_all_law p w : same_files (fun _ => False) w (snd (fs_sync_all p w));
  rename_law p q w :
    p ≠ q →
    match fs_rename p q w with
    | (None, w') => fs_read w' q = fs_read w p ∧ fs_read w' p = None ∧ same_files (fun r => r = p ∨ r = q) w w'
    | (Some _, w') => same_files (fun _ => False) w w'
    end;
  remove_file_law p w :
    match fs_remove_file p w with
    | (None, w') => fs_read w' p = None ∧ same_files (eq p) w w'
    | (Some _, w') => same_files (fun _ => False) w w'
    end;
  next_export_file_law w : same_files (fun _ => False) w (snd (next_export_file w));
}.

Definition export_io_error (error : IoError) : ProtocolError :=
  protocol_error (if io_permission_denied error then Code_PermissionDenied else Code_Internal)
    (bytes "image export destination failed: " ++ io_message error) false.

(** [Path::is_absolute], [Path::file_name] and [Path::parent] on components. *)
Definition is_absolute (path : list Component) : bool := match path with RootDir :: _ => true | _ => false end.
Definition file_name (path : list Component) : option text :=
  match list.last path with Some (Normal name) => Some name | _ => None end.
Definition parent (path : list Component) : option (list Component) :=
  match list.last path with
  | Some (Normal _ | CurDir | ParentDir) => Some (take (length path - 1) path)
  | _ => None
  end.

Section export.
  Context {W : Type} `{!ExportFs W}.

(** The loop over the archive's chunks; [cancel] is the number of chunks after
    which a cancellation is seen, if one is. *)
Fixpoint export_loop (temporary : list Component) (stream : list (DockerError + list byte)) (cancel : option nat)
  (written : Z) (w : W) : result ProtocolError Z * W :=
  match cancel with
  | Some O => (Err (protocol_error Code_Cancelled (bytes "image export cancelled") true), w)
  | _ =>
      match stream with
      | [] => (Ok written, w)
      | inl error :: _ => (Err (docker_protocol_error error), w)
      | inr data :: stream =>
          match fs_write_all temporary data w with
          | (Some error, w) => (Err (export_io_error error), w)
          | (None, w) => export_loop temporary stream (pred <$> cancel) (saturating_add u64_max written (len data)) w
          end
      end
  end.

(** The body whose failure is followed by the removal of the temporary file. *)
Definition export_to (temporary destination : list Component) (stream : list (DockerError + list byte))
  (cancel : option nat) (w : W) : result ProtocolError Z * W :=
  match fs_create_new temporary w with
  | (Some error, w) => (Err (export_io_error error), w)
  | (None, w) =>
      match export_loop temporary stream cancel 0 w with
      | (Ok written, w) =>
          match fs_flush temporary w with
          | (Some error, w) => (Err (export_io_error error), w)
          | (None, w) =>
              match fs_sync_all temporary w with
              | (Some error, w) => (Err (export_io_error error), w)
              | (None, w) =>
                  match fs_rename temporary destination w with
                  | (Some error, w) => (Err (export_io_error error), w)
                  | (None, w) => (Ok written, w)
                  end
              end
          end
      | failed => failed
      end
  end.

Definition temporary_name (file_name : text) (pid counter : Z) : text :=
  bytes "." ++ file_name ++ bytes ".tuxstack-" ++ u64_to_string pid ++ bytes "-" ++ u64_to_string counter ++ bytes ".part".

Definition export_image_locally (stream : list (DockerError + list byte)) (destination : PathBuf) (cancel : option nat)
  (w : W) : result ProtocolError Z * W :=
  let invalid message := (Err (protocol_error Code_InvalidRequest message false), w) in
  let destination := path_components destination in
  if negb (is_absolute destination) || negb (bool_decide (is_Some (file_name destination)))
  then invalid (bytes "image export destination must be an absolute file path")
  else
    match parent destination with
    | None => invalid (bytes "image export destination has no parent directory")
    | Some parent =>
        match file_name destination ≫= (fun name => if is_ok (from_utf8 name) then Some name else None) with
        | None => invalid (bytes "image export destination is not valid UTF-8")
        | Some name =>
            let '(counter, w) := next_export_file w in
            let temporary := parent ++ [Normal (temporary_name name (process_id w) counter)] in
            match export_to temporary destination stream cancel w with
            | (Ok written, w) => (Ok written, w)
            | (failed, w) => (failed, snd (fs_remove_file temporary w))
            end
        end
    end.
End export.

(** ** Laws *)
Section laws.
  Context {W : Type} `{!ExportFs W, !ExportFsLaws W}.

Lemma same_files_refl P (w : W) : same_files P w w.
Proof. by intros q _. Qed.
Lemma same_files_trans P (w1 w2 w3 : W) : same_files P w1 w2 → same_files P w2 w3 → same_files P w1 w3.
Proof. intros H1 H2 q Hq. by rewrite H2, H1. Qed.
Lemma same_files_weaken (P Q : list Component → Prop) (w w' : W) :
  (∀ q, P q → Q q) → same_files P w w' → same_files Q w w'.
Proof. intros Himp H q Hq. apply H. auto. Qed.
Lemma same_files_all (w w' : W) P : same_files (fun _ => False) w w' → same_files P w w'.
Proof. by apply same_files_weaken. Qed.

Lemma file_name_spec path name : file_name path = Some name ↔ ∃ up, path = up ++ [Normal name].
Proof.
  unfold file_name. destruct path as [|c up _] using rev_ind; [split; [done | by intros ([|??] & ?)] |].
  rewrite last_snoc. destruct c; (split; [| intros (up' & [_ ?]%app_inj_2); [congruence | done]]); try done.
  intros [= ->]. eauto.
Qed.

Lemma parent_spec up c : c ≠ RootDir → parent (up ++ [c]) = Some up.
Proof.
  intros Hc. unfold parent. rewrite last_snoc, length_app. cbn. rewrite Nat.add_sub, take_app_length. by destruct c.
Qed.

Lemma temporary_name_longer name pid counter : (length name < length (temporary_name name pid counter))%nat.
Proof. unfold temporary_name. rewrite !length_app. cbn. lia. Qed.

Lemma temporary_ne up name pid counter : up ++ [Normal (temporary_name name pid counter)] ≠ up ++ [Normal name].
Proof.
  intros [_ [= Heq]]%app_inj_2; [| done]. pose proof (temporary_name_longer name pid counter) as H. rewrite Heq in H. lia.
Qed.

Lemma export_loop_spec t stream cancel written w :
  written ≤ u64_max →
  let '(r, w') := export_loop t stream cancel written w in
  same_files (eq t) w w' ∧
  match r with
  | Ok n => ∃ chunks, stream = map inr chunks ∧ n = Z.min u64_max (written + len (concat chunks))
            ∧ fs_read w' t = (fun old => old ++ concat chunks) <$> fs_read w t
  | Err _ => True
  | Panic _ => False
  end.
Proof.
  revert cancel written w. induction stream as [|item stream IH]; intros cancel written w Hw; cbn [export_loop].
  - destruct cancel as [[|n]|]; [by split | |]; (split; [done |]; exists []; change (len (concat [])) with 0; split_and!; [done | lia |];
      destruct (fs_read w t); cbn; by rewrite ?app_nil_r).
  - assert (∀ cancel', let '(r, w') :=
      match item with
      | inl error => (Err (docker_protocol_error error), w)
      | inr data =>
          match fs_write_all t data w with
          | (Some error, w) => (Err (export_io_error error), w)
          | (None, w) => export_loop t stream cancel' (saturating_add u64_max written (len data)) w
          end
      end in same_files (eq t) w w' ∧
      match r with
      | Ok n => ∃ chunks, item :: stream = map inr chunks ∧ n = Z.min u64_max (written + len (concat chunks))
                ∧ fs_read w' t = (fun old => old ++ concat chunks) <$> fs_read w t
      | Err _ => True
      | Panic _ => False
      end) as Hstep.
    { intros cancel'. destruct item as [error|data]; [by split |].
      pose proof (write_all_law t data w) as Hwrite. destruct (fs_write_all t data w) as [[error|] w1]; [done |].
      destruct Hwrite as [Hread Hsame]. unfold saturating_add.
      specialize (IH cancel' (Z.min u64_max (written + len data)) w1 ltac:(lia)).
      destruct (export_loop t stream cancel' _ w1) as [r w2]. destruct IH as [Hsame2 Hr].
      split; [by eapply same_files_trans |]. destruct r as [n|e|site]; [| done..].
      destruct Hr as (chunks & -> & -> & Hread2). exists (data :: chunks). cbn [map concat]. rewrite len_app.
      pose proof (len_nonneg (concat chunks)). split_and!; [done | lia |].
      rewrite Hread2, Hread. destruct (fs_read w t); cbn; [by rewrite (assoc_L (++)) | done]. }
    destruct cancel as [[|n]|]; [by split | apply (Hstep (Some n)) | apply (Hstep None)].
Qed.

Lemma export_to_spec t d stream cancel w :
  t ≠ d →
  let '(r, w') := export_to t d stream cancel w in
  same_files (fun q => q = t ∨ q = d) w w' ∧
  match r with
  | Ok n => ∃ chunks, stream = map inr chunks ∧ n = Z.min u64_max (len (concat chunks))
            ∧ fs_read w' d = Some (concat chunks) ∧ fs_read w t = None ∧ fs_read w' t = None
  | Err _ => same_files (eq t) w w'
  | Panic _ => False
  end.
Proof.
  intros Hne. unfold export_to.
  assert (∀ w', same_files (eq t) w w' → same_files (fun q => q = t ∨ q = d) w w' ∧ same_files (eq t) w w') as Hfail.
  { intros w' H. split; [| done]. eapply same_files_weaken; [| exact H]. intros q ->. by left. }
  pose proof (create_new_law t w) as Hc. destruct (fs_create_new t w) as [[error|] w1].
  { apply Hfail. by apply same_files_all. }
  destruct Hc as (Hnone & Hempty & Hsame1).
  pose proof (export_loop_spec t stream cancel 0 w1 ltac:(done)) as Hl.
  destruct (export_loop t stream cancel 0 w1) as [[n|e|site] w2]; destruct Hl as [Hsame2 Hl]; [| | done].
  2: { apply Hfail. by eapply same_files_trans. }
  destruct Hl as (chunks & Hstream & Hn & Hread). rewrite Hempty in Hread. cbn in Hread.
  assert (same_files (eq t) w w2) as Hw2 by by eapply same_files_trans.
  pose proof (flush_law t w2) as Hf. destruct (fs_flush t w2) as [[error|] w3]; cbn [snd] in Hf.
  { apply Hfail. eapply same_files_trans; [exact Hw2 | by apply same_files_all]. }
  pose proof (sync_all_law t w3) as Hy. destruct (fs_sync_all t w3) as [[error|] w4]; cbn [snd] in Hy;
    assert (same_files (fun _ => False) w2 w4) as H24 by (by eapply same_files_trans).
  { apply Hfail. eapply same_files_trans; [exact Hw2 | by apply same_files_all]. }
  assert (same_files (eq t) w w4) as Hw4 by (eapply same_files_trans; [exact Hw2 | by apply same_files_all]).
  pose proof (rename_law t d w4 Hne) as Hr. destruct (fs_rename t d w4) as [[error|] w5].
  { apply Hfail. eapply same_files_trans; [exact Hw4 | by apply same_files_all]. }
  destruct Hr as (Hd & Ht & Hsame5). split.
  - eapply same_files_trans; [| exact Hsame5]. eapply same_files_weaken; [| exact Hw4]. intros q ->. by left.
  - exists chunks. split_and!; try done. rewrite Hd, (H24 t) by tauto. done.
Qed.

End laws.

(** ** A file system that satisfies the laws *)
Definition files : Type := ((list Component → option (list byte)) * Z)%type.
Definition set_file (p : list Component) (v : option (list byte)) (f : list Component → option (list byte)) :=
  fun q => if decide (p = q) then v else f q.
Definition exists_error : IoError := {| io_permission_denied := false; io_message := bytes "File exists (os error 17)" |}.
Definition missing_error : IoError :=
  {| io_permission_denied := false; io_message := bytes "No such file or directory (os error 2)" |}.
#[export] Instance map_fs : ExportFs files := {|
  fs_read w p := fst w p;
  fs_create_new p w :=
    match fst w p with Some _ => (Some exists_error, w) | None => (None, (set_file p (Some []) (fst w), snd w)) end;
  fs_write_all p data w :=
    match fst w p with
    | Some old => (None, (set_file p (Some (old ++ data)) (fst w), snd w))
    | None => (Some missing_error, w)
    end;
  fs_flush _ w := (None, w);
  fs_sync_all _ w := (None, w);
  fs_rename p q w :=
    match fst w p with
    | Some data => (None, (set_file p None (set_file q (Some data) (fst w)), snd w))
    | None => (Some missing_error, w)
    end;
  fs_remove_file p w :=
    match fst w p with Some _ => (None, (set_file p None (fst w), snd w)) | None => (Some missing_error, w) end;
  process_id _ := 42;
  next_export_file w := (snd w, (fst w, snd w + 1));
|}.

Lemma map_fs_laws : ExportFsLaws files.
Proof.
  assert (∀ p v (w : files) n, same_files (eq p) w (set_file p v (fst w), n)) as Hset.
  { intros p v w n q Hq. cbn. unfold set_file. by case_decide. }
  assert (∀ p v f, set_file p v f p = v) as Hget by (intros; unfold set_file; by case_decide).
  split; cbn; try done.
  - intros p w. destruct (fst w p) eqn:E; [done |]. split_and!; [done | cbn; apply Hget | apply Hset].
  - intros p data w. destruct (fst w p) eqn:E; [| done]. split; [cbn; rewrite Hget; done | apply Hset].
  - intros p q w Hpq. destruct (fst w p) eqn:E; [| done]. split_and!.
    + cbn. unfold set_file. repeat case_decide; congruence.
    + cbn. apply Hget.
    + intros r Hr. cbn. unfold set_file. repeat case_decide; subst; tauto.
  - intros p w. destruct (fst w p) eqn:E; [| done]. split; [cbn; apply Hget | apply Hset].
Qed.

Definition no_files : files := (fun _ => None, 1).

Lemma export_examples :
  (let '(r, w) := export_image_locally [inr (bytes "ab"); inr (bytes "c")] (bytes "/tmp/image.tar") None no_files in
   r = Ok 3 ∧ fs_read w (path_components (bytes "/tmp/image.tar")) = Some (bytes "abc")
   ∧ fs_read w (path_components (bytes "/tmp/.image.tar.tuxstack-42-1.part")) = None)
  ∧ (let '(r, w) := export_image_locally [inr (bytes "ab"); inr (bytes "c")] (bytes "/tmp/image.tar") (Some 1%nat) no_files in
     r = Err (protocol_error Code_Cancelled (bytes "image export cancelled") true)
     ∧ fs_read w (path_components (bytes "/tmp/image.tar")) = None
     ∧ fs_read w (path_components (bytes "/tmp/.image.tar.tuxstack-42-1.part")) = None).
Proof. vm_compute. done. Qed.


(** When a file with the name of the temporary file already exists, the
    export refuses to write it and then deletes it, although it is not its own. *)
Theorem export_deletes_existing_part :
  let part := path_components (bytes "/tmp/.image.tar.tuxstack-42-1.part") in
  let w : files := (set_file part (Some (bytes "precious")) (fun _ => None), 1) in
  let '(r, w') := export_image_locally [] (bytes "/tmp/image.tar") None w in
  r = Err (export_io_error exists_error) ∧ fs_read w part = Some (bytes "precious") ∧ fs_read w' part = None.
Proof. vm_compute. done. Qed.
