(* ===== verification/Services.v ===== *)
(** The daemon's request dispatch (crates/tuxstack-daemon/src/ipc.rs):
    [dispatch_docker] and [dispatch_request] over the interfaces of the Docker
    services and of the daemon's state.

    A service call is a program over a world [W]; a cancellation token is the
    number of stream items after which its firing is seen, if it fires. *)

From S2P Require Import Prelude Path Numbers Text Domain Compose CreateContainer Protocol DockerError Export.

Local Open Scope Z_scope.

Definition svc (E W A : Type) : Type := W → result E A * W.
Abbreviation Token := (option nat).

Record ListContainersOptions := {
  lco_all : bool; lco_limit : option Z; lco_search : option text; lco_state : option ContainerRuntimeState;
}.
Record ListImagesOptions := { lio_search : option text }.
Record ListNetworksOptions := { lno_search : option text }.
Record ListVolumesOptions := { lvo_search : option text }.
Inductive ComposeGroupAction : Type :=
  | Group_Start
  | Group_Stop (options : StopContainerOptions)
  | Group_Restart (options : RestartContainerOptions)
  | Group_Kill (options : KillContainerOptions)
  | Group_Pause
  | Group_Unpause
  | Group_Remove (options : RemoveContainerOptions).

(** ** The services the daemon calls (crates/docker-core/src/services) *)
Class DockerServices (W : Type) := {
  svc_system_info : svc DockerError W DockerSystemInfo;
  svc_overview : svc DockerError W OverviewData;
  svc_list_containers : ListContainersOptions → svc DockerError W (list ContainerSummary);
  svc_inspect_container : text → svc DockerError W ContainerDetail;
  svc_start_container : text → svc DockerError W ();
  svc_stop_container : text → option StopContainerOptions → svc DockerError W ();
  svc_restart_container : text → RestartContainerOptions → svc DockerError W ();
  svc_pause_container : text → svc DockerError W ();
  svc_unpause_container : text → svc DockerError W ();
  svc_kill_container : text → KillContainerOptions → svc DockerError W ();
  svc_remove_container : text → RemoveContainerOptions → svc DockerError W ();
  svc_rename_container : text → text → svc DockerError W ();
  svc_create_container : CreateContainerRequest → svc DockerError W CreateContainerResult;
  svc_container_stats : text → svc DockerError W ContainerStats;
  svc_container_logs : text → ContainerLogsOptions → svc DockerError W (list LogLine);
  svc_list_projects : svc DockerError W (list ContainerGroupSummary);
  svc_execute_group_targets :
    ContainerGroupId → list text → ComposeGroupAction → svc DockerError W ContainerGroupOperationResult;
  svc_list_images : ListImagesOptions → svc DockerError W (list ImageSummary);
  svc_inspect_image : text → svc DockerError W ImageDetail;
  svc_remove_image : text → RemoveImageOptions → svc DockerError W (list ImageDeleteResult);
  svc_pull_image : PullImageOptions → W → list (DockerError + ImagePullProgress) * W;
  svc_export_image : text → W → list (DockerError + list byte) * W;
  svc_list_networks : ListNetworksOptions → svc DockerError W (list NetworkSummary);
  svc_inspect_network : text → svc DockerError W NetworkDetail;
  svc_create_network : CreateNetworkOptions → svc DockerError W CreateNetworkResult;
  svc_remove_network : text → svc DockerError W ();
  svc_list_volumes : ListVolumesOptions → svc DockerError W (list VolumeSummary);
  svc_inspect_volume : text → svc DockerError W VolumeDetail;
  svc_create_volume : CreateVolumeRequest → svc DockerError W VolumeDetail;
  svc_remove_volume : text → RemoveVolumeOptions → svc DockerError W ();
  svc_prune_volumes : PruneVolumeFilters → svc DockerError W VolumePruneResult;
  svc_clone_volume : CloneVolumeRequest → Token → svc DockerError W VolumeDetail;
  svc_enrich_usage : list text → W → (gmap text (list VolumeContainerReference) * gmap text VolumeUsage) * W;
  svc_export_volume : ExportVolumeRequest → Token → svc DockerError W ();
}.

(** ** The daemon's state (crates/tuxstack-daemon/src/state.rs) and its
    terminal sessions; an error of the state is its message. *)
Class DaemonOps (W T : Type) := {
  st_status : W → DaemonStatus;
  st_mount_status : W → MountStatus;
  st_mount : svc text W MountStatus;
  st_unmount : svc text W MountStatus;
  st_remount : svc text W MountStatus;
  st_resource_path : DockerResourceRef → svc text W ResourceFusePath;
  st_provider_descriptor : ResourcePath → svc text W ProviderDescriptor;
  term_write_input : T → list byte → svc ContainerTerminalError W ();
  term_resize : T → Z → Z → svc ContainerTerminalError W ();
  term_close : T → W → W;
}.

Definition MAX_TERMINAL_INPUT_BYTES : Z := 64 * 1024.
Definition MAX_TERMINAL_DIMENSION : Z := 4096.

Definition pull_options (request : PullImageRequest) : PullImageOptions :=
  {| pio_reference := pir_reference request; pio_platform := pir_platform request;
     pio_registry_auth :=
       (fun auth => {| ra_username := rar_username auth; ra_password := rar_password auth;
                       ra_server_address := rar_server_address auth; ra_identity_token := rar_identity_token auth;
                       ra_registry_token := rar_registry_token auth |}) <$> pir_registry_auth request |}.

Definition group_action (action : ComposeAction) : ComposeGroupAction :=
  match action with
  | Compose_Start => Group_Start
  | Compose_Stop options => Group_Stop options
  | Compose_Restart options => Group_Restart options
  | Compose_Kill options => Group_Kill options
  | Compose_Pause => Group_Pause
  | Compose_Unpause => Group_Unpause
  | Compose_Remove options => Group_Remove options
  end.

(** The loop over a pull stream that ends with it, with its first error or with a cancellation. *)
Fixpoint drain_pull (stream : list (DockerError + ImagePullProgress)) (cancellation : Token) : result ProtocolError () :=
  match cancellation with
  | Some O => Err (protocol_error Code_Cancelled (bytes "image pull cancelled") true)
  | _ =>
      match stream with
      | [] => Ok tt
      | inl error :: _ => Err (docker_protocol_error error)
      | inr _ :: stream => drain_pull stream (pred <$> cancellation)
      end
  end.

Definition validate_terminal_size (rows cols : Z) : result ProtocolError () :=
  if (rows =? 0) || (cols =? 0) || (rows >? MAX_TERMINAL_DIMENSION) || (cols >? MAX_TERMINAL_DIMENSION)
  then Err (protocol_error Code_InvalidRequest (bytes "terminal rows and columns must be between 1 and 4096") false)
  else Ok tt.

Section dispatch.
  Context {W T : Type} `{!DockerServices W, !ExportFs W, !DaemonOps W T, !HashOrder}.

(** The [docker!] macro: the call, its error translated, and the response from its value. *)
Definition docker {A B} (call : svc DockerError W A) (respond : A → B) : svc ProtocolError W B := fun w =>
  match call w with
  | (Ok a, w) => (Ok (respond a), w)
  | (Err error, w) => (Err (docker_protocol_error error), w)
  | (Panic site, w) => (Panic site, w)
  end.
Definition acknowledge (_ : ()) : DockerResponse := Resp_Acknowledged.

Definition pull (options : PullImageOptions) (cancellation : Token) : svc ProtocolError W DockerResponse := fun w =>
  let '(stream, w) := svc_pull_image options w in
  (_ ← drain_pull stream cancellation; Ok Resp_Acknowledged, w).

Definition dispatch_docker (request : DockerRequest) (cancellation : Token) : svc ProtocolError W DockerResponse :=
  match request with
  | Req_SystemInfo => docker svc_system_info Resp_SystemInfo
  | Req_Overview => docker svc_overview Resp_Overview
  | Req_ListContainers all limit search state =>
      docker (svc_list_containers {| lco_all := all; lco_limit := limit; lco_search := search; lco_state := state |})
        Resp_Containers
  | Req_InspectContainer id => docker (svc_inspect_container id) Resp_ContainerDetail
  | Req_StartContainer id => docker (svc_start_container id) acknowledge
  | Req_StopContainer id options => docker (svc_stop_container id (Some options)) acknowledge
  | Req_RestartContainer id options => docker (svc_restart_container id options) acknowledge
  | Req_PauseContainer id => docker (svc_pause_container id) acknowledge
  | Req_UnpauseContainer id => docker (svc_unpause_container id) acknowledge
  | Req_KillContainer id options => docker (svc_kill_container id options) acknowledge
  | Req_RemoveContainer id options => docker (svc_remove_container id options) acknowledge
  | Req_RenameContainer id new_name => docker (svc_rename_container id new_name) acknowledge
  | Req_CreateContainer request => docker (svc_create_container request) Resp_ContainerCreated
  | Req_ContainerStats id => docker (svc_container_stats id) Resp_ContainerStats
  | Req_ContainerLogs id options => docker (svc_container_logs id options) Resp_ContainerLogs
  | Req_ListComposeProjects => docker svc_list_projects Resp_ComposeProjects
  | Req_ExecuteComposeTargets group_id target_ids action =>
      docker (svc_execute_group_targets group_id target_ids (group_action action)) Resp_ComposeOperation
  | Req_ListImages search => docker (svc_list_images {| lio_search := search |}) Resp_Images
  | Req_InspectImage id => docker (svc_inspect_image id) Resp_ImageDetail
  | Req_RemoveImage id options => docker (svc_remove_image id options) Resp_ImagesRemoved
  | Req_PullImage options => pull options cancellation
  | Req_PullImageAuthenticated request => pull (pull_options request) cancellation
  | Req_ListNetworks search => docker (svc_list_networks {| lno_search := search |}) Resp_Networks
  | Req_InspectNetwork id => docker (svc_inspect_network id) Resp_NetworkDetail
  | Req_CreateNetwork options => docker (svc_create_network options) Resp_NetworkCreated
  | Req_RemoveNetwork id => docker (svc_remove_network id) acknowledge
  | Req_ListVolumes search => docker (svc_list_volumes {| lvo_search := search |}) Resp_Volumes
  | Req_InspectVolume name => docker (svc_inspect_volume name) Resp_VolumeDetail
  | Req_CreateVolume request => docker (svc_create_volume request) Resp_VolumeDetail
  | Req_RemoveVolume name options => docker (svc_remove_volume name options) acknowledge
  | Req_PruneVolumes filters => docker (svc_prune_volumes filters) Resp_VolumesPruned
  | Req_CloneVolume request => docker (svc_clone_volume request cancellation) Resp_VolumeDetail
  | Req_EnrichVolumes names => fun w =>
      let '((references, usage), w) := svc_enrich_usage names w in
      (Ok (Resp_VolumesEnriched
         {| ve_references := hash_order (map_to_list references); ve_usage := hash_order (map_to_list usage) |}), w)
  | Req_ExportImage id destination => fun w =>
      let '(stream, w) := svc_export_image id w in
      let '(written, w) := export_image_locally stream destination cancellation w in
      (bytes_written ← written; Ok (Resp_ExportCompleted destination (Some bytes_written)), w)
  | Req_ExportVolume request =>
      docker (svc_export_volume request cancellation) (fun _ => Resp_ExportCompleted (evr_destination request) None)
  end.

(** ** Terminals and the remaining requests *)
Definition not_active : ProtocolError := protocol_error Code_NotFound (bytes "terminal subscription is not active") false.

Definition map_error {E E' A} (f : E → E') (r : result E A) : result E' A :=
  match r with Ok a => Ok a | Err e => Err (f e) | Panic site => Panic site end.
(** [result.unwrap_or_else(Response::Error)]: only a panic is not a response. *)
Definition unwrap_response (r : result ProtocolError Response) : result Empty_set Response :=
  match r with Ok a => Ok a | Err e => Ok (Response_Error e) | Panic site => Panic site end.

(** The part of [dispatch_request] before its errors become responses. *)
Definition dispatch_inner (request : Request) (cancellation : Token) (terminals : gmap SubscriptionId T) (w : W)
  : result ProtocolError Response * gmap SubscriptionId T * W :=
  let internal e := protocol_error Code_Internal e false in
  let reply {E A} (error : E → ProtocolError) (f : A → Response) (outcome : result E A * W) :=
    (f <$> map_error error (fst outcome), terminals, snd outcome) in
  match request with
  | GetDaemonStatus => (Ok (Response_DaemonStatus (st_status w)), terminals, w)
  | GetMountStatus => (Ok (Response_MountStatus (st_mount_status w)), terminals, w)
  | SetMountState action =>
      reply internal Response_MountStatus
        (match action with Mount => st_mount w | Unmount => st_unmount w | Remount => st_remount w end)
  | GetResourceFusePath resource => reply map_resource_error Response_ResourceFusePath (st_resource_path resource w)
  | GetProviderDescriptor path => reply map_resource_error Response_ProviderDescriptor (st_provider_descriptor path w)
  | PerformResourceOperation _ => (Ok Response_Acknowledged, terminals, w)
  | Request_Docker request => reply id Response_Docker (dispatch_docker request cancellation w)
  | ContainerTerminalInput subscription_id input =>
      if len input >? MAX_TERMINAL_INPUT_BYTES
      then (Err (protocol_error Code_InvalidRequest (bytes "terminal input exceeds the 64 KiB request limit") false),
            terminals, w)
      else
        match terminals !! subscription_id with
        | None => (Err not_active, terminals, w)
        | Some session => reply terminal_protocol_error (fun _ => Response_Acknowledged) (term_write_input session input w)
        end
  | ContainerTerminalResize subscription_id rows cols =>
      match validate_terminal_size rows cols with
      | Ok _ =>
          match terminals !! subscription_id with
          | None => (Err not_active, terminals, w)
          | Some session =>
              reply terminal_protocol_error (fun _ => Response_Acknowledged) (term_resize session rows cols w)
          end
      | Err e => (Err e, terminals, w)
      | Panic site => (Panic site, terminals, w)
      end
  | ContainerTerminalClose subscription_id =>
      match terminals !! subscription_id with
      | None => (Err not_active, terminals, w)
      | Some session => (Ok Response_Acknowledged, delete subscription_id terminals, term_close session w)
      end
  end.
Definition dispatch_request (request : Request) (cancellation : Token) (terminals : gmap SubscriptionId T) (w : W)
  : result Empty_set Response * gmap SubscriptionId T * W :=
  let '(r, terminals, w) := dispatch_inner request cancellation terminals w in (unwrap_response r, terminals, w).
End dispatch.
