(* ===== verification/Facade.v ===== *)
(** The client's typed services (crates/tuxstack-client/src/services.rs) and
    their agreement with the services behind the daemon: a call through the
    facade, the transport and the daemon's dispatch gives what the service
    itself gives, with its errors translated. *)

From S2P Require Import Prelude Path Numbers Text Domain Compose CreateContainer Protocol DockerError Export Services.

Local Open Scope Z_scope.

(** [From<ComposeGroupAction> for ComposeAction] *)
Definition compose_action (value : ComposeGroupAction) : ComposeAction :=
  match value with
  | Group_Start => Compose_Start
  | Group_Stop options => Compose_Stop options
  | Group_Restart options => Compose_Restart options
  | Group_Kill options => Compose_Kill options
  | Group_Pause => Compose_Pause
  | Group_Unpause => Compose_Unpause
  | Group_Remove options => Compose_Remove options
  end.

Definition pull_request (options : PullImageOptions) : PullImageRequest :=
  {| pir_reference := pio_reference options; pir_platform := pio_platform options;
     pir_registry_auth :=
       (fun auth => {| rar_username := ra_username auth; rar_password := ra_password auth;
                       rar_server_address := ra_server_address auth; rar_identity_token := ra_identity_token auth;
                       rar_registry_token := ra_registry_token auth |}) <$> pio_registry_auth options |}.

(** The derived [Default] of the stop options. *)
Definition StopContainerOptions_default : StopContainerOptions := {| sco_timeout_seconds := None |}.

Section facade.
  (** [Client::request]: a response, or the text of a client error; and the
      [Debug] texts that only appear inside messages. *)
  Context {W : Type} (request : Request → svc text W Response).
  Context (debug_response : Response → text) (debug_docker : DockerResponse → text).

Definition docker_request (r : DockerRequest) (missing : MissingResource) : svc DaemonError W DockerResponse := fun w =>
  match request (Request_Docker r) w with
  | (Ok (Response_Docker response), w) => (Ok response, w)
  | (Ok (Response_Error error), w) => (Err (client_protocol_error error missing), w)
  | (Ok response, w) => (Err (Cli_Internal (bytes "daemon returned an unexpected response: " ++ debug_response response)), w)
  | (Err error, w) => (Err (Cli_DaemonUnavailable error), w)
  | (Panic site, w) => (Panic site, w)
  end.

Definition unexpected {A} (response : DockerResponse) : result DaemonError A :=
  Err (Cli_Internal (bytes "daemon returned an unexpected Docker response: " ++ debug_docker response)).

Definition acknowledged (r : DockerRequest) (missing : MissingResource) : svc DaemonError W () := fun w =>
  let '(response, w) := docker_request r missing w in
  (response ← response;
   match response with
   | Resp_Acknowledged => Ok tt
   | response => Err (Cli_Internal (bytes "daemon returned an unexpected acknowledgement: " ++ debug_docker response))
   end, w).

(** [match docker_request(..).await? { Variant(value) => Ok(value), other => unexpected(other) }] *)
Definition expecting {A} (pick : DockerResponse → option A) (r : DockerRequest) (missing : MissingResource)
  : svc DaemonError W A := fun w =>
  let '(response, w) := docker_request r missing w in
  (response ← response; match pick response with Some a => Ok a | None => unexpected response end, w).

(** *** System *)
Definition system_info : svc DaemonError W DockerSystemInfo :=
  expecting (fun r => match r with Resp_SystemInfo v => Some v | _ => None end) Req_SystemInfo Missing_Generic.
Definition overview : svc DaemonError W OverviewData :=
  expecting (fun r => match r with Resp_Overview v => Some v | _ => None end) Req_Overview Missing_Generic.

(** *** Containers *)
Definition list_containers (options : ListContainersOptions) : svc DaemonError W (list ContainerSummary) :=
  expecting (fun r => match r with Resp_Containers v => Some v | _ => None end)
    (Req_ListContainers (lco_all options) (lco_limit options) (lco_search options) (lco_state options)) Missing_Container.
Definition inspect_container (id : text) : svc DaemonError W ContainerDetail :=
  expecting (fun r => match r with Resp_ContainerDetail v => Some v | _ => None end)
    (Req_InspectContainer id) Missing_Container.
Definition create_container (r : CreateContainerRequest) : svc DaemonError W CreateContainerResult :=
  expecting (fun r => match r with Resp_ContainerCreated v => Some v | _ => None end)
    (Req_CreateContainer r) Missing_Container.
Definition start_container (id : text) : svc DaemonError W () := acknowledged (Req_StartContainer id) Missing_Container.
Definition stop_container (id : text) (options : option StopContainerOptions) : svc DaemonError W () :=
  acknowledged (Req_StopContainer id (default StopContainerOptions_default options)) Missing_Container.
Definition restart_container_with_options (id : text) (options : RestartContainerOptions) : svc DaemonError W () :=
  acknowledged (Req_RestartContainer id options) Missing_Container.
Definition kill_container (id : text) : svc DaemonError W () :=
  acknowledged (Req_KillContainer id KillContainerOptions_default) Missing_Container.
Definition pause_container (id : text) : svc DaemonError W () := acknowledged (Req_PauseContainer id) Missing_Container.
Definition unpause_container (id : text) : svc DaemonError W () := acknowledged (Req_UnpauseContainer id) Missing_Container.
Definition remove_container (id : text) (options : RemoveContainerOptions) : svc DaemonError W () :=
  acknowledged (Req_RemoveContainer id options) Missing_Container.
Definition rename_container (id new_name : text) : svc DaemonError W () :=
  acknowledged (Req_RenameContainer id new_name) Missing_Container.
Definition container_stats (id : text) : svc DaemonError W ContainerStats :=
  expecting (fun r => match r with Resp_ContainerStats v => Some v | _ => None end)
    (Req_ContainerStats id) Missing_Container.

(** *** Images *)
Definition list_images (options : ListImagesOptions) : svc DaemonError W (list ImageSummary) :=
  expecting (fun r => match r with Resp_Images v => Some v | _ => None end)
    (Req_ListImages (lio_search options)) Missing_Image.
Definition inspect_image (id : text) : svc DaemonError W ImageDetail :=
  expecting (fun r => match r with Resp_ImageDetail v => Some v | _ => None end) (Req_InspectImage id) Missing_Image.
Definition remove_image (id : text) (options : RemoveImageOptions) : svc DaemonError W (list ImageDeleteResult) :=
  expecting (fun r => match r with Resp_ImagesRemoved v => Some v | _ => None end)
    (Req_RemoveImage id options) Missing_Image.
Definition export_image (id : text) (destination : PathBuf) : svc DaemonError W Z :=
  expecting (fun r => match r with Resp_ExportCompleted _ bytes_written => Some (default 0 bytes_written) | _ => None end)
    (Req_ExportImage id destination) Missing_Image.

(** *** Networks *)
Definition list_networks (options : ListNetworksOptions) : svc DaemonError W (list NetworkSummary) :=
  expecting (fun r => match r with Resp_Networks v => Some v | _ => None end)
    (Req_ListNetworks (lno_search options)) Missing_Network.
Definition inspect_network (id : text) : svc DaemonError W NetworkDetail :=
  expecting (fun r => match r with Resp_NetworkDetail v => Some v | _ => None end)
    (Req_InspectNetwork id) Missing_Network.
Definition create_network (options : CreateNetworkOptions) : svc DaemonError W CreateNetworkResult :=
  expecting (fun r => match r with Resp_NetworkCreated v => Some v | _ => None end)
    (Req_CreateNetwork options) Missing_Network.
Definition remove_network (id : text) : svc DaemonError W () := acknowledged (Req_RemoveNetwork id) Missing_Network.

(** *** Volumes *)
Definition list_volumes (options : ListVolumesOptions) : svc DaemonError W (list VolumeSummary) :=
  expecting (fun r => match r with Resp_Volumes v => Some v | _ => None end)
    (Req_ListVolumes (lvo_search options)) Missing_Volume.
Definition list_all_volumes : svc DaemonError W (list VolumeSummary) := list_volumes {| lvo_search := None |}.
Definition list_volume_summaries : svc DaemonError W (list VolumeSummary) := list_all_volumes.
Definition enrich_usage (names : list text)
  : W → (gmap text (list VolumeContainerReference) * gmap text VolumeUsage) * W := fun w =>
  let '(response, w) := docker_request (Req_EnrichVolumes names) Missing_Volume w in
  (match response with
   | Ok (Resp_VolumesEnriched value) => (list_to_map (ve_references value), list_to_map (ve_usage value))
   | _ => (∅, ∅)
   end, w).
Definition inspect_volume (name : text) : svc DaemonError W VolumeDetail :=
  expecting (fun r => match r with Resp_VolumeDetail v => Some v | _ => None end) (Req_InspectVolume name) Missing_Volume.
Definition create_volume (r : CreateVolumeRequest) : svc DaemonError W VolumeDetail :=
  expecting (fun r => match r with Resp_VolumeDetail v => Some v | _ => None end) (Req_CreateVolume r) Missing_Volume.
Definition remove_volume (name : text) (options : RemoveVolumeOptions) : svc DaemonError W () :=
  acknowledged (Req_RemoveVolume name options) Missing_Volume.
Definition prune_volumes (filters : PruneVolumeFilters) : svc DaemonError W VolumePruneResult :=
  expecting (fun r => match r with Resp_VolumesPruned v => Some v | _ => None end) (Req_PruneVolumes filters) Missing_Volume.

(** The two calls that race with the caller's token: [cancelled] is its winning the race. *)
Definition clone_volume (r : CloneVolumeRequest) (cancelled : bool) : svc DaemonError W VolumeDetail :=
  if cancelled then fun w => (Err Cli_OperationCancelled, w)
  else expecting (fun r => match r with Resp_VolumeDetail v => Some v | _ => None end) (Req_CloneVolume r) Missing_Volume.
Definition export_volume (r : ExportVolumeRequest) (cancelled : bool) : svc DaemonError W () :=
  if cancelled then fun w => (Err Cli_OperationCancelled, w)
  else expecting (fun r => match r with Resp_ExportCompleted _ _ => Some tt | _ => None end) (Req_ExportVolume r) Missing_Volume.

(** *** Compose *)
Definition list_projects : svc DaemonError W (list ContainerGroupSummary) :=
  expecting (fun r => match r with Resp_ComposeProjects v => Some v | _ => None end) Req_ListComposeProjects Missing_Container.
Definition execute_group_targets (group_id : ContainerGroupId) (target_ids : list text) (action : ComposeGroupAction)
  : svc DaemonError W ContainerGroupOperationResult :=
  expecting (fun r => match r with Resp_ComposeOperation v => Some v | _ => None end)
    (Req_ExecuteComposeTargets group_id target_ids (compose_action action)) Missing_Container.
End facade.

(** ** Local and remote calls

    A call of the facade, with the type of its answer. *)
Inductive Call : Type → Type :=
  | Call_system_info : Call DockerSystemInfo
  | Call_overview : Call OverviewData
  | Call_list_containers (options : ListContainersOptions) : Call (list ContainerSummary)
  | Call_inspect_container (id : text) : Call ContainerDetail
  | Call_create_container (r : CreateContainerRequest) : Call CreateContainerResult
  | Call_start_container (id : text) : Call ()
  | Call_stop_container (id : text) (options : option StopContainerOptions) : Call ()
  | Call_restart_container (id : text) (options : RestartContainerOptions) : Call ()
  | Call_kill_container (id : text) : Call ()
  | Call_pause_container (id : text) : Call ()
  | Call_unpause_container (id : text) : Call ()
  | Call_remove_container (id : text) (options : RemoveContainerOptions) : Call ()
  | Call_rename_container (id new_name : text) : Call ()
  | Call_container_stats (id : text) : Call ContainerStats
  | Call_list_images (options : ListImagesOptions) : Call (list ImageSummary)
  | Call_inspect_image (id : text) : Call ImageDetail
  | Call_remove_image (id : text) (options : RemoveImageOptions) : Call (list ImageDeleteResult)
  | Call_export_image (id : text) (destination : PathBuf) : Call Z
  | Call_list_networks (options : ListNetworksOptions) : Call (list NetworkSummary)
  | Call_inspect_network (id : text) : Call NetworkDetail
  | Call_create_network (options : CreateNetworkOptions) : Call CreateNetworkResult
  | Call_remove_network (id : text) : Call ()
  | Call_list_volumes (options : ListVolumesOptions) : Call (list VolumeSummary)
  | Call_enrich_usage (names : list text) : Call (gmap text (list VolumeContainerReference) * gmap text VolumeUsage)
  | Call_inspect_volume (name : text) : Call VolumeDetail
  | Call_create_volume (r : CreateVolumeRequest) : Call VolumeDetail
  | Call_remove_volume (name : text) (options : RemoveVolumeOptions) : Call ()
  | Call_prune_volumes (filters : PruneVolumeFilters) : Call VolumePruneResult
  | Call_clone_volume (r : CloneVolumeRequest) : Call VolumeDetail
  | Call_export_volume (r : ExportVolumeRequest) : Call ()
  | Call_list_projects : Call (list ContainerGroupSummary)
  | Call_execute_group_targets (group_id : ContainerGroupId) (target_ids : list text) (action : ComposeGroupAction)
    : Call ContainerGroupOperationResult.

(** The kind of resource a call misses when it is not found. *)
Definition missing_of {A} (c : Call A) : MissingResource :=
  match c with
  | Call_system_info | Call_overview => Missing_Generic
  | Call_list_images _ | Call_inspect_image _ | Call_remove_image _ _ | Call_export_image _ _ => Missing_Image
  | Call_list_networks _ | Call_inspect_network _ | Call_create_network _ | Call_remove_network _ => Missing_Network
  | Call_list_volumes _ | Call_enrich_usage _ | Call_inspect_volume _ | Call_create_volume _ | Call_remove_volume _ _
  | Call_prune_volumes _ | Call_clone_volume _ | Call_export_volume _ => Missing_Volume
  | _ => Missing_Container
  end.

Section remote.
  Context {W T : Type} `{!DockerServices W, !ExportFs W, !DaemonOps W T, !HashOrder}.
  Context (debug_response : Response → text) (debug_docker : DockerResponse → text).

(** The specification: the service itself, its error as the daemon reports it. *)
Definition local_call (cancellation : Token) {A} (c : Call A) : svc ProtocolError W A :=
  match c with
  | Call_system_info => docker svc_system_info id
  | Call_overview => docker svc_overview id
  | Call_list_containers options => docker (svc_list_containers options) id
  | Call_inspect_container i => docker (svc_inspect_container i) id
  | Call_create_container r => docker (svc_create_container r) id
  | Call_start_container i => docker (svc_start_container i) id
  | Call_stop_container i options =>
      docker (svc_stop_container i (Some (default StopContainerOptions_default options))) id
  | Call_restart_container i options => docker (svc_restart_container i options) id
  | Call_kill_container i => docker (svc_kill_container i KillContainerOptions_default) id
  | Call_pause_container i => docker (svc_pause_container i) id
  | Call_unpause_container i => docker (svc_unpause_container i) id
  | Call_remove_container i options => docker (svc_remove_container i options) id
  | Call_rename_container i new_name => docker (svc_rename_container i new_name) id
  | Call_container_stats i => docker (svc_container_stats i) id
  | Call_list_images options => docker (svc_list_images options) id
  | Call_inspect_image i => docker (svc_inspect_image i) id
  | Call_remove_image i options => docker (svc_remove_image i options) id
  | Call_export_image i destination => fun w =>
      let '(stream, w) := svc_export_image i w in export_image_locally stream destination cancellation w
  | Call_list_networks options => docker (svc_list_networks options) id
  | Call_inspect_network i => docker (svc_inspect_network i) id
  | Call_create_network options => docker (svc_create_network options) id
  | Call_remove_network i => docker (svc_remove_network i) id
  | Call_list_volumes options => docker (svc_list_volumes options) id
  | Call_enrich_usage names => fun w => let '(maps, w) := svc_enrich_usage names w in (Ok maps, w)
  | Call_inspect_volume name => docker (svc_inspect_volume name) id
  | Call_create_volume r => docker (svc_create_volume r) id
  | Call_remove_volume name options => docker (svc_remove_volume name options) id
  | Call_prune_volumes filters => docker (svc_prune_volumes filters) id
  | Call_clone_volume r => docker (svc_clone_volume r cancellation) id
  | Call_export_volume r => docker (svc_export_volume r cancellation) id
  | Call_list_projects => docker svc_list_projects id
  | Call_execute_group_targets group_id target_ids action =>
      docker (svc_execute_group_targets group_id target_ids action) id
  end.

(** The implementation: the facade over a connection that delivers the request
    as the wire carries it to the daemon and the response back. *)
Definition wire_request (r : Request) : Request := match wire_body (Body_Request r) with Body_Request r => r | _ => r end.
Definition connection (cancellation : Token) (terminals : gmap SubscriptionId T) (r : Request) : svc text W Response := fun w =>
  let '(response, _, w) := dispatch_request (wire_request r) cancellation terminals w in
  (match response with Ok response => Ok response | Err impossible => match impossible with end | Panic site => Panic site end, w).

Definition remote_call (cancellation : Token) (terminals : gmap SubscriptionId T) {A} (c : Call A) : svc DaemonError W A :=
  let send := connection cancellation terminals in
  match c with
  | Call_system_info => system_info send debug_response debug_docker
  | Call_overview => overview send debug_response debug_docker
  | Call_list_containers options => list_containers send debug_response debug_docker options
  | Call_inspect_container i => inspect_container send debug_response debug_docker i
  | Call_create_container r => create_container send debug_response debug_docker r
  | Call_start_container i => start_container send debug_response debug_docker i
  | Call_stop_container i options => stop_container send debug_response debug_docker i options
  | Call_restart_container i options => restart_container_with_options send debug_response debug_docker i options
  | Call_kill_container i => kill_container send debug_response debug_docker i
  | Call_pause_container i => pause_container send debug_response debug_docker i
  | Call_unpause_container i => unpause_container send debug_response debug_docker i
  | Call_remove_container i options => remove_container send debug_response debug_docker i options
  | Call_rename_container i new_name => rename_container send debug_response debug_docker i new_name
  | Call_container_stats i => container_stats send debug_response debug_docker i
  | Call_list_images options => list_images send debug_response debug_docker options
  | Call_inspect_image i => inspect_image send debug_response debug_docker i
  | Call_remove_image i options => remove_image send debug_response debug_docker i options
  | Call_export_image i destination => export_image send debug_response debug_docker i destination
  | Call_list_networks options => list_networks send debug_response debug_docker options
  | Call_inspect_network i => inspect_network send debug_response debug_docker i
  | Call_create_network options => create_network send debug_response debug_docker options
  | Call_remove_network i => remove_network send debug_response debug_docker i
  | Call_list_volumes options => list_volumes send debug_response debug_docker options
  | Call_enrich_usage names => fun w => let '(maps, w) := enrich_usage send debug_response names w in (Ok maps, w)
  | Call_inspect_volume name => inspect_volume send debug_response debug_docker name
  | Call_create_volume r => create_volume send debug_response debug_docker r
  | Call_remove_volume name options => remove_volume send debug_response debug_docker name options
  | Call_prune_volumes filters => prune_volumes send debug_response debug_docker filters
  | Call_clone_volume r => clone_volume send debug_response debug_docker r false
  | Call_export_volume r => export_volume send debug_response debug_docker r false
  | Call_list_projects => list_projects send debug_response debug_docker
  | Call_execute_group_targets group_id target_ids action =>
      execute_group_targets send debug_response debug_docker group_id target_ids action
  end.

(** *** Refinement *)
Definition translated {A} (missing : MissingResource) (outcome : result ProtocolError A * W) : result DaemonError A * W :=
  (map_error (fun e => client_protocol_error e missing) (fst outcome), snd outcome).

(** A request the wire does not change is answered by the dispatch. *)
Lemma docker_request_dispatch cancellation terminals r missing w :
  wire_request (Request_Docker r) = Request_Docker r →
  docker_request (connection cancellation terminals) debug_response r missing w
  = translated missing (dispatch_docker r cancellation w).
Proof.
  intros Hwire. unfold docker_request, connection, translated. rewrite Hwire. unfold dispatch_request. cbn [dispatch_inner].
  by destruct (dispatch_docker r cancellation w) as [[response|error|site] w'].
Qed.

Lemma expecting_docker {A B} (call : svc DockerError W B) (respond : B → DockerResponse) (pick : DockerResponse → option A)
    (f : B → A) cancellation terminals r missing w :
  wire_request (Request_Docker r) = Request_Docker r →
  dispatch_docker r cancellation = docker call respond → (∀ b, pick (respond b) = Some (f b)) →
  expecting (connection cancellation terminals) debug_response debug_docker pick r missing w
  = translated missing (docker call f w).
Proof.
  intros Hwire Hd Hpick. unfold expecting. rewrite docker_request_dispatch, Hd by done. unfold docker, translated.
  destruct (call w) as [[b|error|site] w']; cbn; [by rewrite Hpick | done..].
Qed.

Lemma acknowledged_docker (call : svc DockerError W ()) cancellation terminals r missing w :
  wire_request (Request_Docker r) = Request_Docker r → dispatch_docker r cancellation = docker call acknowledge →
  acknowledged (connection cancellation terminals) debug_response debug_docker r missing w
  = translated missing (docker call id w).
Proof.
  intros Hwire Hd. unfold acknowledged. rewrite docker_request_dispatch, Hd by done. unfold docker, translated.
  by destruct (call w) as [[[]|error|site] w'].
Qed.

Lemma list_to_map_hash_order {A} (m : gmap text A) : list_to_map (hash_order (map_to_list m)) = m.
Proof.
  rewrite <- (list_to_map_to_list m) at 2. apply list_to_map_proper; [| apply hash_order_perm].
  rewrite hash_order_perm. apply NoDup_fst_map_to_list.
Qed.

(** C11: every call of the client's services, sent to the daemon and dispatched
    there, does what the called service does and returns what it returns, with
    a failure translated for the kind of resource the call is about; no call
    is ever answered with a response of the wrong kind. *)
Theorem remote_refines_local cancellation terminals {A} (c : Call A) w :
  remote_call cancellation terminals c w = translated (missing_of c) (local_call cancellation c w).
Proof.
  destruct c; cbn [remote_call local_call missing_of]; try destruct options;
    first [by eapply acknowledged_docker | by (eapply expecting_docker; reflexivity) | idtac].
  - unfold export_image, expecting. rewrite docker_request_dispatch by done. cbn [dispatch_docker].
    destruct (svc_export_image id w) as [stream w1]. unfold translated.
    by destruct (export_image_locally stream destination cancellation w1) as [[n|e|site] w2].
  - unfold enrich_usage. rewrite docker_request_dispatch by done. cbn [dispatch_docker].
    destruct (svc_enrich_usage names w) as [[references usage] w1]. cbn -[list_to_map]. by rewrite !list_to_map_hash_order.
  - eapply expecting_docker; [reflexivity.. | by intros []].
  - destruct action; by (eapply expecting_docker; reflexivity).
Qed.
End remote.
