(* ===== verification/Session.v ===== *)
(** One client connection of the daemon (crates/tuxstack-daemon/src/ipc.rs):
    the handshake, the connection loop of [serve_client] with the request and
    subscription tasks it spawns, and the terminal registry.

    The loop, the tasks and the channels between them are one state; a label
    says which of them moves, so that an interleaving is a list of labels.  The
    outcome of a bounded send (delivered, or timed out or closed) is part of
    the label. *)

From S2P Require Import Prelude Path Numbers Text Domain Compose CreateContainer Protocol Frame DockerError Export Services.

Local Open Scope Z_scope.

Definition REQUEST_DONE_QUEUE : Z := 64.
Definition SUBSCRIPTION_DONE_QUEUE : Z := 32.
Definition MAX_CLIENT_REQUESTS : Z := 64.
Definition MAX_CLIENT_SUBSCRIPTIONS : Z := 32.
Definition MAX_CLIENT_STREAM_TASKS : Z := 32.
Definition MAX_SUBSCRIPTION_MEMBERS : Z := 16.
Definition MAX_TERMINAL_SESSIONS_TOTAL : Z := 32.
Definition MAX_TERMINAL_SESSIONS_PER_CONTAINER : Z := 8.

(** ** Handshake *)
Definition server_features : FeatureFlags :=
  ff_union (ff_union ff_SUBSCRIPTIONS ff_REQUEST_CANCELLATION) ff_RESOURCE_DESCRIPTORS.

Definition rejection (daemon_version message : text) : ProtocolEnvelope :=
  ProtocolEnvelope_new 0 (Body_Rejected {|
    hr_code := UnsupportedProtocol; hr_message := message; hr_daemon_version := daemon_version;
    hr_supported_protocol_versions := [PROTOCOL_VERSION] |}).

(** The answer to the first frame, and the frame limit of an accepted client. *)
Definition handshake (daemon_version : text) (hello : ProtocolEnvelope) : ProtocolEnvelope * option Z :=
  match body hello with
  | Body_Hello client =>
      if negb (request_id hello =? 0)
      then (rejection daemon_version (bytes "first frame must be Hello with request ID zero"), None)
      else if negb (existsb (Z.eqb PROTOCOL_VERSION) (ch_supported_protocol_versions client)) || (ch_max_frame_size client =? 0)
      then (rejection daemon_version (bytes "no compatible protocol version"), None)
      else
        let maximum := Z.min (ch_max_frame_size client) MAX_FRAME_SIZE in
        (ProtocolEnvelope_new 0 (Body_Accepted {|
           sh_daemon_version := daemon_version; sh_negotiated_protocol_version := PROTOCOL_VERSION;
           sh_feature_flags := server_features; sh_max_frame_size := maximum |}), Some maximum)
  | _ => (rejection daemon_version (bytes "first frame must be Hello with request ID zero"), None)
  end.

(** ** Validation of subscriptions *)
Definition validate_terminal_option (user workdir : option text) : result ProtocolError () :=
  if match user with Some value => is_empty value || has_nul value | None => false end
     || match workdir with
        | Some value => is_empty value || has_nul value || negb (starts_with value (bytes "/"))
        | None => false
        end
  then Err (protocol_error Code_InvalidRequest (bytes "terminal user and workdir options are invalid") false)
  else Ok tt.

Definition member_cost (container_ids : list text) : result ProtocolError Z :=
  if is_empty container_ids
  then Err (protocol_error Code_InvalidRequest (bytes "at least one container ID is required") false)
  else if len container_ids >? MAX_SUBSCRIPTION_MEMBERS
  then Err (protocol_error Code_InvalidRequest (bytes "too many container IDs in one subscription") false)
  else if existsb (fun i => is_empty (trim i)) container_ids
  then Err (protocol_error Code_InvalidRequest (bytes "container IDs must not be empty") false)
  else Ok (len container_ids).

Definition subscription_task_cost (subscription : SubscriptionRequest) : result ProtocolError Z :=
  match subscription with
  | Sub_ContainerStats container_ids | Sub_ContainerLogs container_ids _ => member_cost container_ids
  | Sub_ContainerTerminal container_id rows cols _ user workdir =>
      if is_empty (trim container_id)
      then Err (protocol_error Code_InvalidRequest (bytes "container ID must not be empty") false)
      else
        _ ← validate_terminal_size rows cols;
        _ ← validate_terminal_option user workdir;
        Ok 1
  | _ => Ok 1
  end.

(** ** The connection *)
Record SubscriptionControl := { sc_task_cost : Z }.

(** The loop's variables, the running tasks, the completion channels and what
    has been put on the outbound channel so far.  A request's token is whether
    it was cancelled; the tokens of removed subscriptions are all cancelled. *)
Record Session := mkSession {
  requests : gmap RequestId bool;
  subscriptions : gmap SubscriptionId SubscriptionControl;
  subscription_tasks : Z;
  next_subscription_id : Z;
  request_tasks : list RequestId;
  request_done : list RequestId;
  subscription_running : list SubscriptionId;
  subscription_done : list SubscriptionId;
  outbound : list ProtocolEnvelope;
}.

Definition session_new : Session :=
  {| requests := ∅; subscriptions := ∅; subscription_tasks := 0; next_subscription_id := 1;
     request_tasks := []; request_done := []; subscription_running := []; subscription_done := []; outbound := [] |}.

Inductive IpcError : Type :=
  | Ipc_Io (message : text)
  | Ipc_Frame (error : FrameError)
  | Ipc_Closed
  | Ipc_Backpressure.
(** What ends the loop early: an IPC error, or a message only a server may send. *)
Inductive ConnectionError : Type := Conn_Ipc (error : IpcError) | Conn_Unexpected.

Definition set_requests f s :=
  mkSession (f (requests s)) (subscriptions s) (subscription_tasks s) (next_subscription_id s) (request_tasks s)
    (request_done s) (subscription_running s) (subscription_done s) (outbound s).
Definition set_subscriptions f t s :=
  mkSession (requests s) (f (subscriptions s)) t (next_subscription_id s) (request_tasks s)
    (request_done s) (subscription_running s) (subscription_done s) (outbound s).
Definition set_next n s :=
  mkSession (requests s) (subscriptions s) (subscription_tasks s) n (request_tasks s)
    (request_done s) (subscription_running s) (subscription_done s) (outbound s).
Definition set_tasks tasks done_ s :=
  mkSession (requests s) (subscriptions s) (subscription_tasks s) (next_subscription_id s) tasks
    done_ (subscription_running s) (subscription_done s) (outbound s).
Definition set_running running done_ s :=
  mkSession (requests s) (subscriptions s) (subscription_tasks s) (next_subscription_id s) (request_tasks s)
    (request_done s) running done_ (outbound s).
Definition push_outbound e s :=
  mkSession (requests s) (subscriptions s) (subscription_tasks s) (next_subscription_id s) (request_tasks s)
    (request_done s) (subscription_running s) (subscription_done s) (outbound s ++ [e]).

(** [send_envelope]: the envelope is queued, or the connection fails. *)
Definition send_envelope (sent : option IpcError) (e : ProtocolEnvelope) (s : Session) : result ConnectionError Session :=
  match sent with None => Ok (push_outbound e s) | Some error => Err (Conn_Ipc error) end.
Definition send_response (sent : option IpcError) (id : RequestId) (response : Response) : Session → result ConnectionError Session :=
  send_envelope sent (ProtocolEnvelope_new id (Body_Response response)).

(** [next_subscription_id.wrapping_add(1).max(1)] and the search for an unused identifier. *)
Definition bump (n : Z) : Z := Z.max (wrapping_add 64 n 1) 1.
Fixpoint unused_id (fuel : nat) (m : gmap SubscriptionId SubscriptionControl) (n : Z) : Z :=
  match fuel with
  | O => n
  | S fuel => match m !! n with Some _ => unused_id fuel m (bump n) | None => n end
  end.

Definition busy (message : text) : Response := Response_Error (protocol_error Code_ResourceBusy message true).

(** The body of the loop for one envelope of the client. *)
Definition handle_request (id : RequestId) (sent : option IpcError) (s : Session) : result ConnectionError Session :=
  let full := Z.of_nat (size (requests s)) >=? MAX_CLIENT_REQUESTS in
  if (id =? 0) || bool_decide (is_Some (requests s !! id)) || full then
    send_response sent id
      (if full then busy (bytes "per-client request limit reached")
       else Response_Error (protocol_error Code_InvalidRequest (bytes "request ID must be nonzero and unique while active") false))
      s
  else Ok (set_tasks (request_tasks s ++ [id]) (request_done s) (set_requests (insert id false) s)).

Definition remove_subscription (id : SubscriptionId) (s : Session) : Session :=
  match subscriptions s !! id with
  | Some control => set_subscriptions (delete id) (saturating_sub (subscription_tasks s) (sc_task_cost control)) s
  | None => s
  end.

Definition handle_subscribe (id : RequestId) (subscription : SubscriptionRequest) (sent : option IpcError) (s : Session)
  : result ConnectionError Session :=
  match subscription_task_cost subscription with
  | Err error => send_response sent id (Response_Error error) s
  | Panic site => Panic site
  | Ok task_cost =>
      if (Z.of_nat (size (subscriptions s)) >=? MAX_CLIENT_SUBSCRIPTIONS)
         || (saturating_add usize_max (subscription_tasks s) task_cost >? MAX_CLIENT_STREAM_TASKS)
      then send_response sent id (busy (bytes "per-client subscription limit reached")) s
      else
        let new_id := unused_id (S (size (subscriptions s))) (subscriptions s) (next_subscription_id s) in
        let s := set_next (bump new_id) s in
        let s := set_subscriptions (insert new_id {| sc_task_cost := task_cost |}) (subscription_tasks s + task_cost) s in
        s ← send_envelope sent (ProtocolEnvelope_new id (Body_Subscribed {| sa_subscription_id := new_id |})) s;
        Ok (set_running (subscription_running s ++ [new_id]) (subscription_done s) s)
  end.

Definition handle_envelope (e : ProtocolEnvelope) (sent : option IpcError) (s : Session) : result ConnectionError Session :=
  let id := request_id e in
  match body e with
  | Body_Request _ => handle_request id sent s
  | Body_CancelRequest cancelled =>
      Ok (set_requests (fun m => match m !! cancelled with Some _ => <[cancelled := true]> m | None => m end) s)
  | Body_Subscribe subscription => handle_subscribe id subscription sent s
  | Body_Unsubscribe subscription_id => send_response sent id Response_Acknowledged (remove_subscription subscription_id s)
  | Body_Ping => send_envelope sent (ProtocolEnvelope_new id Body_Pong) s
  | _ => Err Conn_Unexpected
  end.

(** *** Tasks

    A request task answers once, with the response of the dispatch or, when its
    token fired, with the cancellation; then it reports that it is done.  A
    subscription task sends events until its token fires (for an unsubscribed
    one it has), then the end of the subscription, then reports; its failed
    sends are ignored. *)
Definition cancelled_response : Response :=
  Response_Error (protocol_error Code_Cancelled (bytes "request cancelled") true).

Fixpoint remove_first (k : Z) (l : list Z) : option (list Z) :=
  match l with
  | [] => None
  | a :: l => if decide (a = k) then Some l else cons a <$> remove_first k l
  end.

Definition try_send (delivered : bool) (e : ProtocolEnvelope) (s : Session) : Session :=
  if delivered then push_outbound e s else s.

Inductive Label : Type :=
  | Frame (e : ProtocolEnvelope) (sent : option IpcError)
  | RequestFinished
  | SubscriptionFinished
  | Respond (id : RequestId) (response : Response) (delivered : bool)
  | RespondCancelled (id : RequestId) (delivered : bool)
  | Emit (event : ServerEvent) (delivered : bool)
  | EndSubscription (id : SubscriptionId) (reason : SubscriptionEndReason) (delivered : bool).

Definition finish_request (id : RequestId) (response : Response) (delivered : bool) (s : Session) : option Session :=
  tasks ← remove_first id (request_tasks s);
  Some (try_send delivered (ProtocolEnvelope_new id (Body_Response response)) (set_tasks tasks (request_done s ++ [id]) s)).

Definition event_envelope (event : ServerEvent) : ProtocolEnvelope := ProtocolEnvelope_new 0 (Body_Event event).
Definition is_end (event : ServerEvent) : bool := match event with Event_SubscriptionEnded _ _ => true | _ => false end.

(** One step, where the label can happen; [None] where it cannot or ends the connection. *)
Definition step (l : Label) (s : Session) : option Session :=
  match l with
  | Frame e sent => match handle_envelope e sent s with Ok s => Some s | _ => None end
  | RequestFinished =>
      match request_done s with
      | id :: rest => Some (set_tasks (request_tasks s) rest (set_requests (delete id) s))
      | [] => None
      end
  | SubscriptionFinished =>
      match subscription_done s with
      | id :: rest => Some (remove_subscription id (set_running (subscription_running s) rest s))
      | [] => None
      end
  | Respond id response delivered => finish_request id response delivered s
  | RespondCancelled id delivered =>
      match requests s !! id with Some true => finish_request id cancelled_response delivered s | _ => None end
  | Emit event delivered =>
      if bool_decide (event_subscription_id event ∈ subscription_running s)
         && bool_decide (is_Some (subscriptions s !! event_subscription_id event)) && negb (is_end event)
      then Some (try_send delivered (event_envelope event) s) else None
  | EndSubscription id reason delivered =>
      running ← remove_first id (subscription_running s);
      Some (try_send delivered (event_envelope (Event_SubscriptionEnded id reason))
              (set_running running (subscription_done s ++ [id]) s))
  end.

Fixpoint run (ls : list Label) (s : Session) : option Session :=
  match ls with [] => Some s | l :: ls => s ← step l s; run ls s end.

(** ** Fresh identifiers *)
Lemma bump_range n : 1 ≤ n ≤ u64_max → 1 ≤ bump n ≤ u64_max ∧ bump n = if n =? u64_max then 1 else n + 1.
Proof.
  intros Hn. unfold bump, wrapping_add, u64_max in *. destruct (Z.eqb_spec n (2 ^ 64 - 1)) as [->|Hne]; [done |].
  rewrite Z.mod_small by lia. lia.
Qed.

Fixpoint bumps (k : nat) (n : Z) : Z := match k with O => n | S k => bumps k (bump n) end.

Lemma bumps_value k n :
  1 ≤ n ≤ u64_max → Z.of_nat k < u64_max →
  1 ≤ bumps k n ≤ u64_max ∧ bumps k n = if n + Z.of_nat k <=? u64_max then n + Z.of_nat k else n + Z.of_nat k - u64_max.
Proof.
  revert n. induction k as [|k IH]; intros n Hn Hk; cbn [bumps].
  { rewrite Z.add_0_r. destruct (Z.leb_spec n u64_max); lia. }
  destruct (bump_range n Hn) as [Hr Hb]. destruct (IH (bump n) Hr ltac:(lia)) as [H1 H2]. split; [done |].
  rewrite H2, Hb. destruct (Z.eqb_spec n u64_max); repeat case_match; rewrite ?Z.leb_le, ?Z.leb_gt in *; lia.
Qed.

Lemma unused_id_found fuel m n :
  (∃ k, (k < fuel)%nat ∧ m !! bumps k n = None) →
  ∃ k, (k < fuel)%nat ∧ unused_id fuel m n = bumps k n ∧ m !! unused_id fuel m n = None.
Proof.
  revert n. induction fuel as [|fuel IH]; intros n (k & Hk & Hnone); [lia |]. cbn [unused_id].
  destruct (m !! n) eqn:E; [| exists O; split_and!; [lia | done | done]].
  destruct k as [|k]; [cbn in Hnone; congruence |].
  destruct (IH (bump n)) as (k' & Hk' & Hv & Hn'); [exists k; split; [lia | done] |].
  exists (S k'). split_and!; [lia | done | done].
Qed.

(** The search for an identifier ends on one that is not in use. *)
Lemma unused_id_spec m n :
  1 ≤ n ≤ u64_max → Z.of_nat (size m) < u64_max - 1 →
  m !! unused_id (S (size m)) m n = None ∧ 1 ≤ unused_id (S (size m)) m n ≤ u64_max.
Proof.
  intros Hn Hsize.
  assert (∃ k, (k < S (size m))%nat ∧ m !! bumps k n = None) as (k & Hk & Hfree).
  { destruct (decide (Forall (fun k => is_Some (m !! bumps k n)) (seq 0 (S (size m))))) as [Hall|Hsome].
    - exfalso. rewrite list.Forall_forall in Hall.
      assert (NoDup ((fun k => bumps k n) <$> seq 0 (S (size m)))) as Hnd.
      { apply NoDup_fmap_2_strong; [| apply NoDup_seq]. intros x y Hx%elem_of_seq Hy%elem_of_seq Heq.
        destruct (bumps_value x n Hn ltac:(lia)) as [_ Ex]. destruct (bumps_value y n Hn ltac:(lia)) as [_ Ey].
        rewrite Ex, Ey in Heq. repeat case_match; rewrite ?Z.leb_le, ?Z.leb_gt in *; lia. }
      assert (size (list_to_set ((fun k => bumps k n) <$> seq 0 (S (size m))) : gset Z) ≤ size (dom m))%nat as Hle.
      { apply subseteq_size. intros i Hi. apply elem_of_list_to_set, list_elem_of_fmap in Hi as (k & -> & Hk).
        apply elem_of_dom. by apply Hall. }
      rewrite size_list_to_set, length_fmap, length_seq, size_dom in Hle by done. lia.
    - apply not_Forall_Exists in Hsome; [| apply _]. apply list.Exists_exists in Hsome as (k & Hk & Hnone).
      apply elem_of_seq in Hk. exists k. split; [lia |]. by apply eq_None_not_Some. }
  destruct (unused_id_found (S (size m)) m n) as (k' & Hk' & Hv & Hnone); [eauto |]. split; [done |].
  rewrite Hv. apply bumps_value; lia.
Qed.

(** ** The invariant *)
Record session_ok (s : Session) : Prop := {
  ok_requests i : is_Some (requests s !! i) ↔ i ∈ request_tasks s ++ request_done s;
  ok_nodup : NoDup (request_tasks s ++ request_done s);
  ok_nonzero : requests s !! 0 = None;
  ok_request_limit : Z.of_nat (size (requests s)) ≤ MAX_CLIENT_REQUESTS;
  ok_tasks : subscription_tasks s = map_sum sc_task_cost (subscriptions s);
  ok_costs : map_Forall (fun _ c => 1 ≤ sc_task_cost c ≤ MAX_SUBSCRIPTION_MEMBERS) (subscriptions s);
  ok_task_limit : subscription_tasks s ≤ MAX_CLIENT_STREAM_TASKS;
  ok_ids i : is_Some (subscriptions s !! i) → 1 ≤ i ≤ u64_max;
  ok_next : 1 ≤ next_subscription_id s ≤ u64_max;
  ok_alive i : is_Some (subscriptions s !! i) → i ∈ subscription_running s ++ subscription_done s;
}.

Lemma session_new_ok : session_ok session_new.
Proof.
  split; cbn; try done.
  - intros i. rewrite lookup_empty. split; [by intros [] | by intros ?%not_elem_of_nil].
  - constructor.
  - intros i [? Hi]. by rewrite lookup_empty in Hi.
  - intros i [? Hi]. by rewrite lookup_empty in Hi.
Qed.

Lemma remove_first_perm k l l' : remove_first k l = Some l' → l ≡ₚ k :: l'.
Proof.
  revert l'. induction l as [|a l IH]; intros l'; cbn; [done |]. case_decide as Hk.
  - intros [= <-]. by rewrite Hk.
  - destruct (remove_first k l) as [l1|]; [| done]. intros [= <-]. rewrite (IH l1 eq_refl). apply Permutation_swap.
Qed.
Lemma remove_first_is_Some k l : k ∈ l → is_Some (remove_first k l).
Proof.
  induction l as [|a l IH]; [by intros ?%not_elem_of_nil |]. cbn. intros [->|Hk]%elem_of_cons; [by rewrite decide_True |].
  case_decide; [done |]. destruct (IH Hk) as [? ->]. done.
Qed.

Lemma push_outbound_ok e s : session_ok s → session_ok (push_outbound e s).
Proof. intros []. by split. Qed.
Lemma try_send_ok b e s : session_ok s → session_ok (try_send b e s).
Proof. destruct b; [apply push_outbound_ok | done]. Qed.
Lemma send_envelope_ok sent e s s' : session_ok s → send_envelope sent e s = Ok s' → session_ok s' ∧ s' = push_outbound e s.
Proof. intros Hok. destruct sent; [done |]. intros [= <-]. split; [by apply push_outbound_ok | done]. Qed.

Lemma request_count s : session_ok s → size (requests s) = length (request_tasks s ++ request_done s).
Proof.
  intros [Hreq Hnd]. rewrite <- size_dom, <- (size_list_to_set (C := gset Z)) by done. f_equal. apply set_eq. intros i.
  by rewrite elem_of_dom, Hreq, elem_of_list_to_set.
Qed.

Lemma subscription_count s : session_ok s → Z.of_nat (size (subscriptions s)) ≤ subscription_tasks s.
Proof.
  intros Hok. rewrite (ok_tasks s Hok). pose proof (ok_costs s Hok) as Hc. revert Hc. generalize (subscriptions s). clear.
  intros m. induction m as [|i c m Hi IH] using map_ind; intros Hc; [done |].
  rewrite map_size_insert_None, map_sum_insert_new by done.
  pose proof (map_Forall_insert_1_1 _ _ _ _ Hc) as Hc1. cbn beta in Hc1. apply map_Forall_insert_1_2 in Hc; [| done]. specialize (IH Hc). lia.
Qed.

Lemma task_cost_range subscription c :
  subscription_task_cost subscription = Ok c → 1 ≤ c ≤ MAX_SUBSCRIPTION_MEMBERS.
Proof.
  assert (∀ ids, member_cost ids = Ok c → 1 ≤ c ≤ MAX_SUBSCRIPTION_MEMBERS) as Hm.
  { intros ids. unfold member_cost. destruct ids as [|i ids]; [done |]. cbn [is_empty]. rewrite Z.gtb_ltb.
    destruct (Z.ltb_spec MAX_SUBSCRIPTION_MEMBERS (len (i :: ids))); [done |]. destruct (existsb _ _); [done |].
    intros [= <-]. rewrite len_cons in *. pose proof (len_nonneg ids). lia. }
  unfold MAX_SUBSCRIPTION_MEMBERS in *. destruct subscription; cbn; try (by intros [= <-]); try apply Hm.
  destruct (is_empty _); [done |]. rewrite bind_Ok. intros (? & _ & H). apply bind_Ok in H as (? & _ & [= <-]). lia.
Qed.

Lemma handle_request_ok id sent s s' : session_ok s → handle_request id sent s = Ok s' → session_ok s'.
Proof.
  intros Hok. unfold handle_request, send_response. cbv zeta. case_match eqn:Hc.
  { intros [? _]%send_envelope_ok; done. }
  rewrite !orb_false_iff, Z.eqb_neq, bool_decide_eq_false, Z.geb_leb, Z.leb_gt in Hc. destruct Hc as [[H0 Hnew] Hfull].
  apply eq_None_not_Some in Hnew. intros [= <-].
  assert (id ∉ request_tasks s ++ request_done s) as Hid.
  { rewrite <- (ok_requests s Hok), Hnew. by intros []. }
  destruct Hok as [Hreq Hnd Hz Hl]. split; cbn; try done.
  - intros i. rewrite <- (assoc_L (++)), !elem_of_app, elem_of_cons, elem_of_nil in *.
    destruct (decide (i = id)) as [->|Hne]; [rewrite lookup_insert_eq; split; [tauto | done] |].
    rewrite lookup_insert_ne by done. rewrite Hreq, elem_of_app. tauto.
  - rewrite <- (assoc_L (++)). cbn [app]. rewrite <- Permutation_middle. by apply NoDup_cons_2.
  - by rewrite lookup_insert_ne.
  - rewrite map_size_insert_None by done. lia.
Qed.

Lemma remove_subscription_ok id s :
  session_ok s → session_ok (remove_subscription id s) ∧ outbound (remove_subscription id s) = outbound s.
Proof.
  intros Hok. unfold remove_subscription. destruct (subscriptions s !! id) as [c|] eqn:Hid; [| done]. split; [| done].
  assert (0 ≤ map_sum sc_task_cost (delete id (subscriptions s))) as Hrest.
  { apply map_sum_nonneg. apply map_Forall_delete. eapply map_Forall_impl; [apply (ok_costs s Hok) |]. cbn. lia. }
  pose proof (map_sum_delete sc_task_cost (subscriptions s) id c Hid) as Hsum.
  pose proof (ok_costs s Hok _ _ Hid) as Hc. cbn in Hc. destruct Hok as [? ? ? ? Ht ? Hlim Hids ? Halive].
  split; cbn; try done; unfold saturating_sub.
  - rewrite Ht, Hsum. lia.
  - by apply map_Forall_delete.
  - lia.
  - intros i [x [_ Hx]%lookup_delete_Some]. eauto.
  - intros i [x [_ Hx]%lookup_delete_Some]. eauto.
Qed.

Lemma handle_subscribe_ok id subscription sent s s' :
  session_ok s → handle_subscribe id subscription sent s = Ok s' → session_ok s'.
Proof.
  intros Hok. unfold handle_subscribe, send_response. destruct (subscription_task_cost subscription) as [c|e|site] eqn:Hc; [| | done].
  2: { intros [? _]%send_envelope_ok; done. }
  case_match eqn:Hb; [intros [? _]%send_envelope_ok; done |]. apply task_cost_range in Hc.
  rewrite orb_false_iff, Z.geb_leb, Z.leb_gt, Z.gtb_ltb, Z.ltb_ge in Hb. destruct Hb as [Hsize Hlimit]. cbv zeta.
  pose proof (subscription_count s Hok) as Hcount. destruct Hok as [H1 H2 H3 H4 Ht Hcosts Hlim Hids Hnext Halive].
  assert (saturating_add usize_max (subscription_tasks s) c = subscription_tasks s + c) as Hadd.
  { unfold saturating_add, usize_max, MAX_CLIENT_STREAM_TASKS, MAX_SUBSCRIPTION_MEMBERS in *. lia. }
  rewrite Hadd in Hlimit.
  destruct (unused_id_spec (subscriptions s) (next_subscription_id s) Hnext) as [Hfresh Hrange].
  { unfold u64_max, MAX_CLIENT_STREAM_TASKS in *. lia. }
  set (new := unused_id _ _ _) in *. rewrite bind_Ok. intros (s1 & Hs1 & [= <-]).
  destruct sent; [done |]. injection Hs1 as <-. cbn.
  split; cbn; try done.
  - rewrite map_sum_insert_new, Ht by done. cbn. lia.
  - apply map_Forall_insert_2; done.
  - intros i Hi. destruct (decide (i = new)) as [->|Hne]; [done |]. rewrite lookup_insert_ne in Hi by done. by apply Hids.
  - by apply bump_range.
  - intros i Hi. rewrite !elem_of_app, elem_of_cons. destruct (decide (i = new)) as [->|Hne]; [tauto |].
    rewrite lookup_insert_ne in Hi by done. apply Halive, elem_of_app in Hi. tauto.
Qed.

Lemma finish_request_ok id response delivered s s' :
  session_ok s → finish_request id response delivered s = Some s' → session_ok s'.
Proof.
  intros Hok. unfold finish_request. destruct (remove_first id (request_tasks s)) as [tasks|] eqn:Hr; cbn; [| done].
  intros [= <-]. apply try_send_ok. apply remove_first_perm in Hr.
  assert (request_tasks s ++ request_done s ≡ₚ tasks ++ request_done s ++ [id]) as Hp.
  { rewrite Hr. cbn. rewrite (assoc_L (++)). apply Permutation_cons_append. }
  destruct Hok as [Hreq Hnd]. split; cbn; try done.
  - intros i. by rewrite Hreq, Hp.
  - by rewrite <- Hp.
Qed.

Lemma handle_envelope_ok e sent s s' : session_ok s → handle_envelope e sent s = Ok s' → session_ok s'.
Proof.
  intros Hok. unfold handle_envelope, send_response. destruct (body e); try done.
  - by apply handle_request_ok.
  - by apply handle_subscribe_ok.
  - destruct (remove_subscription_ok subscription_id s Hok) as [Hok' _]. intros [? _]%send_envelope_ok; done.
  - intros [= <-]. destruct Hok as [Hreq Hnd Hz Hl].
    assert (∀ i, is_Some ((match requests s !! request_id with Some _ => <[request_id:=true]> (requests s) | None => requests s end) !! i)
      ↔ is_Some (requests s !! i)) as Hsame.
    { intros i. destruct (requests s !! request_id) eqn:E; [| done].
      destruct (decide (request_id = i)) as [->|Hne]; [rewrite lookup_insert_eq, E; done | by rewrite lookup_insert_ne]. }
    split; cbn; try done.
    + intros i. by rewrite Hsame, Hreq.
    + apply eq_None_not_Some. rewrite Hsame, Hz. by intros [].
    + destruct (requests s !! request_id) eqn:E; [| done]. by rewrite map_size_insert_Some by eauto.
  - intros [? _]%send_envelope_ok; done.
Qed.

Lemma step_ok l s s' : session_ok s → step l s = Some s' → session_ok s'.
Proof.
  intros Hok. destruct l as [e sent| | |id response d|id d|event d|id reason d]; cbn.
  - destruct (handle_envelope e sent s) eqn:E; try done. intros [= <-]. by eapply handle_envelope_ok.
  - destruct (request_done s) as [|id rest] eqn:Hd; [done |]. intros [= <-].
    destruct Hok as [Hreq Hnd Hz Hl]. rewrite Hd in *.
    rewrite <- Permutation_middle in Hnd. apply list.NoDup_cons in Hnd as [Hid Hnd].
    split; cbn; try done.
    + intros i. rewrite lookup_delete_is_Some, Hreq, <- Permutation_middle, elem_of_cons. split.
      * intros [Hne [->|?]]; [congruence | done].
      * intros Hi. split; [intros ->; done | by right].
    + by apply lookup_delete_None; right.
    + etransitivity; [apply inj_le, size_delete_le | exact Hl].
  - destruct (subscription_done s) as [|id rest] eqn:Hd; [done |]. intros [= <-].
    unfold remove_subscription. cbn [subscriptions set_running subscription_tasks].
    destruct (remove_subscription_ok id s Hok) as [Hrm _]. revert Hrm. unfold remove_subscription.
    destruct (subscriptions s !! id) as [c|] eqn:Hid.
    + intros [? ? ? ? ? ? ? ? ? Halive]. cbn in *. split; cbn; try done.
      intros i Hi. pose proof (Halive i Hi) as Ha. rewrite Hd, elem_of_app, elem_of_cons in Ha.
      rewrite elem_of_app. destruct Ha as [?|[->|?]]; [by left | | by right].
      exfalso. rewrite lookup_delete_eq in Hi. by destruct Hi.
    + intros [? ? ? ? ? ? ? ? ? Halive]. cbn in *. split; cbn; try done.
      intros i Hi. pose proof (Halive i Hi) as Ha. rewrite Hd, elem_of_app, elem_of_cons in Ha.
      rewrite elem_of_app. destruct Ha as [?|[->|?]]; [by left | | by right].
      exfalso. rewrite Hid in Hi. by destruct Hi.
  - by apply finish_request_ok.
  - destruct (requests s !! id) as [[|]|]; try done. by apply finish_request_ok.
  - case_match; [| done]. intros [= <-]. by apply try_send_ok.
  - destruct (remove_first id (subscription_running s)) as [running|] eqn:Hr; cbn; [| done]. intros [= <-].
    apply try_send_ok. apply remove_first_perm in Hr. destruct Hok as [? ? ? ? ? ? ? ? ? Halive]. split; cbn; try done.
    intros i Hi%Halive. rewrite Hr in Hi. rewrite !elem_of_app, !elem_of_cons in *. tauto.
Qed.

Lemma run_ok ls s s' : session_ok s → run ls s = Some s' → session_ok s'.
Proof.
  revert s. induction ls as [|l ls IH]; intros s Hok; cbn; [by intros [= <-] |].
  destruct (step l s) as [s1|] eqn:E; cbn; [| done]. apply IH. by eapply step_ok.
Qed.

(** C33: in every state a connection can reach, at most 64 requests and 32
    subscriptions are active, the task counter is the sum of the active
    subscriptions' costs and at most 32, every active request has exactly one
    task or one completion on its way (so the completion queue never blocks a
    task), identifier zero is never active, and every active subscription still
    has its task or its completion. *)
Theorem session_bounds ls s :
  run ls session_new = Some s →
  Z.of_nat (size (requests s)) ≤ MAX_CLIENT_REQUESTS
  ∧ Z.of_nat (size (subscriptions s)) ≤ MAX_CLIENT_SUBSCRIPTIONS
  ∧ subscription_tasks s = map_sum sc_task_cost (subscriptions s) ∧ subscription_tasks s ≤ MAX_CLIENT_STREAM_TASKS
  ∧ len (request_done s) ≤ REQUEST_DONE_QUEUE
  ∧ requests s !! 0 = None ∧ subscriptions s !! 0 = None
  ∧ (∀ i, is_Some (requests s !! i) ↔ i ∈ request_tasks s ++ request_done s) ∧ NoDup (request_tasks s ++ request_done s)
  ∧ (∀ i, is_Some (subscriptions s !! i) → i ∈ subscription_running s ++ subscription_done s).
Proof.
  intros Hrun. pose proof (run_ok _ _ _ session_new_ok Hrun) as Hok.
  pose proof (subscription_count s Hok) as Hsc. pose proof (request_count s Hok) as Hrc. rewrite length_app in Hrc.
  destruct Hok as [? ? ? Hl ? ? Hlim Hids ? ?]. split_and!; try done.
  - unfold MAX_CLIENT_SUBSCRIPTIONS, MAX_CLIENT_STREAM_TASKS in *. lia.
  - unfold len, REQUEST_DONE_QUEUE, MAX_CLIENT_REQUESTS in *. lia.
  - apply eq_None_not_Some. intros H0%Hids. lia.
Qed.

(** ** Answers *)
Definition is_answerable (b : ProtocolBody) : bool :=
  match b with Body_Request _ | Body_Subscribe _ | Body_Unsubscribe _ | Body_Ping => true | _ => false end.
Definition is_answer (b : ProtocolBody) : bool :=
  match b with Body_Response _ | Body_Subscribed _ | Body_Pong => true | _ => false end.
Definition one (b : bool) : Z := if b then 1 else 0.

(** How often identifier [i] is asked by a label, answered on the channel,
    still being worked on, and lost by a task whose send failed. *)
Definition asked (i : RequestId) (l : Label) : Z :=
  match l with Frame e _ => one (is_answerable (body e) && (request_id e =? i)) | _ => 0 end.
Definition lost (i : RequestId) (l : Label) : Z :=
  match l with Respond id _ false | RespondCancelled id false => one (id =? i) | _ => 0 end.
Fixpoint total {A} (f : A → Z) (l : list A) : Z := match l with [] => 0 | a :: l => f a + total f l end.
Definition answered (i : RequestId) (s : Session) : Z := total (fun e => one (is_answer (body e) && (request_id e =? i))) (outbound s).
Definition pending (i : RequestId) (s : Session) : Z := total (fun id => one (id =? i)) (request_tasks s).

Lemma total_app {A} (f : A → Z) l k : total f (l ++ k) = total f l + total f k.
Proof. induction l as [|a l IH]; cbn; [done | rewrite IH; lia]. Qed.
Lemma total_perm {A} (f : A → Z) l k : l ≡ₚ k → total f l = total f k.
Proof. induction 1; cbn; lia. Qed.
Lemma answered_push i e s : answered i (push_outbound e s) = answered i s + one (is_answer (body e) && (request_id e =? i)).
Proof. unfold answered. cbn. rewrite total_app. cbn. lia. Qed.

Lemma send_conserves i sent e s s' :
  send_envelope sent e s = Ok s' →
  answered i s' + pending i s' = answered i s + pending i s + one (is_answer (body e) && (request_id e =? i)).
Proof. destruct sent; [done |]. intros [= <-]. rewrite answered_push. unfold pending. cbn. lia. Qed.

Lemma finish_conserves i id response d s s' :
  finish_request id response d s = Some s' →
  answered i s' + pending i s' + (if d then 0 else one (id =? i)) = answered i s + pending i s.
Proof.
  unfold finish_request. destruct (remove_first id (request_tasks s)) as [tasks|] eqn:Hr; cbn; [| done]. intros [= <-].
  apply remove_first_perm in Hr. unfold pending. rewrite (total_perm _ _ _ Hr). cbn [total].
  destruct d; cbn [try_send]; [rewrite answered_push; cbn |]; unfold answered; cbn; lia.
Qed.

Lemma handle_conserves i e sent s s' :
  handle_envelope e sent s = Ok s' →
  answered i s' + pending i s' = answered i s + pending i s + one (is_answerable (body e) && (request_id e =? i)).
Proof.
  unfold handle_envelope, send_response. destruct (body e) as [| | |r|r|r| |k| |k| |]; try done.
  - unfold handle_request, send_response. cbv zeta. case_match; [by intros ->%(send_conserves i) |].
    intros [= <-]. unfold answered, pending. cbn. rewrite total_app. cbn. lia.
  - unfold handle_subscribe, send_response. destruct (subscription_task_cost r); [| by intros ->%(send_conserves i) | done].
    case_match; [by intros ->%(send_conserves i) |]. cbv zeta. rewrite bind_Ok. intros (s1 & Hs & [= <-]).
    apply (send_conserves i) in Hs. unfold answered, pending in *. cbn in *. lia.
  - intros ->%(send_conserves i). unfold remove_subscription. by case_match.
  - intros [= <-]. unfold answered, pending. cbn. lia.
  - by intros ->%(send_conserves i).
Qed.

Lemma step_conserves i l s s' :
  step l s = Some s' → answered i s' + pending i s' + lost i l = answered i s + pending i s + asked i l.
Proof.
  destruct l as [e sent| | |id response d|id d|event d|id reason d]; cbn [step lost asked].
  - destruct (handle_envelope e sent s) eqn:E; try done. intros [= <-]. apply (handle_conserves i) in E. lia.
  - case_match; [done |]. intros [= <-]. unfold answered, pending. cbn. lia.
  - case_match; [done |]. intros [= <-]. unfold remove_subscription. case_match; unfold answered, pending; cbn; lia.
  - intros H%(finish_conserves i). destruct d; lia.
  - case_match; [| done]. case_match; [| done]. intros Hf%(finish_conserves i). destruct d; lia.
  - case_match; [| done]. intros [= <-]. destruct d; cbn [try_send]; [rewrite answered_push |]; unfold answered, pending; cbn; lia.
  - destruct (remove_first id (subscription_running s)); cbn; [| done]. intros [= <-].
    destruct d; cbn [try_send]; [rewrite answered_push |]; unfold answered, pending; cbn; lia.
Qed.

Lemma run_conserves i ls s s' :
  run ls s = Some s' →
  answered i s' + pending i s' + total (lost i) ls = answered i s + pending i s + total (asked i) ls.
Proof.
  revert s. induction ls as [|l ls IH]; intros s; cbn [run total]; [intros [= <-]; lia |].
  destruct (step l s) as [s1|] eqn:E; cbn; [| done]. intros H%IH. apply (step_conserves i) in E. lia.
Qed.

(** C8: on a connection, every request, subscription, unsubscription and ping is
    answered under its identifier exactly once: at any moment the messages
    received with an identifier are as many as the answers sent with it, plus
    the request tasks still working on it, plus the answers a task could not
    deliver.  In particular no answer is ever sent twice or unasked. *)
Theorem answers_exactly_once i ls s :
  run ls session_new = Some s →
  total (asked i) ls = answered i s + pending i s + total (lost i) ls ∧ 0 ≤ pending i s ≤ 1.
Proof.
  intros Hrun. pose proof (run_conserves i _ _ _ Hrun) as H. cbn in H. split; [lia |].
  pose proof (ok_nodup s (run_ok _ _ _ session_new_ok Hrun)) as Hnd. apply list.NoDup_app in Hnd as [Hnd _].
  unfold pending. clear -Hnd. induction Hnd as [|a l Ha Hnd IH]; cbn; [lia |].
  destruct (Z.eqb_spec a i) as [->|Hne]; cbn [one]; [| lia].
  assert (total (fun id => one (id =? i)) l = 0) as ->; [| lia].
  clear -Ha. induction l as [|b l IH]; cbn; [done |]. rewrite not_elem_of_cons in Ha. destruct Ha as [Hb Ha].
  rewrite (proj2 (Z.eqb_neq b i)) by done. cbn. by apply IH.
Qed.

(** ** Events *)
Definition announced (k : SubscriptionId) (out : list ProtocolEnvelope) : Prop :=
  ∃ i, ProtocolEnvelope_new i (Body_Subscribed {| sa_subscription_id := k |}) ∈ out.

Lemma announced_app k out more : announced k out → announced k (out ++ more).
Proof. intros (i & Hi). exists i. apply elem_of_app. by left. Qed.

(** What a step may add to the outbound channel: at most one envelope; an event
    only for a running subscription, which is still registered unless the event
    is its end; and a new task or registration only with its announcement. *)
Record adds (s s' : Session) (more : list ProtocolEnvelope) : Prop := {
  adds_outbound : outbound s' = outbound s ++ more;
  adds_event ev :
    event_envelope ev ∈ more →
    event_subscription_id ev ∈ subscription_running s
    ∧ (is_end ev = true ∨ is_Some (subscriptions s !! event_subscription_id ev));
  adds_running k : k ∈ subscription_running s' → k ∈ subscription_running s ∨ announced k more;
  adds_subscription k : is_Some (subscriptions s' !! k) → is_Some (subscriptions s !! k) ∨ announced k more;
  adds_length : (length more ≤ 1)%nat;
}.

Lemma adds_nothing s s' :
  outbound s' = outbound s → (∀ k, k ∈ subscription_running s' → k ∈ subscription_running s) →
  (∀ k, is_Some (subscriptions s' !! k) → is_Some (subscriptions s !! k)) → adds s s' [].
Proof. intros Ho Hr Hs. split; [by rewrite app_nil_r | by intros ? ?%not_elem_of_nil | auto | auto | cbn; lia]. Qed.

Lemma adds_one s s' e :
  outbound s' = outbound s ++ [e] →
  (∀ ev, body e = Body_Event ev →
     event_subscription_id ev ∈ subscription_running s
     ∧ (is_end ev = true ∨ is_Some (subscriptions s !! event_subscription_id ev))) →
  (∀ k, k ∈ subscription_running s' → k ∈ subscription_running s ∨ announced k [e]) →
  (∀ k, is_Some (subscriptions s' !! k) → is_Some (subscriptions s !! k) ∨ announced k [e]) → adds s s' [e].
Proof. intros Ho He Hr Hs. split; [done | | done | done | cbn; lia]. intros ev <-%list_elem_of_singleton. by apply He. Qed.

Lemma sends_adds sent e s s1 s' :
  send_envelope sent e s1 = Ok s' → (∀ ev, body e ≠ Body_Event ev) → outbound s1 = outbound s →
  (∀ k, k ∈ subscription_running s1 → k ∈ subscription_running s) →
  (∀ k, is_Some (subscriptions s1 !! k) → is_Some (subscriptions s !! k)) → adds s s' [e].
Proof.
  destruct sent; [done |]. intros [= <-] Hev Ho Hr Hs. apply adds_one; cbn; [by rewrite Ho | | auto | auto].
  intros ev Heq. by destruct (Hev ev).
Qed.

Lemma try_adds d e s s1 :
  outbound s1 = outbound s →
  (∀ ev, body e = Body_Event ev →
     event_subscription_id ev ∈ subscription_running s
     ∧ (is_end ev = true ∨ is_Some (subscriptions s !! event_subscription_id ev))) →
  (∀ k, k ∈ subscription_running s1 → k ∈ subscription_running s) →
  (∀ k, is_Some (subscriptions s1 !! k) → is_Some (subscriptions s !! k)) → ∃ more, adds s (try_send d e s1) more.
Proof.
  intros Ho He Hr Hs. destruct d; [exists [e] | exists []].
  - apply adds_one; cbn; [by rewrite Ho | done | auto | auto].
  - by apply adds_nothing.
Qed.

Lemma remove_subscription_shrinks k s :
  outbound (remove_subscription k s) = outbound s
  ∧ subscription_running (remove_subscription k s) = subscription_running s
  ∧ ∀ j, is_Some (subscriptions (remove_subscription k s) !! j) → is_Some (subscriptions s !! j).
Proof.
  unfold remove_subscription. destruct (subscriptions s !! k) eqn:E; cbn; split_and!; try done.
  intros j [x [_ ?]%lookup_delete_Some]. eauto.
Qed.

Lemma subscribe_adds id r sent s s' : handle_subscribe id r sent s = Ok s' → ∃ more, adds s s' more.
Proof.
  unfold handle_subscribe, send_response. destruct (subscription_task_cost r) as [c|err|]; [| | done].
  2: { intros Hs. eexists. by eapply sends_adds. }
  case_match; [intros Hs; eexists; by eapply sends_adds |].
  cbv zeta. rewrite bind_Ok. intros (s2 & Hs2 & [= <-]). destruct sent; [done |]. injection Hs2 as <-. eexists.
  apply adds_one; cbn; [done | done | |].
  - intros k. rewrite elem_of_app, list_elem_of_singleton. intros [?| ->]; [by left |].
    right. eexists. by apply list_elem_of_singleton.
  - intros k [x [[<- _]|[_ ?]]%lookup_insert_Some]; [| left; eauto]. right. eexists. by apply list_elem_of_singleton.
Qed.

Lemma handle_adds e sent s s' : handle_envelope e sent s = Ok s' → ∃ more, adds s s' more.
Proof.
  unfold handle_envelope, send_response. destruct (body e) as [| | |r|r|r| |k| |k| |]; try done.
  - unfold handle_request, send_response. cbv zeta. case_match.
    + intros Hs. eexists. by eapply sends_adds.
    + intros [= <-]. exists []. by apply adds_nothing.
  - apply subscribe_adds.
  - destruct (remove_subscription_shrinks k s) as (Ho & Hr & Hs). intros Hsend. eexists.
    eapply sends_adds; [exact Hsend | done | done | by rewrite Hr | done].
  - intros [= <-]. exists []. by apply adds_nothing.
  - intros Hs. eexists. by eapply sends_adds.
Qed.

Lemma step_adds l s s' : step l s = Some s' → ∃ more, adds s s' more.
Proof.
  destruct l as [e sent| | |id response d|id d|event d|id reason d]; cbn [step].
  - destruct (handle_envelope e sent s) as [s1| |] eqn:E; try done. intros [= <-]. by eapply handle_adds.
  - case_match; [done |]. intros [= <-]. exists []. by apply adds_nothing.
  - destruct (subscription_done s) as [|id rest]; [done |]. intros [= <-]. exists [].
    destruct (remove_subscription_shrinks id (set_running (subscription_running s) rest s)) as (Ho & Hr & Hs).
    apply adds_nothing; [by rewrite Ho | by rewrite Hr | done].
  - unfold finish_request. destruct (remove_first id _); cbn [mbind option_bind]; [| done]. intros [= <-]. by apply try_adds.
  - destruct (requests s !! id) as [[|]|]; try done. unfold finish_request.
    destruct (remove_first id _); cbn [mbind option_bind]; [| done]. intros [= <-]. by apply try_adds.
  - case_match eqn:Hb; [| done]. intros [= <-]. rewrite !andb_true_iff, !bool_decide_eq_true in Hb.
    destruct Hb as [[Hrun Hsub] _]. apply try_adds; [done | | done | done]. intros ev [= <-]. auto.
  - destruct (remove_first id (subscription_running s)) as [running|] eqn:Hr; cbn [mbind option_bind]; [| done].
    intros [= <-]. apply remove_first_perm in Hr. apply try_adds; cbn; [done | | | done].
    + intros ev [= <-]. cbn. split; [| by left]. rewrite Hr. by left.
    + intros k Hk. rewrite Hr. by right.
Qed.

(** Nothing is sent for a subscription before it is announced. *)
Definition events_ordered (out : list ProtocolEnvelope) : Prop :=
  ∀ pre ev post, out = pre ++ event_envelope ev :: post → announced (event_subscription_id ev) pre.

Lemma events_ordered_app out more :
  events_ordered out → (length more ≤ 1)%nat →
  (∀ ev, event_envelope ev ∈ more → announced (event_subscription_id ev) out) → events_ordered (out ++ more).
Proof.
  intros Hout Hlen Hmore pre ev post Heq. destruct more as [|e [|e' more]]; [| | cbn in Hlen; lia].
  - rewrite app_nil_r in Heq. by eapply Hout.
  - destruct post as [|x post _] using rev_ind.
    + apply app_inj_2 in Heq as [<- [= ->]]; [| done]. apply Hmore. by left.
    + rewrite app_comm_cons, (assoc_L (++)) in Heq. apply app_inj_2 in Heq as [-> _]; [| done]. by eapply Hout.
Qed.

Lemma run_events ls s s' :
  run ls s = Some s' → events_ordered (outbound s) → (∀ k, k ∈ subscription_running s → announced k (outbound s)) →
  events_ordered (outbound s').
Proof.
  revert s. induction ls as [|l ls IH]; intros s; cbn; [by intros [= <-] |].
  destruct (step l s) as [s1|] eqn:E; cbn; [| done]. intros Hrun Ho Hann.
  apply step_adds in E as (more & [Hmore Hev Hrunning _ Hlen]). eapply IH; [exact Hrun | |]; rewrite Hmore.
  - apply events_ordered_app; [done.. |]. intros ev [? _]%Hev. by apply Hann.
  - intros k [Hk|(i & Hi)]%Hrunning; [by apply announced_app, Hann |]. exists i. apply elem_of_app. by right.
Qed.

(** An event of a subscription is only ever sent after the answer that
    announces the subscription's identifier to the client. *)
Theorem events_after_announcement ls s pre ev post :
  run ls session_new = Some s → outbound s = pre ++ event_envelope ev :: post →
  announced (event_subscription_id ev) pre.
Proof.
  intros Hrun. eapply run_events; [exact Hrun | |].
  - intros p e q Heq. by destruct p.
  - by intros k ?%not_elem_of_nil.
Qed.

Lemma run_quiet ls k s s' :
  run ls s = Some s' → subscriptions s !! k = None →
  ∃ tail, outbound s' = outbound s ++ tail
    ∧ (¬ announced k tail → ∀ ev, event_envelope ev ∈ tail → event_subscription_id ev = k → is_end ev = true).
Proof.
  revert s. induction ls as [|l ls IH]; intros s; cbn.
  { intros [= <-] _. exists []. rewrite app_nil_r. split; [done | by intros _ ? ?%not_elem_of_nil]. }
  destruct (step l s) as [s1|] eqn:E; cbn; [| done]. intros Hrun Hk.
  apply step_adds in E as (more & [Hmore Hev _ Hsubs _]).
  destruct (subscriptions s1 !! k) as [c|] eqn:Hk1.
  - assert (announced k more) as (i & Hi).
    { destruct (Hsubs k ltac:(by rewrite Hk1)) as [[? ?]|?]; [congruence | done]. }
    assert (∃ tail, outbound s' = outbound s1 ++ tail) as [tail Htail].
    { clear -Hrun. revert s1 Hrun. induction ls as [|l ls IH]; intros s1; cbn; [intros [= <-]; exists []; by rewrite app_nil_r |].
      destruct (step l s1) as [s2|] eqn:E; cbn; [| done]. intros [tail ->]%IH. apply step_adds in E as (m & [-> _ _ _ _]).
      exists (m ++ tail). by rewrite (assoc_L (++)). }
    exists (more ++ tail). rewrite Htail, Hmore, (assoc_L (++)). split; [done |]. intros []. by exists i; apply elem_of_app; left.
  - destruct (IH s1 Hrun Hk1) as (tail & Htail & Hquiet). exists (more ++ tail). rewrite Htail, Hmore, (assoc_L (++)).
    split; [done |]. intros Hno ev [Hin|Hin]%elem_of_app Hid.
    + apply Hev in Hin as [_ [?|[? Hsome]]]; [done | congruence].
    + eapply Hquiet; [| done..]. intros (i & Hi). apply Hno. exists i. apply elem_of_app. by right.
Qed.

(** Once an unsubscription has been handled, no event of that subscription
    is sent any more but its end, whatever the connection and its tasks do next
    (unless the identifier is handed out again). *)
Theorem unsubscribed_is_quiet ls id k s s1 s2 :
  step (Frame (ProtocolEnvelope_new id (Body_Unsubscribe k)) None) s = Some s1 → run ls s1 = Some s2 →
  ∃ tail, outbound s2 = outbound s1 ++ tail
    ∧ (¬ announced k tail → ∀ ev, event_envelope ev ∈ tail → event_subscription_id ev = k → is_end ev = true).
Proof.
  intros Hstep Hrun. eapply run_quiet; [exact Hrun |]. cbn in Hstep. injection Hstep as <-. cbn.
  unfold remove_subscription. destruct (subscriptions s !! k) eqn:E; [apply lookup_delete_eq | done].
Qed.

(** ** Completion *)
Definition is_completion (l : Label) : bool :=
  match l with Frame _ _ | Emit _ _ => false | _ => true end.
Definition unfinished (s : Session) : nat :=
  2 * length (request_tasks s) + length (request_done s)
  + 2 * length (subscription_running s) + length (subscription_done s).

Lemma completion_decreases l s s' : is_completion l = true → step l s = Some s' → (unfinished s' < unfinished s)%nat.
Proof.
  assert (∀ d e s1, unfinished (try_send d e s1) = unfinished s1) as Htry by by intros [].
  assert (∀ id r d s1 s2, finish_request id r d s1 = Some s2 → (unfinished s2 < unfinished s1)%nat) as Hfin.
  { intros id r d s1 s2. unfold finish_request.
    destruct (remove_first id (request_tasks s1)) as [tasks|] eqn:Hr; cbn [mbind option_bind]; [| done].
    intros [= <-]. rewrite Htry. apply remove_first_perm, Permutation_length in Hr. unfold unfinished. cbn in *.
    rewrite Hr, length_app. cbn. lia. }
  destruct l as [e sent| | |id response d|id d|event d|id reason d]; try done; intros _; cbn [step].
  - destruct (request_done s) eqn:Hd; [done |]. intros [= <-]. unfold unfinished. cbn. rewrite Hd. cbn. lia.
  - destruct (subscription_done s) eqn:Hd; [done |]. intros [= <-]. unfold unfinished, remove_subscription.
    cbn [subscriptions set_running]. case_match; cbn; rewrite Hd; cbn; lia.
  - apply Hfin.
  - destruct (requests s !! id) as [[|]|]; try done. apply Hfin.
  - destruct (remove_first id (subscription_running s)) as [running|] eqn:Hr; cbn [mbind option_bind]; [| done]. intros [= <-].
    rewrite Htry. apply remove_first_perm, Permutation_length in Hr. unfold unfinished. cbn in *. rewrite Hr, length_app. cbn. lia.
Qed.

Lemma completion_enabled s : unfinished s ≠ 0%nat → ∃ l s', is_completion l = true ∧ step l s = Some s'.
Proof.
  intros Hne. destruct (request_tasks s) as [|id tasks] eqn:Ht.
  2: { exists (Respond id Response_Acknowledged true). cbn. unfold finish_request. rewrite Ht. cbn. rewrite decide_True by done. cbn. eauto. }
  destruct (request_done s) as [|id rest] eqn:Hd; [| exists RequestFinished; cbn; rewrite Hd; eauto].
  destruct (subscription_running s) as [|id running] eqn:Hr.
  2: { exists (EndSubscription id End_Completed true). cbn. rewrite Hr. cbn. rewrite decide_True by done. cbn. eauto. }
  destruct (subscription_done s) as [|id rest] eqn:Hsd; [| exists SubscriptionFinished; cbn; rewrite Hsd; eauto].
  exfalso. apply Hne. unfold unfinished. by rewrite Ht, Hd, Hr, Hsd.
Qed.

(** No slot is ever lost: from every state a connection reaches, when the
    client sends nothing more, completing tasks and handling their completions
    can only go on a bounded number of steps (twice the tasks plus the queued
    completions), never gets stuck before, and ends with no active request, no
    active subscription and the task counter at zero. *)
Theorem connection_drains ls s :
  run ls session_new = Some s →
  (∀ l s', is_completion l = true → step l s = Some s' → (unfinished s' < unfinished s)%nat)
  ∧ (unfinished s ≠ 0%nat → ∃ l s', is_completion l = true ∧ step l s = Some s')
  ∧ (unfinished s = 0%nat → requests s = ∅ ∧ subscriptions s = ∅ ∧ subscription_tasks s = 0).
Proof.
  intros Hrun. split_and!; [intros l s'; apply completion_decreases | apply completion_enabled |].
  intros H0. pose proof (run_ok _ _ _ session_new_ok Hrun) as Hok. unfold unfinished in H0.
  assert (request_tasks s = [] ∧ request_done s = [] ∧ subscription_running s = [] ∧ subscription_done s = [])
    as (Ht & Hd & Hr & Hsd) by (split_and!; apply nil_length_inv; lia).
  assert (requests s = ∅) as Hreq.
  { apply map_eq. intros i. rewrite lookup_empty. apply eq_None_not_Some. rewrite (ok_requests s Hok), Ht, Hd.
    apply not_elem_of_nil. }
  assert (subscriptions s = ∅) as Hsub.
  { apply map_eq. intros i. rewrite lookup_empty. apply eq_None_not_Some. intros Hi%(ok_alive s Hok). rewrite Hr, Hsd in Hi.
    by apply not_elem_of_nil in Hi. }
  split_and!; [done.. |]. rewrite (ok_tasks s Hok), Hsub. apply map_sum_empty.
Qed.

(** ** A run

    A request and a subscription are accepted, the subscription sends an event,
    the request is answered, the client unsubscribes and the task ends. *)
Definition sample_status : MountStatus := {| ms_state := Mount_Mounted; ms_mount_point := None; ms_read_only := true |}.
Definition sample_before : list Label :=
  [Frame (ProtocolEnvelope_new 5 (Body_Request GetDaemonStatus)) None;
   Frame (ProtocolEnvelope_new 6 (Body_Subscribe Sub_MountStatus)) None;
   Emit (Event_MountStatus 1 sample_status) true;
   Respond 5 Response_Acknowledged true; RequestFinished].
Definition sample_after : list Label := [EndSubscription 1 End_Unsubscribed true; SubscriptionFinished].
Definition sample_session : Session := default session_new (run sample_before session_new).

Lemma sample_reached : run sample_before session_new = Some sample_session.
Proof. vm_compute. reflexivity. Qed.

Lemma session_bounds_witness :
  run sample_before session_new = Some sample_session ∧ Z.of_nat (size (subscriptions sample_session)) ≤ MAX_CLIENT_SUBSCRIPTIONS.
Proof. split; [apply sample_reached | apply (session_bounds sample_before), sample_reached]. Defined.

Lemma answers_exactly_once_witness :
  total (asked 5) sample_before = answered 5 sample_session + pending 5 sample_session + total (lost 5) sample_before
  ∧ total (asked 5) sample_before = 1.
Proof. split; [apply (answers_exactly_once 5 sample_before), sample_reached | reflexivity]. Defined.

Lemma events_after_announcement_witness :
  announced 1 [ProtocolEnvelope_new 6 (Body_Subscribed {| sa_subscription_id := 1 |})].
Proof.
  apply (events_after_announcement sample_before sample_session
    [ProtocolEnvelope_new 6 (Body_Subscribed {| sa_subscription_id := 1 |})] (Event_MountStatus 1 sample_status)
    [ProtocolEnvelope_new 5 (Body_Response Response_Acknowledged)]); [apply sample_reached | reflexivity].
Defined.

Definition unsubscribed_session : Session :=
  default session_new (step (Frame (ProtocolEnvelope_new 7 (Body_Unsubscribe 1)) None) sample_session).

Lemma unsubscribed_is_quiet_witness :
  ∃ s2 tail, run sample_after unsubscribed_session = Some s2 ∧ outbound s2 = outbound unsubscribed_session ++ tail.
Proof.
  destruct (run sample_after unsubscribed_session) as [s2|] eqn:E; [| vm_compute in E; discriminate].
  destruct (unsubscribed_is_quiet sample_after 7 1 sample_session unsubscribed_session s2) as (tail & Ht & _).
  - vm_compute. reflexivity.
  - exact E.
  - exists s2, tail. split; [reflexivity | exact Ht].
Defined.

Lemma connection_drains_witness :
  unfinished sample_session = 2%nat
  ∧ ∃ l s', is_completion l = true ∧ step l sample_session = Some s' ∧ (unfinished s' < unfinished sample_session)%nat.
Proof.
  split; [reflexivity |].
  destruct (connection_drains sample_before sample_session sample_reached) as (Hdec & Hen & _).
  destruct Hen as (l & s' & Hc & Hs); [vm_compute; discriminate |]. exists l, s'. split_and!; [exact Hc | exact Hs | exact (Hdec l s' Hc Hs)].
Defined.

(** ** Handshake *)

(** A client is accepted exactly when its first frame is a hello under
    identifier zero that knows the protocol version and can receive anything;
    the negotiated limit is within both sides' limits. *)
Lemma handshake_spec version hello :
  match snd (handshake version hello) with
  | Some maximum =>
      ∃ client, body hello = Body_Hello client ∧ request_id hello = 0
        ∧ PROTOCOL_VERSION ∈ ch_supported_protocol_versions client ∧ ch_max_frame_size client ≠ 0
        ∧ maximum = Z.min (ch_max_frame_size client) MAX_FRAME_SIZE
        ∧ body (fst (handshake version hello)) = Body_Accepted {|
            sh_daemon_version := version; sh_negotiated_protocol_version := PROTOCOL_VERSION;
            sh_feature_flags := server_features; sh_max_frame_size := maximum |}
  | None =>
      (∃ r, body (fst (handshake version hello)) = Body_Rejected r)
      ∧ ¬ ∃ client, body hello = Body_Hello client ∧ request_id hello = 0
            ∧ PROTOCOL_VERSION ∈ ch_supported_protocol_versions client ∧ ch_max_frame_size client ≠ 0
  end.
Proof.
  unfold handshake. destruct (body hello) as [client| | | | | | | | | | |] eqn:Hb;
    try (cbn; split; [by eexists | by intros (? & ? & _)]).
  destruct (Z.eqb_spec (request_id hello) 0) as [H0|H0]; cbn.
  2: { split; [by eexists | by intros (? & _ & ? & _)]. }
  destruct (existsb (Z.eqb PROTOCOL_VERSION) (ch_supported_protocol_versions client)) eqn:He; cbn.
  - destruct (Z.eqb_spec (ch_max_frame_size client) 0) as [Hm|Hm]; cbn.
    + split; [by eexists |]. by intros (c & [= <-] & _ & _ & ?).
    + exists client. apply existsb_exists in He as (v & Hv & Heq%Z.eqb_eq). subst v. split_and!; try done. by apply list_elem_of_In.
  - split; [by eexists |]. intros (c & [= <-] & _ & Hin & _). apply Bool.not_true_iff_false in He. apply He.
    apply existsb_exists. exists PROTOCOL_VERSION. split; [by apply list_elem_of_In | apply Z.eqb_refl].
Qed.
