(* ===== verification/Subscription.v ===== *)
(** The event loops of subscriptions (run_daemon_subscription,
    run_stats_subscription, run_logs_subscription, wait_for_members,
    run_image_pull_subscription and the end of spawn_subscription in
    crates/tuxstack-daemon/src/ipc.rs).

    Each loop is a function of what its selects see, in order, to the events it
    sends and the reason it ends with ([None] while it is still running). *)

From S2P Require Import Prelude Path Numbers Text Domain Compose CreateContainer Protocol Frame DockerError Export Services.

Local Open Scope Z_scope.

Inductive DaemonEvent : Type :=
  | Daemon_Status (status : DaemonStatus)
  | Daemon_Mount (status : MountStatus)
  | Daemon_Resource (kind : ResourceKind) (resource : option DockerResourceRef) (change : ResourceChange).

Abbreviation outcome := (list ServerEvent * option SubscriptionEndReason)%type.
Definition sends (event : ServerEvent) (rest : outcome) : outcome := (event :: fst rest, snd rest).
Definition ends (reason : SubscriptionEndReason) : outcome := ([], Some reason).

(** ** Daemon events *)
Inductive BroadcastStimulus : Type :=
  | Seen (event : DaemonEvent) (delivered : bool)
  | Lagged
  | BroadcastClosed
  | SubscriptionCancelled.

Definition daemon_event (id : SubscriptionId) (subscription : SubscriptionRequest) (event : DaemonEvent) : option ServerEvent :=
  match subscription, event with
  | Sub_DaemonStatus, Daemon_Status status => Some (Event_DaemonStatus id status)
  | Sub_MountStatus, Daemon_Mount status => Some (Event_MountStatus id status)
  | Sub_ResourceChanges kinds, Daemon_Resource kind resource change =>
      if bool_decide (kind ∈ kinds) then Some (Event_ResourceChanged id kind resource change) else None
  | _, _ => None
  end.

Fixpoint run_daemon_subscription (id : SubscriptionId) (subscription : SubscriptionRequest) (seen : list BroadcastStimulus)
  : outcome :=
  match seen with
  | [] => ([], None)
  | SubscriptionCancelled :: _ => ends End_Unsubscribed
  | Lagged :: seen => run_daemon_subscription id subscription seen
  | BroadcastClosed :: _ => ends End_ServerShutdown
  | Seen event delivered :: seen =>
      match daemon_event id subscription event with
      | None => run_daemon_subscription id subscription seen
      | Some event =>
          if delivered then sends event (run_daemon_subscription id subscription seen) else ends End_Unsubscribed
      end
  end.

(** ** Image pulls *)
Inductive StreamStimulus (A : Type) : Type :=
  | Item (item : DockerError + A) (delivered : bool)
  | StreamEnd
  | StreamCancelled.
Arguments Item {A} _ _.
Arguments StreamEnd {A}.
Arguments StreamCancelled {A}.

Fixpoint run_image_pull_subscription (id : SubscriptionId) (seen : list (StreamStimulus ImagePullProgress)) : outcome :=
  match seen with
  | [] => ([], None)
  | StreamCancelled :: _ => ends End_Unsubscribed
  | Item (inr progress) delivered :: seen =>
      if delivered then sends (Event_ImagePullProgress id progress) (run_image_pull_subscription id seen)
      else ends End_Unsubscribed
  | Item (inl error) _ :: _ => ends (End_Error (docker_protocol_error error))
  | StreamEnd :: _ => ends End_Completed
  end.

(** ** Several members

    A member watches one container.  What the whole loop sees: an item of one
    member, a member's stream ending, or the cancellation.  A failing member
    ends the subscription; a member whose event cannot be delivered fires the
    common token and ends, after which the others deliver nothing any more and
    the loop ends as unsubscribed or, if the last member ends first, as
    completed. *)
Inductive MemberStimulus (A : Type) : Type :=
  | MemberItem (member : nat) (item : DockerError + A) (delivered : bool)
  | MemberEnd (member : nat)
  | MembersCancelled.
Arguments MemberItem {A} _ _ _.
Arguments MemberEnd {A} _.
Arguments MembersCancelled {A}.

Section members.
  Context {A : Type} (event : text → A → ServerEvent).

Fixpoint run_members (cancelled : bool) (members : gmap nat text) (seen : list (MemberStimulus A)) : outcome :=
  if bool_decide (members = ∅) then ends End_Completed
  else
    match seen with
    | [] => ([], None)
    | MembersCancelled :: _ => ends End_Unsubscribed
    | MemberEnd m :: seen => run_members cancelled (delete m members) seen
    | MemberItem m item delivered :: seen =>
        match members !! m with
        | None => run_members cancelled members seen
        | Some container_id =>
            match item with
            | inl error => ends (End_Error (docker_protocol_error error))
            | inr value =>
                if delivered && negb cancelled then sends (event container_id value) (run_members cancelled members seen)
                else run_members true (delete m members) seen
            end
        end
    end.
End members.

Definition members_of (container_ids : list text) : gmap nat text := list_to_map (imap pair container_ids).
Definition run_stats_subscription (id : SubscriptionId) (container_ids : list text)
  : list (MemberStimulus ContainerStats) → outcome :=
  run_members (Event_ContainerStats id) false (members_of container_ids).
Definition run_logs_subscription (id : SubscriptionId) (container_ids : list text) : list (MemberStimulus LogLine) → outcome :=
  run_members (Event_ContainerLog id) false (members_of container_ids).

(** ** The end of a subscription task *)
Definition spawn_subscription_end (id : SubscriptionId) (shutdown : bool) (reason : SubscriptionEndReason) : ServerEvent :=
  Event_SubscriptionEnded id (if shutdown then End_ServerShutdown else reason).

(** ** Laws *)

(** What a listener asked for: the events of its kind, in their order. *)
Definition wanted (id : SubscriptionId) (subscription : SubscriptionRequest) (seen : list BroadcastStimulus) : list ServerEvent :=
  omap (fun s => match s with Seen event _ => daemon_event id subscription event | _ => None end) seen.
Definition undelivered (s : BroadcastStimulus) : bool := match s with Seen _ false => true | _ => false end.
Definition stops (s : BroadcastStimulus) : bool := match s with BroadcastClosed | SubscriptionCancelled => true | _ => false end.

(** A subscription to daemon events sends exactly the events it asked for,
    each once and in order, until it stops: while nothing is undeliverable and
    nothing stops it, all of them and no more, and it keeps running; in any
    case what it has sent is a prefix of that, and every event it sends
    carries its own identifier. *)
Theorem daemon_subscription_exact id subscription seen :
  fst (run_daemon_subscription id subscription seen) `prefix_of` wanted id subscription seen
  ∧ (forallb (fun s => negb (undelivered s) && negb (stops s)) seen = true →
       run_daemon_subscription id subscription seen = (wanted id subscription seen, None))
  ∧ Forall (fun ev => event_subscription_id ev = id) (fst (run_daemon_subscription id subscription seen)).
Proof.
  assert (∀ ev e, daemon_event id subscription ev = Some e → event_subscription_id e = id) as Hid.
  { intros ev e. destruct subscription, ev; cbn; try done; try (by intros [= <-]).
    case_bool_decide; [by intros [= <-] | done]. }
  induction seen as [|[ev d| | |] seen (IHp & IHe & IHf)]; cbn; [done | | | |].
  - unfold wanted in *. cbn. destruct (daemon_event id subscription ev) as [e|] eqn:He; [| destruct d; cbn; split_and!; done].
    destruct d; cbn.
    + split_and!; [by apply prefix_cons | | constructor; [by eapply Hid | done]]. intros Hall. by rewrite (IHe Hall).
    + split_and!; [apply prefix_nil | done | constructor].
  - done.
  - split_and!; [apply prefix_nil | done | constructor].
  - split_and!; [apply prefix_nil | done | constructor].
Qed.

(** A subscription to the status of a provider is accepted and never sends anything. *)
Lemma provider_status_silent id resource seen : fst (run_daemon_subscription id (Sub_ProviderStatus resource) seen) = [].
Proof. induction seen as [|[ev d| | |] seen IH]; cbn; done. Qed.
