(* ===== verification/Terminal.v ===== *)
(** Container terminals on a connection (run_terminal_subscription, the
    terminal registry and wait_for_members of crates/tuxstack-daemon/src/ipc.rs).

    Every await of a terminal task is a point where other tasks of the
    connection may run, so a task is a phase that one step advances with the
    answer of what it awaited; the registry is shared by all of them. *)

From S2P Require Import Prelude Path Numbers Text Domain Compose CreateContainer Protocol Frame DockerError Export Services Session.

Local Open Scope Z_scope.

(** ** The registry: subscription to session, known by its container *)
Abbreviation Registry := (gmap SubscriptionId text).

Definition sessions_of (container_id : text) (terminals : Registry) : Z :=
  Z.of_nat (size (filter (fun kv => kv.2 = container_id) terminals)).

Definition terminal_capacity_available (terminals : Registry) (container_id : text) : bool :=
  (Z.of_nat (size terminals) <? MAX_TERMINAL_SESSIONS_TOTAL)
  && (sessions_of container_id terminals <? MAX_TERMINAL_SESSIONS_PER_CONTAINER).

Definition terminal_session (terminals : Registry) (id : SubscriptionId) : result ProtocolError text :=
  ok_or not_active (terminals !! id).
(** The registry after a close, and whether the session is closed. *)
Definition close_terminal (terminals : Registry) (id : SubscriptionId) : Registry * bool :=
  (delete id terminals, bool_decide (is_Some (terminals !! id))).

(** ** Terminal tasks *)
Inductive ContainerTerminalOutput : Type :=
  | StdOut (data : list byte) | StdErr (data : list byte) | StdIn (data : list byte) | Console (data : list byte).
Definition terminal_output_bytes (output : ContainerTerminalOutput) : list byte :=
  match output with StdOut data | StdErr data | StdIn data | Console data => data end.

(** What the task awaits next. *)
Inductive Phase : Type :=
  | P_Announce
  | P_Capacity
  | P_Connect
  | P_Resize (shell : text)
  | P_TakeOutput (shell : text)
  | P_Register (shell : text)
  | P_AnnounceRunning (shell : text)
  | P_Loop
  | P_Close (reason : SubscriptionEndReason)
  | P_Ended.
Record TerminalTask := { tt_container : text; tt_phase : Phase; tt_cancelled : bool }.

Record Terminals := { registry : Registry; tasks : gmap SubscriptionId TerminalTask; events : list ServerEvent }.

(** What the awaited operation answers. *)
Inductive Answer : Type :=
  | A_Sent (delivered : bool)
  | A_Locked
  | A_Connected (outcome : ContainerTerminalError + text) (delivered : bool)
  | A_Resized (outcome : option ContainerTerminalError) (delivered : bool)
  | A_Output (outcome : option ContainerTerminalError)
  | A_Cancelled
  | A_Item (item : ContainerTerminalError + ContainerTerminalOutput) (delivered : bool)
  | A_Exited (exit_code : option Z) (delivered : bool)
  | A_Closed (shutdown delivered : bool).

Definition too_many : text := bytes "Too many terminal sessions are already open.".

(** [send_event] with the task's token: nothing is sent once it has fired. *)
Definition emit (task : TerminalTask) (delivered : bool) (event : ServerEvent) (out : list ServerEvent) : list ServerEvent * bool :=
  if tt_cancelled task then (out, false) else if delivered then (out ++ [event], true) else (out, false).

Definition goto (id : SubscriptionId) (task : TerminalTask) (phase : Phase) (ts : Terminals) (reg : Registry)
  (out : list ServerEvent) : Terminals :=
  {| registry := reg;
     tasks := <[id := {| tt_container := tt_container task; tt_phase := phase; tt_cancelled := tt_cancelled task |}]> (tasks ts);
     events := out |}.
Definition failed_event (id : SubscriptionId) (error : ContainerTerminalError) : ServerEvent :=
  Event_TerminalState id (Terminal_Failed (ContainerTerminalError_to_string error)).

(** One step of the task of subscription [id]. *)
Definition terminal_step (id : SubscriptionId) (answer : Answer) (ts : Terminals) : option Terminals :=
  task ← tasks ts !! id;
  let reg := registry ts in
  let out := events ts in
  let continue phase := Some (goto id task phase ts reg out) in
  let send delivered event after :=
    let '(out, ok) := emit task delivered event out in Some (goto id task (after ok) ts reg out) in
  let fail error delivered :=
    send delivered (failed_event id error) (fun _ => P_Close (End_Error (terminal_protocol_error error))) in
  match tt_phase task, answer with
  | P_Announce, A_Sent delivered =>
      send delivered (Event_TerminalState id Terminal_Connecting) (fun ok => if ok then P_Capacity else P_Close End_Unsubscribed)
  | P_Capacity, A_Sent delivered =>
      if terminal_capacity_available reg (tt_container task) then continue P_Connect
      else send delivered (Event_TerminalState id (Terminal_Failed too_many))
             (fun _ => P_Close (End_Error (protocol_error Code_Conflict too_many false)))
  | P_Connect, A_Connected (inl error) delivered => fail error delivered
  | P_Connect, A_Connected (inr shell) _ => continue (P_Resize shell)
  | P_Resize _, A_Resized (Some error) delivered => fail error delivered
  | P_Resize shell, A_Resized None _ => continue (P_TakeOutput shell)
  | P_TakeOutput _, A_Output (Some error) => continue (P_Close (End_Error (terminal_protocol_error error)))
  | P_TakeOutput shell, A_Output None => continue (P_Register shell)
  | P_Register shell, A_Locked =>
      Some (goto id task (P_AnnounceRunning shell) ts (<[id := tt_container task]> reg) out)
  | P_AnnounceRunning shell, A_Sent delivered =>
      send delivered (Event_TerminalState id (Terminal_Running shell)) (fun ok => if ok then P_Loop else P_Close End_Unsubscribed)
  | P_Loop, A_Cancelled => if tt_cancelled task then continue (P_Close End_Unsubscribed) else None
  | P_Loop, A_Item (inr output) delivered =>
      send delivered (Event_TerminalOutput id (terminal_output_bytes output))
        (fun ok => if ok then P_Loop else P_Close End_Unsubscribed)
  | P_Loop, A_Item (inl error) delivered => fail error delivered
  | P_Loop, A_Exited exit_code delivered =>
      send delivered (Event_TerminalState id (Terminal_Exited exit_code)) (fun _ => P_Close End_Completed)
  | P_Close reason, A_Closed shutdown delivered =>
      let reason := if shutdown then End_ServerShutdown else reason in
      Some (goto id task P_Ended ts (fst (close_terminal reg id))
              (if delivered then out ++ [Event_SubscriptionEnded id reason] else out))
  | _, _ => None
  end.

(** The connection loop's part: starting a task, and closing or cancelling one. *)
Inductive TerminalLabel : Type :=
  | T_Start (id : SubscriptionId) (container_id : text)
  | T_Step (id : SubscriptionId) (answer : Answer)
  | T_ClientClose (id : SubscriptionId)
  | T_Unsubscribe (id : SubscriptionId).

Definition terminals_step (l : TerminalLabel) (ts : Terminals) : option Terminals :=
  match l with
  | T_Start id container_id =>
      match tasks ts !! id with
      | Some _ => None
      | None =>
          Some {| registry := registry ts; events := events ts;
                  tasks := <[id := {| tt_container := container_id; tt_phase := P_Announce; tt_cancelled := false |}]> (tasks ts) |}
      end
  | T_Step id answer => terminal_step id answer ts
  | T_ClientClose id => Some {| registry := fst (close_terminal (registry ts) id); tasks := tasks ts; events := events ts |}
  | T_Unsubscribe id =>
      Some {| registry := fst (close_terminal (registry ts) id); events := events ts;
              tasks := alter (fun task => {| tt_container := tt_container task; tt_phase := tt_phase task;
                                             tt_cancelled := true |}) id (tasks ts) |}
  end.
Fixpoint terminals_run (ls : list TerminalLabel) (ts : Terminals) : option Terminals :=
  match ls with [] => Some ts | l :: ls => ts ← terminals_step l ts; terminals_run ls ts end.
Definition terminals_new : Terminals := {| registry := ∅; tasks := ∅; events := [] |}.

(** ** Registered sessions *)
Definition holds_session (phase : Phase) : bool :=
  match phase with P_AnnounceRunning _ | P_Loop | P_Close _ => true | _ => false end.

(** Every registered session belongs to a task that has not ended. *)
Definition registered (ts : Terminals) : Prop :=
  ∀ id c, registry ts !! id = Some c →
    ∃ task, tasks ts !! id = Some task ∧ tt_container task = c ∧ holds_session (tt_phase task) = true.

Lemma registered_goto id task phase ts reg out :
  registered ts → tasks ts !! id = Some task →
  (∀ j c, j ≠ id → reg !! j = Some c → registry ts !! j = Some c) →
  (∀ c, reg !! id = Some c → tt_container task = c ∧ holds_session phase = true) →
  registered (goto id task phase ts reg out).
Proof.
  intros Hreg Htask Hother Hown j c Hj. cbn in *. destruct (decide (j = id)) as [->|Hne].
  - rewrite lookup_insert_eq. eexists. split; [done |]. cbn. by apply Hown.
  - rewrite lookup_insert_ne by done. apply Hreg. by apply Hother.
Qed.

Lemma registered_step id answer ts ts' : registered ts → terminal_step id answer ts = Some ts' → registered ts'.
Proof.
  intros Hreg. unfold terminal_step. destruct (tasks ts !! id) as [task|] eqn:Htask; cbn [mbind option_bind]; [| done].
  assert (∀ phase out, (holds_session (tt_phase task) = true → holds_session phase = true) →
    registered (goto id task phase ts (registry ts) out)) as Hsame.
  { intros phase out Himp. apply registered_goto; [done.. |]. intros c Hc. destruct (Hreg id c Hc) as (t & Ht & <- & Hh).
    rewrite Htask in Ht. injection Ht as <-. auto. }
  assert (∀ d ev after, (∀ ok, holds_session (tt_phase task) = true → holds_session (after ok) = true) →
    (let '(out, ok) := emit task d ev (events ts) in Some (goto id task (after ok) ts (registry ts) out)) = Some ts' →
    registered ts') as Hsend.
  { intros d ev after Himp. destruct (emit task d ev (events ts)) as [out ok]. intros [= <-]. apply Hsame, Himp. }
  destruct (tt_phase task) eqn:Hphase; destruct answer as [d| |[e|sh] d|[e|] d|[e|]| |[e|o] d|code d|shut d]; try done; cbn zeta.
  all: try (by apply Hsend; intros []).
  all: try (intros [= <-]; by apply Hsame).
  - case_match; [intros [= <-]; by apply Hsame | by apply Hsend].
  - intros [= <-]. apply registered_goto; [done.. | |].
    + intros j c Hne. by rewrite lookup_insert_ne.
    + intros c. rewrite lookup_insert_eq. by intros [= <-].
  - case_match; [intros [= <-]; by apply Hsame | done].
  - intros [= <-]. apply registered_goto; [done.. | |]; cbn.
    + intros j c Hne. by rewrite lookup_delete_ne.
    + intros c. by rewrite lookup_delete_eq.
Qed.

Lemma registered_run ls ts ts' : registered ts → terminals_run ls ts = Some ts' → registered ts'.
Proof.
  revert ts. induction ls as [|l ls IH]; intros ts Hreg; cbn; [by intros [= <-] |].
  destruct (terminals_step l ts) as [ts1|] eqn:E; cbn; [| done]. apply IH. revert E.
  assert (∀ id j c, fst (close_terminal (registry ts) id) !! j = Some c → j ≠ id ∧ registry ts !! j = Some c) as Hclose.
  { intros id j c. cbn. rewrite lookup_delete_Some. intros [? ?]. done. }
  destruct l as [id c|id answer|id|id]; cbn.
  - destruct (tasks ts !! id) eqn:Ht; [done |]. intros [= <-] j d Hj. cbn in *. destruct (Hreg j d Hj) as (task & Htask & Hrest).
    rewrite lookup_insert_ne by congruence. eauto.
  - by apply registered_step.
  - intros [= <-] j d [_ Hj]%Hclose. by apply Hreg.
  - intros [= <-] j d [Hne Hj]%Hclose. cbn. rewrite lookup_alter_ne by done. by apply Hreg.
Qed.

(** Whatever the tasks of a connection do and in whatever order, a session
    in the terminal registry always belongs to a task that is still going to
    close it; a task that has ended has left no session behind. *)
Theorem terminal_sessions_never_leak ls ts id task :
  terminals_run ls terminals_new = Some ts → tasks ts !! id = Some task → tt_phase task = P_Ended →
  registry ts !! id = None.
Proof.
  intros Hrun Htask Hended. destruct (registry ts !! id) as [c|] eqn:Hc; [| done].
  assert (registered ts) as Hreg by (eapply registered_run; [| exact Hrun]; intros ? ? Habs; cbn in Habs; by rewrite lookup_empty in Habs).
  destruct (Hreg id c Hc) as (t & Ht & _ & Hh). rewrite Htask in Ht. injection Ht as <-. by rewrite Hended in Hh.
Qed.

(** A whole life: started, registered, cancelled by the client, ended. *)
Definition terminal_life : list TerminalLabel :=
  [T_Start 1 (bytes "web"); T_Step 1 (A_Sent true); T_Step 1 (A_Sent true); T_Step 1 (A_Connected (inr (bytes "/bin/sh")) true);
   T_Step 1 (A_Resized None true); T_Step 1 (A_Output None); T_Step 1 A_Locked; T_Step 1 (A_Sent true);
   T_Step 1 (A_Item (inr (Console (bytes "$ "))) true); T_Unsubscribe 1; T_Step 1 A_Cancelled; T_Step 1 (A_Closed false true)].
Definition terminal_final : Terminals := default terminals_new (terminals_run terminal_life terminals_new).

Lemma terminal_sessions_never_leak_witness :
  registry terminal_final !! 1 = None
  ∧ events terminal_final =
      [Event_TerminalState 1 Terminal_Connecting; Event_TerminalState 1 (Terminal_Running (bytes "/bin/sh"));
       Event_TerminalOutput 1 (bytes "$ "); Event_SubscriptionEnded 1 End_Unsubscribed].
Proof.
  split; [| vm_compute; reflexivity].
  apply (terminal_sessions_never_leak terminal_life terminal_final 1
    {| tt_container := bytes "web"; tt_phase := P_Ended; tt_cancelled := true |}); vm_compute; reflexivity.
Defined.

(** ** The limit *)
Definition up_to_check (id : SubscriptionId) : list TerminalLabel :=
  [T_Start id (bytes "web"); T_Step id (A_Sent true); T_Step id (A_Sent true)].
Definition register (id : SubscriptionId) : list TerminalLabel :=
  [T_Step id (A_Connected (inr (bytes "/bin/sh")) true); T_Step id (A_Resized None true); T_Step id (A_Output None);
   T_Step id A_Locked].

(** The limit on terminals of one container is checked before the session is
    opened and not again when it is registered: nine terminals opened together
    pass the check and all get a session, where eight are allowed; opened one
    after the other, the ninth is refused. *)
Theorem terminal_limit_exceeded :
  let ids := [1; 2; 3; 4; 5; 6; 7; 8; 9] in
  let together := flat_map up_to_check ids ++ flat_map register ids in
  let in_turn := flat_map (fun id => up_to_check id ++ register id) [1; 2; 3; 4; 5; 6; 7; 8] ++ up_to_check 9 in
  (sessions_of (bytes "web") ∘ registry) <$> terminals_run together terminals_new = Some 9
  ∧ MAX_TERMINAL_SESSIONS_PER_CONTAINER = 8
  ∧ (fun ts => tt_phase <$> tasks ts !! 9) <$> terminals_run in_turn terminals_new
    = Some (Some (P_Close (End_Error (protocol_error Code_Conflict too_many false)))).
Proof. vm_compute. done. Qed.
