(* ===== verification/Client.v ===== *)
(** The client of the daemon (crates/tuxstack-client/src/lib.rs): request
    correlation, subscriptions with their early events, and connections.

    The state is what the client's locks protect, plus the calls in flight and
    the event queues of subscriptions; a label is one critical section of a
    caller, of a reader task or of a reconnection, so that an interleaving is a
    list of labels.  The transport only appears as the envelopes a reader
    delivers and the ones handed to the writer. *)

From S2P Require Import Prelude Path Numbers Text Domain Compose CreateContainer Protocol Frame.

Local Open Scope Z_scope.

Definition SUBSCRIPTION_QUEUE_CAPACITY : Z := 128.
Definition EARLY_EVENT_LIMIT : Z := 16.
Definition EARLY_SUBSCRIPTION_LIMIT : Z := 32.

Inductive ClientError : Type :=
  | MissingRuntimeDirectory
  | InsecureSocketPath (path : PathBuf) (reason : text)
  | SocketUnavailable (path : PathBuf)
  | HandshakeTimeout
  | HandshakeRejected (rejection : HandshakeRejection)
  | HandshakeProtocol (message : text)
  | RequestTimeout (request_id : RequestId)
  | Disconnected (reason : text)
  | UnexpectedMessage (request_id : RequestId) (expected actual : text)
  | Client_Frame (error : FrameError)
  | Client_Io (message : text).

Definition body_name (b : ProtocolBody) : text :=
  match b with
  | Body_Hello _ => bytes "Hello"
  | Body_Accepted _ => bytes "Accepted"
  | Body_Rejected _ => bytes "Rejected"
  | Body_Request _ => bytes "Request"
  | Body_Response _ => bytes "Response"
  | Body_Subscribe _ => bytes "Subscribe"
  | Body_Subscribed _ => bytes "Subscribed"
  | Body_Unsubscribe _ => bytes "Unsubscribe"
  | Body_Event _ => bytes "Event"
  | Body_CancelRequest _ => bytes "CancelRequest"
  | Body_Ping => bytes "Ping"
  | Body_Pong => bytes "Pong"
  end.

(** ** Handshake *)
Definition client_handshake (envelope : ProtocolEnvelope) : result ClientError ServerHello :=
  if negb (request_id envelope =? 0)
  then Err (HandshakeProtocol (bytes "handshake response request ID must be zero"))
  else
    match body envelope with
    | Body_Accepted server =>
        if negb (sh_negotiated_protocol_version server =? PROTOCOL_VERSION)
        then Err (HandshakeProtocol (bytes "server negotiated unsupported protocol "
                                     ++ u64_to_string (sh_negotiated_protocol_version server)))
        else
          match validate_frame_length (sh_max_frame_size server) MAX_FRAME_SIZE with
          | Ok _ => Ok server
          | Err error => Err (Client_Frame error)
          | Panic site => Panic site
          end
    | Body_Rejected rejection => Err (HandshakeRejected rejection)
    | other => Err (HandshakeProtocol (bytes "expected Accepted or Rejected, received " ++ body_name other))
    end.

(** ** The client's state *)

(** A call in flight: waiting for its oneshot, or answered on it. *)
Inductive CallState : Type :=
  | Waiting
  | Answered (outcome : text + ProtocolBody).

Record Client := mkClient {
  next_request_id : Z;
  next_generation : Z;
  connection : option Z;
  pending : gset RequestId;
  subscriptions : gmap SubscriptionId nat;
  early_events : gmap SubscriptionId (list ServerEvent);
  calls : gmap RequestId CallState;
  queues : gmap nat (list ServerEvent);
  flushing : gmap nat (list ServerEvent);
  next_queue : nat;
  written : list ProtocolEnvelope;
}.
Definition client_new : Client :=
  {| next_request_id := 1; next_generation := 1; connection := None; pending := ∅; subscriptions := ∅;
     early_events := ∅; calls := ∅; queues := ∅; flushing := ∅; next_queue := 0; written := [] |}.

Definition set_dispatch (p : gset RequestId) (subs : gmap SubscriptionId nat) (early : gmap SubscriptionId (list ServerEvent))
  (c : Client) : Client :=
  mkClient (next_request_id c) (next_generation c) (connection c) p subs early (calls c) (queues c) (flushing c)
    (next_queue c) (written c).
Definition set_calls (m : gmap RequestId CallState) (c : Client) : Client :=
  mkClient (next_request_id c) (next_generation c) (connection c) (pending c) (subscriptions c) (early_events c) m
    (queues c) (flushing c) (next_queue c) (written c).
Definition set_queues (q f : gmap nat (list ServerEvent)) (n : nat) (c : Client) : Client :=
  mkClient (next_request_id c) (next_generation c) (connection c) (pending c) (subscriptions c) (early_events c) (calls c)
    q f n (written c).
Definition set_connection (conn : option Z) (g : Z) (c : Client) : Client :=
  mkClient (next_request_id c) g conn (pending c) (subscriptions c) (early_events c) (calls c) (queues c) (flushing c)
    (next_queue c) (written c).
Definition set_next_request (n : Z) (c : Client) : Client :=
  mkClient n (next_generation c) (connection c) (pending c) (subscriptions c) (early_events c) (calls c) (queues c)
    (flushing c) (next_queue c) (written c).
Definition push_written (e : ProtocolEnvelope) (c : Client) : Client :=
  mkClient (next_request_id c) (next_generation c) (connection c) (pending c) (subscriptions c) (early_events c) (calls c)
    (queues c) (flushing c) (next_queue c) (written c ++ [e]).

(** [next_request_id]: the counter wraps, and zero is skipped. *)
Definition take_request_id (c : Client) : RequestId * Client :=
  let id := next_request_id c in
  if id =? 0 then (1, set_next_request 2 c) else (id, set_next_request (wrapping_add 64 id 1) c).

(** A message that is only handed over when there is a connection with room for it. *)
Definition try_write (accepted : bool) (e : ProtocolEnvelope) (c : Client) : Client :=
  match connection c with Some _ => if accepted then push_written e c else c | None => c end.
Definition send_cancel (accepted : bool) (target : RequestId) (c : Client) : Client :=
  let '(cancel_id, c) := take_request_id c in
  try_write accepted (ProtocolEnvelope_new cancel_id (Body_CancelRequest target)) c.

Definition forget (id : RequestId) (c : Client) : Client :=
  set_dispatch (pending c ∖ {[id]}) (subscriptions c) (early_events c) c.

(** ** Delivery *)
Definition resolve (id : RequestId) (outcome : text + ProtocolBody) (c : Client) : Client :=
  if bool_decide (id ∈ pending c) then
    set_calls (match calls c !! id with Some Waiting => <[id := Answered outcome]> (calls c) | _ => calls c end) (forget id c)
  else c.
Definition dispatch_pending (id : RequestId) (b : ProtocolBody) (c : Client) : Client := resolve id (inr b) c.

(** [try_send] on a subscription's queue: a full queue drops the event. *)
Definition enqueue (q : nat) (event : ServerEvent) (c : Client) : Client :=
  match queues c !! q with
  | Some events =>
      if len events <? SUBSCRIPTION_QUEUE_CAPACITY
      then set_queues (<[q := events ++ [event]]> (queues c)) (flushing c) (next_queue c) c else c
  | None => c
  end.

Definition dispatch_event (event : ServerEvent) (c : Client) : Client :=
  let id := event_subscription_id event in
  match subscriptions c !! id with
  | Some q => enqueue q event c
  | None =>
      if bool_decide (is_Some (early_events c !! id)) || (Z.of_nat (size (early_events c)) <? EARLY_SUBSCRIPTION_LIMIT) then
        let events := default [] (early_events c !! id) in
        let events := if len events <? EARLY_EVENT_LIMIT then events ++ [event] else events in
        set_dispatch (pending c) (subscriptions c) (<[id := events]> (early_events c)) c
      else c
  end.

(** ** Connections *)
Definition terminate_current (reason : text) (c : Client) : Client :=
  let fail (s : CallState) := match s with Waiting => Answered (inl reason) | s => s end in
  let c := set_connection None (next_generation c) c in
  let failed := map_imap (fun id s => Some (if bool_decide (id ∈ pending c) then fail s else s)) (calls c) in
  set_dispatch ∅ ∅ ∅ (set_calls failed c).
Definition terminate_generation (generation : Z) (reason : text) (c : Client) : Client :=
  if bool_decide (connection c = Some generation) then terminate_current reason c else c.
Definition replace_connection (c : Client) : Client :=
  let c := terminate_current (bytes "connection replaced") c in
  set_connection (Some (next_generation c)) (wrapping_add 64 (next_generation c) 1) c.

(** What the reader of a generation does with an envelope; whether it goes on. *)
Definition reader_step (generation : Z) (e : ProtocolEnvelope) (c : Client) : Client * bool :=
  match body e with
  | Body_Response _ | Body_Subscribed _ | Body_Pong => (dispatch_pending (request_id e) (body e) c, true)
  | Body_Rejected rejection =>
      (resolve (request_id e) (inl (bytes "server rejected request: " ++ hr_message rejection)) c, true)
  | Body_Event event => (dispatch_event event c, true)
  | other =>
      (terminate_generation generation
         (bytes "unexpected server message " ++ body_name other ++ bytes " for request " ++ u64_to_string (request_id e)) c,
       false)
  end.

(** ** Callers *)
Inductive Label : Type :=
  | Begin (b : ProtocolBody) (written : bool)
  | TimedOut (id : RequestId) (cancel_written : bool)
  | Dropped (id : RequestId) (cancel_written : bool)
  | WriteFailed (id : RequestId)
  | Finish (id : RequestId)
  | Register (id : RequestId)
  | Flush (queue : nat)
  | Receive (queue : nat)
  | Unsubscribed (id : SubscriptionId)
  | DropSubscription (id : SubscriptionId) (accepted : bool)
  | Deliver (generation : Z) (e : ProtocolEnvelope)
  | ReadError (generation : Z) (reason : text)
  | Reconnect.

(** [round_trip] up to its first wait: without a connection it fails at once,
    and its guard forgets the entry and asks for a cancellation. *)
Definition begin (b : ProtocolBody) (is_written : bool) (c : Client) : Client :=
  let '(id, c) := take_request_id c in
  let c := set_dispatch ({[id]} ∪ pending c) (subscriptions c) (early_events c) c in
  match connection c with
  | None => send_cancel true id (forget id c)
  | Some _ =>
      let c := set_calls (<[id := Waiting]> (calls c)) c in
      if is_written then push_written (ProtocolEnvelope_new id b) c else c
  end.

Definition abandon (id : RequestId) (cancel_written : bool) (c : Client) : Client :=
  set_calls (delete id (calls c)) (send_cancel cancel_written id (forget id c)).

(** The end of [subscribe]: the queue is registered and takes the early events
    under the lock; they are sent into it later. *)
Definition register (id : RequestId) (k : SubscriptionId) (c : Client) : Client :=
  let q := next_queue c in
  let early := default [] (early_events c !! k) in
  let c := set_queues (<[q := []]> (queues c)) (<[q := early]> (flushing c)) (S q) c in
  let c := set_dispatch (pending c) (<[k := q]> (subscriptions c)) (delete k (early_events c)) c in
  set_calls (delete id (calls c)) (forget id c).

Definition step (l : Label) (c : Client) : option Client :=
  match l with
  | Begin b is_written => Some (begin b is_written c)
  | TimedOut id cancel_written | Dropped id cancel_written =>
      match calls c !! id with Some _ => Some (abandon id cancel_written c) | None => None end
  | WriteFailed id =>
      match calls c !! id with Some Waiting => Some (set_calls (delete id (calls c)) (forget id c)) | _ => None end
  | Finish id =>
      match calls c !! id with
      | Some (Answered _) => Some (set_calls (delete id (calls c)) (forget id c))
      | _ => None
      end
  | Register id =>
      match calls c !! id with
      | Some (Answered (inr (Body_Subscribed accepted))) => Some (register id (sa_subscription_id accepted) c)
      | _ => None
      end
  | Flush q =>
      match flushing c !! q, queues c !! q with
      | Some (event :: rest), Some events =>
          if len events <? SUBSCRIPTION_QUEUE_CAPACITY
          then Some (set_queues (<[q := events ++ [event]]> (queues c)) (<[q := rest]> (flushing c)) (next_queue c) c)
          else None
      | _, _ => None
      end
  | Receive q =>
      match queues c !! q with
      | Some (_ :: rest) => Some (set_queues (<[q := rest]> (queues c)) (flushing c) (next_queue c) c)
      | _ => None
      end
  | Unsubscribed id => Some (set_dispatch (pending c) (delete id (subscriptions c)) (early_events c) c)
  | DropSubscription id accepted =>
      let c := set_dispatch (pending c) (delete id (subscriptions c)) (early_events c) c in
      let '(unsubscribe_id, c) := take_request_id c in
      Some (try_write accepted (ProtocolEnvelope_new unsubscribe_id (Body_Unsubscribe id)) c)
  | Deliver generation e => Some (fst (reader_step generation e c))
  | ReadError generation reason => Some (terminate_generation generation reason c)
  | Reconnect => Some (replace_connection c)
  end.
Fixpoint run (ls : list Label) (c : Client) : option Client :=
  match ls with [] => Some c | l :: ls => c ← step l c; run ls c end.

(** The results of [Client::request], [ping], [subscribe] and [unsubscribe]
    from the body a call was answered with. *)
Definition request_result (id : RequestId) (b : ProtocolBody) : result ClientError Response :=
  match b with
  | Body_Response response => Ok response
  | other => Err (UnexpectedMessage id (bytes "Response") (body_name other))
  end.
Definition ping_result (id : RequestId) (b : ProtocolBody) : result ClientError () :=
  match b with
  | Body_Pong => Ok tt
  | other => Err (UnexpectedMessage id (bytes "Pong") (body_name other))
  end.
Definition subscribe_result (id : RequestId) (b : ProtocolBody) : result ClientError SubscriptionId :=
  match b with
  | Body_Subscribed accepted => Ok (sa_subscription_id accepted)
  | other => Err (UnexpectedMessage id (bytes "Subscribed") (body_name other))
  end.
Definition unsubscribe_result (id : RequestId) (b : ProtocolBody) : result ClientError () :=
  match b with
  | Body_Response Response_Acknowledged => Ok tt
  | other => Err (UnexpectedMessage id (bytes "Response::Acknowledged") (body_name other))
  end.

(** ** The invariant *)
Record client_ok (c : Client) : Prop := {
  ok_pending id : id ∈ pending c ↔ calls c !! id = Some Waiting;
  ok_connected : connection c = None → pending c = ∅;
  ok_early_size : Z.of_nat (size (early_events c)) ≤ EARLY_SUBSCRIPTION_LIMIT;
  ok_early_events k events :
    early_events c !! k = Some events →
    len events ≤ EARLY_EVENT_LIMIT ∧ Forall (fun ev => event_subscription_id ev = k) events;
  ok_disjoint k : is_Some (subscriptions c !! k) → early_events c !! k = None;
  ok_queue k q : subscriptions c !! k = Some q → (q < next_queue c)%nat;
  ok_injective k k' q : subscriptions c !! k = Some q → subscriptions c !! k' = Some q → k = k';
  ok_owner k q events :
    subscriptions c !! k = Some q → queues c !! q = Some events ∨ flushing c !! q = Some events →
    Forall (fun ev => event_subscription_id ev = k) events;
  ok_capacity q events : queues c !! q = Some events → len events ≤ SUBSCRIPTION_QUEUE_CAPACITY;
}.

Lemma client_new_ok : client_ok client_new.
Proof. split; cbn; try done; intros *; rewrite ?lookup_empty; set_solver. Qed.

(** The counter and the writer's queue do not matter to it. *)
Definition same_core (c c' : Client) : Prop :=
  connection c' = connection c ∧ pending c' = pending c ∧ subscriptions c' = subscriptions c
  ∧ early_events c' = early_events c ∧ calls c' = calls c ∧ queues c' = queues c ∧ flushing c' = flushing c
  ∧ next_queue c' = next_queue c.

Lemma same_core_ok c c' : same_core c c' → client_ok c → client_ok c'.
Proof.
  destruct c, c'. unfold same_core. cbn. intros (-> & -> & -> & -> & -> & -> & -> & ->) []. split; cbn in *; done.
Qed.
Lemma same_core_refl c : same_core c c.
Proof. by unfold same_core. Qed.
Lemma take_request_id_core c : same_core c (snd (take_request_id c)).
Proof. unfold take_request_id. by case_match. Qed.
Lemma try_write_core b e c : same_core c (try_write b e c).
Proof. unfold try_write. by repeat case_match. Qed.
Lemma send_cancel_core b id c : same_core c (send_cancel b id c).
Proof.
  unfold send_cancel. pose proof (take_request_id_core c) as Ht. destruct (take_request_id c) as [n c1]. cbn in Ht.
  pose proof (try_write_core b (ProtocolEnvelope_new n (Body_CancelRequest id)) c1) as Hw. unfold same_core in *. naive_solver congruence.
Qed.

(** A call that leaves takes its entry with it. *)
Lemma leave_ok id c : client_ok c → client_ok (set_calls (delete id (calls c)) (forget id c)).
Proof.
  intros [Hp Hconn]. split; cbn; try done.
  - intros i. rewrite elem_of_difference, elem_of_singleton, Hp.
    destruct (decide (i = id)) as [->|Hne]; [rewrite lookup_delete_eq | rewrite lookup_delete_ne by done]; naive_solver.
  - intros H%Hconn. set_solver.
Qed.

Lemma abandon_ok id b c : client_ok c → client_ok (abandon id b c).
Proof.
  intros Hok. eapply same_core_ok; [| apply (leave_ok id c Hok)]. unfold abandon.
  pose proof (send_cancel_core b id (forget id c)) as H. unfold same_core in *. cbn in *. tauto.
Qed.

Lemma begin_ok b w c : client_ok c → client_ok (begin b w c).
Proof.
  intros Hok. unfold begin. pose proof (take_request_id_core c) as Hs. destruct (take_request_id c) as [id c1]. cbn [snd] in Hs.
  pose proof (same_core_ok _ _ Hs Hok) as Hok1. destruct Hs as (Hconn & _). cbn [connection set_dispatch].
  destruct (connection c1) as [g|] eqn:Hc1.
  - assert (client_ok (set_calls (<[id := Waiting]> (calls c1))
      (set_dispatch ({[id]} ∪ pending c1) (subscriptions c1) (early_events c1) c1))) as Hbegin.
    { destruct Hok1 as [Hp]. split; cbn; try done; [| congruence]. intros i. rewrite elem_of_union, elem_of_singleton, Hp.
      destruct (decide (i = id)) as [->|Hne]; [rewrite lookup_insert_eq | rewrite lookup_insert_ne by done]; naive_solver. }
    destruct w; [| done]. eapply same_core_ok; [| exact Hbegin]. done.
  - eapply same_core_ok; [apply send_cancel_core |]. pose proof (ok_connected c1 Hok1 Hc1) as Hempty.
    eapply same_core_ok; [| exact Hok1]. unfold same_core. cbn. rewrite Hempty, Hc1. split_and!; try done. set_solver.
Qed.

Lemma resolve_ok id outcome c : client_ok c → client_ok (resolve id outcome c).
Proof.
  intros Hok. unfold resolve. case_bool_decide as Hin; [| done]. pose proof Hin as Hw. rewrite (ok_pending c Hok) in Hw.
  rewrite Hw. destruct Hok as [Hp Hconn]. split; cbn; try done.
  - intros i. rewrite elem_of_difference, elem_of_singleton, Hp.
    destruct (decide (i = id)) as [->|Hne]; [rewrite lookup_insert_eq | rewrite lookup_insert_ne by done]; naive_solver.
  - intros H%Hconn. set_solver.
Qed.

Lemma enqueue_ok k q event c :
  client_ok c → subscriptions c !! k = Some q → event_subscription_id event = k → client_ok (enqueue q event c).
Proof.
  intros Hok Hk Hev. unfold enqueue. destruct (queues c !! q) as [events|] eqn:Hq; [| done].
  destruct (Z.ltb_spec (len events) SUBSCRIPTION_QUEUE_CAPACITY); [| done].
  pose proof (ok_owner c Hok k q events Hk (or_introl Hq)) as Hown. destruct Hok as [? ? ? ? ? ? Hinj Howner Hcap].
  split; cbn; try done.
  - intros k' q' evs Hk'. destruct (decide (q' = q)) as [->|Hne].
    + rewrite lookup_insert_eq. rewrite (Hinj _ _ _ Hk' Hk). intros [[= <-]|Hf]; [| by eapply Howner; [| right]].
      apply Forall_app. split; [done |]. by repeat constructor.
    + rewrite lookup_insert_ne by done. by apply Howner.
  - intros q' evs. destruct (decide (q' = q)) as [->|Hne].
    + rewrite lookup_insert_eq. intros [= <-]. rewrite len_app. change (len [event]) with 1. lia.
    + rewrite lookup_insert_ne by done. apply Hcap.
Qed.

Lemma dispatch_event_ok event c : client_ok c → client_ok (dispatch_event event c).
Proof.
  intros Hok. unfold dispatch_event. cbv zeta. set (id := event_subscription_id event).
  destruct (subscriptions c !! id) as [q|] eqn:Hsub; [by eapply enqueue_ok |]. case_match eqn:Hroom; [| done].
  rewrite orb_true_iff, bool_decide_eq_true, Z.ltb_lt in Hroom. destruct Hok as [? ? Hsize Hearly Hdis ? ? ? ?].
  assert (len (default [] (early_events c !! id)) ≤ EARLY_EVENT_LIMIT
    ∧ Forall (fun ev => event_subscription_id ev = id) (default [] (early_events c !! id))) as [Hlen Hall].
  { destruct (early_events c !! id) as [events|] eqn:He; cbn; [by apply Hearly | by split]. }
  split; cbn; try done.
  - destruct (early_events c !! id) as [events|] eqn:He.
    + rewrite map_size_insert_Some by eauto. done.
    + rewrite map_size_insert_None by done. destruct Hroom as [[? ?]|?]; [done | lia].
  - intros k events. destruct (decide (k = id)) as [->|Hne]; [| rewrite lookup_insert_ne by done; apply Hearly].
    rewrite lookup_insert_eq. intros [= <-]. case_match eqn:Hl; [| done]. apply Z.ltb_lt in Hl. rewrite len_app.
    change (len [event]) with 1. split; [lia |]. apply Forall_app. split; [done | by repeat constructor].
  - intros k Hk. rewrite lookup_insert_ne; [by apply Hdis |]. intros <-. rewrite Hsub in Hk. by destruct Hk.
Qed.

Lemma terminate_current_ok reason c :
  client_ok c → client_ok (terminate_current reason c) ∧ (∀ id, calls (terminate_current reason c) !! id ≠ Some Waiting).
Proof.
  intros Hok.
  assert (∀ id, calls (terminate_current reason c) !! id ≠ Some Waiting) as Hno.
  { intros id. cbn. rewrite map_lookup_imap. destruct (calls c !! id) as [s|] eqn:Hs; cbn; [| done].
    case_bool_decide as Hin; [by destruct s |]. intros [= ->]. apply Hin. by apply (ok_pending c Hok). }
  split; [| done]. destruct Hok. split; try done; cbn; intros *; rewrite ?lookup_empty; try done.
  - rewrite elem_of_empty. split; [done |]. intros H. by destruct (Hno id).
Qed.
Lemma terminate_generation_ok g reason c : client_ok c → client_ok (terminate_generation g reason c).
Proof. intros. unfold terminate_generation. case_bool_decide; [by apply terminate_current_ok | done]. Qed.

Lemma register_ok id k c : client_ok c → client_ok (register id k c).
Proof.
  intros Hok. unfold register.
  set (c1 := set_dispatch _ _ _ _). assert (client_ok c1) as Hc1; [| apply (leave_ok id c1 Hc1)].
  subst c1. pose proof (ok_early_events c Hok) as Hearly. destruct Hok as [Hp Hconn Hsize _ Hdis Hq Hinj Hown Hcap].
  split; cbn; try done.
  - etransitivity; [apply inj_le, size_delete_le | exact Hsize].
  - intros k' events [_ He]%lookup_delete_Some. by apply Hearly.
  - intros k' Hk'. apply lookup_delete_None. destruct (decide (k = k')) as [->|Hne]; [by left | right].
    rewrite lookup_insert_ne in Hk' by done. by apply Hdis.
  - intros k' q. destruct (decide (k' = k)) as [->|Hne]; [rewrite lookup_insert_eq; intros [= <-]; lia |].
    rewrite lookup_insert_ne by done. intros Hk'%Hq. lia.
  - intros a b q. destruct (decide (a = k)) as [->|Ha], (decide (b = k)) as [->|Hb];
      rewrite ?lookup_insert_eq, ?(lookup_insert_ne _ k a), ?(lookup_insert_ne _ k b) by done; try done.
    + intros [= <-] Hb'%Hq. lia.
    + intros Ha'%Hq [= <-]. lia.
    + apply Hinj.
  - intros k' q events. destruct (decide (k' = k)) as [->|Hne].
    + rewrite lookup_insert_eq. intros [= <-]. rewrite !lookup_insert_eq. intros [[= <-]|[= <-]]; [constructor |].
      destruct (early_events c !! k) eqn:He; cbn; [by apply Hearly | constructor].
    + rewrite lookup_insert_ne by done. intros Hk'. pose proof (Hq _ _ Hk'). rewrite !lookup_insert_ne by lia. by apply Hown.
  - intros q events. destruct (decide (q = next_queue c)) as [->|Hne].
    + rewrite lookup_insert_eq. intros [= <-]. done.
    + rewrite lookup_insert_ne by done. apply Hcap.
Qed.

Lemma drop_subscription_ok id c :
  client_ok c → client_ok (set_dispatch (pending c) (delete id (subscriptions c)) (early_events c) c).
Proof.
  intros []. split; cbn; try done.
  - intros k [q [_ Hk]%lookup_delete_Some]. eauto.
  - intros k q [_ Hk]%lookup_delete_Some. eauto.
  - intros k k' q [_ Hk]%lookup_delete_Some [_ Hk']%lookup_delete_Some. eauto.
  - intros k q events [_ Hk]%lookup_delete_Some. eauto.
Qed.

Lemma requeue_ok q old new rest c :
  client_ok c → queues c !! q = Some old → len new ≤ SUBSCRIPTION_QUEUE_CAPACITY →
  (∀ P : ServerEvent → Prop, Forall P old → (∀ f, flushing c !! q = Some f → Forall P f) → Forall P new ∧ Forall P rest) →
  ∀ f, f = flushing c ∨ f = <[q := rest]> (flushing c) → client_ok (set_queues (<[q := new]> (queues c)) f (next_queue c) c).
Proof.
  intros Hok Hq Hlen Hsub f Hf. destruct Hok as [? ? ? ? ? ? ? Hown Hcap]. split; cbn; try done.
  - intros k q' events Hk. destruct (decide (q' = q)) as [->|Hne].
    + destruct (Hsub (fun ev => event_subscription_id ev = k)) as [Hn Hr]; [by eapply Hown; [| left] | intros f' ?; by eapply Hown; [| right] |].
      rewrite lookup_insert_eq. intros [[= <-]|Hfl]; [done |].
      destruct Hf as [-> | ->]; [by eapply Hown; [| right] |]. rewrite lookup_insert_eq in Hfl. by injection Hfl as <-.
    + rewrite lookup_insert_ne by done. intros Hev. eapply Hown; [exact Hk |]. destruct Hf as [-> | ->]; [done |].
      by rewrite lookup_insert_ne in Hev.
  - intros q' events. destruct (decide (q' = q)) as [->|Hne]; [rewrite lookup_insert_eq; by intros [= <-] |].
    rewrite lookup_insert_ne by done. apply Hcap.
Qed.

Lemma client_step_ok l c c' : client_ok c → step l c = Some c' → client_ok c'.
Proof.
  intros Hok. destruct l as [b w|id w|id w|id|id|id|q|q|id|id acc|g e|g reason|]; cbn [step].
  - intros [= <-]. by apply begin_ok.
  - case_match; [| done]. intros [= <-]. by apply abandon_ok.
  - case_match; [| done]. intros [= <-]. by apply abandon_ok.
  - repeat case_match; try done. intros [= <-]. by apply leave_ok.
  - repeat case_match; try done. intros [= <-]. by apply leave_ok.
  - repeat case_match; try done. intros [= <-]. by apply register_ok.
  - destruct (flushing c !! q) as [[|event rest]|] eqn:Hf; try done. destruct (queues c !! q) as [events|] eqn:Hq; [| done].
    destruct (Z.ltb_spec (len events) SUBSCRIPTION_QUEUE_CAPACITY); [| done]. intros [= <-].
    eapply (requeue_ok q events (events ++ [event]) rest); [done | done | | | by right].
    + rewrite len_app. change (len [event]) with 1. lia.
    + intros P Hold Hflush. specialize (Hflush _ Hf). apply Forall_cons_iff in Hflush as [? ?].
      split; [apply Forall_app; split; [done | by repeat constructor] | done].
  - destruct (queues c !! q) as [[|event rest]|] eqn:Hq; try done. intros [= <-].
    eapply (requeue_ok q (event :: rest) rest []); [done | done | | | by left].
    + pose proof (ok_capacity c Hok q _ Hq) as Hc. rewrite len_cons in Hc. lia.
    + intros P [_ Hr]%Forall_cons_iff _. split; [done | constructor].
  - intros [= <-]. by apply drop_subscription_ok.
  - destruct (take_request_id _) as [n c1] eqn:E. intros [= <-].
    eapply same_core_ok; [apply try_write_core |]. change c1 with (snd (n, c1)). rewrite <- E.
    eapply same_core_ok; [apply take_request_id_core |]. by apply drop_subscription_ok.
  - intros [= <-]. unfold reader_step, dispatch_pending.
    destruct (body e); cbn [fst]; first [by apply resolve_ok | by apply dispatch_event_ok | by apply terminate_generation_ok].
  - intros [= <-]. by apply terminate_generation_ok.
  - intros [= <-]. unfold replace_connection. pose proof (proj1 (terminate_current_ok (bytes "connection replaced") c Hok)) as Ht.
    destruct Ht. by split.
Qed.

Lemma client_run_ok ls c c' : client_ok c → run ls c = Some c' → client_ok c'.
Proof.
  revert c. induction ls as [|l ls IH]; intros c Hok; cbn; [by intros [= <-] |].
  destruct (step l c) as [c1|] eqn:E; cbn; [| done]. apply IH. by eapply client_step_ok.
Qed.

(** In every state the client reaches, through any interleaving of callers,
    timeouts, dropped calls, readers, disconnections and reconnections: the
    pending table holds exactly the calls that still wait, so no entry leaks
    and none is missing; a subscription's queue holds only its own events and
    at most 128 of them; early events are kept for at most 32 subscriptions, 16
    each, filed under the right one and never for a registered subscription. *)
Theorem client_invariant ls c :
  run ls client_new = Some c →
  (∀ id, id ∈ pending c ↔ calls c !! id = Some Waiting)
  ∧ (∀ k q events, subscriptions c !! k = Some q → queues c !! q = Some events →
       Forall (fun ev => event_subscription_id ev = k) events ∧ len events ≤ SUBSCRIPTION_QUEUE_CAPACITY)
  ∧ Z.of_nat (size (early_events c)) ≤ EARLY_SUBSCRIPTION_LIMIT
  ∧ (∀ k events, early_events c !! k = Some events →
       len events ≤ EARLY_EVENT_LIMIT ∧ Forall (fun ev => event_subscription_id ev = k) events ∧ subscriptions c !! k = None).
Proof.
  intros Hrun. pose proof (client_run_ok _ _ _ client_new_ok Hrun) as Hok. split_and!; [apply Hok | | apply Hok |].
  - intros k q events Hk Hq. split; [eapply (ok_owner c Hok); [exact Hk | by left] | by eapply (ok_capacity c Hok)].
  - intros k events He. destruct (ok_early_events c Hok k events He) as [? ?]. split_and!; [done.. |].
    apply eq_None_not_Some. intros Hs%(ok_disjoint c Hok). congruence.
Qed.

Definition is_waiting (s : option CallState) : bool := match s with Some Waiting => true | _ => false end.
Definition is_reply (b : ProtocolBody) : bool :=
  match b with Body_Response _ | Body_Subscribed _ | Body_Pong => true | _ => false end.

(** C10: a response reaches the call that asked for it and no other: delivering an
    envelope changes at most the call with its identifier, only if that call
    was still waiting, and to exactly the body delivered; a second envelope
    with the same identifier changes nothing. *)
Theorem response_reaches_its_call ls c g e c' :
  run ls client_new = Some c → step (Deliver g e) c = Some c' →
  is_reply (body e) = true →
  (∀ id, calls c' !! id = if (id =? request_id e) && is_waiting (calls c !! id)
                          then Some (Answered (inr (body e))) else calls c !! id)
  ∧ (∀ e' c'', request_id e' = request_id e → is_reply (body e') = true →
       step (Deliver g e') c' = Some c'' → calls c'' = calls c').
Proof.
  intros Hrun Hstep Hbody. pose proof (client_run_ok _ _ _ client_new_ok Hrun) as Hok.
  assert (∀ e d d', is_reply (body e) = true →
    step (Deliver g e) d = Some d' → d' = resolve (request_id e) (inr (body e)) d) as Hdeliver.
  { intros e1 d d' Hb. cbn. unfold reader_step, dispatch_pending. destruct (body e1); try done; by intros [= <-]. }
  apply Hdeliver in Hstep; [| done]. subst c'. split.
  - intros id. unfold resolve. case_bool_decide as Hin.
    + pose proof Hin as Hw. rewrite (ok_pending c Hok) in Hw. rewrite Hw. cbn.
      destruct (Z.eqb_spec id (request_id e)) as [->|Hne].
      * by rewrite lookup_insert_eq, Hw.
      * by rewrite lookup_insert_ne by done.
    + destruct (Z.eqb_spec id (request_id e)) as [->|Hne]; [| done]. cbn.
      destruct (calls c !! request_id e) as [[|]|] eqn:Hw; cbn; try done. exfalso. apply Hin. by apply (ok_pending c Hok).
  - intros e' c'' Hid Hbody' Hstep'. apply Hdeliver in Hstep'; [| done]. subst c''. rewrite Hid. unfold resolve at 1.
    rewrite bool_decide_eq_false_2; [done |]. unfold resolve. case_bool_decide as Hin; [cbn; set_solver | done].
Qed.


(** ** Runs *)
Definition subscribed (id : RequestId) (k : SubscriptionId) : ProtocolEnvelope :=
  ProtocolEnvelope_new id (Body_Subscribed {| sa_subscription_id := k |}).
Definition change (k : SubscriptionId) (r : text) : ServerEvent :=
  Event_ResourceChanged k Kind_Volume (Some (Ref_Volume r)) Change_Updated.
Definition event_from (ev : ServerEvent) : ProtocolEnvelope := ProtocolEnvelope_new 0 (Body_Event ev).
Definition subscribe_changes : Label := Begin (Body_Subscribe (Sub_ResourceChanges [Kind_Volume])) true.

(** One subscription, whose first event comes before it is registered. *)
Definition sample_run : list Label :=
  [Reconnect; subscribe_changes; Deliver 1 (subscribed 1 1); Deliver 1 (event_from (change 1 (bytes "a"))); Register 1; Flush 0;
   Begin (Body_Request GetDaemonStatus) true].
Definition sample_client : Client := default client_new (run sample_run client_new).
Lemma sample_client_reached : run sample_run client_new = Some sample_client.
Proof. vm_compute. reflexivity. Qed.

Lemma client_invariant_witness :
  2 ∈ pending sample_client ∧ queues sample_client !! 0%nat = Some [change 1 (bytes "a")].
Proof.
  split; [| vm_compute; reflexivity].
  apply (proj1 (client_invariant sample_run sample_client sample_client_reached)). vm_compute. reflexivity.
Defined.

Definition acknowledged_client : Client :=
  default client_new (step (Deliver 1 (ProtocolEnvelope_new 2 (Body_Response Response_Acknowledged))) sample_client).
Lemma response_reaches_its_call_witness :
  calls acknowledged_client !! 2 = Some (Answered (inr (Body_Response Response_Acknowledged))).
Proof.
  rewrite (proj1 (response_reaches_its_call sample_run sample_client 1
    (ProtocolEnvelope_new 2 (Body_Response Response_Acknowledged)) acknowledged_client sample_client_reached
    ltac:(vm_compute; reflexivity) eq_refl) 2). vm_compute. reflexivity.
Defined.


(** A subscription that is made, dropped, and then ended by the daemon. *)
Definition dropped_subscription (k : Z) : list Label :=
  [subscribe_changes; Deliver 1 (subscribed (2 * k - 1) k); Register (2 * k - 1); DropSubscription k true;
   Deliver 1 (event_from (Event_SubscriptionEnded k End_Unsubscribed))].
Definition next_subscription (id k : Z) : list Label :=
  [subscribe_changes; Deliver 1 (subscribed id k); Deliver 1 (event_from (change k (bytes "a"))); Register id].

(** The end event of a subscription the client has dropped is filed as an
    early event and stays there for good; after thirty-two of them the table is
    full, and the first event of the next subscription, which a fresh client
    keeps, is lost. *)
Theorem stale_ends_block_early_events :
  let used := Reconnect :: flat_map dropped_subscription (seqZ 1 32) in
  (fun c => flushing c !! 0%nat) <$> run (Reconnect :: next_subscription 1 1) client_new = Some (Some [change 1 (bytes "a")])
  ∧ (fun c => flushing c !! 32%nat) <$> run (used ++ next_subscription 65 33) client_new = Some (Some [])
  ∧ (fun c => (subscriptions c, Z.of_nat (size (early_events c)))) <$> run used client_new = Some (∅, EARLY_SUBSCRIPTION_LIMIT).
Proof. vm_compute. done. Qed.

(** The early events of a subscription are sent into its queue after the lock
    is released, so an event that arrives in between overtakes them: the
    subscriber sees the second change before the first. *)
Theorem early_events_overtaken :
  (fun c => queues c !! 0%nat) <$>
    run [Reconnect; subscribe_changes; Deliver 1 (subscribed 1 1); Deliver 1 (event_from (change 1 (bytes "first"))); Register 1;
         Deliver 1 (event_from (change 1 (bytes "second"))); Flush 0] client_new
  = Some (Some [change 1 (bytes "second"); change 1 (bytes "first")]).
Proof. vm_compute. done. Qed.

(** A reader does not check that its connection is still the current one:
    after a reconnection an event the old connection's reader still delivers is
    put into the queue of the new connection's subscription that happens to
    have the same identifier. *)
Theorem old_connection_event_delivered :
  (fun c => (connection c, queues c !! 0%nat)) <$>
    run [Reconnect; Reconnect; subscribe_changes; Deliver 2 (subscribed 1 1); Register 1;
         Deliver 1 (event_from (change 1 (bytes "old")))] client_new
  = Some (Some 2, Some [change 1 (bytes "old")]).
Proof. vm_compute. done. Qed.
