(* ===== verification/Archive.v ===== *)
(** The container archive provider
    (crates/docker-core/src/vfs_providers/archive.rs): every operation downloads
    an archive of the path it is asked for; metadata comes from an index of it,
    and the content of a file is spooled when it is opened.

    The Docker API behind [ContainerArchiveSource] is a parameter: a call yields
    the items its stream will deliver, [None] for one that does not arrive before
    the operation times out.  Dropping the timed-out future drops the same locals
    as returning its error, so a missing item reads as the error [TimedOut]. *)

From S2P Require Import Prelude Error Path Text Utf8 Numbers Model Provider TarIndex TarReader Spool.

Local Open Scope Z_scope.

(** ** The source of archives *)
Abbreviation stream_item := (list byte + VfsError)%type.

Class ContainerArchiveSource (Src : Type) := {
  archive : text → VirtualPath → RequestContext → prog Src (list (option stream_item));
}.

(** [tokio::time::timeout(..)], [map_err(|_| VfsError::TimedOut)] *)
Definition in_time (item : option stream_item) : stream_item := default (inr TimedOut) item.

Definition validate_object_id (object_id : text) : vres () :=
  if is_empty (trim object_id) || contains "000"%byte object_id
  then Err (InvalidInput "empty or NUL-containing Docker object ID")
  else Ok tt.

(** [String::from_utf8] checks and keeps the bytes. *)
Definition virtual_path_string (path : VirtualPath) : vres text :=
  match from_utf8 (VirtualPath_as_bytes path) with
  | Ok _ => Ok (VirtualPath_as_bytes path)
  | _ => Err (InvalidInput "Docker Archive API path is not UTF-8")
  end.

(** The errors of the Engine that [map_archive_error] tells apart. *)
Inductive bollard_error :=
  | DockerResponseServerError (status_code : Z) (message : string)
  | OtherError (message : string).

Definition bollard_to_string (error : bollard_error) : string :=
  match error with DockerResponseServerError _ m | OtherError m => m end.

Definition map_archive_error (error : bollard_error) : VfsError :=
  match error with
  | DockerResponseServerError 401 _ | DockerResponseServerError 403 _ => PermissionDenied
  | DockerResponseServerError 404 _ =>
      Unsupported "Docker Container Archive does not expose this runtime mount path"
  | _ => Unavailable (bollard_to_string error)
  end.

(** The Engine's [download_from_container], outside the sources. *)
Class DownloadApi (Src : Type) := {
  download_from_container : text → text → Src → list (option (list byte + bollard_error)) * Src;
}.

Definition map_item (item : list byte + bollard_error) : stream_item :=
  match item with inl chunk => inl chunk | inr error => inr (map_archive_error error) end.

(** [DockerContainerArchiveSource::archive] *)
Definition docker_archive {Src} `{!DownloadApi Src} (object_id : text) (path : VirtualPath)
  (_context : RequestContext) : prog Src (list (option stream_item)) :=
  lift (validate_object_id object_id);;
  path ← lift (virtual_path_string path);
  ((fun docker =>
    let '(items, docker) := download_from_container object_id path docker in
    (Ok (map (option_map map_item) items), docker)) : prog Src (list (option stream_item))).

Definition docker_source {Src} `{!DownloadApi Src} : ContainerArchiveSource Src :=
  {| archive := docker_archive |}.

(** ** The provider *)
Record ContainerArchiveProvider := {
  object_id : text;
  ap_limits : TarLimits;
  operation_timeout : Z;
  provider_kind : ProviderKind;
  source_label : option string;
  ap_next_handle : Z;
  ap_handles : gmap Z ContentBacking;
}.

Definition with_kind (object_id : text) (limits : TarLimits) (operation_timeout : Z)
  (provider_kind : ProviderKind) (source_label : option string) : vres ContainerArchiveProvider :=
  _ ← validate_object_id object_id;
  _ ← TarLimits_validate limits;
  if operation_timeout =? 0 then Err (InvalidInput "archive timeout must be non-zero")
  else
    Ok {| object_id := object_id; ap_limits := limits; operation_timeout := operation_timeout;
          provider_kind := provider_kind; source_label := source_label;
          ap_next_handle := 1; ap_handles := ∅ |}.

Definition archive_provider_new (object_id : text) (limits : TarLimits) (operation_timeout : Z)
  : vres ContainerArchiveProvider :=
  with_kind object_id limits operation_timeout ContainerArchiveLive None.

Definition set_handles (next : Z) (handles : gmap Z ContentBacking) (self : ContainerArchiveProvider)
  : ContainerArchiveProvider :=
  {| object_id := object_id self; ap_limits := ap_limits self; operation_timeout := operation_timeout self;
     provider_kind := provider_kind self; source_label := source_label self;
     ap_next_handle := next; ap_handles := handles |}.

(** [index.entries()] in the order of the map. *)
Definition index_entries_iter (index : TarIndex) : list TarEntry := snd <$> TarIndex_iter index.

(** A docker archive names the requested file by its last component. *)
Definition named_root (requested_name : list byte) (entry : TarEntry) : bool :=
  (TarPath_depth (te_path entry) =? 1)%nat && bool_decide (TarPath_name (te_path entry) = Some requested_name).

Definition select_archive_root (index : TarIndex) (requested : VirtualPath) : vres TarEntry :=
  if VirtualPath_is_root requested then ok_or NotFound (TarIndex_get index TarPath_root)
  else
    match TarIndex_get index (from_virtual requested) with
    | Some entry => Ok entry
    | None =>
        name ← ok_or NotFound (VirtualPath_file_name requested);
        match List.filter (named_root (VirtualFileName_as_bytes name)) (index_entries_iter index) with
        | [] => Err NotFound
        | [entry] => Ok entry
        | _ => Err (Io "ambiguous Docker archive root")
        end
    end.

(** ** Extraction of one file *)
Section extract.
Context {env : SpoolEnv}.

Abbreviation xprog := (prog (TarStreamReader * ContentSpool)).

(** [writer.push(chunk).await?], the writer dropped with the error. *)
Definition push_chunk (writer : ContentSpoolWriter) (chunk : list byte) : prog ContentSpool ContentSpoolWriter :=
  fun s =>
  match push chunk (writer, s) with
  | (Ok _, (writer, s)) => (Ok writer, s)
  | (Err e, (writer, s)) => (Err e, (ContentSpoolWriter_drop writer s).2)
  | (Panic p, (writer, s)) => (Panic p, (ContentSpoolWriter_drop writer s).2)
  end.

Definition BODY_CHUNK : Z := 128 * 1024.

(** [while let Some(chunk) = reader.read_body_chunk(128 * 1024).await? { … }];
    every turn takes a byte from the reader. *)
Fixpoint copy_body (fuel : nat) (writer : ContentSpoolWriter) : xprog ContentSpoolWriter :=
  match fuel with
  | O => lift (Panic "copy_body out of fuel")
  | S fuel =>
      chunk ← on_err (modify (read_body_chunk BODY_CHUNK)) (call (ContentSpoolWriter_drop writer));
      match chunk with
      | None => mret writer
      | Some chunk =>
          writer ← call (push_chunk writer chunk);
          copy_body fuel writer
      end
  end.

(** The spooling of one entry. *)
Definition spool_entry (entry : TarEntry) : xprog ContentBacking :=
  fuel ← asks (fun r => Ok (available r));
  writer ← copy_body (S fuel) writer_new;
  on_err (modify (complete_consumed_body (te_size entry))) (call (ContentSpoolWriter_drop writer));;
  call (finish writer).

Definition entry_kind_error (kind : TarEntryKind) : VfsError :=
  match kind with
  | TCharacterDevice | TBlockDevice | TNamedPipe | TOther => SpecialFile
  | _ => InvalidInput "archive entry is not a regular file"
  end.

Definition entry_matches (requested : TarPath) (requested_name : list byte) (entry : TarEntry) : bool :=
  bool_decide (te_path entry = requested) || named_root requested_name entry.

(** One turn of the loop: [None] at the end of the archive, else the next
    [result]. *)
Definition extract_turn (limits : TarLimits) (requested : TarPath) (name : list byte) (entries : Z)
  (result : option ContentBacking) : xprog (option (option ContentBacking)) :=
  entry ← modify next_entry;
  match entry with
  | None => mret None
  | Some entry =>
      if entries + 1 >? max_entries limits then throw (Unavailable "tar entry limit exceeded")
      else if negb (entry_matches requested name entry) then
        modify skip_entry_body;;
        mret (Some result)
      else if bool_decide (is_Some result) then throw (Io "ambiguous Docker file archive")
      else if bool_decide (te_kind entry = TDirectory) then throw IsDirectory
      else if negb (bool_decide (te_kind entry = TRegularFile)) then throw (entry_kind_error (te_kind entry))
      else
        backing ← spool_entry entry;
        mret (Some (Some backing))
  end.

Definition drop_result (result : option ContentBacking) : prog ContentSpool () :=
  match result with Some backing => backing_drop backing | None => mret tt end.

(** [while let Some(entry) = reader.next_entry().await? { … }]; a turn takes a
    block from the reader. *)
Fixpoint extract_loop (fuel : nat) (limits : TarLimits) (requested : TarPath) (name : list byte)
  (entries : Z) (result : option ContentBacking) : xprog (option ContentBacking) :=
  match fuel with
  | O => lift (Panic "extract_regular_file out of fuel")
  | S fuel =>
      next ← on_err (extract_turn limits requested name entries result) (call (drop_result result));
      match next with
      | None => mret result
      | Some result => extract_loop fuel limits requested name (entries + 1) result
      end
  end.

Definition extract_regular_file (stream : list stream_item) (requested : VirtualPath) (limits : TarLimits)
  : prog ContentSpool ContentBacking := fun s =>
  let reader := TarStreamReader_new stream limits in
  match ok_or IsDirectory (VirtualPath_file_name requested) with
  | Ok name =>
      match extract_loop (S (available reader)) limits (from_virtual requested) (VirtualFileName_as_bytes name)
              0 None (reader, s) with
      | (Ok result, (_, s)) => (ok_or NotFound result, s)
      | (Err e, (_, s)) => (Err e, s)
      | (Panic p, (_, s)) => (Panic p, s)
      end
  | Err e => (Err e, s)
  | Panic p => (Panic p, s)
  end.

(** ** The operations *)
Context {Src : Type} {src : ContainerArchiveSource Src} {flags_api : FuserFlags}.

(** The provider above the spool and the Docker API. *)
Abbreviation aworld := (ContainerArchiveProvider * (ContentSpool * Src))%type.

Definition on_spool {A} (m : prog ContentSpool A) : prog aworld A := fun '(self, (s, docker)) =>
  let '(r, s) := m s in (r, (self, (s, docker))).

Definition source_archive (path : VirtualPath) (context : RequestContext) : prog aworld (list stream_item) :=
  fun '(self, (s, docker)) =>
  let '(r, docker) := archive (object_id self) path context docker in
  (map in_time <$> r, (self, (s, docker))).

Definition operation_index (path : VirtualPath) (context : RequestContext) : prog aworld TarIndex :=
  limits ← asks (fun self => Ok (ap_limits self));
  stream ← source_archive path context;
  lift (from_stream stream limits).

Definition operation_content (path : VirtualPath) (context : RequestContext) : prog aworld ContentBacking :=
  limits ← asks (fun self => Ok (ap_limits self));
  stream ← source_archive path context;
  on_spool (extract_regular_file stream path limits).

Definition identity_prefix (self : ContainerArchiveProvider) (path : VirtualPath) : list byte :=
  object_id self ++ "000"%byte :: VirtualPath_as_bytes path.

Definition metadata_for (self : ContainerArchiveProvider) (index : TarIndex) (entry : TarEntry)
  (path : VirtualPath) : vres VirtualMetadata :=
  TarIndex_metadata index (te_path entry) (identity_prefix self path) 0.

(** [HashMap::insert] drops a value it replaces. *)
Definition insert_handle (path : VirtualPath) (backing : ContentBacking) : prog aworld ProviderFileHandle :=
  fun '(self, (s, docker)) =>
  let id := ap_next_handle self in
  let s := match ap_handles self !! id with Some old => (backing_drop old s).2 | None => s end in
  (Ok {| handle_id := id; handle_path := path; content_generation := 0 |},
   (set_handles (wrapping_add 64 id 1) (<[id := backing]> (ap_handles self)) self, (s, docker))).

Definition archive_descriptor (self : ContainerArchiveProvider) : ProviderDescriptor :=
  {| kind := provider_kind self; consistency := OperationTimeRead; source := source_label self;
     capabilities := Capabilities.READ_ONLY |}.

Definition archive_getattr (path : VirtualPath) (context : RequestContext) : prog aworld VirtualMetadata :=
  if VirtualPath_is_root path
  then asks (fun self => Ok (VirtualMetadata_directory (identity_prefix self path)))
  else
    index ← operation_index path context;
    entry ← lift (select_archive_root index path);
    asks (fun self => metadata_for self index entry path).

Definition archive_lookup (parent : VirtualPath) (name : VirtualFileName) (context : RequestContext)
  : prog aworld VirtualMetadata :=
  path ← lift (VirtualPath_join parent name);
  archive_getattr path context.

(** The entry of one child of the archive root. *)
Definition archive_child (self : ContainerArchiveProvider) (index : TarIndex) (path : VirtualPath)
  (child : TarEntry) : vres VirtualDirectoryEntry :=
  name ← ok_or NotFound (TarPath_name (te_path child));
  name ← VirtualFileName_new name;
  child_path ← VirtualPath_join path name;
  metadata ← metadata_for self index child child_path;
  Ok (mkVirtualDirectoryEntry name metadata).

Definition archive_read_dir (path : VirtualPath) (context : RequestContext)
  : prog aworld (list VirtualDirectoryEntry) :=
  index ← operation_index path context;
  archive_root ← lift (select_archive_root index path);
  if negb (bool_decide (te_kind archive_root = TDirectory)) then throw NotDirectory
  else
    entries ← asks (fun self => mapM_result (archive_child self index path) (children index (te_path archive_root)));
    mret (sort_by entry_cmp entries).

Definition archive_read_link (path : VirtualPath) (context : RequestContext) : prog aworld VirtualPathBytes :=
  index ← operation_index path context;
  entry ← lift (select_archive_root index path);
  if negb (bool_decide (te_kind entry = TSymlink)) then throw (InvalidInput "node is not a symlink")
  else lift (VirtualPathBytes_new (default [] (te_link_target entry))).

Definition archive_open (path : VirtualPath) (flags : Z) (context : RequestContext)
  : prog aworld ProviderFileHandle :=
  if negb (is_read_only_open flags) then throw ReadOnly
  else
    backing ← operation_content path context;
    insert_handle path backing.

(** A read of a cloned backing, which is dropped when the read returns. *)
Definition read_clone (backing : ContentBacking) (offset size : Z) : prog ContentSpool (list byte) := fun s =>
  let '(_, s) := backing_clone backing s in
  let '(r, s) := read_at backing offset size s in
  (r, (backing_drop backing s).2).

Definition archive_read_at (handle : ProviderFileHandle) (offset size : Z) : prog aworld (list byte) :=
  backing ← asks (fun self => ok_or BadHandle (ap_handles self !! handle_id handle));
  on_spool (read_clone backing offset size).

Definition archive_close (handle : ProviderFileHandle) : prog aworld () :=
  backing ← modify (fun self =>
    (ok_or BadHandle (ap_handles self !! handle_id handle),
     set_handles (ap_next_handle self) (delete (handle_id handle) (ap_handles self)) self));
  on_spool (backing_drop backing).

#[export] Instance archive_provider : ReadOnlyFilesystemProvider aworld () := {
  p_descriptor _ w := archive_descriptor w.1;
  p_lookup _ := archive_lookup;
  p_getattr _ := archive_getattr;
  p_read_dir _ := archive_read_dir;
  p_read_link _ := archive_read_link;
  p_open _ := archive_open;
  p_read_at _ handle offset size _ := archive_read_at handle offset size;
  p_close _ := archive_close;
  p_refresh _ _ := mret tt;
}.

#[export] Instance archive_ProviderLaws : ProviderLaws aworld ().
Proof.
  split; cbn.
  - intros _ path flags ctx w Hf. unfold archive_open. by rewrite Hf.
  - done.
Qed.

(** ** Extraction is spooling

    The chunks that [read_body_chunk] will return depend only on the reader. *)
Lemma read_body_chunk_ok r n body rest :
  input_ok r → current_size r = Some n → n = len body → rem r = body ++ rest → body ≠ [] →
  ∃ chunk body' r', read_body_chunk BODY_CHUNK r = (Ok (Some chunk), r') ∧ body = chunk ++ body' ∧ chunk ≠ []
    ∧ input_ok r' ∧ current_size r' = Some (len body') ∧ rem r' = body' ++ rest
    ∧ core (set_current_size r' None) = core (set_current_size r None).
Proof.
  intros Hi Hs -> Hr Hb. unfold read_body_chunk, mbind, prog_bind, gets, lift. rewrite Hs. cbn [ok_or].
  pose proof (len_nonneg body). rewrite (proj2 (Z.eqb_neq _ _)) by (destruct body; [done | unfold len; cbn; lia]).
  destruct (fill_ok r Hi) as (r1 & -> & (Hi1 & Hc1 & Hr1) & He). rewrite drop_0, Hr in Hr1.
  destruct (is_empty (buffer r1)) eqn:E.
  { apply is_empty_true in E. rewrite (He E) in Hr1. by destruct body. }
  apply is_empty_false in E. set (k := Z.to_nat (Z.min (Z.min (Z.max BODY_CHUNK 1) (len (buffer r1))) (len body))).
  assert (0 < k ≤ length (buffer r1) ∧ k ≤ length body)%nat as [Hk Hk'].
  { unfold k, BODY_CHUNK, len. destruct (buffer r1); [done |]. destruct body; [done |]. cbn [length]. lia. }
  assert (take k (buffer r1) = take k body) as Htake.
  { rewrite <- (take_app_le (buffer r1) (stream r1 ≫= item_bytes)) by lia. fold (rem r1). rewrite Hr1.
    by apply take_app_le. }
  exists (take k body), (drop k body). eexists. split_and!; [by rewrite Htake | by rewrite take_drop | | | | |].
  - intros H0. apply (f_equal length) in H0. rewrite length_take in H0. cbn in H0. lia.
  - by destruct Hi1; split.
  - cbn [current_size set_current_size set_buffer set_input]. f_equal. change (len (drop k body)) with (Z.of_nat (length (drop k body))). rewrite length_drop, Nat2Z.inj_sub by done.
    unfold k. rewrite Z2Nat.id by (unfold BODY_CHUNK, len; lia). unfold len. lia.
  - unfold rem in *. cbn. rewrite <- (drop_app_le (buffer r1)) by lia. rewrite Hr1. apply drop_app_le. lia.
  - transitivity (core (set_current_size r1 None)); [by destruct r1 |].
    destruct (core_fields _ _ Hc1) as (? & ? & ? & ? & ? & ? & ?). destruct r, r1. cbn in *. by subst.
Qed.

Fixpoint push_all (writer : ContentSpoolWriter) (chunks : list (list byte)) : prog ContentSpool ContentSpoolWriter :=
  match chunks with
  | [] => mret writer
  | chunk :: chunks => writer ← push_chunk writer chunk; push_all writer chunks
  end.

Lemma spool_loop_push_all chunks w s :
  spool_loop w (Ok <$> chunks) s = (w ← push_all w chunks; finish w) s.
Proof.
  revert w s. induction chunks as [|chunk chunks IH]; intros w s; [done |].
  cbn [fmap list_fmap spool_loop push_all]. unfold mbind, prog_bind, push_chunk.
  destruct (push chunk (w, s)) as [[[]|e|m] [w' s']]; [| done | done]. rewrite IH. done.
Qed.

(** A program on the spool, run beside a reader that ends in [r']; when it
    fails the reader may be anything. *)
Definition beside {A} (x : vres A * (TarStreamReader * ContentSpool)) (y : vres A * ContentSpool) (r' : TarStreamReader) : Prop :=
  x.1 = y.1 ∧ x.2.2 = y.2 ∧ (is_ok y.1 = true → x.2.1 = r').

Lemma copy_body_ok fuel r body rest :
  input_ok r → current_size r = Some (len body) → rem r = body ++ rest → (length body < fuel)%nat →
  ∃ chunks r', concat chunks = body ∧ input_ok r' ∧ current_size r' = Some 0 ∧ rem r' = rest
    ∧ core (set_current_size r' None) = core (set_current_size r None)
    ∧ ∀ w s, beside (copy_body fuel w (r, s)) (push_all w chunks s) r'.
Proof.
  revert r body. induction fuel as [|fuel IH]; intros r body Hi Hs Hr Hf; [lia |].
  destruct (decide (body = [])) as [->|Hb].
  { exists [], r. split_and!; try done. intros w s. cbn [copy_body]. unfold mbind, prog_bind, on_err, modify.
    cbn [fst]. unfold read_body_chunk, mbind, prog_bind, gets, lift. rewrite Hs. by cbn. }
  destruct (read_body_chunk_ok r _ body rest Hi Hs eq_refl Hr Hb)
    as (chunk & body' & r1 & Hread & -> & Hc & Hi1 & Hs1 & Hr1 & Hcore).
  destruct (IH r1 body' Hi1 Hs1 Hr1) as (chunks & r' & <- & Hi' & Hs' & Hr' & Hcore' & Hrun).
  { rewrite length_app in Hf. destruct chunk; [done |]. cbn in Hf. lia. }
  exists (chunk :: chunks), r'. split_and!; [done.. | congruence |].
  intros w s. cbn [copy_body push_all]. unfold mbind, prog_bind, on_err, modify. cbn [fst snd]. rewrite Hread.
  unfold call. cbn [fst snd]. destruct (push_chunk w chunk s) as [[w1|e|m] s1]; [| done | done]. apply Hrun.
Qed.

(** Spooling an entry of an archive is spooling some division of its body. *)
Lemma spool_entry_ok limits r h body p rest :
  input_ok r → core r = core (TarStreamReader_new [] limits) → rh_size h = len body →
  rem r = body ++ replicate (Z.to_nat (padding (len body) (len body))) "000"%byte ++ rest →
  ∃ chunks r', concat chunks = body ∧ at_entry limits r' rest
    ∧ ∀ s, beside (spool_entry (entry_of h p) (set_current_size r (Some (rh_size h)), s)) (spool (Ok <$> chunks) s) r'.
Proof.
  intros Hi Hc Hs Hr. set (r1 := set_current_size r _).
  assert (input_ok r1) as Hi1 by (by destruct Hi; split).
  destruct (copy_body_ok (S (available r1)) r1 body
    (replicate (Z.to_nat (padding (len body) (len body))) "000"%byte ++ rest) Hi1) as (chunks & r2 & Hch & Hi2 & Hs2 & Hr2 & Hc2 & Hrun).
  { cbn. by rewrite Hs. }
  { exact Hr. }
  { rewrite available_rem. replace (rem r1) with (rem r) by done. rewrite Hr, length_app. lia. }
  set (r3 := set_current_size r2 None).
  destruct (skip_padding limits r3 body rest) as (r4 & Hpad & Hat).
  { by destruct Hi2; split. }
  { unfold r3. rewrite Hc2. unfold r1. by apply clear_current_size. }
  { exact Hr2. }
  exists chunks, r4. split_and!; [done | done |]. intros s. unfold spool. rewrite spool_loop_push_all.
  unfold spool_entry, mbind, prog_bind, asks. cbn [fst]. destruct (Hrun writer_new s) as (H1 & H2 & H3).
  destruct (copy_body (S (available r1)) writer_new (r1, s)) as [x [r' s']], (push_all writer_new chunks s) as [y s''].
  cbn in H1, H2, H3. subst x s''. destruct y as [w|e|m]; [| done | done]. rewrite H3 by done.
  unfold on_err, modify. cbn [fst snd]. unfold complete_consumed_body, mbind, prog_bind, gets, update, lift.
  rewrite Hs2. cbn [ok_or negb Z.eqb]. fold r3. change (te_size (entry_of h p)) with (rh_size h). rewrite Hs, Hpad.
  unfold call. cbn [snd fst]. by destruct (finish w s').
Qed.

(** *** The loop over the entries of an archive *)
Section archive_run.
Context (limits : TarLimits) (requested : TarPath) (name : list byte).

Abbreviation loop := (fun fuel => extract_loop fuel limits requested name).
Abbreviation skipped := (fun e : RawHeader * list byte * TarPath =>
  plain_entry limits e.1.1 e.1.2 e.2 ∧ entry_matches requested name (entry_of e.1.1 e.2) = false).

Lemma extract_skip_one fuel entries r h body p rest :
  at_entry limits r (encode_entry (h, body) ++ rest) → skipped (h, body, p) → entries + 1 ≤ max_entries limits →
  ∃ r', at_entry limits r' rest
    ∧ ∀ result s, loop (S fuel) entries result (r, s) = loop fuel (entries + 1) result (r', s).
Proof.
  intros Ha [Hp Hm] He. cbn [fst snd] in Hp, Hm. destruct (next_entry_plain _ _ _ _ _ _ Ha Hp) as (r' & Hskip & Hnext & Hat).
  exists r'. split; [done |]. intros result s. unfold mbind, prog_bind in Hskip. rewrite Hnext in Hskip.
  cbn [extract_loop]. unfold mbind, prog_bind, on_err, extract_turn, mbind, prog_bind, modify. cbn [fst snd].
  rewrite Hnext. rewrite Z.gtb_ltb, (proj2 (Z.ltb_ge _ _)) by done. rewrite Hm. cbn [negb fst snd].
  by rewrite Hskip.
Qed.

Lemma extract_skip es fuel entries r rest :
  at_entry limits r (concat (encode_entry <$> es.*1) ++ rest) → Forall skipped es →
  entries + Z.of_nat (length es) ≤ max_entries limits →
  ∃ r', at_entry limits r' rest ∧ ∀ result s,
    loop (length es + fuel)%nat entries result (r, s) = loop fuel (entries + Z.of_nat (length es)) result (r', s).
Proof.
  revert entries r. induction es as [|[[h body] p] es IH]; intros entries r Ha Hes He.
  { exists r. by rewrite Z.add_0_r. }
  apply Forall_cons_iff in Hes as [Hp Hes]. cbn [fmap list_fmap fst concat] in Ha. rewrite <- app_assoc in Ha.
  cbn [length] in *. destruct (extract_skip_one (length es + fuel) entries r h body p _ Ha Hp) as (r1 & Ha1 & Heq);
    [lia |].
  destruct (IH (entries + 1) r1 Ha1 Hes) as (r' & Ha' & Heq'); [lia |].
  exists r'. split; [done |]. intros result s. cbn [plus]. rewrite Heq, Heq'. f_equal. lia.
Qed.

Lemma extract_end fuel entries result r s :
  at_entry limits r (replicate 1024 "000"%byte) →
  ∃ r', loop (S fuel) entries result (r, s) = (Ok result, (r', s)).
Proof.
  intros Ha. pose proof (next_entry_end _ _ Ha) as He. cbn [extract_loop].
  unfold mbind, prog_bind, on_err, extract_turn, mbind, prog_bind, modify. cbn [fst snd].
  destruct (next_entry r) as [x r']. cbn in He. subst x. by exists r'.
Qed.

Lemma extract_hit fuel entries r h body p rest :
  at_entry limits r (encode_entry (h, body) ++ rest) → plain_entry limits h body p →
  entry_matches requested name (entry_of h p) = true → rh_kind h = TRegularFile →
  entries + 1 ≤ max_entries limits →
  ∃ chunks r', concat chunks = body ∧ at_entry limits r' rest ∧ ∀ s,
    match spool (Ok <$> chunks) s with
    | (Ok b, s') => loop (S fuel) entries None (r, s) = loop fuel (entries + 1) (Some b) (r', s')
    | (x, s') => ∃ r'' y, loop (S fuel) entries None (r, s) = (y, (r'', s')) ∧ is_ok y = false ∧ is_panic y = is_panic x
    end.
Proof.
  intros Ha Hp Hm Hk He. destruct (next_entry_state _ _ _ _ _ _ Ha Hp) as (r1 & Hnext & Hi1 & Hc1 & Hr1).
  destruct (pe_size _ _ _ _ Hp) as [Hs _].
  destruct (spool_entry_ok limits r1 h body p rest Hi1 Hc1 Hs Hr1) as (chunks & r2 & Hch & Hat & Hrun).
  exists chunks, r2. split_and!; [done | done |]. intros s. destruct (Hrun s) as (H1 & H2 & H3).
  cbn [extract_loop]. unfold mbind, prog_bind, on_err, extract_turn, mbind, prog_bind, modify. cbn [fst snd].
  rewrite Hnext. rewrite Z.gtb_ltb, (proj2 (Z.ltb_ge _ _)) by done. rewrite Hm. cbn [negb te_kind entry_of].
  rewrite Hk. rewrite (bool_decide_eq_false_2 (is_Some None)) by (by intros [? ?]).
  rewrite bool_decide_eq_false_2, bool_decide_eq_true_2 by done. cbn [negb].
  destruct (spool (Ok <$> chunks) s) as [y s'], (spool_entry (entry_of h p) _) as [x [r' s'']].
  cbn in H1, H2, H3. subst x s''. destruct y as [b|e|m]; cbn; [by rewrite H3 | eauto..].
Qed.

(** Extraction of the only match of an archive. *)
Lemma extract_loop_ok chunks before h body p after fuel :
  let es := before ++ (h, body, p) :: after in
  Forall skipped before → Forall skipped after → plain_entry limits h body p →
  entry_matches requested name (entry_of h p) = true → rh_kind h = TRegularFile →
  Z.of_nat (length es) ≤ max_entries limits → (length es < fuel)%nat →
  concat chunks = encode_archive es.*1 → len (encode_archive es.*1) ≤ max_archive_bytes limits ≤ u64_max →
  ∃ parts, concat parts = body ∧ ∀ s,
    match spool (Ok <$> parts) s with
    | (Ok b, s') => ∃ r', loop fuel 0 None (TarStreamReader_new (inl <$> chunks) limits, s) = (Ok (Some b), (r', s'))
    | (x, s') => ∃ r' y, loop fuel 0 None (TarStreamReader_new (inl <$> chunks) limits, s) = (y, (r', s'))
        ∧ is_ok y = false ∧ is_panic y = is_panic x
    end.
Proof.
  intros es Hb Hafter Hp Hm Hk Hn Hf Hc Hl.
  destruct (TarStreamReader_new_input_ok chunks limits) as [Hi Hr]; [by rewrite Hc |]. rewrite Hc in Hr.
  set (r0 := TarStreamReader_new _ _) in *. unfold es in *. rewrite length_app in Hn, Hf. cbn [length] in Hn, Hf.
  assert (at_entry limits r0 (concat (encode_entry <$> before.*1)
    ++ (encode_entry (h, body) ++ concat (encode_entry <$> after.*1) ++ replicate 1024 "000"%byte))) as Ha.
  { split; [done | done |]. rewrite Hr. unfold encode_archive. rewrite !fmap_app, concat_app. cbn [fmap list_fmap fst concat].
    by rewrite <- !app_assoc. }
  assert (∃ f2, fuel = (length before + S (length after + S f2))%nat) as [f2 ->]
    by (exists (fuel - length before - length after - 2)%nat; lia).
  destruct (extract_skip before (S (length after + S f2)) 0 r0 _ Ha Hb) as (r1 & Ha1 & Heq1); [lia |].
  destruct (extract_hit (length after + S f2) (0 + Z.of_nat (length before)) r1 h body p _ Ha1 Hp Hm Hk) as (parts & r2 & Hpc & Ha2 & Hrun);
    [lia |].
  exists parts. split; [done |]. intros s. rewrite Heq1. specialize (Hrun s).
  destruct (spool (Ok <$> parts) s) as [[b|e|m] s']; [| by destruct Hrun as (r' & y & ? & ? & ?); eauto..].
  rewrite Hrun. destruct (extract_skip after (S f2) (0 + Z.of_nat (length before) + 1) r2 _ Ha2 Hafter) as (r3 & Ha3 & Heq3);
    [lia |].
  rewrite Heq3.
  destruct (extract_end f2 (0 + Z.of_nat (length before) + 1 + Z.of_nat (length after)) (Some b) r3 s' Ha3) as (r4 & ->). eauto.
Qed.

End archive_run.

(** The archive [chunks] are a division of holds one entry for [path], a regular
    file with the content [body]. *)
Definition serves_file (limits : TarLimits) (path : VirtualPath) (chunks : list (list byte)) (body : list byte) : Prop :=
  ∃ name before h p after,
    let es := before ++ (h, body, p) :: after in
    let matching e := entry_matches (from_virtual path) (VirtualFileName_as_bytes name) (entry_of e.1.1 e.2) in
    VirtualPath_file_name path = Some name
    ∧ Forall (fun e => plain_entry limits e.1.1 e.1.2 e.2) es
    ∧ rh_kind h = TRegularFile ∧ matching (h, body, p) = true
    ∧ Forall (fun e => matching e = false) (before ++ after)
    ∧ Z.of_nat (length es) ≤ max_entries limits
    ∧ concat chunks = encode_archive es.*1
    ∧ len (encode_archive es.*1) ≤ max_archive_bytes limits ≤ u64_max.

Lemma extract_regular_file_ok limits path chunks body :
  serves_file limits path chunks body →
  ∃ parts, concat parts = body ∧ ∀ s,
    match spool (Ok <$> parts) s with
    | (Ok b, s') => extract_regular_file (inl <$> chunks) path limits s = (Ok b, s')
    | (x, s') => ∃ y, extract_regular_file (inl <$> chunks) path limits s = (y, s') ∧ is_ok y = false ∧ is_panic y = is_panic x
    end.
Proof.
  intros (name & before & h & p & after & Hname & Hes & Hk & Hm & Hnot & Hn & Hc & Hl).
  pose proof Hes as Hes'. apply Forall_app in Hes' as [H1 [Hp H2]%Forall_cons_iff]. apply Forall_app in Hnot as [N1 N2].
  pose proof (encode_archive_length _ _ Hes) as Hlen.
  destruct (TarStreamReader_new_input_ok chunks limits) as [_ Hr]; [by rewrite Hc |].
  destruct (extract_loop_ok limits (from_virtual path) (VirtualFileName_as_bytes name) chunks before h body p after
    (S (available (TarStreamReader_new (inl <$> chunks) limits)))) as (parts & Hparts & Hrun); try done.
  { apply list.Forall_forall. intros e He. split; [by eapply list.Forall_forall in H1 | by eapply list.Forall_forall in N1]. }
  { apply list.Forall_forall. intros e He. split; [by eapply list.Forall_forall in H2 | by eapply list.Forall_forall in N2]. }
  { rewrite available_rem, Hr, Hc. lia. }
  exists parts. split; [done |]. intros s. specialize (Hrun s). unfold extract_regular_file. rewrite Hname. cbn [ok_or].
  destruct (spool (Ok <$> parts) s) as [[b|e|m] s'].
  - by destruct Hrun as (r' & ->).
  - destruct Hrun as (r' & [|?|?] & -> & ? & ?); [done | eauto..].
  - destruct Hrun as (r' & [|?|?] & -> & ? & ?); [done | eauto..].
Qed.

(** What a spool call gives, in the terms of [content]. *)
Lemma spool_result s chunks r s' :
  spool_ok s → spool (Ok <$> chunks) s = (r, s') →
  (∀ b, r = Ok b → content s' b = concat chunks ∧ backing_fits b) ∧ (is_ok r = false → restored s s').
Proof.
  intros (Hf & Hres & Hmax & Hth) H. unfold spool in H.
  apply spool_loop_spec with (s0 := s) (acc := []) in H as (O & E & _);
    [| unfold u64_max in *; lia | done | by apply session_start |].
  2: { split_and!; try done. symmetry. apply Z.leb_le. by rewrite len_nil. }
  split; [| done]. intros b Hb. destruct (O b Hb) as (chunks' & Heq & [S1 S2 S3 S4 S5 S6]).
  apply (list_fmap_eq_inj (B := vres (list byte)) Ok) in Heq as <-; [| by intros ?? [= ->]]. rewrite app_nil_l in *. split; [done |].
  destruct b as [| bs |]; try done. cbn in S1. subst bs. cbn. unfold u64_max, usize_max in *. lia.
Qed.

Lemma read_clone_spec b offset size s :
  0 ≤ offset → 0 ≤ size → backing_fits b →
  io_outcome (read_clone b offset size s).1 (slice offset size (content s b)).
Proof.
  intros Ho Hs Hb. unfold read_clone. destruct (backing_clone b s) as [rc s1] eqn:Hc.
  assert (content s1 b = content s b) as <-.
  { unfold backing_clone in Hc. destruct (backing_lease b); injection Hc as <- <-; [| done]. by destruct b. }
  pose proof (read_at_spec b offset size s1 Ho Hs Hb) as [_ H]. by destruct (read_at b offset size s1).
Qed.


(** ** The provider as a client of the spool

    Whatever archives Docker delivers, what the provider does to the spool is a
    sequence of the spool's own steps, at whose end it holds one backing for each
    open handle. *)
Section reach.
Context (dir : PathBuf) (l : ContentSpoolLimits) (lim : TarLimits).
Hypothesis Hl : 0 ≤ max_total_bytes l ≤ u64_max.

Abbreviation reach s ws bs := (reachable dir l (mkSystem s ws bs)).

Lemma reach_step sys sys' : reachable dir l sys → spool_step sys sys' → reachable dir l sys'.
Proof. intros (s & Hs & Hr) Hstep. exists s. split; [done |]. by eapply rtc_r. Qed.

Lemma reach_inv sys : reachable dir l sys → system_inv sys.
Proof. intros Hr. by apply (reachable_simulated dir l sys Hl Hr). Qed.

Lemma push_chunk_reach s ws bs id w chunk x s' :
  reach s (<[id := w]> ws) bs → ws !! id = None → push_chunk w chunk s = (x, s') →
  match x with
  | Ok w' => reach s' (<[id := w']> ws) bs
  | Err _ => reach s' ws bs
  | Panic _ => False
  end.
Proof.
  intros Hr Hid H. unfold push_chunk in H. destruct (push chunk (w, s)) as [r [w' s1]] eqn:Hp.
  assert (<[id := w]> ws !! id = Some w) as Hw by apply lookup_insert_eq.
  pose proof (reach_inv _ Hr) as Hi. destruct (inv_writers _ Hi id w Hw) as (_ & Ht & _).
  pose proof (pushed_no_panic _ _ _ _ _ _ (push_spec _ _ _ _ _ _ Hp (inv_files _ Hi) Ht)) as Hn.
  destruct r as [[]|e|m]; [| | done]; injection H as <- <-.
  - replace (<[id := w']> ws) with (<[id := w']> (<[id := w]> ws)) by apply insert_insert_eq. eapply reach_step; [exact Hr |]. by eapply step_push.
  - replace ws with (delete id (<[id := w]> ws)) by (by rewrite delete_insert_id).
    eapply reach_step; [exact Hr |]. by eapply step_push_fail.
Qed.

Lemma writer_drop_reach s ws bs id w :
  reach s (<[id := w]> ws) bs → ws !! id = None → reach (ContentSpoolWriter_drop w s).2 ws bs.
Proof.
  intros Hr Hid. replace ws with (delete id (<[id := w]> ws)) by (by rewrite delete_insert_id).
  eapply reach_step; [exact Hr |]. eapply step_abandon, lookup_insert_eq.
Qed.

Lemma finish_reach s ws bs id bid w x s' :
  reach s (<[id := w]> ws) bs → ws !! id = None → bs !! bid = None → finish w s = (x, s') →
  match x with
  | Ok b => reach s' ws (<[bid := b]> bs)
  | Err _ => reach s' ws bs
  | Panic _ => False
  end.
Proof.
  intros Hr Hid Hb H. assert (<[id := w]> ws !! id = Some w) as Hw by apply lookup_insert_eq.
  pose proof (reach_inv _ Hr) as Hi. destruct (inv_writers _ Hi id w Hw) as (_ & Ht & _).
  pose proof (proj1 (writer_finish_spec _ _ _ _ H Ht)) as Hn.
  replace ws with (delete id (<[id := w]> ws)) by (by rewrite delete_insert_id).
  destruct x as [b|e|m]; [| | done]; (eapply reach_step; [exact Hr |]); [by eapply step_finish | by eapply step_finish_fail].
Qed.

Lemma read_body_chunk_runs r :
  reader_inv lim r →
  reader_inv lim (read_body_chunk BODY_CHUNK r).2
  ∧ safe (read_body_chunk BODY_CHUNK r).1
      (fun o => (available (read_body_chunk BODY_CHUNK r).2 + (if o is Some _ then 1 else 0) ≤ available r)%nat).
Proof.
  intros Hi. unfold read_body_chunk, mbind, prog_bind, gets, lift.
  destruct (current_size r) as [n|] eqn:Hn; cbn [ok_or]; [| done]. destruct (Z.eqb_spec n 0); [cbn; split; [done | lia] |].
  destruct (runs_fill lim (S (available r)) r Hi (Nat.lt_succ_diag_r _)) as [Hi1 Hs1].
  destruct (fill r) as [[u|e|m] r1]; cbn [fst snd safe] in *; [| done | done].
  destruct (is_empty (buffer r1)) eqn:E; [done |]. apply is_empty_false in E. cbn [update fst snd].
  pose proof (ri_current _ _ Hi n Hn) as H0.
  set (k := Z.min _ n). assert (0 < k ≤ len (buffer r1) ∧ k ≤ n) as [Hk Hkn].
  { unfold k, BODY_CHUNK, len. destruct (buffer r1); [done |]. cbn [length]. lia. }
  split.
  - destruct Hi1. split; try done. cbn. intros s [= <-]. lia.
  - cbn [mret prog_ret fst snd safe]. unfold available in *. cbn [buffer stream set_current_size set_buffer set_input].
    rewrite length_drop. unfold len in Hk. lia.
Qed.

Lemma copy_body_reach fuel w r s ws bs id x r' s' :
  reach s (<[id := w]> ws) bs → ws !! id = None → reader_inv lim r → (available r < fuel)%nat →
  copy_body fuel w (r, s) = (x, (r', s')) →
  reader_inv lim r' ∧
  match x with
  | Ok w' => reach s' (<[id := w']> ws) bs ∧ (available r' ≤ available r)%nat
  | Err _ => reach s' ws bs
  | Panic _ => False
  end.
Proof.
  revert w r s. induction fuel as [|fuel IH]; intros w r s Hr Hid Hi Ha H; [lia |].
  cbn [copy_body] in H. unfold mbind, prog_bind, on_err, modify, call in H. cbn [fst snd] in H.
  destruct (read_body_chunk_runs r Hi) as [Hi1 Hs1].
  destruct (read_body_chunk BODY_CHUNK r) as [[o|e|m] r1]; cbn [fst snd safe] in *; [| | done].
  2: { pose proof (writer_drop_reach _ _ _ _ _ Hr Hid) as Hd.
       destruct (ContentSpoolWriter_drop w s) as [y s1]. by injection H as <- <- <-. }
  destruct o as [chunk|]; [| injection H as <- <- <-; split_and!; [done | done | lia]].
  cbn [fst snd] in H. destruct (push_chunk w chunk s) as [y s1] eqn:Hp. pose proof (push_chunk_reach _ _ _ _ _ _ _ _ Hr Hid Hp) as Hr1.
  destruct y as [w1|e|m]; [| by injection H as <- <- <- | done].
  destruct (IH w1 r1 s1 Hr1 Hid Hi1 ltac:(lia) H) as [Hi2 Hx]. split; [done |].
  destruct x; [| done | done]. split; [by apply Hx |]. destruct Hx. lia.
Qed.

Lemma complete_consumed_body_runs n size : runs lim n 0 (complete_consumed_body size) (fun _ => True).
Proof.
  eapply runs_bind0; [apply runs_gets |]. intros current (r & Hi & _ & <-).
  eapply runs_bind0; [apply runs_update; intros s []; split; [split; try done; cbn; discriminate | unfold available; cbn; lia] |].
  intros _ _. eapply runs_bind0; [apply runs_lift, safe_ok_or |]. intros remaining _.
  destruct (negb _); [apply runs_throw |]. eapply runs_any, runs_skip_exact, padding_range.
Qed.

Lemma spool_entry_reach entry r s ws bs id bid x r' s' :
  reach s ws bs → ws !! id = None → bs !! bid = None → reader_inv lim r →
  spool_entry entry (r, s) = (x, (r', s')) →
  reader_inv lim r' ∧
  match x with
  | Ok b => reach s' ws (<[bid := b]> bs) ∧ (available r' ≤ available r)%nat
  | Err _ => reach s' ws bs
  | Panic _ => False
  end.
Proof.
  intros Hr Hid Hb Hi H. unfold spool_entry, mbind, prog_bind, asks in H. cbn [fst snd] in H.
  assert (reach s (<[id := writer_new]> ws) bs) as Hr0 by (eapply reach_step; [exact Hr | by apply step_writer]).
  destruct (copy_body (S (available r)) writer_new (r, s)) as [y [r1 s1]] eqn:Hc.
  destruct (copy_body_reach _ _ _ _ _ _ _ _ _ _ Hr0 Hid Hi (Nat.lt_succ_diag_r _) Hc) as [Hi1 H1].
  destruct y as [w|e|m]; [| by injection H as <- <- <- | done]. destruct H1 as [Hr1 Ha1].
  unfold on_err, modify, call in H. cbn [fst snd] in H.
  destruct (complete_consumed_body_runs (S (available r1)) (te_size entry) r1 Hi1 (Nat.lt_succ_diag_r _)) as [Hi2 Hs2].
  destruct (complete_consumed_body (te_size entry) r1) as [[u|e|m] r2]; cbn [fst snd safe] in *; [| | done].
  2: { pose proof (writer_drop_reach _ _ _ _ _ Hr1 Hid) as Hd.
       destruct (ContentSpoolWriter_drop w s1) as [z s2]. by injection H as <- <- <-. }
  destruct (finish w s1) as [z s2] eqn:Hf. pose proof (finish_reach _ _ _ _ bid _ _ _ Hr1 Hid Hb Hf) as Hr2.
  injection H as <- <- <-. split; [done |]. destruct z; [split; [done | lia] | done | done].
Qed.

(** The backings of a system in which an extraction holds [result]. *)
Definition with_result (bid : nat) (result : option ContentBacking) (bs : gmap nat ContentBacking) :=
  match result with Some b => <[bid := b]> bs | None => bs end.

Lemma drop_reach s ws bs bid b :
  reach s ws (<[bid := b]> bs) → bs !! bid = None → reach (backing_drop b s).2 ws bs.
Proof.
  intros Hr Hb. replace bs with (delete bid (<[bid := b]> bs)) by (by rewrite delete_insert_id).
  eapply reach_step; [exact Hr |]. eapply step_drop, lookup_insert_eq.
Qed.

Lemma extract_turn_reach requested name entries result r s ws bs id bid x r' s' :
  reach s ws (with_result bid result bs) → ws !! id = None → bs !! bid = None → reader_inv lim r →
  extract_turn lim requested name entries result (r, s) = (x, (r', s')) →
  reader_inv lim r' ∧
  match x with
  | Ok None => reach s' ws (with_result bid result bs)
  | Ok (Some result') => reach s' ws (with_result bid result' bs) ∧ (available r' + 1 ≤ available r)%nat
  | Err _ => reach s' ws (with_result bid result bs)
  | Panic _ => False
  end.
Proof.
  intros Hr Hid Hb Hi H. unfold extract_turn, mbind, prog_bind, modify in H. cbn [fst snd] in H.
  destruct (runs_next_entry lim (S (available r)) r Hi (Nat.lt_succ_diag_r _)) as [Hi1 Hs1].
  pose proof (next_entry_cost lim r) as Hcost.
  destruct (next_entry r) as [[[entry|]|e|m] r1]; cbn [fst snd safe] in *; [| by injection H as <- <- <-.. | done].
  specialize (Hcost _ Hi eq_refl).
  destruct (_ >? _); [by injection H as <- <- <- |].
  destruct (negb (entry_matches requested name entry)).
  { cbn [fst snd] in H. destruct (runs_skip_entry_body lim (S (available r1)) r1 Hi1 (Nat.lt_succ_diag_r _)) as [Hi2 Hs2].
    destruct (skip_entry_body r1) as [[u|e|m] r2]; cbn [fst snd safe] in *; injection H as <- <- <-;
      [split_and!; [done | done | lia] | done | done]. }
  destruct result as [b|]; [by injection H as <- <- <- |].
  destruct (bool_decide (is_Some None)); [by injection H as <- <- <- |].
  destruct (bool_decide _); [by injection H as <- <- <- |]. destruct (negb _); [by injection H as <- <- <- |].
  destruct (spool_entry entry (r1, s)) as [y [r2 s2]] eqn:Hsp.
  destruct (spool_entry_reach _ _ _ _ _ _ bid _ _ _ Hr Hid Hb Hi1 Hsp) as [Hi2 H2].
  destruct y as [b|e|m]; injection H as <- <- <-; [| done | done]. cbn. split_and!; [done | by apply H2 | destruct H2; lia].
Qed.

Lemma extract_loop_reach fuel requested name entries result r s ws bs id bid x r' s' :
  reach s ws (with_result bid result bs) → ws !! id = None → bs !! bid = None → reader_inv lim r →
  (available r < fuel)%nat → extract_loop fuel lim requested name entries result (r, s) = (x, (r', s')) →
  match x with
  | Ok result' => reach s' ws (with_result bid result' bs)
  | Err _ => reach s' ws bs
  | Panic _ => False
  end.
Proof.
  revert entries result r s. induction fuel as [|fuel IH]; intros entries result r s Hr Hid Hb Hi Ha H; [lia |].
  cbn [extract_loop] in H. unfold mbind, prog_bind, on_err, call in H.
  destruct (extract_turn lim requested name entries result (r, s)) as [y [r1 s1]] eqn:Ht.
  destruct (extract_turn_reach _ _ _ _ _ _ _ _ _ _ _ _ _ Hr Hid Hb Hi Ht) as [Hi1 H1].
  destruct y as [[result1|]|e|m]; cbn [fst snd] in H; [| by injection H as <- <- <- | | done].
  - destruct H1 as [Hr1 Ha1]. by eapply (IH (entries + 1) result1 r1 s1); [.. | lia | exact H].
  - destruct (drop_result result s1) as [z s2] eqn:Hd. injection H as <- <- <-. destruct result as [b|]; cbn in *.
    + pose proof (drop_reach _ _ _ _ _ H1 Hb) as Hr2. by rewrite Hd in Hr2.
    + by injection Hd as <- <-.
Qed.

Lemma extract_reach stream path s ws bs bid x s' :
  reach s ws bs → bs !! bid = None → extract_regular_file stream path lim s = (x, s') →
  match x with
  | Ok b => reach s' ws (<[bid := b]> bs)
  | Err _ => reach s' ws bs
  | Panic _ => False
  end.
Proof.
  intros Hr Hb H. unfold extract_regular_file in H.
  destruct (VirtualPath_file_name path) as [name|]; cbn [ok_or] in H; [| by injection H as <- <-].
  destruct (extract_loop _ _ _ _ _ _ _) as [y [r1 s1]] eqn:Hx.
  eapply (extract_loop_reach _ _ _ _ None _ _ ws bs (fresh (dom ws)) bid) in Hx;
    [| done | apply not_elem_of_dom, is_fresh | done | apply TarStreamReader_new_inv | lia].
  destruct y as [[b|]|e|m]; injection H as <- <-; done.
Qed.

(** A backing may change the key it is held under. *)
Lemma rename_reach s ws bs bid bid' b :
  reach s ws (<[bid := b]> bs) → bs !! bid = None → bs !! bid' = None → reach s ws (<[bid' := b]> bs).
Proof.
  intros Hr Hb Hb'. destruct (decide (bid' = bid)) as [->|Hne]; [done |].
  pose proof (reach_inv _ Hr) as Hi. destruct (inv_backings _ Hi bid b (lookup_insert_eq _ _ _)) as (lid & ls & n & B1 & B2 & _).
  destruct (inv_leases _ Hi lid ls n B2) as [_ Hn]. cbn in B2.
  destruct (backing_clone b s) as [y s1] eqn:Hc.
  assert (y = Ok b ∧ s1 = set_leases (<[lid := (ls, S n)]> (leases s)) s) as [-> Hs1].
  { unfold backing_clone in Hc. rewrite B1 in Hc. unfold lease_clone, mbind, prog_bind, update in Hc.
    injection Hc as <- <-. by rewrite (alter_alt_Some _ _ lid (ls, n)). }
  assert (reach s1 ws (<[bid' := b]> (<[bid := b]> bs))) as Hr1.
  { eapply reach_step; [exact Hr |]. eapply step_clone; [apply lookup_insert_eq | | done].
    by rewrite lookup_insert_ne by congruence. }
  rewrite insert_insert_ne in Hr1 by congruence. apply drop_reach in Hr1; [| by rewrite lookup_insert_ne].
  replace (backing_drop b s1).2 with s in Hr1; [done |]. subst s1. unfold backing_drop, lease_drop. rewrite B1. cbn.
  rewrite lookup_insert_eq. destruct n as [|n]; [lia |]. cbn. unfold set_leases. cbn.
  rewrite insert_insert_eq, insert_id by done. by destruct s.
Qed.

End reach.

(** *** Sequences of operations *)
Inductive archive_op : Type :=
  | OpLookup (parent : VirtualPath) (name : VirtualFileName) (context : RequestContext)
  | OpGetattr (path : VirtualPath) (context : RequestContext)
  | OpReadDir (path : VirtualPath) (context : RequestContext)
  | OpReadLink (path : VirtualPath) (context : RequestContext)
  | OpOpen (path : VirtualPath) (flags : Z) (context : RequestContext)
  | OpReadAt (handle : ProviderFileHandle) (offset size : N)
  | OpClose (handle : ProviderFileHandle)
  | OpDocker (docker : Src).

(** One request of the mount, or a change of Docker's own state. *)
Definition archive_step (op : archive_op) (w : aworld) : aworld :=
  match op with
  | OpLookup parent name context => (archive_lookup parent name context w).2
  | OpGetattr path context => (archive_getattr path context w).2
  | OpReadDir path context => (archive_read_dir path context w).2
  | OpReadLink path context => (archive_read_link path context w).2
  | OpOpen path flags context => (archive_open path flags context w).2
  | OpReadAt handle offset size => (archive_read_at handle (Z.of_N offset) (Z.of_N size) w).2
  | OpClose handle => (archive_close handle w).2
  | OpDocker docker => (w.1, (w.2.1, docker))
  end.

Definition hkey (id : Z) : nat := Pos.to_nat (encode id).
#[local] Instance hkey_inj : Inj (=) (=) hkey.
Proof. intros a b H. apply Pos2Nat.inj in H. by apply encode_inj in H. Qed.

Definition held (handles : gmap Z ContentBacking) : gmap nat ContentBacking := kmap hkey handles.

Section sequences.
Context (dir : PathBuf) (l : ContentSpoolLimits).
Hypothesis Hl : 0 ≤ max_total_bytes l ≤ u64_max.

Abbreviation reach s ws bs := (reachable dir l (mkSystem s ws bs)).

Definition archive_inv (w : aworld) : Prop := reach w.2.1 ∅ (held (ap_handles w.1)).

(** Operations that only ask Docker. *)
Definition only_docker {A} (m : prog aworld A) : Prop :=
  ∀ self s docker, ∃ docker', (m (self, (s, docker))).2 = (self, (s, docker')).

Lemma only_docker_bind {A B} (m : prog aworld A) (f : A → prog aworld B) :
  only_docker m → (∀ a, only_docker (f a)) → only_docker (m ≫= f).
Proof.
  intros Hm Hf self s docker. destruct (Hm self s docker) as (d & Hd). unfold mbind, prog_bind.
  destruct (m (self, (s, docker))) as [[a|e|p] w]; cbn in Hd; subst w; [| by exists d..]. apply Hf.
Qed.
Lemma only_docker_asks {A} (f : ContainerArchiveProvider → vres A) : only_docker (asks f).
Proof. intros self s docker. by exists docker. Qed.
Lemma only_docker_lift {A} (x : vres A) : only_docker (lift x).
Proof. intros self s docker. by exists docker. Qed.
Lemma only_docker_source path ctx : only_docker (source_archive path ctx).
Proof. intros self s docker. cbn. destruct (archive _ _ _ _) as [r d]. by exists d. Qed.
Lemma only_docker_index path ctx : only_docker (operation_index path ctx).
Proof.
  apply only_docker_bind; [apply only_docker_asks |]. intros limits.
  apply only_docker_bind; [apply only_docker_source |]. intros stream. apply only_docker_lift.
Qed.
Lemma only_docker_getattr path ctx : only_docker (archive_getattr path ctx).
Proof.
  unfold archive_getattr. destruct (VirtualPath_is_root path); [apply only_docker_asks |].
  apply only_docker_bind; [apply only_docker_index |]. intros index.
  apply only_docker_bind; [apply only_docker_lift |]. intros entry. apply only_docker_asks.
Qed.
Lemma only_docker_read_dir path ctx : only_docker (archive_read_dir path ctx).
Proof.
  apply only_docker_bind; [apply only_docker_index |]. intros index.
  apply only_docker_bind; [apply only_docker_lift |]. intros entry. destruct (negb _); [apply only_docker_lift |].
  apply only_docker_bind; [apply only_docker_asks |]. intros entries. apply (only_docker_lift (Ok _)).
Qed.
Lemma only_docker_read_link path ctx : only_docker (archive_read_link path ctx).
Proof.
  apply only_docker_bind; [apply only_docker_index |]. intros index.
  apply only_docker_bind; [apply only_docker_lift |]. intros entry. destruct (negb _); apply only_docker_lift.
Qed.

Lemma only_docker_inv {A} (m : prog aworld A) w : only_docker m → archive_inv w → archive_inv (m w).2.
Proof. intros Hm Hw. destruct w as [self [s docker]]. destruct (Hm self s docker) as (d & ->). exact Hw. Qed.

Lemma insert_handle_inv path b self s docker bid :
  held (ap_handles self) !! bid = None → reach s ∅ (<[bid := b]> (held (ap_handles self))) →
  archive_inv (insert_handle path b (self, (s, docker))).2.
Proof.
  intros Hb Hr. unfold insert_handle, archive_inv. cbn. set (id := ap_next_handle self).
  replace (held (<[id := b]> (ap_handles self))) with (<[hkey id := b]> (held (ap_handles self)))
    by (symmetry; apply (kmap_insert _)).
  assert (held (ap_handles self) !! hkey id = ap_handles self !! id) as Hid by apply (lookup_kmap _).
  destruct (ap_handles self !! id) as [old|] eqn:E.
  - assert (bid ≠ hkey id) as Hne by (intros ->; by rewrite Hid in Hb).
    rewrite <- (insert_delete_eq (held _)).
    apply (rename_reach dir l Hl _ _ _ bid); [| by rewrite lookup_delete_ne | apply lookup_delete_eq].
    apply drop_reach with (bid := hkey id); [| by rewrite lookup_insert_ne, lookup_delete_eq by done].
    rewrite insert_insert_ne, insert_delete_id by done. exact Hr.
  - eapply (rename_reach dir l Hl); [exact Hr | done | by rewrite Hid].
Qed.

Lemma held_delete handles id : held (delete id handles) = delete (hkey id) (held handles).
Proof. apply (kmap_delete _). Qed.
Lemma held_lookup handles id : held handles !! hkey id = handles !! id.
Proof. apply (lookup_kmap _). Qed.

Lemma archive_open_inv path flags ctx w : archive_inv w → archive_inv (archive_open path flags ctx w).2.
Proof.
  intros Hw. destruct w as [self [s docker]]. unfold archive_open. destruct (negb _); [done |].
  unfold mbind at 1, prog_bind at 1. unfold operation_content, mbind, prog_bind, asks, source_archive, on_spool. cbn [fst snd].
  destruct (archive (object_id self) path ctx docker) as [[items|e|m] d]; cbn [fmap result_fmap]; [| done | done].
  set (bid := fresh (dom (held (ap_handles self)))).
  assert (held (ap_handles self) !! bid = None) as Hbid by (apply not_elem_of_dom, is_fresh).
  destruct (extract_regular_file _ path (ap_limits self) s) as [x s'] eqn:Hx.
  apply (extract_reach dir l (ap_limits self) Hl _ _ _ _ _ bid _ _ Hw Hbid) in Hx.
  destruct x as [b|e|m]; [by eapply insert_handle_inv | done | done].
Qed.

Lemma archive_read_at_inv handle offset size w :
  0 ≤ offset → 0 ≤ size → archive_inv w → archive_inv (archive_read_at handle offset size w).2.
Proof.
  intros Ho Hs Hw. destruct w as [self [s docker]]. unfold archive_inv in *. cbn [fst snd] in Hw.
  unfold archive_read_at, mbind, prog_bind, asks, on_spool. cbn [fst snd].
  destruct (ap_handles self !! handle_id handle) as [b|] eqn:Hb; cbn [ok_or]; [| done].
  unfold read_clone. destruct (backing_clone b s) as [y s1] eqn:Hc, (read_at b offset size s1) as [z s2] eqn:Hr. cbn [fst snd].
  set (bid := fresh (dom (held (ap_handles self)))).
  assert (held (ap_handles self) !! bid = None) as Hbid by (apply not_elem_of_dom, is_fresh).
  pose proof (held_lookup (ap_handles self) (handle_id handle)) as Hk. rewrite Hb in Hk.
  assert (y = Ok b) as ->.
  { unfold backing_clone in Hc. by destruct (backing_lease b); injection Hc as <- <-. }
  apply drop_reach with (bid := bid); [| done].
  replace s2 with (read_at b offset size s1).2 by (by rewrite Hr).
  eapply reach_step; [eapply reach_step; [exact Hw | by eapply step_clone] |].
  eapply step_read; [apply lookup_insert_eq | done | done].
Qed.

Lemma archive_close_inv handle w : archive_inv w → archive_inv (archive_close handle w).2.
Proof.
  intros Hw. destruct w as [self [s docker]]. unfold archive_inv in *. cbn [fst snd] in Hw.
  unfold archive_close, mbind, prog_bind, modify, on_spool. cbn [fst snd].
  pose proof (held_lookup (ap_handles self) (handle_id handle)) as Hk.
  destruct (ap_handles self !! handle_id handle) as [b|] eqn:Hb; cbn [ok_or].
  - pose proof (step_drop _ _ _ _ _ Hk : spool_step (mkSystem s ∅ _) _) as Hstep.
    destruct (backing_drop b s) as [y s'] eqn:Hd. cbn [fst snd ap_handles set_handles] in *. rewrite held_delete.
    by eapply reach_step.
  - cbn [fst snd ap_handles set_handles]. by rewrite delete_id.
Qed.

Lemma archive_step_inv op w : archive_inv w → archive_inv (archive_step op w).
Proof.
  intros Hw. destruct op; cbn [archive_step].
  - apply only_docker_inv; [| done]. apply only_docker_bind; [apply only_docker_lift |]. intros path. apply only_docker_getattr.
  - apply only_docker_inv; [apply only_docker_getattr | done].
  - apply only_docker_inv; [apply only_docker_read_dir | done].
  - apply only_docker_inv; [apply only_docker_read_link | done].
  - by apply archive_open_inv.
  - apply archive_read_at_inv; [lia | lia | done].
  - by apply archive_close_inv.
  - exact Hw.
Qed.

End sequences.

(** The archive provider never loses track of spooled content.  After any
    sequence of operations on a new provider with a new spool, whatever Docker
    delivers and whichever calls of the file system fail, the bytes the spool
    counts are those of the leases that open handles hold, within the limit;
    every open handle reads the content it was opened with or an error of the
    file system; and with no handle open nothing is reserved, no lease is left
    and, when removing never failed, no file either. *)
Theorem archive_accounting dir l object limits timeout self s docker ops :
  0 ≤ max_total_bytes l ≤ u64_max →
  archive_provider_new object limits timeout = Ok self → ContentSpool_new dir l = Ok s →
  let '(self', (s', _)) := foldl (fun w op => archive_step op w) (self, (s, docker)) ops in
  reserved_bytes s' = map_sum lease_size (leases s') ∧ 0 ≤ reserved_bytes s' ≤ max_total_bytes l
  ∧ (∀ id ls n, leases s' !! id = Some (ls, n) →
       ∃ h b, ap_handles self' !! h = Some b ∧ backing_lease b = Some id)
  ∧ (∀ h b, ap_handles self' !! h = Some b → backing_len b = len (content s' b) ∧
       ∀ offset size, 0 ≤ offset → 0 ≤ size → io_outcome (read_clone b offset size s').1 (slice offset size (content s' b)))
  ∧ (ap_handles self' = ∅ → reserved_bytes s' = 0 ∧ leases s' = ∅ ∧ (no_faults → directory s' = ∅)).
Proof.
  intros Hl Hself Hs. set (w := foldl _ _ _).
  assert (archive_inv dir l w) as Hw.
  { unfold w. clear w. assert (archive_inv dir l (self, (s, docker))) as H0.
    { apply bind_Ok in Hself as (_ & _ & (_ & _ & Hself)%bind_Ok). destruct (timeout =? 0); [done |]. injection Hself as <-.
      exists s. split; [done |]. cbn. unfold held. rewrite kmap_empty. apply rtc_refl. }
    revert H0. generalize (self, (s, docker)). induction ops as [|op ops IH]; intros w0 H0; [done |]. cbn.
    by apply IH, archive_step_inv. }
  clearbody w. destruct w as [self' [s' docker']]. unfold archive_inv in Hw. cbn [fst snd] in Hw.
  destruct (reachable_simulated _ _ _ Hl Hw) as (I & C & Hlim & _).
  destruct (spool_accounting_of _ _ _ Hl Hw) as (A1 & A2 & A3 & A4). cbn in *. rewrite map_sum_empty in A1.
  split_and!; [done | by apply A2 | by apply A2 | | |].
  - intros id ls n Hid. specialize (A3 id). rewrite Hid in A3.
    destruct (inv_leases _ I id ls n Hid) as [_ Hn].
    destruct (map_sum_pos (refers id) (held (ap_handles self'))) as (k & b & Hk & Hb); [lia |].
    unfold refers in Hb. case_bool_decide as Hlease; [| lia].
    apply lookup_kmap_Some in Hk as (h & -> & Hh); [| apply _]. eauto.
  - intros h b Hb. rewrite <- held_lookup in Hb. split; [by apply (proj2 C (hkey h)) |].
    intros offset size Ho Hsz. apply read_clone_spec; [done | done |]. by eapply fits_read.
  - intros Hempty. rewrite Hempty in A4. unfold held in A4. rewrite kmap_empty in A4. by apply A4.
Qed.

End extract.

(** ** Concrete archives *)

(** A source that delivers the archive it was given, in its chunks. *)
#[local] Instance fixed_source : ContainerArchiveSource (list (list byte)) := {
  archive _ _ _ chunks := (Ok ((Some ∘ inl) <$> chunks), chunks);
}.

Definition motd_header : RawHeader :=
  mkRawHeader (bytes "motd") None "0"%byte TRegularFile 5 420 0 0 0 None None.
Definition motd_archive : list (list byte) :=
  let file := encode_archive [(motd_header, bytes "hello")] in [take 514 file; drop 514 file].
Definition motd_path : VirtualPath := mkVirtualPath [mkVirtualFileName (bytes "etc"); mkVirtualFileName (bytes "motd")] 9.
Definition request : RequestContext := mkRequestContext 1 1 1 1.
Definition sample_provider : ContainerArchiveProvider :=
  {| object_id := bytes "c0ffee"; ap_limits := TarLimits_default; operation_timeout := 30;
     provider_kind := ContainerArchiveLive; source_label := None; ap_next_handle := 1; ap_handles := ∅ |}.

Lemma motd_served : serves_file TarLimits_default motd_path motd_archive (bytes "hello").
Proof.
  exists (mkVirtualFileName (bytes "motd")), [], motd_header, [bytes "motd"], []. cbn zeta. split_and!.
  - reflexivity.
  - apply Forall_cons_iff. split; [| constructor]. split.
    + split; cbn.
      * split_and!; [discriminate | apply (bool_decide_unpack _); vm_compute; exact I | lia].
      * discriminate.
      * reflexivity.
      * lia.
      * split; reflexivity.
    + apply (bool_decide_unpack _). vm_compute. exact I.
    + vm_compute. split; [reflexivity | discriminate].
    + vm_compute. reflexivity.
    + vm_compute. reflexivity.
    + discriminate.
  - reflexivity.
  - vm_compute. reflexivity.
  - constructor.
  - vm_compute. discriminate.
  - unfold motd_archive. cbn [concat]. rewrite app_nil_r. apply take_drop.
  - vm_compute. discriminate.
  - vm_compute. discriminate.
Qed.


Lemma archive_accounting_witness :
  let ops := [OpOpen motd_path 0 request; OpReadAt (mkProviderFileHandle 1 motd_path 0) 0 9;
              OpClose (mkProviderFileHandle 1 motd_path 0)] in
  let '(self, (s, _)) := foldl (fun w op => archive_step (env := quiet_env) op w)
                           (sample_provider, (empty_spool, motd_archive)) ops in
  ap_handles self = ∅ ∧ reserved_bytes s = 0 ∧ leases s = ∅.
Proof.
  intros ops.
  pose proof (archive_accounting (env := quiet_env) (bytes "/run") small_limits (bytes "c0ffee") TarLimits_default 30
    sample_provider empty_spool motd_archive ops) as H.
  assert (bool_decide (ap_handles (foldl (fun w op => archive_step (env := quiet_env) op w)
    (sample_provider, (empty_spool, motd_archive)) ops).1 = ∅) = true) as Hempty by (vm_compute; reflexivity).
  destruct (foldl _ _ _) as [self [s docker]]. apply bool_decide_eq_true in Hempty. cbn [fst] in Hempty.
  destruct H as (_ & _ & _ & _ & H); [cbn; unfold u64_max; lia | reflexivity | reflexivity |].
  destruct (H Hempty) as (H1 & H2 & _). split_and!; assumption.
Defined.

(** ** The entry of a nested path of the same name

    Docker names the root of an archive by the last component of the requested
    path, so the archive of the directory /b/b has the entry b for it and b/b for
    the file b inside it.  [select_archive_root] first looks for an entry at the
    requested path itself. *)
Definition nested_path : VirtualPath := mkVirtualPath [mkVirtualFileName (bytes "b"); mkVirtualFileName (bytes "b")] 4.
Definition nested_archive : list byte :=
  encode_archive [(mkRawHeader (bytes "b") None "5"%byte TDirectory 0 493 0 0 0 None None, []);
                  (mkRawHeader (bytes "b/b") None "0"%byte TRegularFile 5 420 0 0 0 None None, bytes "inner")].

(** The attributes of a directory whose path ends in its parent's name are
    those of the entry of that name inside it: for the archive that Docker sends
    for the directory /b/b, which holds a file b, [getattr] reports a regular file
    of five bytes and [read_dir] fails with [NotDirectory]. *)
Theorem archive_root_shadowed :
  let w := (sample_provider, (empty_spool, [nested_archive])) in
  match (archive_getattr nested_path request w).1 with
  | Ok metadata => file_type metadata = RegularFile ∧ size metadata = 5
  | _ => False
  end
  ∧ (archive_read_dir nested_path request w).1 = Err NotDirectory.
Proof.
  intros w. assert (match (archive_getattr nested_path request w).1 with
    | Ok metadata => bool_decide (file_type metadata = RegularFile) && (size metadata =? 5) | _ => false end = true) as H
    by (vm_compute; reflexivity).
  split; [| vm_compute; reflexivity].
  destruct (archive_getattr nested_path request w).1 as [metadata| |]; [| discriminate H..].
  apply andb_true_iff in H as [H1 H2]. split; [by apply bool_decide_eq_true in H1 | by apply Z.eqb_eq in H2].
Qed.
