(* ===== verification/Container.v ===== *)
(** The root filesystem snapshot of a container and the provider that routes a
    container's paths to its mounts
    (crates/docker-core/src/vfs_providers/container.rs).

    The snapshot provider is a record over a world [W] that holds Docker, the
    clock and the provider of file contents; its operations are programs over
    both.  The router is a value, so it is a provider over the world of the
    providers it routes to. *)

From S2P Require Import Prelude Error Path Text Model Router Provider TarIndex TarReader Archive.

Local Open Scope Z_scope.

(** ** The snapshot provider *)
Class ContainerExportSource (W : Type) := {
  export : text → prog W (list (option stream_item));
  utc_now : prog W Z;
}.

(** A mount is known by its destination. *)
Record SnapshotMount := mkSnapshotMount { sm_destination : VirtualPath }.

Definition SnapshotMount_new (destination : VirtualPath) : vres SnapshotMount :=
  if VirtualPath_is_root destination then Err (InvalidInput "container root cannot be a mount overlay")
  else Ok (mkSnapshotMount destination).

Record SnapshotState := mkSnapshotState {
  ss_index : TarIndex;
  ss_captured_at : Z;
  ss_generation : Z;
}.

Record ContainerRootfsSnapshotProvider (C : Type) := mkSnapshotProvider {
  immutable_container_id : text;
  sp_generation : Z;
  content_provider : C;
  sp_limits : TarLimits;
  sp_mounts : list SnapshotMount;
  sp_timeout : Z;
  sp_state : option SnapshotState;
}.
Arguments mkSnapshotProvider {C}.
Arguments immutable_container_id {C}.
Arguments sp_generation {C}.
Arguments content_provider {C}.
Arguments sp_limits {C}.
Arguments sp_mounts {C}.
Arguments sp_timeout {C}.
Arguments sp_state {C}.

Definition validate_identity (identity : text) : vres () :=
  if negb (len identity =? 64) || negb (forallb is_ascii_hexdigit identity)
  then Err (InvalidInput "container snapshot identity must be a full immutable container ID")
  else Ok tt.

(** Shallow destinations first, then by their bytes. *)
Definition snapshot_mount_cmp : SnapshotMount → SnapshotMount → comparison :=
  cmp_then (cmp_by (fun m => VirtualPath_depth (sm_destination m)) Nat.compare)
           (cmp_by (fun m => VirtualPath_as_bytes (sm_destination m)) bytes_cmp).

(** [dedup_by]: drop an element equal to the last one kept. *)
Fixpoint dedup_mounts (last : option VirtualPath) (mounts : list SnapshotMount) : list SnapshotMount :=
  match mounts with
  | [] => []
  | m :: mounts =>
      if bool_decide (last = Some (sm_destination m)) then dedup_mounts last mounts
      else m :: dedup_mounts (Some (sm_destination m)) mounts
  end.

Definition snapshot_new {C} (immutable_container_id : text) (generation : Z) (content_provider : C)
  (limits : TarLimits) (mounts : list SnapshotMount) (operation_timeout : Z)
  : vres (ContainerRootfsSnapshotProvider C) :=
  _ ← validate_identity immutable_container_id;
  _ ← TarLimits_validate limits;
  if operation_timeout =? 0 then Err (InvalidInput "snapshot timeout must be non-zero")
  else
    Ok (mkSnapshotProvider immutable_container_id generation content_provider limits
          (dedup_mounts None (sort_by snapshot_mount_cmp mounts)) operation_timeout None).

(** One turn of [apply_mount_overlays]: what the export has below a mount is the
    hidden lower layer. *)
Definition apply_overlay (index : TarIndex) (path : TarPath) (max_entries : Z) : vres () * TarIndex :=
  let index := remove_descendants index path in
  if bool_decide (is_Some (TarIndex_get index path))
  then (Ok tt, TarIndex_replace index (synthetic_directory path))
  else insert_synthetic_directory index path max_entries.

Fixpoint apply_mount_overlays (index : TarIndex) (mounts : list SnapshotMount) (max_entries : Z) : vres TarIndex :=
  match mounts with
  | [] => Ok index
  | mount :: mounts =>
      let '(r, index) := apply_overlay index (from_virtual (sm_destination mount)) max_entries in
      _ ← r;
      apply_mount_overlays index mounts max_entries
  end.

Section snapshot.
Context {W C : Type} `{!FuserFlags, !ContainerExportSource W, !ReadOnlyFilesystemProvider W C}.

Abbreviation sprog := (prog (ContainerRootfsSnapshotProvider C * W)).

Definition set_snapshot (generation : Z) (state : SnapshotState) (self : ContainerRootfsSnapshotProvider C)
  : ContainerRootfsSnapshotProvider C :=
  mkSnapshotProvider (immutable_container_id self) generation (content_provider self) (sp_limits self)
    (sp_mounts self) (sp_timeout self) (Some state).

Definition capture_generation (generation : Z) : sprog Z :=
  id ← asks (fun self => Ok (immutable_container_id self));
  limits ← asks (fun self => Ok (sp_limits self));
  mounts ← asks (fun self => Ok (sp_mounts self));
  stream ← call (export id);
  index ← lift (from_stream (map in_time stream) limits);
  index ← lift (apply_mount_overlays index mounts (max_entries limits));
  captured_at ← call utc_now;
  modify (fun self => (Ok tt, set_snapshot generation (mkSnapshotState index captured_at generation) self));;
  mret captured_at.

Definition capture : sprog Z :=
  generation ← asks (fun self => Ok (sp_generation self));
  capture_generation generation.

Definition snapshot : sprog SnapshotState :=
  state ← asks (fun self => Ok (sp_state self));
  match state with
  | Some snapshot => mret snapshot
  | None =>
      generation ← asks (fun self => Ok (sp_generation self));
      capture_generation generation;;
      asks (fun self => ok_or (Unavailable "container snapshot capture failed") (sp_state self))
  end.

(** [format!("container:{}:{generation}", …)] *)
Definition snapshot_identity (self : ContainerRootfsSnapshotProvider C) (generation : Z) : list byte :=
  bytes "container:" ++ immutable_container_id self ++ ":"%byte :: u64_to_string generation.

Definition snapshot_metadata (self : ContainerRootfsSnapshotProvider C) (index : TarIndex) (entry : TarEntry)
  (generation : Z) : vres VirtualMetadata :=
  TarIndex_metadata index (te_path entry) (snapshot_identity self generation) generation.

Definition with_generation (metadata : VirtualMetadata) (generation : Z) : VirtualMetadata :=
  mkVirtualMetadata (node_id metadata) (file_type metadata) (size metadata) (nlink metadata) (mtime metadata)
    (original metadata) (device_id metadata) generation.

Definition snapshot_root_metadata (self : ContainerRootfsSnapshotProvider C) : VirtualMetadata :=
  with_generation (VirtualMetadata_directory (snapshot_identity self (sp_generation self))) (sp_generation self).

Definition snapshot_descriptor (self : ContainerRootfsSnapshotProvider C) : ProviderDescriptor :=
  {| kind := ContainerRootfsSnapshot;
     consistency :=
       match ss_captured_at <$> sp_state self with
       | Some captured_at => Snapshot captured_at (sp_generation self)
       | None => ConsistencyUnavailable
       end;
     source := Some (String.string_of_list_byte (immutable_container_id self));
     capabilities := Capabilities.READ_ONLY |}.

(** [index.get_virtual(path)] and the metadata of the entry. *)
Definition snapshot_entry_metadata (path : VirtualPath) : sprog VirtualMetadata :=
  state ← snapshot;
  entry ← lift (ok_or NotFound (TarIndex_get (ss_index state) (from_virtual path)));
  asks (fun self => snapshot_metadata self (ss_index state) entry (ss_generation state)).

Definition snapshot_lookup (parent : VirtualPath) (name : VirtualFileName) : sprog VirtualMetadata :=
  path ← lift (VirtualPath_join parent name);
  snapshot_entry_metadata path.

Definition snapshot_getattr (path : VirtualPath) : sprog VirtualMetadata :=
  if VirtualPath_is_root path then asks (fun self => Ok (snapshot_root_metadata self))
  else snapshot_entry_metadata path.

Definition snapshot_read_dir (path : VirtualPath) : sprog (list VirtualDirectoryEntry) :=
  state ← snapshot;
  asks (fun self => directory_entries (ss_index state) path (snapshot_identity self (ss_generation state))
                      (ss_generation state)).

Definition snapshot_read_link (path : VirtualPath) : sprog VirtualPathBytes :=
  state ← snapshot;
  entry ← lift (ok_or NotFound (TarIndex_get (ss_index state) (from_virtual path)));
  if negb (bool_decide (te_kind entry = TSymlink)) then throw (InvalidInput "node is not a symlink")
  else lift (VirtualPathBytes_new (default [] (te_link_target entry))).

Definition snapshot_open (path : VirtualPath) (flags : Z) (context : RequestContext) : sprog ProviderFileHandle :=
  if negb (is_read_only_open flags) then throw ReadOnly
  else
    state ← snapshot;
    content_path ← lift (content_path (ss_index state) path);
    provider ← asks (fun self => Ok (content_provider self));
    handle ← call (p_open provider content_path flags context);
    mret (mkProviderFileHandle (handle_id handle) path (ss_generation state)).

Definition snapshot_read_at (handle : ProviderFileHandle) (offset size : Z) (context : RequestContext)
  : sprog (list byte) :=
  generation ← asks (fun self => Ok (sp_generation self));
  if negb (content_generation handle =? generation) then throw Stale
  else
    provider ← asks (fun self => Ok (content_provider self));
    call (p_read_at provider handle offset size context).

Definition snapshot_close (handle : ProviderFileHandle) : sprog () :=
  provider ← asks (fun self => Ok (content_provider self));
  call (p_close provider handle).

Definition snapshot_refresh : sprog () :=
  generation ← asks (fun self => Ok (sp_generation self));
  next ← lift (ok_or (Unavailable "snapshot generation exhausted") (checked_add u64_max generation 1));
  capture_generation next;;
  mret tt.

#[export] Instance snapshot_provider
  : ReadOnlyFilesystemProvider (ContainerRootfsSnapshotProvider C * W) () := {
  p_descriptor _ w := snapshot_descriptor w.1;
  p_lookup _ parent name _ := snapshot_lookup parent name;
  p_getattr _ path _ := snapshot_getattr path;
  p_read_dir _ path _ := snapshot_read_dir path;
  p_read_link _ path _ := snapshot_read_link path;
  p_open _ := snapshot_open;
  p_read_at _ := snapshot_read_at;
  p_close _ := snapshot_close;
  p_refresh _ _ := snapshot_refresh;
}.
End snapshot.

(** ** What a snapshot shows

    A path that the overlays leave as the export has it, hide, or show as an
    empty directory.  [ds] are the destinations of the mounts. *)
Definition strictly_below (q d : TarPath) : Prop := TarPath_is_descendant_of q d = true.
Definition hidden (ds : list TarPath) (q : TarPath) : Prop := ∃ d, d ∈ ds ∧ strictly_below q d.
Definition leads_to (ds : list TarPath) (q : TarPath) : Prop := ∃ d, d ∈ ds ∧ strictly_below d q.

#[export] Instance strictly_below_dec q d : Decision (strictly_below q d).
Proof. unfold strictly_below. apply _. Defined.
Lemma hidden_Exists ds q : Exists (strictly_below q) ds ↔ hidden ds q.
Proof. apply list.Exists_exists. Qed.
Lemma leads_to_Exists ds q : Exists (fun d => strictly_below d q) ds ↔ leads_to ds q.
Proof. apply list.Exists_exists. Qed.
#[export] Instance hidden_dec ds q : Decision (hidden ds q).
Proof. refine (cast_if (decide (Exists (strictly_below q) ds))); abstract (by rewrite <- hidden_Exists). Defined.
#[export] Instance leads_to_dec ds q : Decision (leads_to ds q).
Proof. refine (cast_if (decide (Exists (fun d => strictly_below d q) ds))); abstract (by rewrite <- leads_to_Exists). Defined.

Definition overlaid (index : TarIndex) (ds : list TarPath) (q : TarPath) : option TarEntry :=
  if decide (q ∈ ds) then Some (synthetic_directory q)
  else if decide (leads_to ds q ∧ (hidden ds q ∨ TarIndex_get index q = None)) then Some (synthetic_directory q)
  else if decide (hidden ds q) then None
  else TarIndex_get index q.

Lemma strictly_below_spec q d : strictly_below q d ↔ d `prefix_of` q ∧ q ≠ d.
Proof.
  unfold strictly_below, TarPath_is_descendant_of, TarPath_depth, TarPath_starts_with.
  rewrite andb_true_iff, Nat.ltb_lt, bool_decide_eq_true. split.
  - intros [H ?]. split; [done |]. intros ->. lia.
  - intros [[k ->] Hne]. rewrite length_app. split; [| by exists k]. destruct k; [by rewrite app_nil_r in Hne |]. cbn. lia.
Qed.

Lemma strictly_below_depth q d : strictly_below q d → (length d < length q)%nat.
Proof.
  unfold strictly_below, TarPath_is_descendant_of, TarPath_depth. by intros [?%Nat.ltb_lt _]%andb_true_iff.
Qed.

(** A destination the index can hold. *)
Definition destination_ok (limits : TarLimits) (d : TarPath) : Prop :=
  d ≠ [] ∧ Forall tar_name_ok d ∧ encoded_len d ≤ max_path_bytes limits.

Lemma apply_overlay_spec limits index d index' :
  index_wf limits index → destination_ok limits d →
  apply_overlay index d (max_entries limits) = (Ok tt, index') →
  index_wf limits index' ∧ ∀ q, TarIndex_get index' q =
    if decide (q = d) then Some (synthetic_directory d)
    else if decide (strictly_below q d) then None
    else match TarIndex_get index q with
         | Some x => Some x
         | None => if decide (strictly_below d q) then Some (synthetic_directory q) else None
         end.
Proof.
  intros Hwf Hok H. pose proof Hok as (Hne & Hnames & Hlen). unfold apply_overlay in H.
  set (base := remove_descendants index d) in *.
  assert (index_wf limits base) as Hwfb by (by apply remove_descendants_wf).
  assert (∀ q, TarIndex_get base q = if decide (strictly_below q d) then None else TarIndex_get index q) as Hbase.
  { intros q. unfold TarIndex_get, base, remove_descendants. cbn. rewrite map_lookup_filter.
    destruct (entries index !! q) as [e|]; cbn; [| by case_decide].
    destruct (decide (strictly_below q d)) as [Hs|Hs]; unfold strictly_below in Hs.
    - rewrite option_guard_False; [done |]. by rewrite Hs.
    - rewrite option_guard_True; [done |]. by apply not_true_iff_false. }
  assert (entry_ok limits (synthetic_directory d)) as Hentry by (by split_and!).
  case_bool_decide as Hd.
  - injection H as <-. split.
    + apply (index_wf_insert limits base (synthetic_directory d)); [done | done | | by left].
      cbn. intros parent Hpar. destruct Hd as [e He]. by apply (iwf_entry _ _ Hwfb d e He).
    + intros q. unfold TarIndex_replace, TarIndex_get at 1, TarIndex_insert. cbn [entries te_path synthetic_directory].
      destruct (decide (q = d)) as [->|Hqd]; [apply lookup_insert_eq |]. rewrite lookup_insert_ne by done.
      change (entries base !! q) with (TarIndex_get base q). rewrite Hbase. destruct (decide (strictly_below q d)) as [|Hnb]; [done |].
      destruct (TarIndex_get index q) eqn:E; [done |]. rewrite decide_False; [done |]. intros [Hpre _]%strictly_below_spec.
      destruct (ancestor_present limits base d q Hwfb Hd Hpre) as [e He].
      change (entries base !! q) with (TarIndex_get base q) in He. rewrite Hbase, decide_False, E in He by done. done.
  - assert (entries base !! d = None) as Hnone by (by apply eq_None_not_Some).
    unfold insert_synthetic_directory in H. destruct (TarPath_is_root d) eqn:Er; [by apply is_empty_true in Er |].
    pose proof (proj1 (insert_with_parents_wf limits base (synthetic_directory d) Hwfb Hentry)) as Hwf'.
    rewrite H in Hwf'. split; [done |]. intros q. unfold TarIndex_get at 1.
    rewrite (insert_with_parents_lookup limits base (synthetic_directory d) _ q Hwfb Hne Hnone H). cbn [te_path synthetic_directory].
    destruct (decide (q = d)) as [->|Hqd]; [done |]. change (entries base !! q) with (TarIndex_get base q). rewrite Hbase.
    destruct (decide (strictly_below q d)) as [Hb|Hnb].
    + rewrite decide_False; [done |]. intros [k Hk]. apply strictly_below_depth in Hb. rewrite Hk, length_app in Hb. lia.
    + destruct (TarIndex_get index q); [done |].
      destruct (decide (strictly_below d q)) as [Hs|Hs].
      * apply strictly_below_spec in Hs as [? ?]. by rewrite decide_True.
      * rewrite decide_False; [done |]. intros Hpre. apply Hs, strictly_below_spec. split; [done | congruence].
Qed.

(** One more overlay, at least as deep as those before it. *)
Lemma overlaid_snoc index ds d q :
  (∀ d', d' ∈ ds → (length d' ≤ length d)%nat) →
  overlaid index (ds ++ [d]) q =
    if decide (q = d) then Some (synthetic_directory d)
    else if decide (strictly_below q d) then None
    else match overlaid index ds q with
         | Some x => Some x
         | None => if decide (strictly_below d q) then Some (synthetic_directory q) else None
         end.
Proof.
  intros Hdepth.
  assert (hidden (ds ++ [d]) q ↔ hidden ds q ∨ strictly_below q d) as Hhid
    by (unfold hidden; setoid_rewrite elem_of_app; setoid_rewrite list_elem_of_singleton; naive_solver).
  assert (leads_to (ds ++ [d]) q ↔ leads_to ds q ∨ strictly_below d q) as Hlead
    by (unfold leads_to; setoid_rewrite elem_of_app; setoid_rewrite list_elem_of_singleton; naive_solver).
  assert (strictly_below q d → q ∉ ds ∧ ¬ leads_to ds q ∧ ¬ strictly_below d q ∧ q ≠ d) as Hdeep.
  { intros Hb. apply strictly_below_depth in Hb as Hl. split_and!.
    - intros Hin%Hdepth. lia.
    - intros (d' & Hin%Hdepth & Hb'%strictly_below_depth). lia.
    - intros Hb'%strictly_below_depth. lia.
    - intros ->. lia. }
  unfold overlaid. destruct (decide (q = d)) as [->|Hqd]; [by rewrite decide_True by (apply elem_of_app; right; by left) |].
  destruct (decide (strictly_below q d)) as [Hb|Hnb].
  - destruct (Hdeep Hb) as (H1 & H2 & H3 & _).
    rewrite decide_False by (by intros [?|?%list_elem_of_singleton]%elem_of_app).
    rewrite decide_False by (rewrite Hlead; tauto). by rewrite decide_True by (rewrite Hhid; tauto).
  - destruct (decide (q ∈ ds)) as [Hin|Hin]; [by rewrite decide_True by (apply elem_of_app; by left) |].
    rewrite decide_False by (by intros [?|?%list_elem_of_singleton]%elem_of_app).
    rewrite (decide_ext _ (leads_to ds q ∧ (hidden ds q ∨ TarIndex_get index q = None)
                           ∨ strictly_below d q ∧ (hidden ds q ∨ TarIndex_get index q = None)))
      by (rewrite Hlead, Hhid; tauto).
    rewrite (decide_ext (hidden (ds ++ [d]) q) (hidden ds q)) by (rewrite Hhid; tauto).
    destruct (decide (leads_to ds q ∧ _)) as [Hl|Hl]; [by rewrite decide_True by tauto |].
    destruct (decide (hidden ds q)) as [Hh|Hh].
    + destruct (decide (strictly_below d q)) as [Hs|Hs]; [by rewrite decide_True by tauto | by rewrite decide_False by tauto].
    + destruct (TarIndex_get index q) eqn:E; [rewrite decide_False; [done | intros [[_ [?|?]]|[_ [?|?]]]; done] |].
      destruct (decide (strictly_below d q)) as [Hs|Hs]; [by rewrite decide_True by tauto | by rewrite decide_False by tauto].
Qed.

Lemma apply_mount_overlays_app index ms ms' max :
  apply_mount_overlays index (ms ++ ms') max
  = index' ← apply_mount_overlays index ms max; apply_mount_overlays index' ms' max.
Proof.
  revert index. induction ms as [|m ms IH]; intros index; [done |]. cbn.
  destruct (apply_overlay _ _ _) as [[u|e|s] index']; cbn; [apply IH | done | done].
Qed.

Definition destinations (ms : list SnapshotMount) : list TarPath := from_virtual ∘ sm_destination <$> ms.

Lemma apply_mount_overlays_spec limits index ms index' :
  index_wf limits index → Forall (destination_ok limits) (destinations ms) →
  StronglySorted (fun a b => (VirtualPath_depth (sm_destination a) ≤ VirtualPath_depth (sm_destination b))%nat) ms →
  apply_mount_overlays index ms (max_entries limits) = Ok index' →
  index_wf limits index' ∧ ∀ q, TarIndex_get index' q = overlaid index (destinations ms) q.
Proof.
  intros Hwf. revert index'. induction ms as [|m ms IH] using rev_ind; intros index' Hok Hs H.
  { injection H as <-. split; [done |]. intros q. unfold overlaid, destinations. cbn [fmap list_fmap].
    rewrite !decide_False; [done | by intros (d & ?%elem_of_nil & _) | by intros [(d & ?%elem_of_nil & _) _] | apply not_elem_of_nil]. }
  rewrite apply_mount_overlays_app, bind_Ok in H. destruct H as (index1 & H1 & H).
  unfold destinations in *. rewrite fmap_app in Hok |- *. apply Forall_app in Hok as [Hok [Hd _]%Forall_cons_iff].
  apply sorting.StronglySorted_app in Hs as (Hlast & Hs & _).
  destruct (IH index1 Hok Hs H1) as [Hwf1 Hget]. cbn [apply_mount_overlays] in H.
  destruct (apply_overlay _ _ _) as [r index2] eqn:E. destruct r as [[]|e|s]; cbn in H; [| done | done].
  injection H as <-. destruct (apply_overlay_spec _ _ _ _ Hwf1 Hd E) as [Hwf2 Hget2]. split; [done |]. intros q.
  cbn [fmap list_fmap]. rewrite overlaid_snoc, Hget2, Hget; [done |].
  intros d' (x & -> & Hx)%list_elem_of_fmap. unfold compose, from_virtual. rewrite !length_map. apply Hlast; [done | by left].
Qed.

(** *** Captures *)
Record snapshot_wf {C} (self : ContainerRootfsSnapshotProvider C) : Prop := {
  sw_limits : TarLimits_validate (sp_limits self) = Ok tt;
  sw_bounds : 0 ≤ max_entries (sp_limits self) ∧ 0 ≤ max_path_bytes (sp_limits self);
  sw_mounts : Forall (destination_ok (sp_limits self)) (destinations (sp_mounts self));
  sw_sorted : StronglySorted (fun a b => (VirtualPath_depth (sm_destination a) ≤ VirtualPath_depth (sm_destination b))%nat)
                (sp_mounts self);
}.

#[export] Instance snapshot_mount_cmp_total : TotalCmp snapshot_mount_cmp.
Proof. unfold snapshot_mount_cmp. apply _. Qed.

Lemma dedup_mounts_sub last ms m : m ∈ dedup_mounts last ms → m ∈ ms.
Proof.
  revert last. induction ms as [|x ms IH]; intros last; cbn; [done |].
  case_bool_decide; [by intros ?%IH; right |]. intros [->|?%IH]%elem_of_cons; [by left | by right].
Qed.

Lemma dedup_mounts_sorted (R : SnapshotMount → SnapshotMount → Prop) last ms :
  StronglySorted R ms → StronglySorted R (dedup_mounts last ms).
Proof.
  intros Hs. revert last. induction Hs as [|m ms Hs IH Hm]; intros last; cbn; [constructor |].
  case_bool_decide; [apply IH |]. constructor; [apply IH |]. apply list.Forall_forall.
  intros x Hx%dedup_mounts_sub. by eapply list.Forall_forall in Hm.
Qed.

Lemma sorted_weaken {A} (R R' : A → A → Prop) l :
  (∀ a b, R a b → R' a b) → StronglySorted R l → StronglySorted R' l.
Proof. intros H. induction 1 as [|a l Hs IH Ha]; constructor; [done |]. eapply Forall_impl; [| exact Ha]. apply H. Qed.

(** A new provider for acceptable destinations is well formed. *)
Lemma snapshot_new_wf {C} id generation (content : C) limits ms timeout self :
  0 ≤ max_entries limits → 0 ≤ max_path_bytes limits →
  Forall (destination_ok limits) (destinations ms) →
  snapshot_new id generation content limits ms timeout = Ok self → snapshot_wf self.
Proof.
  intros He Hp Hms (u & _ & ([] & Hl & H)%bind_Ok)%bind_Ok. destruct (timeout =? 0); [done |]. injection H as <-.
  split; cbn; [done | done | |].
  - apply Forall_fmap, list.Forall_forall. intros m Hm%dedup_mounts_sub. rewrite sort_by_perm in Hm.
    unfold destinations in Hms. rewrite Forall_fmap, list.Forall_forall in Hms. by apply Hms.
  - apply dedup_mounts_sorted.
    eapply sorted_weaken; [| exact (sort_by_sorted snapshot_mount_cmp ms)]. intros a b H. unfold snapshot_mount_cmp, cmp_then, cmp_by in H. apply Nat.compare_le_iff. by destruct (_ ?= _)%nat.
Qed.

Section snapshot_theorems.
Context {W C : Type} `{!FuserFlags, !ContainerExportSource W, !ReadOnlyFilesystemProvider W C}.

(** A snapshot shows exactly the export with its mounts laid over it.  When a
    capture succeeds, the new index is valid, carries the new generation, and has
    at every path: an empty directory at the destination of a mount and on the way
    to one where the export has nothing or something hidden; nothing else below a
    destination; and everywhere else what the export has.  When it fails, the
    provider keeps the snapshot it had. *)
Theorem snapshot_capture_exact (self : ContainerRootfsSnapshotProvider C) (w : W) (generation : Z) :
  snapshot_wf self →
  let '(r, (self', _)) := capture_generation generation (self, w) in
  match r with
  | Ok captured_at => ∃ items index state,
      (export (immutable_container_id self) w).1 = Ok items
      ∧ from_stream (map in_time items) (sp_limits self) = Ok index
      ∧ sp_state self' = Some state ∧ sp_generation self' = generation
      ∧ ss_generation state = generation ∧ ss_captured_at state = captured_at
      ∧ validate_persisted (ss_index state) (sp_limits self) = Ok tt
      ∧ ∀ q, TarIndex_get (ss_index state) q = overlaid index (destinations (sp_mounts self)) q
  | _ => self' = self
  end.
Proof.
  intros [Hl [He Hp] Hms Hs]. unfold capture_generation, mbind, prog_bind, asks, call, lift, modify. cbn.
  destruct (export (immutable_container_id self) w) as [[items|e|p] w1]; cbn; [| done | done].
  pose proof (from_stream_valid (map in_time items) (sp_limits self) He Hp) as Hvalid.
  destruct (from_stream _ _) as [index|e|p] eqn:Hfs; cbn; [| done | done]. destruct Hvalid as [Hwf _].
  destruct (apply_mount_overlays index _ _) as [index'|e|p] eqn:Ho; cbn; [| done | done].
  destruct (utc_now w1) as [[now|e|p] w2]; cbn; [| done | done].
  destruct (apply_mount_overlays_spec _ _ _ _ Hwf Hms Hs Ho) as [Hwf' Hget].
  exists items, index. eexists. split_and!; [done | done | reflexivity | done | done | done | | done].
  by apply validate_persisted_ok.
Qed.

(** *** Handles and generations *)
Inductive snapshot_op : Type :=
  | SnLookup (parent : VirtualPath) (name : VirtualFileName)
  | SnGetattr (path : VirtualPath)
  | SnReadDir (path : VirtualPath)
  | SnReadLink (path : VirtualPath)
  | SnOpen (path : VirtualPath) (flags : Z) (context : RequestContext)
  | SnReadAt (handle : ProviderFileHandle) (offset size : Z) (context : RequestContext)
  | SnClose (handle : ProviderFileHandle)
  | SnRefresh
  | SnWorld (w : W).

Definition snapshot_step (op : snapshot_op) (s : ContainerRootfsSnapshotProvider C * W)
  : ContainerRootfsSnapshotProvider C * W :=
  match op with
  | SnLookup parent name => (snapshot_lookup parent name s).2
  | SnGetattr path => (snapshot_getattr path s).2
  | SnReadDir path => (snapshot_read_dir path s).2
  | SnReadLink path => (snapshot_read_link path s).2
  | SnOpen path flags context => (snapshot_open path flags context s).2
  | SnReadAt handle offset size context => (snapshot_read_at handle offset size context s).2
  | SnClose handle => (snapshot_close handle s).2
  | SnRefresh => (snapshot_refresh s).2
  | SnWorld w => (s.1, w)
  end.

(** Programs that leave a captured provider as it is. *)
Definition keeps_captured {A} (m : prog (ContainerRootfsSnapshotProvider C * W) A) : Prop :=
  ∀ self w, is_Some (sp_state self) → (m (self, w)).2.1 = self.

Lemma keeps_captured_bind {A B} (m : prog (ContainerRootfsSnapshotProvider C * W) A) (f : A → prog _ B) :
  keeps_captured m → (∀ a, keeps_captured (f a)) → keeps_captured (m ≫= f).
Proof.
  intros Hm Hf self w Hs. pose proof (Hm self w Hs) as Hself. unfold mbind, prog_bind.
  destruct (m (self, w)) as [[a|e|p] [self' w']]; cbn in Hself; subst self'; [by apply Hf | done | done].
Qed.
Lemma keeps_captured_asks {A} (f : ContainerRootfsSnapshotProvider C → vres A) : keeps_captured (asks f).
Proof. done. Qed.
Lemma keeps_captured_lift {A} (x : vres A) : keeps_captured (lift x).
Proof. done. Qed.
Lemma keeps_captured_call {A} (m : prog W A) : keeps_captured (call m).
Proof. intros self w _. unfold call. cbn. by destruct (m w). Qed.
Lemma keeps_captured_snapshot : keeps_captured snapshot.
Proof. intros self w [st Hst]. unfold snapshot, mbind, prog_bind, asks. cbn. by rewrite Hst. Qed.

Lemma snapshot_step_captured op self w :
  is_Some (sp_state self) →
  let self' := (snapshot_step op (self, w)).1 in
  self' = self ∨ (sp_generation self' = sp_generation self + 1 ∧ is_Some (sp_state self')
                  ∧ content_provider self' = content_provider self).
Proof.
  pose proof keeps_captured_snapshot as Hsnap. pose proof @keeps_captured_asks as Ha. pose proof @keeps_captured_lift as Hl.
  pose proof @keeps_captured_call as Hc.
  assert (∀ path, keeps_captured (snapshot_entry_metadata path)) as Hmeta.
  { intros path. apply keeps_captured_bind; [done |]. intros st. apply keeps_captured_bind; [done |]. intros e. done. }
  intros Hs. destruct op; cbn [snapshot_step].
  - left. eapply keeps_captured_bind; [apply Hl | | done]. intros path. apply Hmeta.
  - left. unfold snapshot_getattr. destruct (VirtualPath_is_root path); [by apply Ha | by apply Hmeta].
  - left. eapply keeps_captured_bind; [done | | done]. intros st. apply Ha.
  - left. eapply keeps_captured_bind; [done | | done]. intros st. eapply keeps_captured_bind; [apply Hl |]. intros e.
    destruct (negb _); apply Hl.
  - left. unfold snapshot_open. destruct (negb _); [by apply Hl |]. eapply keeps_captured_bind; [apply Hsnap | | done]. intros st.
    eapply keeps_captured_bind; [apply Hl |]. intros p. eapply keeps_captured_bind; [apply Ha |]. intros c.
    eapply keeps_captured_bind; [apply Hc |]. intros h. apply (Hl _ (Ok _)).
  - left. eapply keeps_captured_bind; [apply Ha | | done]. intros g. destruct (negb _); [apply Hl |].
    eapply keeps_captured_bind; [apply Ha |]. intros c. apply Hc.
  - left. eapply keeps_captured_bind; [apply Ha | | done]. intros c. apply Hc.
  - cbv zeta. unfold snapshot_refresh, capture_generation, mbind, prog_bind, asks, call, lift, modify. cbn [fst snd].
    destruct (checked_add u64_max (sp_generation self) 1) as [next|] eqn:E; cbn [ok_or]; [| by left].
    unfold checked_add in E. case_bool_decide; [| done]. injection E as <-.
    destruct (export _ w) as [[items|e|p] w1]; cbn; [| by left..].
    destruct (from_stream _ _); cbn; [| by left..]. destruct (apply_mount_overlays _ _ _); cbn; [| by left..].
    destruct (utc_now w1) as [[now|e|p] w2]; cbn; [| by left..]. right. split_and!; [done | by eexists | done].
  - by left.
Qed.

(** A file opened in a snapshot is read from that snapshot or not at all.
    After any further operations, a read through the handle goes to the content
    provider with the handle's own number exactly while the provider still has
    the snapshot the file was opened in; once a refresh has replaced it, every
    read is refused as stale, for ever, because generations only grow. *)
Theorem snapshot_handles_expire (self self1 : ContainerRootfsSnapshotProvider C) (w w1 : W) path flags ctx handle ops :
  snapshot_open path flags ctx (self, w) = (Ok handle, (self1, w1)) →
  (∀ st, sp_state self = Some st → ss_generation st = sp_generation self) →
  let '(self2, w2) := foldl (fun s op => snapshot_step op s) (self1, w1) ops in
  (self2 = self1 ∧ ∀ offset size ctx', snapshot_read_at handle offset size ctx' (self2, w2)
     = call (p_read_at (content_provider self1) handle offset size ctx') (self2, w2))
  ∨ (sp_generation self1 < sp_generation self2 ∧ ∀ offset size ctx',
       snapshot_read_at handle offset size ctx' (self2, w2) = (Err Stale, (self2, w2))).
Proof.
  intros Hopen Hgen.
  assert (is_Some (sp_state self1) ∧ content_generation handle = sp_generation self1) as [Hs Hh].
  { unfold snapshot_open in Hopen. destruct (negb _); [done |]. unfold mbind at 1, prog_bind at 1 in Hopen.
    destruct (snapshot (self, w)) as [[st|e|p] [self0 w0]] eqn:E; [| done | done].
    assert (self1 = self0 ∧ content_generation handle = ss_generation st) as [-> Heq].
    { unfold mbind, prog_bind, lift, asks, call in Hopen. cbn in Hopen. destruct (content_path _ _); [| done | done].
      destruct (p_open _ _ _ _ _) as [[h|e|p] w']; [| done | done]. by injection Hopen as <- <- <-. }
    rewrite Heq. unfold snapshot, mbind, prog_bind, asks in E. cbn in E. destruct (sp_state self) as [st0|] eqn:Est.
    - injection E as <- <- <-. split; [by rewrite Est | by apply Hgen].
    - unfold capture_generation, mbind, prog_bind, asks, call, lift, modify in E. cbn in E.
      destruct (export _ w) as [[items|e|p] w2]; [| done | done]. cbn in E.
      destruct (from_stream _ _); [| done | done]. destruct (apply_mount_overlays _ _ _); [| done | done].
      destruct (utc_now w2) as [[now|e|p] w3]; [| done | done]. cbn in E. injection E as <- <- <-. split; [by eexists | done]. }
  assert (∀ s, is_Some (sp_state s.1) → let s' := foldl (fun s op => snapshot_step op s) s ops in
            s'.1 = s.1 ∨ sp_generation s.1 < sp_generation s'.1) as Hrun.
  { clear. induction ops as [|op ops IH]; intros s Hs; [by left |]. cbn. destruct s as [a b].
    destruct (snapshot_step_captured op a b Hs) as [Heq|(Heq & Hs' & _)].
    - specialize (IH (snapshot_step op (a, b))). rewrite Heq in IH. by apply IH.
    - right. destruct (IH _ Hs') as [->|Hlt]; cbn in *; lia. }
  specialize (Hrun (self1, w1) Hs). destruct (foldl _ _ _) as [self2 w2]. cbn in Hrun.
  destruct Hrun as [->|Hlt]; [left | right]; split; try done; intros offset size ctx'.
  - unfold snapshot_read_at, mbind, prog_bind, asks. cbn [fst]. by rewrite Hh, Z.eqb_refl.
  - unfold snapshot_read_at, mbind, prog_bind, asks. cbn [fst]. rewrite Hh, (proj2 (Z.eqb_neq _ _)) by lia. done.
Qed.
End snapshot_theorems.

(** ** The router *)

(** The generation of the snapshot that a provider reference stands for. *)
Class SnapshotRootfs (W P : Type) := { rootfs_generation : P → W → Z }.

Record ContainerProviderRouter (P : Type) := mkContainerProviderRouter { cr_router : ContainerPathRouter P }.
Arguments mkContainerProviderRouter {P}.
Arguments cr_router {P}.

(** [entries.iter_mut().find(|entry| entry.name == name)], or [push] *)
Fixpoint set_entry (name : VirtualFileName) (metadata : VirtualMetadata) (entries : list VirtualDirectoryEntry)
  : list VirtualDirectoryEntry :=
  match entries with
  | [] => [mkVirtualDirectoryEntry name metadata]
  | entry :: entries =>
      if bool_decide (entry_name entry = name) then mkVirtualDirectoryEntry name metadata :: entries
      else entry :: set_entry name metadata entries
  end.

(** Elements with different keys are known by them. *)
Lemma NoDup_fmap_elem {A B} (f : A → B) l x y :
  NoDup (f <$> l) → x ∈ l → y ∈ l → f x = f y → x = y.
Proof.
  intros Hnd Hx Hy Hf. induction l as [|a l IH]; [by apply elem_of_nil in Hx |].
  cbn in Hnd. apply list.NoDup_cons in Hnd as [Ha Hnd].
  apply elem_of_cons in Hx as [->|Hx], Hy as [->|Hy]; [done | | | by apply IH].
  - destruct Ha. rewrite Hf. by apply list_elem_of_fmap_2.
  - destruct Ha. rewrite <- Hf. by apply list_elem_of_fmap_2.
Qed.

Section container_router.
Context {W P : Type} `{!FuserFlags, !ReadOnlyFilesystemProvider W P, !SnapshotRootfs W P}.
Implicit Types (self : ContainerProviderRouter P) (path : VirtualPath).

(** [format!("rootfs:{}", …)] *)
Definition rootfs_provider_key (rootfs : P) (w : W) : ProviderKey :=
  String.string_of_list_byte (bytes "rootfs:" ++ u64_to_string (rootfs_generation rootfs w)).

Definition container_router_new (container_id : text) (rootfs : P) (mounts : list (ResolvedContainerMount P))
  : prog W (ContainerProviderRouter P) := fun w =>
  ((_ ← validate_identity container_id;
    router ← ContainerPathRouter_new (String.string_of_list_byte container_id) (rootfs_provider_key rootfs w) rootfs mounts;
    Ok (mkContainerProviderRouter router)), w).

Definition cr_route self path : prog W (ResolvedRoute P) := fun w =>
  ((r ← route (cr_router self) path;
    Ok (if bool_decide (is_Some (mount r)) then r
        else mkResolvedRoute (container_path r) (rootfs_provider_key (rootfs (cr_router self)) w)
               (provider_path r) (route_provider r) (mount r))), w).

(** A mount strictly below [path]. *)
Definition mount_below path (m : ResolvedContainerMount P) : bool :=
  (VirtualPath_depth path <? VirtualPath_depth (destination m))%nat && VirtualPath_starts_with (destination m) path.

Definition is_mount_route_parent self path : bool := existsb (mount_below path) (mounts (cr_router self)).

Definition synthetic_mount_route_metadata self path (w : W) : VirtualMetadata :=
  with_generation (VirtualMetadata_directory (bytes "container-mount-route:" ++ VirtualPath_as_bytes path))
    (rootfs_generation (rootfs (cr_router self)) w).

(** The loop of [merge_mount_route_children]. *)
Fixpoint merge_loop self path (context : RequestContext) (ms : list (ResolvedContainerMount P))
  (entries : list VirtualDirectoryEntry) : prog W (list VirtualDirectoryEntry) :=
  match ms with
  | [] => mret entries
  | m :: ms =>
      if (VirtualPath_depth (destination m) <=? VirtualPath_depth path)%nat
         || negb (VirtualPath_starts_with (destination m) path)
      then merge_loop self path context ms entries
      else
        name ← lift (match components (destination m) !! VirtualPath_depth path with
                     | Some name => Ok name
                     | None => Panic "index out of bounds"
                     end);
        child ← lift (VirtualPath_join path name);
        metadata ← (if bool_decide (child = destination m)
                    then p_getattr (mount_provider m) (provider_root m) context
                    else gets (synthetic_mount_route_metadata self child));
        merge_loop self path context ms (set_entry name metadata entries)
  end.

Definition merge_mount_route_children self path (entries : list VirtualDirectoryEntry) (context : RequestContext)
  : prog W (list VirtualDirectoryEntry) :=
  entries ← merge_loop self path context (mounts (cr_router self)) entries;
  mret (sort_by entry_cmp entries).

Definition cr_getattr self path (context : RequestContext) : prog W VirtualMetadata :=
  r ← cr_route self path;
  let is_exact_mount := match mount r with Some m => bool_decide (destination m = path) | None => false end in
  if is_mount_route_parent self path && negb is_exact_mount
  then gets (synthetic_mount_route_metadata self path)
  else p_getattr (route_provider r) (provider_path r) context.

Definition cr_lookup self (parent : VirtualPath) (name : VirtualFileName) (context : RequestContext)
  : prog W VirtualMetadata :=
  path ← lift (VirtualPath_join parent name);
  cr_getattr self path context.

(** A directory that only exists as the parent of a mount lists nothing else. *)
Definition cr_base_entries self path (r : ResolvedRoute P) (context : RequestContext)
  : prog W (list VirtualDirectoryEntry) := fun w =>
  match p_read_dir (route_provider r) (provider_path r) context w with
  | (Err NotFound, w) => if is_mount_route_parent self path then (Ok [], w) else (Err NotFound, w)
  | (Err NotDirectory, w) => if is_mount_route_parent self path then (Ok [], w) else (Err NotDirectory, w)
  | x => x
  end.

Definition cr_read_dir self path (context : RequestContext) : prog W (list VirtualDirectoryEntry) :=
  r ← cr_route self path;
  entries ← cr_base_entries self path r context;
  merge_mount_route_children self path entries context.

Definition cr_read_link self path (context : RequestContext) : prog W VirtualPathBytes :=
  r ← cr_route self path;
  p_read_link (route_provider r) (provider_path r) context.

Definition with_path (handle : ProviderFileHandle) path : ProviderFileHandle :=
  mkProviderFileHandle (handle_id handle) path (content_generation handle).

Definition cr_open self path (flags : Z) (context : RequestContext) : prog W ProviderFileHandle :=
  if negb (is_read_only_open flags) then throw ReadOnly
  else
    is_directory ← (if is_mount_route_parent self path
                    then metadata ← cr_getattr self path context; mret (bool_decide (file_type metadata = Directory))
                    else mret false);
    if (is_directory : bool) then throw IsDirectory
    else
      r ← cr_route self path;
      handle ← p_open (route_provider r) (provider_path r) flags context;
      mret (with_path handle path).

Definition cr_read_at self (handle : ProviderFileHandle) (offset size : Z) (context : RequestContext)
  : prog W (list byte) :=
  r ← cr_route self (handle_path handle);
  p_read_at (route_provider r) (with_path handle (provider_path r)) offset size context.

Definition cr_close self (handle : ProviderFileHandle) : prog W () :=
  r ← cr_route self (handle_path handle);
  p_close (route_provider r) (with_path handle (provider_path r)).

Definition cr_refresh self (path : option VirtualPath) : prog W () :=
  match path with
  | Some path =>
      r ← cr_route self path;
      p_refresh (route_provider r) (Some (provider_path r))
  | None => p_refresh (rootfs (cr_router self)) None
  end.

#[export] Instance container_router_provider : ReadOnlyFilesystemProvider W (ContainerProviderRouter P) := {
  p_descriptor self w := p_descriptor (rootfs (cr_router self)) w;
  p_lookup := cr_lookup;
  p_getattr := cr_getattr;
  p_read_dir := cr_read_dir;
  p_read_link := cr_read_link;
  p_open := cr_open;
  p_read_at := cr_read_at;
  p_close := cr_close;
  p_refresh := cr_refresh;
}.

#[export] Instance container_router_ProviderLaws : ProviderLaws W (ContainerProviderRouter P).
Proof.
  split; cbn; [| done]. intros self path flags ctx w Hf. unfold cr_open. by rewrite Hf.
Qed.
(** *** Handles *)

(** A handle of the container provider is the routed provider's own handle.
    When a file is opened through the container provider, reading and closing it
    through the container provider are reading and closing the very handle that
    the provider of the deepest mount returned, whatever happens in between. *)
Theorem routed_handle self path flags ctx (w w' : W) handle :
  (∀ (p : P) path flags ctx (w w' : W) h, p_open p path flags ctx w = (Ok h, w') → handle_path h = path) →
  cr_open self path flags ctx w = (Ok handle, w') →
  ∃ r own w0, route (cr_router self) path = Ok r
    ∧ p_open (route_provider r) (provider_path r) flags ctx w0 = (Ok own, w') ∧ handle_path handle = path
    ∧ ∀ w1, (∀ offset size ctx', cr_read_at self handle offset size ctx' w1
               = p_read_at (route_provider r) own offset size ctx' w1)
            ∧ cr_close self handle w1 = p_close (route_provider r) own w1.
Proof.
  intros Hlaw Hopen. unfold cr_open in Hopen. destruct (negb _); [done |].
  unfold mbind at 1, prog_bind at 1 in Hopen.
  match type of Hopen with (let (_, _) := ?m in _) = _ => destruct m as [[d|e|p] w0] end; [| done | done].
  destruct d; [done |]. unfold cr_route, mbind, prog_bind in Hopen. cbn in Hopen.
  destruct (route (cr_router self) path) as [r|e|p] eqn:Hr; cbn in Hopen; [| done | done].
  set (r' := if bool_decide _ then r else _) in Hopen.
  assert (route_provider r' = route_provider r ∧ provider_path r' = provider_path r) as [E1 E2]
    by (unfold r'; by case_bool_decide).
  rewrite E1, E2 in Hopen. destruct (p_open _ _ _ _ w0) as [[own|e|p] w1] eqn:Ho; cbn in Hopen; [| done | done].
  injection Hopen as <- <-. pose proof (Hlaw _ _ _ _ _ _ _ Ho) as Hpath.
  exists r, own, w0. split_and!; [done | done | done |]. intros w2.
  assert (with_path (with_path own path) (provider_path r) = own) as Hown
    by (destruct own; unfold with_path; cbn in *; by subst).
  unfold cr_read_at, cr_close, cr_route, mbind, prog_bind. cbn [handle_path with_path]. rewrite Hr. cbn.
  destruct (bool_decide (is_Some (mount r))); cbn; (split; [intros offset size ctx' |]); by rewrite Hown.
Qed.

(** *** Listings *)

(** The value the loop sets for a mount, and the updates it makes. *)
Definition mount_update self path (md : ResolvedContainerMount P → VirtualMetadata) (w : W)
  (m : ResolvedContainerMount P) : option (VirtualFileName * VirtualMetadata) :=
  if mount_below path m then
    name ← components (destination m) !! VirtualPath_depth path;
    match VirtualPath_join path name with
    | Ok child => Some (name, if bool_decide (child = destination m) then md m
                              else synthetic_mount_route_metadata self child w)
    | _ => None
    end
  else None.

Definition apply_update (entries : list VirtualDirectoryEntry) (u : VirtualFileName * VirtualMetadata)
  : list VirtualDirectoryEntry := set_entry u.1 u.2 entries.

(** A mount below a path is below one child of it. *)
Lemma mount_below_child path m :
  path_wf path → path_wf (destination m) → mount_below path m = true →
  ∃ name rest child, components (destination m) = components path ++ name :: rest
    ∧ components (destination m) !! VirtualPath_depth path = Some name
    ∧ VirtualPath_join path name = Ok child ∧ components child = components path ++ [name]
    ∧ path_wf child ∧ (child = destination m ↔ rest = []).
Proof.
  intros Hp Hm. unfold mount_below. rewrite andb_true_iff, Nat.ltb_lt. intros [Hd [cs Hc]%VirtualPath_starts_with_spec].
  unfold VirtualPath_depth in *. rewrite Hc, length_app in Hd. destruct cs as [|name rest]; [cbn in Hd; lia |].
  set (child := mkVirtualPath (components path ++ [name]) (path_len (components path ++ [name]))).
  pose proof Hm as (Hnames & Hlen & Hmax). pose proof (path_len_app_l (components path ++ [name]) rest) as Hle.
  rewrite <- app_assoc in Hle. cbn in Hle. rewrite <- Hc, <- Hlen in Hle.
  assert (VirtualPath_join path name = Ok child) as Hj by (apply from_components_Ok; split; [done | lia]).
  assert (path_wf child) as Hwf.
  { eapply from_components_wf; [| exact Hj]. rewrite Hc in Hnames. apply Forall_app in Hnames as [H1 [H2 _]%Forall_cons_iff].
    apply Forall_app. split; [done |]. by apply Forall_cons_iff. }
  exists name, rest, child. split_and!; [done | rewrite Hc; by apply list_lookup_middle | done | done | done |]. split.
  - intros Heq. assert (components child = components (destination m)) as E by (by rewrite Heq). rewrite Hc in E.
    cbn in E. apply app_inv_head in E. by injection E.
  - intros ->. apply path_wf_eq; [done | done |]. by rewrite Hc.
Qed.

Lemma merge_loop_updates self path ctx md ms entries (w : W) :
  path_wf path → Forall (fun m => path_wf (destination m)) ms →
  (∀ m, m ∈ ms → p_getattr (mount_provider m) (provider_root m) ctx w = (Ok (md m), w)) →
  merge_loop self path ctx ms entries w
  = (Ok (foldl apply_update entries (omap (mount_update self path md w) ms)), w).
Proof.
  intros Hp Hms Hmd. revert entries. induction Hms as [|m ms Hm Hms IH]; intros entries; [done |].
  assert (∀ es, merge_loop self path ctx ms es w
    = (Ok (foldl apply_update es (omap (mount_update self path md w) ms)), w)) as IH'
    by (intros es; apply IH; intros m' Hin; apply Hmd; by right).
  cbn [merge_loop omap list_omap]. unfold mount_update at 1.
  replace ((VirtualPath_depth (destination m) <=? VirtualPath_depth path)%nat || negb (VirtualPath_starts_with (destination m) path))
    with (negb (mount_below path m)) by (unfold mount_below; rewrite negb_andb, Nat.ltb_antisym, negb_involutive; done).
  destruct (mount_below path m) eqn:Hb; cbn [negb]; [| apply IH'].
  destruct (mount_below_child path m Hp Hm Hb) as (name & rest & child & Hc & Hn & Hj & Hcc & Hwf & Hexact).
  unfold mbind, prog_bind, lift. rewrite Hn. cbn [option_bind]. rewrite Hj. destruct (bool_decide (child = destination m)).
  - rewrite Hmd by (by left). apply IH'.
  - unfold gets. apply IH'.
Qed.

(** The last update of a name wins; without one the entry stays. *)
Definition last_update (us : list (VirtualFileName * VirtualMetadata)) (name : VirtualFileName) : option VirtualMetadata :=
  list.last (omap (fun u => if bool_decide (u.1 = name) then Some u.2 else None) us).

Lemma set_entry_spec name metadata entries :
  NoDup (entry_name <$> entries) →
  NoDup (entry_name <$> set_entry name metadata entries)
  ∧ (∀ n, n ∈ entry_name <$> set_entry name metadata entries ↔ n = name ∨ n ∈ entry_name <$> entries)
  ∧ ∀ e, e ∈ set_entry name metadata entries
      ↔ if bool_decide (entry_name e = name) then entry_metadata e = metadata else e ∈ entries.
Proof.
  induction entries as [|x entries IH]; cbn [set_entry fmap list_fmap].
  - intros _. split_and!; [repeat constructor; by intros ?%elem_of_nil | intros n; set_solver |].
    intros [n m]. rewrite list_elem_of_singleton. cbn. case_bool_decide as E.
    + subst n. split; [by intros [= ->] | by intros ->].
    + split; [by intros [= -> ->] | by intros ?%elem_of_nil].
  - intros [Hx Hnd]%list.NoDup_cons. case_bool_decide as E.
    + subst name. split_and!; [by apply list.NoDup_cons | intros n; cbn [fmap list_fmap entry_name]; set_solver |].
      intros [n m]. rewrite elem_of_cons. cbn. case_bool_decide as E.
      * subst n. split; [| intros ->; by left]. intros [[= ->]|Hin]; [done |].
        destruct Hx. apply list_elem_of_fmap. by exists (mkVirtualDirectoryEntry (entry_name x) m).
      * rewrite elem_of_cons. split; [intros [[= -> ->]|?]; [done | by right] | intros [<-|?]; [done | by right]].
    + destruct (IH Hnd) as (H1 & H2 & H3). split_and!.
      * cbn. apply list.NoDup_cons. split; [| done]. rewrite H2. by intros [?|?].
      * intros n. cbn. rewrite !elem_of_cons, H2. tauto.
      * intros e. rewrite elem_of_cons, H3. case_bool_decide as E'; [| by rewrite elem_of_cons].
        split; [intros [->|?]; [by rewrite E' in E | done] | by right].
Qed.

Lemma last_update_snoc us u name :
  last_update (us ++ [u]) name = if bool_decide (u.1 = name) then Some u.2 else last_update us name.
Proof.
  unfold last_update. rewrite omap_app. cbn. case_bool_decide; cbn; [by rewrite last_snoc | by rewrite app_nil_r].
Qed.
Lemma last_update_cons us u name :
  last_update (u :: us) name
  = match last_update us name with Some x => Some x | None => if bool_decide (u.1 = name) then Some u.2 else None end.
Proof.
  unfold last_update. cbn. case_bool_decide; cbn; [| by destruct (list.last _)].
  rewrite last_cons. by destruct (list.last _).
Qed.

Lemma apply_updates_spec us entries :
  NoDup (entry_name <$> entries) →
  NoDup (entry_name <$> foldl apply_update entries us)
  ∧ ∀ e, e ∈ foldl apply_update entries us
      ↔ match last_update us (entry_name e) with Some m => entry_metadata e = m | None => e ∈ entries end.
Proof.
  intros Hnd. induction us as [|u us IH] using rev_ind; [done |]. destruct IH as [H1 H2].
  rewrite foldl_snoc. destruct (set_entry_spec u.1 u.2 _ H1) as (S1 & _ & S3). split; [done |].
  intros e. unfold apply_update at 1. rewrite S3, last_update_snoc. case_bool_decide as E1; case_bool_decide as E2; subst; try done; congruence.
Qed.
(** What the update of a mount says about a child of [path]. *)
Lemma mount_update_child self path md (w : W) m name child :
  path_wf path → path_wf (destination m) → VirtualPath_join path name = Ok child →
  match mount_update self path md w m with
  | Some (n, x) =>
      mount_below path m = true ∧
      (n = name → (destination m = child ∧ x = md m)
                  ∨ (destination m ≠ child ∧ mount_below child m = true ∧ x = synthetic_mount_route_metadata self child w))
      ∧ (destination m = child → n = name) ∧ (mount_below child m = true → n = name)
  | None => destination m ≠ child ∧ mount_below child m = false
  end.
Proof.
  intros Hp Hm Hj. pose proof Hj as [Hchild _]%from_components_Ok.
  assert (VirtualPath_depth child = S (VirtualPath_depth path)) as Hdc
    by (rewrite Hchild; unfold VirtualPath_depth; cbn; rewrite length_app; cbn; lia).
  assert (∀ cs, components (destination m) = components child ++ cs → mount_below path m = true) as Hup.
  { intros cs Hcs. unfold mount_below. rewrite andb_true_iff, Nat.ltb_lt, VirtualPath_starts_with_spec.
    rewrite Hchild in Hcs. cbn in Hcs. rewrite <- app_assoc in Hcs. split; [| eauto].
    unfold VirtualPath_depth. rewrite Hcs, length_app. cbn. lia. }
  assert (mount_below child m = true → ∃ cs, components (destination m) = components child ++ cs) as Hbc
    by (unfold mount_below; by intros [_ ?%VirtualPath_starts_with_spec]%andb_true_iff).
  unfold mount_update. destruct (mount_below path m) eqn:Hb.
  2: { split.
       - intros Hmc. enough (false = true) by done. apply (Hup []). by rewrite app_nil_r, Hmc.
       - apply not_true_iff_false. intros (cs & Hcs)%Hbc. enough (false = true) by done. by apply (Hup cs). }
  destruct (mount_below_child path m Hp Hm Hb) as (n & rest & c & Hc & Hn & Hjn & Hcc & Hwf & Hexact).
  rewrite Hn. cbn [mbind option_bind]. rewrite Hjn.
  assert (∀ cs, components (destination m) = components child ++ cs → n = name) as Hname.
  { intros cs Hcs. rewrite Hc, Hchild in Hcs. cbn in Hcs. rewrite <- app_assoc in Hcs. apply app_inv_head in Hcs. by injection Hcs. }
  split_and!; [done | | |].
  - intros ->. rewrite Hj in Hjn. injection Hjn as <-. case_bool_decide as E; [left; by rewrite E |]. right. split_and!; [congruence | | done].
    unfold mount_below. rewrite andb_true_iff, Nat.ltb_lt, VirtualPath_starts_with_spec. split.
    + unfold VirtualPath_depth. rewrite Hcc, Hc, !length_app. cbn. destruct rest; [by destruct E; apply Hexact | cbn; lia].
    + exists rest. by rewrite Hcc, Hc, <- app_assoc.
  - intros <-. apply (Hname []). by rewrite app_nil_r.
  - intros (cs & Hcs)%Hbc. by eapply Hname.
Qed.

(** The deepest mounts come first, so a mount at the child itself is the last to
    speak for it. *)
Lemma last_update_mounts self path md (w : W) ms name child :
  path_wf path → Forall (fun m => path_wf (destination m)) ms → NoDup (destination <$> ms) →
  StronglySorted (fun x y => mount_cmp x y ≠ Gt) ms → VirtualPath_join path name = Ok child →
  let u := last_update (omap (mount_update self path md w) ms) name in
  (∀ m, m ∈ ms → destination m = child → u = Some (md m))
  ∧ ((∀ m, m ∈ ms → destination m ≠ child) →
     u = if bool_decide (Exists (fun m => mount_below child m = true) ms)
         then Some (synthetic_mount_route_metadata self child w) else None).
Proof.
  intros Hp Hms Hnd Hs Hj. cbv zeta. induction Hms as [|m ms Hm Hms IH].
  { split; [by intros m ?%elem_of_nil |]. intros _. rewrite bool_decide_eq_false_2; [done |]. by intros ?%Exists_nil. }
  cbn [fmap list_fmap] in Hnd. apply list.NoDup_cons in Hnd as [Hfresh Hnd]. apply StronglySorted_inv in Hs as [Hs Hall].
  destruct (IH Hnd Hs) as [IH1 IH2]. clear IH. pose proof (mount_update_child self path md w m name child Hp Hm Hj) as Hu.
  pose proof Hj as [Hchild _]%from_components_Ok.
  assert (destination m = child → (∀ m', m' ∈ ms → destination m' ≠ child) ∧ ¬ Exists (fun m => mount_below child m = true) ms) as Hlast.
  { intros Hmc. split.
    - intros m' Hin Heq. apply Hfresh. apply list_elem_of_fmap. exists m'. split; [congruence | done].
    - intros (m' & Hin & Hb)%list.Exists_exists. eapply list.Forall_forall in Hall; [| exact Hin].
      apply mount_cmp_depth in Hall. unfold mount_below in Hb. apply andb_true_iff in Hb as [Hb%Nat.ltb_lt _]. rewrite Hmc in Hall. lia. }
  cbn [omap list_omap]. destruct (mount_update self path md w m) as [[n x]|].
  - rewrite last_update_cons. cbn [fst snd]. destruct Hu as (Hb & H1 & H2 & H3). split.
    + intros m' [->|Hin]%elem_of_cons Hmc; [| by rewrite (IH1 m' Hin Hmc)].
      destruct (Hlast Hmc) as [L1 L2]. rewrite (IH2 L1), bool_decide_eq_false_2 by done.
      rewrite (bool_decide_eq_true_2 (n = name)) by auto. destruct (H1 (H2 Hmc)) as [[_ ->]|[? _]]; done.
    + intros Hno. rewrite IH2 by (intros m' Hin; apply Hno; by right).
      destruct (bool_decide (Exists _ ms)) eqn:E.
      * apply bool_decide_eq_true in E. by rewrite bool_decide_eq_true_2 by (by apply Exists_cons; right).
      * apply bool_decide_eq_false in E. case_bool_decide as En.
        -- destruct (H1 En) as [[? _]|(_ & Hbc & ->)]; [by destruct (Hno m); [left |] |].
           by rewrite bool_decide_eq_true_2 by (by apply Exists_cons; left).
        -- rewrite bool_decide_eq_false_2; [done |]. intros [?%H3|?]%Exists_cons; done.
  - destruct Hu as [H1 H2]. split.
    + intros m' [->|Hin]%elem_of_cons Hmc; [done | by apply IH1].
    + intros Hno. rewrite IH2 by (intros m' Hin; apply Hno; by right).
      apply (f_equal (fun b : bool => if b then _ else _)). apply bool_decide_ext. rewrite Exists_cons. rewrite H2. intuition done.
Qed.
(** A mount at [child] or below it. *)
Definition on_route (ms : list (ResolvedContainerMount P)) (child : VirtualPath) : Prop :=
  ∃ m, m ∈ ms ∧ (destination m = child ∨ mount_below child m = true).

Lemma container_router_new_spec cid rootfs ms (w w' : W) self :
  container_router_new cid rootfs ms w = (Ok self, w') →
  ∃ s k, ContainerPathRouter_new s k rootfs ms = Ok (cr_router self) ∧ mounts (cr_router self) = sort_by mount_cmp ms.
Proof.
  unfold container_router_new. destruct (validate_identity cid) as [u|e|p]; cbn; [| done | done].
  destruct (ContainerPathRouter_new _ _ _ _) as [router|e|p] eqn:E; cbn; [| done | done]. intros [= <- <-]. cbn.
  eexists _, _. split; [exact E |]. by apply router_new_mounts in E as [? _].
Qed.

(** The attributes of a path at or on the way to a mount. *)
Lemma cr_getattr_on_route cid rootfs ms (w0 w1 w : W) self child ctx md :
  container_router_new cid rootfs ms w0 = (Ok self, w1) →
  path_wf child → Forall (fun m => path_wf (destination m) ∧ path_wf (provider_root m)) ms → NoDup (destination <$> ms) →
  (∀ m, m ∈ ms → p_getattr (mount_provider m) (provider_root m) ctx w = (Ok (md m), w)) →
  is_ok (route (cr_router self) child) = true →
  (∀ m, m ∈ ms → destination m = child → cr_getattr self child ctx w = (Ok (md m), w))
  ∧ ((∀ m, m ∈ ms → destination m ≠ child) → Exists (fun m => mount_below child m = true) ms →
     cr_getattr self child ctx w = (Ok (synthetic_mount_route_metadata self child w), w)).
Proof.
  intros Hnew Hc Hms Hnd Hmd Hok. destruct (container_router_new_spec _ _ _ _ _ _ Hnew) as (s & k & Hr & Hmounts).
  assert (∀ m, m ∈ ms → path_wf (destination m) ∧ path_wf (provider_root m)) as Hwf by (by apply list.Forall_forall).
  destruct (route (cr_router self) child) as [r|e|p] eqn:Er; [| done | done]. clear Hok.
  assert (∀ m, mount r = Some m → m ∈ ms ∧ deepest ms child m ∧ route_provider r = mount_provider m
            ∧ ∃ rest, components child = components (destination m) ++ rest
                ∧ components (provider_path r) = components (provider_root m) ++ rest ∧ path_wf (provider_path r)) as Hroute.
  { intros m Hm. destruct (route_deepest_mount s k rootfs ms (cr_router self) child Hr Hc)
      as [(m' & rest & Hd & Hcc & [[Hl Heq]|[_ Heq]])|[_ Heq]]; rewrite Er in Heq; try done; injection Heq as ->; cbn in Hm; [| done].
    injection Hm as ->. split_and!; [apply Hd | done | done |]. exists rest. cbn. split_and!; [done | done |].
    eapply from_components_wf; [| by apply from_components_Ok]. apply Forall_app. split; [by apply (Hwf m), Hd |].
    destruct Hc as (Hn & _). rewrite Hcc in Hn. by apply Forall_app in Hn as [_ ?]. }
  unfold cr_getattr, cr_route, mbind, prog_bind. rewrite Er. cbn.
  set (r' := if bool_decide (is_Some (mount r)) then r else _).
  assert (mount r' = mount r ∧ route_provider r' = route_provider r ∧ provider_path r' = provider_path r) as (E1 & E2 & E3)
    by (unfold r'; by destruct (bool_decide _)).
  rewrite E1, E2, E3. split.
  - intros m Hin Hmc. destruct (route_deepest_mount s k rootfs ms (cr_router self) child Hr Hc) as [Hcover|[Hno _]].
    2: { specialize (Hno m Hin). apply not_true_iff_false in Hno. destruct Hno. apply VirtualPath_starts_with_spec.
         exists []. by rewrite app_nil_r, Hmc. }
    destruct (mount r) as [m'|] eqn:Em.
    2: { destruct Hcover as (m' & rest & _ & _ & [[_ Heq]|[_ Heq]]); rewrite Er in Heq; [| done]. injection Heq as ->. done. }
    destruct (Hroute m' eq_refl) as (Hin' & (_ & Hcov & Hmax) & Hp & rest & Hcc & Hpp & Hppwf).
    assert (VirtualPath_starts_with child (destination m) = true) as Hself
      by (apply VirtualPath_starts_with_spec; exists []; by rewrite app_nil_r, Hmc).
    assert (destination m' = child) as Hm'.
    { rewrite <- Hmc in *. apply (covering_same_depth (destination m)); [by apply Hwf | by apply Hwf | done | done |].
      apply Nat.le_antisymm; [| by apply Hmax]. unfold VirtualPath_depth. rewrite Hcc, length_app. lia. }
    assert (m' = m) as -> by (eapply NoDup_fmap_elem; [exact Hnd | done | done | congruence]).
    rewrite bool_decide_eq_true_2 by done. rewrite andb_false_r, Hp.
    replace (provider_path r) with (provider_root m); [by apply Hmd |]. apply path_wf_eq; [by apply Hwf | done |].
    rewrite Hpp. assert (rest = []) as ->; [| by rewrite app_nil_r]. rewrite Hm' in Hcc.
    apply (f_equal length) in Hcc. rewrite length_app in Hcc. destruct rest; [done | cbn in Hcc; lia].
  - intros Hno Hex. assert (is_mount_route_parent self child = true) as ->.
    { unfold is_mount_route_parent. rewrite Hmounts. apply existsb_exists. apply list.Exists_exists in Hex as (m & Hin & Hb).
      exists m. split; [| done]. apply list_elem_of_In. by rewrite sort_by_perm. }
    replace (match mount r with Some m => bool_decide (destination m = child) | None => false end) with false; [done |].
    destruct (mount r) as [m|] eqn:Em; [| done]. destruct (Hroute m eq_refl) as (Hin & _).
    by rewrite bool_decide_eq_false_2 by (by apply Hno).
Qed.

(** C25: The listing of a directory of a container agrees with lookup.  When the
    provider of the directory lists [base] and the mounted providers answer for
    their roots, the listing succeeds, is sorted by name without duplicates, and
    has: for a name that is a mount or leads to one exactly what looking the name
    up gives, hiding what the lower provider has there; for every other name
    exactly what the lower provider lists. *)
Theorem container_listing_is_lookup cid rootfs ms (w0 w1 w : W) self path ctx md base :
  container_router_new cid rootfs ms w0 = (Ok self, w1) →
  path_wf path → Forall (fun m => path_wf (destination m) ∧ path_wf (provider_root m)) ms → NoDup (destination <$> ms) →
  (∀ m, m ∈ ms → p_getattr (mount_provider m) (provider_root m) ctx w = (Ok (md m), w)) →
  (r ← cr_route self path; cr_base_entries self path r ctx) w = (Ok base, w) →
  NoDup (entry_name <$> base) →
  ∃ listing, cr_read_dir self path ctx w = (Ok listing, w)
    ∧ StronglySorted (fun a b => entry_cmp a b = Lt) listing
    ∧ ∀ name child, VirtualPath_join path name = Ok child → is_ok (route (cr_router self) child) = true →
        name_wf name →
        (on_route ms child → ∀ x, mkVirtualDirectoryEntry name x ∈ listing ↔ cr_lookup self path name ctx w = (Ok x, w))
        ∧ (¬ on_route ms child → ∀ x, mkVirtualDirectoryEntry name x ∈ listing ↔ mkVirtualDirectoryEntry name x ∈ base).
Proof.
  intros Hnew Hp Hms Hnd Hmd Hbase Hbnd. destruct (container_router_new_spec _ _ _ _ _ _ Hnew) as (s & k & Hr & Hmounts).
  pose proof (sort_by_perm mount_cmp ms) as Hperm. pose proof (sort_by_sorted mount_cmp ms) as Hsorted.
  assert (Forall (fun m => path_wf (destination m)) (sort_by mount_cmp ms)) as Hms'.
  { rewrite Hperm. eapply Forall_impl; [| exact Hms]. by intros m [? _]. }
  set (us := omap (mount_update self path md w) (sort_by mount_cmp ms)).
  set (l := foldl apply_update base us). destruct (apply_updates_spec us base Hbnd) as [Hlnd Hl]. fold l in Hlnd, Hl.
  exists (sort_by entry_cmp l). split_and!.
  - unfold cr_read_dir. unfold mbind, prog_bind in Hbase |- *. destruct (cr_route self path w) as [[r|e|p] w2]; [| done | done].
    destruct (cr_base_entries self path r ctx w2) as [[b|e|p] w3]; [| done | done]. injection Hbase as -> ->.
    unfold merge_mount_route_children, mbind, prog_bind. rewrite Hmounts, (merge_loop_updates _ _ _ md) by
      (try done; intros m Hin; apply Hmd; by rewrite <- Hperm). done.
  - apply (sorted_strict entry_cmp entry_name).
    + intros a b Heq. unfold entry_cmp, cmp_by in Heq. apply bytes_cmp_eq in Heq.
      destruct (entry_name a), (entry_name b); cbn in Heq; by subst.
    + by rewrite sort_by_perm.
    + exact (sort_by_sorted entry_cmp l).
  - intros name child Hj Hok Hname.
    assert (path_wf child) as Hcwf.
    { eapply from_components_wf; [| exact Hj]. apply Forall_app. split; [apply Hp | by apply Forall_cons_iff]. }
    destruct (last_update_mounts self path md w (sort_by mount_cmp ms) name child Hp Hms') as [U1 U2]; try done.
    { by rewrite Hperm. }
    fold us in U1, U2.
    destruct (cr_getattr_on_route _ _ _ _ _ _ _ _ _ _ Hnew Hcwf Hms Hnd Hmd Hok) as [G1 G2].
    assert (cr_lookup self path name ctx w = cr_getattr self child ctx w) as Hlk
      by (unfold cr_lookup, mbind, prog_bind, lift; by rewrite Hj).
    assert (∀ x, mkVirtualDirectoryEntry name x ∈ sort_by entry_cmp l
      ↔ match last_update us name with Some m => x = m | None => mkVirtualDirectoryEntry name x ∈ base end) as Hmem
      by (intros x; rewrite sort_by_perm, Hl; done).
    assert (Exists (fun m => mount_below child m = true) (sort_by mount_cmp ms)
            ↔ Exists (fun m => mount_below child m = true) ms) as Hex by (by rewrite Hperm).
    split.
    + intros Hroute x. rewrite Hmem, Hlk. destruct (decide (Exists (fun m => destination m = child) ms)) as [Hat|Hat].
      * apply list.Exists_exists in Hat as (m & Hin & Hmc). rewrite (U1 m) by (done || by rewrite Hperm).
        rewrite (G1 m Hin Hmc). split; [by intros -> | by intros [= ->]].
      * assert (∀ m, m ∈ ms → destination m ≠ child) as Hno
          by (intros m Hin Heq; apply Hat, list.Exists_exists; eauto).
        assert (Exists (fun m => mount_below child m = true) ms) as Hb.
        { destruct Hroute as (m & Hin & [?|?]); [by destruct (Hno m Hin) |]. apply list.Exists_exists. eauto. }
        rewrite U2 by (intros m Hin; apply Hno; by rewrite <- Hperm). rewrite bool_decide_eq_true_2 by (by apply Hex).
        rewrite (G2 Hno Hb). split; [by intros -> | by intros [= ->]].
    + intros Hroute x. rewrite Hmem. rewrite U2, bool_decide_eq_false_2; [done | |].
      * rewrite Hex. intros (m & Hin & Hb)%list.Exists_exists. apply Hroute. exists m. eauto.
      * intros m Hin Heq. apply Hroute. exists m. rewrite <- Hperm. eauto.
Qed.
End container_router.

(** ** Concrete providers *)

(** Docker as the bytes of the export, beside an in-memory provider. *)
#[local] Instance sample_export : ContainerExportSource (list byte * InMemoryProvider) := {
  export _ := fun w => (Ok [Some (inl w.1)], w);
  utc_now := fun w => (Ok 7, w);
}.

#[local] Instance sample_content : ReadOnlyFilesystemProvider (list byte * InMemoryProvider) () := {
  p_descriptor _ w := p_descriptor tt w.2;
  p_lookup _ parent name ctx := call (p_lookup tt parent name ctx);
  p_getattr _ path ctx := call (p_getattr tt path ctx);
  p_read_dir _ path ctx := call (p_read_dir tt path ctx);
  p_read_link _ path ctx := call (p_read_link tt path ctx);
  p_open _ path flags ctx := call (p_open tt path flags ctx);
  p_read_at _ handle offset size ctx := call (p_read_at tt handle offset size ctx);
  p_close _ handle := call (p_close tt handle);
  p_refresh _ path := call (p_refresh tt path);
}.

Definition file_name (s : string) : VirtualFileName := mkVirtualFileName (bytes s).
Definition sample_id : text := bytes "0123456789abcdef0123456789abcdef0123456789abcdef0123456789abcdef".
Definition data_path : VirtualPath := mkVirtualPath [file_name "etc"] 4.
Definition motd : VirtualPath := mkVirtualPath [file_name "etc"; file_name "motd"] 9.

Definition sample_snapshot (mounts : list SnapshotMount) : ContainerRootfsSnapshotProvider () :=
  match snapshot_new sample_id 9 tt TarLimits_default mounts 1 with
  | Ok self => self
  | _ => mkSnapshotProvider [] 0 tt TarLimits_default [] 0 None
  end.

(** The file etc/motd, with a mount over etc. *)
Definition sample_docker : list byte * InMemoryProvider :=
  (encode_archive [(sample_header, bytes "hello")], InMemoryProvider_new).

Lemma snapshot_capture_exact_witness :
  let '(r, (self, _)) := capture_generation 9 (sample_snapshot [mkSnapshotMount data_path], sample_docker) in
  is_ok r = true ∧ ∃ state, sp_state self = Some state
    ∧ TarIndex_get (ss_index state) [bytes "etc"; bytes "motd"] = None
    ∧ TarIndex_get (ss_index state) [bytes "etc"] = Some (synthetic_directory [bytes "etc"]).
Proof.
  assert (is_ok (capture_generation 9 (sample_snapshot [mkSnapshotMount data_path], sample_docker)).1 = true) as Hok
    by (vm_compute; reflexivity).
  assert (snapshot_wf (sample_snapshot [mkSnapshotMount data_path])) as Hwf.
  { eapply (snapshot_new_wf sample_id 9 tt TarLimits_default [mkSnapshotMount data_path] 1);
      [vm_compute; discriminate | vm_compute; discriminate | | vm_compute; reflexivity].
    apply Forall_cons_iff. split; [| constructor]. split_and!; [discriminate | | vm_compute; discriminate].
    apply Forall_cons_iff. split; [| constructor]. apply (bool_decide_unpack _). vm_compute. exact I. }
  pose proof (snapshot_capture_exact (sample_snapshot [mkSnapshotMount data_path]) sample_docker 9 Hwf) as H.
  destruct (capture_generation _ _) as [r [self w]]. split; [exact Hok |].
  destruct r as [t|e|p]; [| discriminate Hok | discriminate Hok].
  destruct H as (items & index & state & _ & _ & Hs & _ & _ & _ & _ & Hget). exists state.
  split; [exact Hs |]. rewrite !Hget. split.
  - unfold overlaid. rewrite decide_False by (apply (bool_decide_unpack _); vm_compute; exact I).
    rewrite decide_False by (intros [Hl _]; revert Hl; apply (bool_decide_unpack _); vm_compute; exact I).
    rewrite decide_True; [reflexivity |]. apply (bool_decide_unpack _). vm_compute. exact I.
  - unfold overlaid. rewrite decide_True; [reflexivity |]. apply (bool_decide_unpack _). vm_compute. exact I.
Defined.

(** Without mounts, the content of the file in the in-memory provider. *)
Definition served_memory : InMemoryProvider :=
  ((_ ← add_directory data_path (bytes "d"); add_file motd (bytes "f") (bytes "hello")) InMemoryProvider_new).2.
Definition served_docker : list byte * InMemoryProvider :=
  (encode_archive [(sample_header, bytes "hello")], served_memory).

Definition opened_handle : ProviderFileHandle := mkProviderFileHandle 1 motd 9.

Lemma snapshot_handles_expire_witness :
  let s := (snapshot_open motd 0 request (sample_snapshot [], served_docker)).2 in
  let '(self, w) := foldl (fun s op => snapshot_step op s) s [SnGetattr motd; SnRefresh] in
  (snapshot_read_at opened_handle 0 9 request (self, w)).1 = Err Stale.
Proof.
  assert ((snapshot_open motd 0 request (sample_snapshot [], served_docker)).1 = Ok opened_handle) as Hopen
    by (vm_compute; reflexivity).
  assert (sp_generation (foldl (fun s op => snapshot_step op s)
    (snapshot_open motd 0 request (sample_snapshot [], served_docker)).2 [SnGetattr motd; SnRefresh]).1 = 10) as Hg
    by (vm_compute; reflexivity).
  assert (sp_generation (snapshot_open motd 0 request (sample_snapshot [], served_docker)).2.1 = 9) as Hg1
    by (vm_compute; reflexivity).
  pose proof (fun self1 w1 => snapshot_handles_expire (sample_snapshot []) self1 served_docker w1 motd 0 request
    opened_handle [SnGetattr motd; SnRefresh]) as H.
  cbv zeta. destruct (snapshot_open motd 0 request (sample_snapshot [], served_docker)) as [r [self1 w1]].
  cbn [snd fst] in *. subst r. specialize (H self1 w1 eq_refl (fun st (E : None = Some st) => ltac:(discriminate E))).
  destruct (foldl _ _ _) as [self2 w2]. cbn [fst] in Hg. destruct H as [[-> _]|[_ H]].
  - rewrite Hg in Hg1. discriminate Hg1.
  - by rewrite H.
Defined.

(** The container with the in-memory provider as rootfs, whose /etc is also
    mounted at /mnt/vol. *)
#[local] Instance sample_rootfs : SnapshotRootfs InMemoryProvider () := { rootfs_generation _ _ := 9 }.

Definition volume_path : VirtualPath := mkVirtualPath [file_name "mnt"; file_name "vol"] 8.
Definition volume_motd : VirtualPath := mkVirtualPath [file_name "mnt"; file_name "vol"; file_name "motd"] 13.
Definition sample_volume : ResolvedContainerMount () := mkResolvedContainerMount volume_path "volume:v" data_path tt.
Definition sample_container : ContainerProviderRouter () :=
  match (container_router_new sample_id tt [sample_volume] served_memory).1 with
  | Ok self => self
  | _ => mkContainerProviderRouter (mkContainerPathRouter "" [] "" tt)
  end.

Lemma routed_handle_witness :
  ∃ handle own, (cr_open sample_container volume_motd 0 request served_memory).1 = Ok handle
    ∧ handle_path handle = volume_motd ∧ handle_path own = motd
    ∧ ∀ w, cr_read_at sample_container handle 0 5 request w = p_read_at tt own 0 5 request w.
Proof.
  assert (is_ok (cr_open sample_container volume_motd 0 request served_memory).1 = true) as Hok by (vm_compute; reflexivity).
  destruct (cr_open sample_container volume_motd 0 request served_memory) as [r w'] eqn:E. cbn [fst] in *.
  destruct r as [handle|e|p]; [| discriminate Hok | discriminate Hok].
  assert (∀ (p : ()) path flags ctx (w w' : InMemoryProvider) h,
    p_open p path flags ctx w = (Ok h, w') → handle_path h = path) as Hlaw.
  { intros p path flags ctx w w1 h H. cbn in H. unfold memory_open in H. repeat case_match; simplify_eq; done. }
  destruct (routed_handle sample_container volume_motd 0 request served_memory w' handle Hlaw E)
    as (r & own & w0 & Hr & Ho & Hp & Hrw).
  assert (route (cr_router sample_container) volume_motd
    = Ok (mkResolvedRoute volume_motd "volume:v" motd tt (Some sample_volume))) as Hroute by (vm_compute; reflexivity).
  rewrite Hroute in Hr. injection Hr as <-. cbn [route_provider provider_path] in *. exists handle, own.
  split_and!; [reflexivity | exact Hp | exact (Hlaw _ _ _ _ _ _ _ Ho) |]. intros w. apply (Hrw w).
Defined.

Lemma volume_paths_wf : path_wf volume_path ∧ path_wf data_path.
Proof.
  repeat split; try (apply (bool_decide_unpack _); vm_compute; exact I).
Qed.

(** Listing the root: the rootfs has only etc, the mount adds the synthetic mnt. *)
Lemma container_listing_is_lookup_witness :
  ∃ listing, cr_read_dir sample_container VirtualPath_root request served_memory = (Ok listing, served_memory)
    ∧ ∀ x, mkVirtualDirectoryEntry (file_name "mnt") x ∈ listing
           ↔ cr_lookup sample_container VirtualPath_root (file_name "mnt") request served_memory = (Ok x, served_memory).
Proof.
  destruct (container_listing_is_lookup sample_id tt [sample_volume] served_memory served_memory served_memory
    sample_container VirtualPath_root request (fun _ => VirtualMetadata_directory (bytes "d"))
    [mkVirtualDirectoryEntry (file_name "etc") (VirtualMetadata_directory (bytes "d"))]) as (listing & Hl & _ & Hx).
  - vm_cast_no_check (eq_refl (Ok sample_container : vres _, served_memory)).
  - apply VirtualPath_root_wf.
  - apply Forall_cons_iff. split; [exact volume_paths_wf | constructor].
  - apply list.NoDup_singleton.
  - intros m ->%list_elem_of_singleton.
    vm_cast_no_check (eq_refl (Ok (VirtualMetadata_directory (bytes "d")) : vres _, served_memory)).
  - vm_cast_no_check (eq_refl (Ok [mkVirtualDirectoryEntry (file_name "etc") (VirtualMetadata_directory (bytes "d"))] : vres _, served_memory)).
  - apply list.NoDup_singleton.
  - exists listing. split; [exact Hl |].
    apply (Hx (file_name "mnt") (mkVirtualPath [file_name "mnt"] 4)); [reflexivity | vm_compute; reflexivity | |].
    + apply (bool_decide_unpack _). vm_compute. exact I.
    + exists sample_volume. split; [by apply list_elem_of_singleton | right; reflexivity].
Defined.
