(* ===== verification/FsClient.v ===== *)
(** The daemon's side of the filesystem helper
    (crates/docker-core/src/services/filesystem): the errors and records of the
    browsing service, the client that runs one helper command per [docker exec]
    and reads its lines, and the removal of helper containers.

    The Docker API and the JSON decoder are parameters.  Every command is
    composed with the model of the helper itself: an engine that executes
    [helper_main] makes the client return what the helper was asked for. *)

From S2P Require Import Prelude Error Path Numbers Text Utf8 FsProtocol FsHelper DockerError.

Local Open Scope Z_scope.

(** ** Errors *)
Inductive FilesystemError : Type :=
  | FE_DockerUnavailable
  | FE_SourceNotFound
  | FE_ImageNotFound (id : text)
  | FE_VolumeNotFound (name : text)
  | FE_UnsupportedPlatform (msg : text)
  | FE_HelperBinaryUnavailable (msg : text)
  | FE_HelperImageLoadFailed (msg : text)
  | FE_HelperContainerCreateFailed (msg : text)
  | FE_HelperContainerStartFailed (msg : text)
  | FE_HelperHandshakeFailed (msg : text)
  | FE_HelperProtocolMismatch (expected got : Z)
  | FE_HelperProtocolError (msg : text)
  | FE_InvalidPathToken (msg : text)
  | FE_PathEscapeRejected (msg : text)
  | FE_PathNotFound (path : text)
  | FE_NotDirectory (path : text)
  | FE_IsDirectory (path : text)
  | FE_PermissionDenied (msg : text)
  | FE_UnsupportedFileType (msg : text)
  | FE_ResponseTooLarge (msg : text)
  | FE_DirectoryEntryLimitExceeded
  | FE_ExecFailed (msg : text)
  | FE_Timeout
  | FE_Cancelled
  | FE_SessionInvalidated
  | FE_SessionClosed
  | FE_SessionFailed (msg : text)
  | FE_ImageNotFoundVariant (msg : text)
  | FE_OperationTimeout
  | FE_Internal (msg : text).

#[export] Instance FilesystemError_eq_dec : EqDecision FilesystemError.
Proof. solve_decision. Defined.

(** [fmt::Display] *)
Definition FilesystemError_to_string (self : FilesystemError) : text :=
  match self with
  | FE_DockerUnavailable => bytes "Docker Engine is unavailable"
  | FE_SourceNotFound => bytes "source not found"
  | FE_ImageNotFound id => bytes "image not found: " ++ id
  | FE_VolumeNotFound name => bytes "volume not found: " ++ name
  | FE_UnsupportedPlatform msg => bytes "unsupported platform: " ++ msg
  | FE_HelperBinaryUnavailable msg => bytes "helper binary unavailable: " ++ msg
  | FE_HelperImageLoadFailed msg => bytes "helper image load failed: " ++ msg
  | FE_HelperContainerCreateFailed msg => bytes "container create failed: " ++ msg
  | FE_HelperContainerStartFailed msg => bytes "container start failed: " ++ msg
  | FE_HelperHandshakeFailed msg => bytes "helper handshake failed: " ++ msg
  | FE_HelperProtocolMismatch expected got =>
      bytes "protocol version mismatch: expected " ++ u64_to_string expected ++ bytes ", got " ++ u64_to_string got
  | FE_HelperProtocolError msg => bytes "helper protocol error: " ++ msg
  | FE_InvalidPathToken msg => bytes "invalid path token: " ++ msg
  | FE_PathEscapeRejected msg => bytes "path escape rejected: " ++ msg
  | FE_PathNotFound path => bytes "not found: " ++ path
  | FE_NotDirectory path => bytes "not a directory: " ++ path
  | FE_IsDirectory path => bytes "is a directory: " ++ path
  | FE_PermissionDenied msg => bytes "permission denied: " ++ msg
  | FE_UnsupportedFileType msg => bytes "unsupported file type: " ++ msg
  | FE_ResponseTooLarge msg => bytes "response too large: " ++ msg
  | FE_DirectoryEntryLimitExceeded => bytes "directory entry limit exceeded"
  | FE_ExecFailed msg => bytes "exec failed: " ++ msg
  | FE_Timeout => bytes "operation timed out"
  | FE_Cancelled => bytes "operation was cancelled"
  | FE_SessionInvalidated => bytes "session invalidated"
  | FE_SessionClosed => bytes "session closed"
  | FE_SessionFailed msg => bytes "session failed: " ++ msg
  | FE_ImageNotFoundVariant msg => bytes "image not found: " ++ msg
  | FE_OperationTimeout => bytes "operation timed out"
  | FE_Internal msg => bytes "internal error: " ++ msg
  end.

Definition FilesystemError_code (self : FilesystemError) : string :=
  match self with
  | FE_DockerUnavailable => "docker_unavailable"
  | FE_SourceNotFound => "source_not_found"
  | FE_ImageNotFound _ | FE_ImageNotFoundVariant _ => "image_not_found"
  | FE_VolumeNotFound _ => "volume_not_found"
  | FE_UnsupportedPlatform _ => "unsupported_platform"
  | FE_HelperBinaryUnavailable _ => "helper_binary_unavailable"
  | FE_HelperImageLoadFailed _ => "helper_image_load_failed"
  | FE_HelperContainerCreateFailed _ => "helper_container_create_failed"
  | FE_HelperContainerStartFailed _ => "helper_container_start_failed"
  | FE_HelperHandshakeFailed _ => "helper_handshake_failed"
  | FE_HelperProtocolMismatch _ _ => "helper_protocol_mismatch"
  | FE_HelperProtocolError _ => "helper_protocol_error"
  | FE_InvalidPathToken _ => "invalid_path_token"
  | FE_PathEscapeRejected _ => "path_escape_rejected"
  | FE_PathNotFound _ => "not_found"
  | FE_NotDirectory _ => "not_directory"
  | FE_IsDirectory _ => "is_directory"
  | FE_PermissionDenied _ => "permission_denied"
  | FE_UnsupportedFileType _ => "unsupported_file_type"
  | FE_ResponseTooLarge _ => "response_too_large"
  | FE_DirectoryEntryLimitExceeded => "directory_entry_limit_exceeded"
  | FE_ExecFailed _ => "exec_failed"
  | FE_Timeout | FE_OperationTimeout => "timeout"
  | FE_Cancelled => "cancelled"
  | FE_SessionInvalidated | FE_SessionClosed => "session_invalidated"
  | FE_SessionFailed _ => "session_failed"
  | FE_Internal _ => "internal"
  end.

Definition invalidates_session (self : FilesystemError) : bool :=
  match self with
  | FE_Timeout | FE_OperationTimeout | FE_SessionInvalidated | FE_SessionClosed
  | FE_SessionFailed _ | FE_ExecFailed _ => true
  | _ => false
  end.

Abbreviation fres := (result FilesystemError).

(** ** Records *)
Inductive FilesystemSource : Type :=
  | Source_Image (image_id platform : text)
  | Source_Volume (volume_name : text).

#[export] Instance FilesystemSource_eq_dec : EqDecision FilesystemSource.
Proof. solve_decision. Defined.

Definition FilesystemSource_to_string (self : FilesystemSource) : text :=
  match self with
  | Source_Image image_id _ => bytes "image:" ++ image_id
  | Source_Volume volume_name => bytes "volume:" ++ volume_name
  end.

Record FilesystemSession := mkFilesystemSession {
  se_container_id : text;
  se_container_name : text;
  se_source : FilesystemSource;
  se_root : text;
  se_helper_path : text;
  se_protocol_version : Z;
  se_helper_version : text;
  se_read_only : bool;
  se_created_at : Z;
}.

#[export] Instance FilesystemSession_eq_dec : EqDecision FilesystemSession.
Proof. solve_decision. Defined.

Inductive FilesystemEntryType : Type :=
  | ET_Directory | ET_RegularFile | ET_SymbolicLink | ET_Socket | ET_Fifo | ET_BlockDevice
  | ET_CharacterDevice | ET_Unknown.

#[export] Instance FilesystemEntryType_eq_dec : EqDecision FilesystemEntryType.
Proof. solve_decision. Defined.

Definition FilesystemEntryType_as_str (self : FilesystemEntryType) : string :=
  match self with
  | ET_Directory => "directory"
  | ET_RegularFile => "file"
  | ET_SymbolicLink => "symlink"
  | ET_Socket => "socket"
  | ET_Fifo => "fifo"
  | ET_BlockDevice => "block"
  | ET_CharacterDevice => "char"
  | ET_Unknown => "unknown"
  end.

Definition FilesystemEntryType_is_directory (self : FilesystemEntryType) : bool :=
  match self with ET_Directory => true | _ => false end.

Definition from_protocol (ft : HelperFileType) : FilesystemEntryType :=
  match ft with
  | FtDirectory => ET_Directory
  | FtFile => ET_RegularFile
  | FtSymlink => ET_SymbolicLink
  | FtSocket => ET_Socket
  | FtFifo => ET_Fifo
  | FtBlockDevice => ET_BlockDevice
  | FtCharacterDevice => ET_CharacterDevice
  | FtUnknown => ET_Unknown
  end.

Definition code_in (code : text) (names : list string) : bool := existsb (text_is code) names.

Definition from_protocol_str (code : text) : FilesystemEntryType :=
  if code_in code ["d"; "directory"; "dir"]%string then ET_Directory
  else if code_in code ["f"; "file"; "regular"]%string then ET_RegularFile
  else if code_in code ["l"; "symlink"; "link"]%string then ET_SymbolicLink
  else if code_in code ["s"; "socket"]%string then ET_Socket
  else if code_in code ["p"; "fifo"; "pipe"]%string then ET_Fifo
  else if code_in code ["b"; "block"]%string then ET_BlockDevice
  else if code_in code ["c"; "char"]%string then ET_CharacterDevice
  else ET_Unknown.

Record FilesystemEntry := mkFilesystemEntry {
  fe_name_raw : list byte;
  fe_display_name : text;
  fe_path_token : FilesystemPathToken;
  fe_entry_type : FilesystemEntryType;
  fe_size_bytes : option Z;
  fe_modified_at : option Z;
  fe_mode : option Z;
  fe_uid : option Z;
  fe_gid : option Z;
  fe_symlink_target_raw : option (list byte);
  fe_symlink_target_display : option text;
  fe_readable : bool;
  fe_hidden : bool;
}.

Record ListDirectoryRequest := mkListDirectoryRequest {
  lq_path_token : FilesystemPathToken;
  lq_show_hidden : bool;
  lq_limit : option Z;
  lq_cursor : option text;
}.

Record StatRequest := mkStatRequest { sq_path_token : FilesystemPathToken }.

Record PreviewRequest := mkPreviewRequest {
  pq_path_token : FilesystemPathToken;
  pq_offset : Z;
  pq_limit : Z;
}.

Record HashRequest := mkHashRequest {
  hq_path_token : FilesystemPathToken;
  hq_algorithm : text;
}.

Record ListDirectoryResult := mkListDirectoryResult {
  lres_entries : list FilesystemEntry;
  lres_truncated : bool;
  lres_next_cursor : option text;
}.

Record PreviewChunk := mkPreviewChunk {
  pc_data_b64 : text;
  pc_offset : Z;
  pc_eof : bool;
  pc_truncated : bool;
}.

Record PreviewResult := mkPreviewResult {
  pr_chunks : list PreviewChunk;
  pr_total_length : Z;
  pr_truncated : bool;
}.

(** A timestamp in seconds that [chrono] can represent, outside the sources. *)
Class Chrono := { timestamp_opt : Z → option Z }.
Class ChronoLaws `{!Chrono} : Prop := {
  timestamp_opt_seconds ts t : timestamp_opt ts = Some t → t = ts;
}.

Definition ok {E A} (r : result E A) : option A := match r with Ok a => Some a | _ => None end.

Definition encode_base64_to_raw (b64 : text) : option (list byte) := ok (decode_base64 b64).

Definition from_protocol_entry `{!Chrono} (msg : HelperMessage) : option FilesystemEntry :=
  match msg with
  | MsgEntry name_b64 path_token f =>
      name_raw ← encode_base64_to_raw name_b64;
      let target := mf_symlink_target_b64 f ≫= fun b => ok (decode_base64 b) in
      Some {| fe_name_raw := name_raw;
              fe_display_name := from_utf8_lossy name_raw;
              fe_path_token := mkFilesystemPathToken path_token;
              fe_entry_type := from_protocol (mf_file_type f);
              fe_size_bytes := mf_size f;
              fe_modified_at := mf_mtime f ≫= timestamp_opt;
              fe_mode := mf_mode f;
              fe_uid := mf_uid f;
              fe_gid := mf_gid f;
              fe_symlink_target_raw := target;
              fe_symlink_target_display := from_utf8_lossy <$> target;
              fe_readable := mf_readable f;
              fe_hidden := bool_decide (head name_raw = Some "."%byte) |}
  | _ => None
  end.

Definition path_display (self : FilesystemEntry) : text :=
  if token_is_root (fe_path_token self) then bytes "/" else "/"%byte :: token_str (fe_path_token self).

(** ** Programs of the client over the state of the Docker engine *)
Definition fprog (W A : Type) : Type := W → fres A * W.

#[export] Instance fprog_ret {W} : MRet (fprog W) := fun A a w => (Ok a, w).
#[export] Instance fprog_bind {W} : MBind (fprog W) := fun A B f m w =>
  match m w with
  | (Ok a, w) => f a w
  | (Err e, w) => (Err e, w)
  | (Panic s, w) => (Panic s, w)
  end.

Definition flift {W A} (r : fres A) : fprog W A := fun w => (r, w).
Definition fthrow {W A} (e : FilesystemError) : fprog W A := flift (Err e).

(** [let _ = …]: the outcome is dropped. *)
Definition ignore {W A} (m : fprog W A) : fprog W () := fun w => (Ok tt, (m w).2).

(** ** The Docker API *)
Inductive LogOutput : Type :=
  | LO_StdOut (message : list byte)
  | LO_StdErr (message : list byte)
  | LO_Console (message : list byte)
  | LO_StdIn (message : list byte).

(** The output of an attached exec is what its stream delivers until it ends. *)
Inductive StartExecResults : Type :=
  | Attached (output : list (LogOutput + BollardError))
  | Detached.

(** What [list_containers] reports of a container. *)
Record ListedContainer := mkListedContainer {
  lc_id : option text;
  lc_labels : option (gmap text text);
}.

(** [None] stands for a call that does not finish before the timeout. *)
Class DockerExec (W : Type) := {
  create_exec : text → list text → bool → W → (text + BollardError) * W;
  start_exec : text → Z → W → option (StartExecResults + BollardError) * W;
  remove_container : text → W → option (() + BollardError) * W;
  list_containers : list (text * list text) → W → option (list ListedContainer + BollardError) * W;
}.

(** [.map_err(f)?] *)
Definition api_call {W A} (f : BollardError → FilesystemError) (m : W → (A + BollardError) * W) : fprog W A :=
  fun w => let '(r, w) := m w in (match r with inl a => Ok a | inr error => Err (f error) end, w).

(** [tokio::time::timeout(..).await.map_err(|_| Timeout)?.map_err(f)?] *)
Definition timed_call {W A} (f : BollardError → FilesystemError) (m : W → option (A + BollardError) * W)
  : fprog W A :=
  fun w =>
  let '(r, w) := m w in
  (match r with None => Err FE_Timeout | Some (inl a) => Ok a | Some (inr error) => Err (f error) end, w).

(** ** Cancellation

    A token is seen through the checks the code makes: the number of checks it
    passes before it is cancelled, [None] when it never is. *)
Definition CancellationToken := option nat.
Definition CancellationToken_new : CancellationToken := None.

(** One check: the token after it, or that it is cancelled. *)
Definition poll_cancel (token : CancellationToken) : option CancellationToken :=
  match token with
  | None => Some None
  | Some O => None
  | Some (S n) => Some (Some n)
  end.

Definition check_cancel (token : CancellationToken) : fres CancellationToken :=
  match poll_cancel token with Some token => Ok token | None => Err FE_Cancelled end.

(** ** The wire: one line of JSON per message

    [HelperMessage] keeps of an error its code; [hl_text] is its [message]. *)
Record HelperLine := mkHelperLine {
  hl_message : HelperMessage;
  hl_text : text;
}.

(** [serde_json::from_str] and [to_string] of [HelperMessage], outside the sources. *)
Class HelperJson := {
  from_str : text → result text HelperLine;
  to_string : HelperLine → text;
}.

(** [emit] *)
Definition emit `{!HelperJson} (message : HelperLine) : text := to_string message ++ ["010"%byte].

(** [str::lines]: a line ends with a newline or the end of the text; a carriage
    return before the newline belongs to the line ending. *)
Definition strip_cr (line : text) : text :=
  if bool_decide (list.last line = Some "013"%byte) then take (length line - 1) line else line.
Definition str_lines (s : text) : list text :=
  let pieces := split_on "010"%byte s in
  (strip_cr <$> take (length pieces - 1) pieces)
  ++ match list.last pieces with Some (_ :: _ as line) => [line] | _ => [] end.

Definition MAX_EXEC_STDOUT : Z := 8 * 1024 * 1024.
Definition MAX_EXEC_PREVIEW : Z := 32 * 1024 * 1024.

(** ** Error mapping *)
Definition map_helper_error (code : HelperErrorCode) (message : text) : FilesystemError :=
  match code with
  | HelperNotFound => FE_PathNotFound message
  | HelperPermissionDenied => FE_PermissionDenied message
  | HelperIsDirectory => FE_IsDirectory message
  | HelperNotDirectory => FE_NotDirectory message
  | InvalidToken => FE_InvalidPathToken message
  | PathEscapeRejected => FE_PathEscapeRejected message
  | HelperSymlinkLoop => FE_UnsupportedFileType message
  | UnsupportedFileType => FE_UnsupportedFileType message
  | HelperIo => FE_ExecFailed message
  | InvalidArgs => FE_HelperProtocolError message
  end.

Definition map_exec_error (error : BollardError) : FilesystemError :=
  let text := be_display error in
  let lower := to_ascii_lowercase text in
  if has lower "no such container" || has lower "is not running" then FE_SessionClosed
  else if has lower "exec format error" || has lower "cannot execute" then FE_UnsupportedPlatform text
  else FE_ExecFailed text.

(** ** Running a command *)

(** The [loop] of [exec_lines]: standard output and error of the whole stream. *)
Fixpoint collect_output (cancellation : CancellationToken) (output : list (LogOutput + BollardError))
  (stdout stderr : list byte) : fres (list byte * list byte) :=
  match poll_cancel cancellation with
  | None => Err FE_Cancelled
  | Some cancellation =>
      match output with
      | [] => Ok (stdout, stderr)
      | inl (LO_StdOut message) :: output | inl (LO_Console message) :: output =>
          collect_output cancellation output (stdout ++ message) stderr
      | inl (LO_StdErr message) :: output => collect_output cancellation output stdout (stderr ++ message)
      | inl (LO_StdIn _) :: output => collect_output cancellation output stdout stderr
      | inr error :: _ => Err (FE_ExecFailed (be_display error))
      end
  end.

(** What [exec_lines] makes of the collected output. *)
Definition output_lines (stdout stderr : list byte) : fres (list text) :=
  if is_empty stdout && negb (is_empty stderr) then
    let msg := from_utf8_lossy stderr in
    if has (to_ascii_lowercase msg) "permission denied" then Err (FE_PermissionDenied (trim msg))
    else Err (FE_ExecFailed (trim msg))
  else Ok (List.filter (fun l => negb (is_empty (trim l))) (str_lines (from_utf8_lossy stdout))).

Section client.
Context {W : Type} {DX : DockerExec W} {HJ : HelperJson} {CH : Chrono}.

(** Create and start an attached exec. *)
Definition attach (session : FilesystemSession) (cmd : list text) (attach_stderr : bool) (max_output : Z)
  : fprog W (list (LogOutput + BollardError)) :=
  id ← api_call map_exec_error (create_exec (se_container_id session) cmd attach_stderr);
  start ← timed_call map_exec_error (start_exec id max_output);
  match start with
  | Attached output => mret output
  | Detached => fthrow (FE_ExecFailed (bytes "exec started detached"))
  end.

Definition exec_lines (session : FilesystemSession) (cmd : list text) (max_output : Z)
  (cancellation : CancellationToken) : fprog W (list text) :=
  cancellation ← flift (check_cancel cancellation);
  output ← attach session cmd true max_output;
  '(stdout, stderr) ← flift (collect_output cancellation output [] []);
  flift (output_lines stdout stderr).

(** The position of the first newline, and what is before and after it. *)
Fixpoint split_newline (bs : list byte) : option (list byte * list byte) :=
  match bs with
  | [] => None
  | b :: bs =>
      if bool_decide (b = "010"%byte) then Some ([], bs)
      else '(line, rest) ← split_newline bs; Some (b :: line, rest)
  end.

(** [exec_raw_stream]: [None] for the header while it is complete. *)
Definition raw_chunk {S} (on_data : list byte → S → fres () * S) (bytes_ : list byte)
  (header : option (list byte)) (total : Z) : S → fres (option (list byte) * Z) * S :=
  fun s =>
  let forward (data : list byte) :=
    let '(r, s) := on_data data s in
    (match r with Ok _ => Ok (None, total + len data) | Err e => Err e | Panic p => Panic p end, s) in
  match header with
  | None => forward bytes_
  | Some header_buf =>
      match split_newline bytes_ with
      | None => (Ok (Some (header_buf ++ bytes_), total), s)
      | Some (line, rest) =>
          match from_str (from_utf8_lossy (header_buf ++ line)) with
          | Err error => (Err (FE_HelperProtocolError (bytes "header parse: " ++ error)), s)
          | Panic p => (Panic p, s)
          | Ok _message => if is_empty rest then (Ok (None, total), s) else forward rest
          end
      end
  end.

Fixpoint raw_loop {S} (on_data : list byte → S → fres () * S) (cancellation : CancellationToken)
  (output : list (LogOutput + BollardError)) (header : option (list byte)) (total : Z) (s : S) : fres Z * S :=
  match poll_cancel cancellation with
  | None => (Err FE_Cancelled, s)
  | Some cancellation =>
      match output with
      | [] => (Ok total, s)
      | inl (LO_StdOut message) :: output | inl (LO_Console message) :: output =>
          match raw_chunk on_data message header total s with
          | (Ok (header, total), s) => raw_loop on_data cancellation output header total s
          | (Err e, s) => (Err e, s)
          | (Panic p, s) => (Panic p, s)
          end
      | inl _ :: output => raw_loop on_data cancellation output header total s
      | inr error :: _ => (Err (FE_ExecFailed (be_display error)), s)
      end
  end.

Definition exec_raw_stream {S} (session : FilesystemSession) (cmd : list text)
  (cancellation : CancellationToken) (on_data : list byte → S → fres () * S) (s : S) : W → fres Z * S * W :=
  fun w =>
  match (cancellation ← flift (check_cancel cancellation);
         output ← attach session cmd false MAX_EXEC_PREVIEW;
         mret (cancellation, output)) w with
  | (Ok (cancellation, output), w) => (raw_loop on_data cancellation output (Some []) 0 s, w)
  | (Err e, w) => (Err e, s, w)
  | (Panic p, w) => (Panic p, s, w)
  end.

(** ** Commands *)

(** The first line that a command answers to; lines that do not parse, and
    messages of another kind, are passed over. *)
Fixpoint first_answer {A} (answer : HelperMessage → option A) (none : FilesystemError) (lines : list text) : fres A :=
  match lines with
  | [] => Err none
  | line :: lines =>
      match from_str line with
      | Ok (mkHelperLine (MsgError code) message) => Err (map_helper_error code message)
      | Ok (mkHelperLine m _) =>
          match answer m with Some a => Ok a | None => first_answer answer none lines end
      | _ => first_answer answer none lines
      end
  end.

(** The [for] loop of [hello]; an error line is passed over like any other. *)
Fixpoint first_hello (lines : list text) : fres text :=
  match lines with
  | [] => Err (FE_HelperHandshakeFailed (bytes "no hello message received"))
  | line :: lines =>
      match from_str line with
      | Ok (mkHelperLine (MsgHello protocol helper_version) _) =>
          if negb (protocol =? FS_HELPER_PROTOCOL_VERSION)
          then Err (FE_HelperProtocolMismatch FS_HELPER_PROTOCOL_VERSION protocol)
          else Ok helper_version
      | _ => first_hello lines
      end
  end.

Definition hello (session : FilesystemSession) (cancellation : CancellationToken) : fprog W text :=
  output ← exec_lines session [se_helper_path session; bytes "hello"] MAX_EXEC_STDOUT cancellation;
  flift (first_hello output).

(** The arguments after the path of the helper. *)
Definition target_args (command : string) (session : FilesystemSession) (token : FilesystemPathToken) : list text :=
  [bytes command; bytes "--root"; se_root session; bytes "--path-token"; token_str token].

Definition list_args (session : FilesystemSession) (request : ListDirectoryRequest) : list text :=
  target_args "list" session (lq_path_token request)
  ++ (if lq_show_hidden request then [bytes "--show-hidden"] else [])
  ++ from_option (fun limit => [bytes "--limit"; u64_to_string limit]) [] (lq_limit request)
  ++ from_option (fun cursor => [bytes "--cursor"; cursor]) [] (lq_cursor request).

Fixpoint parse_list_loop (lines : list text) (acc : ListDirectoryResult) : fres ListDirectoryResult :=
  match lines with
  | [] => Ok acc
  | line :: lines =>
      match from_str line with
      | Err error => Err (FE_HelperProtocolError (bytes "JSON parse: " ++ error))
      | Panic s => Panic s
      | Ok (mkHelperLine message error_text) =>
          match message with
          | MsgEntry _ _ _ =>
              parse_list_loop lines
                (mkListDirectoryResult (lres_entries acc ++ option_list (from_protocol_entry message))
                   (lres_truncated acc) (lres_next_cursor acc))
          | MsgEnd t c => parse_list_loop lines (mkListDirectoryResult (lres_entries acc) t c)
          | MsgError code => Err (map_helper_error code error_text)
          | _ => parse_list_loop lines acc
          end
      end
  end.
Definition parse_list_output (lines : list text) : fres ListDirectoryResult :=
  parse_list_loop lines (mkListDirectoryResult [] false None).

Definition list_directory (session : FilesystemSession) (request : ListDirectoryRequest)
  (cancellation : CancellationToken) : fprog W ListDirectoryResult :=
  output ← exec_lines session (se_helper_path session :: list_args session request) MAX_EXEC_STDOUT cancellation;
  flift (parse_list_output output).

(** A stat message as an entry named by its token. *)
Definition stat_entry (message : HelperMessage) : option FilesystemEntry :=
  match message with
  | MsgStat path_token fields => from_protocol_entry (MsgEntry (encode_base64 path_token) path_token fields)
  | _ => None
  end.

Definition stat (session : FilesystemSession) (request : StatRequest) (cancellation : CancellationToken)
  : fprog W FilesystemEntry :=
  output ← exec_lines session (se_helper_path session :: target_args "stat" session (sq_path_token request))
             MAX_EXEC_STDOUT cancellation;
  flift (first_answer stat_entry (FE_HelperProtocolError (bytes "no stat message received")) output).

Definition preview_args (session : FilesystemSession) (request : PreviewRequest) : list text :=
  target_args "preview" session (pq_path_token request)
  ++ [bytes "--offset"; u64_to_string (pq_offset request);
      bytes "--limit-bytes"; u64_to_string (pq_limit request)].

Fixpoint preview_chunks (lines : list text) (acc : PreviewResult) : fres PreviewResult :=
  match lines with
  | [] => Ok acc
  | line :: lines =>
      match from_str line with
      | Ok (mkHelperLine (MsgPreviewChunk data_b64 offset eof t) _) =>
          if u64_max <? offset + len data_b64 then Panic "attempt to add with overflow"
          else
            preview_chunks lines
              (mkPreviewResult (pr_chunks acc ++ [mkPreviewChunk data_b64 offset eof t]) (offset + len data_b64) t)
      | Ok (mkHelperLine (MsgError code) message) => Err (map_helper_error code message)
      | _ => preview_chunks lines acc
      end
  end.

Definition preview (session : FilesystemSession) (request : PreviewRequest) (cancellation : CancellationToken)
  : fprog W PreviewResult :=
  output ← exec_lines session (se_helper_path session :: preview_args session request) MAX_EXEC_PREVIEW cancellation;
  flift (preview_chunks output (mkPreviewResult [] 0 false)).

Definition hash (session : FilesystemSession) (request : HashRequest) (cancellation : CancellationToken)
  : fprog W (text * text) :=
  output ← exec_lines session
             (se_helper_path session :: target_args "hash" session (hq_path_token request)
              ++ [bytes "--algorithm"; hq_algorithm request]) MAX_EXEC_STDOUT cancellation;
  flift (first_answer (fun m => match m with MsgHash algorithm value => Some (algorithm, value) | _ => None end)
           (FE_HelperProtocolError (bytes "no hash message received")) output).

Definition readlink (session : FilesystemSession) (request : StatRequest) (cancellation : CancellationToken)
  : fprog W FilesystemPathToken :=
  output ← exec_lines session (se_helper_path session :: target_args "readlink" session (sq_path_token request))
             MAX_EXEC_STDOUT cancellation;
  flift (first_answer (fun m => match m with MsgResolved t => Some (mkFilesystemPathToken t) | _ => None end)
           (FE_HelperProtocolError (bytes "no resolved message received")) output).

(** ** Removing helper containers *)
Definition force_remove_container (container_id : text) : fprog W () :=
  fun w =>
  let '(r, w) := remove_container container_id w in
  (match r with
   | Some (inl _) => Ok tt
   | Some (inr error) =>
       let text := to_ascii_lowercase (be_display error) in
       if has text "no such container" || has text "not found" then Ok tt
       else Err (FE_ExecFailed (be_display error))
   | None => Ok tt
   end, w).

(** [FilesystemService::stop_session] *)
Definition invalidate_session (session : FilesystemSession) : fprog W () :=
  force_remove_container (se_container_id session).

Fixpoint remove_all (containers : list ListedContainer) (removed : Z) : fprog W Z :=
  match containers with
  | [] => mret removed
  | container :: containers =>
      match lc_id container with
      | None => remove_all containers removed
      | Some id => fun w =>
          let '(r, w) := force_remove_container id w in
          remove_all containers (if is_ok r then removed + 1 else removed) w
      end
  end.

Definition cleanup_orphan_sessions (purpose_filter : text) : fprog W Z :=
  containers ← timed_call (fun error => FE_ExecFailed (be_display error))
                 (list_containers
                    [(bytes "label", [bytes "io.github.tuxstack.managed=true";
                                      bytes "io.github.tuxstack.purpose=" ++ purpose_filter])]);
  remove_all containers 0.
End client.

(** ** Arguments and lines survive the trip *)

(** Decimal digits read back. *)
Lemma decimal_digits fuel n acc :
  (1 ≤ fuel)%nat → 0 ≤ n < 10 ^ Z.of_nat fuel →
  ∃ ds, decimal fuel n acc = ds ++ acc ∧ ds ≠ [] ∧ forallb is_ascii_digit ds = true ∧ radix_value 10 ds = n.
Proof.
  revert n acc. induction fuel as [|fuel IH]; intros n acc Hf Hn; [lia |]. cbn [decimal].
  pose proof (Z.mod_pos_bound n 10 ltac:(lia)) as Hmod. pose proof (Z.div_mod n 10 ltac:(lia)) as Hdiv.
  assert (u8 (of_u8 (48 + n mod 10)) = 48 + n mod 10) as Hd by (apply of_u8_value; lia).
  assert (is_ascii_digit (of_u8 (48 + n mod 10)) = true) as Hdig by (unfold is_ascii_digit; rewrite Hd; lia).
  assert (digit (of_u8 (48 + n mod 10)) = n mod 10) as Hval by (unfold digit; rewrite Hd; lia).
  destruct (Z.eqb_spec (n / 10) 0) as [Hz|Hz].
  - exists [of_u8 (48 + n mod 10)]. split_and!; [done | done | cbn; by rewrite Hdig |].
    unfold radix_value. cbn. rewrite Hval. lia.
  - destruct (IH (n / 10) (of_u8 (48 + n mod 10) :: acc)) as (ds & -> & Hne & Hds & Hv).
    + destruct fuel; [change (10 ^ Z.of_nat 1) with 10 in Hn; lia | lia].
    + rewrite Nat2Z.inj_succ, Z.pow_succ_r in Hn by lia.
      split; [apply Z.div_pos; lia | apply Z.div_lt_upper_bound; lia].
    + exists (ds ++ [of_u8 (48 + n mod 10)]). split_and!.
      * by rewrite <- app_assoc.
      * by destruct ds.
      * rewrite forallb_app, Hds. cbn. by rewrite Hdig.
      * unfold radix_value in *. rewrite foldl_app, Hv. cbn. rewrite Hval. lia.
Qed.

Lemma parse_u64_to_string max n : 0 ≤ n ≤ max → max ≤ u64_max → parse_unsigned max (u64_to_string n) = Some n.
Proof.
  intros Hn Hmax. unfold u64_to_string. assert (u64_max < 10 ^ 20) as Hb by (vm_compute; reflexivity).
  destruct (decimal_digits 20 n []) as (ds & -> & Hne & Hds & Hv); [lia | lia |].
  clear Hb. rewrite app_nil_r. destruct ds as [|d ds]; [exfalso; exact (Hne eq_refl) |]. unfold parse_unsigned.
  cbn [forallb] in Hds. apply andb_true_iff in Hds as [Hd Hds].
  rewrite bool_decide_eq_false_2 by (intros ->; vm_compute in Hd; discriminate).
  cbn [is_empty forallb]. rewrite Hd, Hds. cbn [andb negb orb]. rewrite Hv. by rewrite (proj2 (Z.leb_le _ _)) by lia.
Qed.

(** What the helper reads from the command lines the client builds. *)
Definition list_flags (session : FilesystemSession) (request : ListDirectoryRequest) : Flags :=
  mkFlags (se_root session) (token_str (lq_path_token request)) (lq_show_hidden request) (lq_limit request)
    (lq_cursor request) 0 (64 * 1024) (bytes "sha256").
Definition stat_flags (session : FilesystemSession) (token : FilesystemPathToken) : Flags :=
  mkFlags (se_root session) (token_str token) false None None 0 (64 * 1024) (bytes "sha256").
Definition preview_flags (session : FilesystemSession) (request : PreviewRequest) : Flags :=
  mkFlags (se_root session) (token_str (pq_path_token request)) false None None (pq_offset request)
    (pq_limit request) (bytes "sha256").

Section flag_rules.
Implicit Types (flags : Flags) (iter : list (list byte)).

Lemma parse_flag_root r t h l c o n a v iter :
  parse_flag (mkFlags r t h l c o n a) (bytes "--root") (v :: iter) = Ok (mkFlags v t h l c o n a, false, iter).
Proof. reflexivity. Qed.
Lemma parse_flag_token r t h l c o n a v iter :
  parse_flag (mkFlags r t h l c o n a) (bytes "--path-token") (v :: iter) = Ok (mkFlags r v h l c o n a, true, iter).
Proof. reflexivity. Qed.
Lemma parse_flag_hidden r t h l c o n a iter :
  parse_flag (mkFlags r t h l c o n a) (bytes "--show-hidden") iter = Ok (mkFlags r t true l c o n a, false, iter).
Proof. reflexivity. Qed.
Lemma parse_flag_cursor r t h l c o n a v iter :
  parse_flag (mkFlags r t h l c o n a) (bytes "--cursor") (v :: iter) = Ok (mkFlags r t h l (Some v) o n a, false, iter).
Proof. reflexivity. Qed.
Lemma parse_flag_limit r t h l c o n a v iter :
  0 ≤ v ≤ usize_max →
  parse_flag (mkFlags r t h l c o n a) (bytes "--limit") (u64_to_string v :: iter)
  = Ok (mkFlags r t h (Some v) c o n a, false, iter).
Proof.
  intros Hv. transitivity (x ← ok_or InvalidArgs (parse_unsigned usize_max (u64_to_string v));
                           @Ok HelperErrorCode _ (mkFlags r t h (Some x) c o n a, false, iter)); [reflexivity |].
  by rewrite parse_u64_to_string by (done || reflexivity).
Qed.
Lemma parse_flag_offset r t h l c o n a v iter :
  0 ≤ v ≤ u64_max →
  parse_flag (mkFlags r t h l c o n a) (bytes "--offset") (u64_to_string v :: iter)
  = Ok (mkFlags r t h l c v n a, false, iter).
Proof.
  intros Hv. transitivity (x ← ok_or InvalidArgs (parse_unsigned u64_max (u64_to_string v));
                           @Ok HelperErrorCode _ (mkFlags r t h l c x n a, false, iter)); [reflexivity |].
  by rewrite parse_u64_to_string by (done || reflexivity).
Qed.
Lemma parse_flag_limit_bytes r t h l c o n a v iter :
  0 ≤ v ≤ u64_max →
  parse_flag (mkFlags r t h l c o n a) (bytes "--limit-bytes") (u64_to_string v :: iter)
  = Ok (mkFlags r t h l c o v a, false, iter).
Proof.
  intros Hv. transitivity (x ← ok_or InvalidArgs (parse_unsigned u64_max (u64_to_string v));
                           @Ok HelperErrorCode _ (mkFlags r t h l c o x a, false, iter)); [reflexivity |].
  by rewrite parse_u64_to_string by (done || reflexivity).
Qed.
End flag_rules.

Lemma parse_flags_step fuel flags seen arg iter flags' s iter' :
  parse_flag flags arg iter = Ok (flags', s, iter') →
  parse_flags_loop (S fuel) flags seen (arg :: iter) = parse_flags_loop fuel flags' (seen || s) iter'.
Proof. intros H. cbn [parse_flags_loop]. rewrite H. reflexivity. Qed.

Ltac step_flag lem := erewrite parse_flags_step; [| lem].

Lemma list_flags_parsed session request :
  from_option (fun limit => 0 ≤ limit ≤ usize_max) True (lq_limit request) →
  parse_flags (drop 1 (list_args session request)) = Ok (list_flags session request).
Proof.
  destruct request as [token hidden limit cursor]. unfold list_args, list_flags. intros Hl. cbn in Hl.
  cbn [lq_path_token lq_show_hidden lq_limit lq_cursor target_args app drop]. unfold parse_flags. cbn [length].
  step_flag ltac:(apply parse_flag_root). step_flag ltac:(apply parse_flag_token).
  destruct hidden; cbn [app length]; [step_flag ltac:(apply parse_flag_hidden) |];
    (destruct limit as [limit|]; cbn [from_option app length]; [step_flag ltac:(by apply parse_flag_limit) |]);
    (destruct cursor as [cursor|]; cbn [from_option app length]; [step_flag ltac:(apply parse_flag_cursor) |]);
    reflexivity.
Qed.

Lemma stat_flags_parsed command session token :
  parse_flags (drop 1 (target_args command session token)) = Ok (stat_flags session token).
Proof.
  unfold target_args, stat_flags, parse_flags. cbn [drop length].
  step_flag ltac:(apply parse_flag_root). step_flag ltac:(apply parse_flag_token). reflexivity.
Qed.

Lemma preview_flags_parsed session request :
  0 ≤ pq_offset request ≤ u64_max → 0 ≤ pq_limit request ≤ u64_max →
  parse_flags (drop 1 (preview_args session request)) = Ok (preview_flags session request).
Proof.
  destruct request as [token offset limit]. unfold preview_args, preview_flags, target_args, parse_flags.
  cbn [pq_path_token pq_offset pq_limit app drop length]. intros Ho Hl.
  step_flag ltac:(apply parse_flag_root). step_flag ltac:(apply parse_flag_token).
  step_flag ltac:(by apply parse_flag_offset). step_flag ltac:(by apply parse_flag_limit_bytes). reflexivity.
Qed.

(** A value of the Rust type: its strings are valid, its numbers in range. *)
Definition is_str (s : list byte) : Prop := is_ok (from_utf8 s) = true.
Definition fits (max : Z) (n : Z) : Prop := 0 ≤ n ≤ max.
Definition if_some {A} (P : A → Prop) (o : option A) : Prop := from_option P True o.
Definition fields_fit (f : MessageFields) : Prop :=
  if_some (fits u64_max) (mf_size f) ∧ if_some (fun t => - 2 ^ 63 ≤ t ≤ i64_max) (mf_mtime f) ∧
  if_some (fits u32_max) (mf_mode f) ∧ if_some (fits u32_max) (mf_uid f) ∧ if_some (fits u32_max) (mf_gid f) ∧
  if_some is_str (mf_symlink_target_b64 f).
Definition representable (l : HelperLine) : Prop :=
  match hl_message l with
  | MsgHello protocol helper_version => fits u32_max protocol ∧ is_str helper_version
  | MsgEntry name_b64 path_token f => is_str name_b64 ∧ is_str path_token ∧ fields_fit f
  | MsgStat path_token f => is_str path_token ∧ fields_fit f
  | MsgPreviewChunk data_b64 offset _ _ => is_str data_b64 ∧ fits u64_max offset
  | MsgHash algorithm value => is_str algorithm ∧ is_str value
  | MsgResolved path_token => is_str path_token
  | MsgEnd _ next_cursor => if_some is_str next_cursor
  | MsgError _ => True
  end ∧
  match hl_message l with MsgError _ => is_str (hl_text l) | _ => hl_text l = [] end.

(** What the code relies on of [serde_json]: a message is written as one JSON
    object on one line, and read back as itself. *)
Class HelperJsonLaws {HJ : HelperJson} : Prop := {
  json_roundtrip l : representable l → from_str (to_string l) = Ok l;
  json_object l : ∃ s, to_string l = "{"%byte :: s ++ ["}"%byte];
  json_one_line l : "010"%byte ∉ to_string l;
  json_utf8 l : representable l → is_str (to_string l);
}.

(** A brace is not trimmed. *)
Lemma strip_any_brace (ps : list text) b s :
  forallb (fun p => match p with [] => false | c :: _ => negb (bool_decide (c = b)) end) ps = true →
  strip_any ps (b :: s) = None.
Proof.
  induction ps as [|p ps IH]; cbn [forallb strip_any]; [done |]. intros [Hp Hps]%andb_true_iff.
  destruct p as [|c p]; [done |]. apply negb_true_iff, bool_decide_eq_false in Hp. cbn [Text.strip_prefix].
  rewrite decide_False by done. by apply IH.
Qed.

Lemma trim_braces s : trim ("{"%byte :: s ++ ["}"%byte]) = "{"%byte :: s ++ ["}"%byte].
Proof.
  unfold trim, trim_start. cbn [length strip_all]. rewrite strip_any_brace by (vm_compute; reflexivity).
  unfold trim_end. replace (reverse ("{"%byte :: s ++ ["}"%byte])) with ("}"%byte :: reverse s ++ ["{"%byte])
    by (rewrite reverse_cons, reverse_app; reflexivity).
  cbn [length strip_all]. rewrite strip_any_brace by (vm_compute; reflexivity).
  by rewrite reverse_cons, reverse_app, reverse_involutive.
Qed.

Lemma str_lines_emitted (lines : list text) :
  Forall (fun l => "010"%byte ∉ l ∧ list.last l ≠ Some "013"%byte) lines →
  str_lines (concat (map (fun l => l ++ ["010"%byte]) lines)) = lines.
Proof.
  intros Hl. unfold str_lines.
  assert (split_on "010"%byte (concat (map (fun l => l ++ ["010"%byte]) lines)) = lines ++ [[]]) as ->.
  { induction Hl as [|l lines [Hn _] Hl IH]; [done |]. cbn [map concat]. rewrite <- app_assoc. cbn [app].
    by rewrite split_on_app, IH. }
  rewrite length_app, Nat.add_sub, take_app_length, last_snoc, app_nil_r.
  rewrite <- (list_fmap_id lines) at 2. apply list_fmap_ext. intros i l Hi.
  apply list_elem_of_lookup_2 in Hi. unfold strip_cr.
  rewrite bool_decide_eq_false_2; [done |]. by apply (proj1 (list.Forall_forall _ _) Hl).
Qed.

(** What an attached stream carried on standard output and error. *)
Definition stdout_of (output : list (LogOutput + BollardError)) : list byte :=
  output ≫= fun item => match item with inl (LO_StdOut m) | inl (LO_Console m) => m | _ => [] end.
Definition stderr_of (output : list (LogOutput + BollardError)) : list byte :=
  output ≫= fun item => match item with inl (LO_StdErr m) => m | _ => [] end.
Definition delivered (output : list (LogOutput + BollardError)) : Prop :=
  Forall (fun item => match item with inl _ => True | inr _ => False end) output.

Lemma collect_output_ok output stdout stderr :
  delivered output →
  collect_output CancellationToken_new output stdout stderr = Ok (stdout ++ stdout_of output, stderr ++ stderr_of output).
Proof.
  intros H. revert stdout stderr.
  induction H as [|[[m|m|m|m]|e] output Hi Hd IH]; intros stdout stderr; cbn [collect_output poll_cancel CancellationToken_new].
  - by rewrite !app_nil_r.
  - rewrite IH. unfold stdout_of, stderr_of. cbn. by rewrite <- app_assoc.
  - rewrite IH. unfold stdout_of, stderr_of. cbn. by rewrite <- app_assoc.
  - rewrite IH. unfold stdout_of, stderr_of. cbn. by rewrite <- app_assoc.
  - rewrite IH. reflexivity.
  - done.
Qed.

Section served.
Context {W : Type} {DX : DockerExec W} {HJ : HelperJson} {CH : Chrono} {JL : HelperJsonLaws}.

(** The engine runs a helper command in the container of the session: its exec
    writes the messages, cut into chunks as it likes and with diagnostics in
    between, and [w] becomes [w']. *)
Definition executes (session : FilesystemSession) (args : list text) (max_output : Z) (lines : list HelperLine)
  (w w' : W) : Prop :=
  ∃ id w1 output,
    create_exec (se_container_id session) (se_helper_path session :: args) true w = (inl id, w1) ∧
    start_exec id max_output w1 = (Some (inl (Attached output)), w') ∧
    delivered output ∧ stdout_of output = concat (map emit lines) ∧
    (lines ≠ [] ∨ stderr_of output = []) ∧ Forall representable lines.

(** … the command being [helper_main] on a file system. *)
Definition serves {FS : HelperFs} (session : FilesystemSession) (args : list text) (max_output : Z)
  (lines : list HelperLine) (w w' : W) : Prop :=
  executes session args max_output lines w w' ∧
  ∃ version code, helper_main version args = Some (Ok (hl_message <$> lines, code)).

Lemma to_string_line l : "010"%byte ∉ to_string l ∧ list.last (to_string l) ≠ Some "013"%byte.
Proof.
  split; [apply json_one_line |]. destruct (json_object l) as [s ->].
  change ("{"%byte :: s ++ ["}"%byte]) with (("{"%byte :: s) ++ ["}"%byte]). by rewrite last_snoc.
Qed.

Lemma emitted_str lines : Forall representable lines → is_str (concat (map emit lines)).
Proof.
  induction 1 as [|l lines Hl Hls IH]; [done |]. cbn [map concat]. apply from_utf8_app; [| exact IH].
  apply from_utf8_app; [by apply json_utf8 | done].
Qed.

Lemma kept_lines lines :
  List.filter (fun l => negb (is_empty (trim l))) (to_string <$> lines) = to_string <$> lines.
Proof.
  apply filter_all, Forall_fmap, list.Forall_forall. intros l _. cbn.
  destruct (json_object l) as [s ->]. by rewrite trim_braces.
Qed.

(** [exec_lines] returns the lines of an undisturbed run. *)
Lemma exec_lines_ok session args max_output lines w w' :
  executes session args max_output lines w w' →
  exec_lines session (se_helper_path session :: args) max_output CancellationToken_new w = (Ok (to_string <$> lines), w').
Proof.
  intros (id & w1 & output & Hc & Hs & Hd & Hout & Herr & Hrep).
  unfold exec_lines, attach, mbind, fprog_bind, flift, api_call, timed_call.
  cbn [check_cancel poll_cancel CancellationToken_new]. rewrite Hc, Hs. cbn [mret fprog_ret].
  change None with CancellationToken_new. rewrite collect_output_ok by done. cbn [app]. rewrite Hout. f_equal.
  unfold output_lines.
  assert (is_empty (concat (map emit lines)) && negb (is_empty (stderr_of output)) = false) as ->.
  { destruct Herr as [Hl | ->]; [| by rewrite andb_false_r]. destruct lines as [|l lines]; [done |].
    cbn [map concat]. unfold emit at 1. destruct (json_object l) as [s ->]. done. }
  rewrite from_utf8_lossy_valid by (by apply emitted_str). f_equal.
  transitivity (List.filter (fun l => negb (is_empty (trim l))) (to_string <$> lines)); [| apply kept_lines].
  f_equal. rewrite <- (str_lines_emitted (to_string <$> lines)).
  - f_equal. f_equal. change (to_string <$> lines) with (map to_string lines). by rewrite map_map.
  - apply Forall_fmap, list.Forall_forall. intros l _. apply to_string_line.
Qed.

Lemma from_str_line l : representable l → from_str (to_string l) = Ok l.
Proof. apply json_roundtrip. Qed.

(** *** Listings *)
Definition is_entry (m : HelperMessage) : Prop := match m with MsgEntry _ _ _ => True | _ => False end.

Lemma parse_list_entries lines rest acc :
  Forall representable lines → Forall (fun l => is_entry (hl_message l)) lines →
  parse_list_loop ((to_string <$> lines) ++ rest) acc
  = parse_list_loop rest
      (mkListDirectoryResult (lres_entries acc ++ omap from_protocol_entry (hl_message <$> lines))
         (lres_truncated acc) (lres_next_cursor acc)).
Proof.
  intros Hr. revert acc. induction Hr as [|[m t] lines Hl Hr IH]; intros acc He.
  - cbn. rewrite app_nil_r. by destruct acc.
  - apply Forall_cons_iff in He as [He Hes]. cbn [fmap list_fmap app parse_list_loop].
    rewrite from_str_line by done. cbn [hl_message] in He. destruct m as [|n p f| | | | | |]; try done.
    rewrite IH by done. cbn [lres_entries lres_truncated lres_next_cursor hl_message omap list_omap].
    rewrite <- app_assoc. f_equal. f_equal. by destruct (from_protocol_entry (MsgEntry n p f)).
Qed.

Lemma parse_list_ok lines ms truncated cursor :
  Forall representable lines → hl_message <$> lines = ms ++ [MsgEnd truncated cursor] → Forall is_entry ms →
  parse_list_output (to_string <$> lines)
  = Ok (mkListDirectoryResult (omap from_protocol_entry ms) truncated cursor).
Proof.
  intros Hr Hm He. apply fmap_app_inv in Hm as (l1 & l2 & Hms & Hend & ->).
  destruct l2 as [|[m t] [|]]; try discriminate Hend. injection Hend as <-.
  apply Forall_app in Hr as [Hr1 Hr2]. apply Forall_cons_iff in Hr2 as [Hl _].
  unfold parse_list_output. rewrite fmap_app, parse_list_entries.
  - cbn [fmap list_fmap parse_list_loop]. rewrite from_str_line by done.
    cbn [lres_entries app]. by rewrite Hms.
  - done.
  - rewrite Hms, list.Forall_fmap in He. exact He.
Qed.

(** *** Previews *)
Fixpoint wire_chunks (position remaining : Z) (truncated : bool) (ds : list (list byte)) : list PreviewChunk :=
  match ds with
  | [] => []
  | d :: ds =>
      mkPreviewChunk (encode_base64 d) position (remaining - len d =? 0) truncated
        :: wire_chunks (position + len d) (remaining - len d) truncated ds
  end.

Lemma preview_chunks_ok bound ds position remaining truncated lines acc :
  Forall representable lines → hl_message <$> lines = preview_messages position remaining truncated ds →
  0 ≤ position → Forall (fun d => len (encode_base64 d) ≤ bound) ds → position + len (concat ds) + bound ≤ u64_max →
  ∃ r, preview_chunks (to_string <$> lines) acc = Ok r ∧
       pr_chunks r = pr_chunks acc ++ wire_chunks position remaining truncated ds.
Proof.
  intros Hr. revert ds position remaining acc.
  induction Hr as [|[m t] lines Hl Hr IH]; intros ds position remaining acc Hm Hp Hd Hs.
  { destruct ds; [| discriminate Hm]. exists acc. cbn. by rewrite app_nil_r. }
  destruct ds as [|d ds]; [discriminate Hm |]. cbn in Hm. injection Hm as -> Hm.
  apply Forall_cons_iff in Hd as [Hd Hds]. cbn [concat] in Hs. rewrite len_app in Hs.
  assert (0 ≤ len (concat ds)) by apply len_nonneg. assert (0 ≤ len d) by apply len_nonneg.
  cbn [fmap list_fmap preview_chunks]. rewrite from_str_line by done.
  rewrite (proj2 (Z.ltb_ge _ _)) by lia.
  destruct (IH ds (position + len d) (remaining - len d)
              (mkPreviewResult (pr_chunks acc ++ [mkPreviewChunk (encode_base64 d) position (remaining - len d =? 0) truncated])
                 (position + len (encode_base64 d)) truncated)) as (r & -> & Hc); [done | lia | done | lia |].
  exists r. split; [done |]. rewrite Hc. cbn [pr_chunks wire_chunks]. by rewrite <- app_assoc.
Qed.

(** *** The messages of a helper run *)
Definition finished (r : list HelperMessage * hres ()) : list HelperMessage :=
  r.1 ++ match r.2 with Err code => [MsgError code] | _ => [] end.

Section runs.
Context {FS : HelperFs}.

Definition ended (r : list HelperMessage * hres ()) : option (hres (list HelperMessage * Z)) :=
  Some (match r.2 with Ok _ => Ok (r.1, 0) | Err code => Ok (r.1 ++ [MsgError code], 1) | Panic s => Panic s end).

Lemma main_list version rest : helper_main version (bytes "list" :: rest) = ended (with_flags list_run rest).
Proof. transitivity (let '(out, r) := with_flags list_run rest in ended (out, r)); [reflexivity | by destruct (with_flags _ _)]. Qed.
Lemma main_stat version rest : helper_main version (bytes "stat" :: rest) = ended (with_flags stat_run rest).
Proof. transitivity (let '(out, r) := with_flags stat_run rest in ended (out, r)); [reflexivity | by destruct (with_flags _ _)]. Qed.
Lemma main_preview version rest : helper_main version (bytes "preview" :: rest) = ended (with_flags preview_run rest).
Proof. transitivity (let '(out, r) := with_flags preview_run rest in ended (out, r)); [reflexivity | by destruct (with_flags _ _)]. Qed.

Lemma ended_messages run rest flags messages code :
  parse_flags rest = Ok flags → ended (with_flags run rest) = Some (Ok (messages, code)) →
  messages = finished (run flags).
Proof.
  intros Hf. unfold with_flags. rewrite Hf. unfold ended, finished.
  destruct (run flags) as [out [[]|e|s]]; cbn; intros H; [injection H as <- _; by rewrite app_nil_r | by injection H as <- _ | discriminate H].
Qed.

Lemma serves_list session request max_output lines w w' :
  from_option (fun limit => 0 ≤ limit ≤ usize_max) True (lq_limit request) →
  serves session (list_args session request) max_output lines w w' →
  hl_message <$> lines = finished (list_run (list_flags session request)).
Proof.
  intros Hl (_ & version & code & Hm). eapply ended_messages; [by apply list_flags_parsed |].
  rewrite <- main_list with (version := version). exact Hm.
Qed.

Lemma serves_stat session token max_output lines w w' :
  serves session (target_args "stat" session token) max_output lines w w' →
  hl_message <$> lines = finished (stat_run (stat_flags session token)).
Proof.
  intros (_ & version & code & Hm). eapply ended_messages; [by apply (stat_flags_parsed "stat") |].
  rewrite <- main_stat with (version := version). exact Hm.
Qed.

Lemma serves_preview session request max_output lines w w' :
  0 ≤ pq_offset request ≤ u64_max → 0 ≤ pq_limit request ≤ u64_max →
  serves session (preview_args session request) max_output lines w w' →
  hl_message <$> lines = finished (preview_run (preview_flags session request)).
Proof.
  intros Ho Hl (_ & version & code & Hm). eapply ended_messages; [by apply preview_flags_parsed |].
  rewrite <- main_preview with (version := version). exact Hm.
Qed.
End runs.

(** ** What the client returns for a file system *)
Section views.
Context {FS : HelperFs}.

(** The entry the client makes of a file: its name, its metadata, and for a link
    its target. *)
Definition entry_view (name : list byte) (token : FilesystemPathToken) (meta : Metadata) (target : list byte)
  : FilesystemEntry :=
  let link := if bool_decide (md_type meta = FtSymlink) then Some target else None in
  {| fe_name_raw := name;
     fe_display_name := from_utf8_lossy name;
     fe_path_token := token;
     fe_entry_type := from_protocol (md_type meta);
     fe_size_bytes := if bool_decide (md_type meta = FtDirectory) then None else Some (md_len meta);
     fe_modified_at := timestamp_opt (md_mtime meta);
     fe_mode := Some (Z.land (md_mode meta) 4095);
     fe_uid := Some (md_uid meta);
     fe_gid := Some (md_gid meta);
     fe_symlink_target_raw := link;
     fe_symlink_target_display := from_utf8_lossy <$> link;
     fe_readable := is_readable meta;
     fe_hidden := bool_decide (head name = Some "."%byte) |}.

Lemma Forall_subset' {A} (P : A → Prop) (l k : list A) : k ⊆ l → Forall P l → Forall P k.
Proof. rewrite !list.Forall_forall. intros Hs H x Hx. apply H, Hs, Hx. Qed.

(** What the calls of the helper report of a path. *)
Definition reports (path : list byte) (meta : Metadata) (target : list byte) : Prop :=
  fs_symlink_metadata path = Ok meta ∧ (md_type meta = FtSymlink → fs_read_link path = Ok target).

Lemma message_fields_ok path meta target :
  reports path meta target →
  message_fields path meta
  = Ok (mkMessageFields (md_type meta) (if bool_decide (md_type meta = FtDirectory) then None else Some (md_len meta))
          (Some (md_mtime meta)) (Some (Z.land (md_mode meta) 4095)) (Some (md_uid meta)) (Some (md_gid meta))
          (if bool_decide (md_type meta = FtSymlink) then Some (encode_base64 target) else None) (is_readable meta)).
Proof.
  intros [_ Ht]. unfold message_fields. destruct (bool_decide_reflect (md_type meta = FtSymlink)) as [Hl|Hl]; [| reflexivity].
  rewrite Ht by done. reflexivity.
Qed.

Lemma entry_view_of_message name token meta target :
  from_protocol_entry
    (MsgEntry (encode_base64 name) (token_str token)
       (mkMessageFields (md_type meta) (if bool_decide (md_type meta = FtDirectory) then None else Some (md_len meta))
          (Some (md_mtime meta)) (Some (Z.land (md_mode meta) 4095)) (Some (md_uid meta)) (Some (md_gid meta))
          (if bool_decide (md_type meta = FtSymlink) then Some (encode_base64 target) else None) (is_readable meta)))
  = Some (entry_view name token meta target).
Proof.
  unfold from_protocol_entry, encode_base64_to_raw. rewrite decode_encode_base64. cbn [ok mbind option_bind].
  unfold entry_view. cbn [mf_symlink_target_b64 mf_file_type mf_size mf_mtime mf_mode mf_uid mf_gid mf_readable].
  destruct token. cbn [mbind option_bind]. destruct (bool_decide (md_type meta = FtSymlink)); cbn [mbind option_bind];
    rewrite ?decode_encode_base64; reflexivity.
Qed.

Lemma stat_message_view path token meta target :
  reports path meta target →
  ∃ m, stat_message path (token_str token) meta = Ok m ∧ stat_entry m = Some (entry_view (token_str token) token meta target).
Proof.
  intros Hr. unfold stat_message. rewrite (message_fields_ok _ _ _ Hr). cbn [mbind result_bind].
  eexists. split; [done |]. apply entry_view_of_message.
Qed.

(** [stat] of a path below the root is its metadata. *)
Lemma stat_served session token lines w w' path meta target :
  serves session (target_args "stat" session token) MAX_EXEC_STDOUT lines w w' →
  resolve_token (se_root session) (token_str token) = Ok path → reports path meta target →
  stat session (mkStatRequest token) CancellationToken_new w = (Ok (entry_view (token_str token) token meta target), w').
Proof.
  intros Hs Hp Hr. pose proof Hs as [Hx _]. pose proof (serves_stat _ _ _ _ _ _ Hs) as Hm.
  destruct (stat_message_view path token meta target Hr) as (m & Hmsg & He).
  assert (hl_message <$> lines = [m]) as Hl.
  { rewrite Hm. unfold stat_run, stat_flags, finished. cbn [fl_root fl_token]. rewrite Hp. cbn [mbind result_bind].
    rewrite (proj1 Hr). cbn [map_err mbind result_bind]. by rewrite Hmsg. }
  destruct lines as [|[m' t] [|]]; try discriminate Hl. injection Hl as ->.
  unfold stat, mbind, fprog_bind. change (sq_path_token (mkStatRequest token)) with token. rewrite (exec_lines_ok _ _ _ _ _ _ Hx). unfold flift. f_equal.
  destruct Hx as (_ & _ & _ & _ & _ & _ & _ & _ & Hrep). apply Forall_cons_iff in Hrep as [Hrep _].
  cbn [fmap list_fmap first_answer]. rewrite from_str_line by done.
  destruct m; try discriminate He. by rewrite He.
Qed.

(** … and the error of the helper when the path is not there. *)
Lemma stat_refused session token lines w w' path e :
  serves session (target_args "stat" session token) MAX_EXEC_STDOUT lines w w' →
  resolve_token (se_root session) (token_str token) = Ok path → fs_symlink_metadata path = Err e →
  ∃ message, stat session (mkStatRequest token) CancellationToken_new w = (Err (map_helper_error (from_io e) message), w').
Proof.
  intros Hs Hp He. pose proof Hs as [Hx _]. pose proof (serves_stat _ _ _ _ _ _ Hs) as Hm.
  assert (hl_message <$> lines = [MsgError (from_io e)]) as Hl.
  { rewrite Hm. unfold stat_run, stat_flags, finished. cbn [fl_root fl_token]. rewrite Hp. cbn [mbind result_bind].
    by rewrite He. }
  destruct lines as [|[m' t] [|]]; try discriminate Hl. injection Hl as ->. exists t.
  unfold stat, mbind, fprog_bind. change (sq_path_token (mkStatRequest token)) with token. rewrite (exec_lines_ok _ _ _ _ _ _ Hx). unfold flift. f_equal.
  destruct Hx as (_ & _ & _ & _ & _ & _ & _ & _ & Hrep). apply Forall_cons_iff in Hrep as [Hrep _].
  cbn [fmap list_fmap first_answer]. by rewrite from_str_line.
Qed.

Definition entry_for (dir relative name : list byte) : hres HelperMessage :=
  meta ← map_err from_io (fs_symlink_metadata (path_join dir name));
  entry_message (path_join dir name) name relative meta.

Lemma emit_entries_ok dir relative page ms out :
  Forall2 (fun name m => entry_for dir relative name = Ok m) page ms →
  emit_entries dir relative page out = (out ++ ms, Ok tt).
Proof.
  intros H. revert out. induction H as [|name m page ms Hm Hms IH]; intros out; cbn [emit_entries].
  - by rewrite app_nil_r.
  - unfold entry_for in Hm. rewrite Hm, IH. by rewrite <- app_assoc.
Qed.

(** A directory the helper can list: its names and what is known of each. *)
Record directory (dir : list byte) (items : list (list byte)) (meta : list byte → Metadata)
  (target : list byte → list byte) : Prop := {
  dir_meta : ∃ m, fs_metadata dir = Ok m ∧ md_type m = FtDirectory;
  dir_items : fs_read_dir dir = Ok (Ok <$> items);
  dir_nodup : NoDup items;
  dir_names : Forall entry_name_ok items;
  dir_reports : Forall (fun name => reports (path_join dir name) (meta name) (target name)) items;
}.

(** The token of a child of the directory with a given relative path. *)
Definition child_of (relative name : list byte) : FilesystemPathToken :=
  mkFilesystemPathToken (PATH_TOKEN_VERSION ++ ":"%byte ::
    encode_base64 (relative ++ (if is_empty relative then [] else ["/"%byte]) ++ name)).

Lemma entry_for_ok dir relative name meta target :
  relative_ok relative → entry_name_ok name → reports (path_join dir name) meta target →
  ∃ m, entry_for dir relative name = Ok m ∧ is_entry m ∧
       from_protocol_entry m = Some (entry_view name (child_of relative name) meta target).
Proof.
  intros Hrel Hn Hr. unfold entry_for. rewrite (proj1 Hr). cbn [map_err mbind result_bind]. unfold entry_message.
  rewrite (message_fields_ok _ _ _ Hr). cbn [mbind result_bind]. unfold child_token, encode_relative.
  rewrite (proj2 (validate_relative_ok _) (child_relative_ok _ _ Hrel Hn)). cbn [mbind result_bind map_err].
  eexists. split; [done |]. split; [done |]. apply (entry_view_of_message name (child_of relative name)).
Qed.

Lemma entries_for_ok dir relative names meta target :
  relative_ok relative → Forall entry_name_ok names →
  Forall (fun name => reports (path_join dir name) (meta name) (target name)) names →
  ∃ ms, Forall2 (fun name m => entry_for dir relative name = Ok m) names ms ∧ Forall is_entry ms ∧
        omap from_protocol_entry ms
        = (fun name => entry_view name (child_of relative name) (meta name) (target name)) <$> names.
Proof.
  intros Hrel Hn. induction Hn as [|name names Hname Hn IH]; intros Hr; [by exists [] |].
  apply Forall_cons_iff in Hr as [Hr Hrs]. destruct (IH Hrs) as (ms & H1 & H2 & H3).
  destruct (entry_for_ok dir relative name _ _ Hrel Hname Hr) as (m & E1 & E2 & E3).
  exists (m :: ms). split_and!; [by constructor | by constructor |]. cbn. by rewrite E3, H3.
Qed.

(** Every visible name of a directory, in byte order, with its metadata. *)
Lemma list_directory_served session token limit lines w w' dir relative items meta target :
  serves session (list_args session (mkListDirectoryRequest token true (Some limit) None)) MAX_EXEC_STDOUT lines w w' →
  resolve_token (se_root session) (token_str token) = Ok dir → decode_token (token_str token) = Ok relative →
  directory dir items meta target → 1 ≤ limit ≤ usize_max →
  len (visible (is_empty relative) true None items) ≤ limit →
  list_directory session (mkListDirectoryRequest token true (Some limit) None) CancellationToken_new w
  = (Ok (mkListDirectoryResult
           ((fun name => entry_view name (child_of relative name) (meta name) (target name))
              <$> visible (is_empty relative) true None items) false None), w').
Proof.
  intros Hs Hp Hd [(m & Hmeta & Htype) Hitems Hnd Hnames Hrep] Hl Hlen.
  pose proof Hs as [Hx _]. apply serves_list in Hs as Hm; [| cbn; lia].
  assert (list_names (list_flags session (mkListDirectoryRequest token true (Some limit) None))
          = Ok (dir, relative, visible (is_empty relative) true None items)) as Hn.
  { exact (list_names_ok dir relative m items Hmeta Htype Hitems
             (list_flags session (mkListDirectoryRequest token true (Some limit) None)) None Hp Hd eq_refl). }
  assert (visible (is_empty relative) true None items ⊆ items) as Hsub.
  { intros x. unfold visible. rewrite (sort_by_perm bytes_cmp). intros [H _]%list_elem_of_In%List.filter_In.
    by apply list_elem_of_In. }
  assert (relative_ok relative) as Hrel by (eapply decode_relative_ok, decode_token_relative, Hd).
  destruct (entries_for_ok dir relative (visible (is_empty relative) true None items) meta target Hrel)
    as (ms & H1 & H2 & H3); [by eapply Forall_subset' | by eapply Forall_subset' |].
  rewrite <- H3. unfold list_directory, mbind, fprog_bind. rewrite (exec_lines_ok _ _ _ _ _ _ Hx). unfold flift. f_equal.
  destruct Hx as (_ & _ & _ & _ & _ & _ & _ & _ & Hr). apply parse_list_ok; [done | | done].
  rewrite Hm. unfold finished, list_run. rewrite Hn. cbn [mbind result_bind].
  change (fl_limit (list_flags _ _)) with (Some limit). rewrite list_page_ok by lia.
  rewrite decide_True by (unfold len in Hlen; lia). cbn [mbind result_bind].
  rewrite (emit_entries_ok _ _ _ _ [] H1). cbn. by rewrite app_nil_r.
Qed.

(** A regular file below the root, that the system reads to its end. *)
Definition file_content (session : FilesystemSession) (token : FilesystemPathToken) (content : list byte) : Prop :=
  ∃ path safe meta sizes,
    resolve_token (se_root session) (token_str token) = Ok path ∧ confine_to_root (se_root session) path = Ok safe ∧
    fs_metadata (path_render safe) = Ok meta ∧ md_type meta = FtFile ∧ md_len meta = len content ∧
    fs_open (path_render safe) = Ok (content, Ok <$> sizes) ∧ Forall (fun n => 1 ≤ n)%nat sizes ∧
    len content ≤ len sizes ∧ len content ≤ i64_max.

Lemma encode_base64_len d : len (encode_base64 d) ≤ 2 * len d + 4.
Proof.
  remember (length d) as n eqn:Hn. revert d Hn. induction n as [n IH] using (well_founded_induction lt_wf).
  intros d ->. destruct d as [|a [|b [|c d]]]; [vm_compute; discriminate | cbn; unfold len; cbn; lia | cbn; unfold len; cbn; lia |].
  change (encode_base64 (a :: b :: c :: d)) with (encode_chunk [a; b; c] ++ encode_base64 d).
  specialize (IH (length d) ltac:(cbn; lia) d eq_refl). rewrite len_app. unfold len in *. cbn [length encode_chunk]. cbn. lia.
Qed.

(** The messages of a preview of a file, whatever the range. *)
Lemma preview_run_ok session token content offset limit :
  file_content session token content → 0 ≤ offset ≤ u64_max → 0 ≤ limit ≤ u64_max →
  ∃ ds remaining truncated,
    finished (preview_run (preview_flags session (mkPreviewRequest token offset limit)))
    = preview_messages offset remaining truncated ds ∧
    concat ds = take (Z.to_nat limit) (drop (Z.to_nat offset) content) ∧
    (offset < len content ∧ Forall (fun d => len d ≤ CHUNK_SIZE) ds ∨ ds = [[]]).
Proof.
  intros (path & safe & meta & sizes & Hr & Hc & Hm & Ht & Hlen & Ho & Hsz & Hn & Hmax) Hoff Hlim.
  set (flags := preview_flags session (mkPreviewRequest token offset limit)).
  destruct (decide (limit = 0 ∨ len content ≤ offset)) as [Hz|Hz].
  - exists [[]], 0. eexists. split_and!; [| | by right].
    + unfold finished, preview_run. change (fl_root flags) with (se_root session).
      change (fl_token flags) with (token_str token). rewrite Hr. cbn [mbind result_bind]. rewrite Hc.
      cbn [mbind result_bind]. rewrite Hm. cbn [map_err mbind result_bind]. rewrite Ht, Hlen.
      rewrite bool_decide_eq_false_2, bool_decide_eq_true_2 by done. cbn [negb andb].
      change (fl_offset flags) with offset. change (fl_read_limit flags) with limit.
      assert ((limit =? 0) || (len content <=? offset) = true) as -> by lia. reflexivity.
    + cbn. destruct Hz as [-> | Hz]; [done |]. rewrite drop_ge by (unfold len in Hz; lia). by rewrite take_nil.
  - assert (i64_max ≤ u64_max) by (vm_compute; discriminate).
    destruct (preview_exact flags path safe meta content sizes) as (ds & H1 & H2 & H3); try done;
      [change (fl_offset flags) with offset; lia | change (fl_read_limit flags) with limit; lia | lia |].
    exists ds. do 2 eexists. rewrite H1. split_and!; [unfold finished; cbn [fst snd]; by rewrite app_nil_r | |].
    + rewrite H2. change (fl_offset flags) with offset. change (fl_read_limit flags) with limit.
      destruct (decide (offset + limit ≤ len content)) as [Hle|Hle].
      * rewrite Z.min_l by lia. f_equal. lia.
      * rewrite Z.min_r by lia. rewrite !take_ge; [done | |]; rewrite length_drop; unfold len in *; lia.
    + left. split; [lia |]. eapply list.Forall_impl; [exact H3 |]. by intros d [_ Hd].
Qed.

Lemma preview_served session token content offset limit lines w w' :
  serves session (preview_args session (mkPreviewRequest token offset limit)) MAX_EXEC_PREVIEW lines w w' →
  file_content session token content → 0 ≤ offset ≤ u64_max → 0 ≤ limit ≤ u64_max →
  ∃ r ds remaining truncated,
    preview session (mkPreviewRequest token offset limit) CancellationToken_new w = (Ok r, w') ∧
    pr_chunks r = wire_chunks offset remaining truncated ds ∧
    concat ds = take (Z.to_nat limit) (drop (Z.to_nat offset) content).
Proof.
  intros Hs Hf Hoff Hlim. pose proof Hs as [Hx _]. apply serves_preview in Hs as Hm; [| done | done].
  destruct (preview_run_ok _ _ _ _ _ Hf Hoff Hlim) as (ds & remaining & truncated & Hd & Hc & Hb).
  rewrite Hd in Hm. pose proof Hx as (_ & _ & _ & _ & _ & _ & _ & _ & Hr).
  assert (∃ bound, Forall (fun d => len (encode_base64 d) ≤ bound) ds ∧ offset + len (concat ds) + bound ≤ u64_max)
    as (bound & Hb1 & Hb2).
  { destruct Hb as [[Hlt Hb]| ->].
    - exists (2 * CHUNK_SIZE + 4). split.
      + eapply list.Forall_impl; [exact Hb |]. intros d Hdl. pose proof (encode_base64_len d). cbn in Hdl. lia.
      + assert (i64_max + (2 * CHUNK_SIZE + 4) ≤ u64_max) by (vm_compute; discriminate).
        destruct Hf as (_ & _ & _ & _ & _ & _ & _ & _ & _ & _ & _ & _ & Hmax).
        rewrite Hc. unfold len in *. rewrite length_take, length_drop. lia.
    - exists 0. split; [repeat constructor; vm_compute; discriminate |]. change (len (concat [[]])) with 0. lia. }
  destruct (preview_chunks_ok bound ds offset remaining truncated lines (mkPreviewResult [] 0 false) Hr Hm)
    as (r & Hr1 & Hr2); [lia | done | done |].
  exists r, ds, remaining, truncated. split_and!; [| exact Hr2 | exact Hc].
  unfold preview, mbind, fprog_bind. change (pq_path_token _) with token.
  rewrite (exec_lines_ok _ _ _ _ _ _ Hx). unfold flift. by rewrite Hr1.
Qed.
End views.
End served.

(** ** An engine that runs the helper

    The parameters instantiated: a serialisation of messages by their binary
    code, and an engine whose execs run [helper_main]. *)
Definition error_codes : list HelperErrorCode :=
  [InvalidArgs; InvalidToken; PathEscapeRejected; HelperNotFound; HelperNotDirectory; HelperIsDirectory;
   HelperPermissionDenied; HelperSymlinkLoop; UnsupportedFileType; HelperIo].
Definition file_types : list HelperFileType :=
  [FtDirectory; FtFile; FtSymlink; FtSocket; FtFifo; FtBlockDevice; FtCharacterDevice; FtUnknown].

#[export] Instance HelperErrorCode_eq_dec : EqDecision HelperErrorCode.
Proof. solve_decision. Defined.
#[export] Instance MessageFields_eq_dec : EqDecision MessageFields.
Proof. solve_decision. Defined.
#[export] Instance HelperMessage_eq_dec : EqDecision HelperMessage.
Proof. solve_decision. Defined.
#[export] Instance HelperLine_eq_dec : EqDecision HelperLine.
Proof. solve_decision. Defined.

Definition position {A} `{EqDecision A} (a : A) (l : list A) : nat := from_option fst O (list_find (a =.) l).

#[export] Instance HelperErrorCode_countable : Countable HelperErrorCode.
Proof.
  refine (inj_countable (fun c => position c error_codes) (fun n => error_codes !! n) _). by intros [].
Defined.
#[export] Instance HelperFileType_countable : Countable HelperFileType.
Proof.
  refine (inj_countable (fun t => position t file_types) (fun n => file_types !! n) _). by intros [].
Defined.
#[export] Instance MessageFields_countable : Countable MessageFields.
Proof.
  refine (inj_countable'
    (fun f => (mf_file_type f, mf_size f, mf_mtime f, mf_mode f, mf_uid f, mf_gid f, mf_symlink_target_b64 f, mf_readable f))
    (fun '(a, b, c, d, e, f, g, h) => mkMessageFields a b c d e f g h) _). by intros [].
Defined.

Definition message_code (m : HelperMessage)
  : (Z * text) + (text * text * MessageFields) + (text * MessageFields) + (text * Z * bool * bool)
    + (text * text) + text + (bool * option text) + HelperErrorCode :=
  match m with
  | MsgHello a b => inl (inl (inl (inl (inl (inl (inl (a, b)))))))
  | MsgEntry a b c => inl (inl (inl (inl (inl (inl (inr (a, b, c)))))))
  | MsgStat a b => inl (inl (inl (inl (inl (inr (a, b))))))
  | MsgPreviewChunk a b c d => inl (inl (inl (inl (inr (a, b, c, d)))))
  | MsgHash a b => inl (inl (inl (inr (a, b))))
  | MsgResolved a => inl (inl (inr a))
  | MsgEnd a b => inl (inr (a, b))
  | MsgError a => inr a
  end.
#[export] Instance HelperMessage_countable : Countable HelperMessage.
Proof.
  refine (inj_countable' message_code
    (fun x => match x with
     | inl (inl (inl (inl (inl (inl (inl (a, b))))))) => MsgHello a b
     | inl (inl (inl (inl (inl (inl (inr (a, b, c))))))) => MsgEntry a b c
     | inl (inl (inl (inl (inl (inr (a, b)))))) => MsgStat a b
     | inl (inl (inl (inl (inr (a, b, c, d))))) => MsgPreviewChunk a b c d
     | inl (inl (inl (inr (a, b)))) => MsgHash a b
     | inl (inl (inr a)) => MsgResolved a
     | inl (inr (a, b)) => MsgEnd a b
     | inr a => MsgError a
     end) _). by intros [].
Defined.
#[export] Instance HelperLine_countable : Countable HelperLine.
Proof.
  refine (inj_countable' (fun l => (hl_message l, hl_text l)) (fun '(m, t) => mkHelperLine m t) _). by intros [].
Defined.

Fixpoint bits (p : positive) : text :=
  match p with xH => [] | xO p => "0"%byte :: bits p | xI p => "1"%byte :: bits p end.
Fixpoint of_bits (s : text) : option positive :=
  match s with
  | [] => None
  | [b] => if bool_decide (b = "}"%byte) then Some xH else None
  | b :: s => p ← of_bits s; Some (if bool_decide (b = "1"%byte) then xI p else xO p)
  end.

Definition bits_json : HelperJson := {|
  from_str s :=
    match s with
    | _ :: s => ok_or (bytes "not a message") (of_bits s ≫= decode)
    | [] => Err (bytes "empty")
    end;
  to_string l := "{"%byte :: bits (encode l) ++ ["}"%byte];
|}.

Lemma of_bits_bits p : of_bits (bits p ++ ["}"%byte]) = Some p.
Proof.
  assert (∀ b s, s ≠ [] → of_bits (b :: s) = p ← of_bits s; Some (if bool_decide (b = "1"%byte) then xI p else xO p))
    as Hcons by (intros b [|c s]; done).
  induction p as [p IH|p IH|]; cbn [bits app]; [| | done]; rewrite Hcons, IH by (by destruct (bits p)); done.
Qed.

Lemma bits_chars p : Forall (fun b => b = "0"%byte ∨ b = "1"%byte) (bits p).
Proof. induction p; cbn; constructor; auto. Qed.

Lemma bits_str p : is_str (bits p).
Proof.
  induction p as [p IH|p IH|]; [| | done]; [exact (from_utf8_app ["1"%byte] _ eq_refl IH) | exact (from_utf8_app ["0"%byte] _ eq_refl IH)].
Qed.

Lemma bits_json_laws : HelperJsonLaws (HJ := bits_json).
Proof.
  split.
  - intros l _. change (ok_or (bytes "not a message") (of_bits (bits (encode l) ++ ["}"%byte]) ≫= decode) = Ok l).
    rewrite of_bits_bits. cbn [mbind option_bind]. by rewrite decode_encode.
  - intros l. by exists (bits (encode l)).
  - intros l. change ("010"%byte ∉ "{"%byte :: bits (encode l) ++ ["}"%byte]). rewrite elem_of_cons, elem_of_app, list_elem_of_singleton. intros [H|[H|H]]; try discriminate H.
    apply (proj1 (list.Forall_forall _ _) (bits_chars _)) in H as [H|H]; discriminate H.
  - intros l _. apply (from_utf8_app ["{"%byte]); [done |]. by apply from_utf8_app; [apply bits_str |].
Qed.

(** The state of the engine: the command of the exec that was created, and the
    helper containers that exist. *)
Definition helper_engine {HJ : HelperJson} {FS : HelperFs} : DockerExec (list text * gset text) := {|
  create_exec _ cmd _ w := (inl (bytes "exec"), (cmd, w.2));
  start_exec _ _ w :=
    (Some (inl (Attached
       match helper_main (bytes "1") (tail w.1) with
       | Some (Ok (messages, _)) => [inl (LO_StdOut (concat (map (fun m => emit (mkHelperLine m [])) messages)))]
       | _ => []
       end)), w);
  remove_container id w := (Some (inl tt), (w.1, w.2 ∖ {[id]}));
  list_containers _ w := (Some (inl []), w);
|}.

Lemma helper_engine_serves {HJ : HelperJson} {FS : HelperFs} session args max_output messages code w :
  helper_main (bytes "1") args = Some (Ok (messages, code)) →
  Forall (fun m => representable (mkHelperLine m [])) messages →
  serves (DX := helper_engine) session args max_output ((fun m => mkHelperLine m []) <$> messages) w
    (se_helper_path session :: args, w.2).
Proof.
  intros Hm Hr. split.
  - exists (bytes "exec"), (se_helper_path session :: args, w.2),
      [inl (LO_StdOut (concat (map (fun m => emit (mkHelperLine m [])) messages)))].
    split_and!; [reflexivity | | by repeat constructor | | by right |].
    + unfold start_exec, helper_engine. cbn [fst snd tail]. by rewrite Hm.
    + unfold stdout_of. cbn. rewrite app_nil_r. f_equal.
      change ((fun m => mkHelperLine m []) <$> messages) with (map (fun m => mkHelperLine m []) messages).
      by rewrite map_map.
    + apply Forall_fmap. exact Hr.
  - exists (bytes "1"), code. rewrite Hm, <- list_fmap_compose. do 3 f_equal. symmetry. apply list_fmap_id.
Qed.

#[export] Instance unbounded_Chrono : Chrono := { timestamp_opt := Some }.
#[export] Instance unbounded_ChronoLaws : ChronoLaws.
Proof. split. by intros ts t [= ->]. Qed.

(** ** Properties *)

(** A listing that was cut off is taken for a complete one.  The protocol
    ends a listing with an [End] message, but the client does not require it:
    when the output of the helper stops after some of the entries, the entries
    so far are returned with no truncation mark and no cursor. *)
Theorem cut_listing_accepted {HJ : HelperJson} {CH : Chrono} {JL : HelperJsonLaws} (lines : list HelperLine) :
  Forall representable lines → Forall (fun l => is_entry (hl_message l)) lines →
  parse_list_output (to_string <$> lines)
  = Ok (mkListDirectoryResult (omap from_protocol_entry (hl_message <$> lines)) false None).
Proof.
  intros Hr He. unfold parse_list_output. rewrite <- (app_nil_r (to_string <$> lines)), parse_list_entries by done.
  reflexivity.
Qed.

Lemma cut_listing_accepted_witness :
  lres_truncated
    <$> ok (parse_list_output (HJ := bits_json)
              [to_string (HelperJson := bits_json)
                 (mkHelperLine (MsgEntry (bytes "YQ==") (bytes "v1:YQ==")
                    (mkMessageFields FtFile (Some 1) None None None None None true)) [])]) = Some false.
Proof.
  pose proof (cut_listing_accepted (HJ := bits_json) (JL := bits_json_laws)
           [mkHelperLine (MsgEntry (bytes "YQ==") (bytes "v1:YQ==") (mkMessageFields FtFile (Some 1) None None None None None true)) []])
    as H.
  cbn [fmap list_fmap] in H. rewrite H; [reflexivity | |].
  - repeat constructor; vm_compute; discriminate.
  - repeat constructor.
Defined.
