(* ===== verification/HelperProvider.v ===== *)
(** The providers that read through a helper container
    (crates/docker-core/src/vfs_providers/support.rs, volume.rs and
    helper_bind.rs): one session per provider, started on first use and dropped
    when it fails, a directory cache with a time to live, and open files that do
    not survive their session.

    The state is a record; an operation is a program over it and the state of
    the Docker engine.  The locks serialise the operations on the session, so
    an operation runs to its end; [session_check] and [session_slot] are the two
    steps between which another operation can run. *)

From S2P Require Import Prelude Error Path Numbers Text Utf8 Model Provider FsProtocol FsHelper DockerError FsClient.

Local Open Scope Z_scope.

Definition HELPER_DIRECTORY_TTL : Z := 2000.
Definition MAX_DIRECTORY_ENTRIES : Z := 100000.
Definition MAX_REMOTE_READ_BYTES : Z := 16 * 1024 * 1024.

(** ** State *)
Record CachedDirectory := mkCachedDirectory {
  cd_inserted : Z;
  cd_generation : Z;
  cd_entries : list VirtualDirectoryEntry;
}.

Record OpenRemoteFile := mkOpenRemoteFile {
  orf_path : VirtualPath;
  orf_generation : Z;
}.

Record HelperProviderCore := mkHelperProviderCore {
  hp_descriptor : ProviderDescriptor;
  hp_node_namespace : list byte;
  hp_session : option FilesystemSession;
  hp_directories : gmap VirtualPath CachedDirectory;
  hp_handles : gmap Z OpenRemoteFile;
  hp_next_handle : Z;
  hp_generation : Z;
  hp_session_epoch : Z;
  hp_active : bool;
  hp_directory_ttl : Z;
}.

(** [HelperProviderCore::new]; times are in milliseconds, and the bounds are a
    [debug_assert!]. *)
Definition HelperProviderCore_new (descriptor : ProviderDescriptor) (node_namespace : list byte)
  (directory_ttl : Z) : HelperProviderCore :=
  mkHelperProviderCore descriptor node_namespace None ∅ ∅ 1 1 1 true directory_ttl.

Definition set_session (x : option FilesystemSession) (s : HelperProviderCore) : HelperProviderCore :=
  mkHelperProviderCore (hp_descriptor s) (hp_node_namespace s) x (hp_directories s) (hp_handles s)
    (hp_next_handle s) (hp_generation s) (hp_session_epoch s) (hp_active s) (hp_directory_ttl s).
Definition set_directories (x : gmap VirtualPath CachedDirectory) (s : HelperProviderCore) : HelperProviderCore :=
  mkHelperProviderCore (hp_descriptor s) (hp_node_namespace s) (hp_session s) x (hp_handles s)
    (hp_next_handle s) (hp_generation s) (hp_session_epoch s) (hp_active s) (hp_directory_ttl s).
Definition set_open_files (x : gmap Z OpenRemoteFile) (next : Z) (s : HelperProviderCore) : HelperProviderCore :=
  mkHelperProviderCore (hp_descriptor s) (hp_node_namespace s) (hp_session s) (hp_directories s) x
    next (hp_generation s) (hp_session_epoch s) (hp_active s) (hp_directory_ttl s).
(** [generation.fetch_add(1)] and [session_epoch.fetch_add(1)] *)
Definition bump_generation (s : HelperProviderCore) : HelperProviderCore :=
  mkHelperProviderCore (hp_descriptor s) (hp_node_namespace s) (hp_session s) (hp_directories s) (hp_handles s)
    (hp_next_handle s) (wrapping_add 64 (hp_generation s) 1) (hp_session_epoch s) (hp_active s) (hp_directory_ttl s).
Definition bump_epoch (s : HelperProviderCore) : HelperProviderCore :=
  mkHelperProviderCore (hp_descriptor s) (hp_node_namespace s) (hp_session s) (hp_directories s) (hp_handles s)
    (hp_next_handle s) (hp_generation s) (wrapping_add 64 (hp_session_epoch s) 1) (hp_active s) (hp_directory_ttl s).
Definition deactivate (s : HelperProviderCore) : HelperProviderCore :=
  mkHelperProviderCore (hp_descriptor s) (hp_node_namespace s) (hp_session s) (hp_directories s) (hp_handles s)
    (hp_next_handle s) (hp_generation s) (hp_session_epoch s) false (hp_directory_ttl s).

(** ** Errors *)
Definition message_of (error : FilesystemError) : string :=
  String.string_of_list_byte (FilesystemError_to_string error).

Definition map_filesystem_error (error : FilesystemError) : VfsError :=
  match error with
  | FE_SourceNotFound | FE_ImageNotFound _ | FE_VolumeNotFound _ | FE_PathNotFound _ => NotFound
  | FE_NotDirectory _ => NotDirectory
  | FE_IsDirectory _ => IsDirectory
  | FE_PermissionDenied _ => PermissionDenied
  | FE_InvalidPathToken _ => InvalidInput "invalid helper path token"
  | FE_PathEscapeRejected _ => SymlinkEscape
  | FE_UnsupportedFileType _ => SpecialFile
  | FE_Timeout | FE_OperationTimeout => TimedOut
  | FE_DockerUnavailable | FE_SessionClosed | FE_SessionInvalidated => Unavailable (message_of error)
  | other => Io (message_of other)
  end.

Definition to_vfs {A} (r : fres A) : vres A := map_err map_filesystem_error r.

(** ** Paths *)

(** The loop of [path_token] over the components. *)
Fixpoint relative_bytes (index : nat) (components : list VirtualFileName) : list byte :=
  match components with
  | [] => []
  | component :: components =>
      (if (index =? 0)%nat then [] else ["/"%byte]) ++ VirtualFileName_as_bytes component
      ++ relative_bytes (S index) components
  end.

Definition path_token (path : VirtualPath) : vres FilesystemPathToken :=
  map_err (fun _ => InvalidInput "invalid helper path") (encode_relative (relative_bytes 0 (components path))).

Definition remote_node_id (self : HelperProviderCore) (path : VirtualPath) : list byte :=
  hp_node_namespace self ++ ["000"%byte] ++ VirtualPath_as_bytes path.

(** ** Metadata *)
Definition with_generation (generation : Z) (m : VirtualMetadata) : VirtualMetadata :=
  mkVirtualMetadata (node_id m) (file_type m) (size m) (nlink m) (mtime m) (original m) (device_id m) generation.

Definition remote_root_metadata (self : HelperProviderCore) : VirtualMetadata :=
  with_generation (hp_generation self) (VirtualMetadata_directory (remote_node_id self VirtualPath_root)).

Definition virtual_type (entry_type : FilesystemEntryType) : VirtualFileType :=
  match entry_type with
  | ET_Directory => Directory
  | ET_RegularFile => RegularFile
  | ET_SymbolicLink => Symlink
  | ET_Socket => Socket
  | ET_Fifo => NamedPipe
  | ET_BlockDevice => BlockDevice
  | ET_CharacterDevice => CharacterDevice
  | ET_Unknown => Socket
  end.

(** [u64::try_from(seconds).ok()], a time before the epoch is dropped. *)
Definition after_epoch (seconds : Z) : option Z := if seconds <? 0 then None else Some seconds.

Definition remote_metadata (self : HelperProviderCore) (path : VirtualPath) (entry : FilesystemEntry)
  : VirtualMetadata :=
  let file_type := virtual_type (fe_entry_type entry) in
  let metadata :=
    match file_type with
    | Directory => VirtualMetadata_directory (remote_node_id self path)
    | RegularFile => VirtualMetadata_file (remote_node_id self path) (default 0 (fe_size_bytes entry))
    | Symlink =>
        VirtualMetadata_symlink (remote_node_id self path) (from_option len 0 (fe_symlink_target_raw entry))
    | other => VirtualMetadata_special (remote_node_id self path) other 0
    end in
  {| node_id := node_id metadata;
     Model.file_type := Model.file_type metadata;
     size := size metadata;
     nlink := nlink metadata;
     mtime := default UNIX_EPOCH (fe_modified_at entry ≫= after_epoch);
     original :=
       {| orig_mode := default (match file_type with Directory => 493 | Symlink => 511 | _ => 420 end) (fe_mode entry);
          orig_uid := default 0 (fe_uid entry);
          orig_gid := default 0 (fe_gid entry) |};
     device_id := device_id metadata;
     generation := hp_generation self |}.

(** ** Operations *)
Class SessionFactory (W : Type) := { factory_start : CancellationToken → fprog W FilesystemSession }.
Class Clock (W : Type) := { instant_now : W → Z }.

Section core.
Context {W : Type} {FF : FuserFlags} {DX : DockerExec W} {HJ : HelperJson} {CH : Chrono}
  {SF : SessionFactory W} {CK : Clock W}.

Abbreviation world := (HelperProviderCore * W)%type.

(** Await a call of the service: its result, or a panic passed on. *)
Definition service {A} (m : fprog W A) : prog world (fres A) := fun s =>
  let '(r, w) := m s.2 in
  (match r with Panic p => Panic p | r => Ok r end, (s.1, w)).

Definition self_gets {A} (f : HelperProviderCore → A) : prog world A := gets (fun s => f s.1).
Definition self_update (f : HelperProviderCore → HelperProviderCore) : prog world () :=
  update (fun s => (f s.1, s.2)).

(** [session]: the check of [active], and then the slot under its lock. *)
Definition session_check : prog world () :=
  active ← self_gets hp_active;
  if (active : bool) then mret tt else throw Stale.

Definition session_slot : prog world FilesystemSession :=
  slot ← self_gets hp_session;
  match slot with
  | Some session => mret session
  | None =>
      started ← service (factory_start CancellationToken_new);
      session ← lift (to_vfs started);
      if negb (se_read_only session) then service (invalidate_session session);; throw ReadOnly
      else self_update (set_session (Some session));; mret session
  end.

Definition session : prog world FilesystemSession := session_check;; session_slot.

Definition invalidate_failed_session (failed : FilesystemSession) (error : FilesystemError) : prog world () :=
  if negb (invalidates_session error) then mret tt
  else
    slot ← self_gets hp_session;
    if bool_decide (se_container_id <$> slot = Some (se_container_id failed)) then
      self_update (set_session None);;
      match slot with
      | Some session =>
          service (invalidate_session session);;
          self_update (fun self => set_directories ∅ (bump_epoch (bump_generation self)))
      | None => mret tt
      end
    else mret tt.

Definition run {A} (operation : FilesystemSession → CancellationToken → fprog W A) : prog world A :=
  session ← session;
  result ← service (operation session CancellationToken_new);
  match result with
  | Err error => invalidate_failed_session session error
  | _ => mret tt
  end;;
  lift (to_vfs result).

Definition core_getattr (path : VirtualPath) : prog world VirtualMetadata :=
  if VirtualPath_is_root path then self_gets remote_root_metadata
  else
    token ← lift (path_token path);
    entry ← run (fun session cancellation => stat session (mkStatRequest token) cancellation);
    self_gets (fun self => remote_metadata self path entry).

Definition core_lookup (parent : VirtualPath) (name : VirtualFileName) : prog world VirtualMetadata :=
  path ← lift (VirtualPath_join parent name);
  core_getattr path.

(** One entry of a listing. *)
Definition remote_child (self : HelperProviderCore) (path : VirtualPath) (entry : FilesystemEntry)
  : vres VirtualDirectoryEntry :=
  name ← VirtualFileName_new (fe_name_raw entry);
  child ← VirtualPath_join path name;
  Ok (mkVirtualDirectoryEntry name (remote_metadata self child entry)).

(** The cache hit of [read_dir]. *)
Definition cached_listing (path : VirtualPath) (s : world) : option (list VirtualDirectoryEntry) :=
  hit ← hp_directories s.1 !! path;
  if (cd_generation hit =? hp_generation s.1)
     && (saturating_sub (instant_now s.2) (cd_inserted hit) <? hp_directory_ttl s.1)
  then Some (cd_entries hit) else None.

Definition list_request (token : FilesystemPathToken) : ListDirectoryRequest :=
  mkListDirectoryRequest token true (Some MAX_DIRECTORY_ENTRIES) None.

Definition core_read_dir (path : VirtualPath) : prog world (list VirtualDirectoryEntry) :=
  generation ← self_gets hp_generation;
  hit ← gets (cached_listing path);
  match hit with
  | Some entries => mret entries
  | None =>
      token ← lift (path_token path);
      result ← run (fun session cancellation => list_directory session (list_request token) cancellation);
      if lres_truncated result || bool_decide (lres_next_cursor result ≠ None)
      then throw (Io "helper truncated a VFS directory listing")
      else
        entries ← asks (fun self => mapM_result (remote_child self path) (lres_entries result));
        let entries := sort_by entry_cmp entries in
        update (fun s =>
          (set_directories (<[path := mkCachedDirectory (instant_now s.2) generation entries]> (hp_directories s.1)) s.1,
           s.2));;
        mret entries
  end.

Definition core_read_link (path : VirtualPath) : prog world VirtualPathBytes :=
  token ← lift (path_token path);
  entry ← run (fun session cancellation => stat session (mkStatRequest token) cancellation);
  if negb (bool_decide (fe_entry_type entry = ET_SymbolicLink)) then throw (InvalidInput "node is not a symlink")
  else
    target ← lift (ok_or (Io "helper stat omitted symlink target") (fe_symlink_target_raw entry));
    lift (VirtualPathBytes_new target).

(** A new handle of the current session. *)
Definition insert_open (path : VirtualPath) : prog world ProviderFileHandle := fun s =>
  let self := s.1 in
  let id := hp_next_handle self in
  let generation := hp_session_epoch self in
  (Ok (mkProviderFileHandle id path generation),
   (set_open_files (<[id := mkOpenRemoteFile path generation]> (hp_handles self)) (wrapping_add 64 id 1) self, s.2)).

Definition core_open (path : VirtualPath) (flags : Z) : prog world ProviderFileHandle :=
  if negb (is_read_only_open flags) then throw ReadOnly
  else
    metadata ← core_getattr path;
    match file_type metadata with
    | RegularFile => insert_open path
    | Directory => throw IsDirectory
    | Symlink => throw (InvalidInput "cannot open a symlink")
    | _ => throw SpecialFile
    end.

(** The loop of [read_at] over the chunks of a preview. *)
Fixpoint join_chunks (size : Z) (expected_offset : Z) (bytes_ : list byte) (chunks : list PreviewChunk)
  : vres (list byte) :=
  match chunks with
  | [] => Ok bytes_
  | chunk :: chunks =>
      if negb (pc_offset chunk =? expected_offset) then Err (Io "helper returned a non-contiguous read range")
      else
        match decode_base64 (pc_data_b64 chunk) with
        | Err error => Err (Io (String.append "invalid helper content: " (String.string_of_list_byte error)))
        | Panic s => Panic s
        | Ok decoded =>
            if size <? saturating_add usize_max (len bytes_) (len decoded)
            then Err (Io "helper exceeded requested read range")
            else join_chunks size (saturating_add u64_max expected_offset (len decoded)) (bytes_ ++ decoded) chunks
        end
  end.

(** The file behind a handle. *)
Definition opened_file (handle : ProviderFileHandle) (self : HelperProviderCore) : vres OpenRemoteFile :=
  if negb (hp_active self) then Err Stale
  else
    opened ← ok_or BadHandle (hp_handles self !! handle_id handle);
    if negb (bool_decide (orf_path opened = handle_path handle))
       || negb (orf_generation opened =? content_generation handle)
       || negb (orf_generation opened =? hp_session_epoch self)
    then Err Stale else Ok opened.

Definition core_read_at (handle : ProviderFileHandle) (offset size : Z) : prog world (list byte) :=
  if MAX_REMOTE_READ_BYTES <? size then throw (InvalidInput "helper read request is too large")
  else
    opened ← asks (opened_file handle);
    token ← lift (path_token (orf_path opened));
    result ← run (fun session cancellation => preview session (mkPreviewRequest token offset size) cancellation);
    lift (join_chunks size offset [] (pr_chunks result)).

Definition core_close (handle : ProviderFileHandle) : prog world () := fun s =>
  let self := s.1 in
  (match hp_handles self !! handle_id handle with
   | Some opened =>
       if bool_decide (orf_path opened = handle_path handle) && (orf_generation opened =? content_generation handle)
       then Ok tt else Err BadHandle
   | None => Err BadHandle
   end,
   (set_open_files (delete (handle_id handle) (hp_handles self)) (hp_next_handle self) self, s.2)).

(** [directories.retain(..)]: what is neither below nor above the path. *)
Definition unrelated (path cached : VirtualPath) : bool :=
  negb (VirtualPath_starts_with cached path) && negb (VirtualPath_starts_with path cached).

Definition core_refresh (path : option VirtualPath) : prog world () :=
  self_update (fun self =>
    let self := bump_generation self in
    match path with
    | Some path => set_directories (filter (fun e => unrelated path e.1 = true) (hp_directories self)) self
    | None => set_directories ∅ self
    end).

Definition core_shutdown : prog world () :=
  self_update (fun self =>
    let self := bump_epoch (bump_generation (deactivate self)) in
    set_open_files ∅ (hp_next_handle self) (set_directories ∅ self));;
  slot ← self_gets hp_session;
  self_update (set_session None);;
  match slot with
  | Some session =>
      stopped ← service (invalidate_session session);
      lift (to_vfs stopped)
  | None => mret tt
  end.

(** The trait, as [NamedVolumeProvider] and [HelperBindProvider] implement it. *)
#[export] Instance helper_provider : ReadOnlyFilesystemProvider world () := {
  p_descriptor _ w := hp_descriptor w.1;
  p_lookup _ parent name _ := core_lookup parent name;
  p_getattr _ path _ := core_getattr path;
  p_read_dir _ path _ := core_read_dir path;
  p_read_link _ path _ := core_read_link path;
  p_open _ path flags _ := core_open path flags;
  p_read_at _ handle offset size _ := core_read_at handle offset size;
  p_close _ handle := core_close handle;
  p_refresh _ path := core_refresh path;
}.

#[export] Instance helper_ProviderLaws : ProviderLaws world ().
Proof.
  split; cbn.
  - intros _ path flags ctx w Hf. unfold core_open. by rewrite Hf.
  - done.
Qed.
End core.

(** ** Tokens of virtual paths *)
Lemma relative_bytes_join n cs :
  relative_bytes n cs
  = (if (n =? 0)%nat || is_empty cs then [] else ["/"%byte]) ++ join_with "/"%byte (VirtualFileName_as_bytes <$> cs).
Proof.
  revert n. induction cs as [|c cs IH]; intros n; cbn [relative_bytes fmap list_fmap is_empty]; [by rewrite orb_true_r |].
  rewrite orb_false_r, IH. destruct cs as [|d cs]; cbn; [by rewrite app_nil_r | done].
Qed.

Lemma join_with_not_in (b sep : byte) (ps : list (list byte)) :
  b ≠ sep → Forall (fun p => b ∉ p) ps → b ∉ join_with sep ps.
Proof.
  intros Hb. induction 1 as [|p ps Hp Hps IH]; [apply not_elem_of_nil |].
  destruct ps as [|q ps]; cbn [join_with]; [done |]. rewrite elem_of_app, elem_of_cons. naive_solver.
Qed.

(** The parts of a token are the components of the path. *)
Lemma path_token_ok path :
  path_wf path →
  ∃ t, path_token path = Ok t ∧
       decode_relative t = Ok (join_with "/"%byte (VirtualFileName_as_bytes <$> components path)) ∧
       token_str t = PATH_TOKEN_VERSION ++ ":"%byte :: encode_base64 (relative_bytes 0 (components path)).
Proof.
  intros Hwf. assert (relative_ok (relative_bytes 0 (components path))) as Hok.
  { rewrite relative_bytes_join. cbn [Nat.eqb orb app].
    assert (Forall (fun n => name_ok (VirtualFileName_as_bytes n)) (components path)) as Hn by apply Hwf.
    destruct (components path) as [|c cs]; [by left | right]. split.
    - apply join_with_not_in; [done |]. apply Forall_fmap. eapply list.Forall_impl; [exact Hn |]. intros x Hx. apply Hx.
    - rewrite split_join; [| done |].
      + apply Forall_fmap. eapply list.Forall_impl; [exact Hn |]. intros x Hx. destruct Hx as (? & _ & ? & ? & _). done.
      + apply Forall_fmap. eapply list.Forall_impl; [exact Hn |]. intros x Hx. apply Hx. }
  destruct (encode_relative_ok _ Hok) as (t & He & Hd). exists t. unfold path_token. rewrite He. split_and!; [done | |].
  - rewrite Hd, relative_bytes_join. done.
  - unfold encode_relative in He. rewrite (proj2 (validate_relative_ok _) Hok) in He. by injection He as <-.
Qed.

(** ** The outcome of a service call *)
Section outcomes.
Context {W : Type} {FF : FuserFlags} {DX : DockerExec W} {HJ : HelperJson} {CH : Chrono}
  {SF : SessionFactory W} {CK : Clock W}.
Implicit Types (self : HelperProviderCore) (w : W) (x : FilesystemSession).

(** The provider after its session was lost. *)
Definition dropped self : HelperProviderCore :=
  set_directories ∅ (bump_epoch (bump_generation (set_session None self))).

Lemma invalidate_no_panic x w p : (invalidate_session x w).1 ≠ Panic p.
Proof.
  unfold invalidate_session, force_remove_container.
  destruct (remove_container _ _) as [[[[]|err]|] w'']; cbn; [done | by destruct (_ || _) | done].
Qed.

(** The first use of a provider starts its session. *)
Lemma session_started self w :
  hp_active self = true → hp_session self = None →
  session (self, w)
  = match factory_start CancellationToken_new w with
    | (Ok x, w') =>
        if se_read_only x then (Ok x, (set_session (Some x) self, w'))
        else (Err ReadOnly, (self, (invalidate_session x w').2))
    | (Err e, w') => (Err (map_filesystem_error e), (self, w'))
    | (Panic p, w') => (Panic p, (self, w'))
    end.
Proof.
  intros Ha Hs. unfold session, session_check, session_slot, self_gets, gets, service, mbind, prog_bind.
  cbn. rewrite Ha. cbn. rewrite Hs. cbn.
  destruct (factory_start CancellationToken_new w) as [[x|e|p] w']; [| reflexivity | reflexivity].
  unfold lift, to_vfs. cbn [map_err]. destruct (se_read_only x); cbn [negb]; [reflexivity |]. cbn [fst snd].
  pose proof (invalidate_no_panic x w') as Hp. destruct (invalidate_session x w') as [[[]|e|p] w'']; [reflexivity | reflexivity |].
  exfalso. by apply (Hp p).
Qed.

Lemma helper_run_ok {A} (operation : FilesystemSession → CancellationToken → fprog W A) self w w' x a :
  hp_active self = true → hp_session self = Some x → operation x CancellationToken_new w = (Ok a, w') →
  run operation (self, w) = (Ok a, (self, w')).
Proof.
  intros Ha Hs Ho. unfold run, session, session_check, session_slot, self_gets, gets, service, lift, mbind, prog_bind.
  cbn. rewrite Ha. cbn. rewrite Hs. cbn. by rewrite Ho.
Qed.

Lemma run_err {A} (operation : FilesystemSession → CancellationToken → fprog W A) self w w' x e :
  hp_active self = true → hp_session self = Some x → operation x CancellationToken_new w = (Err e, w') →
  run operation (self, w)
  = (Err (map_filesystem_error e),
     if invalidates_session e then (dropped self, (invalidate_session x w').2) else (self, w')).
Proof.
  intros Ha Hs Ho.
  unfold run, session, session_check, session_slot, self_gets, gets, service, lift, mbind, prog_bind.
  cbn. rewrite Ha. cbn. rewrite Hs. cbn. rewrite Ho. cbn [snd fst]. unfold invalidate_failed_session.
  destruct (invalidates_session e); cbn [negb]; [| reflexivity].
  unfold self_gets, self_update, gets, update, service, mbind, prog_bind. cbn [fst snd]. rewrite Hs.
  rewrite bool_decide_eq_true_2 by reflexivity. cbn [fst snd].
  pose proof (invalidate_no_panic x w') as Hp. destruct (invalidate_session x w') as [[[]|err|p] w'']; [reflexivity | reflexivity |].
  exfalso. by apply (Hp p).
Qed.

(** An inactive provider refuses before it reaches the engine. *)
Lemma run_inactive {A} (operation : FilesystemSession → CancellationToken → fprog W A) self w :
  hp_active self = false → run operation (self, w) = (Err Stale, (self, w)).
Proof.
  intros Ha. unfold run, session, session_check, self_gets, gets, mbind, prog_bind. cbn. by rewrite Ha.
Qed.

(** *** Reading a file *)
Lemma join_chunks_ok ds size offset remaining truncated acc :
  0 ≤ offset → len acc + len (concat ds) ≤ size → size ≤ usize_max → offset + len (concat ds) ≤ u64_max →
  join_chunks size offset acc (wire_chunks offset remaining truncated ds) = Ok (acc ++ concat ds).
Proof.
  revert offset remaining acc. induction ds as [|d ds IH]; intros offset remaining acc Ho Hs Hu Hm;
    cbn [wire_chunks join_chunks concat].
  - by rewrite app_nil_r.
  - cbn [concat] in Hs, Hm. rewrite len_app in Hs, Hm.
    pose proof (len_nonneg d). pose proof (len_nonneg (concat ds)). pose proof (len_nonneg acc).
    cbn [pc_offset pc_data_b64]. rewrite Z.eqb_refl. cbn [negb]. rewrite decode_encode_base64.
    unfold saturating_add. rewrite !Z.min_r by lia. rewrite (proj2 (Z.ltb_ge _ _)) by lia.
    rewrite IH; [by rewrite <- app_assoc | lia | rewrite len_app; lia | done | lia].
Qed.

Context {FS : HelperFs} {JL : HelperJsonLaws}.

Lemma core_read_at_ok self w w' x handle opened token offset size content lines :
  hp_session self = Some x → opened_file handle self = Ok opened → path_token (orf_path opened) = Ok token →
  serves x (preview_args x (mkPreviewRequest token offset size)) MAX_EXEC_PREVIEW lines w w' →
  file_content x token content → 0 ≤ offset ≤ u64_max → 0 ≤ size ≤ MAX_REMOTE_READ_BYTES →
  core_read_at handle offset size (self, w)
  = (Ok (take (Z.to_nat size) (drop (Z.to_nat offset) content)), (self, w')).
Proof.
  intros Hs Ho Ht Hv Hf Hoff Hsz. assert (MAX_REMOTE_READ_BYTES ≤ u64_max) by (vm_compute; discriminate).
  destruct (preview_served x token content offset size lines w w' Hv Hf Hoff) as (r & ds & remaining & tr & Hp & Hc & Hd);
    [lia |].
  assert (hp_active self = true) as Ha by (unfold opened_file in Ho; by destruct (hp_active self)).
  unfold core_read_at. rewrite (proj2 (Z.ltb_ge _ _)) by lia. unfold mbind at 1, prog_bind at 1. unfold asks. cbn [fst].
  rewrite Ho. unfold mbind at 1, prog_bind at 1. unfold lift at 1. rewrite Ht. unfold mbind, prog_bind.
  rewrite (helper_run_ok _ self w w' x r Ha Hs Hp). unfold lift. f_equal. rewrite Hc, join_chunks_ok, Hd; [done | lia | | |].
  - rewrite len_nil, Hd. unfold len. rewrite length_take. lia.
  - change usize_max with u64_max. lia.
  - rewrite Hd. destruct Hf as (_ & _ & _ & _ & _ & _ & _ & _ & _ & _ & _ & _ & Hmax).
    assert (i64_max ≤ u64_max) by (vm_compute; discriminate). unfold len in *. rewrite length_take, length_drop. lia.
Qed.

(** *** Reading a directory *)
Lemma sort_sorted {A} (cmp : A → A → comparison) (l : list A) :
  StronglySorted (fun a b => cmp a b ≠ Gt) l → sort_by cmp l = l.
Proof.
  induction 1 as [|a l Hl IH Ha]; [done |]. unfold sort_by in *. cbn [foldr]. rewrite IH.
  destruct l as [|b l]; [done |]. cbn [insert_by]. apply Forall_cons_iff in Ha as [Ha _]. by destruct (cmp a b).
Qed.

(** What the provider shows of a child. *)
Definition shows self (path : VirtualPath) (name : list byte) (token : FilesystemPathToken) (meta : Metadata)
  (target : list byte) (e : VirtualDirectoryEntry) : Prop :=
  entry_name e = mkVirtualFileName name ∧
  ∃ child, VirtualPath_join path (mkVirtualFileName name) = Ok child ∧
           entry_metadata e = remote_metadata self child (entry_view name token meta target).

Lemma remote_children_ok self path relative names meta target :
  Forall (fun name => name_ok name ∧ is_ok (VirtualPath_join path (mkVirtualFileName name)) = true) names →
  ∃ entries,
    mapM_result (remote_child self path)
      ((fun name => entry_view name (child_of relative name) (meta name) (target name)) <$> names) = Ok entries ∧
    Forall2 (fun name e => shows self path name (child_of relative name) (meta name) (target name) e) names entries.
Proof.
  induction 1 as [|name names [Hn Hj] Hs (entries & IH1 & IH2)]; [by exists [] |].
  destruct (VirtualPath_join path (mkVirtualFileName name)) as [child| |] eqn:E; [| done | done].
  exists (mkVirtualDirectoryEntry (mkVirtualFileName name)
            (remote_metadata self child (entry_view name (child_of relative name) (meta name) (target name))) :: entries).
  split; [| by constructor; [split; [done | by exists child] |]].
  assert (remote_child self path (entry_view name (child_of relative name) (meta name) (target name))
          = Ok (mkVirtualDirectoryEntry (mkVirtualFileName name)
              (remote_metadata self child (entry_view name (child_of relative name) (meta name) (target name))))) as Hc.
  { unfold remote_child. change (fe_name_raw (entry_view _ _ _ _)) with name.
    rewrite (proj2 (VirtualFileName_new_Ok name _) (conj eq_refl Hn)). cbn [mbind result_bind]. by rewrite E. }
  cbn [fmap list_fmap mapM_result]. rewrite Hc. cbn [mbind result_bind]. cbn [fmap] in IH1.
  by rewrite IH1.
Qed.

Lemma shown_names self path relative meta target names entries :
  Forall2 (fun name e => shows self path name (child_of relative name) (meta name) (target name) e) names entries →
  (fun e => VirtualFileName_as_bytes (entry_name e)) <$> entries = names.
Proof. induction 1 as [|name e names entries [He _] Hs IH]; [done |]. cbn. by rewrite He, IH. Qed.

Lemma shown_sorted self path relative meta target names entries :
  StronglySorted (fun a b => bytes_cmp a b = Lt) names →
  Forall2 (fun name e => shows self path name (child_of relative name) (meta name) (target name) e) names entries →
  StronglySorted (fun a b => entry_cmp a b ≠ Gt) entries.
Proof.
  intros Hs. revert entries. induction Hs as [|name names Hs IH Hn]; intros entries Hf.
  - apply Forall2_nil_inv_l in Hf as ->. constructor.
  - apply Forall2_cons_inv_l in Hf as (e & es & He & Hes & ->). constructor; [by apply IH |].
    apply list.Forall_forall. intros e' Hin. apply list_elem_of_lookup in Hin as [i Hi].
    destruct (Forall2_lookup_r _ _ _ _ _ Hes Hi) as (n' & Hn' & He').
    unfold entry_cmp, cmp_by. rewrite (proj1 He), (proj1 He'). cbn.
    rewrite (proj1 (list.Forall_forall _ _) Hn n') by (by eapply list_elem_of_lookup_2). done.
Qed.

Lemma core_read_dir_ok self w w' x path token lines dir relative items meta target :
  hp_active self = true → hp_session self = Some x → cached_listing path (self, w) = None →
  path_token path = Ok token → serves x (list_args x (list_request token)) MAX_EXEC_STDOUT lines w w' →
  resolve_token (se_root x) (token_str token) = Ok dir → decode_token (token_str token) = Ok relative →
  directory dir items meta target → len (visible (is_empty relative) true None items) ≤ MAX_DIRECTORY_ENTRIES →
  Forall (fun name => name_ok name ∧ is_ok (VirtualPath_join path (mkVirtualFileName name)) = true) items →
  ∃ entries,
    core_read_dir path (self, w)
    = (Ok entries,
       (set_directories (<[path := mkCachedDirectory (instant_now w') (hp_generation self) entries]> (hp_directories self)) self, w')) ∧
    Forall2 (fun name e => shows self path name (child_of relative name) (meta name) (target name) e)
      (visible (is_empty relative) true None items) entries.
Proof.
  intros Ha Hs Hc Ht Hv Hr Hd Hdir Hlen Hnames.
  assert (1 ≤ MAX_DIRECTORY_ENTRIES ≤ usize_max) as Hlim by (split; vm_compute; discriminate).
  pose proof (list_directory_served x token MAX_DIRECTORY_ENTRIES lines w w' dir relative items meta target
                Hv Hr Hd Hdir Hlim Hlen) as Hl.
  destruct (remote_children_ok self path relative (visible (is_empty relative) true None items) meta target)
    as (entries & Hm & Hf).
  { eapply Forall_subset'; [| exact Hnames]. intros n. unfold visible. rewrite (sort_by_perm bytes_cmp).
    intros [H _]%list_elem_of_In%List.filter_In. by apply list_elem_of_In. }
  assert (sort_by entry_cmp entries = entries) as Hsort.
  { apply sort_sorted. eapply shown_sorted; [| exact Hf]. apply visible_strict, (dir_nodup _ _ _ _ Hdir). }
  exists entries. split; [| exact Hf].
  unfold core_read_dir. unfold mbind at 1, prog_bind at 1. unfold self_gets, gets. cbn [fst].
  unfold mbind at 1, prog_bind at 1. rewrite Hc. unfold mbind at 1, prog_bind at 1. unfold lift at 1. rewrite Ht.
  unfold mbind at 1, prog_bind at 1. rewrite (helper_run_ok _ self w w' x _ Ha Hs Hl). cbn [lres_truncated lres_next_cursor orb].
  rewrite bool_decide_eq_false_2 by (intros Hne; by apply Hne). unfold mbind at 1, prog_bind at 1. unfold asks.
  cbn [lres_entries fst]. rewrite Hm, Hsort. reflexivity.
Qed.
End outcomes.

(** ** The invariant of a provider

    [live] are the containers of the sessions that were handed out and not yet
    removed; the engine obeys removals. *)
Class HelperContainers (W : Type) := { live : W → gset text }.
Class HelperContainersLaws (W : Type) {DX : DockerExec W} {SF : SessionFactory W} {HC : HelperContainers W} : Prop := {
  live_started token w :
    match factory_start token w with
    | (Ok session, w') => live w' = {[se_container_id session]} ∪ live w
    | (_, w') => live w' = live w
    end;
  live_removed id w : live (remove_container id w).2 = live w ∖ {[id]};
  live_create_exec id cmd err w : live (create_exec id cmd err w).2 = live w;
  live_start_exec id max w : live (start_exec id max w).2 = live w;
}.

Section invariant.
Context {W : Type} {FF : FuserFlags} {DX : DockerExec W} {HJ : HelperJson} {CH : Chrono}
  {SF : SessionFactory W} {CK : Clock W} {HC : HelperContainers W} {HL : HelperContainersLaws W}.

Definition held (self : HelperProviderCore) : gset text :=
  from_option (fun x => {[se_container_id x]}) ∅ (hp_session self).

(** A cached listing is sorted, and its nodes are the children of its path. *)
Definition listing_ok (self : HelperProviderCore) (path : VirtualPath) (entries : list VirtualDirectoryEntry) : Prop :=
  StronglySorted (fun a b => entry_cmp a b ≠ Gt) entries ∧
  Forall (fun e => ∃ child, VirtualPath_join path (entry_name e) = Ok child ∧
                            node_id (entry_metadata e) = remote_node_id self child) entries.

Record hp_inv (s : HelperProviderCore * W) : Prop := {
  inv_live : live s.2 = held s.1;
  inv_read_only x : hp_session s.1 = Some x → se_read_only x = true;
  inv_inactive : hp_active s.1 = false → hp_session s.1 = None ∧ hp_handles s.1 = ∅ ∧ hp_directories s.1 = ∅;
  inv_cache path c : hp_directories s.1 !! path = Some c → listing_ok s.1 path (cd_entries c);
}.

(** Programs that leave the containers alone. *)
Definition quiet {A} (m : fprog W A) : Prop := ∀ w, live (m w).2 = live w.

Lemma quiet_bind {A B} (m : fprog W A) (f : A → fprog W B) : quiet m → (∀ a, quiet (f a)) → quiet (m ≫= f).
Proof.
  intros Hm Hf w. unfold mbind, fprog_bind. specialize (Hm w). destruct (m w) as [[a|e|p] w']; cbn in *; [| done | done].
  by rewrite Hf.
Qed.
Lemma quiet_flift {A} (r : fres A) : quiet (flift r).
Proof. done. Qed.

Lemma quiet_exec session cmd max token : quiet (exec_lines session cmd max token).
Proof.
  apply quiet_bind; [apply quiet_flift |]. intros c. apply quiet_bind; [| intros output].
  - apply quiet_bind; [| intros id; apply quiet_bind; [| by intros []]].
    + intros w. unfold api_call. pose proof (live_create_exec (se_container_id session) cmd true w) as H.
      by destruct (create_exec _ _ _ _).
    + intros w. unfold timed_call. pose proof (live_start_exec id max w) as H. by destruct (start_exec _ _ _).
  - apply quiet_bind; [apply quiet_flift |]. intros [stdout stderr]. apply quiet_flift.
Qed.

Lemma quiet_stat session request token : quiet (stat session request token).
Proof. apply quiet_bind; [apply quiet_exec |]. intros. apply quiet_flift. Qed.
Lemma quiet_list session request token : quiet (list_directory session request token).
Proof. apply quiet_bind; [apply quiet_exec |]. intros. apply quiet_flift. Qed.
Lemma quiet_preview session request token : quiet (preview session request token).
Proof. apply quiet_bind; [apply quiet_exec |]. intros. apply quiet_flift. Qed.

Lemma live_invalidate x w : live (invalidate_session x w).2 = live w ∖ {[se_container_id x]}.
Proof.
  unfold invalidate_session, force_remove_container. pose proof (live_removed (se_container_id x) w) as H.
  by destruct (remove_container _ _).
Qed.

(** *** The operations keep it *)
Lemma hp_inv_step self w self' :
  hp_inv (self, w) → hp_session self' = hp_session self → hp_active self' = hp_active self →
  hp_node_namespace self' = hp_node_namespace self →
  (hp_active self = false → hp_handles self' = ∅ ∧ hp_directories self' = ∅) →
  (∀ path c, hp_directories self' !! path = Some c → listing_ok self path (cd_entries c)) → hp_inv (self', w).
Proof.
  intros [H1 H2 H3 H4] Hs Ha Hn Hi Hc. split; cbn in *; unfold held in *; rewrite ?Hs, ?Ha; try done.
  - intros Hf. split; [by apply H3 | by apply Hi].
  - intros path c Hp. specialize (Hc _ _ Hp). unfold listing_ok, remote_node_id in *. by rewrite Hn.
Qed.

Lemma hp_inv_world self w w' : hp_inv (self, w) → live w' = live w → hp_inv (self, w').
Proof. intros [H1 H2 H3 H4] Hl. split; cbn in *; [congruence | done | done | done]. Qed.

Lemma keeps_service {A} (m : fprog W A) : quiet m → keeps hp_inv (service m) (fun _ => True).
Proof.
  intros Hm [self w] [H1 H2 H3 H4]. unfold service. cbn [snd]. specialize (Hm w). destruct (m w) as [r w']. cbn in *.
  split; [| done]. split; cbn; [congruence | done | done | done].
Qed.

Lemma keeps_self_gets {A} (f : HelperProviderCore → A) : keeps hp_inv (self_gets f) (fun _ => True).
Proof. intros s Hs. done. Qed.

Lemma keeps_session : keeps hp_inv session (fun _ => True).
Proof.
  intros [self w] Hs. pose proof Hs as [H1 H2 H3 H4]. cbn in *.
  destruct (hp_active self) eqn:Ha.
  2: { unfold session, session_check, self_gets, gets, mbind, prog_bind. cbn. by rewrite Ha. }
  destruct (hp_session self) as [x|] eqn:Hx.
  { unfold session, session_check, session_slot, self_gets, gets, mbind, prog_bind. cbn. rewrite Ha. cbn. by rewrite Hx. }
  rewrite (session_started self w Ha Hx). pose proof (live_started CancellationToken_new w) as Hst.
  assert (live w = ∅) as Hl by (rewrite H1; unfold held; by rewrite Hx).
  destruct (factory_start CancellationToken_new w) as [[x|e|p] w'].
  - destruct (se_read_only x) eqn:Hr.
    + split; [| done]. split; cbn; [rewrite Hst, Hl; unfold held; cbn; set_solver | by intros ? [= <-] | by rewrite Ha | done].
    + split; [| done]. apply (hp_inv_world self w); [done |]. rewrite live_invalidate, Hst, Hl. set_solver.
  - split; [| done]. by apply (hp_inv_world self w).
  - split; [| done]. by apply (hp_inv_world self w).
Qed.

Lemma keeps_invalidate failed error : keeps hp_inv (invalidate_failed_session failed error) (fun _ => True).
Proof.
  intros [self w] Hs. pose proof Hs as [H1 H2 H3 H4]. cbn in *. unfold invalidate_failed_session.
  destruct (invalidates_session error); cbn [negb]; [| done].
  unfold self_gets, self_update, gets, update, service, mbind, prog_bind. cbn [fst snd].
  destruct (bool_decide _); [| done]. destruct (hp_session self) as [x|] eqn:Hx.
  - pose proof (live_invalidate x w) as Hi. cbn [fst snd]. destruct (invalidate_session x w) as [r w'].
    assert (hp_active self = true) as Ha by (destruct (hp_active self); [done | destruct H3; done]).
    assert (live w' = ∅) as Hl by (cbn in Hi; rewrite Hi, H1; unfold held; rewrite Hx; set_solver).
    destruct r as [[]|e|p]; cbn; (split; [| done]); split; cbn; try done; try (by rewrite Ha);
      try (intros path c; by rewrite lookup_empty).
  - split; [| done]. apply (hp_inv_step self w); [done | by rewrite Hx | done | done | intros Hf; by apply H3 | exact H4].
Qed.

Lemma keeps_run {A} (operation : FilesystemSession → CancellationToken → fprog W A) :
  (∀ x token, quiet (operation x token)) → keeps hp_inv (run operation) (fun _ => True).
Proof.
  intros Hq. eapply keeps_bind; [apply keeps_session |]. intros x _.
  eapply keeps_bind; [apply keeps_service, Hq |]. intros r _.
  apply (keeps_bind _ _ _ (fun _ => True)).
  - destruct r; [apply keeps_ret | apply keeps_invalidate | apply keeps_ret].
  - intros [] _. eapply keeps_weaken; [apply keeps_lift | done].
Qed.

(** Programs that neither shut the provider down nor revive it. *)
Definition steady {A} (m : prog (HelperProviderCore * W) A) : Prop := ∀ s, hp_active (m s).2.1 = hp_active s.1.

Lemma steady_bind {A B} (m : prog (HelperProviderCore * W) A) (f : A → prog (HelperProviderCore * W) B) :
  steady m → (∀ a, steady (f a)) → steady (m ≫= f).
Proof.
  intros Hm Hf s. unfold mbind, prog_bind. specialize (Hm s). destruct (m s) as [[a|e|p] s']; cbn in *; [| done | done].
  by rewrite Hf.
Qed.

Lemma steady_service {A} (m : fprog W A) : steady (service m).
Proof. intros [self w]. unfold service. cbn [snd]. by destruct (m w). Qed.

Lemma steady_update f : (∀ self, hp_active (f self) = hp_active self) → steady (self_update f).
Proof. intros Hf [self w]. apply Hf. Qed.

Lemma steady_session : steady session.
Proof.
  apply steady_bind; [apply steady_bind; [done | by intros []] |].
  intros _. apply steady_bind; [done |]. intros [x|]; [done |]. apply steady_bind; [apply steady_service |]. intros r.
  apply steady_bind; [done |]. intros x. destruct (negb (se_read_only x)).
  - apply steady_bind; [apply steady_service | done].
  - apply steady_bind; [by apply steady_update | done].
Qed.

Lemma steady_invalidate failed error : steady (invalidate_failed_session failed error).
Proof.
  unfold invalidate_failed_session. destruct (invalidates_session error); cbn [negb]; [| done].
  apply steady_bind; [done |]. intros slot. destruct (bool_decide _); [| done].
  apply steady_bind; [by apply steady_update |]. intros _. destruct slot; [| done].
  apply steady_bind; [apply steady_service |]. intros _. by apply steady_update.
Qed.

Lemma steady_run {A} (operation : FilesystemSession → CancellationToken → fprog W A) : steady (run operation).
Proof.
  apply steady_bind; [apply steady_session |]. intros x. apply steady_bind; [apply steady_service |]. intros r.
  apply steady_bind; [| done]. destruct r; [done | apply steady_invalidate | done].
Qed.

(** The invariant of a provider that is in use. *)
Definition act_inv (s : HelperProviderCore * W) : Prop := hp_inv s ∧ hp_active s.1 = true.

Lemma keeps_act {A} (m : prog (HelperProviderCore * W) A) Q : keeps hp_inv m Q → steady m → keeps act_inv m Q.
Proof.
  intros Hk Hm s [Hs Ha]. destruct (Hk s Hs) as [H1 H2]. split; [| done]. split; [done |]. by rewrite Hm.
Qed.

Lemma keeps_act_run {A} (operation : FilesystemSession → CancellationToken → fprog W A) :
  (∀ x token, quiet (operation x token)) → keeps act_inv (run operation) (fun _ => True).
Proof. intros Hq. apply keeps_act; [by apply keeps_run | apply steady_run]. Qed.

Lemma keeps_act_lift {A} (r : vres A) : keeps act_inv (lift r) (fun _ => True).
Proof. intros s Hs. done. Qed.
Lemma keeps_act_gets {A} (f : HelperProviderCore → A) : keeps act_inv (self_gets f) (fun _ => True).
Proof. intros s Hs. done. Qed.

Lemma act_getattr path : keeps act_inv (core_getattr path) (fun _ => True).
Proof.
  unfold core_getattr. destruct (VirtualPath_is_root path); [apply keeps_act_gets |].
  eapply keeps_bind; [apply keeps_act_lift |]. intros token _.
  eapply keeps_bind; [apply keeps_act_run; intros; apply quiet_stat |]. intros entry _. apply keeps_act_gets.
Qed.

Lemma act_lookup parent name : keeps act_inv (core_lookup parent name) (fun _ => True).
Proof. eapply keeps_bind; [apply keeps_act_lift |]. intros q _. apply act_getattr. Qed.

Lemma act_read_link path : keeps act_inv (core_read_link path) (fun _ => True).
Proof.
  eapply keeps_bind; [apply keeps_act_lift |]. intros token _.
  eapply keeps_bind; [apply keeps_act_run; intros; apply quiet_stat |]. intros entry _.
  destruct (negb _); [apply keeps_throw |]. eapply keeps_bind; [apply keeps_act_lift |]. intros target _.
  apply keeps_act_lift.
Qed.

Lemma act_read_at handle offset size : keeps act_inv (core_read_at handle offset size) (fun _ => True).
Proof.
  unfold core_read_at. destruct (_ <? _); [apply keeps_throw |].
  eapply keeps_bind; [apply keeps_asks |]. intros opened _. eapply keeps_bind; [apply keeps_act_lift |]. intros token _.
  eapply keeps_bind; [apply keeps_act_run; intros; apply quiet_preview |]. intros result _. apply keeps_act_lift.
Qed.

Lemma act_update self w self' :
  act_inv (self, w) → hp_session self' = hp_session self → hp_active self' = true →
  hp_node_namespace self' = hp_node_namespace self →
  (∀ path c, hp_directories self' !! path = Some c → listing_ok self path (cd_entries c)) → act_inv (self', w).
Proof.
  intros [Hi Ha] H1 H2 H3 H4. cbn in Ha. split; [| done]. apply (hp_inv_step self w); [done | done | congruence | done | | done].
  by rewrite Ha.
Qed.

Lemma act_open path flags : keeps act_inv (core_open path flags) (fun _ => True).
Proof.
  unfold core_open. destruct (negb _); [apply keeps_throw |]. eapply keeps_bind; [apply act_getattr |]. intros m _.
  destruct (file_type m); try apply keeps_throw. intros [self w] Hs. split; [| done].
  apply (act_update self w); [done | done | apply Hs | done | apply Hs].
Qed.

Lemma remote_child_ok self path entry e :
  remote_child self path entry = Ok e →
  ∃ child, VirtualPath_join path (entry_name e) = Ok child ∧ node_id (entry_metadata e) = remote_node_id self child.
Proof.
  unfold remote_child. destruct (VirtualFileName_new _) as [n| |]; cbn; [| done | done].
  destruct (VirtualPath_join path n) as [child| |] eqn:E; cbn; [| done | done]. intros [= <-]. exists child.
  split; [done |]. unfold remote_metadata. cbn. by destruct (virtual_type _).
Qed.

Lemma act_read_dir path : keeps act_inv (core_read_dir path) (fun _ => True).
Proof.
  eapply keeps_bind; [apply keeps_act_gets |]. intros generation _. eapply keeps_bind; [apply keeps_gets |]. intros hit _.
  destruct hit; [apply keeps_ret |]. eapply keeps_bind; [apply keeps_act_lift |]. intros token _.
  eapply keeps_bind; [apply keeps_act_run; intros; apply quiet_list |]. intros result _.
  destruct (_ || _); [apply keeps_throw |]. intros [self w] Hs. unfold mbind, prog_bind, asks. cbn [fst].
  destruct (mapM_result _ _) as [entries|e|p] eqn:Em; [| by split | by split]. split; [| done].
  apply (act_update self w); [done | done | apply Hs | done |]. cbn. intros path' c.
  rewrite lookup_insert_Some. intros [[<- <-]|[_ Hc]]; [| by apply Hs]. cbn. split; [apply sort_by_sorted, _ |].
  rewrite (sort_by_perm entry_cmp). apply mapM_result_Ok in Em. apply list.Forall_forall. intros e He.
  apply list_elem_of_lookup in He as [i Hi]. destruct (Forall2_lookup_r _ _ _ _ _ Em Hi) as (entry & _ & Hc).
  by eapply remote_child_ok.
Qed.

Lemma act_close handle : keeps act_inv (core_close handle) (fun _ => True).
Proof.
  intros [self w] Hs. split; [| done]. apply (act_update self w); [done | done | apply Hs | done | apply Hs].
Qed.

Lemma act_refresh path : keeps act_inv (core_refresh path) (fun _ => True).
Proof.
  intros [self w] Hs. split; [| done]. cbn. destruct path as [path|]; cbn.
  - apply (act_update self w); [done | done | apply Hs | done |]. cbn. intros p c.
    rewrite map_lookup_filter_Some. intros [Hc _]. by apply Hs.
  - apply (act_update self w); [done | done | apply Hs | done |]. cbn. intros p c. by rewrite lookup_empty.
Qed.

Lemma keeps_shutdown : keeps hp_inv core_shutdown (fun _ => True).
Proof.
  intros [self w] [H1 H2 H3 H4]. unfold core_shutdown, self_update, self_gets, update, gets, mbind, prog_bind. cbn in *.
  destruct (hp_session self) as [x|] eqn:Hx.
  - unfold service. cbn [snd]. pose proof (live_invalidate x w) as Hi. destruct (invalidate_session x w) as [r w'].
    assert (live w' = ∅) as Hl by (cbn in Hi; rewrite Hi, H1; unfold held; rewrite Hx; set_solver).
    destruct r as [[]|e|p]; cbn; (split; [| done]); split; cbn; try done; intros path c; by rewrite lookup_empty.
  - split; [| done]. split; cbn; [rewrite H1; unfold held; by rewrite Hx | done | done | intros path c; by rewrite lookup_empty].
Qed.

(** *** Sequences of operations *)
Inductive helper_op : Type :=
  | Op_lookup (parent : VirtualPath) (name : VirtualFileName)
  | Op_getattr (path : VirtualPath)
  | Op_read_dir (path : VirtualPath)
  | Op_read_link (path : VirtualPath)
  | Op_open (path : VirtualPath) (flags : Z)
  | Op_read_at (handle : ProviderFileHandle) (offset size : Z)
  | Op_close (handle : ProviderFileHandle)
  | Op_refresh (path : option VirtualPath)
  | Op_shutdown.

Definition helper_step (s : HelperProviderCore * W) (op : helper_op) : HelperProviderCore * W :=
  match op with
  | Op_lookup parent name => (core_lookup parent name s).2
  | Op_getattr path => (core_getattr path s).2
  | Op_read_dir path => (core_read_dir path s).2
  | Op_read_link path => (core_read_link path s).2
  | Op_open path flags => (core_open path flags s).2
  | Op_read_at handle offset size => (core_read_at handle offset size s).2
  | Op_close handle => (core_close handle s).2
  | Op_refresh path => (core_refresh path s).2
  | Op_shutdown => (core_shutdown s).2
  end.
End invariant.

(** ** A provider that was shut down *)
Section inactive.
Context {W : Type} {FF : FuserFlags} {DX : DockerExec W} {HJ : HelperJson} {CH : Chrono}
  {SF : SessionFactory W} {CK : Clock W}.

Lemma idle_getattr path self w :
  hp_active self = false →
  ∃ r, core_getattr path (self, w) = (r, (self, w)) ∧ ∀ m, r = Ok m → file_type m = Directory.
Proof.
  intros Ha. unfold core_getattr. destruct (VirtualPath_is_root path).
  - eexists. split; [reflexivity |]. by intros m [= <-].
  - unfold mbind, prog_bind, lift. destruct (path_token path) as [t|e|p]; [| by eexists | by eexists].
    rewrite run_inactive by done. by eexists.
Qed.

Lemma idle_open path flags self w :
  hp_active self = false → ∃ r, core_open path flags (self, w) = (r, (self, w)).
Proof.
  intros Ha. unfold core_open. destruct (negb _); [by eexists |]. unfold mbind, prog_bind.
  destruct (idle_getattr path self w Ha) as (r & -> & Hr). destruct r as [m|e|p]; [| by eexists | by eexists].
  rewrite (Hr m) by done. by eexists.
Qed.

Lemma idle_read_dir path self w :
  hp_active self = false → hp_directories self = ∅ → ∃ r, core_read_dir path (self, w) = (r, (self, w)).
Proof.
  intros Ha Hd. unfold core_read_dir, self_gets, gets, mbind, prog_bind. cbn [fst snd]. unfold cached_listing. cbn [fst].
  rewrite Hd, lookup_empty. cbn [mbind option_bind]. unfold lift. destruct (path_token path) as [t|e|p]; [| by eexists | by eexists].
  rewrite run_inactive by done. by eexists.
Qed.

Lemma idle_read_link path self w : hp_active self = false → ∃ r, core_read_link path (self, w) = (r, (self, w)).
Proof.
  intros Ha. unfold core_read_link, mbind, prog_bind, lift. destruct (path_token path) as [t|e|p]; [| by eexists | by eexists].
  rewrite run_inactive by done. by eexists.
Qed.

Lemma idle_read_at handle offset size self w :
  hp_active self = false → ∃ r, core_read_at handle offset size (self, w) = (r, (self, w)).
Proof.
  intros Ha. unfold core_read_at. destruct (_ <? _); [by eexists |]. unfold mbind, prog_bind, asks, opened_file. cbn [fst].
  rewrite Ha. by eexists.
Qed.

Context {HC : HelperContainers W} {HL : HelperContainersLaws W}.

Lemma idle_step s op :
  hp_inv s → hp_active s.1 = false → hp_inv (helper_step s op) ∧ hp_active (helper_step s op).1 = false.
Proof.
  destruct s as [self w]. intros Hs Ha. pose proof (inv_inactive _ Hs Ha) as (H1 & H2 & H3). cbn in *.
  destruct op as [parent name|path|path|path|path flags|handle offset size|handle|path|]; cbn [helper_step].
  - unfold core_lookup, mbind, prog_bind, lift. destruct (VirtualPath_join parent name) as [q|e|p]; [| done | done].
    by destruct (idle_getattr q self w Ha) as (r & -> & _).
  - by destruct (idle_getattr path self w Ha) as (r & -> & _).
  - by destruct (idle_read_dir path self w Ha H3) as (r & ->).
  - by destruct (idle_read_link path self w Ha) as (r & ->).
  - by destruct (idle_open path flags self w Ha) as (r & ->).
  - by destruct (idle_read_at handle offset size self w Ha) as (r & ->).
  - split; [| done]. apply (hp_inv_step self w); [done | done | done | done | | apply Hs].
    intros _. cbn. by rewrite H2, H3, delete_empty.
  - split; [| by destruct path]. cbn. destruct path as [path|]; cbn;
      (apply (hp_inv_step self w); [done | done | done | done | |]); cbn; rewrite ?H3, ?map_filter_empty; try done;
      intros p c; by rewrite lookup_empty.
  - split; [by apply keeps_shutdown |].
    unfold core_shutdown, self_update, self_gets, update, gets, mbind, prog_bind. cbn. by rewrite H1.
Qed.

Lemma helper_step_inv s op : hp_inv s → hp_inv (helper_step s op).
Proof.
  intros Hs. destruct (hp_active s.1) eqn:Ha; [| by apply idle_step].
  assert (act_inv s) as Hact by done.
  destruct op as [parent name|path|path|path|path flags|handle offset size|handle|path|]; cbn [helper_step].
  - by apply act_lookup.
  - by apply act_getattr.
  - by apply act_read_dir.
  - by apply act_read_link.
  - by apply act_open.
  - by apply act_read_at.
  - by apply act_close.
  - by apply act_refresh.
  - by apply keeps_shutdown.
Qed.

Lemma shutdown_inactive s : hp_active (core_shutdown s).2.1 = false.
Proof.
  destruct s as [self w]. unfold core_shutdown, self_update, self_gets, update, gets, mbind, prog_bind. cbn.
  destruct (hp_session self); [| done]. unfold service. cbn. by destruct (invalidate_session _ _) as [[[]| |] ?].
Qed.

Lemma helper_steps_inv ops s : hp_inv s → hp_inv (foldl helper_step s ops).
Proof. revert s. induction ops as [|op ops IH]; intros s Hs; [done |]. cbn. by apply IH, helper_step_inv. Qed.

Lemma inactive_stays ops s :
  hp_inv s → hp_active s.1 = false → hp_active (foldl helper_step s ops).1 = false.
Proof.
  revert s. induction ops as [|op ops IH]; intros s Hs Ha; [done |]. cbn. by apply IH; apply idle_step.
Qed.

Lemma steps_after_shutdown ops s :
  hp_inv s → Op_shutdown ∈ ops → hp_active (foldl helper_step s ops).1 = false.
Proof.
  intros Hs Hin. apply list_elem_of_split in Hin as (l & k & ->). rewrite foldl_app. cbn.
  apply inactive_stays; [| apply shutdown_inactive]. apply keeps_shutdown. by apply helper_steps_inv.
Qed.
End inactive.

(** ** Properties *)

Lemma helper_steps_accounted {W : Type} {FF : FuserFlags} {DX : DockerExec W} {HJ : HelperJson} {CH : Chrono}
  {SF : SessionFactory W} {CK : Clock W} {HC : HelperContainers W} {HL : HelperContainersLaws W}
  (descriptor : ProviderDescriptor) (namespace : list byte) (ttl : Z) (w : W) (ops : list helper_op) :
  live w = ∅ →
  let s := foldl helper_step (HelperProviderCore_new descriptor namespace ttl, w) ops in
  hp_inv s ∧
  (Op_shutdown ∈ ops → live s.2 = ∅ ∧ hp_session s.1 = None ∧ hp_handles s.1 = ∅ ∧ hp_directories s.1 = ∅).
Proof.
  intros Hw s. assert (hp_inv (HelperProviderCore_new descriptor namespace ttl, w)) as Hnew.
  { split; cbn; [done | done | done |]. intros path c. by rewrite lookup_empty. }
  pose proof (helper_steps_inv ops _ Hnew) as Hs. split; [exact Hs |]. intros Hin.
  pose proof (steps_after_shutdown ops _ Hnew Hin) as Ha.
  destruct (inv_inactive _ Hs Ha) as (H1 & H2 & H3). split_and!; try done.
  fold s in H1, Hs. rewrite (inv_live _ Hs). unfold held. by rewrite H1.
Qed.

(** C12: A read of an open file is the requested range of the file in the
    container.  For a handle of the running session, when the engine executes
    the helper over its file system, [read_at] returns exactly the bytes from
    the offset up to the size or the end of the file: through the path token,
    the command line, the confinement to the browse root, the chunks on the
    wire and their reassembly; and it leaves the provider as it was. *)
Theorem remote_read_exact {W : Type} {FF : FuserFlags} {DX : DockerExec W} {HJ : HelperJson} {CH : Chrono}
  {SF : SessionFactory W} {CK : Clock W} {FS : HelperFs} {JL : HelperJsonLaws}
  (self : HelperProviderCore) (w w' : W) (x : FilesystemSession) (handle : ProviderFileHandle)
  (opened : OpenRemoteFile) (token : FilesystemPathToken) (offset size : Z) (content : list byte)
  (lines : list HelperLine) :
  hp_session self = Some x → opened_file handle self = Ok opened → path_token (orf_path opened) = Ok token →
  serves x (preview_args x (mkPreviewRequest token offset size)) MAX_EXEC_PREVIEW lines w w' →
  file_content x token content → 0 ≤ offset ≤ u64_max → 0 ≤ size ≤ MAX_REMOTE_READ_BYTES →
  core_read_at handle offset size (self, w)
  = (Ok (take (Z.to_nat size) (drop (Z.to_nat offset) content)), (self, w')).
Proof. apply core_read_at_ok. Qed.

(** C26: A directory is listed completely and in order.  When nothing is cached
    and the engine executes the helper, [read_dir] returns one entry for every
    visible name of the directory, in byte order, with the metadata the file
    system reports and the node of the child path, and caches that listing. *)
Theorem remote_listing_exact {W : Type} {FF : FuserFlags} {DX : DockerExec W} {HJ : HelperJson} {CH : Chrono}
  {SF : SessionFactory W} {CK : Clock W} {FS : HelperFs} {JL : HelperJsonLaws}
  (self : HelperProviderCore) (w w' : W) (x : FilesystemSession) (path : VirtualPath) (token : FilesystemPathToken)
  (lines : list HelperLine) (dir relative : list byte) (items : list (list byte))
  (meta : list byte → Metadata) (target : list byte → list byte) :
  hp_active self = true → hp_session self = Some x → cached_listing path (self, w) = None →
  path_token path = Ok token → serves x (list_args x (list_request token)) MAX_EXEC_STDOUT lines w w' →
  resolve_token (se_root x) (token_str token) = Ok dir → decode_token (token_str token) = Ok relative →
  directory dir items meta target → len (visible (is_empty relative) true None items) ≤ MAX_DIRECTORY_ENTRIES →
  Forall (fun name => name_ok name ∧ is_ok (VirtualPath_join path (mkVirtualFileName name)) = true) items →
  ∃ entries,
    core_read_dir path (self, w)
    = (Ok entries,
       (set_directories (<[path := mkCachedDirectory (instant_now w') (hp_generation self) entries]> (hp_directories self)) self, w')) ∧
    Forall2 (fun name e => shows self path name (child_of relative name) (meta name) (target name) e)
      (visible (is_empty relative) true None items) entries.
Proof. apply core_read_dir_ok. Qed.


(** An open file does not outlive its session.  When an operation loses the
    session (its helper timed out, its container died, an exec failed), every
    handle opened before it is refused as stale, without a call of the engine,
    however the file looks in the next session. *)
Theorem handles_die_with_session {W : Type} {FF : FuserFlags} {DX : DockerExec W} {HJ : HelperJson} {CH : Chrono}
  {SF : SessionFactory W} {CK : Clock W} (self : HelperProviderCore) (w w' : W) (x : FilesystemSession)
  (path : VirtualPath) (token : FilesystemPathToken) (error : FilesystemError)
  (handle : ProviderFileHandle) (opened : OpenRemoteFile) (offset size : Z) :
  hp_active self = true → hp_session self = Some x → VirtualPath_is_root path = false → path_token path = Ok token →
  stat x (mkStatRequest token) CancellationToken_new w = (Err error, w') → invalidates_session error = true →
  0 ≤ hp_session_epoch self < 2 ^ 64 → opened_file handle self = Ok opened → size ≤ MAX_REMOTE_READ_BYTES →
  let after := (core_getattr path (self, w)).2 in
  hp_session after.1 = None ∧ core_read_at handle offset size after = (Err Stale, after).
Proof.
  intros Ha Hs Hp Ht He Hi Hep Ho Hsz.
  assert (core_getattr path (self, w)
          = (Err (map_filesystem_error error), (dropped self, (invalidate_session x w').2))) as ->.
  { unfold core_getattr. rewrite Hp. unfold mbind at 1, prog_bind at 1. unfold lift. rewrite Ht. unfold mbind, prog_bind.
    rewrite (run_err _ self w w' x error Ha Hs He), Hi. done. }
  cbn [snd]. split; [done |]. unfold core_read_at. rewrite (proj2 (Z.ltb_ge _ _)) by lia.
  unfold mbind, prog_bind, asks. cbn [fst].
  assert (opened_file handle (dropped self) = Err Stale) as ->; [| done].
  unfold opened_file in *. cbn [dropped set_directories bump_epoch bump_generation set_session hp_active hp_handles hp_session_epoch].
  rewrite Ha in *. cbn [negb] in *. destruct (hp_handles self !! handle_id handle) as [f|]; [| done]. cbn [ok_or mbind result_bind] in *.
  destruct (bool_decide (orf_path f = handle_path handle)); cbn [negb orb] in *; [| done].
  destruct (orf_generation f =? content_generation handle); cbn [negb orb] in *; [| done].
  destruct (Z.eqb_spec (orf_generation f) (hp_session_epoch self)) as [Hg|]; [| done].
  rewrite (proj2 (Z.eqb_neq _ _)); [done |]. unfold wrapping_add. rewrite Hg.
  destruct (decide (hp_session_epoch self + 1 = 2 ^ 64)) as [Hw|Hw].
  - rewrite Hw, Z_mod_same_full. lia.
  - rewrite Z.mod_small by lia. lia.
Qed.

(** A session can be started after the provider was shut down.  [session]
    checks that the provider is active before it waits for the lock of the
    slot: an operation that passed the check while a shutdown ran finds the
    slot empty, starts a new helper container and leaves it there, and no later
    operation than another shutdown removes it. *)
Theorem late_session_survives {W : Type} {FF : FuserFlags} {DX : DockerExec W} {HJ : HelperJson} {CH : Chrono}
  {SF : SessionFactory W} {CK : Clock W} (self : HelperProviderCore) (w w' : W) (x : FilesystemSession) :
  hp_active self = true → hp_session self = None →
  factory_start CancellationToken_new w = (Ok x, w') → se_read_only x = true →
  let checked := session_check (self, w) in
  let down := core_shutdown checked.2 in
  let late := session_slot down.2 in
  checked.1 = Ok tt ∧ down.1 = Ok tt ∧ late.1 = Ok x ∧ hp_active late.2.1 = false ∧
  hp_session late.2.1 = Some x ∧ late.2.2 = w'.
Proof.
  intros Ha Hs Hf Hr. unfold session_check, core_shutdown, session_slot, self_update, self_gets, update, gets, service, mbind, prog_bind.
  cbn. rewrite Ha. cbn. rewrite Hs. cbn. rewrite Hf. cbn. rewrite Hr. done.
Qed.

(** ** Examples *)
Definition sample_session : FilesystemSession :=
  mkFilesystemSession (bytes "c1") (bytes "tuxstack-fs-helper-1") (Source_Volume (bytes "data")) (bytes "/r")
    (bytes "/usr/bin/tuxstack-fs-helper") 1 (bytes "1") true 0.

#[local] Existing Instance bits_json.
#[local] Existing Instance bits_json_laws.
#[local] Instance sample_engine : DockerExec (list text * gset text) := helper_engine (FS := sample_fs).
#[local] Instance sample_factory : SessionFactory (list text * gset text) := {
  factory_start _ w := (Ok sample_session, (w.1, {[bytes "c1"]} ∪ w.2));
}.
#[local] Instance sample_clock : Clock (list text * gset text) := { instant_now _ := 0 }.
#[local] Instance sample_containers : HelperContainers (list text * gset text) := { live := snd }.
#[local] Instance sample_containers_laws : HelperContainersLaws (list text * gset text).
Proof. split; done. Qed.

Definition sample_descriptor : ProviderDescriptor :=
  mkProviderDescriptor NamedVolumeLive Live (Some "data"%string) Capabilities.READ_ONLY.
Definition sample_core : HelperProviderCore :=
  set_session (Some sample_session) (HelperProviderCore_new sample_descriptor (bytes "volume") HELPER_DIRECTORY_TTL).
Definition motd_path : VirtualPath := sample_path "/motd".
Definition sample_handle : ProviderFileHandle := mkProviderFileHandle 1 motd_path 1.
Definition opened_core : HelperProviderCore := set_open_files {[1 := mkOpenRemoteFile motd_path 1]} 2 sample_core.
Definition motd_token : FilesystemPathToken := mkFilesystemPathToken (bytes "v1:bW90ZA==").

Lemma remote_read_exact_witness :
  (core_read_at sample_handle 1 3 (opened_core, ([], {[bytes "c1"]}))).1 = Ok (bytes "ell").
Proof.
  erewrite (remote_read_exact (FS := sample_fs) opened_core ([], {[bytes "c1"]}) _ sample_session sample_handle
              (mkOpenRemoteFile motd_path 1) motd_token 1 3 (bytes "hello")).
  - reflexivity.
  - reflexivity.
  - vm_compute. reflexivity.
  - vm_compute. reflexivity.
  - eapply (helper_engine_serves (FS := sample_fs) _ _ _ _ 0); [vm_compute; reflexivity |].
    repeat constructor; vm_compute; discriminate.
  - exists (bytes "/r/motd"), [bytes "r"; bytes "motd"], (sample_md FtFile 5), [3; 3; 3; 3; 3]%nat.
    split_and!; try (vm_compute; reflexivity); try (vm_compute; discriminate). repeat constructor.
  - split; vm_compute; discriminate.
  - split; vm_compute; discriminate.
Defined.

Definition sample_meta (name : list byte) : Metadata :=
  if bool_decide (name = bytes "up") then sample_md FtSymlink 10 else sample_md FtFile 5.

Lemma remote_listing_exact_witness :
  ∃ entries, (core_read_dir VirtualPath_root (sample_core, ([], {[bytes "c1"]}))).1 = Ok entries ∧
             (fun e => VirtualFileName_as_bytes (entry_name e)) <$> entries = [bytes "motd"; bytes "up"].
Proof.
  destruct (remote_listing_exact (FS := sample_fs) sample_core ([], {[bytes "c1"]})
              (se_helper_path sample_session :: list_args sample_session (list_request (mkFilesystemPathToken (bytes "v1:"))),
               {[bytes "c1"]})
              sample_session VirtualPath_root (mkFilesystemPathToken (bytes "v1:"))
              ((fun m => mkHelperLine m []) <$>
               (list_run (FS := sample_fs) (list_flags sample_session (list_request (mkFilesystemPathToken (bytes "v1:"))))).1)
              (bytes "/r") [] [bytes "up"; bytes "motd"] sample_meta (fun _ => bytes "/r2/secret"))
    as (entries & -> & Hf).
  - reflexivity.
  - reflexivity.
  - reflexivity.
  - vm_compute. reflexivity.
  - apply (helper_engine_serves (FS := sample_fs) sample_session _ _ _ 0); [vm_compute; reflexivity |].
    repeat constructor; vm_compute; discriminate.
  - vm_compute. reflexivity.
  - vm_compute. reflexivity.
  - split.
    + exists (sample_md FtDirectory 0). split; reflexivity.
    + reflexivity.
    + apply (bool_decide_unpack _). vm_compute. exact I.
    + apply (bool_decide_unpack _). vm_compute. exact I.
    + repeat constructor; vm_compute; done.
  - vm_compute. discriminate.
  - repeat constructor; try (vm_compute; reflexivity); apply (bool_decide_unpack _); vm_compute; exact I.
  - exists entries. split; [reflexivity |]. rewrite (shown_names _ _ _ _ _ _ _ Hf). vm_compute. reflexivity.
Defined.

Definition empty_world : list text * gset text := ([], ∅).


(** An engine whose execs do not finish in time. *)
Definition stuck_engine : DockerExec (list text * gset text) := {|
  create_exec _ cmd _ w := (inl (bytes "exec"), w);
  start_exec _ _ w := (None, w);
  remove_container id w := (Some (inl tt), (w.1, w.2 ∖ {[id]}));
  list_containers _ w := (Some (inl []), w);
|}.

Lemma handles_die_with_session_witness :
  (core_read_at (DX := stuck_engine) sample_handle 0 5
     (core_getattr (DX := stuck_engine) (sample_path "/other") (opened_core, ([], {[bytes "c1"]}))).2).1 = Err Stale.
Proof.
  destruct (handles_die_with_session (DX := stuck_engine) opened_core ([], {[bytes "c1"]}) ([], {[bytes "c1"]}) sample_session
              (sample_path "/other") (mkFilesystemPathToken (bytes "v1:b3RoZXI=")) FE_Timeout sample_handle
              (mkOpenRemoteFile motd_path 1) 0 5) as [_ H].
  1-6: vm_compute; reflexivity.
  - split; vm_compute; [discriminate | reflexivity].
  - vm_compute; reflexivity.
  - vm_compute; discriminate.
  - by rewrite H.
Defined.

Lemma late_session_survives_witness :
  hp_session (session_slot (core_shutdown (session_check
    (HelperProviderCore_new sample_descriptor (bytes "volume") HELPER_DIRECTORY_TTL, empty_world)).2).2).2.1
  = Some sample_session.
Proof.
  destruct (late_session_survives (HelperProviderCore_new sample_descriptor (bytes "volume") HELPER_DIRECTORY_TTL)
    empty_world (empty_world.1, {[bytes "c1"]} ∪ empty_world.2) sample_session) as (_ & _ & _ & _ & H & _);
    [reflexivity | reflexivity | reflexivity | reflexivity | exact H].
Defined.
