(* ===== verification/HelperSession.v ===== *)
(** Starting helper containers
    (crates/docker-core/src/services/filesystem/volume_provider.rs and
    image_provider.rs, and the bind helper of vfs_providers/helper_bind.rs): the
    archives that carry the helper binary into Docker, the configuration of the
    containers, and the sequence of calls that ends in a session.

    The Docker API, the embedded binaries and the build's constants are
    parameters. *)

From S2P Require Import Prelude Error Path Numbers Text Utf8 FsProtocol TarIndex TarReader FsHelper DockerError FsClient.
From S2P Require Sha256.

Local Open Scope Z_scope.

(** ** Archives *)

(** The number of octal digits of a value. *)
Definition octal_width (value : Z) : nat :=
  if value <=? 0 then 1%nat else S (Z.to_nat (Z.log2 value / 3)).

(** [format!("{value:0width$o}")] *)
Definition octal_format (width : nat) (value : Z) : list byte := octal_digits (Nat.max width (octal_width value)) value.

(** [write_octal] of a field of [n] bytes: the digits and a NUL, which panics
    when they do not fit. *)
Definition write_octal_field (n : nat) (value : Z) : fres (list byte) :=
  let octal := octal_format (n - 1) value in
  if (n <=? length octal)%nat then Panic "index out of bounds" else Ok (octal ++ ["000"%byte]).

(** [header[i..i + bs.len()].copy_from_slice(bs)] *)
Definition put (i : nat) (bs header : list byte) : list byte := take i header ++ bs ++ drop (i + length bs) header.

Definition write_ustar_header (name : text) (mode size : Z) (is_dir : bool) : fres (list byte) :=
  let header := put 0 (take 100 name) (replicate 512 "000"%byte) in
  mode ← write_octal_field 8 mode;
  let header := put 100 mode header in
  uid ← write_octal_field 8 0;
  let header := put 108 uid header in
  gid ← write_octal_field 8 0;
  let header := put 116 gid header in
  size ← write_octal_field 12 (if is_dir then 0 else size);
  let header := put 124 size header in
  mtime ← write_octal_field 12 0;
  let header := put 136 mtime header in
  let header := put 148 (replicate 8 " "%byte) header in
  let header := put 156 [if is_dir then "5"%byte else "0"%byte] header in
  let header := put 257 (bytes "ustar" ++ ["000"%byte]) header in
  let header := put 263 (bytes "00") header in
  checksum ← write_octal_field 8 (byte_sum header);
  Ok (put 148 checksum header).

(** [(512 - (len % 512)) % 512] zeros *)
Definition block_padding (data : list byte) : list byte :=
  replicate (Z.to_nat ((512 - len data mod 512) mod 512)) "000"%byte.
Definition end_of_archive : list byte := replicate 1024 "000"%byte.

(** The archive that is uploaded into a container of an image. *)
Definition build_helper_archive (helper_binary : list byte) : fres (list byte) :=
  directory ← write_ustar_header (bytes ".tuxstack/") 493 0 true;
  header ← write_ustar_header (bytes ".tuxstack/tuxstack-fs-helper") 493 (len helper_binary) false;
  Ok (directory ++ header ++ helper_binary ++ block_padding helper_binary ++ end_of_archive).

(** The only layer of the helper image. *)
Definition build_layer_tar (helper_binary : list byte) : fres (list byte) :=
  directory ← write_ustar_header (bytes "usr/bin/") 493 0 true;
  header ← write_ustar_header (bytes "usr/bin/tuxstack-fs-helper") 493 (len helper_binary) false;
  Ok (directory ++ header ++ helper_binary ++ block_padding helper_binary ++ end_of_archive).

Definition write_tar_entry (name : text) (data : list byte) : fres (list byte) :=
  header ← write_ustar_header name 420 (len data) false;
  Ok (header ++ data ++ block_padding data).

(** [sha256_hex]: the crate repeats the hand-written SHA-256 of the helper, and
    hashes its input in one piece. *)
Definition sha256_hex (data : list byte) : fres text :=
  match h ← Sha256.update Sha256.Sha256_new data; Sha256.finish h with
  | Ok digest => Ok (hex digest)
  | Err _ => Panic "sha256"
  | Panic s => Panic s
  end.

(** ** The build *)
Class HelperBuild := {
  ARCH : text;
  CARGO_PKG_VERSION : text;
  (** the binaries that were embedded, by architecture *)
  helper_x86_64 : option (list byte);
  helper_aarch64 : option (list byte);
}.

Definition HELPER_IMAGE_PATH : text := bytes "/usr/bin/tuxstack-fs-helper".
Definition INJECTED_HELPER_PATH : text := bytes "/.tuxstack/tuxstack-fs-helper".
Definition MOUNT_PATH : text := bytes "/mnt/data".
Definition SOURCE_TARGET : text := bytes "/source".
Definition LABEL_MANAGED : text := bytes "io.github.tuxstack.managed".
Definition LABEL_PURPOSE : text := bytes "io.github.tuxstack.purpose".
Definition LABEL_DAEMON_INSTANCE : text := bytes "io.github.tuxstack.daemon-instance".
Definition LABEL_SESSION : text := bytes "io.github.tuxstack.session".
Definition PURPOSE_VALUE : text := bytes "filesystem-helper".
Definition PURPOSE_BIND_FILES : text := bytes "bind-files".

(** The labels of a container, a [HashMap] collected in order. *)
Definition collect_labels (labels : list (text * text)) : gmap text text :=
  foldl (fun m kv => <[kv.1 := kv.2]> m) ∅ labels.

Section build.
Context {HB : HelperBuild}.

(** [helper_binary_for_host] and [helper_bytes_for_arch] *)
Definition helper_bytes_for_arch (arch : text) : option (list byte) :=
  if code_in arch ["x86_64"; "amd64"]%string then helper_x86_64
  else if code_in arch ["aarch64"; "arm64"]%string then helper_aarch64
  else None.
Definition helper_binary_for_host : option (list byte) := helper_bytes_for_arch ARCH.

Definition helper_image_tag : text := bytes "tuxstack.internal/fs-helper:1-" ++ ARCH.

(** A double quote. *)
Definition q : text := [of_u8 34].
Definition quoted (s : text) : text := q ++ s ++ q.

Definition image_config (layer_sha : text) : text :=
  bytes "{" ++ quoted (bytes "architecture") ++ bytes ":" ++ quoted ARCH
  ++ bytes "," ++ quoted (bytes "os") ++ bytes ":" ++ quoted (bytes "linux")
  ++ bytes "," ++ quoted (bytes "config") ++ bytes ":{" ++ quoted (bytes "Entrypoint") ++ bytes ":["
  ++ quoted HELPER_IMAGE_PATH ++ bytes "]," ++ quoted (bytes "Cmd") ++ bytes ":[" ++ quoted (bytes "hold") ++ bytes "]}"
  ++ bytes "," ++ quoted (bytes "rootfs") ++ bytes ":{" ++ quoted (bytes "type") ++ bytes ":" ++ quoted (bytes "layers")
  ++ bytes "," ++ quoted (bytes "diff_ids") ++ bytes ":[" ++ quoted (bytes "sha256:" ++ layer_sha) ++ bytes "]}"
  ++ bytes "," ++ quoted (bytes "history") ++ bytes ":[{" ++ quoted (bytes "created") ++ bytes ":"
  ++ quoted (bytes "1970-01-01T00:00:00Z") ++ bytes "," ++ quoted (bytes "comment") ++ bytes ":"
  ++ quoted (bytes "tuxstack filesystem helper v" ++ CARGO_PKG_VERSION) ++ bytes "}]"
  ++ bytes "," ++ quoted (bytes "config_env") ++ bytes ":["
  ++ quoted (bytes "PATH=/usr/local/sbin:/usr/local/bin:/usr/sbin:/usr/bin:/sbin:/bin") ++ bytes "]}".

Definition image_manifest (config_sha layer_sha : text) : text :=
  bytes "[{" ++ quoted (bytes "Config") ++ bytes ":" ++ quoted (config_sha ++ bytes ".json")
  ++ bytes "," ++ quoted (bytes "RepoTags") ++ bytes ":[" ++ quoted helper_image_tag ++ bytes "]"
  ++ bytes "," ++ quoted (bytes "Layers") ++ bytes ":[" ++ quoted (layer_sha ++ bytes ".tar") ++ bytes "]}]".

Definition image_repositories (config_sha : text) : text :=
  bytes "{" ++ quoted helper_image_tag ++ bytes ":[" ++ quoted config_sha ++ bytes "]}".

(** The archive given to [docker load]. *)
Definition build_load_tar (helper_binary : list byte) : fres (list byte) :=
  layer ← build_layer_tar helper_binary;
  layer_sha ← sha256_hex layer;
  let config := image_config layer_sha in
  config_sha ← sha256_hex config;
  manifest ← write_tar_entry (bytes "manifest.json") (image_manifest config_sha layer_sha);
  config ← write_tar_entry (config_sha ++ bytes ".json") config;
  layer ← write_tar_entry (layer_sha ++ bytes ".tar") layer;
  repositories ← write_tar_entry (bytes "repositories") (image_repositories config_sha);
  Ok (manifest ++ config ++ layer ++ repositories ++ end_of_archive).
End build.

(** ** Containers *)
Inductive MountType : Type := VOLUME | BIND.
Record Mount := mkMount {
  mount_typ : MountType;
  mount_source : text;
  mount_target : text;
  mount_read_only : bool;
}.

(** The fields of [ContainerCreateBody] and its [HostConfig] that are set. *)
Record HelperContainer := mkHelperContainer {
  hc_name : text;
  hc_image : text;
  hc_entrypoint : list text;
  hc_cmd : list text;
  hc_user : text;
  hc_working_dir : option text;
  hc_labels : gmap text text;
  hc_network_mode : text;
  hc_privileged : option bool;
  hc_memory : Z;
  hc_nano_cpus : Z;
  hc_pids_limit : Z;
  hc_readonly_rootfs : bool;
  hc_security_opt : list text;
  hc_cap_drop : list text;
  hc_auto_remove : bool;
  hc_mounts : list Mount;
  hc_nofile : Z * Z;
}.

Record ImageInspect := mkImageInspect { ii_os : option text; ii_architecture : option text }.

Class DockerHelpers (W : Type) := {
  inspect_image : text → W → option (ImageInspect + BollardError) * W;
  import_image : list byte → W → (() + BollardError) * W;
  create_container : HelperContainer → W → option (text + BollardError) * W;
  upload_to_container : text → text → list byte → W → (() + BollardError) * W;
  start_container : text → W → option (() + BollardError) * W;
  (** [Uuid::new_v4] and [Utc::now] *)
  new_uuid : W → text * W;
  utc_now : W → Z;
}.

Section sessions.
Context {W : Type} {HB : HelperBuild} {DH : DockerHelpers W} {DX : DockerExec W} {HJ : HelperJson}.

Definition fuuid : fprog W text := fun w => let '(id, w) := new_uuid w in (Ok id, w).
Definition fnow : fprog W Z := fun w => (Ok (utc_now w), w).

Definition ensure_helper_image : fprog W () := fun w =>
  let '(r, w) := inspect_image helper_image_tag w in
  match r with
  | Some (inl _) => (Ok tt, w)
  | None => (Err FE_Timeout, w)
  | Some (inr _) =>
      (helper_bytes ← flift (ok_or (FE_HelperBinaryUnavailable (bytes "host architecture not supported")) helper_binary_for_host);
       image_tar ← flift (build_load_tar helper_bytes);
       api_call (fun error => FE_HelperImageLoadFailed (be_display error)) (import_image image_tar)) w
  end.

(** The handshake of a started container.  When it fails the removal of the
    container is spawned; it is taken to run next. *)
Definition shake_hands (session : FilesystemSession) (cancellation : CancellationToken) : fprog W FilesystemSession :=
  fun w =>
  match hello session cancellation w with
  | (Ok helper_version, w) =>
      (Ok (mkFilesystemSession (se_container_id session) (se_container_name session) (se_source session) (se_root session)
             (se_helper_path session) (se_protocol_version session) helper_version (se_read_only session)
             (se_created_at session)), w)
  | (Err e, w) => (Err e, (invalidate_session session w).2)
  | (Panic p, w) => (Panic p, w)
  end.

Definition volume_labels (volume_name : text) : gmap text text :=
  collect_labels [(LABEL_MANAGED, bytes "true"); (LABEL_PURPOSE, PURPOSE_VALUE); (volume_name, bytes "true")].

Definition volume_container (name volume_name : text) : HelperContainer :=
  {| hc_name := name; hc_image := helper_image_tag; hc_entrypoint := [HELPER_IMAGE_PATH]; hc_cmd := [bytes "hold"];
     hc_user := bytes "0"; hc_working_dir := None; hc_labels := volume_labels volume_name;
     hc_network_mode := bytes "none"; hc_privileged := None; hc_memory := 128 * 1024 * 1024;
     hc_nano_cpus := 250000000; hc_pids_limit := 32; hc_readonly_rootfs := true;
     hc_security_opt := [bytes "no-new-privileges:true"]; hc_cap_drop := [bytes "ALL"]; hc_auto_remove := false;
     hc_mounts := [mkMount VOLUME volume_name MOUNT_PATH true]; hc_nofile := (1024, 1024) |}.

(** [volume_provider::create_session] *)
Definition create_volume_session (volume_name : text) (cancellation : CancellationToken) : fprog W FilesystemSession :=
  ensure_helper_image;;
  session_id ← fuuid;
  let container_name := bytes "tuxstack-fs-helper-" ++ session_id in
  id ← timed_call (fun error => FE_HelperContainerCreateFailed (be_display error))
         (create_container (volume_container container_name volume_name));
  timed_call (fun error => FE_HelperContainerStartFailed (be_display error)) (start_container id);;
  now ← fnow;
  shake_hands
    (mkFilesystemSession id container_name (Source_Volume volume_name) MOUNT_PATH HELPER_IMAGE_PATH
       FS_HELPER_PROTOCOL_VERSION [] true now) cancellation.

Definition image_container (name image_id : text) : HelperContainer :=
  {| hc_name := name; hc_image := image_id; hc_entrypoint := [INJECTED_HELPER_PATH]; hc_cmd := [bytes "hold"];
     hc_user := bytes "0"; hc_working_dir := Some (bytes "/");
     hc_labels := collect_labels [(LABEL_MANAGED, bytes "true"); (LABEL_PURPOSE, PURPOSE_VALUE); (image_id, bytes "true")];
     hc_network_mode := bytes "none"; hc_privileged := None; hc_memory := 128 * 1024 * 1024;
     hc_nano_cpus := 250000000; hc_pids_limit := 32; hc_readonly_rootfs := false;
     hc_security_opt := [bytes "no-new-privileges:true"]; hc_cap_drop := [bytes "ALL"]; hc_auto_remove := false;
     hc_mounts := []; hc_nofile := (1024, 1024) |}.

(** [image_provider::create_session] *)
Definition create_image_session (image_id : text) (cancellation : CancellationToken) : fprog W FilesystemSession :=
  inspect ← timed_call (fun error =>
    let text := to_ascii_lowercase (be_display error) in
    if has text "not found" || has text "no such image" then FE_ImageNotFound image_id
    else FE_ExecFailed (be_display error)) (inspect_image image_id);
  let os := default (bytes "linux") (ii_os inspect) in
  if negb (text_is os "linux") then fthrow (FE_UnsupportedPlatform (bytes "image operating system is " ++ os))
  else
    let arch := default (bytes "amd64") (ii_architecture inspect) in
    let platform := os ++ bytes "/" ++ arch in
    helper_bytes ← flift (ok_or (FE_HelperBinaryUnavailable (bytes "no helper binary for architecture " ++ arch))
                            (helper_bytes_for_arch arch));
    tar ← flift (build_helper_archive helper_bytes);
    session_id ← fuuid;
    let container_name := bytes "tuxstack-fs-helper-" ++ session_id in
    id ← timed_call (fun error =>
           if has (to_ascii_lowercase (be_display error)) "no such image" then FE_ImageNotFound image_id
           else FE_HelperContainerCreateFailed (be_display error))
         (create_container (image_container container_name image_id));
    api_call (fun error => FE_HelperImageLoadFailed (be_display error)) (upload_to_container id (bytes "/") tar);;
    timed_call (fun error => FE_HelperContainerStartFailed (be_display error)) (start_container id);;
    now ← fnow;
    shake_hands
      (mkFilesystemSession id container_name (Source_Image image_id platform) (bytes "/") INJECTED_HELPER_PATH
         FS_HELPER_PROTOCOL_VERSION [] false now) cancellation.

(** *** Bind mounts *)
Definition helper_labels (daemon_instance session_id : text) : gmap text text :=
  collect_labels [(LABEL_MANAGED, bytes "true"); (LABEL_PURPOSE, PURPOSE_BIND_FILES);
                  (LABEL_DAEMON_INSTANCE, daemon_instance); (LABEL_SESSION, session_id)].

(** [hardened_host_config] in the body of [create_bind_session] *)
Definition bind_container (name source_root daemon_instance session_id : text) : HelperContainer :=
  {| hc_name := name; hc_image := helper_image_tag; hc_entrypoint := [HELPER_IMAGE_PATH]; hc_cmd := [bytes "hold"];
     hc_user := bytes "0"; hc_working_dir := None; hc_labels := helper_labels daemon_instance session_id;
     hc_network_mode := bytes "none"; hc_privileged := Some false; hc_memory := 128 * 1024 * 1024;
     hc_nano_cpus := 250000000; hc_pids_limit := 32; hc_readonly_rootfs := true;
     hc_security_opt := [bytes "no-new-privileges:true"]; hc_cap_drop := [bytes "ALL"]; hc_auto_remove := false;
     hc_mounts := [mkMount BIND (from_utf8_lossy source_root) SOURCE_TARGET true]; hc_nofile := (1024, 1024) |}.

(** A step after which a failure removes the container, [let _ = invalidate_session(..)]. *)
Definition or_remove {A} (provisional : FilesystemSession) (m : fprog W A) : fprog W A := fun w =>
  match m w with
  | (Err e, w) => (Err e, (invalidate_session provisional w).2)
  | r => r
  end.

Definition create_bind_session (source_root daemon_instance : text) (cancellation : CancellationToken)
  : fprog W FilesystemSession :=
  (match poll_cancel cancellation with None => fthrow FE_Cancelled | Some _ => mret tt end);;
  ensure_helper_image;;
  session_id ← fuuid;
  let container_name := bytes "tuxstack-bind-helper-" ++ session_id in
  id ← timed_call (fun error => FE_HelperContainerCreateFailed (be_display error))
         (create_container (bind_container container_name source_root daemon_instance session_id));
  now ← fnow;
  let provisional :=
    mkFilesystemSession id container_name (Source_Volume (bytes "bind:" ++ from_utf8_lossy source_root)) SOURCE_TARGET
      HELPER_IMAGE_PATH FS_HELPER_PROTOCOL_VERSION [] true now in
  or_remove provisional
    (timed_call (fun error => FE_HelperContainerStartFailed (be_display error)) (start_container id));;
  shake_hands provisional (default None (poll_cancel cancellation)).

(** [labels.get(..) != Some(..)] of an orphan of this daemon instance. *)
Definition is_bind_helper (daemon_instance : text) (container : ListedContainer) : bool :=
  let labels := default ∅ (lc_labels container) in
  bool_decide (labels !! LABEL_MANAGED = Some (bytes "true"))
  && bool_decide (labels !! LABEL_PURPOSE = Some PURPOSE_BIND_FILES)
  && bool_decide (labels !! LABEL_DAEMON_INSTANCE = Some daemon_instance)
  && bool_decide (is_Some (labels !! LABEL_SESSION)).

Fixpoint remove_bind_helpers (daemon_instance : text) (containers : list ListedContainer) (removed : Z) : fprog W Z :=
  match containers with
  | [] => mret removed
  | container :: containers =>
      if negb (is_bind_helper daemon_instance container) then remove_bind_helpers daemon_instance containers removed
      else
        match lc_id container with
        | None => remove_bind_helpers daemon_instance containers removed
        | Some id =>
            force_remove_container id;;
            remove_bind_helpers daemon_instance containers (removed + 1)
        end
  end.
End sessions.

(** ** The archives are tar archives *)
Lemma octal_width_le value k : (1 ≤ k)%nat → 0 ≤ value < 8 ^ Z.of_nat k → (octal_width value ≤ k)%nat.
Proof.
  intros Hk [H0 Hv]. unfold octal_width. destruct (Z.leb_spec value 0); [lia |].
  change 8 with (2 ^ 3) in Hv. rewrite <- Z.pow_mul_r in Hv by lia.
  apply Z.log2_lt_pow2 in Hv; [| lia]. pose proof (Z.log2_nonneg value).
  assert (Z.log2 value / 3 < Z.of_nat k) by (apply Z.div_lt_upper_bound; lia).
  assert (0 ≤ Z.log2 value / 3) by (apply Z.div_pos; lia). lia.
Qed.

Lemma write_octal_field_ok n value :
  (2 ≤ n)%nat → 0 ≤ value < 8 ^ Z.of_nat (n - 1) → write_octal_field n value = Ok (write_octal n value).
Proof.
  intros Hn Hv. unfold write_octal_field, octal_format, write_octal.
  rewrite Nat.max_l by (apply octal_width_le; [lia | done]). rewrite octal_digits_length.
  destruct (Nat.leb_spec n (n - 1)); [lia | done].
Qed.

Lemma put_field (a b c d : list byte) i :
  i = length a → length c = length b → put i b (a ++ c ++ d) = a ++ b ++ d.
Proof.
  intros -> Hl. unfold put. rewrite take_app_length, <- Hl.
  by rewrite (app_assoc a c d), <- length_app, drop_app_length.
Qed.

(** The header of a file or directory as the builders write it. *)
Definition ustar (name : text) (mode size : Z) (is_dir : bool) : RawHeader :=
  mkRawHeader name None (if is_dir then "5"%byte else "0"%byte) (if is_dir then TDirectory else TRegularFile)
    (if is_dir then 0 else size) mode 0 0 0 None None.

Lemma ustar_fits name mode size is_dir :
  name ≠ [] → "000"%byte ∉ name → (length name ≤ 100)%nat → 0 ≤ mode < 8 ^ 7 → 0 ≤ size < 8 ^ 11 →
  header_fits (ustar name mode size is_dir).
Proof.
  intros. split; cbn; [done | done | by destruct is_dir | | done]. destruct is_dir; lia.
Qed.

Lemma write_ustar_header_ok name mode size is_dir :
  header_fits (ustar name mode size is_dir) → 0 ≤ size →
  write_ustar_header name mode size is_dir = Ok (tar_header (ustar name mode size is_dir)).
Proof.
  intros Hf Hsz. pose proof (hf_numbers _ Hf) as (Hm & _ & _ & Hs & _). pose proof (hf_path _ Hf) as (_ & _ & Hn).
  cbn in Hm, Hs, Hn. unfold write_ustar_header. rewrite !write_octal_field_ok by (lia || done). cbn [mbind result_bind].
  rewrite (take_ge name 100) by lia. set (flag := if is_dir then "5"%byte else "0"%byte).
  set (size' := if is_dir then 0 else size) in *.
  assert (put 0 name (replicate 512 "000"%byte)
          = padded 100 name ++ replicate 8 "000"%byte ++ replicate 8 "000"%byte ++ replicate 8 "000"%byte ++ replicate 12 "000"%byte
            ++ replicate 12 "000"%byte ++ replicate 8 "000"%byte ++ replicate 1 "000"%byte ++ replicate 100 "000"%byte
            ++ replicate 6 "000"%byte ++ replicate 2 "000"%byte ++ replicate 247 "000"%byte) as ->.
  { unfold put, padded. rewrite take_0, app_nil_l, Nat.add_0_l, <- app_assoc. apply (f_equal (app name)).
    rewrite drop_replicate, <- !replicate_add. apply (f_equal (fun n => replicate n "000"%byte)). lia. }
  assert (length (padded 100 name) = 100%nat) as Hp by (by apply padded_length).
  assert (∀ v, length (write_octal 8 v) = 8%nat) as H8 by (intros; apply write_octal_length; lia).
  assert (∀ v, length (write_octal 12 v) = 12%nat) as H12 by (intros; apply write_octal_length; lia).
  assert (∀ n : nat, length (replicate n "000"%byte) = n) as Hr by (intros; apply length_replicate).
  set (zero8 := replicate 8 "000"%byte). set (zero12 := replicate 12 "000"%byte).
  set (m := write_octal 8 mode). set (o := write_octal 8 0). set (sz := write_octal 12 size'). set (t := write_octal 12 0).
  rewrite (put_field (padded 100 name) m); [| by rewrite Hp | by unfold m; rewrite H8].
  rewrite (app_assoc (padded 100 name) m), (put_field (padded 100 name ++ m) o);
    [| unfold m; rewrite length_app, Hp, H8; done | by unfold o; rewrite H8].
  rewrite (app_assoc _ o), (put_field ((padded 100 name ++ m) ++ o) o);
    [| unfold m, o; rewrite !length_app, Hp, !H8; done | by unfold o; rewrite H8].
  rewrite (app_assoc _ o), (put_field (((padded 100 name ++ m) ++ o) ++ o) sz);
    [| unfold m, o; rewrite !length_app, Hp, !H8; done | by unfold sz; rewrite H12].
  rewrite (app_assoc _ sz), (put_field ((((padded 100 name ++ m) ++ o) ++ o) ++ sz) t);
    [| unfold m, o, sz; rewrite !length_app, Hp, !H8, H12; done | by unfold t; rewrite H12].
  set (front := ((((padded 100 name ++ m) ++ o) ++ o) ++ sz) ++ t).
  assert (length front = 148%nat) as Hfront
    by (unfold front, m, o, sz, t; rewrite !length_app, Hp, !H8, !H12; done).
  rewrite (app_assoc _ t). fold front. rewrite (put_field front (replicate 8 " "%byte)); [| by rewrite Hfront | done].
  rewrite (app_assoc front), (put_field (front ++ replicate 8 " "%byte) [flag]); [| rewrite length_app, Hfront; done | done].
  rewrite (app_assoc _ [flag]).
  replace (put 257 (bytes "ustar" ++ ["000"%byte]) _)
    with (((front ++ replicate 8 " "%byte) ++ [flag]) ++ replicate 100 "000"%byte ++ (bytes "ustar" ++ ["000"%byte])
          ++ replicate 2 "000"%byte ++ replicate 247 "000"%byte).
  2: { symmetry. rewrite (app_assoc ((front ++ replicate 8 " "%byte) ++ [flag]) (replicate 100 "000"%byte)).
       rewrite (put_field (((front ++ replicate 8 " "%byte) ++ [flag]) ++ replicate 100 "000"%byte)); [by rewrite <- app_assoc | | done].
       rewrite !length_app, Hfront. done. }
  replace (put 263 (bytes "00") _)
    with (((front ++ replicate 8 " "%byte) ++ [flag]) ++ replicate 100 "000"%byte ++ (bytes "ustar" ++ ["000"%byte])
          ++ bytes "00" ++ replicate 247 "000"%byte).
  2: { symmetry. rewrite (app_assoc ((front ++ replicate 8 " "%byte) ++ [flag]) (replicate 100 "000"%byte)).
       rewrite (app_assoc _ (bytes "ustar" ++ ["000"%byte])).
       rewrite (put_field ((((front ++ replicate 8 " "%byte) ++ [flag]) ++ replicate 100 "000"%byte) ++ (bytes "ustar" ++ ["000"%byte])));
         [by rewrite <- !app_assoc | | done]. rewrite !length_app, Hfront. done. }
  set (back := [flag] ++ replicate 100 "000"%byte ++ (bytes "ustar" ++ ["000"%byte]) ++ bytes "00" ++ replicate 247 "000"%byte).
  assert (∀ c, concat (header_fields (ustar name mode size is_dir) c) = front ++ c ++ back) as Hfields.
  { intros c. unfold header_fields, front, back. cbn [ustar rh_path rh_mode rh_uid rh_gid rh_size rh_mtime rh_type_flag rh_link_target concat default].
    fold flag size' m o sz t. rewrite <- !app_assoc. reflexivity. }
  replace (((front ++ replicate 8 " "%byte) ++ [flag]) ++ _) with (front ++ replicate 8 " "%byte ++ back)
    by (unfold back; by rewrite <- !app_assoc).
  unfold tar_header. rewrite !Hfields.
  pose proof (byte_sum_range (front ++ replicate 8 " "%byte ++ back)) as Hsum.
  assert (len (front ++ replicate 8 " "%byte ++ back) = 512) as Hlen
    by (unfold len; rewrite !length_app, Hfront; reflexivity).
  rewrite Hlen in Hsum. rewrite write_octal_field_ok by (lia || (change (8 ^ Z.of_nat (8 - 1)) with 2097152; lia)).
  cbn [mbind result_bind]. f_equal. apply put_field; [by rewrite Hfront | by rewrite H8].
Qed.

Lemma block_padding_eq data :
  block_padding data = replicate (Z.to_nat (padding (len data) (len data))) "000"%byte.
Proof. reflexivity. Qed.

(** The two entries of an archive that holds the helper. *)
Definition helper_entries (dir name : text) (binary : list byte) : list (RawHeader * list byte) :=
  [(ustar dir 493 0 true, []); (ustar name 493 (len binary) false, binary)].

Lemma two_entries dir name binary d h :
  header_fits (ustar dir 493 0 true) → header_fits (ustar name 493 (len binary) false) →
  write_ustar_header dir 493 0 true = d → write_ustar_header name 493 (len binary) false = h →
  (x ← d; y ← h; @Ok FilesystemError _ (x ++ y ++ binary ++ block_padding binary ++ end_of_archive))
  = Ok (encode_archive (helper_entries dir name binary)).
Proof.
  intros Hd Hn <- <-. rewrite !write_ustar_header_ok by (done || apply len_nonneg). cbn [mbind result_bind].
  unfold encode_archive, helper_entries, encode_entry. cbn [fmap list_fmap fst snd concat].
  rewrite block_padding_eq. rewrite <- !app_assoc. reflexivity.
Qed.

Lemma constant_fits name mode size is_dir :
  bool_decide (name ≠ [] ∧ "000"%byte ∉ name ∧ (length name ≤ 100)%nat) = true → 0 ≤ mode < 8 ^ 7 → 0 ≤ size < 8 ^ 11 →
  header_fits (ustar name mode size is_dir).
Proof. intros (H1 & H2 & H3)%bool_decide_eq_true. by apply ustar_fits. Qed.

Lemma build_helper_archive_ok binary :
  len binary < 8 ^ 11 →
  build_helper_archive binary
  = Ok (encode_archive (helper_entries (bytes ".tuxstack/") (bytes ".tuxstack/tuxstack-fs-helper") binary)).
Proof.
  intros Hb. pose proof (len_nonneg binary).
  unfold build_helper_archive.
  apply (two_entries (bytes ".tuxstack/") (bytes ".tuxstack/tuxstack-fs-helper") binary _ _); [| | reflexivity | reflexivity].
  - apply constant_fits; [vm_compute; reflexivity | split; [discriminate | reflexivity] | split; [discriminate | reflexivity]].
  - apply constant_fits; [vm_compute; reflexivity | split; [discriminate | reflexivity] | by split].
Qed.

Lemma build_layer_tar_ok binary :
  len binary < 8 ^ 11 →
  build_layer_tar binary
  = Ok (encode_archive (helper_entries (bytes "usr/bin/") (bytes "usr/bin/tuxstack-fs-helper") binary)).
Proof.
  intros Hb. pose proof (len_nonneg binary).
  unfold build_layer_tar.
  apply (two_entries (bytes "usr/bin/") (bytes "usr/bin/tuxstack-fs-helper") binary _ _); [| | reflexivity | reflexivity].
  - apply constant_fits; [vm_compute; reflexivity | split; [discriminate | reflexivity] | split; [discriminate | reflexivity]].
  - apply constant_fits; [vm_compute; reflexivity | split; [discriminate | reflexivity] | by split].
Qed.

Lemma sha256_hex_ok data : sha256_hex data = Ok (hex (Sha256.sha256 data)).
Proof.
  unfold sha256_hex.
  destruct (Sha256.update_spec Sha256.Sha256_new [] data Sha256.Sha256_new_represents eq_refl) as (h & -> & Hr & Ht).
  cbn [mbind result_bind app]. by rewrite (Sha256.finish_spec h data Hr Ht).
Qed.

Lemma sha256_length data : length (Sha256.sha256 data) = 32%nat.
Proof. reflexivity. Qed.

(** Hexadecimal digits are letters and digits. *)
Lemma hex_ok (bs : list byte) : "000"%byte ∉ hex bs ∧ length (hex bs) = (2 * length bs)%nat.
Proof.
  induction bs as [|b bs [IH1 IH2]]; [split; [apply not_elem_of_nil | done] |]. unfold hex in *. cbn [mbind list_bind].
  rewrite not_elem_of_app, length_app. change (length (hex_byte b)) with 2%nat. cbn [length]. split; [| cbn in *; lia].
  split; [| exact IH1].
  destruct b; apply (bool_decide_unpack _); vm_compute; exact I.
Qed.

Lemma write_tar_entry_ok name data :
  name ≠ [] → "000"%byte ∉ name → (length name ≤ 100)%nat → len data < 8 ^ 11 →
  write_tar_entry name data = Ok (encode_entry (ustar name 420 (len data) false, data)).
Proof.
  intros H1 H2 H3 H4. pose proof (len_nonneg data). unfold write_tar_entry.
  rewrite write_ustar_header_ok by (done || apply ustar_fits; (done || lia)). reflexivity.
Qed.

Definition plain_file (name : text) (data : list byte) : RawHeader * list byte :=
  (ustar name 420 (len data) false, data).

(** The archive of the helper image: its files are named by the digests of what
    they hold. *)
Definition image_files {HB : HelperBuild} (layer : list byte) : list (RawHeader * list byte) :=
  let layer_sha := hex (Sha256.sha256 layer) in
  let config := image_config layer_sha in
  let config_sha := hex (Sha256.sha256 config) in
  [plain_file (bytes "manifest.json") (image_manifest config_sha layer_sha); plain_file (config_sha ++ bytes ".json") config;
   plain_file (layer_sha ++ bytes ".tar") layer; plain_file (bytes "repositories") (image_repositories config_sha)].

Lemma digest_name_ok (bs : list byte) (suffix : text) :
  suffix ≠ [] → "000"%byte ∉ suffix → (length suffix ≤ 36)%nat →
  let name := hex (Sha256.sha256 bs) ++ suffix in
  name ≠ [] ∧ "000"%byte ∉ name ∧ (length name ≤ 100)%nat.
Proof.
  intros Hs H0 Hl name. destruct (hex_ok (Sha256.sha256 bs)) as [H1 H2]. rewrite sha256_length in H2.
  unfold name. split_and!; [by destruct (hex _), suffix | by rewrite not_elem_of_app | rewrite length_app; lia].
Qed.

Lemma not_nul (l : list byte) : bool_decide ("000"%byte ∈ l) = false → "000"%byte ∉ l.
Proof. apply bool_decide_eq_false_1. Qed.

Lemma digest_len bs : len (hex (Sha256.sha256 bs)) = 64.
Proof. unfold len. rewrite (proj2 (hex_ok _)), sha256_length. reflexivity. Qed.

Definition name_fits (name : text) : Prop := name ≠ [] ∧ "000"%byte ∉ name ∧ (length name ≤ 100)%nat.

Lemma four_files (n1 n2 n3 n4 : text) (d1 d2 d3 d4 : list byte) :
  Forall name_fits [n1; n2; n3; n4] → Forall (fun d => len d < 8 ^ 11) [d1; d2; d3; d4] →
  (e1 ← write_tar_entry n1 d1; e2 ← write_tar_entry n2 d2; e3 ← write_tar_entry n3 d3; e4 ← write_tar_entry n4 d4;
   Ok (e1 ++ e2 ++ e3 ++ e4 ++ end_of_archive))
  = Ok (encode_archive [plain_file n1 d1; plain_file n2 d2; plain_file n3 d3; plain_file n4 d4]).
Proof.
  intros Hn Hd. repeat (apply Forall_cons_iff in Hn as [(? & ? & ?) Hn]). repeat (apply Forall_cons_iff in Hd as [? Hd]).
  rewrite !write_tar_entry_ok by assumption. cbn [mbind result_bind]. unfold encode_archive, plain_file. cbn [fmap list_fmap concat].
  rewrite app_nil_r, <- !app_assoc. reflexivity.
Qed.

Lemma manifest_len {HB : HelperBuild} config_sha layer_sha :
  len config_sha = 64 → len layer_sha = 64 → len helper_image_tag < 8 ^ 10 →
  len (image_manifest config_sha layer_sha) < 8 ^ 11 ∧ len (image_repositories config_sha) < 8 ^ 11.
Proof.
  intros H1 H2 H3. change (8 ^ 10) with 1073741824 in H3. change (8 ^ 11) with 8589934592.
  unfold image_manifest, image_repositories, quoted. rewrite !len_app, H1, H2.
  change (len q) with 1.
  repeat match goal with
  | |- context [len (bytes ?s)] => let v := eval vm_compute in (len (bytes s)) in change (len (bytes s)) with v
  end. lia.
Qed.

Lemma build_load_tar_ok {HB : HelperBuild} binary layer :
  build_layer_tar binary = Ok layer → len layer < 8 ^ 11 →
  len (image_config (hex (Sha256.sha256 layer))) < 8 ^ 11 → len helper_image_tag < 8 ^ 10 →
  build_load_tar binary = Ok (encode_archive (image_files layer)).
Proof.
  intros Hl Hlen Hc Ht. unfold build_load_tar. rewrite Hl. cbn [mbind result_bind]. rewrite sha256_hex_ok. cbn [mbind result_bind].
  rewrite sha256_hex_ok. cbn [mbind result_bind].
  destruct (manifest_len (hex (Sha256.sha256 (image_config (hex (Sha256.sha256 layer))))) (hex (Sha256.sha256 layer))
              (digest_len _) (digest_len _) Ht) as [Hm Hr].
  apply four_files.
  - constructor; [split_and!; [discriminate | apply not_nul; reflexivity | cbn; lia] |].
    constructor; [apply digest_name_ok; [discriminate | apply not_nul; reflexivity | cbn; lia] |].
    constructor; [apply digest_name_ok; [discriminate | apply not_nul; reflexivity | cbn; lia] |].
    constructor; [split_and!; [discriminate | apply not_nul; reflexivity | cbn; lia] | constructor].
  - repeat (constructor; [assumption |]). constructor.
Qed.

(** ** Containers that are created and removed *)
Class EngineContainers (W : Type) := { containers : W → gset text }.
(** A create that returns an id has added a container of that new id, and one
    that does not return an id has added none; removals are obeyed. *)
Class EngineContainersLaws (W : Type) {DH : DockerHelpers W} {DX : DockerExec W} {EC : EngineContainers W} : Prop := {
  containers_create body w :
    match create_container body w with
    | (Some (inl id), w') => containers w' = {[id]} ∪ containers w ∧ id ∉ containers w
    | (_, w') => containers w' = containers w
    end;
  containers_remove id w : containers (remove_container id w).2 = containers w ∖ {[id]};
  containers_inspect tag w : containers (inspect_image tag w).2 = containers w;
  containers_import tar w : containers (import_image tar w).2 = containers w;
  containers_upload id path tar w : containers (upload_to_container id path tar w).2 = containers w;
  containers_start id w : containers (start_container id w).2 = containers w;
  containers_uuid w : containers (new_uuid w).2 = containers w;
  containers_create_exec id cmd err w : containers (create_exec id cmd err w).2 = containers w;
  containers_start_exec id max w : containers (start_exec id max w).2 = containers w;
}.

Section accounting.
Context {W : Type} {HB : HelperBuild} {DH : DockerHelpers W} {DX : DockerExec W} {HJ : HelperJson}
  {EC : EngineContainers W} {EL : EngineContainersLaws W}.

Definition calm {A} (m : fprog W A) : Prop := ∀ w, containers (m w).2 = containers w.

Lemma calm_bind {A B} (m : fprog W A) (f : A → fprog W B) : calm m → (∀ a, calm (f a)) → calm (m ≫= f).
Proof.
  intros Hm Hf w. unfold mbind, fprog_bind. specialize (Hm w). destruct (m w) as [[a|e|p] w']; cbn in *; [| done | done].
  by rewrite Hf.
Qed.

Lemma calm_api {A} f (m : W → (A + BollardError) * W) : (∀ w, containers (m w).2 = containers w) → calm (api_call f m).
Proof. intros Hm w. unfold api_call. specialize (Hm w). by destruct (m w). Qed.
Lemma calm_timed {A} f (m : W → option (A + BollardError) * W) :
  (∀ w, containers (m w).2 = containers w) → calm (timed_call f m).
Proof. intros Hm w. unfold timed_call. specialize (Hm w). by destruct (m w). Qed.
Lemma calm_flift {A} (r : fres A) : calm (flift r).
Proof. done. Qed.
Lemma calm_uuid : calm fuuid.
Proof. intros w. unfold fuuid. pose proof (containers_uuid w) as H. by destruct (new_uuid w). Qed.

Lemma calm_ensure : calm ensure_helper_image.
Proof.
  intros w. unfold ensure_helper_image. pose proof (containers_inspect helper_image_tag w) as Hi.
  destruct (inspect_image helper_image_tag w) as [[[i|e]|] w']; [done | | done]. cbn in Hi. rewrite <- Hi.
  apply calm_bind; [apply calm_flift |]. intros binary. apply calm_bind; [apply calm_flift |]. intros tar.
  apply calm_api. apply containers_import.
Qed.

Lemma calm_hello session token : calm (hello session token).
Proof.
  apply calm_bind; [| intros; apply calm_flift]. apply calm_bind; [apply calm_flift |]. intros c.
  apply calm_bind; [| intros output; apply calm_bind; [apply calm_flift | intros []; apply calm_flift]].
  apply calm_bind; [apply calm_api; intros; apply containers_create_exec |]. intros id.
  apply calm_bind; [apply calm_timed; intros; apply containers_start_exec |]. by intros [].
Qed.

Lemma containers_invalidate session w :
  containers (invalidate_session session w).2 = containers w ∖ {[se_container_id session]}.
Proof.
  unfold invalidate_session, force_remove_container. pose proof (containers_remove (se_container_id session) w) as H.
  by destruct (remove_container _ _).
Qed.

Lemma first_hello_no_panic lines p : first_hello lines ≠ Panic p.
Proof.
  induction lines as [|l lines IH]; [done |]. cbn [first_hello]. destruct (from_str l) as [[[] t]| |]; try done.
  by destruct (negb _).
Qed.

Lemma collect_output_no_panic token output so se p : collect_output token output so se ≠ Panic p.
Proof.
  revert token so se. induction output as [|[[m|m|m|m]|e] output IH]; intros token so se; cbn [collect_output];
    (destruct (poll_cancel token); [done || apply IH | done]).
Qed.

Lemma hello_no_panic session token w p : (hello session token w).1 ≠ Panic p.
Proof.
  unfold hello, exec_lines, attach, mbind, fprog_bind, flift, api_call, timed_call, check_cancel.
  destruct (poll_cancel token) as [token'|]; [| done]. destruct (create_exec _ _ _ _) as [[id|e] w1]; [| done].
  destruct (start_exec _ _ _) as [[[[output|]|e]|] w2]; try done. cbn [mret fprog_ret].
  destruct (collect_output token' output [] []) as [[stdout stderr]|e|s] eqn:E; cbn;
    [| done | by apply collect_output_no_panic in E].
  unfold output_lines. destruct (_ && _); [by destruct (has _ _) |]. cbn. apply first_hello_no_panic.
Qed.

(** A handshake keeps the container of the session it returns, and removes that
    of one that failed. *)
Lemma shake_hands_accounts session token w :
  match shake_hands session token w with
  | (Ok s, w') => containers w' = containers w ∧ se_container_id s = se_container_id session ∧
                  se_read_only s = se_read_only session ∧ se_root s = se_root session
  | (_, w') => containers w' = containers w ∖ {[se_container_id session]}
  end.
Proof.
  unfold shake_hands. pose proof (calm_hello session token w) as Hc. pose proof (hello_no_panic session token w) as Hp.
  destruct (hello session token w) as [[v|e|p] w']; cbn in *; [done | | by destruct (Hp p)].
  by rewrite containers_invalidate, Hc.
Qed.

Lemma fresh_difference (X Y : gset text) id : X = {[id]} ∪ Y → id ∉ Y → X ∖ {[id]} = Y.
Proof. intros -> Hn. set_solver. Qed.

(** The calls before a container exists. *)
Definition prepare (cancellation : CancellationToken) : fprog W text :=
  (match poll_cancel cancellation with None => fthrow FE_Cancelled | Some _ => mret tt end);;
  ensure_helper_image;; fuuid.

Lemma calm_prepare cancellation : calm (prepare cancellation).
Proof.
  apply calm_bind; [by destruct (poll_cancel cancellation) |]. intros _. apply calm_bind; [apply calm_ensure |].
  intros _. apply calm_uuid.
Qed.

Lemma create_bind_accounts source_root daemon_instance cancellation w :
  match create_bind_session source_root daemon_instance cancellation w with
  | (Ok session, w') => containers w' = {[se_container_id session]} ∪ containers w ∧
                        se_read_only session = true ∧ se_root session = SOURCE_TARGET
  | (_, w') => containers w' = containers w
  end.
Proof.
  pose proof (calm_prepare cancellation w) as Hp. unfold create_bind_session. unfold prepare in Hp. unfold mbind, fprog_bind in *.
  destruct (poll_cancel cancellation) as [token|]; [| done]. cbn [mret fprog_ret] in *.
  destruct (ensure_helper_image w) as [[[]|e|p] w1]; cbn in Hp; [| done | done].
  destruct (fuuid w1) as [[uuid|e|p] w2]; cbn in Hp; [| done | done].
  set (body := bind_container _ _ _ _). pose proof (containers_create body w2) as Hc. unfold timed_call at 1.
  destruct (create_container body w2) as [[[id|e]|] w3]; [| congruence | congruence]. destruct Hc as [Hc Hfresh].
  rewrite Hp in Hc, Hfresh. cbn [fnow]. set (provisional := mkFilesystemSession id _ _ _ _ _ _ _ _).
  unfold or_remove. pose proof (calm_timed (fun error => FE_HelperContainerStartFailed (be_display error)) (start_container id)
                                  (containers_start id) w3) as Hs.
  destruct (timed_call _ (start_container id) w3) as [[[]|e|p] w4] eqn:Et; cbn in Hs.
  - pose proof (shake_hands_accounts provisional (default None (Some token)) w4) as Hh.
    destruct (shake_hands _ _ w4) as [[s|e|p] w5].
    + destruct Hh as (H1 & H2 & H3 & H4). rewrite H1, H2, H3, H4, Hs, Hc. done.
    + rewrite Hh, Hs. by apply fresh_difference.
    + rewrite Hh, Hs. by apply fresh_difference.
  - rewrite containers_invalidate, Hs. by apply fresh_difference.
  - unfold timed_call in Et. by destruct (start_container id w3) as [[[[]|]|] ?].
Qed.
End accounting.

(** The index of the two entries. *)
Lemma helper_index (n : Z) :
  let h := ustar (bytes ".tuxstack/tuxstack-fs-helper") 493 n false in
  let p := [bytes ".tuxstack"; bytes "tuxstack-fs-helper"] in
  ∃ index,
    index_entries TarLimits_default TarIndex_empty
      [entry_of (ustar (bytes ".tuxstack/") 493 0 true) [bytes ".tuxstack"]; entry_of h p] = Ok index ∧
    (te_kind <$> TarIndex_get index [bytes ".tuxstack"]) = Some TDirectory ∧ TarIndex_get index p = Some (entry_of h p).
Proof.
  intros h p.
  assert (match index_entries TarLimits_default TarIndex_empty
                  [entry_of (ustar (bytes ".tuxstack/") 493 0 true) [bytes ".tuxstack"]; entry_of h p] with
          | Ok index => (te_kind <$> TarIndex_get index [bytes ".tuxstack"], TarIndex_get index p)
          | _ => (None, None)
          end = (Some TDirectory, Some (entry_of h p))) as H by (vm_compute; reflexivity).
  destruct (index_entries _ _ _) as [index| |]; [| discriminate H | discriminate H]. injection H as H1 H2.
  exists index. split_and!; [reflexivity | exact H1 | exact H2].
Qed.

(** ** Properties *)



(** A volume helper that cannot be started is left behind.  Unlike for bind
    mounts, when the start of the created container fails or times out,
    [create_session] returns the error without removing the container: it stays
    until the next clean-up of orphans. *)
Theorem volume_start_failure_leaks {W : Type} {HB : HelperBuild} {DH : DockerHelpers W} {DX : DockerExec W}
  {HJ : HelperJson} {EC : EngineContainers W} {EL : EngineContainersLaws W} (volume_name : text)
  (cancellation : CancellationToken) (w w1 w2 w3 : W) (uuid id : text) :
  (ensure_helper_image;; fuuid) w = (Ok uuid, w1) →
  create_container (volume_container (bytes "tuxstack-fs-helper-" ++ uuid) volume_name) w1 = (Some (inl id), w2) →
  start_container id w2 = (None, w3) →
  create_volume_session volume_name cancellation w = (Err FE_Timeout, w3) ∧ containers w3 = {[id]} ∪ containers w.
Proof.
  intros Hp Hc Hs. split.
  - unfold create_volume_session. unfold mbind, fprog_bind in *. destruct (ensure_helper_image w) as [[[]|e|p] w0]; [| done | done].
    rewrite Hp. unfold timed_call. rewrite Hc, Hs. done.
  - pose proof (calm_bind ensure_helper_image (fun _ => fuuid) calm_ensure (fun _ => calm_uuid) w) as H1. rewrite Hp in H1.
    pose proof (containers_create (volume_container (bytes "tuxstack-fs-helper-" ++ uuid) volume_name) w1) as H2.
    rewrite Hc in H2. pose proof (containers_start id w2) as H3. rewrite Hs in H3. cbn in H1, H3.
    rewrite H3, (proj1 H2), H1. done.
Qed.

(** A volume can hide its helper from the clean-up.  The labels of the
    container include one named by the volume, and the later entry of the map
    wins: for a volume with the name of the purpose label, a valid volume name,
    the container does not carry the purpose that the clean-up filters by. *)
Theorem volume_label_collision :
  volume_labels LABEL_PURPOSE !! LABEL_PURPOSE = Some (bytes "true") ∧
  (∀ volume_name, volume_name ≠ LABEL_PURPOSE → volume_labels volume_name !! LABEL_PURPOSE = Some PURPOSE_VALUE).
Proof.
  split; [vm_compute; reflexivity |]. intros volume_name Hn. unfold volume_labels, collect_labels. cbn [foldl fst snd].
  rewrite lookup_insert_ne by done. by rewrite lookup_insert_eq.
Qed.


#[local] Instance sample_build : HelperBuild := {
  ARCH := bytes "x86_64"; CARGO_PKG_VERSION := bytes "1"; helper_x86_64 := Some (bytes "ELF"); helper_aarch64 := None;
}.
#[local] Existing Instance bits_json.
#[local] Instance sample_exec : DockerExec (list text * gset text) := helper_engine (FS := sample_fs).

(** An engine that names a container by its name, and starts it when [starts]. *)
Definition sample_helpers (starts : bool) : DockerHelpers (list text * gset text) := {|
  inspect_image _ w := (Some (inl (mkImageInspect None None)), w);
  import_image _ w := (inl tt, w);
  create_container body w :=
    if bool_decide (hc_name body ∈ w.2) then (None, w) else (Some (inl (hc_name body)), (w.1, {[hc_name body]} ∪ w.2));
  upload_to_container _ _ _ w := (inl tt, w);
  start_container _ w := (if starts then Some (inl tt) else None, w);
  new_uuid w := (bytes "u", w);
  utc_now _ := 0;
|}.
#[local] Instance sample_engine_containers : EngineContainers (list text * gset text) := { containers := snd }.

Lemma sample_engine_laws starts : EngineContainersLaws (DH := sample_helpers starts) (list text * gset text).
Proof.
  split; try done. intros body w. cbn. case_bool_decide; [done | by split].
Qed.

Definition no_containers : list text * gset text := ([], ∅).


Lemma volume_start_failure_leaks_witness :
  containers (create_volume_session (DH := sample_helpers false) (bytes "data") None no_containers).2
  = {[bytes "tuxstack-fs-helper-u"]} ∪ ∅.
Proof.
  destruct (volume_start_failure_leaks (EL := sample_engine_laws false) (bytes "data") None no_containers no_containers
              ([], {[bytes "tuxstack-fs-helper-u"]} ∪ ∅) ([], {[bytes "tuxstack-fs-helper-u"]} ∪ ∅) (bytes "u")
              (bytes "tuxstack-fs-helper-u")) as [H1 H2].
  - reflexivity.
  - unfold create_container, sample_helpers. rewrite bool_decide_eq_false_2; [reflexivity | apply not_elem_of_empty].
  - reflexivity.
  - rewrite H1. exact H2.
Defined.
