(* ===== verification/VolumePool.v ===== *)
(** Who owns the helper-backed providers
    (crates/docker-core/src/vfs_providers/volume.rs and helper_bind.rs): the pool
    that interns one provider per named volume, the checks before a provider of
    a bind source is made, and the removal of orphaned bind helpers.

    An [Arc] of a provider is an index into the store of all providers ever
    made; a provider leaves the map of the pool but not the store. *)

From S2P Require Import Prelude Error Path Numbers Text Utf8 Model Provider FsProtocol FsHelper DockerError FsClient.
From S2P Require Import HelperProvider HelperSession.

Local Open Scope Z_scope.

(** ** Named volumes *)
Definition provider_key (daemon_identity volume_name : text) : list byte :=
  bytes "volume" ++ ["000"%byte] ++ daemon_identity ++ ["000"%byte] ++ volume_name.

Record NamedVolumeProvider := mkNamedVolumeProvider {
  nv_daemon_identity : text;
  nv_volume_name : text;
  nv_core : HelperProviderCore;
}.

Definition NamedVolumeProvider_new (daemon_identity volume_name : text) (directory_ttl : Z) : NamedVolumeProvider :=
  mkNamedVolumeProvider daemon_identity volume_name
    (HelperProviderCore_new
       (mkProviderDescriptor NamedVolumeLive Live (Some (String.string_of_list_byte volume_name)) Capabilities.READ_ONLY)
       (provider_key daemon_identity volume_name) directory_ttl).

(** [VolumeSessionFactory] *)
Definition volume_factory {W} {HB : HelperBuild} {DH : DockerHelpers W} {DX : DockerExec W} {HJ : HelperJson}
  (volume_name : text) : SessionFactory W := {| factory_start := create_volume_session volume_name |}.

Record NamedVolumeProviderPool := mkNamedVolumeProviderPool {
  pl_daemon_identity : text;
  pl_directory_ttl : Z;
  pl_providers : gmap text nat;
  pl_store : list NamedVolumeProvider;
}.

Definition with_directory_ttl (daemon_identity : text) (directory_ttl : Z) : vres NamedVolumeProviderPool :=
  if negb ((1000 <=? directory_ttl) && (directory_ttl <=? 5000))
  then Err (InvalidInput "named-volume directory TTL must be between 1 and 5 seconds")
  else Ok (mkNamedVolumeProviderPool daemon_identity directory_ttl ∅ []).

Definition NamedVolumeProviderPool_new (daemon_identity : text) : vres NamedVolumeProviderPool :=
  expect "the default volume directory TTL is valid" (with_directory_ttl daemon_identity HELPER_DIRECTORY_TTL).

Definition set_providers (x : gmap text nat) (self : NamedVolumeProviderPool) : NamedVolumeProviderPool :=
  mkNamedVolumeProviderPool (pl_daemon_identity self) (pl_directory_ttl self) x (pl_store self).
Definition set_store (x : list NamedVolumeProvider) (self : NamedVolumeProviderPool) : NamedVolumeProviderPool :=
  mkNamedVolumeProviderPool (pl_daemon_identity self) (pl_directory_ttl self) (pl_providers self) x.

(** [NamedVolumeProviderPool::provider] *)
Definition pool_provider (volume_name : text) (self : NamedVolumeProviderPool) : nat * NamedVolumeProviderPool :=
  match pl_providers self !! volume_name with
  | Some provider => (provider, self)
  | None =>
      let provider := length (pl_store self) in
      (provider,
       set_providers (<[volume_name := provider]> (pl_providers self))
         (set_store (pl_store self ++ [NamedVolumeProvider_new (pl_daemon_identity self) volume_name (pl_directory_ttl self)])
            self))
  end.

(** The order in which a [HashMap] is drained is not specified. *)
Class DrainOrder := {
  drain {A} : gmap text A → list (text * A);
  drain_perm {A} (m : gmap text A) : drain m ≡ₚ map_to_list m;
}.

Section pool.
Context {W : Type} {DX : DockerExec W} {DO : DrainOrder}.

Abbreviation pworld := (NamedVolumeProviderPool * W)%type.

(** An operation of the provider behind a reference. *)
Definition on_provider {A} (r : nat) (m : prog (HelperProviderCore * W) A) : prog pworld A := fun s =>
  match pl_store s.1 !! r with
  | None => (Panic "dangling reference", s)
  | Some p =>
      let '(x, (core, w)) := m (nv_core p, s.2) in
      (x, (set_store (<[r := mkNamedVolumeProvider (nv_daemon_identity p) (nv_volume_name p) core]> (pl_store s.1)) s.1, w))
  end.

Definition pool_remove (volume_name : text) : prog pworld () := fun s =>
  let provider := pl_providers s.1 !! volume_name in
  let s := (set_providers (delete volume_name (pl_providers s.1)) s.1, s.2) in
  match provider with
  | Some r => on_provider r core_shutdown s
  | None => (Ok tt, s)
  end.

(** The loop of [shutdown]: the first error is kept, the rest go on. *)
Fixpoint shutdown_all (refs : list nat) (first_error : option VfsError) : prog pworld () := fun s =>
  match refs with
  | [] => (match first_error with None => Ok tt | Some e => Err e end, s)
  | r :: refs =>
      match on_provider r core_shutdown s with
      | (Err e, s) => shutdown_all refs (Some (default e first_error)) s
      | (Ok _, s) => shutdown_all refs first_error s
      | (Panic p, s) => (Panic p, s)
      end
  end.

Definition pool_shutdown : prog pworld () := fun s =>
  let providers := (drain (pl_providers s.1)).*2 in
  shutdown_all providers None (set_providers ∅ s.1, s.2).
End pool.

(** ** Bind sources *)

(** [Path::is_absolute], [components] and [starts_with]: a path as its names. *)
Definition is_absolute (path : text) : bool := bool_decide (head path = Some "/"%byte).
Definition path_starts_with (path base : text) : bool :=
  bool_decide (is_absolute path = is_absolute base) && bool_decide (path_pieces base `prefix_of` path_pieces path).

(** In an absolute path a dot component is dropped by [components]. *)
Definition validate_source_root (source_root : text) : vres () :=
  if negb (is_absolute source_root) then Err (InvalidInput "bind source must be absolute")
  else if bool_decide (bytes ".." ∈ path_pieces source_root)
  then Err (InvalidInput "bind source must not contain dot components")
  else Ok tt.

Definition contains_docker_socket (source_root : text) (configured_socket : option text) : bool :=
  from_option (fun socket => path_starts_with socket source_root) false configured_socket
  || path_starts_with (bytes "/var/run/docker.sock") source_root
  || path_starts_with (bytes "/run/docker.sock") source_root.

Record HelperBindProvider := mkHelperBindProvider {
  hb_source_root : text;
  hb_daemon_instance : text;
  hb_core : HelperProviderCore;
}.

(** [HelperBindProvider::with_options], for a client that is local or not and
    has a socket path. *)
Definition with_options (is_local : bool) (socket_path : option text) (daemon_instance source_root : text)
  (directory_ttl : Z) : vres HelperBindProvider :=
  if negb is_local then Err (Unavailable "helper bind requires the daemon's local Docker Engine")
  else if negb ((1000 <=? directory_ttl) && (directory_ttl <=? 3000))
  then Err (InvalidInput "helper-bind directory TTL must be between 1 and 3 seconds")
  else
    _ ← validate_source_root source_root;
    if negb (is_ok (from_utf8 source_root))
    then Err (InvalidInput "helper bind source must be valid UTF-8 for the Docker API")
    else if contains_docker_socket source_root socket_path then Err PermissionDenied
    else if is_empty daemon_instance then Err (InvalidInput "daemon instance label must not be empty")
    else
      let descriptor :=
        mkProviderDescriptor HelperBindLive Live
          (Some (String.string_of_list_byte (from_utf8_lossy source_root))) Capabilities.READ_ONLY in
      let namespace :=
        bytes "helper-bind" ++ ["000"%byte] ++ daemon_instance ++ ["000"%byte] ++ source_root in
      Ok (mkHelperBindProvider source_root daemon_instance (HelperProviderCore_new descriptor namespace directory_ttl)).

Definition HelperBindProvider_new (is_local : bool) (socket_path : option text) (daemon_instance source_root : text)
  : vres HelperBindProvider :=
  with_options is_local socket_path daemon_instance source_root HELPER_DIRECTORY_TTL.

(** [BindSessionFactory] *)
Definition bind_factory {W} {HB : HelperBuild} {DH : DockerHelpers W} {DX : DockerExec W} {HJ : HelperJson}
  (self : HelperBindProvider) : SessionFactory W :=
  {| factory_start := create_bind_session (hb_source_root self) (hb_daemon_instance self) |}.

Section orphans.
Context {W : Type} {DX : DockerExec W}.

Definition bind_filters (daemon_instance : text) : list (text * list text) :=
  [(bytes "label", [LABEL_MANAGED ++ bytes "=true"; LABEL_PURPOSE ++ bytes "=" ++ PURPOSE_BIND_FILES;
                    LABEL_DAEMON_INSTANCE ++ bytes "=" ++ daemon_instance])].

Definition cleanup_orphan_bind_helpers (daemon_instance : text) : prog W Z := fun w =>
  if is_empty daemon_instance then (Err (InvalidInput "daemon instance label must not be empty"), w)
  else
    match list_containers (bind_filters daemon_instance) w with
    | (None, w) => (Err TimedOut, w)
    | (Some (inr error), w) => (Err (Unavailable (String.string_of_list_byte (be_display error))), w)
    | (Some (inl containers), w) =>
        let '(r, w) := remove_bind_helpers daemon_instance containers 0 w in (to_vfs r, w)
    end.
End orphans.

(** ** What the operations of a provider leave alone *)
Section tame.
Context {W : Type} {FF : FuserFlags} {DX : DockerExec W} {HJ : HelperJson} {CH : Chrono}
  {SF : SessionFactory W} {CK : Clock W}.

(** The node namespace never changes, and no operation revives a provider. *)
Definition grows (self self' : HelperProviderCore) : Prop :=
  hp_node_namespace self' = hp_node_namespace self ∧ (hp_active self' = true → hp_active self = true).
Definition tame {A} (m : prog (HelperProviderCore * W) A) : Prop := ∀ s, grows s.1 (m s).2.1.

Lemma tame_bind {A B} (m : prog (HelperProviderCore * W) A) (f : A → prog (HelperProviderCore * W) B) :
  tame m → (∀ a, tame (f a)) → tame (m ≫= f).
Proof.
  intros Hm Hf s. unfold mbind, prog_bind. specialize (Hm s). destruct (m s) as [[a|e|p] s']; [| exact Hm | exact Hm].
  destruct Hm as [H1 H2], (Hf a s') as [H3 H4]. cbn in *. split; [congruence | auto].
Qed.

Lemma tame_quiet {A} (m : prog (HelperProviderCore * W) A) : (∀ s, (m s).2.1 = s.1) → tame m.
Proof. intros H s. rewrite H. by split. Qed.
Lemma tame_lift {A} (r : vres A) : tame (lift r).
Proof. by apply tame_quiet. Qed.
Lemma tame_service {A} (m : fprog W A) : tame (service m).
Proof. apply tame_quiet. intros [self w]. unfold service. cbn [snd]. by destruct (m w). Qed.
Lemma tame_update f : (∀ self, grows self (f self)) → tame (self_update (W := W) f).
Proof. intros H s. apply H. Qed.
Lemma tame_gets {A} (f : HelperProviderCore → A) : tame (self_gets f).
Proof. by apply tame_quiet. Qed.

Lemma tame_run {A} (operation : FilesystemSession → CancellationToken → fprog W A) : tame (run operation).
Proof.
  apply tame_bind.
  - apply tame_bind; [apply tame_bind; [apply tame_gets | by intros []; apply tame_quiet] |]. intros _.
    apply tame_bind; [apply tame_gets |]. intros [x|]; [by apply tame_quiet |].
    apply tame_bind; [apply tame_service |]. intros r. apply tame_bind; [apply tame_lift |]. intros x.
    destruct (negb (se_read_only x)).
    + apply tame_bind; [apply tame_service |]. intros _. apply tame_lift.
    + apply tame_bind; [by apply tame_update |]. intros _. by apply tame_quiet.
  - intros x. apply tame_bind; [apply tame_service |]. intros r. apply tame_bind; [| intros; apply tame_lift].
    destruct r; [by apply tame_quiet | | by apply tame_quiet]. unfold invalidate_failed_session.
    destruct (negb _); [by apply tame_quiet |]. apply tame_bind; [apply tame_gets |]. intros slot.
    destruct (bool_decide _); [| by apply tame_quiet]. apply tame_bind; [by apply tame_update |]. intros _.
    destruct slot; [| by apply tame_quiet]. apply tame_bind; [apply tame_service |]. intros _. by apply tame_update.
Qed.

Lemma tame_getattr path : tame (core_getattr path).
Proof.
  unfold core_getattr. destruct (VirtualPath_is_root path); [apply tame_gets |]. apply tame_bind; [apply tame_lift |].
  intros token. apply tame_bind; [apply tame_run |]. intros. apply tame_gets.
Qed.

Lemma helper_step_grows s op : grows s.1 (helper_step s op).1.
Proof.
  destruct op as [parent name|path|path|path|path flags|handle offset size|handle|path|]; cbn [helper_step].
  - apply (tame_bind (lift (VirtualPath_join parent name)) core_getattr); [apply tame_lift | apply tame_getattr].
  - apply tame_getattr.
  - revert s. change (tame (core_read_dir path)). apply tame_bind; [apply tame_gets |]. intros generation.
    apply tame_bind; [by apply tame_quiet |]. intros [hit|]; [by apply tame_quiet |].
    apply tame_bind; [apply tame_lift |]. intros token. apply tame_bind; [apply tame_run |]. intros result.
    destruct (_ || _); [apply tame_lift |]. apply tame_bind; [by apply tame_quiet |]. intros entries.
    apply tame_bind; [by intros [] |]. intros _. by apply tame_quiet.
  - revert s. change (tame (core_read_link path)). apply tame_bind; [apply tame_lift |]. intros token.
    apply tame_bind; [apply tame_run |]. intros entry. destruct (negb _); [apply tame_lift |].
    apply tame_bind; [apply tame_lift |]. intros. apply tame_lift.
  - revert s. change (tame (core_open path flags)). unfold core_open. destruct (negb _); [apply tame_lift |].
    apply tame_bind; [apply tame_getattr |]. intros m. destruct (file_type m); try apply tame_lift. by intros [].
  - revert s. change (tame (core_read_at handle offset size)). unfold core_read_at. destruct (_ <? _); [apply tame_lift |].
    apply tame_bind; [by apply tame_quiet |]. intros opened. apply tame_bind; [apply tame_lift |]. intros token.
    apply tame_bind; [apply tame_run |]. intros. apply tame_lift.
  - by destruct s.
  - destruct s as [self w]. by destruct path.
  - revert s. change (tame core_shutdown). apply tame_bind; [by apply tame_update |]. intros _.
    apply tame_bind; [apply tame_gets |]. intros slot. apply tame_bind; [by apply tame_update |]. intros _.
    destruct slot; [| by apply tame_quiet]. apply tame_bind; [apply tame_service |]. intros. apply tame_lift.
Qed.
End tame.

(** ** The pool *)
Record pool_wf (pool : NamedVolumeProviderPool) : Prop := {
  pw_interned name r : pl_providers pool !! name = Some r →
    ∃ p, pl_store pool !! r = Some p ∧ nv_volume_name p = name;
  pw_keyed r p : pl_store pool !! r = Some p →
    nv_daemon_identity p = pl_daemon_identity pool ∧
    hp_node_namespace (nv_core p) = provider_key (nv_daemon_identity p) (nv_volume_name p);
  pw_live r p : pl_store pool !! r = Some p → hp_active (nv_core p) = true →
    pl_providers pool !! nv_volume_name p = Some r;
}.

(** A change of one core that does not revive it. *)
Lemma pool_wf_store pool r p core :
  pool_wf pool → pl_store pool !! r = Some p → grows (nv_core p) core →
  pool_wf (set_store (<[r := mkNamedVolumeProvider (nv_daemon_identity p) (nv_volume_name p) core]> (pl_store pool)) pool).
Proof.
  intros [H1 H2 H3] Hr [Hg1 Hg2]. split; cbn.
  - intros name r' Hn. destruct (H1 name r' Hn) as (p' & Hp' & Hname). destruct (decide (r = r')) as [->|Hne].
    + rewrite Hr in Hp'. injection Hp' as ->. eexists. split; [apply list_lookup_insert_eq; by eapply lookup_lt_Some | done].
    + exists p'. by rewrite list_lookup_insert_ne.
  - intros r' p' Hp'. apply list_lookup_insert_Some in Hp' as [(-> & <- & _)|[_ Hp']]; [| by apply (H2 r')].
    cbn. rewrite Hg1. by apply (H2 r').
  - intros r' p' Hp'. apply list_lookup_insert_Some in Hp' as [(-> & <- & _)|[_ Hp']]; [| by apply H3].
    cbn. intros Ha. apply (H3 r' p Hr). by apply Hg2.
Qed.

Lemma pool_provider_wf name pool : pool_wf pool → pool_wf (pool_provider name pool).2.
Proof.
  intros [H1 H2 H3]. unfold pool_provider. destruct (pl_providers pool !! name) as [r|] eqn:E; [done |]. split; cbn.
  - intros n r. rewrite lookup_insert_Some. intros [[<- <-]|[Hne Hn]].
    + eexists. split; [by apply list_lookup_middle | done].
    + destruct (H1 n r Hn) as (p & Hp & Hname). exists p. split; [| done]. by apply lookup_app_l_Some.
  - intros r p. rewrite lookup_app_Some. intros [Hp|[_ Hp]]; [by apply (H2 r) |].
    apply list_lookup_singleton_Some in Hp as [_ <-]. done.
  - intros r p. rewrite lookup_app_Some. intros [Hp|[Hge Hp]] Ha.
    + pose proof (H3 r p Hp Ha) as Hm. rewrite lookup_insert_ne; [done |]. intros ->. congruence.
    + apply list_lookup_singleton_Some in Hp as [Hz <-]. cbn. rewrite lookup_insert_eq. f_equal. lia.
Qed.

Section pool_steps.
Context {W : Type} {FF : FuserFlags} {HB : HelperBuild} {DH : DockerHelpers W} {DX : DockerExec W} {HJ : HelperJson}
  {CH : Chrono} {CK : Clock W} {DO : DrainOrder}.

(** A call through a reference, or an operation of the pool. *)
Inductive pool_op : Type :=
  | PO_provider (volume_name : text)
  | PO_call (r : nat) (op : helper_op)
  | PO_remove (volume_name : text)
  | PO_shutdown.

Definition call_provider (r : nat) (op : helper_op) (s : NamedVolumeProviderPool * W) : NamedVolumeProviderPool * W :=
  match pl_store s.1 !! r with
  | Some p => (on_provider r (fun c => (Ok tt, helper_step (SF := volume_factory (nv_volume_name p)) c op)) s).2
  | None => s
  end.

Definition pool_step (s : NamedVolumeProviderPool * W) (op : pool_op) : NamedVolumeProviderPool * W :=
  match op with
  | PO_provider name => ((pool_provider name s.1).2, s.2)
  | PO_call r op => call_provider r op s
  | PO_remove name => (pool_remove name s).2
  | PO_shutdown => (pool_shutdown s).2
  end.

Definition down (r : nat) (pool : NamedVolumeProviderPool) : Prop :=
  ∀ p, pl_store pool !! r = Some p → hp_active (nv_core p) = false.

Lemma shutdown_grows s : grows s.1 (core_shutdown (DX := DX) s).2.1 ∧ hp_active (core_shutdown (DX := DX) s).2.1 = false.
Proof.
  destruct s as [self w]. unfold core_shutdown, self_update, self_gets, update, gets, mbind, prog_bind. cbn.
  destruct (hp_session self); [| done]. unfold service. cbn. by destruct (invalidate_session _ _) as [[[]| |] ?].
Qed.

(** A shutdown through a reference: that provider is down, the others and the
    map are as before. *)
Lemma shutdown_at r p (pool : NamedVolumeProviderPool) (w : W) :
  pl_store pool !! r = Some p →
  ∃ core w', on_provider r core_shutdown (pool, w)
    = ((core_shutdown (nv_core p, w)).1,
       (set_store (<[r := mkNamedVolumeProvider (nv_daemon_identity p) (nv_volume_name p) core]> (pl_store pool)) pool, w')) ∧
    grows (nv_core p) core ∧ hp_active core = false.
Proof.
  intros Hr. unfold on_provider. cbn [fst snd]. rewrite Hr. pose proof (shutdown_grows (nv_core p, w)) as [Hg Ha].
  destruct (core_shutdown (nv_core p, w)) as [x [core w']]. cbn in *. by exists core, w'.
Qed.

(** Without the entry of a provider that is down the rest is well formed. *)
Lemma pool_wf_delete name r pool :
  pool_wf pool → pl_providers pool !! name = Some r → down r pool →
  pool_wf (set_providers (delete name (pl_providers pool)) pool).
Proof.
  intros [H1 H2 H3] Hn Hd. split; cbn.
  - intros n r'. rewrite lookup_delete_Some. intros [_ H]. by apply H1.
  - exact H2.
  - intros r' p Hp Ha. rewrite lookup_delete_ne; [by apply H3 |]. intros Heq.
    pose proof (H3 r' p Hp Ha) as Hr'. rewrite <- Heq, Hn in Hr'. injection Hr' as ->. by rewrite (Hd p Hp) in Ha.
Qed.

Lemma pool_remove_wf name (s : NamedVolumeProviderPool * W) : pool_wf s.1 → pool_wf (pool_remove name s).2.1.
Proof.
  destruct s as [pool w]. intros Hwf. unfold pool_remove. cbn [fst snd].
  destruct (pl_providers pool !! name) as [r|] eqn:E.
  - destruct (pw_interned _ Hwf name r E) as (p & Hp & _).
    destruct (shutdown_at r p (set_providers (delete name (pl_providers pool)) pool) w Hp) as (core & w' & -> & Hg & Ha).
    cbn [fst snd] in *.
    change (pool_wf (set_providers (delete name (pl_providers pool))
      (set_store (<[r := mkNamedVolumeProvider (nv_daemon_identity p) (nv_volume_name p) core]> (pl_store pool)) pool))).
    apply (pool_wf_delete name r
      (set_store (<[r := mkNamedVolumeProvider (nv_daemon_identity p) (nv_volume_name p) core]> (pl_store pool)) pool));
      [by apply pool_wf_store | done |]. intros p'. cbn. rewrite list_lookup_insert_eq by (by eapply lookup_lt_Some). by intros [= <-].
  - cbn [fst snd]. rewrite delete_id by done. by destruct pool.
Qed.

Lemma call_provider_wf r op (s : NamedVolumeProviderPool * W) : pool_wf s.1 → pool_wf (call_provider r op s).1.
Proof.
  destruct s as [pool w]. intros Hwf. unfold call_provider. cbn [fst]. destruct (pl_store pool !! r) as [p|] eqn:Hr; [| done].
  unfold on_provider. cbn [fst snd]. rewrite Hr.
  pose proof (helper_step_grows (SF := volume_factory (nv_volume_name p)) (nv_core p, w) op) as Hg.
  destruct (helper_step _ _) as [core w']. cbn in *. by apply pool_wf_store.
Qed.

(** After the loop of [shutdown] the listed providers are down. *)
Lemma shutdown_all_down refs error (pool : NamedVolumeProviderPool) (w : W) :
  Forall (fun r => (r < length (pl_store pool))%nat) refs →
  let pool' := (shutdown_all refs error (pool, w)).2.1 in
  pl_providers pool' = pl_providers pool ∧ pl_daemon_identity pool' = pl_daemon_identity pool ∧
  length (pl_store pool') = length (pl_store pool) ∧
  ∀ r p', pl_store pool' !! r = Some p' →
    ∃ p, pl_store pool !! r = Some p ∧ nv_volume_name p' = nv_volume_name p ∧
         nv_daemon_identity p' = nv_daemon_identity p ∧ grows (nv_core p) (nv_core p') ∧
         (r ∈ refs → is_panic (shutdown_all refs error (pool, w)).1 = false → hp_active (nv_core p') = false).
Proof.
  intros Hr. revert error pool w Hr. induction refs as [|r refs IH]; intros error pool w Hr; cbn [shutdown_all].
  { split_and!; try done. intros r p Hp. exists p. split_and!; try done. by inversion 1. }
  apply Forall_cons_iff in Hr as [Hlt Hr]. destruct (lookup_lt_is_Some_2 _ _ Hlt) as [p Hp].
  destruct (shutdown_at r p pool w Hp) as (core & w' & -> & Hg & Ha).
  set (pool1 := set_store _ pool).
  assert (Forall (fun r => (r < length (pl_store pool1))%nat) refs) as Hr1.
  { eapply list.Forall_impl; [exact Hr |]. cbn. intros x Hx. by rewrite length_insert. }
  assert (∀ r' p', pl_store pool1 !! r' = Some p' →
            ∃ p0, pl_store pool !! r' = Some p0 ∧ nv_volume_name p' = nv_volume_name p0 ∧
                  nv_daemon_identity p' = nv_daemon_identity p0 ∧ grows (nv_core p0) (nv_core p') ∧
                  (r' = r → hp_active (nv_core p') = false)) as H1.
  { intros r' p' H. apply list_lookup_insert_Some in H as [(-> & <- & _)|[Hne H]].
    - by exists p.
    - exists p'. split_and!; done. }
  assert (∀ err, let pool' := (shutdown_all refs err (pool1, w')).2.1 in
    pl_providers pool' = pl_providers pool ∧ pl_daemon_identity pool' = pl_daemon_identity pool ∧
    length (pl_store pool') = length (pl_store pool) ∧
    ∀ r' p', pl_store pool' !! r' = Some p' →
      ∃ p0, pl_store pool !! r' = Some p0 ∧ nv_volume_name p' = nv_volume_name p0 ∧
        nv_daemon_identity p' = nv_daemon_identity p0 ∧ grows (nv_core p0) (nv_core p') ∧
        (r' ∈ r :: refs → is_panic (shutdown_all refs err (pool1, w')).1 = false → hp_active (nv_core p') = false)) as Hgo.
  { intros err pool'. destruct (IH err pool1 w' Hr1) as (I1 & I2 & I3 & I4). cbn zeta in I4. fold pool' in I1, I2, I3, I4.
    split_and!; [done | done | rewrite I3; apply length_insert |]. intros r' p' Hp'.
    destruct (I4 r' p' Hp') as (p1 & Q1 & Q2 & Q3 & [Q4 Q4'] & Q5). destruct (H1 r' p1 Q1) as (p0 & P1 & P2 & P3 & [P4 P4'] & P5).
    exists p0. split_and!; [done | congruence | congruence | split; [congruence | auto] |].
    intros [Heq|Hin]%elem_of_cons Hnp; [| by apply Q5]. destruct (hp_active (nv_core p')) eqn:Eact; [| done].
    rewrite <- (P5 Heq). symmetry. by apply Q4'. }
  destruct (core_shutdown (nv_core p, w)).1 as [u|e|pn]; [apply Hgo | apply Hgo |].
  cbn. split_and!; [done | done | apply length_insert |]. intros r' p' Hp'.
  destruct (H1 r' p' Hp') as (p0 & P1 & P2 & P3 & P4 & _). exists p0. split_and!; try done. 
Qed.

Lemma core_shutdown_no_panic (s : HelperProviderCore * W) p : (core_shutdown s).1 ≠ Panic p.
Proof.
  destruct s as [self w]. unfold core_shutdown, self_update, self_gets, update, gets, mbind, prog_bind. cbn.
  destruct (hp_session self) as [x|]; [| done]. unfold service. cbn [snd]. pose proof (invalidate_no_panic x w) as Hp.
  destruct (invalidate_session x w) as [[[]|e|q] w']; [done | done |]. by destruct (Hp q).
Qed.

Lemma shutdown_all_no_panic refs error (pool : NamedVolumeProviderPool) (w : W) p :
  Forall (fun r => (r < length (pl_store pool))%nat) refs → (shutdown_all refs error (pool, w)).1 ≠ Panic p.
Proof.
  intros Hr. revert error pool w Hr. induction refs as [|r refs IH]; intros error pool w Hr; cbn [shutdown_all].
  { by destruct error. }
  apply Forall_cons_iff in Hr as [Hlt Hr]. destruct (lookup_lt_is_Some_2 _ _ Hlt) as [x Hx].
  destruct (shutdown_at r x pool w Hx) as (core & w' & -> & _ & _).
  pose proof (core_shutdown_no_panic (nv_core x, w)) as Hnp.
  destruct (core_shutdown (nv_core x, w)).1 as [u|e|q] eqn:E; [| | by destruct (Hnp q)]; apply IH;
    (eapply list.Forall_impl; [exact Hr |]); cbn; intros y Hy; by rewrite length_insert.
Qed.

Lemma pool_shutdown_ok (s : NamedVolumeProviderPool * W) :
  pool_wf s.1 →
  pool_wf (pool_shutdown s).2.1 ∧ pl_providers (pool_shutdown s).2.1 = ∅ ∧ ∀ r, down r (pool_shutdown s).2.1.
Proof.
  destruct s as [pool w]. intros Hwf. unfold pool_shutdown. cbn [fst snd] in *.
  set (refs := (drain (pl_providers pool)).*2). set (pool0 := set_providers ∅ pool).
  assert (∀ name r, pl_providers pool !! name = Some r → r ∈ refs) as Hin.
  { intros name r H. unfold refs. apply list_elem_of_fmap. exists (name, r). split; [done |].
    rewrite drain_perm. by apply elem_of_map_to_list. }
  assert (Forall (fun r => (r < length (pl_store pool0))%nat) refs) as Hlt.
  { apply list.Forall_forall. intros r Hr. unfold refs in Hr. apply list_elem_of_fmap in Hr as ([name r'] & -> & Hr).
    rewrite drain_perm in Hr. apply elem_of_map_to_list in Hr. destruct (pw_interned _ Hwf name r' Hr) as (p & Hp & _).
    cbn. by eapply lookup_lt_Some. }
  destruct (shutdown_all_down refs None pool0 w Hlt) as (H1 & H2 & H3 & H4).
  assert (is_panic (shutdown_all refs None (pool0, w)).1 = false) as Hnp.
  { pose proof (shutdown_all_no_panic refs None pool0 w) as Hn. destruct (shutdown_all refs None (pool0, w)).1 as [u|e|q]; [done | done |].
    by destruct (Hn q Hlt). }
  assert (∀ r, down r (shutdown_all refs None (pool0, w)).2.1) as Hdown.
  { intros r p' Hp'. destruct (H4 r p' Hp') as (p & Hp & Hname & _ & [_ Hg] & Hd).
    destruct (hp_active (nv_core p')) eqn:Ea; [| done]. rewrite <- Hd; [done | | exact Hnp].
    apply (Hin (nv_volume_name p)). apply (pw_live _ Hwf r p Hp). by apply Hg. }
  split_and!; [| exact H1 | exact Hdown]. split.
  - intros name r. rewrite H1. cbn. by rewrite lookup_empty.
  - intros r p' Hp'. destruct (H4 r p' Hp') as (p & Hp & Hname & Hid & [Hns _] & _).
    destruct (pw_keyed _ Hwf r p Hp) as [K1 K2]. rewrite Hid, Hns, Hname, H2. done.
  - intros r p' Hp' Ha. by rewrite (Hdown r p' Hp') in Ha.
Qed.

Lemma pool_step_wf s op : pool_wf s.1 → pool_wf (pool_step s op).1.
Proof.
  intros Hwf. destruct op as [name|r op|name|]; cbn [pool_step].
  - by apply pool_provider_wf.
  - by apply call_provider_wf.
  - by apply pool_remove_wf.
  - by apply pool_shutdown_ok.
Qed.

Lemma pool_steps_wf ops s : pool_wf s.1 → pool_wf (foldl pool_step s ops).1.
Proof. revert s. induction ops as [|op ops IH]; intros s Hs; [done |]. cbn. by apply IH, pool_step_wf. Qed.
End pool_steps.

(** ** Nodes *)
Lemma split_nul (a b c d : list byte) :
  "000"%byte ∉ a → "000"%byte ∉ c → a ++ "000"%byte :: b = c ++ "000"%byte :: d → a = c ∧ b = d.
Proof.
  revert c. induction a as [|x a IH]; intros [|y c] Ha Hc H; cbn in H.
  - by injection H as ->.
  - injection H as <- _. by destruct Hc; left.
  - injection H as -> _. by destruct Ha; left.
  - injection H as <- H. apply IH in H as [-> ->]; [done | |]; intros ?; [apply Ha | apply Hc]; by right.
Qed.

Lemma as_bytes_inj (p q : VirtualPath) : path_wf p → path_wf q → VirtualPath_as_bytes p = VirtualPath_as_bytes q → p = q.
Proof.
  intros Hp Hq H. pose proof (from_absolute_as_bytes p Hp) as H1. rewrite H, from_absolute_as_bytes in H1 by done.
  by injection H1.
Qed.

(** ** Orphans *)
Definition orphan_ids (daemon_instance : text) (listed : list ListedContainer) : gset text :=
  list_to_set (omap lc_id (List.filter (is_bind_helper daemon_instance) listed)).

Lemma remove_bind_helpers_ok {W} {DX : DockerExec W} {DH : DockerHelpers W} {EC : EngineContainers W}
  {EL : EngineContainersLaws W} daemon_instance listed n (w : W) :
  match remove_bind_helpers daemon_instance listed n w with
  | (Ok _, w') => containers w' = containers w ∖ orphan_ids daemon_instance listed
  | (_, w') => containers w' ⊆ containers w ∧ containers w ∖ orphan_ids daemon_instance listed ⊆ containers w'
  end.
Proof.
  revert n w. induction listed as [|c listed IH]; intros n w; cbn [remove_bind_helpers].
  { unfold orphan_ids. cbn. set_solver. }
  unfold orphan_ids. cbn [List.filter]. destruct (is_bind_helper daemon_instance c) eqn:Eb; cbn [negb]; [| apply IH].
  destruct (lc_id c) as [id|] eqn:Ei; cbn [omap list_omap]; rewrite Ei; [| apply IH].
  unfold mbind, fprog_bind. unfold force_remove_container at 1. pose proof (containers_remove id w) as Hr.
  destruct (remove_container id w) as [r w1]. cbn [snd] in Hr. cbn [list_to_set].
  assert (∀ n', match remove_bind_helpers daemon_instance listed n' w1 with
          | (Ok _, w') => containers w' = containers w ∖ ({[id]} ∪ orphan_ids daemon_instance listed)
          | (_, w') => containers w' ⊆ containers w ∧
                       containers w ∖ ({[id]} ∪ orphan_ids daemon_instance listed) ⊆ containers w'
          end) as Hgo.
  { intros n'. specialize (IH n' w1). destruct (remove_bind_helpers daemon_instance listed n' w1) as [[k|e|p] w']; rewrite Hr in IH; set_solver. }
  fold (orphan_ids daemon_instance listed).
  destruct r as [[[]|e]|]; [apply Hgo | | apply Hgo]. destruct (_ || _); [apply Hgo |].
  rewrite Hr. set_solver.
Qed.

(** The helper containers of a bind provider: what its sessions promise to the
    provider core follows from how the engine creates and removes containers. *)
Section bind_containers.
Context {W : Type} {HB : HelperBuild} {DH : DockerHelpers W} {DX : DockerExec W} {HJ : HelperJson}
  {EC : EngineContainers W} {EL : EngineContainersLaws W}.

Definition bind_live : HelperContainers W := {| live := containers |}.

Lemma bind_containers_laws (provider : HelperBindProvider) :
  HelperContainersLaws (SF := bind_factory provider) (HC := bind_live) W.
Proof.
  split; [| exact containers_remove | exact containers_create_exec | exact containers_start_exec].
  intros token w. cbn.
  pose proof (create_bind_accounts (hb_source_root provider) (hb_daemon_instance provider) token w) as H.
  destruct (create_bind_session _ _ token w) as [[x|e|p] w']; [apply H | exact H | exact H].
Qed.
End bind_containers.

Lemma with_options_ok is_local socket daemon_instance source_root ttl provider :
  with_options is_local socket daemon_instance source_root ttl = Ok provider →
  is_local = true ∧ 1000 <= ttl <= 3000 ∧ is_absolute source_root = true ∧ bytes ".." ∉ path_pieces source_root ∧
  is_ok (from_utf8 source_root) = true ∧ contains_docker_socket source_root socket = false ∧ daemon_instance ≠ [] ∧
  ∃ descriptor,
    provider = mkHelperBindProvider source_root daemon_instance
      (HelperProviderCore_new descriptor
         (bytes "helper-bind" ++ ["000"%byte] ++ daemon_instance ++ ["000"%byte] ++ source_root) ttl).
Proof.
  unfold with_options, validate_source_root, mbind, result_bind. destruct is_local; [| done]. cbn [negb].
  destruct (_ && _) eqn:Ettl; [| done]. apply andb_prop in Ettl as [H1%Z.leb_le H2%Z.leb_le]. cbn [negb].
  destruct (is_absolute source_root); [| done]. cbn [negb]. case_bool_decide as Hd; [done |].
  destruct (is_ok (from_utf8 source_root)); [| done]. cbn [negb]. destruct (contains_docker_socket _ _); [done |].
  destruct daemon_instance as [|b rest]; [done |]. cbn [is_empty]. intros [= <-]. split_and!; try done. by eexists.
Qed.

Lemma volume_key_inj identity identity' name name' (rest rest' : list byte) :
  "000"%byte ∉ identity → "000"%byte ∉ identity' → "000"%byte ∉ name → "000"%byte ∉ name' →
  provider_key identity name ++ "000"%byte :: rest = provider_key identity' name' ++ "000"%byte :: rest' →
  identity = identity' ∧ name = name' ∧ rest = rest'.
Proof.
  intros Hi Hi' Hn Hn' H. unfold provider_key in H. rewrite <- !app_assoc in H. apply app_inv_head in H. cbn in H.
  injection H as H.
  apply split_nul in H as [-> H]; [| done | done]. by apply split_nul in H as [-> ->].
Qed.

(** C27: There is one live provider per volume.  Whatever sequence of requests for
    providers, calls through references (old ones too), removals and shutdowns a
    new pool went through, two references to live providers of the same volume
    are the same reference, a request for the volume of a live provider returns
    that provider, and a shutdown leaves no provider live. *)
Theorem one_provider_per_volume {W : Type} {FF : FuserFlags} {HB : HelperBuild} {DH : DockerHelpers W} {DX : DockerExec W}
  {HJ : HelperJson} {CH : Chrono} {CK : Clock W} {DO : DrainOrder} (daemon_identity : text) (directory_ttl : Z)
  (pool : NamedVolumeProviderPool) (w : W) (ops : list pool_op) :
  with_directory_ttl daemon_identity directory_ttl = Ok pool →
  let s := foldl pool_step (pool, w) ops in
  (∀ r p, pl_store s.1 !! r = Some p → hp_active (nv_core p) = true →
     pool_provider (nv_volume_name p) s.1 = (r, s.1) ∧
     ∀ r' p', pl_store s.1 !! r' = Some p' → hp_active (nv_core p') = true →
       nv_volume_name p' = nv_volume_name p → r' = r) ∧
  pl_providers (pool_shutdown s).2.1 = ∅ ∧ ∀ r, down r (pool_shutdown s).2.1.
Proof.
  intros Hpool s. assert (pool_wf pool) as H0.
  { unfold with_directory_ttl in Hpool. destruct (negb _); [done |]. injection Hpool as <-. split; cbn.
    - intros name r. by rewrite lookup_empty.
    - intros r p. by rewrite lookup_nil.
    - intros r p. by rewrite lookup_nil. }
  pose proof (pool_steps_wf ops (pool, w) H0) as Hwf. fold s in Hwf. split.
  - intros r p Hp Ha. pose proof (pw_live _ Hwf r p Hp Ha) as Hr. split.
    + unfold pool_provider. by rewrite Hr.
    + intros r' p' Hp' Ha' Hname. pose proof (pw_live _ Hwf r' p' Hp' Ha') as Hr'. congruence.
  - apply (pool_shutdown_ok s Hwf).
Qed.

(** Nodes of different remote files are different.  The node ids of two named
    volumes coincide only for the same daemon, the same volume and the same
    path, and no node of a volume is a node of a bind mount; names of daemons and
    volumes contain no NUL byte. *)
Theorem volume_nodes_distinct (identity identity' name name' : text) (ttl ttl' : Z) (path path' : VirtualPath) :
  "000"%byte ∉ identity → "000"%byte ∉ identity' → "000"%byte ∉ name → "000"%byte ∉ name' →
  path_wf path → path_wf path' →
  (remote_node_id (nv_core (NamedVolumeProvider_new identity name ttl)) path
   = remote_node_id (nv_core (NamedVolumeProvider_new identity' name' ttl')) path' →
   identity = identity' ∧ name = name' ∧ path = path') ∧
  ∀ is_local socket daemon_instance source_root bind_ttl provider,
    with_options is_local socket daemon_instance source_root bind_ttl = Ok provider →
    remote_node_id (nv_core (NamedVolumeProvider_new identity name ttl)) path ≠ remote_node_id (hb_core provider) path'.
Proof.
  intros Hi Hi' Hn Hn' Hp Hp'. split.
  - intros H. apply volume_key_inj in H as (-> & -> & H); [| done..]. split_and!; [done | done |]. by apply as_bytes_inj.
  - intros is_local socket daemon_instance source_root bind_ttl provider H.
    apply with_options_ok in H as (_ & _ & _ & _ & _ & _ & _ & descriptor & ->). discriminate.
Qed.

(** A bind provider accounts for its helper.  A provider is only made for an
    absolute source without parent components that does not hold the engine's
    socket, and over an engine without helpers of its own, whatever operations
    run, the containers are exactly the helper of the session it holds; once it
    was shut down there is none, and there is no open file. *)
Theorem bind_provider_accounted {W : Type} {FF : FuserFlags} {HB : HelperBuild} {DH : DockerHelpers W} {DX : DockerExec W}
  {HJ : HelperJson} {CH : Chrono} {CK : Clock W} {EC : EngineContainers W} {EL : EngineContainersLaws W}
  (is_local : bool) (socket : option text) (daemon_instance source_root : text) (ttl : Z) (provider : HelperBindProvider)
  (w : W) (ops : list helper_op) :
  with_options is_local socket daemon_instance source_root ttl = Ok provider → containers w = ∅ →
  is_absolute source_root = true ∧ bytes ".." ∉ path_pieces source_root ∧
  contains_docker_socket source_root socket = false ∧
  let s := foldl (helper_step (SF := bind_factory provider)) (hb_core provider, w) ops in
  containers s.2 = held s.1 ∧
  (Op_shutdown ∈ ops → containers s.2 = ∅ ∧ hp_handles s.1 = ∅).
Proof.
  intros Hok Hw. pose proof (with_options_ok _ _ _ _ _ _ Hok) as (_ & _ & Ha & Hd & _ & Hs & _ & descriptor & ->).
  split_and!; [done | done | done |]. set (provider := mkHelperBindProvider _ _ _). intros s.
  destruct (helper_steps_accounted (SF := bind_factory provider) (HL := bind_containers_laws provider) descriptor
              (bytes "helper-bind" ++ ["000"%byte] ++ daemon_instance ++ ["000"%byte] ++ source_root) ttl w ops Hw)
    as [H1 H2].
  split; [apply (inv_live _ H1) |]. intros Hin. by destruct (H2 Hin) as (? & _ & ? & _).
Qed.

(** The clean-up of orphans removes exactly its own helpers.  When it succeeds,
    the containers left are those that are not labelled as a bind helper of this
    daemon; when it fails, no container but a labelled one was removed. *)
Theorem orphan_cleanup_exact {W : Type} {DX : DockerExec W} {DH : DockerHelpers W} {EC : EngineContainers W}
  {EL : EngineContainersLaws W} (daemon_instance : text) (listed : list ListedContainer) (w w1 : W) :
  daemon_instance ≠ [] →
  list_containers (bind_filters daemon_instance) w = (Some (inl listed), w1) → containers w1 = containers w →
  match cleanup_orphan_bind_helpers daemon_instance w with
  | (Ok _, w') => containers w' = containers w ∖ orphan_ids daemon_instance listed
  | (_, w') => containers w' ⊆ containers w ∧ containers w ∖ orphan_ids daemon_instance listed ⊆ containers w'
  end.
Proof.
  intros Hd Hl Hw. unfold cleanup_orphan_bind_helpers. destruct daemon_instance as [|b rest]; [done |]. cbn [is_empty].
  rewrite Hl. pose proof (remove_bind_helpers_ok (b :: rest) listed 0 w1) as H.
  destruct (remove_bind_helpers _ _ _ _) as [[n|e|p] w']; rewrite Hw in H; exact H.
Qed.

(** A directory at the root of a volume can be hidden.  The names that the
    runtime mounts at the root of a container are left out of the listing of
    the browse root, which for a volume is the volume: a directory of the volume
    that has one of these names is never listed, hidden names asked for or not. *)
Theorem volume_root_hides_names (name : list byte) (show_hidden : bool) (cursor : option (list byte))
  (items : list (list byte)) :
  name ∈ [bytes "proc"; bytes "sys"; bytes "dev"; bytes "run"; bytes ".tuxstack"] →
  name ∉ visible true show_hidden cursor items.
Proof.
  intros Hn Hv. unfold visible in Hv. rewrite (sort_by_perm bytes_cmp) in Hv.
  apply list_elem_of_In, filter_In in Hv as [_ Hv]. apply negb_true_iff in Hv.
  enough (list_skips true show_hidden cursor name = true) by congruence. clear Hv. unfold list_skips.
  repeat (apply elem_of_cons in Hn as [-> | Hn]; [by destruct (bool_decide _), show_hidden |]). by apply elem_of_nil in Hn.
Qed.

(** ** Examples *)
Definition sample_drain : DrainOrder := {| drain A m := map_to_list m; drain_perm A m := Permutation_refl (map_to_list m) |}.
#[local] Existing Instance sample_drain.
#[local] Instance pool_build : HelperBuild := {
  ARCH := bytes "x86_64"; CARGO_PKG_VERSION := bytes "1"; helper_x86_64 := Some (bytes "ELF"); helper_aarch64 := None;
}.
#[local] Existing Instance bits_json.
#[local] Instance pool_exec : DockerExec (list text * gset text) := helper_engine (FS := sample_fs).
#[local] Instance pool_helpers : DockerHelpers (list text * gset text) := sample_helpers true.
#[local] Instance pool_clock : Clock (list text * gset text) := { instant_now _ := 0 }.
#[local] Instance pool_containers : EngineContainers (list text * gset text) := { containers := snd }.
#[local] Instance pool_engine_laws : EngineContainersLaws (list text * gset text) := sample_engine_laws true.

Lemma one_provider_per_volume_witness :
  ∃ pool, with_directory_ttl (bytes "d") 1000 = Ok pool ∧
    ∀ r, down r (pool_shutdown (foldl pool_step (pool, no_containers)
      [PO_provider (bytes "data"); PO_remove (bytes "data"); PO_provider (bytes "data"); PO_call 0 Op_shutdown])).2.1.
Proof.
  eexists. split; [reflexivity |].
  apply (one_provider_per_volume (bytes "d") 1000 (mkNamedVolumeProviderPool (bytes "d") 1000 ∅ []) no_containers
    [PO_provider (bytes "data"); PO_remove (bytes "data"); PO_provider (bytes "data"); PO_call 0 Op_shutdown]).
  reflexivity.
Defined.

Lemma volume_nodes_distinct_witness :
  remote_node_id (nv_core (NamedVolumeProvider_new (bytes "d") (bytes "a") 1000)) VirtualPath_root
  ≠ remote_node_id (nv_core (NamedVolumeProvider_new (bytes "d") (bytes "b") 1000)) VirtualPath_root.
Proof.
  intros H.
  destruct (volume_nodes_distinct (bytes "d") (bytes "d") (bytes "a") (bytes "b") 1000 1000 VirtualPath_root VirtualPath_root)
    as [Heq _].
  1-4: apply (bool_decide_unpack _); vm_compute; exact I.
  1-2: apply VirtualPath_root_wf.
  destruct (Heq H) as (_ & Hn & _). discriminate Hn.
Defined.

Lemma bind_provider_accounted_witness :
  ∃ provider, with_options true None (bytes "d") (bytes "/srv/data") 1000 = Ok provider ∧
    containers (foldl (helper_step (SF := bind_factory provider)) (hb_core provider, no_containers)
      [Op_getattr (sample_path "/motd"); Op_shutdown]).2 = ∅.
Proof.
  destruct (with_options true None (bytes "d") (bytes "/srv/data") 1000) as [provider|e|p] eqn:E;
    [| vm_compute in E; discriminate E | vm_compute in E; discriminate E].
  exists provider. split; [reflexivity |].
  destruct (bind_provider_accounted true None (bytes "d") (bytes "/srv/data") 1000 provider no_containers
              [Op_getattr (sample_path "/motd"); Op_shutdown] E) as (_ & _ & _ & _ & H); [reflexivity |].
  apply H. apply list_elem_of_further, list_elem_of_here.
Defined.

Definition leftover : ListedContainer := mkListedContainer (Some (bytes "c9")) (Some (helper_labels (bytes "d") (bytes "s"))).
(** An engine that lists one leftover helper. *)
Definition leftover_engine : DockerExec (list text * gset text) := {|
  create_exec _ cmd _ w := (inl (bytes "exec"), w);
  start_exec _ _ w := (None, w);
  remove_container id w := (Some (inl tt), (w.1, w.2 ∖ {[id]}));
  list_containers _ w := (Some (inl [leftover]), w);
|}.
Lemma leftover_engine_laws : EngineContainersLaws (DX := leftover_engine) (list text * gset text).
Proof. split; try done. intros body w. cbn. case_bool_decide; [done | by split]. Qed.

Lemma orphan_cleanup_exact_witness :
  containers (cleanup_orphan_bind_helpers (DX := leftover_engine) (bytes "d") ([], {[bytes "c9"]})).2
  = {[bytes "c9"]} ∖ orphan_ids (bytes "d") [leftover].
Proof.
  pose proof (orphan_cleanup_exact (DX := leftover_engine) (EL := leftover_engine_laws) (bytes "d") [leftover]
                ([], {[bytes "c9"]}) ([], {[bytes "c9"]})) as H.
  specialize (H ltac:(discriminate) eq_refl eq_refl).
  assert (is_ok (cleanup_orphan_bind_helpers (DX := leftover_engine) (bytes "d") ([], {[bytes "c9"]})).1 = true) as E
    by (vm_compute; reflexivity).
  destruct (cleanup_orphan_bind_helpers (DX := leftover_engine) (bytes "d") ([], {[bytes "c9"]})) as [[n|e|p] w'];
    [exact H | discriminate E | discriminate E].
Defined.

Lemma volume_root_hides_names_witness : bytes "run" ∉ visible true true None [bytes "data"; bytes "run"].
Proof. apply (volume_root_hides_names (bytes "run") true None). do 3 apply list_elem_of_further. apply list_elem_of_here. Defined.
