(* ===== verification/Coordinator.v ===== *)
(** The cache coordinator of docker-core (cache/coordinator.rs): a map with
    expiry times, and the single-flight coordinator that lets concurrent callers
    with the same key share one request.

    The callers of the coordinator are tasks that move one at a time.  A task
    waits for the lock of the map, holds it through the section that joins or
    starts a request, and then awaits a shared future; the drop of the leader's
    guard happens when it returns or is cancelled and only tries the lock.  The
    labels of [coord_step] say which task moves, so every list of labels is an
    interleaving. *)

From S2P Require Import Prelude.

Local Open Scope Z_scope.

(** ** The map with expiry times *)
Section ttl.
Context {K V : Type} `{Countable K}.

Record TtlEntry := mkTtlEntry {
  value : V;
  inserted_at : Z;
  expires_at : option Z;
}.

(** [inserted_at + ttl]: the times of this program are far from the end of [Instant]. *)
Definition TtlEntry_fresh (now : Z) (v : V) (ttl : option Z) : TtlEntry :=
  mkTtlEntry v now ((fun ttl => now + ttl) <$> ttl).

Definition TtlEntry_expired (self : TtlEntry) (now : Z) : bool :=
  match expires_at self with Some at_ => at_ <=? now | None => false end.

(** [now.saturating_duration_since(entry.inserted_at)] *)
Definition entry_age (now : Z) (self : TtlEntry) : Z := saturating_sub now (inserted_at self).

Definition ttl_get (now : Z) (key : K) (ttl : option Z) (inner : gmap K TtlEntry) : option V * gmap K TtlEntry :=
  let expired :=
    match inner !! key with
    | Some entry => match ttl with Some ttl => ttl <=? entry_age now entry | None => false end
    | None => false
    end in
  if expired then (None, delete key inner) else (value <$> inner !! key, inner).

Definition ttl_insert (now : Z) (key : K) (v : V) (ttl : option Z) (inner : gmap K TtlEntry) : gmap K TtlEntry :=
  <[key := TtlEntry_fresh now v ttl]> inner.

Definition ttl_remove (key : K) (inner : gmap K TtlEntry) : gmap K TtlEntry := delete key inner.
Definition ttl_contains (key : K) (inner : gmap K TtlEntry) : bool := bool_decide (is_Some (inner !! key)).

Definition prune_expired (now : Z) (ttl : option Z) (inner : gmap K TtlEntry) : nat * gmap K TtlEntry :=
  match ttl with
  | None => (O, inner)
  | Some ttl =>
      let kept := filter (fun e => entry_age now e.2 < ttl) inner in
      ((size inner - size kept)%nat, kept)
  end.

(** Pruning forgets exactly what a later [get] with the same limit would refuse:
    before and after it, every key reads the same at any later time. *)
Lemma prune_keeps_reads now now' ttl key inner :
  now ≤ now' → (ttl_get now' key ttl (prune_expired now ttl inner).2).1 = (ttl_get now' key ttl inner).1.
Proof.
  intros Hle. destruct ttl as [ttl|]; [| done]. cbn [prune_expired snd]. unfold ttl_get.
  set (kept := filter _ inner). destruct (inner !! key) as [e|] eqn:He.
  - destruct (decide (entry_age now e < ttl)) as [Hage|Hage].
    + assert (kept !! key = Some e) as -> by (by apply map_lookup_filter_Some). by destruct (ttl <=? _).
    + assert (kept !! key = None) as Hk.
      { apply map_lookup_filter_None. right. intros x Hx. rewrite He in Hx. by injection Hx as <-. }
      rewrite Hk. assert ((ttl <=? entry_age now' e) = true) as ->; [| done].
      apply Z.leb_le. unfold entry_age, saturating_sub in *. lia.
  - assert (kept !! key = None) as Hk by (apply map_lookup_filter_None; by left). by rewrite Hk.
Qed.

(** What was inserted is read back until its time is over, and not after it. *)
Lemma ttl_insert_get now now' key v ttl stored inner :
  now ≤ now' →
  (ttl_get now' key ttl (ttl_insert now key v stored inner)).1
  = match ttl with Some ttl => if bool_decide (ttl ≤ now' - now) then None else Some v | None => Some v end.
Proof.
  intros Hle. unfold ttl_get, ttl_insert. rewrite lookup_insert_eq. destruct ttl as [ttl|]; [| done].
  unfold entry_age, saturating_sub. cbn [inserted_at TtlEntry_fresh]. rewrite Z.max_r by lia.
  case_bool_decide as Hb; [by rewrite (proj2 (Z.leb_le _ _) Hb) |].
  rewrite (proj2 (Z.leb_gt _ _)) by lia. done.
Qed.
End ttl.
Arguments TtlEntry V : clear implicits.

(** ** Single flight *)
Inductive FlightOutcome := Leader | Joined.

#[export] Instance FlightOutcome_eq_dec : EqDecision FlightOutcome.
Proof. solve_decision. Defined.

Section coordinator.
Context {K V : Type} `{Countable K}.

(** What a task was called for. *)
Inductive coord_call :=
  | RunOnce (key : K)
  | Forget (key : K)
  | Clear.

(** Where it is. *)
Inductive task :=
  | Locking (call : coord_call)
  | Holding (call : coord_call)
  | Awaiting (outcome : FlightOutcome) (key : K) (fut : nat)
  | Returned (outcome : FlightOutcome) (key : K) (fut : nat) (v : V)
  | Finished
  | Cancelled.

(** The shared futures are numbered in the order in which [produce] was called. *)
Record coord := mkCoord {
  lock : option nat;
  in_flight : gmap K nat;
  futures : list (K * option V);
  tasks : gmap nat task;
}.

Definition RequestCoordinator_new : coord := mkCoord None ∅ [] ∅.

Definition set_task (t : nat) (x : task) (s : coord) : coord :=
  mkCoord (lock s) (in_flight s) (futures s) (<[t := x]> (tasks s)).

(** [InFlightGuard::drop] *)
Definition guard_drop (key : K) (s : coord) : coord :=
  match lock s with
  | None => mkCoord None (delete key (in_flight s)) (futures s) (tasks s)
  | Some _ => s
  end.

(** The section of [run_once] under the lock, which ends with [drop(in_flight)]. *)
Definition run_once_section (t : nat) (key : K) (s : coord) : coord :=
  match in_flight s !! key with
  | Some fut => mkCoord None (in_flight s) (futures s) (<[t := Awaiting Joined key fut]> (tasks s))
  | None =>
      let fut := length (futures s) in
      mkCoord None (<[key := fut]> (in_flight s)) (futures s ++ [(key, None)])
        (<[t := Awaiting Leader key fut]> (tasks s))
  end.

Definition forget_section (t : nat) (key : K) (s : coord) : coord :=
  mkCoord None (delete key (in_flight s)) (futures s) (<[t := Finished]> (tasks s)).

Definition clear_section (t : nat) (s : coord) : coord :=
  mkCoord None ∅ (futures s) (<[t := Finished]> (tasks s)).

Inductive coord_label :=
  | Call (t : nat) (call : coord_call)
  | Acquire (t : nat)
  | Section_ (t : nat)
  | Complete (t : nat) (v : V)   (* the future that task [t] polls is ready *)
  | Resolve (t : nat)
  | Cancel (t : nat).

(** One move.  A label that is not enabled does nothing. *)
Definition coord_step (l : coord_label) (s : coord) : coord :=
  match l with
  | Call t call => match tasks s !! t with None => set_task t (Locking call) s | Some _ => s end
  | Acquire t =>
      match tasks s !! t, lock s with
      | Some (Locking call), None => mkCoord (Some t) (in_flight s) (futures s) (<[t := Holding call]> (tasks s))
      | _, _ => s
      end
  | Section_ t =>
      match tasks s !! t with
      | Some (Holding (RunOnce key)) => run_once_section t key s
      | Some (Holding (Forget key)) => forget_section t key s
      | Some (Holding Clear) => clear_section t s
      | _ => s
      end
  | Complete t v =>
      match tasks s !! t with
      | Some (Awaiting _ _ fut) =>
          match futures s !! fut with
          | Some (key, None) => mkCoord (lock s) (in_flight s) (<[fut := (key, Some v)]> (futures s)) (tasks s)
          | _ => s
          end
      | _ => s
      end
  | Resolve t =>
      match tasks s !! t with
      | Some (Awaiting outcome key fut) =>
          match futures s !! fut with
          | Some (_, Some v) =>
              let s := set_task t (Returned outcome key fut v) s in
              match outcome with Leader => guard_drop key s | Joined => s end
          | _ => s
          end
      | _ => s
      end
  | Cancel t =>
      match tasks s !! t with
      | Some (Locking _) => set_task t Cancelled s
      | Some (Awaiting Leader key _) => guard_drop key (set_task t Cancelled s)
      | Some (Awaiting Joined _ _) => set_task t Cancelled s
      | _ => s
      end
  end.

Definition run (ls : list coord_label) (s : coord) : coord := foldl (fun s l => coord_step l s) s ls.

(** [RequestCoordinator::in_flight_count] *)
Definition in_flight_count (s : coord) : nat := size (in_flight s).
End coordinator.
Arguments coord_call K : clear implicits.
Arguments task K V : clear implicits.
Arguments coord K V {_ _}.
Arguments coord_label K V : clear implicits.

(** ** What holds in every interleaving *)
Section facts.
Context {K V : Type} `{Countable K}.
Implicit Types (s : coord K V) (l : coord_label K V) (x : task K V).

(** A task that started the request [fut]. *)
Definition leads (x : task K V) (fut : nat) : Prop :=
  match x with
  | Awaiting Leader _ f | Returned Leader _ f _ => f = fut
  | _ => False
  end.

(** A task's future is one of its key, and has the value it returned. *)
Definition task_ok s x : Prop :=
  match x with
  | Awaiting _ k f => ∃ o, futures s !! f = Some (k, o)
  | Returned _ k f v => futures s !! f = Some (k, Some v)
  | _ => True
  end.

Record coord_inv s : Prop := {
  ci_lock t : (∃ c, tasks s !! t = Some (Holding c)) ↔ lock s = Some t;
  ci_flight k f : in_flight s !! k = Some f → ∃ o, futures s !! f = Some (k, o);
  ci_tasks t x : tasks s !! t = Some x → task_ok s x;
  ci_leader t1 t2 x1 x2 f :
    tasks s !! t1 = Some x1 → tasks s !! t2 = Some x2 → leads x1 f → leads x2 f → t1 = t2;
}.

(** Futures only grow and keep their values. *)
Definition grows (fs fs' : list (K * option V)) : Prop :=
  ∀ f k o, fs !! f = Some (k, o) → ∃ o', fs' !! f = Some (k, o') ∧ (∀ v, o = Some v → o' = Some v).

Lemma grows_refl fs : grows fs fs.
Proof. intros f k o Hf. exists o. done. Qed.

Lemma flights_grow_trans fs1 fs2 fs3 : grows fs1 fs2 → grows fs2 fs3 → grows fs1 fs3.
Proof.
  intros H1 H2 f k o Hf. destruct (H1 f k o Hf) as (o' & Hf' & Ho). destruct (H2 f k o' Hf') as (o'' & Hf'' & Ho').
  exists o''. split; [done |]. intros v Hv. by apply Ho', Ho.
Qed.

Lemma grows_app fs e : grows fs (fs ++ e).
Proof. intros f k o Hf. exists o. split; [by apply lookup_app_l_Some | done]. Qed.

Lemma grows_complete fs f k v : fs !! f = Some (k, None) → grows fs (<[f := (k, Some v)]> fs).
Proof.
  intros Hf f' k' o Hf'. destruct (decide (f' = f)) as [->|Hne].
  - rewrite Hf in Hf'. injection Hf' as <- <-. exists (Some v). split; [| done].
    apply list_lookup_insert_eq. by eapply lookup_lt_Some.
  - exists o. by rewrite list_lookup_insert_ne.
Qed.

Lemma task_ok_grows s s' x : grows (futures s) (futures s') → task_ok s x → task_ok s' x.
Proof.
  intros Hg. destruct x as [c|c|o k f|o k f v| |]; cbn; try done.
  - intros [o' Hf]. destruct (Hg f k o' Hf) as (o'' & ? & _). eauto.
  - intros Hf. destruct (Hg f k (Some v) Hf) as (o'' & Hf' & Ho). rewrite Hf'. by rewrite (Ho v eq_refl).
Qed.

(** The invariant of a step that changes the task [t] to [x]. *)
Lemma coord_inv_update s s' t x :
  coord_inv s → tasks s' = <[t := x]> (tasks s) → grows (futures s) (futures s') →
  (∀ t', (∃ c, <[t := x]> (tasks s) !! t' = Some (Holding c)) ↔ lock s' = Some t') →
  (∀ k f, in_flight s' !! k = Some f → ∃ o, futures s' !! f = Some (k, o)) → task_ok s' x →
  (∀ f, leads x f → (∃ x0, tasks s !! t = Some x0 ∧ leads x0 f) ∨ futures s !! f = None) →
  coord_inv s'.
Proof.
  intros Hinv Ht Hg Hlock Hfl Hok Hlead.
  assert (∀ t1 x1 f, t ≠ t1 → tasks s !! t1 = Some x1 → leads x1 f → leads x f → False) as Huniq.
  { intros t1 x1 f Hne H1 Hl1 Hl. destruct (Hlead f Hl) as [(x0 & H0 & Hl0)|Hnone].
    - by apply Hne, (ci_leader s Hinv t t1 x0 x1 f).
    - apply (ci_tasks s Hinv) in H1. destruct x1 as [| |[] k1 f1|[] k1 f1 v1| |]; cbn in Hl1, H1; try done; subst.
      + destruct H1 as [o H1]. congruence.
      + congruence. }
  split; rewrite ?Ht; [done | done | |].
  - intros t' x' [[<- <-]|[_ Hx]]%lookup_insert_Some; [done |]. eapply task_ok_grows; [exact Hg |]. by apply (ci_tasks s Hinv t').
  - intros t1 t2 x1 x2 f [[<- <-]|[Hn1 H1]]%lookup_insert_Some [[<- <-]|[Hn2 H2]]%lookup_insert_Some Hl1 Hl2; [done | | |].
    + by destruct (Huniq t2 x2 f Hn2 H2 Hl2 Hl1).
    + by destruct (Huniq t1 x1 f Hn1 H1 Hl1 Hl2).
    + by apply (ci_leader s Hinv t1 t2 x1 x2 f).
Qed.

(** Changing a task that does not hold the lock to one that does not. *)
Lemma lock_unchanged s t x :
  coord_inv s → lock s ≠ Some t → (∀ c, x ≠ Holding c) →
  ∀ t', (∃ c, <[t := x]> (tasks s) !! t' = Some (Holding c)) ↔ lock s = Some t'.
Proof.
  intros Hinv Hl Hx t'. rewrite <- (ci_lock s Hinv t'). destruct (decide (t = t')) as [<-|Hne].
  - rewrite lookup_insert_eq. split; [intros [c [= ->]]; by destruct (Hx c) |]. intros Hc. by apply (ci_lock s Hinv) in Hc.
  - by rewrite lookup_insert_ne.
Qed.

Lemma lock_released s t x :
  coord_inv s → lock s = Some t → (∀ c, x ≠ Holding c) →
  ∀ t', (∃ c, <[t := x]> (tasks s) !! t' = Some (Holding c)) ↔ @None nat = Some t'.
Proof.
  intros Hinv Hl Hx t'. split; [| done]. intros [c [[<- ->]|[Hne Hc]]%lookup_insert_Some]; [by destruct (Hx c) |].
  assert (lock s = Some t') by (apply (ci_lock s Hinv); eauto). congruence.
Qed.

Lemma not_holding s t x : coord_inv s → tasks s !! t = Some x → (∀ c, x ≠ Holding c) → lock s ≠ Some t.
Proof. intros Hinv Hx Hn Hl. apply (ci_lock s Hinv) in Hl as [c Hc]. rewrite Hx in Hc. injection Hc as ->. by destruct (Hn c). Qed.

Lemma coord_inv_guard s key : coord_inv s → coord_inv (guard_drop key s).
Proof.
  intros Hinv. unfold guard_drop. destruct (lock s) eqn:Hl; [done |]. destruct Hinv as [H1 H2 H3 H4].
  split; cbn; [intros t; by rewrite <- Hl, H1 | | done | done]. intros k f [_ Hf]%lookup_delete_Some. by apply H2.
Qed.

Lemma coord_inv_set s t x :
  coord_inv s → lock s ≠ Some t → (∀ c, x ≠ Holding c) → task_ok s x →
  (∀ f, leads x f → ∃ x0, tasks s !! t = Some x0 ∧ leads x0 f) → coord_inv (set_task t x s).
Proof.
  intros Hinv Hl Hx Hok Hlead. eapply coord_inv_update; [exact Hinv | done | apply grows_refl | | | done |]; cbn.
  - by apply lock_unchanged.
  - apply (ci_flight s Hinv).
  - intros f Hf. left. by apply Hlead.
Qed.

Lemma coord_inv_section s t c : coord_inv s → tasks s !! t = Some (Holding c) → coord_inv (coord_step (Section_ t) s).
Proof.
  intros Hinv Ht. assert (lock s = Some t) as Hl by (apply (ci_lock s Hinv); eauto).
  cbn. rewrite Ht. destruct c as [key|key|].
  - unfold run_once_section. destruct (in_flight s !! key) as [fut|] eqn:Hf.
    + eapply coord_inv_update; [exact Hinv | done | apply grows_refl | by apply lock_released | apply (ci_flight s Hinv) | |]; cbn.
      * by apply (ci_flight s Hinv).
      * done.
    + eapply coord_inv_update; [exact Hinv | done | apply grows_app | by apply lock_released | | |]; cbn.
      * intros k f [[<- <-]|[_ Hk]]%lookup_insert_Some; [exists None; by apply list_lookup_middle |].
        destruct (ci_flight s Hinv k f Hk) as [o Ho]. exists o. by apply lookup_app_l_Some.
      * exists None. by apply list_lookup_middle.
      * intros f <-. right. by apply lookup_ge_None.
  - eapply coord_inv_update; [exact Hinv | done | apply grows_refl | by apply lock_released | | done | done]; cbn.
    intros k f [_ Hk]%lookup_delete_Some. by apply (ci_flight s Hinv).
  - eapply coord_inv_update; [exact Hinv | done | apply grows_refl | by apply lock_released | | done | done]; cbn. done.
Qed.

Lemma coord_inv_step l s : coord_inv s → coord_inv (coord_step l s).
Proof.
  intros Hinv. destruct l as [t c|t|t|t v|t|t]; cbn.
  - destruct (tasks s !! t) as [x|] eqn:Ht; [done |]. apply coord_inv_set; try done.
    intros Hl. apply (ci_lock s Hinv) in Hl as [c' Hc]. congruence.
  - destruct (tasks s !! t) as [[c|c|o k f|o k f v| |]|] eqn:Ht; try done. destruct (lock s) eqn:Hl; [done |].
    eapply coord_inv_update; [exact Hinv | done | apply grows_refl | | apply (ci_flight s Hinv) | done | done]; cbn.
    intros t'. split; [| intros [= <-]; exists c; by rewrite lookup_insert_eq].
    intros [c' [[<- _]|[_ Hc]]%lookup_insert_Some]; [done |].
    assert (lock s = Some t') by (apply (ci_lock s Hinv); eauto). congruence.
  - destruct (tasks s !! t) as [[c|c|o k f|o k f v| |]|] eqn:Ht; try done.
    pose proof (coord_inv_section s t c Hinv Ht) as Hs. cbn in Hs. by rewrite Ht in Hs.
  - destruct (tasks s !! t) as [[c|c|o k f|o k f v'| |]|] eqn:Ht; try done.
    destruct (futures s !! f) as [[k' [v'|]]|] eqn:Hf; try done.
    pose proof (grows_complete _ _ _ v Hf) as Hg. destruct Hinv as [H1 H2 H3 H4]. split; cbn; [done | | | done].
    + intros k0 f0 Hk. destruct (H2 k0 f0 Hk) as [o0 Ho]. destruct (Hg _ _ _ Ho) as (o1 & ? & _). eauto.
    + intros t0 x Hx. eapply task_ok_grows; [exact Hg | by eapply H3].
  - destruct (tasks s !! t) as [[c|c|o k f|o k f v'| |]|] eqn:Ht; try done.
    destruct (futures s !! f) as [[k' [v'|]]|] eqn:Hf; try done.
    assert (k' = k) as ->. { destruct (ci_tasks s Hinv t _ Ht) as [o' Ho]. congruence. }
    assert (coord_inv (set_task t (Returned o k f v') s)) as Hs.
    { apply coord_inv_set; try done; [by eapply not_holding |]. intros f' Hl. exists (Awaiting o k f). by destruct o. }
    destruct o; [by apply coord_inv_guard | done].
  - destruct (tasks s !! t) as [x|] eqn:Ht; [| done].
    assert ((∀ c, x ≠ Holding c) → coord_inv (set_task t Cancelled s)) as Hs.
    { intros Hx. apply coord_inv_set; try done. by eapply not_holding. }
    destruct x as [c|c|[] k f|o k f v'| |]; try done; [by apply Hs | | by apply Hs].
    apply coord_inv_guard. by apply Hs.
Qed.

Lemma coord_inv_new : coord_inv RequestCoordinator_new.
Proof. split; cbn; try done. intros t. split; [by intros [c Hc] | done]. Qed.

Lemma coord_inv_run ls s : coord_inv s → coord_inv (run ls s).
Proof. revert s. induction ls as [|l ls IH]; intros s Hs; [done |]. apply IH, coord_inv_step, Hs. Qed.

(** *** One request at a time *)

(** Nobody calls [forget] or [clear], and no leader is cancelled.  Waiters may be. *)
Definition calm l s : bool :=
  match l with
  | Call _ (RunOnce _) => true
  | Call _ _ => false
  | Cancel t => match tasks s !! t with Some (Awaiting Leader _ _) => false | _ => true end
  | _ => true
  end.
Fixpoint calm_run (ls : list (coord_label K V)) s : bool :=
  match ls with [] => true | l :: ls => calm l s && calm_run ls (coord_step l s) end.

Record flight_inv s : Prop := {
  fi_calls t c : tasks s !! t = Some (Locking c) ∨ tasks s !! t = Some (Holding c) → ∃ k, c = RunOnce k;
  fi_leader t k f : tasks s !! t = Some (Awaiting Leader k f) → in_flight s !! k = Some f;
  fi_waiter t o k f : tasks s !! t = Some (Awaiting o k f) → futures s !! f = Some (k, None) → in_flight s !! k = Some f;
}.

Lemma flight_inv_set s t x :
  flight_inv s → (∀ c, x = Locking c ∨ x = Holding c → ∃ k, c = RunOnce k) → (∀ o k f, x ≠ Awaiting o k f) →
  flight_inv (set_task t x s).
Proof.
  intros [H1 H2 H3] Hc Hx. split; cbn.
  - intros t' c [[[<- E]|[_ E]]%lookup_insert_Some|[[<- E]|[_ E]]%lookup_insert_Some]; eauto.
  - intros t' k f [[_ E]|[_ E]]%lookup_insert_Some; [by destruct (Hx Leader k f) | by eapply H2].
  - intros t' o k f [[_ E]|[_ E]]%lookup_insert_Some; [by destruct (Hx o k f) | by eapply H3].
Qed.

(** A leader that leaves takes its own entry with it. *)
Lemma flight_inv_leave s t k f v :
  coord_inv s → flight_inv s → tasks s !! t = Some (Awaiting Leader k f) → futures s !! f = Some (k, Some v) →
  flight_inv (guard_drop k (set_task t (Returned Leader k f v) s)).
Proof.
  intros Hinv Hfi Ht Hf. assert (flight_inv (set_task t (Returned Leader k f v) s)) as Hs
    by (apply flight_inv_set; [done | intros c [|]; done | done]).
  unfold guard_drop. cbn [lock set_task]. destruct (lock s); [done |]. destruct Hs as [H1 H2 H3]. cbn in *.
  pose proof (fi_leader s Hfi t k f Ht) as Hk. split; cbn; [done | |].
  - intros t' k' f' Ht'. rewrite lookup_delete_ne; [by eapply H2 |]. intros <-.
    pose proof (H2 _ _ _ Ht') as Hk'. rewrite Hk in Hk'. injection Hk' as <-.
    apply lookup_insert_Some in Ht' as [[_ E]|[Hne Ht']]; [done |].
    by apply Hne, (ci_leader s Hinv t t' _ _ f Ht Ht').
  - intros t' o k' f' Ht' Hf'. rewrite lookup_delete_ne; [by eapply H3 |]. intros <-.
    pose proof (H3 _ _ _ _ Ht' Hf') as Hk'. rewrite Hk in Hk'. injection Hk' as <-. congruence.
Qed.

Lemma flight_inv_step l s : coord_inv s → flight_inv s → calm l s = true → flight_inv (coord_step l s).
Proof.
  intros Hinv Hfi Hcalm. destruct l as [t c|t|t|t v|t|t]; cbn in *.
  - destruct (tasks s !! t) as [x|] eqn:Ht; [done |]. apply flight_inv_set; [done | | done].
    destruct c as [k| |]; [| done | done]. intros c [[= <-]|[=]]. eauto.
  - destruct (tasks s !! t) as [[c|c|o k f|o k f v| |]|] eqn:Ht; try done. destruct (lock s) eqn:Hl; [done |].
    destruct (flight_inv_set s t (Holding c) Hfi) as [H1 H2 H3]; [| done | by split].
    intros c' [[=]|[= <-]]. apply (fi_calls s Hfi t). by left.
  - destruct (tasks s !! t) as [[c|c|o k f|o k f v| |]|] eqn:Ht; try done.
    destruct (fi_calls s Hfi t c) as [k ->]; [by right |]. unfold run_once_section.
    destruct Hfi as [H1 H2 H3]. destruct (in_flight s !! k) as [fut|] eqn:Hk; (split; cbn).
    + intros t' c [[[<- E]|[_ E]]%lookup_insert_Some|[[<- E]|[_ E]]%lookup_insert_Some]; eauto; done.
    + intros t' k' f [[_ [=]]|[_ E]]%lookup_insert_Some. by eapply H2.
    + intros t' o k' f [[_ [= <- <- <-]]|[_ E]]%lookup_insert_Some; [done | by eapply H3].
    + intros t' c [[[<- E]|[_ E]]%lookup_insert_Some|[[<- E]|[_ E]]%lookup_insert_Some]; eauto; done.
    + intros t' k' f [[_ [= <- <-]]|[_ E]]%lookup_insert_Some; [by rewrite lookup_insert_eq |].
      rewrite lookup_insert_ne; [by eapply H2 |]. intros <-. apply H2 in E. congruence.
    + intros t' o k' f [[_ [= <- <- <-]]|[_ E]]%lookup_insert_Some Hf; [by rewrite lookup_insert_eq |].
      destruct (ci_tasks s Hinv t' _ E) as [o' Ho]. rewrite (lookup_app_l_Some _ _ _ _ Ho) in Hf. injection Hf as ->.
      rewrite lookup_insert_ne; [by eapply H3 |]. intros <-. eapply H3 in E; [congruence | done].
  - destruct (tasks s !! t) as [[c|c|o k f|o k f v'| |]|] eqn:Ht; try done.
    destruct (futures s !! f) as [[k' [v'|]]|] eqn:Hf; try done. destruct Hfi as [H1 H2 H3]. split; cbn; [done | done |].
    intros t' o' k0 f0 Ht' Hf0. destruct (decide (f0 = f)) as [->|Hne].
    + rewrite list_lookup_insert_eq in Hf0 by (by eapply lookup_lt_Some). done.
    + rewrite list_lookup_insert_ne in Hf0 by done. by eapply H3.
  - destruct (tasks s !! t) as [[c|c|o k f|o k f v'| |]|] eqn:Ht; try done.
    destruct (futures s !! f) as [[k' [v'|]]|] eqn:Hf; try done.
    assert (k' = k) as ->. { destruct (ci_tasks s Hinv t _ Ht) as [o' Ho]. congruence. }
    destruct o; [by apply flight_inv_leave |]. apply flight_inv_set; [done | intros c [|]; done | done].
  - destruct (tasks s !! t) as [[c|c|[] k f|o k f v'| |]|] eqn:Ht; try done;
      (apply flight_inv_set; [done | intros c' [|]; done | done]).
Qed.

Lemma flight_inv_run ls s : coord_inv s → flight_inv s → calm_run ls s = true → flight_inv (run ls s).
Proof.
  revert s. induction ls as [|l ls IH]; intros s Hinv Hfi Hc; [done |]. cbn in Hc. apply andb_prop in Hc as [Hl Hc].
  apply IH; [by apply coord_inv_step | by apply flight_inv_step | done].
Qed.

Lemma flight_inv_new : flight_inv RequestCoordinator_new.
Proof. split; cbn; try done. by intros t c [|]. Qed.

(** C23: Concurrent callers with the same key share one request.  In every
    interleaving in which nobody forgets a key or cancels a leader (waiters may
    be cancelled), all callers that still wait for a running request of a key
    wait for the same one, the entry of the map leads every further caller to it
    instead of starting another, every request has one leader, and every answer
    is the value its request for that very key produced. *)
Theorem single_flight ls :
  calm_run ls RequestCoordinator_new = true →
  let s := run ls RequestCoordinator_new in
  (∀ t1 t2 o1 o2 k f1 f2, tasks s !! t1 = Some (Awaiting o1 k f1) → tasks s !! t2 = Some (Awaiting o2 k f2) →
     futures s !! f1 = Some (k, None) → futures s !! f2 = Some (k, None) → f1 = f2)
  ∧ (∀ t o k f t', tasks s !! t = Some (Awaiting o k f) → futures s !! f = Some (k, None) →
     tasks s !! t' = Some (Holding (RunOnce k)) →
     tasks (coord_step (Section_ t') s) !! t' = Some (Awaiting Joined k f)
     ∧ futures (coord_step (Section_ t') s) = futures s)
  ∧ (∀ t1 t2 x1 x2 f, tasks s !! t1 = Some x1 → tasks s !! t2 = Some x2 → leads x1 f → leads x2 f → t1 = t2)
  ∧ (∀ t o k f v, tasks s !! t = Some (Returned o k f v) → futures s !! f = Some (k, Some v)).
Proof.
  intros Hc s. assert (coord_inv s) as Hinv by apply coord_inv_run, coord_inv_new.
  assert (flight_inv s) as Hfi by (apply flight_inv_run; [apply coord_inv_new | apply flight_inv_new | done]).
  split_and!.
  - intros t1 t2 o1 o2 k f1 f2 H1 H2 Hf1 Hf2. pose proof (fi_waiter s Hfi _ _ _ _ H1 Hf1) as E1.
    pose proof (fi_waiter s Hfi _ _ _ _ H2 Hf2) as E2. congruence.
  - intros t o k f t' Ht Hf Ht'. pose proof (fi_waiter s Hfi _ _ _ _ Ht Hf) as E. cbn. rewrite Ht'.
    unfold run_once_section. rewrite E. cbn. by rewrite lookup_insert_eq.
  - apply (ci_leader s Hinv).
  - intros t o k f v Ht. apply (ci_tasks s Hinv _ _ Ht).
Qed.

(** *** The entries of the map *)

(** The guard of a leader that leaves finds the lock free. *)
Definition unobstructed l s : bool :=
  match l with
  | Resolve t | Cancel t =>
      match tasks s !! t with Some (Awaiting Leader _ _) => bool_decide (lock s = None) | _ => true end
  | _ => true
  end.
Fixpoint unobstructed_run (ls : list (coord_label K V)) s : bool :=
  match ls with [] => true | l :: ls => unobstructed l s && unobstructed_run ls (coord_step l s) end.

Definition entries_led s : Prop :=
  ∀ k f, in_flight s !! k = Some f → ∃ t, tasks s !! t = Some (Awaiting Leader k f).

Lemma entries_led_set s t x :
  entries_led s → (∀ k f, tasks s !! t ≠ Some (Awaiting Leader k f)) → entries_led (set_task t x s).
Proof.
  intros He Ht k f Hk. destruct (He k f Hk) as [t' Ht']. exists t'. cbn. rewrite lookup_insert_ne; [done |].
  intros <-. by destruct (Ht k f).
Qed.

(** A leader leaves and its guard has the lock. *)
Lemma entries_led_leave s t x k f :
  coord_inv s → entries_led s → tasks s !! t = Some (Awaiting Leader k f) → lock s = None →
  entries_led (guard_drop k (set_task t x s)).
Proof.
  intros Hinv He Ht Hl. unfold guard_drop. cbn. rewrite Hl. intros k' f' Hk. cbn in Hk. apply lookup_delete_Some in Hk as [Hne Hk].
  destruct (He k' f' Hk) as [t' Ht']. exists t'. cbn. rewrite lookup_insert_ne; [done |]. intros <-. congruence.
Qed.

Lemma entries_led_step l s : coord_inv s → entries_led s → unobstructed l s = true → entries_led (coord_step l s).
Proof.
  intros Hinv He Hu. destruct l as [t c|t|t|t v|t|t]; cbn in *.
  - destruct (tasks s !! t) as [x|] eqn:Ht; [done |]. apply entries_led_set; [done | by rewrite Ht].
  - destruct (tasks s !! t) as [[c|c|o k f|o k f v| |]|] eqn:Ht; try done. destruct (lock s); [done |].
    apply (entries_led_set s t (Holding c)) in He; [done | by rewrite Ht].
  - destruct (tasks s !! t) as [[c|c|o k f|o k f v| |]|] eqn:Ht; try done.
    assert (∀ x, entries_led (set_task t x s)) as Hset by (intros x; apply entries_led_set; [done | by rewrite Ht]).
    destruct c as [k|k|].
    + unfold run_once_section. destruct (in_flight s !! k) as [fut|] eqn:Hk; [apply (Hset (Awaiting Joined k fut)) |].
      intros k' f' Hk'. cbn in Hk'. apply lookup_insert_Some in Hk' as [[<- <-]|[Hne Hk']]; cbn; [exists t; by rewrite lookup_insert_eq |].
      exact (Hset (Awaiting Leader k (length (futures s))) k' f' Hk').
    + intros k' f' Hk'. cbn in Hk'. apply lookup_delete_Some in Hk' as [_ Hk']. exact (Hset Finished k' f' Hk').
    + done.
  - destruct (tasks s !! t) as [[c|c|o k f|o k f v'| |]|] eqn:Ht; try done.
    destruct (futures s !! f) as [[k' [v'|]]|] eqn:Hf; done.
  - destruct (tasks s !! t) as [[c|c|[] k f|o k f v'| |]|] eqn:Ht; try done;
      (destruct (futures s !! f) as [[k' [v'|]]|] eqn:Hf; try done).
    + apply bool_decide_eq_true in Hu. by eapply entries_led_leave.
    + apply entries_led_set; [done | by rewrite Ht].
  - destruct (tasks s !! t) as [[c|c|[] k f|o k f v'| |]|] eqn:Ht; try done.
    + apply entries_led_set; [done | by rewrite Ht].
    + apply bool_decide_eq_true in Hu. by eapply entries_led_leave.
    + apply entries_led_set; [done | by rewrite Ht].
Qed.

(** No request outlives its callers in the map.  In every interleaving,
    cancellations and [forget] included, in which the guard of a leaving leader
    finds the lock free, each entry belongs to a leader that still waits; so when
    nobody waits, the map is empty and the next call starts a fresh request. *)
Theorem no_entry_left ls :
  unobstructed_run ls RequestCoordinator_new = true →
  let s := run ls RequestCoordinator_new in
  (∀ k f, in_flight s !! k = Some f → ∃ t, tasks s !! t = Some (Awaiting Leader k f))
  ∧ ((∀ t k f, tasks s !! t ≠ Some (Awaiting Leader k f)) → in_flight_count s = O).
Proof.
  assert (∀ ls s, coord_inv s → entries_led s → unobstructed_run ls s = true → entries_led (run ls s)) as Hrun.
  { clear ls. induction ls as [|l ls IH]; intros s Hinv He Hu; [done |]. cbn in Hu. apply andb_prop in Hu as [Hl Hu].
    apply IH; [by apply coord_inv_step | by apply entries_led_step | done]. }
  intros Hu s. assert (entries_led s) as He by (apply Hrun; [apply coord_inv_new | done | done]). split; [exact He |].
  intros Hnone. unfold in_flight_count. apply map_size_empty_iff, map_eq. intros k. rewrite lookup_empty.
  destruct (in_flight s !! k) as [f|] eqn:Hk; [| done]. destruct (He k f Hk) as [t Ht]. by destruct (Hnone t k f).
Qed.

(** *** A guard that does not get the lock *)

(** The entry of [k] is a finished request without a leader, and the tasks in
    [late] found it. *)
Record stale_inv (late : nat → Prop) (k : K) (fut : nat) (v : V) (n : nat) s : Prop := {
  st_calls t c : tasks s !! t = Some (Locking c) ∨ tasks s !! t = Some (Holding c) → ∃ k, c = RunOnce k;
  st_entry : in_flight s !! k = Some fut;
  st_done : futures s !! fut = Some (k, Some v);
  st_leader t f : tasks s !! t ≠ Some (Awaiting Leader k f);
  st_late t x : late t → tasks s !! t = Some x →
    match x with Awaiting o k' f | Returned o k' f _ => k' = k → o = Joined ∧ f = fut | _ => True end;
  st_count : length (filter (fun e => e.1 = k) (futures s)) = n;
}.

Definition no_forget l : bool := match l with Call _ (Forget _) | Call _ Clear => false | _ => true end.

Lemma stale_inv_set late k fut v n s t x :
  stale_inv late k fut v n s → (∀ c, x = Locking c ∨ x = Holding c → ∃ k, c = RunOnce k) →
  (∀ f, x ≠ Awaiting Leader k f) →
  (late t → match x with Awaiting o k' f | Returned o k' f _ => k' = k → o = Joined ∧ f = fut | _ => True end) →
  stale_inv late k fut v n (set_task t x s).
Proof.
  intros [H1 H2 H3 H4 H5 H6] Hc Hx Hl. split; cbn; try done.
  - intros t' c [[[<- E]|[_ E]]%lookup_insert_Some|[[<- E]|[_ E]]%lookup_insert_Some]; eauto.
  - intros t' f [[_ E]|[_ E]]%lookup_insert_Some; [by destruct (Hx f) | by destruct (H4 t' f)].
  - intros t' x' Ht [[<- <-]|[_ E]]%lookup_insert_Some; [by apply Hl | by eapply H5].
Qed.

Lemma stale_inv_guard late k fut v n s k' :
  stale_inv late k fut v n s → k' ≠ k → stale_inv late k fut v n (guard_drop k' s).
Proof.
  intros [H1 H2 H3 H4 H5 H6] Hne. unfold guard_drop. destruct (lock s); [done |]. split; cbn; try done.
  by rewrite lookup_delete_ne.
Qed.

Lemma stale_inv_step late k fut v n l s :
  coord_inv s → stale_inv late k fut v n s → no_forget l = true → stale_inv late k fut v n (coord_step l s).
Proof.
  intros Hinv Hst Hl. destruct l as [t c|t|t|t w|t|t]; cbn in *.
  - destruct (tasks s !! t) as [x|] eqn:Ht; [done |]. apply stale_inv_set; [done | | done | done].
    intros c' [[= <-]|[=]]. destruct c; [eauto | done | done].
  - destruct (tasks s !! t) as [[c|c|o k' f|o k' f w| |]|] eqn:Ht; try done. destruct (lock s) eqn:El; [done |].
    destruct (stale_inv_set late k fut v n s t (Holding c) Hst) as [H1 H2 H3 H4 H5 H6]; [| done | done | by split].
    intros c' [[=]|[= <-]]. apply (st_calls _ _ _ _ _ s Hst t). by left.
  - destruct (tasks s !! t) as [[c|c|o k' f|o k' f w| |]|] eqn:Ht; try done.
    destruct (st_calls _ _ _ _ _ s Hst t c) as [k' ->]; [by right |]. unfold run_once_section.
    destruct (in_flight s !! k') as [f|] eqn:Hk.
    + destruct (stale_inv_set late k fut v n s t (Awaiting Joined k' f) Hst) as [H1 H2 H3 H4 H5 H6];
        [by intros c [|] | done | | by split].
      intros _ ->. split; [done |]. pose proof (st_entry _ _ _ _ _ s Hst). congruence.
    + assert (k' ≠ k) as Hne by (intros ->; pose proof (st_entry _ _ _ _ _ s Hst); congruence).
      destruct (stale_inv_set late k fut v n s t (Awaiting Leader k' (length (futures s))) Hst) as [H1 H2 H3 H4 H5 H6];
        [by intros c [|] | by intros f [= ->] | done |].
      split; cbn in *; try done; [by rewrite lookup_insert_ne | by apply lookup_app_l_Some |].
      rewrite list.filter_app, length_app, H6, filter_cons_False by done. cbn. lia.
  - destruct (tasks s !! t) as [[c|c|o k' f|o k' f w'| |]|] eqn:Ht; try done.
    destruct (futures s !! f) as [[k0 [w'|]]|] eqn:Hf; try done. destruct Hst as [H1 H2 H3 H4 H5 H6]. split; cbn; try done.
    + rewrite list_lookup_insert_ne; [done |]. intros <-. congruence.
    + rewrite <- H6, insert_take_drop by (by eapply lookup_lt_Some).
      rewrite <- (take_drop_middle (futures s) f (k0, None) Hf) at 3.
      rewrite !list.filter_app, !length_app, !filter_cons. cbn. by destruct (decide (k0 = k)).
  - destruct (tasks s !! t) as [[c|c|o k' f|o k' f w'| |]|] eqn:Ht; try done.
    destruct (futures s !! f) as [[k0 [w'|]]|] eqn:Hf; try done.
    assert (stale_inv late k fut v n (set_task t (Returned o k' f w') s)) as Hset.
    { apply stale_inv_set; [done | by intros c [|] | done |]. intros Hlate. exact (st_late _ _ _ _ _ s Hst t _ Hlate Ht). }
    destruct o; [| done]. apply stale_inv_guard; [done |]. intros ->. by destruct (st_leader _ _ _ _ _ s Hst t f).
  - destruct (tasks s !! t) as [[c|c|[] k' f|o k' f w'| |]|] eqn:Ht; try done;
      try (apply stale_inv_set; [done | by intros c' [|] | done | done]).
    apply stale_inv_guard; [| intros ->; by destruct (st_leader _ _ _ _ _ s Hst t f)].
    apply stale_inv_set; [done | by intros c' [|] | done | done].
Qed.

Lemma stale_inv_run late k fut v n ls s :
  coord_inv s → stale_inv late k fut v n s → forallb no_forget ls = true → stale_inv late k fut v n (run ls s).
Proof.
  revert s. induction ls as [|l ls IH]; intros s Hinv Hst Hl; [done |]. cbn in Hl. apply andb_prop in Hl as [Hl Hls].
  apply IH; [by apply coord_inv_step | by apply stale_inv_step | done].
Qed.
End facts.

(** A leader of key 1 whose guard is dropped while a caller of key 2 has the lock. *)
Definition contended_run : list (coord_label nat nat) :=
  [Call 0 (RunOnce 1%nat); Acquire 0; Section_ 0; Complete 0 7%nat;
   Call 1 (RunOnce 2%nat); Acquire 1; Resolve 0; Section_ 1].

(** A finished request can be served for ever.  The guard of the leader only
    tries the lock; when another caller has it at that moment, the finished
    request stays in the map.  From then on, without [forget], every later caller
    of the key gets the old value, whatever happens, and the producer of the key
    is never called again. *)
Theorem finished_request_served_forever (ls : list (coord_label nat nat)) :
  forallb no_forget ls = true →
  let s := run ls (run contended_run RequestCoordinator_new) in
  (∀ t o f v, (2 ≤ t)%nat → tasks s !! t = Some (Returned o 1%nat f v) → o = Joined ∧ v = 7%nat)
  ∧ length (filter (fun e => e.1 = 1%nat) (futures s)) = 1%nat.
Proof.
  intros Hls s. assert (coord_inv s) as Hinv by apply coord_inv_run, coord_inv_run, coord_inv_new.
  assert (stale_inv (fun t => 2 ≤ t)%nat 1%nat O 7%nat 1 s) as Hst.
  { apply stale_inv_run; [apply coord_inv_run, coord_inv_new | | done].
    assert (∀ t x, tasks (run contended_run RequestCoordinator_new) !! t = Some x →
      (t = O ∧ x = Returned Leader 1%nat O 7%nat) ∨ (t = 1%nat ∧ x = Awaiting Leader 2%nat 1%nat)) as Ht.
    { intros t x. replace (tasks _) with ({[0%nat := Returned Leader 1%nat O 7%nat; 1%nat := Awaiting Leader 2%nat 1%nat]}
        : gmap nat (task nat nat)) by (vm_compute; reflexivity).
      intros [[<- <-]|[_ [<- <-]%lookup_singleton_Some]]%lookup_insert_Some; auto. }
    split.
    - intros t c [[[_ [=]]|[_ [=]]]%Ht|[[_ [=]]|[_ [=]]]%Ht].
    - reflexivity.
    - reflexivity.
    - intros t f [[_ [=]]|[_ [=]]]%Ht.
    - intros t x Hlt [[-> ->]|[-> ->]]%Ht; lia.
    - reflexivity. }
  split; [| apply (st_count _ _ _ _ _ s Hst)]. intros t o f v Hlt Ht.
  destruct (st_late _ _ _ _ _ s Hst t _ Hlt Ht eq_refl) as [-> ->]. split; [done |].
  pose proof (ci_tasks s Hinv t _ Ht) as Hv. cbn in Hv. rewrite (st_done _ _ _ _ _ s Hst) in Hv. by injection Hv as <-.
Qed.

Lemma finished_request_served_forever_witness :
  let s := run [Call 2 (RunOnce 1%nat); Acquire 2; Section_ 2; Resolve 2] (run contended_run RequestCoordinator_new) in
  tasks s !! 2%nat = Some (Returned Joined 1%nat O 7%nat).
Proof.
  cbv zeta. pose proof (finished_request_served_forever
    [Call 2 (RunOnce 1%nat); Acquire 2; Section_ 2; Resolve 2] eq_refl) as [H _].
  assert (∃ o v, tasks (run [Call 2 (RunOnce 1%nat); Acquire 2; Section_ 2; Resolve 2]
    (run contended_run RequestCoordinator_new)) !! 2%nat = Some (Returned o 1%nat O v)) as (o & v & E)
    by (eexists _, _; vm_compute; reflexivity).
  destruct (H 2%nat o O v) as [-> ->]; [lia | exact E | exact E].
Defined.

(** Two callers of one key, one of whom is cancelled. *)
Definition shared_run : list (coord_label nat nat) :=
  [Call 0 (RunOnce 1%nat); Acquire 0; Section_ 0; Call 1 (RunOnce 1%nat); Acquire 1; Section_ 1;
   Call 2 (RunOnce 1%nat); Cancel 1; Acquire 2].

Lemma single_flight_witness :
  let s := run shared_run RequestCoordinator_new in
  tasks (coord_step (Section_ 2) s) !! 2%nat = Some (Awaiting Joined 1%nat O).
Proof.
  destruct (single_flight shared_run) as (_ & H & _); [vm_compute; reflexivity |].
  apply (H 0%nat Leader 1%nat O 2%nat); vm_compute; reflexivity.
Defined.

Lemma no_entry_left_witness :
  in_flight_count (run (shared_run ++ [Section_ 2; Complete 2 7%nat; Resolve 0; Resolve 2]) RequestCoordinator_new) = O.
Proof.
  destruct (no_entry_left (shared_run ++ [Section_ 2; Complete 2 7%nat; Resolve 0; Resolve 2])) as [_ H]; [vm_compute; reflexivity |].
  apply H. intros t k f Ht. assert (t = O ∨ t = 1%nat ∨ t = 2%nat ∨ (3 ≤ t)%nat) as [->|[->|[->|Hge]]] by lia;
    [vm_compute in Ht; discriminate Ht.. |].
  revert Ht. replace (tasks _) with ({[0%nat := Returned Leader 1%nat O 7%nat; 1%nat := Cancelled;
    2%nat := Returned Joined 1%nat O 7%nat]} : gmap nat (task nat nat)) by (vm_compute; reflexivity).
  rewrite !lookup_insert_ne by lia. rewrite lookup_singleton_ne by lia. discriminate.
Defined.
