(* ===== verification/Persistent.v ===== *)
(** The persistent snapshot cache of docker-core (cache/persistent.rs).

    The statements of the source are SQL; the fragment it uses (an upsert, a
    select and a delete with equality conditions) is given its meaning here, with
    the errors of unknown tables and columns.  Whether a statement or transaction
    fails for another reason (a full disk, a busy file) is decided by [SqliteEnv]
    from the number of operations so far.

    The writes of [put] go through a queue to the flusher thread, which collects
    them in a batch; [put_usage] and [record_connection] start a thread of their
    own that nobody joins.  So the state has the database, the queue, the batch
    and the statements of the threads that have not run, and [background] lets the
    threads move in any order. *)

From S2P Require Import Prelude Numbers Text.

Local Open Scope Z_scope.

(** ** SQL *)
Inductive sql_value :=
  | VText (s : text)
  | VBlob (b : list byte)
  | VInt (n : Z)
  | VNull.
#[export] Instance sql_value_eq_dec : EqDecision sql_value.
Proof. solve_decision. Defined.
#[export] Program Instance sql_value_countable : Countable sql_value :=
  inj_countable'
    (fun v => match v with VText s => inl s | VBlob b => inr (inl b) | VInt n => inr (inr (inl n)) | VNull => inr (inr (inr ())) end)
    (fun x => match x with inl s => VText s | inr (inl b) => VBlob b | inr (inr (inl n)) => VInt n | inr (inr (inr _)) => VNull end)
    _.
Next Obligation. by intros []. Qed.

(** A row gives each column its value; a table keeps its rows by primary key. *)
Abbreviation row := (gmap string sql_value).
Record table := mkTable {
  columns : list string;
  key_columns : list string;
  rows : gmap (list sql_value) row;
}.
Abbreviation database := (gmap string table).

Definition column (r : row) (c : string) : sql_value := default VNull (r !! c).
Definition row_key (t : table) (r : row) : list sql_value := column r <$> key_columns t.

Inductive sql :=
  | Upsert (tbl : string) (cols conflict updates : list string)
  | Select (cols : list string) (tbl : string) (where_ : list string)
  | Delete (tbl : string) (where_ : list string).

(** A condition on [NULL] is never true. *)
Definition satisfies (where_ : list string) (params : list sql_value) (r : row) : bool :=
  forallb (fun '(c, v) => bool_decide (column r c = v) && negb (bool_decide (v = VNull))) (zip where_ params).

Definition known (t : table) (cols : list string) : bool := forallb (fun c => bool_decide (c ∈ columns t)) cols.

(** [INSERT … ON CONFLICT (conflict) DO UPDATE SET u = excluded.u]: the conflict
    target must be the key of the table. *)
Definition exec_upsert (t : table) (cols conflict updates : list string) (params : list sql_value) : option table :=
  if negb (known t cols) || negb (known t updates) || negb (bool_decide (conflict = key_columns t)) then None
  else
    let new : row := list_to_map (zip cols params) in
    let key := row_key t new in
    let stored := match rows t !! key with
                  | Some old => foldr (fun c r => <[c := column new c]> r) old updates
                  | None => new
                  end in
    Some (mkTable (columns t) (key_columns t) (<[key := stored]> (rows t))).

Definition sql_execute (q : sql) (params : list sql_value) (db : database) : option database :=
  match q with
  | Upsert tbl cols conflict updates =>
      t ← db !! tbl; t' ← exec_upsert t cols conflict updates params; Some (<[tbl := t']> db)
  | Delete tbl where_ =>
      t ← db !! tbl;
      if negb (known t where_) then None
      else Some (<[tbl := mkTable (columns t) (key_columns t)
                            (filter (fun e => satisfies where_ params e.2 = false) (rows t))]> db)
  | Select _ _ _ => None
  end.

Definition sql_query (q : sql) (params : list sql_value) (db : database) : option (list (list sql_value)) :=
  match q with
  | Select cols tbl where_ =>
      t ← db !! tbl;
      if negb (known t cols) || negb (known t where_) then None
      else Some ((fun e => column e.2 <$> cols) <$> map_to_list (filter (fun e => satisfies where_ params e.2 = true) (rows t)))
  | _ => None
  end.

(** ** The cache *)
Record EndpointKey := mkEndpointKey {
  fingerprint : text;
  daemon_id : option text;
  context_name : option text;
}.

Definition storage_key (self : EndpointKey) : text :=
  match daemon_id self, context_name self with
  | Some daemon, Some context => fingerprint self ++ bytes "|" ++ daemon ++ bytes "|" ++ context
  | Some daemon, None => fingerprint self ++ bytes "|" ++ daemon
  | None, Some context => fingerprint self ++ bytes "||" ++ context
  | None, None => fingerprint self
  end.

Definition CACHE_SCHEMA_VERSION : Z := 1.

Definition metadata_columns : list string :=
  ["endpoint_key"; "schema_version"; "daemon_id"; "api_version"; "last_connected_at"].
Definition payload_columns (key : string) : list string := ["endpoint_key"; key; "payload"; "updated_at"].
Definition usage_columns : list string := ["endpoint_key"; "volume_name"; "size_bytes"; "ref_count"; "measured_at"].

Definition key_column_for (tbl : string) : option string :=
  if bool_decide (tbl = "image_summaries") || bool_decide (tbl = "image_details") then Some "image_id"
  else if bool_decide (tbl = "volume_summaries") then Some "volume_name"
  else if bool_decide (tbl = "network_summaries") then Some "network_id"
  else if bool_decide (tbl = "container_summaries") then Some "container_id"
  else None.

Definition payload_table (key : string) : table := mkTable (payload_columns key) ["endpoint_key"; key] ∅.

(** The tables of a new file; [IF NOT EXISTS] leaves those of an old one. *)
Definition create_schema (db : database) : database :=
  db ∪ list_to_map [("docker_cache_metadata"%string, mkTable metadata_columns ["endpoint_key"] ∅);
                    ("image_summaries"%string, payload_table "image_id");
                    ("image_details"%string, payload_table "image_id");
                    ("volume_summaries"%string, payload_table "volume_name");
                    ("volume_usage"%string, mkTable usage_columns ["endpoint_key"; "volume_name"] ∅);
                    ("network_summaries"%string, payload_table "network_id");
                    ("container_summaries"%string, payload_table "container_id")].

Record PendingWrite := mkPendingWrite {
  pw_table : string;
  pw_endpoint : text;
  pw_key : text;
  pw_payload : option (list byte);
  pw_timestamp : Z;
}.

Record PersistentCache := mkPersistentCache {
  connection : database;
  queue : list PendingWrite;
  batch : list PendingWrite;
  threads : list (sql * list sql_value);
  operations : nat;
}.

Definition PersistentCache_new (db : database) : PersistentCache := mkPersistentCache (create_schema db) [] [] [] 0.

(** Failures of the engine other than errors of the statements. *)
Class SqliteEnv := { sqlite_fails : nat → bool }.

(** serde_json for the type of a payload. *)
Class Json (T : Type) := {
  to_vec : T → option (list byte);
  from_slice : list byte → option T;
}.
Class JsonLaws (T : Type) `{!Json T} : Prop := {
  from_to_vec (v : T) bs : to_vec v = Some bs → from_slice bs = Some v;
}.

Section cache.
Context `{!SqliteEnv}.

(** [connection.execute], whose result the callers ignore. *)
Definition execute (q : sql) (params : list sql_value) (s : PersistentCache) : PersistentCache :=
  let db := if sqlite_fails (operations s) then connection s
            else default (connection s) (sql_execute q params (connection s)) in
  mkPersistentCache db (queue s) (batch s) (threads s) (S (operations s)).

(** A query and the next state; [None] is any error. *)
Definition query (q : sql) (params : list sql_value) (s : PersistentCache)
  : option (list (list sql_value)) * PersistentCache :=
  ((if sqlite_fails (operations s) then None else sql_query q params (connection s)),
   mkPersistentCache (connection s) (queue s) (batch s) (threads s) (S (operations s))).

Definition spawn (q : sql) (params : list sql_value) (s : PersistentCache) : PersistentCache :=
  mkPersistentCache (connection s) (queue s) (batch s) (threads s ++ [(q, params)]) (operations s).

Definition enqueue (tbl : string) (endpoint key : text) (payload : option (list byte)) (now : Z)
  (s : PersistentCache) : PersistentCache :=
  mkPersistentCache (connection s) (queue s ++ [mkPendingWrite tbl endpoint key payload now]) (batch s)
    (threads s) (operations s).

Definition upsert_metadata : sql :=
  Upsert "docker_cache_metadata" metadata_columns ["endpoint_key"]
    ["schema_version"; "daemon_id"; "api_version"; "last_connected_at"].
Definition text_or_null (o : option text) : sql_value := from_option VText VNull o.

Definition record_connection (endpoint : EndpointKey) (api_version : option text) (now : Z) (s : PersistentCache)
  : PersistentCache :=
  spawn upsert_metadata
    [VText (storage_key endpoint); VInt CACHE_SCHEMA_VERSION; text_or_null (daemon_id endpoint);
     text_or_null api_version; VInt now] s.

Definition put {T} `{!Json T} (tbl : string) (endpoint : EndpointKey) (key : text) (v : T) (now : Z)
  (s : PersistentCache) : PersistentCache :=
  enqueue tbl (storage_key endpoint) key (to_vec v) now s.

Definition upsert_usage : sql :=
  Upsert "volume_usage" usage_columns ["endpoint_key"; "volume_name"] ["size_bytes"; "ref_count"; "measured_at"].

(** [v as i64] and [v as u64] *)
Definition as_i64 (v : Z) : Z := (v + 2 ^ 63) mod 2 ^ 64 - 2 ^ 63.
Definition as_u64 (v : Z) : Z := v mod 2 ^ 64.
Definition int_or_null (o : option Z) : sql_value := from_option (fun v => VInt (as_i64 v)) VNull o.

Definition put_usage (endpoint : EndpointKey) (volume_name : text) (size_bytes ref_count : option Z) (now : Z)
  (s : PersistentCache) : PersistentCache :=
  spawn upsert_usage
    [VText (storage_key endpoint); VText volume_name; int_or_null size_bytes; int_or_null ref_count; VInt now] s.

(** A row of the key column and the payload; other types of value are an error. *)
Definition payload_row (r : list sql_value) : option (text * list byte) :=
  match r with [VText key; VBlob payload] => Some (key, payload) | _ => None end.

Definition hydrate {T} `{!Json T} (tbl : string) (endpoint : EndpointKey) (s : PersistentCache)
  : list (text * T) * PersistentCache :=
  match key_column_for tbl with
  | None => ([], s)
  | Some key_column =>
      let '(result, s) := query (Select [key_column; "payload"] tbl ["endpoint_key"]) [VText (storage_key endpoint)] s in
      let rows := default [] (result ≫= mapM payload_row) in
      (omap (fun '(key, payload) => (fun v => (key, v)) <$> from_slice payload) rows, s)
  end.

Definition int_cell (v : sql_value) : option (option Z) :=
  match v with VInt n => Some (Some (as_u64 n)) | VNull => Some None | _ => None end.
Definition usage_row (r : list sql_value) : option (text * option Z * option Z * Z) :=
  match r with
  | [VText name; size; count; VInt measured] =>
      size ← int_cell size; count ← int_cell count; Some (name, size, count, measured)
  | _ => None
  end.

Definition hydrate_usage (endpoint : EndpointKey) (s : PersistentCache)
  : list (text * option Z * option Z * Z) * PersistentCache :=
  let '(result, s) := query (Select ["volume_name"; "size_bytes"; "ref_count"; "measured_at"] "volume_usage"
                              ["endpoint_key"]) [VText (storage_key endpoint)] s in
  (default [] (result ≫= mapM usage_row), s).

(** [query_row] takes the first row. *)
Definition last_connected (endpoint : EndpointKey) (s : PersistentCache) : option Z * PersistentCache :=
  let '(result, s) := query (Select ["last_connected_at"] "docker_cache_metadata" ["endpoint_key"])
                        [VText (storage_key endpoint)] s in
  (match result with Some ([VInt n] :: _) => Some n | _ => None end, s).

Definition remove_key (tbl : string) (endpoint : EndpointKey) (key : text) (s : PersistentCache) : PersistentCache :=
  match key_column_for tbl with
  | None => s
  | Some key_column => execute (Delete tbl ["endpoint_key"; key_column]) [VText (storage_key endpoint); VText key] s
  end.

Definition cleared_tables : list string :=
  ["image_summaries"; "image_details"; "volume_summaries"; "volume_usage"; "network_summaries"; "container_summaries"].

Definition clear_endpoint (endpoint : EndpointKey) (s : PersistentCache) : PersistentCache :=
  foldl (fun s tbl => execute (Delete tbl ["endpoint_key"]) [VText (storage_key endpoint)] s) s cleared_tables.

(** The sentinel; the 30 ms sleep is time for the background to move. *)
Definition flush (now : Z) (s : PersistentCache) : PersistentCache :=
  enqueue "docker_cache_metadata" (bytes "flush-sentinel") (bytes "sentinel") None now s.

Definition get {T} `{!Json T} (tbl : string) (endpoint : EndpointKey) (key : text) (s : PersistentCache)
  : option T * PersistentCache :=
  let '(result, s) := query (Select ["payload"] tbl ["endpoint_key"; "key"]) [VText (storage_key endpoint); VText key] s in
  (match result with Some ([VBlob payload] :: _) => from_slice payload | _ => None end, s).

(** *** The flusher *)
Definition flush_write (db : database) (write : PendingWrite) (fails : bool) : database :=
  match pw_payload write, key_column_for (pw_table write) with
  | Some payload, Some key_column =>
      if fails then db
      else default db (sql_execute (Upsert (pw_table write) ["endpoint_key"; key_column; "payload"; "updated_at"]
                                      ["endpoint_key"; key_column] ["payload"; "updated_at"])
                         [VText (pw_endpoint write); VText (pw_key write); VBlob payload; VInt (pw_timestamp write)] db)
  | _, _ => db
  end.

Fixpoint flush_writes (db : database) (ws : list PendingWrite) (n : nat) : database * nat :=
  match ws with
  | [] => (db, n)
  | w :: ws => flush_writes (flush_write db w (sqlite_fails n)) ws (S n)
  end.

(** One transaction: it may not start, and if it cannot be committed it is rolled back. *)
Definition flush_batch (s : PersistentCache) : PersistentCache :=
  match batch s with
  | [] => s
  | ws =>
      if sqlite_fails (operations s) then mkPersistentCache (connection s) (queue s) [] (threads s) (S (operations s))
      else
        let '(db, n) := flush_writes (connection s) ws (S (operations s)) in
        mkPersistentCache (if sqlite_fails n then connection s else db) (queue s) [] (threads s) (S n)
  end.

Inductive background :=
  | Receive      (* the flusher takes a write from the queue *)
  | Timeout_     (* the queue was quiet for the debounce interval *)
  | Thread (i : nat).

Definition background_step (b : background) (s : PersistentCache) : PersistentCache :=
  match b with
  | Receive =>
      match queue s with
      | [] => s
      | w :: q => mkPersistentCache (connection s) q (batch s ++ [w]) (threads s) (operations s)
      end
  | Timeout_ => match queue s with [] => flush_batch s | _ => s end
  | Thread i =>
      match threads s !! i with
      | None => s
      | Some (q, params) =>
          execute q params (mkPersistentCache (connection s) (queue s) (batch s) (delete i (threads s)) (operations s))
      end
  end.
End cache.

(** ** What the statements of the cache do *)

(** The statements the cache sends for the endpoint with storage key [e]. *)
Inductive own_stmt (e : text) : sql → list sql_value → Prop :=
  | own_metadata ps : own_stmt e upsert_metadata (VText e :: ps)
  | own_usage ps : own_stmt e upsert_usage (VText e :: ps)
  | own_payload tbl kc k b n : key_column_for tbl = Some kc →
      own_stmt e (Upsert tbl ["endpoint_key"; kc; "payload"; "updated_at"] ["endpoint_key"; kc] ["payload"; "updated_at"])
        [VText e; VText k; VBlob b; VInt n]
  | own_delete tbl w ps : own_stmt e (Delete tbl ("endpoint_key" :: w)) (VText e :: ps).

Definition schema (db : database) : gmap string (list string * list string) :=
  (fun t => (columns t, key_columns t)) <$> db.

(** A row of a table with payloads has text keys and a payload. *)
Definition row_typed (tbl : string) (r : row) : Prop :=
  match key_column_for tbl with
  | Some kc => ∃ e k b, column r "endpoint_key" = VText e ∧ column r kc = VText k ∧ column r "payload" = VBlob b
  | None => True
  end.

(** The tables are those of [create_schema], and the rows are kept by their key. *)
Record db_inv (db : database) : Prop := {
  db_schema : schema db = schema (create_schema ∅);
  db_rows tbl t key r : db !! tbl = Some t → rows t !! key = Some r → row_key t r = key ∧ row_typed tbl r;
}.

(** What a select for the endpoint [e] finds in a table. *)
Definition endpoint_rows (db : database) (tbl : string) (e : text) : option (gmap (list sql_value) row) :=
  (fun t => filter (fun x => satisfies ["endpoint_key"%string] [VText e] x.2 = true) (rows t)) <$> db !! tbl.

Lemma satisfies_endpoint w ps e r :
  satisfies ("endpoint_key"%string :: w) (VText e :: ps) r = true → column r "endpoint_key" = VText e.
Proof. unfold satisfies. cbn. rewrite !andb_true_iff, bool_decide_eq_true. by intros [[? _] _]. Qed.

Lemma satisfies_one e r : satisfies ["endpoint_key"%string] [VText e] r = true ↔ column r "endpoint_key" = VText e.
Proof.
  split; [apply satisfies_endpoint |]. intros He. unfold satisfies. cbn. by rewrite He, bool_decide_eq_true_2.
Qed.

Lemma column_insert (r : row) c c' v : column (<[c := v]> r) c' = if decide (c = c') then v else column r c'.
Proof. unfold column. case_decide as Hc; [subst; by rewrite lookup_insert_eq | by rewrite lookup_insert_ne]. Qed.

Lemma column_updates (new old : row) updates c :
  column (foldr (fun c r => <[c := column new c]> r) old updates) c
  = if decide (c ∈ updates) then column new c else column old c.
Proof.
  induction updates as [|u us IH]; cbn; [done |]. rewrite column_insert, IH.
  repeat case_decide; subst; try done; set_solver.
Qed.

(** An upsert changes the row of its key. *)
Lemma exec_upsert_spec t cols conflict updates params t' :
  exec_upsert t cols conflict updates params = Some t' → Forall (fun c => c ∉ conflict) updates →
  (∀ key r, rows t !! key = Some r → row_key t r = key) →
  let new : row := list_to_map (zip cols params) in
  ∃ stored, t' = mkTable (columns t) (key_columns t) (<[row_key t new := stored]> (rows t))
    ∧ conflict = key_columns t ∧ row_key t stored = row_key t new
    ∧ (stored = new ∨ ∃ old, rows t !! row_key t new = Some old ∧
         ∀ c, column stored c = if decide (c ∈ updates) then column new c else column old c).
Proof.
  intros Hex Hup Hkey new. unfold exec_upsert in Hex. destruct (_ || _) eqn:E; [done |]. injection Hex as <-.
  apply orb_false_iff in E as [_ E]. apply negb_false_iff, bool_decide_eq_true in E. subst conflict.
  fold new. destruct (rows t !! row_key t new) as [old|] eqn:Ho.
  - eexists. split; [done |]. split; [done |]. split.
    + transitivity (row_key t old); [| by apply Hkey]. unfold row_key. apply list_fmap_ext. intros i c Hc.
      rewrite column_updates, decide_False; [done |]. intros Hin.
      apply (proj1 (list.Forall_forall _ _) Hup c Hin). by eapply list_elem_of_lookup_2.
    + right. exists old. split; [done |]. intros c. apply column_updates.
  - eexists. split; [done |]. split; [done |]. split; [done | by left].
Qed.

Lemma schema_insert db tbl t t' :
  db !! tbl = Some t → columns t' = columns t → key_columns t' = key_columns t → schema (<[tbl := t']> db) = schema db.
Proof.
  intros Ht Hc Hk. unfold schema. rewrite fmap_insert, Hc, Hk. apply insert_id. by rewrite lookup_fmap, Ht.
Qed.

(** What an upsert may leave in a table. *)
Definition upserted (new stored old : row) (updates : list string) : Prop :=
  ∀ c, column stored c = if decide (c ∈ updates) then column new c else column old c.

Lemma upsert_inv db tbl t e cols ps conflict updates t' :
  db_inv db → db !! tbl = Some t →
  exec_upsert t ("endpoint_key"%string :: cols) ("endpoint_key"%string :: conflict) updates (VText e :: ps) = Some t' →
  Forall (fun c => c ∉ "endpoint_key"%string :: conflict) updates →
  (let new : row := list_to_map (zip ("endpoint_key"%string :: cols) (VText e :: ps)) in
   row_typed tbl new ∧ ∀ stored old, row_typed tbl old → upserted new stored old updates → row_typed tbl stored) →
  db_inv (<[tbl := t']> db) ∧ ∀ e' tbl', e' ≠ e → endpoint_rows (<[tbl := t']> db) tbl' e' = endpoint_rows db tbl' e'.
Proof.
  intros [Hs Hr] Ht Hex Hup [Hnew Hold]. set (new := list_to_map (zip _ (VText e :: ps)) : row) in *.
  destruct (exec_upsert_spec _ _ _ _ _ _ Hex Hup) as (stored & -> & Hk & Hkey & Hst).
  { intros key r Hin. by apply (Hr tbl t key r). }
  assert (∀ r, row_key t r = row_key t new → column r "endpoint_key" = VText e) as Hcol.
  { intros r E. unfold row_key in E. rewrite <- Hk in E. cbn in E. injection E as -> _.
    unfold new. cbn. by rewrite column_insert, decide_True. }
  split; [split |].
  - by rewrite (schema_insert db tbl t).
  - intros tbl' t0 key r [[<- <-]|[_ Ht0]]%lookup_insert_Some Hin; [| by eapply Hr].
    cbn [rows row_key] in *. apply lookup_insert_Some in Hin as [[<- <-]|[_ Hin]]; [| by apply (Hr tbl t key r)].
    split; [done |]. destruct Hst as [->|(old & Ho & Hu)]; [done |]. apply (Hold stored old); [| done].
    exact (proj2 (Hr tbl t _ old Ht Ho)).
  - intros e' tbl' Hne. unfold endpoint_rows. destruct (decide (tbl = tbl')) as [<-|Hn]; [| by rewrite lookup_insert_ne].
    rewrite lookup_insert_eq, Ht. cbn [fmap option_fmap option_map rows]. f_equal. apply map_filter_insert_not'; cbn [snd].
    + rewrite satisfies_one, (Hcol stored Hkey). congruence.
    + intros old Ho. rewrite satisfies_one, (Hcol old); [congruence |]. exact (proj1 (Hr tbl t _ old Ht Ho)).
Qed.

Lemma key_column_cases tbl kc :
  key_column_for tbl = Some kc →
  kc ≠ "endpoint_key"%string ∧ kc ≠ "payload"%string ∧ kc ≠ "updated_at"%string ∧ kc ≠ "key"%string.
Proof. unfold key_column_for. repeat case_match; intros [= <-]; done. Qed.

Lemma own_exec db e q ps db' :
  db_inv db → own_stmt e q ps → sql_execute q ps db = Some db' →
  db_inv db' ∧ ∀ e' tbl, e' ≠ e → endpoint_rows db' tbl e' = endpoint_rows db tbl e'.
Proof.
  intros Hinv Hown Hex. destruct Hown as [ps|ps|tbl kc k b n Hkc|tbl w ps]; cbn [sql_execute upsert_metadata upsert_usage] in Hex.
  - destruct (db !! _) as [t|] eqn:Ht in Hex; [| done]. cbn in Hex. destruct (exec_upsert _ _ _ _ _) as [t'|] eqn:E; [| done].
    injection Hex as <-. eapply upsert_inv; [exact Hinv | exact Ht | exact E | | split; done].
    repeat (constructor; [set_solver |]). constructor.
  - destruct (db !! _) as [t|] eqn:Ht in Hex; [| done]. cbn in Hex. destruct (exec_upsert _ _ _ _ _) as [t'|] eqn:E; [| done].
    injection Hex as <-. eapply upsert_inv; [exact Hinv | exact Ht | exact E | | split; done].
    repeat (constructor; [set_solver |]). constructor.
  - destruct (db !! _) as [t|] eqn:Ht in Hex; [| done]. cbn in Hex. destruct (exec_upsert _ _ _ _ _) as [t'|] eqn:E; [| done].
    injection Hex as <-. destruct (key_column_cases tbl kc Hkc) as (N1 & N2 & N3 & _).
    eapply upsert_inv; [exact Hinv | exact Ht | exact E | |].
    + repeat (constructor; [set_solver |]). constructor.
    + unfold row_typed. rewrite Hkc. cbn zeta. cbn [zip list_to_map]. split.
      * exists e, k, b. cbn. rewrite !column_insert. split_and!; repeat case_decide; congruence.
      * intros stored old (e0 & k0 & b0 & H1 & H2 & H3) Hu. exists e0, k0, b. unfold upserted in Hu.
        rewrite !Hu. rewrite (decide_False (P := "endpoint_key"%string ∈ _)) by set_solver.
        rewrite (decide_False (P := kc ∈ _)) by set_solver. rewrite decide_True by set_solver.
        split_and!; [done | done |]. cbn. rewrite !column_insert. repeat case_decide; congruence.
  - destruct (db !! tbl) as [t|] eqn:Ht; [| done]. cbn in Hex. destruct (negb _); [done |]. injection Hex as <-.
    destruct Hinv as [Hs Hr]. split; [split |].
    + by rewrite (schema_insert db tbl t).
    + intros tbl' t0 key r [[<- <-]|[_ Ht0]]%lookup_insert_Some Hin; [| by eapply Hr].
      cbn [rows] in Hin. apply map_lookup_filter_Some in Hin as [Hin _]. by apply (Hr tbl t key r).
    + intros e' tbl' Hne. unfold endpoint_rows. destruct (decide (tbl = tbl')) as [<-|Hn]; [| by rewrite lookup_insert_ne].
      rewrite lookup_insert_eq, Ht. cbn [fmap option_fmap option_map rows]. f_equal. rewrite map_filter_filter.
      apply map_filter_ext. intros key r Hin. cbn [snd]. rewrite satisfies_one. split; [tauto |]. intros He. split; [done |].
      destruct (satisfies ("endpoint_key"%string :: w) (VText e :: ps) r) eqn:Esat; [| done]. apply satisfies_endpoint in Esat. congruence.
Qed.

(** ** Runs of the cache *)
Inductive cache_op :=
  | OpPut (tbl : string) (endpoint : EndpointKey) (key : text) (payload : option (list byte)) (now : Z)
  | OpRecord (endpoint : EndpointKey) (api_version : option text) (now : Z)
  | OpUsage (endpoint : EndpointKey) (volume_name : text) (size_bytes ref_count : option Z) (now : Z)
  | OpRead (q : sql) (params : list sql_value)
  | OpRemove (tbl : string) (endpoint : EndpointKey) (key : text)
  | OpClear (endpoint : EndpointKey)
  | OpFlush (now : Z)
  | OpBackground (b : background).

Section runs.
Context `{!SqliteEnv}.
Implicit Types s : PersistentCache.

Definition cache_step s (op : cache_op) : PersistentCache :=
  match op with
  | OpPut tbl endpoint key payload now => enqueue tbl (storage_key endpoint) key payload now s
  | OpRecord endpoint api_version now => record_connection endpoint api_version now s
  | OpUsage endpoint volume_name size_bytes ref_count now => put_usage endpoint volume_name size_bytes ref_count now s
  | OpRead q params => (query q params s).2
  | OpRemove tbl endpoint key => remove_key tbl endpoint key s
  | OpClear endpoint => clear_endpoint endpoint s
  | OpFlush now => flush now s
  | OpBackground b => background_step b s
  end.
Definition cache_run s (ops : list cache_op) : PersistentCache := foldl cache_step s ops.

(** The operations and what is pending only concern endpoints in [P]. *)
Definition op_in (P : text → Prop) (op : cache_op) : Prop :=
  match op with
  | OpPut _ endpoint _ _ _ | OpRecord endpoint _ _ | OpUsage endpoint _ _ _ _ | OpRemove _ endpoint _ | OpClear endpoint =>
      P (storage_key endpoint)
  | _ => True
  end.
Definition write_in (P : text → Prop) (w : PendingWrite) : Prop := pw_payload w = None ∨ P (pw_endpoint w).
Record confined (P : text → Prop) s : Prop := {
  cf_db : db_inv (connection s);
  cf_writes : Forall (write_in P) (batch s ++ queue s);
  cf_threads : Forall (fun '(q, ps) => ∃ e, P e ∧ own_stmt e q ps) (threads s);
}.

(** The database may only have changed for endpoints in [P]. *)
Definition keeps (P : text → Prop) (db db' : database) : Prop :=
  ∀ e tbl, ¬ P e → endpoint_rows db' tbl e = endpoint_rows db tbl e.

Lemma keeps_refl P db : keeps P db db.
Proof. done. Qed.
Lemma keeps_trans P db1 db2 db3 : keeps P db1 db2 → keeps P db2 db3 → keeps P db1 db3.
Proof. intros H1 H2 e tbl He. by rewrite H2, H1. Qed.

Lemma own_default (P : text → Prop) db e q ps :
  P e → own_stmt e q ps → db_inv db →
  db_inv (default db (sql_execute q ps db)) ∧ keeps P db (default db (sql_execute q ps db)).
Proof.
  intros He Hown Hinv. destruct (sql_execute q ps db) as [db'|] eqn:E; cbn; [| done].
  destruct (own_exec db e q ps db' Hinv Hown E) as [? Hk]. split; [done |]. intros e' tbl Hn. apply Hk. intros ->. done.
Qed.

Lemma execute_confined (P : text → Prop) e q ps s :
  P e → own_stmt e q ps → confined P s → confined P (execute q ps s) ∧ keeps P (connection s) (connection (execute q ps s)).
Proof.
  intros He Hown [H1 H2 H3]. destruct (own_default P (connection s) e q ps He Hown H1) as [Hi Hk].
  unfold execute. destruct (sqlite_fails _); cbn; (split; [by split | done]).
Qed.

Lemma flush_write_confined (P : text → Prop) db w b :
  write_in P w → db_inv db → db_inv (flush_write db w b) ∧ keeps P db (flush_write db w b).
Proof.
  intros Hw Hinv. unfold flush_write. destruct (pw_payload w) as [payload|] eqn:Ep; [| done].
  destruct (key_column_for (pw_table w)) as [kc|] eqn:Ek; [| done]. destruct b; [done |].
  destruct Hw as [|Hw]; [congruence |]. apply (own_default P db (pw_endpoint w)); [done | by constructor | done].
Qed.

Lemma flush_writes_confined (P : text → Prop) ws db n :
  Forall (write_in P) ws → db_inv db → db_inv (flush_writes db ws n).1 ∧ keeps P db (flush_writes db ws n).1.
Proof.
  revert db n. induction ws as [|w ws IH]; intros db n Hws Hinv; cbn; [done |]. apply Forall_cons_iff in Hws as [Hw Hws].
  destruct (flush_write_confined P db w (sqlite_fails n) Hw Hinv) as [Hi Hk].
  destruct (IH _ (S n) Hws Hi) as [Hi' Hk']. split; [done | by eapply keeps_trans].
Qed.

Lemma flush_batch_confined P s : confined P s → confined P (flush_batch s) ∧ keeps P (connection s) (connection (flush_batch s)).
Proof.
  intros [H1 H2 H3]. apply Forall_app in H2 as [H2 H2']. unfold flush_batch. destruct (batch s) as [|w ws] eqn:Eb;
    [by split; [split; rewrite ?Eb |] |].
  destruct (sqlite_fails _); [by split; [split |] |].
  pose proof (flush_writes_confined P (w :: ws) (connection s) (S (operations s)) H2 H1) as [Hi Hk].
  destruct (flush_writes _ _ _) as [db n]. cbn in Hi, Hk. destruct (sqlite_fails n); by split; [split |].
Qed.

Lemma confined_step P s op :
  op_in P op → confined P s → confined P (cache_step s op) ∧ keeps P (connection s) (connection (cache_step s op)).
Proof.
  intros Hop Hc. destruct op as [tbl ep k p now|ep api now|ep nm sz ct now|q ps|tbl ep k|ep|now|b]; cbn [cache_step op_in] in *.
  - destruct Hc as [H1 H2 H3]. split; [split; cbn; [done | | done] | done].
    rewrite app_assoc. apply Forall_app. split; [done |]. apply Forall_singleton. by right.
  - destruct Hc as [H1 H2 H3]. split; [split; cbn; [done | done |] | done]. apply Forall_app. split; [done |].
    apply Forall_singleton. eexists. split; [exact Hop | constructor].
  - destruct Hc as [H1 H2 H3]. split; [split; cbn; [done | done |] | done]. apply Forall_app. split; [done |].
    apply Forall_singleton. eexists. split; [exact Hop | constructor].
  - destruct Hc as [H1 H2 H3]. by split; [split |].
  - unfold remove_key. destruct (key_column_for tbl); [| done]. eapply execute_confined; [exact Hop | constructor | done].
  - unfold clear_endpoint. generalize cleared_tables. intros tbls. revert s Hc.
    induction tbls as [|tbl tbls IH]; intros s Hc; cbn; [done |].
    destruct (execute_confined P _ (Delete tbl ["endpoint_key"%string]) [VText (storage_key ep)] s Hop) as [Hc' Hk]; [constructor | done |].
    destruct (IH _ Hc') as [Hc'' Hk']. split; [done | by eapply keeps_trans].
  - destruct Hc as [H1 H2 H3]. split; [split; cbn; [done | | done] | done].
    rewrite app_assoc. apply Forall_app. split; [done |]. apply Forall_singleton. by left.
  - destruct b as [| |i]; cbn [background_step].
    + destruct Hc as [H1 H2 H3]. destruct (queue s) as [|w q] eqn:Eq; [by split; [split; rewrite ?Eq |] |].
      split; [split; cbn; [done | | done] | done]. by rewrite <- app_assoc.
    + destruct (queue s); [by apply flush_batch_confined | done].
    + destruct (threads s !! i) as [[q ps]|] eqn:Ei; [| done]. destruct Hc as [H1 H2 H3].
      pose proof (Forall_lookup_1 _ _ _ _ H3 Ei) as (e & He & Hown).
      apply (execute_confined P e q ps (mkPersistentCache _ _ _ _ _) He Hown). split; cbn; [done | done |].
      by apply list.Forall_delete.
Qed.

Lemma confined_run P ops s :
  Forall (op_in P) ops → confined P s →
  confined P (cache_run s ops) ∧ keeps P (connection s) (connection (cache_run s ops)).
Proof.
  revert s. induction ops as [|op ops IH]; intros s Hops Hc; [done |]. apply Forall_cons_iff in Hops as [Hop Hops].
  destruct (confined_step P s op Hop Hc) as [Hc' Hk]. destruct (IH _ Hops Hc') as [Hc'' Hk'].
  split; [done | by eapply keeps_trans].
Qed.

Lemma db_inv_new : db_inv (create_schema ∅).
Proof.
  split; [done |]. intros tbl t key r Ht Hr. unfold create_schema in Ht. rewrite (left_id_L ∅ (∪)) in Ht.
  apply elem_of_list_to_map_2 in Ht. assert (rows t = ∅) as Hempty.
  { set_unfold in Ht. naive_solver. }
  by rewrite Hempty, lookup_empty in Hr.
Qed.

Lemma confined_new P : confined P (PersistentCache_new ∅).
Proof. split; cbn; [apply db_inv_new | done | done]. Qed.

Lemma reachable_confined ops : confined (fun _ => True) (cache_run (PersistentCache_new ∅) ops).
Proof. apply confined_run; [| apply confined_new]. apply list.Forall_true. by intros []. Qed.

(** *** Reading *)

(** A select for an endpoint only depends on the endpoint's rows. *)
Lemma select_endpoint db db' cols tbl e :
  schema db = schema db' → endpoint_rows db tbl e = endpoint_rows db' tbl e →
  sql_query (Select cols tbl ["endpoint_key"%string]) [VText e] db
  = sql_query (Select cols tbl ["endpoint_key"%string]) [VText e] db'.
Proof.
  intros Hs Hr. unfold endpoint_rows in Hr. cbn [sql_query]. apply (f_equal (lookup tbl)) in Hs.
  unfold schema in Hs. rewrite !lookup_fmap in Hs.
  destruct (db !! tbl) as [t|], (db' !! tbl) as [t'|]; cbn in *; try done.
  injection Hs as Hc _. injection Hr as Hr. unfold known. rewrite Hc. destruct (_ || _); [done |]. do 2 f_equal. by f_equal.
Qed.

Lemma payload_table_at db tbl kc :
  db_inv db → key_column_for tbl = Some kc →
  ∃ t, db !! tbl = Some t ∧ columns t = payload_columns kc ∧ key_columns t = ["endpoint_key"%string; kc].
Proof.
  intros [Hs _] Hk. assert (schema db !! tbl = Some (payload_columns kc, ["endpoint_key"%string; kc])) as E.
  { rewrite Hs. unfold key_column_for in Hk.
    repeat case_bool_decide; subst; cbn in Hk; simplify_eq; reflexivity. }
  unfold schema in E. rewrite lookup_fmap in E. destruct (db !! tbl) as [t|]; [| done]. injection E as <- <-. eauto.
Qed.

(** The payload stored under a key. *)
Definition payload_at (db : database) (tbl : string) (e k : text) : option (list byte) :=
  t ← db !! tbl; r ← rows t !! [VText e; VText k];
  match column r "payload" with VBlob b => Some b | _ => None end.

Lemma payload_rows_typed kc (l : list row) :
  Forall (fun r => ∃ k b, column r kc = VText k ∧ column r "payload" = VBlob b) l →
  ∃ out, mapM payload_row ((fun r => [column r kc; column r "payload"]) <$> l) = Some out
    ∧ ∀ k b, (k, b) ∈ out ↔ ∃ r, r ∈ l ∧ column r kc = VText k ∧ column r "payload" = VBlob b.
Proof.
  induction 1 as [|r l (k & b & Hk & Hb) Hl (out & Hout & Hin)]; [exists []; split; [done |]; set_solver |].
  exists ((k, b) :: out). cbn. rewrite Hk, Hb. cbn. rewrite Hout. split; [done |]. intros k' b'.
  rewrite elem_of_cons, Hin. split.
  - intros [[= -> ->]|(r' & Hr' & H')]; [exists r; split; [by left | done] | exists r'; split; [by right | done]].
  - intros (r' & [->|Hr']%elem_of_cons & H1 & H2); [left; congruence | right; eauto].
Qed.

Lemma hydrate_spec {T} `{!Json T} tbl kc (ep : EndpointKey) s (k : text) (v : T) :
  db_inv (connection s) → key_column_for tbl = Some kc → sqlite_fails (operations s) = false →
  (k, v) ∈ (hydrate tbl ep s).1 ↔
  ∃ b, payload_at (connection s) tbl (storage_key ep) k = Some b ∧ from_slice b = Some v.
Proof.
  intros Hinv Hk Hf. destruct (payload_table_at _ _ _ Hinv Hk) as (t & Ht & Hcols & Hkeys).
  unfold hydrate, query. rewrite Hk, Hf. cbn [fst sql_query]. rewrite Ht. cbn [mbind option_bind].
  assert (known t [kc; "payload"%string] = true ∧ known t ["endpoint_key"%string] = true) as [-> ->].
  { unfold known. rewrite Hcols. cbn. rewrite !bool_decide_eq_true_2 by set_solver. done. }
  cbn [negb orb mbind option_bind]. set (m := filter _ (rows t)).
  assert (∀ key r, m !! key = Some r → column r "endpoint_key" = VText (storage_key ep) ∧ rows t !! key = Some r
            ∧ key = [VText (storage_key ep); column r kc] ∧ ∃ k b, column r kc = VText k ∧ column r "payload" = VBlob b) as Hm.
  { intros key r [Hr Hsat]%map_lookup_filter_Some. cbn [snd] in Hsat. apply satisfies_one in Hsat.
    destruct (db_rows _ Hinv tbl t key r Ht Hr) as [Hkey Htyped]. unfold row_typed in Htyped. rewrite Hk in Htyped.
    destruct Htyped as (e & k' & b & _ & ? & ?). unfold row_key in Hkey. rewrite Hkeys in Hkey. cbn in Hkey.
    rewrite Hsat in Hkey. split_and!; [done | done | done | eauto]. }
  destruct (payload_rows_typed kc (snd <$> map_to_list m)) as (out & Hout & Hin).
  { apply list.Forall_forall. intros r Hr. apply list_elem_of_fmap in Hr as ([key r'] & -> & Hr).
    apply elem_of_map_to_list in Hr. by apply Hm in Hr as (_ & _ & _ & ?). }
  rewrite <- list_fmap_compose in Hout.
  assert (mapM payload_row ((fun e : list sql_value * row => column e.2 <$> [kc; "payload"%string]) <$> map_to_list m) = Some out) as ->
    by exact Hout.
  cbn. rewrite list_elem_of_omap. unfold payload_at. rewrite Ht. cbn. split.
  - intros ([k' b] & Ho & Hv). destruct (from_slice b) as [v'|] eqn:Ev; [| done]. injection Hv as -> ->.
    apply Hin in Ho as (r & Hr & Hkc & Hb). apply list_elem_of_fmap in Hr as ([key r'] & -> & Hr).
    apply elem_of_map_to_list in Hr. destruct (Hm key r' Hr) as (_ & Hrow & -> & _). cbn in *. rewrite Hkc in Hrow.
    exists b. rewrite Hrow. cbn. by rewrite Hb.
  - intros (b & Hb & Hv). destruct (rows t !! _) as [r|] eqn:Hr; [| done]. cbn in Hb.
    destruct (column r "payload") as [| b' | |] eqn:Ep; try done. injection Hb as ->.
    exists (k, b). rewrite Hv. split; [| done]. apply Hin. exists r.
    destruct (db_rows _ Hinv tbl t _ r Ht Hr) as [Hkey _]. unfold row_key in Hkey. rewrite Hkeys in Hkey. cbn in Hkey.
    injection Hkey as He Hkc. split_and!; [| done | done]. apply list_elem_of_fmap. eexists (_, r). split; [done |].
    apply elem_of_map_to_list. apply map_lookup_filter_Some. split; [exact Hr |]. cbn [snd]. by apply satisfies_one.
Qed.

(** *** The write-behind queue *)

(** The flusher takes everything from the queue, which then stays quiet. *)
Definition drain s : PersistentCache :=
  cache_run s (repeat (OpBackground Receive) (length (queue s)) ++ [OpBackground Timeout_]).

Definition writes_to (w : PendingWrite) (tbl : string) (e k : text) : Prop :=
  pw_table w = tbl ∧ pw_endpoint w = e ∧ pw_key w = k ∧ is_Some (pw_payload w).
#[export] Instance writes_to_dec w tbl e k : Decision (writes_to w tbl e k).
Proof. unfold writes_to. apply _. Defined.

(** The last write for a key, or what was there before. *)
Definition overwritten (ws : list PendingWrite) (tbl : string) (e k : text) (before : option (list byte)) : option (list byte) :=
  foldl (fun p w => if decide (writes_to w tbl e k) then pw_payload w else p) before ws.

Lemma receive_all s :
  foldl cache_step s (repeat (OpBackground Receive) (length (queue s)))
  = mkPersistentCache (connection s) [] (batch s ++ queue s) (threads s) (operations s).
Proof.
  destruct s as [db q b th n]. revert b. induction q as [|w q IH]; intros b; cbn in *; [by rewrite app_nil_r |].
  rewrite IH. by rewrite <- app_assoc.
Qed.

Lemma flush_write_payload db w tbl kc e k :
  db_inv db → key_column_for tbl = Some kc →
  payload_at (flush_write db w false) tbl e k
  = if decide (writes_to w tbl e k) then pw_payload w else payload_at db tbl e k.
Proof.
  intros Hinv Hk. unfold flush_write.
  destruct (pw_payload w) as [b|] eqn:Hp.
  2: { rewrite decide_False; [done |]. intros (_ & _ & _ & [x Hx]). congruence. }
  destruct (key_column_for (pw_table w)) as [kc'|] eqn:Hk'.
  2: { rewrite decide_False; [done |]. intros (<- & _). congruence. }
  destruct (payload_table_at db (pw_table w) kc' Hinv Hk') as (t & Ht & Hcols & Hkeys).
  destruct (key_column_cases _ _ Hk') as (N1 & N2 & N3 & _).
  cbn [sql_execute]. rewrite Ht. cbn [mbind option_bind].
  destruct (exec_upsert t _ _ _ _) as [t'|] eqn:E.
  2: { exfalso. revert E. unfold exec_upsert, known. rewrite Hcols, Hkeys. cbn.
       rewrite !bool_decide_eq_true_2 by set_solver. done. }
  cbn [option_bind from_option mbind id].
  destruct (exec_upsert_spec _ _ _ _ _ _ E) as (stored & -> & _ & Hkey & Hst).
  { repeat (constructor; [set_solver |]). constructor. }
  { intros key r Hr. by apply (db_rows db Hinv (pw_table w) t key r). }
  set (new := list_to_map _ : row) in *.
  assert (row_key t new = [VText (pw_endpoint w); VText (pw_key w)] ∧ column new "payload" = VBlob b) as [Hnew Hpay].
  { unfold row_key. rewrite Hkeys. unfold new. cbn. rewrite !column_insert. repeat case_decide; congruence || done. }
  assert (column stored "payload" = VBlob b) as Hsp.
  { destruct Hst as [->|(old & _ & Hu)]; [done |]. rewrite Hu, decide_True by set_solver. done. }
  unfold payload_at. destruct (decide (pw_table w = tbl)) as [<-|Hn].
  - rewrite lookup_insert_eq, Ht. cbn [mbind option_bind rows]. rewrite Hnew.
    destruct (decide (pw_endpoint w = e ∧ pw_key w = k)) as [[<- <-]|Hne].
    + rewrite lookup_insert_eq. cbn. rewrite Hsp. rewrite decide_True; [done |]. split_and!; [done.. | by rewrite Hp].
    + rewrite lookup_insert_ne by (intros [= ? ?]; tauto). rewrite decide_False; [done |]. intros (_ & ? & ? & _). tauto.
  - rewrite lookup_insert_ne by done. rewrite decide_False; [done |]. by intros (? & _).
Qed.

Lemma flush_writes_payload ws db n tbl kc e k :
  (∀ n, sqlite_fails n = false) → db_inv db → key_column_for tbl = Some kc →
  payload_at (flush_writes db ws n).1 tbl e k = overwritten ws tbl e k (payload_at db tbl e k).
Proof.
  intros Hf Hinv Hk. revert db n Hinv. induction ws as [|w ws IH]; intros db n Hinv; [done |]. cbn [flush_writes].
  rewrite Hf, IH.
  - unfold overwritten. cbn. by rewrite (flush_write_payload _ _ _ kc).
  - apply (flush_write_confined (fun _ => True)); [by right | done].
Qed.

(** The write-behind cache stores the last write of every key.  From every
    reachable state, once the queue is drained and nothing fails, hydrating a
    table of an endpoint gives exactly the keys and values whose last write, or
    whose old row when nothing was pending, decodes; so a value put for a key is
    read back under that key and nothing else changes. *)
Theorem write_behind_exact {T} `{!Json T} ops tbl kc (ep : EndpointKey) (k : text) (v : T) :
  (∀ n, sqlite_fails n = false) → key_column_for tbl = Some kc →
  let s := cache_run (PersistentCache_new ∅) ops in
  (k, v) ∈ (hydrate tbl ep (drain s)).1 ↔
  ∃ b, overwritten (batch s ++ queue s) tbl (storage_key ep) k (payload_at (connection s) tbl (storage_key ep) k) = Some b
     ∧ from_slice b = Some v.
Proof.
  intros Hf Hk s. pose proof (reachable_confined ops) as Hc. fold s in Hc.
  assert (confined (fun _ => True) (drain s)) as Hd.
  { apply confined_run; [| done]. apply list.Forall_true. by intros []. }
  rewrite (hydrate_spec tbl kc ep) by (apply Hd || done).
  enough (payload_at (connection (drain s)) tbl (storage_key ep) k
    = overwritten (batch s ++ queue s) tbl (storage_key ep) k (payload_at (connection s) tbl (storage_key ep) k)) as -> by done.
  unfold drain, cache_run. rewrite foldl_app, receive_all. cbn. unfold flush_batch. cbn.
  destruct (batch s ++ queue s) as [|w ws] eqn:E; [done |]. rewrite Hf.
  pose proof (flush_writes_payload (w :: ws) (connection s) (S (operations s)) tbl kc (storage_key ep) k Hf (cf_db _ _ Hc) Hk) as Hp.
  destruct (flush_writes _ _ _) as [db n]. cbn in *. by rewrite Hf.
Qed.

(** *** Endpoints *)
Definition pending_clear (e : text) s : Prop :=
  Forall (write_in (fun e' => e' ≠ e)) (batch s ++ queue s)
  ∧ Forall (fun '(q, ps) => ∃ e', e' ≠ e ∧ own_stmt e' q ps) (threads s).

(** The rows of one endpoint are never touched for another.  From a reachable
    state without pending writes for an endpoint, any operations for endpoints
    with other storage keys, in any interleaving with the background threads and
    with any failures of the database, leave what is read for the endpoint from
    every table as it was. *)
Theorem endpoint_isolated {T} `{!Json T} ops0 ops (ep : EndpointKey) tbl :
  let s0 := cache_run (PersistentCache_new ∅) ops0 in
  pending_clear (storage_key ep) s0 → Forall (op_in (fun e => e ≠ storage_key ep)) ops →
  let s := cache_run s0 ops in
  sqlite_fails (operations s0) = false → sqlite_fails (operations s) = false →
  (hydrate (T := T) tbl ep s).1 = (hydrate tbl ep s0).1
  ∧ (hydrate_usage ep s).1 = (hydrate_usage ep s0).1 ∧ (last_connected ep s).1 = (last_connected ep s0).1.
Proof.
  intros s0 [Hw Hth] Hops s Hf0 Hf. pose proof (reachable_confined ops0) as Hc0. fold s0 in Hc0.
  assert (confined (fun e => e ≠ storage_key ep) s0) as Hc by (split; [apply Hc0 | done | done]).
  destruct (confined_run _ ops s0 Hops Hc) as [Hc' Hk]. fold s in Hc', Hk.
  assert (∀ cols tbl, sql_query (Select cols tbl ["endpoint_key"%string]) [VText (storage_key ep)] (connection s)
    = sql_query (Select cols tbl ["endpoint_key"%string]) [VText (storage_key ep)] (connection s0)) as Hq.
  { intros cols tbl'. apply select_endpoint; [by rewrite (db_schema _ (cf_db _ _ Hc')), (db_schema _ (cf_db _ _ Hc)) |].
    apply Hk. tauto. }
  unfold hydrate, hydrate_usage, last_connected, query. rewrite Hf0, Hf, !Hq.
  split_and!; [| done | done]. destruct (key_column_for tbl); [by rewrite Hq | done].
Qed.

Lemma get_misses {T} `{!Json T} ops tbl ep key :
  (get (T := T) tbl ep key (cache_run (PersistentCache_new ∅) ops)).1 = None.
Proof.
  pose proof (cf_db _ _ (reachable_confined ops)) as Hinv. set (s := cache_run _ ops) in *.
  unfold get, query. cbn [fst]. destruct (sqlite_fails _); [done |]. cbn [sql_query].
  destruct (connection s !! tbl) as [t|] eqn:Ht; [| done]. cbn [mbind option_bind].
  enough (known t ["endpoint_key"%string; "key"%string] = false) as ->.
  { by destruct (known t ["payload"%string]). }
  assert (schema (create_schema ∅) !! tbl = Some (columns t, key_columns t)) as E.
  { rewrite <- (db_schema _ Hinv). unfold schema. by rewrite lookup_fmap, Ht. }
  unfold known. cbn. rewrite (bool_decide_eq_false_2 ("key"%string ∈ columns t)); [by rewrite andb_false_r |].
  unfold schema, create_schema in E. rewrite (left_id_L ∅ (∪)), lookup_fmap in E.
  destruct (list_to_map _ !! tbl) as [t0|] eqn:E0; [| done]. injection E as <- _. apply elem_of_list_to_map_2 in E0.
  set_unfold in E0. unfold metadata_columns, usage_columns, payload_table, payload_columns in E0. naive_solver set_solver.
Qed.


(** Reading a single value never finds one.  [get] asks for a column named
    key, which no table of the schema has, so the query is an error: whatever was
    written, and whether it was flushed, the answer is that nothing is cached. *)
Theorem get_never_hits {T} `{!Json T} ops tbl ep key :
  (get (T := T) tbl ep key (cache_run (PersistentCache_new ∅) ops)).1 = None.
Proof. apply get_misses. Qed.
End runs.

(** ** Concrete runs *)
#[local] Instance sound_disk : SqliteEnv := { sqlite_fails _ := false }.
#[local] Instance plain_json : Json text := { to_vec v := Some v; from_slice b := Some b }.

Definition local_endpoint : EndpointKey := mkEndpointKey (bytes "unix:///run/docker.sock") None None.
Definition remote_endpoint : EndpointKey := mkEndpointKey (bytes "tcp://host") (Some (bytes "d")) None.

Definition put_twice : list cache_op :=
  [OpPut "image_details" local_endpoint (bytes "sha256:a") (Some (bytes "old")) 1; OpBackground Receive;
   OpPut "image_details" local_endpoint (bytes "sha256:a") (Some (bytes "new")) 2].

Lemma write_behind_exact_witness :
  (bytes "sha256:a", bytes "new") ∈ (hydrate (T := text) "image_details" local_endpoint
    (drain (cache_run (PersistentCache_new ∅) put_twice))).1
  ∧ (bytes "sha256:a", bytes "old") ∉ (hydrate (T := text) "image_details" local_endpoint
    (drain (cache_run (PersistentCache_new ∅) put_twice))).1.
Proof.
  pose proof (fun v => write_behind_exact (T := text) put_twice "image_details" "image_id" local_endpoint (bytes "sha256:a") v
    (fun _ => eq_refl) eq_refl) as H. cbv zeta in H. split.
  - apply H. exists (bytes "new"). split; reflexivity.
  - rewrite H. intros (b & Hb & Hv). vm_compute in Hb. injection Hb as <-. discriminate Hv.
Defined.

Lemma endpoint_isolated_witness :
  (hydrate (T := text) "image_details" local_endpoint
     (cache_run (cache_run (PersistentCache_new ∅) (put_twice ++ [OpBackground Receive; OpBackground Timeout_]))
        [OpClear remote_endpoint; OpPut "image_details" remote_endpoint (bytes "sha256:a") (Some (bytes "other")) 3;
         OpBackground Receive; OpBackground Timeout_])).1
  = [(bytes "sha256:a", bytes "new")].
Proof.
  destruct (endpoint_isolated (T := text) (put_twice ++ [OpBackground Receive; OpBackground Timeout_])
    [OpClear remote_endpoint; OpPut "image_details" remote_endpoint (bytes "sha256:a") (Some (bytes "other")) 3;
     OpBackground Receive; OpBackground Timeout_] local_endpoint "image_details") as (H & _).
  - split; vm_compute; constructor.
  - repeat (apply Forall_cons_iff; split; [first [exact I | vm_compute; discriminate] |]). constructor.
  - reflexivity.
  - reflexivity.
  - rewrite H. vm_compute. reflexivity.
Defined.

(** Different endpoints can have the same storage key, and then share their rows. *)
Theorem storage_keys_collide :
  storage_key (mkEndpointKey (bytes "a|b") None None) = storage_key (mkEndpointKey (bytes "a") (Some (bytes "b")) None)
  ∧ storage_key (mkEndpointKey (bytes "a") None (Some (bytes "c"))) = storage_key (mkEndpointKey (bytes "a") (Some []) (Some (bytes "c"))).
Proof. split; reflexivity. Qed.

(** A removed key comes back: [remove_key] deletes the row at once, but a write
    of the key that is still queued is flushed after it. *)
Theorem removed_key_comes_back :
  (bytes "sha256:a", bytes "v") ∈ (hydrate (T := text) "image_details" local_endpoint
    (drain (cache_run (PersistentCache_new ∅)
      [OpPut "image_details" local_endpoint (bytes "sha256:a") (Some (bytes "v")) 1;
       OpRemove "image_details" local_endpoint (bytes "sha256:a")]))).1.
Proof. vm_compute. left. Qed.

(** Two measurements of a volume can be stored in the wrong order, because each
    is written by a thread of its own. *)
Theorem usage_writes_reorder :
  (hydrate_usage local_endpoint (cache_run (PersistentCache_new ∅)
    [OpUsage local_endpoint (bytes "v") (Some 10) None 1; OpUsage local_endpoint (bytes "v") (Some 20) None 2;
     OpBackground (Thread 1); OpBackground (Thread 0)])).1
  = [(bytes "v", Some 10, None, 1)].
Proof. vm_compute. reflexivity. Qed.

(** A size survives the cast to the signed integers of the database and back. *)
Lemma usage_cast_roundtrip v : 0 ≤ v ≤ u64_max → as_u64 (as_i64 v) = v.
Proof.
  intros Hv. unfold as_u64, as_i64, u64_max in *.
  rewrite <- (Z.mod_small v (2 ^ 64)) at 2 by lia. rewrite Zminus_mod_idemp_l. f_equal. lia.
Qed.
