(* ===== verification/Caches.v ===== *)
(** The in-memory caches of docker-core: image metadata by image ID
    (cache/image_metadata.rs) and volume usage with a time to live
    (cache/volume_usage.rs), each optionally backed by the persistent cache.

    A cache owns the state of its persistent cache; the mutex around the map makes
    each operation one step.  Results of concurrent fetches arrive in any order,
    which is a parameter of [prefetch]. *)

From S2P Require Import Prelude Path Text Persistent.

Local Open Scope Z_scope.

(** ** Image metadata *)
Definition IMAGE_DETAILS_TABLE : string := "image_details".

Record CachedImageMetadata := mkCachedImageMetadata {
  architecture : option text;
  os : option text;
  variant : option text;
  config_digest : option text;
  inspected_at : Z;
}.

Record ImageMetadataCache := mkImageMetadataCache {
  im_inner : gmap text CachedImageMetadata;
  im_persistent : option PersistentCache;
  im_endpoint : option EndpointKey;
}.

Definition ImageMetadataCache_new (persistent : option PersistentCache) (endpoint : option EndpointKey)
  : ImageMetadataCache := mkImageMetadataCache ∅ persistent endpoint.

Definition set_im_inner (self : ImageMetadataCache) (inner : gmap text CachedImageMetadata) : ImageMetadataCache :=
  mkImageMetadataCache inner (im_persistent self) (im_endpoint self).

Section image_metadata.
Context `{!SqliteEnv, !Json CachedImageMetadata}.
Implicit Types self : ImageMetadataCache.

(** What is done with the persistent cache when there is one and an endpoint. *)
Definition with_persistent self (f : EndpointKey → PersistentCache → PersistentCache) : ImageMetadataCache :=
  match im_persistent self, im_endpoint self with
  | Some persistent, Some endpoint => mkImageMetadataCache (im_inner self) (Some (f endpoint persistent)) (im_endpoint self)
  | _, _ => self
  end.

Definition im_seed self (entries : list (text * CachedImageMetadata)) : ImageMetadataCache :=
  set_im_inner self (foldl (fun m '(image_id, entry) => <[image_id := entry]> m) (im_inner self) entries).

Definition im_snapshot self : list (text * CachedImageMetadata) := map_to_list (im_inner self).

Definition get_sync self (image_id : text) : option CachedImageMetadata := im_inner self !! image_id.

Definition im_get_persistent self (image_id : text) : option CachedImageMetadata * ImageMetadataCache :=
  match im_persistent self, im_endpoint self with
  | Some persistent, Some endpoint =>
      let '(r, persistent) := get IMAGE_DETAILS_TABLE endpoint image_id persistent in
      match r with
      | Some entry => (Some entry, mkImageMetadataCache (<[image_id := entry]> (im_inner self)) (Some persistent) (im_endpoint self))
      | None => (None, mkImageMetadataCache (im_inner self) (Some persistent) (im_endpoint self))
      end
  | _, _ => (None, self)
  end.

Definition im_get self (image_id : text) : option CachedImageMetadata * ImageMetadataCache :=
  match im_inner self !! image_id with
  | Some entry => (Some entry, self)
  | None => im_get_persistent self image_id
  end.

Definition im_insert (now : Z) self (image_id : text) (entry : CachedImageMetadata) : ImageMetadataCache :=
  with_persistent (set_im_inner self (<[image_id := entry]> (im_inner self)))
    (fun endpoint => put IMAGE_DETAILS_TABLE endpoint image_id entry now).

Definition im_remove self (image_id : text) : ImageMetadataCache :=
  with_persistent (set_im_inner self (delete image_id (im_inner self)))
    (fun endpoint => remove_key IMAGE_DETAILS_TABLE endpoint image_id).

Definition im_contains self (image_id : text) : bool := bool_decide (is_Some (im_inner self !! image_id)).

Definition missing self (image_ids : list text) : list text := List.filter (fun id => negb (im_contains self id)) image_ids.

Definition im_retain self (image_ids : list text) : ImageMetadataCache :=
  let removed := List.filter (fun id => negb (bool_decide (id ∈ image_ids))) (map_to_list (im_inner self)).*1 in
  with_persistent (set_im_inner self (filter (fun e => e.1 ∈ image_ids) (im_inner self)))
    (fun endpoint persistent => foldl (fun p id => remove_key IMAGE_DETAILS_TABLE endpoint id p) persistent removed).

(** [order] is the order in which the concurrent fetches end. *)
Definition prefetch (now : Z) (order : list text → list text) (fetcher : text → result text CachedImageMetadata)
  self (image_ids : list text) : nat * ImageMetadataCache :=
  let todo := missing self image_ids in
  if is_empty todo then (O, self)
  else
    let self := foldl (fun self image_id =>
      match fetcher image_id with Ok entry => im_insert now self image_id entry | _ => self end) self (order todo) in
    (length (missing self image_ids), self).

Lemma with_persistent_inner self f : im_inner (with_persistent self f) = im_inner self.
Proof. unfold with_persistent. by destruct (im_persistent self), (im_endpoint self). Qed.

Lemma im_insert_inner now self image_id entry :
  im_inner (im_insert now self image_id entry) = <[image_id := entry]> (im_inner self).
Proof. unfold im_insert. by rewrite with_persistent_inner. Qed.

Lemma im_contains_spec self id : im_contains self id = true ↔ is_Some (im_inner self !! id).
Proof. unfold im_contains. apply bool_decide_eq_true. Qed.

Lemma missing_elem self ids id : id ∈ missing self ids ↔ id ∈ ids ∧ im_inner self !! id = None.
Proof.
  unfold missing. rewrite !list_elem_of_In, filter_In, negb_true_iff, <- not_true_iff_false, im_contains_spec, eq_None_not_Some. done.
Qed.

Lemma prefetch_loop now (fetcher : text → result text CachedImageMetadata) todo self id :
  im_inner (foldl (fun self image_id =>
    match fetcher image_id with Ok entry => im_insert now self image_id entry | _ => self end) self todo) !! id
  = match fetcher id with Ok entry => if decide (id ∈ todo) then Some entry else im_inner self !! id | _ => im_inner self !! id end.
Proof.
  revert self. induction todo as [|t todo IH]; intros self; cbn.
  - destruct (fetcher id); [rewrite decide_False by set_solver |..]; done.
  - rewrite IH. destruct (decide (t = id)) as [->|Hne].
    + destruct (fetcher id) as [e| |]; try done. rewrite (decide_True (P := id ∈ id :: todo)) by set_solver.
      rewrite im_insert_inner, lookup_insert_eq. by case_decide.
    + assert (im_inner (match fetcher t with Ok entry => im_insert now self t entry | _ => self end) !! id = im_inner self !! id) as ->
        by (destruct (fetcher t); [rewrite im_insert_inner, lookup_insert_ne by done |..]; done).
      destruct (fetcher id); try done. repeat case_decide; set_solver.
Qed.

(** Prefetching fills exactly what can be fetched.  Whatever order the
    concurrent fetches end in, afterwards every requested image has the metadata
    it had before or else the fetched one, an image whose fetch failed stays
    uncached so that it can be retried, nothing else changes, and the number
    returned is the number of requested images that are still missing. *)
Theorem prefetch_exact now order fetcher self image_ids :
  (∀ l, order l ≡ₚ l) →
  let '(n, self') := prefetch now order fetcher self image_ids in
  (∀ id, get_sync self' id =
     match get_sync self id, fetcher id with
     | Some entry, _ => Some entry
     | None, Ok entry => if decide (id ∈ image_ids) then Some entry else None
     | None, _ => None
     end)
  ∧ n = length (List.filter (fun id => bool_decide (get_sync self id = None) && negb (is_ok (fetcher id))) image_ids).
Proof.
  intros Hord. unfold prefetch, get_sync. set (todo := missing self image_ids). set (self1 := foldl _ self _).
  assert (∀ id, im_inner self1 !! id =
    match im_inner self !! id, fetcher id with
    | Some entry, _ => Some entry
    | None, Ok entry => if decide (id ∈ image_ids) then Some entry else None
    | None, _ => None
    end) as Hself1.
  { intros id. unfold self1. rewrite prefetch_loop.
    assert (id ∈ order todo ↔ id ∈ image_ids ∧ im_inner self !! id = None) as Hin by (rewrite Hord; apply missing_elem).
    destruct (im_inner self !! id) as [e|] eqn:E; destruct (fetcher id); try done.
    - rewrite decide_False; [done |]. rewrite Hin. by intros [_ ?].
    - destruct (decide (id ∈ image_ids)) as [Hi|Hi]; [rewrite decide_True by (by apply Hin) | rewrite decide_False by (rewrite Hin; tauto)]; done. }
  assert (∀ ids s, (∀ id, id ∈ ids → im_inner s !! id = im_inner self1 !! id) → (∀ id, id ∈ ids → id ∈ image_ids) →
    length (missing s ids) = length (List.filter (fun id => bool_decide (im_inner self !! id = None) && negb (is_ok (fetcher id))) ids)) as Hlen.
  { intros ids s Hs Hsub. unfold missing. f_equal. apply filter_ext_in. intros id Hid. apply list_elem_of_In in Hid.
    unfold im_contains. rewrite Hs, Hself1 by done. specialize (Hsub id Hid).
    destruct (im_inner self !! id) as [e|]; [done |]. destruct (fetcher id); [by rewrite decide_True | done | done]. }
  destruct todo as [|t todo'] eqn:Et; cbn [is_empty].
  - assert (∀ id, id ∈ image_ids → im_inner self !! id ≠ None) as Hall.
    { intros id Hi Hn. assert (id ∈ missing self image_ids) as Hm by (by apply missing_elem). fold todo in Hm. rewrite Et in Hm. set_solver. }
    assert (∀ id, im_inner self !! id = im_inner self1 !! id) as Hsame.
    { intros id. rewrite Hself1. destruct (im_inner self !! id) as [e|] eqn:E; [done |].
      destruct (fetcher id); [| done | done]. rewrite decide_False; [done |]. intros Hi. by apply (Hall id). }
    split; [intros id; rewrite <- Hself1; apply Hsame |]. rewrite <- (Hlen image_ids self); [fold todo; by rewrite Et | done | done].
  - split; [done |]. by rewrite <- (Hlen image_ids self1).
Qed.

(** Metadata that only the persistent cache has is never found, because reading
    a single row never finds one: a miss in memory is a miss. *)
Lemma im_get_memory_only self ops id :
  im_persistent self = Some (cache_run (PersistentCache_new ∅) ops) → (im_get self id).1 = im_inner self !! id.
Proof.
  intros Hp. unfold im_get, im_get_persistent. destruct (im_inner self !! id) eqn:E; [done |]. rewrite Hp.
  destruct (im_endpoint self) as [ep|]; [| done].
  pose proof (get_misses (T := CachedImageMetadata) ops IMAGE_DETAILS_TABLE ep id) as Hmiss.
  destruct (get _ _ _ _) as [[e|] p]; done.
Qed.
End image_metadata.

(** ** Volume usage *)
Definition DEFAULT_TTL : Z := 45.

Inductive VolumeUsageSource := SystemDf | VolumeList | VolumeInspect | FromPersistentCache.

Record CachedVolumeUsage := mkCachedVolumeUsage {
  size_bytes : option Z;
  ref_count : option Z;
  measured_at : Z;
  usage_source : VolumeUsageSource;
}.

Definition is_known (self : CachedVolumeUsage) : bool := bool_decide (is_Some (size_bytes self)).

Record usage_entry := mkUsageEntry { ue_usage : CachedVolumeUsage; ue_inserted_at : Z }.

Record VolumeUsageCache := mkVolumeUsageCache {
  vu_inner : gmap text usage_entry;
  vu_ttl : Z;
  vu_persistent : option PersistentCache;
  vu_endpoint : option EndpointKey;
}.

Definition VolumeUsageCache_with_ttl (persistent : option PersistentCache) (endpoint : option EndpointKey) (ttl : Z)
  : VolumeUsageCache := mkVolumeUsageCache ∅ ttl persistent endpoint.
Definition VolumeUsageCache_new (persistent : option PersistentCache) (endpoint : option EndpointKey) : VolumeUsageCache :=
  VolumeUsageCache_with_ttl persistent endpoint DEFAULT_TTL.

(** chrono's [DateTime::from_timestamp(secs, 0)], [None] outside of its range. *)
Class Chrono := { from_timestamp : Z → option Z }.

Section volume_usage.
Context `{!SqliteEnv, !Chrono}.
Implicit Types self : VolumeUsageCache.

Definition vu_set self (inner : gmap text usage_entry) (persistent : option PersistentCache) : VolumeUsageCache :=
  mkVolumeUsageCache inner (vu_ttl self) persistent (vu_endpoint self).

Definition vu_seed (now : Z) self (entries : list (text * CachedVolumeUsage)) : VolumeUsageCache :=
  vu_set self (foldl (fun m '(name, usage) => <[name := mkUsageEntry usage now]> m) (vu_inner self) entries)
    (vu_persistent self).

(** [now] is the monotonic clock, [utc] the wall clock. *)
Definition vu_get_persistent (now utc : Z) self (volume_name : text) : option CachedVolumeUsage * VolumeUsageCache :=
  match vu_persistent self, vu_endpoint self with
  | Some persistent, Some endpoint =>
      let '(rows, persistent) := hydrate_usage endpoint persistent in
      match List.find (fun '(name, _, _, _) => bool_decide (name = volume_name)) rows with
      | Some (_, size, count, measured) =>
          let usage := mkCachedVolumeUsage size count (default utc (from_timestamp measured)) FromPersistentCache in
          (Some usage, vu_set self (<[volume_name := mkUsageEntry usage now]> (vu_inner self)) (Some persistent))
      | None => (None, vu_set self (vu_inner self) (Some persistent))
      end
  | _, _ => (None, self)
  end.

(** [entry.inserted_at.elapsed() < self.ttl] *)
Definition usage_fresh (now : Z) self (entry : usage_entry) : bool := saturating_sub now (ue_inserted_at entry) <? vu_ttl self.

Definition vu_get (now utc : Z) self (volume_name : text) : option CachedVolumeUsage * VolumeUsageCache :=
  match vu_inner self !! volume_name with
  | Some entry =>
      if usage_fresh now self entry then (Some (ue_usage entry), self) else vu_get_persistent now utc self volume_name
  | None => vu_get_persistent now utc self volume_name
  end.

Definition get_stale self (volume_name : text) : option CachedVolumeUsage := ue_usage <$> vu_inner self !! volume_name.

Definition vu_put (now utc : Z) self (volume_name : text) (size count : option Z) (source : VolumeUsageSource)
  : VolumeUsageCache :=
  let usage := mkCachedVolumeUsage size count utc source in
  let inner := <[volume_name := mkUsageEntry usage now]> (vu_inner self) in
  match vu_persistent self, vu_endpoint self with
  | Some persistent, Some endpoint => vu_set self inner (Some (put_usage endpoint volume_name size count utc persistent))
  | _, _ => vu_set self inner (vu_persistent self)
  end.

Definition vu_snapshot self : list (text * CachedVolumeUsage) :=
  (fun '(name, entry) => (name, ue_usage entry)) <$> map_to_list (vu_inner self).

Definition invalidate self (volume_name : text) : VolumeUsageCache :=
  vu_set self (delete volume_name (vu_inner self)) (vu_persistent self).

Definition vu_prune_expired (now : Z) self : nat * VolumeUsageCache :=
  let kept := filter (fun e => usage_fresh now self e.2 = true) (vu_inner self) in
  ((size (vu_inner self) - size kept)%nat, vu_set self kept (vu_persistent self)).

Definition vu_clear self : VolumeUsageCache := vu_set self ∅ (vu_persistent self).

(** Without a persistent cache, a measurement is returned for its time to live
    and then not; it can still be read as stale. *)
Lemma usage_ttl now now' utc utc' self name sz ct src :
  vu_persistent self = None → now ≤ now' →
  let self' := vu_put now utc self name sz ct src in
  (vu_get now' utc' self' name).1
  = (if bool_decide (now' - now < vu_ttl self) then Some (mkCachedVolumeUsage sz ct utc src) else None)
  ∧ get_stale self' name = Some (mkCachedVolumeUsage sz ct utc src).
Proof.
  intros Hp Hle. unfold vu_put, vu_get, get_stale. rewrite Hp. cbn. rewrite lookup_insert_eq. cbn. split; [| done].
  unfold usage_fresh, saturating_sub. cbn. rewrite Z.max_r by lia.
  case_bool_decide as Hb; [by rewrite (proj2 (Z.ltb_lt _ _) Hb) |]. rewrite (proj2 (Z.ltb_ge _ _)) by lia.
  done.
Qed.
End volume_usage.

(** ** Concrete caches *)
#[local] Instance sound_disk : SqliteEnv := { sqlite_fails _ := false }.
#[local] Instance utc_seconds : Chrono := { from_timestamp secs := Some secs }.
#[local] Instance no_json : Json CachedImageMetadata := { to_vec _ := None; from_slice _ := None }.

Lemma prefetch_exact_witness :
  (prefetch 0 reverse (fun id => if bool_decide (id = bytes "b") then Err (bytes "gone")
                                 else Ok (mkCachedImageMetadata None None None None 5))
     (ImageMetadataCache_new None None) [bytes "a"; bytes "b"; bytes "a"]).1 = 1%nat.
Proof.
  pose proof (prefetch_exact 0 reverse (fun id => if bool_decide (id = bytes "b") then Err (bytes "gone")
    else Ok (mkCachedImageMetadata None None None None 5)) (ImageMetadataCache_new None None) [bytes "a"; bytes "b"; bytes "a"]
    (fun l => reverse_Permutation l)) as H.
  destruct (prefetch _ _ _ _ _) as [n self']. destruct H as [_ ->]. vm_compute. reflexivity.
Defined.

(** With a persistent cache the time to live has no effect: an hour after the
    only measurement, [get] finds the entry expired, reads the same measurement
    back from the database, returns it as fresh and starts a new time to live. *)
Theorem expired_usage_returned :
  let put := vu_put 0 1000 (VolumeUsageCache_new (Some (PersistentCache_new ∅))
                              (Some (mkEndpointKey (bytes "local") None None))) (bytes "v") (Some 10) None SystemDf in
  let stored := match vu_persistent put with
                | Some p => mkVolumeUsageCache (vu_inner put) (vu_ttl put) (Some (background_step (Thread 0) p)) (vu_endpoint put)
                | None => put
                end in
  let '(r, after) := vu_get 3600 4600 stored (bytes "v") in
  r = Some (mkCachedVolumeUsage (Some 10) None 1000 FromPersistentCache)
  ∧ (vu_get 3644 4644 after (bytes "v")).1 = r.
Proof. vm_compute. split; reflexivity. Qed.
