(* ===== verification/Events.v ===== *)
(** The Docker event monitor (cache/events.rs): events of the Engine are
    classified, collected for a quarter of a second and published as one
    notification; a stream that fails is opened again after a growing delay.

    [run_monitor] waits for whichever comes first of a cancellation, an item of
    the stream and the end of the debounce window.  Each is an input of
    [monitor_step], with the time at which it came; a wait of the backoff is part
    of the failure that caused it.  What is sent on the watch channel is the list
    [sent].  The jitter of the backoff is floating-point arithmetic on the clock
    and is left out. *)

From S2P Require Import Prelude Path Text Domain.

Local Open Scope Z_scope.

Inductive ChangeKind := Images | Containers | Volumes | Networks | Daemon.
#[export] Instance ChangeKind_eq_dec : EqDecision ChangeKind.
Proof. solve_decision. Defined.
Definition kind_rank (k : ChangeKind) : nat :=
  match k with Images => 0 | Containers => 1 | Volumes => 2 | Networks => 3 | Daemon => 4 end.
#[export] Instance ChangeKind_countable : Countable ChangeKind.
Proof.
  refine (inj_countable kind_rank (fun n =>
    match n with 0 => Some Images | 1 => Some Containers | 2 => Some Volumes | 3 => Some Networks | 4 => Some Daemon | _ => None end%nat) _).
  by intros [].
Defined.

Record ContainerChange := mkContainerChange { actor_id : text; action : text }.
#[export] Instance ContainerChange_eq_dec : EqDecision ContainerChange.
Proof. solve_decision. Defined.
#[export] Instance ContainerChange_countable : Countable ContainerChange.
Proof.
  refine (inj_countable' (fun c => (actor_id c, action c)) (fun p => mkContainerChange p.1 p.2) _). by intros [].
Defined.

Definition MAX_CONTAINER_CHANGES : nat := 256.

Record ChangeNotification := mkChangeNotification {
  kinds : list ChangeKind;
  container_changes : list ContainerChange;
  container_changes_truncated : bool;
  burst : nat;
  was_reconnected : bool;
}.

Record PendingBatch := mkPendingBatch {
  pb_start : Z;
  pb_kinds : gset ChangeKind;
  pb_changes : list ContainerChange;
  pb_seen : gset ContainerChange;
  pb_truncated : bool;
  pb_burst : nat;
}.

Definition change_of (event : DockerEvent) : ContainerChange :=
  mkContainerChange (default [] (de_actor_id event)) (de_action event).

Definition PendingBatch_add (self : PendingBatch) (kind : ChangeKind) (event : DockerEvent) : PendingBatch :=
  let kinds := {[kind]} ∪ pb_kinds self in
  let burst := S (pb_burst self) in
  if negb (bool_decide (kind = Containers))
  then mkPendingBatch (pb_start self) kinds (pb_changes self) (pb_seen self) (pb_truncated self) burst
  else
    let change := change_of event in
    if bool_decide (change ∈ pb_seen self)
    then mkPendingBatch (pb_start self) kinds (pb_changes self) (pb_seen self) (pb_truncated self) burst
    else if (MAX_CONTAINER_CHANGES <=? length (pb_changes self))%nat
    then mkPendingBatch (pb_start self) kinds (pb_changes self) (pb_seen self) true burst
    else mkPendingBatch (pb_start self) kinds (pb_changes self ++ [change]) ({[change]} ∪ pb_seen self)
           (pb_truncated self) burst.

Definition PendingBatch_new (now : Z) (kind : ChangeKind) (event : DockerEvent) : PendingBatch :=
  PendingBatch_add (mkPendingBatch now ∅ [] ∅ false O) kind event.

(** ** Classification *)
Definition helper_prefixes : list text :=
  [bytes "tuxstack-fs-helper-"; bytes "tuxstack-bind-helper-"; bytes "tuxstack-image-helper-"; bytes "tuxstack-volume-helper-"].

Definition is_internal_helper_event (event : DockerEvent) : bool :=
  existsb (fun '(key, value) =>
    (bool_decide (key = bytes "name") && existsb (starts_with value) helper_prefixes)
    || (bool_decide (key = bytes "io.github.tuxstack.managed") && bool_decide (value = bytes "true")))
    (de_actor_attributes event).

Definition event_kind (event_type : text) : option ChangeKind :=
  if bool_decide (event_type = bytes "image") then Some Images
  else if bool_decide (event_type = bytes "container") then Some Containers
  else if bool_decide (event_type = bytes "volume") then Some Volumes
  else if bool_decide (event_type = bytes "network") then Some Networks
  else if bool_decide (event_type = bytes "daemon") then Some Daemon
  else None.

Definition classify (event : DockerEvent) : option ChangeKind :=
  kind ← event_kind (de_event_type event);
  if bool_decide (kind = Containers) && is_internal_helper_event event then None
  else if bool_decide (kind = Containers) && starts_with (de_action event) (bytes "exec_") then None
  else Some kind.

(** ** The loop *)
Definition debounce : Z := 250.
Definition backoff_initial : Z := 1000.
Definition backoff_max : Z := 30000.

Record monitor := mkMonitor {
  pending : option PendingBatch;
  reconnected : bool;
  backoff : Z;
  sent : list ChangeNotification;
  running : bool;
}.
Definition monitor_start : monitor := mkMonitor None false backoff_initial [] true.

Definition change_order : list ChangeKind := [Images; Containers; Volumes; Networks; Daemon].

(** [kinds.sort_by_key(…position…)] of the set in any order. *)
Definition sorted_kinds (ks : gset ChangeKind) : list ChangeKind :=
  sort_by (cmp_by kind_rank Nat.compare) (elements ks).

Definition flush (self : monitor) : monitor :=
  match pending self with
  | None => self
  | Some batch =>
      mkMonitor None (reconnected self) (backoff self)
        (sent self ++ [mkChangeNotification (sorted_kinds (pb_kinds batch)) (pb_changes batch) (pb_truncated batch)
                         (pb_burst batch) (reconnected self)])
        (running self)
  end.

Definition set_reconnected (b : bool) (self : monitor) : monitor :=
  mkMonitor (pending self) b (backoff self) (sent self) (running self).

(** Leaving the loop flushes what is pending. *)
Definition stop (self : monitor) : monitor :=
  let self := flush self in mkMonitor (pending self) (reconnected self) (backoff self) (sent self) false.

Inductive monitor_input :=
  | InEvent (now : Z) (event : DockerEvent)
  | InFailure (waited client : bool)  (* an error or the end of the stream *)
  | InTick (now : Z)
  | InCancelled.

(** [batch.start.elapsed() >= debounce] *)
Definition window_closed (now : Z) (self : monitor) : bool :=
  match pending self with Some batch => debounce <=? saturating_sub now (pb_start batch) | None => false end.

Definition on_event (now : Z) (kind : ChangeKind) (event : DockerEvent) (self : monitor) : monitor :=
  let self := if window_closed now self then set_reconnected false (flush self) else self in
  let batch := match pending self with
               | Some batch => PendingBatch_add batch kind event
               | None => PendingBatch_new now kind event
               end in
  mkMonitor (Some batch) (reconnected self) backoff_initial (sent self) (running self).

(** The wait may be cancelled, and a new stream needs a client. *)
Definition on_failure (waited client : bool) (self : monitor) : monitor :=
  let self := set_reconnected true (flush self) in
  if negb waited then stop self
  else
    let self := mkMonitor (pending self) (reconnected self) (Z.min (backoff self * 2) backoff_max) (sent self) (running self) in
    if client then self else stop self.

Definition monitor_step (self : monitor) (i : monitor_input) : monitor :=
  if negb (running self) then self
  else
    match i with
    | InEvent now event => match classify event with Some kind => on_event now kind event self | None => self end
    | InFailure waited client => on_failure waited client self
    | InTick now => if window_closed now self then set_reconnected false (flush self) else self
    | InCancelled => stop self
    end.
Definition monitor_run (is_ : list monitor_input) : monitor := foldl monitor_step monitor_start is_.

(** ** What the notifications mean

    The history of a run is what the loop saw while it ran: the events that are
    classified, with their time, and the failures of the stream. *)
Inductive seen := Saw (now : Z) (kind : ChangeKind) (event : DockerEvent) | Failed.

Definition history_of (i : monitor_input) : list seen :=
  match i with
  | InEvent now event => match classify event with Some kind => [Saw now kind event] | None => [] end
  | InFailure _ _ => [Failed]
  | _ => []
  end.
Fixpoint history (self : monitor) (is_ : list monitor_input) : list seen :=
  match is_ with
  | [] => []
  | i :: is_ => (if running self then history_of i else []) ++ history (monitor_step self i) is_
  end.

Definition seen_kind (x : seen) : option ChangeKind := match x with Saw _ k _ => Some k | Failed => None end.
Definition seen_change (x : seen) : option ContainerChange :=
  match x with Saw _ Containers event => Some (change_of event) | _ => None end.
Definition is_failure (x : seen) : bool := match x with Failed => true | _ => false end.

(** Distinct elements in the order in which they first occur. *)
Definition first_seen {A} `{EqDecision A} (l : list A) : list A :=
  foldl (fun acc x => if bool_decide (x ∈ acc) then acc else acc ++ [x]) [] l.

(** The notification for a segment of the history. *)
Definition notification_of (seg : list seen) : ChangeNotification :=
  let changes := first_seen (omap seen_change seg) in
  mkChangeNotification
    (List.filter (fun k => bool_decide (k ∈ omap seen_kind seg)) change_order)
    (take MAX_CONTAINER_CHANGES changes)
    (MAX_CONTAINER_CHANGES <? length changes)%nat
    (length (omap seen_kind seg))
    (existsb is_failure seg).

(** Failures come before the first event of a segment, and its events come within
    the debounce window of the first. *)
Definition segment_ok (seg : list seen) : Prop :=
  ∃ n t0 k0 e0 evs, seg = repeat Failed n ++ Saw t0 k0 e0 :: evs
    ∧ Forall (fun x => ∃ t k e, x = Saw t k e ∧ saturating_sub t t0 < debounce) evs.

(** *** Batches *)
Definition is_saw (x : seen) : Prop := ∃ t k e, x = Saw t k e.

(** The batch that collected the events [evs]. *)
Definition batch_of (t0 : Z) (evs : list seen) : PendingBatch :=
  let changes := first_seen (omap seen_change evs) in
  mkPendingBatch t0 (list_to_set (omap seen_kind evs)) (take MAX_CONTAINER_CHANGES changes)
    (list_to_set (take MAX_CONTAINER_CHANGES changes)) (MAX_CONTAINER_CHANGES <? length changes)%nat
    (length (omap seen_kind evs)).

Lemma first_seen_snoc {A} `{EqDecision A} (l : list A) x :
  first_seen (l ++ [x]) = if bool_decide (x ∈ first_seen l) then first_seen l else first_seen l ++ [x].
Proof. unfold first_seen. by rewrite foldl_app. Qed.

#[local] Arguments Nat.ltb : simpl never.
#[local] Arguments Nat.leb : simpl never.

Lemma batch_of_add t0 evs t kind event :
  PendingBatch_add (batch_of t0 evs) kind event = batch_of t0 (evs ++ [Saw t kind event]).
Proof.
  unfold PendingBatch_add, batch_of. generalize MAX_CONTAINER_CHANGES. intros M. cbn. rewrite !omap_app. cbn.
  rewrite length_app, Nat.add_1_r, list_to_set_app_L. cbn. rewrite (right_id_L ∅ (∪)), (comm_L (∪) _ {[kind]}).
  case_bool_decide as Hk; cbn.
  2: { replace (match kind with Containers => [change_of event] | _ => [] end) with (@nil ContainerChange) by (by destruct kind).
       by destruct kind; rewrite ?app_nil_r. }
  subst kind. cbn. set (c := change_of event). rewrite first_seen_snoc. set (F := first_seen _).
  destruct (decide (c ∈ take M F)) as [Hin|Hin].
  - rewrite bool_decide_eq_true_2 by (by apply elem_of_list_to_set).
    rewrite bool_decide_eq_true_2; [done |]. rewrite <- (take_drop M F). apply elem_of_app. by left.
  - rewrite bool_decide_eq_false_2 by (by rewrite elem_of_list_to_set).
    rewrite length_take. destruct (M <=? M `min` length F)%nat eqn:E.
    + apply Nat.leb_le in E. case_bool_decide as HF.
      * assert ((M <? length F)%nat = true) as ->; [| done]. apply Nat.ltb_lt.
        destruct (decide (M < length F)%nat) as [|Hge]; [done |]. destruct Hin. by rewrite take_ge by lia.
      * rewrite take_app_le by lia. rewrite length_app. cbn [length].
        by rewrite (proj2 (Nat.ltb_lt M (length F + 1))) by lia.
    + apply Nat.leb_gt in E. rewrite (take_ge F) in * by lia. rewrite bool_decide_eq_false_2 by done.
      rewrite take_ge by (rewrite length_app; cbn; lia). rewrite list_to_set_app_L. cbn.
      rewrite (right_id_L ∅ (∪)), (comm_L (∪) _ {[c]}). rewrite length_app. cbn [length].
      rewrite (proj2 (Nat.ltb_ge M (length F))), (proj2 (Nat.ltb_ge M (length F + 1))) by lia. done.
Qed.

Lemma sorted_kinds_spec (l : list ChangeKind) :
  sorted_kinds (list_to_set l) = List.filter (fun k => bool_decide (k ∈ l)) change_order.
Proof.
  unfold sorted_kinds. set (cmp := cmp_by kind_rank Nat.compare).
  assert (TotalCmp cmp) as Ht by apply _.
  assert (∀ a b, cmp a b = Eq → a = b) as Heq by (by intros [] []).
  transitivity (sort_by cmp (List.filter (fun k => bool_decide (k ∈ l)) change_order)).
  - apply (sort_by_unique cmp (fun k => k)); [done | rewrite list_fmap_id; apply NoDup_elements |].
    apply NoDup_Permutation; [apply NoDup_elements | |].
    + apply NoDup_ListNoDup, NoDup_filter, NoDup_ListNoDup. by repeat (constructor; [set_solver |]); constructor.
    + intros k. rewrite elem_of_elements, elem_of_list_to_set, (list_elem_of_In (List.filter _ _)), filter_In, bool_decide_eq_true.
      split; [| tauto]. intros Hk. split; [| done]. destruct k; cbn; tauto.
  - unfold change_order. cbn. by repeat case_bool_decide.
Qed.

Lemma omap_repeat_Failed {B} (f : seen → option B) n : f Failed = None → omap f (repeat Failed n) = [].
Proof. intros Hf. induction n as [|n IH]; cbn; [done |]. by rewrite Hf. Qed.

Lemma batch_notification t0 n evs :
  Forall is_saw evs →
  mkChangeNotification (sorted_kinds (pb_kinds (batch_of t0 evs))) (pb_changes (batch_of t0 evs))
    (pb_truncated (batch_of t0 evs)) (pb_burst (batch_of t0 evs)) (0 <? n)%nat
  = notification_of (repeat Failed n ++ evs).
Proof.
  intros Hs. unfold notification_of, batch_of. cbn [pb_kinds pb_changes pb_truncated pb_burst].
  rewrite sorted_kinds_spec, !omap_app, !omap_repeat_Failed by done. cbn [app]. f_equal.
  rewrite existsb_app. assert (existsb is_failure evs = false) as ->.
  { induction Hs as [|x evs (t & k & e & ->) Hs IH]; [done | exact IH]. }
  rewrite orb_false_r. destruct n; [done | reflexivity].
Qed.

(** *** The loop *)
Record monitor_inv (hist : list seen) (s : monitor) (segs : list (list seen)) (n : nat) (evs : list seen) : Prop := {
  mi_hist : hist = concat segs ++ repeat Failed n ++ evs;
  mi_sent : sent s = notification_of <$> segs;
  mi_segs : Forall segment_ok segs;
  mi_saw : Forall is_saw evs;
  mi_pending : pending s = match evs with Saw t0 _ _ :: _ => Some (batch_of t0 evs) | _ => None end;
  mi_window : match evs with
              | Saw t0 _ _ :: evs => Forall (fun x => ∃ t k e, x = Saw t k e ∧ saturating_sub t t0 < debounce) evs
              | _ => True
              end;
  mi_reconnected : running s = true → reconnected s = (0 <? n)%nat;
  mi_stopped : running s = false → evs = [];
  mi_backoff : backoff_initial ≤ backoff s ≤ backoff_max;
}.

(** A flush closes the segment. *)
Lemma flush_closes hist s segs n evs :
  monitor_inv hist s segs n evs → running s = true →
  ∃ segs' n', hist = concat segs' ++ repeat Failed n' ∧ sent (flush s) = notification_of <$> segs' ∧ Forall segment_ok segs'
    ∧ pending (flush s) = None ∧ running (flush s) = true ∧ backoff (flush s) = backoff s
    ∧ (pending s ≠ None → n' = O).
Proof.
  intros [Hh Hs Hok Hsaw Hp Hw Hr _ _] Hrun. specialize (Hr Hrun). unfold flush. destruct evs as [|x evs].
  - rewrite Hp, app_nil_r in *. exists segs, n. split_and!; done.
  - pose proof Hsaw as [(t0 & k0 & e0 & ->) Hsaw']%Forall_cons_iff. rewrite Hp. exists (segs ++ [repeat Failed n ++ Saw t0 k0 e0 :: evs]), O.
    cbn [pending running backoff sent]. split_and!; try done.
    + rewrite Hh, concat_app. cbn [concat repeat]. by rewrite !app_nil_r.
    + rewrite fmap_app, Hs. f_equal. cbn [fmap list_fmap]. by rewrite <- (batch_notification t0), Hr.
    + apply Forall_app. split; [done |]. apply Forall_singleton. exists n, t0, k0, e0, evs. done.
Qed.

(** Nothing pending, and [n] failures since the last notification. *)
Lemma closed_inv hist s segs n :
  hist = concat segs ++ repeat Failed n → sent s = notification_of <$> segs → Forall segment_ok segs →
  pending s = None → (running s = true → reconnected s = (0 <? n)%nat) → backoff_initial ≤ backoff s ≤ backoff_max →
  monitor_inv hist s segs n [].
Proof. intros. split; try done. by rewrite app_nil_r. Qed.

(** The end of the window. *)
Lemma window_inv hist s segs n evs now :
  monitor_inv hist s segs n evs → running s = true → window_closed now s = true →
  ∃ segs', monitor_inv hist (set_reconnected false (flush s)) segs' O [].
Proof.
  intros Hinv Hrun Hw. destruct (flush_closes _ _ _ _ _ Hinv Hrun) as (segs' & n' & H1 & H2 & H3 & H4 & H5 & H6 & H7).
  assert (n' = O) as -> by (apply H7; unfold window_closed in Hw; by destruct (pending s)).
  exists segs'. apply closed_inv; cbn; try done. rewrite H6. apply Hinv.
Qed.

Lemma stop_inv hist s segs n evs :
  monitor_inv hist s segs n evs → running s = true → ∃ segs' n', monitor_inv hist (stop s) segs' n' [].
Proof.
  intros Hinv Hrun. destruct (flush_closes _ _ _ _ _ Hinv Hrun) as (segs' & n' & H1 & H2 & H3 & H4 & H5 & H6 & _).
  exists segs', n'. apply closed_inv; cbn; try done. rewrite H6. apply Hinv.
Qed.

Lemma failure_inv hist s segs n evs waited client :
  monitor_inv hist s segs n evs → running s = true →
  ∃ segs' n' evs', monitor_inv (hist ++ [Failed]) (on_failure waited client s) segs' n' evs'.
Proof.
  intros Hinv Hrun. destruct (flush_closes _ _ _ _ _ Hinv Hrun) as (segs' & n' & H1 & H2 & H3 & H4 & H5 & H6 & _).
  pose proof (mi_backoff _ _ _ _ _ Hinv) as Hb.
  assert (∀ b, backoff_initial ≤ b ≤ backoff_max → monitor_inv (hist ++ [Failed])
    (mkMonitor (pending (flush s)) true b (sent (flush s)) (running (flush s))) segs' (S n') []) as Hset.
  { intros b Hbb. apply closed_inv; cbn; try done. rewrite H1, <- app_assoc. f_equal. by rewrite <- repeat_cons. }
  unfold on_failure. destruct waited; cbn [negb].
  - destruct client.
    + exists segs', (S n'), []. apply Hset. cbn. rewrite H6. unfold backoff_initial, backoff_max in *. lia.
    + destruct (stop_inv _ _ _ _ _ (Hset (Z.min (backoff (flush s) * 2) backoff_max)
        ltac:(rewrite H6; unfold backoff_initial, backoff_max in *; lia)) H5) as (s2 & n2 & ?). eauto.
  - destruct (stop_inv _ _ _ _ _ (Hset (backoff (flush s)) ltac:(by rewrite H6)) H5) as (s2 & n2 & ?). eauto.
Qed.

Lemma event_inv hist s segs n evs now kind event :
  monitor_inv hist s segs n evs → running s = true →
  ∃ segs' n' evs', monitor_inv (hist ++ [Saw now kind event]) (on_event now kind event s) segs' n' evs'.
Proof.
  intros Hinv Hrun. unfold on_event.
  assert (∃ segs n evs, monitor_inv hist (if window_closed now s then set_reconnected false (flush s) else s) segs n evs
    ∧ (window_closed now (if window_closed now s then set_reconnected false (flush s) else s) = false)
    ∧ running (if window_closed now s then set_reconnected false (flush s) else s) = true) as (segs1 & n1 & evs1 & Hinv1 & Hopen & Hrun1).
  { destruct (window_closed now s) eqn:Hw; [| exists segs, n, evs; done].
    destruct (window_inv _ _ _ _ _ now Hinv Hrun Hw) as (segs' & Hi). exists segs', O, []. split; [done |].
    pose proof (mi_pending _ _ _ _ _ Hi) as Hp. unfold window_closed. rewrite Hp. split; [done |].
    unfold flush. by destruct (pending s). }
  set (s1 := if window_closed now s then _ else s) in *. clearbody s1. clear Hinv Hrun.
  destruct Hinv1 as [Hh Hs Hok Hsaw Hp Hw Hr _ Hb]. exists segs1, n1, (evs1 ++ [Saw now kind event]). split; cbn.
  - by rewrite Hh, <- !app_assoc.
  - done.
  - done.
  - apply Forall_app. split; [done |]. apply Forall_singleton. by eexists _, _, _.
  - rewrite Hp. destruct evs1 as [|x evs1]; [apply (f_equal Some), (batch_of_add now [] now) |].
    apply Forall_cons_iff in Hsaw as [(t0 & k0 & e0 & ->) _]. cbn [app]. by rewrite (batch_of_add t0 _ now).
  - destruct evs1 as [|x evs1]; [constructor |]. apply Forall_cons_iff in Hsaw as [(t0 & k0 & e0 & ->) _]. cbn [app].
    apply Forall_app. split; [done |]. apply Forall_singleton. eexists _, _, _. split; [done |].
    unfold window_closed in Hopen. rewrite Hp in Hopen. cbn in Hopen. by apply Z.leb_gt in Hopen.
  - done.
  - intros Hf. congruence.
  - unfold backoff_initial, backoff_max in *. lia.
Qed.

Lemma monitor_step_inv hist s i segs n evs :
  monitor_inv hist s segs n evs →
  ∃ segs' n' evs', monitor_inv (hist ++ if running s then history_of i else []) (monitor_step s i) segs' n' evs'.
Proof.
  intros Hinv. unfold monitor_step. destruct (running s) eqn:Hrun; cbn [negb]; [| rewrite app_nil_r; eauto].
  destruct i as [now event|waited client|now|]; cbn [history_of].
  - destruct (classify event) as [kind|]; [by eapply event_inv | rewrite app_nil_r; eauto].
  - by eapply failure_inv.
  - rewrite app_nil_r. destruct (window_closed now s) eqn:Hw; [| eauto].
    destruct (window_inv _ _ _ _ _ _ Hinv Hrun Hw) as (? & ?). eauto.
  - rewrite app_nil_r. destruct (stop_inv _ _ _ _ _ Hinv Hrun) as (? & ? & ?). eauto.
Qed.

Lemma monitor_run_inv is_ s hist segs n evs :
  monitor_inv hist s segs n evs →
  ∃ segs' n' evs', monitor_inv (hist ++ history s is_) (foldl monitor_step s is_) segs' n' evs'.
Proof.
  revert s hist segs n evs. induction is_ as [|i is_ IH]; intros s hist segs n evs Hinv; cbn [history foldl].
  - rewrite app_nil_r. eauto.
  - destruct (monitor_step_inv _ _ i _ _ _ Hinv) as (segs1 & n1 & evs1 & H1). rewrite app_assoc. by eapply IH.
Qed.

