(* ===== verification/DaemonState.v ===== *)
(** The state of the daemon (crates/tuxstack-daemon/src/state.rs): what it
    mounts, how it attaches a provider for every volume, image and container to
    the namespace, and how it answers requests about the mount and about the path
    of a resource.

    A provider reference is an element of [P] over the world [W]; the classes
    below are the constructors of providers, the host and the image provider.
    An error is the text that [anyhow] displays, its outermost context.  What is
    only logged is left out.  The lock of a rebuild makes each operation one
    step. *)

From S2P Require Import Prelude Error Path NameCodec Numbers Text Utf8 Model Provider Executor Handle Adapter.
From S2P Require Import TarIndex Archive Router Container Namespace Domain DockerError Services Subscription Events.
From S2P Require Import FsClient HelperProvider HelperSession VolumePool.
From S2P Require Protocol.

Local Open Scope Z_scope.

Create HintDb builds discriminated.

(** ** Errors and their texts *)

(** The [Display] of [VfsError]; the names of [Debug]. *)
Definition VfsError_to_string (self : VfsError) : text :=
  match self with
  | InvalidInput message => bytes "invalid input: " ++ bytes message
  | Error.Unsupported message => bytes "operation unsupported: " ++ bytes message
  | Unavailable message => bytes "provider unavailable: " ++ bytes message
  | Error.Io message => bytes "I/O error: " ++ bytes message
  | NotFound => bytes "NotFound"
  | NotDirectory => bytes "NotDirectory"
  | IsDirectory => bytes "IsDirectory"
  | ReadOnly => bytes "ReadOnly"
  | PermissionDenied => bytes "PermissionDenied"
  | NameTooLong => bytes "NameTooLong"
  | PathTooLong => bytes "PathTooLong"
  | InvalidEncoding => bytes "InvalidEncoding"
  | TooManyHandles => bytes "TooManyHandles"
  | BadHandle => bytes "BadHandle"
  | Stale => bytes "Stale"
  | SymlinkLoop => bytes "SymlinkLoop"
  | SymlinkEscape => bytes "SymlinkEscape"
  | SpecialFile => bytes "SpecialFile"
  | TimedOut => bytes "TimedOut"
  end.

Abbreviation tres := (result text).

(** [?] on the error of a provider, and [.context(message)?]. *)
Definition displayed {A} (r : vres A) : tres A := map_error VfsError_to_string r.
Definition context {E A} (message : text) (r : result E A) : tres A := map_error (fun _ => message) r.

(** Programs that fail with a text. *)
Definition tprog (S A : Type) : Type := S → tres A * S.
#[export] Instance tprog_ret {S} : MRet (tprog S) := fun A a s => (Ok a, s).
#[export] Instance tprog_bind {S} : MBind (tprog S) := fun A B f m s =>
  match m s with
  | (Ok a, s) => f a s
  | (Err e, s) => (Err e, s)
  | (Panic p, s) => (Panic p, s)
  end.
Definition tlift {S A} (r : tres A) : tprog S A := fun s => (r, s).
Definition tupdate {S} (f : S → S) : tprog S () := fun s => (Ok tt, f s).
Definition tgets {S A} (f : S → A) : tprog S A := fun s => (Ok (f s), s).

(** [if let Err(error) = … { warn }] *)
Definition logged {S A} (m : tprog S A) : tprog S () := fun s =>
  match m s with (Panic p, s) => (Panic p, s) | (_, s) => (Ok tt, s) end.

(** A [for] loop whose body logs its error. *)
Fixpoint each_logged {S A} (f : A → tprog S ()) (l : list A) : tprog S () :=
  match l with [] => mret tt | x :: l => logged (f x);; each_logged f l end.

(** ** Paths of resources *)
Definition encoded_path (parent : string) (value : text) : vres VirtualPath :=
  parent ← VirtualPath_from_absolute (bytes parent);
  encoded ← FuseNameCodec_encode value;
  name ← VirtualFileName_new encoded;
  VirtualPath_join parent name.

Definition container_namespace_path (container_id : text) : vres VirtualPath :=
  encoded_path "/containers/.by-id" container_id.
Definition image_namespace_path (image_id : text) : vres VirtualPath :=
  encoded_path "/images/.by-id" image_id.

Definition resource_namespace_path (resource : Protocol.DockerResourceRef) : vres VirtualPath :=
  match resource with
  | Protocol.Ref_Container container_id => container_namespace_path container_id
  | Protocol.Ref_Image image_id => image_namespace_path image_id
  | Protocol.Ref_Volume volume_name => encoded_path "/volumes" volume_name
  end.

(** [PathBuf::join] of a relative component. *)
Definition path_push (path component : list byte) : list byte :=
  if is_empty path || bool_decide (list.last path = Some "/"%byte) then path ++ component
  else path ++ "/"%byte :: component.
Definition host_namespace_path (mount_point : list byte) (path : VirtualPath) : list byte :=
  foldl (fun acc component => path_push acc (VirtualFileName_as_bytes component)) mount_point (components path).

(** ** Descriptors on the wire *)
Definition wire_provider_kind (kind : Model.ProviderKind) : tres Protocol.ProviderKind :=
  match kind with
  | Model.ContainerRootfsSnapshot => Ok Protocol.ContainerRootfsSnapshot
  | Model.ContainerArchiveLive => Ok Protocol.ContainerArchiveLive
  | Model.NamedVolumeLive => Ok Protocol.NamedVolumeLive
  | Model.LocalBindLive => Ok Protocol.LocalBindLive
  | Model.HelperBindLive => Ok Protocol.HelperBindLive
  | Model.TmpfsLive => Ok Protocol.TmpfsLive
  | Model.RuntimeMount => Ok Protocol.RuntimeMount
  | Model.ImageRootfsImmutable => Ok Protocol.ImageRootfsImmutable
  | Model.InMemory => Panic "synthetic namespace is not a resource provider"
  end.

(** [DateTime::timestamp_millis] of a time in nanoseconds. *)
Definition wire_consistency (mode : Model.ConsistencyMode) : Protocol.ConsistencyMode :=
  match mode with
  | Model.Immutable => Protocol.Consistency_Immutable
  | Model.Live => Protocol.Consistency_Live
  | Model.Snapshot captured_at generation => Protocol.Consistency_Snapshot (captured_at / 1000000) generation
  | Model.OperationTimeRead => Protocol.Consistency_OperationTimeRead
  | Model.ConsistencyUnavailable => Protocol.Consistency_Unavailable
  end.

Definition wire_descriptor (descriptor : Model.ProviderDescriptor) : tres Protocol.ProviderDescriptor :=
  let consistency := wire_consistency (Model.consistency descriptor) in
  let status :=
    match consistency with
    | Protocol.Consistency_Unavailable => Protocol.Provider_Unavailable (bytes "snapshot has not been captured")
    | _ => Protocol.Provider_Ready
    end in
  kind ← wire_provider_kind (Model.kind descriptor);
  Ok {| Protocol.pd_kind := kind; Protocol.pd_consistency := consistency;
        Protocol.pd_source := bytes <$> Model.source descriptor;
        Protocol.pd_capabilities := Protocol.mkProviderCapabilities (Model.capabilities descriptor); Protocol.pd_status := status |}.

Definition provider_kind_name (kind : Model.ProviderKind) : string :=
  match kind with Model.TmpfsLive => "tmpfs" | Model.RuntimeMount => "runtime" | _ => "archive" end.

Definition helper_bind_fallback_allowed (error : VfsError) : bool :=
  match error with
  | PermissionDenied => true
  | Unavailable reason | Error.Io reason =>
      let reason := to_ascii_lowercase (bytes reason) in
      has reason "openat2" || has reason "not supported" || has reason "unsupported"
      || has reason "linux filesystem error 38" || has reason "linux filesystem error 95"
  | _ => false
  end.

(** ** Providers and the namespace plan *)
Section state.
Context {P : Type}.

Record ProviderRegistries := mkProviderRegistries {
  rg_images : gmap text P;
  rg_containers : gmap text (ContainerProviderRouter P);
  rg_rootfs : gmap text P;
  rg_archives : list P;
  rg_local_binds : list P;
  rg_helper_binds : list P;
  rg_volume_names : gset text;
}.
Definition ProviderRegistries_default : ProviderRegistries := mkProviderRegistries ∅ ∅ ∅ [] [] [] ∅.

Record NamespaceMount := mkNamespaceMount { nm_path : VirtualPath; nm_key : string; nm_provider : P }.
Record NamespaceAlias := mkNamespaceAlias { na_path : VirtualPath; na_target : VirtualPathBytes }.
Record NamespacePlan := mkNamespacePlan {
  np_mounts : list NamespaceMount;
  np_aliases : list NamespaceAlias;
  np_registries : ProviderRegistries;
}.
Definition NamespacePlan_default : NamespacePlan := mkNamespacePlan [] [] ProviderRegistries_default.

Definition push_mount (m : NamespaceMount) (plan : NamespacePlan) : NamespacePlan :=
  mkNamespacePlan (np_mounts plan ++ [m]) (np_aliases plan) (np_registries plan).
Definition push_alias (a : NamespaceAlias) (plan : NamespacePlan) : NamespacePlan :=
  mkNamespacePlan (np_mounts plan) (np_aliases plan ++ [a]) (np_registries plan).
Definition on_registries (f : ProviderRegistries → ProviderRegistries) (plan : NamespacePlan) : NamespacePlan :=
  mkNamespacePlan (np_mounts plan) (np_aliases plan) (f (np_registries plan)).

Definition insert_image (id : text) (p : P) (r : ProviderRegistries) : ProviderRegistries :=
  mkProviderRegistries (<[id := p]> (rg_images r)) (rg_containers r) (rg_rootfs r) (rg_archives r)
    (rg_local_binds r) (rg_helper_binds r) (rg_volume_names r).
Definition insert_container (id : text) (rootfs : P) (router : ContainerProviderRouter P) (r : ProviderRegistries)
  : ProviderRegistries :=
  mkProviderRegistries (rg_images r) (<[id := router]> (rg_containers r)) (<[id := rootfs]> (rg_rootfs r))
    (rg_archives r) (rg_local_binds r) (rg_helper_binds r) (rg_volume_names r).
Definition push_archive (p : P) (r : ProviderRegistries) : ProviderRegistries :=
  mkProviderRegistries (rg_images r) (rg_containers r) (rg_rootfs r) (rg_archives r ++ [p])
    (rg_local_binds r) (rg_helper_binds r) (rg_volume_names r).
Definition push_local_bind (p : P) (r : ProviderRegistries) : ProviderRegistries :=
  mkProviderRegistries (rg_images r) (rg_containers r) (rg_rootfs r) (rg_archives r)
    (rg_local_binds r ++ [p]) (rg_helper_binds r) (rg_volume_names r).
Definition push_helper_bind (p : P) (r : ProviderRegistries) : ProviderRegistries :=
  mkProviderRegistries (rg_images r) (rg_containers r) (rg_rootfs r) (rg_archives r)
    (rg_local_binds r) (rg_helper_binds r ++ [p]) (rg_volume_names r).
Definition insert_volume_name (name : text) (r : ProviderRegistries) : ProviderRegistries :=
  mkProviderRegistries (rg_images r) (rg_containers r) (rg_rootfs r) (rg_archives r)
    (rg_local_binds r) (rg_helper_binds r) ({[name]} ∪ rg_volume_names r).

(** [descriptor_for_route]: a path of a container is described by the provider
    that its router selects. *)
Definition container_of_key (key : string) : option text := Text.strip_prefix (bytes "container:") (bytes key).
Definition provider_for_route (registries : ProviderRegistries) (namespace_key : string) (relative_path : VirtualPath)
  (namespace_provider : P) : tres P :=
  match container_of_key namespace_key with
  | Some container_id =>
      router ← ok_or (bytes "container provider registry is out of sync") (rg_containers registries !! container_id);
      r ← displayed (route (cr_router router) relative_path);
      Ok (route_provider r)
  | None => Ok namespace_provider
  end.

Record DaemonState := mkDaemonState {
  st_lifecycle : Protocol.DaemonLifecycle;
  st_daemon_id : option text;
  st_daemon_instance : text;
  st_mount_point : list byte;
  st_session : bool;
  st_status_mount : Protocol.MountStatus;
  st_notifier : bool;
  st_namespace : NamespaceProvider P;
  st_providers : ProviderRegistries;
  st_snapshot_generation : Z;
  st_events : list DaemonEvent;
  st_shutdown : bool;
}.
End state.
Arguments ProviderRegistries : clear implicits.
Arguments NamespaceMount : clear implicits.
Arguments NamespacePlan : clear implicits.
Arguments DaemonState : clear implicits.

(** The constructors of providers ([Arc::new] of a value, and those that do I/O),
    the volume pool and the snapshots. *)
Class DaemonProviders (W P : Type) := {
  image_docker : text → W → vres P * W;
  local_bind_new : text → W → vres P * W;
  arc_archive : ContainerArchiveProvider → W → P * W;
  arc_rootfs : ContainerRootfsSnapshotProvider P → W → P * W;
  arc_router : ContainerProviderRouter P → W → P * W;
  arc_helper_bind : HelperBindProvider → W → P * W;
  helper_bind_shutdown : P → W → vres () * W;
  volume_provider : text → W → P * W;
  volume_remove : text → W → vres () * W;
  volume_pool_shutdown : W → vres () * W;
  rootfs_captured : P → W → bool * W;
  rootfs_capture : P → W → vres Z * W;
}.

(** The host: the identity of the process, the client's connection, FUSE and
    the files removed at the end. *)
Class DaemonHost (W P : Type) := {
  euid : Z;
  egid : Z;
  process_id : Z;
  daemon_version : text;
  client_is_local : bool;
  client_socket_path : option text;
  endpoint_fingerprint : text;
  debug_resource : Protocol.DockerResourceRef → text;
  spawn_mount : W → result text () * W;
  umount_and_join : W → result text () * W;
  adapter_outcome : Outcome (NamespaceProvider P * W);
  uptime_seconds : W → Z;
  remove_spool_dir : W → W;
  remove_socket_file : W → W;
}.

Definition OPERATION_TIMEOUT : Z := 30000.
Definition SNAPSHOT_TIMEOUT : Z := 60000.
Definition HANDLE_IDLE_TIMEOUT : Z := 120000.
Definition MAX_PROVIDER_OPERATIONS : Z := 16.
Definition MAX_OPEN_HANDLES : Z := 4096.
Definition RUNTIME_MOUNTS : list string := ["/etc/hosts"; "/etc/hostname"; "/etc/resolv.conf"].

Section plan.
Context {W P : Type} {FF : FuserFlags} {RP : ReadOnlyFilesystemProvider W P} {SR : SnapshotRootfs W P}
  {DS : DockerServices W} {DP : DaemonProviders W P} {DHo : DaemonHost W P} {HI : HashIter}.

(** A plan under construction, the counter of snapshots and the world. *)
Record building := mkBuilding { bd_plan : NamespacePlan P; bd_generation : Z; bd_world : W }.
Abbreviation bprog := (tprog building).

Definition in_world {E A} (show : E → text) (m : W → result E A * W) : bprog A := fun b =>
  let '(r, w) := m (bd_world b) in (map_error show r, mkBuilding (bd_plan b) (bd_generation b) w).
Definition in_vfs {A} (m : W → vres A * W) : bprog A := in_world VfsError_to_string m.
Definition arc {A} (m : W → A * W) : bprog A := fun b =>
  let '(a, w) := m (bd_world b) in (Ok a, mkBuilding (bd_plan b) (bd_generation b) w).
Definition on_plan (f : NamespacePlan P → NamespacePlan P) : bprog () :=
  tupdate (fun b => mkBuilding (f (bd_plan b)) (bd_generation b) (bd_world b)).
Definition register (f : ProviderRegistries P → ProviderRegistries P) : bprog () := on_plan (on_registries f).
Definition next_generation : bprog Z := fun b =>
  (Ok (bd_generation b), mkBuilding (bd_plan b) (wrapping_add 64 (bd_generation b) 1) (bd_world b)).

Definition text_key (s : text) : string := String.string_of_list_byte s.

Definition add_volume (volume_name : text) : bprog () :=
  provider ← arc (volume_provider volume_name);
  path ← tlift (displayed (encoded_path "/volumes" volume_name));
  on_plan (push_mount (mkNamespaceMount path (text_key (bytes "volume:" ++ volume_name)) provider));;
  register (insert_volume_name volume_name).

Fixpoint image_aliases (path : VirtualPath) (repo_tags : list text) : bprog () :=
  match repo_tags with
  | [] => mret tt
  | tag :: repo_tags =>
      if bool_decide (tag = bytes "<none>:<none>") then image_aliases path repo_tags
      else
        alias ← tlift (displayed (encoded_path "/images" tag));
        target ← tlift (displayed (VirtualPathBytes_new (VirtualPath_as_bytes path)));
        on_plan (push_alias (mkNamespaceAlias alias target));;
        image_aliases path repo_tags
  end.

Definition add_image (image : ImageSummary) : bprog () :=
  let image_id := is_id image in
  provider ← in_vfs (image_docker image_id);
  path ← tlift (displayed (image_namespace_path image_id));
  on_plan (push_mount (mkNamespaceMount path (text_key (bytes "image:" ++ image_id)) provider));;
  image_aliases path (is_repo_tags image);;
  register (insert_image image_id provider).

Definition archive_mount (container_id : text) (destination : VirtualPath) (kind : Model.ProviderKind)
  : bprog (ResolvedContainerMount P) :=
  let label := from_utf8_lossy (VirtualPath_as_bytes destination) in
  archive ← tlift (displayed (with_kind container_id TarLimits_default OPERATION_TIMEOUT kind (Some (text_key label))));
  provider ← arc (arc_archive archive);
  let key := bytes (provider_kind_name kind) ++ bytes ":" ++ container_id ++ bytes ":" ++ label in
  register (push_archive provider);;
  mret (mkResolvedContainerMount destination (text_key key) destination provider).

(** [checked_local_bind]: the root is listed once. *)
Definition checked_local_bind (source : text) (w : W) : vres P * W :=
  match local_bind_new source w with
  | (Ok provider, w) =>
      match p_read_dir provider VirtualPath_root (mkRequestContext euid egid process_id 0) w with
      | (Ok _, w) => (Ok provider, w)
      | (Err e, w) => (Err e, w)
      | (Panic p, w) => (Panic p, w)
      end
  | (Err e, w) => (Err e, w)
  | (Panic p, w) => (Panic p, w)
  end.

Definition bind_mount (daemon_instance source : text) (destination : VirtualPath) : bprog (ResolvedContainerMount P) :=
  local ← arc (checked_local_bind source);
  match local with
  | Ok provider =>
      register (push_local_bind provider);;
      mret (mkResolvedContainerMount destination (text_key (bytes "bind:" ++ source)) VirtualPath_root provider)
  | Err error =>
      if helper_bind_fallback_allowed error then
        helper ← tlift (displayed (HelperBindProvider_new client_is_local client_socket_path daemon_instance source));
        provider ← arc (arc_helper_bind helper);
        register (push_helper_bind provider);;
        mret (mkResolvedContainerMount destination (text_key (bytes "helper-bind:" ++ source)) VirtualPath_root provider)
      else tlift (Err (VfsError_to_string error))
  | Panic p => tlift (Panic p)
  end.

Definition container_mount (daemon_instance container_id : text) (mount : ContainerMountSummary)
  : bprog (ResolvedContainerMount P) :=
  destination ← tlift (displayed (VirtualPath_from_absolute (cms_destination mount)));
  if VirtualPath_is_root destination then tlift (Err (bytes "container root mount is unsupported"))
  else
    match cms_typed_mount_type mount with
    | MountType_Volume =>
        volume_name ← tlift (ok_or (bytes "named volume mount has no volume name")
                               (match cms_name mount with Some name => Some name | None => cms_source mount end));
        provider ← arc (volume_provider volume_name);
        register (insert_volume_name volume_name);;
        mret (mkResolvedContainerMount destination (text_key (bytes "volume:" ++ volume_name)) VirtualPath_root provider)
    | MountType_Bind =>
        source ← tlift (ok_or (bytes "bind mount has no source") (cms_source mount));
        bind_mount daemon_instance source destination
    | MountType_Tmpfs => archive_mount container_id destination Model.TmpfsLive
    | _ => archive_mount container_id destination Model.RuntimeMount
    end.

(** The first loop of [container_mounts]. *)
Fixpoint attach_mounts (daemon_instance container_id : text) (listed : list ContainerMountSummary)
  (mounts : list (ResolvedContainerMount P)) (destinations : gset VirtualPath)
  : bprog (list (ResolvedContainerMount P) * gset VirtualPath) :=
  match listed with
  | [] => mret (mounts, destinations)
  | mount :: listed =>
      let destinations :=
        match VirtualPath_from_absolute (cms_destination mount) with
        | Ok destination => if VirtualPath_is_root destination then destinations else {[destination]} ∪ destinations
        | _ => destinations
        end in
      fun b =>
      match container_mount daemon_instance container_id mount b with
      | (Ok resolved, b) => attach_mounts daemon_instance container_id listed (mounts ++ [resolved]) destinations b
      | (Err _, b) => attach_mounts daemon_instance container_id listed mounts destinations b
      | (Panic p, b) => (Panic p, b)
      end
  end.

(** Its second loop: the files the runtime mounts in every container. *)
Fixpoint attach_runtime (container_id : text) (runtime : list string) (mounts : list (ResolvedContainerMount P))
  (destinations : gset VirtualPath) : bprog (list (ResolvedContainerMount P) * gset VirtualPath) :=
  match runtime with
  | [] => mret (mounts, destinations)
  | destination :: runtime =>
      match VirtualPath_from_absolute (bytes destination) with
      | Ok destination =>
          if bool_decide (destination ∈ destinations) then attach_runtime container_id runtime mounts destinations
          else fun b =>
            match archive_mount container_id destination Model.RuntimeMount b with
            | (Ok mount, b) => attach_runtime container_id runtime (mounts ++ [mount]) ({[destination]} ∪ destinations) b
            | (Err _, b) => attach_runtime container_id runtime mounts destinations b
            | (Panic p, b) => (Panic p, b)
            end
      | Err _ => attach_runtime container_id runtime mounts destinations
      | Panic p => tlift (Panic p)
      end
  end.

Definition container_mounts (daemon_instance : text) (detail : ContainerDetail)
  : bprog (list (ResolvedContainerMount P) * list SnapshotMount) :=
  let container_id := cs_id (cd_summary detail) in
  '(mounts, destinations) ← attach_mounts daemon_instance container_id (cd_mounts detail) [] ∅;
  '(mounts, destinations) ← attach_runtime container_id RUNTIME_MOUNTS mounts destinations;
  mret (mounts, omap (fun d => match SnapshotMount_new d with Ok m => Some m | _ => None end)
                  (iter (gset_to_gmap tt destinations)).*1).

(** [trim_start_matches('/')] *)
Fixpoint trim_slashes (name : text) : text :=
  match name with b :: rest => if bool_decide (b = "/"%byte) then trim_slashes rest else name | [] => [] end.

Definition friendly_alias (path : VirtualPath) (name : text) : bprog () :=
  let friendly_name := trim_slashes name in
  if is_empty friendly_name then mret tt
  else
    alias ← tlift (displayed (encoded_path "/containers" friendly_name));
    target ← tlift (displayed (VirtualPathBytes_new (VirtualPath_as_bytes path)));
    on_plan (push_alias (mkNamespaceAlias alias target)).

Definition add_container (daemon_instance : text) (summary : ContainerSummary) : bprog () :=
  let container_id := cs_id summary in
  detail ← in_world (fun _ => bytes "inspect container " ++ container_id) (svc_inspect_container container_id);
  generation ← next_generation;
  archive ← tlift (displayed (archive_provider_new container_id TarLimits_default OPERATION_TIMEOUT));
  root_archive ← arc (arc_archive archive);
  '(mounts, snapshot_mounts) ← container_mounts daemon_instance detail;
  snapshot ← tlift (displayed (snapshot_new container_id generation root_archive TarLimits_default snapshot_mounts
                                 SNAPSHOT_TIMEOUT));
  rootfs ← arc (arc_rootfs snapshot);
  router ← in_vfs (container_router_new container_id rootfs mounts);
  provider ← arc (arc_router router);
  path ← tlift (displayed (container_namespace_path container_id));
  on_plan (push_mount (mkNamespaceMount path (text_key (bytes "container:" ++ container_id)) provider));;
  friendly_alias path (cs_name (cd_summary detail));;
  register (push_archive root_archive);;
  register (insert_container container_id rootfs router).

(** What is listed, or nothing when the listing failed. *)
Definition enumerated {A} (m : W → result DockerError (list A) * W) : bprog (list A) := fun b =>
  match m (bd_world b) with
  | (Ok l, w) => (Ok l, mkBuilding (bd_plan b) (bd_generation b) w)
  | (Err _, w) => (Ok [], mkBuilding (bd_plan b) (bd_generation b) w)
  | (Panic p, w) => (Panic p, mkBuilding (bd_plan b) (bd_generation b) w)
  end.

Definition list_all_options : ListContainersOptions :=
  {| lco_all := true; lco_limit := None; lco_search := None; lco_state := None |}.

Definition build_namespace_plan (daemon_instance : text) : bprog () :=
  containers ← enumerated (svc_list_containers list_all_options);
  images ← enumerated (svc_list_images {| lio_search := None |});
  volumes ← enumerated (svc_list_volumes {| lvo_search := None |});
  each_logged (fun volume => add_volume (vs_name volume)) volumes;;
  each_logged add_image images;;
  each_logged (add_container daemon_instance) containers.
End plan.
Arguments building : clear implicits.

(** ** The daemon *)
Section setters.
Context {P : Type}.
Implicit Types (self : DaemonState P).

Definition set_lifecycle (x : Protocol.DaemonLifecycle) self : DaemonState P :=
  mkDaemonState x (st_daemon_id self) (st_daemon_instance self) (st_mount_point self) (st_session self)
    (st_status_mount self) (st_notifier self) (st_namespace self) (st_providers self) (st_snapshot_generation self)
    (st_events self) (st_shutdown self).
Definition set_mounted (session notifier : bool) self : DaemonState P :=
  mkDaemonState (st_lifecycle self) (st_daemon_id self) (st_daemon_instance self) (st_mount_point self) session
    (st_status_mount self) notifier (st_namespace self) (st_providers self) (st_snapshot_generation self)
    (st_events self) (st_shutdown self).
Definition set_status_mount (x : Protocol.MountStatus) self : DaemonState P :=
  mkDaemonState (st_lifecycle self) (st_daemon_id self) (st_daemon_instance self) (st_mount_point self) (st_session self)
    x (st_notifier self) (st_namespace self) (st_providers self) (st_snapshot_generation self)
    (st_events self) (st_shutdown self).
Definition set_namespace (x : NamespaceProvider P) self : DaemonState P :=
  mkDaemonState (st_lifecycle self) (st_daemon_id self) (st_daemon_instance self) (st_mount_point self) (st_session self)
    (st_status_mount self) (st_notifier self) x (st_providers self) (st_snapshot_generation self)
    (st_events self) (st_shutdown self).
Definition set_registries (x : ProviderRegistries P) self : DaemonState P :=
  mkDaemonState (st_lifecycle self) (st_daemon_id self) (st_daemon_instance self) (st_mount_point self) (st_session self)
    (st_status_mount self) (st_notifier self) (st_namespace self) x (st_snapshot_generation self)
    (st_events self) (st_shutdown self).
Definition set_generation (x : Z) self : DaemonState P :=
  mkDaemonState (st_lifecycle self) (st_daemon_id self) (st_daemon_instance self) (st_mount_point self) (st_session self)
    (st_status_mount self) (st_notifier self) (st_namespace self) (st_providers self) x
    (st_events self) (st_shutdown self).
(** [let _ = self.events.send(event)] *)
Definition send_event (event : DaemonEvent) self : DaemonState P :=
  mkDaemonState (st_lifecycle self) (st_daemon_id self) (st_daemon_instance self) (st_mount_point self) (st_session self)
    (st_status_mount self) (st_notifier self) (st_namespace self) (st_providers self) (st_snapshot_generation self)
    (st_events self ++ [event]) (st_shutdown self).
Definition cancel_shutdown self : DaemonState P :=
  mkDaemonState (st_lifecycle self) (st_daemon_id self) (st_daemon_instance self) (st_mount_point self) (st_session self)
    (st_status_mount self) (st_notifier self) (st_namespace self) (st_providers self) (st_snapshot_generation self)
    (st_events self) true.

(** The state that [start] builds before it mounts. *)
Definition DaemonState_new (endpoint_identity daemon_instance : text) (mount_point : list byte) : DaemonState P :=
  mkDaemonState Protocol.Daemon_Starting (Some endpoint_identity) daemon_instance mount_point false
    {| Protocol.ms_state := Protocol.Mount_Unmounted; Protocol.ms_mount_point := None; Protocol.ms_read_only := true |}
    false NamespaceProvider_new ProviderRegistries_default 1 [] false.

(** The mounts and aliases of a plan, attached one by one. *)
Fixpoint attach_plan_mounts (ms : list (NamespaceMount P)) (ns : NamespaceProvider P) : tres () * NamespaceProvider P :=
  match ms with
  | [] => (Ok tt, ns)
  | m :: ms =>
      match ns_mount ns (nm_path m) (nm_key m) (nm_provider m) with
      | (Ok _, ns) => attach_plan_mounts ms ns
      | (Err e, ns) => (Err (VfsError_to_string e), ns)
      | (Panic p, ns) => (Panic p, ns)
      end
  end.
Fixpoint attach_plan_aliases (als : list NamespaceAlias) (ns : NamespaceProvider P) : tres () * NamespaceProvider P :=
  match als with
  | [] => (Ok tt, ns)
  | a :: als =>
      match ns_alias ns (na_path a) (na_target a) with
      | (Ok _, ns) => attach_plan_aliases als ns
      | (Err e, ns) => (Err (VfsError_to_string e), ns)
      | (Panic p, ns) => (Panic p, ns)
      end
  end.
Definition attach_plan (plan : NamespacePlan P) (ns : NamespaceProvider P) : tres () * NamespaceProvider P :=
  match attach_plan_mounts (np_mounts plan) ns with
  | (Ok _, ns) => attach_plan_aliases (np_aliases plan) ns
  | r => r
  end.
End setters.

Section daemon.
Context {W P Sl : Type} {FF : FuserFlags} {RP : ReadOnlyFilesystemProvider W P} {SR : SnapshotRootfs W P}
  {DS : DockerServices W} {DP : DaemonProviders W P} {DHo : DaemonHost W P} {HI : HashIter} {DO : DrainOrder}
  {DX : DockerExec W} {SL : Slab (OpenHandle ()) Sl}.

Abbreviation dworld := (DaemonState P * W)%type.
Abbreviation dprog := (tprog dworld).

Definition on_self (f : DaemonState P → DaemonState P) : dprog () := tupdate (fun s => (f s.1, s.2)).
Definition self_get {A} (f : DaemonState P → A) : dprog A := tgets (fun s => f s.1).
Definition outside {A} (m : tprog W A) : dprog A := fun s => let '(r, w) := m s.2 in (r, (s.1, w)).
Definition vfs_call {A} (m : W → vres A * W) : tprog W A := fun w => let '(r, w) := m w in (displayed r, w).

Definition shutdown_helper_binds (providers : list P) : tprog W () :=
  each_logged (fun provider => vfs_call (helper_bind_shutdown provider)) providers.

(** The elements of a [HashSet<String>] in the order of its iteration. *)
Definition set_iter (names : gset text) : list text := (drain (gset_to_gmap tt names)).*1.

Definition rebuild_namespace : dprog () := fun s =>
  let '(self, w) := s in
  match build_namespace_plan (st_daemon_instance self) (mkBuilding NamespacePlan_default (st_snapshot_generation self) w) with
  | (Ok _, b) =>
      let self := set_generation (bd_generation b) self in
      let plan := bd_plan b in
      let '(_, cleared) := ns_clear (st_namespace self) in
      match attach_plan plan cleared with
      | (Ok _, ns) =>
          let old := st_providers self in
          let removed := rg_volume_names old ∖ rg_volume_names (np_registries plan) in
          outside (shutdown_helper_binds (rg_helper_binds old);;
                   each_logged (fun volume_name => vfs_call (volume_remove volume_name)) (set_iter removed))
            (set_registries (np_registries plan) (set_namespace ns self), bd_world b)
      | (Err e, ns) => (Err e, (set_namespace ns self, bd_world b))
      | (Panic p, ns) => (Panic p, (set_namespace ns self, bd_world b))
      end
  | (Err e, b) => (Err e, (set_generation (bd_generation b) self, bd_world b))
  | (Panic p, b) => (Panic p, (set_generation (bd_generation b) self, bd_world b))
  end.

Definition mount_status_of (state : Protocol.MountState) (mount_point : option (list byte)) : Protocol.MountStatus :=
  {| Protocol.ms_state := state; Protocol.ms_mount_point := mount_point; Protocol.ms_read_only := true |}.

(** [ReadOnlyFuseAdapter::new] over the namespace: it asks for the attributes of
    the root, which leaves the namespace as it is. *)
Definition new_adapter : dprog () := fun s =>
  let '(r, (_, w)) :=
    adapter_new (S := Sl) tt (Model.Volume "namespace") (text_key endpoint_fingerprint) "docker-namespace" euid egid
      OPERATION_TIMEOUT MAX_PROVIDER_OPERATIONS MAX_OPEN_HANDLES HANDLE_IDLE_TIMEOUT adapter_outcome
      (st_namespace s.1, s.2) in
  (match r with Ok _ => Ok tt | Err e => Err (VfsError_to_string e) | Panic p => Panic p end, (s.1, w)).

Definition daemon_mount : dprog Protocol.MountStatus :=
  mounted ← self_get st_session;
  if (mounted : bool) then self_get st_status_mount
  else
    mount_point ← self_get st_mount_point;
    on_self (set_status_mount (mount_status_of Protocol.Mount_Mounting (Some mount_point)));;
    rebuild_namespace;;
    new_adapter;;
    outside (fun w => let '(r, w) := spawn_mount w in (context (bytes "mount " ++ mount_point) r, w));;
    on_self (set_mounted true true);;
    let status := mount_status_of Protocol.Mount_Mounted (Some mount_point) in
    on_self (set_status_mount status);;
    on_self (send_event (Daemon_Mount status));;
    mret status.

Definition daemon_unmount : dprog Protocol.MountStatus :=
  mount_point ← self_get st_mount_point;
  on_self (set_status_mount (mount_status_of Protocol.Mount_Unmounting (Some mount_point)));;
  session ← self_get st_session;
  on_self (set_mounted false false);;
  (if (session : bool) then outside umount_and_join else mret tt);;
  let status := mount_status_of Protocol.Mount_Unmounted None in
  on_self (set_status_mount status);;
  on_self (send_event (Daemon_Mount status));;
  mret status.

Definition daemon_remount : dprog Protocol.MountStatus := daemon_unmount;; daemon_mount.

Definition daemon_status (self : DaemonState P) (w : W) : Protocol.DaemonStatus :=
  {| Protocol.ds_daemon_version := daemon_version; Protocol.ds_lifecycle := st_lifecycle self;
     Protocol.ds_docker := Protocol.Docker_Connected (st_daemon_id self); Protocol.ds_mount := st_status_mount self;
     Protocol.ds_uptime_seconds := uptime_seconds w |}.

Definition ensure_container_snapshot (resource : Protocol.DockerResourceRef) : dprog () :=
  match resource with
  | Protocol.Ref_Container container_id =>
      rootfs ← self_get (fun self => rg_rootfs (st_providers self) !! container_id);
      match rootfs with
      | None => tlift (Err (bytes "container rootfs provider is not attached: " ++ container_id))
      | Some rootfs =>
          captured ← outside (fun w => let '(r, w) := rootfs_captured rootfs w in (Ok r, w));
          if (captured : bool) then mret tt
          else
            outside (fun w =>
              let '(r, w) := rootfs_capture rootfs w in
              (context (bytes "capture container filesystem snapshot " ++ container_id) r, w));;
            mret tt
      end
  | _ => mret tt
  end.

(** The descriptor of the provider behind a resolved path. *)
Definition route_descriptor (resolved_at : ResolvedNamespaceProvider P) : dprog Protocol.ProviderDescriptor :=
  registries ← self_get st_providers;
  provider ← tlift (provider_for_route registries (resolved_key resolved_at) (relative_path resolved_at)
                      (resolved resolved_at));
  descriptor ← outside (fun w => (Ok (p_descriptor provider w), w));
  tlift (wire_descriptor descriptor).

Definition resource_path (resource : Protocol.DockerResourceRef) : dprog Protocol.ResourceFusePath :=
  ensure_container_snapshot resource;;
  namespace_path ← tlift (displayed (resource_namespace_path resource));
  namespace ← self_get st_namespace;
  found ← tlift (displayed (provider_at namespace namespace_path));
  resolved_at ← tlift (ok_or (bytes "resource is not attached to the VFS namespace: " ++ debug_resource resource) found);
  if negb (VirtualPath_is_root (relative_path resolved_at))
  then tlift (Err (bytes "resource namespace root resolved below a provider root"))
  else
    descriptor ← route_descriptor resolved_at;
    mount_point ← self_get st_mount_point;
    mret {| Protocol.rfp_resource := resource; Protocol.rfp_path := host_namespace_path mount_point namespace_path;
            Protocol.rfp_descriptor := descriptor |}.

(** The path of a resource extended by the components of a request. *)
Fixpoint join_components (path : VirtualPath) (names : list text) : vres VirtualPath :=
  match names with
  | [] => Ok path
  | name :: names =>
      name ← VirtualFileName_new name;
      path ← VirtualPath_join path name;
      join_components path names
  end.

Definition provider_descriptor (path : Protocol.ResourcePath) : dprog Protocol.ProviderDescriptor :=
  ensure_container_snapshot (Protocol.rp_resource path);;
  namespace_path ← tlift (displayed (resource_namespace_path (Protocol.rp_resource path)));
  namespace_path ← tlift (displayed (join_components namespace_path (Protocol.rp_components path)));
  namespace ← self_get st_namespace;
  found ← tlift (displayed (provider_at namespace namespace_path));
  resolved_at ← tlift (ok_or (bytes "resource path is not attached to the VFS namespace") found);
  route_descriptor resolved_at.

Definition publish_change (notification : ChangeNotification) (self : DaemonState P) : DaemonState P :=
  foldl (fun self kind =>
    match kind with
    | Containers => send_event (Daemon_Resource Protocol.Kind_Container None Protocol.Change_Invalidated) self
    | Images => send_event (Daemon_Resource Protocol.Kind_Image None Protocol.Change_Invalidated) self
    | Volumes => send_event (Daemon_Resource Protocol.Kind_Volume None Protocol.Change_Invalidated) self
    | Networks | Events.Daemon => self
    end) self (kinds notification).

Definition needs_rebuild (notification : ChangeNotification) : bool :=
  existsb (fun kind => match kind with Containers | Images | Volumes => true | _ => false end) (kinds notification).

Definition handle_change (notification : ChangeNotification) : dprog () :=
  (if needs_rebuild notification then logged rebuild_namespace else mret tt);;
  on_self (publish_change notification).

Definition PURPOSE_FILTER : text := bytes "filesystem-helper".

Definition daemon_stop : dprog () :=
  on_self (set_lifecycle Protocol.Daemon_Stopping);;
  tupdate (fun s => (send_event (Daemon_Status (daemon_status s.1 s.2)) s.1, s.2));;
  on_self cancel_shutdown;;
  logged daemon_unmount;;
  old ← self_get st_providers;
  on_self (fun self => set_registries ProviderRegistries_default (set_namespace (ns_clear (st_namespace self)).2 self));;
  outside (shutdown_helper_binds (rg_helper_binds old);;
           logged (vfs_call volume_pool_shutdown);;
           logged (fun w => let '(r, w) := cleanup_orphan_sessions PURPOSE_FILTER w in (context [] r, w)));;
  instance ← self_get st_daemon_instance;
  outside (logged (vfs_call (cleanup_orphan_bind_helpers instance));;
           tupdate (fun w => remove_socket_file (remove_spool_dir w))).

(** The end of [start]: the first mount. *)
Definition daemon_start : dprog () :=
  daemon_mount;;
  on_self (set_lifecycle Protocol.Daemon_Ready);;
  tupdate (fun s => (send_event (Daemon_Status (daemon_status s.1 s.2)) s.1, s.2)).
End daemon.

(** ** Paths and keys *)
Definition parent_names (resource : Protocol.DockerResourceRef) : list VirtualFileName :=
  match resource with
  | Protocol.Ref_Container _ => [mkVirtualFileName (bytes "containers"); mkVirtualFileName (bytes ".by-id")]
  | Protocol.Ref_Image _ => [mkVirtualFileName (bytes "images"); mkVirtualFileName (bytes ".by-id")]
  | Protocol.Ref_Volume _ => [mkVirtualFileName (bytes "volumes")]
  end.
Definition resource_name (resource : Protocol.DockerResourceRef) : text :=
  match resource with
  | Protocol.Ref_Container name | Protocol.Ref_Image name | Protocol.Ref_Volume name => name
  end.
Definition resource_key (resource : Protocol.DockerResourceRef) : string :=
  match resource with
  | Protocol.Ref_Container id => text_key (bytes "container:" ++ id)
  | Protocol.Ref_Image id => text_key (bytes "image:" ++ id)
  | Protocol.Ref_Volume name => text_key (bytes "volume:" ++ name)
  end.

Lemma bytes_text_key s : bytes (text_key s) = s.
Proof. apply String.list_byte_of_string_of_list_byte. Qed.

Lemma encoded_path_ok parent pp value path :
  VirtualPath_from_absolute (bytes parent) = Ok pp → encoded_path parent value = Ok path →
  ∃ enc, FuseNameCodec_encode value = Ok enc ∧ path_wf path ∧
         components path = components pp ++ [mkVirtualFileName enc].
Proof.
  intros Hp. unfold encoded_path. rewrite Hp. cbn [mbind result_bind].
  destruct (FuseNameCodec_encode value) as [enc|e|s] eqn:Ee; cbn [mbind result_bind]; [| done | done].
  destruct (VirtualFileName_new enc) as [n|e|s] eqn:En; cbn [mbind result_bind]; [| done | done]. intros Hj.
  apply VirtualFileName_new_Ok in En as [-> Hn].
  destruct (VirtualPath_join_wf pp (mkVirtualFileName enc) path) as [H1 H2]; [by eapply from_absolute_wf | done | done |].
  by exists enc.
Qed.

Lemma resource_path_ok resource path :
  resource_namespace_path resource = Ok path →
  ∃ enc, FuseNameCodec_encode (resource_name resource) = Ok enc ∧ path_wf path ∧
         components path = parent_names resource ++ [mkVirtualFileName enc].
Proof.
  destruct resource as [id|id|name]; cbn [resource_namespace_path resource_name parent_names]; intros H;
    (eapply encoded_path_ok in H; [| vm_compute; reflexivity]); exact H.
Qed.

Lemma encode_inj a b enc : FuseNameCodec_encode a = Ok enc → FuseNameCodec_encode b = Ok enc → a = b.
Proof. intros Ha%decode_encode_raw Hb%decode_encode_raw. congruence. Qed.

(** No path of a resource is a prefix of another's. *)
Lemma resource_paths_prefix r r' path path' :
  resource_namespace_path r = Ok path → resource_namespace_path r' = Ok path' →
  VirtualPath_starts_with path path' = true → r = r'.
Proof.
  intros (enc & H1 & _ & H2)%resource_path_ok (enc' & H3 & _ & H4)%resource_path_ok [cs H5]%VirtualPath_starts_with_spec.
  rewrite H2, H4 in H5.
  destruct r as [a|a|a], r' as [b|b|b]; cbn in *; try discriminate H5; injection H5; intros;
    try (destruct cs; discriminate); subst; f_equal; by eapply encode_inj.
Qed.

(** ** What a plan attaches *)
Section plans.
Context {W P : Type} {FF : FuserFlags} {RP : ReadOnlyFilesystemProvider W P} {SR : SnapshotRootfs W P}
  {DS : DockerServices W} {DP : DaemonProviders W P} {DHo : DaemonHost W P} {HI : HashIter}.

Definition mount_ok (m : NamespaceMount P) : Prop :=
  ∃ r, resource_namespace_path r = Ok (nm_path m) ∧ nm_key m = resource_key r.
Definition alias_ok (a : NamespaceAlias) : Prop :=
  VirtualPath_is_root (na_path a) = false ∧ VirtualPathBytes_is_absolute (na_target a) = true.
(** A registered container is routed from the root filesystem it is registered with. *)
Definition router_ok (registries : ProviderRegistries P) : Prop :=
  ∀ id router, rg_containers registries !! id = Some router →
    rg_rootfs registries !! id = Some (rootfs (cr_router router)) ∧
    Forall (fun m => VirtualPath_is_root (destination m) = false) (Router.mounts (cr_router router)).
Record plan_ok (plan : NamespacePlan P) : Prop := {
  po_mounts : Forall mount_ok (np_mounts plan);
  po_aliases : Forall alias_ok (np_aliases plan);
  po_routers : router_ok (np_registries plan);
}.

(** A step of the construction keeps a plan well formed, and what it has attached. *)
Definition extends (plan plan' : NamespacePlan P) : Prop :=
  (plan_ok plan → plan_ok plan') ∧ np_mounts plan `prefix_of` np_mounts plan' ∧
  rg_volume_names (np_registries plan) ⊆ rg_volume_names (np_registries plan').
Definition builds {A} (m : tprog (building W P) A) : Prop := ∀ b, extends (bd_plan b) (bd_plan (m b).2).

Lemma extends_refl plan : extends plan plan.
Proof. by split_and!. Qed.
Lemma extends_trans p q r : extends p q → extends q r → extends p r.
Proof. intros (H1 & H2 & H3) (H4 & H5 & H6). split_and!; [auto | by etrans | by etrans]. Qed.

Lemma builds_bind_result {A B} (m : tprog (building W P) A) (f : A → tprog (building W P) B) :
  builds m → (∀ a b b', m b = (Ok a, b') → builds (f a)) → builds (m ≫= f).
Proof.
  intros Hm Hf b. unfold mbind, tprog_bind. specialize (Hm b). destruct (m b) as [[a|e|p] b'] eqn:E; [| exact Hm | exact Hm].
  eapply extends_trans; [exact Hm | by eapply Hf].
Qed.
Lemma builds_bind {A B} (m : tprog (building W P) A) (f : A → tprog (building W P) B) :
  builds m → (∀ a, builds (f a)) → builds (m ≫= f).
Proof. intros Hm Hf. apply builds_bind_result; [done |]. intros. apply Hf. Qed.
Lemma builds_same {A} (m : tprog (building W P) A) : (∀ b, bd_plan (m b).2 = bd_plan b) → builds m.
Proof. intros H b. rewrite H. apply extends_refl. Qed.
Lemma builds_ret {A} (a : A) : builds (mret a).
Proof. by apply builds_same. Qed.
Lemma builds_tlift {A} (r : tres A) : builds (tlift r).
Proof. by apply builds_same. Qed.
Lemma builds_arc {A} (m : W → A * W) : builds (arc m).
Proof. apply builds_same. intros b. unfold arc. by destruct (m (bd_world b)). Qed.
Lemma builds_in_world {E A} show (m : W → result E A * W) : builds (in_world show m).
Proof. apply builds_same. intros b. unfold in_world. by destruct (m (bd_world b)). Qed.
Lemma builds_on_plan f : (∀ plan, extends plan (f plan)) → builds (on_plan (W := W) f).
Proof. intros H b. apply H. Qed.
Lemma builds_logged {A} (m : tprog (building W P) A) : builds m → builds (logged m).
Proof. intros H b. unfold logged. specialize (H b). by destruct (m b) as [[a|e|p] b']. Qed.
Lemma builds_each {A} (f : A → tprog (building W P) ()) l : (∀ x, builds (f x)) → builds (each_logged f l).
Proof.
  intros Hf. induction l as [|x l IH]; [by apply builds_ret |].
  apply builds_bind; [by apply builds_logged | done].
Qed.

(** A change of the registries that leaves containers alone. *)
Lemma builds_register f :
  (∀ r, rg_containers (f r) = rg_containers r ∧ rg_rootfs (f r) = rg_rootfs r ∧ rg_volume_names r ⊆ rg_volume_names (f r)) →
  builds (register (W := W) f).
Proof.
  intros Hf. apply builds_on_plan. intros plan. destruct (Hf (np_registries plan)) as (H1 & H2 & H3).
  split_and!; [| done | done]. intros [M A R]. split; [done | done |]. intros id router. cbn. rewrite H1, H2. apply R.
Qed.

Lemma builds_in_vfs {A} (m : W → vres A * W) : builds (in_vfs m).
Proof. apply builds_in_world. Qed.
#[local] Hint Resolve builds_ret builds_tlift builds_arc builds_in_world builds_in_vfs : builds.

Lemma builds_push_alias alias target :
  VirtualPath_is_root alias = false → VirtualPathBytes_is_absolute target = true →
  builds (on_plan (W := W) (push_alias (mkNamespaceAlias alias target))).
Proof.
  intros Ha Ht. apply builds_on_plan. intros plan. split_and!; [| done | done]. intros [M A R]. split; [done | | done].
  apply Forall_app. split; [done |]. by constructor.
Qed.

Lemma builds_push_mount r path provider :
  resource_namespace_path r = Ok path → builds (on_plan (W := W) (push_mount (mkNamespaceMount path (resource_key r) provider))).
Proof.
  intros Hr. apply builds_on_plan. intros plan. split_and!; [| by eexists | done]. intros [M A R]. split; [| done | done].
  apply Forall_app. split; [done |]. constructor; [by exists r | done].
Qed.

Lemma encoded_not_root parent pp value path :
  VirtualPath_from_absolute (bytes parent) = Ok pp → encoded_path parent value = Ok path → VirtualPath_is_root path = false.
Proof.
  intros Hp H. destruct (encoded_path_ok _ _ _ _ Hp H) as (enc & _ & _ & Hc). unfold VirtualPath_is_root. rewrite Hc.
  by destruct (components pp).
Qed.

Lemma target_absolute path target :
  VirtualPathBytes_new (VirtualPath_as_bytes path) = Ok target → VirtualPathBytes_is_absolute target = true.
Proof.
  unfold VirtualPathBytes_new. destruct (contains _ _); [done |]. case_bool_decide; [done |]. intros [= <-].
  unfold VirtualPathBytes_is_absolute. cbn. unfold VirtualPath_as_bytes, VirtualPath_is_root.
  destruct (components path) as [|c cs]; [done |]. cbn [is_empty foldl app]. apply bool_decide_eq_true.
  assert (∀ cs acc, head acc = Some "/"%byte →
            head (foldl (fun result c => result ++ "/"%byte :: VirtualFileName_as_bytes c) acc cs) = Some "/"%byte) as Hf.
  { clear. induction cs as [|c cs IH]; intros acc Ha; [done |]. cbn. apply IH. by destruct acc. }
  by apply Hf.
Qed.

(** Failing computations that are only displayed. *)
Lemma builds_displayed {A B} (r : vres A) (f : A → tprog (building W P) B) :
  (∀ a, r = Ok a → builds (f a)) → builds (tlift (displayed r) ≫= f).
Proof.
  intros Hf. apply builds_bind_result; [apply builds_tlift |]. intros a b b' H. apply Hf.
  unfold tlift, displayed, map_error in H. destruct r; [by injection H as -> | discriminate H | discriminate H].
Qed.

Lemma add_volume_builds name : builds (add_volume name).
Proof.
  apply builds_bind; [auto with builds |]. intros provider. apply builds_displayed. intros path Hp.
  apply builds_bind; [by apply (builds_push_mount (Protocol.Ref_Volume name)) |]. intros _.
  apply builds_register. intros r. split_and!; [done | done | cbn; set_solver].
Qed.

Lemma image_aliases_builds path tags : builds (image_aliases path tags).
Proof.
  induction tags as [|tag tags IH]; cbn [image_aliases]; [auto with builds |]. case_bool_decide; [done |].
  apply builds_displayed. intros alias Ha. apply builds_displayed. intros target Ht.
  apply builds_bind; [| done]. apply builds_push_alias; [| by eapply target_absolute].
  eapply (encoded_not_root "/images"); [vm_compute; reflexivity | exact Ha].
Qed.

Lemma add_image_builds image : builds (add_image image).
Proof.
  apply builds_bind; [auto with builds |]. intros provider. apply builds_displayed. intros path Hp.
  apply builds_bind; [by apply (builds_push_mount (Protocol.Ref_Image (is_id image))) |]. intros _.
  apply builds_bind; [apply image_aliases_builds |]. intros _. by apply builds_register.
Qed.

Lemma archive_mount_builds id destination kind : builds (archive_mount id destination kind).
Proof.
  apply builds_displayed. intros archive _. apply builds_bind; [auto with builds |]. intros provider.
  apply builds_bind; [by apply builds_register | auto with builds].
Qed.

Lemma container_mount_builds instance id mount : builds (container_mount instance id mount).
Proof.
  apply builds_displayed. intros destination _. destruct (VirtualPath_is_root destination); [auto with builds |].
  destruct (cms_typed_mount_type mount); try apply archive_mount_builds.
  - apply builds_bind; [auto with builds |]. intros name. apply builds_bind; [auto with builds |]. intros provider.
    apply builds_bind; [| auto with builds]. apply builds_register. intros r. split_and!; [done | done | cbn; set_solver].
  - apply builds_bind; [auto with builds |]. intros source. unfold bind_mount.
    apply builds_bind; [auto with builds |]. intros [provider|error|p]; [| | auto with builds].
    + apply builds_bind; [by apply builds_register | auto with builds].
    + destruct (helper_bind_fallback_allowed error); [| auto with builds]. apply builds_displayed. intros helper _.
      apply builds_bind; [auto with builds |]. intros provider. apply builds_bind; [by apply builds_register | auto with builds].
Qed.

Lemma attach_mounts_builds instance id listed mounts destinations :
  builds (attach_mounts instance id listed mounts destinations).
Proof.
  revert mounts destinations. induction listed as [|mount listed IH]; intros mounts destinations; [apply builds_ret |].
  intros b. cbn [attach_mounts]. pose proof (container_mount_builds instance id mount b) as H.
  destruct (container_mount instance id mount b) as [[m|e|p] b']; [| | exact H]; (eapply extends_trans; [exact H | apply IH]).
Qed.

Lemma attach_runtime_builds id runtime mounts destinations : builds (attach_runtime id runtime mounts destinations).
Proof.
  revert mounts destinations. induction runtime as [|d runtime IH]; intros mounts destinations; [apply builds_ret |].
  cbn [attach_runtime]. destruct (VirtualPath_from_absolute (bytes d)) as [d'|e|p]; [| apply IH | apply builds_tlift].
  case_bool_decide as Hd; [apply IH |]. intros b. pose proof (archive_mount_builds id d' Model.RuntimeMount b) as H.
  destruct (archive_mount id d' Model.RuntimeMount b) as [[m|e|p] b']; [| | exact H]; (eapply extends_trans; [exact H | apply IH]).
Qed.

Lemma container_mounts_builds instance detail : builds (container_mounts instance detail).
Proof.
  apply builds_bind; [apply attach_mounts_builds |]. intros [mounts destinations].
  apply builds_bind; [apply attach_runtime_builds |]. intros [mounts' destinations']. auto with builds.
Qed.

Lemma router_new_ok id rootfs_ mounts w router w' :
  container_router_new (W := W) id rootfs_ mounts w = (Ok router, w') →
  rootfs (cr_router router) = rootfs_ ∧
  Forall (fun m => VirtualPath_is_root (destination m) = false) (Router.mounts (cr_router router)).
Proof.
  unfold container_router_new. destruct (validate_identity id) as [[]|e|p]; cbn [mbind result_bind]; [| done | done].
  unfold ContainerPathRouter_new. generalize (String.string_of_list_byte id), (rootfs_provider_key rootfs_ w).
  intros name key. destruct (existsb _ mounts) eqn:E; cbn [mbind result_bind]; [done |]. intros [= <- _]. cbn. split; [done |].
  apply list.Forall_forall. intros m Hm. rewrite (sort_by_perm mount_cmp) in Hm.
  destruct (VirtualPath_is_root (destination m)) eqn:Er; [| done].
  rewrite (proj2 (existsb_exists _ _)) in E; [done |]. exists m. split; [by apply list_elem_of_In | done].
Qed.

Lemma friendly_alias_builds path name : builds (friendly_alias path name).
Proof.
  unfold friendly_alias. destruct (is_empty _); [auto with builds |]. apply builds_displayed. intros alias Ha.
  apply builds_displayed. intros target Ht. apply builds_push_alias; [| by eapply target_absolute].
  eapply (encoded_not_root "/containers"); [vm_compute; reflexivity | exact Ha].
Qed.

Lemma builds_insert_container id router :
  Forall (fun m => VirtualPath_is_root (destination m) = false) (Router.mounts (cr_router router)) →
  builds (register (W := W) (insert_container id (rootfs (cr_router router)) router)).
Proof.
  intros Hr. apply builds_on_plan. intros plan. split_and!; [| done | done]. intros [M A R]. split; [done | done |].
  intros id' router'. cbn. rewrite lookup_insert_Some. intros [[<- <-]|[Hne H]].
  - by rewrite lookup_insert_eq.
  - rewrite lookup_insert_ne by done. by apply R.
Qed.

Lemma add_container_builds instance summary : builds (add_container instance summary).
Proof.
  apply builds_bind; [auto with builds |]. intros detail. apply builds_bind; [by apply builds_same |]. intros generation.
  apply builds_displayed. intros archive _. apply builds_bind; [auto with builds |]. intros root_archive.
  apply builds_bind; [apply container_mounts_builds |]. intros [mounts snapshot_mounts].
  apply builds_displayed. intros snapshot _. apply builds_bind; [auto with builds |]. intros rootfs_.
  apply builds_bind_result; [apply builds_in_world |]. intros router b b' Hrouter.
  assert (rootfs (cr_router router) = rootfs_ ∧
          Forall (fun m => VirtualPath_is_root (destination m) = false) (Router.mounts (cr_router router))) as [<- Hm].
  { unfold in_vfs, in_world in Hrouter. destruct (container_router_new _ _ _ _) as [r w'] eqn:E.
    destruct r as [x|e|p]; [| discriminate Hrouter | discriminate Hrouter]. injection Hrouter as -> _. by eapply router_new_ok. }
  apply builds_bind; [auto with builds |]. intros provider. apply builds_displayed. intros path Hp.
  apply builds_bind; [by apply (builds_push_mount (Protocol.Ref_Container (cs_id summary))) |]. intros _.
  apply builds_bind; [apply friendly_alias_builds |]. intros _. apply builds_bind; [by apply builds_register |]. intros _.
  by apply builds_insert_container.
Qed.

Lemma builds_enumerated {A} (m : W → result DockerError (list A) * W) : builds (enumerated m).
Proof. apply builds_same. intros b. unfold enumerated. by destruct (m (bd_world b)) as [[]]. Qed.

Lemma plan_builds instance : builds (build_namespace_plan instance).
Proof.
  do 3 (apply builds_bind; [apply builds_enumerated |]; intros ?).
  do 2 (apply builds_bind; [apply builds_each; intros; first [apply add_volume_builds | apply add_image_builds] |]; intros _).
  apply builds_each. intros. apply add_container_builds.
Qed.

Lemma plan_default_ok : plan_ok NamespacePlan_default.
Proof. split; [constructor | constructor |]. intros id router. cbn. by rewrite lookup_empty. Qed.

(** The construction itself never fails. *)
Lemma each_logged_no_err {S A} (f : A → tprog S ()) l s e : (each_logged f l s).1 ≠ Err e.
Proof.
  revert s. induction l as [|x l IH]; intros s; [done |]. cbn [each_logged]. unfold mbind, tprog_bind, logged.
  destruct (f x s) as [[a|e'|p] s']; cbn; [apply IH | apply IH | done].
Qed.
Lemma bind_no_err {S A B} (m : tprog S A) (f : A → tprog S B) s e :
  (∀ s e, (m s).1 ≠ Err e) → (∀ a s e, (f a s).1 ≠ Err e) → ((m ≫= f) s).1 ≠ Err e.
Proof.
  intros Hm Hf. unfold mbind, tprog_bind. specialize (Hm s). destruct (m s) as [[a|e'|p] s']; [apply Hf | | done].
  by destruct (Hm e').
Qed.
Lemma plan_no_err instance b e : (build_namespace_plan instance b).1 ≠ Err e.
Proof.
  assert (∀ A (m : W → result DockerError (list A) * W) b e, (enumerated (P := P) m b).1 ≠ Err e) as Hen.
  { intros A m b' e'. unfold enumerated. by destruct (m (bd_world b')) as [[]]. }
  unfold build_namespace_plan. apply bind_no_err; [apply Hen |]. intros containers b1 e1.
  apply bind_no_err; [apply Hen |]. intros images b2 e2. apply bind_no_err; [apply Hen |]. intros volumes b3 e3.
  apply bind_no_err; [intros; apply each_logged_no_err |]. intros _ b4 e4.
  apply bind_no_err; [intros; apply each_logged_no_err |]. intros _ b5 e5. apply each_logged_no_err.
Qed.
End plans.

(** ** The namespace of a daemon *)
Definition attached {P} (ms : list (NamespaceMount P)) (acc : gmap VirtualPath (MountedProvider P))
  : gmap VirtualPath (MountedProvider P) :=
  foldl (fun acc m => <[nm_path m := mkMountedProvider (nm_key m) (nm_provider m)]> acc) acc ms.

Lemma mount_ok_not_root {P} (m : NamespaceMount P) : mount_ok m → VirtualPath_is_root (nm_path m) = false.
Proof.
  intros (r & H & _). apply resource_path_ok in H as (enc & _ & _ & Hc). unfold VirtualPath_is_root. rewrite Hc.
  by destruct (parent_names r).
Qed.

Lemma attach_plan_ok {P} (plan : NamespacePlan P) ns :
  plan_ok plan →
  ∃ als, attach_plan plan ns = (Ok tt, mkNamespaceProvider (attached (np_mounts plan) (Namespace.mounts ns)) als
                                         (Namespace.handles ns) (Namespace.next_handle ns)).
Proof.
  intros [Hm Ha _]. unfold attach_plan.
  assert (attach_plan_mounts (np_mounts plan) ns
          = (Ok tt, mkNamespaceProvider (attached (np_mounts plan) (Namespace.mounts ns)) (aliases ns)
                      (Namespace.handles ns) (Namespace.next_handle ns))) as ->.
  { revert ns. induction (np_mounts plan) as [|m ms IH]; intros ns; [by destruct ns |].
    apply Forall_cons_iff in Hm as [Hm Hms]. cbn [attach_plan_mounts]. unfold ns_mount.
    rewrite (mount_ok_not_root m Hm). cbn. by rewrite IH. }
  generalize (attached (np_mounts plan) (Namespace.mounts ns)). intros mounts. generalize (aliases ns).
  induction (np_aliases plan) as [|a als IH]; intros als'; [by eexists |]. apply Forall_cons_iff in Ha as [[H1 H2] Ha].
  cbn [attach_plan_aliases]. unfold ns_alias. rewrite H1, H2. cbn. apply (IH Ha).
Qed.

(** Every mount sits at the path of a resource, under its key. *)
Definition ns_sync {P} (ms : gmap VirtualPath (MountedProvider P)) : Prop :=
  ∀ path x, ms !! path = Some x → ∃ r, resource_namespace_path r = Ok path ∧ key x = resource_key r.

Lemma attached_sync {P} (ms : list (NamespaceMount P)) acc : Forall mount_ok ms → ns_sync acc → ns_sync (attached ms acc).
Proof.
  revert acc. induction ms as [|m ms IH]; intros acc Hm Hs; [done |]. apply Forall_cons_iff in Hm as [(r & H1 & H2) Hm].
  apply (IH _ Hm). intros path x. rewrite lookup_insert_Some. intros [[<- <-]|[_ Hx]]; [by exists r | by apply Hs].
Qed.

Lemma attached_lookup {P} (ms : list (NamespaceMount P)) acc path :
  (is_Some (acc !! path) ∨ ∃ m, m ∈ ms ∧ nm_path m = path) → is_Some (attached ms acc !! path).
Proof.
  revert acc. induction ms as [|m ms IH]; intros acc H; cbn.
  - destruct H as [H|(m & Hm & _)]; [done | by apply elem_of_nil in Hm].
  - apply IH. destruct H as [H|(m' & [->|Hm]%elem_of_cons & Hp)]; [| left | right; by exists m'].
    + left. destruct (decide (nm_path m = path)) as [->|Hne]; [rewrite lookup_insert_eq; by eexists |].
      by rewrite lookup_insert_ne.
    + rewrite Hp, lookup_insert_eq. by eexists.
Qed.

Lemma provider_at_resource {P} {HI : HashIter} (ns : NamespaceProvider P) r path :
  ns_sync (Namespace.mounts ns) → resource_namespace_path r = Ok path →
  provider_at ns path
  = Ok ((fun x => mkResolvedNamespaceProvider (key x) (mounted x) path VirtualPath_root) <$> Namespace.mounts ns !! path).
Proof.
  intros Hs Hr. pose proof Hr as (enc & _ & Hwf & _)%resource_path_ok.
  destruct (provider_at_spec ns path Hwf) as [(pre & m & rest & Hm & Hc & _ & ->)|[Hno ->]].
  - destruct (Hs pre m Hm) as (r' & Hr' & _).
    assert (r = r') as <-.
    { eapply resource_paths_prefix; [done | done |]. apply VirtualPath_starts_with_spec. by exists rest. }
    rewrite Hr in Hr'. injection Hr' as <-. rewrite Hm. cbn.
    replace rest with (@nil VirtualFileName); [done |]. rewrite <- (app_nil_r (components path)) in Hc at 1.
    by apply app_inv_head in Hc.
  - destruct (Namespace.mounts ns !! path) as [x|] eqn:E; [| done].
    assert (VirtualPath_starts_with path path = true) as H by (apply VirtualPath_starts_with_spec; exists []; by rewrite app_nil_r).
    rewrite (Hno path) in H; [done |]. by eexists.
Qed.

Lemma container_of_resource r :
  container_of_key (resource_key r) = match r with Protocol.Ref_Container id => Some id | _ => None end.
Proof.
  unfold container_of_key. destruct r as [id|id|name]; cbn [resource_key]; rewrite bytes_text_key; [| done | done].
  by apply Text.strip_prefix_Some.
Qed.

(** The root of a container belongs to its root filesystem. *)
Lemma route_root {P} (router : ContainerPathRouter P) :
  Forall (fun m => VirtualPath_is_root (destination m) = false) (Router.mounts router) →
  ∃ r, route router VirtualPath_root = Ok r ∧ route_provider r = rootfs router.
Proof.
  intros Hm. unfold route. replace (find _ (Router.mounts router)) with (@None (ResolvedContainerMount P)); [by eexists |].
  symmetry. destruct (find _ (Router.mounts router)) as [m|] eqn:E; [| done]. apply find_some in E as [Hin Hs].
  apply list_elem_of_In in Hin. pose proof (proj1 (list.Forall_forall _ _) Hm m Hin) as Hr. cbn in Hr.
  apply VirtualPath_starts_with_spec in Hs as [cs Hc]. cbn in Hc. unfold VirtualPath_is_root in Hr.
  by destruct (components (destination m)).
Qed.

(** ** The invariant of the daemon *)
Record daemon_inv {P} (self : DaemonState P) : Prop := {
  di_session : st_session self = true ↔ Protocol.ms_state (st_status_mount self) = Protocol.Mount_Mounted;
  di_notifier : st_notifier self = st_session self;
  di_point : Protocol.ms_mount_point (st_status_mount self)
             = match Protocol.ms_state (st_status_mount self) with
               | Protocol.Mount_Unmounted => None
               | _ => Some (st_mount_point self)
               end;
  di_read_only : Protocol.ms_read_only (st_status_mount self) = true;
  di_failed reason : Protocol.ms_state (st_status_mount self) ≠ Protocol.Mount_Failed reason;
  di_sync : ns_sync (Namespace.mounts (st_namespace self));
  di_routers : router_ok (st_providers self);
}.

Lemma daemon_new_inv {P} endpoint instance mount_point : daemon_inv (DaemonState_new (P := P) endpoint instance mount_point).
Proof. by split. Qed.

Section daemon_steps.
Context {W P Sl : Type} {FF : FuserFlags} {RP : ReadOnlyFilesystemProvider W P} {SR : SnapshotRootfs W P}
  {DS : DockerServices W} {DP : DaemonProviders W P} {DHo : DaemonHost W P} {HI : HashIter} {DO : DrainOrder}
  {DX : DockerExec W} {SL : Slab (OpenHandle ()) Sl}.

(** A rebuild changes the namespace, the registries and the counter, and does not
    fail. *)
Definition rebuilt (self self' : DaemonState P) : Prop :=
  ∃ generation ns registries,
    self' = set_registries registries (set_namespace ns (set_generation generation self)) ∧
    (daemon_inv self → ns_sync (Namespace.mounts ns) ∧ router_ok registries).

Lemma outside_self {A} (m : tprog W A) (s : DaemonState P * W) : (outside m s).2.1 = s.1.
Proof. unfold outside. by destruct (m s.2). Qed.

Lemma rebuild_outcome (s : DaemonState P * W) :
  rebuilt s.1 (rebuild_namespace s).2.1 ∧ ∀ e, (rebuild_namespace s).1 ≠ Err e.
Proof.
  destruct s as [self w]. unfold rebuild_namespace.
  set (b0 := mkBuilding NamespacePlan_default (st_snapshot_generation self) w).
  pose proof (plan_builds (st_daemon_instance self) b0) as [Hok _]. pose proof (plan_no_err (st_daemon_instance self) b0) as Hne.
  specialize (Hok plan_default_ok).
  destruct (build_namespace_plan (st_daemon_instance self) b0) as [[u|e|p] b]; [| by destruct (Hne e) |].
  - destruct (attach_plan_ok (bd_plan b) (ns_clear (st_namespace (set_generation (bd_generation b) self))).2 Hok) as [als Hat].
    cbn [ns_clear snd] in *. rewrite Hat. split.
    + rewrite outside_self. cbn [fst]. eexists _, _, _. split; [reflexivity |]. intros _. split; [| apply Hok].
      apply attached_sync; [apply Hok |]. intros path x. cbn. by rewrite lookup_empty.
    + intros e. unfold outside. cbn [snd]. 
      match goal with |- context [ (?m;; ?k) ?w0 ] => 
        pose proof (bind_no_err m (fun _ => k) w0 e (each_logged_no_err _ _) (fun _ => each_logged_no_err _ _)) as Hb;
        destruct ((m;; k) w0) end. exact Hb.
  - split; [| done]. exists (bd_generation b), (st_namespace self), (st_providers self). cbn. split; [by destruct self |].
    intros Hi. split; apply Hi.
Qed.

Lemma rebuilt_inv self self' : rebuilt self self' → daemon_inv self → daemon_inv self'.
Proof. intros (generation & ns & registries & -> & H) Hi. destruct (H Hi) as [H1 H2]. destruct Hi. by split. Qed.

(** A program from states with [I]: it ends in [Q], or fails in a state of the
    invariant. *)
Definition hoare {A} (I : DaemonState P → Prop) (m : tprog (DaemonState P * W) A) (Q : A → DaemonState P → Prop) : Prop :=
  ∀ s, I s.1 → match m s with (Ok a, s') => Q a s'.1 | (_, s') => daemon_inv s'.1 end.

Lemma hoare_bind {A B} I (m : tprog (DaemonState P * W) A) R (f : A → tprog (DaemonState P * W) B) Q :
  hoare I m R → (∀ a, hoare (R a) (f a) Q) → hoare I (m ≫= f) Q.
Proof.
  intros Hm Hf s Hs. specialize (Hm s Hs). unfold mbind, tprog_bind. destruct (m s) as [[a|e|p] s']; [| done | done].
  by apply Hf.
Qed.
Lemma hoare_quiet {A} I (m : tprog (DaemonState P * W) A) :
  (∀ s, (m s).2.1 = s.1) → (∀ self, I self → daemon_inv self) → hoare I m (fun _ => I).
Proof.
  intros Hm Hi s Hs. specialize (Hm s). destruct (m s) as [[a|e|p] s']; cbn in Hm; rewrite Hm; auto.
Qed.
Lemma hoare_get {A} I (f : DaemonState P → A) : hoare I (self_get f) (fun a self => I self ∧ a = f self).
Proof. intros s Hs. done. Qed.
Lemma hoare_on_self (I J : DaemonState P → Prop) f : (∀ self, I self → J (f self)) → hoare I (on_self (W := W) f) (fun _ => J).
Proof. intros H s Hs. by apply H. Qed.
Lemma hoare_weaken {A} I I' (m : tprog (DaemonState P * W) A) Q Q' :
  (∀ self, I' self → I self) → (∀ a self, Q a self → Q' a self) → hoare I m Q → hoare I' m Q'.
Proof. intros H1 H2 Hm s Hs. specialize (Hm s (H1 _ Hs)). destruct (m s) as [[a|e|p] s']; auto. Qed.

Definition stays {A} (m : tprog (DaemonState P * W) A) : Prop := hoare daemon_inv m (fun _ => daemon_inv).

Lemma rebuild_hoare (I : DaemonState P → Prop) :
  (∀ self, I self → daemon_inv self) → (∀ self self', rebuilt self self' → I self → I self') →
  hoare I rebuild_namespace (fun _ => I).
Proof.
  intros H1 H2 s Hs. destruct (rebuild_outcome s) as [Hr _].
  destruct (rebuild_namespace s) as [[a|e|p] s']; [| apply H1 | apply H1]; by eapply H2.
Qed.

Definition unmounted (self : DaemonState P) : Prop := daemon_inv self ∧ st_session self = false.

Lemma mounting_ok self :
  unmounted self → unmounted (set_status_mount (mount_status_of Protocol.Mount_Mounting (Some (st_mount_point self))) self).
Proof. intros [[H1 H2 H3 H4 H5 H6 H7] H]. split; [| done]. split; try done. cbn. by rewrite H. Qed.

Lemma rebuilt_unmounted self self' : rebuilt self self' → unmounted self → unmounted self'.
Proof.
  intros Hr [Hi Hm]. split; [by eapply rebuilt_inv |]. destruct Hr as (generation & ns & registries & -> & _). done.
Qed.

Lemma adapter_quiet (s : DaemonState P * W) : (new_adapter (Sl := Sl) s).2.1 = s.1.
Proof. unfold new_adapter. by destruct (adapter_new _ _ _ _ _ _ _ _ _ _ _ _) as [r [ns w]]. Qed.

Lemma daemon_mount_stays : stays (daemon_mount (Sl := Sl)).
Proof.
  eapply hoare_bind; [apply hoare_get |]. intros [].
  { eapply hoare_weaken; [| | apply (hoare_get daemon_inv)]; [by intros ? [] | by intros ? ? []]. }
  eapply (hoare_weaken unmounted _ _ (fun _ => daemon_inv)); [by intros self [Hi Hm] | done |].
  eapply hoare_bind; [apply hoare_get |]. intros mount_point.
  eapply (hoare_bind _ _ (fun _ self => unmounted self ∧ mount_point = st_mount_point self)).
  { apply hoare_on_self. intros self [Hu ->]. split; [by apply mounting_ok | done]. }
  intros ?. eapply hoare_bind.
  { apply rebuild_hoare; [by intros self [[Hi _] _] |]. intros self self' Hr [Hu Hp].
    split; [by eapply rebuilt_unmounted |]. destruct Hr as (generation & ns & registries & -> & _). done. }
  intros ?. eapply hoare_bind; [apply hoare_quiet; [apply adapter_quiet | by intros self [[Hi _] _]] |].
  intros ?. eapply hoare_bind; [apply hoare_quiet; [intros s; apply outside_self | by intros self [[Hi _] _]] |].
  intros ? [self w] [[[H1 H2 H3 H4 H5 H6 H7] Hm] ->]. cbn in *. split; done.
Qed.

Lemma daemon_unmount_stays : stays daemon_unmount.
Proof.
  eapply hoare_bind; [apply hoare_get |]. intros mount_point [self w] [[H1 H2 H3 H4 H5 H6 H7] ->]. cbn in *.
  assert (daemon_inv (set_mounted false false
            (set_status_mount (mount_status_of Protocol.Mount_Unmounting (Some (st_mount_point self))) self))) as Hi
    by (by split).
  unfold mbind, tprog_bind, outside, self_get, tgets. cbn.
  destruct (st_session self); cbn; [destruct (umount_and_join w) as [[u|e|p] w'] |]; cbn; first [exact Hi | by split].
Qed.

Lemma stays_bind {A B} (m : tprog (DaemonState P * W) A) (f : A → tprog (DaemonState P * W) B) :
  stays m → (∀ a, stays (f a)) → stays (m ≫= f).
Proof. apply hoare_bind. Qed.
Lemma stays_quiet {A} (m : tprog (DaemonState P * W) A) : (∀ s, (m s).2.1 = s.1) → stays m.
Proof. intros H. by apply hoare_quiet. Qed.
Lemma stays_outside {A} (m : tprog W A) : stays (outside m).
Proof. apply stays_quiet. intros s. apply outside_self. Qed.
Lemma stays_self f : (∀ self, daemon_inv self → daemon_inv (f self)) → stays (on_self (W := W) f).
Proof. apply hoare_on_self. Qed.
Lemma stays_logged {A} (m : tprog (DaemonState P * W) A) : stays m → stays (logged m).
Proof. intros H s Hs. specialize (H s Hs). unfold logged. by destruct (m s) as [[a|e|p] s']. Qed.

Lemma unchanged_bind {A B} (m : tprog (DaemonState P * W) A) (f : A → tprog (DaemonState P * W) B) s :
  (∀ s, (m s).2.1 = s.1) → (∀ a s, (f a s).2.1 = s.1) → ((m ≫= f) s).2.1 = s.1.
Proof.
  intros Hm Hf. unfold mbind, tprog_bind. specialize (Hm s). destruct (m s) as [[a|e|p] s']; [| done | done].
  cbn in Hm. by rewrite Hf.
Qed.

Lemma ensure_quiet r s : (ensure_container_snapshot r s).2.1 = s.1.
Proof.
  destruct r as [id| |]; [| done | done]. apply unchanged_bind; [done |]. intros [p|] s'; [| done].
  apply unchanged_bind; [intros; apply outside_self |]. intros [] s''; [done |]. apply unchanged_bind; [intros; apply outside_self | done].
Qed.
Lemma route_descriptor_quiet x s : (route_descriptor x s).2.1 = s.1.
Proof.
  apply unchanged_bind; [done |]. intros registries s1. apply unchanged_bind; [done |]. intros provider s2.
  apply unchanged_bind; [intros; apply outside_self | done].
Qed.
Lemma resource_path_quiet r s : (resource_path r s).2.1 = s.1.
Proof.
  apply unchanged_bind; [apply ensure_quiet |]. intros _ s1. do 4 (apply unchanged_bind; [done |]; intros ? ?).
  destruct (negb _); [done |]. apply unchanged_bind; [apply route_descriptor_quiet |]. intros. by apply unchanged_bind.
Qed.
Lemma provider_descriptor_quiet path s : (provider_descriptor path s).2.1 = s.1.
Proof.
  apply unchanged_bind; [apply ensure_quiet |]. intros _ s1. do 5 (apply unchanged_bind; [done |]; intros ? ?).
  apply route_descriptor_quiet.
Qed.

Lemma publish_stays notification : stays (on_self (publish_change notification)).
Proof.
  apply stays_self. intros self Hi. unfold publish_change. revert self Hi.
  induction (kinds notification) as [|k ks IH]; intros self Hi; [done |]. cbn. apply IH. destruct Hi. by destruct k.
Qed.

Lemma daemon_stop_stays : stays daemon_stop.
Proof.
  apply stays_bind; [apply stays_self; by intros self [] |]. intros _.
  apply stays_bind; [intros [self w] []; by split |]. intros _.
  apply stays_bind; [apply stays_self; by intros self [] |]. intros _.
  apply stays_bind; [apply stays_logged, daemon_unmount_stays |]. intros _.
  apply stays_bind; [by apply stays_quiet |]. intros old.
  apply stays_bind; [| intros _; apply stays_bind; [apply stays_outside |]; intros _;
                       apply stays_bind; [by apply stays_quiet |]; intros instance; apply stays_outside].
  apply stays_self. intros self []. by split.
Qed.

Inductive daemon_op : Type :=
  | Daemon_Start | Daemon_DoMount | Daemon_DoUnmount | Daemon_Remount
  | Daemon_Change (notification : ChangeNotification)
  | Daemon_ResourcePath (resource : Protocol.DockerResourceRef)
  | Daemon_Descriptor (path : Protocol.ResourcePath)
  | Daemon_Stop.

Definition daemon_step (s : DaemonState P * W) (op : daemon_op) : DaemonState P * W :=
  match op with
  | Daemon_Start => (daemon_start (Sl := Sl) s).2
  | Daemon_DoMount => (daemon_mount (Sl := Sl) s).2
  | Daemon_DoUnmount => (daemon_unmount s).2
  | Daemon_Remount => (daemon_remount (Sl := Sl) s).2
  | Daemon_Change notification => (handle_change notification s).2
  | Daemon_ResourcePath resource => (resource_path resource s).2
  | Daemon_Descriptor path => (provider_descriptor path s).2
  | Daemon_Stop => (daemon_stop s).2
  end.

Lemma stays_inv {A} (m : tprog (DaemonState P * W) A) s : stays m → daemon_inv s.1 → daemon_inv (m s).2.1.
Proof. intros Hm Hs. specialize (Hm s Hs). by destruct (m s) as [[a|e|p] s']. Qed.

Lemma daemon_step_inv s op : daemon_inv s.1 → daemon_inv (daemon_step s op).1.
Proof.
  destruct op as [| | | |notification|resource|path|]; cbn [daemon_step].
  - apply stays_inv. apply stays_bind; [apply daemon_mount_stays |]. intros _.
    apply stays_bind; [apply stays_self; by intros self [] |]. intros _ [self w] []. by split.
  - apply stays_inv, daemon_mount_stays.
  - apply stays_inv, daemon_unmount_stays.
  - apply stays_inv, stays_bind; [apply daemon_unmount_stays | intros; apply daemon_mount_stays].
  - apply stays_inv, stays_bind; [| intros; apply publish_stays]. destruct (needs_rebuild notification); [| by apply stays_quiet].
    apply stays_logged, rebuild_hoare; [done | apply rebuilt_inv].
  - by rewrite resource_path_quiet.
  - by rewrite provider_descriptor_quiet.
  - apply stays_inv, daemon_stop_stays.
Qed.

Lemma daemon_steps_inv ops s : daemon_inv s.1 → daemon_inv (foldl daemon_step s ops).1.
Proof. revert s. induction ops as [|op ops IH]; intros s Hs; [done |]. cbn. by apply IH, daemon_step_inv. Qed.

(** The provider that serves the root of a resource, and the world in which its
    snapshot, if it has one, is captured. *)
Definition serving (self : DaemonState P) (r : Protocol.DockerResourceRef) (x : MountedProvider P) : option P :=
  match r with
  | Protocol.Ref_Container id => (fun router => rootfs (cr_router router)) <$> rg_containers (st_providers self) !! id
  | _ => Some (mounted x)
  end.
Definition captured_in (r : Protocol.DockerResourceRef) (p : P) (w w' : W) : Prop :=
  match r with
  | Protocol.Ref_Container _ =>
      rootfs_captured p w = (true, w') ∨
      ∃ w1 generation, rootfs_captured p w = (false, w1) ∧ rootfs_capture p w1 = (Ok generation, w')
  | _ => w' = w
  end.

Lemma ensure_ok (self : DaemonState P) w w' r x p :
  router_ok (st_providers self) → serving self r x = Some p → captured_in r p w w' →
  ensure_container_snapshot r (self, w) = (Ok tt, (self, w')).
Proof.
  intros Hr Hs Hc. destruct r as [id|id|name]; cbn in *; [| by rewrite Hc | by rewrite Hc].
  unfold ensure_container_snapshot. apply fmap_Some in Hs as (router & Hs & ->). destruct (Hr id router Hs) as [Hroot _].
  unfold mbind, tprog_bind, self_get, tgets, outside. cbn. rewrite Hroot.
  destruct Hc as [Hc|(w1 & generation & Hc & Hcap)]; cbn; rewrite Hc; cbn; [done |]. by rewrite Hcap.
Qed.

Lemma resource_path_served (self : DaemonState P) w w' r path x p :
  daemon_inv self → resource_namespace_path r = Ok path → Namespace.mounts (st_namespace self) !! path = Some x →
  serving self r x = Some p → captured_in r p w w' →
  resource_path r (self, w)
  = ((descriptor ← wire_descriptor (p_descriptor p w');
      Ok {| Protocol.rfp_resource := r; Protocol.rfp_path := host_namespace_path (st_mount_point self) path;
            Protocol.rfp_descriptor := descriptor |}), (self, w')).
Proof.
  intros Hi Hr Hx Hs Hc. pose proof (di_sync _ Hi) as Hsync. unfold resource_path. unfold mbind at 1, tprog_bind at 1.
  rewrite (ensure_ok self w w' r x p (di_routers _ Hi) Hs Hc).
  unfold mbind, tprog_bind, tlift, self_get, tgets, displayed. rewrite Hr. cbn [map_error fst].
  rewrite (provider_at_resource _ r path Hsync Hr), Hx. cbn [map_error fmap option_fmap option_map ok_or relative_path].
  cbn [VirtualPath_is_root components VirtualPath_root is_empty negb].
  unfold route_descriptor, mbind, tprog_bind, self_get, tgets, tlift, outside. cbn [fst snd resolved_key relative_path resolved].
  assert (provider_for_route (st_providers self) (key x) VirtualPath_root (mounted x) = Ok p) as ->.
  { unfold provider_for_route. destruct (Hsync path x Hx) as (r' & Hr' & ->).
    assert (r' = r) as ->.
    { eapply resource_paths_prefix; [exact Hr' | exact Hr |]. apply VirtualPath_starts_with_spec. exists []. by rewrite app_nil_r. }
    rewrite container_of_resource. destruct r as [id|id|name]; cbn in Hs; [| by injection Hs as -> | by injection Hs as ->].
    apply fmap_Some in Hs as (router & Hs & ->). rewrite Hs. cbn. destruct (di_routers _ Hi id router Hs) as [_ Hm].
    destruct (route_root (cr_router router) Hm) as (rr & -> & <-). done. }
  cbn. destruct (wire_descriptor (p_descriptor p w')) as [d|e|s]; done.
Qed.

(** A step of a logged loop was taken, and what came after kept its plan. *)
Lemma each_logged_reaches {A} (f : A → tprog (building W P) ()) l x b b' u :
  (∀ y, builds (f y)) → x ∈ l → each_logged f l b = (Ok u, b') →
  ∃ b1 b2 r, f x b1 = (r, b2) ∧ is_panic r = false ∧ extends (bd_plan b2) (bd_plan b').
Proof.
  intros Hf. revert b. induction l as [|y l IH]; intros b Hin; [by apply elem_of_nil in Hin |]. cbn [each_logged].
  unfold mbind, tprog_bind, logged. destruct (f y b) as [r b1] eqn:E. intros H.
  assert (each_logged f l b1 = (Ok u, b') ∧ is_panic r = false) as [Hl Hr] by (by destruct r).
  apply elem_of_cons in Hin as [->|Hin]; [| by eapply IH]. exists b, b1, r. split_and!; [done | done |].
  pose proof (builds_each f l Hf b1) as H1. by rewrite Hl in H1.
Qed.

Lemma tbind_Ok {S A B} (m : tprog S A) (f : A → tprog S B) s b s' :
  (m ≫= f) s = (Ok b, s') → ∃ a s1, m s = (Ok a, s1) ∧ f a s1 = (Ok b, s').
Proof. unfold mbind, tprog_bind. destruct (m s) as [[a|e|p] s1]; [| done | done]. intros H. by exists a, s1. Qed.

(** A listed volume whose name fits is in the plan. *)
Lemma plan_volumes instance b w1 w2 w3 rc ri volumes volume path u b' :
  svc_list_containers list_all_options (bd_world b) = (rc, w1) →
  svc_list_images {| lio_search := None |} w1 = (ri, w2) →
  svc_list_volumes {| lvo_search := None |} w2 = (Ok volumes, w3) →
  build_namespace_plan instance b = (Ok u, b') → volume ∈ volumes →
  resource_namespace_path (Protocol.Ref_Volume (vs_name volume)) = Ok path →
  vs_name volume ∈ rg_volume_names (np_registries (bd_plan b')) ∧ ∃ m, m ∈ np_mounts (bd_plan b') ∧ nm_path m = path.
Proof.
  intros Hc Hi Hv Hb Hin Hpath.
  apply tbind_Ok in Hb as (containers & b1 & H1 & Hb). apply tbind_Ok in Hb as (images & b2 & H2 & Hb).
  apply tbind_Ok in Hb as (vols & b3 & H3 & Hb). apply tbind_Ok in Hb as (u1 & b4 & H4 & Hb).
  assert (bd_world b1 = w1) as E1.
  { unfold enumerated in H1. rewrite Hc in H1. by destruct rc; injection H1 as _ <-. }
  assert (bd_world b2 = w2) as E2.
  { unfold enumerated in H2. rewrite E1, Hi in H2. by destruct ri; injection H2 as _ <-. }
  assert (vols = volumes) as ->.
  { unfold enumerated in H3. rewrite E2, Hv in H3. by injection H3 as -> _. }
  destruct (each_logged_reaches _ volumes volume b3 b4 u1 (fun v => add_volume_builds (vs_name v)) Hin H4)
    as (c1 & c2 & r & Ha & Hp & _ & Hpre & Hsub).
  assert (extends (bd_plan b4) (bd_plan b')) as (_ & Hpre' & Hsub').
  { assert (builds (each_logged (S := building W P) add_image images;; each_logged (add_container instance) containers)) as Hbu.
    { apply builds_bind; [apply builds_each, add_image_builds |]. intros _. apply builds_each, add_container_builds. }
    specialize (Hbu b4). by rewrite Hb in Hbu. }
  unfold add_volume, mbind, tprog_bind, arc in Ha. destruct (volume_provider (vs_name volume) (bd_world c1)) as [provider w'].
  unfold tlift, displayed in Ha. cbn [resource_namespace_path] in Hpath. rewrite Hpath in Ha. cbn in Ha. injection Ha as _ <-.
  cbn in Hpre, Hsub. split; [apply Hsub', Hsub; set_solver |].
  exists (mkNamespaceMount path (text_key (bytes "volume:" ++ vs_name volume)) provider). split; [| done].
  eapply elem_of_prefix; [| exact Hpre']. eapply elem_of_prefix; [| exact Hpre]. set_solver.
Qed.

Lemma rebuild_volumes (self : DaemonState P) w w1 w2 w3 rc ri volumes volume path u s' :
  svc_list_containers list_all_options w = (rc, w1) →
  svc_list_images {| lio_search := None |} w1 = (ri, w2) →
  svc_list_volumes {| lvo_search := None |} w2 = (Ok volumes, w3) →
  rebuild_namespace (self, w) = (Ok u, s') → volume ∈ volumes →
  resource_namespace_path (Protocol.Ref_Volume (vs_name volume)) = Ok path →
  vs_name volume ∈ rg_volume_names (st_providers s'.1) ∧ is_Some (Namespace.mounts (st_namespace s'.1) !! path).
Proof.
  intros Hc Hi Hv Hrb Hin Hpath. unfold rebuild_namespace in Hrb.
  set (b0 := mkBuilding NamespacePlan_default (st_snapshot_generation self) w) in *.
  pose proof (plan_builds (st_daemon_instance self) b0) as [Hok _]. specialize (Hok plan_default_ok).
  destruct (build_namespace_plan (st_daemon_instance self) b0) as [[u0|e|p] b] eqn:E; [| done | done]. cbn [snd] in Hok.
  destruct (attach_plan_ok (bd_plan b) (ns_clear (st_namespace (set_generation (bd_generation b) self))).2 Hok) as [als Hat].
  cbn [ns_clear snd] in *. rewrite Hat in Hrb. apply (f_equal (fun z => z.2.1)) in Hrb. rewrite outside_self in Hrb.
  cbn [fst snd] in Hrb. rewrite <- Hrb. cbn.
  destruct (plan_volumes _ b0 w1 w2 w3 rc ri volumes volume path u0 b Hc Hi Hv E Hin Hpath) as [Hname Hm].
  split; [exact Hname |]. apply attached_lookup. by right.
Qed.
End daemon_steps.

(** ** Properties *)


(** C15: A rebuild attaches every volume.  Rebuilding the namespace never returns an
    error, and when it ends, each volume that the Engine listed and whose name
    fits is attached: asking for its path gives the directory of its encoded name
    below the mount point, with the descriptor of the provider mounted there. *)
Theorem rebuild_attaches_volumes {W P : Type} {FF : FuserFlags} {RP : ReadOnlyFilesystemProvider W P}
  {SR : SnapshotRootfs W P} {DS : DockerServices W} {DP : DaemonProviders W P} {DHo : DaemonHost W P} {HI : HashIter}
  {DO : DrainOrder} (self : DaemonState P) (w w1 w2 w3 : W) (rc : result DockerError (list ContainerSummary))
  (ri : result DockerError (list ImageSummary)) (volumes : list VolumeSummary) (volume : VolumeSummary)
  (path : VirtualPath) :
  daemon_inv self →
  svc_list_containers list_all_options w = (rc, w1) →
  svc_list_images {| lio_search := None |} w1 = (ri, w2) →
  svc_list_volumes {| lvo_search := None |} w2 = (Ok volumes, w3) → volume ∈ volumes →
  resource_namespace_path (Protocol.Ref_Volume (vs_name volume)) = Ok path →
  match rebuild_namespace (self, w) with
  | (Ok _, s) =>
      ∃ x, Namespace.mounts (st_namespace s.1) !! path = Some x ∧
        resource_path (Protocol.Ref_Volume (vs_name volume)) s
        = ((descriptor ← wire_descriptor (p_descriptor (mounted x) s.2);
            Ok {| Protocol.rfp_resource := Protocol.Ref_Volume (vs_name volume);
                  Protocol.rfp_path := host_namespace_path (st_mount_point self) path;
                  Protocol.rfp_descriptor := descriptor |}), s)
  | (Err _, _) => False
  | (Panic _, _) => True
  end.
Proof.
  intros Hi Hc Hm Hv Hin Hpath. destruct (rebuild_outcome (self, w)) as [Hr Hne].
  destruct (rebuild_namespace (self, w)) as [[u|e|p] [self' w']] eqn:E; [| by destruct (Hne e) | done].
  destruct (rebuild_volumes self w w1 w2 w3 rc ri volumes volume path u _ Hc Hm Hv E Hin Hpath) as [_ [x Hx]].
  exists x. split; [exact Hx |]. pose proof (rebuilt_inv _ _ Hr Hi) as Hi'. cbn [fst snd] in *.
  rewrite (resource_path_served self' w' w' _ path x (mounted x) Hi' Hpath Hx eq_refl eq_refl).
  destruct Hr as (generation & ns & registries & -> & _). done.
Qed.


(** A mount that fails is reported as still mounting.  When the file system
    cannot be mounted, the request fails and the status stays at mounting; the
    protocol's state for a failed mount is never used. *)
Theorem failed_mount_stays_mounting {W P Sl : Type} {FF : FuserFlags} {RP : ReadOnlyFilesystemProvider W P}
  {SR : SnapshotRootfs W P} {DS : DockerServices W} {DP : DaemonProviders W P} {DHo : DaemonHost W P} {HI : HashIter}
  {DO : DrainOrder} {SL : Slab (OpenHandle ()) Sl} (self : DaemonState P) (w : W) (e : text) :
  (daemon_mount (Sl := Sl) (self, w)).1 = Err e →
  st_status_mount (daemon_mount (Sl := Sl) (self, w)).2.1
  = mount_status_of Protocol.Mount_Mounting (Some (st_mount_point self)).
Proof.
  unfold daemon_mount, self_get, tgets, on_self, tupdate. unfold mbind, tprog_bind. cbn -[rebuild_namespace new_adapter].
  destruct (st_session self); [done |]. cbn -[rebuild_namespace new_adapter].
  set (self1 := set_status_mount (mount_status_of Protocol.Mount_Mounting (Some (st_mount_point self))) self).
  destruct (rebuild_outcome (self1, w)) as [(generation & ns & registries & Hr & _) Hne].
  destruct (rebuild_namespace (self1, w)) as [[u|e'|p] [self2 w2]]; [| by destruct (Hne e') | done].
  cbn in Hr. pose proof (adapter_quiet (Sl := Sl) (self2, w2)) as Ha.
  destruct (new_adapter (self2, w2)) as [[u'|e'|p] [self3 w3]]; cbn in Ha; subst self3 self2; [| done | done].
  unfold outside. cbn. destruct (spawn_mount w3) as [[u''|e''|p] w4]; cbn; done.
Qed.

(** What went wrong with a resource is not told apart.  Errors of a provider
    display the name of their constructor, which the daemon's search for
    "permission" and "timed out" does not find, and an unknown container is not
    reported in the words it looks for: all are answered as an unavailable
    provider to be tried again. *)
Theorem resource_errors_not_told_apart {W P : Type} {DP : DaemonProviders W P} (self : DaemonState P) (w : W)
  (container_id : text) :
  Forall (fun e => map_resource_error (VfsError_to_string e)
                   = protocol_error Protocol.Code_ProviderUnavailable (VfsError_to_string e) true)
    [NotFound; PermissionDenied; TimedOut] ∧
  (rg_rootfs (st_providers self) !! container_id = None →
   (ensure_container_snapshot (Protocol.Ref_Container container_id) (self, w)).1
   = Err (bytes "container rootfs provider is not attached: " ++ container_id)) ∧
  map_resource_error (bytes "container rootfs provider is not attached: 0123")
  = protocol_error Protocol.Code_ProviderUnavailable (bytes "container rootfs provider is not attached: 0123") true.
Proof.
  split_and!; [repeat constructor | | vm_compute; reflexivity]. intros H.
  unfold ensure_container_snapshot, self_get, tgets. unfold mbind, tprog_bind. cbn. by rewrite H.
Qed.

(** A failed listing empties the mount.  When the Engine cannot be asked at the
    moment of a rebuild, the rebuild goes on with nothing listed: it succeeds,
    nothing is attached any more, and no resource can be found until the next
    change. *)
Theorem failed_listing_empties_namespace {W P : Type} {FF : FuserFlags} {RP : ReadOnlyFilesystemProvider W P}
  {SR : SnapshotRootfs W P} {DS : DockerServices W} {DP : DaemonProviders W P} {DHo : DaemonHost W P} {HI : HashIter}
  {DO : DrainOrder} (self : DaemonState P) (w w1 w2 w3 : W) (e1 e2 e3 : DockerError) :
  svc_list_containers list_all_options w = (Err e1, w1) →
  svc_list_images {| lio_search := None |} w1 = (Err e2, w2) →
  svc_list_volumes {| lvo_search := None |} w2 = (Err e3, w3) →
  Namespace.mounts (st_namespace (rebuild_namespace (self, w)).2.1) = ∅ ∧
  st_providers (rebuild_namespace (self, w)).2.1 = ProviderRegistries_default.
Proof.
  intros H1 H2 H3.
  assert (build_namespace_plan (st_daemon_instance self) (mkBuilding NamespacePlan_default (st_snapshot_generation self) w)
          = (Ok tt, mkBuilding NamespacePlan_default (st_snapshot_generation self) w3)) as E.
  { unfold build_namespace_plan, enumerated. unfold mbind, tprog_bind. cbn [bd_world bd_plan bd_generation].
    rewrite H1. cbn [bd_world bd_plan bd_generation]. rewrite H2. cbn [bd_world bd_plan bd_generation]. by rewrite H3. }
  unfold rebuild_namespace. rewrite E. unfold attach_plan, ns_clear.
  cbn -[outside shutdown_helper_binds each_logged]. rewrite outside_self. done.
Qed.

(** ** Examples *)

(** An Engine with one volume and one container, whose name is given. *)
Definition sample_volume_row : VolumeSummary :=
  {| vs_name := bytes "data"; vs_driver := bytes "local"; vs_scope := bytes "local"; vs_mountpoint := None;
     vs_created_at := None; vs_labels := ∅; vs_options := ∅; vs_usage := {| vu_size_bytes := None; vu_ref_count := None |}; vs_used_by := [];
     vs_anonymous := false |}.
Definition sample_container_row (name : text) : ContainerSummary :=
  {| cs_id := sample_id; cs_short_id := bytes "0123"; cs_name := name; cs_image := bytes "busybox";
     cs_image_id := bytes "image"; cs_state := Runtime_Exited; cs_status := []; cs_created_at := 1;
     cs_ports := []; cs_labels := ∅ |}.
Definition sample_detail_row (name : text) : ContainerDetail :=
  {| cd_summary := sample_container_row name; cd_command := []; cd_entrypoint := []; cd_environment := [];
     cd_mounts := []; cd_networks := []; cd_restart_policy := {| rp_name := bytes "no"; rp_maximum_retry_count := None |};
     cd_health := None; cd_platform := None; cd_hostname := None; cd_domain_name := None; cd_working_dir := None;
     cd_user := None; cd_stop_signal := None; cd_stop_timeout_seconds := None; cd_auto_remove := false; cd_tty := false;
     cd_open_stdin := false; cd_read_only_rootfs := false; cd_privileged := false;
     cd_state_detail := {| csd_running := false; csd_paused := false; csd_restarting := false; csd_oom_killed := false;
                           csd_dead := false; csd_exit_code := None; csd_error := None; csd_started_at := None;
                           csd_finished_at := None; csd_restart_count := 0 |};
     cd_resource_limits := {| rl_memory_bytes := None; rl_nano_cpus := None; rl_pids_limit := None; rl_cpu_shares := None |} |}.

Definition refused {A} (w : ()) : result DockerError A * () := (Err DE_EngineUnavailable, w).
Definition sample_services (name : text) : DockerServices () := {|
  svc_system_info := refused; svc_overview := refused;
  svc_list_containers _ w := (Ok [sample_container_row name], w);
  svc_inspect_container _ w := (Ok (sample_detail_row name), w);
  svc_start_container _ := refused; svc_stop_container _ _ := refused; svc_restart_container _ _ := refused;
  svc_pause_container _ := refused; svc_unpause_container _ := refused; svc_kill_container _ _ := refused;
  svc_remove_container _ _ := refused; svc_rename_container _ _ := refused; svc_create_container _ := refused;
  svc_container_stats _ := refused; svc_container_logs _ _ := refused; svc_list_projects := refused;
  svc_execute_group_targets _ _ _ := refused; svc_list_images _ := refused; svc_inspect_image _ := refused;
  svc_remove_image _ _ := refused; svc_pull_image _ w := ([], w); svc_export_image _ w := ([], w);
  svc_list_networks _ := refused; svc_inspect_network _ := refused; svc_create_network _ := refused;
  svc_remove_network _ := refused; svc_list_volumes _ w := (Ok [sample_volume_row], w); svc_inspect_volume _ := refused;
  svc_create_volume _ := refused; svc_remove_volume _ _ := refused; svc_prune_volumes _ := refused;
  svc_clone_volume _ _ := refused; svc_enrich_usage _ w := ((∅, ∅), w); svc_export_volume _ _ := refused;
|}.

(** A provider is known by its name. *)
#[local] Instance named_provider : ReadOnlyFilesystemProvider () string := {
  p_descriptor p _ := mkProviderDescriptor Model.NamedVolumeLive Model.Live (Some p) Capabilities.READ_ONLY;
  p_lookup _ _ _ _ := throw NotFound; p_getattr _ _ _ := throw NotFound; p_read_dir _ _ _ := throw NotFound;
  p_read_link _ _ _ := throw NotFound; p_open _ _ _ _ := throw NotFound; p_read_at _ _ _ _ _ := throw NotFound;
  p_close _ _ := throw NotFound; p_refresh _ _ := throw NotFound;
}.
#[local] Instance named_rootfs : SnapshotRootfs () string := { rootfs_generation _ _ := 1 }.
#[local] Instance named_providers : DaemonProviders () string := {
  image_docker _ w := (Err NotFound, w); local_bind_new _ w := (Err NotFound, w);
  arc_archive _ w := ("archive"%string, w); arc_rootfs _ w := ("rootfs"%string, w); arc_router _ w := ("router"%string, w);
  arc_helper_bind _ w := ("helper"%string, w); helper_bind_shutdown _ w := (Ok tt, w);
  volume_provider name w := (text_key name, w); volume_remove _ w := (Ok tt, w); volume_pool_shutdown w := (Ok tt, w);
  rootfs_captured _ w := (false, w); rootfs_capture _ w := (Ok 1, w);
}.
Definition sample_host (mounts : bool) : DaemonHost () string := {|
  euid := 0; egid := 0; process_id := 1; daemon_version := bytes "1"; client_is_local := true; client_socket_path := None;
  endpoint_fingerprint := bytes "e"; debug_resource _ := [];
  spawn_mount w := (if mounts then Ok tt else Err (bytes "no fuse"), w); umount_and_join w := (Ok tt, w);
  adapter_outcome := Completed; uptime_seconds _ := 0; remove_spool_dir w := w; remove_socket_file w := w;
|}.
#[local] Instance healthy_host : DaemonHost () string := sample_host true.
#[local] Existing Instance sample_drain.
#[local] Instance web_services : DockerServices () := sample_services (bytes "/web").

Definition new_daemon : DaemonState string := DaemonState_new (bytes "e") (bytes "i") (bytes "/home/u/TuxStack/docker").

Lemma rebuild_attaches_volumes_witness :
  (resource_path (Protocol.Ref_Volume (bytes "data")) (rebuild_namespace (new_daemon, ())).2).1
  = Ok {| Protocol.rfp_resource := Protocol.Ref_Volume (bytes "data");
          Protocol.rfp_path := bytes "/home/u/TuxStack/docker/volumes/data";
          Protocol.rfp_descriptor :=
            {| Protocol.pd_kind := Protocol.NamedVolumeLive; Protocol.pd_consistency := Protocol.Consistency_Live;
               Protocol.pd_source := Some (bytes "data");
               Protocol.pd_capabilities := Protocol.mkProviderCapabilities Capabilities.READ_ONLY;
               Protocol.pd_status := Protocol.Provider_Ready |} |}.
Proof.
  pose proof (rebuild_attaches_volumes new_daemon () () () () (Ok [sample_container_row (bytes "/web")])
    (Err DE_EngineUnavailable) [sample_volume_row] sample_volume_row (sample_path "/volumes/data")
    (daemon_new_inv _ _ _) eq_refl eq_refl eq_refl ltac:(apply list_elem_of_here) eq_refl) as H.
  assert (match rebuild_namespace (new_daemon, ()) with
          | (Ok _, s) => mounted <$> Namespace.mounts (st_namespace s.1) !! sample_path "/volumes/data" = Some "data"%string
          | _ => False end) as E by (vm_compute; reflexivity).
  destruct (rebuild_namespace (new_daemon, ())) as [[u|e|p] s]; [| destruct E | destruct E].
  destruct H as (x & Hx & Hr). cbn [snd]. change (bytes "data") with (vs_name sample_volume_row) at 1. rewrite Hr. rewrite Hx in E. injection E as Ex. rewrite Ex. vm_compute. reflexivity.
Defined.


Lemma failed_mount_stays_mounting_witness :
  Protocol.ms_state (st_status_mount (daemon_mount (DHo := sample_host false) (Sl := list (option (OpenHandle ())))
    (new_daemon, ())).2.1) = Protocol.Mount_Mounting.
Proof.
  rewrite (failed_mount_stays_mounting (DHo := sample_host false) new_daemon ()
    (bytes "mount /home/u/TuxStack/docker")); [reflexivity |]. vm_compute. reflexivity.
Defined.

(** A container whose name is longer than a component is attached at its path by
    id, and the registration after its alias is skipped: its path cannot be
    asked for. *)
Definition long_name : text := replicate 300 "a"%byte.
Lemma long_name_container_lost :
  let s := (rebuild_namespace (DS := sample_services long_name) (new_daemon, ())).2 in
  is_Some (Namespace.mounts (st_namespace s.1) !! sample_path ("/containers/.by-id/" ++ text_key sample_id)) ∧
  (resource_path (Protocol.Ref_Container sample_id) s).1
  = Err (bytes "container rootfs provider is not attached: " ++ sample_id).
Proof. split; [apply (bool_decide_unpack _); vm_compute; exact I | vm_compute; reflexivity]. Qed.

Definition failing_services : DockerServices () :=
  {|
  svc_system_info := refused; svc_overview := refused; svc_list_containers _ := refused;
  svc_inspect_container _ := refused;
  svc_start_container _ := refused; svc_stop_container _ _ := refused; svc_restart_container _ _ := refused;
  svc_pause_container _ := refused; svc_unpause_container _ := refused; svc_kill_container _ _ := refused;
  svc_remove_container _ _ := refused; svc_rename_container _ _ := refused; svc_create_container _ := refused;
  svc_container_stats _ := refused; svc_container_logs _ _ := refused; svc_list_projects := refused;
  svc_execute_group_targets _ _ _ := refused; svc_list_images _ := refused; svc_inspect_image _ := refused;
  svc_remove_image _ _ := refused; svc_pull_image _ w := ([], w); svc_export_image _ w := ([], w);
  svc_list_networks _ := refused; svc_inspect_network _ := refused; svc_create_network _ := refused;
  svc_remove_network _ := refused; svc_list_volumes _ := refused; svc_inspect_volume _ := refused;
  svc_create_volume _ := refused; svc_remove_volume _ _ := refused; svc_prune_volumes _ := refused;
  svc_clone_volume _ _ := refused; svc_enrich_usage _ w := ((∅, ∅), w); svc_export_volume _ _ := refused;
|}.

Lemma failed_listing_empties_namespace_witness :
  Namespace.mounts (st_namespace (rebuild_namespace (DS := failing_services) (rebuild_namespace (new_daemon, ())).2).2.1) = ∅.
Proof.
  destruct (rebuild_namespace (new_daemon, ())).2 as [s []].
  apply (failed_listing_empties_namespace (DS := failing_services) s () () () () DE_EngineUnavailable DE_EngineUnavailable
           DE_EngineUnavailable eq_refl eq_refl eq_refl).
Defined.
