(* ===== verification/ContainerModel.v ===== *)
(** The view rows of the container page (crates/gui/src/models/container_model.rs):
    list rows, the detail views of containers and groups with masked environment
    values, and the addresses under which published ports can be opened.

    A time is rendered by chrono, which is the class [TimeFormat]; a path of a
    group is shown as its bytes. *)

From S2P Require Import Prelude Path Numbers Text Domain Compose.

Local Open Scope Z_scope.

Inductive ContainerSection := Sec_Running | Sec_Paused | Sec_Restarting | Sec_Stopped.
#[export] Instance ContainerSection_eq_dec : EqDecision ContainerSection.
Proof. solve_decision. Defined.

Definition DISPLAY_ORDER : list ContainerSection := [Sec_Running; Sec_Paused; Sec_Restarting; Sec_Stopped].

Definition section_as_str (self : ContainerSection) : text :=
  match self with
  | Sec_Running => bytes "running"
  | Sec_Paused => bytes "paused"
  | Sec_Restarting => bytes "restarting"
  | Sec_Stopped => bytes "stopped"
  end.

Definition section_title (self : ContainerSection) : text :=
  match self with
  | Sec_Running => bytes "Running"
  | Sec_Paused => bytes "Paused"
  | Sec_Restarting => bytes "Restarting"
  | Sec_Stopped => bytes "Stopped"
  end.

Definition section_from_state (state : ContainerRuntimeState) : ContainerSection :=
  match state with
  | Runtime_Running => Sec_Running
  | Runtime_Paused => Sec_Paused
  | Runtime_Restarting => Sec_Restarting
  | _ => Sec_Stopped
  end.

Definition section_from_group (group : ContainerGroupSummary) : ContainerSection :=
  match cgs_section group with
  | Section_Running => Sec_Running
  | Section_Paused => Sec_Paused
  | Section_Restarting => Sec_Restarting
  | Section_Stopped => Sec_Stopped
  end.

Inductive ContainerRowKind := SectionHeader | GroupRow | ContainerChild | Individual.
#[export] Instance ContainerRowKind_eq_dec : EqDecision ContainerRowKind.
Proof. solve_decision. Defined.

Record ContainerListRow := mkContainerListRow {
  row_kind : ContainerRowKind;
  row_id : text;
  row_name : text;
  row_image : text;
  row_state : text;
  row_status : text;
  row_section : ContainerSection;
  row_group_id : text;
  row_group_total_count : Z;
  row_group_running_count : Z;
  row_group_paused_count : Z;
  row_group_stopped_count : Z;
  row_depth : Z;
  row_expanded : bool;
  row_selected : bool;
  row_operation : text;
  row_health : text;
  row_ports : text;
}.

Definition section_header (section : ContainerSection) (count : Z) : ContainerListRow :=
  mkContainerListRow SectionHeader (section_as_str section) (section_title section) [] (section_as_str section)
    (u64_to_string count) section [] count 0 0 0 0 false false [] [] [].

Definition running_status (group : ContainerGroupSummary) : text :=
  u64_to_string (cgs_running_count group) ++ bytes " / " ++ u64_to_string (cgs_total_count group) ++ bytes " running".

Definition group_row (group : ContainerGroupSummary) (group_id : text) (expanded selected : bool) (operation : text)
  : ContainerListRow :=
  mkContainerListRow GroupRow group_id (cgs_display_name group) [] (section_as_str (section_from_group group))
    (running_status group) (section_from_group group) group_id (cgs_total_count group) (cgs_running_count group)
    (cgs_paused_count group) (cgs_stopped_count group) 0 expanded selected operation
    (if cgs_unhealthy_count group >? 0 then u64_to_string (cgs_unhealthy_count group) ++ bytes " unhealthy" else []) [].

Definition operation_name (operation : ContainerOperationState) : text :=
  match operation with
  | Operation_Idle => []
  | Operation_Starting => bytes "starting"
  | Operation_Stopping => bytes "stopping"
  | Operation_Restarting => bytes "restarting"
  | Operation_Killing => bytes "killing"
  | Operation_Pausing => bytes "pausing"
  | Operation_Unpausing => bytes "unpausing"
  | Operation_Removing => bytes "removing"
  | Operation_Renaming => bytes "renaming"
  end.

Definition health_name (summary : ContainerSummary) : text :=
  match chs_status <$> cs_health_summary summary with
  | Some Health_Starting => bytes "starting"
  | Some Health_Healthy => bytes "healthy"
  | Some Health_Unhealthy => bytes "unhealthy"
  | Some Health_Unknown => bytes "unknown"
  | Some Health_None | None => []
  end.

(** [Vec<String>::join] *)
Fixpoint join (sep : text) (l : list text) : text :=
  match l with
  | [] => []
  | [a] => a
  | a :: l => a ++ sep ++ join sep l
  end.

Definition container_row (summary : ContainerSummary) (kind : ContainerRowKind) (section : ContainerSection)
  (group_id : text) (selected : bool) (operation : ContainerOperationState) : ContainerListRow :=
  mkContainerListRow kind (cs_id summary) (cs_name summary) (cs_image summary) (runtime_as_str (cs_state summary))
    (cs_status summary) section group_id 0 0 0 0 (if bool_decide (kind = ContainerChild) then 1 else 0) false selected
    (operation_name operation) (health_name summary) (join (bytes ", ") (port_display <$> cs_ports summary)).

Definition selectable (self : ContainerListRow) : bool := negb (bool_decide (row_kind self = SectionHeader)).

(** ** Detail views *)
Record PropertyViewRow := mkProperty { prop_key : text; prop_value : text }.
Record PortViewRow := mkPortViewRow {
  pv_container_port : text; pv_protocol : text; pv_host_ip : text; pv_host_port : text;
  pv_published : bool; pv_browser_url : text;
}.
Record MountViewRow := mkMountViewRow {
  mv_mount_type : text; mv_source : text; mv_destination : text; mv_access : text;
  mv_propagation : text; mv_volume_name : text;
}.
Record NetworkViewRow := mkNetworkViewRow {
  nv_name : text; nv_id : text; nv_ipv4 : text; nv_ipv6 : text; nv_gateway : text; nv_mac : text;
  nv_aliases : text; nv_endpoint_id : text;
}.
Record EnvironmentViewRow := mkEnvironmentViewRow { env_key : text; env_value : text; env_revealed : bool }.

(** Eight bullets in UTF-8. *)
Definition mask : text := concat (repeat [of_u8 0xE2; of_u8 0x80; of_u8 0xA2] 8).
Definition dash : text := [of_u8 0xE2; of_u8 0x80; of_u8 0x94].

Definition masked_value (self : EnvironmentViewRow) : text := if env_revealed self then env_value self else mask.
Definition env_set_revealed (b : bool) (self : EnvironmentViewRow) : EnvironmentViewRow :=
  mkEnvironmentViewRow (env_key self) (env_value self) b.

(** [time.format("%Y-%m-%d %H:%M:%S UTC")] *)
Class TimeFormat := { format_utc : DateTime → text }.

Definition property (key : string) (value : text) : PropertyViewRow :=
  mkProperty (bytes key) (if is_empty value then dash else value).
Definition boolean (key : string) (value : bool) : PropertyViewRow := property key (if value then bytes "Yes" else bytes "No").
Definition value_of (value : option text) : text :=
  match value with Some v => if is_empty v then dash else v | None => dash end.
Definition format_time `{!TimeFormat} (value : option DateTime) : text := from_option format_utc dash value.
Definition command (values : list text) : text := if is_empty values then dash else join (bytes " ") values.
Definition sorted_pairs (values : Labels) : list PropertyViewRow :=
  (fun '(key, value) => mkProperty key (if is_empty value then dash else value))
    <$> sort_by (cmp_by fst bytes_cmp) (map_to_list values).

(** [to_string] of a signed integer *)
Definition i64_to_string (n : Z) : text := if n <? 0 then bytes "-" ++ u64_to_string (- n) else u64_to_string n.

(** ** Addresses of published ports *)
Inductive BrowserEndpoint := BrowserLocal | Remote (host : text) | UnknownRemote.

Definition is_one_of (cs : list byte) (b : byte) : bool := existsb (fun c => bool_decide (c = b)) cs.

(** Everything before the first of the bytes [cs]. *)
Fixpoint before_any (cs : list byte) (s : text) : text :=
  match s with
  | [] => []
  | b :: s => if is_one_of cs b then [] else b :: before_any cs s
  end.
(** [str::split_once] *)
Fixpoint split_once (sep s : text) : option (text * text) :=
  match strip_prefix sep s with
  | Some rest => Some ([], rest)
  | None => match s with [] => None | b :: s => (fun '(l, r) => (b :: l, r)) <$> split_once sep s end
  end.
Definition count_byte (b : byte) (s : text) : nat := length (List.filter (fun c => bool_decide (c = b)) s).

(** What follows the last [@], or everything. *)
Definition strip_userinfo (authority : text) : text :=
  match rfind "@"%byte authority with Some i => drop (S i) authority | None => authority end.

Definition authority_target (authority : text) : BrowserEndpoint :=
  match strip_prefix (bytes "[") authority with
  | Some bracketed => if is_one_of bracketed "]"%byte then Remote (before_any ["]"%byte] bracketed) else UnknownRemote
  | None =>
      let host := if (count_byte ":"%byte authority <=? 1)%nat then before_any [":"%byte] authority else authority in
      if is_empty host then UnknownRemote else Remote host
  end.

Definition endpoint_browser_target (endpoint_key : text) : BrowserEndpoint :=
  if bool_decide (endpoint_key = bytes "local") || bool_decide (endpoint_key = bytes "default-local")
     || starts_with endpoint_key (bytes "unix://") || starts_with endpoint_key (bytes "npipe://")
  then BrowserLocal
  else
    match split_once (bytes "://") endpoint_key with
    | None => UnknownRemote
    | Some (scheme, remainder) =>
        if negb (bool_decide (scheme ∈ [bytes "tcp"; bytes "http"; bytes "https"; bytes "ssh"])) then UnknownRemote
        else authority_target (strip_userinfo (before_any ["/"%byte; "?"%byte; "#"%byte] remainder))
    end.

Definition browser_url_for_endpoint (endpoint_key host_ip : text) (host_port : option Z) (container_port : Z) : text :=
  match host_port with
  | None => []
  | Some port =>
      let wildcard := bool_decide (host_ip ∈ [[]; bytes "0.0.0.0"; bytes "::"; bytes "[::]"]) in
      let url host :=
        let host := if is_one_of host ":"%byte && negb (starts_with host (bytes "[")) then bytes "[" ++ host ++ bytes "]" else host in
        let scheme := if (container_port =? 443) || (port =? 443) then bytes "https" else bytes "http" in
        scheme ++ bytes "://" ++ host ++ bytes ":" ++ u64_to_string port in
      match endpoint_browser_target endpoint_key with
      | BrowserLocal => url (if wildcard then bytes "localhost" else host_ip)
      | Remote host => url host
      | UnknownRemote => []
      end
  end.

(** ** The detail of a container *)
Record ContainerDetailView := mkContainerDetailView {
  dv_name : text;
  dv_id : text;
  dv_short_id : text;
  dv_image : text;
  dv_image_id : text;
  dv_state_name : text;
  dv_compose_project : text;
  dv_general : list PropertyViewRow;
  dv_state : list PropertyViewRow;
  dv_health : list PropertyViewRow;
  dv_ports : list PortViewRow;
  dv_mounts : list MountViewRow;
  dv_networks : list NetworkViewRow;
  dv_configuration : list PropertyViewRow;
  dv_environment : list EnvironmentViewRow;
  dv_labels : list PropertyViewRow;
}.

Section detail.
Context `{!TimeFormat}.

Definition general_rows (detail : ContainerDetail) : list PropertyViewRow :=
  let summary := cd_summary detail in
  [property "Name" (cs_name summary); property "ID" (cs_id summary); property "Image" (cs_image summary);
   property "Image ID" (cs_image_id summary); property "Created" (format_time (cs_created_at_opt summary));
   property "Platform" (value_of (cd_platform detail)); property "Hostname" (value_of (cd_hostname detail));
   property "Domain Name" (value_of (cd_domain_name detail));
   property "Working Directory" (value_of (cd_working_dir detail)); property "User" (value_of (cd_user detail))].

Definition state_rows (detail : ContainerDetail) : list PropertyViewRow :=
  let state := cd_state_detail detail in
  [property "Status" (cs_status (cd_summary detail)); boolean "Running" (csd_running state);
   boolean "Paused" (csd_paused state); boolean "Restarting" (csd_restarting state);
   boolean "OOM Killed" (csd_oom_killed state); boolean "Dead" (csd_dead state);
   property "Exit Code" (from_option i64_to_string dash (csd_exit_code state));
   property "Error" (value_of (csd_error state)); property "Started At" (format_time (csd_started_at state));
   property "Finished At" (format_time (csd_finished_at state));
   property "Restart Count" (u64_to_string (csd_restart_count state))].

Definition max_time (l : list DateTime) : option DateTime := max_by Z.compare l.

Definition health_rows (health : HealthStatus) : list PropertyViewRow :=
  let last := match hs_last_check health with Some t => Some t | None => max_time (omap hle_end (hs_log health)) end in
  [property "Status" (hs_status health);
   property "Failing Streak" (from_option i64_to_string dash (hs_failing_streak health));
   property "Last Check" (format_time last);
   property "Recent Health Logs" (join [x0a] (omap hle_output (hs_log health)))].

Definition port_view (endpoint_key : text) (port : PortBinding) : PortViewRow :=
  let host_ip := default [] (pb_host_ip port) in
  mkPortViewRow (u64_to_string (pb_container_port port)) (pb_protocol port) host_ip
    (from_option u64_to_string [] (pb_host_port port)) (port_is_published port)
    (browser_url_for_endpoint endpoint_key host_ip (pb_host_port port) (pb_container_port port)).

Definition mount_view (mount : ContainerMountSummary) : MountViewRow :=
  mkMountViewRow (cms_mount_type mount) (default [] (cms_source mount)) (cms_destination mount)
    (if cms_rw mount then bytes "Read/Write" else bytes "Read-only") (default [] (cms_propagation mount))
    (match mount_type_from_docker (cms_mount_type mount) with MountType_Volume => default [] (cms_name mount) | _ => [] end).

Definition network_view (network : ContainerNetworkSummary) : NetworkViewRow :=
  mkNetworkViewRow (cns_network_name network) (default [] (cns_network_id network)) (default [] (cns_ipv4 network))
    (default [] (cns_ipv6 network))
    (default [] (match cns_gateway network with Some g => Some g | None => cns_ipv6_gateway network end))
    (default [] (cns_mac network)) (join (bytes ", ") (cns_aliases network)) (default [] (cns_endpoint_id network)).

Definition configuration_rows (detail : ContainerDetail) : list PropertyViewRow :=
  [property "Entrypoint" (command (cd_entrypoint detail)); property "Command" (command (cd_command detail));
   property "Working Directory" (value_of (cd_working_dir detail)); property "User" (value_of (cd_user detail));
   property "Stop Signal" (value_of (cd_stop_signal detail));
   property "Stop Timeout" (from_option (fun s => i64_to_string s ++ bytes " seconds") dash (cd_stop_timeout_seconds detail));
   property "Restart Policy"
     (match rp_maximum_retry_count (cd_restart_policy detail) with
      | Some maximum => rp_name (cd_restart_policy detail) ++ bytes " (" ++ i64_to_string maximum ++ bytes ")"
      | None => rp_name (cd_restart_policy detail)
      end);
   boolean "Auto Remove" (cd_auto_remove detail); boolean "TTY" (cd_tty detail);
   boolean "Open Stdin" (cd_open_stdin detail); boolean "Read-only RootFS" (cd_read_only_rootfs detail);
   boolean "Privileged" (cd_privileged detail)].

Definition environment_rows (detail : ContainerDetail) : list EnvironmentViewRow :=
  sort_by (cmp_by (fun row => to_ascii_lowercase (env_key row)) bytes_cmp)
    ((fun v => mkEnvironmentViewRow (ev_name v) (default [] (ev_value v)) false) <$> cd_environment detail).

Definition from_detail_for_endpoint (detail : ContainerDetail) (endpoint_key : text) : ContainerDetailView :=
  let summary := cd_summary detail in
  mkContainerDetailView (cs_name summary) (cs_id summary) (cs_short_id summary) (cs_image summary) (cs_image_id summary)
    (runtime_as_str (cs_state summary)) (default [] (ccm_project_name <$> compose_metadata summary))
    (general_rows detail) (state_rows detail) (from_option health_rows [] (cd_health detail))
    (port_view endpoint_key <$> cs_ports summary) (mount_view <$> cd_mounts detail) (network_view <$> cd_networks detail)
    (configuration_rows detail) (environment_rows detail) (sorted_pairs (cs_labels summary)).
End detail.

Definition set_environment (self : ContainerDetailView) (env : list EnvironmentViewRow) : ContainerDetailView :=
  mkContainerDetailView (dv_name self) (dv_id self) (dv_short_id self) (dv_image self) (dv_image_id self)
    (dv_state_name self) (dv_compose_project self) (dv_general self) (dv_state self) (dv_health self) (dv_ports self)
    (dv_mounts self) (dv_networks self) (dv_configuration self) env (dv_labels self).

(** Reveal or conceal the value of a row, if it is not already. *)
Definition set_env_at (b : bool) (self : ContainerDetailView) (index : nat) : bool * ContainerDetailView :=
  match dv_environment self !! index with
  | None => (false, self)
  | Some row =>
      if bool_decide (env_revealed row = b) then (false, self)
      else (true, set_environment self (<[index := env_set_revealed b row]> (dv_environment self)))
  end.
Definition detail_reveal_environment := set_env_at true.
Definition detail_conceal_environment := set_env_at false.

(** ** The detail of a group *)
Record GroupMemberViewRow := mkGroupMemberViewRow {
  gm_id : text; gm_name : text; gm_service : text; gm_state : text; gm_image : text;
}.
Record ContainerGroupDetailView := mkContainerGroupDetailView {
  gd_id : text;
  gd_project_name : text;
  gd_status : text;
  gd_working_directory : text;
  gd_compose_files : text;
  gd_compose_version : text;
  gd_members : list GroupMemberViewRow;
  gd_metadata : list PropertyViewRow;
}.

(** [collect] into a map: a later entry of a key replaces an earlier one. *)
Definition collect_map {K V} `{Countable K} (l : list (K * V)) : gmap K V :=
  foldl (fun m '(k, v) => <[k := v]> m) ∅ l.

Definition by_id (summaries : list ContainerSummary) : gmap text ContainerSummary :=
  collect_map ((fun s => (cs_id s, s)) <$> summaries).

Definition group_member_view (summary : ContainerSummary) : GroupMemberViewRow :=
  mkGroupMemberViewRow (cs_id summary) (cs_name summary) (default [] (ccm_service <$> compose_metadata summary))
    (runtime_as_str (cs_state summary)) (cs_image summary).

Definition from_group (id : text) (group : ContainerGroupSummary) (summaries : list ContainerSummary)
  : ContainerGroupDetailView :=
  let status := running_status group in
  mkContainerGroupDetailView id (cgs_project_name group) status (default [] (cgs_working_directory group))
    (join [x0a] (cgs_config_files group)) (default [] (cgs_compose_version group))
    (group_member_view <$> omap (fun id => by_id summaries !! id) (cgs_containers group))
    [property "Project Name" (cgs_project_name group); property "Status" status;
     property "Containers" (u64_to_string (cgs_total_count group));
     property "Unhealthy" (u64_to_string (cgs_unhealthy_count group));
     property "Dev Containers" (u64_to_string (cgs_devcontainer_count group))].

(** ** Facts *)
Lemma is_one_of_spec cs b : is_one_of cs b = true ↔ b ∈ cs.
Proof.
  unfold is_one_of. rewrite existsb_exists. setoid_rewrite bool_decide_eq_true. rewrite list_elem_of_In. naive_solver.
Qed.

Lemma before_any_spec cs s : ∃ rest, s = before_any cs s ++ rest ∧ Forall (fun b => b ∉ cs) (before_any cs s).
Proof.
  induction s as [|b s (rest & Hs & Hf)]; [exists []; split; [done | constructor] |]. cbn.
  destruct (is_one_of cs b) eqn:E; [exists (b :: s); split; [done | constructor] |].
  exists rest. split; [cbn; by rewrite <- Hs |]. constructor; [| done]. rewrite <- is_one_of_spec. by rewrite E.
Qed.

Lemma before_any_sub cs s b : b ∈ before_any cs s → b ∈ s ∧ b ∉ cs.
Proof.
  intros Hb. destruct (before_any_spec cs s) as (rest & Hs & Hf). split; [rewrite Hs; apply elem_of_app; by left |].
  by apply (proj1 (list.Forall_forall _ _) Hf b).
Qed.

Lemma strip_userinfo_at s : "@"%byte ∉ strip_userinfo s.
Proof.
  unfold strip_userinfo. destruct (rfind _ s) as [i|] eqn:E; [| by apply rfind_None].
  apply rfind_Some in E as (l & r & -> & <- & Hr).
  by rewrite drop_app_ge, Nat.sub_succ_l, Nat.sub_diag by lia.
Qed.

Lemma strip_userinfo_sub s b : b ∈ strip_userinfo s → b ∈ s.
Proof.
  unfold strip_userinfo. destruct (rfind _ s) as [i|]; [| done]. intros Hb. rewrite <- (take_drop (S i) s).
  apply elem_of_app. by right.
Qed.

Lemma authority_target_sub authority host b : authority_target authority = Remote host → b ∈ host → b ∈ authority.
Proof.
  unfold authority_target. destruct (strip_prefix _ _) as [bracketed|] eqn:E.
  - apply strip_prefix_Some in E as ->. destruct (is_one_of _ _); [| done]. intros [= <-] Hb.
    apply before_any_sub in Hb as [Hb _]. apply elem_of_app. by right.
  - cbv zeta. destruct (count_byte _ _ <=? 1)%nat.
    + destruct (is_empty _); [done |]. intros [= <-] Hb. by apply before_any_sub in Hb as [Hb _].
    + destruct (is_empty _); [done |]. by intros [= <-].
Qed.

(** The host under which a port is opened never holds credentials or parts of a
    path of the endpoint: it has no [@], slash, question mark or hash. *)
Theorem browser_host_safe endpoint_key host :
  endpoint_browser_target endpoint_key = Remote host →
  Forall (fun b => b ∉ ["@"%byte; "/"%byte; "?"%byte; "#"%byte]) host.
Proof.
  unfold endpoint_browser_target. destruct (_ || _); [done |]. destruct (split_once _ _) as [[scheme remainder]|]; [| done].
  destruct (negb _); [done |]. intros Ht. apply list.Forall_forall. intros b Hb.
  pose proof (authority_target_sub _ _ _ Ht Hb) as Ha. intros [->|Hc]%elem_of_cons; [by apply (strip_userinfo_at _) in Ha |].
  apply strip_userinfo_sub, before_any_sub in Ha as [_ Ha]. set_solver.
Qed.

(** A fresh detail shows no environment value, and every variable has its row. *)
Lemma environment_rows_masked detail :
  Forall (fun row => env_revealed row = false ∧ masked_value row = mask) (environment_rows detail)
  ∧ (fun row => (env_key row, env_value row)) <$> environment_rows detail
    ≡ₚ (fun v => (ev_name v, default [] (ev_value v))) <$> cd_environment detail.
Proof.
  unfold environment_rows. rewrite (sort_by_perm _). split.
  - apply Forall_fmap, list.Forall_true. by intros v.
  - rewrite <- list_fmap_compose. done.
Qed.

(** Revealing a row shows that row's value and changes no other. *)
Lemma reveal_one self index self' :
  detail_reveal_environment self index = (true, self') →
  ∀ i, masked_value <$> dv_environment self' !! i
       = (if decide (i = index) then env_value else masked_value) <$> dv_environment self !! i.
Proof.
  unfold detail_reveal_environment, set_env_at. destruct (dv_environment self !! index) as [row|] eqn:E; [| done].
  case_bool_decide; [done |]. intros [= <-] i. cbn. case_decide as Hi.
  - subst. rewrite list_lookup_insert_eq by (by eapply lookup_lt_Some). by rewrite E.
  - by rewrite list_lookup_insert_ne.
Qed.
