(* ===== verification/ContainersPage.v ===== *)
(** The state machine of the container page (crates/gui/src/controllers/containers.rs):
    the list with its groups, search and order, the selection with its detail, and
    the operations in progress.

    The bridge sends the requests; a result comes back with the generation it was
    asked for under and is applied only while that is current.  Every method is a
    function of the state; [page_op] collects them for statements about every
    sequence. *)

From S2P Require Import Prelude Path Numbers Text Domain Protocol Compose DockerError ContainerModel.

Local Open Scope Z_scope.

#[export] Instance ContainerGroupId_eq_dec : EqDecision ContainerGroupId.
Proof. solve_decision. Defined.
#[export] Instance ContainerGroupId_countable : Countable ContainerGroupId.
Proof.
  refine (inj_countable' (fun g => (cgi_endpoint_key g, cgi_project_name g)) (fun p => Build_ContainerGroupId p.1 p.2) _).
  by intros [].
Defined.
#[export] Instance ContainerOperationState_eq_dec : EqDecision ContainerOperationState.
Proof. solve_decision. Defined.
#[export] Instance GroupOperationState_eq_dec : EqDecision GroupOperationState.
Proof. solve_decision. Defined.

Inductive ContainersListState := List_Loading | List_Ready | List_Empty | List_Error | List_DockerUnavailable | List_PermissionDenied.
Inductive ContainerDetailState := Detail_None | Detail_Loading | Detail_Ready | Detail_Error.
#[export] Instance ContainerDetailState_eq_dec : EqDecision ContainerDetailState.
Proof. solve_decision. Defined.

Inductive ContainerSelection :=
  | Select_None
  | Select_Group (group_id : ContainerGroupId)
  | Select_Container (container_id : text).
#[export] Instance ContainerSelection_eq_dec : EqDecision ContainerSelection.
Proof. solve_decision. Defined.

Inductive SelectionAction := Action_None | LoadContainer (generation : Z) | GroupReady (generation : Z).

Record OperationToken := mkOperationToken { token_generation : Z; token_operation : ContainerOperationState }.
#[export] Instance OperationToken_eq_dec : EqDecision OperationToken.
Proof. solve_decision. Defined.

Record GroupTargetResult := mkGroupTargetResult {
  gt_container_id : text; gt_container_name : text; gt_success : bool; gt_error : text;
}.
Record GroupOperationResult := mkGroupOperationResult {
  go_operation : GroupOperationState;
  go_targets : list GroupTargetResult;
}.

Definition success_count (self : GroupOperationResult) : Z := len (List.filter gt_success (go_targets self)).
Definition failure_count (self : GroupOperationResult) : Z := saturating_sub (len (go_targets self)) (success_count self).

Definition result_verb (operation : GroupOperationState) : text :=
  match operation with
  | Group_Starting => bytes "Started"
  | Group_Stopping => bytes "Stopped"
  | Group_Restarting => bytes "Restarted"
  | Group_Pausing => bytes "Paused"
  | Group_Unpausing => bytes "Resumed"
  | Group_Removing => bytes "Removed"
  | Group_Idle => bytes "Updated"
  end.

Definition result_message (self : GroupOperationResult) : text :=
  let failures := (fun t => gt_container_name t ++ bytes " " ++ dash ++ bytes " " ++ gt_error t)
                    <$> List.filter (fun t => negb (gt_success t)) (go_targets self) in
  result_verb (go_operation self) ++ bytes " " ++ u64_to_string (success_count self) ++ bytes " containers."
  ++ (if is_empty failures then []
      else bytes " " ++ u64_to_string (len failures) ++ bytes " failed: " ++ join (bytes "; ") failures).

(** ** The state *)
Record ContainersState := mkContainersState {
  endpoint_key : text;
  source_rows : list ContainerSummary;
  groups : list ContainerGroupSummary;
  visible_rows : list ContainerListRow;
  expanded_groups : gset ContainerGroupId;
  search_query : text;
  sort_mode : ContainerSortMode;
  selection : ContainerSelection;
  selection_generation : Z;
  refresh_generation : Z;
  operation_generation : Z;
  initialized : bool;
  refresh_in_progress : bool;
  list_state : ContainersListState;
  list_error_kind : text;
  list_error_message : text;
  detail_state : ContainerDetailState;
  detail_error_kind : text;
  detail_error_message : text;
  container_detail : option ContainerDetailView;
  group_detail : option ContainerGroupDetailView;
  operations : gmap text OperationToken;
  group_operations : gmap ContainerGroupId (Z * GroupOperationState);
  last_group_result : option GroupOperationResult;
  active_tab : text;
}.

Definition set_endpoint_key (v : text) (self : ContainersState) : ContainersState :=
  mkContainersState v (source_rows self) (groups self) (visible_rows self) (expanded_groups self)
    (search_query self) (sort_mode self) (selection self) (selection_generation self) (refresh_generation self)
    (operation_generation self) (initialized self) (refresh_in_progress self) (list_state self)
    (list_error_kind self) (list_error_message self) (detail_state self) (detail_error_kind self)
    (detail_error_message self) (container_detail self) (group_detail self) (operations self)
    (group_operations self) (last_group_result self) (active_tab self).
Definition set_source_rows (v : list ContainerSummary) (self : ContainersState) : ContainersState :=
  mkContainersState (endpoint_key self) v (groups self) (visible_rows self) (expanded_groups self)
    (search_query self) (sort_mode self) (selection self) (selection_generation self) (refresh_generation self)
    (operation_generation self) (initialized self) (refresh_in_progress self) (list_state self)
    (list_error_kind self) (list_error_message self) (detail_state self) (detail_error_kind self)
    (detail_error_message self) (container_detail self) (group_detail self) (operations self)
    (group_operations self) (last_group_result self) (active_tab self).
Definition set_groups (v : list ContainerGroupSummary) (self : ContainersState) : ContainersState :=
  mkContainersState (endpoint_key self) (source_rows self) v (visible_rows self) (expanded_groups self)
    (search_query self) (sort_mode self) (selection self) (selection_generation self) (refresh_generation self)
    (operation_generation self) (initialized self) (refresh_in_progress self) (list_state self)
    (list_error_kind self) (list_error_message self) (detail_state self) (detail_error_kind self)
    (detail_error_message self) (container_detail self) (group_detail self) (operations self)
    (group_operations self) (last_group_result self) (active_tab self).
Definition set_visible_rows (v : list ContainerListRow) (self : ContainersState) : ContainersState :=
  mkContainersState (endpoint_key self) (source_rows self) (groups self) v (expanded_groups self)
    (search_query self) (sort_mode self) (selection self) (selection_generation self) (refresh_generation self)
    (operation_generation self) (initialized self) (refresh_in_progress self) (list_state self)
    (list_error_kind self) (list_error_message self) (detail_state self) (detail_error_kind self)
    (detail_error_message self) (container_detail self) (group_detail self) (operations self)
    (group_operations self) (last_group_result self) (active_tab self).
Definition set_expanded_groups (v : gset ContainerGroupId) (self : ContainersState) : ContainersState :=
  mkContainersState (endpoint_key self) (source_rows self) (groups self) (visible_rows self) v
    (search_query self) (sort_mode self) (selection self) (selection_generation self) (refresh_generation self)
    (operation_generation self) (initialized self) (refresh_in_progress self) (list_state self)
    (list_error_kind self) (list_error_message self) (detail_state self) (detail_error_kind self)
    (detail_error_message self) (container_detail self) (group_detail self) (operations self)
    (group_operations self) (last_group_result self) (active_tab self).
Definition set_search_query (v : text) (self : ContainersState) : ContainersState :=
  mkContainersState (endpoint_key self) (source_rows self) (groups self) (visible_rows self)
    (expanded_groups self) v (sort_mode self) (selection self) (selection_generation self)
    (refresh_generation self) (operation_generation self) (initialized self) (refresh_in_progress self)
    (list_state self) (list_error_kind self) (list_error_message self) (detail_state self)
    (detail_error_kind self) (detail_error_message self) (container_detail self) (group_detail self)
    (operations self) (group_operations self) (last_group_result self) (active_tab self).
Definition set_sort_mode (v : ContainerSortMode) (self : ContainersState) : ContainersState :=
  mkContainersState (endpoint_key self) (source_rows self) (groups self) (visible_rows self)
    (expanded_groups self) (search_query self) v (selection self) (selection_generation self)
    (refresh_generation self) (operation_generation self) (initialized self) (refresh_in_progress self)
    (list_state self) (list_error_kind self) (list_error_message self) (detail_state self)
    (detail_error_kind self) (detail_error_message self) (container_detail self) (group_detail self)
    (operations self) (group_operations self) (last_group_result self) (active_tab self).
Definition set_selection (v : ContainerSelection) (self : ContainersState) : ContainersState :=
  mkContainersState (endpoint_key self) (source_rows self) (groups self) (visible_rows self)
    (expanded_groups self) (search_query self) (sort_mode self) v (selection_generation self)
    (refresh_generation self) (operation_generation self) (initialized self) (refresh_in_progress self)
    (list_state self) (list_error_kind self) (list_error_message self) (detail_state self)
    (detail_error_kind self) (detail_error_message self) (container_detail self) (group_detail self)
    (operations self) (group_operations self) (last_group_result self) (active_tab self).
Definition set_selection_generation (v : Z) (self : ContainersState) : ContainersState :=
  mkContainersState (endpoint_key self) (source_rows self) (groups self) (visible_rows self)
    (expanded_groups self) (search_query self) (sort_mode self) (selection self) v (refresh_generation self)
    (operation_generation self) (initialized self) (refresh_in_progress self) (list_state self)
    (list_error_kind self) (list_error_message self) (detail_state self) (detail_error_kind self)
    (detail_error_message self) (container_detail self) (group_detail self) (operations self)
    (group_operations self) (last_group_result self) (active_tab self).
Definition set_refresh_generation (v : Z) (self : ContainersState) : ContainersState :=
  mkContainersState (endpoint_key self) (source_rows self) (groups self) (visible_rows self)
    (expanded_groups self) (search_query self) (sort_mode self) (selection self) (selection_generation self) v
    (operation_generation self) (initialized self) (refresh_in_progress self) (list_state self)
    (list_error_kind self) (list_error_message self) (detail_state self) (detail_error_kind self)
    (detail_error_message self) (container_detail self) (group_detail self) (operations self)
    (group_operations self) (last_group_result self) (active_tab self).
Definition set_operation_generation (v : Z) (self : ContainersState) : ContainersState :=
  mkContainersState (endpoint_key self) (source_rows self) (groups self) (visible_rows self)
    (expanded_groups self) (search_query self) (sort_mode self) (selection self) (selection_generation self)
    (refresh_generation self) v (initialized self) (refresh_in_progress self) (list_state self)
    (list_error_kind self) (list_error_message self) (detail_state self) (detail_error_kind self)
    (detail_error_message self) (container_detail self) (group_detail self) (operations self)
    (group_operations self) (last_group_result self) (active_tab self).
Definition set_initialized (v : bool) (self : ContainersState) : ContainersState :=
  mkContainersState (endpoint_key self) (source_rows self) (groups self) (visible_rows self)
    (expanded_groups self) (search_query self) (sort_mode self) (selection self) (selection_generation self)
    (refresh_generation self) (operation_generation self) v (refresh_in_progress self) (list_state self)
    (list_error_kind self) (list_error_message self) (detail_state self) (detail_error_kind self)
    (detail_error_message self) (container_detail self) (group_detail self) (operations self)
    (group_operations self) (last_group_result self) (active_tab self).
Definition set_refresh_in_progress (v : bool) (self : ContainersState) : ContainersState :=
  mkContainersState (endpoint_key self) (source_rows self) (groups self) (visible_rows self)
    (expanded_groups self) (search_query self) (sort_mode self) (selection self) (selection_generation self)
    (refresh_generation self) (operation_generation self) (initialized self) v (list_state self)
    (list_error_kind self) (list_error_message self) (detail_state self) (detail_error_kind self)
    (detail_error_message self) (container_detail self) (group_detail self) (operations self)
    (group_operations self) (last_group_result self) (active_tab self).
Definition set_list_state (v : ContainersListState) (self : ContainersState) : ContainersState :=
  mkContainersState (endpoint_key self) (source_rows self) (groups self) (visible_rows self)
    (expanded_groups self) (search_query self) (sort_mode self) (selection self) (selection_generation self)
    (refresh_generation self) (operation_generation self) (initialized self) (refresh_in_progress self) v
    (list_error_kind self) (list_error_message self) (detail_state self) (detail_error_kind self)
    (detail_error_message self) (container_detail self) (group_detail self) (operations self)
    (group_operations self) (last_group_result self) (active_tab self).
Definition set_list_error_kind (v : text) (self : ContainersState) : ContainersState :=
  mkContainersState (endpoint_key self) (source_rows self) (groups self) (visible_rows self)
    (expanded_groups self) (search_query self) (sort_mode self) (selection self) (selection_generation self)
    (refresh_generation self) (operation_generation self) (initialized self) (refresh_in_progress self)
    (list_state self) v (list_error_message self) (detail_state self) (detail_error_kind self)
    (detail_error_message self) (container_detail self) (group_detail self) (operations self)
    (group_operations self) (last_group_result self) (active_tab self).
Definition set_list_error_message (v : text) (self : ContainersState) : ContainersState :=
  mkContainersState (endpoint_key self) (source_rows self) (groups self) (visible_rows self)
    (expanded_groups self) (search_query self) (sort_mode self) (selection self) (selection_generation self)
    (refresh_generation self) (operation_generation self) (initialized self) (refresh_in_progress self)
    (list_state self) (list_error_kind self) v (detail_state self) (detail_error_kind self)
    (detail_error_message self) (container_detail self) (group_detail self) (operations self)
    (group_operations self) (last_group_result self) (active_tab self).
Definition set_detail_state (v : ContainerDetailState) (self : ContainersState) : ContainersState :=
  mkContainersState (endpoint_key self) (source_rows self) (groups self) (visible_rows self)
    (expanded_groups self) (search_query self) (sort_mode self) (selection self) (selection_generation self)
    (refresh_generation self) (operation_generation self) (initialized self) (refresh_in_progress self)
    (list_state self) (list_error_kind self) (list_error_message self) v (detail_error_kind self)
    (detail_error_message self) (container_detail self) (group_detail self) (operations self)
    (group_operations self) (last_group_result self) (active_tab self).
Definition set_detail_error_kind (v : text) (self : ContainersState) : ContainersState :=
  mkContainersState (endpoint_key self) (source_rows self) (groups self) (visible_rows self)
    (expanded_groups self) (search_query self) (sort_mode self) (selection self) (selection_generation self)
    (refresh_generation self) (operation_generation self) (initialized self) (refresh_in_progress self)
    (list_state self) (list_error_kind self) (list_error_message self) (detail_state self) v
    (detail_error_message self) (container_detail self) (group_detail self) (operations self)
    (group_operations self) (last_group_result self) (active_tab self).
Definition set_detail_error_message (v : text) (self : ContainersState) : ContainersState :=
  mkContainersState (endpoint_key self) (source_rows self) (groups self) (visible_rows self)
    (expanded_groups self) (search_query self) (sort_mode self) (selection self) (selection_generation self)
    (refresh_generation self) (operation_generation self) (initialized self) (refresh_in_progress self)
    (list_state self) (list_error_kind self) (list_error_message self) (detail_state self)
    (detail_error_kind self) v (container_detail self) (group_detail self) (operations self)
    (group_operations self) (last_group_result self) (active_tab self).
Definition set_container_detail (v : option ContainerDetailView) (self : ContainersState) : ContainersState :=
  mkContainersState (endpoint_key self) (source_rows self) (groups self) (visible_rows self)
    (expanded_groups self) (search_query self) (sort_mode self) (selection self) (selection_generation self)
    (refresh_generation self) (operation_generation self) (initialized self) (refresh_in_progress self)
    (list_state self) (list_error_kind self) (list_error_message self) (detail_state self)
    (detail_error_kind self) (detail_error_message self) v (group_detail self) (operations self)
    (group_operations self) (last_group_result self) (active_tab self).
Definition set_group_detail (v : option ContainerGroupDetailView) (self : ContainersState) : ContainersState :=
  mkContainersState (endpoint_key self) (source_rows self) (groups self) (visible_rows self)
    (expanded_groups self) (search_query self) (sort_mode self) (selection self) (selection_generation self)
    (refresh_generation self) (operation_generation self) (initialized self) (refresh_in_progress self)
    (list_state self) (list_error_kind self) (list_error_message self) (detail_state self)
    (detail_error_kind self) (detail_error_message self) (container_detail self) v (operations self)
    (group_operations self) (last_group_result self) (active_tab self).
Definition set_operations (v : gmap text OperationToken) (self : ContainersState) : ContainersState :=
  mkContainersState (endpoint_key self) (source_rows self) (groups self) (visible_rows self)
    (expanded_groups self) (search_query self) (sort_mode self) (selection self) (selection_generation self)
    (refresh_generation self) (operation_generation self) (initialized self) (refresh_in_progress self)
    (list_state self) (list_error_kind self) (list_error_message self) (detail_state self)
    (detail_error_kind self) (detail_error_message self) (container_detail self) (group_detail self) v
    (group_operations self) (last_group_result self) (active_tab self).
Definition set_group_operations (v : gmap ContainerGroupId (Z * GroupOperationState)) (self : ContainersState) : ContainersState :=
  mkContainersState (endpoint_key self) (source_rows self) (groups self) (visible_rows self)
    (expanded_groups self) (search_query self) (sort_mode self) (selection self) (selection_generation self)
    (refresh_generation self) (operation_generation self) (initialized self) (refresh_in_progress self)
    (list_state self) (list_error_kind self) (list_error_message self) (detail_state self)
    (detail_error_kind self) (detail_error_message self) (container_detail self) (group_detail self)
    (operations self) v (last_group_result self) (active_tab self).
Definition set_last_group_result (v : option GroupOperationResult) (self : ContainersState) : ContainersState :=
  mkContainersState (endpoint_key self) (source_rows self) (groups self) (visible_rows self)
    (expanded_groups self) (search_query self) (sort_mode self) (selection self) (selection_generation self)
    (refresh_generation self) (operation_generation self) (initialized self) (refresh_in_progress self)
    (list_state self) (list_error_kind self) (list_error_message self) (detail_state self)
    (detail_error_kind self) (detail_error_message self) (container_detail self) (group_detail self)
    (operations self) (group_operations self) v (active_tab self).
Definition set_active_tab (v : text) (self : ContainersState) : ContainersState :=
  mkContainersState (endpoint_key self) (source_rows self) (groups self) (visible_rows self)
    (expanded_groups self) (search_query self) (sort_mode self) (selection self) (selection_generation self)
    (refresh_generation self) (operation_generation self) (initialized self) (refresh_in_progress self)
    (list_state self) (list_error_kind self) (list_error_message self) (detail_state self)
    (detail_error_kind self) (detail_error_message self) (container_detail self) (group_detail self)
    (operations self) (group_operations self) (last_group_result self) v.

Definition ContainersState_new (endpoint_key : text) : ContainersState :=
  mkContainersState endpoint_key [] [] [] ∅ [] Mode_RunningFirst Select_None 0 0 0 false false List_Loading [] []
    Detail_None [] [] None None ∅ ∅ None (bytes "info").

(** ** Names and orders *)

(** [format!("{}:{}{}", …)]: the length tells where the endpoint ends. *)
Definition opaque_group_id (group_id : ContainerGroupId) : text :=
  u64_to_string (len (cgi_endpoint_key group_id)) ++ bytes ":" ++ cgi_endpoint_key group_id ++ cgi_project_name group_id.

Definition group_operation_name (operation : GroupOperationState) : text :=
  match operation with
  | Group_Idle => []
  | Group_Starting => bytes "starting"
  | Group_Stopping => bytes "stopping"
  | Group_Restarting => bytes "restarting"
  | Group_Pausing => bytes "pausing"
  | Group_Unpausing => bytes "unpausing"
  | Group_Removing => bytes "removing"
  end.

Definition group_operation_applies (state : ContainerRuntimeState) (operation : GroupOperationState) : bool :=
  match operation with
  | Group_Starting => runtime_is_stopped state
  | Group_Stopping => runtime_is_active state
  | Group_Restarting | Group_Removing => true
  | Group_Pausing => bool_decide (state = Runtime_Running)
  | Group_Unpausing => bool_decide (state = Runtime_Paused)
  | Group_Idle => false
  end.

Definition active_rank (state : ContainerRuntimeState) : Z :=
  match state with Runtime_Running => 0 | Runtime_Restarting => 1 | Runtime_Paused => 2 | _ => 3 end.

Inductive TopLevelItem := GroupItem (group : ContainerGroupSummary) | ContainerItem (summary : ContainerSummary).

Definition is_group_item (item : TopLevelItem) : bool := match item with GroupItem _ => true | _ => false end.
Definition item_name (item : TopLevelItem) : text :=
  match item with GroupItem group => cgs_display_name group | ContainerItem summary => cs_name summary end.
Definition item_id (item : TopLevelItem) : text :=
  match item with GroupItem group => opaque_group_id (cgs_id group) | ContainerItem summary => cs_id summary end.
(** Zero is the Unix epoch. *)
Definition item_created (summaries : gmap text ContainerSummary) (item : TopLevelItem) : DateTime :=
  match item with
  | ContainerItem summary => cs_created_at summary
  | GroupItem group =>
      default 0 (max_by Z.compare (omap (fun id => cs_created_at <$> summaries !! id) (cgs_containers group)))
  end.

Definition item_name_cmp : TopLevelItem → TopLevelItem → comparison :=
  cmp_then (cmp_by (fun i => to_ascii_lowercase (item_name i)) bytes_cmp) (cmp_by item_id bytes_cmp).

Definition compare_top_level (sort : ContainerSortMode) (summaries : gmap text ContainerSummary)
  : TopLevelItem → TopLevelItem → comparison :=
  match sort with
  | Mode_NameAscending => item_name_cmp
  | Mode_NameDescending => cmp_rev item_name_cmp
  | Mode_NewestFirst => cmp_then (cmp_rev (cmp_by (item_created summaries) Z.compare)) item_name_cmp
  | Mode_OldestFirst => cmp_then (cmp_by (item_created summaries) Z.compare) item_name_cmp
  | Mode_RunningFirst | Mode_StoppedFirst | Mode_ComposeGroupsFirst =>
      cmp_then (cmp_rev (cmp_by is_group_item bool_cmp)) item_name_cmp
  | Mode_IndividualContainersFirst => cmp_then (cmp_by is_group_item bool_cmp) item_name_cmp
  end.

Definition member_row_cmp (sort : ContainerSortMode) : ContainerSummary → ContainerSummary → comparison :=
  let name := cmp_then (cmp_by (fun c => to_ascii_lowercase (cs_name c)) bytes_cmp) (cmp_by cs_id bytes_cmp) in
  match sort with
  | Mode_NameDescending => cmp_rev name
  | Mode_NewestFirst => cmp_then (cmp_rev (cmp_by cs_created_at Z.compare)) name
  | Mode_OldestFirst => cmp_then (cmp_by cs_created_at Z.compare) name
  | Mode_StoppedFirst => cmp_then (cmp_rev (cmp_by (fun c => active_rank (cs_state c)) Z.compare)) name
  | Mode_RunningFirst => cmp_then (cmp_by (fun c => active_rank (cs_state c)) Z.compare) name
  | _ => name
  end.
Definition sort_member_rows (rows : list ContainerSummary) (sort : ContainerSortMode) : list ContainerSummary :=
  sort_by (member_row_cmp sort) rows.

(** ** The flattened list *)
Definition section_order (self : ContainersState) : list ContainerSection :=
  match sort_mode self with
  | Mode_StoppedFirst => [Sec_Stopped; Sec_Paused; Sec_Restarting; Sec_Running]
  | _ => DISPLAY_ORDER
  end.

Definition member_to_group (self : ContainersState) : gmap text ContainerGroupId :=
  collect_map (groups self ≫= fun group => (fun id => (id, cgs_id group)) <$> cgs_containers group).

Definition query_of (self : ContainersState) : text := trim (search_query self).
Definition summary_matches (self : ContainersState) (summary : ContainerSummary) : bool :=
  is_empty (query_of self) || container_matches_search summary (query_of self).
Definition group_matches (self : ContainersState) (group : ContainerGroupSummary) : bool :=
  is_empty (query_of self)
  || str_contains (to_ascii_lowercase (cgs_project_name group)) (to_ascii_lowercase (query_of self)).

(** The entry of a group in [matching_members]: its members that match, in the
    order of the source rows. *)
Definition matching_members (self : ContainersState) (group_id : ContainerGroupId) : list ContainerSummary :=
  List.filter (fun s => bool_decide (member_to_group self !! cs_id s = Some group_id) && summary_matches self s)
    (source_rows self).

Definition group_shown (self : ContainersState) (group : ContainerGroupSummary) : bool :=
  group_matches self group || negb (is_empty (matching_members self (cgs_id group))).

(** A search expands the groups that have matching members. *)
Definition search_expands (self : ContainersState) (group : ContainerGroupSummary) : bool :=
  negb (is_empty (query_of self)) && negb (is_empty (matching_members self (cgs_id group))).
Definition expand_for_search (self : ContainersState) : ContainersState :=
  set_expanded_groups
    (foldl (fun expanded group => if search_expands self group then {[cgs_id group]} ∪ expanded else expanded)
       (expanded_groups self) (groups self)) self.

Definition section_items (self : ContainersState) (section : ContainerSection) : list TopLevelItem :=
  sort_by (compare_top_level (sort_mode self) (by_id (source_rows self)))
    ((GroupItem <$> List.filter (fun g => group_shown self g && bool_decide (section_from_group g = section)) (groups self))
     ++ (ContainerItem <$> List.filter (fun s => negb (bool_decide (is_Some (member_to_group self !! cs_id s)))
                             && summary_matches self s && bool_decide (section_from_state (cs_state s) = section))
                             (source_rows self))).

Definition container_selected (self : ContainersState) (summary : ContainerSummary) : bool :=
  bool_decide (selection self = Select_Container (cs_id summary)).
Definition container_operation (self : ContainersState) (summary : ContainerSummary) : ContainerOperationState :=
  from_option token_operation Operation_Idle (operations self !! cs_id summary).

(** The members listed below an expanded group. *)
Definition group_members (self : ContainersState) (group : ContainerGroupSummary) : list ContainerSummary :=
  sort_member_rows
    (if group_matches self group then omap (fun id => by_id (source_rows self) !! id) (cgs_containers group)
     else matching_members self (cgs_id group)) (sort_mode self).

Definition item_rows (self : ContainersState) (section : ContainerSection) (item : TopLevelItem) : list ContainerListRow :=
  match item with
  | GroupItem group =>
      let id := opaque_group_id (cgs_id group) in
      let expanded := bool_decide (cgs_id group ∈ expanded_groups self) in
      group_row group id expanded (bool_decide (selection self = Select_Group (cgs_id group)))
        (from_option (fun o => group_operation_name o.2) [] (group_operations self !! cgs_id group))
      :: (if expanded
          then (fun s => container_row s ContainerChild section id (container_selected self s) (container_operation self s))
                 <$> group_members self group
          else [])
  | ContainerItem s =>
      [container_row s Individual section [] (container_selected self s) (container_operation self s)]
  end.

Definition section_rows (self : ContainersState) (section : ContainerSection) : list ContainerListRow :=
  let items := section_items self section in
  if is_empty items then [] else section_header section (len items) :: (items ≫= item_rows self section).

Definition listing (self : ContainersState) : list ContainerListRow := section_order self ≫= section_rows self.

Definition rebuild_visible (self : ContainersState) : ContainersState :=
  let self := expand_for_search self in set_visible_rows (listing self) self.

(** ** Errors *)
Inductive ErrorContext := Context_List | Context_Detail | Context_Operation.

Definition friendly_error (error : DaemonError) (context : ErrorContext) : ContainersListState * text * text :=
  match error with
  | Cli_SocketNotFound _ | Cli_EngineUnavailable =>
      (List_DockerUnavailable, bytes "docker_unavailable",
       bytes "Docker Engine is unavailable. Check that Docker is running and try again.")
  | Cli_PermissionDenied =>
      (List_PermissionDenied, bytes "permission_denied",
       bytes "Permission denied while accessing Docker. Check Docker socket permissions.")
  | Cli_ConnectionTimeout | Cli_OperationTimeout =>
      (List_Error, bytes "timeout", bytes "The Docker container request timed out. Try again.")
  | Cli_ContainerNotFound _ =>
      (List_Error, bytes "container_not_found", bytes "This container no longer exists. Refresh the container list.")
  | Cli_Conflict message =>
      (List_Error, bytes "conflict", bytes "Docker rejected the container operation: " ++ message)
  | Cli_InvalidContainerConfig message =>
      (List_Error, bytes "invalid_container", bytes "Docker rejected the container configuration: " ++ message)
  | other =>
      match context with
      | Context_Operation =>
          (List_Error, bytes "container_operation_failed",
           bytes "Docker could not complete the container operation: " ++ DaemonError_to_string other)
      | Context_Detail => (List_Error, bytes "detail_failed", bytes "Container information is unavailable. Try again.")
      | Context_List => (List_Error, bytes "docker", bytes "Could not load Docker containers. Try again.")
      end
  end.

Definition wrapping_succ (g : Z) : Z := wrapping_add 64 g 1.

Section page.
Context {HO : HashOrder} `{!TimeFormat}.
Implicit Types self : ContainersState.

(** ** Selection *)
Definition reset_selection_states self : ContainersState :=
  set_active_tab (bytes "info") (set_detail_error_message [] (set_detail_error_kind []
    (set_detail_state Detail_None (set_group_detail None (set_container_detail None self))))).

Definition find_group self (group_id : ContainerGroupId) : option ContainerGroupSummary :=
  List.find (fun g => bool_decide (cgs_id g = group_id)) (groups self).

Definition build_group_detail self (group_id : ContainerGroupId) : ContainersState :=
  match find_group self group_id with
  | None => set_detail_state Detail_Error (set_group_detail None self)
  | Some group =>
      set_detail_state Detail_Ready (set_container_detail None
        (set_group_detail (Some (from_group (opaque_group_id group_id) group (source_rows self))) self))
  end.

Definition set_selection_to self (new : ContainerSelection) : SelectionAction * ContainersState :=
  if bool_decide (selection self = new) then (Action_None, self)
  else
    let self := set_selection_generation (wrapping_succ (selection_generation self)) (set_selection new self) in
    let self := reset_selection_states self in
    let '(action, self) :=
      match new with
      | Select_None => (Action_None, self)
      | Select_Container _ => (LoadContainer (selection_generation self), set_detail_state Detail_Loading self)
      | Select_Group group_id => (GroupReady (selection_generation self), build_group_detail self group_id)
      end in
    (action, rebuild_visible self).

Definition group_id_from_opaque self (opaque : text) : option ContainerGroupId :=
  cgs_id <$> List.find (fun g => bool_decide (opaque_group_id (cgs_id g) = opaque)) (groups self).

Definition select_row self (opaque_id : text) : SelectionAction * ContainersState :=
  match List.find (fun row => bool_decide (row_id row = opaque_id) && selectable row) (visible_rows self) with
  | None => (Action_None, self)
  | Some row =>
      let desired :=
        match row_kind row with
        | GroupRow => Select_Group <$> group_id_from_opaque self opaque_id
        | ContainerChild | Individual => Some (Select_Container opaque_id)
        | SectionHeader => None
        end in
      match desired with
      | None => (Action_None, self)
      | Some desired => set_selection_to self (if bool_decide (selection self = desired) then Select_None else desired)
      end
  end.

Definition has_container self (container_id : text) : bool :=
  existsb (fun row => bool_decide (cs_id row = container_id)) (source_rows self).

Definition select_container self (container_id : text) : SelectionAction * ContainersState :=
  if negb (has_container self container_id) then (Action_None, self)
  else set_selection_to self (Select_Container container_id).

Definition reload_detail self : SelectionAction * ContainersState :=
  match selection self with
  | Select_None => (Action_None, self)
  | Select_Container _ =>
      if bool_decide (detail_state self = Detail_Loading) then (Action_None, self)
      else
        let self := set_detail_state Detail_Loading (reset_selection_states self) in
        (LoadContainer (selection_generation self), self)
  | Select_Group group_id =>
      let self := build_group_detail (reset_selection_states self) group_id in
      (GroupReady (selection_generation self), self)
  end.

Definition clear_selection self : bool * ContainersState :=
  if bool_decide (selection self = Select_None) then (false, self)
  else (true, (set_selection_to self Select_None).2).

(** ** The list *)
Definition initialize self : bool * ContainersState :=
  if initialized self then (false, self) else (true, set_initialized true self).

Definition set_endpoint_key_to self (key : text) : ContainersState :=
  if bool_decide (endpoint_key self = key) then self
  else
    let self := set_expanded_groups ∅ (set_endpoint_key key self) in
    let self := (set_selection_to self Select_None).2 in
    let self := set_groups (group_compose_containers (endpoint_key self) (source_rows self)) self in
    rebuild_visible self.

Definition begin_refresh self : Z * ContainersState :=
  let self := set_refresh_generation (wrapping_succ (refresh_generation self)) self in
  let self := set_list_error_message [] (set_list_error_kind [] (set_refresh_in_progress true self)) in
  let self := if is_empty (source_rows self) then set_list_state List_Loading self else self in
  (refresh_generation self, self).

Definition selection_still_exists self : bool :=
  match selection self with
  | Select_None => true
  | Select_Container container_id => has_container self container_id
  | Select_Group group_id => bool_decide (is_Some (find_group self group_id))
  end.

Definition retain_expanded self : ContainersState :=
  set_expanded_groups (filter (fun id => is_Some (find_group self id)) (expanded_groups self)) self.

Definition replace_source self (summaries : list ContainerSummary) : ContainersState :=
  let self := set_source_rows summaries self in
  let self := set_groups (group_compose_containers (endpoint_key self) (source_rows self)) self in
  let self := retain_expanded self in
  let self :=
    if negb (selection_still_exists self) then (set_selection_to self Select_None).2
    else match selection self with Select_Group group_id => build_group_detail self group_id | _ => self end in
  rebuild_visible self.

Definition ready_or_empty self : ContainersState :=
  set_list_state (if is_empty (source_rows self) then List_Empty else List_Ready) self.

Definition apply_live self (generation : Z) (summaries : list ContainerSummary) : bool * ContainersState :=
  if negb (generation =? refresh_generation self) then (false, self)
  else
    let self := ready_or_empty (set_refresh_in_progress false (replace_source self summaries)) in
    (true, set_list_error_message [] (set_list_error_kind [] self)).

Definition apply_list_error self (generation : Z) (error : DaemonError) : bool * ContainersState :=
  if negb (generation =? refresh_generation self) then (false, self)
  else
    let '(state, kind, message) := friendly_error error Context_List in
    let self := set_visible_rows [] (set_groups [] (set_source_rows [] (set_refresh_in_progress false self))) in
    let self := (set_selection_to self Select_None).2 in
    (true, set_list_error_message message (set_list_error_kind kind (set_list_state state self))).

Definition set_search self (query : text) : ContainersState := rebuild_visible (set_search_query (trim query) self).
Definition set_sort self (sort : ContainerSortMode) : ContainersState := rebuild_visible (set_sort_mode sort self).

Definition toggle_group self (opaque_group_id : text) : bool * ContainersState :=
  match group_id_from_opaque self opaque_group_id with
  | None => (false, self)
  | Some group_id =>
      let expanded := if decide (group_id ∈ expanded_groups self) then expanded_groups self ∖ {[group_id]}
                      else {[group_id]} ∪ expanded_groups self in
      (true, rebuild_visible (set_expanded_groups expanded self))
  end.

(** ** Details *)
Definition apply_detail self (generation : Z) (detail : ContainerDetail) : bool * ContainersState :=
  if negb (generation =? selection_generation self)
     || negb (bool_decide (selection self = Select_Container (cs_id (cd_summary detail)))) then (false, self)
  else
    (true, set_detail_error_message [] (set_detail_error_kind [] (set_detail_state Detail_Ready (set_group_detail None
       (set_container_detail (Some (from_detail_for_endpoint detail (endpoint_key self))) self))))).

Definition container_is_selected self : bool := match selection self with Select_Container _ => true | _ => false end.

Definition apply_detail_error self (generation : Z) (error : DaemonError) : bool * ContainersState :=
  if negb (generation =? selection_generation self) || negb (container_is_selected self) then (false, self)
  else
    let '(_, kind, message) := friendly_error error Context_Detail in
    (true, set_detail_error_message message (set_detail_error_kind kind (set_detail_state Detail_Error
       (set_container_detail None self)))).

Definition set_environment_at (f : ContainerDetailView → nat → bool * ContainerDetailView) self (index : nat)
  : bool * ContainersState :=
  match container_detail self with
  | None => (false, self)
  | Some detail => let '(r, detail) := f detail index in (r, set_container_detail (Some detail) self)
  end.
Definition reveal_environment := set_environment_at detail_reveal_environment.
Definition conceal_environment := set_environment_at detail_conceal_environment.

(** ** Operations *)
Definition begin_operation self (container_id : text) (operation : ContainerOperationState) : option Z * ContainersState :=
  if bool_decide (operation = Operation_Idle) || negb (has_container self container_id)
     || bool_decide (is_Some (operations self !! container_id)) then (None, self)
  else
    let self := set_operation_generation (wrapping_succ (operation_generation self)) self in
    let generation := operation_generation self in
    let self := set_operations (<[container_id := mkOperationToken generation operation]> (operations self)) self in
    (Some generation, rebuild_visible self).

Definition finish_operation self (container_id : text) (generation : Z) (operation : ContainerOperationState)
  : bool * ContainersState :=
  if negb (bool_decide (operations self !! container_id = Some (mkOperationToken generation operation))) then (false, self)
  else (true, rebuild_visible (set_operations (delete container_id (operations self)) self)).

Definition fail_operation self (container_id : text) (generation : Z) (operation : ContainerOperationState)
  (error : DaemonError) : bool * ContainersState :=
  let '(done, self) := finish_operation self container_id generation operation in
  if negb done then (false, self)
  else
    let '(_, kind, message) := friendly_error error Context_Operation in
    (true, set_list_error_message message (set_list_error_kind kind self)).

Definition group_targets self (group : ContainerGroupSummary) (operation : GroupOperationState) : list text :=
  cs_id <$> List.filter (fun row => group_operation_applies (cs_state row) operation)
    (omap (fun id => List.find (fun row => bool_decide (cs_id row = id)) (source_rows self)) (cgs_containers group)).

Definition begin_group_operation self (opaque_group_id : text) (operation : GroupOperationState)
  : option (Z * list text) * ContainersState :=
  if bool_decide (operation = Group_Idle) then (None, self)
  else
    match group_id_from_opaque self opaque_group_id with
    | None => (None, self)
    | Some group_id =>
        if bool_decide (is_Some (group_operations self !! group_id)) then (None, self)
        else
          match find_group self group_id with
          | None => (None, self)
          | Some group =>
              let targets := group_targets self group operation in
              if is_empty targets then (None, self)
              else
                let self := set_operation_generation (wrapping_succ (operation_generation self)) self in
                let generation := operation_generation self in
                let self := set_group_operations (<[group_id := (generation, operation)]> (group_operations self)) self in
                (Some (generation, targets), rebuild_visible (set_last_group_result None self))
          end
    end.

Definition finish_group_operation self (opaque_group_id : text) (generation : Z) (result : GroupOperationResult)
  : bool * ContainersState :=
  match group_id_from_opaque self opaque_group_id with
  | None => (false, self)
  | Some group_id =>
      if negb (bool_decide (group_operations self !! group_id = Some (generation, go_operation result))) then (false, self)
      else
        (true, rebuild_visible (set_last_group_result (Some result)
           (set_group_operations (delete group_id (group_operations self)) self)))
  end.

Definition selection_id self : text :=
  match selection self with
  | Select_None => []
  | Select_Group group_id => opaque_group_id group_id
  | Select_Container container_id => container_id
  end.

Definition selection_row_index self : option nat :=
  fst <$> list_find (fun row => row_id row = selection_id self) (visible_rows self).

(** The selected container, or every member of the selected group, is removed. *)
Definition selection_removed self (ids : list text) : bool :=
  match selection self with
  | Select_None => false
  | Select_Container container_id => bool_decide (container_id ∈ ids)
  | Select_Group group_id =>
      match find_group self group_id with
      | Some group => forallb (fun id => bool_decide (id ∈ ids)) (cgs_containers group)
      | None => false
      end
  end.

(** The next selectable row at or after the index, else the nearest before it. *)
Definition neighbour self (old_index : nat) : option text :=
  let i := Nat.min old_index (length (visible_rows self)) in
  row_id <$> List.find selectable (drop i (visible_rows self) ++ rev (take i (visible_rows self))).

Definition remove_local_many self (ids : list text) : SelectionAction * ContainersState :=
  let old_index := default O (selection_row_index self) in
  let selected_removed := selection_removed self ids in
  let self := set_source_rows (List.filter (fun row => negb (bool_decide (cs_id row ∈ ids))) (source_rows self)) self in
  let self := set_operations (foldl (fun m id => delete id m) (operations self) ids) self in
  let self := set_groups (group_compose_containers (endpoint_key self) (source_rows self)) self in
  let self := ready_or_empty (rebuild_visible (retain_expanded self)) in
  if negb selected_removed then (Action_None, self)
  else
    match neighbour self old_index with
    | Some id => select_row self id
    | None => set_selection_to self Select_None
    end.

(** ** Counts *)
Definition total_count self : Z := len (source_rows self).
Definition in_state_count self (state : ContainerRuntimeState) : Z :=
  len (List.filter (fun row => bool_decide (cs_state row = state)) (source_rows self)).
Definition running_count self : Z := in_state_count self Runtime_Running.
Definition paused_count self : Z := in_state_count self Runtime_Paused.
Definition stopped_count self : Z := saturating_sub (total_count self) (running_count self + paused_count self).

(** ** Sequences of operations *)
Inductive page_op :=
  | PInitialize
  | PEndpoint (key : text)
  | PBeginRefresh
  | PLive (generation : Z) (summaries : list ContainerSummary)
  | PListError (generation : Z) (error : DaemonError)
  | PSearch (query : text)
  | PSort (sort : ContainerSortMode)
  | PToggle (opaque : text)
  | PSelectRow (opaque : text)
  | PSelectContainer (container_id : text)
  | PReload
  | PClearSelection
  | PDetail (generation : Z) (detail : ContainerDetail)
  | PDetailError (generation : Z) (error : DaemonError)
  | PReveal (index : nat)
  | PConceal (index : nat)
  | PBegin (container_id : text) (operation : ContainerOperationState)
  | PFinish (container_id : text) (generation : Z) (operation : ContainerOperationState)
  | PFail (container_id : text) (generation : Z) (operation : ContainerOperationState) (error : DaemonError)
  | PBeginGroup (opaque : text) (operation : GroupOperationState)
  | PFinishGroup (opaque : text) (generation : Z) (result : GroupOperationResult)
  | PRemove (ids : list text).

Definition page_step self (op : page_op) : ContainersState :=
  match op with
  | PInitialize => (initialize self).2
  | PEndpoint key => set_endpoint_key_to self key
  | PBeginRefresh => (begin_refresh self).2
  | PLive generation summaries => (apply_live self generation summaries).2
  | PListError generation error => (apply_list_error self generation error).2
  | PSearch query => set_search self query
  | PSort sort => set_sort self sort
  | PToggle opaque => (toggle_group self opaque).2
  | PSelectRow opaque => (select_row self opaque).2
  | PSelectContainer container_id => (select_container self container_id).2
  | PReload => (reload_detail self).2
  | PClearSelection => (clear_selection self).2
  | PDetail generation detail => (apply_detail self generation detail).2
  | PDetailError generation error => (apply_detail_error self generation error).2
  | PReveal index => (reveal_environment self index).2
  | PConceal index => (conceal_environment self index).2
  | PBegin container_id operation => (begin_operation self container_id operation).2
  | PFinish container_id generation operation => (finish_operation self container_id generation operation).2
  | PFail container_id generation operation error => (fail_operation self container_id generation operation error).2
  | PBeginGroup opaque operation => (begin_group_operation self opaque operation).2
  | PFinishGroup opaque generation result => (finish_group_operation self opaque generation result).2
  | PRemove ids => (remove_local_many self ids).2
  end.
Definition page_run (key : text) (ops : list page_op) : ContainersState := foldl page_step (ContainersState_new key) ops.
End page.

(** ** The list is a function of the state *)
Lemma listing_ext s s' :
  source_rows s = source_rows s' → groups s = groups s' → expanded_groups s = expanded_groups s' →
  search_query s = search_query s' → sort_mode s = sort_mode s' → selection s = selection s' →
  operations s = operations s' → group_operations s = group_operations s' → listing s = listing s'.
Proof.
  intros H1 H2 H3 H4 H5 H6 H7 H8.
  assert (member_to_group s = member_to_group s') as Hm by (unfold member_to_group; by rewrite H2).
  assert (∀ x, summary_matches s x = summary_matches s' x) as Hs by (intros x; unfold summary_matches, query_of; by rewrite H4).
  assert (∀ g, group_matches s g = group_matches s' g) as Hg by (intros g; unfold group_matches, query_of; by rewrite H4).
  assert (∀ id, matching_members s id = matching_members s' id) as Hmm.
  { intros id. unfold matching_members. rewrite H1, Hm. apply List.filter_ext. intros x. by rewrite Hs. }
  assert (∀ sec, section_items s sec = section_items s' sec) as Hi.
  { intros sec. unfold section_items. rewrite H1, H2, H5, Hm. f_equal. f_equal; f_equal; apply List.filter_ext; intros x.
    - unfold group_shown. by rewrite Hg, Hmm.
    - by rewrite Hs. }
  unfold listing, section_order. rewrite H5. apply list_bind_ext; [| done]. intros sec.
  unfold section_rows. rewrite Hi. destruct (is_empty _); [done |]. f_equal. apply list_bind_ext; [| done]. intros item.
  unfold item_rows, container_selected, container_operation, group_members, sort_member_rows.
  destruct item as [g|c]; rewrite ?H1, ?H3, ?H5, ?H6, ?H7, ?H8, ?Hg, ?Hmm; done.
Qed.

Lemma search_expands_ext s s' g :
  source_rows s = source_rows s' → groups s = groups s' → search_query s = search_query s' →
  search_expands s g = search_expands s' g.
Proof.
  intros H1 H2 H4. unfold search_expands, matching_members, summary_matches, member_to_group, query_of. by rewrite H1, H2, H4.
Qed.

Lemma expand_elem s id :
  id ∈ expanded_groups (expand_for_search s) ↔
  id ∈ expanded_groups s ∨ ∃ g, g ∈ groups s ∧ search_expands s g = true ∧ cgs_id g = id.
Proof.
  unfold expand_for_search. cbn. generalize (expanded_groups s). induction (groups s) as [|g gs IH]; intros E; cbn.
  - split; [by left | intros [?|(g & Hg & _)]; [done | by apply elem_of_nil in Hg]].
  - rewrite IH. setoid_rewrite elem_of_cons. destruct (search_expands s g) eqn:Eg.
    + rewrite elem_of_union, elem_of_singleton. naive_solver.
    + split; [naive_solver |]. intros [?|(g' & [->|?] & ? & ?)]; [by left | congruence | right; eauto].
Qed.

(** What a search has expanded stays expanded. *)
Definition expansion_closed s : Prop := expanded_groups (expand_for_search s) = expanded_groups s.

Lemma expansion_closed_spec s :
  expansion_closed s ↔ ∀ g, g ∈ groups s → search_expands s g = true → cgs_id g ∈ expanded_groups s.
Proof.
  unfold expansion_closed. split.
  - intros <- g Hg Hs. apply expand_elem. eauto.
  - intros H. apply set_eq. intros id. rewrite expand_elem. split; [| tauto]. intros [?|(g & Hg & Hs & <-)]; [done | by apply H].
Qed.

Lemma rebuild_visible_ok s :
  visible_rows (rebuild_visible s) = listing (rebuild_visible s) ∧ expansion_closed (rebuild_visible s).
Proof.
  unfold rebuild_visible. cbv zeta. split; [by apply listing_ext |].
  apply expansion_closed_spec. intros g Hg Hs. cbn [expanded_groups set_visible_rows].
  apply expand_elem. right. exists g. split_and!; [exact Hg | | done]. rewrite <- Hs. by apply search_expands_ext.
Qed.

(** ** The invariant *)
Section invariant.
Context {HO : HashOrder} `{!TimeFormat}.
Implicit Types s : ContainersState.

Definition grouped s : Prop := groups s = group_compose_containers (endpoint_key s) (source_rows s).

Definition detail_ok s : Prop :=
  (∀ d, container_detail s = Some d → selection s = Select_Container (dv_id d))
  ∧ (∀ g, group_detail s = Some g → ∃ id, selection s = Select_Group id ∧ gd_id g = opaque_group_id id)
  ∧ match detail_state s with
    | Detail_Ready => is_Some (container_detail s) ∨ is_Some (group_detail s)
    | Detail_Loading => container_is_selected s = true ∧ container_detail s = None ∧ group_detail s = None
    | Detail_None | Detail_Error => container_detail s = None ∧ group_detail s = None
    end.

Record page_inv s : Prop := {
  pi_visible : visible_rows s = listing s;
  pi_expanded : expansion_closed s;
  pi_groups : grouped s;
  pi_selection : selection_still_exists s = true;
  pi_detail : detail_ok s;
}.

Definition exists_in s (new : ContainerSelection) : bool := selection_still_exists (set_selection new s).

(** Operations that leave the list alone. *)
Lemma page_inv_same s s' :
  page_inv s → endpoint_key s' = endpoint_key s → visible_rows s' = visible_rows s →
  source_rows s' = source_rows s → groups s' = groups s → expanded_groups s' = expanded_groups s →
  search_query s' = search_query s → sort_mode s' = sort_mode s → selection s' = selection s →
  operations s' = operations s → group_operations s' = group_operations s → detail_ok s' → page_inv s'.
Proof.
  intros [H1 H2 H3 H4 _] E1 E2 E3 E4 E5 E6 E7 E8 E9 E10 Hd. split; [| | | | done].
  - rewrite E2, H1. by apply listing_ext.
  - apply expansion_closed_spec. intros g Hg Hs. rewrite E5. rewrite E4 in Hg. apply (proj1 (expansion_closed_spec s) H2 g Hg).
    rewrite <- Hs. by apply search_expands_ext.
  - unfold grouped. by rewrite E1, E3, E4.
  - unfold selection_still_exists, has_container, find_group in *. by rewrite E8, E3, E4.
Qed.

(** Operations that end by rebuilding it. *)
Lemma page_inv_rebuild s :
  grouped s → selection_still_exists s = true → detail_ok s → page_inv (rebuild_visible s).
Proof. intros H1 H2 H3. destruct (rebuild_visible_ok s) as [H4 H5]. by split. Qed.

Lemma build_group_detail_fields s id :
  let s' := build_group_detail s id in
  endpoint_key s' = endpoint_key s ∧ source_rows s' = source_rows s ∧ groups s' = groups s ∧ selection s' = selection s.
Proof. unfold build_group_detail. by destruct (find_group s id). Qed.

Lemma build_group_detail_view s id :
  let s' := build_group_detail s id in
  visible_rows s' = visible_rows s ∧ expanded_groups s' = expanded_groups s ∧ search_query s' = search_query s
  ∧ sort_mode s' = sort_mode s ∧ operations s' = operations s ∧ group_operations s' = group_operations s.
Proof. unfold build_group_detail. by destruct (find_group s id). Qed.

Lemma build_group_detail_ok s id :
  selection s = Select_Group id → is_Some (find_group s id) → detail_ok (build_group_detail s id).
Proof.
  intros Hsel [g Hg]. unfold build_group_detail. rewrite Hg. set (v := from_group _ g _).
  assert (gd_id v = opaque_group_id id) as Hv by reflexivity. clearbody v. split_and!; cbn; [done | | right; eauto].
  intros g' [= <-]. exists id. done.
Qed.

Lemma set_selection_inv s new :
  grouped s → selection s ≠ new → exists_in s new = true → page_inv (set_selection_to s new).2.
Proof.
  intros Hg Hne Hex. unfold set_selection_to. rewrite bool_decide_eq_false_2 by done.
  set (s1 := reset_selection_states _). destruct new as [|id|id]; cbn [snd].
  - apply page_inv_rebuild; [done | done |]. split_and!; cbn; done.
  - destruct (build_group_detail_fields s1 id) as (E1 & E2 & E3 & E4). apply page_inv_rebuild.
    + unfold grouped. by rewrite E1, E2, E3.
    + unfold selection_still_exists, find_group, has_container. rewrite E3, E4. exact Hex.
    + apply build_group_detail_ok; [done |]. by apply bool_decide_eq_true in Hex.
  - apply page_inv_rebuild; [done | exact Hex |]. split_and!; cbn; done.
Qed.

Lemma set_selection_inv' s new : page_inv s → exists_in s new = true → page_inv (set_selection_to s new).2.
Proof.
  intros Hinv Hex. destruct (decide (selection s = new)) as [E|E].
  - unfold set_selection_to. by rewrite bool_decide_eq_true_2.
  - apply set_selection_inv; [apply Hinv | done | done].
Qed.

(** *** Groups and rows *)
Lemma member_in_project containers k c m :
  (c, m) ∈ List.filter (in_project k) (compose_members containers) ↔
  c ∈ containers ∧ compose_metadata c = Some m ∧ ccm_project_name m = k.
Proof.
  rewrite list_elem_of_In, filter_In, <- list_elem_of_In. unfold compose_members, in_project, project_of.
  rewrite list_elem_of_omap, bool_decide_eq_true. cbn. split.
  - intros [(c' & Hc & E) Hk]. destruct (compose_metadata c') as [m'|] eqn:Em; [| done]. injection E as -> ->. done.
  - intros (Hc & Hm & Hk). split; [| done]. exists c. by rewrite Hm.
Qed.

Lemma group_of endpoint containers g :
  g ∈ group_compose_containers endpoint containers →
  cgs_id g = Build_ContainerGroupId endpoint (cgs_project_name g)
  ∧ (∀ id, id ∈ cgs_containers g ↔ ∃ c m, c ∈ containers ∧ compose_metadata c = Some m
       ∧ ccm_project_name m = cgs_project_name g ∧ cs_id c = id).
Proof.
  intros (k & -> & _)%group_elem. split; [done |]. intros id. cbn. rewrite list_elem_of_In, in_map_iff. split.
  - intros ([c m] & <- & Hin%list_elem_of_In). rewrite sort_by_perm in Hin.
    apply member_in_project in Hin as (? & ? & ?). exists c, m. done.
  - intros (c & m & Hc & Hm & Hk & <-). exists (c, m). split; [done |]. apply list_elem_of_In.
    rewrite sort_by_perm. by apply member_in_project.
Qed.

Lemma group_for endpoint containers c m :
  c ∈ containers → compose_metadata c = Some m →
  ∃ g, g ∈ group_compose_containers endpoint containers ∧ cgs_id g = Build_ContainerGroupId endpoint (ccm_project_name m)
    ∧ cgs_project_name g = ccm_project_name m.
Proof.
  intros Hc Hm. eexists. split; [apply group_elem; eexists; split; [reflexivity |] | split; reflexivity].
  assert ((c, m) ∈ List.filter (in_project (ccm_project_name m)) (compose_members containers)) as Hin
    by (by apply member_in_project). intros E. rewrite E in Hin. by apply elem_of_nil in Hin.
Qed.

Lemma find_group_Some s id g : find_group s id = Some g → g ∈ groups s ∧ cgs_id g = id.
Proof. intros [H1 H2]%List.find_some. apply list_elem_of_In in H1. by apply bool_decide_eq_true in H2. Qed.

Lemma find_is_Some {A} (f : A → bool) l x : x ∈ l → f x = true → is_Some (List.find f l).
Proof.
  intros Hx Hf. destruct (List.find f l) as [y|] eqn:E; [eauto |].
  apply list_elem_of_In in Hx. rewrite (List.find_none _ _ E x Hx) in Hf. done.
Qed.

Lemma find_group_exists s g : g ∈ groups s → is_Some (find_group s (cgs_id g)).
Proof. intros Hg. apply (find_is_Some _ _ g Hg). by apply bool_decide_eq_true. Qed.

Lemma has_container_spec s id : has_container s id = true ↔ ∃ c, c ∈ source_rows s ∧ cs_id c = id.
Proof.
  unfold has_container. rewrite existsb_exists. setoid_rewrite bool_decide_eq_true. setoid_rewrite list_elem_of_In. done.
Qed.

Lemma collect_map_Some {K V} `{Countable K} (l : list (K * V)) k v : collect_map l !! k = Some v → (k, v) ∈ l.
Proof.
  unfold collect_map. induction l as [|[k' v'] l IH] using rev_ind; [cbn; by rewrite lookup_empty |].
  rewrite foldl_app. cbn. intros [[<- <-]|[_ Hl]]%lookup_insert_Some; apply elem_of_app; [right; by left | left; by apply IH].
Qed.

Lemma by_id_Some l id c : by_id l !! id = Some c → c ∈ l ∧ cs_id c = id.
Proof. intros Hc%collect_map_Some. apply list_elem_of_fmap in Hc as (c' & [= -> ->] & Hin). done. Qed.

(** A row that can be selected stands for a group or a container of the state. *)
Lemma listing_row s row :
  row ∈ listing s → selectable row = true →
  match row_kind row with
  | GroupRow => ∃ g, g ∈ groups s ∧ row_id row = opaque_group_id (cgs_id g)
  | ContainerChild | Individual => has_container s (row_id row) = true
  | SectionHeader => False
  end.
Proof.
  unfold listing. rewrite list_elem_of_bind. intros (sec & Hrow & _) Hsel. unfold section_rows in Hrow.
  destruct (is_empty _); [by apply elem_of_nil in Hrow |]. apply elem_of_cons in Hrow as [->|Hrow]; [done |].
  apply list_elem_of_bind in Hrow as (item & Hrow & Hitem). unfold section_items in Hitem. rewrite sort_by_perm in Hitem.
  apply elem_of_app in Hitem as [Hitem|Hitem]; apply list_elem_of_fmap in Hitem as (x & -> & Hx);
    apply list_elem_of_In, filter_In in Hx as [Hx _]; apply list_elem_of_In in Hx; cbn [item_rows] in Hrow.
  - apply elem_of_cons in Hrow as [->|Hrow]; [cbn; eauto |]. case_bool_decide; [| by apply elem_of_nil in Hrow].
    apply list_elem_of_fmap in Hrow as (c & -> & Hc). cbn. apply has_container_spec. exists c. split; [| done].
    unfold group_members, sort_member_rows in Hc. rewrite sort_by_perm in Hc.
    destruct (group_matches s x).
    + apply list_elem_of_omap in Hc as (id & _ & Hc). by apply by_id_Some in Hc as [? _].
    + apply list_elem_of_In, filter_In in Hc as [Hc _]. by apply list_elem_of_In.
  - apply list_elem_of_singleton in Hrow as ->. cbn. apply has_container_spec. eauto.
Qed.

(** The selection that a row stands for. *)
Definition row_target s (row : ContainerListRow) : option ContainerSelection :=
  match row_kind row with
  | GroupRow => Select_Group <$> group_id_from_opaque s (row_id row)
  | ContainerChild | Individual => Some (Select_Container (row_id row))
  | SectionHeader => None
  end.

Lemma row_target_exists s row :
  row ∈ listing s → selectable row = true → ∃ new, row_target s row = Some new ∧ exists_in s new = true.
Proof.
  intros Hrow Hsel. pose proof (listing_row s row Hrow Hsel) as Hr. unfold row_target. destruct (row_kind row).
  - done.
  - destruct Hr as (g & Hg & ->). unfold group_id_from_opaque.
    destruct (find_is_Some (fun g' => bool_decide (opaque_group_id (cgs_id g') = opaque_group_id (cgs_id g))) _ g Hg) as [g' Hg'];
      [by apply bool_decide_eq_true |].
    rewrite Hg'. eexists. split; [done |]. cbn. apply bool_decide_eq_true.
    apply List.find_some in Hg' as [Hin _]. apply list_elem_of_In in Hin. by apply (find_group_exists s).
  - eexists. split; [done | exact Hr].
  - eexists. split; [done | exact Hr].
Qed.

(** *** Each operation keeps the invariant *)
Ltac same_page H := eapply page_inv_same; [exact H | reflexivity.. |].

Lemma rebuild_after s f :
  page_inv s → endpoint_key (f s) = endpoint_key s → source_rows (f s) = source_rows s → groups (f s) = groups s →
  selection (f s) = selection s → container_detail (f s) = container_detail s → group_detail (f s) = group_detail s →
  detail_state (f s) = detail_state s → page_inv (rebuild_visible (f s)).
Proof.
  intros [_ _ H1 H2 H3] E1 E2 E3 E4 E5 E6 E7. apply page_inv_rebuild.
  - unfold grouped. by rewrite E1, E2, E3.
  - unfold selection_still_exists, has_container, find_group in *. by rewrite E2, E3, E4.
  - unfold detail_ok, container_is_selected in *. by rewrite E4, E5, E6, E7.
Qed.

Lemma select_none_fields s :
  detail_ok s → let s' := (set_selection_to s Select_None).2 in
  endpoint_key s' = endpoint_key s ∧ source_rows s' = source_rows s ∧ groups s' = groups s
  ∧ selection s' = Select_None ∧ detail_ok s'.
Proof.
  intros Hd. unfold set_selection_to. case_bool_decide as E; [done |]. cbn. split_and!; done.
Qed.

Lemma endpoint_inv s key : page_inv s → page_inv (set_endpoint_key_to s key).
Proof.
  intros Hinv. unfold set_endpoint_key_to. case_bool_decide; [done |]. set (s1 := set_expanded_groups _ _).
  destruct (select_none_fields s1) as (_ & _ & _ & Hs & Hd); [apply (pi_detail s Hinv) |].
  set (s2 := (set_selection_to s1 Select_None).2) in *. apply page_inv_rebuild; [done | | exact Hd].
  unfold selection_still_exists. cbn. by rewrite Hs.
Qed.

Lemma replace_inv s summaries : page_inv s → page_inv (replace_source s summaries).
Proof.
  intros Hinv. unfold replace_source. set (s1 := retain_expanded _). assert (grouped s1) as Hg by done.
  assert (detail_ok s1) as Hd by exact (pi_detail s Hinv).
  destruct (selection_still_exists s1) eqn:Ex; cbn [negb].
  - destruct (selection s1) as [|id|id] eqn:Es; [by apply page_inv_rebuild | | by apply page_inv_rebuild].
    destruct (build_group_detail_fields s1 id) as (E1 & E2 & E3 & E4). apply page_inv_rebuild.
    + unfold grouped. by rewrite E1, E2, E3.
    + revert Ex. unfold selection_still_exists, find_group, has_container. by rewrite E2, E3, E4.
    + apply build_group_detail_ok; [done |]. unfold selection_still_exists in Ex. rewrite Es in Ex. by apply bool_decide_eq_true in Ex.
  - assert (selection s1 ≠ Select_None) as Hne by (intros E; unfold selection_still_exists in Ex; by rewrite E in Ex).
    pose proof (set_selection_inv s1 Select_None Hg Hne eq_refl) as Hi. apply (rebuild_after _ (fun s => s)); done.
Qed.

Lemma live_inv s generation summaries : page_inv s → page_inv (apply_live s generation summaries).2.
Proof.
  intros Hinv. unfold apply_live. destruct (negb _); [done |]. cbn [snd].
  pose proof (replace_inv s summaries Hinv) as Hi. generalize dependent (replace_source s summaries). intros s' Hi. same_page Hi. apply (pi_detail _ Hi).
Qed.

Lemma list_error_inv s generation error : page_inv s → page_inv (apply_list_error s generation error).2.
Proof.
  intros Hinv. unfold apply_list_error. destruct (negb _); [done |]. destruct (friendly_error _ _) as [[state kind] message].
  cbn [snd]. set (s1 := set_visible_rows [] _).
  assert (page_inv (set_selection_to s1 Select_None).2) as Hi.
  { destruct (decide (selection s1 = Select_None)) as [E|E]; [| by apply set_selection_inv].
    unfold set_selection_to. rewrite bool_decide_eq_true_2 by done. cbn [snd].
    assert (∀ sec, section_items s1 sec = []) as Hitems by done. split.
    - change (visible_rows s1) with (@nil ContainerListRow). unfold listing.
      assert (∀ sec, section_rows s1 sec = []) as Hrows by (intros sec; unfold section_rows; by rewrite Hitems).
      induction (section_order s1) as [|sec l IH]; [done |].
      change ([] = section_rows s1 sec ++ (l ≫= section_rows s1)). by rewrite Hrows.
    - apply expansion_closed_spec. intros g Hg. by apply elem_of_nil in Hg.
    - done.
    - unfold selection_still_exists. by rewrite E.
    - exact (pi_detail s Hinv). }
  generalize dependent (set_selection_to s1 Select_None). intros [a s2] Hi. cbn [snd] in *. same_page Hi. apply (pi_detail _ Hi).
Qed.

Lemma select_row_inv s opaque : page_inv s → page_inv (select_row s opaque).2.
Proof.
  intros Hinv. unfold select_row. destruct (List.find _ _) as [row|] eqn:E; [| done].
  apply List.find_some in E as [Hin [Hid Hsel]%andb_prop]. apply bool_decide_eq_true in Hid. apply list_elem_of_In in Hin.
  rewrite (pi_visible s Hinv) in Hin. destruct (row_target_exists s row Hin Hsel) as (new & Ht & Hex).
  unfold row_target in Ht. rewrite Hid in Ht. rewrite Ht. apply set_selection_inv'; [done |]. by case_bool_decide.
Qed.

Lemma reload_inv s : page_inv s → page_inv (reload_detail s).2.
Proof.
  intros Hinv. unfold reload_detail. destruct (selection s) as [|id|id] eqn:Es; [done | |].
  - pose proof (pi_selection s Hinv) as Hex. unfold selection_still_exists in Hex. rewrite Es in Hex.
    apply bool_decide_eq_true in Hex. cbn [snd]. set (s1 := reset_selection_states s).
    destruct (build_group_detail_fields s1 id) as (E1 & E2 & E3 & E4).
    destruct (build_group_detail_view s1 id) as (E5 & E6 & E7 & E8 & E9 & E10).
    assert (detail_ok (build_group_detail s1 id)) as Hd by (by apply build_group_detail_ok).
    generalize dependent (build_group_detail s1 id). intros s2 E1 E2 E3 E4 E5 E6 E7 E8 E9 E10 Hd.
    by apply (page_inv_same s).
  - case_bool_decide; [done |]. cbn [snd]. same_page Hinv. split_and!; cbn; try done.
    unfold container_is_selected. cbn. by rewrite Es.
Qed.

Lemma detail_inv s generation detail : page_inv s → page_inv (apply_detail s generation detail).2.
Proof.
  intros Hinv. unfold apply_detail. destruct (_ || _) eqn:E; [done |]. apply orb_false_iff in E as [_ E].
  apply negb_false_iff, bool_decide_eq_true in E. cbn [snd]. set (v := from_detail_for_endpoint _ _).
  assert (dv_id v = cs_id (cd_summary detail)) as Hv by reflexivity. clearbody v.
  same_page Hinv. split_and!; cbn; [| done | left; eauto]. intros d [= <-]. by rewrite Hv.
Qed.

Lemma detail_error_inv s generation error : page_inv s → page_inv (apply_detail_error s generation error).2.
Proof.
  intros Hinv. unfold apply_detail_error. destruct (_ || _) eqn:E; [done |]. apply orb_false_iff in E as [_ E].
  apply negb_false_iff in E. destruct (friendly_error _ _) as [[state kind] message]. cbn [snd].
  same_page Hinv. destruct (pi_detail s Hinv) as (_ & Hg & _). split; [done | split; [exact Hg | split; [done |]]]. cbn.
  destruct (group_detail s) as [g|]; [| done]. destruct (Hg g eq_refl) as (id & Hs & _). unfold container_is_selected in E.
  by rewrite Hs in E.
Qed.

Lemma environment_inv b s index : page_inv s → page_inv (set_environment_at (set_env_at b) s index).2.
Proof.
  intros Hinv. unfold set_environment_at. destruct (container_detail s) as [d|] eqn:Ed; [| done].
  assert (dv_id (set_env_at b d index).2 = dv_id d) as Hid.
  { unfold set_env_at. destruct (_ !! index); [| done]. by case_bool_decide. }
  destruct (set_env_at b d index) as [r d']. cbn [snd] in *.
  destruct (pi_detail s Hinv) as (Hc & Hg & Hst). same_page Hinv. split_and!; cbn.
  - intros d0 [= <-]. rewrite Hid. by apply Hc.
  - exact Hg.
  - rewrite Ed in Hst. destruct (detail_state s); [by destruct Hst | by destruct Hst as (_ & ? & _) | by left; eauto | by destruct Hst].
Qed.

(** What is not removed stays, and a group with a member left stays too. *)
Lemma remaining_selection s s' ids :
  page_inv s → selection_removed s ids = false → endpoint_key s' = endpoint_key s → selection s' = selection s →
  source_rows s' = List.filter (fun row => negb (bool_decide (cs_id row ∈ ids))) (source_rows s) → grouped s' →
  selection_still_exists s' = true.
Proof.
  intros Hinv Hrem Ee Es Hsrc Hg. pose proof (pi_selection s Hinv) as Hex.
  unfold selection_still_exists in *. rewrite Es. unfold selection_removed in Hrem. destruct (selection s) as [|id|id]; [done | |].
  - apply bool_decide_eq_true in Hex as [g Hfg]. rewrite Hfg in Hrem. apply find_group_Some in Hfg as [Hin Hid].
    rewrite (pi_groups s Hinv) in Hin. destruct (group_of _ _ g Hin) as [Hgid Hmem].
    assert (∃ x, x ∈ cgs_containers g ∧ x ∉ ids) as (x & Hx & Hnx).
    { clear -Hrem. induction (cgs_containers g) as [|y l IH]; [done |]. cbn in Hrem. case_bool_decide as Hy; cbn in Hrem.
      - destruct (IH Hrem) as (x & ? & ?). exists x. split; [by right | done].
      - exists y. split; [by left | done]. }
    apply Hmem in Hx as (c & m & Hc & Hm & Hk & <-).
    assert (c ∈ source_rows s') as Hc' by (rewrite Hsrc; apply list_elem_of_In, filter_In; split;
      [by apply list_elem_of_In | by apply negb_true_iff, bool_decide_eq_false]).
    destruct (group_for (endpoint_key s') _ c m Hc' Hm) as (g' & Hg' & Hid' & _). rewrite <- Hg in Hg'.
    apply bool_decide_eq_true. replace id with (cgs_id g') by (rewrite <- Hid, Hgid, Hid', Ee, Hk; done).
    by apply find_group_exists.
  - apply has_container_spec in Hex as (c & Hc & <-). apply bool_decide_eq_false in Hrem. apply has_container_spec.
    exists c. split; [| done]. rewrite Hsrc. apply list_elem_of_In, filter_In. split;
      [by apply list_elem_of_In | by apply negb_true_iff, bool_decide_eq_false].
Qed.

Lemma remove_inv s ids : page_inv s → page_inv (remove_local_many s ids).2.
Proof.
  intros Hinv. unfold remove_local_many. set (i := default O _). set (s1 := retain_expanded _).
  assert (grouped s1) as Hg by done. assert (detail_ok s1) as Hd by exact (pi_detail s Hinv).
  destruct (rebuild_visible_ok s1) as [Hv He]. destruct (selection_removed s ids) eqn:Hrem; cbn [negb].
  - set (s2 := ready_or_empty _). assert (visible_rows s2 = listing s2) as Hv2 by (rewrite <- (listing_ext (rebuild_visible s1)); done).
    assert (selection s2 ≠ Select_None) as Hne.
    { change (selection s2) with (selection s). unfold selection_removed in Hrem. intros E. by rewrite E in Hrem. }
    destruct (neighbour s2 i) as [id|] eqn:Hn; [| by apply set_selection_inv].
    unfold neighbour in Hn. apply fmap_Some in Hn as (row & Hfind & ->). apply List.find_some in Hfind as [Hin Hsel].
    assert (row ∈ visible_rows s2) as Hrow.
    { apply in_app_or in Hin as [Hin|Hin]; [| apply in_rev in Hin]; apply list_elem_of_In in Hin;
        rewrite <- (take_drop (Nat.min i (length (visible_rows s2))) (visible_rows s2)); apply elem_of_app; tauto. }
    unfold select_row. destruct (List.find _ (visible_rows s2)) as [row'|] eqn:E.
    2: { apply list_elem_of_In in Hrow. pose proof (List.find_none _ _ E row Hrow) as Hf. cbn in Hf.
         by rewrite Hsel, bool_decide_eq_true_2 in Hf. }
    apply List.find_some in E as [Hin' [Hid' Hsel']%andb_prop]. apply bool_decide_eq_true in Hid'. apply list_elem_of_In in Hin'.
    rewrite Hv2 in Hin'. destruct (row_target_exists s2 row' Hin' Hsel') as (new & Ht & Hex).
    unfold row_target in Ht. rewrite Hid' in Ht. rewrite Ht.
    case_bool_decide as Hsame; [by apply set_selection_inv | by apply set_selection_inv].
  - assert (page_inv (rebuild_visible s1)) as Hi.
    { apply page_inv_rebuild; [done | | done]. by apply (remaining_selection s s1 ids). }
    cbn [snd]. generalize dependent (rebuild_visible s1). intros s2 _ _ Hi. same_page Hi. apply (pi_detail _ Hi).
Qed.

Lemma finish_operation_inv s id g o : page_inv s → page_inv (finish_operation s id g o).2.
Proof.
  intros Hinv. unfold finish_operation. destruct (negb _); [done |].
  by apply (rebuild_after s (set_operations (delete id (operations s)))).
Qed.

Lemma page_step_inv s op : page_inv s → page_inv (page_step s op).
Proof.
  intros Hinv. destruct op as [|key| |g l|g e|q|m|o|o|c| | |g d|g e|i|i|c o|c g o|c g o e|o op|o g r|ids]; cbn [page_step].
  - unfold initialize. destruct (initialized s); [done |]. same_page Hinv. apply (pi_detail s Hinv).
  - by apply endpoint_inv.
  - unfold begin_refresh. cbn [snd]. destruct (is_empty _); same_page Hinv; apply (pi_detail s Hinv).
  - by apply live_inv.
  - by apply list_error_inv.
  - by apply (rebuild_after s (set_search_query (trim q))).
  - by apply (rebuild_after s (set_sort_mode m)).
  - unfold toggle_group. destruct (group_id_from_opaque s o) as [id|]; [| done].
    by apply (rebuild_after s (set_expanded_groups _)).
  - by apply select_row_inv.
  - unfold select_container. destruct (has_container s c) eqn:E; [| done]. by apply set_selection_inv'.
  - by apply reload_inv.
  - unfold clear_selection. case_bool_decide; [done |]. by apply set_selection_inv'.
  - by apply detail_inv.
  - by apply detail_error_inv.
  - by apply environment_inv.
  - by apply environment_inv.
  - unfold begin_operation. destruct (_ || _); [done |].
    by apply (rebuild_after s (fun s => set_operations _ (set_operation_generation _ s))).
  - by apply finish_operation_inv.
  - unfold fail_operation. pose proof (finish_operation_inv s c g o Hinv) as Hi.
    destruct (finish_operation s c g o) as [done s']. cbn [snd] in Hi. destruct done; cbn [negb]; [| done].
    destruct (friendly_error _ _) as [[st k] msg]. cbn [snd]. same_page Hi. apply (pi_detail _ Hi).
  - unfold begin_group_operation. case_bool_decide; [done |]. destruct (group_id_from_opaque s o) as [id|]; [| done].
    case_bool_decide; [done |]. destruct (find_group s id) as [gr|]; [| done]. destruct (is_empty _); [done |].
    by apply (rebuild_after s (fun s => set_last_group_result None (set_group_operations _ (set_operation_generation _ s)))).
  - unfold finish_group_operation. destruct (group_id_from_opaque s o) as [id|]; [| done]. destruct (negb _); [done |].
    by apply (rebuild_after s (fun s => set_last_group_result _ (set_group_operations _ s))).
  - by apply remove_inv.
Qed.

Lemma page_inv_new key : page_inv (ContainersState_new key).
Proof.
  split; [done | | done | done | split_and!; done].
  apply expansion_closed_spec. intros g Hg. by apply elem_of_nil in Hg.
Qed.

Lemma page_inv_run key ops : page_inv (page_run key ops).
Proof.
  unfold page_run. generalize (page_inv_new key). generalize (ContainersState_new key).
  induction ops as [|op ops IH]; intros s Hs; [done |]. apply IH, page_step_inv, Hs.
Qed.

(** C18: The container page is always consistent.  After every sequence of user
    actions, refreshes, answers and failures, current or late: the rows shown are
    those the list, search, order, expansion, selection and running operations
    determine; the groups are those of the listed containers; what is selected is
    still in the list; and a detail is shown only for the selected container or
    group, with the detail state saying which one there is. *)
Theorem page_invariant key ops :
  let s := page_run key ops in
  rebuild_visible s = s
  ∧ groups s = group_compose_containers (endpoint_key s) (source_rows s)
  ∧ match selection s with
    | Select_None => True
    | Select_Container id => ∃ c, c ∈ source_rows s ∧ cs_id c = id
    | Select_Group id => ∃ g, g ∈ groups s ∧ cgs_id g = id
    end
  ∧ detail_ok s.
Proof.
  intros s. destruct (page_inv_run key ops) as [H1 H2 H3 H4 H5]. fold s in H1, H2, H3, H4, H5. split_and!; [| done | | apply H5..].
  - unfold rebuild_visible. unfold expansion_closed in H2.
    assert (expand_for_search s = s) as ->; [| rewrite <- H1; by destruct s].
    unfold expand_for_search in *. cbn in H2. rewrite H2. by destruct s.
  - unfold selection_still_exists in H4. destruct (selection s) as [|id|id]; [done | |].
    + apply bool_decide_eq_true in H4 as [g Hg]. apply find_group_Some in Hg. eauto.
    + by apply has_container_spec.
Qed.
End invariant.
