(* ===== verification/ContainersListing.v ===== *)
(** What the container page lists, and where its bookkeeping falls behind: the
    containers of the list that [rebuild_visible] builds are those that the search
    lets through and whose group is open, each once; a group operation whose group
    disappears from the list can never be finished. *)

From S2P Require Import Prelude Path Numbers Text Domain Protocol Compose DockerError ContainerModel ContainersPage.

Local Open Scope Z_scope.
#[local] Arguments to_ascii_lowercase : simpl never.
#[local] Arguments str_contains : simpl never.

Lemma fmap_bind {A B C} (f : B → C) (g : A → list B) l : f <$> (l ≫= g) = l ≫= fun x => f <$> g x.
Proof. induction l as [|x l IH]; [done |]. by rewrite !bind_cons, fmap_app, IH. Qed.

Lemma list_bind_bind {A B C} (f : A → list B) (g : B → list C) l : (l ≫= fun x => f x ≫= g) = (l ≫= f) ≫= g.
Proof. induction l as [|x l IH]; [done |]. by rewrite !bind_cons, bind_app, IH. Qed.

Lemma list_bind_singleton {A B} (f : A → B) l : f <$> l = l ≫= fun x => [f x].
Proof. induction l as [|x l IH]; [done |]. by rewrite bind_cons, fmap_cons, IH. Qed.

Lemma bind_app_perm {A B} (f g : A → list B) l : (l ≫= fun x => f x ++ g x) ≡ₚ (l ≫= f) ++ (l ≫= g).
Proof.
  induction l as [|x l IH]; [done |]. rewrite !bind_cons, IH, <- !(assoc_L (++)). apply Permutation_app_head.
  rewrite !(assoc_L (++)). apply Permutation_app_tail, Permutation_app_comm.
Qed.

Lemma filter_or_perm {A} (p q r : A → bool) l :
  (∀ x, x ∈ l → r x = p x || q x ∧ p x && q x = false) → List.filter p l ++ List.filter q l ≡ₚ List.filter r l.
Proof.
  induction l as [|x l IH]; intros H; [done |]. destruct (H x) as [Hr Hd]; [by left |]. cbn. rewrite Hr.
  assert (IH' := IH (fun y Hy => H y (list_elem_of_further _ _ _ Hy))).
  destruct (p x), (q x); cbn; try done; rewrite <- IH'; [done |]. symmetry. apply Permutation_middle.
Qed.

(** ** Splitting a list by a key *)
Section partition.
Context {A K : Type} `{EqDecision K}.
Implicit Types (key : A → option K) (q : A → bool).

Definition with_key key q (k : K) (l : list A) : list A := List.filter (fun x => bool_decide (key x = Some k) && q x) l.


Lemma bind_perm_ext {B} (f g : K → list B) ks : (∀ k, k ∈ ks → f k ≡ₚ g k) → (ks ≫= f) ≡ₚ (ks ≫= g).
Proof.
  induction ks as [|k ks IH]; intros H; [done |]. rewrite !bind_cons. apply Permutation_app; [apply H; by left |].
  apply IH. intros k' Hk. apply H. by right.
Qed.

Lemma bind_with_key_none key q x l ks :
  (∀ k, k ∈ ks → key x ≠ Some k) → (ks ≫= fun k => with_key key q k (x :: l)) = (ks ≫= fun k => with_key key q k l).
Proof.
  induction ks as [|k ks IH]; intros H; [done |]. rewrite !bind_cons, IH by (intros k' Hk; apply H; by right).
  unfold with_key at 1. cbn. rewrite bool_decide_eq_false_2 by (apply H; by left). done.
Qed.

Lemma bind_with_key_some key q x l ks k :
  NoDup ks → key x = Some k → k ∈ ks → q x = true →
  (ks ≫= fun k => with_key key q k (x :: l)) ≡ₚ x :: (ks ≫= fun k => with_key key q k l).
Proof.
  intros Hnd Hk Hin Hq. apply list_elem_of_split in Hin as (k1 & k2 & ->).
  apply list.NoDup_app in Hnd as (_ & Hd1 & [Hd2 _]%list.NoDup_cons).
  assert (∀ k', k' ∈ k1 → key x ≠ Some k') as Hn1.
  { intros k' Hk' E. rewrite Hk in E. injection E as <-. apply (Hd1 k Hk'). by left. }
  assert (∀ k', k' ∈ k2 → key x ≠ Some k') as Hn2 by (intros k' Hk' E; congruence).
  rewrite !bind_app, !bind_cons, !bind_with_key_none by done. unfold with_key at 2. cbn.
  rewrite bool_decide_eq_true_2, Hq by done. cbn. symmetry. apply Permutation_middle.
Qed.

(** The classes of a list by key are together its keyed elements. *)
Lemma partition_perm key q l ks :
  NoDup ks → (∀ x k, x ∈ l → key x = Some k → k ∈ ks) →
  (ks ≫= fun k => with_key key q k l) ≡ₚ List.filter (fun x => bool_decide (is_Some (key x)) && q x) l.
Proof.
  intros Hnd. induction l as [|x l IH]; intros Hall.
  - clear. induction ks as [|k ks IH]; [done |]. by rewrite bind_cons, IH.
  - assert (IH' := IH (fun y k Hy => Hall y k (list_elem_of_further _ _ _ Hy))). cbn [List.filter].
    destruct (key x) as [k|] eqn:Ek.
    + rewrite bool_decide_eq_true_2 by eauto. destruct (q x) eqn:Eq; cbn [andb].
      * rewrite (bind_with_key_some key q x l ks k Hnd Ek) by (done || (by apply (Hall x k); [left |])). by rewrite IH'.
      * rewrite <- IH'. apply bind_perm_ext. intros k' _. unfold with_key at 1. cbn. by rewrite Eq, andb_false_r.
    + rewrite bool_decide_eq_false_2 by (by intros [? [=]]). cbn [andb]. by rewrite bind_with_key_none by congruence.
Qed.
End partition.

(** ** The containers that are listed *)
Section listing.
Context {HO : HashOrder}.
Implicit Types s : ContainersState.

Definition is_container_row (row : ContainerListRow) : bool :=
  match row_kind row with ContainerChild | Individual => true | _ => false end.
Definition container_ids (rows : list ContainerListRow) : list text := row_id <$> List.filter is_container_row rows.

Definition group_of_container s (c : ContainerSummary) : option ContainerGroupId :=
  (fun m => Build_ContainerGroupId (endpoint_key s) (ccm_project_name m)) <$> compose_metadata c.

(** The query is empty, or the project name or the container matches it. *)
Definition member_matches s (c : ContainerSummary) : bool :=
  summary_matches s c
  || from_option (fun m => str_contains (to_ascii_lowercase (ccm_project_name m)) (to_ascii_lowercase (query_of s)))
       false (compose_metadata c).

Definition container_listed s (c : ContainerSummary) : bool :=
  match group_of_container s c with
  | None => summary_matches s c
  | Some group => bool_decide (group ∈ expanded_groups s) && member_matches s c
  end.

Definition item_ids s (item : TopLevelItem) : list text :=
  match item with
  | GroupItem g => if bool_decide (cgs_id g ∈ expanded_groups s) then cs_id <$> group_members s g else []
  | ContainerItem c => [cs_id c]
  end.

Lemma container_ids_app r1 r2 : container_ids (r1 ++ r2) = container_ids r1 ++ container_ids r2.
Proof. unfold container_ids. by rewrite List.filter_app, fmap_app. Qed.

Lemma container_ids_bind {A} (f : A → list ContainerListRow) l :
  container_ids (l ≫= f) = l ≫= fun x => container_ids (f x).
Proof. induction l as [|x l IH]; [done |]. by rewrite !bind_cons, container_ids_app, IH. Qed.

Lemma item_rows_ids s sec item : container_ids (item_rows s sec item) = item_ids s item.
Proof.
  destruct item as [g|c]; [| done]. cbn [item_rows item_ids]. case_bool_decide; [| done].
  change (container_ids ?l = ?r) with (container_ids ([] ++ l) = r). unfold container_ids. cbn.
  induction (group_members s g) as [|c l IH]; [done |]. cbn. by rewrite <- IH.
Qed.

Lemma listing_ids_items s :
  container_ids (listing s) = section_order s ≫= fun sec => section_items s sec ≫= item_ids s.
Proof.
  unfold listing. rewrite container_ids_bind. apply list_bind_ext; [| done]. intros sec. unfold section_rows.
  destruct (section_items s sec) as [|i items] eqn:E; [done |]. cbn [is_empty].
  change (?h :: ?l) with ([h] ++ l). rewrite container_ids_app, container_ids_bind. cbn [app].
  apply list_bind_ext; [| done]. intros item. apply item_rows_ids.
Qed.

(** *** Looking members up *)
Lemma collect_map_is_Some {V} (l : list (text * V)) k v : (k, v) ∈ l → is_Some (collect_map l !! k).
Proof.
  unfold collect_map. induction l as [|[k' v'] l IH] using rev_ind; [by intros ?%elem_of_nil |].
  rewrite foldl_app. cbn. intros [H|H%list_elem_of_singleton]%elem_of_app.
  - destruct (decide (k' = k)) as [->|E]; [rewrite lookup_insert_eq; eauto | rewrite lookup_insert_ne by done; auto].
  - injection H as -> ->. rewrite lookup_insert_eq. eauto.
Qed.

Section distinct.
Context (s : ContainersState) (Hg : grouped s) (Hnd : NoDup (cs_id <$> source_rows s)).

Lemma same_container c c' : c ∈ source_rows s → c' ∈ source_rows s → cs_id c = cs_id c' → c = c'.
Proof.
  intros Hc Hc' E. apply list_elem_of_lookup in Hc as [i Hi], Hc' as [j Hj].
  assert (i = j) as ->; [| congruence]. eapply (NoDup_lookup _ _ _ (cs_id c) Hnd); rewrite list_lookup_fmap.
  - by rewrite Hi. - rewrite Hj. cbn. by rewrite E.
Qed.

Lemma by_id_source c : c ∈ source_rows s → by_id (source_rows s) !! cs_id c = Some c.
Proof.
  intros Hc. destruct (collect_map_is_Some ((fun c => (cs_id c, c)) <$> source_rows s) (cs_id c) c) as [c' Hc'].
  { apply list_elem_of_fmap. eauto. }
  unfold by_id. rewrite Hc'. apply by_id_Some in Hc' as [Hin E]. f_equal. by apply same_container.
Qed.

Lemma group_of_container_elem g c :
  g ∈ groups s → c ∈ source_rows s → cs_id c ∈ cgs_containers g ↔ group_of_container s c = Some (cgs_id g).
Proof.
  intros Hin Hc. rewrite Hg in Hin. destruct (group_of _ _ g Hin) as [Hid Hmem]. rewrite Hmem. unfold group_of_container. split.
  - intros (c' & m & Hc' & Hm & Hk & E). apply same_container in E as <-; [| done..]. by rewrite Hm, Hid, <- Hk.
  - intros (m & Hm & E)%fmap_Some. rewrite Hid in E. injection E as E. exists c, m. done.
Qed.

Lemma member_to_group_source c : c ∈ source_rows s → member_to_group s !! cs_id c = group_of_container s c.
Proof.
  intros Hc. set (l := groups s ≫= fun group => (fun id => (id, cgs_id group)) <$> cgs_containers group).
  assert (∀ k v, (k, v) ∈ l → ∃ g, g ∈ groups s ∧ k ∈ cgs_containers g ∧ cgs_id g = v) as Hl.
  { intros k v (g & (id & [= -> ->] & Hid)%list_elem_of_fmap & Hgr)%list_elem_of_bind. eauto. }
  destruct (member_to_group s !! cs_id c) as [v|] eqn:E.
  - apply collect_map_Some, Hl in E as (g & Hin & Hid & <-). symmetry. by apply group_of_container_elem.
  - destruct (group_of_container s c) as [v|] eqn:Ev; [exfalso | done].
    unfold group_of_container in Ev. apply fmap_Some in Ev as (m & Hm & ->).
    destruct (group_for (endpoint_key s) _ c m Hc Hm) as (g & Hin & Hid & _). rewrite <- Hg in Hin.
    assert ((cs_id c, cgs_id g) ∈ l) as Hel.
    { apply list_elem_of_bind. exists g. split; [| done]. apply list_elem_of_fmap. eexists. split; [done |].
      apply group_of_container_elem; [done | done |]. unfold group_of_container. by rewrite Hm, Hid. }
    apply collect_map_is_Some in Hel as [v Hv]. unfold member_to_group in E. fold l in E. congruence.
Qed.

(** *** The members of a group *)
Lemma project_members k containers :
  (List.filter (in_project k) (compose_members containers)).*1
  = List.filter (fun c => bool_decide (ccm_project_name <$> compose_metadata c = Some k)) containers.
Proof.
  unfold compose_members, in_project, project_of. induction containers as [|c l IH]; [done |]. cbn.
  destruct (compose_metadata c) as [m|]; cbn; [| done].
  rewrite (bool_decide_ext (Some (ccm_project_name m) = Some k) (ccm_project_name m = k)) by (split; congruence).
  case_bool_decide; cbn; by rewrite <- IH.
Qed.

Lemma omap_by_id (l : list (ContainerSummary * ComposeContainerMetadata)) :
  (∀ m, m ∈ l → m.1 ∈ source_rows s) → omap (fun id => by_id (source_rows s) !! id) (map (fun m => cs_id m.1) l) = l.*1.
Proof.
  induction l as [|m l IH]; intros Hl; [done |]. cbn. rewrite by_id_source by (apply Hl; by left).
  f_equal. apply IH. intros m' Hm'. apply Hl. by right.
Qed.

Lemma group_members_perm g :
  g ∈ groups s → group_members s g ≡ₚ with_key (group_of_container s) (member_matches s) (cgs_id g) (source_rows s).
Proof.
  intros Hin. pose proof Hin as Hin'. rewrite Hg in Hin'. apply group_elem in Hin' as (k & Eg & Hne).
  unfold group_members, sort_member_rows. rewrite sort_by_perm. destruct (group_matches s g) eqn:Em.
  - rewrite Eg. cbn [cgs_containers cgs_id group_summary]. rewrite omap_by_id.
    + rewrite (fmap_Permutation fst _ _ (sort_by_perm member_cmp _)), project_members. unfold with_key.
      apply reflexive_eq, filter_ext_in. intros c Hc. unfold group_matches in Em. rewrite Eg in Em. cbn in Em.
      unfold group_of_container, member_matches, summary_matches. destruct (compose_metadata c) as [m|]; cbn.
      * rewrite (bool_decide_ext (Some (ccm_project_name m) = Some k)
          (Some (Build_ContainerGroupId (endpoint_key s) (ccm_project_name m)) = Some (Build_ContainerGroupId (endpoint_key s) k)))
          by (split; congruence). case_bool_decide as Ek; [| done]. injection Ek as ->. cbn.
        apply orb_prop in Em as [->| ->]; [done | by rewrite orb_true_r].
      * by rewrite !bool_decide_eq_false_2.
    + intros [c m] Hm. rewrite sort_by_perm in Hm. apply member_in_project in Hm as [Hc _]. done.
  - apply reflexive_eq. unfold matching_members, with_key. apply filter_ext_in. intros c Hc%list_elem_of_In.
    rewrite member_to_group_source by done. case_bool_decide as Ek; [| done]. cbn. unfold member_matches.
    unfold group_of_container in Ek. apply fmap_Some in Ek as (m & Hm & Ek). rewrite Hm. cbn.
    rewrite Eg in Ek, Em. cbn in Ek, Em. injection Ek as Ek. unfold group_matches in Em. cbn in Em.
    apply orb_false_iff in Em as [_ Em]. rewrite <- Ek, Em. by rewrite orb_false_r.
Qed.

Lemma group_ids_NoDup : NoDup (cgs_id <$> groups s).
Proof.
  rewrite Hg. pose proof (groups_sorted (endpoint_key s) (source_rows s)) as Hs.
  assert (∀ g, g ∈ group_compose_containers (endpoint_key s) (source_rows s) →
    cgs_id g = Build_ContainerGroupId (endpoint_key s) (cgs_project_name g)) as Hid by (intros g Hin; by apply (group_of _ _ g Hin)).
  induction Hs as [|g l Hs IH Hall]; [constructor |]. cbn. constructor.
  - intros (g' & E & Hin)%list_elem_of_fmap. rewrite (Hid g), (Hid g') in E by (by (left || right)). injection E as E.
    rewrite list.Forall_forall in Hall. specialize (Hall g' Hin). rewrite E in Hall.
    by rewrite (cmp_refl bytes_cmp) in Hall.
  - apply IH. intros g' Hin. apply Hid. by right.
Qed.

Definition open_member (c : ContainerSummary) : bool :=
  from_option (fun group => bool_decide (group ∈ expanded_groups s)) false (group_of_container s c) && member_matches s c.

(** The members listed below the groups. *)
Lemma groups_listed :
  (groups s ≫= fun g => item_ids s (GroupItem g)) ≡ₚ cs_id <$> List.filter open_member (source_rows s).
Proof.
  transitivity (cs_id <$> ((cgs_id <$> groups s) ≫= fun k => with_key (group_of_container s) open_member k (source_rows s))).
  - rewrite fmap_bind, list_fmap_bind. apply bind_perm_ext. intros g Hin. cbn.
    transitivity (cs_id <$> if bool_decide (cgs_id g ∈ expanded_groups s) then group_members s g else []);
      [by case_bool_decide |]. apply fmap_Permutation. case_bool_decide as He.
    + rewrite group_members_perm by done. apply reflexive_eq, List.filter_ext. intros c. unfold open_member.
      case_bool_decide as Ek; [| done]. rewrite Ek. cbn. by rewrite bool_decide_eq_true_2.
    + apply reflexive_eq. unfold with_key. generalize (source_rows s). intros l. induction l as [|c l IH]; [done |]. cbn [List.filter].
      rewrite <- IH. case_bool_decide as Ek; [| done]. unfold open_member. rewrite Ek. cbn. by rewrite bool_decide_eq_false_2.
  - apply fmap_Permutation. rewrite partition_perm.
    + apply reflexive_eq, List.filter_ext. intros c. unfold open_member. by destruct (group_of_container s c).
    + exact group_ids_NoDup.
    + intros c k Hc (m & Hm & ->)%fmap_Some. destruct (group_for (endpoint_key s) _ c m Hc Hm) as (g & Hin & <- & _).
      apply list_elem_of_fmap. exists g. by rewrite Hg.
Qed.

(** *** The sections *)
Lemma section_order_complete (f : ContainerSection) : f ∈ section_order s.
Proof. unfold section_order, DISPLAY_ORDER. destruct (sort_mode s), f; set_solver. Qed.
Lemma section_order_NoDup : NoDup (section_order s).
Proof. unfold section_order, DISPLAY_ORDER. apply (bool_decide_unpack _). by destruct (sort_mode s). Qed.

Lemma by_section {A B} (f : A → ContainerSection) (q : A → bool) (h : A → list B) l :
  (section_order s ≫= fun sec => List.filter (fun x => q x && bool_decide (f x = sec)) l ≫= h) ≡ₚ List.filter q l ≫= h.
Proof.
  transitivity ((section_order s ≫= fun sec => with_key (Some ∘ f) q sec l) ≫= h).
  - rewrite <- (list_bind_bind (fun sec => with_key (Some ∘ f) q sec l)). apply reflexive_eq, list_bind_ext; [| done]. intros sec. f_equal. apply List.filter_ext.
    intros x. rewrite andb_comm. f_equal. apply bool_decide_ext. cbn. split; congruence.
  - apply bind_Permutation. rewrite partition_perm; [| exact section_order_NoDup | intros; apply section_order_complete].
    apply reflexive_eq, List.filter_ext. intros x. by rewrite bool_decide_eq_true_2 by (cbn; eauto).
Qed.

Lemma hidden_group_empty g : group_shown s g = false → item_ids s (GroupItem g) = [].
Proof.
  unfold group_shown. intros [H1 H2]%orb_false_iff. cbn. case_bool_decide; [| done]. unfold group_members. rewrite H1.
  by destruct (matching_members s (cgs_id g)).
Qed.

Lemma listed_exact : container_ids (listing s) ≡ₚ cs_id <$> List.filter (container_listed s) (source_rows s).
Proof.
  rewrite listing_ids_items.
  transitivity ((List.filter (group_shown s) (groups s) ≫= fun g => item_ids s (GroupItem g))
    ++ (List.filter (fun c => negb (bool_decide (is_Some (member_to_group s !! cs_id c))) && summary_matches s c) (source_rows s)
         ≫= fun c => [cs_id c])).
  - rewrite <- (by_section section_from_group), <- (by_section (fun c => section_from_state (cs_state c))), <- bind_app_perm.
    apply bind_perm_ext. intros sec _. unfold section_items. rewrite sort_by_perm, bind_app, !list_fmap_bind. done.
  - assert ((List.filter (group_shown s) (groups s) ≫= fun g => item_ids s (GroupItem g))
      = (groups s ≫= fun g => item_ids s (GroupItem g))) as ->.
    { generalize (groups s). intros l. induction l as [|g l IH]; [done |]. cbn [List.filter]. rewrite bind_cons, <- IH.
      destruct (group_shown s g) eqn:E; [done |]. by rewrite hidden_group_empty. }
    rewrite groups_listed, <- (list_bind_singleton cs_id), <- fmap_app. apply fmap_Permutation, filter_or_perm.
    intros c Hc. rewrite member_to_group_source by done. unfold container_listed, open_member.
    destruct (group_of_container s c); cbn; [by rewrite orb_false_r, andb_false_r | done].
Qed.
End distinct.
End listing.

Section page.
Context {HO : HashOrder} `{!TimeFormat}.

(** The list shows exactly what it should.  After any sequence of events, when
    the containers of the last refresh have different ids, the containers in the
    shown rows are, each once: those in no Compose project that match the search,
    and those whose project's group is open and that match it, or whose project
    does. *)
Theorem listing_exact key ops :
  let s := page_run key ops in
  NoDup (cs_id <$> source_rows s) →
  container_ids (visible_rows s) ≡ₚ cs_id <$> List.filter (container_listed s) (source_rows s).
Proof.
  intros s Hnd. destruct (page_inv_run key ops) as [Hv _ Hg _ _]. fold s in Hv, Hg. rewrite Hv. by apply listed_exact.
Qed.
End page.

(** ** Runs *)
Definition plain_time : TimeFormat := {| format_utc := u64_to_string ∘ Z.abs |}.
#[local] Existing Instance list_order.
#[local] Existing Instance plain_time.

Definition in_project_alpha (name : string) (state : ContainerRuntimeState) : ContainerSummary :=
  sample_container (bytes name) state [(COMPOSE_PROJECT_LABEL, bytes "alpha"); (COMPOSE_SERVICE_LABEL, bytes name)].
Definition alpha_rows : list ContainerSummary :=
  [in_project_alpha "web" Runtime_Running; sample_container (bytes "cache") Runtime_Exited []; in_project_alpha "db" Runtime_Exited].
Definition alpha_id : text := opaque_group_id (Build_ContainerGroupId (bytes "e") (bytes "alpha")).

Definition run_page := @page_run list_order plain_time (bytes "e").

Lemma listing_exact_witness :
  let s := run_page [PBeginRefresh; PLive 1 alpha_rows; PSearch (bytes "db")] in
  NoDup (cs_id <$> source_rows s)
  ∧ container_ids (visible_rows s) ≡ₚ cs_id <$> List.filter (container_listed s) (source_rows s)
  ∧ container_ids (visible_rows s) = [bytes "id-db"].
Proof.
  intros s. assert (NoDup (cs_id <$> source_rows s)) as Hnd by (apply (bool_decide_unpack _); vm_compute; exact I).
  split; [exact Hnd | split; [exact (@listing_exact list_order plain_time (bytes "e") _ Hnd) |]].
  vm_compute. reflexivity.
Defined.

(** A group operation that is under way while a refresh no longer lists the group
    is never finished: its answer finds no group and is dropped, and when the group
    is back no operation on it can start. *)
Theorem group_operation_stuck :
  let s := run_page [PBeginRefresh; PLive 1 alpha_rows; PBeginGroup alpha_id Group_Restarting] in
  let s := page_step (page_step s PBeginRefresh) (PLive 2 []) in
  let answer := finish_group_operation s alpha_id 1 (mkGroupOperationResult Group_Restarting []) in
  let s := page_step (page_step answer.2 PBeginRefresh) (PLive 3 alpha_rows) in
  answer.1 = false ∧ is_Some (group_id_from_opaque s alpha_id)
  ∧ (begin_group_operation s alpha_id Group_Stopping).1 = None.
Proof. vm_compute. split_and!; eauto. Qed.

(** When one member of the selected group is removed the group's detail keeps
    listing it until the next refresh. *)
Theorem removed_member_still_in_detail :
  let s := run_page [PBeginRefresh; PLive 1 alpha_rows; PSelectRow alpha_id; PRemove [bytes "id-db"]] in
  (cs_id <$> source_rows s) = [bytes "id-web"; bytes "id-cache"]
  ∧ (fun d => gm_id <$> gd_members d) <$> group_detail s = Some [bytes "id-db"; bytes "id-web"].
Proof. vm_compute. done. Qed.
