(* ===== verification/PageFormat.v ===== *)
(** What the image, network and volume pages of the graphical interface share
    (crates/gui/src/models): sizes and ages as text, placeholders for missing
    values, key and value rows, and the shape of a filtered and sorted list. *)

From Stdlib Require Import SpecFloat.
From S2P Require Import Prelude Path Numbers Utf8 Text Domain.

Local Open Scope Z_scope.

(** [str::to_lowercase], which folds the case of all of Unicode. *)
Class Lowercase := { to_lowercase : text → text }.

(** [format("%b %-d, %Y %H:%M UTC")], [format("%Y-%m-%d")] and [format("%Y-%m-%d %H:%M")] *)
Class DateFormat := {
  full_utc_time : DateTime → text;
  format_date : DateTime → text;
  format_minute : DateTime → text;
}.

Definition dash : text := [of_u8 0xE2; of_u8 0x80; of_u8 0x94].
Definition middle_dot : text := [of_u8 0xC2; of_u8 0xB7].
Definition non_empty (value : option text) : option text :=
  match value with Some v => if is_empty v then None else Some v | None => None end.
Definition value_or_dash (value : option text) : text := default dash (non_empty value).

(** [s.chars().take(n)] and [s.chars().count()]: a character starts at each byte
    that does not continue one. *)
Fixpoint take_chars (n : nat) (s : text) : text :=
  match s with
  | [] => []
  | b :: s => if is_cont b then b :: take_chars n s else match n with O => [] | S n => b :: take_chars n s end
  end.
Definition count_chars (s : text) : nat := length (List.filter (fun b => negb (is_cont b)) s).

(** ** Sizes *)

(** [bytes as f64] *)
Definition f64_of (n : Z) : f64 := binary_normalize 53 1024 n 0 false.

(** The nearest integer to [n / d], the even one of two. *)
Definition round_half_even (n d : Z) : Z :=
  let q := n / d in
  match 2 * (n mod d) ?= d with Lt => q | Gt => q + 1 | Eq => if Z.even q then q else q + 1 end.

(** [format!("{x:.1}")] of a number that is not negative *)
Definition format_tenths (x : f64) : text :=
  match x with
  | S754_finite _ m e =>
      let tenths := if 0 <=? e then Z.pos m * 2 ^ e * 10 else round_half_even (Z.pos m * 10) (2 ^ (- e)) in
      u64_to_string (tenths / 10) ++ bytes "." ++ u64_to_string (tenths mod 10)
  | S754_zero _ => bytes "0.0"
  | S754_infinity _ => bytes "inf"
  | S754_nan => bytes "NaN"
  end.

Definition UNITS : list text := bytes <$> ["B"; "KiB"; "MiB"; "GiB"; "TiB"]%string.

(** The loop over the units; [rest] counts those left. *)
Fixpoint scale_unit (rest : nat) (value : f64) (unit : nat) : f64 * nat :=
  match rest with
  | O => (value, unit)
  | S rest => if SFleb (f64_of 1024) value then scale_unit rest (SFdiv 53 1024 value (f64_of 1024)) (S unit) else (value, unit)
  end.

Definition format_bytes (n : Z) : text :=
  if n <? 1024 then u64_to_string n ++ bytes " B"
  else let '(value, unit) := scale_unit 4 (f64_of n) 0 in format_tenths value ++ bytes " " ++ nth unit UNITS [].

Lemma format_bytes_examples :
  format_bytes 1023 = bytes "1023 B" ∧ format_bytes 1536 = bytes "1.5 KiB" ∧ format_bytes 1047552 = bytes "1023.0 KiB"
  ∧ format_bytes (5 * 2 ^ 40) = bytes "5.0 TiB" ∧ format_bytes 1280 = bytes "1.2 KiB" ∧ format_bytes u64_max = bytes "16777216.0 TiB".
Proof. vm_compute. done. Qed.

(** ** Ages *)
Definition relative_unit (value : Z) (unit : string) : text :=
  u64_to_string value ++ bytes " " ++ bytes unit ++ (if value =? 1 then [] else bytes "s") ++ bytes " ago".

(** Whole units of an age are cut towards zero. *)
Definition relative_time_at `{!DateFormat} (created now : DateTime) : text :=
  let seconds := Z.quot (now - created) 1000000000 in
  let days := Z.quot seconds 86400 in
  if seconds <? 0 then full_utc_time created
  else if seconds <? 60 then bytes "just now"
  else if Z.quot seconds 60 <? 60 then relative_unit (Z.quot seconds 60) "minute"
  else if Z.quot seconds 3600 <? 24 then relative_unit (Z.quot seconds 3600) "hour"
  else if days <? 14 then relative_unit days "day"
  else if days <? 60 then relative_unit (Z.quot days 7) "week"
  else format_date created.

(** ** Rows *)
Record KeyValueRow := mkKeyValue { kv_key : text; kv_value : text }.

(** A [BTreeMap] in the order of its keys. *)
Definition btree_pairs (values : Labels) : list KeyValueRow :=
  (fun '(key, value) => mkKeyValue key value) <$> sort_by (cmp_by fst bytes_cmp) (map_to_list values).

Definition sorted_pairs `{!Lowercase} (values : Labels) : list KeyValueRow :=
  sort_by (cmp_then (cmp_by (fun r => to_lowercase (kv_key r)) bytes_cmp) (cmp_by kv_key bytes_cmp)) (btree_pairs values).

Definition label_matches `{!Lowercase} (query : text) (labels : Labels) : bool :=
  existsb (fun '(key, value) => str_contains (to_lowercase key) query || str_contains (to_lowercase value) query)
    (map_to_list labels).

(** Optional values with [None] last in both directions. *)
Definition compare_optional (descending : bool) (left right : option Z) : comparison :=
  match left, right with
  | Some l, Some r => if descending then r ?= l else l ?= r
  | Some _, None => Lt
  | None, Some _ => Gt
  | None, None => Eq
  end.

(** ** Lists *)
Section list_rows.
Context {A : Type}.

(** [iter_mut().find(…)] and an assignment to what it finds *)
Fixpoint update_first (p : A → bool) (f : A → A) (l : list A) : list A :=
  match l with [] => [] | x :: l => if p x then f x :: l else x :: update_first p f l end.

Lemma update_first_fmap {B} (g : A → B) p f l : (∀ x, p x = true → g (f x) = g x) → g <$> update_first p f l = g <$> l.
Proof. intros H. induction l as [|x l IH]; [done |]. cbn. destruct (p x) eqn:E; cbn; [by rewrite H | by rewrite IH]. Qed.

(** The row that takes the place of a removed one: the next, else the last. *)
Definition neighbour (old_index : nat) (rows : list A) : option A := rows !! Nat.min old_index (length rows - 1).

Lemma neighbour_elem i rows x : neighbour i rows = Some x → x ∈ rows.
Proof. apply list_elem_of_lookup_2. Qed.
End list_rows.

(** *** Rows by key *)
Section keyed.
Context {A : Type} (key : A → text).

(** [rows.iter().any(|row| row.key == id)] *)
Definition key_exists (id : text) (rows : list A) : bool := existsb (fun row => bool_decide (key row = id)) rows.
Definition without_key (id : text) (rows : list A) : list A := List.filter (fun row => negb (bool_decide (key row = id))) rows.

Lemma key_exists_spec id rows : key_exists id rows = true ↔ ∃ row, row ∈ rows ∧ key row = id.
Proof.
  unfold key_exists. rewrite existsb_exists. setoid_rewrite bool_decide_eq_true. setoid_rewrite list_elem_of_In. done.
Qed.

Lemma key_exists_elem row rows : row ∈ rows → key_exists (key row) rows = true.
Proof. intros H. apply key_exists_spec. eauto. Qed.

Lemma key_exists_keys id rows : key_exists id rows = bool_decide (id ∈ key <$> rows).
Proof.
  apply eq_true_iff_eq. rewrite key_exists_spec, bool_decide_eq_true, list_elem_of_fmap. naive_solver.
Qed.

Lemma key_exists_same id rows rows' : key <$> rows = key <$> rows' → key_exists id rows = key_exists id rows'.
Proof. intros H. by rewrite !key_exists_keys, H. Qed.

Lemma key_exists_without id id' rows : id' ≠ id → key_exists id' (without_key id rows) = key_exists id' rows.
Proof.
  intros Hne. unfold key_exists, without_key. induction rows as [|x rows IH]; [done |]. cbn. destruct (decide (key x = id)) as [E|E].
  - rewrite (bool_decide_eq_true_2 (key x = id)), (bool_decide_eq_false_2 (key x = id')) by congruence. done.
  - rewrite (bool_decide_eq_false_2 (key x = id)) by done. cbn. by rewrite IH.
Qed.
End keyed.
#[global] Arguments key_exists {A} key id rows : simpl never.
#[global] Arguments without_key {A} key id rows : simpl never.

Lemma shown_elem {A} (cmp : A → A → comparison) p l x : x ∈ sort_by cmp (List.filter p l) → x ∈ l.
Proof. rewrite sort_by_perm, list_elem_of_In, filter_In, <- list_elem_of_In. tauto. Qed.

(** Changing what neither the filter nor the order looks at changes each shown row. *)
Lemma insert_by_fmap {A} (cmp : A → A → comparison) (f : A → A) x l :
  (∀ a b, cmp (f a) (f b) = cmp a b) → insert_by cmp (f x) (f <$> l) = f <$> insert_by cmp x l.
Proof. intros H. induction l as [|y l IH]; [done |]. cbn. rewrite H. destruct (cmp x y); [done | done |]. cbn. by rewrite <- IH. Qed.

Lemma shown_fmap {A} (cmp : A → A → comparison) (p : A → bool) (f : A → A) l :
  (∀ a b, cmp (f a) (f b) = cmp a b) → (∀ a, p (f a) = p a) →
  sort_by cmp (List.filter p (f <$> l)) = f <$> sort_by cmp (List.filter p l).
Proof.
  intros Hc Hp. induction l as [|x l IH]; [done |]. cbn. rewrite Hp. destruct (p x); [| exact IH].
  change (insert_by cmp (f x) (sort_by cmp (List.filter p (f <$> l))) = f <$> insert_by cmp x (sort_by cmp (List.filter p l))).
  rewrite IH. by apply insert_by_fmap.
Qed.
