(* ===== verification/ContainerLogs.v ===== *)
(** The log view of the graphical interface
    (crates/gui/src/controllers/container_logs.rs): which containers are followed
    with which options, the bounded list of lines that is shown, and the lines held
    back while it is paused.

    Lines come in batches with the generation of the stream they belong to; a batch
    of another generation is dropped.  Time is chrono's: what the code uses of it is
    an interface. *)

From S2P Require Import Prelude Path Numbers Text Domain PageFormat.

Local Open Scope Z_scope.

Definition DEFAULT_LOG_TAIL : Z := 1000.
Definition LOG_TAIL_VALUES : list Z := [100; 500; 1000; 5000].
Definition MAX_LOG_LINES : Z := 20000.
Definition MAX_LOG_BYTES : Z := 32 * 1024 * 1024.
Definition DISCARDED_NOTICE : text := bytes "Older log entries were discarded from this view.".

(** [eq_ignore_ascii_case] *)
Definition eq_ignore_ascii_case (a b : text) : bool := bool_decide (to_ascii_lowercase a = to_ascii_lowercase b).

(** [str::split_terminator]: a last empty piece is left out. *)
Definition split_terminator (sep : byte) (s : text) : list text :=
  let pieces := split_on sep s in
  if bool_decide (list.last pieces = Some []) then removelast pieces else pieces.

Definition strip_suffix (p s : text) : option text := reverse <$> strip_prefix (reverse p) (reverse s).

Inductive LiveLogsStatus := Logs_Idle | Logs_Streaming | Logs_Ready | Logs_Error.
#[export] Instance LiveLogsStatus_eq_dec : EqDecision LiveLogsStatus.
Proof. solve_decision. Defined.

Record LogTarget := mkLogTarget { lt_id : text; lt_name : text; lt_running : bool }.
#[export] Instance LogTarget_eq_dec : EqDecision LogTarget.
Proof. solve_decision. Defined.

Inductive LogTail := Tail_Lines (lines : Z) | Tail_All.
#[export] Instance LogTail_eq_dec : EqDecision LogTail.
Proof. solve_decision. Defined.

Definition LogTail_parse (value : text) : result text LogTail :=
  let value := trim value in
  let message := bytes "Tail must be 100, 500, 1000, 5000, or all." in
  if eq_ignore_ascii_case value (bytes "all") then Ok Tail_All
  else
    match parse_unsigned usize_max value with
    | None => Err message
    | Some lines => if bool_decide (lines ∈ LOG_TAIL_VALUES) then Ok (Tail_Lines lines) else Err message
    end.

Definition LogTail_as_str (self : LogTail) : text :=
  match self with Tail_Lines lines => u64_to_string lines | Tail_All => bytes "all" end.
Definition LogTail_docker_value (self : LogTail) : option Z :=
  match self with Tail_Lines lines => Some lines | Tail_All => None end.

Inductive LogSince := Since_All | Since_Timestamp (value : DateTime).
Definition LogSince_docker_value (self : LogSince) : option DateTime :=
  match self with Since_All => None | Since_Timestamp value => Some value end.

Record LogMemberOption := mkLogMemberOption { mo_id : text; mo_name : text; mo_label : text }.

Record LogViewportLine := mkLogViewportLine {
  lv_sequence : Z;
  lv_container_id : text;
  lv_container_name : text;
  lv_stream : text;
  lv_timestamp : text;
  lv_message : text;
  lv_display : text;
  lv_byte_size : Z;
}.

(** What the code uses of chrono: RFC 3339 texts, the time of a number of seconds,
    a duration of so many seconds ([TimeDelta::seconds], which panics outside its
    range), and the time that long before another. *)
Class LogTime := {
  TimeDelta : Type;
  to_rfc3339_millis : DateTime → text;
  parse_from_rfc3339 : text → option DateTime;
  from_timestamp_secs : Z → option DateTime;
  TimeDelta_seconds : Z → result text TimeDelta;
  checked_sub_signed : DateTime → TimeDelta → option DateTime;
}.

Definition stream_name (stream : LogStream) : text :=
  match stream with
  | Log_Stdout => bytes "stdout"
  | Log_Stderr => bytes "stderr"
  | Log_Console => bytes "console"
  | Log_Unknown => bytes "unknown"
  end.

Section lines.
Context {LT : LogTime}.

(** The lengths of texts in memory do not overflow a [usize]. *)
Definition viewport_line (sequence : Z) (target : LogTarget) (group : bool) (stream timestamp : text) (offset : nat)
  (message : text) : LogViewportLine :=
  let display :=
    (if group then bytes "[" ++ lt_name target ++ bytes "] " else [])
    ++ (if is_empty timestamp then [] else timestamp ++ bytes " ") ++ message in
  mkLogViewportLine (saturating_add u64_max sequence (Z.of_nat offset)) (lt_id target) (lt_name target) stream timestamp message
    display (len display + len (lt_id target) + len (lt_name target) + len stream + len timestamp).

Definition from_domain (sequence : Z) (target : LogTarget) (group timestamps : bool) (line : LogLine) : list LogViewportLine :=
  let stream := stream_name (ll_stream line) in
  let timestamp := if timestamps then from_option to_rfc3339_millis [] (ll_timestamp line) else [] in
  let messages := (fun value => default value (strip_suffix [of_u8 13] value)) <$> split_terminator (of_u8 10) (ll_message line) in
  let messages := if is_empty messages then [[]] else messages in
  imap (viewport_line sequence target group stream timestamp) messages.
End lines.

Record ContainerLogsState := mkContainerLogsState {
  ls_selection_kind : text;
  ls_selection_id : text;
  ls_targets : list LogTarget;
  ls_active : bool;
  ls_generation : Z;
  ls_status : LiveLogsStatus;
  ls_error_message : text;
  ls_validation_error : text;
  ls_stdout : bool;
  ls_stderr : bool;
  ls_tail : LogTail;
  ls_since : LogSince;
  ls_since_input : text;
  ls_timestamps : bool;
  ls_follow : bool;
  ls_paused : bool;
  ls_wrap : bool;
  ls_search_query : text;
  ls_member_filter_id : text;
  ls_entries : list LogViewportLine;
  ls_pending : list LogViewportLine;
  ls_viewport_bytes : Z;
  ls_pending_bytes : Z;
  ls_discarded : bool;
  ls_next_sequence : Z;
}.

Definition set_ls_selection_kind (v : text) (self : ContainerLogsState) : ContainerLogsState :=
  mkContainerLogsState v (ls_selection_id self) (ls_targets self) (ls_active self) (ls_generation self)
    (ls_status self) (ls_error_message self) (ls_validation_error self) (ls_stdout self) (ls_stderr self)
    (ls_tail self) (ls_since self) (ls_since_input self) (ls_timestamps self) (ls_follow self) (ls_paused self)
    (ls_wrap self) (ls_search_query self) (ls_member_filter_id self) (ls_entries self) (ls_pending self)
    (ls_viewport_bytes self) (ls_pending_bytes self) (ls_discarded self) (ls_next_sequence self).
Definition set_ls_selection_id (v : text) (self : ContainerLogsState) : ContainerLogsState :=
  mkContainerLogsState (ls_selection_kind self) v (ls_targets self) (ls_active self) (ls_generation self)
    (ls_status self) (ls_error_message self) (ls_validation_error self) (ls_stdout self) (ls_stderr self)
    (ls_tail self) (ls_since self) (ls_since_input self) (ls_timestamps self) (ls_follow self) (ls_paused self)
    (ls_wrap self) (ls_search_query self) (ls_member_filter_id self) (ls_entries self) (ls_pending self)
    (ls_viewport_bytes self) (ls_pending_bytes self) (ls_discarded self) (ls_next_sequence self).
Definition set_ls_targets (v : list LogTarget) (self : ContainerLogsState) : ContainerLogsState :=
  mkContainerLogsState (ls_selection_kind self) (ls_selection_id self) v (ls_active self) (ls_generation self)
    (ls_status self) (ls_error_message self) (ls_validation_error self) (ls_stdout self) (ls_stderr self)
    (ls_tail self) (ls_since self) (ls_since_input self) (ls_timestamps self) (ls_follow self) (ls_paused self)
    (ls_wrap self) (ls_search_query self) (ls_member_filter_id self) (ls_entries self) (ls_pending self)
    (ls_viewport_bytes self) (ls_pending_bytes self) (ls_discarded self) (ls_next_sequence self).
Definition set_ls_active (v : bool) (self : ContainerLogsState) : ContainerLogsState :=
  mkContainerLogsState (ls_selection_kind self) (ls_selection_id self) (ls_targets self) v (ls_generation self)
    (ls_status self) (ls_error_message self) (ls_validation_error self) (ls_stdout self) (ls_stderr self)
    (ls_tail self) (ls_since self) (ls_since_input self) (ls_timestamps self) (ls_follow self) (ls_paused self)
    (ls_wrap self) (ls_search_query self) (ls_member_filter_id self) (ls_entries self) (ls_pending self)
    (ls_viewport_bytes self) (ls_pending_bytes self) (ls_discarded self) (ls_next_sequence self).
Definition set_ls_generation (v : Z) (self : ContainerLogsState) : ContainerLogsState :=
  mkContainerLogsState (ls_selection_kind self) (ls_selection_id self) (ls_targets self) (ls_active self) v
    (ls_status self) (ls_error_message self) (ls_validation_error self) (ls_stdout self) (ls_stderr self)
    (ls_tail self) (ls_since self) (ls_since_input self) (ls_timestamps self) (ls_follow self) (ls_paused self)
    (ls_wrap self) (ls_search_query self) (ls_member_filter_id self) (ls_entries self) (ls_pending self)
    (ls_viewport_bytes self) (ls_pending_bytes self) (ls_discarded self) (ls_next_sequence self).
Definition set_ls_status (v : LiveLogsStatus) (self : ContainerLogsState) : ContainerLogsState :=
  mkContainerLogsState (ls_selection_kind self) (ls_selection_id self) (ls_targets self) (ls_active self)
    (ls_generation self) v (ls_error_message self) (ls_validation_error self) (ls_stdout self) (ls_stderr self)
    (ls_tail self) (ls_since self) (ls_since_input self) (ls_timestamps self) (ls_follow self) (ls_paused self)
    (ls_wrap self) (ls_search_query self) (ls_member_filter_id self) (ls_entries self) (ls_pending self)
    (ls_viewport_bytes self) (ls_pending_bytes self) (ls_discarded self) (ls_next_sequence self).
Definition set_ls_error_message (v : text) (self : ContainerLogsState) : ContainerLogsState :=
  mkContainerLogsState (ls_selection_kind self) (ls_selection_id self) (ls_targets self) (ls_active self)
    (ls_generation self) (ls_status self) v (ls_validation_error self) (ls_stdout self) (ls_stderr self)
    (ls_tail self) (ls_since self) (ls_since_input self) (ls_timestamps self) (ls_follow self) (ls_paused self)
    (ls_wrap self) (ls_search_query self) (ls_member_filter_id self) (ls_entries self) (ls_pending self)
    (ls_viewport_bytes self) (ls_pending_bytes self) (ls_discarded self) (ls_next_sequence self).
Definition set_ls_validation_error (v : text) (self : ContainerLogsState) : ContainerLogsState :=
  mkContainerLogsState (ls_selection_kind self) (ls_selection_id self) (ls_targets self) (ls_active self)
    (ls_generation self) (ls_status self) (ls_error_message self) v (ls_stdout self) (ls_stderr self)
    (ls_tail self) (ls_since self) (ls_since_input self) (ls_timestamps self) (ls_follow self) (ls_paused self)
    (ls_wrap self) (ls_search_query self) (ls_member_filter_id self) (ls_entries self) (ls_pending self)
    (ls_viewport_bytes self) (ls_pending_bytes self) (ls_discarded self) (ls_next_sequence self).
Definition set_ls_stdout (v : bool) (self : ContainerLogsState) : ContainerLogsState :=
  mkContainerLogsState (ls_selection_kind self) (ls_selection_id self) (ls_targets self) (ls_active self)
    (ls_generation self) (ls_status self) (ls_error_message self) (ls_validation_error self) v (ls_stderr self)
    (ls_tail self) (ls_since self) (ls_since_input self) (ls_timestamps self) (ls_follow self) (ls_paused self)
    (ls_wrap self) (ls_search_query self) (ls_member_filter_id self) (ls_entries self) (ls_pending self)
    (ls_viewport_bytes self) (ls_pending_bytes self) (ls_discarded self) (ls_next_sequence self).
Definition set_ls_stderr (v : bool) (self : ContainerLogsState) : ContainerLogsState :=
  mkContainerLogsState (ls_selection_kind self) (ls_selection_id self) (ls_targets self) (ls_active self)
    (ls_generation self) (ls_status self) (ls_error_message self) (ls_validation_error self) (ls_stdout self) v
    (ls_tail self) (ls_since self) (ls_since_input self) (ls_timestamps self) (ls_follow self) (ls_paused self)
    (ls_wrap self) (ls_search_query self) (ls_member_filter_id self) (ls_entries self) (ls_pending self)
    (ls_viewport_bytes self) (ls_pending_bytes self) (ls_discarded self) (ls_next_sequence self).
Definition set_ls_tail (v : LogTail) (self : ContainerLogsState) : ContainerLogsState :=
  mkContainerLogsState (ls_selection_kind self) (ls_selection_id self) (ls_targets self) (ls_active self)
    (ls_generation self) (ls_status self) (ls_error_message self) (ls_validation_error self) (ls_stdout self)
    (ls_stderr self) v (ls_since self) (ls_since_input self) (ls_timestamps self) (ls_follow self)
    (ls_paused self) (ls_wrap self) (ls_search_query self) (ls_member_filter_id self) (ls_entries self)
    (ls_pending self) (ls_viewport_bytes self) (ls_pending_bytes self) (ls_discarded self)
    (ls_next_sequence self).
Definition set_ls_since (v : LogSince) (self : ContainerLogsState) : ContainerLogsState :=
  mkContainerLogsState (ls_selection_kind self) (ls_selection_id self) (ls_targets self) (ls_active self)
    (ls_generation self) (ls_status self) (ls_error_message self) (ls_validation_error self) (ls_stdout self)
    (ls_stderr self) (ls_tail self) v (ls_since_input self) (ls_timestamps self) (ls_follow self)
    (ls_paused self) (ls_wrap self) (ls_search_query self) (ls_member_filter_id self) (ls_entries self)
    (ls_pending self) (ls_viewport_bytes self) (ls_pending_bytes self) (ls_discarded self)
    (ls_next_sequence self).
Definition set_ls_since_input (v : text) (self : ContainerLogsState) : ContainerLogsState :=
  mkContainerLogsState (ls_selection_kind self) (ls_selection_id self) (ls_targets self) (ls_active self)
    (ls_generation self) (ls_status self) (ls_error_message self) (ls_validation_error self) (ls_stdout self)
    (ls_stderr self) (ls_tail self) (ls_since self) v (ls_timestamps self) (ls_follow self) (ls_paused self)
    (ls_wrap self) (ls_search_query self) (ls_member_filter_id self) (ls_entries self) (ls_pending self)
    (ls_viewport_bytes self) (ls_pending_bytes self) (ls_discarded self) (ls_next_sequence self).
Definition set_ls_timestamps (v : bool) (self : ContainerLogsState) : ContainerLogsState :=
  mkContainerLogsState (ls_selection_kind self) (ls_selection_id self) (ls_targets self) (ls_active self)
    (ls_generation self) (ls_status self) (ls_error_message self) (ls_validation_error self) (ls_stdout self)
    (ls_stderr self) (ls_tail self) (ls_since self) (ls_since_input self) v (ls_follow self) (ls_paused self)
    (ls_wrap self) (ls_search_query self) (ls_member_filter_id self) (ls_entries self) (ls_pending self)
    (ls_viewport_bytes self) (ls_pending_bytes self) (ls_discarded self) (ls_next_sequence self).
Definition set_ls_follow (v : bool) (self : ContainerLogsState) : ContainerLogsState :=
  mkContainerLogsState (ls_selection_kind self) (ls_selection_id self) (ls_targets self) (ls_active self)
    (ls_generation self) (ls_status self) (ls_error_message self) (ls_validation_error self) (ls_stdout self)
    (ls_stderr self) (ls_tail self) (ls_since self) (ls_since_input self) (ls_timestamps self) v
    (ls_paused self) (ls_wrap self) (ls_search_query self) (ls_member_filter_id self) (ls_entries self)
    (ls_pending self) (ls_viewport_bytes self) (ls_pending_bytes self) (ls_discarded self)
    (ls_next_sequence self).
Definition set_ls_paused (v : bool) (self : ContainerLogsState) : ContainerLogsState :=
  mkContainerLogsState (ls_selection_kind self) (ls_selection_id self) (ls_targets self) (ls_active self)
    (ls_generation self) (ls_status self) (ls_error_message self) (ls_validation_error self) (ls_stdout self)
    (ls_stderr self) (ls_tail self) (ls_since self) (ls_since_input self) (ls_timestamps self) (ls_follow self)
    v (ls_wrap self) (ls_search_query self) (ls_member_filter_id self) (ls_entries self) (ls_pending self)
    (ls_viewport_bytes self) (ls_pending_bytes self) (ls_discarded self) (ls_next_sequence self).
Definition set_ls_wrap (v : bool) (self : ContainerLogsState) : ContainerLogsState :=
  mkContainerLogsState (ls_selection_kind self) (ls_selection_id self) (ls_targets self) (ls_active self)
    (ls_generation self) (ls_status self) (ls_error_message self) (ls_validation_error self) (ls_stdout self)
    (ls_stderr self) (ls_tail self) (ls_since self) (ls_since_input self) (ls_timestamps self) (ls_follow self)
    (ls_paused self) v (ls_search_query self) (ls_member_filter_id self) (ls_entries self) (ls_pending self)
    (ls_viewport_bytes self) (ls_pending_bytes self) (ls_discarded self) (ls_next_sequence self).
Definition set_ls_search_query (v : text) (self : ContainerLogsState) : ContainerLogsState :=
  mkContainerLogsState (ls_selection_kind self) (ls_selection_id self) (ls_targets self) (ls_active self)
    (ls_generation self) (ls_status self) (ls_error_message self) (ls_validation_error self) (ls_stdout self)
    (ls_stderr self) (ls_tail self) (ls_since self) (ls_since_input self) (ls_timestamps self) (ls_follow self)
    (ls_paused self) (ls_wrap self) v (ls_member_filter_id self) (ls_entries self) (ls_pending self)
    (ls_viewport_bytes self) (ls_pending_bytes self) (ls_discarded self) (ls_next_sequence self).
Definition set_ls_member_filter_id (v : text) (self : ContainerLogsState) : ContainerLogsState :=
  mkContainerLogsState (ls_selection_kind self) (ls_selection_id self) (ls_targets self) (ls_active self)
    (ls_generation self) (ls_status self) (ls_error_message self) (ls_validation_error self) (ls_stdout self)
    (ls_stderr self) (ls_tail self) (ls_since self) (ls_since_input self) (ls_timestamps self) (ls_follow self)
    (ls_paused self) (ls_wrap self) (ls_search_query self) v (ls_entries self) (ls_pending self)
    (ls_viewport_bytes self) (ls_pending_bytes self) (ls_discarded self) (ls_next_sequence self).
Definition set_ls_entries (v : list LogViewportLine) (self : ContainerLogsState) : ContainerLogsState :=
  mkContainerLogsState (ls_selection_kind self) (ls_selection_id self) (ls_targets self) (ls_active self)
    (ls_generation self) (ls_status self) (ls_error_message self) (ls_validation_error self) (ls_stdout self)
    (ls_stderr self) (ls_tail self) (ls_since self) (ls_since_input self) (ls_timestamps self) (ls_follow self)
    (ls_paused self) (ls_wrap self) (ls_search_query self) (ls_member_filter_id self) v (ls_pending self)
    (ls_viewport_bytes self) (ls_pending_bytes self) (ls_discarded self) (ls_next_sequence self).
Definition set_ls_pending (v : list LogViewportLine) (self : ContainerLogsState) : ContainerLogsState :=
  mkContainerLogsState (ls_selection_kind self) (ls_selection_id self) (ls_targets self) (ls_active self)
    (ls_generation self) (ls_status self) (ls_error_message self) (ls_validation_error self) (ls_stdout self)
    (ls_stderr self) (ls_tail self) (ls_since self) (ls_since_input self) (ls_timestamps self) (ls_follow self)
    (ls_paused self) (ls_wrap self) (ls_search_query self) (ls_member_filter_id self) (ls_entries self) v
    (ls_viewport_bytes self) (ls_pending_bytes self) (ls_discarded self) (ls_next_sequence self).
Definition set_ls_viewport_bytes (v : Z) (self : ContainerLogsState) : ContainerLogsState :=
  mkContainerLogsState (ls_selection_kind self) (ls_selection_id self) (ls_targets self) (ls_active self)
    (ls_generation self) (ls_status self) (ls_error_message self) (ls_validation_error self) (ls_stdout self)
    (ls_stderr self) (ls_tail self) (ls_since self) (ls_since_input self) (ls_timestamps self) (ls_follow self)
    (ls_paused self) (ls_wrap self) (ls_search_query self) (ls_member_filter_id self) (ls_entries self)
    (ls_pending self) v (ls_pending_bytes self) (ls_discarded self) (ls_next_sequence self).
Definition set_ls_pending_bytes (v : Z) (self : ContainerLogsState) : ContainerLogsState :=
  mkContainerLogsState (ls_selection_kind self) (ls_selection_id self) (ls_targets self) (ls_active self)
    (ls_generation self) (ls_status self) (ls_error_message self) (ls_validation_error self) (ls_stdout self)
    (ls_stderr self) (ls_tail self) (ls_since self) (ls_since_input self) (ls_timestamps self) (ls_follow self)
    (ls_paused self) (ls_wrap self) (ls_search_query self) (ls_member_filter_id self) (ls_entries self)
    (ls_pending self) (ls_viewport_bytes self) v (ls_discarded self) (ls_next_sequence self).
Definition set_ls_discarded (v : bool) (self : ContainerLogsState) : ContainerLogsState :=
  mkContainerLogsState (ls_selection_kind self) (ls_selection_id self) (ls_targets self) (ls_active self)
    (ls_generation self) (ls_status self) (ls_error_message self) (ls_validation_error self) (ls_stdout self)
    (ls_stderr self) (ls_tail self) (ls_since self) (ls_since_input self) (ls_timestamps self) (ls_follow self)
    (ls_paused self) (ls_wrap self) (ls_search_query self) (ls_member_filter_id self) (ls_entries self)
    (ls_pending self) (ls_viewport_bytes self) (ls_pending_bytes self) v (ls_next_sequence self).
Definition set_ls_next_sequence (v : Z) (self : ContainerLogsState) : ContainerLogsState :=
  mkContainerLogsState (ls_selection_kind self) (ls_selection_id self) (ls_targets self) (ls_active self)
    (ls_generation self) (ls_status self) (ls_error_message self) (ls_validation_error self) (ls_stdout self)
    (ls_stderr self) (ls_tail self) (ls_since self) (ls_since_input self) (ls_timestamps self) (ls_follow self)
    (ls_paused self) (ls_wrap self) (ls_search_query self) (ls_member_filter_id self) (ls_entries self)
    (ls_pending self) (ls_viewport_bytes self) (ls_pending_bytes self) (ls_discarded self) v.

Definition ContainerLogsState_default : ContainerLogsState :=
  mkContainerLogsState (bytes "none") [] [] false 0 Logs_Idle [] [] true true (Tail_Lines DEFAULT_LOG_TAIL) Since_All [] true true
    false false [] [] [] [] 0 0 false 1.

(** ** Selection *)
Definition normalize_kind (kind : text) : text :=
  let kind := to_ascii_lowercase (trim kind) in
  if bool_decide (kind = bytes "container") then bytes "container"
  else if bool_decide (kind = bytes "group") then bytes "group"
  else bytes "none".

Definition log_target (index : nat) (id : text) (states names : list text) : LogTarget :=
  let name := match names !! index with Some name => if is_empty name then None else Some name | None => None end in
  mkLogTarget id (default (take_chars 12 id) name)
    (from_option (fun state => eq_ignore_ascii_case state (bytes "running")) false (states !! index)).

(** The loop of [build_targets] from [index] on. *)
Fixpoint build_targets_loop (kind : text) (states names : list text) (index : nat) (ids : list text)
  (result : list LogTarget) : list LogTarget :=
  match ids with
  | [] => result
  | id :: ids =>
      if is_empty (trim id) then build_targets_loop kind states names (S index) ids result
      else if existsb (fun target => bool_decide (lt_id target = id)) result
      then build_targets_loop kind states names (S index) ids result
      else
        let result := result ++ [log_target index id states names] in
        if bool_decide (kind = bytes "container") then result
        else build_targets_loop kind states names (S index) ids result
  end.

Definition build_targets (kind selection_id : text) (ids states names : list text) : list LogTarget :=
  if bool_decide (kind = bytes "none") || is_empty (trim selection_id) then []
  else build_targets_loop kind states names 0 ids [].

Definition clear_viewport (self : ContainerLogsState) : ContainerLogsState :=
  set_ls_discarded false (set_ls_pending_bytes 0 (set_ls_viewport_bytes 0 (set_ls_pending [] (set_ls_entries [] self)))).

Definition should_stream (self : ContainerLogsState) : bool :=
  ls_active self && negb (bool_decide (ls_selection_kind self = bytes "none")) && negb (is_empty (ls_targets self)).

Definition stream_status (self : ContainerLogsState) : ContainerLogsState :=
  set_ls_status (if should_stream self then Logs_Streaming else Logs_Idle) self.

Definition next_generation (self : ContainerLogsState) : ContainerLogsState :=
  set_ls_generation (wrapping_add 64 (ls_generation self) 1) self.

Definition set_selection (kind id : text) (ids states names : list text) (self : ContainerLogsState)
  : bool * ContainerLogsState :=
  let kind := normalize_kind kind in
  let targets := build_targets kind id ids states names in
  if bool_decide (ls_selection_kind self = kind) && bool_decide (ls_selection_id self = id)
     && bool_decide (ls_targets self = targets) then (false, self)
  else
    let self := set_ls_selection_kind kind (next_generation self) in
    let self := set_ls_selection_id (if bool_decide (kind = bytes "none") then [] else id) self in
    let self := clear_viewport (set_ls_member_filter_id [] (set_ls_targets targets self)) in
    (true, stream_status (set_ls_validation_error [] (set_ls_error_message [] (set_ls_paused false self)))).

Definition set_active (active : bool) (self : ContainerLogsState) : bool * ContainerLogsState :=
  if Bool.eqb (ls_active self) active then (false, self)
  else (true, stream_status (next_generation (set_ls_active active self))).

Definition begin_stream (self : ContainerLogsState) : option (Z * list LogTarget) * ContainerLogsState :=
  if negb (should_stream self) then (None, set_ls_status Logs_Idle self)
  else
    let self := set_ls_status Logs_Streaming (set_ls_error_message [] (next_generation self)) in
    (Some (ls_generation self, ls_targets self), self).

(** ** Lines *)
Definition over_cap (lines bytes : Z) : bool := (MAX_LOG_LINES <? lines) || (MAX_LOG_BYTES <? bytes).

Fixpoint enforce_cap (entries : list LogViewportLine) (bytes : Z) (discarded : bool) : list LogViewportLine * Z * bool :=
  match entries with
  | [] => ([], bytes, discarded)
  | removed :: rest =>
      if over_cap (len entries) bytes then enforce_cap rest (saturating_sub bytes (lv_byte_size removed)) true
      else (entries, bytes, discarded)
  end.

(** The turns of [enforce_combined_cap] once the entries are used up. *)
Fixpoint enforce_pending (entry_bytes : Z) (pending : list LogViewportLine) (pending_bytes : Z) (discarded : bool)
  : list LogViewportLine * Z * bool :=
  match pending with
  | [] => ([], pending_bytes, discarded)
  | removed :: rest =>
      if over_cap (saturating_add usize_max 0 (len pending)) (saturating_add usize_max entry_bytes pending_bytes)
      then enforce_pending entry_bytes rest (saturating_sub pending_bytes (lv_byte_size removed)) true
      else (pending, pending_bytes, discarded)
  end.

Fixpoint enforce_combined_cap (entries : list LogViewportLine) (entry_bytes : Z) (pending : list LogViewportLine)
  (pending_bytes : Z) (discarded : bool) : list LogViewportLine * Z * (list LogViewportLine * Z * bool) :=
  match entries with
  | [] => ([], entry_bytes, enforce_pending entry_bytes pending pending_bytes discarded)
  | removed :: rest =>
      if over_cap (saturating_add usize_max (len entries) (len pending)) (saturating_add usize_max entry_bytes pending_bytes)
      then enforce_combined_cap rest (saturating_sub entry_bytes (lv_byte_size removed)) pending pending_bytes true
      else (entries, entry_bytes, (pending, pending_bytes, discarded))
  end.

Definition set_lines (r : list LogViewportLine * Z * (list LogViewportLine * Z * bool)) (self : ContainerLogsState)
  : ContainerLogsState :=
  let '(entries, viewport_bytes, (pending, pending_bytes, discarded)) := r in
  set_ls_discarded discarded (set_ls_pending_bytes pending_bytes (set_ls_viewport_bytes viewport_bytes
    (set_ls_pending pending (set_ls_entries entries self)))).

Definition push_line (self : ContainerLogsState) (line : LogViewportLine) : ContainerLogsState :=
  let self :=
    if ls_paused self then
      set_ls_pending (ls_pending self ++ [line])
        (set_ls_pending_bytes (saturating_add usize_max (ls_pending_bytes self) (lv_byte_size line)) self)
    else
      set_ls_entries (ls_entries self ++ [line])
        (set_ls_viewport_bytes (saturating_add usize_max (ls_viewport_bytes self) (lv_byte_size line)) self) in
  set_lines (enforce_combined_cap (ls_entries self) (ls_viewport_bytes self) (ls_pending self) (ls_pending_bytes self)
               (ls_discarded self)) self.

Section batches.
Context {LT : LogTime}.

Definition apply_line (acc : bool * ContainerLogsState) (item : text * LogLine) : bool * ContainerLogsState :=
  let '(changed, self) := acc in
  match List.find (fun target => bool_decide (lt_id target = item.1)) (ls_targets self) with
  | None => (changed, self)
  | Some target =>
      let lines := from_domain (ls_next_sequence self) target (bool_decide (ls_selection_kind self = bytes "group"))
                     (ls_timestamps self) item.2 in
      let self := set_ls_next_sequence (saturating_add u64_max (ls_next_sequence self) (len lines)) self in
      (changed || negb (is_empty lines), foldl push_line self lines)
  end.

Definition apply_batch (generation : Z) (batch : list (text * LogLine)) (self : ContainerLogsState)
  : bool * ContainerLogsState :=
  if negb (generation =? ls_generation self) || negb (should_stream self) || is_empty batch then (false, self)
  else
    let '(changed, self) := foldl apply_line (false, self) batch in
    (changed, if changed then set_ls_error_message [] (set_ls_status Logs_Ready self) else self).
End batches.

Definition apply_error (generation : Z) (message : text) (self : ContainerLogsState) : bool * ContainerLogsState :=
  if negb (generation =? ls_generation self) || negb (ls_active self) then (false, self)
  else (true, set_ls_error_message message (set_ls_status Logs_Error self)).

(** One turn of the loop that moves the pending lines back. *)
Definition resume_line (self : ContainerLogsState) (line : LogViewportLine) : ContainerLogsState :=
  let self := set_ls_pending_bytes (saturating_sub (ls_pending_bytes self) (lv_byte_size line)) self in
  let self := set_ls_viewport_bytes (saturating_add usize_max (ls_viewport_bytes self) (lv_byte_size line)) self in
  let '(entries, viewport_bytes, discarded) :=
    enforce_cap (ls_entries self ++ [line]) (ls_viewport_bytes self) (ls_discarded self) in
  set_ls_discarded discarded (set_ls_viewport_bytes viewport_bytes (set_ls_entries entries self)).

Definition set_paused (paused : bool) (self : ContainerLogsState) : bool * ContainerLogsState :=
  if Bool.eqb (ls_paused self) paused then (false, self)
  else
    let self := set_ls_paused paused self in
    (true, if negb paused then foldl resume_line (set_ls_pending [] self) (ls_pending self) else self).

(** ** Options *)
Definition advance_stream_generation (self : ContainerLogsState) : ContainerLogsState :=
  stream_status (set_ls_validation_error [] (set_ls_error_message [] (next_generation self))).

Definition set_validation_error (message : text) (self : ContainerLogsState) : bool * ContainerLogsState :=
  if bool_decide (ls_validation_error self = message) then (false, self) else (true, set_ls_validation_error message self).

Definition clear_validation_error (self : ContainerLogsState) : bool * ContainerLogsState :=
  if is_empty (ls_validation_error self) then (false, self) else (true, set_ls_validation_error [] self).

Definition set_search (query : text) (self : ContainerLogsState) : bool * ContainerLogsState :=
  if bool_decide (ls_search_query self = query) then (false, self) else (true, set_ls_search_query query self).
Definition set_wrap (wrap : bool) (self : ContainerLogsState) : bool * ContainerLogsState :=
  if Bool.eqb (ls_wrap self) wrap then (false, self) else (true, set_ls_wrap wrap self).
Definition set_follow (follow : bool) (self : ContainerLogsState) : bool * ContainerLogsState :=
  if Bool.eqb (ls_follow self) follow then clear_validation_error self
  else (true, advance_stream_generation (set_ls_follow follow self)).
Definition set_timestamps (timestamps : bool) (self : ContainerLogsState) : bool * ContainerLogsState :=
  if Bool.eqb (ls_timestamps self) timestamps then clear_validation_error self
  else (true, advance_stream_generation (set_ls_timestamps timestamps self)).

Definition no_stream_message : text := bytes "At least one of stdout or stderr must be enabled.".
Definition set_stdout (enabled : bool) (self : ContainerLogsState) : bool * ContainerLogsState :=
  if negb enabled && negb (ls_stderr self) then set_validation_error no_stream_message self
  else if Bool.eqb (ls_stdout self) enabled then clear_validation_error self
  else (true, advance_stream_generation (set_ls_stdout enabled self)).
Definition set_stderr (enabled : bool) (self : ContainerLogsState) : bool * ContainerLogsState :=
  if negb enabled && negb (ls_stdout self) then set_validation_error no_stream_message self
  else if Bool.eqb (ls_stderr self) enabled then clear_validation_error self
  else (true, advance_stream_generation (set_ls_stderr enabled self)).

Definition set_tail (value : text) (self : ContainerLogsState) : bool * ContainerLogsState :=
  match LogTail_parse value with
  | Ok tail =>
      if bool_decide (ls_tail self = tail) then clear_validation_error self
      else (true, advance_stream_generation (set_ls_tail tail self))
  | Err message => set_validation_error message self
  | Panic _ => (false, self)
  end.

Section since.
Context {LT : LogTime}.

Definition validated_since_timestamp (seconds : Z) : result text LogSince :=
  if negb ((- 2 ^ 31 <=? seconds) && (seconds <? 2 ^ 31))
  then Err (bytes "Since is outside the Docker API timestamp range supported here.")
  else
    match from_timestamp_secs seconds with
    | Some value => Ok (Since_Timestamp value)
    | None => Err (bytes "Since is outside the supported timestamp range.")
    end.

Definition seconds_per_unit (unit : text) : option Z :=
  if bool_decide (unit ∈ bytes <$> ["s"; "sec"; "secs"; "second"; "seconds"]%string) then Some 1
  else if bool_decide (unit ∈ bytes <$> ["m"; "min"; "mins"; "minute"; "minutes"]%string) then Some 60
  else if bool_decide (unit ∈ bytes <$> ["h"; "hour"; "hours"]%string) then Some (60 * 60)
  else if bool_decide (unit ∈ bytes <$> ["d"; "day"; "days"]%string) then Some (24 * 60 * 60)
  else None.

(** The leading digits and what follows them. *)
Fixpoint split_digits (s : text) : text * text :=
  match s with
  | b :: rest => if is_ascii_digit b then let '(ds, unit) := split_digits rest in (b :: ds, unit) else ([], s)
  | [] => ([], [])
  end.

Definition checked_mul_i64 (a b : Z) : option Z :=
  let v := a * b in if (- 2 ^ 63 <=? v) && (v <=? i64_max) then Some v else None.

Definition since_message : text :=
  bytes "Since must be all, a Unix timestamp, RFC 3339, or a duration such as 5m, 1h, or 24h.".

Definition parse_since_at (input : text) (now : DateTime) : result text LogSince :=
  if is_empty input || eq_ignore_ascii_case input (bytes "all") || eq_ignore_ascii_case input (bytes "all time")
  then Ok Since_All
  else
    match parse_i64 input with
    | Some seconds => validated_since_timestamp seconds
    | None =>
        match parse_from_rfc3339 input with
        | Some value => validated_since_timestamp (timestamp value)
        | None =>
            let lower := to_ascii_lowercase input in
            let relative := default lower (strip_suffix (bytes " ago") lower) in
            let '(amount, unit) := split_digits relative in
            match parse_i64 amount, seconds_per_unit (trim unit) with
            | Some amount, Some per =>
                if negb (0 <? amount) then Err since_message
                else
                  match checked_mul_i64 amount per with
                  | None => Err since_message
                  | Some seconds =>
                      delta ← TimeDelta_seconds seconds;
                      match checked_sub_signed now delta with
                      | Some value => validated_since_timestamp (timestamp value)
                      | None => Err since_message
                      end
                  end
            | _, _ => Err since_message
            end
        end
    end.

(** [set_since] at the time [now]; [None] is a panic. *)
Definition set_since_at (value : text) (now : DateTime) (self : ContainerLogsState) : option (bool * ContainerLogsState) :=
  let input := trim value in
  if eq_ignore_ascii_case input (ls_since_input self) then Some (clear_validation_error self)
  else
    match parse_since_at input now with
    | Ok since =>
        let input := if eq_ignore_ascii_case input (bytes "all") || eq_ignore_ascii_case input (bytes "all time") then [] else input in
        Some (true, advance_stream_generation (set_ls_since_input input (set_ls_since since self)))
    | Err message => Some (set_validation_error message self)
    | Panic _ => None
    end.
End since.

Definition set_member_filter (container_id : text) (self : ContainerLogsState) : bool * ContainerLogsState :=
  let container_id := trim container_id in
  if negb (is_empty container_id) && negb (existsb (fun target => bool_decide (lt_id target = container_id)) (ls_targets self))
  then set_validation_error (bytes "The selected log group member is unavailable.") self
  else if bool_decide (ls_member_filter_id self = container_id) then clear_validation_error self
  else (true, (clear_validation_error (set_ls_member_filter_id container_id self)).2).

(** ** What is shown and asked for *)
Definition member_options (self : ContainerLogsState) : list LogMemberOption :=
  mkLogMemberOption [] (bytes "All containers") (bytes "All containers")
  :: ((fun target => mkLogMemberOption (lt_id target) (lt_name target)
         (lt_name target ++ bytes " (" ++ take_chars 12 (lt_id target) ++ bytes ")")) <$> ls_targets self).

Definition docker_options (self : ContainerLogsState) (running include_history : bool) : ContainerLogsOptions :=
  {| clo_stdout := ls_stdout self; clo_stderr := ls_stderr self; clo_timestamps := ls_timestamps self;
     clo_follow := ls_follow self && running;
     clo_tail := if include_history then LogTail_docker_value (ls_tail self) else Some 0;
     clo_since := LogSince_docker_value (ls_since self); clo_until := None |}.

Definition entry_visible (self : ContainerLogsState) (query : text) (entry : LogViewportLine) : bool :=
  (is_empty (ls_member_filter_id self) || bool_decide (lv_container_id entry = ls_member_filter_id self))
  && (if bool_decide (lv_stream entry = bytes "stdout") then ls_stdout self
      else if bool_decide (lv_stream entry = bytes "stderr") then ls_stderr self else true)
  && (is_empty query || str_contains (to_ascii_lowercase (lv_display entry)) query
      || str_contains (to_ascii_lowercase (lv_stream entry)) query).

Definition visible_entries (self : ContainerLogsState) : list LogViewportLine :=
  List.filter (entry_visible self (to_ascii_lowercase (trim (ls_search_query self)))) (ls_entries self).

Definition save_text (self : ContainerLogsState) : text :=
  (if ls_discarded self then DISCARDED_NOTICE ++ [of_u8 10] else [])
  ++ (visible_entries self ≫= fun entry => lv_display entry ++ [of_u8 10]).

Definition shutdown (self : ContainerLogsState) : ContainerLogsState :=
  let self := set_ls_status Logs_Idle (next_generation (set_ls_active false self)) in
  set_ls_validation_error [] (set_ls_error_message [] (clear_viewport self)).

(** ** Sequences of events *)
Inductive log_op :=
  | LSelect (kind id : text) (ids states names : list text)
  | LActive (active : bool)
  | LBegin
  | LBatch (generation : Z) (batch : list (text * LogLine))
  | LError (generation : Z) (message : text)
  | LPaused (paused : bool)
  | LSearch (query : text)
  | LWrap (wrap : bool)
  | LFollow (follow : bool)
  | LTimestamps (timestamps : bool)
  | LStdout (enabled : bool)
  | LStderr (enabled : bool)
  | LTail (value : text)
  | LSince (value : text) (now : DateTime)
  | LMember (container_id : text)
  | LClear
  | LShutdown.

Section runs.
Context {LT : LogTime}.
Implicit Types self s : ContainerLogsState.

Definition log_step self (op : log_op) : ContainerLogsState :=
  match op with
  | LSelect kind id ids states names => (set_selection kind id ids states names self).2
  | LActive active => (set_active active self).2
  | LBegin => (begin_stream self).2
  | LBatch generation batch => (apply_batch generation batch self).2
  | LError generation message => (apply_error generation message self).2
  | LPaused paused => (set_paused paused self).2
  | LSearch query => (set_search query self).2
  | LWrap wrap => (set_wrap wrap self).2
  | LFollow follow => (set_follow follow self).2
  | LTimestamps timestamps => (set_timestamps timestamps self).2
  | LStdout enabled => (set_stdout enabled self).2
  | LStderr enabled => (set_stderr enabled self).2
  | LTail value => (set_tail value self).2
  | LSince value now => from_option snd self (set_since_at value now self)
  | LMember container_id => (set_member_filter container_id self).2
  | LClear => clear_viewport self
  | LShutdown => shutdown self
  end.

(** The lines of a batch, numbered from [sequence]. *)
Fixpoint batch_lines self (sequence : Z) (batch : list (text * LogLine)) : list LogViewportLine :=
  match batch with
  | [] => []
  | item :: batch =>
      match List.find (fun target => bool_decide (lt_id target = item.1)) (ls_targets self) with
      | None => batch_lines self sequence batch
      | Some target =>
          let lines := from_domain sequence target (bool_decide (ls_selection_kind self = bytes "group"))
                         (ls_timestamps self) item.2 in
          lines ++ batch_lines self (saturating_add u64_max sequence (len lines)) batch
      end
  end.

(** The lines received since the view was last cleared. *)
Definition received self (lines : list LogViewportLine) (op : log_op) : list LogViewportLine :=
  match op with
  | LSelect kind id ids states names => if (set_selection kind id ids states names self).1 then [] else lines
  | LBatch generation batch =>
      if (generation =? ls_generation self) && should_stream self
      then lines ++ batch_lines self (ls_next_sequence self) batch else lines
  | LClear | LShutdown => []
  | _ => lines
  end.

Definition log_run (ops : list log_op) : ContainerLogsState * list LogViewportLine :=
  foldl (fun '(s, lines) op => (log_step s op, received s lines op)) (ContainerLogsState_default, []) ops.

(** ** The window *)
Fixpoint total (l : list LogViewportLine) : Z := match l with [] => 0 | x :: l => lv_byte_size x + total l end.
Definition sized (l : list LogViewportLine) : Prop := Forall (fun x => 0 ≤ lv_byte_size x) l.
Definition fits (l : list LogViewportLine) : Prop := len l ≤ MAX_LOG_LINES ∧ total l ≤ MAX_LOG_BYTES.
#[global] Instance fits_dec l : Decision (fits l).
Proof. unfold fits. apply _. Defined.

(** The longest end of a list that fits. *)
Fixpoint window (l : list LogViewportLine) : list LogViewportLine :=
  match l with [] => [] | _ :: rest => if bool_decide (fits l) then l else window rest end.

Lemma total_size_app l k : total (l ++ k) = total l + total k.
Proof. induction l as [|x l IH]; cbn; [done |]. rewrite IH. lia. Qed.
Lemma total_nonneg l : sized l → 0 ≤ total l.
Proof. induction 1; cbn; lia. Qed.

Lemma fits_nil : fits [].
Proof. split; vm_compute; discriminate. Qed.
Lemma fits_suffix l k : sized l → fits (l ++ k) → fits k.
Proof. intros Hl [H1 H2]. pose proof (total_nonneg l Hl). rewrite total_size_app in H2. unfold len in *. rewrite length_app in H1. split; unfold len; lia. Qed.

Lemma window_fits l : fits (window l).
Proof. induction l as [|x l IH]; [exact fits_nil |]. cbn [window]. by case_bool_decide. Qed.
Lemma window_id l : fits l → window l = l.
Proof. destruct l; [done |]. intros H. cbn [window]. by rewrite bool_decide_eq_true_2. Qed.

(** The window drops as few lines as possible. *)
Lemma window_drop l : ∃ k, window l = drop k l ∧ ∀ j, (j < k)%nat → ¬ fits (drop j l).
Proof.
  induction l as [|x l (k & Hk & Hj)]; [exists O; split; [done | lia] |]. cbn [window]. case_bool_decide as H.
  - exists O. split; [done | lia].
  - exists (S k). split; [done |]. intros [|j] Hlt; [done |]. apply Hj. lia.
Qed.

Lemma window_length l : (length (window l) ≤ length l)%nat.
Proof. destruct (window_drop l) as (k & -> & _). rewrite length_drop. lia. Qed.

Lemma window_snoc l x : sized l → 0 ≤ lv_byte_size x → window (window l ++ [x]) = window (l ++ [x]).
Proof.
  intros Hs Hx. induction Hs as [|y l Hy Hl IH]; [done |]. cbn [window]. case_bool_decide as H; [done |].
  rewrite IH. cbn [app window]. rewrite bool_decide_eq_false_2; [done |]. intros [H1 H2]. apply H.
  change (y :: l ++ [x]) with ((y :: l) ++ [x]) in H1, H2. rewrite total_size_app in H2. unfold len in *. rewrite length_app in H1.
  cbn [total length] in *. split; unfold len; cbn [total length]; lia.
Qed.

(** *** The loops *)

(** What a counter knows of a list: its total, or less by what the addition of a
    last line cut off, which alone is over the limit. *)
Definition tracked (l : list LogViewportLine) (b : Z) : Prop :=
  ∃ d, 0 ≤ d ∧ b = total l - d ∧ (d = 0 ∨ ∃ l' x, l = l' ++ [x] ∧ MAX_LOG_BYTES < lv_byte_size x - d).

Lemma tracked_total l : tracked l (total l).
Proof. exists 0. split_and!; [lia | lia | by left]. Qed.

Lemma tracked_nil b : tracked [] b → b = 0.
Proof. intros (d & _ & -> & [->|(l' & x & H & _)]); [done |]. by destruct l'. Qed.

Lemma tracked_over l b : sized l → tracked l b → MAX_LOG_BYTES < b ↔ MAX_LOG_BYTES < total l.
Proof.
  intros Hs (d & Hd & -> & [->|(l' & x & -> & Hx)]); [lia |]. apply Forall_app in Hs as [Hs _].
  pose proof (total_nonneg l' Hs). rewrite total_size_app. cbn [total]. lia.
Qed.

Lemma tracked_exact l b : sized l → tracked l b → b ≤ MAX_LOG_BYTES → b = total l.
Proof.
  intros Hs (d & Hd & -> & [->|(l' & x & -> & Hx)]) Hb; [lia |]. apply Forall_app in Hs as [Hs _].
  pose proof (total_nonneg l' Hs). rewrite total_size_app in *. cbn [total] in *. lia.
Qed.

Lemma tracked_nonneg l b : sized l → tracked l b → 0 ≤ b.
Proof.
  intros Hs (d & Hd & -> & [->|(l' & x & -> & Hx)]); [pose proof (total_nonneg l Hs); lia |]. apply Forall_app in Hs as [Hs _].
  pose proof (total_nonneg l' Hs). rewrite total_size_app. cbn [total]. unfold MAX_LOG_BYTES in *. lia.
Qed.

Lemma tracked_snoc l x : sized l → 0 ≤ lv_byte_size x → total l ≤ MAX_LOG_BYTES →
  tracked (l ++ [x]) (saturating_add usize_max (total l) (lv_byte_size x)).
Proof.
  intros Hs Hx Hb. pose proof (total_nonneg l Hs). unfold saturating_add. rewrite <- (Z.add_0_r (lv_byte_size x)).
  change (lv_byte_size x + 0) with (total [x]). exists (Z.max 0 (total l + total [x] - usize_max)).
  rewrite total_size_app. split_and!; [lia | lia |]. destruct (decide (total l + total [x] ≤ usize_max)); [left; lia |].
  right. exists l, x. split; [done |]. cbn [total] in *. unfold MAX_LOG_BYTES, usize_max in *. lia.
Qed.

Lemma tracked_pop x l b : sized (x :: l) → tracked (x :: l) b → tracked l (saturating_sub b (lv_byte_size x)).
Proof.
  intros [Hx Hs]%Forall_cons_iff (d & Hd & -> & H). unfold saturating_sub. cbn [total]. pose proof (total_nonneg l Hs).
  destruct H as [->|([|y l'] & z & E & Hz)].
  - exists 0. split_and!; [lia | lia | by left].
  - injection E as -> ->. exists 0. cbn [total]. split_and!; [lia | lia | by left].
  - injection E as <- ->. exists d. apply Forall_app in Hs as [Hs' _]. pose proof (total_nonneg l' Hs').
    rewrite total_size_app in *. cbn [total] in *. unfold MAX_LOG_BYTES in *. split_and!; [lia | lia |]. right. exists l', z. split; [done | lia].
Qed.

Lemma over_cap_fits n b l :
  (MAX_LOG_LINES < n ↔ MAX_LOG_LINES < len l) → (MAX_LOG_BYTES < b ↔ MAX_LOG_BYTES < total l) → over_cap n b = negb (bool_decide (fits l)).
Proof.
  intros Hn Ho. unfold over_cap. destruct (decide (fits l)) as [Hf|Hf].
  - rewrite bool_decide_eq_true_2 by done. destruct Hf. apply orb_false_iff. rewrite !Z.ltb_ge. lia.
  - rewrite bool_decide_eq_false_2 by done. unfold fits in Hf. apply orb_true_iff. rewrite !Z.ltb_lt. lia.
Qed.

Lemma enforce_cap_spec l b d :
  sized l → tracked l b →
  enforce_cap l b d = (window l, total (window l), d || negb (bool_decide (fits l))).
Proof.
  revert b d. induction l as [|x l IH]; intros b d Hs Ht.
  - apply tracked_nil in Ht as ->. cbn. rewrite bool_decide_eq_true_2 by exact fits_nil. by rewrite orb_false_r.
  - cbn [enforce_cap window]. pose proof (tracked_over _ _ Hs Ht) as Ho.
    rewrite (over_cap_fits _ _ (x :: l)) by done. destruct (decide (fits (x :: l))) as [Hf|Hf];
      [rewrite bool_decide_eq_true_2 by done | rewrite bool_decide_eq_false_2 by done]; cbn [negb].
    + rewrite orb_false_r. f_equal. f_equal. apply (tracked_exact _ _ Hs Ht). destruct Hf. lia.
    + rewrite IH; [by rewrite orb_true_r | by apply Forall_cons_iff in Hs as [_ ?] | by apply tracked_pop].
Qed.

Lemma enforce_pending_spec P pb d :
  sized P → tracked P pb →
  enforce_pending 0 P pb d = (window P, total (window P), d || negb (bool_decide (fits P))).
Proof.
  intros Hs Ht. rewrite <- (enforce_cap_spec P pb d) by done. revert pb d Ht.
  induction P as [|x P IH]; intros pb d Ht; [done |]. cbn [enforce_pending enforce_cap].
  pose proof (tracked_nonneg _ _ Hs Ht). pose proof (tracked_over _ _ Hs Ht) as Ho.
  assert (over_cap (saturating_add usize_max 0 (len (x :: P))) (saturating_add usize_max 0 pb) = over_cap (len (x :: P)) pb) as ->.
  { unfold over_cap, saturating_add, MAX_LOG_LINES, MAX_LOG_BYTES, usize_max.
    f_equal; apply eq_true_iff_eq; rewrite !Z.ltb_lt; lia. }
  destruct (over_cap _ _); [| done]. apply IH; [by apply Forall_cons_iff in Hs as [_ ?] | by apply tracked_pop].
Qed.

Lemma enforce_combined_spec E eb P pb d :
  sized E → sized P → tracked E eb → tracked P pb →
  ∃ E' P', E' ++ P' = window (E ++ P) ∧ E' `suffix_of` E ∧ P' `suffix_of` P
  ∧ enforce_combined_cap E eb P pb d = (E', total E', (P', total P', d || negb (bool_decide (fits (E ++ P))))).
Proof.
  intros HsE HsP HtE HtP. revert eb d HtE. induction E as [|x E IH]; intros eb d HtE.
  - apply tracked_nil in HtE as ->. exists [], (window P). cbn [app enforce_combined_cap total].
    rewrite enforce_pending_spec by done. split_and!; [done | done | | done].
    destruct (window_drop P) as (k & -> & _). apply suffix_drop.
  - cbn [enforce_combined_cap]. pose proof (tracked_over _ _ HsE HtE) as HoE. pose proof (tracked_over _ _ HsP HtP) as HoP.
    pose proof (tracked_nonneg _ _ HsE HtE). pose proof (tracked_nonneg _ _ HsP HtP).
    rewrite (over_cap_fits _ _ ((x :: E) ++ P)).
    2: { unfold saturating_add, len, usize_max, MAX_LOG_LINES. rewrite length_app. lia. }
    2: { pose proof (total_nonneg _ HsE). pose proof (total_nonneg _ HsP). rewrite total_size_app. unfold saturating_add.
         pose proof (tracked_exact _ _ HsE HtE). pose proof (tracked_exact _ _ HsP HtP). unfold usize_max, MAX_LOG_BYTES in *. lia. }
    destruct (decide (fits ((x :: E) ++ P))) as [Hf|Hf];
      [rewrite bool_decide_eq_true_2 by done | rewrite bool_decide_eq_false_2 by done]; cbn [negb].
    + exists (x :: E), P. rewrite window_id by done. split_and!; [done | done | done |]. rewrite orb_false_r.
      destruct Hf as [_ Hf]. rewrite total_size_app in Hf. pose proof (total_nonneg _ HsE). pose proof (total_nonneg _ HsP).
      rewrite <- (tracked_exact _ _ HsE HtE), <- (tracked_exact _ _ HsP HtP) by lia. done.
    + destruct (IH (proj2 (proj1 (Forall_cons_iff _ _ _) HsE)) (saturating_sub eb (lv_byte_size x)) true) as (E' & P' & H1 & H2 & H3 & ->);
        [by apply tracked_pop |]. exists E', P'. cbn [app window]. rewrite bool_decide_eq_false_2 by done.
      split_and!; [done | by apply suffix_cons_r | done | by rewrite orb_true_r].
Qed.

(** *** Receiving and resuming *)
Record view_inv s (h : list LogViewportLine) : Prop := {
  vi_sized : sized h;
  vi_window : ls_entries s ++ ls_pending s = window h;
  vi_viewport : ls_viewport_bytes s = total (ls_entries s);
  vi_pending : ls_pending_bytes s = total (ls_pending s);
  vi_discarded : ls_discarded s = negb (bool_decide (fits h));
  vi_resumed : ls_paused s = false → ls_pending s = [];
}.

Lemma window_sized l : sized l → sized (window l).
Proof. intros Hs. destruct (window_drop l) as (k & -> & _). by apply Forall_drop. Qed.

Lemma fits_snoc l x : sized l → 0 ≤ lv_byte_size x → fits (l ++ [x]) ↔ fits l ∧ fits (window l ++ [x]).
Proof.
  intros Hs Hx. split; [intros Hf | by intros [Hl Hf]; rewrite window_id in Hf].
  assert (fits l) as Hl; [| by rewrite window_id]. destruct Hf as [H1 H2].
  rewrite total_size_app in H2. unfold len in *. rewrite length_app in H1. cbn in *. split; unfold len; lia.
Qed.

(** What the state is after a push onto either list. *)
Lemma set_lines_inv s h x E eb P pb :
  sized h → 0 ≤ lv_byte_size x → ls_discarded s = negb (bool_decide (fits h)) →
  E ++ P = window h ++ [x] → tracked E eb → tracked P pb → (ls_paused s = false → P = []) →
  view_inv (set_lines (enforce_combined_cap E eb P pb (ls_discarded s)) s) (h ++ [x]).
Proof.
  intros Hs Hx Hd HE HtE HtP Hres. assert (sized (E ++ P)) as HsEP.
  { rewrite HE. apply Forall_app. split; [by apply window_sized | by constructor]. }
  apply Forall_app in HsEP as [HsE HsP].
  destruct (enforce_combined_spec E eb P pb (ls_discarded s)) as (E' & P' & H1 & H2 & H3 & ->); try done.
  rewrite HE in *. rewrite window_snoc in H1 by done. split; cbn; try done.
  - apply Forall_app. split; [done | by constructor].
  - rewrite Hd, <- negb_andb, <- bool_decide_and. f_equal. apply bool_decide_ext. symmetry. by apply fits_snoc.
  - intros Hpz. rewrite (Hres Hpz) in H3. by apply suffix_nil_inv in H3.
Qed.

Lemma push_line_inv s h x : view_inv s h → 0 ≤ lv_byte_size x → view_inv (push_line s x) (h ++ [x]).
Proof.
  intros [Hs Hw Hv Hp Hd Hr] Hx. pose proof (window_sized h Hs) as Hsw. pose proof (window_fits h) as [_ Hb].
  rewrite <- Hw in Hsw, Hb. apply Forall_app in Hsw as [HsE HsP]. rewrite total_size_app in Hb.
  pose proof (total_nonneg _ HsE). pose proof (total_nonneg _ HsP). unfold push_line. cbv zeta. destruct (ls_paused s) eqn:Epz.
  - apply set_lines_inv; cbn; try done.
    + by rewrite assoc_L, Hw by apply _.
    + rewrite Hv. apply tracked_total.
    + rewrite Hp. apply tracked_snoc; [done.. | lia].
    + by rewrite Epz.
  - pose proof (Hr eq_refl) as Hnil. apply set_lines_inv; cbn; try done.
    + rewrite Hnil, app_nil_r in *. by rewrite Hw.
    + rewrite Hv. apply tracked_snoc; [done.. | lia].
    + rewrite Hp. apply tracked_total.
Qed.

Lemma push_lines_inv lines s h : view_inv s h → sized lines → view_inv (foldl push_line s lines) (h ++ lines).
Proof.
  revert s h. induction lines as [|x lines IH]; intros s h Hi Hs; [by rewrite app_nil_r |].
  apply Forall_cons_iff in Hs as [Hx Hs]. cbn. rewrite cons_middle, (assoc_L (++)). apply IH; [by apply push_line_inv | done].
Qed.

Lemma resume_line_inv s h x rest :
  sized h → ls_pending s = [] → ls_entries s ++ x :: rest = window h → ls_viewport_bytes s = total (ls_entries s) →
  ls_pending_bytes s = total (x :: rest) →
  resume_line s x = set_ls_viewport_bytes (total (ls_entries s ++ [x])) (set_ls_entries (ls_entries s ++ [x])
    (set_ls_pending_bytes (total rest) s)).
Proof.
  intros Hs Hnil Hw Hv Hp. pose proof (window_sized h Hs) as Hsw. pose proof (window_fits h) as Hf. rewrite <- Hw in Hsw, Hf.
  rewrite cons_middle, (assoc_L (++)) in Hsw, Hf. apply Forall_app in Hsw as [Hsx Hsr].
  assert (fits (ls_entries s ++ [x])) as Hfx.
  { destruct Hf as [H1 H2]. pose proof (total_nonneg _ Hsr). rewrite total_size_app in H2. unfold len in *. rewrite length_app in H1.
    split; unfold len; lia. }
  pose proof Hsx as Hsx'. apply Forall_app in Hsx' as [HsE Hx]. apply Forall_cons_iff in Hx as [Hx _].
  unfold resume_line. cbn. rewrite Hv, Hp. rewrite enforce_cap_spec; [| done |].
  - rewrite window_id, bool_decide_eq_true_2, orb_false_r by done. cbn [total].
    replace (saturating_sub (lv_byte_size x + total rest) (lv_byte_size x)) with (total rest); [by destruct s |].
    pose proof (total_nonneg _ Hsr). unfold saturating_sub. lia.
  - apply tracked_snoc; [done | done |]. destruct Hfx as [_ H2]. rewrite total_size_app in H2. cbn [total] in H2. lia.
Qed.

Lemma resume_all h rest s :
  sized h → ls_pending s = [] → ls_entries s ++ rest = window h → ls_viewport_bytes s = total (ls_entries s) →
  ls_pending_bytes s = total rest →
  foldl resume_line s rest = set_ls_viewport_bytes (total (window h)) (set_ls_entries (window h) (set_ls_pending_bytes 0 s)).
Proof.
  intros Hs. revert s. induction rest as [|x rest IH]; intros s Hnil Hw Hv Hp.
  - rewrite app_nil_r in Hw. cbn in *. rewrite <- Hw, <- Hv, <- Hp. by destruct s.
  - cbn [foldl]. rewrite (resume_line_inv s h x rest) by done. rewrite IH; cbn; try done.
    by rewrite <- (assoc_L (++)).
Qed.

Lemma paused_inv b s h : view_inv s h → view_inv (set_paused b s).2 h.
Proof.
  intros Hi. pose proof Hi as [Hs Hw Hv Hp Hd Hr]. unfold set_paused. destruct (Bool.eqb (ls_paused s) b) eqn:E; [done |].
  cbn [snd]. destruct b; cbn [negb]; [split; done |].
  rewrite (resume_all h) by done. split; cbn; try done. by rewrite app_nil_r.
Qed.

Lemma from_domain_sized sequence target group timestamps line : sized (from_domain sequence target group timestamps line).
Proof.
  unfold from_domain. cbv zeta. apply list.Forall_forall.
  intros x (i & m & -> & _)%elem_of_lookup_imap_1. unfold viewport_line. cbn. unfold len. lia.
Qed.

Lemma apply_line_inv changed s h item :
  view_inv s h → let r := apply_line (changed, s) item in
  view_inv r.2 (h ++ batch_lines s (ls_next_sequence s) [item])
  ∧ ls_targets r.2 = ls_targets s ∧ ls_selection_kind r.2 = ls_selection_kind s ∧ ls_timestamps r.2 = ls_timestamps s
  ∧ ∀ rest, batch_lines s (ls_next_sequence s) (item :: rest)
      = batch_lines s (ls_next_sequence s) [item] ++ batch_lines s (ls_next_sequence r.2) rest.
Proof.
  intros Hi. unfold apply_line. cbn [batch_lines]. destruct (List.find _ _) as [target|] eqn:Et; cbn [snd].
  2: { rewrite app_nil_r. done. }
  set (lines := from_domain _ _ _ _ _). rewrite app_nil_r.
  set (s1 := set_ls_next_sequence _ s). assert (view_inv s1 h) as Hi1 by (destruct Hi; by split).
  assert (∀ l s, ls_targets (foldl push_line s l) = ls_targets s ∧ ls_selection_kind (foldl push_line s l) = ls_selection_kind s
    ∧ ls_timestamps (foldl push_line s l) = ls_timestamps s ∧ ls_next_sequence (foldl push_line s l) = ls_next_sequence s) as Hsame.
  { induction l as [|x l IH]; intros s'; [done |]. cbn [foldl]. destruct (IH (push_line s' x)) as (-> & -> & -> & ->).
    unfold push_line. destruct (ls_paused s'), (enforce_combined_cap _ _ _ _ _) as [[? ?] [[? ?] ?]]; done. }
  destruct (Hsame lines s1) as (-> & -> & -> & ->). split_and!; try done.
  apply push_lines_inv; [done | apply from_domain_sized].
Qed.

Lemma batch_lines_ext s s' sequence batch :
  ls_targets s = ls_targets s' → ls_selection_kind s = ls_selection_kind s' → ls_timestamps s = ls_timestamps s' →
  batch_lines s sequence batch = batch_lines s' sequence batch.
Proof. intros H1 H2 H3. revert sequence. induction batch as [|item batch IH]; intros; cbn; [done |]. rewrite H1, H2, H3. destruct (List.find _ _); by rewrite ?IH. Qed.

Lemma apply_lines_inv batch changed s h :
  view_inv s h → view_inv (foldl apply_line (changed, s) batch).2 (h ++ batch_lines s (ls_next_sequence s) batch).
Proof.
  revert changed s h. induction batch as [|item batch IH]; intros changed s h Hi; [by rewrite app_nil_r |]. cbn [foldl].
  destruct (apply_line_inv changed s h item Hi) as (Hi' & H1 & H2 & H3 & ->).
  destruct (apply_line (changed, s) item) as [c s']. cbn [snd] in *. rewrite (assoc_L (++)).
  rewrite (batch_lines_ext s s' (ls_next_sequence s') batch) by done. by apply IH.
Qed.

Lemma view_inv_same s s' h :
  view_inv s h → ls_entries s' = ls_entries s → ls_pending s' = ls_pending s → ls_viewport_bytes s' = ls_viewport_bytes s →
  ls_pending_bytes s' = ls_pending_bytes s → ls_discarded s' = ls_discarded s → ls_paused s' = ls_paused s → view_inv s' h.
Proof. intros [H1 H2 H3 H4 H5 H6] E1 E2 E3 E4 E5 E6. split; rewrite ?E1, ?E2, ?E3, ?E4, ?E5, ?E6; done. Qed.

Lemma view_inv_clear s : view_inv (clear_viewport s) [].
Proof. split; cbn; try done; by constructor. Qed.

(** Operations that leave the lines alone. *)
Ltac keeps_view Hi :=
  unfold set_active, begin_stream, apply_error, set_search, set_wrap, set_follow, set_timestamps, set_stdout, set_stderr, set_tail,
    set_since_at, set_member_filter, set_validation_error, clear_validation_error;
  repeat case_match; cbn; first [exact Hi | eapply view_inv_same; [exact Hi | reflexivity ..]].

Lemma log_step_inv s h op : view_inv s h → view_inv (log_step s op) (received s h op).
Proof.
  intros Hi. destruct op as [kind id ids states names|b| |g batch|g m|b|q|b|b|b|b|b|v|v now|c| |]; cbn [log_step received].
  1: { unfold set_selection. destruct (_ && _); [done |]. apply (view_inv_same (clear_viewport (set_ls_paused false s))); try done.
       apply view_inv_clear. }
  3: { unfold apply_batch. destruct (g =? ls_generation s); cbn; [| done]. destruct (should_stream s); cbn; [| done].
       destruct batch as [|item batch]; cbn [is_empty]; [by rewrite app_nil_r |].
       pose proof (apply_lines_inv (item :: batch) false s h Hi) as Hi'.
       destruct (foldl apply_line (false, s) (item :: batch)) as [changed s']. cbn [snd] in *.
       destruct changed; [by apply (view_inv_same s') | done]. }
  4: by apply paused_inv.
  13: apply view_inv_clear.
  13: { apply (view_inv_same (clear_viewport s)); try done. apply view_inv_clear. }
  all: keeps_view Hi.
Qed.

Lemma log_run_inv ops : view_inv (log_run ops).1 (log_run ops).2.
Proof.
  unfold log_run. assert (view_inv ContainerLogsState_default []) as Hi by (split; try done; by constructor).
  generalize dependent (@nil LogViewportLine). generalize ContainerLogsState_default. induction ops as [|op ops IH]; intros s h Hi; [done |].
  cbn [foldl]. apply IH. by apply log_step_inv.
Qed.

(** C21: The log view shows the newest lines that fit.  After any sequence of
    selections, batches, pauses and option changes, the shown lines followed by
    those held back are the lines received since the view was last cleared, without
    the fewest oldest ones that bring them down to 20000 lines and 32 MiB; the
    notice that lines were discarded is given exactly when some were; the byte
    counters are exact; and no line is held back unless the view is paused. *)
Theorem log_view_exact ops :
  let s := (log_run ops).1 in
  let lines := (log_run ops).2 in
  ∃ k, ls_entries s ++ ls_pending s = drop k lines
    ∧ fits (drop k lines) ∧ (∀ j, (j < k)%nat → ¬ fits (drop j lines))
    ∧ ls_discarded s = bool_decide (0 < k)%nat
    ∧ ls_viewport_bytes s = total (ls_entries s) ∧ ls_pending_bytes s = total (ls_pending s)
    ∧ (ls_paused s = false → ls_pending s = []).
Proof.
  intros s lines. destruct (log_run_inv ops) as [Hs Hw Hv Hp Hd Hr]. fold s lines in Hs, Hw, Hv, Hp, Hd, Hr.
  destruct (window_drop lines) as (k & Hk & Hj). exists k. rewrite <- Hk. split_and!; try done; [apply window_fits |].
  rewrite Hd. destruct k as [|k].
  - rewrite bool_decide_eq_true_2; [done |]. change lines with (drop 0 lines). rewrite <- Hk. apply window_fits.
  - rewrite bool_decide_eq_false_2; [done |]. apply (Hj 0%nat). lia.
Qed.

(** ** The options *)
#[local] Arguments trim : simpl never.
#[local] Arguments eq_ignore_ascii_case : simpl never.

Record options_inv s : Prop := {
  oi_streams : ls_stdout s || ls_stderr s = true;
  oi_tail : match ls_tail s with Tail_Lines n => n ∈ LOG_TAIL_VALUES | Tail_All => True end;
  oi_kind : ls_selection_kind s ∈ [bytes "none"; bytes "container"; bytes "group"];
  oi_none : ls_selection_kind s = bytes "none" → ls_targets s = [];
  oi_one : ls_selection_kind s = bytes "container" → (length (ls_targets s) ≤ 1)%nat;
  oi_distinct : NoDup (lt_id <$> ls_targets s);
  oi_named : Forall (fun t => trim (lt_id t) ≠ []) (ls_targets s);
  oi_member : ls_member_filter_id s = [] ∨ ls_member_filter_id s ∈ lt_id <$> ls_targets s;
  oi_status : ls_status s = Logs_Streaming ∨ ls_status s = Logs_Ready → should_stream s = true;
}.

Definition targets_ok (l : list LogTarget) : Prop := NoDup (lt_id <$> l) ∧ Forall (fun t => trim (lt_id t) ≠ []) l.

Lemma build_targets_loop_ok kind states names i ids result :
  targets_ok result → targets_ok (build_targets_loop kind states names i ids result).
Proof.
  revert i result. induction ids as [|id ids IH]; intros i result Hr; [done |]. cbn [build_targets_loop].
  destruct (is_empty (trim id)) eqn:Ee; [by apply IH |]. destruct (existsb _ result) eqn:Ex; [by apply IH |].
  assert (targets_ok (result ++ [log_target i id states names])) as Hr'.
  { destruct Hr as [H1 H2]. split.
    - rewrite fmap_app. cbn. apply list.NoDup_app. split_and!; [done | | apply NoDup_singleton].
      intros x Hx ->%list_elem_of_singleton. apply list_elem_of_fmap in Hx as (t & Ht & Hin). apply list_elem_of_In in Hin.
      assert (existsb (fun target => bool_decide (lt_id target = id)) result = true) as Ht' by
        (apply existsb_exists; exists t; split; [done | by apply bool_decide_eq_true]). congruence.
    - apply Forall_app. split; [done |]. constructor; [| constructor]. cbn. intros E. by rewrite E in Ee. }
  case_bool_decide; [done | by apply IH].
Qed.

Lemma build_targets_loop_one states names i ids :
  (length (build_targets_loop (bytes "container") states names i ids []) ≤ 1)%nat.
Proof.
  revert i. induction ids as [|id ids IH]; intros i; cbn [build_targets_loop]; [cbn; lia |].
  destruct (is_empty (trim id)); [apply IH |]. cbn [existsb]. rewrite bool_decide_eq_true_2 by done. cbn. lia.
Qed.

Lemma normalize_kind_in kind : normalize_kind kind ∈ [bytes "none"; bytes "container"; bytes "group"].
Proof. unfold normalize_kind. repeat case_bool_decide; set_solver. Qed.

Lemma options_inv_default : options_inv ContainerLogsState_default.
Proof.
  split; try done.
  - apply (bool_decide_unpack _). vm_compute. exact I.
  - apply (bool_decide_unpack _). vm_compute. exact I.
  - apply NoDup_nil_2.
  - by left.
  - by intros [?|?].
Qed.

(** Changes that keep the selection and the status rule. *)
Lemma options_same s s' :
  options_inv s → ls_stdout s' || ls_stderr s' = true →
  match ls_tail s' with Tail_Lines n => n ∈ LOG_TAIL_VALUES | Tail_All => True end →
  ls_selection_kind s' = ls_selection_kind s → ls_targets s' = ls_targets s →
  (ls_member_filter_id s' = [] ∨ ls_member_filter_id s' ∈ lt_id <$> ls_targets s) →
  (ls_status s' = Logs_Streaming ∨ ls_status s' = Logs_Ready → should_stream s' = true) → options_inv s'.
Proof. intros [] H1 H2 E1 E2 H3 H4. split; rewrite ?E1, ?E2; done. Qed.

Lemma stream_status_ok s : ls_status (stream_status s) = Logs_Streaming ∨ ls_status (stream_status s) = Logs_Ready →
  should_stream (stream_status s) = true.
Proof. unfold stream_status. cbn. change (should_stream (set_ls_status _ s)) with (should_stream s). destruct (should_stream s); [done |]. by intros [?|?]. Qed.

Lemma selection_options kind id ids states names s :
  options_inv s → options_inv (set_selection kind id ids states names s).2.
Proof.
  intros Hi. unfold set_selection. destruct (_ && _); [done |]. cbn [snd]. set (k := normalize_kind kind).
  assert (targets_ok (build_targets k id ids states names)) as [Ht1 Ht2].
  { unfold build_targets. destruct (_ || _); [split; constructor |]. apply build_targets_loop_ok. split; constructor. }
  split; try apply Hi; try done.
  - apply normalize_kind_in.
  - cbn. intros E. unfold build_targets. by rewrite bool_decide_eq_true_2.
  - cbn. intros E. rewrite E. unfold build_targets. destruct (_ || _); [cbn; lia | apply build_targets_loop_one].
  - by left.
  - apply stream_status_ok.
Qed.

(** Lines come and go without touching the options. *)
Definition options_of s :=
  (ls_stdout s, ls_stderr s, ls_tail s, ls_selection_kind s, ls_targets s, ls_member_filter_id s, ls_status s, ls_active s).

Lemma options_of_inv s s' : options_of s' = options_of s → options_inv s → options_inv s'.
Proof.
  intros E [H1 H2 H3 H4 H5 H6 H7 H8 H9]. unfold options_of in E. injection E as E1 E2 E3 E4 E5 E6 E7 E8.
  split; unfold should_stream in *; rewrite ?E1, ?E2, ?E3, ?E4, ?E5, ?E6, ?E7, ?E8; done.
Qed.

Lemma foldl_options {A} (f : ContainerLogsState → A → ContainerLogsState) l s :
  (∀ s x, options_of (f s x) = options_of s) → options_of (foldl f s l) = options_of s.
Proof. intros Hf. revert s. induction l as [|x l IH]; intros s; [done |]. cbn. by rewrite IH, Hf. Qed.

Lemma push_line_options s x : options_of (push_line s x) = options_of s.
Proof. unfold push_line. destruct (ls_paused s), (enforce_combined_cap _ _ _ _ _) as [[? ?] [[? ?] ?]]; done. Qed.
Lemma resume_line_options s x : options_of (resume_line s x) = options_of s.
Proof. unfold resume_line. by destruct (enforce_cap _ _ _) as [[? ?] ?]. Qed.
Lemma apply_lines_options batch changed s : options_of (foldl apply_line (changed, s) batch).2 = options_of s.
Proof.
  revert changed s. induction batch as [|item batch IH]; intros changed s; [done |]. cbn [foldl]. unfold apply_line at 2.
  destruct (List.find _ _); [| apply IH]. rewrite IH, foldl_options by apply push_line_options. done.
Qed.

Lemma LogTail_parse_ok v t : LogTail_parse v = Ok t → match t with Tail_Lines n => n ∈ LOG_TAIL_VALUES | Tail_All => True end.
Proof. unfold LogTail_parse. cbv zeta. repeat case_match; try discriminate; intros E; simplify_eq; try done. by eapply bool_decide_eq_true_1. Qed.

(** An option changes and the stream starts again, or only a message changes. *)
Ltac keeps_options Hi :=
  first
    [ exact Hi
    | eapply options_of_inv; [| exact Hi]; reflexivity
    | apply (options_same _ _ Hi); [exact (oi_streams _ Hi) | exact (oi_tail _ Hi) | reflexivity | reflexivity | exact (oi_member _ Hi) |
        apply stream_status_ok] ].

Lemma log_options_step s op : options_inv s → options_inv (log_step s op).
Proof.
  intros Hi. destruct op as [kind id ids states names|b| |g batch|g m|b|q|b|b|b|b|b|v|v now|c| |]; cbn [log_step].
  - by apply selection_options.
  - unfold set_active. case_match; keeps_options Hi.
  - unfold begin_stream. destruct (should_stream s) eqn:E; cbn [negb snd].
    + apply (options_same _ _ Hi); try reflexivity; [apply Hi.. |]. done.
    + apply (options_same _ _ Hi); try reflexivity; [apply Hi.. |]. cbn. by intros [?|?].
  - unfold apply_batch. destruct (_ || _) eqn:E; [done |]. apply orb_false_iff in E as [[_ E]%orb_false_iff _]. apply negb_false_iff in E.
    pose proof (apply_lines_options batch false s) as Ho. destruct (foldl apply_line (false, s) batch) as [changed s']. cbn [snd] in *.
    pose proof (options_of_inv _ _ Ho Hi) as Hi'. destruct changed; [| done].
    apply (options_same _ _ Hi'); try reflexivity; [apply Hi'.. |]. intros _. unfold options_of in Ho. injection Ho as _ _ _ E1 E2 _ _ E3.
    unfold should_stream in *. cbn. by rewrite E1, E2, E3.
  - unfold apply_error. destruct (_ || _); [done |]. apply (options_same _ _ Hi); try reflexivity; [apply Hi.. |]. cbn. by intros [?|?].
  - unfold set_paused. case_match; [done |]. cbn [snd]. destruct b; cbn [negb]; [keeps_options Hi |].
    eapply options_of_inv; [| exact Hi]. rewrite foldl_options by apply resume_line_options. done.
  - unfold set_search. case_match; keeps_options Hi.
  - unfold set_wrap. case_match; keeps_options Hi.
  - unfold set_follow, clear_validation_error. repeat case_match; keeps_options Hi.
  - unfold set_timestamps, clear_validation_error. repeat case_match; keeps_options Hi.
  - unfold set_stdout, set_validation_error, clear_validation_error. destruct (_ && _) eqn:E; [case_match; keeps_options Hi |].
    destruct (Bool.eqb _ _); [case_match; keeps_options Hi |].
    apply (options_same _ _ Hi); try reflexivity; [| apply Hi | apply Hi | apply stream_status_ok]. cbn. by destruct b, (ls_stderr s).
  - unfold set_stderr, set_validation_error, clear_validation_error. destruct (_ && _) eqn:E; [case_match; keeps_options Hi |].
    destruct (Bool.eqb _ _); [case_match; keeps_options Hi |].
    apply (options_same _ _ Hi); try reflexivity; [| apply Hi | apply Hi | apply stream_status_ok]. cbn. by destruct b, (ls_stdout s).
  - unfold set_tail, set_validation_error, clear_validation_error. destruct (LogTail_parse v) as [t|m|m] eqn:E; [| case_match; keeps_options Hi | done].
    destruct (bool_decide (ls_tail s = t)); [case_match; keeps_options Hi |].
    apply (options_same _ _ Hi); try reflexivity; [apply Hi | by apply (LogTail_parse_ok v) | apply Hi | apply stream_status_ok].
  - unfold set_since_at, set_validation_error, clear_validation_error. repeat case_match; cbn; keeps_options Hi.
  - unfold set_member_filter, set_validation_error, clear_validation_error. destruct (_ && _) eqn:E; [case_match; keeps_options Hi |].
    destruct (bool_decide _); [case_match; keeps_options Hi |].
    assert (options_inv (set_ls_member_filter_id (trim c) s)) as Hi'.
    { apply (options_same _ _ Hi); try reflexivity; [apply Hi | apply Hi | | apply Hi]. cbn. destruct (trim c) as [|x l] eqn:Ec; [by left | right].
      cbn in E. apply negb_false_iff, existsb_exists in E as (t & Hin & Ht%bool_decide_eq_true). apply list_elem_of_fmap.
      exists t. split; [done | by apply list_elem_of_In]. }
    cbn [snd]. case_match; keeps_options Hi'.
  - keeps_options Hi.
  - apply (options_same _ _ Hi); try reflexivity; [apply Hi.. |]. cbn. by intros [?|?].
Qed.

(** The log view's settings are always valid.  After any sequence of events,
    at least one of stdout and stderr is asked for; the tail is one of the offered
    values; a selection of no kind has no targets and one of a container at most
    one; targets have different, non-blank ids; the member filter is empty or one
    of them; and the state says it streams or shows lines only while there is
    something to stream. *)
Theorem log_options_valid ops :
  let s := (log_run ops).1 in
  clo_stdout (docker_options s true true) || clo_stderr (docker_options s true true) = true
  ∧ match clo_tail (docker_options s true true) with Some n => n ∈ LOG_TAIL_VALUES | None => ls_tail s = Tail_All end
  ∧ (ls_selection_kind s = bytes "none" → ls_targets s = [])
  ∧ (ls_selection_kind s = bytes "container" → (length (ls_targets s) ≤ 1)%nat)
  ∧ NoDup (lt_id <$> ls_targets s) ∧ Forall (fun t => trim (lt_id t) ≠ []) (ls_targets s)
  ∧ (ls_member_filter_id s = [] ∨ ls_member_filter_id s ∈ lt_id <$> ls_targets s)
  ∧ (ls_status s = Logs_Streaming ∨ ls_status s = Logs_Ready → should_stream s = true).
Proof.
  intros s. assert (options_inv s) as Hi.
  { subst s. unfold log_run. generalize options_inv_default. generalize (@nil LogViewportLine). generalize ContainerLogsState_default.
    induction ops as [|op ops IH]; intros s h Hs; [done |]. cbn [foldl]. apply IH. by apply log_options_step. }
  destruct Hi as [H1 H2 H3 H4 H5 H6 H7 H8 H9]. split_and!; try done. cbn. destruct (ls_tail s); done.
Qed.

(** A relative time beyond what chrono's [TimeDelta::seconds] accepts ends in a
    panic instead of a validation message. *)
Theorem since_duration_panics now s :
  (∀ seconds, i64_max / 1000 < seconds → ∃ message, TimeDelta_seconds seconds = Panic message) →
  parse_from_rfc3339 (bytes "9223372036854775807s") = None → ls_since_input s = [] →
  set_since_at (bytes "9223372036854775807s") now s = None.
Proof.
  intros Hpanic Hr Hin. unfold set_since_at. rewrite Hin.
  change (trim (bytes "9223372036854775807s")) with (bytes "9223372036854775807s").
  assert (∃ m, parse_since_at (bytes "9223372036854775807s") now = Panic m) as [m ->]; [| done].
  destruct (Hpanic i64_max eq_refl) as [m Hm]. exists m. unfold parse_since_at.
  rewrite Hr. set (input := bytes "9223372036854775807s").
  assert (is_empty input || eq_ignore_ascii_case input (bytes "all") || eq_ignore_ascii_case input (bytes "all time") = false) as -> by done.
  assert (parse_i64 input = None) as -> by done. cbv zeta.
  assert (split_digits (default (to_ascii_lowercase input) (strip_suffix (bytes " ago") (to_ascii_lowercase input)))
    = (bytes "9223372036854775807", bytes "s")) as -> by done.
  assert (parse_i64 (bytes "9223372036854775807") = Some i64_max) as -> by done.
  assert (seconds_per_unit (trim (bytes "s")) = Some 1) as -> by done.
  assert (checked_mul_i64 i64_max 1 = Some i64_max) as -> by done. cbn [negb Z.ltb]. by rewrite Hm.
Qed.
End runs.
