(* ===== verification/NetworksPage.v ===== *)
(** The network page of the graphical interface
    (crates/gui/src/models/network_model.rs and controllers/networks.rs): rows and
    detail view, and the state machine of the list, its selection and the one
    operation that may be under way.

    The bridge sends the requests; a result comes back with the generation it was
    asked for under and is applied only while that is current. *)

From S2P Require Import Prelude Path Numbers Text Domain DockerError PageFormat.

Local Open Scope Z_scope.

(** ** Rows and views *)
Record NetworkRow := mkNetworkRow {
  nr_network_id : text;
  nr_short_id : text;
  nr_name : text;
  nr_driver : text;
  nr_scope : text;
  nr_subnet : text;
  nr_gateway : text;
  nr_secondary_text : text;
  nr_created_at : option DateTime;
  nr_created_text : text;
  nr_internal : bool;
  nr_attachable : bool;
  nr_ingress : bool;
  nr_ipv4 : bool;
  nr_ipv6 : bool;
  nr_labels : Labels;
}.

Record NetworkSubnetView := mkNetworkSubnetView {
  sv_subnet : text; sv_gateway : text; sv_ip_range : text; sv_auxiliary_addresses : list KeyValueRow;
}.
Record NetworkContainerView := mkNetworkContainerView {
  cv_container_id : text;
  cv_short_id : text;
  cv_name : text;
  cv_endpoint_id : text;
  cv_ipv4_address : text;
  cv_ipv6_address : text;
  cv_mac_address : text;
}.
Record NetworkDetailView := mkNetworkDetailView {
  nv_network_id : text;
  nv_short_id : text;
  nv_name : text;
  nv_created_text : text;
  nv_created_full_text : text;
  nv_driver : text;
  nv_scope : text;
  nv_subnet : text;
  nv_gateway : text;
  nv_internal : bool;
  nv_attachable : bool;
  nv_ingress : bool;
  nv_ipv4 : bool;
  nv_ipv6 : bool;
  nv_ipam_driver : text;
  nv_options : list KeyValueRow;
  nv_ipam_options : list KeyValueRow;
  nv_labels : list KeyValueRow;
  nv_subnets : list NetworkSubnetView;
  nv_containers : list NetworkContainerView;
}.

Section views.
Context {LC : Lowercase} {DF : DateFormat}.

Definition created_or_dash (now : DateTime) (created : option DateTime) : text :=
  from_option (fun c => relative_time_at c now) dash created.

(** The age is taken at the time [now]. *)
Definition network_row (now : DateTime) (summary : NetworkSummary) : NetworkRow :=
  let subnet := default [] (ns_subnet summary) in
  mkNetworkRow (ns_id summary) (ns_short_id summary) (ns_name summary) (ns_driver summary) (ns_scope summary) subnet
    (default [] (ns_gateway summary)) (if is_empty subnet then value_or_dash (Some (ns_driver summary)) else subnet)
    (ns_created_at summary) (created_or_dash now (ns_created_at summary)) (ns_internal summary) (ns_attachable summary)
    (ns_ingress summary) (ns_ipv4 summary) (ns_ipv6 summary) (ns_labels summary).

Definition subnet_view (subnet : NetworkSubnet) : NetworkSubnetView :=
  mkNetworkSubnetView (value_or_dash (Some (nsub_subnet subnet))) (value_or_dash (nsub_gateway subnet))
    (value_or_dash (nsub_ip_range subnet)) (sorted_pairs (nsub_auxiliary_addresses subnet)).

Definition network_container_view (container : NetworkContainer) : NetworkContainerView :=
  mkNetworkContainerView (nc_id container) (nc_short_id container) (nc_name container)
    (value_or_dash (Some (nc_endpoint_id container))) (value_or_dash (nc_ipv4_address container))
    (value_or_dash (nc_ipv6_address container)) (value_or_dash (nc_mac_address container)).

Definition network_detail_view (now : DateTime) (detail : NetworkDetail) : NetworkDetailView :=
  let summary := nd_summary detail in
  let subnets := sort_by (cmp_then (cmp_by (fun s => to_lowercase (sv_subnet s)) bytes_cmp) (cmp_by sv_gateway bytes_cmp))
                   (subnet_view <$> ipam_subnets (nd_ipam detail)) in
  let containers := sort_by (cmp_then (cmp_by (fun c => to_lowercase (cv_name c)) bytes_cmp) (cmp_by cv_container_id bytes_cmp))
                      (network_container_view <$> nd_containers detail) in
  mkNetworkDetailView (ns_id summary) (ns_short_id summary) (ns_name summary) (created_or_dash now (ns_created_at summary))
    (from_option full_utc_time dash (ns_created_at summary)) (value_or_dash (Some (ns_driver summary)))
    (value_or_dash (Some (ns_scope summary))) (value_or_dash (ns_subnet summary)) (value_or_dash (ns_gateway summary))
    (ns_internal summary) (ns_attachable summary) (ns_ingress summary) (ns_ipv4 summary) (ns_ipv6 summary)
    (value_or_dash (ipam_driver (nd_ipam detail))) (sorted_pairs (nd_options detail)) (sorted_pairs (ipam_options (nd_ipam detail)))
    (sorted_pairs (ns_labels summary)) subnets containers.
End views.

(** ** The page *)
Inductive NetworksListState := Networks_Loading | Networks_Ready | Networks_Empty | Networks_Error.
Inductive NetworkDetailState := NDetail_None | NDetail_Loading | NDetail_Ready | NDetail_Error.
Inductive NetworkSortMode := NSort_NameAscending | NSort_NameDescending | NSort_NewestFirst | NSort_OldestFirst | NSort_Driver.
Inductive NetworkOperationKind := NOp_Create | NOp_Remove.
#[export] Instance NetworkOperationKind_eq_dec : EqDecision NetworkOperationKind.
Proof. solve_decision. Defined.

Record NetworkOperationState := mkNetworkOperationState {
  nop_active : bool;
  nop_kind : option NetworkOperationKind;
  nop_network_id : text;
  nop_generation : Z;
  nop_error_kind : text;
  nop_error_message : text;
}.

Record NetworksState := mkNetworksState {
  source_rows : list NetworkRow;
  visible_rows : list NetworkRow;
  search_query : text;
  sort_mode : NetworkSortMode;
  selected_network_id : text;
  detail : option NetworkDetailView;
  refresh_generation : Z;
  detail_generation : Z;
  preferred_network_id : text;
  initialized : bool;
  status : NetworksListState;
  status_text : text;
  error_kind : text;
  detail_status : NetworkDetailState;
  detail_error : text;
  detail_error_kind : text;
  operation : NetworkOperationState;
}.

Definition set_source_rows (v : list NetworkRow) (self : NetworksState) : NetworksState :=
  mkNetworksState v (visible_rows self) (search_query self) (sort_mode self) (selected_network_id self)
    (detail self) (refresh_generation self) (detail_generation self) (preferred_network_id self)
    (initialized self) (status self) (status_text self) (error_kind self) (detail_status self)
    (detail_error self) (detail_error_kind self) (operation self).
Definition set_visible_rows (v : list NetworkRow) (self : NetworksState) : NetworksState :=
  mkNetworksState (source_rows self) v (search_query self) (sort_mode self) (selected_network_id self)
    (detail self) (refresh_generation self) (detail_generation self) (preferred_network_id self)
    (initialized self) (status self) (status_text self) (error_kind self) (detail_status self)
    (detail_error self) (detail_error_kind self) (operation self).
Definition set_search_query (v : text) (self : NetworksState) : NetworksState :=
  mkNetworksState (source_rows self) (visible_rows self) v (sort_mode self) (selected_network_id self)
    (detail self) (refresh_generation self) (detail_generation self) (preferred_network_id self)
    (initialized self) (status self) (status_text self) (error_kind self) (detail_status self)
    (detail_error self) (detail_error_kind self) (operation self).
Definition set_sort_mode (v : NetworkSortMode) (self : NetworksState) : NetworksState :=
  mkNetworksState (source_rows self) (visible_rows self) (search_query self) v (selected_network_id self)
    (detail self) (refresh_generation self) (detail_generation self) (preferred_network_id self)
    (initialized self) (status self) (status_text self) (error_kind self) (detail_status self)
    (detail_error self) (detail_error_kind self) (operation self).
Definition set_selected_network_id (v : text) (self : NetworksState) : NetworksState :=
  mkNetworksState (source_rows self) (visible_rows self) (search_query self) (sort_mode self) v (detail self)
    (refresh_generation self) (detail_generation self) (preferred_network_id self) (initialized self)
    (status self) (status_text self) (error_kind self) (detail_status self) (detail_error self)
    (detail_error_kind self) (operation self).
Definition set_detail (v : option NetworkDetailView) (self : NetworksState) : NetworksState :=
  mkNetworksState (source_rows self) (visible_rows self) (search_query self) (sort_mode self)
    (selected_network_id self) v (refresh_generation self) (detail_generation self) (preferred_network_id self)
    (initialized self) (status self) (status_text self) (error_kind self) (detail_status self)
    (detail_error self) (detail_error_kind self) (operation self).
Definition set_refresh_generation (v : Z) (self : NetworksState) : NetworksState :=
  mkNetworksState (source_rows self) (visible_rows self) (search_query self) (sort_mode self)
    (selected_network_id self) (detail self) v (detail_generation self) (preferred_network_id self)
    (initialized self) (status self) (status_text self) (error_kind self) (detail_status self)
    (detail_error self) (detail_error_kind self) (operation self).
Definition set_detail_generation (v : Z) (self : NetworksState) : NetworksState :=
  mkNetworksState (source_rows self) (visible_rows self) (search_query self) (sort_mode self)
    (selected_network_id self) (detail self) (refresh_generation self) v (preferred_network_id self)
    (initialized self) (status self) (status_text self) (error_kind self) (detail_status self)
    (detail_error self) (detail_error_kind self) (operation self).
Definition set_preferred_network_id (v : text) (self : NetworksState) : NetworksState :=
  mkNetworksState (source_rows self) (visible_rows self) (search_query self) (sort_mode self)
    (selected_network_id self) (detail self) (refresh_generation self) (detail_generation self) v
    (initialized self) (status self) (status_text self) (error_kind self) (detail_status self)
    (detail_error self) (detail_error_kind self) (operation self).
Definition set_initialized (v : bool) (self : NetworksState) : NetworksState :=
  mkNetworksState (source_rows self) (visible_rows self) (search_query self) (sort_mode self)
    (selected_network_id self) (detail self) (refresh_generation self) (detail_generation self)
    (preferred_network_id self) v (status self) (status_text self) (error_kind self) (detail_status self)
    (detail_error self) (detail_error_kind self) (operation self).
Definition set_status (v : NetworksListState) (self : NetworksState) : NetworksState :=
  mkNetworksState (source_rows self) (visible_rows self) (search_query self) (sort_mode self)
    (selected_network_id self) (detail self) (refresh_generation self) (detail_generation self)
    (preferred_network_id self) (initialized self) v (status_text self) (error_kind self) (detail_status self)
    (detail_error self) (detail_error_kind self) (operation self).
Definition set_status_text (v : text) (self : NetworksState) : NetworksState :=
  mkNetworksState (source_rows self) (visible_rows self) (search_query self) (sort_mode self)
    (selected_network_id self) (detail self) (refresh_generation self) (detail_generation self)
    (preferred_network_id self) (initialized self) (status self) v (error_kind self) (detail_status self)
    (detail_error self) (detail_error_kind self) (operation self).
Definition set_error_kind (v : text) (self : NetworksState) : NetworksState :=
  mkNetworksState (source_rows self) (visible_rows self) (search_query self) (sort_mode self)
    (selected_network_id self) (detail self) (refresh_generation self) (detail_generation self)
    (preferred_network_id self) (initialized self) (status self) (status_text self) v (detail_status self)
    (detail_error self) (detail_error_kind self) (operation self).
Definition set_detail_status (v : NetworkDetailState) (self : NetworksState) : NetworksState :=
  mkNetworksState (source_rows self) (visible_rows self) (search_query self) (sort_mode self)
    (selected_network_id self) (detail self) (refresh_generation self) (detail_generation self)
    (preferred_network_id self) (initialized self) (status self) (status_text self) (error_kind self) v
    (detail_error self) (detail_error_kind self) (operation self).
Definition set_detail_error (v : text) (self : NetworksState) : NetworksState :=
  mkNetworksState (source_rows self) (visible_rows self) (search_query self) (sort_mode self)
    (selected_network_id self) (detail self) (refresh_generation self) (detail_generation self)
    (preferred_network_id self) (initialized self) (status self) (status_text self) (error_kind self)
    (detail_status self) v (detail_error_kind self) (operation self).
Definition set_detail_error_kind (v : text) (self : NetworksState) : NetworksState :=
  mkNetworksState (source_rows self) (visible_rows self) (search_query self) (sort_mode self)
    (selected_network_id self) (detail self) (refresh_generation self) (detail_generation self)
    (preferred_network_id self) (initialized self) (status self) (status_text self) (error_kind self)
    (detail_status self) (detail_error self) v (operation self).
Definition set_operation (v : NetworkOperationState) (self : NetworksState) : NetworksState :=
  mkNetworksState (source_rows self) (visible_rows self) (search_query self) (sort_mode self)
    (selected_network_id self) (detail self) (refresh_generation self) (detail_generation self)
    (preferred_network_id self) (initialized self) (status self) (status_text self) (error_kind self)
    (detail_status self) (detail_error self) (detail_error_kind self) v.

Definition NetworksState_default : NetworksState :=
  mkNetworksState [] [] [] NSort_NameAscending [] None 0 0 [] false Networks_Loading [] [] NDetail_None [] []
    (mkNetworkOperationState false None [] 0 [] []).

(** ** Errors *)
Inductive NetworkErrorContext := NCtx_List | NCtx_Detail | NCtx_Operation.

Definition friendly_network_error (error : DaemonError) (context : NetworkErrorContext) : text * text :=
  match error with
  | Cli_SocketNotFound _ | Cli_EngineUnavailable =>
      (bytes "docker_unavailable", bytes "Docker Engine is not available. Check that Docker is running and try again.")
  | Cli_PermissionDenied =>
      (bytes "permission_denied", bytes "Permission denied while accessing Docker networks. Check Docker socket permissions.")
  | Cli_ConnectionTimeout | Cli_OperationTimeout => (bytes "timeout", bytes "The Docker network request timed out. Try again.")
  | Cli_NetworkNotFound _ =>
      (bytes "network_not_found", bytes "This network no longer exists. Refresh the network list.")
  | Cli_NetworkProtected _ =>
      (bytes "network_protected", bytes "Docker-managed networks such as bridge, host, and none cannot be removed.")
  | Cli_NetworkInUse _ | Cli_Conflict _ =>
      (bytes "network_in_use", bytes "Network is currently in use. Remove containers or disconnect them first.")
  | Cli_InvalidNetworkConfig _ | Cli_InvalidResponse _ =>
      (bytes "invalid_network_config", bytes "Docker returned an invalid network configuration.")
  | _ =>
      match context with
      | NCtx_List => (bytes "docker", bytes "Could not load Docker networks. Try again.")
      | NCtx_Detail => (bytes "docker", bytes "Could not load network details. Try again.")
      | NCtx_Operation =>
          (bytes "invalid_network_config",
           bytes "Docker rejected the network request. Check the network configuration and try again.")
      end
  end.

Section page.
Context {LC : Lowercase} {DF : DateFormat}.
Implicit Types self s : NetworksState.

(** ** The list *)
Definition network_row_matches (query : text) (row : NetworkRow) : bool :=
  let found value := str_contains (to_lowercase value) query in
  found (nr_name row) || found (nr_network_id row) || found (nr_short_id row) || found (nr_driver row)
  || found (nr_subnet row) || found (nr_gateway row) || label_matches query (nr_labels row).

Definition network_name_cmp : NetworkRow → NetworkRow → comparison :=
  cmp_then (cmp_by (fun r => to_lowercase (nr_name r)) bytes_cmp)
    (cmp_then (cmp_by nr_name bytes_cmp) (cmp_by nr_network_id bytes_cmp)).

Definition compare_network_rows (mode : NetworkSortMode) : NetworkRow → NetworkRow → comparison :=
  match mode with
  | NSort_NameAscending => network_name_cmp
  | NSort_NameDescending => cmp_rev network_name_cmp
  | NSort_NewestFirst => cmp_then (cmp_by nr_created_at (compare_optional true)) network_name_cmp
  | NSort_OldestFirst => cmp_then (cmp_by nr_created_at (compare_optional false)) network_name_cmp
  | NSort_Driver => cmp_then (cmp_by (fun r => to_lowercase (nr_driver r)) bytes_cmp) network_name_cmp
  end.

Definition network_listing self : list NetworkRow :=
  let query := to_lowercase (search_query self) in
  sort_by (compare_network_rows (sort_mode self))
    (List.filter (fun row => is_empty query || network_row_matches query row) (source_rows self)).
Definition rebuild_visible self : NetworksState := set_visible_rows (network_listing self) self.

Definition row_exists self (network_id : text) : bool :=
  key_exists nr_network_id network_id (source_rows self).
Definition visible_row_exists self (network_id : text) : bool :=
  negb (is_empty network_id) && key_exists nr_network_id network_id (visible_rows self).

(** ** Selection and detail *)
Definition clear_detail (state : NetworkDetailState) self : NetworksState :=
  set_detail_error_kind [] (set_detail_error [] (set_detail_status state (set_detail None self))).
Definition next_detail self : NetworksState := set_detail_generation (wrapping_add 64 (detail_generation self) 1) self.

Definition start_selected_inspect self : Z * NetworksState :=
  let self := clear_detail NDetail_Loading (next_detail self) in (detail_generation self, self).
Definition invalidate_detail (state : NetworkDetailState) self : NetworksState := clear_detail state (next_detail self).
Definition set_refresh_selection (network_id : text) self : NetworksState :=
  clear_detail NDetail_None (set_selected_network_id network_id self).
Definition clear_selection self : NetworksState := invalidate_detail NDetail_None (set_selected_network_id [] self).

Definition initialize self : bool * NetworksState :=
  if initialized self then (false, self) else (true, set_initialized true self).

Definition begin_refresh self : Z * NetworksState :=
  let self := set_refresh_generation (wrapping_add 64 (refresh_generation self) 1) self in
  let self := invalidate_detail NDetail_None self in
  let self := set_error_kind [] (set_status_text [] (set_status Networks_Loading self)) in
  (refresh_generation self, self).

Definition ready_or_empty self : NetworksState :=
  set_status (if is_empty (source_rows self) then Networks_Empty else Networks_Ready) self.

Definition select_first self : NetworksState :=
  match visible_rows self with first :: _ => set_refresh_selection (nr_network_id first) self | [] => clear_selection self end.

Definition apply_list (now : DateTime) (generation : Z) (summaries : list NetworkSummary) self : bool * NetworksState :=
  if negb (generation =? refresh_generation self) then (false, self)
  else
    let previous := selected_network_id self in
    let self := rebuild_visible (set_source_rows (network_row now <$> summaries) self) in
    let self := set_error_kind [] (set_status_text [] (ready_or_empty self)) in
    let preferred := preferred_network_id self in
    let self := set_preferred_network_id [] self in
    (true,
     if negb (is_empty preferred) && row_exists self preferred then set_refresh_selection preferred self
     else if negb (is_empty previous) && row_exists self previous then set_refresh_selection previous self
     else select_first self).

Definition apply_list_error (generation : Z) (error : DaemonError) self : bool * NetworksState :=
  if negb (generation =? refresh_generation self) then (false, self)
  else
    let '(kind, message) := friendly_network_error error NCtx_List in
    let self := clear_selection (set_visible_rows [] (set_source_rows [] self)) in
    (true, set_status_text message (set_error_kind kind (set_status Networks_Error self))).

Definition prefer_created_network (network_id : text) self : NetworksState := set_preferred_network_id network_id self.

Definition update_search_query (query : text) self : NetworksState :=
  let previous := selected_network_id self in
  let self := rebuild_visible (set_search_query (trim query) self) in
  if visible_row_exists self previous then self else select_first self.

Definition update_sort_mode (mode : NetworkSortMode) self : NetworksState := rebuild_visible (set_sort_mode mode self).

Definition select (network_id : text) self : option Z * NetworksState :=
  if negb (row_exists self network_id) then (None, self)
  else
    let '(generation, self) := start_selected_inspect (set_selected_network_id network_id self) in (Some generation, self).

Definition begin_selected_inspect self : option Z * NetworksState :=
  if is_empty (selected_network_id self) || negb (row_exists self (selected_network_id self)) then (None, self)
  else let '(generation, self) := start_selected_inspect self in (Some generation, self).

Definition apply_detail (now : DateTime) (generation : Z) (new : NetworkDetail) self : bool * NetworksState :=
  let id := ns_id (nd_summary new) in
  if negb (generation =? detail_generation self) || negb (bool_decide (id = selected_network_id self)) || negb (row_exists self id)
  then (false, self)
  else
    let rows := update_first (fun row => bool_decide (nr_network_id row = id)) (fun _ => network_row now (nd_summary new)) (source_rows self) in
    let self := rebuild_visible (set_source_rows rows self) in
    let self := set_detail_status NDetail_Ready (set_detail (Some (network_detail_view now new)) self) in
    (true, set_detail_error_kind [] (set_detail_error [] self)).

Definition apply_detail_error (generation : Z) (error : DaemonError) self : bool * NetworksState :=
  if negb (generation =? detail_generation self) || is_empty (selected_network_id self) then (false, self)
  else
    let '(kind, message) := friendly_network_error error NCtx_Detail in
    (true, set_detail_error message (set_detail_error_kind kind (set_detail_status NDetail_Error (set_detail None self)))).

(** ** Operations *)
Definition begin_operation (kind : NetworkOperationKind) (network_id : text) self : option Z * NetworksState :=
  if nop_active (operation self) then (None, self)
  else
    let generation := wrapping_add 64 (nop_generation (operation self)) 1 in
    (Some generation, set_operation (mkNetworkOperationState true (Some kind) network_id generation [] []) self).
Definition begin_create self : option Z * NetworksState := begin_operation NOp_Create [] self.
Definition begin_remove (network_id : text) self : option Z * NetworksState :=
  if negb (row_exists self network_id) then (None, self) else begin_operation NOp_Remove network_id self.

Definition operation_matches (generation : Z) (kind : NetworkOperationKind) (network_id : text) self : bool :=
  nop_active (operation self) && (nop_generation (operation self) =? generation)
  && bool_decide (nop_kind (operation self) = Some kind) && bool_decide (nop_network_id (operation self) = network_id).

Definition end_operation (kind message : text) self : NetworksState :=
  set_operation (mkNetworkOperationState false None [] (nop_generation (operation self)) kind message) self.

Definition finish_create (generation : Z) (network_id : text) self : bool * NetworksState :=
  if negb (operation_matches generation NOp_Create [] self) then (false, self)
  else
    let self := end_operation (nop_error_kind (operation self)) (nop_error_message (operation self)) self in
    (true, rebuild_visible (set_search_query [] (prefer_created_network network_id self))).

Definition finish_remove (generation : Z) (network_id : text) self : bool * NetworksState :=
  if negb (operation_matches generation NOp_Remove network_id self) then (false, self)
  else (true, end_operation (nop_error_kind (operation self)) (nop_error_message (operation self)) self).

Definition fail_operation (generation : Z) (error : DaemonError) self : bool * NetworksState :=
  if negb (nop_active (operation self)) || negb (generation =? nop_generation (operation self)) then (false, self)
  else let '(kind, message) := friendly_network_error error NCtx_Operation in (true, end_operation kind message self).

Definition remove_local (network_id : text) self : option Z * NetworksState :=
  let old_visible_index :=
    from_option fst O (list_find (fun row => nr_network_id row = network_id) (visible_rows self)) in
  let self := rebuild_visible (set_source_rows
    (without_key nr_network_id network_id (source_rows self)) self) in
  let '(generation, self) :=
    if bool_decide (selected_network_id self = network_id) then
      match neighbour old_visible_index (visible_rows self) with
      | Some row =>
          let '(generation, self) := start_selected_inspect (set_selected_network_id (nr_network_id row) self) in
          (Some generation, self)
      | None => (None, clear_selection self)
      end
    else (None, self) in
  (generation, ready_or_empty self).

Definition total_network_count self : Z := len (source_rows self).
End page.

(** ** Sequences of events *)
Inductive network_op :=
  | NInitialize
  | NBeginRefresh
  | NList (now : DateTime) (generation : Z) (summaries : list NetworkSummary)
  | NListError (generation : Z) (error : DaemonError)
  | NSearch (query : text)
  | NSort (mode : NetworkSortMode)
  | NSelect (network_id : text)
  | NInspect
  | NClearSelection
  | NDetailLoaded (now : DateTime) (generation : Z) (new : NetworkDetail)
  | NDetailFailed (generation : Z) (error : DaemonError)
  | NBeginCreate
  | NBeginRemove (network_id : text)
  | NFinishCreate (generation : Z) (network_id : text)
  | NFinishRemove (generation : Z) (network_id : text)
  | NFail (generation : Z) (error : DaemonError)
  | NRemoved (network_id : text).

Section runs.
Context {LC : Lowercase} {DF : DateFormat}.
Implicit Types self s : NetworksState.

Definition network_step self (op : network_op) : NetworksState :=
  match op with
  | NInitialize => (initialize self).2
  | NBeginRefresh => (begin_refresh self).2
  | NList now generation summaries => (apply_list now generation summaries self).2
  | NListError generation error => (apply_list_error generation error self).2
  | NSearch query => update_search_query query self
  | NSort mode => update_sort_mode mode self
  | NSelect network_id => (select network_id self).2
  | NInspect => (begin_selected_inspect self).2
  | NClearSelection => clear_selection self
  | NDetailLoaded now generation new => (apply_detail now generation new self).2
  | NDetailFailed generation error => (apply_detail_error generation error self).2
  | NBeginCreate => (begin_create self).2
  | NBeginRemove network_id => (begin_remove network_id self).2
  | NFinishCreate generation network_id => (finish_create generation network_id self).2
  | NFinishRemove generation network_id => (finish_remove generation network_id self).2
  | NFail generation error => (fail_operation generation error self).2
  | NRemoved network_id => (remove_local network_id self).2
  end.
Definition network_run (ops : list network_op) : NetworksState := foldl network_step NetworksState_default ops.

(** ** The invariant *)
Definition selection_ok s : Prop :=
  (selected_network_id s = [] ∨ row_exists s (selected_network_id s) = true)
  ∧ (detail_status s = NDetail_Loading → row_exists s (selected_network_id s) = true).
Definition network_detail_ok s : Prop :=
  (∀ d, detail s = Some d → nv_network_id d = selected_network_id s)
  ∧ match detail_status s with NDetail_Ready => is_Some (detail s) | _ => detail s = None end.
Definition operation_ok s : Prop :=
  match nop_kind (operation s) with
  | Some kind => nop_active (operation s) = true ∧ (kind = NOp_Create → nop_network_id (operation s) = [])
  | None => nop_active (operation s) = false ∧ nop_network_id (operation s) = []
  end.

Record network_inv s : Prop := {
  ni_visible : visible_rows s = network_listing s;
  ni_selection : selection_ok s;
  ni_detail : network_detail_ok s;
  ni_operation : operation_ok s;
}.

(** What a list with the same rows, search and order shows is the same. *)
Lemma network_listing_ext s s' :
  source_rows s' = source_rows s → search_query s' = search_query s → sort_mode s' = sort_mode s →
  network_listing s' = network_listing s.
Proof. intros H1 H2 H3. unfold network_listing. by rewrite H1, H2, H3. Qed.

Lemma first_exists s row rows : network_listing s = row :: rows → row_exists s (nr_network_id row) = true.
Proof.
  intros E. apply key_exists_elem. eapply shown_elem. unfold network_listing in E. rewrite E. by left.
Qed.

(** The list is rebuilt and a row of it, or none, selected. *)
Lemma selected_inv s id st :
  visible_rows s = network_listing s → operation_ok s → (id = [] ∨ row_exists s id = true) →
  (st = NDetail_None ∨ st = NDetail_Loading ∧ row_exists s id = true) →
  network_inv (clear_detail st (set_selected_network_id id s)).
Proof.
  intros Hv Ho Hid Hst. split; try done.
  - split; [exact Hid |]. cbn. by destruct Hst as [->|[-> ?]].
  - split; [done |]. cbn. by destruct Hst as [->|[-> _]].
Qed.

Lemma select_first_inv s : visible_rows s = network_listing s → operation_ok s → network_inv (select_first s).
Proof.
  intros Hv Ho. unfold select_first. destruct (visible_rows s) as [|row rows] eqn:E.
  - apply (selected_inv (next_detail s) [] NDetail_None); [change (visible_rows s = network_listing s); congruence | done | by left | by left].
  - apply selected_inv; [congruence | done | right; by eapply first_exists | by left].
Qed.

Lemma inspect_inv s : network_inv s → row_exists s (selected_network_id s) = true → network_inv (start_selected_inspect s).2.
Proof.
  intros [Hv _ _ Ho] Hex. unfold start_selected_inspect. cbn [snd].
  replace (clear_detail NDetail_Loading (next_detail s))
    with (clear_detail NDetail_Loading (set_selected_network_id (selected_network_id s) (next_detail s))) by (by destruct s).
  apply selected_inv; [done | done | by right | by right].
Qed.

Lemma network_list_inv now g l s : network_inv s → network_inv (apply_list now g l s).2.
Proof.
  intros Hi. pose proof (ni_operation s Hi) as Ho. unfold apply_list. destruct (negb _); [done |]. cbn [snd]. set (s1 := set_preferred_network_id _ _).
  assert (visible_rows s1 = network_listing s1) as Hv by (by apply network_listing_ext). assert (operation_ok s1) as Ho1 by exact Ho.
  destruct (_ && _) eqn:E1; [apply andb_prop in E1 as [_ E1]; apply selected_inv; [done | done | by right | by left] |].
  destruct (negb (is_empty (selected_network_id s)) && row_exists s1 (selected_network_id s)) eqn:E2.
  - apply andb_prop in E2 as [_ E2]. apply selected_inv; [done | done | by right | by left].
  - by apply select_first_inv.
Qed.

Lemma network_detail_inv now g new s : network_inv s → network_inv (apply_detail now g new s).2.
Proof.
  intros Hi. pose proof Hi as [Hv Hs Hd Ho]. unfold apply_detail. destruct (_ || _) eqn:E; [done |]. cbn [snd].
  apply orb_false_iff in E as [[_ E1]%orb_false_iff E2]. apply negb_false_iff in E1, E2. apply bool_decide_eq_true in E1.
  set (rows := update_first _ _ _).
  assert (∀ id, key_exists nr_network_id id rows = row_exists s id) as Hrows.
  { intros id. apply key_exists_same, update_first_fmap. intros x Hx%bool_decide_eq_true. by rewrite Hx. }
  clearbody rows. split; [by apply network_listing_ext | | | done].
  - split; [right | intros [=]]. unfold row_exists. cbn [source_rows selected_network_id set_detail_error_kind set_detail_error set_detail_status
      set_detail rebuild_visible set_visible_rows set_source_rows]. by rewrite Hrows, <- E1.
  - split; [| cbn; eauto]. cbn. intros d [= <-]. exact E1.
Qed.

Lemma network_removed_inv id s : network_inv s → network_inv (remove_local id s).2.
Proof.
  intros [Hv Hs Hd Ho]. unfold remove_local. set (i := from_option _ _ _). set (s1 := rebuild_visible _).
  assert (visible_rows s1 = network_listing s1) as Hv1 by done.
  assert (∀ s, network_inv s → network_inv (ready_or_empty s)) as Hready by (intros s' [? ? ? ?]; by split).
  change (selected_network_id s1) with (selected_network_id s). case_bool_decide as Esel.
  - destruct (neighbour i (visible_rows s1)) as [row|] eqn:En.
    + assert (row_exists s1 (nr_network_id row) = true) as Hex.
      { apply neighbour_elem in En. rewrite Hv1 in En. apply shown_elem in En. by apply key_exists_elem. }
      cbn. apply Hready, (selected_inv (next_detail s1)); [done | done | by right | by right].
    + apply Hready, (selected_inv (next_detail s1) []); [done | done | by left | by left].
  - cbn [snd]. apply Hready. assert (row_exists s1 (selected_network_id s) = row_exists s (selected_network_id s)) as Hrow.
    { by apply key_exists_without. }
    split; [done | | exact Hd | exact Ho]. unfold selection_ok. change (selected_network_id s1) with (selected_network_id s).
    rewrite Hrow. exact Hs.
Qed.

Lemma network_step_inv s op : network_inv s → network_inv (network_step s op).
Proof.
  intros Hi. pose proof Hi as [Hv Hs Hd Ho].
  destruct op as [| |now g l|g e|q|m|id| | |now g d|g e| |id|g id|g id|g e|id]; cbn [network_step].
  - unfold initialize. destruct (initialized s); [done | by split].
  - unfold begin_refresh. cbn [snd]. split; [done | | | done]; [split; [apply Hs | done] | split; done].
  - by apply network_list_inv.
  - unfold apply_list_error. destruct (negb _); [done |]. destruct (friendly_network_error _ _) as [k m]. cbn [snd].
    split; [done | split; [by left | done] | split; done | exact Ho].
  - unfold update_search_query. set (s1 := rebuild_visible _). destruct (visible_row_exists s1 _) eqn:E; [| by apply select_first_inv].
    split; [done | exact Hs | exact Hd | exact Ho].
  - split; [done | exact Hs | exact Hd | exact Ho].
  - unfold select. destruct (row_exists s id) eqn:E; cbn [negb]; [| done].
    apply (selected_inv (next_detail s)); [done | done | by right | by right].
  - unfold begin_selected_inspect. destruct (_ || _) eqn:E; [done |]. apply orb_false_iff in E as [_ E]. apply negb_false_iff in E.
    by apply inspect_inv.
  - apply (selected_inv (next_detail s) []); [done | done | by left | by left].
  - by apply network_detail_inv.
  - unfold apply_detail_error. destruct (_ || _); [done |]. destruct (friendly_network_error _ _) as [k m]. cbn [snd].
    split; [done | split; [apply Hs | done] | split; done | exact Ho].
  - unfold begin_create, begin_operation. destruct (nop_active _); [done |]. by split.
  - unfold begin_remove, begin_operation. destruct (negb _); [done |]. destruct (nop_active _); [done |]. by split.
  - unfold finish_create. destruct (negb _); [done |]. by split.
  - unfold finish_remove. destruct (negb _); [done |]. by split.
  - unfold fail_operation. destruct (_ || _); [done |]. destruct (friendly_network_error _ _) as [k m]. by split.
  - by apply network_removed_inv.
Qed.

Lemma network_run_inv ops : network_inv (network_run ops).
Proof.
  unfold network_run. assert (network_inv NetworksState_default) as Hi.
  { split; [done | split; [by left | done] | split; done | done]. }
  generalize dependent NetworksState_default. induction ops as [|op ops IH]; intros s Hs; [done |]. apply IH. by apply network_step_inv.
Qed.

(** The network page is always consistent.  After any sequence of user actions,
    refreshes, answers and failures, current or late: the rows shown are the listed
    networks that match the search, in the chosen order; what is selected is still
    in the list; a detail is shown only for the selected network, and exactly in
    the state ready; and an operation that has ended leaves nothing behind. *)
Theorem network_page_consistent ops :
  let s := network_run ops in
  visible_rows s = network_listing s
  ∧ (selected_network_id s ≠ [] → ∃ row, row ∈ source_rows s ∧ nr_network_id row = selected_network_id s)
  ∧ match detail s with
    | Some d => detail_status s = NDetail_Ready ∧ nv_network_id d = selected_network_id s
    | None => detail_status s ≠ NDetail_Ready
    end
  ∧ (nop_active (operation s) = false → nop_kind (operation s) = None ∧ nop_network_id (operation s) = []).
Proof.
  intros s. destruct (network_run_inv ops) as [Hv [Hs _] [Hd1 Hd2] Ho]. fold s in Hv, Hs, Hd1, Hd2, Ho. split_and!; [done | | |].
  - intros Hne. destruct Hs as [?|Hex]; [done |]. by apply key_exists_spec.
  - destruct (detail s) as [d|]; destruct (detail_status s); try done. split; [done | by apply Hd1].
  - intros Hact. unfold operation_ok in Ho. destruct (nop_kind (operation s)); [destruct Ho; congruence | by destruct Ho].
Qed.
End runs.
