(* ===== verification/VolumesPage.v ===== *)
(** The volume page of the graphical interface
    (crates/gui/src/models/volume_model.rs and controllers/volumes.rs): rows and
    detail view, and the state machine of the list, its selection, the operations
    on single volumes and the two that concern all of them.

    The bridge sends the requests; a result comes back with the generation it was
    asked for under and is applied only while that is current.  The bridge removes
    a row only after the removal of its volume has been finished. *)

From S2P Require Import Prelude Path Numbers Utf8 Text Domain DockerError PageFormat.

Local Open Scope Z_scope.

(** ** Rows and views *)
Record VolumeRow := mkVolumeRow {
  vr_volume_name : text;
  vr_display_name : text;
  vr_driver : text;
  vr_scope : text;
  vr_mountpoint : text;
  vr_size_bytes : option Z;
  vr_size_known : bool;
  vr_size_text : text;
  vr_created_at : option DateTime;
  vr_created_text : text;
  vr_in_use : bool;
  vr_used_by_count : Z;
  vr_anonymous : bool;
  vr_selected : bool;
  vr_busy : bool;
  vr_operation : text;
  vr_section : text;
  vr_labels : Labels;
  vr_options : Labels;
  vr_containers : list VolumeContainerReference;
}.

Definition set_vr_size_bytes (v : option Z) (self : VolumeRow) : VolumeRow :=
  mkVolumeRow (vr_volume_name self) (vr_display_name self) (vr_driver self) (vr_scope self) (vr_mountpoint self)
    v (vr_size_known self) (vr_size_text self) (vr_created_at self) (vr_created_text self) (vr_in_use self)
    (vr_used_by_count self) (vr_anonymous self) (vr_selected self) (vr_busy self) (vr_operation self)
    (vr_section self) (vr_labels self) (vr_options self) (vr_containers self).
Definition set_vr_size_known (v : bool) (self : VolumeRow) : VolumeRow :=
  mkVolumeRow (vr_volume_name self) (vr_display_name self) (vr_driver self) (vr_scope self) (vr_mountpoint self)
    (vr_size_bytes self) v (vr_size_text self) (vr_created_at self) (vr_created_text self) (vr_in_use self)
    (vr_used_by_count self) (vr_anonymous self) (vr_selected self) (vr_busy self) (vr_operation self)
    (vr_section self) (vr_labels self) (vr_options self) (vr_containers self).
Definition set_vr_size_text (v : text) (self : VolumeRow) : VolumeRow :=
  mkVolumeRow (vr_volume_name self) (vr_display_name self) (vr_driver self) (vr_scope self) (vr_mountpoint self)
    (vr_size_bytes self) (vr_size_known self) v (vr_created_at self) (vr_created_text self) (vr_in_use self)
    (vr_used_by_count self) (vr_anonymous self) (vr_selected self) (vr_busy self) (vr_operation self)
    (vr_section self) (vr_labels self) (vr_options self) (vr_containers self).
Definition set_vr_in_use (v : bool) (self : VolumeRow) : VolumeRow :=
  mkVolumeRow (vr_volume_name self) (vr_display_name self) (vr_driver self) (vr_scope self) (vr_mountpoint self)
    (vr_size_bytes self) (vr_size_known self) (vr_size_text self) (vr_created_at self) (vr_created_text self) v
    (vr_used_by_count self) (vr_anonymous self) (vr_selected self) (vr_busy self) (vr_operation self)
    (vr_section self) (vr_labels self) (vr_options self) (vr_containers self).
Definition set_vr_used_by_count (v : Z) (self : VolumeRow) : VolumeRow :=
  mkVolumeRow (vr_volume_name self) (vr_display_name self) (vr_driver self) (vr_scope self) (vr_mountpoint self)
    (vr_size_bytes self) (vr_size_known self) (vr_size_text self) (vr_created_at self) (vr_created_text self)
    (vr_in_use self) v (vr_anonymous self) (vr_selected self) (vr_busy self) (vr_operation self)
    (vr_section self) (vr_labels self) (vr_options self) (vr_containers self).
Definition set_vr_selected (v : bool) (self : VolumeRow) : VolumeRow :=
  mkVolumeRow (vr_volume_name self) (vr_display_name self) (vr_driver self) (vr_scope self) (vr_mountpoint self)
    (vr_size_bytes self) (vr_size_known self) (vr_size_text self) (vr_created_at self) (vr_created_text self)
    (vr_in_use self) (vr_used_by_count self) (vr_anonymous self) v (vr_busy self) (vr_operation self)
    (vr_section self) (vr_labels self) (vr_options self) (vr_containers self).
Definition set_vr_busy (v : bool) (self : VolumeRow) : VolumeRow :=
  mkVolumeRow (vr_volume_name self) (vr_display_name self) (vr_driver self) (vr_scope self) (vr_mountpoint self)
    (vr_size_bytes self) (vr_size_known self) (vr_size_text self) (vr_created_at self) (vr_created_text self)
    (vr_in_use self) (vr_used_by_count self) (vr_anonymous self) (vr_selected self) v (vr_operation self)
    (vr_section self) (vr_labels self) (vr_options self) (vr_containers self).
Definition set_vr_operation (v : text) (self : VolumeRow) : VolumeRow :=
  mkVolumeRow (vr_volume_name self) (vr_display_name self) (vr_driver self) (vr_scope self) (vr_mountpoint self)
    (vr_size_bytes self) (vr_size_known self) (vr_size_text self) (vr_created_at self) (vr_created_text self)
    (vr_in_use self) (vr_used_by_count self) (vr_anonymous self) (vr_selected self) (vr_busy self) v
    (vr_section self) (vr_labels self) (vr_options self) (vr_containers self).
Definition set_vr_section (v : text) (self : VolumeRow) : VolumeRow :=
  mkVolumeRow (vr_volume_name self) (vr_display_name self) (vr_driver self) (vr_scope self) (vr_mountpoint self)
    (vr_size_bytes self) (vr_size_known self) (vr_size_text self) (vr_created_at self) (vr_created_text self)
    (vr_in_use self) (vr_used_by_count self) (vr_anonymous self) (vr_selected self) (vr_busy self)
    (vr_operation self) v (vr_labels self) (vr_options self) (vr_containers self).
Definition set_vr_containers (v : list VolumeContainerReference) (self : VolumeRow) : VolumeRow :=
  mkVolumeRow (vr_volume_name self) (vr_display_name self) (vr_driver self) (vr_scope self) (vr_mountpoint self)
    (vr_size_bytes self) (vr_size_known self) (vr_size_text self) (vr_created_at self) (vr_created_text self)
    (vr_in_use self) (vr_used_by_count self) (vr_anonymous self) (vr_selected self) (vr_busy self)
    (vr_operation self) (vr_section self) (vr_labels self) (vr_options self) v.

Record VolumePropertyRow := mkVolumePropertyRow { vp_label : text; vp_value : text; vp_copyable : bool }.
Record VolumeContainerView := mkVolumeContainerView {
  vcv_container_id : text;
  vcv_short_id : text;
  vcv_name : text;
  vcv_state : text;
  vcv_destination : text;
  vcv_read_only : bool;
  vcv_access_text : text;
  vcv_propagation : text;
}.
Record VolumeDetailView := mkVolumeDetailView {
  vv_volume_name : text;
  vv_display_name : text;
  vv_driver : text;
  vv_scope : text;
  vv_mountpoint : text;
  vv_created_text : text;
  vv_size_bytes : option Z;
  vv_size_known : bool;
  vv_size_text : text;
  vv_ref_count : option Z;
  vv_ref_count_text : text;
  vv_anonymous : bool;
  vv_anonymous_text : text;
  vv_general : list VolumePropertyRow;
  vv_used_by : list VolumeContainerView;
  vv_labels : list KeyValueRow;
  vv_options : list KeyValueRow;
  vv_status : list KeyValueRow;
}.

Definition ellipsis : text := [of_u8 0xE2; of_u8 0x80; of_u8 0xA6].

Definition display_volume_name (name : text) (anonymous : bool) : text :=
  if anonymous && (15 <? count_chars name)%nat then take_chars 12 name ++ ellipsis else name.

Definition size_or (unknown : string) (size_bytes : option Z) : text := from_option format_bytes (bytes unknown) size_bytes.
Definition is_some {A} (o : option A) : bool := match o with Some _ => true | None => false end.
Definition section_name (in_use : bool) : text := if in_use then bytes "in_use" else bytes "unused".

Definition secondary_text (self : VolumeRow) : text :=
  let use_text :=
    if vr_used_by_count self =? 0 then bytes "Unused"
    else if vr_used_by_count self =? 1 then bytes "1 container"
    else u64_to_string (vr_used_by_count self) ++ bytes " containers" in
  vr_size_text self ++ bytes " " ++ middle_dot ++ bytes " " ++ use_text.

Definition row_size_step (result : VolumeSizeSummary) (row : VolumeRow) : VolumeSizeSummary :=
  match vr_size_bytes row with
  | Some size =>
      {| vss_known_total_bytes := saturating_add u64_max (vss_known_total_bytes result) size;
         vss_known_count := vss_known_count result + 1; vss_unknown_count := vss_unknown_count result |}
  | None =>
      {| vss_known_total_bytes := vss_known_total_bytes result; vss_known_count := vss_known_count result;
         vss_unknown_count := vss_unknown_count result + 1 |}
  end.
Definition VolumeSizeSummary_from_rows (rows : list VolumeRow) : VolumeSizeSummary :=
  foldl row_size_step {| vss_known_total_bytes := 0; vss_known_count := 0; vss_unknown_count := 0 |} rows.

Section views.
Context {LC : Lowercase} {DF : DateFormat}.

Definition volume_row (summary : VolumeSummary) : VolumeRow :=
  let size_bytes := vu_size_bytes (vs_usage summary) in
  mkVolumeRow (vs_name summary) (display_volume_name (vs_name summary) (vs_anonymous summary)) (vs_driver summary)
    (vs_scope summary) (default [] (vs_mountpoint summary)) size_bytes (is_some size_bytes) (size_or "Unknown size" size_bytes)
    (vs_created_at summary) (from_option full_utc_time dash (vs_created_at summary)) (negb (len (vs_used_by summary) =? 0))
    (len (vs_used_by summary)) (vs_anonymous summary) false false [] (section_name (negb (is_empty (vs_used_by summary))))
    (vs_labels summary) (vs_options summary) (vs_used_by summary).

Definition volume_container_view (reference : VolumeContainerReference) : VolumeContainerView :=
  mkVolumeContainerView (vcr_id reference) (vcr_short_id reference) (vcr_name reference) (runtime_as_str (vcr_state reference))
    (value_or_dash (Some (vcr_destination reference))) (vcr_read_only reference)
    (if vcr_read_only reference then bytes "Read Only" else bytes "Read/Write") (value_or_dash (vcr_propagation reference)).

Definition volume_property (label : string) (value : text) (copyable : bool) : VolumePropertyRow :=
  mkVolumePropertyRow (bytes label) value copyable.

Definition used_by_cmp : VolumeContainerView → VolumeContainerView → comparison :=
  cmp_then (cmp_by (fun c => to_lowercase (vcv_name c)) bytes_cmp)
    (cmp_then (cmp_by vcv_container_id bytes_cmp) (cmp_by vcv_destination bytes_cmp)).

Definition volume_detail_view (detail : VolumeDetail) : VolumeDetailView :=
  let summary := vd_summary detail in
  let size_bytes := vu_size_bytes (vs_usage summary) in
  let mountpoint := value_or_dash (vs_mountpoint summary) in
  let created_text := from_option full_utc_time dash (vs_created_at summary) in
  let size_text := size_or "Unknown" size_bytes in
  let ref_count_text := from_option u64_to_string (bytes "Unknown") (vu_ref_count (vs_usage summary)) in
  let anonymous_text := if vs_anonymous summary then bytes "Yes" else bytes "No" in
  let general :=
    [volume_property "Name" (vs_name summary) true; volume_property "Driver" (value_or_dash (Some (vs_driver summary))) false;
     volume_property "Scope" (value_or_dash (Some (vs_scope summary))) false; volume_property "Mountpoint" mountpoint true;
     volume_property "Created" created_text false; volume_property "Size" size_text false;
     volume_property "Reference Count" ref_count_text false; volume_property "Anonymous" anonymous_text false] in
  mkVolumeDetailView (vs_name summary) (display_volume_name (vs_name summary) (vs_anonymous summary))
    (value_or_dash (Some (vs_driver summary))) (value_or_dash (Some (vs_scope summary))) mountpoint created_text size_bytes
    (is_some size_bytes) size_text (vu_ref_count (vs_usage summary)) ref_count_text (vs_anonymous summary) anonymous_text general
    (sort_by used_by_cmp (volume_container_view <$> vs_used_by summary)) (sorted_pairs (vs_labels summary))
    (sorted_pairs (vs_options summary)) (sorted_pairs (vd_status detail)).
End views.

(** ** The page *)
Inductive VolumesListState := Volumes_Idle | Volumes_Loading | Volumes_Ready | Volumes_Empty | Volumes_Error
  | Volumes_DockerUnavailable | Volumes_PermissionDenied.
Inductive VolumeDetailState := VDetail_None | VDetail_Loading | VDetail_Ready | VDetail_Error.
#[export] Instance VolumeDetailState_eq_dec : EqDecision VolumeDetailState.
Proof. solve_decision. Defined.
Inductive VolumeOperation := VOp_Removing | VOp_Exporting | VOp_Cloning.
#[export] Instance VolumeOperation_eq_dec : EqDecision VolumeOperation.
Proof. solve_decision. Defined.
Definition volume_operation_name (self : VolumeOperation) : text :=
  match self with VOp_Removing => bytes "removing" | VOp_Exporting => bytes "exporting" | VOp_Cloning => bytes "cloning" end.
Inductive GlobalVolumeOperation := Global_Creating | Global_Pruning.
#[export] Instance GlobalVolumeOperation_eq_dec : EqDecision GlobalVolumeOperation.
Proof. solve_decision. Defined.
Inductive VolumeSortMode := VSort_NameAscending | VSort_NameDescending | VSort_NewestFirst | VSort_OldestFirst | VSort_LargestFirst
  | VSort_SmallestFirst | VSort_MostContainers | VSort_FewestContainers | VSort_InUseFirst | VSort_UnusedFirst.
Inductive CancellationState := Cancel_Idle | Cancel_Cancellable | Cancel_Requested.
#[export] Instance CancellationState_eq_dec : EqDecision CancellationState.
Proof. solve_decision. Defined.

Record CancellableVolumeTask := mkTask {
  task_active : bool; task_volume_name : text; task_generation : Z; task_cancellation : CancellationState;
}.
Definition no_task : CancellableVolumeTask := mkTask false [] 0 Cancel_Idle.

Record VolumesState := mkVolumesState {
  source_rows : list VolumeRow;
  visible_rows : list VolumeRow;
  search_query : text;
  sort_mode : VolumeSortMode;
  selected_volume_name : text;
  detail : option VolumeDetailView;
  initialized : bool;
  list_state : VolumesListState;
  list_error_kind : text;
  list_error_message : text;
  detail_state : VolumeDetailState;
  detail_error_kind : text;
  detail_error_message : text;
  refresh_generation : Z;
  detail_generation : Z;
  operation_generation : Z;
  global_generation : Z;
  operations : gmap text VolumeOperation;
  operation_generations : gmap text Z;
  global_operation : option GlobalVolumeOperation;
  export_task : CancellableVolumeTask;
  clone_task : CancellableVolumeTask;
  prune_cancellation : CancellationState;
  operation_error_kind : text;
  operation_error_message : text;
  preferred_volume_name : text;
  selection_before_filter : text;
}.

Definition set_source_rows (v : list VolumeRow) (self : VolumesState) : VolumesState :=
  mkVolumesState v (visible_rows self) (search_query self) (sort_mode self) (selected_volume_name self)
    (detail self) (initialized self) (list_state self) (list_error_kind self) (list_error_message self)
    (detail_state self) (detail_error_kind self) (detail_error_message self) (refresh_generation self)
    (detail_generation self) (operation_generation self) (global_generation self) (operations self)
    (operation_generations self) (global_operation self) (export_task self) (clone_task self)
    (prune_cancellation self) (operation_error_kind self) (operation_error_message self)
    (preferred_volume_name self) (selection_before_filter self).
Definition set_visible_rows (v : list VolumeRow) (self : VolumesState) : VolumesState :=
  mkVolumesState (source_rows self) v (search_query self) (sort_mode self) (selected_volume_name self)
    (detail self) (initialized self) (list_state self) (list_error_kind self) (list_error_message self)
    (detail_state self) (detail_error_kind self) (detail_error_message self) (refresh_generation self)
    (detail_generation self) (operation_generation self) (global_generation self) (operations self)
    (operation_generations self) (global_operation self) (export_task self) (clone_task self)
    (prune_cancellation self) (operation_error_kind self) (operation_error_message self)
    (preferred_volume_name self) (selection_before_filter self).
Definition set_search_query (v : text) (self : VolumesState) : VolumesState :=
  mkVolumesState (source_rows self) (visible_rows self) v (sort_mode self) (selected_volume_name self)
    (detail self) (initialized self) (list_state self) (list_error_kind self) (list_error_message self)
    (detail_state self) (detail_error_kind self) (detail_error_message self) (refresh_generation self)
    (detail_generation self) (operation_generation self) (global_generation self) (operations self)
    (operation_generations self) (global_operation self) (export_task self) (clone_task self)
    (prune_cancellation self) (operation_error_kind self) (operation_error_message self)
    (preferred_volume_name self) (selection_before_filter self).
Definition set_sort_mode (v : VolumeSortMode) (self : VolumesState) : VolumesState :=
  mkVolumesState (source_rows self) (visible_rows self) (search_query self) v (selected_volume_name self)
    (detail self) (initialized self) (list_state self) (list_error_kind self) (list_error_message self)
    (detail_state self) (detail_error_kind self) (detail_error_message self) (refresh_generation self)
    (detail_generation self) (operation_generation self) (global_generation self) (operations self)
    (operation_generations self) (global_operation self) (export_task self) (clone_task self)
    (prune_cancellation self) (operation_error_kind self) (operation_error_message self)
    (preferred_volume_name self) (selection_before_filter self).
Definition set_selected_volume_name (v : text) (self : VolumesState) : VolumesState :=
  mkVolumesState (source_rows self) (visible_rows self) (search_query self) (sort_mode self) v (detail self)
    (initialized self) (list_state self) (list_error_kind self) (list_error_message self) (detail_state self)
    (detail_error_kind self) (detail_error_message self) (refresh_generation self) (detail_generation self)
    (operation_generation self) (global_generation self) (operations self) (operation_generations self)
    (global_operation self) (export_task self) (clone_task self) (prune_cancellation self)
    (operation_error_kind self) (operation_error_message self) (preferred_volume_name self)
    (selection_before_filter self).
Definition set_detail (v : option VolumeDetailView) (self : VolumesState) : VolumesState :=
  mkVolumesState (source_rows self) (visible_rows self) (search_query self) (sort_mode self)
    (selected_volume_name self) v (initialized self) (list_state self) (list_error_kind self)
    (list_error_message self) (detail_state self) (detail_error_kind self) (detail_error_message self)
    (refresh_generation self) (detail_generation self) (operation_generation self) (global_generation self)
    (operations self) (operation_generations self) (global_operation self) (export_task self) (clone_task self)
    (prune_cancellation self) (operation_error_kind self) (operation_error_message self)
    (preferred_volume_name self) (selection_before_filter self).
Definition set_initialized (v : bool) (self : VolumesState) : VolumesState :=
  mkVolumesState (source_rows self) (visible_rows self) (search_query self) (sort_mode self)
    (selected_volume_name self) (detail self) v (list_state self) (list_error_kind self)
    (list_error_message self) (detail_state self) (detail_error_kind self) (detail_error_message self)
    (refresh_generation self) (detail_generation self) (operation_generation self) (global_generation self)
    (operations self) (operation_generations self) (global_operation self) (export_task self) (clone_task self)
    (prune_cancellation self) (operation_error_kind self) (operation_error_message self)
    (preferred_volume_name self) (selection_before_filter self).
Definition set_list_state (v : VolumesListState) (self : VolumesState) : VolumesState :=
  mkVolumesState (source_rows self) (visible_rows self) (search_query self) (sort_mode self)
    (selected_volume_name self) (detail self) (initialized self) v (list_error_kind self)
    (list_error_message self) (detail_state self) (detail_error_kind self) (detail_error_message self)
    (refresh_generation self) (detail_generation self) (operation_generation self) (global_generation self)
    (operations self) (operation_generations self) (global_operation self) (export_task self) (clone_task self)
    (prune_cancellation self) (operation_error_kind self) (operation_error_message self)
    (preferred_volume_name self) (selection_before_filter self).
Definition set_list_error_kind (v : text) (self : VolumesState) : VolumesState :=
  mkVolumesState (source_rows self) (visible_rows self) (search_query self) (sort_mode self)
    (selected_volume_name self) (detail self) (initialized self) (list_state self) v (list_error_message self)
    (detail_state self) (detail_error_kind self) (detail_error_message self) (refresh_generation self)
    (detail_generation self) (operation_generation self) (global_generation self) (operations self)
    (operation_generations self) (global_operation self) (export_task self) (clone_task self)
    (prune_cancellation self) (operation_error_kind self) (operation_error_message self)
    (preferred_volume_name self) (selection_before_filter self).
Definition set_list_error_message (v : text) (self : VolumesState) : VolumesState :=
  mkVolumesState (source_rows self) (visible_rows self) (search_query self) (sort_mode self)
    (selected_volume_name self) (detail self) (initialized self) (list_state self) (list_error_kind self) v
    (detail_state self) (detail_error_kind self) (detail_error_message self) (refresh_generation self)
    (detail_generation self) (operation_generation self) (global_generation self) (operations self)
    (operation_generations self) (global_operation self) (export_task self) (clone_task self)
    (prune_cancellation self) (operation_error_kind self) (operation_error_message self)
    (preferred_volume_name self) (selection_before_filter self).
Definition set_detail_state (v : VolumeDetailState) (self : VolumesState) : VolumesState :=
  mkVolumesState (source_rows self) (visible_rows self) (search_query self) (sort_mode self)
    (selected_volume_name self) (detail self) (initialized self) (list_state self) (list_error_kind self)
    (list_error_message self) v (detail_error_kind self) (detail_error_message self) (refresh_generation self)
    (detail_generation self) (operation_generation self) (global_generation self) (operations self)
    (operation_generations self) (global_operation self) (export_task self) (clone_task self)
    (prune_cancellation self) (operation_error_kind self) (operation_error_message self)
    (preferred_volume_name self) (selection_before_filter self).
Definition set_detail_error_kind (v : text) (self : VolumesState) : VolumesState :=
  mkVolumesState (source_rows self) (visible_rows self) (search_query self) (sort_mode self)
    (selected_volume_name self) (detail self) (initialized self) (list_state self) (list_error_kind self)
    (list_error_message self) (detail_state self) v (detail_error_message self) (refresh_generation self)
    (detail_generation self) (operation_generation self) (global_generation self) (operations self)
    (operation_generations self) (global_operation self) (export_task self) (clone_task self)
    (prune_cancellation self) (operation_error_kind self) (operation_error_message self)
    (preferred_volume_name self) (selection_before_filter self).
Definition set_detail_error_message (v : text) (self : VolumesState) : VolumesState :=
  mkVolumesState (source_rows self) (visible_rows self) (search_query self) (sort_mode self)
    (selected_volume_name self) (detail self) (initialized self) (list_state self) (list_error_kind self)
    (list_error_message self) (detail_state self) (detail_error_kind self) v (refresh_generation self)
    (detail_generation self) (operation_generation self) (global_generation self) (operations self)
    (operation_generations self) (global_operation self) (export_task self) (clone_task self)
    (prune_cancellation self) (operation_error_kind self) (operation_error_message self)
    (preferred_volume_name self) (selection_before_filter self).
Definition set_refresh_generation (v : Z) (self : VolumesState) : VolumesState :=
  mkVolumesState (source_rows self) (visible_rows self) (search_query self) (sort_mode self)
    (selected_volume_name self) (detail self) (initialized self) (list_state self) (list_error_kind self)
    (list_error_message self) (detail_state self) (detail_error_kind self) (detail_error_message self) v
    (detail_generation self) (operation_generation self) (global_generation self) (operations self)
    (operation_generations self) (global_operation self) (export_task self) (clone_task self)
    (prune_cancellation self) (operation_error_kind self) (operation_error_message self)
    (preferred_volume_name self) (selection_before_filter self).
Definition set_detail_generation (v : Z) (self : VolumesState) : VolumesState :=
  mkVolumesState (source_rows self) (visible_rows self) (search_query self) (sort_mode self)
    (selected_volume_name self) (detail self) (initialized self) (list_state self) (list_error_kind self)
    (list_error_message self) (detail_state self) (detail_error_kind self) (detail_error_message self)
    (refresh_generation self) v (operation_generation self) (global_generation self) (operations self)
    (operation_generations self) (global_operation self) (export_task self) (clone_task self)
    (prune_cancellation self) (operation_error_kind self) (operation_error_message self)
    (preferred_volume_name self) (selection_before_filter self).
Definition set_operation_generation (v : Z) (self : VolumesState) : VolumesState :=
  mkVolumesState (source_rows self) (visible_rows self) (search_query self) (sort_mode self)
    (selected_volume_name self) (detail self) (initialized self) (list_state self) (list_error_kind self)
    (list_error_message self) (detail_state self) (detail_error_kind self) (detail_error_message self)
    (refresh_generation self) (detail_generation self) v (global_generation self) (operations self)
    (operation_generations self) (global_operation self) (export_task self) (clone_task self)
    (prune_cancellation self) (operation_error_kind self) (operation_error_message self)
    (preferred_volume_name self) (selection_before_filter self).
Definition set_global_generation (v : Z) (self : VolumesState) : VolumesState :=
  mkVolumesState (source_rows self) (visible_rows self) (search_query self) (sort_mode self)
    (selected_volume_name self) (detail self) (initialized self) (list_state self) (list_error_kind self)
    (list_error_message self) (detail_state self) (detail_error_kind self) (detail_error_message self)
    (refresh_generation self) (detail_generation self) (operation_generation self) v (operations self)
    (operation_generations self) (global_operation self) (export_task self) (clone_task self)
    (prune_cancellation self) (operation_error_kind self) (operation_error_message self)
    (preferred_volume_name self) (selection_before_filter self).
Definition set_operations (v : gmap text VolumeOperation) (self : VolumesState) : VolumesState :=
  mkVolumesState (source_rows self) (visible_rows self) (search_query self) (sort_mode self)
    (selected_volume_name self) (detail self) (initialized self) (list_state self) (list_error_kind self)
    (list_error_message self) (detail_state self) (detail_error_kind self) (detail_error_message self)
    (refresh_generation self) (detail_generation self) (operation_generation self) (global_generation self) v
    (operation_generations self) (global_operation self) (export_task self) (clone_task self)
    (prune_cancellation self) (operation_error_kind self) (operation_error_message self)
    (preferred_volume_name self) (selection_before_filter self).
Definition set_operation_generations (v : gmap text Z) (self : VolumesState) : VolumesState :=
  mkVolumesState (source_rows self) (visible_rows self) (search_query self) (sort_mode self)
    (selected_volume_name self) (detail self) (initialized self) (list_state self) (list_error_kind self)
    (list_error_message self) (detail_state self) (detail_error_kind self) (detail_error_message self)
    (refresh_generation self) (detail_generation self) (operation_generation self) (global_generation self)
    (operations self) v (global_operation self) (export_task self) (clone_task self) (prune_cancellation self)
    (operation_error_kind self) (operation_error_message self) (preferred_volume_name self)
    (selection_before_filter self).
Definition set_global_operation (v : option GlobalVolumeOperation) (self : VolumesState) : VolumesState :=
  mkVolumesState (source_rows self) (visible_rows self) (search_query self) (sort_mode self)
    (selected_volume_name self) (detail self) (initialized self) (list_state self) (list_error_kind self)
    (list_error_message self) (detail_state self) (detail_error_kind self) (detail_error_message self)
    (refresh_generation self) (detail_generation self) (operation_generation self) (global_generation self)
    (operations self) (operation_generations self) v (export_task self) (clone_task self)
    (prune_cancellation self) (operation_error_kind self) (operation_error_message self)
    (preferred_volume_name self) (selection_before_filter self).
Definition set_export_task (v : CancellableVolumeTask) (self : VolumesState) : VolumesState :=
  mkVolumesState (source_rows self) (visible_rows self) (search_query self) (sort_mode self)
    (selected_volume_name self) (detail self) (initialized self) (list_state self) (list_error_kind self)
    (list_error_message self) (detail_state self) (detail_error_kind self) (detail_error_message self)
    (refresh_generation self) (detail_generation self) (operation_generation self) (global_generation self)
    (operations self) (operation_generations self) (global_operation self) v (clone_task self)
    (prune_cancellation self) (operation_error_kind self) (operation_error_message self)
    (preferred_volume_name self) (selection_before_filter self).
Definition set_clone_task (v : CancellableVolumeTask) (self : VolumesState) : VolumesState :=
  mkVolumesState (source_rows self) (visible_rows self) (search_query self) (sort_mode self)
    (selected_volume_name self) (detail self) (initialized self) (list_state self) (list_error_kind self)
    (list_error_message self) (detail_state self) (detail_error_kind self) (detail_error_message self)
    (refresh_generation self) (detail_generation self) (operation_generation self) (global_generation self)
    (operations self) (operation_generations self) (global_operation self) (export_task self) v
    (prune_cancellation self) (operation_error_kind self) (operation_error_message self)
    (preferred_volume_name self) (selection_before_filter self).
Definition set_prune_cancellation (v : CancellationState) (self : VolumesState) : VolumesState :=
  mkVolumesState (source_rows self) (visible_rows self) (search_query self) (sort_mode self)
    (selected_volume_name self) (detail self) (initialized self) (list_state self) (list_error_kind self)
    (list_error_message self) (detail_state self) (detail_error_kind self) (detail_error_message self)
    (refresh_generation self) (detail_generation self) (operation_generation self) (global_generation self)
    (operations self) (operation_generations self) (global_operation self) (export_task self) (clone_task self)
    v (operation_error_kind self) (operation_error_message self) (preferred_volume_name self)
    (selection_before_filter self).
Definition set_operation_error_kind (v : text) (self : VolumesState) : VolumesState :=
  mkVolumesState (source_rows self) (visible_rows self) (search_query self) (sort_mode self)
    (selected_volume_name self) (detail self) (initialized self) (list_state self) (list_error_kind self)
    (list_error_message self) (detail_state self) (detail_error_kind self) (detail_error_message self)
    (refresh_generation self) (detail_generation self) (operation_generation self) (global_generation self)
    (operations self) (operation_generations self) (global_operation self) (export_task self) (clone_task self)
    (prune_cancellation self) v (operation_error_message self) (preferred_volume_name self)
    (selection_before_filter self).
Definition set_operation_error_message (v : text) (self : VolumesState) : VolumesState :=
  mkVolumesState (source_rows self) (visible_rows self) (search_query self) (sort_mode self)
    (selected_volume_name self) (detail self) (initialized self) (list_state self) (list_error_kind self)
    (list_error_message self) (detail_state self) (detail_error_kind self) (detail_error_message self)
    (refresh_generation self) (detail_generation self) (operation_generation self) (global_generation self)
    (operations self) (operation_generations self) (global_operation self) (export_task self) (clone_task self)
    (prune_cancellation self) (operation_error_kind self) v (preferred_volume_name self)
    (selection_before_filter self).
Definition set_preferred_volume_name (v : text) (self : VolumesState) : VolumesState :=
  mkVolumesState (source_rows self) (visible_rows self) (search_query self) (sort_mode self)
    (selected_volume_name self) (detail self) (initialized self) (list_state self) (list_error_kind self)
    (list_error_message self) (detail_state self) (detail_error_kind self) (detail_error_message self)
    (refresh_generation self) (detail_generation self) (operation_generation self) (global_generation self)
    (operations self) (operation_generations self) (global_operation self) (export_task self) (clone_task self)
    (prune_cancellation self) (operation_error_kind self) (operation_error_message self) v
    (selection_before_filter self).
Definition set_selection_before_filter (v : text) (self : VolumesState) : VolumesState :=
  mkVolumesState (source_rows self) (visible_rows self) (search_query self) (sort_mode self)
    (selected_volume_name self) (detail self) (initialized self) (list_state self) (list_error_kind self)
    (list_error_message self) (detail_state self) (detail_error_kind self) (detail_error_message self)
    (refresh_generation self) (detail_generation self) (operation_generation self) (global_generation self)
    (operations self) (operation_generations self) (global_operation self) (export_task self) (clone_task self)
    (prune_cancellation self) (operation_error_kind self) (operation_error_message self)
    (preferred_volume_name self) v.
Definition VolumesState_default : VolumesState :=
  mkVolumesState [] [] [] VSort_InUseFirst [] None false Volumes_Idle [] [] VDetail_None [] [] 0 0 0 0 ∅ ∅ None no_task no_task
    Cancel_Idle [] [] [] [].

(** ** Errors *)
Inductive VolumeErrorContext := VCtx_List | VCtx_Detail | VCtx_Operation.

Definition friendly_volume_error (error : DaemonError) (context : VolumeErrorContext) : text * text * VolumesListState :=
  match error with
  | Cli_SocketNotFound _ | Cli_EngineUnavailable =>
      (bytes "docker_unavailable", bytes "Docker Engine is not available. Check that Docker is running and try again.",
       Volumes_DockerUnavailable)
  | Cli_PermissionDenied =>
      (bytes "permission_denied", bytes "Permission denied while accessing Docker volumes. Check Docker socket permissions.",
       Volumes_PermissionDenied)
  | Cli_ConnectionTimeout | Cli_OperationTimeout =>
      (bytes "timeout", bytes "The Docker volume request timed out. Try again.", Volumes_Error)
  | Cli_VolumeNotFound _ => (bytes "volume_not_found", bytes "This volume no longer exists. Refresh the volume list.", Volumes_Error)
  | Cli_VolumeInUse _ | Cli_Conflict _ =>
      (bytes "volume_in_use", bytes "Volume is still used by a container and cannot be removed.", Volumes_Error)
  | Cli_VolumeAlreadyExists _ => (bytes "volume_already_exists", bytes "A volume with this name already exists.", Volumes_Error)
  | Cli_VolumeDriverUnavailable _ =>
      (bytes "volume_driver_unavailable", bytes "The requested volume driver is unavailable.", Volumes_Error)
  | Cli_VolumePluginError _ => (bytes "volume_plugin_error", bytes "The volume plugin returned an error.", Volumes_Error)
  | Cli_InvalidVolumeName _ => (bytes "invalid_volume_name", bytes "Docker rejected the volume name.", Volumes_Error)
  | Cli_ExportFailed _ => (bytes "export_failed", bytes "Docker could not export the volume.", Volumes_Error)
  | Cli_CloneFailed _ => (bytes "clone_failed", bytes "Docker could not clone the volume.", Volumes_Error)
  | Cli_CleanupFailed _ =>
      (bytes "cleanup_failed", bytes "The volume operation failed and temporary resources could not be fully cleaned up.", Volumes_Error)
  | Cli_OperationCancelled => (bytes "cancelled", bytes "The volume operation was cancelled.", Volumes_Error)
  | Cli_DestinationPermissionDenied _ =>
      (bytes "destination_permission_denied", bytes "The export destination is not writable.", Volumes_Error)
  | Cli_DiskFull _ => (bytes "disk_full", bytes "There is not enough space at the export destination.", Volumes_Error)
  | _ =>
      match context with
      | VCtx_List => (bytes "docker", bytes "Could not load Docker volumes. Try again.", Volumes_Error)
      | VCtx_Detail => (bytes "docker", bytes "Volume details are unavailable. Try again.", Volumes_Error)
      | VCtx_Operation =>
          (bytes "volume_operation_failed", bytes "Docker could not complete the volume operation. Try again.", Volumes_Error)
      end
  end.

Section page.
Context {LC : Lowercase} {DF : DateFormat}.
Implicit Types self s : VolumesState.

(** ** The list *)
Definition volume_row_matches (query : text) (row : VolumeRow) : bool :=
  let found value := str_contains (to_lowercase value) query in
  found (vr_volume_name row) || found (vr_driver row) || found (vr_scope row) || found (vr_mountpoint row)
  || label_matches query (vr_labels row) || label_matches query (vr_options row)
  || existsb (fun c => found (vcr_name c) || found (vcr_id c) || found (vcr_short_id c)) (vr_containers row).

Definition volume_name_cmp : VolumeRow → VolumeRow → comparison :=
  cmp_then (cmp_by (fun r => to_lowercase (vr_volume_name r)) bytes_cmp) (cmp_by vr_volume_name bytes_cmp).

Definition compare_volume_rows (mode : VolumeSortMode) : VolumeRow → VolumeRow → comparison :=
  let section := cmp_by vr_in_use bool_cmp in
  cmp_then (match mode with VSort_UnusedFirst => section | _ => cmp_rev section end)
    (match mode with
     | VSort_NameAscending | VSort_InUseFirst | VSort_UnusedFirst => volume_name_cmp
     | VSort_NameDescending => cmp_rev volume_name_cmp
     | VSort_NewestFirst => cmp_then (cmp_by vr_created_at (compare_optional true)) volume_name_cmp
     | VSort_OldestFirst => cmp_then (cmp_by vr_created_at (compare_optional false)) volume_name_cmp
     | VSort_LargestFirst => cmp_then (cmp_by vr_size_bytes (compare_optional true)) volume_name_cmp
     | VSort_SmallestFirst => cmp_then (cmp_by vr_size_bytes (compare_optional false)) volume_name_cmp
     | VSort_MostContainers => cmp_then (cmp_rev (cmp_by vr_used_by_count Z.compare)) volume_name_cmp
     | VSort_FewestContainers => cmp_then (cmp_by vr_used_by_count Z.compare) volume_name_cmp
     end).

(** The rows that match, in order. *)
Definition volume_listing self : list VolumeRow :=
  let query := to_lowercase (search_query self) in
  sort_by (compare_volume_rows (sort_mode self))
    (List.filter (fun row => is_empty query || volume_row_matches query row) (source_rows self)).

Definition sync_row self (row : VolumeRow) : VolumeRow :=
  let operation := from_option volume_operation_name [] (operations self !! vr_volume_name row) in
  set_vr_busy (negb (is_empty operation)) (set_vr_operation operation
    (set_vr_selected (bool_decide (vr_volume_name row = selected_volume_name self)) row)).

Definition sync_dynamic_roles self : VolumesState :=
  set_visible_rows (sync_row self <$> visible_rows self) (set_source_rows (sync_row self <$> source_rows self) self).

Definition rebuild_visible self : VolumesState := sync_dynamic_roles (set_visible_rows (volume_listing self) self).

Definition source_row_exists self (name : text) : bool := negb (is_empty name) && key_exists vr_volume_name name (source_rows self).
Definition visible_row_exists self (name : text) : bool := negb (is_empty name) && key_exists vr_volume_name name (visible_rows self).

(** ** Selection and detail *)
Definition clear_detail (state : VolumeDetailState) self : VolumesState :=
  set_detail_error_message [] (set_detail_error_kind [] (set_detail_state state (set_detail None self))).
Definition next_detail self : VolumesState := set_detail_generation (wrapping_add 64 (detail_generation self) 1) self.

Definition start_selected_inspect self : Z * VolumesState :=
  let self := clear_detail VDetail_Loading (next_detail self) in (detail_generation self, self).
Definition invalidate_detail (state : VolumeDetailState) self : VolumesState := clear_detail state (next_detail self).
Definition set_selection_without_inspect (name : text) self : VolumesState :=
  clear_detail VDetail_None (set_selected_volume_name name self).
Definition clear_selection self : VolumesState :=
  sync_dynamic_roles (invalidate_detail VDetail_None (set_selected_volume_name [] self)).

Definition initialize self : bool * VolumesState :=
  if initialized self then (false, self) else (true, set_initialized true self).

Definition begin_refresh self : Z * VolumesState :=
  let self := set_refresh_generation (wrapping_add 64 (refresh_generation self) 1) self in
  let self := set_list_state Volumes_Loading (invalidate_detail VDetail_None self) in
  let self := set_list_error_message [] (set_list_error_kind [] self) in
  (refresh_generation self, self).

Definition ready_or_empty self : VolumesState :=
  set_list_state (if is_empty (source_rows self) then Volumes_Empty else Volumes_Ready) self.

(** The last known use of each volume; a later row of a name replaces an earlier one. *)
Definition known_in_use self : gmap text bool :=
  foldl (fun m row => <[vr_volume_name row := vr_in_use row]> m) ∅ (source_rows self).

Definition carry_over (known : gmap text bool) (row : VolumeRow) : VolumeRow :=
  match known !! vr_volume_name row with
  | Some in_use => set_vr_section (section_name in_use) (set_vr_in_use in_use row)
  | None => row
  end.

Definition first_visible self : option text := vr_volume_name <$> head (visible_rows self).

(** What a refresh selects. *)
Definition desired_selection (preferred previous : text) self : option text :=
  if negb (is_empty preferred) && source_row_exists self preferred then Some preferred
  else if visible_row_exists self previous then Some previous
  else if is_empty (search_query self) && negb (is_empty (selection_before_filter self))
          && source_row_exists self (selection_before_filter self) then Some (selection_before_filter self)
  else first_visible self.

Definition apply_list (generation : Z) (summaries : list VolumeSummary) self : bool * VolumesState :=
  if negb (generation =? refresh_generation self) then (false, self)
  else
    let previous := selected_volume_name self in
    let known := known_in_use self in
    let self := rebuild_visible (set_source_rows (carry_over known <$> (volume_row <$> summaries)) self) in
    let self := set_list_error_message [] (set_list_error_kind [] (ready_or_empty self)) in
    let preferred := preferred_volume_name self in
    let self := set_preferred_volume_name [] self in
    let self :=
      match desired_selection preferred previous self with
      | Some name => set_selection_without_inspect name self
      | None => clear_selection self
      end in
    (true, sync_dynamic_roles self).

Definition apply_list_error (generation : Z) (error : DaemonError) self : bool * VolumesState :=
  if negb (generation =? refresh_generation self) then (false, self)
  else
    let '(kind, message, state) := friendly_volume_error error VCtx_List in
    let self := clear_selection (set_visible_rows [] (set_source_rows [] self)) in
    (true, set_list_error_message message (set_list_error_kind kind (set_list_state state self))).

(** A row with the container references and the usage found in the background, and
    whether they changed it. *)
Definition patch_references (references : gmap text (list VolumeContainerReference)) (row : VolumeRow) : bool * VolumeRow :=
  match references !! vr_volume_name row with
  | None => (false, row)
  | Some container_refs =>
      let in_use := negb (is_empty container_refs) in
      if negb (Bool.eqb (vr_in_use row) in_use) || negb (vr_used_by_count row =? len container_refs) then
        (true, set_vr_containers container_refs (set_vr_used_by_count (len container_refs)
           (set_vr_section (section_name in_use) (set_vr_in_use in_use row))))
      else (false, row)
  end.
Definition patch_size (usage : gmap text VolumeUsage) (row : VolumeRow) : bool * VolumeRow :=
  match usage !! vr_volume_name row with
  | None => (false, row)
  | Some entry =>
      let size_bytes := vu_size_bytes entry in
      let size_text := size_or "Unknown size" size_bytes in
      if negb (bool_decide (vr_size_bytes row = size_bytes)) || negb (bool_decide (vr_size_text row = size_text)) then
        (true, set_vr_size_text size_text (set_vr_size_known (is_some size_bytes) (set_vr_size_bytes size_bytes row)))
      else (false, row)
  end.
Definition patch_row (references : gmap text (list VolumeContainerReference)) (usage : gmap text VolumeUsage) (row : VolumeRow)
  : bool * VolumeRow :=
  let '(c1, row) := patch_references references row in
  let '(c2, row) := patch_size usage row in
  (c1 || c2, row).

Definition patch_usage (references : gmap text (list VolumeContainerReference)) (usage : gmap text VolumeUsage) self
  : nat * VolumesState :=
  let patched := length (List.filter (fun row => (patch_row references usage row).1) (source_rows self)) in
  let patch rows := (fun row => (patch_row references usage row).2) <$> rows in
  let self := set_visible_rows (patch (visible_rows self)) (set_source_rows (patch (source_rows self)) self) in
  (patched, rebuild_visible self).

Definition change_automatic_selection (desired : option text) self : option Z * VolumesState :=
  match desired with
  | Some desired =>
      if bool_decide (desired = selected_volume_name self) then (None, sync_dynamic_roles self)
      else
        let '(generation, self) := start_selected_inspect (sync_dynamic_roles (set_selected_volume_name desired self)) in
        (Some generation, self)
  | None => if is_empty (selected_volume_name self) then (None, sync_dynamic_roles self) else (None, clear_selection self)
  end.

(** What a search selects. *)
Definition search_selection (will_be_filtered : bool) (previous : text) self : option text :=
  if negb will_be_filtered && negb (is_empty (selection_before_filter self))
     && source_row_exists self (selection_before_filter self) then Some (selection_before_filter self)
  else if visible_row_exists self previous then Some previous
  else first_visible self.

(** A first search remembers the selection; the end of searching forgets it. *)
Definition remember_selection (will_be_filtered : bool) self : VolumesState :=
  if is_empty (search_query self) && will_be_filtered then set_selection_before_filter (selected_volume_name self) self else self.
Definition forget_selection (b : bool) self : VolumesState := if b then set_selection_before_filter [] self else self.

Definition update_search_query (query : text) self : option Z * VolumesState :=
  let query := trim query in
  let will_be_filtered := negb (is_empty query) in
  let self := remember_selection will_be_filtered self in
  let previous := selected_volume_name self in
  let self := rebuild_visible (set_search_query query self) in
  let desired := search_selection will_be_filtered previous self in
  change_automatic_selection desired (forget_selection (negb will_be_filtered) self).

Definition update_sort_mode (mode : VolumeSortMode) self : VolumesState :=
  sync_dynamic_roles (rebuild_visible (set_sort_mode mode self)).

Definition select (name : text) self : option Z * VolumesState :=
  if negb (visible_row_exists self name) then (None, self)
  else if bool_decide (selected_volume_name self = name) && negb (bool_decide (detail_state self = VDetail_None)) then (None, self)
  else
    let '(generation, self) := start_selected_inspect (sync_dynamic_roles (set_selected_volume_name name self)) in
    (Some generation, self).

Definition begin_selected_inspect self : option Z * VolumesState :=
  if is_empty (selected_volume_name self) || negb (visible_row_exists self (selected_volume_name self)) then (None, self)
  else let '(generation, self) := start_selected_inspect self in (Some generation, self).

Definition apply_detail (generation : Z) (new : VolumeDetail) self : bool * VolumesState :=
  let name := vs_name (vd_summary new) in
  if negb (generation =? detail_generation self) || negb (bool_decide (name = selected_volume_name self))
     || negb (source_row_exists self name) then (false, self)
  else
    let rows := update_first (fun row => bool_decide (vr_volume_name row = name)) (fun _ => volume_row (vd_summary new)) (source_rows self) in
    let self := rebuild_visible (set_source_rows rows self) in
    let self := set_detail_state VDetail_Ready (set_detail (Some (volume_detail_view new)) self) in
    (true, sync_dynamic_roles (set_detail_error_message [] (set_detail_error_kind [] self))).

Definition apply_detail_error (generation : Z) (error : DaemonError) self : bool * VolumesState :=
  if negb (generation =? detail_generation self) || is_empty (selected_volume_name self) then (false, self)
  else
    let '(kind, message, _) := friendly_volume_error error VCtx_Detail in
    (true, set_detail_error_message message (set_detail_error_kind kind (set_detail_state VDetail_Error (set_detail None self)))).

Definition remove_local (name : text) self : option Z * VolumesState :=
  let old_visible_index := from_option fst O (list_find (fun row => vr_volume_name row = name) (visible_rows self)) in
  let self := set_source_rows (without_key vr_volume_name name (source_rows self)) self in
  let self := set_operation_generations (delete name (operation_generations self)) (set_operations (delete name (operations self)) self) in
  let self := forget_selection (bool_decide (selection_before_filter self = name)) self in
  let self := rebuild_visible self in
  let '(generation, self) :=
    if bool_decide (selected_volume_name self = name) then
      match neighbour old_visible_index (visible_rows self) with
      | Some row =>
          let '(generation, self) := start_selected_inspect (sync_dynamic_roles (set_selected_volume_name (vr_volume_name row) self)) in
          (Some generation, self)
      | None => (None, clear_selection self)
      end
    else (None, sync_dynamic_roles self) in
  (generation, ready_or_empty self).

Definition prefer_volume (name : text) self : VolumesState :=
  rebuild_visible (set_selection_before_filter [] (set_search_query [] (set_preferred_volume_name name self))).

(** ** Operations *)
Definition set_operation_error (error : DaemonError) self : VolumesState :=
  let '(kind, message, _) := friendly_volume_error error VCtx_Operation in
  set_operation_error_message message (set_operation_error_kind kind self).
Definition clear_operation_error self : VolumesState := set_operation_error_message [] (set_operation_error_kind [] self).

Definition begin_global_operation (operation : GlobalVolumeOperation) self : option Z * VolumesState :=
  if is_some (global_operation self) then (None, self)
  else
    let self := set_global_generation (wrapping_add 64 (global_generation self) 1) self in
    let self := clear_operation_error (set_global_operation (Some operation) self) in
    (Some (global_generation self), self).

Definition finish_global_operation (generation : Z) (operation : GlobalVolumeOperation) self : bool * VolumesState :=
  if negb (generation =? global_generation self) || negb (bool_decide (global_operation self = Some operation)) then (false, self)
  else (true, set_global_operation None self).

Definition begin_create self : option Z * VolumesState := begin_global_operation Global_Creating self.
Definition finish_create (generation : Z) (created_name : text) self : bool * VolumesState :=
  let '(finished, self) := finish_global_operation generation Global_Creating self in
  if finished then (true, prefer_volume created_name self) else (false, self).

Definition begin_prune self : option Z * VolumesState :=
  let '(generation, self) := begin_global_operation Global_Pruning self in
  (generation, if is_some generation then set_prune_cancellation Cancel_Cancellable self else self).
Definition request_cancel_prune self : bool * VolumesState :=
  if negb (bool_decide (global_operation self = Some Global_Pruning))
     || negb (bool_decide (prune_cancellation self = Cancel_Cancellable)) then (false, self)
  else (true, set_prune_cancellation Cancel_Requested self).
Definition finish_prune (generation : Z) self : bool * VolumesState :=
  let '(finished, self) := finish_global_operation generation Global_Pruning self in
  if finished then (true, set_prune_cancellation Cancel_Idle self) else (false, self).

Definition fail_global_operation (generation : Z) (error : DaemonError) self : bool * VolumesState :=
  if negb (is_some (global_operation self)) || negb (generation =? global_generation self) then (false, self)
  else
    let self :=
      if bool_decide (global_operation self = Some Global_Pruning) then set_prune_cancellation Cancel_Idle self else self in
    (true, set_operation_error error (set_global_operation None self)).

Definition begin_volume_operation (name : text) (operation : VolumeOperation) self : option Z * VolumesState :=
  if is_empty name || negb (source_row_exists self name) || bool_decide (is_Some (operations self !! name)) then (None, self)
  else
    let generation := wrapping_add 64 (operation_generation self) 1 in
    let self := set_operations (<[name := operation]> (operations self)) (set_operation_generation generation self) in
    let self := set_operation_generations (<[name := generation]> (operation_generations self)) self in
    (Some generation, sync_dynamic_roles (clear_operation_error self)).

Definition volume_operation_matches (generation : Z) (name : text) (operation : VolumeOperation) self : bool :=
  bool_decide (operations self !! name = Some operation) && bool_decide (operation_generations self !! name = Some generation).

Definition drop_operation (name : text) self : VolumesState :=
  set_operation_generations (delete name (operation_generations self)) (set_operations (delete name (operations self)) self).

Definition finish_volume_operation (generation : Z) (name : text) (operation : VolumeOperation) self : bool * VolumesState :=
  if negb (volume_operation_matches generation name operation self) then (false, self)
  else (true, sync_dynamic_roles (drop_operation name self)).

Definition begin_remove (name : text) self : option Z * VolumesState :=
  if negb (source_row_exists self name) then (None, self) else begin_volume_operation name VOp_Removing self.
Definition finish_remove (generation : Z) (name : text) self : bool * VolumesState :=
  finish_volume_operation generation name VOp_Removing self.

Definition task_matches (task : CancellableVolumeTask) (generation : Z) : bool :=
  task_active task && (task_generation task =? generation).

(** The task of a failed operation is given up. *)
Definition end_tasks (generation : Z) (operation : VolumeOperation) self : VolumesState :=
  let self := if bool_decide (operation = VOp_Exporting) && task_matches (export_task self) generation
              then set_export_task no_task self else self in
  if bool_decide (operation = VOp_Cloning) && task_matches (clone_task self) generation
  then set_clone_task no_task self else self.

Definition fail_volume_operation (generation : Z) (name : text) (operation : VolumeOperation) (error : DaemonError) self
  : bool * VolumesState :=
  if negb (volume_operation_matches generation name operation self) then (false, self)
  else
    let self := end_tasks generation operation (drop_operation name self) in
    (true, sync_dynamic_roles (set_operation_error error self)).

Definition request_cancellation (task : CancellableVolumeTask) : bool * CancellableVolumeTask :=
  if negb (task_active task) || negb (bool_decide (task_cancellation task = Cancel_Cancellable)) then (false, task)
  else (true, mkTask (task_active task) (task_volume_name task) (task_generation task) Cancel_Requested).

Definition begin_export (name : text) self : option Z * VolumesState :=
  if task_active (export_task self) then (None, self)
  else
    match begin_volume_operation name VOp_Exporting self with
    | (Some generation, self) => (Some generation, set_export_task (mkTask true name generation Cancel_Cancellable) self)
    | (None, self) => (None, self)
    end.
Definition request_cancel_export self : bool * VolumesState :=
  let '(r, task) := request_cancellation (export_task self) in (r, set_export_task task self).
Definition finish_export (generation : Z) self : bool * VolumesState :=
  if negb (task_matches (export_task self) generation) then (false, self)
  else
    let '(finished, self) := finish_volume_operation generation (task_volume_name (export_task self)) VOp_Exporting self in
    if finished then (true, set_export_task no_task self) else (false, self).
Definition fail_export (generation : Z) (error : DaemonError) self : bool * VolumesState :=
  let '(finished, self) := finish_export generation self in
  if finished then (true, set_operation_error error self) else (false, self).

Definition begin_clone (source : text) self : option Z * VolumesState :=
  if task_active (clone_task self) then (None, self)
  else
    match begin_volume_operation source VOp_Cloning self with
    | (Some generation, self) => (Some generation, set_clone_task (mkTask true source generation Cancel_Cancellable) self)
    | (None, self) => (None, self)
    end.
Definition request_cancel_clone self : bool * VolumesState :=
  let '(r, task) := request_cancellation (clone_task self) in (r, set_clone_task task self).
Definition end_clone (generation : Z) self : bool * VolumesState :=
  if negb (task_matches (clone_task self) generation) then (false, self)
  else
    let '(finished, self) := finish_volume_operation generation (task_volume_name (clone_task self)) VOp_Cloning self in
    if finished then (true, set_clone_task no_task self) else (false, self).
Definition finish_clone (generation : Z) (created_name : option text) self : bool * VolumesState :=
  let '(finished, self) := end_clone generation self in
  if finished then (true, match created_name with Some name => prefer_volume name self | None => self end) else (false, self).
Definition fail_clone (generation : Z) (error : DaemonError) self : bool * VolumesState :=
  let '(finished, self) := end_clone generation self in
  if finished then (true, set_operation_error error self) else (false, self).

(** ** Counts *)
Definition volume_count self : Z := len (source_rows self).
Definition in_use_count self : Z := len (List.filter vr_in_use (source_rows self)).
Definition unused_count self : Z := saturating_sub (volume_count self) (in_use_count self).
Definition size_summary self : VolumeSizeSummary := VolumeSizeSummary_from_rows (source_rows self).
Definition known_total_size_text self : text := format_bytes (vss_known_total_bytes (size_summary self)).
Definition creating self : bool := bool_decide (global_operation self = Some Global_Creating).
Definition pruning self : bool := bool_decide (global_operation self = Some Global_Pruning).
Definition operation_in_progress self : bool := is_some (global_operation self) || negb (bool_decide (operations self = ∅)).
End page.

(** ** Sequences of events *)
Inductive volume_op :=
  | VInitialize
  | VBeginRefresh
  | VList (generation : Z) (summaries : list VolumeSummary)
  | VListError (generation : Z) (error : DaemonError)
  | VPatch (references : gmap text (list VolumeContainerReference)) (usage : gmap text VolumeUsage)
  | VSearch (query : text)
  | VSort (mode : VolumeSortMode)
  | VSelect (name : text)
  | VInspect
  | VClearSelection
  | VDetail (generation : Z) (new : VolumeDetail)
  | VDetailError (generation : Z) (error : DaemonError)
  | VBeginCreate
  | VFinishCreate (generation : Z) (created_name : text)
  | VBeginPrune
  | VCancelPrune
  | VFinishPrune (generation : Z)
  | VFailGlobal (generation : Z) (error : DaemonError)
  | VBeginRemove (name : text)
  | VRemoved (generation : Z) (name : text)   (* [finish_remove], and then [remove_local] *)
  | VFailVolume (generation : Z) (name : text) (operation : VolumeOperation) (error : DaemonError)
  | VBeginExport (name : text)
  | VCancelExport
  | VFinishExport (generation : Z)
  | VFailExport (generation : Z) (error : DaemonError)
  | VBeginClone (source : text)
  | VCancelClone
  | VFinishClone (generation : Z) (created_name : option text)
  | VFailClone (generation : Z) (error : DaemonError).

Section runs.
Context {LC : Lowercase} {DF : DateFormat}.
Implicit Types self s : VolumesState.

Definition volume_step self (op : volume_op) : VolumesState :=
  match op with
  | VInitialize => (initialize self).2
  | VBeginRefresh => (begin_refresh self).2
  | VList generation summaries => (apply_list generation summaries self).2
  | VListError generation error => (apply_list_error generation error self).2
  | VPatch references usage => (patch_usage references usage self).2
  | VSearch query => (update_search_query query self).2
  | VSort mode => update_sort_mode mode self
  | VSelect name => (select name self).2
  | VInspect => (begin_selected_inspect self).2
  | VClearSelection => clear_selection self
  | VDetail generation new => (apply_detail generation new self).2
  | VDetailError generation error => (apply_detail_error generation error self).2
  | VBeginCreate => (begin_create self).2
  | VFinishCreate generation created_name => (finish_create generation created_name self).2
  | VBeginPrune => (begin_prune self).2
  | VCancelPrune => (request_cancel_prune self).2
  | VFinishPrune generation => (finish_prune generation self).2
  | VFailGlobal generation error => (fail_global_operation generation error self).2
  | VBeginRemove name => (begin_remove name self).2
  | VRemoved generation name =>
      let '(finished, self) := finish_remove generation name self in if finished then (remove_local name self).2 else self
  | VFailVolume generation name operation error => (fail_volume_operation generation name operation error self).2
  | VBeginExport name => (begin_export name self).2
  | VCancelExport => (request_cancel_export self).2
  | VFinishExport generation => (finish_export generation self).2
  | VFailExport generation error => (fail_export generation error self).2
  | VBeginClone source => (begin_clone source self).2
  | VCancelClone => (request_cancel_clone self).2
  | VFinishClone generation created_name => (finish_clone generation created_name self).2
  | VFailClone generation error => (fail_clone generation error self).2
  end.
Definition volume_run (ops : list volume_op) : VolumesState := foldl volume_step VolumesState_default ops.

(** ** Rows and roles *)

(** The shown rows are the listing, and every row has its roles. *)
Definition rows_ok s : Prop := visible_rows s = volume_listing s ∧ sync_row s <$> source_rows s = source_rows s.

Lemma sync_row_idem s row : sync_row s (sync_row s row) = sync_row s row.
Proof. by destruct row. Qed.
Lemma sync_row_name s row : vr_volume_name (sync_row s row) = vr_volume_name row.
Proof. by destruct row. Qed.

Lemma volume_listing_sync s :
  sync_row s <$> volume_listing s = volume_listing (set_source_rows (sync_row s <$> source_rows s) s).
Proof.
  unfold volume_listing. cbn [source_rows search_query sort_mode set_source_rows]. symmetry. apply shown_fmap; [| done].
  intros a b. destruct (sort_mode s); reflexivity.
Qed.

Lemma sync_rows_ok s : visible_rows s = volume_listing s → rows_ok (sync_dynamic_roles s).
Proof.
  intros Hv. unfold sync_dynamic_roles. split; cbn [visible_rows source_rows set_visible_rows set_source_rows].
  - rewrite Hv, volume_listing_sync. done.
  - change (sync_row _) with (sync_row s). rewrite <- list_fmap_compose. apply list_fmap_ext. intros _ row _. apply sync_row_idem.
Qed.

Lemma rows_ok_same s s' :
  source_rows s' = source_rows s → visible_rows s' = visible_rows s → search_query s' = search_query s → sort_mode s' = sort_mode s →
  operations s' = operations s → selected_volume_name s' = selected_volume_name s → rows_ok s → rows_ok s'.
Proof.
  intros E1 E2 E3 E4 E5 E6 [H1 H2]. split.
  - rewrite E2, H1. unfold volume_listing. by rewrite E1, E3, E4.
  - rewrite E1. transitivity (sync_row s <$> source_rows s); [| exact H2]. apply list_fmap_ext. intros _ row _. unfold sync_row. by rewrite E5, E6.
Qed.

(** ** Selection and detail *)
Definition selection_ok s : Prop :=
  selected_volume_name s = [] ∨ key_exists vr_volume_name (selected_volume_name s) (source_rows s) = true.
Definition volume_detail_ok s : Prop :=
  match detail s with
  | Some d => detail_state s = VDetail_Ready ∧ vv_volume_name d = selected_volume_name s
  | None => detail_state s ≠ VDetail_Ready
  end.

Lemma sync_names s (rows : list VolumeRow) : vr_volume_name <$> (sync_row s <$> rows) = vr_volume_name <$> rows.
Proof. rewrite <- list_fmap_compose. apply list_fmap_ext. intros _ row _. apply sync_row_name. Qed.

(** ** Operations *)
Definition task_ok (ops : gmap text VolumeOperation) (gens : gmap text Z) (op : VolumeOperation) (task : CancellableVolumeTask) : Prop :=
  (∀ n, ops !! n = Some op ↔ task_active task = true ∧ task_volume_name task = n)
  ∧ (task_active task = true → gens !! task_volume_name task = Some (task_generation task))
  ∧ (task_active task = false → task = no_task).

Definition operations_ok s : Prop :=
  dom (operations s) = dom (operation_generations s)
  ∧ task_ok (operations s) (operation_generations s) VOp_Exporting (export_task s)
  ∧ task_ok (operations s) (operation_generations s) VOp_Cloning (clone_task s)
  ∧ (prune_cancellation s ≠ Cancel_Idle ↔ global_operation s = Some Global_Pruning).

Lemma task_ok_drop_other ops gens op task name :
  task_ok ops gens op task → ops !! name ≠ Some op → task_ok (delete name ops) (delete name gens) op task.
Proof.
  intros (H1 & H2 & H3) Hne. split_and!; [| | done].
  - intros n. destruct (decide (n = name)) as [->|E].
    + rewrite lookup_delete_eq. split; [done |]. intros Hn%H1. done.
    + rewrite lookup_delete_ne by done. apply H1.
  - intros Ha. rewrite lookup_delete_ne; [by apply H2 |]. intros E. apply Hne, H1. split; [done | by symmetry].
Qed.

Lemma task_ok_drop_own ops gens op task name :
  task_ok ops gens op task → ops !! name = Some op → task_ok (delete name ops) (delete name gens) op no_task.
Proof.
  intros (H1 & H2 & H3) Hop. split_and!; [| done | done]. intros n. split; [| by intros [[=] _]].
  intros [Hn Hl]%lookup_delete_Some. apply H1 in Hop as [_ <-], Hl as [_ Hl]. by destruct Hn.
Qed.

Lemma task_ok_add_other ops gens op op' task name g :
  task_ok ops gens op task → ops !! name = None → op' ≠ op → task_ok (<[name := op']> ops) (<[name := g]> gens) op task.
Proof.
  intros (H1 & H2 & H3) Hnone Hne. split_and!; [| | done].
  - intros n. destruct (decide (n = name)) as [->|E].
    + rewrite lookup_insert_eq. split; [intros [= ->]; done |]. intros Hn%H1. congruence.
    + rewrite lookup_insert_ne by done. apply H1.
  - intros Ha. rewrite lookup_insert_ne; [by apply H2 |]. intros ->. assert (ops !! task_volume_name task = Some op) by (by apply H1). congruence.
Qed.

Lemma task_ok_add_own ops gens op task name g c :
  task_ok ops gens op task → ops !! name = None → task_active task = false →
  task_ok (<[name := op]> ops) (<[name := g]> gens) op (mkTask true name g c).
Proof.
  intros (H1 & H2 & H3) Hnone Hact. split_and!; cbn; [| by rewrite lookup_insert_eq | done].
  intros n. destruct (decide (n = name)) as [->|E]; [by rewrite lookup_insert_eq |].
  rewrite lookup_insert_ne by done. rewrite H1, Hact. naive_solver.
Qed.

Lemma task_ok_cancel ops gens op task : task_ok ops gens op task → task_ok ops gens op (request_cancellation task).2.
Proof.
  intros (H1 & H2 & H3). unfold request_cancellation. destruct (_ || _) eqn:E; [done |]. cbn [snd]. split_and!; [done | done |].
  cbn. intros Ha. by rewrite Ha in E.
Qed.

Record volume_inv s : Prop := {
  vi_rows : rows_ok s;
  vi_selection : selection_ok s;
  vi_detail : volume_detail_ok s;
  vi_operations : operations_ok s;
}.

(** The roles are brought up to date at the end of an operation. *)
Lemma sync_inv s :
  visible_rows s = volume_listing s → selection_ok s → volume_detail_ok s → operations_ok s → volume_inv (sync_dynamic_roles s).
Proof.
  intros Hv Hs Hd Ho. split; [by apply sync_rows_ok | | exact Hd | exact Ho].
  destruct Hs as [?|Hs]; [by left | right]. cbn. by rewrite (key_exists_same _ _ _ (source_rows s)) by apply sync_names.
Qed.

Lemma rebuild_inv s : selection_ok s → volume_detail_ok s → operations_ok s → volume_inv (rebuild_visible s).
Proof. intros Hs Hd Ho. by apply sync_inv. Qed.

(** Only fields that the invariant does not mention change. *)
Lemma volume_inv_same s s' :
  volume_inv s → source_rows s' = source_rows s → visible_rows s' = visible_rows s → search_query s' = search_query s →
  sort_mode s' = sort_mode s → operations s' = operations s → selected_volume_name s' = selected_volume_name s →
  detail s' = detail s → detail_state s' = detail_state s → operation_generations s' = operation_generations s →
  export_task s' = export_task s → clone_task s' = clone_task s → prune_cancellation s' = prune_cancellation s →
  global_operation s' = global_operation s → volume_inv s'.
Proof.
  intros [H1 H2 H3 H4] E1 E2 E3 E4 E5 E6 E7 E8 E9 E10 E11 E12 E13. split.
  - by apply (rows_ok_same s).
  - unfold selection_ok. by rewrite E1, E6.
  - unfold volume_detail_ok. by rewrite E6, E7, E8.
  - unfold operations_ok. by rewrite E5, E9, E10, E11, E12, E13.
Qed.
Ltac same_volume H := eapply volume_inv_same; [exact H | reflexivity ..].

Lemma first_visible_ok s name : visible_rows s = volume_listing s → first_visible s = Some name →
  name = [] ∨ key_exists vr_volume_name name (source_rows s) = true.
Proof.
  intros Hv Hf. right. unfold first_visible in Hf. apply fmap_Some in Hf as (row & Hrow & ->). apply key_exists_elem.
  destruct (visible_rows s) as [|x rows] eqn:E; [done |]. injection Hrow as ->. eapply shown_elem. unfold volume_listing in Hv.
  rewrite <- Hv. by left.
Qed.

Lemma exists_source s name : source_row_exists s name = true → name = [] ∨ key_exists vr_volume_name name (source_rows s) = true.
Proof. unfold source_row_exists. intros [_ ?]%andb_prop. by right. Qed.
Lemma exists_visible s name : visible_rows s = volume_listing s → visible_row_exists s name = true →
  name = [] ∨ key_exists vr_volume_name name (source_rows s) = true.
Proof.
  unfold visible_row_exists. intros Hv [_ H]%andb_prop. right. rewrite Hv in H. apply key_exists_spec in H as (row & Hin & <-).
  apply key_exists_elem. by eapply shown_elem.
Qed.

(** A row of the list, or nothing, is selected, and its detail asked for or not. *)
Lemma select_inv s name st :
  visible_rows s = volume_listing s → operations_ok s → (name = [] ∨ key_exists vr_volume_name name (source_rows s) = true) →
  st ≠ VDetail_Ready → volume_inv (sync_dynamic_roles (clear_detail st (set_selected_volume_name name s))).
Proof. intros Hv Ho Hn Hst. by apply sync_inv. Qed.

Lemma inspect_selected_inv s name :
  visible_rows s = volume_listing s → operations_ok s → (name = [] ∨ key_exists vr_volume_name name (source_rows s) = true) →
  volume_inv (start_selected_inspect (sync_dynamic_roles (set_selected_volume_name name s))).2.
Proof.
  intros Hv Ho Hn. pose proof (select_inv s name VDetail_Loading Hv Ho Hn) as Hi. same_volume (Hi ltac:(done)).
Qed.

Lemma clear_selection_inv s : visible_rows s = volume_listing s → operations_ok s → volume_inv (clear_selection s).
Proof. intros Hv Ho. apply sync_inv; [done | by left | done | done]. Qed.

Lemma desired_selection_ok preferred previous s name :
  visible_rows s = volume_listing s → desired_selection preferred previous s = Some name →
  name = [] ∨ key_exists vr_volume_name name (source_rows s) = true.
Proof.
  intros Hv. unfold desired_selection. destruct (_ && source_row_exists s preferred) eqn:E1.
  { intros [= <-]. apply exists_source. by apply andb_prop in E1 as [_ ?]. }
  destruct (visible_row_exists s previous) eqn:E2; [intros [= <-]; by apply exists_visible |].
  destruct (_ && source_row_exists s (selection_before_filter s)) eqn:E3; [| by apply first_visible_ok].
  intros [= <-]. apply exists_source. by apply andb_prop in E3 as [_ ?].
Qed.

Lemma search_selection_ok filtered previous s name :
  visible_rows s = volume_listing s → search_selection filtered previous s = Some name →
  name = [] ∨ key_exists vr_volume_name name (source_rows s) = true.
Proof.
  intros Hv. unfold search_selection. destruct (_ && source_row_exists s (selection_before_filter s)) eqn:E3.
  { intros [= <-]. apply exists_source. by apply andb_prop in E3 as [_ ?]. }
  destruct (visible_row_exists s previous) eqn:E2; [intros [= <-]; by apply exists_visible | by apply first_visible_ok].
Qed.

Lemma rebuild_visible_rows s : visible_rows (rebuild_visible s) = volume_listing (rebuild_visible s).
Proof. by apply (sync_rows_ok (set_visible_rows (volume_listing s) s)). Qed.

Lemma volume_list_inv g l s : volume_inv s → volume_inv (apply_list g l s).2.
Proof.
  intros Hi. unfold apply_list. destruct (negb _); [done |]. cbn [snd]. set (rows := carry_over _ <$> _).
  pose proof (rebuild_visible_rows (set_source_rows rows s)) as Hv.
  assert (operations_ok (rebuild_visible (set_source_rows rows s))) as Ho by exact (vi_operations s Hi).
  generalize dependent (rebuild_visible (set_source_rows rows s)). intros s1 Hv Ho.
  set (s2 := set_preferred_volume_name [] _). assert (visible_rows s2 = volume_listing s2) as Hv2 by exact Hv.
  assert (operations_ok s2) as Ho2 by exact Ho. clearbody s2.
  destruct (desired_selection _ _ s2) as [name|] eqn:E.
  - apply select_inv; [done | done | by eapply desired_selection_ok | done].
  - destruct (clear_selection_inv s2 Hv2 Ho2) as [[? _] ? ? ?]. by apply sync_inv.
Qed.

Lemma automatic_inv desired s :
  volume_inv s → (∀ name, desired = Some name → name = [] ∨ key_exists vr_volume_name name (source_rows s) = true) →
  volume_inv (change_automatic_selection desired s).2.
Proof.
  intros [[Hv Hr] Hs Hd Ho] Hdes. unfold change_automatic_selection. destruct desired as [name|].
  - case_bool_decide; [by apply sync_inv |]. pose proof (inspect_selected_inv s name Hv Ho (Hdes name eq_refl)) as Hi.
    destruct (start_selected_inspect _) as [g s']. exact Hi.
  - destruct (is_empty _); [by apply sync_inv | by apply clear_selection_inv].
Qed.

Lemma forget_inv b s : volume_inv s → volume_inv (forget_selection b s).
Proof. intros Hi. unfold forget_selection. destruct b; [same_volume Hi | done]. Qed.
Lemma forget_source b s : source_rows (forget_selection b s) = source_rows s.
Proof. by destruct b. Qed.

Lemma volume_search_inv q s : volume_inv s → volume_inv (update_search_query q s).2.
Proof.
  intros [_ Hs Hd Ho]. unfold update_search_query. cbv zeta. set (s1 := remember_selection _ s).
  assert (volume_inv (rebuild_visible (set_search_query (trim q) s1))) as Hi.
  { apply rebuild_inv; subst s1; unfold remember_selection; by destruct (_ && _). }
  generalize dependent (rebuild_visible (set_search_query (trim q) s1)). intros s2 Hi.
  apply automatic_inv; [by apply forget_inv |]. intros name. rewrite forget_source. apply search_selection_ok, (vi_rows _ Hi).
Qed.

Lemma patch_row_name references usage row : vr_volume_name (patch_row references usage row).2 = vr_volume_name row.
Proof.
  assert (∀ row, vr_volume_name (patch_size usage row).2 = vr_volume_name row) as Hs.
  { intros r. unfold patch_size. destruct (usage !! _); [| done]. by destruct (_ || _). }
  assert (vr_volume_name (patch_references references row).2 = vr_volume_name row) as Hr.
  { unfold patch_references. destruct (references !! _); [| done]. by destruct (_ || _). }
  unfold patch_row. destruct (patch_references references row) as [c1 r1]. specialize (Hs r1).
  destruct (patch_size usage r1) as [c2 r2]. cbn [snd] in *. congruence.
Qed.

Lemma volume_patch_inv references usage s : volume_inv s → volume_inv (patch_usage references usage s).2.
Proof.
  intros [_ Hs Hd Ho]. unfold patch_usage. cbn [snd]. apply rebuild_inv; [| done | done].
  destruct Hs as [?|Hs]; [by left | right]. cbn. rewrite (key_exists_same _ _ _ (source_rows s)); [done |].
  rewrite <- list_fmap_compose. apply list_fmap_ext. intros _ row _. apply patch_row_name.
Qed.

Lemma volume_detail_inv g new s : volume_inv s → volume_inv (apply_detail g new s).2.
Proof.
  intros Hi. pose proof Hi as [_ Hs Hd Ho]. unfold apply_detail. destruct (_ || _) eqn:E; [done |]. cbn [snd].
  apply orb_false_iff in E as [[_ E1]%orb_false_iff E2]. apply negb_false_iff in E1, E2. apply bool_decide_eq_true in E1.
  unfold source_row_exists in E2. apply andb_prop in E2 as [_ E2].
  set (rows := update_first _ _ _). assert (vr_volume_name <$> rows = vr_volume_name <$> source_rows s) as Hrows.
  { apply update_first_fmap. intros x Hx%bool_decide_eq_true. by rewrite Hx. }
  clearbody rows. pose proof (rebuild_visible_rows (set_source_rows rows s)) as Hv.
  assert (vr_volume_name <$> source_rows (rebuild_visible (set_source_rows rows s)) = vr_volume_name <$> source_rows s) as Hn
    by (rewrite <- Hrows; apply sync_names).
  apply sync_inv; [exact Hv | right | by split | exact Ho].
  cbn [source_rows selected_volume_name set_detail_error_message set_detail_error_kind set_detail_state set_detail].
  rewrite (key_exists_same _ _ _ (source_rows s) Hn). cbn. by rewrite <- E1.
Qed.

Lemma volume_removed_inv name s : volume_inv s → operations s !! name = None → volume_inv (remove_local name s).2.
Proof.
  intros [_ Hs Hd Ho] Hnone. unfold remove_local. set (i := from_option _ _ _). cbv zeta.
  set (s1 := set_operation_generations _ _).
  assert (operation_generations s !! name = None) as Hgen by (apply not_elem_of_dom; destruct Ho as [<- _]; by apply not_elem_of_dom).
  assert (operations_ok s1) as Ho1 by (unfold operations_ok; cbn; by rewrite !delete_id).
  set (s2 := forget_selection _ s1).
  assert (operations_ok s2 ∧ volume_detail_ok s2 ∧ selected_volume_name s2 = selected_volume_name s
    ∧ source_rows s2 = without_key vr_volume_name name (source_rows s)) as (Ho2 & Hd2 & Hsel2 & Hsrc2).
  { unfold s2, forget_selection. case_match; done. }
  clearbody s2. pose proof (rebuild_visible_rows s2) as Hv. assert (operations_ok (rebuild_visible s2)) as Ho3 by exact Ho2.
  assert (∀ s, volume_inv s → volume_inv (ready_or_empty s)) as Hready by (intros s' Hi'; same_volume Hi').
  change (selected_volume_name (rebuild_visible s2)) with (selected_volume_name s2). case_bool_decide as Esel.
  - destruct (neighbour i (visible_rows (rebuild_visible s2))) as [row|] eqn:En.
    + assert (vr_volume_name row = [] ∨ key_exists vr_volume_name (vr_volume_name row) (source_rows (rebuild_visible s2)) = true) as Hex.
      { right. apply neighbour_elem in En. rewrite Hv in En. apply shown_elem in En. by apply key_exists_elem. }
      pose proof (inspect_selected_inv _ _ Hv Ho3 Hex) as Hi. destruct (start_selected_inspect _) as [g s3]. cbn [snd] in *. by apply Hready.
    + apply Hready. by apply clear_selection_inv.
  - cbn [snd]. apply Hready. assert (volume_inv (rebuild_visible s2)) as [[? _] ? ? ?]; [| by apply sync_inv].
    apply rebuild_inv; [| done | done]. unfold selection_ok. rewrite Hsel2, Hsrc2, key_exists_without by congruence. exact Hs.
Qed.

(** *** Starting and ending operations *)
Definition volume_base s : Prop := rows_ok s ∧ selection_ok s ∧ volume_detail_ok s.

Lemma volume_inv_base s : volume_base s → operations_ok s → volume_inv s.
Proof. intros (? & ? & ?) ?. by split. Qed.

Lemma sync_base s : volume_inv s → ∀ ops gens,
  volume_base (sync_dynamic_roles (set_operation_generations gens (set_operations ops s))).
Proof.
  intros [[Hv _] Hs Hd _] ops gens. split_and!; [by apply sync_rows_ok | | exact Hd].
  destruct Hs as [?|Hs]; [by left | right]. cbn. by rewrite (key_exists_same _ _ _ (source_rows s)) by apply sync_names.
Qed.

Lemma begin_volume_operation_spec name op s g s' :
  volume_inv s → begin_volume_operation name op s = (Some g, s') →
  volume_base s' ∧ operations s !! name = None
  ∧ operations s' = <[name := op]> (operations s) ∧ operation_generations s' = <[name := g]> (operation_generations s)
  ∧ export_task s' = export_task s ∧ clone_task s' = clone_task s
  ∧ prune_cancellation s' = prune_cancellation s ∧ global_operation s' = global_operation s.
Proof.
  intros Hi. unfold begin_volume_operation. destruct (_ || _) eqn:E; [done |]. apply orb_false_iff in E as [_ E].
  intros [= <- <-]. split.
  - destruct (sync_base s Hi (<[name := op]> (operations s))
      (<[name := wrapping_add 64 (operation_generation s) 1]> (operation_generations s))) as (H1 & H2 & H3).
    split_and!; [| exact H2 | exact H3]. by eapply rows_ok_same; [..| exact H1].
  - split; [| done]. apply bool_decide_eq_false in E. by destruct (operations s !! name); [destruct E; eauto |].
Qed.

Lemma finish_volume_operation_spec g name op s s' :
  volume_inv s → finish_volume_operation g name op s = (true, s') →
  volume_base s' ∧ operations s !! name = Some op ∧ operation_generations s !! name = Some g
  ∧ operations s' = delete name (operations s) ∧ operation_generations s' = delete name (operation_generations s)
  ∧ export_task s' = export_task s ∧ clone_task s' = clone_task s
  ∧ prune_cancellation s' = prune_cancellation s ∧ global_operation s' = global_operation s.
Proof.
  intros Hi. unfold finish_volume_operation. destruct (volume_operation_matches g name op s) eqn:E; [| done]. cbn [negb].
  apply andb_prop in E as [E1%bool_decide_eq_true E2%bool_decide_eq_true]. intros [= <-]. split; [| done]. by apply sync_base.
Qed.

Lemma finish_volume_operation_false g name op s s' : finish_volume_operation g name op s = (false, s') → s' = s.
Proof. unfold finish_volume_operation. destruct (volume_operation_matches g name op s); by intros [= <-]. Qed.

(** An operation of another kind, or its own task, is recorded. *)
Lemma operations_ok_add s s' name op g :
  operations_ok s → operations s !! name = None →
  operations s' = <[name := op]> (operations s) → operation_generations s' = <[name := g]> (operation_generations s) →
  prune_cancellation s' = prune_cancellation s → global_operation s' = global_operation s →
  task_ok (operations s') (operation_generations s') VOp_Exporting (export_task s') →
  task_ok (operations s') (operation_generations s') VOp_Cloning (clone_task s') → operations_ok s'.
Proof.
  intros (H1 & H2 & H3 & H4) Hnone E1 E2 E3 E4 Ht1 Ht2. split_and!; [| done | done | by rewrite E3, E4].
  by rewrite E1, E2, !dom_insert_L, H1.
Qed.

Lemma operations_ok_drop s s' name :
  operations_ok s → operations s' = delete name (operations s) → operation_generations s' = delete name (operation_generations s) →
  prune_cancellation s' = prune_cancellation s → global_operation s' = global_operation s →
  task_ok (operations s') (operation_generations s') VOp_Exporting (export_task s') →
  task_ok (operations s') (operation_generations s') VOp_Cloning (clone_task s') → operations_ok s'.
Proof.
  intros (H1 & H2 & H3 & H4) E1 E2 E3 E4 Ht1 Ht2. split_and!; [| done | done | by rewrite E3, E4].
  by rewrite E1, E2, !dom_delete_L, H1.
Qed.

Lemma base_same s s' :
  volume_base s → source_rows s' = source_rows s → visible_rows s' = visible_rows s → search_query s' = search_query s →
  sort_mode s' = sort_mode s → operations s' = operations s → selected_volume_name s' = selected_volume_name s →
  detail s' = detail s → detail_state s' = detail_state s → volume_base s'.
Proof.
  intros (H1 & H2 & H3) E1 E2 E3 E4 E5 E6 E7 E8. split_and!; [by apply (rows_ok_same s) | |].
  - unfold selection_ok. by rewrite E1, E6.
  - unfold volume_detail_ok. by rewrite E6, E7, E8.
Qed.
Ltac same_base H := eapply base_same; [exact H | reflexivity ..].

Lemma begin_failed_same name op s s' : begin_volume_operation name op s = (None, s') → s' = s.
Proof. unfold begin_volume_operation. destruct (_ || _); [by intros [= <-] | done]. Qed.

Lemma begin_remove_inv name s : volume_inv s → volume_inv (begin_remove name s).2.
Proof.
  intros Hi. unfold begin_remove. destruct (negb _); [done |].
  destruct (begin_volume_operation name VOp_Removing s) as [[g|] s'] eqn:E; [| by apply begin_failed_same in E as ->].
  destruct (begin_volume_operation_spec _ _ _ _ _ Hi E) as (Hb & Hn & E1 & E2 & E3 & E4 & E5 & E6). cbn [snd].
  pose proof (vi_operations s Hi) as Ho. pose proof Ho as (_ & Ht1 & Ht2 & _). apply volume_inv_base; [done |].
  apply (operations_ok_add s s' name VOp_Removing g); try done; rewrite E1, E2, ?E3, ?E4; by apply task_ok_add_other.
Qed.

Lemma begin_export_inv name s : volume_inv s → volume_inv (begin_export name s).2.
Proof.
  intros Hi. unfold begin_export. destruct (task_active (export_task s)) eqn:Ea; [done |].
  destruct (begin_volume_operation name VOp_Exporting s) as [[g|] s'] eqn:E; [| by apply begin_failed_same in E as ->].
  destruct (begin_volume_operation_spec _ _ _ _ _ Hi E) as (Hb & Hn & E1 & E2 & E3 & E4 & E5 & E6). cbn [snd].
  pose proof (vi_operations s Hi) as Ho. pose proof Ho as (_ & Ht1 & Ht2 & _). apply volume_inv_base; [same_base Hb |].
  eapply (operations_ok_add s _ name VOp_Exporting g); try done; cbn; rewrite E1, E2, ?E4;
    [by eapply task_ok_add_own | by apply task_ok_add_other].
Qed.

Lemma begin_clone_inv name s : volume_inv s → volume_inv (begin_clone name s).2.
Proof.
  intros Hi. unfold begin_clone. destruct (task_active (clone_task s)) eqn:Ea; [done |].
  destruct (begin_volume_operation name VOp_Cloning s) as [[g|] s'] eqn:E; [| by apply begin_failed_same in E as ->].
  destruct (begin_volume_operation_spec _ _ _ _ _ Hi E) as (Hb & Hn & E1 & E2 & E3 & E4 & E5 & E6). cbn [snd].
  pose proof (vi_operations s Hi) as Ho. pose proof Ho as (_ & Ht1 & Ht2 & _). apply volume_inv_base; [same_base Hb |].
  eapply (operations_ok_add s _ name VOp_Cloning g); try done; cbn; rewrite E1, E2, ?E3;
    [by apply task_ok_add_other | by eapply task_ok_add_own].
Qed.

Lemma finish_remove_inv g name s s' : volume_inv s → finish_remove g name s = (true, s') → volume_inv s' ∧ operations s' !! name = None.
Proof.
  intros Hi E. unfold finish_remove in E.
  destruct (finish_volume_operation_spec _ _ _ _ _ Hi E) as (Hb & H1 & H2 & E1 & E2 & E3 & E4 & E5 & E6).
  pose proof (vi_operations s Hi) as Ho. pose proof Ho as (_ & Ht1 & Ht2 & _). split; [| by rewrite E1, lookup_delete_eq].
  apply volume_inv_base; [done |]. apply (operations_ok_drop s s' name); try done; rewrite E1, E2, ?E3, ?E4;
    apply task_ok_drop_other; try done; congruence.
Qed.

Lemma finish_export_inv g s : volume_inv s → volume_inv (finish_export g s).2.
Proof.
  intros Hi. unfold finish_export. destruct (negb _); [done |].
  destruct (finish_volume_operation _ _ _ _) as [[] s'] eqn:E; [| by apply finish_volume_operation_false in E as ->].
  destruct (finish_volume_operation_spec _ _ _ _ _ Hi E) as (Hb & H1 & H2 & E1 & E2 & E3 & E4 & E5 & E6). cbn [snd].
  pose proof (vi_operations s Hi) as Ho. pose proof Ho as (_ & Ht1 & Ht2 & _). apply volume_inv_base; [same_base Hb |].
  apply (operations_ok_drop s _ (task_volume_name (export_task s))); try done; cbn; rewrite E1, E2, ?E4;
    [by eapply task_ok_drop_own | apply task_ok_drop_other; [done | congruence]].
Qed.

Lemma end_clone_inv g s : volume_inv s → volume_inv (end_clone g s).2.
Proof.
  intros Hi. unfold end_clone. destruct (negb _); [done |].
  destruct (finish_volume_operation _ _ _ _) as [[] s'] eqn:E; [| by apply finish_volume_operation_false in E as ->].
  destruct (finish_volume_operation_spec _ _ _ _ _ Hi E) as (Hb & H1 & H2 & E1 & E2 & E3 & E4 & E5 & E6). cbn [snd].
  pose proof (vi_operations s Hi) as Ho. pose proof Ho as (_ & Ht1 & Ht2 & _). apply volume_inv_base; [same_base Hb |].
  apply (operations_ok_drop s _ (task_volume_name (clone_task s))); try done; cbn; rewrite E1, E2, ?E3;
    [apply task_ok_drop_other; [done | congruence] | by eapply task_ok_drop_own].
Qed.

Lemma operation_error_inv e s : volume_inv s → volume_inv (set_operation_error e s).
Proof. intros Hi. unfold set_operation_error. destruct (friendly_volume_error _ _) as [[k m] st]. same_volume Hi. Qed.

Lemma prefer_inv name s : volume_inv s → volume_inv (prefer_volume name s).
Proof. intros [_ Hs Hd Ho]. by apply rebuild_inv. Qed.

Lemma task_matches_own ops gens op task name g :
  task_ok ops gens op task → ops !! name = Some op → gens !! name = Some g → task_matches task g = true.
Proof.
  intros (H1 & H2 & _) Hop Hg. apply H1 in Hop as [Ha <-]. rewrite (H2 Ha) in Hg. injection Hg as <-.
  unfold task_matches. by rewrite Ha, Z.eqb_refl.
Qed.

Lemma end_tasks_ok g name op s :
  operations_ok s → operations s !! name = Some op → operation_generations s !! name = Some g →
  operations_ok (end_tasks g op (drop_operation name s)).
Proof.
  intros Ho Hop Hg. pose proof Ho as (_ & Ht1 & Ht2 & _). unfold end_tasks.
  change (export_task (drop_operation name s)) with (export_task s). destruct op.
  - change (bool_decide (VOp_Removing = VOp_Exporting)) with false. change (bool_decide (VOp_Removing = VOp_Cloning)) with false.
    cbn [andb]. apply (operations_ok_drop s _ name); try done; apply task_ok_drop_other; try done; congruence.
  - change (bool_decide (VOp_Exporting = VOp_Exporting)) with true. change (bool_decide (VOp_Exporting = VOp_Cloning)) with false.
    rewrite (task_matches_own _ _ _ _ _ _ Ht1 Hop Hg). cbn [andb].
    apply (operations_ok_drop s _ name); try done; [by eapply task_ok_drop_own | apply task_ok_drop_other; [done | cbn; congruence]].
  - change (bool_decide (VOp_Cloning = VOp_Exporting)) with false. change (bool_decide (VOp_Cloning = VOp_Cloning)) with true.
    cbn [andb]. change (clone_task (drop_operation name s)) with (clone_task s). rewrite (task_matches_own _ _ _ _ _ _ Ht2 Hop Hg).
    apply (operations_ok_drop s _ name); try done; [apply task_ok_drop_other; [done | cbn; congruence] | by eapply task_ok_drop_own].
Qed.

Lemma end_tasks_view g name op s :
  let s' := end_tasks g op (drop_operation name s) in
  source_rows s' = source_rows s ∧ visible_rows s' = visible_rows s ∧ search_query s' = search_query s ∧ sort_mode s' = sort_mode s
  ∧ selected_volume_name s' = selected_volume_name s ∧ detail s' = detail s ∧ detail_state s' = detail_state s.
Proof. unfold end_tasks. cbv zeta. repeat case_match; done. Qed.

Lemma volume_listing_ext s s' :
  source_rows s' = source_rows s → search_query s' = search_query s → sort_mode s' = sort_mode s → volume_listing s' = volume_listing s.
Proof. intros E1 E2 E3. unfold volume_listing. by rewrite E1, E2, E3. Qed.

Lemma fail_volume_inv g name op e s : volume_inv s → volume_inv (fail_volume_operation g name op e s).2.
Proof.
  intros Hi. pose proof Hi as [[Hv _] Hs Hd Ho]. unfold fail_volume_operation.
  destruct (volume_operation_matches g name op s) eqn:E; [| done]. cbn [negb snd].
  apply andb_prop in E as [E1%bool_decide_eq_true E2%bool_decide_eq_true].
  pose proof (end_tasks_ok g name op s Ho E1 E2) as Ho'. destruct (end_tasks_view g name op s) as (V1 & V2 & V3 & V4 & V5 & V6 & V7).
  generalize dependent (end_tasks g op (drop_operation name s)). intros s1 Ho1 V1 V2 V3 V4 V5 V6 V7.
  unfold set_operation_error. destruct (friendly_volume_error _ _) as [[k m] st]. apply sync_inv; [| | | exact Ho1].
  - cbn. rewrite V2, Hv. symmetry. by apply volume_listing_ext.
  - unfold selection_ok. cbn. by rewrite V1, V5.
  - unfold volume_detail_ok. cbn. by rewrite V5, V6, V7.
Qed.

(** The rows and the operations on volumes stay; the prune state follows. *)
Lemma global_inv s s' :
  volume_inv s → source_rows s' = source_rows s → visible_rows s' = visible_rows s → search_query s' = search_query s →
  sort_mode s' = sort_mode s → operations s' = operations s → selected_volume_name s' = selected_volume_name s →
  detail s' = detail s → detail_state s' = detail_state s → operation_generations s' = operation_generations s →
  export_task s' = export_task s → clone_task s' = clone_task s →
  (prune_cancellation s' ≠ Cancel_Idle ↔ global_operation s' = Some Global_Pruning) → volume_inv s'.
Proof.
  intros [H1 H2 H3 (O1 & O2 & O3 & O4)] E1 E2 E3 E4 E5 E6 E7 E8 E9 E10 E11 Hp. apply volume_inv_base.
  - by apply (base_same s).
  - unfold operations_ok. by rewrite E5, E9, E10, E11.
Qed.

Ltac global_step Hi := apply (global_inv _ _ Hi); try reflexivity; cbn.

Lemma not_pruning s : volume_inv s → global_operation s ≠ Some Global_Pruning → prune_cancellation s = Cancel_Idle.
Proof.
  intros [_ _ _ (_ & _ & _ & Hp)] Hne. destruct (decide (prune_cancellation s = Cancel_Idle)) as [|E]; [done |]. by apply Hp in E.
Qed.

Lemma finish_global_inv g op s s' : volume_inv s → finish_global_operation g op s = (true, s') →
  global_operation s = Some op ∧ s' = set_global_operation None s.
Proof.
  intros Hi. unfold finish_global_operation. destruct (_ || _) eqn:E; [done |]. intros [= <-].
  apply orb_false_iff in E as [_ E]. apply negb_false_iff, bool_decide_eq_true in E. done.
Qed.

Lemma finish_global_false g op s s' : finish_global_operation g op s = (false, s') → s' = s.
Proof. unfold finish_global_operation. destruct (_ || _); by intros [= <-]. Qed.

Lemma create_inv s : volume_inv s → volume_inv (begin_create s).2 ∧ ∀ g n, volume_inv (finish_create g n s).2.
Proof.
  intros Hi. split.
  - unfold begin_create, begin_global_operation. destruct (global_operation s) eqn:E; [done |]. cbn [is_some snd]. global_step Hi.
    rewrite (not_pruning s Hi) by congruence. done.
  - intros g n. unfold finish_create. destruct (finish_global_operation g Global_Creating s) as [[] s'] eqn:E;
      [| by apply finish_global_false in E as ->]. apply (finish_global_inv _ _ _ _ Hi) in E as [E ->]. apply prefer_inv. global_step Hi.
    rewrite (not_pruning s Hi) by congruence. done.
Qed.

Lemma prune_inv s : volume_inv s →
  volume_inv (begin_prune s).2 ∧ volume_inv (request_cancel_prune s).2 ∧ ∀ g, volume_inv (finish_prune g s).2.
Proof.
  intros Hi. split_and!.
  - unfold begin_prune, begin_global_operation. destruct (global_operation s) eqn:E; [done |]. cbn [is_some snd]. by global_step Hi.
  - unfold request_cancel_prune. destruct (_ || _) eqn:E; [done |]. cbn [snd]. apply orb_false_iff in E as [E _].
    apply negb_false_iff, bool_decide_eq_true in E. by global_step Hi.
  - intros g. unfold finish_prune. destruct (finish_global_operation g Global_Pruning s) as [[] s'] eqn:E;
      [| by apply finish_global_false in E as ->]. apply (finish_global_inv _ _ _ _ Hi) in E as [E ->]. by global_step Hi.
Qed.

Lemma fail_global_inv g e s : volume_inv s → volume_inv (fail_global_operation g e s).2.
Proof.
  intros Hi. unfold fail_global_operation. destruct (_ || _); [done |]. cbn [snd]. apply operation_error_inv.
  case_bool_decide as E; global_step Hi; [done |]. by rewrite (not_pruning s Hi).
Qed.

Lemma cancel_inv s : volume_inv s → volume_inv (request_cancel_export s).2 ∧ volume_inv (request_cancel_clone s).2.
Proof.
  intros Hi. pose proof (vi_operations s Hi) as (H1 & H2 & H3 & H4).
  assert (volume_base s) as Hb by (destruct Hi; by split_and!). split.
  - unfold request_cancel_export. pose proof (task_ok_cancel _ _ _ _ H2) as Ht.
    destruct (request_cancellation (export_task s)) as [r t]. apply volume_inv_base; [same_base Hb | by split_and!].
  - unfold request_cancel_clone. pose proof (task_ok_cancel _ _ _ _ H3) as Ht.
    destruct (request_cancellation (clone_task s)) as [r t]. apply volume_inv_base; [same_base Hb | by split_and!].
Qed.

Lemma volume_select_inv name s : volume_inv s → volume_inv (select name s).2.
Proof.
  intros Hi. pose proof Hi as [[Hv _] _ _ Ho]. unfold select. destruct (visible_row_exists s name) eqn:E; [| done]. cbn [negb].
  destruct (_ && _); [done |]. pose proof (inspect_selected_inv s name Hv Ho (exists_visible s name Hv E)) as Hi'.
  destruct (start_selected_inspect _) as [g s']. exact Hi'.
Qed.

Lemma refresh_inv s : volume_inv s → volume_inv (begin_refresh s).2.
Proof.
  intros Hi. unfold begin_refresh. cbv zeta. set (s1 := set_refresh_generation _ s).
  assert (volume_inv s1) as [Hr Hs Hd Ho] by (same_volume Hi). clearbody s1.
  assert (volume_inv (invalidate_detail VDetail_None s1)) as Hc by (split; [by eapply rows_ok_same; [..| exact Hr] | exact Hs | done | exact Ho]).
  generalize dependent (invalidate_detail VDetail_None s1). intros s2 Hc. cbn [snd]. same_volume Hc.
Qed.

Lemma volume_inspect_inv s : volume_inv s → volume_inv (begin_selected_inspect s).2.
Proof.
  intros Hi. pose proof Hi as [Hr Hs Hd Ho]. unfold begin_selected_inspect. destruct (_ || _); [done |]. cbn [start_selected_inspect snd].
  split; [by eapply rows_ok_same; [..| exact Hr] | exact Hs | done | exact Ho].
Qed.

Lemma volume_step_inv s op : volume_inv s → volume_inv (volume_step s op).
Proof.
  intros Hi. pose proof Hi as [Hr Hs Hd Ho].
  destruct op as [| |g l|g e|refs usage|q|m|n| | |g d|g e| |g n| | |g|g e|n|g n|g n o e|n| |g|g e|n| |g n|g e]; cbn [volume_step].
  - unfold initialize. destruct (initialized s); [done | same_volume Hi].
  - by apply refresh_inv.
  - by apply volume_list_inv.
  - unfold apply_list_error. destruct (negb _); [done |]. destruct (friendly_volume_error _ _) as [[k m] st]. cbn [snd].
    assert (volume_inv (clear_selection (set_visible_rows [] (set_source_rows [] s)))) as Hc by (by apply clear_selection_inv).
    generalize dependent (clear_selection (set_visible_rows [] (set_source_rows [] s))). intros s1 Hc. same_volume Hc.
  - by apply volume_patch_inv.
  - by apply volume_search_inv.
  - unfold update_sort_mode. assert (volume_inv (rebuild_visible (set_sort_mode m s))) as [[? _] ? ? ?] by (by apply rebuild_inv).
    by apply sync_inv.
  - by apply volume_select_inv.
  - by apply volume_inspect_inv.
  - destruct Hr. by apply clear_selection_inv.
  - by apply volume_detail_inv.
  - unfold apply_detail_error. destruct (_ || _); [done |]. destruct (friendly_volume_error _ _) as [[k m] st]. cbn [snd].
    split; [by eapply rows_ok_same; [..| exact Hr] | exact Hs | done | exact Ho].
  - by apply create_inv.
  - by apply create_inv.
  - by apply prune_inv.
  - by apply prune_inv.
  - by apply prune_inv.
  - by apply fail_global_inv.
  - by apply begin_remove_inv.
  - destruct (finish_remove g n s) as [[] s'] eqn:E.
    + destruct (finish_remove_inv g n s s' Hi E) as [Hi' Hn]. by apply volume_removed_inv.
    + by apply finish_volume_operation_false in E as ->.
  - by apply fail_volume_inv.
  - by apply begin_export_inv.
  - by apply cancel_inv.
  - by apply finish_export_inv.
  - unfold fail_export. pose proof (finish_export_inv g s Hi) as Hf. destruct (finish_export g s) as [[] s']; [by apply operation_error_inv | done].
  - by apply begin_clone_inv.
  - by apply cancel_inv.
  - unfold finish_clone. pose proof (end_clone_inv g s Hi) as Hf. destruct (end_clone g s) as [[] s']; [| done].
    destruct n; [by apply prefer_inv | done].
  - unfold fail_clone. pose proof (end_clone_inv g s Hi) as Hf. destruct (end_clone g s) as [[] s']; [by apply operation_error_inv | done].
Qed.

Lemma task_ok_empty op : task_ok ∅ ∅ op no_task.
Proof. split_and!; [| done | done]. intros n. rewrite lookup_empty. split; [done | by intros [[=] _]]. Qed.

Lemma volume_run_inv ops : volume_inv (volume_run ops).
Proof.
  unfold volume_run. assert (volume_inv VolumesState_default) as Hi.
  { split; [done | by left | done |]. split_and!; [done | apply task_ok_empty | apply task_ok_empty | done]. }
  generalize dependent VolumesState_default. induction ops as [|op ops IH]; intros s Hs; [done |]. apply IH. by apply volume_step_inv.
Qed.

(** C19: The volume page is always consistent.  After any sequence of user actions,
    refreshes, background measurements, answers and failures, current or late: the
    rows shown are the listed volumes that match the search, in the chosen order;
    every row says truly whether it is selected and which operation runs on it; what
    is selected is still in the list; and a detail is shown exactly in the state
    ready, and only for the selected volume. *)
Theorem volume_page_consistent ops :
  let s := volume_run ops in
  visible_rows s = volume_listing s
  ∧ Forall (fun row => vr_selected row = bool_decide (vr_volume_name row = selected_volume_name s)
                     ∧ vr_operation row = from_option volume_operation_name [] (operations s !! vr_volume_name row)
                     ∧ vr_busy row = bool_decide (is_Some (operations s !! vr_volume_name row))) (source_rows s)
  ∧ (selected_volume_name s ≠ [] → ∃ row, row ∈ source_rows s ∧ vr_volume_name row = selected_volume_name s)
  ∧ match detail s with
    | Some d => detail_state s = VDetail_Ready ∧ vv_volume_name d = selected_volume_name s
    | None => detail_state s ≠ VDetail_Ready
    end.
Proof.
  intros s. destruct (volume_run_inv ops) as [[Hv Hr] Hs Hd _]. fold s in Hv, Hr, Hs, Hd. split_and!; [done | | | done].
  - rewrite <- Hr. apply Forall_fmap, Forall_true. intros row. cbn. split_and!; [done | done |].
    destruct (operations s !! vr_volume_name row) as [[]|]; reflexivity.
  - intros Hne. destruct Hs as [?|Hs]; [done |]. by apply key_exists_spec.
Qed.

(** Every volume task that runs can end.  After any sequence of events, the
    volumes with an export operation are exactly the one the export task names; the
    answer that carries the task's generation, with success or an error, is
    accepted, and after a success no export runs and that volume has no operation.
    The same holds of clones. *)
Theorem volume_tasks_end ops e :
  let s := volume_run ops in
  (∀ name, operations s !! name = Some VOp_Exporting ↔ task_active (export_task s) = true ∧ task_volume_name (export_task s) = name)
  ∧ (∀ name, operations s !! name = Some VOp_Cloning ↔ task_active (clone_task s) = true ∧ task_volume_name (clone_task s) = name)
  ∧ (task_active (export_task s) = true →
      let r := finish_export (task_generation (export_task s)) s in
      r.1 = true ∧ task_active (export_task r.2) = false ∧ operations r.2 = delete (task_volume_name (export_task s)) (operations s)
      ∧ (fail_export (task_generation (export_task s)) e s).1 = true)
  ∧ (task_active (clone_task s) = true →
      let r := end_clone (task_generation (clone_task s)) s in
      r.1 = true ∧ task_active (clone_task r.2) = false ∧ operations r.2 = delete (task_volume_name (clone_task s)) (operations s)
      ∧ (fail_clone (task_generation (clone_task s)) e s).1 = true).
Proof.
  intros s. pose proof (volume_run_inv ops) as Hi. fold s in Hi. pose proof (vi_operations s Hi) as (_ & (H1 & H2 & _) & (H3 & H4 & _) & _).
  clearbody s. split_and!; [done | done | |]; intros Ha r.
  - assert (task_matches (export_task s) (task_generation (export_task s)) = true) as Hm by (unfold task_matches; by rewrite Ha, Z.eqb_refl).
    assert (volume_operation_matches (task_generation (export_task s)) (task_volume_name (export_task s)) VOp_Exporting s = true) as Ho.
    { apply andb_true_intro. split; apply bool_decide_eq_true; [by apply H1 | by apply H2]. }
    subst r. unfold fail_export, finish_export, finish_volume_operation. rewrite Hm, Ho. done.
  - assert (task_matches (clone_task s) (task_generation (clone_task s)) = true) as Hm by (unfold task_matches; by rewrite Ha, Z.eqb_refl).
    assert (volume_operation_matches (task_generation (clone_task s)) (task_volume_name (clone_task s)) VOp_Cloning s = true) as Ho.
    { apply andb_true_intro. split; apply bool_decide_eq_true; [by apply H3 | by apply H4]. }
    subst r. unfold fail_clone, end_clone, finish_volume_operation. rewrite Hm, Ho. done.
Qed.
End runs.
