(* ===== verification/ImagesPage.v ===== *)
(** The image page of the graphical interface
    (crates/gui/src/models/image_model.rs, controllers/images.rs and error.rs): rows
    and detail view, and the state machine of the list, its selection, operations
    on images, pulls and exports.

    The bridge sends the requests; a result comes back with the generation it was
    asked for under and is applied only while that is current. *)

From Stdlib Require Import SpecFloat.
From S2P Require Import Prelude Path Numbers Text Domain DockerError PageFormat.

Local Open Scope Z_scope.

(** ** Errors of the interface *)
Inductive AppError :=
  | App_DaemonUnavailable (message : text)
  | App_DockerUnavailable
  | App_FuseUnavailable (message : text)
  | App_PermissionDenied
  | App_Operation (message : text)
  | App_Config (message : text).

Definition user_message (self : AppError) : text :=
  match self with
  | App_DaemonUnavailable _ => bytes "TuxStack service is not running."
  | App_DockerUnavailable => bytes "Docker Engine is unavailable."
  | App_FuseUnavailable _ => bytes "Docker filesystem is unavailable."
  | App_PermissionDenied => bytes "Permission denied while accessing the TuxStack service."
  | App_Operation message => message
  | App_Config message => bytes "Configuration error: " ++ message
  end.
Definition app_error_kind (self : AppError) : text :=
  match self with
  | App_DaemonUnavailable _ => bytes "daemon_unavailable"
  | App_DockerUnavailable => bytes "docker_unavailable"
  | App_FuseUnavailable _ => bytes "fuse_unavailable"
  | App_PermissionDenied => bytes "permission_denied"
  | App_Operation _ => bytes "daemon"
  | App_Config _ => bytes "config"
  end.
Definition status_code (self : AppError) : Z :=
  match self with
  | App_DaemonUnavailable _ => 5
  | App_DockerUnavailable => 2
  | App_FuseUnavailable _ => 6
  | App_PermissionDenied => 3
  | App_Operation _ | App_Config _ => 4
  end.
(** A path is shown as its bytes. *)
Definition app_error (error : DaemonError) : AppError :=
  match error with
  | Cli_DaemonUnavailable message => App_DaemonUnavailable message
  | Cli_SocketNotFound path => App_DaemonUnavailable path
  | Cli_EngineUnavailable | Cli_ConnectionTimeout => App_DockerUnavailable
  | Cli_FuseUnavailable message => App_FuseUnavailable message
  | Cli_PermissionDenied | Cli_DestinationPermissionDenied _ => App_PermissionDenied
  | other => App_Operation (DaemonError_to_string other)
  end.

(** ** Rows and views *)
Record ImageRow := mkImageRow {
  ir_image_id : text;
  ir_short_id : text;
  ir_display_name : text;
  ir_repo_tags : list text;
  ir_repo_digests : list text;
  ir_secondary_text : text;
  ir_size_bytes : Z;
  ir_size_text : text;
  ir_created_at : option DateTime;
  ir_created_text : text;
  ir_architecture : text;
  ir_in_use : bool;
  ir_used_by_count : Z;
  ir_containers : list ImageContainerReference;
  ir_labels : Labels;
}.
Definition set_architecture (v : text) (self : ImageRow) : ImageRow :=
  mkImageRow (ir_image_id self) (ir_short_id self) (ir_display_name self) (ir_repo_tags self) (ir_repo_digests self)
    (ir_secondary_text self) (ir_size_bytes self) (ir_size_text self) (ir_created_at self) (ir_created_text self) v
    (ir_in_use self) (ir_used_by_count self) (ir_containers self) (ir_labels self).

Record UsageRow := mkUsageRow {
  ur_container_id : text; ur_short_id : text; ur_name : text; ur_state : text; ur_status : text; ur_created_at : text;
}.
Record ImageDetailView := mkImageDetailView {
  iv_image_id : text;
  iv_short_id : text;
  iv_display_name : text;
  iv_repo_tags : list text;
  iv_tags_text : text;
  iv_digests_text : text;
  iv_created_text : text;
  iv_created_full_text : text;
  iv_size_text : text;
  iv_virtual_size_text : text;
  iv_platform : text;
  iv_architecture : text;
  iv_os : text;
  iv_author : text;
  iv_docker_version : text;
  iv_comment : text;
  iv_command : text;
  iv_entrypoint : text;
  iv_working_dir : text;
  iv_user : text;
  iv_stop_signal : text;
  iv_shell : text;
  iv_environment : list KeyValueRow;
  iv_labels : list KeyValueRow;
  iv_usage : list UsageRow;
}.

(** [serde_json::to_string] of a list of strings *)
Class JsonText := { json_strings : list text → option text }.

(** [join] *)
Definition join_with (sep : text) (l : list text) : text :=
  match l with [] => [] | x :: l => foldl (fun acc y => acc ++ sep ++ y) x l end.
Definition join_or_dash (values : list text) : text := if is_empty values then dash else join_with [of_u8 10] values.

Section views.
Context {LC : Lowercase} {DF : DateFormat} {JT : JsonText}.

Definition string_array (values : list text) : text :=
  if is_empty values then dash else default (bytes "[]") (json_strings values).

(** The age is taken at the time [now]. *)
Definition image_row (now : DateTime) (summary : ImageSummary) : ImageRow :=
  let size_text := format_bytes (is_size_bytes summary) in
  let created_text := from_option (fun c => relative_time_at c now) (bytes "Unknown creation time") (is_created_at summary) in
  mkImageRow (is_id summary) (is_short_id summary) (is_display_name summary) (is_repo_tags summary) (is_repo_digests summary)
    (size_text ++ bytes " " ++ middle_dot ++ bytes " " ++ created_text) (is_size_bytes summary) size_text (is_created_at summary)
    created_text (bytes "unknown") (is_in_use summary) (len (is_containers summary)) (is_containers summary) (is_labels summary).

Definition usage_row (container : ImageContainerReference) : UsageRow :=
  mkUsageRow (icr_id container) (icr_short_id container) (icr_name container) (runtime_as_str (icr_state container))
    (icr_status container) (from_option format_minute [] (icr_created_at container)).

Definition platform_text (os architecture variant : option text) : text :=
  match os, architecture, variant with
  | Some os, Some architecture, Some variant => os ++ bytes "/" ++ architecture ++ bytes "/" ++ variant
  | Some os, Some architecture, None => os ++ bytes "/" ++ architecture
  | _, _, _ => dash
  end.

Definition environment_rows (detail : ImageDetail) : list KeyValueRow :=
  sort_by (cmp_by (fun item => to_lowercase (kv_key item)) bytes_cmp)
    ((fun item => mkKeyValue (ev_name item) (default [] (ev_value item))) <$> id_environment detail).

Definition image_detail_view (now : DateTime) (detail : ImageDetail) : ImageDetailView :=
  let summary := id_summary detail in
  let architecture := non_empty (id_architecture detail) in
  let os := non_empty (id_os detail) in
  mkImageDetailView (is_id summary) (is_short_id summary) (is_display_name summary) (is_repo_tags summary)
    (join_or_dash (is_repo_tags summary)) (join_or_dash (is_repo_digests summary))
    (from_option (fun c => relative_time_at c now) dash (is_created_at summary)) (from_option full_utc_time dash (is_created_at summary))
    (format_bytes (is_size_bytes summary)) (from_option format_bytes dash (is_virtual_size_bytes summary))
    (platform_text os architecture (non_empty (id_variant detail))) (value_or_dash architecture) (value_or_dash os)
    (value_or_dash (id_author detail)) (value_or_dash (id_docker_version detail)) (value_or_dash (id_comment detail))
    (string_array (id_command detail)) (string_array (id_entrypoint detail)) (value_or_dash (id_working_dir detail))
    (value_or_dash (id_user detail)) (value_or_dash (id_stop_signal detail)) (string_array (id_shell detail))
    (environment_rows detail) (btree_pairs (id_labels detail)) (usage_row <$> is_containers summary).
End views.

(** ** The page *)
Inductive SelectionChange := Selected (generation : Z) | Deselected | Ignored.
Inductive ImagesListState := Images_Loading | Images_Ready | Images_Empty | Images_Error.
Inductive ImageDetailState := IDetail_None | IDetail_Loading | IDetail_Ready | IDetail_Error.
Inductive ImageSortMode := ISort_NameAscending | ISort_NameDescending | ISort_NewestFirst | ISort_OldestFirst | ISort_LargestFirst
  | ISort_SmallestFirst | ISort_UsedFirst | ISort_UnusedFirst.

Record PullState := mkPullState {
  pull_active : bool;
  pull_reference : text;
  pull_layer_id : text;
  pull_status : text;
  pull_current : Z;
  pull_total : Z;
  pull_percent : f64;
}.
Record ExportState := mkExportState { export_active : bool; export_image_id : text; export_destination : text }.

Record ImagesState := mkImagesState {
  source_rows : list ImageRow;
  visible_rows : list ImageRow;
  busy : gmap text text;
  busy_generations : gmap text Z;
  search_query : text;
  sort_mode : ImageSortMode;
  selected_image_id : text;
  detail : option ImageDetailView;
  refresh_generation : Z;
  detail_generation : Z;
  operation_generation : Z;
  pull_generation : Z;
  export_generation : Z;
  preferred_reference : text;
  initialized : bool;
  status : ImagesListState;
  status_text : text;
  error_kind : text;
  detail_status : ImageDetailState;
  detail_error : text;
  detail_error_kind : text;
  operation_in_progress : bool;
  pull : PullState;
  export : ExportState;
}.

Definition set_source_rows (v : list ImageRow) (self : ImagesState) : ImagesState :=
  mkImagesState v (visible_rows self) (busy self) (busy_generations self) (search_query self) (sort_mode self)
    (selected_image_id self) (detail self) (refresh_generation self) (detail_generation self)
    (operation_generation self) (pull_generation self) (export_generation self) (preferred_reference self)
    (initialized self) (status self) (status_text self) (error_kind self) (detail_status self)
    (detail_error self) (detail_error_kind self) (operation_in_progress self) (pull self) (export self).
Definition set_visible_rows (v : list ImageRow) (self : ImagesState) : ImagesState :=
  mkImagesState (source_rows self) v (busy self) (busy_generations self) (search_query self) (sort_mode self)
    (selected_image_id self) (detail self) (refresh_generation self) (detail_generation self)
    (operation_generation self) (pull_generation self) (export_generation self) (preferred_reference self)
    (initialized self) (status self) (status_text self) (error_kind self) (detail_status self)
    (detail_error self) (detail_error_kind self) (operation_in_progress self) (pull self) (export self).
Definition set_busy (v : gmap text text) (self : ImagesState) : ImagesState :=
  mkImagesState (source_rows self) (visible_rows self) v (busy_generations self) (search_query self)
    (sort_mode self) (selected_image_id self) (detail self) (refresh_generation self) (detail_generation self)
    (operation_generation self) (pull_generation self) (export_generation self) (preferred_reference self)
    (initialized self) (status self) (status_text self) (error_kind self) (detail_status self)
    (detail_error self) (detail_error_kind self) (operation_in_progress self) (pull self) (export self).
Definition set_busy_generations (v : gmap text Z) (self : ImagesState) : ImagesState :=
  mkImagesState (source_rows self) (visible_rows self) (busy self) v (search_query self) (sort_mode self)
    (selected_image_id self) (detail self) (refresh_generation self) (detail_generation self)
    (operation_generation self) (pull_generation self) (export_generation self) (preferred_reference self)
    (initialized self) (status self) (status_text self) (error_kind self) (detail_status self)
    (detail_error self) (detail_error_kind self) (operation_in_progress self) (pull self) (export self).
Definition set_search_query (v : text) (self : ImagesState) : ImagesState :=
  mkImagesState (source_rows self) (visible_rows self) (busy self) (busy_generations self) v (sort_mode self)
    (selected_image_id self) (detail self) (refresh_generation self) (detail_generation self)
    (operation_generation self) (pull_generation self) (export_generation self) (preferred_reference self)
    (initialized self) (status self) (status_text self) (error_kind self) (detail_status self)
    (detail_error self) (detail_error_kind self) (operation_in_progress self) (pull self) (export self).
Definition set_sort_mode (v : ImageSortMode) (self : ImagesState) : ImagesState :=
  mkImagesState (source_rows self) (visible_rows self) (busy self) (busy_generations self) (search_query self) v
    (selected_image_id self) (detail self) (refresh_generation self) (detail_generation self)
    (operation_generation self) (pull_generation self) (export_generation self) (preferred_reference self)
    (initialized self) (status self) (status_text self) (error_kind self) (detail_status self)
    (detail_error self) (detail_error_kind self) (operation_in_progress self) (pull self) (export self).
Definition set_selected_image_id (v : text) (self : ImagesState) : ImagesState :=
  mkImagesState (source_rows self) (visible_rows self) (busy self) (busy_generations self) (search_query self)
    (sort_mode self) v (detail self) (refresh_generation self) (detail_generation self)
    (operation_generation self) (pull_generation self) (export_generation self) (preferred_reference self)
    (initialized self) (status self) (status_text self) (error_kind self) (detail_status self)
    (detail_error self) (detail_error_kind self) (operation_in_progress self) (pull self) (export self).
Definition set_detail (v : option ImageDetailView) (self : ImagesState) : ImagesState :=
  mkImagesState (source_rows self) (visible_rows self) (busy self) (busy_generations self) (search_query self)
    (sort_mode self) (selected_image_id self) v (refresh_generation self) (detail_generation self)
    (operation_generation self) (pull_generation self) (export_generation self) (preferred_reference self)
    (initialized self) (status self) (status_text self) (error_kind self) (detail_status self)
    (detail_error self) (detail_error_kind self) (operation_in_progress self) (pull self) (export self).
Definition set_refresh_generation (v : Z) (self : ImagesState) : ImagesState :=
  mkImagesState (source_rows self) (visible_rows self) (busy self) (busy_generations self) (search_query self)
    (sort_mode self) (selected_image_id self) (detail self) v (detail_generation self)
    (operation_generation self) (pull_generation self) (export_generation self) (preferred_reference self)
    (initialized self) (status self) (status_text self) (error_kind self) (detail_status self)
    (detail_error self) (detail_error_kind self) (operation_in_progress self) (pull self) (export self).
Definition set_detail_generation (v : Z) (self : ImagesState) : ImagesState :=
  mkImagesState (source_rows self) (visible_rows self) (busy self) (busy_generations self) (search_query self)
    (sort_mode self) (selected_image_id self) (detail self) (refresh_generation self) v
    (operation_generation self) (pull_generation self) (export_generation self) (preferred_reference self)
    (initialized self) (status self) (status_text self) (error_kind self) (detail_status self)
    (detail_error self) (detail_error_kind self) (operation_in_progress self) (pull self) (export self).
Definition set_operation_generation (v : Z) (self : ImagesState) : ImagesState :=
  mkImagesState (source_rows self) (visible_rows self) (busy self) (busy_generations self) (search_query self)
    (sort_mode self) (selected_image_id self) (detail self) (refresh_generation self) (detail_generation self) v
    (pull_generation self) (export_generation self) (preferred_reference self) (initialized self) (status self)
    (status_text self) (error_kind self) (detail_status self) (detail_error self) (detail_error_kind self)
    (operation_in_progress self) (pull self) (export self).
Definition set_pull_generation (v : Z) (self : ImagesState) : ImagesState :=
  mkImagesState (source_rows self) (visible_rows self) (busy self) (busy_generations self) (search_query self)
    (sort_mode self) (selected_image_id self) (detail self) (refresh_generation self) (detail_generation self)
    (operation_generation self) v (export_generation self) (preferred_reference self) (initialized self)
    (status self) (status_text self) (error_kind self) (detail_status self) (detail_error self)
    (detail_error_kind self) (operation_in_progress self) (pull self) (export self).
Definition set_export_generation (v : Z) (self : ImagesState) : ImagesState :=
  mkImagesState (source_rows self) (visible_rows self) (busy self) (busy_generations self) (search_query self)
    (sort_mode self) (selected_image_id self) (detail self) (refresh_generation self) (detail_generation self)
    (operation_generation self) (pull_generation self) v (preferred_reference self) (initialized self)
    (status self) (status_text self) (error_kind self) (detail_status self) (detail_error self)
    (detail_error_kind self) (operation_in_progress self) (pull self) (export self).
Definition set_preferred_reference (v : text) (self : ImagesState) : ImagesState :=
  mkImagesState (source_rows self) (visible_rows self) (busy self) (busy_generations self) (search_query self)
    (sort_mode self) (selected_image_id self) (detail self) (refresh_generation self) (detail_generation self)
    (operation_generation self) (pull_generation self) (export_generation self) v (initialized self)
    (status self) (status_text self) (error_kind self) (detail_status self) (detail_error self)
    (detail_error_kind self) (operation_in_progress self) (pull self) (export self).
Definition set_initialized (v : bool) (self : ImagesState) : ImagesState :=
  mkImagesState (source_rows self) (visible_rows self) (busy self) (busy_generations self) (search_query self)
    (sort_mode self) (selected_image_id self) (detail self) (refresh_generation self) (detail_generation self)
    (operation_generation self) (pull_generation self) (export_generation self) (preferred_reference self) v
    (status self) (status_text self) (error_kind self) (detail_status self) (detail_error self)
    (detail_error_kind self) (operation_in_progress self) (pull self) (export self).
Definition set_status (v : ImagesListState) (self : ImagesState) : ImagesState :=
  mkImagesState (source_rows self) (visible_rows self) (busy self) (busy_generations self) (search_query self)
    (sort_mode self) (selected_image_id self) (detail self) (refresh_generation self) (detail_generation self)
    (operation_generation self) (pull_generation self) (export_generation self) (preferred_reference self)
    (initialized self) v (status_text self) (error_kind self) (detail_status self) (detail_error self)
    (detail_error_kind self) (operation_in_progress self) (pull self) (export self).
Definition set_status_text (v : text) (self : ImagesState) : ImagesState :=
  mkImagesState (source_rows self) (visible_rows self) (busy self) (busy_generations self) (search_query self)
    (sort_mode self) (selected_image_id self) (detail self) (refresh_generation self) (detail_generation self)
    (operation_generation self) (pull_generation self) (export_generation self) (preferred_reference self)
    (initialized self) (status self) v (error_kind self) (detail_status self) (detail_error self)
    (detail_error_kind self) (operation_in_progress self) (pull self) (export self).
Definition set_error_kind (v : text) (self : ImagesState) : ImagesState :=
  mkImagesState (source_rows self) (visible_rows self) (busy self) (busy_generations self) (search_query self)
    (sort_mode self) (selected_image_id self) (detail self) (refresh_generation self) (detail_generation self)
    (operation_generation self) (pull_generation self) (export_generation self) (preferred_reference self)
    (initialized self) (status self) (status_text self) v (detail_status self) (detail_error self)
    (detail_error_kind self) (operation_in_progress self) (pull self) (export self).
Definition set_detail_status (v : ImageDetailState) (self : ImagesState) : ImagesState :=
  mkImagesState (source_rows self) (visible_rows self) (busy self) (busy_generations self) (search_query self)
    (sort_mode self) (selected_image_id self) (detail self) (refresh_generation self) (detail_generation self)
    (operation_generation self) (pull_generation self) (export_generation self) (preferred_reference self)
    (initialized self) (status self) (status_text self) (error_kind self) v (detail_error self)
    (detail_error_kind self) (operation_in_progress self) (pull self) (export self).
Definition set_detail_error (v : text) (self : ImagesState) : ImagesState :=
  mkImagesState (source_rows self) (visible_rows self) (busy self) (busy_generations self) (search_query self)
    (sort_mode self) (selected_image_id self) (detail self) (refresh_generation self) (detail_generation self)
    (operation_generation self) (pull_generation self) (export_generation self) (preferred_reference self)
    (initialized self) (status self) (status_text self) (error_kind self) (detail_status self) v
    (detail_error_kind self) (operation_in_progress self) (pull self) (export self).
Definition set_detail_error_kind (v : text) (self : ImagesState) : ImagesState :=
  mkImagesState (source_rows self) (visible_rows self) (busy self) (busy_generations self) (search_query self)
    (sort_mode self) (selected_image_id self) (detail self) (refresh_generation self) (detail_generation self)
    (operation_generation self) (pull_generation self) (export_generation self) (preferred_reference self)
    (initialized self) (status self) (status_text self) (error_kind self) (detail_status self)
    (detail_error self) v (operation_in_progress self) (pull self) (export self).
Definition set_operation_in_progress (v : bool) (self : ImagesState) : ImagesState :=
  mkImagesState (source_rows self) (visible_rows self) (busy self) (busy_generations self) (search_query self)
    (sort_mode self) (selected_image_id self) (detail self) (refresh_generation self) (detail_generation self)
    (operation_generation self) (pull_generation self) (export_generation self) (preferred_reference self)
    (initialized self) (status self) (status_text self) (error_kind self) (detail_status self)
    (detail_error self) (detail_error_kind self) v (pull self) (export self).
Definition set_pull (v : PullState) (self : ImagesState) : ImagesState :=
  mkImagesState (source_rows self) (visible_rows self) (busy self) (busy_generations self) (search_query self)
    (sort_mode self) (selected_image_id self) (detail self) (refresh_generation self) (detail_generation self)
    (operation_generation self) (pull_generation self) (export_generation self) (preferred_reference self)
    (initialized self) (status self) (status_text self) (error_kind self) (detail_status self)
    (detail_error self) (detail_error_kind self) (operation_in_progress self) v (export self).
Definition set_export (v : ExportState) (self : ImagesState) : ImagesState :=
  mkImagesState (source_rows self) (visible_rows self) (busy self) (busy_generations self) (search_query self)
    (sort_mode self) (selected_image_id self) (detail self) (refresh_generation self) (detail_generation self)
    (operation_generation self) (pull_generation self) (export_generation self) (preferred_reference self)
    (initialized self) (status self) (status_text self) (error_kind self) (detail_status self)
    (detail_error self) (detail_error_kind self) (operation_in_progress self) (pull self) v.
Definition ImagesState_default : ImagesState :=
  mkImagesState [] [] ∅ ∅ [] ISort_UsedFirst [] None 0 0 0 0 0 [] false Images_Loading [] [] IDetail_None [] [] false
    (mkPullState false [] [] [] 0 0 (S754_zero false)) (mkExportState false [] []).

Section page.
Context {LC : Lowercase} {DF : DateFormat} {JT : JsonText}.
Implicit Types self s : ImagesState.

(** ** The list *)
Definition image_row_matches (query : text) (row : ImageRow) : bool :=
  let found value := str_contains (to_lowercase value) query in
  found (ir_display_name row) || found (ir_image_id row) || found (ir_short_id row)
  || existsb found (ir_repo_tags row ++ ir_repo_digests row) || label_matches query (ir_labels row) || found (ir_architecture row)
  || existsb (fun c => found (icr_name c) || found (icr_short_id c)) (ir_containers row).

(** [Option::cmp]: nothing comes first. *)
Definition option_date_cmp (l r : option DateTime) : comparison :=
  match l, r with Some l, Some r => l ?= r | Some _, None => Gt | None, Some _ => Lt | None, None => Eq end.

Definition compare_image_rows (mode : ImageSortMode) : ImageRow → ImageRow → comparison :=
  let section := cmp_by ir_in_use bool_cmp in
  let name := cmp_by (fun r => to_lowercase (ir_display_name r)) bytes_cmp in
  let newest := cmp_then (cmp_rev (cmp_by ir_created_at option_date_cmp)) name in
  cmp_then (match mode with ISort_UnusedFirst => section | _ => cmp_rev section end)
    (match mode with
     | ISort_NameAscending => name
     | ISort_NameDescending => cmp_rev name
     | ISort_NewestFirst => newest
     | ISort_OldestFirst => cmp_then (cmp_by ir_created_at option_date_cmp) name
     | ISort_LargestFirst => cmp_then (cmp_rev (cmp_by ir_size_bytes Z.compare)) newest
     | ISort_SmallestFirst => cmp_then (cmp_by ir_size_bytes Z.compare) newest
     | ISort_UsedFirst | ISort_UnusedFirst => newest
     end).

Definition image_listing self : list ImageRow :=
  let query := to_lowercase (search_query self) in
  sort_by (compare_image_rows (sort_mode self))
    (List.filter (fun row => is_empty query || image_row_matches query row) (source_rows self)).
Definition rebuild_visible self : ImagesState := set_visible_rows (image_listing self) self.

Definition image_exists self (id : text) : bool := key_exists ir_image_id id (source_rows self).

(** ** Selection and detail *)
Definition clear_detail (state : ImageDetailState) self : ImagesState :=
  set_detail_error_kind [] (set_detail_error [] (set_detail_status state (set_detail None self))).
Definition next_detail self : ImagesState := set_detail_generation (wrapping_add 64 (detail_generation self) 1) self.
Definition clear_selection self : ImagesState := next_detail (clear_detail IDetail_None (set_selected_image_id [] self)).
Definition set_refresh_selection (image_id : text) self : ImagesState :=
  clear_detail IDetail_None (set_selected_image_id image_id self).

Definition initialize self : bool * ImagesState :=
  if initialized self then (false, self) else (true, set_initialized true self).

Definition begin_refresh self : Z * ImagesState :=
  let self := next_detail (set_refresh_generation (wrapping_add 64 (refresh_generation self) 1) self) in
  let self := set_error_kind [] (set_status_text [] (set_status Images_Loading self)) in
  let self := clear_detail IDetail_None self in
  (refresh_generation self, self).

Definition restore_selection (selected : text) self : ImagesState :=
  if negb (is_empty selected) && image_exists self selected then set_selected_image_id selected self else clear_selection self.

(** The earlier selection, else the first image in use, else the first. *)
Definition restore_after_refresh (selected : text) self : ImagesState :=
  if negb (is_empty selected) && image_exists self selected then set_selected_image_id selected self
  else
    match (match List.find ir_in_use (visible_rows self) with Some row => Some row | None => head (visible_rows self) end) with
    | Some row => set_refresh_selection (ir_image_id row) self
    | None => clear_selection self
    end.

Definition ready_or_empty self : ImagesState :=
  set_status (if is_empty (source_rows self) then Images_Empty else Images_Ready) self.

Definition preferred_row self : option ImageRow :=
  List.find (fun row => bool_decide (ir_display_name row = preferred_reference self)
                        || existsb (fun tag => bool_decide (tag = preferred_reference self)) (ir_repo_tags row)) (source_rows self).

Definition apply_list (now : DateTime) (generation : Z) (summaries : list ImageSummary) self : bool * ImagesState :=
  if negb (generation =? refresh_generation self) then (false, self)
  else
    let previous := selected_image_id self in
    let self := rebuild_visible (set_source_rows (image_row now <$> summaries) self) in
    let self := set_error_kind [] (set_status_text [] (ready_or_empty self)) in
    (true,
     if negb (is_empty (preferred_reference self)) then
       let preferred := preferred_row self in
       let self := set_preferred_reference [] self in
       match preferred with
       | Some row => set_refresh_selection (ir_image_id row) self
       | None => restore_after_refresh previous self
       end
     else restore_after_refresh previous self).

Definition apply_list_error (generation : Z) (error : DaemonError) self : bool * ImagesState :=
  if negb (generation =? refresh_generation self) then (false, self)
  else
    let error := app_error error in
    let self := clear_selection (set_visible_rows [] (set_source_rows [] self)) in
    (true, set_status_text (user_message error) (set_error_kind (app_error_kind error) (set_status Images_Error self))).

Definition patch_image (image_id architecture : text) (row : ImageRow) : ImageRow :=
  if bool_decide (ir_image_id row = image_id) && negb (bool_decide (ir_architecture row = architecture))
  then set_architecture architecture row else row.

(** The shown rows are changed in place: the search is not applied again. *)
Definition patch_metadata (image_id architecture : text) self : bool * ImagesState :=
  let changed := existsb (fun row => bool_decide (ir_image_id row = image_id) && negb (bool_decide (ir_architecture row = architecture)))
                   (source_rows self) in
  (changed, set_visible_rows (patch_image image_id architecture <$> visible_rows self)
     (set_source_rows (patch_image image_id architecture <$> source_rows self) self)).

Definition update_search_query (query : text) self : ImagesState :=
  let self := set_search_query (trim query) self in
  restore_selection (selected_image_id self) (rebuild_visible self).
Definition update_sort_mode (mode : ImageSortMode) self : ImagesState := rebuild_visible (set_sort_mode mode self).

Definition select (id : text) self : option Z * ImagesState :=
  if negb (image_exists self id) then (None, self)
  else
    let self := next_detail (clear_detail IDetail_Loading (set_selected_image_id id self)) in
    (Some (detail_generation self), self).

Definition toggle_selection (id : text) self : SelectionChange * ImagesState :=
  if bool_decide (selected_image_id self = id) then (Deselected, clear_selection self)
  else match select id self with (Some generation, self) => (Selected generation, self) | (None, self) => (Ignored, self) end.

Definition detail_architecture (architecture variant : option text) : text :=
  match architecture with
  | Some architecture =>
      if is_empty architecture then bytes "unknown"
      else match variant with
           | Some variant => if is_empty variant then architecture else architecture ++ bytes "/" ++ variant
           | None => architecture
           end
  | None => bytes "unknown"
  end.

Definition apply_detail (now : DateTime) (generation : Z) (new : ImageDetail) self : bool * ImagesState :=
  let id := is_id (id_summary new) in
  if negb (generation =? detail_generation self) || negb (bool_decide (id = selected_image_id self)) then (false, self)
  else
    let architecture := detail_architecture (id_architecture new) (id_variant new) in
    let rows := update_first (fun row => bool_decide (ir_image_id row = id)) (set_architecture architecture) (source_rows self) in
    let self := rebuild_visible (set_source_rows rows self) in
    let self := set_detail_status IDetail_Ready (set_detail (Some (image_detail_view now new)) self) in
    (true, set_detail_error_kind [] (set_detail_error [] self)).

Definition apply_detail_error (generation : Z) (kind message : text) self : bool * ImagesState :=
  if negb (generation =? detail_generation self) then (false, self)
  else (true, set_detail_error message (set_detail_error_kind kind (set_detail_status IDetail_Error (set_detail None self)))).

(** ** Operations *)
Definition begin_operation (id operation : text) self : option Z * ImagesState :=
  if bool_decide (is_Some (busy self !! id)) then (None, self)
  else
    let generation := wrapping_add 64 (operation_generation self) 1 in
    let self := set_busy (<[id := operation]> (busy self)) (set_operation_generation generation self) in
    (Some generation, set_operation_in_progress true (set_busy_generations (<[id := generation]> (busy_generations self)) self)).

Definition any_busy self : bool := negb (bool_decide (busy self = ∅)).

Definition finish_operation (id : text) (generation : Z) self : bool * ImagesState :=
  if negb (bool_decide (busy_generations self !! id = Some generation)) then (false, self)
  else
    let self := set_busy_generations (delete id (busy_generations self)) (set_busy (delete id (busy self)) self) in
    (true, set_operation_in_progress (any_busy self || pull_active (pull self) || export_active (export self)) self).

Definition remove_local (id : text) self : ImagesState :=
  let old_index := from_option fst O (list_find (fun row => ir_image_id row = id) (visible_rows self)) in
  let self := rebuild_visible (set_source_rows (without_key ir_image_id id (source_rows self)) self) in
  let self :=
    if bool_decide (selected_image_id self = id) then
      let selected := from_option ir_image_id [] (neighbour old_index (visible_rows self)) in
      clear_detail (if is_empty selected then IDetail_None else IDetail_Loading) (set_selected_image_id selected (next_detail self))
    else self in
  ready_or_empty self.

Definition begin_pull (reference : text) self : option Z * ImagesState :=
  let reference := trim reference in
  if is_empty reference || pull_active (pull self) then (None, self)
  else
    let generation := wrapping_add 64 (pull_generation self) 1 in
    let self := set_pull (mkPullState true reference [] (bytes "Resolving") 0 0 (S754_zero false)) (set_pull_generation generation self) in
    (Some generation, set_operation_in_progress true self).

Definition apply_pull_progress (generation : Z) (progress : ImagePullProgress) self : bool * ImagesState :=
  if negb (generation =? pull_generation self) || negb (pull_active (pull self))
     || negb (bool_decide (ipp_image_reference progress = pull_reference (pull self))) then (false, self)
  else
    (true, set_pull (mkPullState (pull_active (pull self)) (pull_reference (pull self)) (default [] (ipp_layer_id progress))
       (ipp_status progress) (default 0 (ipp_current progress)) (default 0 (ipp_total progress))
       (default (SFopp (f64_of 1)) (ipp_percent progress))) self).

Definition finish_pull (generation : Z) (prefer_pulled_image : bool) self : bool * ImagesState :=
  if negb (generation =? pull_generation self) then (false, self)
  else
    let self := if prefer_pulled_image then set_preferred_reference (pull_reference (pull self)) self else self in
    let p := pull self in
    let self := set_pull (mkPullState false (pull_reference p) (pull_layer_id p) (pull_status p) (pull_current p) (pull_total p)
                  (pull_percent p)) self in
    (true, set_operation_in_progress (any_busy self || export_active (export self)) self).

Definition begin_export (id destination : text) self : option Z * ImagesState :=
  if export_active (export self) || is_empty id || is_empty destination then (None, self)
  else
    let generation := wrapping_add 64 (export_generation self) 1 in
    (Some generation, set_operation_in_progress true (set_export (mkExportState true id destination) (set_export_generation generation self))).

Definition finish_export (generation : Z) self : bool * ImagesState :=
  if negb (generation =? export_generation self) then (false, self)
  else
    let self := set_export (mkExportState false (export_image_id (export self)) (export_destination (export self))) self in
    (true, set_operation_in_progress (any_busy self || pull_active (pull self)) self).

(** ** Counts *)
Definition total_image_count self : Z := len (source_rows self).
Definition in_use_count self : Z := len (List.filter ir_in_use (source_rows self)).
Definition unused_count self : Z := total_image_count self - in_use_count self.

(** The largest size reported for each image. *)
Definition unique_sizes self : gmap text Z :=
  foldl (fun m row =>
    let id := normalize_image_id (ir_image_id row) in
    <[id := match m !! id with Some size => Z.max size (ir_size_bytes row) | None => ir_size_bytes row end]> m) ∅ (source_rows self).
Definition total_size_bytes self : Z := map_fold (fun _ size total => saturating_add u64_max total size) 0 (unique_sizes self).
Definition total_size_text self : text := format_bytes (total_size_bytes self).
End page.

(** ** Sequences of events *)
Inductive image_op :=
  | IInitialize
  | IBeginRefresh
  | IList (now : DateTime) (generation : Z) (summaries : list ImageSummary)
  | IListError (generation : Z) (error : DaemonError)
  | IPatch (image_id architecture : text)
  | ISearch (query : text)
  | ISort (mode : ImageSortMode)
  | ISelect (id : text)
  | IToggle (id : text)
  | IClearSelection
  | IDetailLoaded (now : DateTime) (generation : Z) (new : ImageDetail)
  | IDetailFailed (generation : Z) (kind message : text)
  | IBegin (id operation : text)
  | IFinish (id : text) (generation : Z)
  | IRemoved (id : text)
  | IBeginPull (reference : text)
  | IPullProgress (generation : Z) (progress : ImagePullProgress)
  | IFinishPull (generation : Z) (prefer_pulled_image : bool)
  | IBeginExport (id destination : text)
  | IFinishExport (generation : Z).

Section runs.
Context {LC : Lowercase} {DF : DateFormat} {JT : JsonText}.
Implicit Types self s : ImagesState.

Definition image_step self (op : image_op) : ImagesState :=
  match op with
  | IInitialize => (initialize self).2
  | IBeginRefresh => (begin_refresh self).2
  | IList now generation summaries => (apply_list now generation summaries self).2
  | IListError generation error => (apply_list_error generation error self).2
  | IPatch image_id architecture => (patch_metadata image_id architecture self).2
  | ISearch query => update_search_query query self
  | ISort mode => update_sort_mode mode self
  | ISelect id => (select id self).2
  | IToggle id => (toggle_selection id self).2
  | IClearSelection => clear_selection self
  | IDetailLoaded now generation new => (apply_detail now generation new self).2
  | IDetailFailed generation kind message => (apply_detail_error generation kind message self).2
  | IBegin id operation => (begin_operation id operation self).2
  | IFinish id generation => (finish_operation id generation self).2
  | IRemoved id => remove_local id self
  | IBeginPull reference => (begin_pull reference self).2
  | IPullProgress generation progress => (apply_pull_progress generation progress self).2
  | IFinishPull generation prefer => (finish_pull generation prefer self).2
  | IBeginExport id destination => (begin_export id destination self).2
  | IFinishExport generation => (finish_export generation self).2
  end.
Definition image_run (ops : list image_op) : ImagesState := foldl image_step ImagesState_default ops.

Definition searching s : bool := negb (is_empty (to_lowercase (search_query s))).

(** No architecture arrives from the background while a search is on. *)
Fixpoint calm_from s (ops : list image_op) : bool :=
  match ops with
  | [] => true
  | op :: ops => negb (match op with IPatch _ _ => searching s | _ => false end) && calm_from (image_step s op) ops
  end.
Definition calm (ops : list image_op) : bool := calm_from ImagesState_default ops.

(** ** The invariant *)
Definition selection_ok s : Prop := selected_image_id s = [] ∨ image_exists s (selected_image_id s) = true.
Definition image_detail_ok s : Prop :=
  match detail s with
  | Some d => detail_status s = IDetail_Ready ∧ iv_image_id d = selected_image_id s
  | None => detail_status s ≠ IDetail_Ready
  end.
Definition busy_ok s : Prop :=
  dom (busy s) = dom (busy_generations s)
  ∧ operation_in_progress s = any_busy s || pull_active (pull s) || export_active (export s).
Definition shown_ok s : Prop := ∀ row, row ∈ visible_rows s → row ∈ source_rows s.

Record image_inv s : Prop := {
  ii_shown : shown_ok s;
  ii_selection : selection_ok s;
  ii_detail : image_detail_ok s;
  ii_busy : busy_ok s;
}.

Lemma image_listing_elem s row : row ∈ image_listing s → row ∈ source_rows s.
Proof. apply shown_elem. Qed.

(** The list is rebuilt and a row of it, or none, selected. *)
Lemma image_selected_inv s id st :
  shown_ok s → busy_ok s → (id = [] ∨ image_exists s id = true) → st ≠ IDetail_Ready →
  image_inv (clear_detail st (set_selected_image_id id s)).
Proof. intros Hv Hb Hid Hst. by split. Qed.

Lemma image_cleared_inv s : shown_ok s → busy_ok s → image_inv (clear_selection s).
Proof. intros Hv Hb. apply (image_selected_inv (next_detail s) [] IDetail_None); [done | done | by left | done]. Qed.

Lemma row_selected_inv s row st :
  shown_ok s → busy_ok s → st ≠ IDetail_Ready → row ∈ source_rows s →
  image_inv (clear_detail st (set_selected_image_id (ir_image_id row) s)).
Proof. intros Hv Hb Hst Hr. apply image_selected_inv; [done | done | right; by apply key_exists_elem | done]. Qed.

Lemma fallback_elem (rows : list ImageRow) row :
  match List.find ir_in_use rows with Some row => Some row | None => head rows end = Some row → row ∈ rows.
Proof.
  destruct (List.find _ rows) as [r|] eqn:E.
  - intros [= <-]. apply find_some in E as [E _]. by apply list_elem_of_In.
  - destruct rows as [|r rows]; [done |]. intros [= ->]. by left.
Qed.

(** The selection is kept where the rows still have it. *)
Lemma restore_after_refresh_inv previous s :
  shown_ok s → busy_ok s → previous = selected_image_id s → image_detail_ok s → image_inv (restore_after_refresh previous s).
Proof.
  intros Hv Hb -> Hd. unfold restore_after_refresh. destruct (_ && _) eqn:E.
  - apply andb_prop in E as [_ E]. destruct s. split; [done | by right | done | done].
  - set (o := match List.find _ _ with Some _ => _ | None => _ end). destruct o as [row|] eqn:Eo; [| by apply image_cleared_inv].
    apply fallback_elem in Eo. apply row_selected_inv; [done | done | done | by apply Hv].
Qed.

Lemma image_list_inv now g l s : image_inv s → image_inv (apply_list now g l s).2.
Proof.
  intros Hi. pose proof Hi as [Hv Hs Hd Hb]. unfold apply_list. destruct (negb _); [done |]. cbn [snd]. set (s1 := set_error_kind _ _).
  assert (shown_ok s1) as Hv1 by (intros row; apply (image_listing_elem (set_source_rows (image_row now <$> l) s))).
  assert (busy_ok s1) as Hb1 by exact Hb. assert (image_detail_ok s1) as Hd1 by exact Hd.
  assert (selected_image_id s1 = selected_image_id s) as Es by done. clearbody s1.
  destruct (negb _); [| by apply restore_after_refresh_inv].
  destruct (preferred_row s1) as [row|] eqn:E; [| by apply restore_after_refresh_inv].
  apply find_some in E as [E _]. apply (row_selected_inv (set_preferred_reference [] s1)); [done | done | done | by apply list_elem_of_In].
Qed.

Lemma image_detail_inv now g new s : image_inv s → image_inv (apply_detail now g new s).2.
Proof.
  intros [Hv Hs Hd Hb]. unfold apply_detail. destruct (_ || _) eqn:E; [done |]. cbn [snd].
  apply orb_false_iff in E as [_ E]. apply negb_false_iff, bool_decide_eq_true in E.
  set (rows := update_first _ _ _).
  assert (∀ id, key_exists ir_image_id id rows = image_exists s id) as Hrows.
  { intros id. by apply key_exists_same, update_first_fmap. }
  clearbody rows. split; [| | by split | done].
  - intros row. apply (image_listing_elem (set_source_rows rows s)).
  - destruct Hs as [Hs|Hs]; [by left | right]. unfold image_exists in *. cbn. rewrite Hrows. exact Hs.
Qed.

Lemma ready_or_empty_inv s : image_inv s → image_inv (ready_or_empty s).
Proof. intros [? ? ? ?]. by split. Qed.

Lemma image_removed_inv id s : image_inv s → image_inv (remove_local id s).
Proof.
  intros [Hv Hs Hd Hb]. unfold remove_local. set (i := from_option fst _ _). set (s1 := rebuild_visible _). apply ready_or_empty_inv.
  assert (shown_ok s1) as Hv1.
  { intros row. apply (image_listing_elem (set_source_rows (without_key ir_image_id id (source_rows s)) s)). }
  change (selected_image_id s1) with (selected_image_id s). case_bool_decide as Esel.
  - destruct (neighbour i (visible_rows s1)) as [row|] eqn:En; cbn [from_option].
    + apply (row_selected_inv (next_detail s1)); [done | done | by destruct (is_empty _) | by eapply Hv1, neighbour_elem].
    + apply (image_selected_inv (next_detail s1) []); [done | done | by left | done].
  - split; [done | | done | done]. destruct Hs as [Hs|Hs]; [by left | right]. unfold image_exists in *. cbn. by rewrite key_exists_without.
Qed.

Lemma image_patch_inv id arch s : image_inv s → image_inv (patch_metadata id arch s).2.
Proof.
  intros [Hv Hs Hd Hb]. unfold patch_metadata. cbn [snd]. split; [| | done | done].
  - intros row. cbn. rewrite !list_elem_of_fmap. intros (r & -> & Hr%Hv). eauto.
  - destruct Hs as [Hs|Hs]; [by left | right]. unfold image_exists in *. cbn. rewrite <- Hs. apply key_exists_same.
    rewrite <- list_fmap_compose. apply list_fmap_ext. intros _ row _. cbn. unfold patch_image. by destruct (_ && _).
Qed.

Lemma any_busy_insert (id operation : text) (m : gmap text text) : bool_decide (<[id := operation]> m = ∅) = false.
Proof. apply bool_decide_eq_false_2, insert_non_empty. Qed.

Lemma busy_begin id operation s : busy_ok s → busy_ok (begin_operation id operation s).2.
Proof.
  intros [Hd Ho]. unfold begin_operation. case_bool_decide; [done |]. split; cbn.
  - by rewrite !dom_insert_L, Hd.
  - unfold any_busy. cbn. by rewrite any_busy_insert.
Qed.

Lemma busy_finish id g s : busy_ok s → busy_ok (finish_operation id g s).2.
Proof.
  intros [Hd Ho]. unfold finish_operation. destruct (negb _); [done |]. split; [| done]. cbn. by rewrite !dom_delete_L, Hd.
Qed.

(** Only the operations, pull and export differ. *)
Lemma image_inv_busy s s' :
  source_rows s' = source_rows s → visible_rows s' = visible_rows s → selected_image_id s' = selected_image_id s →
  detail s' = detail s → detail_status s' = detail_status s → image_inv s → busy_ok s' → image_inv s'.
Proof.
  intros E1 E2 E3 E4 E5 [Hv Hs Hd Hb] Hb'. split; [| | | exact Hb']; unfold shown_ok, selection_ok, image_detail_ok, image_exists.
  - rewrite E1, E2. exact Hv.
  - rewrite E1, E3. exact Hs.
  - rewrite E3, E4, E5. exact Hd.
Qed.

Lemma image_search_inv q s : image_inv s → image_inv (update_search_query q s).
Proof.
  intros [Hv Hs Hd Hb]. unfold update_search_query, restore_selection.
  assert (shown_ok (rebuild_visible (set_search_query (trim q) s))) as Hv1.
  { intros row. apply (image_listing_elem (set_search_query (trim q) s)). }
  destruct (_ && _) eqn:E; [split; [exact Hv1 | exact Hs | exact Hd | exact Hb] | by apply image_cleared_inv].
Qed.

Lemma image_sort_inv m s : image_inv s → image_inv (update_sort_mode m s).
Proof.
  intros [Hv Hs Hd Hb]. split; [| exact Hs | exact Hd | exact Hb]. intros row. apply (image_listing_elem (set_sort_mode m s)).
Qed.

Lemma image_select_inv id s : image_inv s → image_inv (select id s).2.
Proof.
  intros Hi. pose proof Hi as [Hv Hs Hd Hb]. unfold select. destruct (image_exists s id) eqn:E; cbn [negb]; [| done].
  split; [exact Hv | by right | done | exact Hb].
Qed.

Lemma image_toggle_inv id s : image_inv s → image_inv (toggle_selection id s).2.
Proof.
  intros Hi. unfold toggle_selection. case_bool_decide; [apply image_cleared_inv; apply Hi |].
  pose proof (image_select_inv id s Hi) as H1. by destruct (select id s) as [[g|] s'].
Qed.

Lemma image_begin_inv id o s : image_inv s → image_inv (begin_operation id o s).2.
Proof.
  intros Hi. eapply image_inv_busy; [| | | | | exact Hi | apply busy_begin, Hi]; unfold begin_operation; by case_bool_decide.
Qed.

Lemma image_finish_inv id g s : image_inv s → image_inv (finish_operation id g s).2.
Proof.
  intros Hi. eapply image_inv_busy; [| | | | | exact Hi | apply busy_finish, Hi]; unfold finish_operation; by destruct (negb _).
Qed.

Lemma image_pull_inv r s : image_inv s → image_inv (begin_pull r s).2.
Proof.
  intros Hi. pose proof Hi as [Hv Hs Hd Hb]. unfold begin_pull. destruct (_ || _); [done |].
  split; [exact Hv | exact Hs | exact Hd |]. split; [apply Hb |]. cbn. by rewrite orb_true_r.
Qed.

Lemma image_pulled_inv g b s : image_inv s → image_inv (finish_pull g b s).2.
Proof.
  intros Hi. pose proof Hi as [Hv Hs Hd Hb]. unfold finish_pull. destruct (negb _); [done |].
  destruct b; (split; [exact Hv | exact Hs | exact Hd |]); (split; [apply Hb |]); cbn; by rewrite orb_false_r.
Qed.

Lemma image_export_inv id d s : image_inv s → image_inv (begin_export id d s).2.
Proof.
  intros Hi. pose proof Hi as [Hv Hs Hd Hb]. unfold begin_export. destruct (_ || _); [done |].
  split; [exact Hv | exact Hs | exact Hd |]. split; [apply Hb |]. cbn. by rewrite orb_true_r.
Qed.

Lemma image_exported_inv g s : image_inv s → image_inv (finish_export g s).2.
Proof.
  intros Hi. pose proof Hi as [Hv Hs Hd Hb]. unfold finish_export. destruct (negb _); [done |].
  split; [exact Hv | exact Hs | exact Hd |]. split; [apply Hb |]. cbn. by rewrite orb_false_r.
Qed.

Lemma image_refresh_inv s : image_inv s → image_inv (begin_refresh s).2.
Proof.
  intros [Hv Hs Hd Hb]. unfold begin_refresh. cbn [snd]. split; [exact Hv | exact Hs | done | exact Hb].
Qed.

Lemma image_failed_inv k m s :
  image_inv s → image_inv (set_status_text m (set_error_kind k (set_status Images_Error (clear_selection (set_visible_rows [] (set_source_rows [] s)))))).
Proof.
  intros Hi. split; [intros row Hr; by apply not_elem_of_nil in Hr | by left | by cbn |]. destruct (ii_busy s Hi) as [Hb1 Hb2]. split; [exact Hb1 | exact Hb2].
Qed.

Lemma image_list_error_inv g e s : image_inv s → image_inv (apply_list_error g e s).2.
Proof. intros Hi. unfold apply_list_error. destruct (negb _); [exact Hi |]. cbn [snd]. apply image_failed_inv, Hi. Qed.

Lemma image_progress_inv g p s : image_inv s → image_inv (apply_pull_progress g p s).2.
Proof.
  intros Hi. unfold apply_pull_progress. destruct (_ || _); [done |]. cbn [snd]. generalize (default (SFopp (f64_of 1)) (ipp_percent p)). intros pc.
  destruct Hi as [Hv Hs Hd Hb]. split; [exact Hv | exact Hs | exact Hd |]. destruct Hb as [Hb1 Hb2]. split; [exact Hb1 |]. cbn. exact Hb2.
Qed.

Lemma image_step_inv s op : image_inv s → image_inv (image_step s op).
Proof.
  intros Hi. pose proof Hi as [Hv Hs Hd Hb].
  destruct op as [| |now g l|g e|id arch|q|m|id|id| |now g d|g k m|id o|id g|id|r|g p|g b|id d|g]; cbn [image_step].
  - unfold initialize. destruct (initialized s); [done |]. split; [exact Hv | exact Hs | exact Hd | exact Hb].
  - by apply image_refresh_inv.
  - by apply image_list_inv.
  - by apply image_list_error_inv.
  - by apply image_patch_inv.
  - by apply image_search_inv.
  - by apply image_sort_inv.
  - by apply image_select_inv.
  - by apply image_toggle_inv.
  - by apply image_cleared_inv.
  - by apply image_detail_inv.
  - unfold apply_detail_error. destruct (negb _); [done |]. split; [exact Hv | exact Hs | done | exact Hb].
  - by apply image_begin_inv.
  - by apply image_finish_inv.
  - by apply image_removed_inv.
  - by apply image_pull_inv.
  - by apply image_progress_inv.
  - by apply image_pulled_inv.
  - by apply image_export_inv.
  - by apply image_exported_inv.
Qed.

Lemma image_run_inv ops : image_inv (image_run ops).
Proof.
  unfold image_run. assert (image_inv ImagesState_default) as Hi by (split; [by intros ? | by left | done | done]).
  generalize dependent ImagesState_default. induction ops as [|op ops IH]; intros s Hs; [done |]. apply IH. by apply image_step_inv.
Qed.

(** ** The list while no search is disturbed *)
Definition listed s : Prop := visible_rows s = image_listing s.

Lemma listed_patch id arch s : searching s = false → listed s → listed (patch_metadata id arch s).2.
Proof.
  unfold listed, searching. intros Hq%negb_false_iff Hl. cbn. rewrite Hl. unfold image_listing. cbn. rewrite Hq. symmetry. apply shown_fmap; [| done].
  intros a b. unfold patch_image. destruct (_ && _), (_ && _); destruct (sort_mode s); reflexivity.
Qed.

Lemma listed_step s op :
  match op with IPatch _ _ => searching s | _ => false end = false → listed s → listed (image_step s op).
Proof.
  intros Hc Hl. destruct op as [| |now g l|g e|id arch|q|m|id|id| |now g d|g k m|id o|id g|id|r|g p|g b|id d|g]; cbn [image_step].
  - unfold initialize. by destruct (initialized s).
  - done.
  - unfold apply_list. destruct (negb _); [done |]. cbn [snd]. set (s1 := set_error_kind _ _). assert (listed s1) as Hl1 by done. clearbody s1.
    assert (∀ s previous, listed s → listed (restore_after_refresh previous s)) as Hr.
    { intros s2 p Hl2. unfold restore_after_refresh. destruct (_ && _); [done |]. by destruct (match List.find _ _ with Some _ => _ | None => _ end). }
    destruct (negb _); [| by apply Hr]. destruct (preferred_row s1); [done | by apply Hr].
  - unfold apply_list_error. destruct (negb _); [done |]. reflexivity.
  - by apply listed_patch.
  - unfold update_search_query, restore_selection. by destruct (_ && _).
  - reflexivity.
  - unfold select. by destruct (negb _).
  - unfold toggle_selection, select. case_bool_decide; [done |]. by destruct (negb _).
  - done.
  - unfold apply_detail. destruct (_ || _); [done |]. reflexivity.
  - unfold apply_detail_error. by destruct (negb _).
  - unfold begin_operation. by case_bool_decide.
  - unfold finish_operation. by destruct (negb _).
  - unfold remove_local. set (s1 := rebuild_visible _). assert (listed s1) as Hl1 by done. clearbody s1. by case_bool_decide.
  - unfold begin_pull. by destruct (_ || _).
  - unfold apply_pull_progress. by destruct (_ || _).
  - unfold finish_pull. destruct (negb _); [done |]. by destruct b.
  - unfold begin_export. by destruct (_ || _).
  - unfold finish_export. by destruct (negb _).
Qed.

Lemma listed_run ops : calm ops = true → listed (image_run ops).
Proof.
  unfold calm, image_run. assert (listed ImagesState_default) as Hl by done. generalize dependent ImagesState_default.
  induction ops as [|op ops IH]; intros s Hl Hc; [done |]. apply andb_prop in Hc as [Hc%negb_true_iff Hcs].
  apply IH; [by apply listed_step | done].
Qed.

(** C20: The image page is always consistent.  After any sequence of user actions,
    refreshes, answers and failures, current or late: every shown row is a listed
    image, and the shown rows are exactly the matching images in the chosen order
    unless an architecture came from the background during a search; what is
    selected is still listed; a detail is shown only for the selected image, and
    exactly in the state ready; an image that is busy has a generation under which
    it will end; and the page reports work in progress exactly while an operation,
    a pull or an export is under way. *)
Theorem image_page_consistent ops :
  let s := image_run ops in
  (∀ row, row ∈ visible_rows s → row ∈ source_rows s)
  ∧ (calm ops = true → visible_rows s = image_listing s)
  ∧ (selected_image_id s ≠ [] → ∃ row, row ∈ source_rows s ∧ ir_image_id row = selected_image_id s)
  ∧ match detail s with
    | Some d => detail_status s = IDetail_Ready ∧ iv_image_id d = selected_image_id s
    | None => detail_status s ≠ IDetail_Ready
    end
  ∧ (∀ id, is_Some (busy s !! id) ↔ is_Some (busy_generations s !! id))
  ∧ (operation_in_progress s = true ↔ busy s ≠ ∅ ∨ pull_active (pull s) = true ∨ export_active (export s) = true).
Proof.
  intros s. destruct (image_run_inv ops) as [Hv Hs Hd [Hb1 Hb2]]. fold s in Hv, Hs, Hd, Hb1, Hb2. split_and!; [done | apply listed_run | | done | |].
  - intros Hne. destruct Hs as [?|Hex]; [done |]. by apply key_exists_spec.
  - intros id. by rewrite <- !elem_of_dom, Hb1.
  - rewrite Hb2, !orb_true_iff. unfold any_busy. rewrite negb_true_iff, bool_decide_eq_false. tauto.
Qed.
End runs.

(** An architecture that arrives during a search is shown on the rows there are,
    and does not bring in the image that matches now. *)
Lemma patch_leaves_search_stale {DF : DateFormat} {JT : JsonText} :
  let LC := {| to_lowercase := fun t => t |} in
  let summary := Build_ImageSummary (bytes "sha256:1") (bytes "1") [] [] (bytes "busybox") None 1 None None ∅ [] false in
  let s := image_run [IBeginRefresh; IList 0 1 [summary]; ISearch (bytes "arm64"); IPatch (bytes "sha256:1") (bytes "arm64")] in
  visible_rows s = [] ∧ length (image_listing s) = 1%nat.
Proof. vm_compute. done. Qed.
