(* ===== verification/LocalFiles.v ===== *)
(** The file page of the graphical interface
    (crates/gui/src/controllers/local_fuse_files.rs and
    models/local_fuse_file_model.rs): path tokens, rows, the state of the browser,
    and listing, previewing and saving files of the mount.

    Names are bytes.  The interface gets a token that spells every byte out and a
    label in which bytes that are not UTF-8 are replaced. *)

From S2P Require Import Prelude Path Numbers Text Utf8 Domain Compose Protocol Export PageFormat.

Local Open Scope Z_scope.

(** ** Kinds and columns *)
Inductive LocalFuseResourceRef := Ref_Container (value : text) | Ref_Image (value : text) | Ref_Volume (value : text).
#[export] Instance LocalFuseResourceRef_eq_dec : EqDecision LocalFuseResourceRef.
Proof. solve_decision. Defined.

Definition kind_name (self : LocalFuseResourceRef) : text :=
  match self with Ref_Container _ => bytes "container" | Ref_Image _ => bytes "image" | Ref_Volume _ => bytes "volume" end.
Definition resource_id (self : LocalFuseResourceRef) : text :=
  match self with Ref_Container value | Ref_Image value | Ref_Volume value => value end.

Inductive LocalFuseFilesState := Files_Idle | Files_Resolving | Files_Loading | Files_Ready | Files_Empty | Files_DaemonOffline
  | Files_FuseOffline | Files_DockerOffline | Files_ProviderUnavailable | Files_PermissionDenied | Files_IndexBuilding
  | Files_SnapshotBuilding | Files_Error.
#[export] Instance LocalFuseFilesState_eq_dec : EqDecision LocalFuseFilesState.
Proof. solve_decision. Defined.

Definition files_state_name (self : LocalFuseFilesState) : text :=
  match self with
  | Files_Idle => bytes "idle"
  | Files_Resolving => bytes "resolving"
  | Files_Loading => bytes "loading"
  | Files_Ready => bytes "ready"
  | Files_Empty => bytes "empty"
  | Files_DaemonOffline => bytes "daemon_offline"
  | Files_FuseOffline => bytes "fuse_offline"
  | Files_DockerOffline => bytes "docker_offline"
  | Files_ProviderUnavailable => bytes "provider_unavailable"
  | Files_PermissionDenied => bytes "permission_denied"
  | Files_IndexBuilding => bytes "index_building"
  | Files_SnapshotBuilding => bytes "snapshot_building"
  | Files_Error => bytes "error"
  end.

Inductive LocalFileSortColumn := Column_Name | Column_Modified | Column_Size | Column_Kind.
#[export] Instance LocalFileSortColumn_eq_dec : EqDecision LocalFileSortColumn.
Proof. solve_decision. Defined.

Definition column_parse (value : text) : LocalFileSortColumn :=
  let value := to_ascii_lowercase (trim value) in
  if bool_decide (value ∈ bytes <$> ["modified"; "mtime"; "date"]%string) then Column_Modified
  else if bool_decide (value = bytes "size") then Column_Size
  else if bool_decide (value ∈ bytes <$> ["kind"; "type"]%string) then Column_Kind
  else Column_Name.
Definition column_name (self : LocalFileSortColumn) : text :=
  match self with
  | Column_Name => bytes "name"
  | Column_Modified => bytes "modified"
  | Column_Size => bytes "size"
  | Column_Kind => bytes "kind"
  end.

Inductive LocalFileKind := Kind_Directory | Kind_RegularFile | Kind_Symlink | Kind_Socket | Kind_Fifo | Kind_BlockDevice
  | Kind_CharacterDevice | Kind_Unknown.
#[export] Instance LocalFileKind_eq_dec : EqDecision LocalFileKind.
Proof. solve_decision. Defined.

Definition file_kind_name (self : LocalFileKind) : text :=
  match self with
  | Kind_Directory => bytes "directory"
  | Kind_RegularFile => bytes "file"
  | Kind_Symlink => bytes "symlink"
  | Kind_Socket => bytes "socket"
  | Kind_Fifo => bytes "fifo"
  | Kind_BlockDevice => bytes "block_device"
  | Kind_CharacterDevice => bytes "character_device"
  | Kind_Unknown => bytes "unknown"
  end.
Definition is_directory (self : LocalFileKind) : bool := bool_decide (self = Kind_Directory).
Definition is_previewable (self : LocalFileKind) : bool :=
  match self with Kind_RegularFile | Kind_Symlink => true | _ => false end.
(** The derived order of the constructors. *)
Definition kind_rank (self : LocalFileKind) : Z :=
  match self with
  | Kind_Directory => 0
  | Kind_RegularFile => 1
  | Kind_Symlink => 2
  | Kind_Socket => 3
  | Kind_Fifo => 4
  | Kind_BlockDevice => 5
  | Kind_CharacterDevice => 6
  | Kind_Unknown => 7
  end.

Record LocalFileEntry := mkLocalFileEntry {
  le_name_raw : list byte;
  le_display_name : text;
  le_path_components : list (list byte);
  le_path_token : text;
  le_display_path : text;
  le_kind : LocalFileKind;
  le_size : Z;
  le_modified_unix_seconds : Z;
  le_mode : Z;
  le_uid : Z;
  le_gid : Z;
  le_hidden : bool;
  le_symlink_target_raw : option (list byte);
  le_symlink_target_display : text;
}.

(** ** Path tokens *)
Definition hex_digit (value : Z) : byte := if value <=? 9 then of_u8 (48 + value) else of_u8 (65 + value - 10).

Definition hex_value (value : byte) : option Z :=
  let v := u8 value in
  if in_range 48 57 v then Some (v - 48)
  else if in_range 97 102 v then Some (v - 97 + 10)
  else if in_range 65 70 v then Some (v - 65 + 10)
  else None.

Definition escape_byte (b : byte) : text :=
  ["%"%byte; hex_digit (Z.shiftr (u8 b) 4); hex_digit (Z.land (u8 b) 15)].

Definition encode_path_token (components : list (list byte)) : text :=
  if is_empty components then bytes "/"
  else concat (map (fun component => "/"%byte :: concat (map escape_byte component)) components).

Definition valid_component (value : list byte) : bool :=
  negb (is_empty value) && negb (bool_decide (value = bytes ".")) && negb (bool_decide (value = bytes ".."))
  && negb (bool_decide (x00 ∈ value)) && negb (bool_decide ("/"%byte ∈ value)).

(** The loop over chunks of three bytes. *)
Fixpoint decode_chunks (bs : list byte) : result text (list byte) :=
  match bs with
  | percent :: high :: low :: bs =>
      if negb (bool_decide (percent = "%"%byte)) then Err (bytes "path tokens must percent-encode every byte")
      else
        high ← ok_or (bytes "invalid path token escape") (hex_value high);
        low ← ok_or (bytes "invalid path token escape") (hex_value low);
        rest ← decode_chunks bs;
        Ok (of_u8 (Z.lor (Z.shiftl high 4) low) :: rest)
  | _ => Ok []
  end.

Definition decode_component (component : text) : result text (list byte) :=
  if is_empty component || negb (len component mod 3 =? 0) then Err (bytes "invalid path token component")
  else
    decoded ← decode_chunks component;
    if valid_component decoded then Ok decoded else Err (bytes "invalid path component").

(** [collect] of results: the first error. *)
Fixpoint collect_results {E A} (l : list (result E A)) : result E (list A) :=
  match l with [] => Ok [] | r :: l => a ← r; rest ← collect_results l; Ok (a :: rest) end.

Definition decode_path_token (token : text) : result text (list (list byte)) :=
  if bool_decide (token = bytes "/") then Ok []
  else if negb (starts_with token (bytes "/")) || bool_decide (list.last token = Some "/"%byte) then Err (bytes "invalid path token")
  else collect_results (map decode_component (split_on "/"%byte (drop 1 token))).

(** [PathBuf::push] of a relative path without a leading slash *)
Definition push_component (path : PathBuf) (component : list byte) : PathBuf :=
  (if bool_decide (list.last path = Some "/"%byte) || is_empty path then path else path ++ ["/"%byte]) ++ component.

Definition invalid_input (message : text) : IoError := {| io_permission_denied := false; io_message := message |}.

Fixpoint push_components (path : PathBuf) (components : list (list byte)) : result IoError PathBuf :=
  match components with
  | [] => Ok path
  | component :: components =>
      if negb (valid_component component) then Err (invalid_input (bytes "invalid local FUSE path component"))
      else push_components (push_component path component) components
  end.
Definition join_validated_components (root : PathBuf) (components : list (list byte)) : result IoError PathBuf :=
  if negb (starts_with root (bytes "/")) then Err (invalid_input (bytes "daemon resource path is not absolute"))
  else push_components root components.

(** ** Labels *)

Definition display_path (components : list (list byte)) : text :=
  if is_empty components then bytes "/" else concat (map (fun component => "/"%byte :: from_utf8_lossy component) components).

Definition ends_with (s suffix : text) : bool := starts_with (reverse s) (reverse suffix).
Definition ends_with_any (s : text) (suffixes : list string) : bool := existsb (fun x => ends_with s (bytes x)) suffixes.

Definition mime_hint (name : list byte) : text :=
  let lower := to_ascii_lowercase (from_utf8_lossy name) in
  if ends_with_any lower [".png"]%string then bytes "image/png"
  else if ends_with_any lower [".jpg"; ".jpeg"]%string then bytes "image/jpeg"
  else if ends_with_any lower [".gif"]%string then bytes "image/gif"
  else if ends_with_any lower [".svg"]%string then bytes "image/svg+xml"
  else if ends_with_any lower [".json"]%string then bytes "application/json"
  else if ends_with_any lower [".txt"; ".md"; ".log"; ".conf"; ".toml"; ".yaml"; ".yml"; ".xml"; ".csv"]%string then bytes "text/plain"
  else bytes "application/octet-stream".

(** ** Rows *)
Record LocalFuseFileRow := mkLocalFuseFileRow {
  lr_name : text;
  lr_path_token : text;
  lr_display_path : text;
  lr_entry_type : text;
  lr_icon_name : text;
  lr_size_bytes : Z;
  lr_size_text : text;
  lr_modified_text : text;
  lr_kind_text : text;
  lr_hidden : bool;
  lr_readable : bool;
  lr_symlink_target : text;
  lr_mode_text : text;
  lr_owner_text : text;
}.

(** [DateTime::from_timestamp] *)
Class Timestamps := { from_timestamp : Z → option DateTime }.

Definition icon_for_name (name : text) : text :=
  let lower := to_ascii_lowercase name in
  if ends_with_any lower [".json"]%string then bytes "application-json"
  else if ends_with_any lower [".png"; ".jpg"; ".jpeg"; ".gif"; ".webp"; ".svg"]%string then bytes "image-x-generic"
  else if ends_with_any lower [".zip"; ".tar"; ".gz"; ".xz"; ".7z"]%string then bytes "package-x-generic"
  else if ends_with_any lower [".sh"; ".bin"]%string then bytes "application-x-executable"
  else bytes "text-x-generic".
Definition icon_name (entry : LocalFileEntry) : text :=
  match le_kind entry with
  | Kind_Directory => bytes "folder"
  | Kind_Symlink => bytes "emblem-symbolic-link"
  | Kind_Socket => bytes "network-server"
  | Kind_Fifo => bytes "inode-fifo"
  | Kind_BlockDevice | Kind_CharacterDevice => bytes "drive-harddisk"
  | Kind_Unknown => bytes "unknown"
  | Kind_RegularFile => icon_for_name (le_display_name entry)
  end.

Definition file_kind_text (name : text) : text :=
  let lower := to_ascii_lowercase name in
  if ends_with_any lower [".json"]%string then bytes "JSON Document"
  else if ends_with_any lower [".png"]%string then bytes "PNG Image"
  else if ends_with_any lower [".jpg"; ".jpeg"]%string then bytes "JPEG Image"
  else if ends_with_any lower [".gif"]%string then bytes "GIF Image"
  else if ends_with_any lower [".svg"]%string then bytes "SVG Image"
  else if ends_with_any lower [".txt"; ".log"; ".md"]%string then bytes "Text Document"
  else bytes "File".
Definition right_arrow : text := [of_u8 0xE2; of_u8 0x86; of_u8 0x92].
Definition kind_text (entry : LocalFileEntry) : text :=
  match le_kind entry with
  | Kind_Directory => bytes "Folder"
  | Kind_RegularFile => file_kind_text (le_display_name entry)
  | Kind_Symlink =>
      if is_empty (le_symlink_target_display entry) then bytes "Symbolic Link"
      else bytes "Symbolic Link " ++ right_arrow ++ bytes " " ++ le_symlink_target_display entry
  | Kind_Socket => bytes "Socket"
  | Kind_Fifo => bytes "FIFO"
  | Kind_BlockDevice => bytes "Block Device"
  | Kind_CharacterDevice => bytes "Character Device"
  | Kind_Unknown => bytes "Unknown"
  end.

Definition mode_char (bits mask : Z) (c : byte) : byte := if Z.land bits mask =? 0 then "-"%byte else c.
Definition symbolic_mode (mode : Z) : text :=
  concat (map (fun shift =>
    let bits := Z.land (Z.shiftr mode shift) 7 in
    [mode_char bits 4 "r"%byte; mode_char bits 2 "w"%byte; mode_char bits 1 "x"%byte]) [6; 3; 0]).

(** ["{:04o}"] of a number below 8^4 *)
Definition octal4 (n : Z) : text := (fun shift => of_u8 (48 + Z.land (Z.shiftr n shift) 7)) <$> [9; 6; 3; 0].

Section rows.
Context {DF : DateFormat} {TS : Timestamps}.

Definition format_modified (unix_seconds : Z) : text := from_option format_minute (bytes "Unknown") (from_timestamp unix_seconds).

Definition map_local_fuse_row (entry : LocalFileEntry) : LocalFuseFileRow :=
  mkLocalFuseFileRow (le_display_name entry) (le_path_token entry) (le_display_path entry) (file_kind_name (le_kind entry)) (icon_name entry)
    (Z.min (le_size entry) i64_max) (if is_directory (le_kind entry) then dash else format_bytes (le_size entry))
    (format_modified (le_modified_unix_seconds entry)) (kind_text entry) (le_hidden entry)
    (is_previewable (le_kind entry) || is_directory (le_kind entry)) (le_symlink_target_display entry)
    (octal4 (Z.land (le_mode entry) 4095) ++ bytes " (" ++ symbolic_mode (le_mode entry) ++ bytes ")")
    (u64_to_string (le_uid entry) ++ bytes ":" ++ u64_to_string (le_gid entry)).
End rows.

(** ** The browser *)
(** A [LocalFuseResourcePath] is its root. *)
Record LocalFuseFilesController := mkLocalFuseFilesController {
  lc_state : LocalFuseFilesState;
  lc_active : bool;
  lc_resource : option LocalFuseResourceRef;
  lc_resource_path : option PathBuf;
  lc_current_components : list (list byte);
  lc_history : list (list (list byte));
  lc_show_hidden : bool;
  lc_search_query : text;
  lc_sort_column : LocalFileSortColumn;
  lc_sort_descending : bool;
  lc_entries : list LocalFileEntry;
  lc_selected_token : option text;
  lc_error_kind : text;
  lc_error_message : text;
  lc_generation : Z;
}.

Definition set_lc_state (v : LocalFuseFilesState) (self : LocalFuseFilesController) : LocalFuseFilesController :=
  mkLocalFuseFilesController v (lc_active self) (lc_resource self) (lc_resource_path self)
    (lc_current_components self) (lc_history self) (lc_show_hidden self) (lc_search_query self)
    (lc_sort_column self) (lc_sort_descending self) (lc_entries self) (lc_selected_token self)
    (lc_error_kind self) (lc_error_message self) (lc_generation self).
Definition set_lc_active (v : bool) (self : LocalFuseFilesController) : LocalFuseFilesController :=
  mkLocalFuseFilesController (lc_state self) v (lc_resource self) (lc_resource_path self)
    (lc_current_components self) (lc_history self) (lc_show_hidden self) (lc_search_query self)
    (lc_sort_column self) (lc_sort_descending self) (lc_entries self) (lc_selected_token self)
    (lc_error_kind self) (lc_error_message self) (lc_generation self).
Definition set_lc_resource (v : option LocalFuseResourceRef) (self : LocalFuseFilesController) : LocalFuseFilesController :=
  mkLocalFuseFilesController (lc_state self) (lc_active self) v (lc_resource_path self)
    (lc_current_components self) (lc_history self) (lc_show_hidden self) (lc_search_query self)
    (lc_sort_column self) (lc_sort_descending self) (lc_entries self) (lc_selected_token self)
    (lc_error_kind self) (lc_error_message self) (lc_generation self).
Definition set_lc_resource_path (v : option PathBuf) (self : LocalFuseFilesController) : LocalFuseFilesController :=
  mkLocalFuseFilesController (lc_state self) (lc_active self) (lc_resource self) v (lc_current_components self)
    (lc_history self) (lc_show_hidden self) (lc_search_query self) (lc_sort_column self)
    (lc_sort_descending self) (lc_entries self) (lc_selected_token self) (lc_error_kind self)
    (lc_error_message self) (lc_generation self).
Definition set_lc_current_components (v : list (list byte)) (self : LocalFuseFilesController) : LocalFuseFilesController :=
  mkLocalFuseFilesController (lc_state self) (lc_active self) (lc_resource self) (lc_resource_path self) v
    (lc_history self) (lc_show_hidden self) (lc_search_query self) (lc_sort_column self)
    (lc_sort_descending self) (lc_entries self) (lc_selected_token self) (lc_error_kind self)
    (lc_error_message self) (lc_generation self).
Definition set_lc_history (v : list (list (list byte))) (self : LocalFuseFilesController) : LocalFuseFilesController :=
  mkLocalFuseFilesController (lc_state self) (lc_active self) (lc_resource self) (lc_resource_path self)
    (lc_current_components self) v (lc_show_hidden self) (lc_search_query self) (lc_sort_column self)
    (lc_sort_descending self) (lc_entries self) (lc_selected_token self) (lc_error_kind self)
    (lc_error_message self) (lc_generation self).
Definition set_lc_show_hidden (v : bool) (self : LocalFuseFilesController) : LocalFuseFilesController :=
  mkLocalFuseFilesController (lc_state self) (lc_active self) (lc_resource self) (lc_resource_path self)
    (lc_current_components self) (lc_history self) v (lc_search_query self) (lc_sort_column self)
    (lc_sort_descending self) (lc_entries self) (lc_selected_token self) (lc_error_kind self)
    (lc_error_message self) (lc_generation self).
Definition set_lc_search_query (v : text) (self : LocalFuseFilesController) : LocalFuseFilesController :=
  mkLocalFuseFilesController (lc_state self) (lc_active self) (lc_resource self) (lc_resource_path self)
    (lc_current_components self) (lc_history self) (lc_show_hidden self) v (lc_sort_column self)
    (lc_sort_descending self) (lc_entries self) (lc_selected_token self) (lc_error_kind self)
    (lc_error_message self) (lc_generation self).
Definition set_lc_sort_column (v : LocalFileSortColumn) (self : LocalFuseFilesController) : LocalFuseFilesController :=
  mkLocalFuseFilesController (lc_state self) (lc_active self) (lc_resource self) (lc_resource_path self)
    (lc_current_components self) (lc_history self) (lc_show_hidden self) (lc_search_query self) v
    (lc_sort_descending self) (lc_entries self) (lc_selected_token self) (lc_error_kind self)
    (lc_error_message self) (lc_generation self).
Definition set_lc_sort_descending (v : bool) (self : LocalFuseFilesController) : LocalFuseFilesController :=
  mkLocalFuseFilesController (lc_state self) (lc_active self) (lc_resource self) (lc_resource_path self)
    (lc_current_components self) (lc_history self) (lc_show_hidden self) (lc_search_query self)
    (lc_sort_column self) v (lc_entries self) (lc_selected_token self) (lc_error_kind self)
    (lc_error_message self) (lc_generation self).
Definition set_lc_entries (v : list LocalFileEntry) (self : LocalFuseFilesController) : LocalFuseFilesController :=
  mkLocalFuseFilesController (lc_state self) (lc_active self) (lc_resource self) (lc_resource_path self)
    (lc_current_components self) (lc_history self) (lc_show_hidden self) (lc_search_query self)
    (lc_sort_column self) (lc_sort_descending self) v (lc_selected_token self) (lc_error_kind self)
    (lc_error_message self) (lc_generation self).
Definition set_lc_selected_token (v : option text) (self : LocalFuseFilesController) : LocalFuseFilesController :=
  mkLocalFuseFilesController (lc_state self) (lc_active self) (lc_resource self) (lc_resource_path self)
    (lc_current_components self) (lc_history self) (lc_show_hidden self) (lc_search_query self)
    (lc_sort_column self) (lc_sort_descending self) (lc_entries self) v (lc_error_kind self)
    (lc_error_message self) (lc_generation self).
Definition set_lc_error_kind (v : text) (self : LocalFuseFilesController) : LocalFuseFilesController :=
  mkLocalFuseFilesController (lc_state self) (lc_active self) (lc_resource self) (lc_resource_path self)
    (lc_current_components self) (lc_history self) (lc_show_hidden self) (lc_search_query self)
    (lc_sort_column self) (lc_sort_descending self) (lc_entries self) (lc_selected_token self) v
    (lc_error_message self) (lc_generation self).
Definition set_lc_error_message (v : text) (self : LocalFuseFilesController) : LocalFuseFilesController :=
  mkLocalFuseFilesController (lc_state self) (lc_active self) (lc_resource self) (lc_resource_path self)
    (lc_current_components self) (lc_history self) (lc_show_hidden self) (lc_search_query self)
    (lc_sort_column self) (lc_sort_descending self) (lc_entries self) (lc_selected_token self)
    (lc_error_kind self) v (lc_generation self).
Definition set_lc_generation (v : Z) (self : LocalFuseFilesController) : LocalFuseFilesController :=
  mkLocalFuseFilesController (lc_state self) (lc_active self) (lc_resource self) (lc_resource_path self)
    (lc_current_components self) (lc_history self) (lc_show_hidden self) (lc_search_query self)
    (lc_sort_column self) (lc_sort_descending self) (lc_entries self) (lc_selected_token self)
    (lc_error_kind self) (lc_error_message self) v.
Definition LocalFuseFilesController_default : LocalFuseFilesController :=
  mkLocalFuseFilesController Files_Idle false None None [] [] false [] Column_Name false [] None [] [] 0.

Record Breadcrumb := mkBreadcrumb { bc_label : text; bc_path_token : text }.

Section browser.
Context {LC : Lowercase}.
Implicit Types self s : LocalFuseFilesController.

Definition compare_names : LocalFileEntry → LocalFileEntry → comparison :=
  cmp_then (cmp_by (fun e => to_lowercase (le_display_name e)) bytes_cmp) (cmp_by le_name_raw bytes_cmp).

Definition primary_cmp (column : LocalFileSortColumn) : LocalFileEntry → LocalFileEntry → comparison :=
  match column with
  | Column_Name => compare_names
  | Column_Modified => cmp_by le_modified_unix_seconds Z.compare
  | Column_Size => cmp_by le_size Z.compare
  | Column_Kind => cmp_by (fun e => kind_rank (le_kind e)) Z.compare
  end.

Definition compare_entries self : LocalFileEntry → LocalFileEntry → comparison :=
  let ordering := cmp_then (primary_cmp (lc_sort_column self)) compare_names in
  cmp_then (cmp_rev (cmp_by (fun e => is_directory (le_kind e)) bool_cmp))
    (if lc_sort_descending self then cmp_rev ordering else ordering).

Definition entry_shown self (entry : LocalFileEntry) : bool :=
  let query := to_lowercase (lc_search_query self) in
  (lc_show_hidden self || negb (le_hidden entry))
  && (is_empty query || str_contains (to_lowercase (le_display_name entry)) query
      || str_contains (to_lowercase (le_display_path entry)) query).

Definition visible_entries self : list LocalFileEntry :=
  sort_by (compare_entries self) (List.filter (entry_shown self) (lc_entries self)).

Definition update_content_state self : LocalFuseFilesController :=
  match lc_state self with
  | Files_Ready | Files_Empty => set_lc_state (if is_empty (visible_entries self) then Files_Empty else Files_Ready) self
  | _ => self
  end.

Definition clear_error self : LocalFuseFilesController := set_lc_error_message [] (set_lc_error_kind [] self).
Definition next_generation self : LocalFuseFilesController := set_lc_generation (wrapping_add 64 (lc_generation self) 1) self.

Definition set_active (active : bool) self : LocalFuseFilesController := set_lc_active active self.

(** The folder is left: the search, the entries and the selection go. *)
Definition leave_folder self : LocalFuseFilesController :=
  set_lc_selected_token None (set_lc_entries [] (set_lc_search_query [] self)).
(** What [select_resource] and [clear_resource] have in common. *)
Definition reset_resource (resource : option LocalFuseResourceRef) (state : LocalFuseFilesState) self : LocalFuseFilesController :=
  let self := set_lc_resource_path None (set_lc_resource resource (next_generation self)) in
  let self := leave_folder (set_lc_history [] (set_lc_current_components [] self)) in
  set_lc_state state (clear_error self).

Definition select_resource (resource : LocalFuseResourceRef) self : bool * LocalFuseFilesController :=
  if bool_decide (lc_resource self = Some resource) then (false, self)
  else (true, reset_resource (Some resource) Files_Resolving self).
Definition clear_resource self : LocalFuseFilesController := reset_resource None Files_Idle self.

Definition begin_resolve self : option (Z * LocalFuseResourceRef) * LocalFuseFilesController :=
  match lc_resource self with
  | None => (None, self)
  | Some resource =>
      let self := set_lc_state Files_Resolving (clear_error (next_generation self)) in
      (Some (lc_generation self, resource), self)
  end.

Definition apply_resource_path (generation : Z) (resource_path : PathBuf) self : bool * LocalFuseFilesController :=
  if negb (generation =? lc_generation self) then (false, self)
  else (true, set_lc_state Files_Loading (set_lc_resource_path (Some resource_path) self)).

Definition begin_list self : option (Z * PathBuf * list (list byte)) * LocalFuseFilesController :=
  match lc_resource_path self with
  | None => (None, self)
  | Some root =>
      let self := set_lc_state Files_Loading (clear_error (next_generation self)) in
      (Some (lc_generation self, root, lc_current_components self), self)
  end.

Definition apply_entries (generation : Z) (entries : list LocalFileEntry) self : bool * LocalFuseFilesController :=
  if negb (generation =? lc_generation self) then (false, self)
  else (true, update_content_state (set_lc_selected_token None (set_lc_entries entries self))).

Definition show_error (state : LocalFuseFilesState) (kind message : text) self : LocalFuseFilesController :=
  set_lc_selected_token None (set_lc_entries [] (set_lc_error_message message (set_lc_error_kind kind (set_lc_state state self)))).
Definition apply_error (generation : Z) (state : LocalFuseFilesState) (kind message : text) self : bool * LocalFuseFilesController :=
  if negb (generation =? lc_generation self) then (false, self) else (true, show_error state kind message self).
Definition set_external_state (state : LocalFuseFilesState) (kind message : text) self : LocalFuseFilesController :=
  show_error state kind message (next_generation self).

Definition can_go_back self : bool := negb (is_empty (lc_history self)).
Definition can_go_up self : bool := negb (is_empty (lc_current_components self)).

Definition navigate_to_token (token : text) (push_history : bool) self : bool * LocalFuseFilesController :=
  match decode_path_token token with
  | Ok components =>
      if bool_decide (components = lc_current_components self) then (false, self)
      else
        let self := if push_history then set_lc_history (lc_history self ++ [lc_current_components self]) self else self in
        (true, leave_folder (set_lc_current_components components self))
  | _ => (false, self)
  end.

Definition go_back self : bool * LocalFuseFilesController :=
  match list.last (lc_history self) with
  | None => (false, self)
  | Some previous =>
      (true, leave_folder (set_lc_current_components previous (set_lc_history (removelast (lc_history self)) self)))
  end.

Definition go_up self : bool * LocalFuseFilesController :=
  if is_empty (lc_current_components self) then (false, self)
  else
    let self := set_lc_history (lc_history self ++ [lc_current_components self]) self in
    (true, leave_folder (set_lc_current_components (removelast (lc_current_components self)) self)).

Definition set_show_hidden (show : bool) self : LocalFuseFilesController := update_content_state (set_lc_show_hidden show self).
Definition set_search (query : text) self : LocalFuseFilesController := update_content_state (set_lc_search_query (trim query) self).
Definition toggle_sort (column : LocalFileSortColumn) self : LocalFuseFilesController :=
  if bool_decide (lc_sort_column self = column) then set_lc_sort_descending (negb (lc_sort_descending self)) self
  else set_lc_sort_descending false (set_lc_sort_column column self).

Definition select_token (token : option text) self : LocalFuseFilesController :=
  set_lc_selected_token
    (match token with Some value => if key_exists le_path_token value (lc_entries self) then Some value else None | None => None end) self.
Definition entry self (token : text) : option LocalFileEntry :=
  List.find (fun e => bool_decide (le_path_token e = token)) (lc_entries self).

Definition current_display_path self : text := display_path (lc_current_components self).

(** A breadcrumb for each non-empty prefix of the path, after the root's. *)
Fixpoint breadcrumbs_loop (components rest : list (list byte)) : list Breadcrumb :=
  match rest with
  | [] => []
  | component :: rest =>
      let components := components ++ [component] in
      mkBreadcrumb (from_utf8_lossy component) (encode_path_token components) :: breadcrumbs_loop components rest
  end.
Definition breadcrumbs self : list Breadcrumb :=
  mkBreadcrumb (bytes "/") (bytes "/") :: breadcrumbs_loop [] (lc_current_components self).

Definition local_path_for_components self (components : list (list byte)) : option PathBuf :=
  match lc_resource_path self with
  | None => None
  | Some root => match join_validated_components root components with Ok path => Some path | _ => None end
  end.
Definition local_path_for_token self (token : text) : option PathBuf :=
  match decode_path_token token with Ok components => local_path_for_components self components | _ => None end.
End browser.

(** ** Local files

    The calls of the file system on the mount.  An open file is its metadata and
    what its reads deliver, one after the other, until its end. *)
Inductive FileType := FT_Dir | FT_File | FT_Symlink | FT_Socket | FT_Fifo | FT_BlockDevice | FT_CharDevice | FT_Other.
#[export] Instance FileType_eq_dec : EqDecision FileType.
Proof. solve_decision. Defined.
Record LocalMetadata := mkLocalMetadata {
  lm_type : FileType; lm_len : Z; lm_mtime : Z; lm_mode : Z; lm_uid : Z; lm_gid : Z;
}.
Record OpenFile := mkOpenFile { of_metadata : LocalMetadata; of_reads : list (IoError + list byte) }.

Class LocalFs (W : Type) := {
  local_metadata : list Component → W → result IoError LocalMetadata;
  local_symlink_metadata : PathBuf → W → result IoError LocalMetadata;
  local_read_link : PathBuf → W → result IoError (list byte);
  local_read_dir : PathBuf → W → result IoError (list (IoError + list byte));
  local_open : PathBuf → W → result IoError OpenFile;
  next_part : W → Z * W;   (* [PART_SEQUENCE] *)
}.

Definition local_kind (file_type : FileType) : LocalFileKind :=
  match file_type with
  | FT_Dir => Kind_Directory
  | FT_File => Kind_RegularFile
  | FT_Symlink => Kind_Symlink
  | FT_Socket => Kind_Socket
  | FT_Fifo => Kind_Fifo
  | FT_BlockDevice => Kind_BlockDevice
  | FT_CharDevice => Kind_CharacterDevice
  | FT_Other => Kind_Unknown
  end.

Definition ok {E A} (r : result E A) : option A := match r with Ok a => Some a | _ => None end.

Record PreviewResult := mkPreviewResult { pr_bytes : list byte; pr_file_size : Z; pr_truncated : bool; pr_mime_hint : text }.
Definition PREVIEW_LIMIT : Z := 1024 * 1024.

(** [take(limit).read_to_end]: a read of nothing is the end. *)
Fixpoint read_to_end (limit : nat) (reads : list (IoError + list byte)) : result IoError (list byte) :=
  match limit, reads with
  | O, _ | _, [] => Ok []
  | _, inl error :: _ => Err error
  | _, inr data :: reads =>
      if is_empty data then Ok []
      else rest ← read_to_end (limit - length data) reads; Ok (take limit data ++ rest)
  end.

Section local_io.
Context {W : Type} {LF : LocalFs W}.

Definition local_entry (directory : PathBuf) (components : list (list byte)) (raw : list byte) (w : W) : result IoError LocalFileEntry :=
  let path_components := components ++ [raw] in
  let path := push_component directory raw in
  metadata ← local_symlink_metadata path w;
  let kind := local_kind (lm_type metadata) in
  let target := if bool_decide (kind = Kind_Symlink) then ok (local_read_link path w) else None in
  Ok (mkLocalFileEntry raw (from_utf8_lossy raw) path_components (encode_path_token path_components) (display_path path_components)
        kind (lm_len metadata) (lm_mtime metadata) (lm_mode metadata) (lm_uid metadata) (lm_gid metadata)
        (bool_decide (head raw = Some "."%byte)) target (from_option from_utf8_lossy [] target)).

Fixpoint read_entries (directory : PathBuf) (components : list (list byte)) (items : list (IoError + list byte)) (w : W)
  : result IoError (list LocalFileEntry) :=
  match items with
  | [] => Ok []
  | inl error :: _ => Err error
  | inr raw :: items =>
      if negb (valid_component raw) then read_entries directory components items w
      else
        e ← local_entry directory components raw w;
        rest ← read_entries directory components items w;
        Ok (e :: rest)
  end.

Definition read_local_directory (root : PathBuf) (components : list (list byte)) (w : W) : result IoError (list LocalFileEntry) :=
  directory ← join_validated_components root components;
  items ← local_read_dir directory w;
  read_entries directory components items w.

Definition preview_local_file (path : PathBuf) (name_raw : list byte) (w : W) : result IoError PreviewResult :=
  file ← local_open path w;
  if negb (bool_decide (lm_type (of_metadata file) = FT_File)) then Err (invalid_input (bytes "only regular files can be previewed"))
  else
    data ← read_to_end (Z.to_nat (saturating_add u64_max PREVIEW_LIMIT 1)) (of_reads file);
    Ok (mkPreviewResult (take (Z.to_nat PREVIEW_LIMIT) data) (lm_len (of_metadata file)) (PREVIEW_LIMIT <? len data) (mime_hint name_raw)).
End local_io.

(** *** Saving a file *)
Section save.
Context {W : Type} {LF : LocalFs W} {EF : ExportFs W}.

Definition save_cancelled : IoError := {| io_permission_denied := false; io_message := bytes "save cancelled" |}.

(** The copying loop; [cancel] is the number of reads after which a cancellation
    is seen, if one is.  A read of nothing is the end. *)
Fixpoint copy_loop (part : list Component) (reads : list (IoError + list byte)) (cancel : option nat) (copied : Z) (w : W)
  : result IoError Z * W :=
  match cancel with
  | Some O => (Err save_cancelled, w)
  | _ =>
      match reads with
      | [] => (Ok copied, w)
      | inl error :: _ => (Err error, w)
      | inr data :: reads =>
          if is_empty data then (Ok copied, w)
          else
            match fs_write_all part data w with
            | (Some error, w) => (Err error, w)
            | (None, w) => copy_loop part reads (pred <$> cancel) (saturating_add u64_max copied (len data)) w
            end
      end
  end.

(** The block whose failure is followed by the removal of the part file;
    [cancelled] is what [is_cancelled] answers at its end. *)
Definition copy_to (source : PathBuf) (part destination : list Component) (cancel : option nat) (cancelled : bool) (w : W)
  : result IoError Z * W :=
  match local_open source w with
  | Err error => (Err error, w)
  | Panic site => (Panic site, w)
  | Ok input =>
      if negb (bool_decide (lm_type (of_metadata input) = FT_File)) then (Err (invalid_input (bytes "only regular files can be saved")), w)
      else
        match fs_create_new part w with
        | (Some error, w) => (Err error, w)
        | (None, w) =>
            match copy_loop part (of_reads input) cancel 0 w with
            | (Ok copied, w) =>
                match fs_flush part w with
                | (Some error, w) => (Err error, w)
                | (None, w) =>
                    match fs_sync_all part w with
                    | (Some error, w) => (Err error, w)
                    | (None, w) =>
                        if cancelled then (Err save_cancelled, w)
                        else
                          match fs_rename part destination w with
                          | (Some error, w) => (Err error, w)
                          | (None, w) => (Ok copied, w)
                          end
                    end
                end
            | failed => failed
            end
        end
  end.

(** [nanos] is the time in hexadecimal. *)
Definition part_name (name : text) (pid : Z) (nanos : text) (sequence : Z) : text :=
  name ++ bytes ".tuxstack-" ++ u64_to_string pid ++ bytes "-" ++ nanos ++ bytes "-" ++ u64_to_string sequence ++ bytes ".part".

(** [Path::with_file_name] replaces the last component if it is a name, and else
    adds one. *)
Definition with_file_name (path : list Component) (name : text) : list Component :=
  match file_name path with Some _ => take (length path - 1) path | None => path end ++ [Normal name].

Definition copy_local_file_atomic_cancellable (source destination : PathBuf) (nanos : text) (cancel : option nat) (cancelled : bool)
  (w : W) : result IoError Z * W :=
  let dest := path_components destination in
  match parent dest with
  | None => (Err (invalid_input (bytes "destination has no parent folder")), w)
  | Some up =>
      match local_metadata up w with
      | Err error => (Err error, w)
      | Panic site => (Panic site, w)
      | Ok metadata =>
          if negb (bool_decide (lm_type metadata = FT_Dir)) then (Err (invalid_input (bytes "destination parent is not a folder")), w)
          else
            let '(sequence, w) := next_part w in
            let part := with_file_name dest (part_name (default (bytes "tuxstack-save") (file_name dest)) (process_id w) nanos sequence) in
            match copy_to source part dest cancel cancelled w with
            | (Ok copied, w) => (Ok copied, w)
            | (failed, w) => (failed, snd (fs_remove_file part w))
            end
      end
  end.
End save.

(** ** Tokens name paths *)

(** [to_ascii_uppercase] *)
Definition ascii_upper (b : byte) : byte := if in_range 97 122 (u8 b) then of_u8 (u8 b - 32) else b.
Definition to_ascii_uppercase (s : text) : text := ascii_upper <$> s.

(** A check of all bytes. *)
Lemma check_bytes (P : byte → bool) : forallb (fun n => P (of_u8 (Z.of_nat n))) (seq 0 256) = true → ∀ b, P b = true.
Proof.
  intros H b. rewrite forallb_forall in H. pose proof (u8_range b). specialize (H (Z.to_nat (u8 b)) ltac:(apply in_seq; lia)).
  by rewrite Z2Nat.id, u8_of_u8 in H by lia.
Qed.

Definition escape_check (b : byte) : bool :=
  match hex_value (hex_digit (Z.shiftr (u8 b) 4)), hex_value (hex_digit (Z.land (u8 b) 15)) with
  | Some h, Some l =>
      (h =? Z.shiftr (u8 b) 4) && (l =? Z.land (u8 b) 15) && (u8 (of_u8 (Z.lor (Z.shiftl h 4) l)) =? u8 b)
      && negb (existsb (fun c => u8 c =? 47) (escape_byte b))
  | _, _ => false
  end.
Lemma escape_checked b : escape_check b = true.
Proof. apply check_bytes. vm_compute. reflexivity. Qed.

Lemma escape_hex b :
  hex_value (hex_digit (Z.shiftr (u8 b) 4)) = Some (Z.shiftr (u8 b) 4) ∧ hex_value (hex_digit (Z.land (u8 b) 15)) = Some (Z.land (u8 b) 15)
  ∧ of_u8 (Z.lor (Z.shiftl (Z.shiftr (u8 b) 4) 4) (Z.land (u8 b) 15)) = b ∧ "/"%byte ∉ escape_byte b.
Proof.
  pose proof (escape_checked b) as H. unfold escape_check in H. destruct (hex_value _) as [h|] eqn:Eh; [| done].
  destruct (hex_value (hex_digit (Z.land _ _))) as [l|] eqn:El; [| done].
  apply andb_prop in H as [[[->%Z.eqb_eq ->%Z.eqb_eq]%andb_prop H3%Z.eqb_eq]%andb_prop H4%negb_true_iff].
  split_and!; [done | done | by apply u8_inj |].
  intros Hin. apply not_true_iff_false in H4. apply H4, existsb_exists. exists "/"%byte. split; [by apply list_elem_of_In | done].
Qed.

Definition hex_check (b : byte) : bool :=
  match hex_value b with Some v => (u8 (hex_digit v) =? u8 (ascii_upper b)) && (0 <=? v) && (v <? 16) | None => true end.
Lemma hex_checked b : hex_check b = true.
Proof. apply check_bytes. vm_compute. reflexivity. Qed.

Lemma hex_value_upper b v : hex_value b = Some v → hex_digit v = ascii_upper b ∧ 0 ≤ v < 16.
Proof.
  intros Hv. pose proof (hex_checked b) as H. unfold hex_check in H. rewrite Hv in H.
  apply andb_prop in H as [[H1%Z.eqb_eq%u8_inj H2]%andb_prop H3]. split; [done | lia].
Qed.

Lemma nibbles h l :
  0 ≤ h < 16 → 0 ≤ l < 16 →
  Z.shiftr (u8 (of_u8 (Z.lor (Z.shiftl h 4) l))) 4 = h ∧ Z.land (u8 (of_u8 (Z.lor (Z.shiftl h 4) l))) 15 = l.
Proof.
  assert (forallb (fun h => forallb (fun l =>
    let b := u8 (of_u8 (Z.lor (Z.shiftl (Z.of_nat h) 4) (Z.of_nat l))) in
    (Z.shiftr b 4 =? Z.of_nat h) && (Z.land b 15 =? Z.of_nat l)) (seq 0 16)) (seq 0 16) = true) as H by (vm_compute; reflexivity).
  intros Hh Hl. rewrite forallb_forall in H. specialize (H (Z.to_nat h)). rewrite forallb_forall in H by (apply in_seq; lia).
  specialize (H ltac:(apply in_seq; lia) (Z.to_nat l) ltac:(apply in_seq; lia)). cbn zeta in H. rewrite !Z2Nat.id in H by lia.
  apply andb_prop in H as [H1%Z.eqb_eq H2%Z.eqb_eq]. done.
Qed.

Lemma decode_chunks_escape bs : decode_chunks (concat (map escape_byte bs)) = Ok bs.
Proof.
  induction bs as [|b bs IH]; [done |]. destruct (escape_hex b) as (H1 & H2 & H3 & _).
  cbn [map concat]. unfold escape_byte at 1. cbn [app decode_chunks]. rewrite bool_decide_eq_true_2 by done. cbn [negb].
  rewrite H1, H2, IH. cbn. by rewrite H3.
Qed.

Lemma escape_length bs : len (concat (map escape_byte bs)) = 3 * len bs.
Proof.
  induction bs as [|b bs IH]; [done |]. cbn [map concat]. rewrite len_app, IH. unfold len. cbn [length escape_byte]. lia.
Qed.

Lemma escape_no_slash bs : "/"%byte ∉ concat (map escape_byte bs).
Proof.
  induction bs as [|b bs IH]; cbn [map concat]; [set_solver |]. destruct (escape_hex b) as (_ & _ & _ & H4).
  clear -IH H4. set_solver.
Qed.

Lemma decode_component_escape c : valid_component c = true → decode_component (concat (map escape_byte c)) = Ok c.
Proof.
  intros Hc. unfold decode_component. rewrite decode_chunks_escape, escape_length. cbn. rewrite Hc.
  replace (3 * len c) with (len c * 3) by lia. rewrite Z_mod_mult. destruct c as [|b c]; [done |]. reflexivity.
Qed.

Lemma decode_chunks_upper bs decoded :
  len bs mod 3 = 0 → decode_chunks bs = Ok decoded → concat (map escape_byte decoded) = to_ascii_uppercase bs.
Proof.
  revert decoded. induction bs as [bs IH] using (induction_ltof1 _ length). unfold ltof in IH. intros decoded Hm Hd.
  destruct bs as [|p [|h [|l bs]]]; [by injection Hd as <- | done | done |]. cbn [decode_chunks] in Hd.
  case_bool_decide as Hp; [| done]. cbn [negb] in Hd. rewrite bind_Ok in Hd. destruct Hd as (hv & Hh & Hd).
  rewrite bind_Ok in Hd. destruct Hd as (lv & Hl & Hd). rewrite bind_Ok in Hd. destruct Hd as (rest & Hr & [= <-]).
  apply ok_or_Ok, hex_value_upper in Hh as [Hh ?]. apply ok_or_Ok, hex_value_upper in Hl as [Hl ?].
  cbn [map concat]. unfold escape_byte at 1. destruct (nibbles hv lv) as [-> ->]; [done | done |]. rewrite (IH bs); [| cbn; lia | | done].
  - subst p. rewrite Hh, Hl. reflexivity.
  - unfold len in *. cbn [length] in Hm. replace (Z.of_nat (S (S (S (length bs))))) with (Z.of_nat (length bs) + 1 * 3) in Hm by lia.
    by rewrite Z_mod_plus_full in Hm.
Qed.

Lemma collect_results_Ok {E A} (l : list (result E A)) r : collect_results l = Ok r ↔ l = Ok <$> r.
Proof.
  revert r. induction l as [|x l IH]; intros r; cbn.
  - split; [by intros [= <-] | by destruct r].
  - rewrite bind_Ok. setoid_rewrite bind_Ok. setoid_rewrite IH. split.
    + by intros (a & -> & rest & -> & [= <-]).
    + destruct r as [|a r]; [done |]. intros [= -> ->]. eauto.
Qed.

Lemma encode_path_join c cs :
  encode_path_token (c :: cs) = "/"%byte :: join_with "/"%byte (map (fun c => concat (map escape_byte c)) (c :: cs)).
Proof.
  unfold encode_path_token. cbn [is_empty]. generalize c. induction cs as [|d cs IH]; intros e; cbn [map concat join_with].
  - by rewrite app_nil_r.
  - specialize (IH d). cbn [map concat join_with] in IH |- *. by rewrite IH.
Qed.

Lemma join_with_last sep ps p b : list.last ps = Some p → list.last p = Some b → list.last (join_with sep ps) = Some b.
Proof.
  induction ps as [|q ps IH]; intros Hp Hb; [done |]. destruct ps as [|r ps].
  - cbn in Hp. by injection Hp as ->.
  - specialize (IH Hp Hb). change (join_with sep (q :: r :: ps)) with (q ++ sep :: join_with sep (r :: ps)). rewrite last_app, last_cons, IH. done.
Qed.

Lemma escape_last c b : list.last (concat (map escape_byte c)) = Some b → b ≠ "/"%byte.
Proof.
  intros Hb ->. apply last_Some in Hb as [l Hl]. apply (escape_no_slash c). rewrite Hl. set_solver.
Qed.

Lemma decode_encode_path cs : Forall (fun c => valid_component c = true) cs → decode_path_token (encode_path_token cs) = Ok cs.
Proof.
  intros Hcs. destruct cs as [|c cs]; [reflexivity |]. rewrite encode_path_join. set (ps := map _ (c :: cs)).
  assert (Forall (fun p => "/"%byte ∉ p) ps) as Hps by (apply Forall_fmap, list.Forall_true; intros x; apply escape_no_slash).
  assert (ps ≠ []) as Hne by done.
  assert (∃ b, list.last (join_with "/"%byte ps) = Some b ∧ b ≠ "/"%byte) as (b & Hb & Hslash).
  { destruct (list.last (c :: cs)) as [d|] eqn:El; [| by apply last_None in El].
    assert (d ∈ c :: cs) as Hd by (apply last_Some in El as [l ->]; set_solver).
    rewrite list.Forall_forall in Hcs. specialize (Hcs d Hd). destruct d as [|b0 d]; [done |].
    destruct (list.last (concat (map escape_byte (b0 :: d)))) as [b|] eqn:Eb; [| by apply last_None in Eb].
    exists b. split; [| by eapply escape_last]. eapply join_with_last; [| exact Eb].
    unfold ps. change (map ?f ?l) with (f <$> l). by rewrite fmap_last, El. }
  unfold decode_path_token. rewrite bool_decide_eq_false_2.
  2: { intros H. apply (f_equal list.last) in H. rewrite last_cons, Hb in H. cbn in H. congruence. }
  change (starts_with ("/"%byte :: ?l) (bytes "/")) with true. cbn [negb orb].
  rewrite bool_decide_eq_false_2.
  2: { rewrite last_cons, Hb. congruence. }
  change (drop 1 ("/"%byte :: ?l)) with l. rewrite split_join by done. apply collect_results_Ok.
  unfold ps. clear -Hcs. rewrite map_map. induction Hcs as [|d ds Hd Hds IH]; [done |]. cbn [map fmap list_fmap]. by rewrite IH, decode_component_escape.
Qed.

Lemma decode_component_Ok p c :
  decode_component p = Ok c → valid_component c = true ∧ concat (map escape_byte c) = to_ascii_uppercase p.
Proof.
  unfold decode_component. destruct (_ || _) eqn:E; [done |]. apply orb_false_iff in E as [_ E%negb_false_iff%Z.eqb_eq].
  rewrite bind_Ok. intros (d & Hd & Hc). destruct (valid_component d) eqn:Ev; [| done]. injection Hc as <-.
  split; [done | by apply decode_chunks_upper].
Qed.

Lemma upper_join ps : to_ascii_uppercase (join_with "/"%byte ps) = join_with "/"%byte (to_ascii_uppercase <$> ps).
Proof.
  unfold to_ascii_uppercase. induction ps as [|p [|q ps] IH]; [done | done |]. cbn [join_with fmap list_fmap] in *.
  rewrite fmap_app. f_equal. cbn [fmap list_fmap]. by rewrite IH.
Qed.

Lemma decode_path_Ok t cs :
  decode_path_token t = Ok cs → Forall (fun c => valid_component c = true) cs ∧ encode_path_token cs = to_ascii_uppercase t.
Proof.
  unfold decode_path_token. case_bool_decide as E0; [intros [= <-]; by subst |]. destruct (_ || _) eqn:E; [done |].
  apply orb_false_iff in E as [E%negb_false_iff _]. apply starts_with_spec in E as [r ->].
  change (drop 1 (bytes "/" ++ r)) with r. change (bytes "/" ++ r) with ("/"%byte :: r).
  rewrite collect_results_Ok. change (map ?f ?l) with (f <$> l). intros H. rewrite <- (join_split "/"%byte r).
  pose proof (split_on_ne "/"%byte r) as Hne.
  change (to_ascii_uppercase ("/"%byte :: ?l)) with ("/"%byte :: to_ascii_uppercase l). rewrite upper_join.
  assert (Forall2 (fun p c => valid_component c = true ∧ concat (map escape_byte c) = to_ascii_uppercase p) (split_on "/"%byte r) cs) as Hf.
  { revert cs H. generalize (split_on "/"%byte r). intros ps. induction ps as [|p ps IH]; intros [|c cs]; cbn; intros Hc; try done.
    injection Hc as Hp Hc. constructor; [by apply decode_component_Ok | by apply IH]. }
  split; [clear -Hf; induction Hf as [|p c ps cs [? _] ? IH]; [constructor | by constructor] |].
  destruct cs as [|c cs]; [by inversion Hf; subst; destruct (split_on "/"%byte r) |]. rewrite encode_path_join. f_equal. f_equal.
  clear -Hf. induction Hf as [|p c' ps cs' [_ Hp] ? IH]; [done |]. cbn [map fmap list_fmap]. by rewrite IH, Hp.
Qed.

(** A path token names one path.  The token of a path of valid components
    decodes to that path; and whatever decodes is a path of valid components (none
    empty, a dot, two dots, or with a slash or a zero byte), of which the token is
    the encoding up to the case of its hexadecimal digits. *)
Theorem path_token_roundtrip :
  (∀ cs, forallb valid_component cs = true → decode_path_token (encode_path_token cs) = Ok cs)
  ∧ (∀ token cs, decode_path_token token = Ok cs →
       forallb valid_component cs = true ∧ encode_path_token cs = to_ascii_uppercase token).
Proof.
  split.
  - intros cs H. apply decode_encode_path. apply list.Forall_forall. intros c Hc. rewrite forallb_forall in H. by apply H, list_elem_of_In.
  - intros token cs H. apply decode_path_Ok in H as [Hv He]. split; [| done]. apply forallb_forall. intros c Hc.
    rewrite list.Forall_forall in Hv. by apply Hv, list_elem_of_In.
Qed.

(** ** Local paths stay below the root *)
Lemma split_on_concat sep a l : split_on sep (a ++ sep :: l) = split_on sep a ++ split_on sep l.
Proof.
  induction a as [|b a IH]; cbn [app split_on].
  - by rewrite decide_True.
  - rewrite IH. case_decide; [done |]. pose proof (split_on_ne sep a). by destruct (split_on sep a).
Qed.

Lemma valid_component_piece c : valid_component c = true → component c = Some (Normal c) ∧ "/"%byte ∉ c.
Proof.
  unfold valid_component, component. rewrite !andb_true_iff, !negb_true_iff, !bool_decide_eq_false. intros ((((H1 & H2) & H3) & _) & H5).
  rewrite H1, (bool_decide_eq_false_2 _ H2), (bool_decide_eq_false_2 _ H3). done.
Qed.

Lemma absolute_components q : path_components ("/"%byte :: q) = RootDir :: omap component (split_on "/"%byte q).
Proof. reflexivity. Qed.

Lemma push_component_below q c :
  valid_component c = true →
  ∃ q', push_component ("/"%byte :: q) c = "/"%byte :: q' ∧
        omap component (split_on "/"%byte q') = omap component (split_on "/"%byte q) ++ [Normal c].
Proof.
  intros [Hc Hs]%valid_component_piece. unfold push_component. cbn [is_empty]. rewrite orb_false_r. case_bool_decide as E.
  - exists (q ++ c). split; [done |]. destruct q as [|b q _] using rev_ind; cbn [app].
    + rewrite split_on_no_sep by done. cbn. by rewrite Hc.
    + change ("/"%byte :: q ++ [b]) with (("/"%byte :: q) ++ [b]) in E. rewrite last_snoc in E. injection E as ->.
      rewrite <- (assoc_L (++)). cbn [app]. rewrite !split_on_concat, !omap_app, (split_on_no_sep _ c) by done. cbn. by rewrite Hc, app_nil_r.
  - exists (q ++ "/"%byte :: c). split; [cbn; by rewrite <- (assoc_L (++)) |].
    rewrite split_on_concat, omap_app, (split_on_no_sep _ c) by done. cbn. by rewrite Hc.
Qed.

Lemma push_components_below cs q :
  Forall (fun c => valid_component c = true) cs →
  ∃ q', push_components ("/"%byte :: q) cs = Ok ("/"%byte :: q') ∧
        omap component (split_on "/"%byte q') = omap component (split_on "/"%byte q) ++ (Normal <$> cs).
Proof.
  intros Hcs. revert q. induction Hcs as [|c cs Hc Hcs IH]; intros q; [exists q; cbn; by rewrite app_nil_r |].
  cbn [push_components]. rewrite Hc. cbn [negb]. destruct (push_component_below q c Hc) as (q1 & -> & H1).
  destruct (IH q1) as (q2 & -> & H2). exists q2. split; [done |]. rewrite H2, H1, <- (assoc_L (++)). done.
Qed.

Lemma join_below root cs :
  starts_with root (bytes "/") = true → Forall (fun c => valid_component c = true) cs →
  ∃ path, join_validated_components root cs = Ok path ∧ path_components path = path_components root ++ (Normal <$> cs).
Proof.
  intros Hroot Hcs. unfold join_validated_components. rewrite Hroot. cbn [negb]. apply starts_with_spec in Hroot as [q ->].
  change (bytes "/" ++ q) with ("/"%byte :: q). destruct (push_components_below cs q Hcs) as (q' & -> & H).
  exists ("/"%byte :: q'). split; [done |]. by rewrite !absolute_components, H.
Qed.

(** ** Sequences of events *)
Inductive files_op :=
  | FActive (active : bool)
  | FSelectResource (resource : LocalFuseResourceRef)
  | FClearResource
  | FBeginResolve
  | FResourcePath (generation : Z) (resource_path : PathBuf)
  | FBeginList
  | FEntries (generation : Z) (entries : list LocalFileEntry)
  | FError (generation : Z) (state : LocalFuseFilesState) (kind message : text)
  | FExternal (state : LocalFuseFilesState) (kind message : text)
  | FNavigate (token : text) (push_history : bool)
  | FBack
  | FUp
  | FShowHidden (show : bool)
  | FSearch (query : text)
  | FSort (column : LocalFileSortColumn)
  | FSelect (token : option text).

Section runs.
Context {LC : Lowercase}.
Implicit Types self s : LocalFuseFilesController.

Definition files_step self (op : files_op) : LocalFuseFilesController :=
  match op with
  | FActive active => set_active active self
  | FSelectResource resource => (select_resource resource self).2
  | FClearResource => clear_resource self
  | FBeginResolve => (begin_resolve self).2
  | FResourcePath generation resource_path => (apply_resource_path generation resource_path self).2
  | FBeginList => (begin_list self).2
  | FEntries generation entries => (apply_entries generation entries self).2
  | FError generation state kind message => (apply_error generation state kind message self).2
  | FExternal state kind message => set_external_state state kind message self
  | FNavigate token push_history => (navigate_to_token token push_history self).2
  | FBack => (go_back self).2
  | FUp => (go_up self).2
  | FShowHidden show => set_show_hidden show self
  | FSearch query => set_search query self
  | FSort column => toggle_sort column self
  | FSelect token => select_token token self
  end.
Definition files_run (ops : list files_op) : LocalFuseFilesController := foldl files_step LocalFuseFilesController_default ops.

Definition all_valid (cs : list (list byte)) : Prop := Forall (fun c => valid_component c = true) cs.
Definition selected_ok s : Prop :=
  match lc_selected_token s with Some token => key_exists le_path_token token (lc_entries s) = true | None => True end.

Record files_inv s : Prop := {
  fi_current : all_valid (lc_current_components s);
  fi_history : Forall all_valid (lc_history s);
  fi_selected : selected_ok s;
}.

Lemma leave_folder_inv s : all_valid (lc_current_components s) → Forall all_valid (lc_history s) → files_inv (leave_folder s).
Proof. intros H1 H2. by split. Qed.

Lemma reset_resource_inv r st s : files_inv (reset_resource r st s).
Proof. split; [constructor | constructor | done]. Qed.

Lemma content_state_fields s :
  lc_current_components (update_content_state s) = lc_current_components s ∧ lc_history (update_content_state s) = lc_history s
  ∧ lc_selected_token (update_content_state s) = lc_selected_token s ∧ lc_entries (update_content_state s) = lc_entries s.
Proof. unfold update_content_state. by destruct (lc_state s). Qed.

Lemma content_state_inv s : files_inv s → files_inv (update_content_state s).
Proof.
  intros [H1 H2 H3]. destruct (content_state_fields s) as (E1 & E2 & E3 & E4).
  split; unfold selected_ok; rewrite ?E1, ?E2, ?E3, ?E4; done.
Qed.

Lemma files_step_inv s op : files_inv s → files_inv (files_step s op).
Proof.
  intros Hi. pose proof Hi as [Hc Hh Hs].
  destruct op as [b|r| | |g p| |g l|g st k m|st k m|t push| | |b|q|c|t]; cbn [files_step].
  - by split.
  - unfold select_resource. case_bool_decide; [done | apply reset_resource_inv].
  - apply reset_resource_inv.
  - unfold begin_resolve. destruct (lc_resource s); [by split | done].
  - unfold apply_resource_path. destruct (negb _); [done | by split].
  - unfold begin_list. destruct (lc_resource_path s); [by split | done].
  - unfold apply_entries. destruct (negb _); [done |]. cbn [snd]. apply content_state_inv. by split.
  - unfold apply_error. destruct (negb _); [done | by split].
  - by split.
  - unfold navigate_to_token. destruct (decode_path_token t) as [cs|e|] eqn:E; [| done..]. case_bool_decide; [done |]. cbn [snd].
    apply decode_path_Ok in E as [E _]. destruct push; apply leave_folder_inv; try done.
    cbn. apply Forall_app. split; [done | by constructor].
  - unfold go_back. destruct (list.last (lc_history s)) as [prev|] eqn:E; [| done]. cbn [snd].
    apply last_Some in E as [h E]. rewrite E in Hh |- *. rewrite removelast_last. apply Forall_app in Hh as [Hh Hp].
    apply leave_folder_inv; [by inversion Hp | done].
  - unfold go_up. destruct (is_empty (lc_current_components s)); [done |]. cbn [snd]. apply leave_folder_inv; cbn.
    + destruct (lc_current_components s) as [|c cs _] using rev_ind; [constructor |]. rewrite removelast_last. by apply Forall_app in Hc as [? _].
    + apply Forall_app. split; [done | by constructor].
  - apply content_state_inv. by split.
  - apply content_state_inv. by split.
  - unfold toggle_sort. case_bool_decide; by split.
  - split; [done | done |]. unfold selected_ok. cbn. destruct t as [v|]; [| done]. by destruct (key_exists le_path_token v (lc_entries s)) eqn:E.
Qed.

Lemma files_run_inv ops : files_inv (files_run ops).
Proof.
  unfold files_run. assert (files_inv LocalFuseFilesController_default) as Hi by (split; [constructor | constructor | done]).
  generalize dependent LocalFuseFilesController_default. induction ops as [|op ops IH]; intros s Hs; [done |]. apply IH. by apply files_step_inv.
Qed.

Lemma breadcrumbs_loop_decode done_ rest :
  all_valid (done_ ++ rest) →
  (fun b => decode_path_token (bc_path_token b)) <$> breadcrumbs_loop done_ rest
  = (fun n => Ok (done_ ++ take n rest)) <$> seq 1 (length rest).
Proof.
  revert done_. induction rest as [|c rest IH]; intros d Hv; [done |]. cbn [breadcrumbs_loop length seq fmap list_fmap bc_path_token].
  assert (all_valid ((d ++ [c]) ++ rest)) as Hv' by (by rewrite <- (assoc_L (++))). f_equal.
  - rewrite decode_encode_path; [cbn; by rewrite take_0 |]. by apply Forall_app in Hv' as [? _].
  - rewrite (IH _ Hv'). rewrite <- (fmap_S_seq 1). rewrite <- list_fmap_compose. apply list_fmap_ext. intros _ n _. cbn. by rewrite <- (assoc_L (++)).
Qed.

(** C22: The file browser stays inside its resource.  After any sequence of actions
    and answers: the folder that is shown and every folder to go back to is a path
    of valid components; it has a local path exactly below the root that the daemon
    gave, when that is absolute; the breadcrumbs lead to the prefixes of the path,
    from the root to the folder itself; what is selected is an entry; and a token
    is never turned into a path that is not below the root. *)
Theorem file_browser_confined ops :
  let s := files_run ops in
  Forall (fun cs => forallb valid_component cs = true) (lc_current_components s :: lc_history s)
  ∧ (∀ root, lc_resource_path s = Some root → starts_with root (bytes "/") = true →
       ∃ path, local_path_for_components s (lc_current_components s) = Some path
               ∧ path_components path = path_components root ++ (Normal <$> lc_current_components s))
  ∧ (fun b => decode_path_token (bc_path_token b)) <$> breadcrumbs s
    = (fun n => Ok (take n (lc_current_components s))) <$> seq 0 (S (length (lc_current_components s)))
  ∧ (∀ token, lc_selected_token s = Some token → ∃ e, e ∈ lc_entries s ∧ le_path_token e = token)
  ∧ (∀ token path, local_path_for_token s token = Some path →
       ∃ root cs, lc_resource_path s = Some root ∧ path_components path = path_components root ++ (Normal <$> cs)
                  ∧ forallb valid_component cs = true).
Proof.
  intros s. destruct (files_run_inv ops) as [Hc Hh Hs]. fold s in Hc, Hh, Hs.
  assert (∀ cs, all_valid cs → forallb valid_component cs = true) as Hall.
  { intros cs H. apply forallb_forall. intros c Hin. unfold all_valid in H. rewrite list.Forall_forall in H. by apply H, list_elem_of_In. }
  split_and!.
  - constructor; [by apply Hall |]. eapply list.Forall_impl; [exact Hh | exact Hall].
  - intros root Hr Ha. unfold local_path_for_components. rewrite Hr. destruct (join_below root _ Ha Hc) as (path & -> & Hp). eauto.
  - unfold breadcrumbs. cbn [fmap list_fmap bc_path_token seq]. f_equal. by rewrite (breadcrumbs_loop_decode []).
  - intros token Ht. unfold selected_ok in Hs. rewrite Ht in Hs. by apply key_exists_spec.
  - intros token path. unfold local_path_for_token, local_path_for_components. destruct (decode_path_token token) as [cs|e|] eqn:E; [| done..].
    apply decode_path_Ok in E as [Hv _]. destruct (lc_resource_path s) as [root|] eqn:Er; [| done].
    destruct (starts_with root (bytes "/")) eqn:Ha; [| unfold join_validated_components; by rewrite Ha].
    destruct (join_below root cs Ha Hv) as (p & -> & Hp). intros [= <-]. exists root, cs. split_and!; [done | done | by apply Hall].
Qed.

(** Going back undoes going up and following a link: the folder and the history
    are what they were, and the listing starts anew. *)
Theorem go_back_undoes s :
  match go_up s with (true, s') => go_back s' = (true, leave_folder s) | (false, s') => s' = s end
  ∧ ∀ token, match navigate_to_token token true s with (true, s') => go_back s' = (true, leave_folder s) | (false, s') => s' = s end.
Proof.
  assert (∀ cs, go_back (leave_folder (set_lc_current_components cs (set_lc_history (lc_history s ++ [lc_current_components s]) s)))
                = (true, leave_folder s)) as H.
  { intros cs. unfold go_back. cbn [lc_history leave_folder set_lc_selected_token set_lc_entries set_lc_search_query set_lc_current_components set_lc_history].
    rewrite last_snoc, removelast_last. by destruct s. }
  split.
  - unfold go_up. by destruct (is_empty (lc_current_components s)).
  - intros token. unfold navigate_to_token. destruct (decode_path_token token) as [cs|e|]; [| done..]. by case_bool_decide.
Qed.

(** *** The shown entries *)
#[export] Instance compare_names_total : TotalCmp compare_names.
Proof. apply _. Qed.
#[export] Instance primary_cmp_total column : TotalCmp (primary_cmp column).
Proof. destruct column; apply _. Qed.
#[export] Instance compare_entries_total s : TotalCmp (compare_entries s).
Proof. unfold compare_entries. destruct (lc_sort_descending s); apply _. Qed.

Lemma strongly_sorted_weaken {A} (R S : A → A → Prop) l : (∀ a b, R a b → S a b) → StronglySorted R l → StronglySorted S l.
Proof. intros H. induction 1 as [|a l Hl IH Ha]; [constructor | constructor; [done | eapply list.Forall_impl; [exact Ha | apply H]]]. Qed.

(** The browser shows exactly the entries that are not hidden, or all if hidden
    ones are wanted, and match the search, each once, folders before everything
    else and each group in the chosen column's order or its reverse. *)
Theorem visible_entries_exact s :
  visible_entries s ≡ₚ List.filter (entry_shown s) (lc_entries s)
  ∧ StronglySorted (fun a b => is_directory (le_kind b) = true → is_directory (le_kind a) = true) (visible_entries s)
  ∧ StronglySorted (fun a b => is_directory (le_kind a) = is_directory (le_kind b) →
      let ordering := cmp_then (primary_cmp (lc_sort_column s)) compare_names in
      (if lc_sort_descending s then ordering b a else ordering a b) ≠ Gt) (visible_entries s).
Proof.
  pose proof (sort_by_sorted (compare_entries s) (List.filter (entry_shown s) (lc_entries s))) as Hsorted.
  split_and!; [apply sort_by_perm | |]; (eapply strongly_sorted_weaken; [| exact Hsorted]); intros a b Hab.
  - intros Hb. destruct (is_directory (le_kind a)) eqn:Ha; [done |]. exfalso. apply Hab. unfold compare_entries, cmp_then at 1, cmp_rev at 1, cmp_by at 1.
    by rewrite Ha, Hb.
  - intros Heq. unfold compare_entries, cmp_then at 1, cmp_rev at 1, cmp_by at 1 in Hab. rewrite Heq in Hab.
    destruct (is_directory (le_kind b)); cbn in Hab; by destruct (lc_sort_descending s).
Qed.
End runs.

(** ** What the page never reports *)
Section loading.
Context {LC : Lowercase}.
Implicit Types s : LocalFuseFilesController.

Definition content_known (state : LocalFuseFilesState) : bool := match state with Files_Ready | Files_Empty => true | _ => false end.
(** An error is shown in a state of its own. *)
Definition reports_error (op : files_op) : bool :=
  match op with FError _ state _ _ | FExternal state _ _ => negb (content_known state) | _ => true end.

Lemma content_state_unknown s : content_known (lc_state s) = false → update_content_state s = s.
Proof. unfold update_content_state. by destruct (lc_state s). Qed.

Lemma step_unknown s op :
  reports_error op = true → content_known (lc_state s) = false → content_known (lc_state (files_step s op)) = false.
Proof.
  intros Ho Hs. destruct op as [b|r| | |g p| |g l|g st k m|st k m|t push| | |b|q|c|t]; cbn [files_step].
  - done.
  - unfold select_resource. by case_bool_decide.
  - done.
  - unfold begin_resolve. by destruct (lc_resource s).
  - unfold apply_resource_path. by destruct (negb _).
  - unfold begin_list. by destruct (lc_resource_path s).
  - unfold apply_entries. destruct (negb _); [done |]. cbn [snd]. by rewrite content_state_unknown.
  - unfold apply_error. destruct (negb (g =? _)); [done |]. by apply negb_true_iff in Ho.
  - by apply negb_true_iff in Ho.
  - unfold navigate_to_token. destruct (decode_path_token t); [| done..]. case_bool_decide; [done |]. by destruct push.
  - unfold go_back. by destruct (list.last _).
  - unfold go_up. by destruct (is_empty _).
  - unfold set_show_hidden. by rewrite content_state_unknown.
  - unfold set_search. by rewrite content_state_unknown.
  - unfold toggle_sort. by case_bool_decide.
  - done.
Qed.

(** A listing is shown, but the page stays in the state loading: no sequence of
    events reaches the states ready and empty, since they are set only where one
    of them already holds. *)
Theorem files_never_ready ops :
  forallb reports_error ops = true → content_known (lc_state (files_run ops)) = false.
Proof.
  unfold files_run. assert (content_known (lc_state LocalFuseFilesController_default) = false) as Hs by done.
  generalize dependent LocalFuseFilesController_default. induction ops as [|op ops IH]; intros s Hs Ho; [done |].
  apply andb_prop in Ho as [Ho Hos]. apply IH; [by apply step_unknown | done].
Qed.

Lemma files_never_ready_witness :
  let ops := [FSelectResource (Ref_Volume (bytes "data")); FBeginResolve; FResourcePath 2 (bytes "/mnt/data"); FBeginList; FEntries 3 []] in
  forallb reports_error ops = true ∧ content_known (lc_state (files_run ops)) = false.
Proof. intros ops. split; [reflexivity | apply (files_never_ready ops); reflexivity]. Defined.

(** The listing of a folder that was left is still accepted, and its entries are
    shown in the folder above. *)
Theorem left_folder_listed s root c cs l :
  lc_resource_path s = Some root → lc_current_components s = cs ++ [c] →
  let '(request, s1) := begin_list s in
  let s2 := (go_up s1).2 in
  ∃ generation, request = Some (generation, root, cs ++ [c])
  ∧ let '(accepted, s3) := apply_entries generation l s2 in
    accepted = true ∧ lc_current_components s3 = cs ∧ lc_entries s3 = l.
Proof.
  intros Hr Hc. unfold begin_list. rewrite Hr. eexists. split; [cbn; by rewrite Hc |].
  unfold go_up. cbn [lc_current_components set_lc_state clear_error next_generation set_lc_error_message set_lc_error_kind set_lc_generation].
  rewrite Hc. destruct (is_empty (cs ++ [c])) eqn:E; [by destruct cs |]. cbn [snd]. unfold apply_entries.
  cbn [lc_generation lc_current_components set_lc_state clear_error next_generation set_lc_error_message set_lc_error_kind set_lc_generation leave_folder
       set_lc_selected_token set_lc_entries set_lc_search_query set_lc_current_components set_lc_history].
  rewrite Z.eqb_refl. cbn [negb]. set (s3 := set_lc_selected_token _ _). destruct (content_state_fields s3) as (E1 & _ & _ & E4).
  split; [reflexivity |]. rewrite E1, E4. clear E1 E4. split; [| reflexivity]. unfold s3. cbn. by rewrite Hc, removelast_last.
Qed.
End loading.

(** ** Listing, previewing and saving *)
Section files.
Context {W : Type} {LF : LocalFs W} {EF : ExportFs W}.

(** What the reads of a file deliver is its content, and no read delivers nothing
    before the end; taking a number changes no file. *)
Class LocalFsLaws : Prop := {
  open_reads path w file :
    local_open path w = Ok file → lm_type (of_metadata file) = FT_File →
    Forall (fun r => r ≠ inr []) (of_reads file)
    ∧ ∀ chunks, of_reads file = inr <$> chunks → fs_read w (path_components path) = Some (concat chunks);
  open_returns path w s : local_open path w ≠ Panic s;
  metadata_returns path w s : local_metadata path w ≠ Panic s;
  next_part_law w : same_files (fun _ => False) w (snd (next_part w));
}.

Lemma read_to_end_all limit chunks :
  Forall (fun r => r ≠ inr []) (inr (A := IoError) <$> chunks) → read_to_end limit (inr <$> chunks) = Ok (take limit (concat chunks)).
Proof.
  revert limit. induction chunks as [|d chunks IH]; intros limit Hne; [by destruct limit |].
  apply Forall_cons_iff in Hne as [Hd Hne]. destruct limit as [|n]; [done |]. cbn [fmap list_fmap read_to_end concat].
  destruct (is_empty d) eqn:Ed; [by destruct d |]. rewrite (IH _ Hne). cbn [mbind result_bind]. by rewrite take_app.
Qed.

Lemma read_to_end_returns limit reads s : read_to_end limit reads ≠ Panic s.
Proof.
  revert limit. induction reads as [|[e|d] reads IH]; intros [|n]; try done. cbn [read_to_end]. destruct (is_empty d); [done |].
  specialize (IH (S n - length d)%nat). by destruct (read_to_end _ _).
Qed.

(** A preview is exact.  When every read of a regular file succeeds, the preview
    is the beginning of the file's content, at most a mebibyte of it, and says that
    it is cut exactly if the file is longer; other files and failed calls give an
    error and no preview. *)
Theorem file_preview_exact path name w `{!LocalFsLaws} :
  match preview_local_file path name w with
  | Ok preview =>
      ∃ file, local_open path w = Ok file ∧ lm_type (of_metadata file) = FT_File ∧ len (pr_bytes preview) ≤ PREVIEW_LIMIT
      ∧ ∀ content, (∃ chunks, of_reads file = inr <$> chunks) → fs_read w (path_components path) = Some content →
          pr_bytes preview = take (Z.to_nat PREVIEW_LIMIT) content ∧ (pr_truncated preview = true ↔ PREVIEW_LIMIT < len content)
  | Err _ =>
      ∀ file, local_open path w = Ok file → lm_type (of_metadata file) = FT_File → ¬ ∃ chunks, of_reads file = inr <$> chunks
  | Panic _ => False
  end.
Proof.
  assert (PREVIEW_LIMIT = 1048576) as HL by reflexivity.
  unfold preview_local_file. change (saturating_add u64_max PREVIEW_LIMIT 1) with (PREVIEW_LIMIT + 1).
  pose proof (open_returns path w) as Hret. destruct (local_open path w) as [file|e|site] eqn:Eo; cbn [mbind result_bind]; [| done | by destruct (Hret site)].
  case_bool_decide as Ht; cbn [negb]; [| by intros f [= <-]].
  destruct (open_reads _ _ _ Eo Ht) as [Hne Hcontent].
  destruct (read_to_end _ _) as [data|e|site] eqn:Er; cbn [mbind result_bind]; [| | by apply read_to_end_returns in Er].
  - exists file. split_and!; [done | done | unfold len; cbn [pr_bytes]; rewrite length_take; lia |].
    intros content [chunks Hc] Hr. rewrite (Hcontent _ Hc) in Hr. injection Hr as <-. rewrite Hc in Er, Hne.
    rewrite (read_to_end_all _ _ Hne) in Er. injection Er as <-. cbn [pr_bytes pr_truncated]. rewrite take_take.
    split; [by rewrite Nat.min_l by lia |]. unfold len. rewrite length_take, Z.ltb_lt. lia.
  - intros f [= <-] _ [chunks Hc]. rewrite Hc in Er, Hne. by rewrite (read_to_end_all _ _ Hne) in Er.
Qed.
End files.

(** *** Saving *)
Section saving.
Context {W : Type} {LF : LocalFs W} {EF : ExportFs W} {EL : ExportFsLaws W} {LL : LocalFsLaws (W := W)}.

Lemma part_name_longer name pid nanos sequence : (length name < length (part_name name pid nanos sequence))%nat.
Proof. unfold part_name. rewrite !length_app. cbn. lia. Qed.

Lemma part_ne dest pid nanos sequence :
  with_file_name dest (part_name (default (bytes "tuxstack-save") (file_name dest)) pid nanos sequence) ≠ dest.
Proof.
  unfold with_file_name. destruct (file_name dest) as [name|] eqn:E; cbn [default from_option].
  - apply file_name_spec in E as [up ->]. rewrite length_app, Nat.add_sub, take_app_length. intros [_ [= H]]%app_inj_2; [| done].
    pose proof (part_name_longer name pid nanos sequence). rewrite H in *. lia.
  - intros H. apply (f_equal length) in H. rewrite length_app in H. cbn in H. lia.
Qed.

Lemma copy_loop_spec part chunks cancel copied w :
  copied ≤ u64_max → Forall (fun r => r ≠ inr []) chunks →
  let '(r, w') := copy_loop part chunks cancel copied w in
  same_files (eq part) w w' ∧
  match r with
  | Ok n => ∃ data, chunks = inr <$> data ∧ n = Z.min u64_max (copied + len (concat data))
            ∧ fs_read w' part = (fun old => old ++ concat data) <$> fs_read w part
  | Err _ => True
  | Panic _ => False
  end.
Proof.
  revert cancel copied w. induction chunks as [|item chunks IH]; intros cancel copied w Hw Hne; cbn [copy_loop].
  { destruct cancel as [[|n]|]; [by split | |]; (split; [done |]; exists []; change (len (concat [])) with 0; split_and!; [done | lia |];
      destruct (fs_read w part); cbn; by rewrite ?app_nil_r). }
  apply Forall_cons_iff in Hne as [Hitem Hne]. destruct cancel as [[|n]|]; [by split | |];
  (destruct item as [error|data]; [by split |]; destruct (is_empty data) eqn:Ed; [by destruct data |];
   pose proof (write_all_law part data w) as Hwrite; destruct (fs_write_all part data w) as [[error|] w1]; [done |];
   destruct Hwrite as [Hread Hsame]; cbn [fmap option_fmap option_map pred]; unfold saturating_add;
   match goal with |- context [copy_loop part chunks ?c _ w1] => specialize (IH c (Z.min u64_max (copied + len data)) w1 ltac:(lia) Hne);
     destruct (copy_loop part chunks c _ w1) as [r w2] end;
   destruct IH as [Hsame2 Hr]; (split; [by eapply same_files_trans |]); destruct r as [m|e|site]; [| done..];
   destruct Hr as (rest & -> & -> & Hread2); exists (data :: rest); cbn [concat]; rewrite len_app;
   pose proof (len_nonneg (concat rest)); split_and!; [done | lia |];
   rewrite Hread2, Hread; destruct (fs_read w part); cbn; [by rewrite (assoc_L (++)) | done]).
Qed.

Lemma copy_to_spec source part dest cancel cancelled w :
  part ≠ dest →
  let '(r, w') := copy_to source part dest cancel cancelled w in
  same_files (fun q => q = part ∨ q = dest) w w' ∧
  match r with
  | Ok n => ∃ content, fs_read w (path_components source) = Some content ∧ n = Z.min u64_max (len content)
            ∧ fs_read w' dest = Some content ∧ fs_read w part = None ∧ fs_read w' part = None
  | Err _ => same_files (eq part) w w'
  | Panic _ => False
  end.
Proof.
  intros Hne. unfold copy_to.
  assert (∀ w', same_files (eq part) w w' → same_files (fun q => q = part ∨ q = dest) w w' ∧ same_files (eq part) w w') as Hfail.
  { intros w' H. split; [| done]. eapply same_files_weaken; [| exact H]. intros q ->. by left. }
  pose proof (open_returns source w) as Hret.
  destruct (local_open source w) as [input|e|site] eqn:Eo; [| by apply Hfail | by destruct (Hret site)].
  case_bool_decide as Ht; cbn [negb]; [| by apply Hfail]. destruct (open_reads _ _ _ Eo Ht) as [Hreads Hcontent].
  pose proof (create_new_law part w) as Hc. destruct (fs_create_new part w) as [[error|] w1]; [by apply Hfail, same_files_all |].
  destruct Hc as (Hnone & Hempty & Hsame1). pose proof (copy_loop_spec part (of_reads input) cancel 0 w1 ltac:(done) Hreads) as Hl.
  destruct (copy_loop part (of_reads input) cancel 0 w1) as [[n|e|site] w2]; destruct Hl as [Hsame2 Hl]; [| | done].
  2: { apply Hfail. by eapply same_files_trans. }
  destruct Hl as (data & Hdata & Hn & Hread). rewrite Hempty in Hread. cbn in Hread.
  assert (same_files (eq part) w w2) as Hw2 by by eapply same_files_trans.
  pose proof (flush_law part w2) as Hf. destruct (fs_flush part w2) as [[error|] w3]; cbn [snd] in Hf.
  { apply Hfail. eapply same_files_trans; [exact Hw2 | by apply same_files_all]. }
  pose proof (sync_all_law part w3) as Hy. destruct (fs_sync_all part w3) as [failed w4]; cbn [snd] in Hy.
  assert (same_files (fun _ => False) w2 w4) as H24 by (by eapply same_files_trans).
  assert (same_files (eq part) w w4) as Hw4 by (eapply same_files_trans; [exact Hw2 | by apply same_files_all]).
  destruct failed as [error|]; [by apply Hfail |]. destruct cancelled; [by apply Hfail |].
  pose proof (rename_law part dest w4 Hne) as Hr. destruct (fs_rename part dest w4) as [[error|] w5].
  { apply Hfail. eapply same_files_trans; [exact Hw4 | by apply same_files_all]. }
  destruct Hr as (Hd & Hp & Hsame5). split.
  - eapply same_files_trans; [| exact Hsame5]. eapply same_files_weaken; [| exact Hw4]. intros q ->. by left.
  - exists (concat data). split_and!; [by apply Hcontent | done | | done | done]. rewrite Hd, (H24 part) by tauto. done.
Qed.

(** Saving a file is atomic.  A save that succeeds has put exactly the content
    of the source at the destination, says how many bytes these are (saturating at
    the largest 64-bit number) and leaves no part file.  A save that fails or is
    cancelled, at whatever point, leaves the destination as it was, and removes the
    part file whenever removing works.  No other file is touched. *)
Theorem save_atomic source destination nanos cancel cancelled w :
  let '(r, w') := copy_local_file_atomic_cancellable source destination nanos cancel cancelled w in
  let dest := path_components destination in
  ∃ part, part ≠ dest ∧ same_files (fun q => q = part ∨ q = dest) w w' ∧
  match r with
  | Ok n => ∃ content, fs_read w (path_components source) = Some content ∧ n = Z.min u64_max (len content)
            ∧ fs_read w' dest = Some content ∧ fs_read w' part = None
  | Err _ => fs_read w' dest = fs_read w dest
             ∧ (fs_read w part = None → (∀ w, fst (fs_remove_file part w) = None) → fs_read w' part = None)
  | Panic _ => False
  end.
Proof.
  unfold copy_local_file_atomic_cancellable. cbn zeta. set (dest := path_components destination).
  assert (∃ part, part ≠ dest ∧ same_files (fun q => q = part ∨ q = dest) w w ∧
    (fs_read w dest = fs_read w dest ∧ (fs_read w part = None → (∀ w, fst (fs_remove_file part w) = None) → fs_read w part = None))) as Hearly.
  { exists (CurDir :: dest). split_and!; try done. intros Heq. apply (f_equal length) in Heq. cbn in Heq. lia. }
  destruct (parent dest) as [up|]; [| exact Hearly]. pose proof (metadata_returns up w) as Hret.
  destruct (local_metadata up w) as [metadata|e|site]; [| exact Hearly | by destruct (Hret site)].
  destruct (negb _); [exact Hearly |]. pose proof (next_part_law w) as Hnext. destruct (next_part w) as [sequence w0]. cbn [snd] in Hnext.
  set (part := with_file_name dest _). assert (part ≠ dest) as Hne by apply part_ne.
  pose proof (copy_to_spec source part dest cancel cancelled w0 Hne) as Hto.
  destruct (copy_to source part dest cancel cancelled w0) as [[n|e|site] w1]; destruct Hto as [Hsame Hr]; [| | done].
  - exists part. split_and!; [done | eapply same_files_trans; [by apply same_files_all | done] |].
    destruct Hr as (content & Hs & -> & Hd & _ & Hp). exists content. rewrite Hnext in Hs by tauto. done.
  - pose proof (remove_file_law part w1) as Hrm. destruct (fs_remove_file part w1) as [removed w2] eqn:Eremove. cbn [snd].
    assert (same_files (eq part) w w2) as Hw2.
    { eapply same_files_trans; [by apply same_files_all |]. eapply same_files_trans; [exact Hr |].
      destruct removed; [by apply same_files_all | by destruct Hrm]. }
    exists part. split_and!; [done | eapply same_files_weaken; [| exact Hw2]; intros q ->; by left | by apply Hw2 |].
    intros _ Hall. specialize (Hall w1). rewrite Eremove in Hall. cbn in Hall. subst removed. by destruct Hrm.
Qed.
End saving.

(** *** Files that satisfy the laws *)
Definition plain_metadata (type : FileType) (length : Z) : LocalMetadata := mkLocalMetadata type length 0 292 0 0.
#[export] Instance map_local : LocalFs files := {|
  local_metadata _ _ := Ok (plain_metadata FT_Dir 0);
  local_symlink_metadata path w :=
    match fs_read w (path_components path) with Some data => Ok (plain_metadata FT_File (len data)) | None => Err missing_error end;
  local_read_link _ _ := Err missing_error;
  local_read_dir _ _ := Ok [];
  local_open path w :=
    match fs_read w (path_components path) with
    | Some data => Ok (mkOpenFile (plain_metadata FT_File (len data)) (if is_empty data then [] else [inr data]))
    | None => Err missing_error
    end;
  next_part w := (snd w, (fst w, snd w + 1));
|}.

Lemma map_local_laws : LocalFsLaws (W := files).
Proof.
  split; try done.
  - intros path w file. cbn. destruct (fst w (path_components path)) as [data|]; [| done]. intros [= <-] _. cbn.
    destruct data as [|b data]; cbn.
    + split; [constructor |]. intros chunks H. by destruct chunks.
    + split; [by repeat constructor |]. intros [|c [|d chunks]] [= ->]. cbn. by rewrite app_nil_r.
  - intros path w s. cbn. by destruct (fst w (path_components path)).
Qed.

Definition one_file : files := (set_file (path_components (bytes "/mnt/a.txt")) (Some (bytes "hello")) (fun _ => None), 1).

Lemma file_preview_exact_witness :
  LocalFsLaws (W := files)
  ∧ match preview_local_file (bytes "/mnt/a.txt") (bytes "a.txt") one_file with Ok preview => len (pr_bytes preview) ≤ PREVIEW_LIMIT | _ => False end.
Proof.
  split; [exact map_local_laws |]. pose proof (file_preview_exact (bytes "/mnt/a.txt") (bytes "a.txt") one_file (H := map_local_laws)) as H.
  destruct (preview_local_file _ _ one_file) as [preview|e|s] eqn:E; [by destruct H as (_ & _ & _ & H & _) | | done].
  exfalso. apply (H _ eq_refl eq_refl). exists [bytes "hello"]. reflexivity.
Defined.

Lemma save_atomic_witness :
  let '(r, w') := copy_local_file_atomic_cancellable (bytes "/mnt/a.txt") (bytes "/tmp/b.txt") (bytes "1f") None false one_file in
  r = Ok 5 ∧ fs_read w' (path_components (bytes "/tmp/b.txt")) = Some (bytes "hello").
Proof.
  pose proof (save_atomic (EL := map_fs_laws) (LL := map_local_laws)
    (bytes "/mnt/a.txt") (bytes "/tmp/b.txt") (bytes "1f") None false one_file) as H.
  destruct (copy_local_file_atomic_cancellable _ _ _ _ _ one_file) as [r w'] eqn:E.
  assert (r = Ok 5) as -> by (apply (f_equal fst) in E; vm_compute in E; congruence). split; [reflexivity |].
  destruct H as (part & _ & _ & content & Hs & _ & Hd & _). rewrite Hd, <- Hs. reflexivity.
Defined.

(** ** Listing a folder *)
Section listing.
Context {W : Type} {LF : LocalFs W}.

Lemma push_components_valid path cs p : push_components path cs = Ok p → all_valid cs.
Proof.
  revert path. induction cs as [|c cs IH]; intros path; [constructor |]. cbn [push_components].
  destruct (valid_component c) eqn:E; cbn [negb]; [| done]. intros H. constructor; [done | by eapply IH].
Qed.

Lemma local_entry_named directory cs raw w e :
  local_entry directory cs raw w = Ok e → le_name_raw e = raw ∧ le_path_token e = encode_path_token (cs ++ [raw]).
Proof. unfold local_entry. rewrite bind_Ok. by intros (m & _ & [= <-]). Qed.

Lemma read_entries_named directory cs items w l :
  all_valid cs → read_entries directory cs items w = Ok l →
  ∃ names, items = inr <$> names ∧ le_name_raw <$> l = List.filter valid_component names
  ∧ Forall (fun e => decode_path_token (le_path_token e) = Ok (cs ++ [le_name_raw e])) l.
Proof.
  intros Hcs. revert l. induction items as [|[error|raw] items IH]; intros l; cbn [read_entries]; [| done |].
  - intros [= <-]. by exists [].
  - destruct (valid_component raw) eqn:Ev; cbn [negb].
    + rewrite bind_Ok. intros (e & He & Hl). rewrite bind_Ok in Hl. destruct Hl as (rest & Hr & [= <-]).
      destruct (IH _ Hr) as (names & -> & Hn & Hd). apply local_entry_named in He as [Hraw Htok]. exists (raw :: names). split_and!; [done | |].
      * cbn. by rewrite Ev, Hraw, Hn.
      * constructor; [| done]. rewrite Hraw, Htok. apply decode_encode_path, Forall_app. split; [done | by constructor].
    + intros (names & -> & Hn & Hd)%IH. exists (raw :: names). split_and!; [done | | done]. cbn. by rewrite Ev.
Qed.

(** Listing a folder gives one entry for each name the file system reports that
    is a valid component, in that order, and the token of each entry leads to the
    folder's path extended by exactly that name, whatever bytes it consists of. *)
Theorem directory_listing_exact root cs w :
  match read_local_directory root cs w with
  | Ok l =>
      ∃ directory names, join_validated_components root cs = Ok directory ∧ local_read_dir directory w = Ok (inr <$> names)
      ∧ le_name_raw <$> l = List.filter valid_component names
      ∧ Forall (fun e => decode_path_token (le_path_token e) = Ok (cs ++ [le_name_raw e])) l
  | _ => True
  end.
Proof.
  destruct (read_local_directory root cs w) as [l|e|s] eqn:E; [| done..]. unfold read_local_directory in E. rewrite bind_Ok in E.
  destruct E as (directory & Hj & E). rewrite bind_Ok in E. destruct E as (items & Hi & E).
  assert (all_valid cs) as Hcs.
  { unfold join_validated_components in Hj. destruct (negb _); [done | by eapply push_components_valid]. }
  destruct (read_entries_named _ _ _ _ _ Hcs E) as (names & -> & Hn & Hd). exists directory, names. done.
Qed.
End listing.
