(* ===== verification/LiveStats.v ===== *)
(** Live statistics of containers (crates/gui/src/controllers/container_stats.rs):
    the targets of a selection, the samples that are accepted, their sum over a
    group and the bounded history. *)

From Stdlib Require Import SpecFloat.
From S2P Require Import Prelude Path Numbers Text Domain PageFormat ContainerLogs.

Local Open Scope Z_scope.

Definition STATS_HISTORY_CAPACITY : nat := 600.

Inductive LiveStatsStatus := Stats_Idle | Stats_Streaming | Stats_Ready | Stats_Error.
Definition stats_status_name (self : LiveStatsStatus) : text :=
  match self with
  | Stats_Idle => bytes "idle"
  | Stats_Streaming => bytes "streaming"
  | Stats_Ready => bytes "ready"
  | Stats_Error => bytes "error"
  end.

Record StatsTarget := mkStatsTarget { sg_id : text; sg_name : text }.
#[export] Instance StatsTarget_eq_dec : EqDecision StatsTarget.
Proof. solve_decision. Defined.

Record StatsReading := mkStatsReading {
  sr_cpu_percent : f64;
  sr_memory_raw_bytes : Z;
  sr_memory_working_set_bytes : option Z;
  sr_memory_limit_bytes : Z;
  sr_network_rx_bytes : Z;
  sr_network_tx_bytes : Z;
  sr_block_read_bytes : Z;
  sr_block_write_bytes : Z;
  sr_pids : Z;
  sr_sampled_at : DateTime;
}.

(** [is_finite] and [>= 0.0] *)
Definition is_finite (value : f64) : bool := match value with S754_zero _ | S754_finite _ _ _ => true | _ => false end.
Definition finite_non_negative (value : f64) : f64 :=
  if is_finite value && SFleb (S754_zero false) value then value else S754_zero false.

Definition stats_reading (value : ContainerStats) : StatsReading :=
  mkStatsReading (finite_non_negative (st_cpu_percent value)) (st_memory_usage_bytes value) None (st_memory_limit_bytes value)
    (st_network_rx_bytes value) (st_network_tx_bytes value) (st_block_read_bytes value) (st_block_write_bytes value)
    (default 0 (st_pids value)) (st_sampled_at value).

Record AggregateStats := mkAggregateStats {
  ag_cpu_percent : f64;
  ag_memory_raw_bytes : Z;
  ag_memory_working_set_bytes : option Z;
  ag_memory_limit_bytes : Z;
  ag_network_rx_bytes : Z;
  ag_network_tx_bytes : Z;
  ag_block_read_bytes : Z;
  ag_block_write_bytes : Z;
  ag_pids : Z;
  ag_sampled_at : option DateTime;
  ag_reporting_count : Z;
}.
Definition AggregateStats_default : AggregateStats := mkAggregateStats (S754_zero false) 0 None 0 0 0 0 0 0 None 0.

Record StatsHistoryPoint := mkStatsHistoryPoint {
  hp_sampled_at : DateTime;
  hp_cpu_percent : f64;
  hp_memory_raw_bytes : Z;
  hp_memory_working_set_bytes : option Z;
  hp_network_rx_bytes : Z;
  hp_network_tx_bytes : Z;
}.

Record ContainerStatsState := mkContainerStatsState {
  cs_selection_kind : text;
  cs_selection_id : text;
  cs_targets : list StatsTarget;
  cs_active : bool;
  cs_generation : Z;
  cs_status : LiveStatsStatus;
  cs_error_message : text;
  cs_latest : gmap text StatsReading;
  cs_history : list StatsHistoryPoint;
}.

Definition set_cs_selection_kind (v : text) (self : ContainerStatsState) : ContainerStatsState :=
  mkContainerStatsState v (cs_selection_id self) (cs_targets self) (cs_active self) (cs_generation self)
    (cs_status self) (cs_error_message self) (cs_latest self) (cs_history self).
Definition set_cs_selection_id (v : text) (self : ContainerStatsState) : ContainerStatsState :=
  mkContainerStatsState (cs_selection_kind self) v (cs_targets self) (cs_active self) (cs_generation self)
    (cs_status self) (cs_error_message self) (cs_latest self) (cs_history self).
Definition set_cs_targets (v : list StatsTarget) (self : ContainerStatsState) : ContainerStatsState :=
  mkContainerStatsState (cs_selection_kind self) (cs_selection_id self) v (cs_active self) (cs_generation self)
    (cs_status self) (cs_error_message self) (cs_latest self) (cs_history self).
Definition set_cs_active (v : bool) (self : ContainerStatsState) : ContainerStatsState :=
  mkContainerStatsState (cs_selection_kind self) (cs_selection_id self) (cs_targets self) v (cs_generation self)
    (cs_status self) (cs_error_message self) (cs_latest self) (cs_history self).
Definition set_cs_generation (v : Z) (self : ContainerStatsState) : ContainerStatsState :=
  mkContainerStatsState (cs_selection_kind self) (cs_selection_id self) (cs_targets self) (cs_active self) v
    (cs_status self) (cs_error_message self) (cs_latest self) (cs_history self).
Definition set_cs_status (v : LiveStatsStatus) (self : ContainerStatsState) : ContainerStatsState :=
  mkContainerStatsState (cs_selection_kind self) (cs_selection_id self) (cs_targets self) (cs_active self)
    (cs_generation self) v (cs_error_message self) (cs_latest self) (cs_history self).
Definition set_cs_error_message (v : text) (self : ContainerStatsState) : ContainerStatsState :=
  mkContainerStatsState (cs_selection_kind self) (cs_selection_id self) (cs_targets self) (cs_active self)
    (cs_generation self) (cs_status self) v (cs_latest self) (cs_history self).
Definition set_cs_latest (v : gmap text StatsReading) (self : ContainerStatsState) : ContainerStatsState :=
  mkContainerStatsState (cs_selection_kind self) (cs_selection_id self) (cs_targets self) (cs_active self)
    (cs_generation self) (cs_status self) (cs_error_message self) v (cs_history self).
Definition set_cs_history (v : list StatsHistoryPoint) (self : ContainerStatsState) : ContainerStatsState :=
  mkContainerStatsState (cs_selection_kind self) (cs_selection_id self) (cs_targets self) (cs_active self)
    (cs_generation self) (cs_status self) (cs_error_message self) (cs_latest self) v.
Definition ContainerStatsState_default : ContainerStatsState :=
  mkContainerStatsState (bytes "none") [] [] false 0 Stats_Idle [] ∅ [].

(** ** Targets *)
Definition is_running (states : list text) (index : nat) : bool :=
  from_option (fun state => eq_ignore_ascii_case state (bytes "running")) false (states !! index).
Definition target_name (names : list text) (index : nat) (id : text) : text :=
  match names !! index with Some name => if is_empty name then take_chars 12 id else name | None => take_chars 12 id end.

(** The loop from [index] on. *)
Fixpoint stats_targets_loop (kind : text) (states names : list text) (index : nat) (ids : list text) (result : list StatsTarget)
  : list StatsTarget :=
  match ids with
  | [] => result
  | id :: ids =>
      if is_empty (trim id) || negb (is_running states index) || key_exists sg_id id result
      then stats_targets_loop kind states names (S index) ids result
      else
        let result := result ++ [mkStatsTarget id (target_name names index id)] in
        if bool_decide (kind = bytes "container") then result else stats_targets_loop kind states names (S index) ids result
  end.
Definition stats_targets (kind selection_id : text) (ids states names : list text) : list StatsTarget :=
  if bool_decide (kind = bytes "none") || is_empty (trim selection_id) then [] else stats_targets_loop kind states names 0 ids [].

(** ** Samples *)

(** The order in which the values of a hash map come. *)
Class ValueOrder := {
  map_values : gmap text StatsReading → list StatsReading;
  map_values_perm m : map_values m ≡ₚ (map_to_list m).*2;
}.

Section stats.
Context {VO : ValueOrder}.
Implicit Types self s : ContainerStatsState.

(** One turn of the loop, with the working set so far and whether all have one. *)
Definition aggregate_step (acc : AggregateStats * Z * bool) (reading : StatsReading) : AggregateStats * Z * bool :=
  let '(result, working_total, all_have_working) := acc in
  let add := saturating_add u64_max in
  let result := mkAggregateStats
    (SFadd 53 1024 (ag_cpu_percent result) (finite_non_negative (sr_cpu_percent reading)))
    (add (ag_memory_raw_bytes result) (sr_memory_raw_bytes reading)) None
    (add (ag_memory_limit_bytes result) (sr_memory_limit_bytes reading))
    (add (ag_network_rx_bytes result) (sr_network_rx_bytes reading)) (add (ag_network_tx_bytes result) (sr_network_tx_bytes reading))
    (add (ag_block_read_bytes result) (sr_block_read_bytes reading)) (add (ag_block_write_bytes result) (sr_block_write_bytes reading))
    (add (ag_pids result) (sr_pids reading))
    (Some (from_option (fun current => Z.max current (sr_sampled_at reading)) (sr_sampled_at reading) (ag_sampled_at result)))
    (ag_reporting_count result + 1) in
  match sr_memory_working_set_bytes reading with
  | Some value => (result, add working_total value, all_have_working)
  | None => (result, working_total, false)
  end.

Definition with_working_set (v : option Z) (a : AggregateStats) : AggregateStats :=
  mkAggregateStats (ag_cpu_percent a) (ag_memory_raw_bytes a) v (ag_memory_limit_bytes a) (ag_network_rx_bytes a) (ag_network_tx_bytes a)
    (ag_block_read_bytes a) (ag_block_write_bytes a) (ag_pids a) (ag_sampled_at a) (ag_reporting_count a).

Definition aggregate self : AggregateStats :=
  let '(result, working_total, all_have_working) :=
    foldl aggregate_step (AggregateStats_default, 0, negb (bool_decide (cs_latest self = ∅))) (map_values (cs_latest self)) in
  with_working_set (if all_have_working then Some working_total else None) result.

Definition memory_percent self : f64 :=
  let value := aggregate self in
  if ag_memory_limit_bytes value =? 0 then S754_zero false
  else SFmul 53 1024 (SFdiv 53 1024 (f64_of (ag_memory_raw_bytes value)) (f64_of (ag_memory_limit_bytes value))) (f64_of 100).

(** ** The view *)
Definition should_stream self : bool :=
  cs_active self && negb (bool_decide (cs_selection_kind self = bytes "none")) && negb (is_empty (cs_targets self)).
Definition stream_status self : ContainerStatsState := set_cs_status (if should_stream self then Stats_Streaming else Stats_Idle) self.
Definition next_generation self : ContainerStatsState := set_cs_generation (wrapping_add 64 (cs_generation self) 1) self.

Definition reset_samples self : ContainerStatsState :=
  stream_status (set_cs_error_message [] (set_cs_history [] (set_cs_latest ∅ self))).

Definition set_selection (kind id : text) (ids states names : list text) self : bool * ContainerStatsState :=
  let kind := normalize_kind kind in
  let targets := stats_targets kind id ids states names in
  if bool_decide (cs_selection_kind self = kind) && bool_decide (cs_selection_id self = id) && bool_decide (cs_targets self = targets)
  then (false, self)
  else
    let self := set_cs_selection_kind kind (next_generation self) in
    let self := set_cs_selection_id (if bool_decide (kind = bytes "none") then [] else id) self in
    (true, reset_samples (set_cs_targets targets self)).

Definition set_active (active : bool) self : bool * ContainerStatsState :=
  if Bool.eqb (cs_active self) active then (false, self)
  else (true, stream_status (set_cs_error_message [] (next_generation (set_cs_active active self)))).

Definition begin_stream self : option (Z * list StatsTarget) * ContainerStatsState :=
  if negb (should_stream self) then (None, set_cs_status Stats_Idle self)
  else
    let self := set_cs_error_message [] (set_cs_status Stats_Streaming (next_generation self)) in
    (Some (cs_generation self, cs_targets self), self).

(** [DateTime::timestamp]: whole seconds *)
Definition timestamp (t : DateTime) : Z := t / 1000000000.

Definition drop_same_second (sampled_at : DateTime) (history : list StatsHistoryPoint) : list StatsHistoryPoint :=
  match list.last history with
  | Some previous => if timestamp (hp_sampled_at previous) =? timestamp sampled_at then removelast history else history
  | None => history
  end.
(** Points are dropped at the front until there is room for one more. *)
Definition push_ring (history : list StatsHistoryPoint) (point : StatsHistoryPoint) : list StatsHistoryPoint :=
  drop (length history - (STATS_HISTORY_CAPACITY - 1)) history ++ [point].

Definition apply_sample (generation : Z) (container_id : text) (sample : StatsReading) self : bool * ContainerStatsState :=
  if negb (generation =? cs_generation self) || negb (should_stream self) || negb (key_exists sg_id container_id (cs_targets self))
  then (false, self)
  else
    let self := set_cs_latest (<[container_id := sample]> (cs_latest self)) self in
    let aggregate := aggregate self in
    match ag_sampled_at aggregate with
    | None => (false, self)
    | Some sampled_at =>
        let point := mkStatsHistoryPoint sampled_at (ag_cpu_percent aggregate) (ag_memory_raw_bytes aggregate)
          (ag_memory_working_set_bytes aggregate) (ag_network_rx_bytes aggregate) (ag_network_tx_bytes aggregate) in
        let self := set_cs_history (push_ring (drop_same_second sampled_at (cs_history self)) point) self in
        (true, set_cs_error_message [] (set_cs_status Stats_Ready self))
    end.

Definition apply_error (generation : Z) (message : text) self : bool * ContainerStatsState :=
  if negb (generation =? cs_generation self) || negb (cs_active self) then (false, self)
  else (true, set_cs_error_message message (set_cs_status Stats_Error self)).

Definition shutdown self : ContainerStatsState :=
  let self := set_cs_status Stats_Idle (next_generation (set_cs_active false self)) in
  set_cs_error_message [] (set_cs_history [] (set_cs_latest ∅ self)).

(** ** Sequences of events *)
Inductive stats_op :=
  | SSelect (kind id : text) (ids states names : list text)
  | SActive (active : bool)
  | SBegin
  | SSample (generation : Z) (container_id : text) (sample : StatsReading)
  | SError (generation : Z) (message : text)
  | SShutdown.

Definition stats_step self (op : stats_op) : ContainerStatsState :=
  match op with
  | SSelect kind id ids states names => (set_selection kind id ids states names self).2
  | SActive active => (set_active active self).2
  | SBegin => (begin_stream self).2
  | SSample generation container_id sample => (apply_sample generation container_id sample self).2
  | SError generation message => (apply_error generation message self).2
  | SShutdown => shutdown self
  end.
Definition stats_run (ops : list stats_op) : ContainerStatsState := foldl stats_step ContainerStatsState_default ops.

(** ** The sum over a group *)
Definition reading_typed (r : StatsReading) : bool :=
  (0 <=? sr_memory_raw_bytes r) && (0 <=? default 0 (sr_memory_working_set_bytes r)) && (0 <=? sr_memory_limit_bytes r)
  && (0 <=? sr_network_rx_bytes r) && (0 <=? sr_network_tx_bytes r) && (0 <=? sr_block_read_bytes r) && (0 <=? sr_block_write_bytes r)
  && (0 <=? sr_pids r).
Definition total (f : StatsReading → Z) (l : list StatsReading) : Z := foldr (fun r acc => f r + acc) 0 l.

Lemma readings_total_perm f l k : l ≡ₚ k → total f l = total f k.
Proof. unfold total. induction 1; cbn; lia. Qed.
Lemma readings_total_app f l k : total f (l ++ k) = total f l + total f k.
Proof. unfold total. induction l; cbn; lia. Qed.

(** What the loop has after the readings [l]. *)
Definition sums (any : bool) (l : list StatsReading) (acc : AggregateStats * Z * bool) : Prop :=
  let '(a, working, all) := acc in
  let sum f := Z.min u64_max (total f l) in
  ag_memory_raw_bytes a = sum sr_memory_raw_bytes ∧ ag_memory_limit_bytes a = sum sr_memory_limit_bytes
  ∧ ag_network_rx_bytes a = sum sr_network_rx_bytes ∧ ag_network_tx_bytes a = sum sr_network_tx_bytes
  ∧ ag_block_read_bytes a = sum sr_block_read_bytes ∧ ag_block_write_bytes a = sum sr_block_write_bytes
  ∧ ag_pids a = sum sr_pids ∧ ag_reporting_count a = len l
  ∧ working = sum (fun r => default 0 (sr_memory_working_set_bytes r))
  ∧ all = any && forallb (fun r => match sr_memory_working_set_bytes r with Some _ => true | None => false end) l.

Lemma sums_step any l acc r :
  Forall (fun r => reading_typed r = true) (l ++ [r]) → sums any l acc → sums any (l ++ [r]) (aggregate_step acc r).
Proof.
  destruct acc as [[a working] all]. intros Ht (E1 & E2 & E3 & E4 & E5 & E6 & E7 & E8 & E9 & E10).
  assert (∀ f, (∀ r, reading_typed r = true → 0 ≤ f r) → Z.min u64_max (Z.min u64_max (total f l) + f r) = Z.min u64_max (total f (l ++ [r]))) as Hadd.
  { intros f Hf. rewrite readings_total_app. change (total f [r]) with (f r + 0).
    assert (0 ≤ total f l) by (clear -Ht Hf; apply Forall_app in Ht as [Ht _]; induction Ht as [|x l Hx Hl IH]; [done | change (total f (x :: l)) with (f x + total f l); specialize (Hf x Hx); lia]).
    assert (0 ≤ f r) by (apply Forall_app in Ht as [_ Ht]; inversion Ht; auto). lia. }
  assert (∀ r, reading_typed r = true → 0 ≤ sr_memory_raw_bytes r ∧ 0 ≤ default 0 (sr_memory_working_set_bytes r) ∧ 0 ≤ sr_memory_limit_bytes r
    ∧ 0 ≤ sr_network_rx_bytes r ∧ 0 ≤ sr_network_tx_bytes r ∧ 0 ≤ sr_block_read_bytes r ∧ 0 ≤ sr_block_write_bytes r ∧ 0 ≤ sr_pids r) as Hpos.
  { intros x. unfold reading_typed. rewrite !andb_true_iff, !Z.leb_le. tauto. }
  assert (∀ f, (∀ r, reading_typed r = true → 0 ≤ f r) → saturating_add u64_max (Z.min u64_max (total f l)) (f r) = Z.min u64_max (total f (l ++ [r]))) as Hsat
    by exact Hadd.
  unfold aggregate_step, sums. rewrite forallb_app. cbn [forallb].
  destruct (sr_memory_working_set_bytes r) as [v|] eqn:Ew; cbn [ag_memory_raw_bytes ag_memory_limit_bytes ag_network_rx_bytes ag_network_tx_bytes
    ag_block_read_bytes ag_block_write_bytes ag_pids ag_reporting_count];
    rewrite E1, E2, E3, E4, E5, E6, E7, E8, ?E9, ?E10; split_and!; try (apply Hsat; intros x Hx; by apply Hpos); try (rewrite len_app; reflexivity).
  - rewrite <- Hsat by (intros x Hx; by apply Hpos). by rewrite Ew.
  - by rewrite !andb_true_r.
  - rewrite <- Hsat by (intros x Hx; by apply Hpos). rewrite Ew. unfold saturating_add. cbn [default from_option]. lia.
  - by rewrite !andb_false_r.
Qed.

Lemma sums_fold any l k acc :
  Forall (fun r => reading_typed r = true) (l ++ k) → sums any l acc → sums any (l ++ k) (foldl aggregate_step acc k).
Proof.
  revert l acc. induction k as [|r k IH]; intros l acc Ht Hs; [by rewrite app_nil_r |]. cbn [foldl].
  change (r :: k) with ([r] ++ k) in *. rewrite (assoc_L (++)) in Ht |- *. apply IH; [done |]. apply sums_step; [| done].
  by apply Forall_app in Ht as [? _].
Qed.

(** *** The history *)
Fixpoint seconds_differ (l : list StatsHistoryPoint) : Prop :=
  match l with
  | a :: (b :: _) as l' => timestamp (hp_sampled_at a) ≠ timestamp (hp_sampled_at b) ∧ seconds_differ l'
  | _ => True
  end.
Definition history_ok (l : list StatsHistoryPoint) : Prop := (length l ≤ STATS_HISTORY_CAPACITY)%nat ∧ seconds_differ l.

Lemma seconds_differ_suffix l k : seconds_differ (l ++ k) → seconds_differ k.
Proof. induction l as [|a l IH]; [done |]. intros H. apply IH. cbn in H. destruct (l ++ k); [done | by destruct H]. Qed.
Lemma seconds_differ_prefix l k : seconds_differ (l ++ k) → seconds_differ l.
Proof.
  induction l as [|a l IH]; [done |]. cbn. destruct l as [|b l]; [done |]. cbn. intros [? H]. split; [done | by apply IH].
Qed.
Lemma seconds_differ_snoc l p :
  seconds_differ l → match list.last l with Some q => timestamp (hp_sampled_at q) ≠ timestamp (hp_sampled_at p) | None => True end →
  seconds_differ (l ++ [p]).
Proof.
  induction l as [|a l IH]; [done |]. destruct l as [|b l]; [by intros _ ? |]. intros [? H] Hl. split; [done | by apply IH].
Qed.

Lemma drop_same_second_ok t l :
  history_ok l → seconds_differ l → history_ok (drop_same_second t l)
  ∧ match list.last (drop_same_second t l) with Some q => timestamp (hp_sampled_at q) ≠ timestamp t | None => True end.
Proof.
  intros [Hl Hd] _. unfold drop_same_second. destruct l as [|q l _] using rev_ind; [done |]. rewrite last_snoc, removelast_last.
  destruct (Z.eqb_spec (timestamp (hp_sampled_at q)) (timestamp t)) as [E|E].
  - split; [split; [rewrite length_app in Hl; cbn in Hl; lia | by apply seconds_differ_prefix in Hd] |].
    destruct l as [|p l _] using rev_ind; [done |]. rewrite last_snoc. rewrite <- (assoc_L (++)) in Hd. apply seconds_differ_suffix in Hd.
    cbn in Hd. destruct Hd as [Hd _]. congruence.
  - split; [done |]. by rewrite last_snoc.
Qed.

Lemma push_ring_ok l p :
  history_ok l → match list.last l with Some q => timestamp (hp_sampled_at q) ≠ timestamp (hp_sampled_at p) | None => True end →
  history_ok (push_ring l p).
Proof.
  intros [Hl Hd] Hp. unfold push_ring. set (n := (length l - (STATS_HISTORY_CAPACITY - 1))%nat). split.
  - rewrite length_app, length_drop. unfold n, STATS_HISTORY_CAPACITY. cbn [length]. lia.
  - apply seconds_differ_snoc.
    + apply (seconds_differ_suffix (take n l)). by rewrite take_drop.
    + destruct (list.last (drop n l)) as [q|] eqn:E; [| done]. rewrite <- (take_drop n l), last_app, E in Hp. exact Hp.
Qed.

(** *** The invariant *)
Definition latest_ok s : Prop := ∀ id, is_Some (cs_latest s !! id) → key_exists sg_id id (cs_targets s) = true.
Definition targets_ok (l : list StatsTarget) : Prop := NoDup (sg_id <$> l).

Record stats_inv s : Prop := {
  si_targets : targets_ok (cs_targets s);
  si_latest : latest_ok s;
  si_history : history_ok (cs_history s);
}.

Lemma stats_targets_loop_ok kind states names ids index result :
  targets_ok result → targets_ok (stats_targets_loop kind states names index ids result).
Proof.
  revert index result. induction ids as [|id ids IH]; intros index result Hr; [done |]. cbn [stats_targets_loop].
  destruct (_ || key_exists sg_id id result) eqn:E; [by apply IH |]. apply orb_false_iff in E as [_ E].
  assert (targets_ok (result ++ [mkStatsTarget id (target_name names index id)])) as Hn.
  { unfold targets_ok. rewrite fmap_app. apply list.NoDup_app. split_and!; [done | | apply NoDup_singleton].
    intros x Hx Hin. apply list_elem_of_singleton in Hin as ->. rewrite key_exists_keys in E. by apply bool_decide_eq_false in E. }
  case_bool_decide; [done | by apply IH].
Qed.
Lemma stats_targets_ok kind id ids states names : targets_ok (stats_targets kind id ids states names).
Proof. unfold stats_targets. destruct (_ || _); [constructor |]. apply stats_targets_loop_ok. constructor. Qed.

Lemma sample_inv g id r s : stats_inv s → stats_inv (apply_sample g id r s).2.
Proof.
  intros Hi. pose proof Hi as [Ht Hl Hh]. unfold apply_sample. destruct (_ || _) eqn:E; [done |].
  apply orb_false_iff in E as [_ E%negb_false_iff]. set (s1 := set_cs_latest _ s).
  assert (latest_ok s1) as Hl1.
  { intros x [v Hx]. cbn in Hx |- *. apply lookup_insert_Some in Hx as [[<- _]|[_ Hx]]; [done | apply Hl; eauto]. }
  generalize (aggregate s1). intros a. destruct (ag_sampled_at a) as [t|]; cbn [snd]; [| by split].
  split; [exact Ht | exact Hl1 |]. destruct (drop_same_second_ok t (cs_history s)) as [H1 H2]; [done | apply Hh |]. by apply push_ring_ok.
Qed.

Lemma stats_step_inv s op : stats_inv s → stats_inv (stats_step s op).
Proof.
  assert (∀ s : ContainerStatsState, latest_ok (set_cs_latest ∅ s)) as Hempty by (intros s' x [v Hx]; cbn in Hx; by rewrite ?lookup_empty in Hx).
  assert (history_ok []) as Hnil by (split; [cbn; lia | done]).
  intros Hi. pose proof Hi as [Ht Hl Hh]. destruct op as [k id ids st nm|b| |g id r|g m|]; cbn [stats_step].
  - unfold set_selection. destruct (_ && _); [done |]. cbn [snd]. split; [apply stats_targets_ok | apply Hempty | exact Hnil].
  - unfold set_active. destruct (Bool.eqb _ _); [done |]. by split.
  - unfold begin_stream. destruct (negb _); by split.
  - by apply sample_inv.
  - unfold apply_error. destruct (_ || _); [done |]. by split.
  - split; [exact Ht | apply Hempty | exact Hnil].
Qed.

Lemma stats_run_inv ops : stats_inv (stats_run ops).
Proof.
  unfold stats_run. assert (stats_inv ContainerStatsState_default) as Hi.
  { split; [constructor | intros x [v Hx]; cbn in Hx; by rewrite ?lookup_empty in Hx | split; [cbn; lia | done]]. }
  generalize dependent ContainerStatsState_default. induction ops as [|op ops IH]; intros s Hs; [done |]. apply IH. by apply stats_step_inv.
Qed.

(** The live statistics are of the selection and bounded.  After any sequence of
    selections, samples and errors, current or late: no container is listed twice
    as a target; a reading is kept only for a target; the history has at most 600
    points, and no two neighbours of the same second; and for every order in which
    the readings are visited, each counter of the sum is the sum over the targets
    that report (held at the largest 64-bit number), the working set is known only
    if every one of them has it, and their number is counted. *)
Theorem stats_view_exact ops :
  let s := stats_run ops in
  let a := aggregate s in
  let readings := (map_to_list (cs_latest s)).*2 in
  let sum f := Z.min u64_max (total f readings) in
  NoDup (sg_id <$> cs_targets s)
  ∧ (∀ id, is_Some (cs_latest s !! id) → ∃ t, t ∈ cs_targets s ∧ sg_id t = id)
  ∧ (length (cs_history s) ≤ 600)%nat ∧ seconds_differ (cs_history s)
  ∧ (forallb reading_typed readings = true →
     ag_memory_raw_bytes a = sum sr_memory_raw_bytes ∧ ag_memory_limit_bytes a = sum sr_memory_limit_bytes
     ∧ ag_network_rx_bytes a = sum sr_network_rx_bytes ∧ ag_network_tx_bytes a = sum sr_network_tx_bytes
     ∧ ag_block_read_bytes a = sum sr_block_read_bytes ∧ ag_block_write_bytes a = sum sr_block_write_bytes
     ∧ ag_pids a = sum sr_pids ∧ ag_reporting_count a = Z.of_nat (size (cs_latest s))
     ∧ (is_Some (ag_memory_working_set_bytes a) ↔ cs_latest s ≠ ∅ ∧ Forall (fun r => is_Some (sr_memory_working_set_bytes r)) readings)).
Proof.
  intros s a readings sum. destruct (stats_run_inv ops) as [Ht Hl [Hh Hd]]. fold s in Ht, Hl, Hh, Hd. split_and!; [done | | done | done |].
  - intros id Hid%Hl. by apply key_exists_spec.
  - intros Htyped. unfold a, aggregate. pose proof (map_values_perm (cs_latest s)) as Hperm. fold readings in Hperm.
    assert (Forall (fun r => reading_typed r = true) (map_values (cs_latest s))) as Htv.
    { rewrite Hperm. apply list.Forall_forall. intros r Hr. rewrite forallb_forall in Htyped. by apply Htyped, list_elem_of_In. }
    set (any := negb _). pose proof (sums_fold any [] (map_values (cs_latest s)) (AggregateStats_default, 0, any) Htv) as Hs.
    rewrite app_nil_l in Hs. destruct (foldl _ _ _) as [[r working] all].
    destruct Hs as (E1 & E2 & E3 & E4 & E5 & E6 & E7 & E8 & _ & E10).
    { split_and!; try reflexivity. by rewrite andb_true_r. }
    assert (∀ f, total f (map_values (cs_latest s)) = total f readings) as Hsum by (intros f; by apply readings_total_perm).
    rewrite !Hsum in *. unfold sum. cbn [with_working_set ag_memory_raw_bytes ag_memory_limit_bytes ag_network_rx_bytes ag_network_tx_bytes
      ag_block_read_bytes ag_block_write_bytes ag_pids ag_reporting_count ag_memory_working_set_bytes].
    split_and!; [done.. | |].
    + rewrite E8. unfold len. rewrite Hperm. unfold readings. rewrite length_fmap. by rewrite length_map_to_list.
    + rewrite E10. unfold any. transitivity (negb (bool_decide (cs_latest s = ∅)) && forallb (fun r => match sr_memory_working_set_bytes r with Some _ => true | None => false end) (map_values (cs_latest s)) = true).
      { destruct (_ && _); [split; eauto | split; [by intros [? ?] | done]]. }
      rewrite andb_true_iff, negb_true_iff, bool_decide_eq_false, forallb_forall. apply and_iff_compat_l. rewrite list.Forall_forall. split.
      * intros H x Hx. specialize (H x). rewrite <- Hperm in Hx. rewrite list_elem_of_In in Hx. specialize (H Hx). by destruct (sr_memory_working_set_bytes x).
      * intros H x Hx. rewrite <- list_elem_of_In, Hperm in Hx. destruct (H x Hx) as [v ->]. done.
Qed.
End stats.
