(* ===== verification/TerminalPage.v ===== *)
(** The terminal page (crates/gui/src/controllers/container_terminal.rs): the
    renderer around the VT100 parser, the bytes of keys, and the life of a
    terminal session.

    The parser is that of the vt100 crate, a parameter. *)

From S2P Require Import Prelude Path Numbers Text Utf8 Domain DockerError PageFormat.

Local Open Scope Z_scope.

Definition DEFAULT_TERMINAL_ROWS : Z := 24.
Definition DEFAULT_TERMINAL_COLUMNS : Z := 80.
Definition TERMINAL_SCROLLBACK_ROWS : Z := 2000.

Inductive TerminalSelectionAction := Action_None | Action_Connect (generation : Z) | Action_Close (generation : Z).
Record PendingResize := mkPendingResize { pz_generation : Z; pz_rows : Z; pz_columns : Z }.
Record TerminalScreenSnapshot := mkTerminalScreenSnapshot {
  ss_rows : list text;
  ss_row_count : Z;
  ss_column_count : Z;
  ss_cursor_row : Z;
  ss_cursor_column : Z;
  ss_cursor_visible : bool;
  ss_alternate_screen : bool;
  ss_scrollback : Z;
}.

(** ** The renderer *)
Class Vt100 := {
  Parser : Type;
  parser_new : Z → Z → Z → Parser;
  parser_process : list byte → Parser → Parser;
  screen_size : Parser → Z * Z;
  screen_set_size : Z → Z → Parser → Parser;
  screen_scrollback : Parser → Z;
  screen_set_scrollback : Z → Parser → Parser;
  screen_rows : Parser → Z → Z → list text;
  screen_cursor_position : Parser → Z * Z;
  screen_hide_cursor : Parser → bool;
  screen_alternate_screen : Parser → bool;
  screen_application_cursor : Parser → bool;
  screen_bracketed_paste : Parser → bool;
}.

Section renderer.
Context {VT : Vt100}.

Record ContainerTerminalRenderer := mkRenderer { rd_generation : Z; rd_parser : Parser }.
Implicit Types self : ContainerTerminalRenderer.

Definition renderer_new (generation rows columns : Z) : ContainerTerminalRenderer :=
  mkRenderer generation (parser_new (Z.max rows 1) (Z.max columns 1) TERMINAL_SCROLLBACK_ROWS).
Definition renderer_default : ContainerTerminalRenderer := renderer_new 0 DEFAULT_TERMINAL_ROWS DEFAULT_TERMINAL_COLUMNS.

Definition process (generation : Z) (data : list byte) self : bool * ContainerTerminalRenderer :=
  if negb (generation =? rd_generation self) || is_empty data then (false, self)
  else (true, mkRenderer (rd_generation self) (parser_process data (rd_parser self))).

Definition resize (generation rows columns : Z) self : bool * ContainerTerminalRenderer :=
  if negb (generation =? rd_generation self) || (rows =? 0) || (columns =? 0) then (false, self)
  else if bool_decide (screen_size (rd_parser self) = (rows, columns)) then (false, self)
  else (true, mkRenderer (rd_generation self) (screen_set_size rows columns (rd_parser self))).

Definition scroll_target (current lines : Z) : Z :=
  if 0 <? lines then saturating_add usize_max current lines else saturating_sub current (Z.abs lines).
Definition scroll_lines (generation lines : Z) self : bool * ContainerTerminalRenderer :=
  if negb (generation =? rd_generation self) || (lines =? 0) then (false, self)
  else
    let current := screen_scrollback (rd_parser self) in
    let parser := screen_set_scrollback (scroll_target current lines) (rd_parser self) in
    (negb (screen_scrollback parser =? current), mkRenderer (rd_generation self) parser).

Definition snap_to_bottom (generation : Z) self : bool * ContainerTerminalRenderer :=
  if negb (generation =? rd_generation self) || (screen_scrollback (rd_parser self) =? 0) then (false, self)
  else (true, mkRenderer (rd_generation self) (screen_set_scrollback 0 (rd_parser self))).

Definition application_cursor self : bool := screen_application_cursor (rd_parser self).
Definition bracketed_paste self : bool := screen_bracketed_paste (rd_parser self).

Definition snapshot self : TerminalScreenSnapshot :=
  let screen := rd_parser self in
  let '(row_count, column_count) := screen_size screen in
  let '(cursor_row, cursor_column) := screen_cursor_position screen in
  mkTerminalScreenSnapshot (screen_rows screen 0 column_count) row_count column_count cursor_row cursor_column
    (negb (screen_hide_cursor screen) && (screen_scrollback screen =? 0)) (screen_alternate_screen screen) (screen_scrollback screen).
End renderer.

(** ** Keys *)
Definition ESC : byte := of_u8 0x1b.

(** What is sent for a named key, given the cursor mode. *)
Definition named_key (key : text) (application_cursor : bool) : option (list byte) :=
  let named name := bool_decide (key = bytes name) in
  let cursor (final : string) := Some (ESC :: (if application_cursor then bytes "O" else bytes "[") ++ bytes final) in
  if named "enter"%string then Some [of_u8 13]
  else if named "backspace"%string then Some [of_u8 0x7f]
  else if named "tab"%string then Some [of_u8 9]
  else if named "escape"%string then Some [ESC]
  else if named "up"%string then cursor "A"%string
  else if named "down"%string then cursor "B"%string
  else if named "right"%string then cursor "C"%string
  else if named "left"%string then cursor "D"%string
  else if named "home"%string then cursor "H"%string
  else if named "end"%string then cursor "F"%string
  else if named "pageup"%string then Some (ESC :: bytes "[5~")
  else if named "pagedown"%string then Some (ESC :: bytes "[6~")
  else if named "delete"%string then Some (ESC :: bytes "[3~")
  else if named "insert"%string then Some (ESC :: bytes "[2~")
  else None.

Definition terminal_key_bytes (key : text) (application_cursor : bool) : option (list byte) :=
  let key := to_ascii_lowercase key in
  match named_key key application_cursor with
  | Some data => Some data
  | None =>
      if (len key =? 6) && starts_with key (bytes "ctrl+") then
        match key !! 5%nat with
        | Some letter => if (97 <=? u8 letter) && (u8 letter <=? 122) then Some [of_u8 (u8 letter - 97 + 1)] else None
        | None => None
        end
      else None
  end.

Definition terminal_paste_bytes (pasted : text) (bracketed_paste : bool) : list byte :=
  if bracketed_paste then ESC :: bytes "[200~" ++ pasted ++ ESC :: bytes "[201~" else pasted.

(** ** The session *)
Inductive ContainerTerminalState := Term_Idle | Term_Connecting | Term_Ready | Term_Exited | Term_Error.
#[export] Instance ContainerTerminalState_eq_dec : EqDecision ContainerTerminalState.
Proof. solve_decision. Defined.

Record ContainerTerminalControllerState := mkTerminalState {
  ct_state : ContainerTerminalState;
  ct_container_id : text;
  ct_selected_running : bool;
  ct_active : bool;
  ct_shell : text;
  ct_error_kind : text;
  ct_error_message : text;
  ct_exit_code : option Z;
  ct_rows : Z;
  ct_columns : Z;
  ct_generation : Z;
  ct_input_generation : Z;
  ct_resize_generation : Z;
  ct_pending_resize : option PendingResize;
}.

Definition set_ct_state (v : ContainerTerminalState) (self : ContainerTerminalControllerState) : ContainerTerminalControllerState :=
  mkTerminalState v (ct_container_id self) (ct_selected_running self) (ct_active self) (ct_shell self)
    (ct_error_kind self) (ct_error_message self) (ct_exit_code self) (ct_rows self) (ct_columns self)
    (ct_generation self) (ct_input_generation self) (ct_resize_generation self) (ct_pending_resize self).
Definition set_ct_container_id (v : text) (self : ContainerTerminalControllerState) : ContainerTerminalControllerState :=
  mkTerminalState (ct_state self) v (ct_selected_running self) (ct_active self) (ct_shell self)
    (ct_error_kind self) (ct_error_message self) (ct_exit_code self) (ct_rows self) (ct_columns self)
    (ct_generation self) (ct_input_generation self) (ct_resize_generation self) (ct_pending_resize self).
Definition set_ct_selected_running (v : bool) (self : ContainerTerminalControllerState) : ContainerTerminalControllerState :=
  mkTerminalState (ct_state self) (ct_container_id self) v (ct_active self) (ct_shell self) (ct_error_kind self)
    (ct_error_message self) (ct_exit_code self) (ct_rows self) (ct_columns self) (ct_generation self)
    (ct_input_generation self) (ct_resize_generation self) (ct_pending_resize self).
Definition set_ct_active (v : bool) (self : ContainerTerminalControllerState) : ContainerTerminalControllerState :=
  mkTerminalState (ct_state self) (ct_container_id self) (ct_selected_running self) v (ct_shell self)
    (ct_error_kind self) (ct_error_message self) (ct_exit_code self) (ct_rows self) (ct_columns self)
    (ct_generation self) (ct_input_generation self) (ct_resize_generation self) (ct_pending_resize self).
Definition set_ct_shell (v : text) (self : ContainerTerminalControllerState) : ContainerTerminalControllerState :=
  mkTerminalState (ct_state self) (ct_container_id self) (ct_selected_running self) (ct_active self) v
    (ct_error_kind self) (ct_error_message self) (ct_exit_code self) (ct_rows self) (ct_columns self)
    (ct_generation self) (ct_input_generation self) (ct_resize_generation self) (ct_pending_resize self).
Definition set_ct_error_kind (v : text) (self : ContainerTerminalControllerState) : ContainerTerminalControllerState :=
  mkTerminalState (ct_state self) (ct_container_id self) (ct_selected_running self) (ct_active self)
    (ct_shell self) v (ct_error_message self) (ct_exit_code self) (ct_rows self) (ct_columns self)
    (ct_generation self) (ct_input_generation self) (ct_resize_generation self) (ct_pending_resize self).
Definition set_ct_error_message (v : text) (self : ContainerTerminalControllerState) : ContainerTerminalControllerState :=
  mkTerminalState (ct_state self) (ct_container_id self) (ct_selected_running self) (ct_active self)
    (ct_shell self) (ct_error_kind self) v (ct_exit_code self) (ct_rows self) (ct_columns self)
    (ct_generation self) (ct_input_generation self) (ct_resize_generation self) (ct_pending_resize self).
Definition set_ct_exit_code (v : option Z) (self : ContainerTerminalControllerState) : ContainerTerminalControllerState :=
  mkTerminalState (ct_state self) (ct_container_id self) (ct_selected_running self) (ct_active self)
    (ct_shell self) (ct_error_kind self) (ct_error_message self) v (ct_rows self) (ct_columns self)
    (ct_generation self) (ct_input_generation self) (ct_resize_generation self) (ct_pending_resize self).
Definition set_ct_rows (v : Z) (self : ContainerTerminalControllerState) : ContainerTerminalControllerState :=
  mkTerminalState (ct_state self) (ct_container_id self) (ct_selected_running self) (ct_active self)
    (ct_shell self) (ct_error_kind self) (ct_error_message self) (ct_exit_code self) v (ct_columns self)
    (ct_generation self) (ct_input_generation self) (ct_resize_generation self) (ct_pending_resize self).
Definition set_ct_columns (v : Z) (self : ContainerTerminalControllerState) : ContainerTerminalControllerState :=
  mkTerminalState (ct_state self) (ct_container_id self) (ct_selected_running self) (ct_active self)
    (ct_shell self) (ct_error_kind self) (ct_error_message self) (ct_exit_code self) (ct_rows self) v
    (ct_generation self) (ct_input_generation self) (ct_resize_generation self) (ct_pending_resize self).
Definition set_ct_generation (v : Z) (self : ContainerTerminalControllerState) : ContainerTerminalControllerState :=
  mkTerminalState (ct_state self) (ct_container_id self) (ct_selected_running self) (ct_active self)
    (ct_shell self) (ct_error_kind self) (ct_error_message self) (ct_exit_code self) (ct_rows self)
    (ct_columns self) v (ct_input_generation self) (ct_resize_generation self) (ct_pending_resize self).
Definition set_ct_input_generation (v : Z) (self : ContainerTerminalControllerState) : ContainerTerminalControllerState :=
  mkTerminalState (ct_state self) (ct_container_id self) (ct_selected_running self) (ct_active self)
    (ct_shell self) (ct_error_kind self) (ct_error_message self) (ct_exit_code self) (ct_rows self)
    (ct_columns self) (ct_generation self) v (ct_resize_generation self) (ct_pending_resize self).
Definition set_ct_resize_generation (v : Z) (self : ContainerTerminalControllerState) : ContainerTerminalControllerState :=
  mkTerminalState (ct_state self) (ct_container_id self) (ct_selected_running self) (ct_active self)
    (ct_shell self) (ct_error_kind self) (ct_error_message self) (ct_exit_code self) (ct_rows self)
    (ct_columns self) (ct_generation self) (ct_input_generation self) v (ct_pending_resize self).
Definition set_ct_pending_resize (v : option PendingResize) (self : ContainerTerminalControllerState) : ContainerTerminalControllerState :=
  mkTerminalState (ct_state self) (ct_container_id self) (ct_selected_running self) (ct_active self)
    (ct_shell self) (ct_error_kind self) (ct_error_message self) (ct_exit_code self) (ct_rows self)
    (ct_columns self) (ct_generation self) (ct_input_generation self) (ct_resize_generation self) v.
Definition TerminalState_default : ContainerTerminalControllerState :=
  mkTerminalState Term_Idle [] false false [] [] [] None DEFAULT_TERMINAL_ROWS DEFAULT_TERMINAL_COLUMNS 0 0 0 None.

Definition state_name (self : ContainerTerminalControllerState) : text :=
  match ct_state self with
  | Term_Idle => bytes "idle"
  | Term_Connecting => bytes "connecting"
  | Term_Ready => bytes "ready"
  | Term_Exited => bytes "exited"
  | Term_Error => bytes "error"
  end.

Definition friendly_error (error : ContainerTerminalError) : text * text :=
  match error with
  | CTE_NotRunning => (bytes "not_running", bytes "Start the container to open a terminal.")
  | CTE_Paused => (bytes "paused", bytes "Resume the container to open a terminal.")
  | CTE_ShellNotFound => (bytes "shell_not_found", bytes "No supported shell was found in this container.")
  | CTE_CreateFailed => (bytes "create_failed", bytes "Docker could not create the terminal session.")
  | CTE_StartFailed => (bytes "start_failed", bytes "Docker could not start the terminal session.")
  | CTE_Disconnected => (bytes "disconnected", bytes "The terminal connection was lost.")
  | CTE_ResizeFailed => (bytes "resize_failed", bytes "Docker could not resize the terminal.")
  | CTE_Timeout => (bytes "timeout", bytes "The terminal operation timed out.")
  | CTE_Cancelled => (bytes "cancelled", bytes "The terminal operation was cancelled.")
  | CTE_InvalidOptions => (bytes "invalid_options", bytes "The terminal options are invalid.")
  | CTE_Permission => (bytes "permission", bytes "Permission to use the Docker terminal was denied.")
  | CTE_DockerUnavailable => (bytes "docker_unavailable", bytes "Docker Engine is unavailable.")
  end.

Section session.
Implicit Types self s : ContainerTerminalControllerState.

Definition next (n : Z) : Z := wrapping_add 64 n 1.
(** All three generations advance and a pending resize is dropped. *)
Definition next_generations self : ContainerTerminalControllerState :=
  set_ct_pending_resize None (set_ct_resize_generation (next (ct_resize_generation self))
    (set_ct_input_generation (next (ct_input_generation self)) (set_ct_generation (next (ct_generation self)) self))).
Definition clear_outcome self : ContainerTerminalControllerState :=
  set_ct_exit_code None (set_ct_error_message [] (set_ct_error_kind [] (set_ct_shell [] self))).

Definition begin_connect self : TerminalSelectionAction * ContainerTerminalControllerState :=
  if negb (ct_active self) || negb (ct_selected_running self) || is_empty (ct_container_id self) then (Action_None, self)
  else
    let self := clear_outcome (set_ct_state Term_Connecting (next_generations self)) in
    (Action_Connect (ct_generation self), self).

Definition set_active (active : bool) self : TerminalSelectionAction * ContainerTerminalControllerState :=
  let self := set_ct_active active self in
  if active && ct_selected_running self && bool_decide (ct_state self = Term_Idle) then begin_connect self else (Action_None, self).

Definition has_session self : bool := match ct_state self with Term_Connecting | Term_Ready => true | _ => false end.

Definition select_container (container_id : text) (running : bool) self : TerminalSelectionAction * ContainerTerminalControllerState :=
  let container_id := trim container_id in
  if bool_decide (ct_container_id self = container_id) && Bool.eqb (ct_selected_running self) running then (Action_None, self)
  else
    let had_session := has_session self in
    let self := set_ct_selected_running running (set_ct_container_id container_id (next_generations self)) in
    let self := clear_outcome (set_ct_state Term_Idle self) in
    if ct_active self && running && negb (is_empty container_id) then begin_connect self
    else (if had_session then Action_Close (ct_generation self) else Action_None, self).
Definition clear_selection self : TerminalSelectionAction * ContainerTerminalControllerState := select_container [] false self.

Definition current self (generation : Z) : bool := generation =? ct_generation self.
Definition connecting self : bool := bool_decide (ct_state self = Term_Connecting).

Definition apply_connected (generation : Z) (shell : text) self : bool * ContainerTerminalControllerState :=
  if negb (current self generation) || negb (connecting self) then (false, self)
  else (true, set_ct_shell shell (set_ct_state Term_Ready self)).

Definition show_error (error : ContainerTerminalError) self : ContainerTerminalControllerState :=
  set_ct_error_message (friendly_error error).2 (set_ct_error_kind (friendly_error error).1 self).
Definition connect_error_state (error : ContainerTerminalError) : ContainerTerminalState :=
  match error with CTE_NotRunning | CTE_Paused => Term_Exited | _ => Term_Error end.
Definition apply_connect_error (generation : Z) (error : ContainerTerminalError) self : bool * ContainerTerminalControllerState :=
  if negb (current self generation) || negb (connecting self) then (false, self)
  else (true, show_error error (set_ct_state (connect_error_state error) self)).

Definition accept_input self : option Z * ContainerTerminalControllerState :=
  if negb (bool_decide (ct_state self = Term_Ready)) then (None, self)
  else (Some (next (ct_input_generation self)), set_ct_input_generation (next (ct_input_generation self)) self).

Definition request_resize (rows columns : Z) self : option Z * ContainerTerminalControllerState :=
  if negb (bool_decide (ct_state self = Term_Ready)) || (rows =? 0) || (columns =? 0) then (None, self)
  else if (ct_rows self =? rows) && (ct_columns self =? columns) && match ct_pending_resize self with None => true | Some _ => false end
  then (None, self)
  else
    let generation := next (ct_resize_generation self) in
    let self := set_ct_resize_generation generation (set_ct_columns columns (set_ct_rows rows self)) in
    (Some generation, set_ct_pending_resize (Some (mkPendingResize generation rows columns)) self).

Definition take_pending_resize (generation : Z) self : option PendingResize * ContainerTerminalControllerState :=
  match ct_pending_resize self with
  | Some pending => if pz_generation pending =? generation then (Some pending, set_ct_pending_resize None self) else (None, self)
  | None => (None, self)
  end.

Definition apply_exited (generation : Z) (exit_code : option Z) self : bool * ContainerTerminalControllerState :=
  if negb (current self generation) then (false, self)
  else
    let self := set_ct_exit_code exit_code (set_ct_state Term_Exited self) in
    let self := set_ct_resize_generation (next (ct_resize_generation self)) (set_ct_input_generation (next (ct_input_generation self)) self) in
    (true, set_ct_pending_resize None self).

Definition apply_stream_error (generation : Z) (error : ContainerTerminalError) self : bool * ContainerTerminalControllerState :=
  if negb (current self generation) then (false, self)
  else (true, set_ct_pending_resize None (show_error error (set_ct_state Term_Error self))).

Definition container_event_invalidated (container_id : text) self : TerminalSelectionAction * ContainerTerminalControllerState :=
  if negb (bool_decide (ct_container_id self = container_id)) then (Action_None, self)
  else
    let self := set_ct_state Term_Exited (next_generations (set_ct_selected_running false self)) in
    (Action_Close (ct_generation self), set_ct_error_message [] (set_ct_error_kind [] self)).

Definition close self : TerminalSelectionAction * ContainerTerminalControllerState :=
  let had_session := has_session self in
  let self := next_generations self in
  let self := set_ct_state (if is_empty (ct_container_id self) then Term_Idle else Term_Exited) self in
  (if had_session then Action_Close (ct_generation self) else Action_None, self).

(** ** Sequences of events *)
Inductive terminal_op :=
  | TActive (active : bool)
  | TSelect (container_id : text) (running : bool)
  | TClear
  | TConnect
  | TConnected (generation : Z) (shell : text)
  | TConnectError (generation : Z) (error : ContainerTerminalError)
  | TInput
  | TResize (rows columns : Z)
  | TTakeResize (generation : Z)
  | TExited (generation : Z) (exit_code : option Z)
  | TStreamError (generation : Z) (error : ContainerTerminalError)
  | TInvalidated (container_id : text)
  | TClose.

Definition page_step self (op : terminal_op) : TerminalSelectionAction * ContainerTerminalControllerState :=
  match op with
  | TActive active => set_active active self
  | TSelect container_id running => select_container container_id running self
  | TClear => clear_selection self
  | TConnect => begin_connect self
  | TConnected generation shell => (Action_None, (apply_connected generation shell self).2)
  | TConnectError generation error => (Action_None, (apply_connect_error generation error self).2)
  | TInput => (Action_None, (accept_input self).2)
  | TResize rows columns => (Action_None, (request_resize rows columns self).2)
  | TTakeResize generation => (Action_None, (take_pending_resize generation self).2)
  | TExited generation exit_code => (Action_None, (apply_exited generation exit_code self).2)
  | TStreamError generation error => (Action_None, (apply_stream_error generation error self).2)
  | TInvalidated container_id => container_event_invalidated container_id self
  | TClose => close self
  end.
Definition page_run (ops : list terminal_op) : ContainerTerminalControllerState :=
  foldl (fun s op => (page_step s op).2) TerminalState_default ops.

Record terminal_inv s : Prop := {
  ti_session : has_session s = true → ct_selected_running s = true ∧ ct_container_id s ≠ [];
  ti_resize : ∀ p, ct_pending_resize s = Some p →
    ct_state s = Term_Ready ∧ p = mkPendingResize (ct_resize_generation s) (ct_rows s) (ct_columns s);
  ti_size : ct_rows s ≠ 0 ∧ ct_columns s ≠ 0;
}.

(** Without a session and a pending resize nothing else matters. *)
Lemma ended_inv s : has_session s = false → ct_pending_resize s = None → ct_rows s ≠ 0 → ct_columns s ≠ 0 → terminal_inv s.
Proof. intros H1 H2 H3 H4. split; [congruence | congruence | done]. Qed.

Lemma begin_connect_inv s : terminal_inv s → terminal_inv (begin_connect s).2.
Proof.
  intros Hi. unfold begin_connect. destruct (_ || _) eqn:E; [done |]. apply orb_false_iff in E as [[_ E1%negb_false_iff]%orb_false_iff E2].
  split; [| done | apply Hi]. intros _. cbn. split; [done |]. by destruct (ct_container_id s).
Qed.

Lemma select_container_inv id b s : terminal_inv s → terminal_inv (select_container id b s).2.
Proof.
  intros Hi. unfold select_container. destruct (_ && Bool.eqb _ _); [done |]. set (s1 := clear_outcome _).
  assert (terminal_inv s1) as Hi1 by (destruct Hi as [_ _ [? ?]]; by apply ended_inv).
  destruct (_ && negb _); [by apply begin_connect_inv | by destruct (has_session s)].
Qed.

Lemma terminal_step_inv s op : terminal_inv s → terminal_inv (page_step s op).2.
Proof.
  intros Hi. pose proof Hi as [Hs Hr [H1 H2]].
  destruct op as [b|id b| | |g sh|g e| |r c|g|g x|g e|id|]; cbn [page_step snd].
  - unfold set_active. assert (terminal_inv (set_ct_active b s)) as Hi1 by by split.
    destruct (_ && bool_decide _); [by apply begin_connect_inv | done].
  - by apply select_container_inv.
  - by apply select_container_inv.
  - by apply begin_connect_inv.
  - unfold apply_connected. destruct (_ || _) eqn:E; [done |]. apply orb_false_iff in E as [_ E%negb_false_iff].
    unfold connecting in E. apply bool_decide_eq_true in E. split; [| | done]; cbn.
    + intros _. apply Hs. unfold has_session. by rewrite E.
    + intros p Hp. destruct (Hr p Hp). congruence.
  - unfold apply_connect_error. destruct (_ || _) eqn:E; [done |]. apply orb_false_iff in E as [_ E%negb_false_iff].
    unfold connecting in E. apply bool_decide_eq_true in E. apply ended_inv; [by destruct e | | done | done].
    cbn. destruct (ct_pending_resize s) as [p|] eqn:Ep; [| done]. destruct (Hr p eq_refl). congruence.
  - unfold accept_input. destruct (negb _); [done |]. by split.
  - unfold request_resize. destruct (_ || _) eqn:E; [done |]. apply orb_false_iff in E as [[E%negb_false_iff E1]%orb_false_iff E2].
    apply bool_decide_eq_true in E. destruct (_ && match _ with None => true | Some _ => false end); [done |]. cbn [snd].
    split; cbn; [exact Hs | intros p [= <-]; done | split; lia].
  - unfold take_pending_resize. destruct (ct_pending_resize s) as [p|] eqn:Ep; [| done]. destruct (_ =? _); [| done]. by split.
  - unfold apply_exited. destruct (negb _); [done |]. by apply ended_inv.
  - unfold apply_stream_error. destruct (negb _); [done |]. by apply ended_inv.
  - unfold container_event_invalidated. destruct (negb _); [done |]. by apply ended_inv.
  - unfold close. cbn [snd]. apply ended_inv; [| done | done | done]. cbn. by destruct (is_empty (ct_container_id s)).
Qed.

Lemma page_run_inv ops : terminal_inv (page_run ops).
Proof.
  unfold page_run. assert (terminal_inv TerminalState_default) as Hi by by apply ended_inv.
  generalize dependent TerminalState_default. induction ops as [|op ops IH]; intros s Hs; [done |]. apply IH. by apply terminal_step_inv.
Qed.

(** A session that was there and is not any more is closed or replaced by the action
    the step asks for, unless the session itself reported its end. *)
Definition reports_end (op : terminal_op) : bool :=
  match op with TConnectError _ _ | TExited _ _ | TStreamError _ _ => true | _ => false end.

Lemma begin_connect_action s :
  match begin_connect s with
  | (Action_Connect g, s') => ct_generation s' = g ∧ ct_state s' = Term_Connecting
  | (Action_None, s') => s' = s
  | (Action_Close _, _) => False
  end.
Proof. unfold begin_connect. by destruct (_ || _). Qed.

Lemma page_step_action s op :
  reports_end op = false → has_session s = true →
  let '(action, s') := page_step s op in
  match action with
  | Action_None => has_session s' = true ∧ ct_generation s' = ct_generation s ∧ ct_container_id s' = ct_container_id s
  | Action_Connect g => ct_generation s' = g ∧ ct_state s' = Term_Connecting
  | Action_Close g => ct_generation s' = g ∧ has_session s' = false
  end.
Proof.
  intros Ho Hs. assert (∀ id b, let '(action, s') := select_container id b s in
    match action with
    | Action_None => has_session s' = true ∧ ct_generation s' = ct_generation s ∧ ct_container_id s' = ct_container_id s
    | Action_Connect g => ct_generation s' = g ∧ ct_state s' = Term_Connecting
    | Action_Close g => ct_generation s' = g ∧ has_session s' = false
    end) as Hselect.
  { intros id b. unfold select_container. destruct (_ && Bool.eqb _ _); [done |]. rewrite Hs. set (s1 := clear_outcome _).
    destruct (_ && negb _) eqn:E; [| done]. apply andb_prop in E as [[Ea Eb]%andb_prop Ec%negb_true_iff].
    unfold begin_connect. assert (ct_active s1 = true) as -> by exact Ea. assert (ct_selected_running s1 = b) as -> by done.
    assert (ct_container_id s1 = trim id) as -> by done. by rewrite Eb, Ec. }
  destruct op as [b|id b| | |g sh|g e| |r c|g|g x|g e|id|]; cbn [page_step]; try done.
  - unfold set_active. destruct (_ && bool_decide _) eqn:E; [| done]. apply andb_prop in E as [_ E%bool_decide_eq_true].
    unfold has_session in Hs. change (ct_state (set_ct_active b s)) with (ct_state s) in E. by rewrite E in Hs.
  - apply Hselect.
  - apply Hselect.
  - pose proof (begin_connect_action s) as H. destruct (begin_connect s) as [[| |] s']; [by subst | done | done].
  - unfold apply_connected. by destruct (_ || _).
  - unfold accept_input. by destruct (negb _).
  - unfold request_resize. destruct (_ || _); [done |]. by destruct (_ && match _ with None => true | Some _ => false end).
  - unfold take_pending_resize. destruct (ct_pending_resize s); [| done]. by destruct (_ =? _).
  - unfold container_event_invalidated. by destruct (negb _).
  - unfold close. rewrite Hs. cbn. split; [done |]. by destruct (is_empty (ct_container_id s)).
Qed.

(** The terminal page never loses a session.  After any sequence of actions,
    answers and events, current or late: there is a session, connecting or ready,
    only for a running container that is named; a resize waits only while it is
    ready, once, and with the size the page has; the size is never zero.  And
    whenever a step ends a session that did not report its own end, it asks for
    closing it or for the connection that replaces it, under the page's new
    generation. *)
Theorem terminal_page_consistent ops :
  let s := page_run ops in
  (ct_state s = Term_Connecting ∨ ct_state s = Term_Ready → ct_selected_running s = true ∧ ct_container_id s ≠ [])
  ∧ (∀ p, ct_pending_resize s = Some p → ct_state s = Term_Ready ∧ p = mkPendingResize (ct_resize_generation s) (ct_rows s) (ct_columns s))
  ∧ ct_rows s ≠ 0 ∧ ct_columns s ≠ 0
  ∧ ∀ op, reports_end op = false → ct_state s = Term_Connecting ∨ ct_state s = Term_Ready →
      let '(action, s') := page_step s op in
      match action with
      | Action_None => (ct_state s' = Term_Connecting ∨ ct_state s' = Term_Ready) ∧ ct_generation s' = ct_generation s
                       ∧ ct_container_id s' = ct_container_id s
      | Action_Connect g => ct_generation s' = g ∧ ct_state s' = Term_Connecting
      | Action_Close g => ct_generation s' = g ∧ ct_state s' ≠ Term_Connecting ∧ ct_state s' ≠ Term_Ready
      end.
Proof.
  intros s. destruct (page_run_inv ops) as [Hs Hr [H1 H2]]. fold s in Hs, Hr, H1, H2.
  assert (∀ t, has_session t = true ↔ ct_state t = Term_Connecting ∨ ct_state t = Term_Ready) as Hiff.
  { intros t. unfold has_session. destruct (ct_state t); naive_solver. }
  split_and!; [by rewrite <- Hiff | exact Hr | done | done |]. intros op Ho Hses. apply Hiff in Hses.
  pose proof (page_step_action s op Ho Hses) as H. destruct (page_step s op) as [[|g|g] s']; [by rewrite <- Hiff | done |].
  destruct H as [-> H]. split; [done |]. unfold has_session in H. by destruct (ct_state s').
Qed.
End session.

(** ** The screen shows its own session *)
Inductive render_op :=
  | RReset (generation rows columns : Z)
  | RProcess (generation : Z) (data : list byte)
  | RResize (generation rows columns : Z)
  | RScroll (generation lines : Z)
  | RBottom (generation : Z).

Section rendering.
Context {VT : Vt100}.

Definition render_step (self : ContainerTerminalRenderer) (op : render_op) : ContainerTerminalRenderer :=
  match op with
  | RReset generation rows columns => renderer_new generation rows columns
  | RProcess generation data => (process generation data self).2
  | RResize generation rows columns => (resize generation rows columns self).2
  | RScroll generation lines => (scroll_lines generation lines self).2
  | RBottom generation => (snap_to_bottom generation self).2
  end.
Definition op_generation (op : render_op) : option Z :=
  match op with RReset _ _ _ => None | RProcess g _ | RResize g _ _ | RScroll g _ | RBottom g => Some g end.

Lemma render_step_other self op g : op_generation op = Some g → g ≠ rd_generation self → render_step self op = self.
Proof.
  destruct op; cbn [op_generation]; intros [= ->] Hg; cbn [render_step];
    unfold process, resize, scroll_lines, snap_to_bottom; by rewrite (proj2 (Z.eqb_neq _ _) Hg).
Qed.
Lemma render_step_generation self op g : op_generation op = Some g → rd_generation (render_step self op) = rd_generation self.
Proof.
  destruct op; cbn [op_generation]; intros [= ->]; cbn [render_step]; unfold process, resize, scroll_lines, snap_to_bottom.
  - by destruct (_ || _).
  - destruct (_ || _); [done |]. by case_bool_decide.
  - by destruct (_ || _).
  - by destruct (_ || _).
Qed.

(** Output of an old session never reaches the screen of a new one: once the
    renderer is reset for a generation, what it shows is what the requests of that
    generation alone produce, whatever requests of other generations come between. *)
Theorem renderer_isolated self generation rows columns ops :
  forallb (fun op => match op_generation op with Some _ => true | None => false end) ops = true →
  foldl render_step self (RReset generation rows columns :: ops)
  = foldl render_step (renderer_new generation rows columns)
      (List.filter (fun op => bool_decide (op_generation op = Some generation)) ops).
Proof.
  cbn [foldl render_step]. assert (rd_generation (renderer_new generation rows columns) = generation) as Hg by done.
  generalize dependent (renderer_new generation rows columns). clear self. induction ops as [|op ops IH]; intros self Hg Hops; [done |].
  apply andb_prop in Hops as [Hop Hops]. destruct (op_generation op) as [g|] eqn:Eg; [| done]. cbn [foldl List.filter].
  case_bool_decide as E.
  - rewrite Eg in E. cbn [foldl]. apply IH; [| done]. rewrite (render_step_generation _ _ _ Eg). done.
  - rewrite (render_step_other self op g Eg) by congruence. by apply IH.
Qed.
End rendering.

(** The parser that keeps what it was given. *)
Definition plain_vt100 : Vt100 :=
  {| Parser := list byte * (Z * Z) * Z;
     parser_new rows columns _ := ([], (rows, columns), 0);
     parser_process data p := (p.1.1 ++ data, p.1.2, p.2);
     screen_size p := p.1.2;
     screen_set_size rows columns p := (p.1.1, (rows, columns), p.2);
     screen_scrollback p := p.2;
     screen_set_scrollback n p := (p.1, n);
     screen_rows p _ _ := [p.1.1];
     screen_cursor_position _ := (0, 0);
     screen_hide_cursor _ := false;
     screen_alternate_screen _ := false;
     screen_application_cursor _ := false;
     screen_bracketed_paste _ := false |}.

Lemma renderer_isolated_witness :
  let ops := [RProcess 1 (bytes "old"); RProcess 2 (bytes "new")] in
  forallb (fun op => match op_generation op with Some _ => true | None => false end) ops = true
  ∧ rd_parser (foldl (render_step (VT := plain_vt100)) (renderer_default (VT := plain_vt100)) (RReset 2 24 80 :: ops)) = (bytes "new", (24, 80), 0).
Proof.
  intros ops. split; [reflexivity |]. rewrite (renderer_isolated (VT := plain_vt100) _ 2 24 80 ops); reflexivity.
Defined.

Lemma terminal_key_examples :
  terminal_key_bytes (bytes "Ctrl+C") false = Some [of_u8 3] ∧ terminal_key_bytes (bytes "up") true = Some (ESC :: bytes "OA")
  ∧ terminal_key_bytes (bytes "up") false = Some (ESC :: bytes "[A") ∧ terminal_key_bytes (bytes "ctrl+1") false = None
  ∧ terminal_paste_bytes (bytes "x") true = ESC :: bytes "[200~x" ++ ESC :: bytes "[201~".
Proof. vm_compute. done. Qed.
